(* ===== verification/_CoqProject ===== *)
-Q . S2P
Prelude.v
HuffmanTables.v
Huffman.v
H2Error.v
HpackInteger.v
HpackTable.v
HpackRepr.v
Headers.v
Parts.v
HpackDecoder.v
HpackEncoder.v
H2Frame.v
FrameDecoder.v
FrameEncoder.v
FrameRoundtrip.v
H2Window.v
H2Streams.v
H2Accounting.v
H2FlowControl.v
ChunkDecoder.v
ChunkEncoder.v
Body.v
ChunkReader.v
ChunkProgress.v
Message.v
Uri.v
Percent.v
H1Encoder.v
H1EncoderSpec.v
H1Decoder.v
H1DecoderSpec.v
Base64.v
Normalizer.v
Redirect.v
IpAddr.v
Proxy.v
Utf8.v
AltSvc.v
H3Error.v
Varint.v
QpackTable.v
QpackInteger.v
QpackRepr.v
QpackFormat.v
QpackDecoder.v
QpackEncoder.v
QpackSection.v
H3Frame.v
H3Encoder.v
H3Decoder.v
H3EncoderSpec.v
H3Roundtrip.v
MultiPart.v
RequestBody.v
Downloader.v
Mime.v
MimeEncoder.v
MimeEncoderSpec.v
MimeDecoder.v
MimeRoundtrip.v
ChunkTrailer.v
HttpBody.v
RateLimit.v
Http1Conn.v
H2Manager.v
H2ManagerSpec.v
H2Io.v
H2IoSpec.v
H2OutputSpec.v
H2Conn.v
H2ConnSpec.v
H3Streams.v
H3StreamsSpec.v
H3Manager.v
H3ManagerSpec.v
H3Io.v
H3IoSpec.v
H3Conn.v
H3ConnSpec.v
Pool.v
