(* ===== verification/Prelude.v ===== *)
(** * ylong_http: a verification library

    [ylong_http] (crate [src/ylong_http]) implements the HTTP protocols as state
    machines over byte slices: it does no I/O.  [ylong_http_client] (crate
    [src/ylong_http_client]) drives them over sockets.  This development models
    the protocol machines, and of the client the connections of HTTP/1.1, HTTP/2
    and HTTP/3, from a request to the last byte of the body of its response, with
    the tasks in between; and proves them against RFC 2046, RFC 7541, RFC 9112,
    RFC 9113, RFC 9114 and RFC 9204.

    ** The parts and how they interact

    A peer's bytes go to [FrameDecoder.FrameDecoder_decode]
    ([src/ylong_http/src/h2/decoder.rs]); it cuts them into frames and gives
    field blocks to [HpackDecoder.HpackDecoder_decode]
    ([h2/hpack/decoder.rs]), which runs the resumable representation decoder
    ([HpackRepr], [h2/hpack/representation/decoder.rs]), on top of the integer
    decoder ([HpackInteger], [h2/hpack/integer.rs]) and the Huffman decoder
    ([Huffman], [huffman/mod.rs]), and applies each representation to the dynamic
    table ([HpackTable], [h2/hpack/table.rs]) and to [Parts] ([Parts],
    [h2/parts.rs], [pseudo.rs]; [Headers], [headers.rs]).  The way back is
    [FrameEncoder.set_frame] and [FrameEncoder.FrameEncoder_encode]
    ([h2/encoder.rs]), over [HpackEncoder.HpackEncoder_encode]
    ([h2/hpack/encoder.rs], [h2/hpack/representation/encoder.rs]).  Between the
    two, the client keeps the state of every stream, the queue of requests that
    wait for a place, and the flow control windows ([H2Streams], [H2Window],
    [src/ylong_http_client/src/util/h2]).

    In HTTP/1.1 a request is written by [H1Encoder.Encoder_encode]
    ([h1/request/encoder.rs]) from its method and version ([Message]), its URI
    ([Uri], [request/uri/mod.rs], after [Percent], [percent_encoding.rs]) and its
    fields; the response is read by [H1Decoder.ResponseDecoder_decode]
    ([h1/response/decoder.rs]); a body of unknown length is written and read in
    chunks ([ChunkEncoder], [ChunkReader], [ChunkDecoder], [body/chunk.rs]).

    In HTTP/3 the bytes of a stream go to [H3Decoder.h3_decode]
    ([h3/decoder.rs]), whose frames are bounded by integers of variable length
    ([Varint], [h3/octets.rs]) and whose header blocks go to
    [QpackDecoder.decode_repr] ([h3/qpack/decoder.rs], over [QpackRepr] and
    [QpackTable]); [H3Encoder.set_frame] and [H3Encoder.h3_encode]
    ([h3/encoder.rs]) write frames, with the header blocks of
    [QpackEncoder.qe_encode] ([h3/qpack/encoder.rs], over [QpackFormat]).

    The body of a request is empty, a slice, a stream, or a form
    ([RequestBody], [MultiPart]); general multiparts are written and read by
    [MimeEncoder] and [MimeDecoder] ([body/mime]).

    The client takes a connection from its pool ([Pool.connect_to],
    [async_impl/pool.rs]) and sends the request over it.  Over HTTP/1.1
    [Http1Conn.http1_request] ([async_impl/conn/http1.rs]) writes head and body and
    reads the head of the response.  Over HTTP/2 [H2Conn.http2_request]
    ([async_impl/conn/http2.rs]) gives the manager of the connection
    ([H2Manager.poll], [util/h2/manager.rs]) a frame; the manager keeps the streams
    and hands frames to the input task ([H2Io.input_poll], [util/h2/input.rs]),
    which encodes and writes them; the output task ([H2Io.poll_read_frame],
    [util/h2/output.rs]) reads and decodes what comes, and the manager hands it to
    the channel of the stream.  Over HTTP/3 [H3Conn.http3_request]
    ([async_impl/conn/http3.rs]) does the same with the stream manager
    ([H3Manager.poll], [util/h3/stream_manager.rs]) over the streams of
    [H3Streams] ([util/h3/streams.rs]), which calls QUIC, for which the datagram
    task ([H3Io.io_poll], [util/h3/io_manager.rs]) reads and writes.  In all
    three the body of the response is read by [HttpBody.http_poll_data]
    ([async_impl/http_body.rs]) from the connection or from the channel, within the
    limits of [RateLimit] ([util/progress/rate_limit.rs]), and may be stored by
    [Downloader] ([async_impl/downloader]).

    Before a request is written, the client completes its URI and fields
    ([Normalizer], [util/normalizer.rs]), chooses a proxy and opens a tunnel
    through it ([Proxy], [util/proxy.rs]), and after the response it follows
    redirects ([Redirect], [util/redirect.rs] and the loop of
    [async_impl/client.rs]) and keeps alternative services ([AltSvc],
    [util/alt_svc.rs]).

    - [Prelude]: bytes, results, the state and error monad, machine words,
      tactics, hint databases, lemmas on slices and big-endian integers.
    - [HuffmanTables], [Huffman]: the tables of [huffman/consts.rs] entry by
      entry; the encoder with its 64-bit accumulator; the decoder table walk.
    - [H2Error]: [h2/error.rs].  [H2Frame]: [h2/frame.rs].
    - [HpackInteger], [HpackTable], [HpackRepr], [HpackDecoder], [HpackEncoder]:
      the directory [h2/hpack].
    - [Headers], [Parts]: [headers.rs], [pseudo.rs], [h2/parts.rs].
    - [FrameDecoder], [FrameEncoder]: [h2/decoder.rs], [h2/encoder.rs].
    - [FrameRoundtrip]: the two frame machines together.
    - [H2Window], [H2Streams]: the client's [h2/buffer] and [h2/streams.rs];
      [H2Accounting], [H2FlowControl]: what holds of them.
    - [ChunkDecoder], [ChunkEncoder], [ChunkReader]: [body/chunk.rs];
      [ChunkProgress]: the loop of the encoder ends.
    - [Message], [Uri], [Percent]: [request/method.rs], [version.rs],
      [response/status.rs], [request/uri].
    - [H1Encoder], [H1EncoderSpec], [H1Decoder], [H1DecoderSpec]: [h1].
    - [H3Error], [Varint]: [h3/error.rs], [h3/qpack/error.rs], [h3/octets.rs].
    - [QpackTable], [QpackInteger], [QpackRepr], [QpackFormat], [QpackDecoder],
      [QpackEncoder]: the directory [h3/qpack]; [QpackSection]: what one side
      writes and the other reads.
    - [H3Frame], [H3Encoder], [H3Decoder]: [h3/frame.rs], [h3/stream.rs],
      [h3/encoder.rs], [h3/decoder.rs]; [H3EncoderSpec]: the wire format of
      RFC 9114 and the encoder against it; [H3Roundtrip]: both endpoints.
    - [Body]: what bodies are read from, [body/mod.rs], and [body/empty.rs],
      [body/text.rs]; [ChunkTrailer]: trailers of [body/chunk.rs], and bodies in pieces.
    - [MultiPart]: [body/mime/simple.rs]; [Mime], [MimeEncoder], [MimeDecoder]:
      the directories [body/mime/common], [encode] and [decode];
      [MimeEncoderSpec]: the text of RFC 2046; [MimeRoundtrip]: both together.
    - [RequestBody]: [request/mod.rs], and the client's [async_impl/request.rs] and
      [async_impl/uploader]; [Downloader]: [async_impl/downloader].
    - [HttpBody], [RateLimit], [Http1Conn]: [async_impl/http_body.rs],
      [util/progress/rate_limit.rs], [async_impl/conn/http1.rs] with the dispatcher
      of HTTP/1.1 in [util/dispatcher.rs].
    - [H2Manager], [H2Io], [H2Conn]: [util/h2/manager.rs], [util/h2/input.rs] and
      [output.rs], [async_impl/conn/http2.rs], with the dispatcher of HTTP/2;
      [H2ManagerSpec], [H2IoSpec], [H2OutputSpec], [H2ConnSpec]: what holds of
      them.
    - [H3Streams], [H3Manager], [H3Io], [H3Conn]: [util/h3/streams.rs],
      [stream_manager.rs] and [io_manager.rs], [async_impl/conn/http3.rs], with
      the handle of HTTP/3 in [util/dispatcher.rs]; [H3StreamsSpec],
      [H3ManagerSpec], [H3IoSpec], [H3ConnSpec]: what holds of them.
    - [Pool]: [async_impl/pool.rs], [util/pool.rs].
    - [Base64], [Normalizer], [Redirect], [Proxy], [AltSvc]: the files of the
      client's [util] with these names; [IpAddr] and [Utf8]: texts and
      addresses of the standard library.

    ** Conventions

    A [u8], [u32] or [usize] is a [Z], a [Vec<u8>], slice or [String] a list of
    them ([bytes]).  A [Result] is [result]; its third case [Panic] is a panic:
    an [unwrap] of an error, an index or a slice out of range, an arithmetic
    operation that goes below zero (as in a build with overflow checks).  A
    method with [&mut self] is a function in the monad [ST], whose state is kept
    when it returns an error.  A method that fills a [&mut [u8]] takes what the
    slice holds and gives what it holds afterwards, or, in [HpackEncoder], takes
    the room and gives the bytes written.  The [HashMap] of header fields is a
    [gmap]; the order in which it is visited is an argument ([hash_order] of
    [FrameEncoder.set_frame], [order] in [HpackEncoder]) and the theorems hold
    for every order.

    What lies outside (sockets, channels, timers, QUIC, the bodies of the user) is a
    world of any type and a class of the calls made to it; a second class has the
    laws that theorems rely on, and an instance of both runs the examples:
    [Body.AsyncRead] with [Body.ReaderLaws], and [Body.ReuseLaws] where it can be read
    again; [Http1Conn.AsyncWrite] and
    [Http1Conn.WriteAll] with [Http1Conn.StreamLaws]; [H2Manager.Runtime] with
    [H2Manager.RuntimeLaws]; [H2Io.FrameWriter] and [H2Io.MessageSink] with
    [H2IoSpec.WriterLaws] and [H2OutputSpec.OutputLaws]; [H2Conn.RespChannel]
    with [H2ConnSpec.RespLaws]; [H3Streams.H3World] with [H3StreamsSpec.H3Laws];
    [H3Manager.H3Net] with [H3ManagerSpec.H3NetLaws]; [H3Io.DatagramNet] with
    [H3IoSpec.DatagramLaws]; [H3Conn.H3RespChannel] with [H3ConnSpec.H3RespLaws].
    A poll is a call; what other tasks do between two calls is a change of the
    world.  The mutex of the settings, which three tasks of HTTP/2 share, is in the
    output task the sequence of what it will find there ([H2Io.Locks]), of which
    nothing is assumed.

    ** What the theorems show

    - A request and its response, end to end: [Http1Conn.http1_exchange],
      [H2ConnSpec.http2_exchange], [H3ConnSpec.http3_exchange]; the body of the
      response, [HttpBody.http_body_delivers]; what the request becomes,
      [H2ConnSpec.request_as_headers], [MultiPart.multipart_form_data],
      [MultiPart.multipart_ends], [MultiPart.gen_boundary_spec],
      [RequestBody.request_body_length], [RequestBody.uploader_counts];
      [Downloader.download_delivers].
    - The tasks between them lose, double and reorder nothing:
      [H2ManagerSpec.responses_in_order], [H2ManagerSpec.response_accepted],
      [H2IoSpec.input_frames_delivered], [H2OutputSpec.output_messages_in_order],
      [H3StreamsSpec.h3_streams_refine] (a promise for each stream of what its
      task will hear), [H3ManagerSpec.h3_frame_sent],
      [H3ManagerSpec.h3_response_read], [H3IoSpec.datagrams_moved].
    - Their errors: [Http1Conn.http1_error_closes], [H2ManagerSpec.exit_tells_all],
      [H2ManagerSpec.goaway_drains], [H3ManagerSpec.h3_error_closes],
      [H3ManagerSpec.h3_goaway_ends_all].
    - The pool, for all interleavings of its tasks: [Pool.pool_safe].
    - Speed limits: [RateLimit.max_speed_bounds], [RateLimit.min_speed_enforced].
    - Multiparts: [MimeEncoderSpec.mime_encode_writes],
      [MimeRoundtrip.mime_roundtrip]; a text body, [Body.text_decode_pieces].

    - Round trips through both machines: [FrameRoundtrip.headers_roundtrip],
      [FrameRoundtrip.frame_roundtrip], [HpackEncoder.hpack_roundtrip], and of
      the parts: [Huffman.huffman_decode_iff], [HpackInteger.integer_roundtrip],
      [HpackRepr.repr_wire_decode], [H2Error.error_code_roundtrip]; of a chunked
      body, [ChunkEncoder.chunk_body_roundtrip]; of a URI, [Uri.uri_roundtrip];
      of base64 and credentials, [Base64.base64_roundtrip],
      [Proxy.proxy_credentials]; of HTTP/3, [H3Roundtrip.h3_message_roundtrip],
      [QpackSection.qpack_roundtrip], [QpackSection.qpack_line_roundtrip],
      [QpackSection.qpack_inst_roundtrip], [Varint.varint_roundtrip] and
      [H3Error.h3_code_roundtrip].
    - Segmentation: any cut of the input, or any size of the buffers, gives the
      same outcome as the whole: [FrameDecoder.frame_decode_segments],
      [HpackDecoder.hpack_decode_segments], [HpackRepr.repr_decode_resumes],
      [Huffman.huffman_chunks_refine], [HpackEncoder.hpack_encode_segments].
      They rest on the classes [HpackRepr.Resumable] (a decoder that can be cut),
      [HpackEncoder.Writer] (an encoder that can be cut) and
      [FrameDecoder.Unbuffered] (code that does not see the buffer).  The machines
      of HTTP/1.1 are compared with automata that read one byte at a time, or
      with the message they are to write:
      [H1DecoderSpec.response_decode_refines],
      [H1DecoderSpec.response_decode_segments],
      [ChunkDecoder.chunk_decode_refines], [ChunkTrailer.chunk_decode_segments],
      [H3EncoderSpec.h3_encode_refines],
      [H1EncoderSpec.request_encode_refines] (over the classes
      [H1EncoderSpec.TokenWriter], [H1EncoderSpec.UriLaws] and
      [H1EncoderSpec.HeaderLaws]).
    - Equivalence: the two request encoders, [H1EncoderSpec.request_ref_equiv];
      the synchronous and the asynchronous body, [ChunkReader.poll_data_equiv].
      The search for the end of an answer, [Proxy.response_boundaries_equiv];
      the static table of QPACK and RFC 9204, [QpackTable.qpack_static_table].
    - Termination: [H2ManagerSpec.manager_poll_terminates],
      [ChunkProgress.bytes_data_total],
      [Redirect.redirect_loop_ends], [H3Decoder.h3_decode_terminates],
      [QpackDecoder.qpack_decode_terminates]; liveness: [Proxy.tunnel_reaches_verdict].
    - Functional specifications: [Huffman.huffman_encode_spec],
      [HpackInteger.integer_encoder_spec], [HpackDecoder.hpack_decode_block],
      [FrameDecoder.field_block_spec], [FrameDecoder.get_setting_spec],
      [FrameEncoder.encode_frame_spec], [Headers.headers_append_spec],
      [H2Frame.update_setting_spec], [H2Frame.flags_set_get],
      [H1DecoderSpec.response_wellformed], [ChunkEncoder.chunk_body_spec],
      [ChunkReader.chunk_reader_spec], [Percent.percent_idempotent],
      [H2FlowControl.poll_body_spec], [H2FlowControl.release_windows_spec],
      [H2FlowControl.send_initial_spec], [H2Accounting.consume_fifo],
      [Normalizer.uri_format_spec], [Normalizer.request_format_spec],
      [Normalizer.body_length_spec], [Proxy.proxy_choice],
      [AltSvc.alt_svc_wellformed], [H3Roundtrip.h3_request_stream].
    - Refinement: the dynamic table keeps the newest entries that fit,
      [HpackTable.dynamic_table_refines]; the events of a stream move it as
      RFC 9113 section 5.1 says, but for the reset of an idle stream,
      [H2Streams.stream_events_rfc].
    - Invariants, bounds and safety: [HpackDecoder.hpack_decode_invariant],
      [HpackInteger.integer_decoder_bound], [FrameDecoder.frame_decode_panics],
      [FrameDecoder.open_block_refuses], [QpackTable.qpack_table_type],
      [H2Accounting.streams_accounting],
      [H2FlowControl.send_windows_safe], [Redirect.redirect_next_spec].
    - Behaviour that differs from what the code means to do, stated as it is:
      [HpackTable.searcher_index_wrong_value],
      [HpackDecoder.hpack_decode_literal_panic],
      [HpackDecoder.hpack_size_update_any], [FrameDecoder.priority_in_segments],
      [FrameDecoder.push_promise_wrong_block],
      [FrameDecoder.padded_empty_headers_panic],
      [FrameDecoder.unsolicited_continuation], [FrameEncoder.data_split_repeats],
      [H2Accounting.reset_of_waiting], [ChunkEncoder.chunk_body_never_ends],
      [ChunkEncoder.chunk_size_restarts], [AltSvc.alt_svc_panics],
      [QpackSection.qpack_increment_panics], [H3EncoderSpec.h3_id_frame_short],
      and the examples at the end of [QpackTable], [QpackSection],
      [H3Roundtrip], [FrameEncoder], [ChunkEncoder], [Uri], [Percent],
      [H1DecoderSpec], [Normalizer], [Redirect], [Proxy], [AltSvc], [MultiPart],
      [RequestBody], [Downloader], [MimeEncoder], [MimeDecoder], [HttpBody],
      [RateLimit], [Http1Conn], [H2ManagerSpec], [H2OutputSpec], [H2ConnSpec],
      [H3StreamsSpec], [H3ManagerSpec], [H3IoSpec], [H3ConnSpec] and [Pool].

    ** Loops

    The loops of the source that are not structural take fuel, and the fuel is
    shown to be enough: [HpackDecoder.decode_fuel] (each representation takes a
    byte), [FrameDecoder.frames_fuel] (two turns take a byte,
    [FrameDecoder.FrameDecoder_decode_step] unrolls the loop without fuel),
    [HpackEncoder.iter_fuel] (one line a turn), [FrameEncoder.encode_fuel] (two
    turns write a byte or end a frame), [H2Streams.consume_loop] and
    [H2Streams.reassign_loop] (one stream of a queue a turn),
    [ChunkDecoder.decode_fuel] (a chunk takes a byte), [ChunkEncoder.data_fuel]
    (a few turns write a byte), [H1Encoder.encode_fuel] (a turn fills the buffer
    or ends a token), [H1Encoder.hr_value_fuel] (one value a turn),
    [H1Decoder.header_fuel] (a turn takes a colon), [Redirect.redirect_fuel] (a
    turn is a redirect), [Proxy.tunnel_fuel] (a turn reads a byte),
    [QpackDecoder.loop_fuel] (a line or an instruction takes a byte),
    [QpackTable.evict_fuel] (a turn takes from the size),
    [H3Decoder.turns_fuel] (three turns take a byte), and the three turns of
    [H3Encoder.encode_turns] (a frame is begun in one turn, and the next one
    returns).  Running out of fuel is [Panic], which
    the theorems exclude.

    A loop that goes on as long as the world lets it takes a number of turns, and
    the theorems say which number is enough: [H2Manager.poll_loop] (four and the
    messages) and [H2Manager.body_loop] (the window and two), which have what would be
    done after the last turn as an argument, so that
    [H2ManagerSpec.manager_poll_terminates] can say that it is never done; [H2Io.encoding_loop]
    and [H2Io.encoded_loop] (the bytes and a few), [H3Manager.frame_loop] (more than
    the bytes of the frame), [H3Manager.read_loop] (more than the reads),
    [H3Streams.consume_loop] (a stream a turn), [H3Io.io_send_loop] and
    [H3Io.io_poll_loop] (the work that there is, [H3IoSpec.datagrams_moved]).
    [H2Io.poll_read_frame], [H2Conn.text_loop] and [H3Conn.h3_text_loop] may also be
    cut: all they know is in their structure, and the next poll goes on.  The
    [patience] and [turns] of a request ([Http1Conn], [H2Conn], [H3Conn]) are how
    often its task is polled before it is dropped.

    ** Not modelled

    - Of the frame encoder of HTTP/2, no theorem resumes a PRIORITY, GOAWAY or
      CONTINUATION frame that a buffer cuts; the definitions do, and the examples at
      the end of [FrameEncoder] show what goes wrong there.
    - Spawning tasks and aborting them when a connection is dropped, time
      measurement and the monitor, the mutexes around QUIC and around a split
      stream: the runtime.
    - QUIC itself and its set-up, TLS over OpenSSL, DNS and sockets: third-party code,
      foreign functions and I/O.  The classes above are what is relied on.
    - The tables of media types, the builders of responses and of the client, and
      iterators over header maps: data and setters without decisions.
    - The synchronous client, which is the asynchronous one without waiting, and
      the benchmarks and their fixtures. *)

From stdpp Require Export base numbers list option strings.
From Stdlib Require Export Lia.

#[local] Open Scope Z_scope.

(** ** Bytes, lengths, slices

    A byte is a [Z] in [0, 256); a [Vec<u8>], [&[u8]] or [String] is a list of
    them.  Lengths and indices ([usize]) are [Z]. *)

Abbreviation bytes := (list Z).

Definition is_byte (b : Z) : Prop := 0 ≤ b < 256.

Definition len {A} (l : list A) : Z := Z.of_nat (length l).

Definition takeZ {A} (n : Z) (l : list A) : list A := take (Z.to_nat n) l.
Definition dropZ {A} (n : Z) (l : list A) : list A := drop (Z.to_nat n) l.

(** The bytes of a string literal ([b"..."], [String::from("...")]). *)
Fixpoint bs (s : string) : bytes :=
  match s with
  | EmptyString => []
  | String c s => Z.of_N (Ascii.N_of_ascii c) :: bs s
  end.

(** [str::starts_with], [ends_with] and [contains]. *)
Definition starts_with (t l : bytes) : bool := bool_decide (take (length t) l = t).
Definition ends_with (t l : bytes) : bool := starts_with (reverse t) (reverse l).
Fixpoint contains_text (t l : bytes) : bool := starts_with t l || match l with [] => false | _ :: l => contains_text t l end.

(** ** Results

    [Ok], [Err] as in Rust's [Result]; [Panic] is a panic of the thread (an
    [unwrap] of an error, an index out of range, a subtraction below zero). *)
Inductive result (E A : Type) : Type :=
  | Ok (a : A)
  | Err (e : E)
  | Panic.
Arguments Ok {E A} a.
Arguments Err {E A} e.
Arguments Panic {E A}.

Definition result_bind {E A B} (f : A → result E B) (r : result E A) : result E B :=
  match r with Ok a => f a | Err e => Err e | Panic => Panic end.

#[global] Instance result_ret {E} : MRet (result E) := λ A a, Ok a.
#[global] Instance result_mbind {E} : MBind (result E) := λ A B f r, result_bind f r.

Definition is_Ok {E A} (r : result E A) : bool :=
  match r with Ok _ => true | _ => false end.

(** ** State and errors

    A method with [&mut self] that returns a [Result]: the state is updated
    even when the method returns an error. *)
Definition ST (S E A : Type) : Type := S → S * result E A.

#[global] Instance ST_ret {S E} : MRet (ST S E) := λ A a s, (s, Ok a).
#[global] Instance ST_bind {S E} : MBind (ST S E) := λ A B f m s,
  match m s with
  | (s', Ok a) => f a s'
  | (s', Err e) => (s', Err e)
  | (s', Panic) => (s', Panic)
  end.

Definition get_st {S E} : ST S E S := λ s, (s, Ok s).
Definition put_st {S E} (s : S) : ST S E () := λ _, (s, Ok ()).
Definition modify_st {S E} (f : S → S) : ST S E () := λ s, (f s, Ok ()).
Definition throw {S E A} (e : E) : ST S E A := λ s, (s, Err e).
Definition panic {S E A} : ST S E A := λ s, (s, Panic).
Definition lift_res {S E A} (r : result E A) : ST S E A := λ s, (s, r).

Lemma bind_st {S E A B} (m : ST S E A) (f : A → ST S E B) s :
  (x ← m; f x) s =
  match m s with
  | (s', Ok a) => f a s'
  | (s', Err e) => (s', Err e)
  | (s', Panic) => (s', Panic)
  end.
Proof. reflexivity. Qed.

(** Runs a method of a field on the structure that holds it. *)
Definition zoom {S T E A} (get : S → T) (set : T → S → S) (m : ST T E A) : ST S E A :=
  λ s, let '(t, r) := m (get s) in (set t s, r).

(** ** Machine words *)

Definition U64 : Z := 2 ^ 64.
Definition USIZE_MAX : Z := 2 ^ 64 - 1.
Definition wrap8 (x : Z) : Z := x mod 256.
Definition wrap64 (x : Z) : Z := x mod U64.

(** [u64::rotate_right]. *)
Definition rotate_right64 (x k : Z) : Z :=
  Z.lor (Z.shiftr x k) (wrap64 (Z.shiftl x (64 - k))).

(** [!x] on [u64]. *)
Definition lnot64 (x : Z) : Z := wrap64 (Z.lnot x).

(** The low [8 * n] bits of [x], most significant byte first. *)
Fixpoint be_bytes (n : nat) (x : Z) : bytes :=
  match n with
  | O => []
  | S n => (Z.shiftr x (8 * Z.of_nat n)) mod 256 :: be_bytes n x
  end.

(** ** Bit strings *)

(** The low [n] bits of [x], most significant first. *)
Fixpoint to_bits (n : nat) (x : Z) : list bool :=
  match n with
  | O => []
  | S n => Z.testbit x (Z.of_nat n) :: to_bits n x
  end.

(** The bits of a byte string. *)
Definition bits_of (l : bytes) : list bool := l ≫= to_bits 8.

(** [p] is a prefix of [l]. *)
Fixpoint is_prefix (p l : list bool) : bool :=
  match p, l with
  | [], _ => true
  | x :: p, y :: l => eqb x y && is_prefix p l
  | _ :: _, [] => false
  end.

(** ** Tactics *)

(** Splits the first [match] or [if] of the goal on its scrutinee. *)
Ltac case_goal :=
  match goal with
  | |- context [match ?x with _ => _ end] => destruct x eqn:?
  end.

(** Boolean comparisons as propositions. *)
Ltac bool_to_prop :=
  repeat match goal with
  | H : (_ && _)%bool = true |- _ => apply andb_true_iff in H as [? ?]
  | H : (_ || _)%bool = false |- _ => apply orb_false_iff in H as [? ?]
  | H : negb _ = true |- _ => apply negb_true_iff in H
  | H : negb _ = false |- _ => apply negb_false_iff in H
  | H : (_ =? _) = true |- _ => apply Z.eqb_eq in H
  | H : (_ =? _) = false |- _ => apply Z.eqb_neq in H
  | H : (_ <? _) = true |- _ => apply Z.ltb_lt in H
  | H : (_ <? _) = false |- _ => apply Z.ltb_ge in H
  | H : (_ <=? _) = true |- _ => apply Z.leb_le in H
  | H : (_ <=? _) = false |- _ => apply Z.leb_gt in H
  end.

(** ** Lemmas on lengths and slices *)

Create HintDb ylong.
Create Rewrite HintDb len.

Section lists.
Context {A : Type}.
Implicit Types l k : list A.

Lemma len_nonneg l : 0 ≤ len l.
Proof. unfold len. lia. Qed.

Lemma len_nil : len (@nil A) = 0.
Proof. done. Qed.

Lemma len_cons x l : len (x :: l) = 1 + len l.
Proof. unfold len. cbn [length]. lia. Qed.

Lemma len_app l k : len (l ++ k) = len l + len k.
Proof. unfold len. rewrite length_app. lia. Qed.

Lemma len_0_nil l : len l = 0 → l = [].
Proof. destruct l; [done|]. rewrite len_cons. pose proof (len_nonneg l). lia. Qed.

Lemma len_takeZ n l : 0 ≤ n ≤ len l → len (takeZ n l) = n.
Proof. unfold len, takeZ. rewrite length_take. lia. Qed.

Lemma len_dropZ n l : 0 ≤ n ≤ len l → len (dropZ n l) = len l - n.
Proof. unfold len, dropZ. rewrite length_drop. lia. Qed.

Lemma takeZ_dropZ n l : takeZ n l ++ dropZ n l = l.
Proof. apply take_drop. Qed.

Lemma takeZ_all n l : len l ≤ n → takeZ n l = l.
Proof. unfold len, takeZ. intros. apply take_ge. lia. Qed.

Lemma dropZ_all n l : len l ≤ n → dropZ n l = [].
Proof. unfold len, dropZ. intros. apply drop_ge. lia. Qed.

Lemma dropZ_dropZ n m l : 0 ≤ n → 0 ≤ m → dropZ n (dropZ m l) = dropZ (m + n) l.
Proof. intros. unfold dropZ. rewrite drop_drop. f_equal. lia. Qed.

Lemma takeZ_0 l : takeZ 0 l = [].
Proof. done. Qed.

Lemma dropZ_0 l : dropZ 0 l = l.
Proof. done. Qed.

Lemma takeZ_app_le n l k : n ≤ len l → takeZ n (l ++ k) = takeZ n l.
Proof. unfold len, takeZ. intros. apply take_app_le. lia. Qed.

Lemma dropZ_app_le n l k : n ≤ len l → dropZ n (l ++ k) = dropZ n l ++ k.
Proof. unfold len, dropZ. intros. apply drop_app_le. lia. Qed.

Lemma takeZ_app_ge n l k : len l ≤ n → takeZ n (l ++ k) = l ++ takeZ (n - len l) k.
Proof.
  unfold len, takeZ. intros. rewrite take_app_ge by lia. do 2 f_equal. lia.
Qed.

Lemma dropZ_app_ge n l k : len l ≤ n → dropZ n (l ++ k) = dropZ (n - len l) k.
Proof. unfold len, dropZ. intros. rewrite drop_app_ge by lia. f_equal. lia. Qed.

Lemma takeZ_app_len l k : takeZ (len l) (l ++ k) = l.
Proof. rewrite takeZ_app_le, takeZ_all; done. Qed.

Lemma dropZ_app_len l k : dropZ (len l) (l ++ k) = k.
Proof. rewrite dropZ_app_le, dropZ_all; done. Qed.
End lists.

#[export] Hint Rewrite @len_nil @len_cons @len_app : len.
#[export] Hint Resolve len_nonneg : ylong.

(** Normalises lengths, then linear arithmetic. *)
Ltac len_lia :=
  autorewrite with len in *;
  repeat match goal with
  | |- context [len ?l] =>
      lazymatch goal with H : 0 ≤ len l |- _ => fail | _ => pose proof (len_nonneg l) end
  | _ : context [len ?l] |- _ =>
      lazymatch goal with H : 0 ≤ len l |- _ => fail | _ => pose proof (len_nonneg l) end
  end; lia.

(** ** Lemmas on bits *)

Lemma length_to_bits n x : length (to_bits n x) = n.
Proof. induction n; cbn; congruence. Qed.

Lemma to_bits_ext n x y :
  (∀ i, 0 ≤ i < Z.of_nat n → Z.testbit x i = Z.testbit y i) →
  to_bits n x = to_bits n y.
Proof.
  induction n as [|n IH]; intros H; [done|]. cbn [to_bits]. f_equal.
  - apply H. lia.
  - apply IH. intros. apply H. lia.
Qed.

Lemma to_bits_app n m x :
  to_bits (n + m) x = to_bits n (Z.shiftr x (Z.of_nat m)) ++ to_bits m x.
Proof.
  induction n as [|n IH]; [done|]. cbn [Nat.add to_bits app]. f_equal; [|done].
  rewrite Z.shiftr_spec by lia. f_equal. lia.
Qed.

Lemma to_bits_ones n x :
  (∀ i, 0 ≤ i < Z.of_nat n → Z.testbit x i = true) → to_bits n x = replicate n true.
Proof.
  induction n as [|n IH]; intros H; [done|]. cbn [to_bits replicate]. f_equal.
  - apply H. lia.
  - apply IH. intros. apply H. lia.
Qed.

Lemma testbit_byte x i : is_byte x → 8 ≤ i → Z.testbit x i = false.
Proof.
  intros H Hi. rewrite <- (Z.mod_small x (2 ^ 8)) by (unfold is_byte in H; lia).
  by apply Z.mod_pow2_bits_high.
Qed.

Lemma to_bits_byte_inj x y : is_byte x → is_byte y → to_bits 8 x = to_bits 8 y → x = y.
Proof.
  intros Hx Hy E. apply Z.bits_inj'. intros i Hi.
  destruct (Z.le_gt_cases 8 i) as [Hge|Hlt].
  - by rewrite !testbit_byte.
  - cbn in E. injection E as E7 E6 E5 E4 E3 E2 E1 E0.
    assert (i = 0 ∨ i = 1 ∨ i = 2 ∨ i = 3 ∨ i = 4 ∨ i = 5 ∨ i = 6 ∨ i = 7) as Hc by lia.
    by destruct Hc as [->|[->|[->|[->|[->|[->|[->| ->]]]]]]].
Qed.

Lemma bits_of_app l k : bits_of (l ++ k) = bits_of l ++ bits_of k.
Proof. apply bind_app. Qed.

Lemma length_bits_of l : length (bits_of l) = (8 * length l)%nat.
Proof.
  induction l as [|b l IH]; [done|].
  change (bits_of (b :: l)) with (to_bits 8 b ++ bits_of l).
  rewrite length_app, length_to_bits, IH. cbn [length]. lia.
Qed.

Lemma bits_of_inj l k :
  Forall is_byte l → Forall is_byte k → bits_of l = bits_of k → l = k.
Proof.
  intros Hl. revert k. induction Hl as [|b l Hb Hl IH]; intros k Hk E.
  - destruct k; done.
  - destruct Hk as [|c k Hc Hk]; [done|].
    change (to_bits 8 b ++ bits_of l = to_bits 8 c ++ bits_of k) in E.
    apply app_inj_1 in E as [E1 E2]; [|by rewrite !length_to_bits].
    f_equal; [by apply to_bits_byte_inj|by apply IH].
Qed.

Lemma is_byte_mod x : is_byte (x mod 256).
Proof. unfold is_byte. pose proof (Z.mod_pos_bound x 256). lia. Qed.
#[export] Hint Resolve is_byte_mod : ylong.

Lemma be_bytes_byte n x : Forall is_byte (be_bytes n x).
Proof. induction n; cbn; constructor; auto with ylong. Qed.
#[export] Hint Resolve be_bytes_byte : ylong.

Lemma length_be_bytes n x : length (be_bytes n x) = n.
Proof. induction n; cbn; congruence. Qed.

Lemma bits_of_be_bytes n x : bits_of (be_bytes n x) = to_bits (8 * n) x.
Proof.
  induction n as [|n IH]; [done|]. cbn [be_bytes].
  change (bits_of (?b :: ?l)) with (to_bits 8 b ++ bits_of l). rewrite IH.
  replace (8 * S n)%nat with (8 + 8 * n)%nat by lia. rewrite to_bits_app. f_equal.
  apply to_bits_ext. intros i Hi.
  change 256 with (2 ^ 8). rewrite Z.mod_pow2_bits_low by lia. f_equal. f_equal. lia.
Qed.

Lemma is_prefix_spec p l : is_prefix p l = true ↔ ∃ k, l = p ++ k.
Proof.
  revert l. induction p as [|x p IH]; intros l; cbn.
  - split; [eauto|done].
  - destruct l as [|y l]; [split; [done|intros [? [=]]]|].
    rewrite andb_true_iff, eqb_true_iff, IH. split.
    + intros [-> [k ->]]. by exists k.
    + intros [k [= -> ->]]. eauto.
Qed.

Lemma starts_with_spec t l : starts_with t l = true ↔ ∃ k, l = t ++ k.
Proof.
  unfold starts_with. rewrite bool_decide_eq_true. split; [|intros [k ->]; by rewrite take_app_length].
  intros H. exists (drop (length t) l). rewrite <- H at 1. by rewrite take_drop.
Qed.

Lemma ends_with_spec t l : ends_with t l = true ↔ ∃ k, l = k ++ t.
Proof.
  unfold ends_with. rewrite starts_with_spec. split; intros [k H].
  - exists (reverse k). rewrite <- (reverse_involutive l), H, reverse_app, !reverse_involutive. done.
  - exists (reverse k). by rewrite H, reverse_app.
Qed.

Lemma contains_text_spec t l : contains_text t l = true ↔ ∃ a b, l = a ++ t ++ b.
Proof.
  induction l as [|x l IH]; cbn [contains_text]; rewrite orb_true_iff, starts_with_spec.
  - split; [intros [[k Hk]|]; [|done]; by exists [], k|]. intros (a & b & H). left. exists b. by destruct a.
  - rewrite IH. split.
    + intros [[k ->]|(a & b & ->)]; [by exists [], k|by exists (x :: a), b].
    + intros ([|y a] & b & H); [left; by exists b|]. injection H as -> ->. right. by exists a, b.
Qed.

Lemma Forall_take_drop {A} (P : A → Prop) n (l : list A) :
  Forall P l → Forall P (take n l) ∧ Forall P (drop n l).
Proof. intros. split; [by apply Forall_take|by apply Forall_drop]. Qed.

(** ** Lemmas on machine words *)

Lemma lor_disjoint a b : Z.land a b = 0 → Z.lor a b = a + b.
Proof. intros H. pose proof (Z.add_lor_land a b). lia. Qed.

Lemma land_mask x n : 0 ≤ n → Z.land x (2 ^ n - 1) = x mod 2 ^ n.
Proof.
  intros Hn. replace (2 ^ n - 1) with (Z.ones n) by (rewrite Z.ones_equiv; lia).
  by apply Z.land_ones.
Qed.

(** Bits above a mask do not meet a value below it. *)
Lemma land_below a i n : 0 ≤ n → Z.land a (2 ^ n - 1) = 0 → 0 ≤ i < 2 ^ n → Z.land a i = 0.
Proof.
  intros Hn H Hi. rewrite land_mask in H by done. apply Z.bits_inj'. intros k Hk.
  rewrite Z.land_spec, Z.testbit_0_l. destruct (Z.le_gt_cases n k) as [Hge|Hlt].
  - rewrite <- (Z.mod_small i (2 ^ n)) by done. rewrite Z.mod_pow2_bits_high by done.
    apply andb_false_r.
  - rewrite <- (Z.mod_pow2_bits_low a n k), H by done. by rewrite Z.testbit_0_l.
Qed.

Lemma wrap8_small x : 0 ≤ x < 256 → wrap8 x = x.
Proof. apply Z.mod_small. Qed.

(** Bits above [2 ^ n] and a value below it. *)
Lemma lor_add a b n : 0 ≤ n → a mod 2 ^ n = 0 → 0 ≤ b < 2 ^ n → Z.lor a b = a + b.
Proof.
  intros Hn Ha Hb. apply lor_disjoint, (land_below a b n); [done| |done]. by rewrite land_mask.
Qed.

(** Big-endian numbers of four, three and two bytes. *)
Lemma be_value4 b0 b1 b2 b3 :
  0 ≤ b0 → is_byte b1 → is_byte b2 → is_byte b3 →
  Z.lor (Z.lor (Z.lor (Z.shiftl b0 24) (Z.shiftl b1 16)) (Z.shiftl b2 8)) b3 =
    b0 * 2 ^ 24 + b1 * 2 ^ 16 + b2 * 2 ^ 8 + b3.
Proof.
  unfold is_byte. intros H0 H1 H2 H3. rewrite !Z.shiftl_mul_pow2 by lia.
  rewrite (lor_add (b0 * 2 ^ 24) _ 24) by (lia || apply Z.mod_mul; lia).
  rewrite (lor_add _ (b2 * 2 ^ 8) 16), (lor_add _ b3 8); try lia.
  - replace (b0 * 2 ^ 24 + b1 * 2 ^ 16 + b2 * 2 ^ 8) with ((b0 * 2 ^ 16 + b1 * 2 ^ 8 + b2) * 2 ^ 8) by lia.
    apply Z.mod_mul. lia.
  - replace (b0 * 2 ^ 24 + b1 * 2 ^ 16) with ((b0 * 2 ^ 8 + b1) * 2 ^ 16) by lia. apply Z.mod_mul. lia.
Qed.

Lemma be_split x :
  0 ≤ x → x = 256 * (Z.shiftr x 8) + x mod 256 ∧ 0 ≤ Z.shiftr x 8 ∧ is_byte (x mod 256).
Proof.
  intros Hx. rewrite Z.shiftr_div_pow2 by lia. change (2 ^ 8) with 256.
  pose proof (Z.div_mod x 256). pose proof (Z.mod_pos_bound x 256). pose proof (Z.div_pos x 256).
  unfold is_byte. lia.
Qed.

Lemma be_bytes_4 x :
  be_bytes 4 x = [Z.shiftr x 24 mod 256; Z.shiftr x 16 mod 256; Z.shiftr x 8 mod 256; x mod 256].
Proof. cbn. by rewrite Z.shiftr_0_r. Qed.

Lemma be_digits x :
  0 ≤ x < 2 ^ 32 →
  x = (Z.shiftr x 24 mod 256) * 2 ^ 24 + (Z.shiftr x 16 mod 256) * 2 ^ 16 + (Z.shiftr x 8 mod 256) * 2 ^ 8 +
    x mod 256 ∧ Z.shiftr x 24 mod 256 = Z.shiftr x 24.
Proof.
  intros Hx. destruct (be_split x) as (E0 & H0 & B0); [lia|].
  destruct (be_split (Z.shiftr x 8)) as (E1 & H1 & B1); [lia|].
  destruct (be_split (Z.shiftr (Z.shiftr x 8) 8)) as (E2 & H2 & B2); [lia|].
  rewrite !Z.shiftr_shiftr in * by lia.
  change (8 + (8 + 8)) with 24 in *. change (8 + 8 + 8) with 24 in *. change (8 + 8) with 16 in *.
  unfold is_byte in *.
  rewrite (Z.mod_small (Z.shiftr x 24)) by lia. lia.
Qed.

(** A byte, as a test. *)
Definition is_byteb (b : Z) : bool := (0 <=? b) && (b <? 256).

Lemma is_byteb_ok b : is_byteb b = true → is_byte b.
Proof. unfold is_byteb, is_byte. intros H. bool_to_prop. lia. Qed.

Lemma bytesb_ok l : forallb is_byteb l = true → Forall is_byte l.
Proof.
  intros H. apply Forall_forall. intros b Hb. rewrite forallb_forall in H.
  by apply is_byteb_ok, H, list_elem_of_In.
Qed.
