(* ===== verification/HuffmanTables.v ===== *)
(** * The two Huffman tables

    [HUFFMAN_ENCODE] and [HUFFMAN_DECODE] of [src/ylong_http/src/huffman/consts.rs],
    entry by entry.  The decode table of the source is one array of 256 rows;
    here it is sixteen definitions of sixteen rows each, concatenated in
    [HUFFMAN_DECODE]. *)

From Stdlib Require Import ZArith List.
Import ListNotations.
#[local] Open Scope Z_scope.

(** [(len in bits, code aligned to the least significant bit)], byte 0 to 255,
    then the end-of-string symbol. *)
Definition HUFFMAN_ENCODE : list (Z * Z) := [
  (0x0d, 0x00001ff8); (0x17, 0x007fffd8); (0x1c, 0x0fffffe2); (0x1c, 0x0fffffe3);
  (0x1c, 0x0fffffe4); (0x1c, 0x0fffffe5); (0x1c, 0x0fffffe6); (0x1c, 0x0fffffe7);
  (0x1c, 0x0fffffe8); (0x18, 0x00ffffea); (0x1e, 0x3ffffffc); (0x1c, 0x0fffffe9);
  (0x1c, 0x0fffffea); (0x1e, 0x3ffffffd); (0x1c, 0x0fffffeb); (0x1c, 0x0fffffec);
  (0x1c, 0x0fffffed); (0x1c, 0x0fffffee); (0x1c, 0x0fffffef); (0x1c, 0x0ffffff0);
  (0x1c, 0x0ffffff1); (0x1c, 0x0ffffff2); (0x1e, 0x3ffffffe); (0x1c, 0x0ffffff3);
  (0x1c, 0x0ffffff4); (0x1c, 0x0ffffff5); (0x1c, 0x0ffffff6); (0x1c, 0x0ffffff7);
  (0x1c, 0x0ffffff8); (0x1c, 0x0ffffff9); (0x1c, 0x0ffffffa); (0x1c, 0x0ffffffb);
  (0x06, 0x00000014); (0x0a, 0x000003f8); (0x0a, 0x000003f9); (0x0c, 0x00000ffa);
  (0x0d, 0x00001ff9); (0x06, 0x00000015); (0x08, 0x000000f8); (0x0b, 0x000007fa);
  (0x0a, 0x000003fa); (0x0a, 0x000003fb); (0x08, 0x000000f9); (0x0b, 0x000007fb);
  (0x08, 0x000000fa); (0x06, 0x00000016); (0x06, 0x00000017); (0x06, 0x00000018);
  (0x05, 0x00000000); (0x05, 0x00000001); (0x05, 0x00000002); (0x06, 0x00000019);
  (0x06, 0x0000001a); (0x06, 0x0000001b); (0x06, 0x0000001c); (0x06, 0x0000001d);
  (0x06, 0x0000001e); (0x06, 0x0000001f); (0x07, 0x0000005c); (0x08, 0x000000fb);
  (0x0f, 0x00007ffc); (0x06, 0x00000020); (0x0c, 0x00000ffb); (0x0a, 0x000003fc);
  (0x0d, 0x00001ffa); (0x06, 0x00000021); (0x07, 0x0000005d); (0x07, 0x0000005e);
  (0x07, 0x0000005f); (0x07, 0x00000060); (0x07, 0x00000061); (0x07, 0x00000062);
  (0x07, 0x00000063); (0x07, 0x00000064); (0x07, 0x00000065); (0x07, 0x00000066);
  (0x07, 0x00000067); (0x07, 0x00000068); (0x07, 0x00000069); (0x07, 0x0000006a);
  (0x07, 0x0000006b); (0x07, 0x0000006c); (0x07, 0x0000006d); (0x07, 0x0000006e);
  (0x07, 0x0000006f); (0x07, 0x00000070); (0x07, 0x00000071); (0x07, 0x00000072);
  (0x08, 0x000000fc); (0x07, 0x00000073); (0x08, 0x000000fd); (0x0d, 0x00001ffb);
  (0x13, 0x0007fff0); (0x0d, 0x00001ffc); (0x0e, 0x00003ffc); (0x06, 0x00000022);
  (0x0f, 0x00007ffd); (0x05, 0x00000003); (0x06, 0x00000023); (0x05, 0x00000004);
  (0x06, 0x00000024); (0x05, 0x00000005); (0x06, 0x00000025); (0x06, 0x00000026);
  (0x06, 0x00000027); (0x05, 0x00000006); (0x07, 0x00000074); (0x07, 0x00000075);
  (0x06, 0x00000028); (0x06, 0x00000029); (0x06, 0x0000002a); (0x05, 0x00000007);
  (0x06, 0x0000002b); (0x07, 0x00000076); (0x06, 0x0000002c); (0x05, 0x00000008);
  (0x05, 0x00000009); (0x06, 0x0000002d); (0x07, 0x00000077); (0x07, 0x00000078);
  (0x07, 0x00000079); (0x07, 0x0000007a); (0x07, 0x0000007b); (0x0f, 0x00007ffe);
  (0x0b, 0x000007fc); (0x0e, 0x00003ffd); (0x0d, 0x00001ffd); (0x1c, 0x0ffffffc);
  (0x14, 0x000fffe6); (0x16, 0x003fffd2); (0x14, 0x000fffe7); (0x14, 0x000fffe8);
  (0x16, 0x003fffd3); (0x16, 0x003fffd4); (0x16, 0x003fffd5); (0x17, 0x007fffd9);
  (0x16, 0x003fffd6); (0x17, 0x007fffda); (0x17, 0x007fffdb); (0x17, 0x007fffdc);
  (0x17, 0x007fffdd); (0x17, 0x007fffde); (0x18, 0x00ffffeb); (0x17, 0x007fffdf);
  (0x18, 0x00ffffec); (0x18, 0x00ffffed); (0x16, 0x003fffd7); (0x17, 0x007fffe0);
  (0x18, 0x00ffffee); (0x17, 0x007fffe1); (0x17, 0x007fffe2); (0x17, 0x007fffe3);
  (0x17, 0x007fffe4); (0x15, 0x001fffdc); (0x16, 0x003fffd8); (0x17, 0x007fffe5);
  (0x16, 0x003fffd9); (0x17, 0x007fffe6); (0x17, 0x007fffe7); (0x18, 0x00ffffef);
  (0x16, 0x003fffda); (0x15, 0x001fffdd); (0x14, 0x000fffe9); (0x16, 0x003fffdb);
  (0x16, 0x003fffdc); (0x17, 0x007fffe8); (0x17, 0x007fffe9); (0x15, 0x001fffde);
  (0x17, 0x007fffea); (0x16, 0x003fffdd); (0x16, 0x003fffde); (0x18, 0x00fffff0);
  (0x15, 0x001fffdf); (0x16, 0x003fffdf); (0x17, 0x007fffeb); (0x17, 0x007fffec);
  (0x15, 0x001fffe0); (0x15, 0x001fffe1); (0x16, 0x003fffe0); (0x15, 0x001fffe2);
  (0x17, 0x007fffed); (0x16, 0x003fffe1); (0x17, 0x007fffee); (0x17, 0x007fffef);
  (0x14, 0x000fffea); (0x16, 0x003fffe2); (0x16, 0x003fffe3); (0x16, 0x003fffe4);
  (0x17, 0x007ffff0); (0x16, 0x003fffe5); (0x16, 0x003fffe6); (0x17, 0x007ffff1);
  (0x1a, 0x03ffffe0); (0x1a, 0x03ffffe1); (0x14, 0x000fffeb); (0x13, 0x0007fff1);
  (0x16, 0x003fffe7); (0x17, 0x007ffff2); (0x16, 0x003fffe8); (0x19, 0x01ffffec);
  (0x1a, 0x03ffffe2); (0x1a, 0x03ffffe3); (0x1a, 0x03ffffe4); (0x1b, 0x07ffffde);
  (0x1b, 0x07ffffdf); (0x1a, 0x03ffffe5); (0x18, 0x00fffff1); (0x19, 0x01ffffed);
  (0x13, 0x0007fff2); (0x15, 0x001fffe3); (0x1a, 0x03ffffe6); (0x1b, 0x07ffffe0);
  (0x1b, 0x07ffffe1); (0x1a, 0x03ffffe7); (0x1b, 0x07ffffe2); (0x18, 0x00fffff2);
  (0x15, 0x001fffe4); (0x15, 0x001fffe5); (0x1a, 0x03ffffe8); (0x1a, 0x03ffffe9);
  (0x1c, 0x0ffffffd); (0x1b, 0x07ffffe3); (0x1b, 0x07ffffe4); (0x1b, 0x07ffffe5);
  (0x14, 0x000fffec); (0x18, 0x00fffff3); (0x14, 0x000fffed); (0x15, 0x001fffe6);
  (0x16, 0x003fffe9); (0x15, 0x001fffe7); (0x15, 0x001fffe8); (0x17, 0x007ffff3);
  (0x16, 0x003fffea); (0x16, 0x003fffeb); (0x19, 0x01ffffee); (0x19, 0x01ffffef);
  (0x18, 0x00fffff4); (0x18, 0x00fffff5); (0x1a, 0x03ffffea); (0x17, 0x007ffff4);
  (0x1a, 0x03ffffeb); (0x1b, 0x07ffffe6); (0x1a, 0x03ffffec); (0x1a, 0x03ffffed);
  (0x1b, 0x07ffffe7); (0x1b, 0x07ffffe8); (0x1b, 0x07ffffe9); (0x1b, 0x07ffffea);
  (0x1b, 0x07ffffeb); (0x1c, 0x0ffffffe); (0x1b, 0x07ffffec); (0x1b, 0x07ffffed);
  (0x1b, 0x07ffffee); (0x1b, 0x07ffffef); (0x1b, 0x07fffff0); (0x1a, 0x03ffffee);
  (0x1e, 0x3fffffff)].

(** Rows 0x00 to 0x0f: [(next state, byte, flags)]. *)
Definition HUFFMAN_DECODE_0 : list (list (Z * Z * Z)) := [
  [(0x04, 0x00, 0x00); (0x05, 0x00, 0x00); (0x07, 0x00, 0x00); (0x08, 0x00, 0x00);
   (0x0b, 0x00, 0x00); (0x0c, 0x00, 0x00); (0x10, 0x00, 0x00); (0x13, 0x00, 0x00);
   (0x19, 0x00, 0x00); (0x1c, 0x00, 0x00); (0x20, 0x00, 0x00); (0x23, 0x00, 0x00);
   (0x2a, 0x00, 0x00); (0x31, 0x00, 0x00); (0x39, 0x00, 0x00); (0x40, 0x00, 0x01)];
  [(0x00, 0x30, 0x02); (0x00, 0x31, 0x02); (0x00, 0x32, 0x02); (0x00, 0x61, 0x02);
   (0x00, 0x63, 0x02); (0x00, 0x65, 0x02); (0x00, 0x69, 0x02); (0x00, 0x6f, 0x02);
   (0x00, 0x73, 0x02); (0x00, 0x74, 0x02); (0x0d, 0x00, 0x00); (0x0e, 0x00, 0x00);
   (0x11, 0x00, 0x00); (0x12, 0x00, 0x00); (0x14, 0x00, 0x00); (0x15, 0x00, 0x00)];
  [(0x01, 0x30, 0x02); (0x16, 0x30, 0x03); (0x01, 0x31, 0x02); (0x16, 0x31, 0x03);
   (0x01, 0x32, 0x02); (0x16, 0x32, 0x03); (0x01, 0x61, 0x02); (0x16, 0x61, 0x03);
   (0x01, 0x63, 0x02); (0x16, 0x63, 0x03); (0x01, 0x65, 0x02); (0x16, 0x65, 0x03);
   (0x01, 0x69, 0x02); (0x16, 0x69, 0x03); (0x01, 0x6f, 0x02); (0x16, 0x6f, 0x03)];
  [(0x02, 0x30, 0x02); (0x09, 0x30, 0x02); (0x17, 0x30, 0x02); (0x28, 0x30, 0x03);
   (0x02, 0x31, 0x02); (0x09, 0x31, 0x02); (0x17, 0x31, 0x02); (0x28, 0x31, 0x03);
   (0x02, 0x32, 0x02); (0x09, 0x32, 0x02); (0x17, 0x32, 0x02); (0x28, 0x32, 0x03);
   (0x02, 0x61, 0x02); (0x09, 0x61, 0x02); (0x17, 0x61, 0x02); (0x28, 0x61, 0x03)];
  [(0x03, 0x30, 0x02); (0x06, 0x30, 0x02); (0x0a, 0x30, 0x02); (0x0f, 0x30, 0x02);
   (0x18, 0x30, 0x02); (0x1f, 0x30, 0x02); (0x29, 0x30, 0x02); (0x38, 0x30, 0x03);
   (0x03, 0x31, 0x02); (0x06, 0x31, 0x02); (0x0a, 0x31, 0x02); (0x0f, 0x31, 0x02);
   (0x18, 0x31, 0x02); (0x1f, 0x31, 0x02); (0x29, 0x31, 0x02); (0x38, 0x31, 0x03)];
  [(0x03, 0x32, 0x02); (0x06, 0x32, 0x02); (0x0a, 0x32, 0x02); (0x0f, 0x32, 0x02);
   (0x18, 0x32, 0x02); (0x1f, 0x32, 0x02); (0x29, 0x32, 0x02); (0x38, 0x32, 0x03);
   (0x03, 0x61, 0x02); (0x06, 0x61, 0x02); (0x0a, 0x61, 0x02); (0x0f, 0x61, 0x02);
   (0x18, 0x61, 0x02); (0x1f, 0x61, 0x02); (0x29, 0x61, 0x02); (0x38, 0x61, 0x03)];
  [(0x02, 0x63, 0x02); (0x09, 0x63, 0x02); (0x17, 0x63, 0x02); (0x28, 0x63, 0x03);
   (0x02, 0x65, 0x02); (0x09, 0x65, 0x02); (0x17, 0x65, 0x02); (0x28, 0x65, 0x03);
   (0x02, 0x69, 0x02); (0x09, 0x69, 0x02); (0x17, 0x69, 0x02); (0x28, 0x69, 0x03);
   (0x02, 0x6f, 0x02); (0x09, 0x6f, 0x02); (0x17, 0x6f, 0x02); (0x28, 0x6f, 0x03)];
  [(0x03, 0x63, 0x02); (0x06, 0x63, 0x02); (0x0a, 0x63, 0x02); (0x0f, 0x63, 0x02);
   (0x18, 0x63, 0x02); (0x1f, 0x63, 0x02); (0x29, 0x63, 0x02); (0x38, 0x63, 0x03);
   (0x03, 0x65, 0x02); (0x06, 0x65, 0x02); (0x0a, 0x65, 0x02); (0x0f, 0x65, 0x02);
   (0x18, 0x65, 0x02); (0x1f, 0x65, 0x02); (0x29, 0x65, 0x02); (0x38, 0x65, 0x03)];
  [(0x03, 0x69, 0x02); (0x06, 0x69, 0x02); (0x0a, 0x69, 0x02); (0x0f, 0x69, 0x02);
   (0x18, 0x69, 0x02); (0x1f, 0x69, 0x02); (0x29, 0x69, 0x02); (0x38, 0x69, 0x03);
   (0x03, 0x6f, 0x02); (0x06, 0x6f, 0x02); (0x0a, 0x6f, 0x02); (0x0f, 0x6f, 0x02);
   (0x18, 0x6f, 0x02); (0x1f, 0x6f, 0x02); (0x29, 0x6f, 0x02); (0x38, 0x6f, 0x03)];
  [(0x01, 0x73, 0x02); (0x16, 0x73, 0x03); (0x01, 0x74, 0x02); (0x16, 0x74, 0x03);
   (0x00, 0x20, 0x02); (0x00, 0x25, 0x02); (0x00, 0x2d, 0x02); (0x00, 0x2e, 0x02);
   (0x00, 0x2f, 0x02); (0x00, 0x33, 0x02); (0x00, 0x34, 0x02); (0x00, 0x35, 0x02);
   (0x00, 0x36, 0x02); (0x00, 0x37, 0x02); (0x00, 0x38, 0x02); (0x00, 0x39, 0x02)];
  [(0x02, 0x73, 0x02); (0x09, 0x73, 0x02); (0x17, 0x73, 0x02); (0x28, 0x73, 0x03);
   (0x02, 0x74, 0x02); (0x09, 0x74, 0x02); (0x17, 0x74, 0x02); (0x28, 0x74, 0x03);
   (0x01, 0x20, 0x02); (0x16, 0x20, 0x03); (0x01, 0x25, 0x02); (0x16, 0x25, 0x03);
   (0x01, 0x2d, 0x02); (0x16, 0x2d, 0x03); (0x01, 0x2e, 0x02); (0x16, 0x2e, 0x03)];
  [(0x03, 0x73, 0x02); (0x06, 0x73, 0x02); (0x0a, 0x73, 0x02); (0x0f, 0x73, 0x02);
   (0x18, 0x73, 0x02); (0x1f, 0x73, 0x02); (0x29, 0x73, 0x02); (0x38, 0x73, 0x03);
   (0x03, 0x74, 0x02); (0x06, 0x74, 0x02); (0x0a, 0x74, 0x02); (0x0f, 0x74, 0x02);
   (0x18, 0x74, 0x02); (0x1f, 0x74, 0x02); (0x29, 0x74, 0x02); (0x38, 0x74, 0x03)];
  [(0x02, 0x20, 0x02); (0x09, 0x20, 0x02); (0x17, 0x20, 0x02); (0x28, 0x20, 0x03);
   (0x02, 0x25, 0x02); (0x09, 0x25, 0x02); (0x17, 0x25, 0x02); (0x28, 0x25, 0x03);
   (0x02, 0x2d, 0x02); (0x09, 0x2d, 0x02); (0x17, 0x2d, 0x02); (0x28, 0x2d, 0x03);
   (0x02, 0x2e, 0x02); (0x09, 0x2e, 0x02); (0x17, 0x2e, 0x02); (0x28, 0x2e, 0x03)];
  [(0x03, 0x20, 0x02); (0x06, 0x20, 0x02); (0x0a, 0x20, 0x02); (0x0f, 0x20, 0x02);
   (0x18, 0x20, 0x02); (0x1f, 0x20, 0x02); (0x29, 0x20, 0x02); (0x38, 0x20, 0x03);
   (0x03, 0x25, 0x02); (0x06, 0x25, 0x02); (0x0a, 0x25, 0x02); (0x0f, 0x25, 0x02);
   (0x18, 0x25, 0x02); (0x1f, 0x25, 0x02); (0x29, 0x25, 0x02); (0x38, 0x25, 0x03)];
  [(0x03, 0x2d, 0x02); (0x06, 0x2d, 0x02); (0x0a, 0x2d, 0x02); (0x0f, 0x2d, 0x02);
   (0x18, 0x2d, 0x02); (0x1f, 0x2d, 0x02); (0x29, 0x2d, 0x02); (0x38, 0x2d, 0x03);
   (0x03, 0x2e, 0x02); (0x06, 0x2e, 0x02); (0x0a, 0x2e, 0x02); (0x0f, 0x2e, 0x02);
   (0x18, 0x2e, 0x02); (0x1f, 0x2e, 0x02); (0x29, 0x2e, 0x02); (0x38, 0x2e, 0x03)];
  [(0x01, 0x2f, 0x02); (0x16, 0x2f, 0x03); (0x01, 0x33, 0x02); (0x16, 0x33, 0x03);
   (0x01, 0x34, 0x02); (0x16, 0x34, 0x03); (0x01, 0x35, 0x02); (0x16, 0x35, 0x03);
   (0x01, 0x36, 0x02); (0x16, 0x36, 0x03); (0x01, 0x37, 0x02); (0x16, 0x37, 0x03);
   (0x01, 0x38, 0x02); (0x16, 0x38, 0x03); (0x01, 0x39, 0x02); (0x16, 0x39, 0x03)]].

(** Rows 0x10 to 0x1f: [(next state, byte, flags)]. *)
Definition HUFFMAN_DECODE_1 : list (list (Z * Z * Z)) := [
  [(0x02, 0x2f, 0x02); (0x09, 0x2f, 0x02); (0x17, 0x2f, 0x02); (0x28, 0x2f, 0x03);
   (0x02, 0x33, 0x02); (0x09, 0x33, 0x02); (0x17, 0x33, 0x02); (0x28, 0x33, 0x03);
   (0x02, 0x34, 0x02); (0x09, 0x34, 0x02); (0x17, 0x34, 0x02); (0x28, 0x34, 0x03);
   (0x02, 0x35, 0x02); (0x09, 0x35, 0x02); (0x17, 0x35, 0x02); (0x28, 0x35, 0x03)];
  [(0x03, 0x2f, 0x02); (0x06, 0x2f, 0x02); (0x0a, 0x2f, 0x02); (0x0f, 0x2f, 0x02);
   (0x18, 0x2f, 0x02); (0x1f, 0x2f, 0x02); (0x29, 0x2f, 0x02); (0x38, 0x2f, 0x03);
   (0x03, 0x33, 0x02); (0x06, 0x33, 0x02); (0x0a, 0x33, 0x02); (0x0f, 0x33, 0x02);
   (0x18, 0x33, 0x02); (0x1f, 0x33, 0x02); (0x29, 0x33, 0x02); (0x38, 0x33, 0x03)];
  [(0x03, 0x34, 0x02); (0x06, 0x34, 0x02); (0x0a, 0x34, 0x02); (0x0f, 0x34, 0x02);
   (0x18, 0x34, 0x02); (0x1f, 0x34, 0x02); (0x29, 0x34, 0x02); (0x38, 0x34, 0x03);
   (0x03, 0x35, 0x02); (0x06, 0x35, 0x02); (0x0a, 0x35, 0x02); (0x0f, 0x35, 0x02);
   (0x18, 0x35, 0x02); (0x1f, 0x35, 0x02); (0x29, 0x35, 0x02); (0x38, 0x35, 0x03)];
  [(0x02, 0x36, 0x02); (0x09, 0x36, 0x02); (0x17, 0x36, 0x02); (0x28, 0x36, 0x03);
   (0x02, 0x37, 0x02); (0x09, 0x37, 0x02); (0x17, 0x37, 0x02); (0x28, 0x37, 0x03);
   (0x02, 0x38, 0x02); (0x09, 0x38, 0x02); (0x17, 0x38, 0x02); (0x28, 0x38, 0x03);
   (0x02, 0x39, 0x02); (0x09, 0x39, 0x02); (0x17, 0x39, 0x02); (0x28, 0x39, 0x03)];
  [(0x03, 0x36, 0x02); (0x06, 0x36, 0x02); (0x0a, 0x36, 0x02); (0x0f, 0x36, 0x02);
   (0x18, 0x36, 0x02); (0x1f, 0x36, 0x02); (0x29, 0x36, 0x02); (0x38, 0x36, 0x03);
   (0x03, 0x37, 0x02); (0x06, 0x37, 0x02); (0x0a, 0x37, 0x02); (0x0f, 0x37, 0x02);
   (0x18, 0x37, 0x02); (0x1f, 0x37, 0x02); (0x29, 0x37, 0x02); (0x38, 0x37, 0x03)];
  [(0x03, 0x38, 0x02); (0x06, 0x38, 0x02); (0x0a, 0x38, 0x02); (0x0f, 0x38, 0x02);
   (0x18, 0x38, 0x02); (0x1f, 0x38, 0x02); (0x29, 0x38, 0x02); (0x38, 0x38, 0x03);
   (0x03, 0x39, 0x02); (0x06, 0x39, 0x02); (0x0a, 0x39, 0x02); (0x0f, 0x39, 0x02);
   (0x18, 0x39, 0x02); (0x1f, 0x39, 0x02); (0x29, 0x39, 0x02); (0x38, 0x39, 0x03)];
  [(0x1a, 0x00, 0x00); (0x1b, 0x00, 0x00); (0x1d, 0x00, 0x00); (0x1e, 0x00, 0x00);
   (0x21, 0x00, 0x00); (0x22, 0x00, 0x00); (0x24, 0x00, 0x00); (0x25, 0x00, 0x00);
   (0x2b, 0x00, 0x00); (0x2e, 0x00, 0x00); (0x32, 0x00, 0x00); (0x35, 0x00, 0x00);
   (0x3a, 0x00, 0x00); (0x3d, 0x00, 0x00); (0x41, 0x00, 0x00); (0x44, 0x00, 0x01)];
  [(0x00, 0x3d, 0x02); (0x00, 0x41, 0x02); (0x00, 0x5f, 0x02); (0x00, 0x62, 0x02);
   (0x00, 0x64, 0x02); (0x00, 0x66, 0x02); (0x00, 0x67, 0x02); (0x00, 0x68, 0x02);
   (0x00, 0x6c, 0x02); (0x00, 0x6d, 0x02); (0x00, 0x6e, 0x02); (0x00, 0x70, 0x02);
   (0x00, 0x72, 0x02); (0x00, 0x75, 0x02); (0x26, 0x00, 0x00); (0x27, 0x00, 0x00)];
  [(0x01, 0x3d, 0x02); (0x16, 0x3d, 0x03); (0x01, 0x41, 0x02); (0x16, 0x41, 0x03);
   (0x01, 0x5f, 0x02); (0x16, 0x5f, 0x03); (0x01, 0x62, 0x02); (0x16, 0x62, 0x03);
   (0x01, 0x64, 0x02); (0x16, 0x64, 0x03); (0x01, 0x66, 0x02); (0x16, 0x66, 0x03);
   (0x01, 0x67, 0x02); (0x16, 0x67, 0x03); (0x01, 0x68, 0x02); (0x16, 0x68, 0x03)];
  [(0x02, 0x3d, 0x02); (0x09, 0x3d, 0x02); (0x17, 0x3d, 0x02); (0x28, 0x3d, 0x03);
   (0x02, 0x41, 0x02); (0x09, 0x41, 0x02); (0x17, 0x41, 0x02); (0x28, 0x41, 0x03);
   (0x02, 0x5f, 0x02); (0x09, 0x5f, 0x02); (0x17, 0x5f, 0x02); (0x28, 0x5f, 0x03);
   (0x02, 0x62, 0x02); (0x09, 0x62, 0x02); (0x17, 0x62, 0x02); (0x28, 0x62, 0x03)];
  [(0x03, 0x3d, 0x02); (0x06, 0x3d, 0x02); (0x0a, 0x3d, 0x02); (0x0f, 0x3d, 0x02);
   (0x18, 0x3d, 0x02); (0x1f, 0x3d, 0x02); (0x29, 0x3d, 0x02); (0x38, 0x3d, 0x03);
   (0x03, 0x41, 0x02); (0x06, 0x41, 0x02); (0x0a, 0x41, 0x02); (0x0f, 0x41, 0x02);
   (0x18, 0x41, 0x02); (0x1f, 0x41, 0x02); (0x29, 0x41, 0x02); (0x38, 0x41, 0x03)];
  [(0x03, 0x5f, 0x02); (0x06, 0x5f, 0x02); (0x0a, 0x5f, 0x02); (0x0f, 0x5f, 0x02);
   (0x18, 0x5f, 0x02); (0x1f, 0x5f, 0x02); (0x29, 0x5f, 0x02); (0x38, 0x5f, 0x03);
   (0x03, 0x62, 0x02); (0x06, 0x62, 0x02); (0x0a, 0x62, 0x02); (0x0f, 0x62, 0x02);
   (0x18, 0x62, 0x02); (0x1f, 0x62, 0x02); (0x29, 0x62, 0x02); (0x38, 0x62, 0x03)];
  [(0x02, 0x64, 0x02); (0x09, 0x64, 0x02); (0x17, 0x64, 0x02); (0x28, 0x64, 0x03);
   (0x02, 0x66, 0x02); (0x09, 0x66, 0x02); (0x17, 0x66, 0x02); (0x28, 0x66, 0x03);
   (0x02, 0x67, 0x02); (0x09, 0x67, 0x02); (0x17, 0x67, 0x02); (0x28, 0x67, 0x03);
   (0x02, 0x68, 0x02); (0x09, 0x68, 0x02); (0x17, 0x68, 0x02); (0x28, 0x68, 0x03)];
  [(0x03, 0x64, 0x02); (0x06, 0x64, 0x02); (0x0a, 0x64, 0x02); (0x0f, 0x64, 0x02);
   (0x18, 0x64, 0x02); (0x1f, 0x64, 0x02); (0x29, 0x64, 0x02); (0x38, 0x64, 0x03);
   (0x03, 0x66, 0x02); (0x06, 0x66, 0x02); (0x0a, 0x66, 0x02); (0x0f, 0x66, 0x02);
   (0x18, 0x66, 0x02); (0x1f, 0x66, 0x02); (0x29, 0x66, 0x02); (0x38, 0x66, 0x03)];
  [(0x03, 0x67, 0x02); (0x06, 0x67, 0x02); (0x0a, 0x67, 0x02); (0x0f, 0x67, 0x02);
   (0x18, 0x67, 0x02); (0x1f, 0x67, 0x02); (0x29, 0x67, 0x02); (0x38, 0x67, 0x03);
   (0x03, 0x68, 0x02); (0x06, 0x68, 0x02); (0x0a, 0x68, 0x02); (0x0f, 0x68, 0x02);
   (0x18, 0x68, 0x02); (0x1f, 0x68, 0x02); (0x29, 0x68, 0x02); (0x38, 0x68, 0x03)];
  [(0x01, 0x6c, 0x02); (0x16, 0x6c, 0x03); (0x01, 0x6d, 0x02); (0x16, 0x6d, 0x03);
   (0x01, 0x6e, 0x02); (0x16, 0x6e, 0x03); (0x01, 0x70, 0x02); (0x16, 0x70, 0x03);
   (0x01, 0x72, 0x02); (0x16, 0x72, 0x03); (0x01, 0x75, 0x02); (0x16, 0x75, 0x03);
   (0x00, 0x3a, 0x02); (0x00, 0x42, 0x02); (0x00, 0x43, 0x02); (0x00, 0x44, 0x02)]].

(** Rows 0x20 to 0x2f: [(next state, byte, flags)]. *)
Definition HUFFMAN_DECODE_2 : list (list (Z * Z * Z)) := [
  [(0x02, 0x6c, 0x02); (0x09, 0x6c, 0x02); (0x17, 0x6c, 0x02); (0x28, 0x6c, 0x03);
   (0x02, 0x6d, 0x02); (0x09, 0x6d, 0x02); (0x17, 0x6d, 0x02); (0x28, 0x6d, 0x03);
   (0x02, 0x6e, 0x02); (0x09, 0x6e, 0x02); (0x17, 0x6e, 0x02); (0x28, 0x6e, 0x03);
   (0x02, 0x70, 0x02); (0x09, 0x70, 0x02); (0x17, 0x70, 0x02); (0x28, 0x70, 0x03)];
  [(0x03, 0x6c, 0x02); (0x06, 0x6c, 0x02); (0x0a, 0x6c, 0x02); (0x0f, 0x6c, 0x02);
   (0x18, 0x6c, 0x02); (0x1f, 0x6c, 0x02); (0x29, 0x6c, 0x02); (0x38, 0x6c, 0x03);
   (0x03, 0x6d, 0x02); (0x06, 0x6d, 0x02); (0x0a, 0x6d, 0x02); (0x0f, 0x6d, 0x02);
   (0x18, 0x6d, 0x02); (0x1f, 0x6d, 0x02); (0x29, 0x6d, 0x02); (0x38, 0x6d, 0x03)];
  [(0x03, 0x6e, 0x02); (0x06, 0x6e, 0x02); (0x0a, 0x6e, 0x02); (0x0f, 0x6e, 0x02);
   (0x18, 0x6e, 0x02); (0x1f, 0x6e, 0x02); (0x29, 0x6e, 0x02); (0x38, 0x6e, 0x03);
   (0x03, 0x70, 0x02); (0x06, 0x70, 0x02); (0x0a, 0x70, 0x02); (0x0f, 0x70, 0x02);
   (0x18, 0x70, 0x02); (0x1f, 0x70, 0x02); (0x29, 0x70, 0x02); (0x38, 0x70, 0x03)];
  [(0x02, 0x72, 0x02); (0x09, 0x72, 0x02); (0x17, 0x72, 0x02); (0x28, 0x72, 0x03);
   (0x02, 0x75, 0x02); (0x09, 0x75, 0x02); (0x17, 0x75, 0x02); (0x28, 0x75, 0x03);
   (0x01, 0x3a, 0x02); (0x16, 0x3a, 0x03); (0x01, 0x42, 0x02); (0x16, 0x42, 0x03);
   (0x01, 0x43, 0x02); (0x16, 0x43, 0x03); (0x01, 0x44, 0x02); (0x16, 0x44, 0x03)];
  [(0x03, 0x72, 0x02); (0x06, 0x72, 0x02); (0x0a, 0x72, 0x02); (0x0f, 0x72, 0x02);
   (0x18, 0x72, 0x02); (0x1f, 0x72, 0x02); (0x29, 0x72, 0x02); (0x38, 0x72, 0x03);
   (0x03, 0x75, 0x02); (0x06, 0x75, 0x02); (0x0a, 0x75, 0x02); (0x0f, 0x75, 0x02);
   (0x18, 0x75, 0x02); (0x1f, 0x75, 0x02); (0x29, 0x75, 0x02); (0x38, 0x75, 0x03)];
  [(0x02, 0x3a, 0x02); (0x09, 0x3a, 0x02); (0x17, 0x3a, 0x02); (0x28, 0x3a, 0x03);
   (0x02, 0x42, 0x02); (0x09, 0x42, 0x02); (0x17, 0x42, 0x02); (0x28, 0x42, 0x03);
   (0x02, 0x43, 0x02); (0x09, 0x43, 0x02); (0x17, 0x43, 0x02); (0x28, 0x43, 0x03);
   (0x02, 0x44, 0x02); (0x09, 0x44, 0x02); (0x17, 0x44, 0x02); (0x28, 0x44, 0x03)];
  [(0x03, 0x3a, 0x02); (0x06, 0x3a, 0x02); (0x0a, 0x3a, 0x02); (0x0f, 0x3a, 0x02);
   (0x18, 0x3a, 0x02); (0x1f, 0x3a, 0x02); (0x29, 0x3a, 0x02); (0x38, 0x3a, 0x03);
   (0x03, 0x42, 0x02); (0x06, 0x42, 0x02); (0x0a, 0x42, 0x02); (0x0f, 0x42, 0x02);
   (0x18, 0x42, 0x02); (0x1f, 0x42, 0x02); (0x29, 0x42, 0x02); (0x38, 0x42, 0x03)];
  [(0x03, 0x43, 0x02); (0x06, 0x43, 0x02); (0x0a, 0x43, 0x02); (0x0f, 0x43, 0x02);
   (0x18, 0x43, 0x02); (0x1f, 0x43, 0x02); (0x29, 0x43, 0x02); (0x38, 0x43, 0x03);
   (0x03, 0x44, 0x02); (0x06, 0x44, 0x02); (0x0a, 0x44, 0x02); (0x0f, 0x44, 0x02);
   (0x18, 0x44, 0x02); (0x1f, 0x44, 0x02); (0x29, 0x44, 0x02); (0x38, 0x44, 0x03)];
  [(0x2c, 0x00, 0x00); (0x2d, 0x00, 0x00); (0x2f, 0x00, 0x00); (0x30, 0x00, 0x00);
   (0x33, 0x00, 0x00); (0x34, 0x00, 0x00); (0x36, 0x00, 0x00); (0x37, 0x00, 0x00);
   (0x3b, 0x00, 0x00); (0x3c, 0x00, 0x00); (0x3e, 0x00, 0x00); (0x3f, 0x00, 0x00);
   (0x42, 0x00, 0x00); (0x43, 0x00, 0x00); (0x45, 0x00, 0x00); (0x48, 0x00, 0x01)];
  [(0x00, 0x45, 0x02); (0x00, 0x46, 0x02); (0x00, 0x47, 0x02); (0x00, 0x48, 0x02);
   (0x00, 0x49, 0x02); (0x00, 0x4a, 0x02); (0x00, 0x4b, 0x02); (0x00, 0x4c, 0x02);
   (0x00, 0x4d, 0x02); (0x00, 0x4e, 0x02); (0x00, 0x4f, 0x02); (0x00, 0x50, 0x02);
   (0x00, 0x51, 0x02); (0x00, 0x52, 0x02); (0x00, 0x53, 0x02); (0x00, 0x54, 0x02)];
  [(0x01, 0x45, 0x02); (0x16, 0x45, 0x03); (0x01, 0x46, 0x02); (0x16, 0x46, 0x03);
   (0x01, 0x47, 0x02); (0x16, 0x47, 0x03); (0x01, 0x48, 0x02); (0x16, 0x48, 0x03);
   (0x01, 0x49, 0x02); (0x16, 0x49, 0x03); (0x01, 0x4a, 0x02); (0x16, 0x4a, 0x03);
   (0x01, 0x4b, 0x02); (0x16, 0x4b, 0x03); (0x01, 0x4c, 0x02); (0x16, 0x4c, 0x03)];
  [(0x02, 0x45, 0x02); (0x09, 0x45, 0x02); (0x17, 0x45, 0x02); (0x28, 0x45, 0x03);
   (0x02, 0x46, 0x02); (0x09, 0x46, 0x02); (0x17, 0x46, 0x02); (0x28, 0x46, 0x03);
   (0x02, 0x47, 0x02); (0x09, 0x47, 0x02); (0x17, 0x47, 0x02); (0x28, 0x47, 0x03);
   (0x02, 0x48, 0x02); (0x09, 0x48, 0x02); (0x17, 0x48, 0x02); (0x28, 0x48, 0x03)];
  [(0x03, 0x45, 0x02); (0x06, 0x45, 0x02); (0x0a, 0x45, 0x02); (0x0f, 0x45, 0x02);
   (0x18, 0x45, 0x02); (0x1f, 0x45, 0x02); (0x29, 0x45, 0x02); (0x38, 0x45, 0x03);
   (0x03, 0x46, 0x02); (0x06, 0x46, 0x02); (0x0a, 0x46, 0x02); (0x0f, 0x46, 0x02);
   (0x18, 0x46, 0x02); (0x1f, 0x46, 0x02); (0x29, 0x46, 0x02); (0x38, 0x46, 0x03)];
  [(0x03, 0x47, 0x02); (0x06, 0x47, 0x02); (0x0a, 0x47, 0x02); (0x0f, 0x47, 0x02);
   (0x18, 0x47, 0x02); (0x1f, 0x47, 0x02); (0x29, 0x47, 0x02); (0x38, 0x47, 0x03);
   (0x03, 0x48, 0x02); (0x06, 0x48, 0x02); (0x0a, 0x48, 0x02); (0x0f, 0x48, 0x02);
   (0x18, 0x48, 0x02); (0x1f, 0x48, 0x02); (0x29, 0x48, 0x02); (0x38, 0x48, 0x03)];
  [(0x02, 0x49, 0x02); (0x09, 0x49, 0x02); (0x17, 0x49, 0x02); (0x28, 0x49, 0x03);
   (0x02, 0x4a, 0x02); (0x09, 0x4a, 0x02); (0x17, 0x4a, 0x02); (0x28, 0x4a, 0x03);
   (0x02, 0x4b, 0x02); (0x09, 0x4b, 0x02); (0x17, 0x4b, 0x02); (0x28, 0x4b, 0x03);
   (0x02, 0x4c, 0x02); (0x09, 0x4c, 0x02); (0x17, 0x4c, 0x02); (0x28, 0x4c, 0x03)];
  [(0x03, 0x49, 0x02); (0x06, 0x49, 0x02); (0x0a, 0x49, 0x02); (0x0f, 0x49, 0x02);
   (0x18, 0x49, 0x02); (0x1f, 0x49, 0x02); (0x29, 0x49, 0x02); (0x38, 0x49, 0x03);
   (0x03, 0x4a, 0x02); (0x06, 0x4a, 0x02); (0x0a, 0x4a, 0x02); (0x0f, 0x4a, 0x02);
   (0x18, 0x4a, 0x02); (0x1f, 0x4a, 0x02); (0x29, 0x4a, 0x02); (0x38, 0x4a, 0x03)]].

(** Rows 0x30 to 0x3f: [(next state, byte, flags)]. *)
Definition HUFFMAN_DECODE_3 : list (list (Z * Z * Z)) := [
  [(0x03, 0x4b, 0x02); (0x06, 0x4b, 0x02); (0x0a, 0x4b, 0x02); (0x0f, 0x4b, 0x02);
   (0x18, 0x4b, 0x02); (0x1f, 0x4b, 0x02); (0x29, 0x4b, 0x02); (0x38, 0x4b, 0x03);
   (0x03, 0x4c, 0x02); (0x06, 0x4c, 0x02); (0x0a, 0x4c, 0x02); (0x0f, 0x4c, 0x02);
   (0x18, 0x4c, 0x02); (0x1f, 0x4c, 0x02); (0x29, 0x4c, 0x02); (0x38, 0x4c, 0x03)];
  [(0x01, 0x4d, 0x02); (0x16, 0x4d, 0x03); (0x01, 0x4e, 0x02); (0x16, 0x4e, 0x03);
   (0x01, 0x4f, 0x02); (0x16, 0x4f, 0x03); (0x01, 0x50, 0x02); (0x16, 0x50, 0x03);
   (0x01, 0x51, 0x02); (0x16, 0x51, 0x03); (0x01, 0x52, 0x02); (0x16, 0x52, 0x03);
   (0x01, 0x53, 0x02); (0x16, 0x53, 0x03); (0x01, 0x54, 0x02); (0x16, 0x54, 0x03)];
  [(0x02, 0x4d, 0x02); (0x09, 0x4d, 0x02); (0x17, 0x4d, 0x02); (0x28, 0x4d, 0x03);
   (0x02, 0x4e, 0x02); (0x09, 0x4e, 0x02); (0x17, 0x4e, 0x02); (0x28, 0x4e, 0x03);
   (0x02, 0x4f, 0x02); (0x09, 0x4f, 0x02); (0x17, 0x4f, 0x02); (0x28, 0x4f, 0x03);
   (0x02, 0x50, 0x02); (0x09, 0x50, 0x02); (0x17, 0x50, 0x02); (0x28, 0x50, 0x03)];
  [(0x03, 0x4d, 0x02); (0x06, 0x4d, 0x02); (0x0a, 0x4d, 0x02); (0x0f, 0x4d, 0x02);
   (0x18, 0x4d, 0x02); (0x1f, 0x4d, 0x02); (0x29, 0x4d, 0x02); (0x38, 0x4d, 0x03);
   (0x03, 0x4e, 0x02); (0x06, 0x4e, 0x02); (0x0a, 0x4e, 0x02); (0x0f, 0x4e, 0x02);
   (0x18, 0x4e, 0x02); (0x1f, 0x4e, 0x02); (0x29, 0x4e, 0x02); (0x38, 0x4e, 0x03)];
  [(0x03, 0x4f, 0x02); (0x06, 0x4f, 0x02); (0x0a, 0x4f, 0x02); (0x0f, 0x4f, 0x02);
   (0x18, 0x4f, 0x02); (0x1f, 0x4f, 0x02); (0x29, 0x4f, 0x02); (0x38, 0x4f, 0x03);
   (0x03, 0x50, 0x02); (0x06, 0x50, 0x02); (0x0a, 0x50, 0x02); (0x0f, 0x50, 0x02);
   (0x18, 0x50, 0x02); (0x1f, 0x50, 0x02); (0x29, 0x50, 0x02); (0x38, 0x50, 0x03)];
  [(0x02, 0x51, 0x02); (0x09, 0x51, 0x02); (0x17, 0x51, 0x02); (0x28, 0x51, 0x03);
   (0x02, 0x52, 0x02); (0x09, 0x52, 0x02); (0x17, 0x52, 0x02); (0x28, 0x52, 0x03);
   (0x02, 0x53, 0x02); (0x09, 0x53, 0x02); (0x17, 0x53, 0x02); (0x28, 0x53, 0x03);
   (0x02, 0x54, 0x02); (0x09, 0x54, 0x02); (0x17, 0x54, 0x02); (0x28, 0x54, 0x03)];
  [(0x03, 0x51, 0x02); (0x06, 0x51, 0x02); (0x0a, 0x51, 0x02); (0x0f, 0x51, 0x02);
   (0x18, 0x51, 0x02); (0x1f, 0x51, 0x02); (0x29, 0x51, 0x02); (0x38, 0x51, 0x03);
   (0x03, 0x52, 0x02); (0x06, 0x52, 0x02); (0x0a, 0x52, 0x02); (0x0f, 0x52, 0x02);
   (0x18, 0x52, 0x02); (0x1f, 0x52, 0x02); (0x29, 0x52, 0x02); (0x38, 0x52, 0x03)];
  [(0x03, 0x53, 0x02); (0x06, 0x53, 0x02); (0x0a, 0x53, 0x02); (0x0f, 0x53, 0x02);
   (0x18, 0x53, 0x02); (0x1f, 0x53, 0x02); (0x29, 0x53, 0x02); (0x38, 0x53, 0x03);
   (0x03, 0x54, 0x02); (0x06, 0x54, 0x02); (0x0a, 0x54, 0x02); (0x0f, 0x54, 0x02);
   (0x18, 0x54, 0x02); (0x1f, 0x54, 0x02); (0x29, 0x54, 0x02); (0x38, 0x54, 0x03)];
  [(0x00, 0x55, 0x02); (0x00, 0x56, 0x02); (0x00, 0x57, 0x02); (0x00, 0x59, 0x02);
   (0x00, 0x6a, 0x02); (0x00, 0x6b, 0x02); (0x00, 0x71, 0x02); (0x00, 0x76, 0x02);
   (0x00, 0x77, 0x02); (0x00, 0x78, 0x02); (0x00, 0x79, 0x02); (0x00, 0x7a, 0x02);
   (0x46, 0x00, 0x00); (0x47, 0x00, 0x00); (0x49, 0x00, 0x00); (0x4a, 0x00, 0x01)];
  [(0x01, 0x55, 0x02); (0x16, 0x55, 0x03); (0x01, 0x56, 0x02); (0x16, 0x56, 0x03);
   (0x01, 0x57, 0x02); (0x16, 0x57, 0x03); (0x01, 0x59, 0x02); (0x16, 0x59, 0x03);
   (0x01, 0x6a, 0x02); (0x16, 0x6a, 0x03); (0x01, 0x6b, 0x02); (0x16, 0x6b, 0x03);
   (0x01, 0x71, 0x02); (0x16, 0x71, 0x03); (0x01, 0x76, 0x02); (0x16, 0x76, 0x03)];
  [(0x02, 0x55, 0x02); (0x09, 0x55, 0x02); (0x17, 0x55, 0x02); (0x28, 0x55, 0x03);
   (0x02, 0x56, 0x02); (0x09, 0x56, 0x02); (0x17, 0x56, 0x02); (0x28, 0x56, 0x03);
   (0x02, 0x57, 0x02); (0x09, 0x57, 0x02); (0x17, 0x57, 0x02); (0x28, 0x57, 0x03);
   (0x02, 0x59, 0x02); (0x09, 0x59, 0x02); (0x17, 0x59, 0x02); (0x28, 0x59, 0x03)];
  [(0x03, 0x55, 0x02); (0x06, 0x55, 0x02); (0x0a, 0x55, 0x02); (0x0f, 0x55, 0x02);
   (0x18, 0x55, 0x02); (0x1f, 0x55, 0x02); (0x29, 0x55, 0x02); (0x38, 0x55, 0x03);
   (0x03, 0x56, 0x02); (0x06, 0x56, 0x02); (0x0a, 0x56, 0x02); (0x0f, 0x56, 0x02);
   (0x18, 0x56, 0x02); (0x1f, 0x56, 0x02); (0x29, 0x56, 0x02); (0x38, 0x56, 0x03)];
  [(0x03, 0x57, 0x02); (0x06, 0x57, 0x02); (0x0a, 0x57, 0x02); (0x0f, 0x57, 0x02);
   (0x18, 0x57, 0x02); (0x1f, 0x57, 0x02); (0x29, 0x57, 0x02); (0x38, 0x57, 0x03);
   (0x03, 0x59, 0x02); (0x06, 0x59, 0x02); (0x0a, 0x59, 0x02); (0x0f, 0x59, 0x02);
   (0x18, 0x59, 0x02); (0x1f, 0x59, 0x02); (0x29, 0x59, 0x02); (0x38, 0x59, 0x03)];
  [(0x02, 0x6a, 0x02); (0x09, 0x6a, 0x02); (0x17, 0x6a, 0x02); (0x28, 0x6a, 0x03);
   (0x02, 0x6b, 0x02); (0x09, 0x6b, 0x02); (0x17, 0x6b, 0x02); (0x28, 0x6b, 0x03);
   (0x02, 0x71, 0x02); (0x09, 0x71, 0x02); (0x17, 0x71, 0x02); (0x28, 0x71, 0x03);
   (0x02, 0x76, 0x02); (0x09, 0x76, 0x02); (0x17, 0x76, 0x02); (0x28, 0x76, 0x03)];
  [(0x03, 0x6a, 0x02); (0x06, 0x6a, 0x02); (0x0a, 0x6a, 0x02); (0x0f, 0x6a, 0x02);
   (0x18, 0x6a, 0x02); (0x1f, 0x6a, 0x02); (0x29, 0x6a, 0x02); (0x38, 0x6a, 0x03);
   (0x03, 0x6b, 0x02); (0x06, 0x6b, 0x02); (0x0a, 0x6b, 0x02); (0x0f, 0x6b, 0x02);
   (0x18, 0x6b, 0x02); (0x1f, 0x6b, 0x02); (0x29, 0x6b, 0x02); (0x38, 0x6b, 0x03)];
  [(0x03, 0x71, 0x02); (0x06, 0x71, 0x02); (0x0a, 0x71, 0x02); (0x0f, 0x71, 0x02);
   (0x18, 0x71, 0x02); (0x1f, 0x71, 0x02); (0x29, 0x71, 0x02); (0x38, 0x71, 0x03);
   (0x03, 0x76, 0x02); (0x06, 0x76, 0x02); (0x0a, 0x76, 0x02); (0x0f, 0x76, 0x02);
   (0x18, 0x76, 0x02); (0x1f, 0x76, 0x02); (0x29, 0x76, 0x02); (0x38, 0x76, 0x03)]].

(** Rows 0x40 to 0x4f: [(next state, byte, flags)]. *)
Definition HUFFMAN_DECODE_4 : list (list (Z * Z * Z)) := [
  [(0x01, 0x77, 0x02); (0x16, 0x77, 0x03); (0x01, 0x78, 0x02); (0x16, 0x78, 0x03);
   (0x01, 0x79, 0x02); (0x16, 0x79, 0x03); (0x01, 0x7a, 0x02); (0x16, 0x7a, 0x03);
   (0x00, 0x26, 0x02); (0x00, 0x2a, 0x02); (0x00, 0x2c, 0x02); (0x00, 0x3b, 0x02);
   (0x00, 0x58, 0x02); (0x00, 0x5a, 0x02); (0x4b, 0x00, 0x00); (0x4e, 0x00, 0x00)];
  [(0x02, 0x77, 0x02); (0x09, 0x77, 0x02); (0x17, 0x77, 0x02); (0x28, 0x77, 0x03);
   (0x02, 0x78, 0x02); (0x09, 0x78, 0x02); (0x17, 0x78, 0x02); (0x28, 0x78, 0x03);
   (0x02, 0x79, 0x02); (0x09, 0x79, 0x02); (0x17, 0x79, 0x02); (0x28, 0x79, 0x03);
   (0x02, 0x7a, 0x02); (0x09, 0x7a, 0x02); (0x17, 0x7a, 0x02); (0x28, 0x7a, 0x03)];
  [(0x03, 0x77, 0x02); (0x06, 0x77, 0x02); (0x0a, 0x77, 0x02); (0x0f, 0x77, 0x02);
   (0x18, 0x77, 0x02); (0x1f, 0x77, 0x02); (0x29, 0x77, 0x02); (0x38, 0x77, 0x03);
   (0x03, 0x78, 0x02); (0x06, 0x78, 0x02); (0x0a, 0x78, 0x02); (0x0f, 0x78, 0x02);
   (0x18, 0x78, 0x02); (0x1f, 0x78, 0x02); (0x29, 0x78, 0x02); (0x38, 0x78, 0x03)];
  [(0x03, 0x79, 0x02); (0x06, 0x79, 0x02); (0x0a, 0x79, 0x02); (0x0f, 0x79, 0x02);
   (0x18, 0x79, 0x02); (0x1f, 0x79, 0x02); (0x29, 0x79, 0x02); (0x38, 0x79, 0x03);
   (0x03, 0x7a, 0x02); (0x06, 0x7a, 0x02); (0x0a, 0x7a, 0x02); (0x0f, 0x7a, 0x02);
   (0x18, 0x7a, 0x02); (0x1f, 0x7a, 0x02); (0x29, 0x7a, 0x02); (0x38, 0x7a, 0x03)];
  [(0x01, 0x26, 0x02); (0x16, 0x26, 0x03); (0x01, 0x2a, 0x02); (0x16, 0x2a, 0x03);
   (0x01, 0x2c, 0x02); (0x16, 0x2c, 0x03); (0x01, 0x3b, 0x02); (0x16, 0x3b, 0x03);
   (0x01, 0x58, 0x02); (0x16, 0x58, 0x03); (0x01, 0x5a, 0x02); (0x16, 0x5a, 0x03);
   (0x4c, 0x00, 0x00); (0x4d, 0x00, 0x00); (0x4f, 0x00, 0x00); (0x51, 0x00, 0x00)];
  [(0x02, 0x26, 0x02); (0x09, 0x26, 0x02); (0x17, 0x26, 0x02); (0x28, 0x26, 0x03);
   (0x02, 0x2a, 0x02); (0x09, 0x2a, 0x02); (0x17, 0x2a, 0x02); (0x28, 0x2a, 0x03);
   (0x02, 0x2c, 0x02); (0x09, 0x2c, 0x02); (0x17, 0x2c, 0x02); (0x28, 0x2c, 0x03);
   (0x02, 0x3b, 0x02); (0x09, 0x3b, 0x02); (0x17, 0x3b, 0x02); (0x28, 0x3b, 0x03)];
  [(0x03, 0x26, 0x02); (0x06, 0x26, 0x02); (0x0a, 0x26, 0x02); (0x0f, 0x26, 0x02);
   (0x18, 0x26, 0x02); (0x1f, 0x26, 0x02); (0x29, 0x26, 0x02); (0x38, 0x26, 0x03);
   (0x03, 0x2a, 0x02); (0x06, 0x2a, 0x02); (0x0a, 0x2a, 0x02); (0x0f, 0x2a, 0x02);
   (0x18, 0x2a, 0x02); (0x1f, 0x2a, 0x02); (0x29, 0x2a, 0x02); (0x38, 0x2a, 0x03)];
  [(0x03, 0x2c, 0x02); (0x06, 0x2c, 0x02); (0x0a, 0x2c, 0x02); (0x0f, 0x2c, 0x02);
   (0x18, 0x2c, 0x02); (0x1f, 0x2c, 0x02); (0x29, 0x2c, 0x02); (0x38, 0x2c, 0x03);
   (0x03, 0x3b, 0x02); (0x06, 0x3b, 0x02); (0x0a, 0x3b, 0x02); (0x0f, 0x3b, 0x02);
   (0x18, 0x3b, 0x02); (0x1f, 0x3b, 0x02); (0x29, 0x3b, 0x02); (0x38, 0x3b, 0x03)];
  [(0x02, 0x58, 0x02); (0x09, 0x58, 0x02); (0x17, 0x58, 0x02); (0x28, 0x58, 0x03);
   (0x02, 0x5a, 0x02); (0x09, 0x5a, 0x02); (0x17, 0x5a, 0x02); (0x28, 0x5a, 0x03);
   (0x00, 0x21, 0x02); (0x00, 0x22, 0x02); (0x00, 0x28, 0x02); (0x00, 0x29, 0x02);
   (0x00, 0x3f, 0x02); (0x50, 0x00, 0x00); (0x52, 0x00, 0x00); (0x54, 0x00, 0x00)];
  [(0x03, 0x58, 0x02); (0x06, 0x58, 0x02); (0x0a, 0x58, 0x02); (0x0f, 0x58, 0x02);
   (0x18, 0x58, 0x02); (0x1f, 0x58, 0x02); (0x29, 0x58, 0x02); (0x38, 0x58, 0x03);
   (0x03, 0x5a, 0x02); (0x06, 0x5a, 0x02); (0x0a, 0x5a, 0x02); (0x0f, 0x5a, 0x02);
   (0x18, 0x5a, 0x02); (0x1f, 0x5a, 0x02); (0x29, 0x5a, 0x02); (0x38, 0x5a, 0x03)];
  [(0x01, 0x21, 0x02); (0x16, 0x21, 0x03); (0x01, 0x22, 0x02); (0x16, 0x22, 0x03);
   (0x01, 0x28, 0x02); (0x16, 0x28, 0x03); (0x01, 0x29, 0x02); (0x16, 0x29, 0x03);
   (0x01, 0x3f, 0x02); (0x16, 0x3f, 0x03); (0x00, 0x27, 0x02); (0x00, 0x2b, 0x02);
   (0x00, 0x7c, 0x02); (0x53, 0x00, 0x00); (0x55, 0x00, 0x00); (0x58, 0x00, 0x00)];
  [(0x02, 0x21, 0x02); (0x09, 0x21, 0x02); (0x17, 0x21, 0x02); (0x28, 0x21, 0x03);
   (0x02, 0x22, 0x02); (0x09, 0x22, 0x02); (0x17, 0x22, 0x02); (0x28, 0x22, 0x03);
   (0x02, 0x28, 0x02); (0x09, 0x28, 0x02); (0x17, 0x28, 0x02); (0x28, 0x28, 0x03);
   (0x02, 0x29, 0x02); (0x09, 0x29, 0x02); (0x17, 0x29, 0x02); (0x28, 0x29, 0x03)];
  [(0x03, 0x21, 0x02); (0x06, 0x21, 0x02); (0x0a, 0x21, 0x02); (0x0f, 0x21, 0x02);
   (0x18, 0x21, 0x02); (0x1f, 0x21, 0x02); (0x29, 0x21, 0x02); (0x38, 0x21, 0x03);
   (0x03, 0x22, 0x02); (0x06, 0x22, 0x02); (0x0a, 0x22, 0x02); (0x0f, 0x22, 0x02);
   (0x18, 0x22, 0x02); (0x1f, 0x22, 0x02); (0x29, 0x22, 0x02); (0x38, 0x22, 0x03)];
  [(0x03, 0x28, 0x02); (0x06, 0x28, 0x02); (0x0a, 0x28, 0x02); (0x0f, 0x28, 0x02);
   (0x18, 0x28, 0x02); (0x1f, 0x28, 0x02); (0x29, 0x28, 0x02); (0x38, 0x28, 0x03);
   (0x03, 0x29, 0x02); (0x06, 0x29, 0x02); (0x0a, 0x29, 0x02); (0x0f, 0x29, 0x02);
   (0x18, 0x29, 0x02); (0x1f, 0x29, 0x02); (0x29, 0x29, 0x02); (0x38, 0x29, 0x03)];
  [(0x02, 0x3f, 0x02); (0x09, 0x3f, 0x02); (0x17, 0x3f, 0x02); (0x28, 0x3f, 0x03);
   (0x01, 0x27, 0x02); (0x16, 0x27, 0x03); (0x01, 0x2b, 0x02); (0x16, 0x2b, 0x03);
   (0x01, 0x7c, 0x02); (0x16, 0x7c, 0x03); (0x00, 0x23, 0x02); (0x00, 0x3e, 0x02);
   (0x56, 0x00, 0x00); (0x57, 0x00, 0x00); (0x59, 0x00, 0x00); (0x5a, 0x00, 0x00)];
  [(0x03, 0x3f, 0x02); (0x06, 0x3f, 0x02); (0x0a, 0x3f, 0x02); (0x0f, 0x3f, 0x02);
   (0x18, 0x3f, 0x02); (0x1f, 0x3f, 0x02); (0x29, 0x3f, 0x02); (0x38, 0x3f, 0x03);
   (0x02, 0x27, 0x02); (0x09, 0x27, 0x02); (0x17, 0x27, 0x02); (0x28, 0x27, 0x03);
   (0x02, 0x2b, 0x02); (0x09, 0x2b, 0x02); (0x17, 0x2b, 0x02); (0x28, 0x2b, 0x03)]].

(** Rows 0x50 to 0x5f: [(next state, byte, flags)]. *)
Definition HUFFMAN_DECODE_5 : list (list (Z * Z * Z)) := [
  [(0x03, 0x27, 0x02); (0x06, 0x27, 0x02); (0x0a, 0x27, 0x02); (0x0f, 0x27, 0x02);
   (0x18, 0x27, 0x02); (0x1f, 0x27, 0x02); (0x29, 0x27, 0x02); (0x38, 0x27, 0x03);
   (0x03, 0x2b, 0x02); (0x06, 0x2b, 0x02); (0x0a, 0x2b, 0x02); (0x0f, 0x2b, 0x02);
   (0x18, 0x2b, 0x02); (0x1f, 0x2b, 0x02); (0x29, 0x2b, 0x02); (0x38, 0x2b, 0x03)];
  [(0x02, 0x7c, 0x02); (0x09, 0x7c, 0x02); (0x17, 0x7c, 0x02); (0x28, 0x7c, 0x03);
   (0x01, 0x23, 0x02); (0x16, 0x23, 0x03); (0x01, 0x3e, 0x02); (0x16, 0x3e, 0x03);
   (0x00, 0x00, 0x02); (0x00, 0x24, 0x02); (0x00, 0x40, 0x02); (0x00, 0x5b, 0x02);
   (0x00, 0x5d, 0x02); (0x00, 0x7e, 0x02); (0x5b, 0x00, 0x00); (0x5c, 0x00, 0x00)];
  [(0x03, 0x7c, 0x02); (0x06, 0x7c, 0x02); (0x0a, 0x7c, 0x02); (0x0f, 0x7c, 0x02);
   (0x18, 0x7c, 0x02); (0x1f, 0x7c, 0x02); (0x29, 0x7c, 0x02); (0x38, 0x7c, 0x03);
   (0x02, 0x23, 0x02); (0x09, 0x23, 0x02); (0x17, 0x23, 0x02); (0x28, 0x23, 0x03);
   (0x02, 0x3e, 0x02); (0x09, 0x3e, 0x02); (0x17, 0x3e, 0x02); (0x28, 0x3e, 0x03)];
  [(0x03, 0x23, 0x02); (0x06, 0x23, 0x02); (0x0a, 0x23, 0x02); (0x0f, 0x23, 0x02);
   (0x18, 0x23, 0x02); (0x1f, 0x23, 0x02); (0x29, 0x23, 0x02); (0x38, 0x23, 0x03);
   (0x03, 0x3e, 0x02); (0x06, 0x3e, 0x02); (0x0a, 0x3e, 0x02); (0x0f, 0x3e, 0x02);
   (0x18, 0x3e, 0x02); (0x1f, 0x3e, 0x02); (0x29, 0x3e, 0x02); (0x38, 0x3e, 0x03)];
  [(0x01, 0x00, 0x02); (0x16, 0x00, 0x03); (0x01, 0x24, 0x02); (0x16, 0x24, 0x03);
   (0x01, 0x40, 0x02); (0x16, 0x40, 0x03); (0x01, 0x5b, 0x02); (0x16, 0x5b, 0x03);
   (0x01, 0x5d, 0x02); (0x16, 0x5d, 0x03); (0x01, 0x7e, 0x02); (0x16, 0x7e, 0x03);
   (0x00, 0x5e, 0x02); (0x00, 0x7d, 0x02); (0x5d, 0x00, 0x00); (0x5e, 0x00, 0x00)];
  [(0x02, 0x00, 0x02); (0x09, 0x00, 0x02); (0x17, 0x00, 0x02); (0x28, 0x00, 0x03);
   (0x02, 0x24, 0x02); (0x09, 0x24, 0x02); (0x17, 0x24, 0x02); (0x28, 0x24, 0x03);
   (0x02, 0x40, 0x02); (0x09, 0x40, 0x02); (0x17, 0x40, 0x02); (0x28, 0x40, 0x03);
   (0x02, 0x5b, 0x02); (0x09, 0x5b, 0x02); (0x17, 0x5b, 0x02); (0x28, 0x5b, 0x03)];
  [(0x03, 0x00, 0x02); (0x06, 0x00, 0x02); (0x0a, 0x00, 0x02); (0x0f, 0x00, 0x02);
   (0x18, 0x00, 0x02); (0x1f, 0x00, 0x02); (0x29, 0x00, 0x02); (0x38, 0x00, 0x03);
   (0x03, 0x24, 0x02); (0x06, 0x24, 0x02); (0x0a, 0x24, 0x02); (0x0f, 0x24, 0x02);
   (0x18, 0x24, 0x02); (0x1f, 0x24, 0x02); (0x29, 0x24, 0x02); (0x38, 0x24, 0x03)];
  [(0x03, 0x40, 0x02); (0x06, 0x40, 0x02); (0x0a, 0x40, 0x02); (0x0f, 0x40, 0x02);
   (0x18, 0x40, 0x02); (0x1f, 0x40, 0x02); (0x29, 0x40, 0x02); (0x38, 0x40, 0x03);
   (0x03, 0x5b, 0x02); (0x06, 0x5b, 0x02); (0x0a, 0x5b, 0x02); (0x0f, 0x5b, 0x02);
   (0x18, 0x5b, 0x02); (0x1f, 0x5b, 0x02); (0x29, 0x5b, 0x02); (0x38, 0x5b, 0x03)];
  [(0x02, 0x5d, 0x02); (0x09, 0x5d, 0x02); (0x17, 0x5d, 0x02); (0x28, 0x5d, 0x03);
   (0x02, 0x7e, 0x02); (0x09, 0x7e, 0x02); (0x17, 0x7e, 0x02); (0x28, 0x7e, 0x03);
   (0x01, 0x5e, 0x02); (0x16, 0x5e, 0x03); (0x01, 0x7d, 0x02); (0x16, 0x7d, 0x03);
   (0x00, 0x3c, 0x02); (0x00, 0x60, 0x02); (0x00, 0x7b, 0x02); (0x5f, 0x00, 0x00)];
  [(0x03, 0x5d, 0x02); (0x06, 0x5d, 0x02); (0x0a, 0x5d, 0x02); (0x0f, 0x5d, 0x02);
   (0x18, 0x5d, 0x02); (0x1f, 0x5d, 0x02); (0x29, 0x5d, 0x02); (0x38, 0x5d, 0x03);
   (0x03, 0x7e, 0x02); (0x06, 0x7e, 0x02); (0x0a, 0x7e, 0x02); (0x0f, 0x7e, 0x02);
   (0x18, 0x7e, 0x02); (0x1f, 0x7e, 0x02); (0x29, 0x7e, 0x02); (0x38, 0x7e, 0x03)];
  [(0x02, 0x5e, 0x02); (0x09, 0x5e, 0x02); (0x17, 0x5e, 0x02); (0x28, 0x5e, 0x03);
   (0x02, 0x7d, 0x02); (0x09, 0x7d, 0x02); (0x17, 0x7d, 0x02); (0x28, 0x7d, 0x03);
   (0x01, 0x3c, 0x02); (0x16, 0x3c, 0x03); (0x01, 0x60, 0x02); (0x16, 0x60, 0x03);
   (0x01, 0x7b, 0x02); (0x16, 0x7b, 0x03); (0x60, 0x00, 0x00); (0x6e, 0x00, 0x00)];
  [(0x03, 0x5e, 0x02); (0x06, 0x5e, 0x02); (0x0a, 0x5e, 0x02); (0x0f, 0x5e, 0x02);
   (0x18, 0x5e, 0x02); (0x1f, 0x5e, 0x02); (0x29, 0x5e, 0x02); (0x38, 0x5e, 0x03);
   (0x03, 0x7d, 0x02); (0x06, 0x7d, 0x02); (0x0a, 0x7d, 0x02); (0x0f, 0x7d, 0x02);
   (0x18, 0x7d, 0x02); (0x1f, 0x7d, 0x02); (0x29, 0x7d, 0x02); (0x38, 0x7d, 0x03)];
  [(0x02, 0x3c, 0x02); (0x09, 0x3c, 0x02); (0x17, 0x3c, 0x02); (0x28, 0x3c, 0x03);
   (0x02, 0x60, 0x02); (0x09, 0x60, 0x02); (0x17, 0x60, 0x02); (0x28, 0x60, 0x03);
   (0x02, 0x7b, 0x02); (0x09, 0x7b, 0x02); (0x17, 0x7b, 0x02); (0x28, 0x7b, 0x03);
   (0x61, 0x00, 0x00); (0x65, 0x00, 0x00); (0x6f, 0x00, 0x00); (0x85, 0x00, 0x00)];
  [(0x03, 0x3c, 0x02); (0x06, 0x3c, 0x02); (0x0a, 0x3c, 0x02); (0x0f, 0x3c, 0x02);
   (0x18, 0x3c, 0x02); (0x1f, 0x3c, 0x02); (0x29, 0x3c, 0x02); (0x38, 0x3c, 0x03);
   (0x03, 0x60, 0x02); (0x06, 0x60, 0x02); (0x0a, 0x60, 0x02); (0x0f, 0x60, 0x02);
   (0x18, 0x60, 0x02); (0x1f, 0x60, 0x02); (0x29, 0x60, 0x02); (0x38, 0x60, 0x03)];
  [(0x03, 0x7b, 0x02); (0x06, 0x7b, 0x02); (0x0a, 0x7b, 0x02); (0x0f, 0x7b, 0x02);
   (0x18, 0x7b, 0x02); (0x1f, 0x7b, 0x02); (0x29, 0x7b, 0x02); (0x38, 0x7b, 0x03);
   (0x62, 0x00, 0x00); (0x63, 0x00, 0x00); (0x66, 0x00, 0x00); (0x69, 0x00, 0x00);
   (0x70, 0x00, 0x00); (0x77, 0x00, 0x00); (0x86, 0x00, 0x00); (0x99, 0x00, 0x00)];
  [(0x00, 0x5c, 0x02); (0x00, 0xc3, 0x02); (0x00, 0xd0, 0x02); (0x64, 0x00, 0x00);
   (0x67, 0x00, 0x00); (0x68, 0x00, 0x00); (0x6a, 0x00, 0x00); (0x6b, 0x00, 0x00);
   (0x71, 0x00, 0x00); (0x74, 0x00, 0x00); (0x78, 0x00, 0x00); (0x7e, 0x00, 0x00);
   (0x87, 0x00, 0x00); (0x8e, 0x00, 0x00); (0x9a, 0x00, 0x00); (0xa9, 0x00, 0x00)]].

(** Rows 0x60 to 0x6f: [(next state, byte, flags)]. *)
Definition HUFFMAN_DECODE_6 : list (list (Z * Z * Z)) := [
  [(0x01, 0x5c, 0x02); (0x16, 0x5c, 0x03); (0x01, 0xc3, 0x02); (0x16, 0xc3, 0x03);
   (0x01, 0xd0, 0x02); (0x16, 0xd0, 0x03); (0x00, 0x80, 0x02); (0x00, 0x82, 0x02);
   (0x00, 0x83, 0x02); (0x00, 0xa2, 0x02); (0x00, 0xb8, 0x02); (0x00, 0xc2, 0x02);
   (0x00, 0xe0, 0x02); (0x00, 0xe2, 0x02); (0x6c, 0x00, 0x00); (0x6d, 0x00, 0x00)];
  [(0x02, 0x5c, 0x02); (0x09, 0x5c, 0x02); (0x17, 0x5c, 0x02); (0x28, 0x5c, 0x03);
   (0x02, 0xc3, 0x02); (0x09, 0xc3, 0x02); (0x17, 0xc3, 0x02); (0x28, 0xc3, 0x03);
   (0x02, 0xd0, 0x02); (0x09, 0xd0, 0x02); (0x17, 0xd0, 0x02); (0x28, 0xd0, 0x03);
   (0x01, 0x80, 0x02); (0x16, 0x80, 0x03); (0x01, 0x82, 0x02); (0x16, 0x82, 0x03)];
  [(0x03, 0x5c, 0x02); (0x06, 0x5c, 0x02); (0x0a, 0x5c, 0x02); (0x0f, 0x5c, 0x02);
   (0x18, 0x5c, 0x02); (0x1f, 0x5c, 0x02); (0x29, 0x5c, 0x02); (0x38, 0x5c, 0x03);
   (0x03, 0xc3, 0x02); (0x06, 0xc3, 0x02); (0x0a, 0xc3, 0x02); (0x0f, 0xc3, 0x02);
   (0x18, 0xc3, 0x02); (0x1f, 0xc3, 0x02); (0x29, 0xc3, 0x02); (0x38, 0xc3, 0x03)];
  [(0x03, 0xd0, 0x02); (0x06, 0xd0, 0x02); (0x0a, 0xd0, 0x02); (0x0f, 0xd0, 0x02);
   (0x18, 0xd0, 0x02); (0x1f, 0xd0, 0x02); (0x29, 0xd0, 0x02); (0x38, 0xd0, 0x03);
   (0x02, 0x80, 0x02); (0x09, 0x80, 0x02); (0x17, 0x80, 0x02); (0x28, 0x80, 0x03);
   (0x02, 0x82, 0x02); (0x09, 0x82, 0x02); (0x17, 0x82, 0x02); (0x28, 0x82, 0x03)];
  [(0x03, 0x80, 0x02); (0x06, 0x80, 0x02); (0x0a, 0x80, 0x02); (0x0f, 0x80, 0x02);
   (0x18, 0x80, 0x02); (0x1f, 0x80, 0x02); (0x29, 0x80, 0x02); (0x38, 0x80, 0x03);
   (0x03, 0x82, 0x02); (0x06, 0x82, 0x02); (0x0a, 0x82, 0x02); (0x0f, 0x82, 0x02);
   (0x18, 0x82, 0x02); (0x1f, 0x82, 0x02); (0x29, 0x82, 0x02); (0x38, 0x82, 0x03)];
  [(0x01, 0x83, 0x02); (0x16, 0x83, 0x03); (0x01, 0xa2, 0x02); (0x16, 0xa2, 0x03);
   (0x01, 0xb8, 0x02); (0x16, 0xb8, 0x03); (0x01, 0xc2, 0x02); (0x16, 0xc2, 0x03);
   (0x01, 0xe0, 0x02); (0x16, 0xe0, 0x03); (0x01, 0xe2, 0x02); (0x16, 0xe2, 0x03);
   (0x00, 0x99, 0x02); (0x00, 0xa1, 0x02); (0x00, 0xa7, 0x02); (0x00, 0xac, 0x02)];
  [(0x02, 0x83, 0x02); (0x09, 0x83, 0x02); (0x17, 0x83, 0x02); (0x28, 0x83, 0x03);
   (0x02, 0xa2, 0x02); (0x09, 0xa2, 0x02); (0x17, 0xa2, 0x02); (0x28, 0xa2, 0x03);
   (0x02, 0xb8, 0x02); (0x09, 0xb8, 0x02); (0x17, 0xb8, 0x02); (0x28, 0xb8, 0x03);
   (0x02, 0xc2, 0x02); (0x09, 0xc2, 0x02); (0x17, 0xc2, 0x02); (0x28, 0xc2, 0x03)];
  [(0x03, 0x83, 0x02); (0x06, 0x83, 0x02); (0x0a, 0x83, 0x02); (0x0f, 0x83, 0x02);
   (0x18, 0x83, 0x02); (0x1f, 0x83, 0x02); (0x29, 0x83, 0x02); (0x38, 0x83, 0x03);
   (0x03, 0xa2, 0x02); (0x06, 0xa2, 0x02); (0x0a, 0xa2, 0x02); (0x0f, 0xa2, 0x02);
   (0x18, 0xa2, 0x02); (0x1f, 0xa2, 0x02); (0x29, 0xa2, 0x02); (0x38, 0xa2, 0x03)];
  [(0x03, 0xb8, 0x02); (0x06, 0xb8, 0x02); (0x0a, 0xb8, 0x02); (0x0f, 0xb8, 0x02);
   (0x18, 0xb8, 0x02); (0x1f, 0xb8, 0x02); (0x29, 0xb8, 0x02); (0x38, 0xb8, 0x03);
   (0x03, 0xc2, 0x02); (0x06, 0xc2, 0x02); (0x0a, 0xc2, 0x02); (0x0f, 0xc2, 0x02);
   (0x18, 0xc2, 0x02); (0x1f, 0xc2, 0x02); (0x29, 0xc2, 0x02); (0x38, 0xc2, 0x03)];
  [(0x02, 0xe0, 0x02); (0x09, 0xe0, 0x02); (0x17, 0xe0, 0x02); (0x28, 0xe0, 0x03);
   (0x02, 0xe2, 0x02); (0x09, 0xe2, 0x02); (0x17, 0xe2, 0x02); (0x28, 0xe2, 0x03);
   (0x01, 0x99, 0x02); (0x16, 0x99, 0x03); (0x01, 0xa1, 0x02); (0x16, 0xa1, 0x03);
   (0x01, 0xa7, 0x02); (0x16, 0xa7, 0x03); (0x01, 0xac, 0x02); (0x16, 0xac, 0x03)];
  [(0x03, 0xe0, 0x02); (0x06, 0xe0, 0x02); (0x0a, 0xe0, 0x02); (0x0f, 0xe0, 0x02);
   (0x18, 0xe0, 0x02); (0x1f, 0xe0, 0x02); (0x29, 0xe0, 0x02); (0x38, 0xe0, 0x03);
   (0x03, 0xe2, 0x02); (0x06, 0xe2, 0x02); (0x0a, 0xe2, 0x02); (0x0f, 0xe2, 0x02);
   (0x18, 0xe2, 0x02); (0x1f, 0xe2, 0x02); (0x29, 0xe2, 0x02); (0x38, 0xe2, 0x03)];
  [(0x02, 0x99, 0x02); (0x09, 0x99, 0x02); (0x17, 0x99, 0x02); (0x28, 0x99, 0x03);
   (0x02, 0xa1, 0x02); (0x09, 0xa1, 0x02); (0x17, 0xa1, 0x02); (0x28, 0xa1, 0x03);
   (0x02, 0xa7, 0x02); (0x09, 0xa7, 0x02); (0x17, 0xa7, 0x02); (0x28, 0xa7, 0x03);
   (0x02, 0xac, 0x02); (0x09, 0xac, 0x02); (0x17, 0xac, 0x02); (0x28, 0xac, 0x03)];
  [(0x03, 0x99, 0x02); (0x06, 0x99, 0x02); (0x0a, 0x99, 0x02); (0x0f, 0x99, 0x02);
   (0x18, 0x99, 0x02); (0x1f, 0x99, 0x02); (0x29, 0x99, 0x02); (0x38, 0x99, 0x03);
   (0x03, 0xa1, 0x02); (0x06, 0xa1, 0x02); (0x0a, 0xa1, 0x02); (0x0f, 0xa1, 0x02);
   (0x18, 0xa1, 0x02); (0x1f, 0xa1, 0x02); (0x29, 0xa1, 0x02); (0x38, 0xa1, 0x03)];
  [(0x03, 0xa7, 0x02); (0x06, 0xa7, 0x02); (0x0a, 0xa7, 0x02); (0x0f, 0xa7, 0x02);
   (0x18, 0xa7, 0x02); (0x1f, 0xa7, 0x02); (0x29, 0xa7, 0x02); (0x38, 0xa7, 0x03);
   (0x03, 0xac, 0x02); (0x06, 0xac, 0x02); (0x0a, 0xac, 0x02); (0x0f, 0xac, 0x02);
   (0x18, 0xac, 0x02); (0x1f, 0xac, 0x02); (0x29, 0xac, 0x02); (0x38, 0xac, 0x03)];
  [(0x72, 0x00, 0x00); (0x73, 0x00, 0x00); (0x75, 0x00, 0x00); (0x76, 0x00, 0x00);
   (0x79, 0x00, 0x00); (0x7b, 0x00, 0x00); (0x7f, 0x00, 0x00); (0x82, 0x00, 0x00);
   (0x88, 0x00, 0x00); (0x8b, 0x00, 0x00); (0x8f, 0x00, 0x00); (0x92, 0x00, 0x00);
   (0x9b, 0x00, 0x00); (0xa2, 0x00, 0x00); (0xaa, 0x00, 0x00); (0xb4, 0x00, 0x00)];
  [(0x00, 0xb0, 0x02); (0x00, 0xb1, 0x02); (0x00, 0xb3, 0x02); (0x00, 0xd1, 0x02);
   (0x00, 0xd8, 0x02); (0x00, 0xd9, 0x02); (0x00, 0xe3, 0x02); (0x00, 0xe5, 0x02);
   (0x00, 0xe6, 0x02); (0x7a, 0x00, 0x00); (0x7c, 0x00, 0x00); (0x7d, 0x00, 0x00);
   (0x80, 0x00, 0x00); (0x81, 0x00, 0x00); (0x83, 0x00, 0x00); (0x84, 0x00, 0x00)]].

(** Rows 0x70 to 0x7f: [(next state, byte, flags)]. *)
Definition HUFFMAN_DECODE_7 : list (list (Z * Z * Z)) := [
  [(0x01, 0xb0, 0x02); (0x16, 0xb0, 0x03); (0x01, 0xb1, 0x02); (0x16, 0xb1, 0x03);
   (0x01, 0xb3, 0x02); (0x16, 0xb3, 0x03); (0x01, 0xd1, 0x02); (0x16, 0xd1, 0x03);
   (0x01, 0xd8, 0x02); (0x16, 0xd8, 0x03); (0x01, 0xd9, 0x02); (0x16, 0xd9, 0x03);
   (0x01, 0xe3, 0x02); (0x16, 0xe3, 0x03); (0x01, 0xe5, 0x02); (0x16, 0xe5, 0x03)];
  [(0x02, 0xb0, 0x02); (0x09, 0xb0, 0x02); (0x17, 0xb0, 0x02); (0x28, 0xb0, 0x03);
   (0x02, 0xb1, 0x02); (0x09, 0xb1, 0x02); (0x17, 0xb1, 0x02); (0x28, 0xb1, 0x03);
   (0x02, 0xb3, 0x02); (0x09, 0xb3, 0x02); (0x17, 0xb3, 0x02); (0x28, 0xb3, 0x03);
   (0x02, 0xd1, 0x02); (0x09, 0xd1, 0x02); (0x17, 0xd1, 0x02); (0x28, 0xd1, 0x03)];
  [(0x03, 0xb0, 0x02); (0x06, 0xb0, 0x02); (0x0a, 0xb0, 0x02); (0x0f, 0xb0, 0x02);
   (0x18, 0xb0, 0x02); (0x1f, 0xb0, 0x02); (0x29, 0xb0, 0x02); (0x38, 0xb0, 0x03);
   (0x03, 0xb1, 0x02); (0x06, 0xb1, 0x02); (0x0a, 0xb1, 0x02); (0x0f, 0xb1, 0x02);
   (0x18, 0xb1, 0x02); (0x1f, 0xb1, 0x02); (0x29, 0xb1, 0x02); (0x38, 0xb1, 0x03)];
  [(0x03, 0xb3, 0x02); (0x06, 0xb3, 0x02); (0x0a, 0xb3, 0x02); (0x0f, 0xb3, 0x02);
   (0x18, 0xb3, 0x02); (0x1f, 0xb3, 0x02); (0x29, 0xb3, 0x02); (0x38, 0xb3, 0x03);
   (0x03, 0xd1, 0x02); (0x06, 0xd1, 0x02); (0x0a, 0xd1, 0x02); (0x0f, 0xd1, 0x02);
   (0x18, 0xd1, 0x02); (0x1f, 0xd1, 0x02); (0x29, 0xd1, 0x02); (0x38, 0xd1, 0x03)];
  [(0x02, 0xd8, 0x02); (0x09, 0xd8, 0x02); (0x17, 0xd8, 0x02); (0x28, 0xd8, 0x03);
   (0x02, 0xd9, 0x02); (0x09, 0xd9, 0x02); (0x17, 0xd9, 0x02); (0x28, 0xd9, 0x03);
   (0x02, 0xe3, 0x02); (0x09, 0xe3, 0x02); (0x17, 0xe3, 0x02); (0x28, 0xe3, 0x03);
   (0x02, 0xe5, 0x02); (0x09, 0xe5, 0x02); (0x17, 0xe5, 0x02); (0x28, 0xe5, 0x03)];
  [(0x03, 0xd8, 0x02); (0x06, 0xd8, 0x02); (0x0a, 0xd8, 0x02); (0x0f, 0xd8, 0x02);
   (0x18, 0xd8, 0x02); (0x1f, 0xd8, 0x02); (0x29, 0xd8, 0x02); (0x38, 0xd8, 0x03);
   (0x03, 0xd9, 0x02); (0x06, 0xd9, 0x02); (0x0a, 0xd9, 0x02); (0x0f, 0xd9, 0x02);
   (0x18, 0xd9, 0x02); (0x1f, 0xd9, 0x02); (0x29, 0xd9, 0x02); (0x38, 0xd9, 0x03)];
  [(0x03, 0xe3, 0x02); (0x06, 0xe3, 0x02); (0x0a, 0xe3, 0x02); (0x0f, 0xe3, 0x02);
   (0x18, 0xe3, 0x02); (0x1f, 0xe3, 0x02); (0x29, 0xe3, 0x02); (0x38, 0xe3, 0x03);
   (0x03, 0xe5, 0x02); (0x06, 0xe5, 0x02); (0x0a, 0xe5, 0x02); (0x0f, 0xe5, 0x02);
   (0x18, 0xe5, 0x02); (0x1f, 0xe5, 0x02); (0x29, 0xe5, 0x02); (0x38, 0xe5, 0x03)];
  [(0x01, 0xe6, 0x02); (0x16, 0xe6, 0x03); (0x00, 0x81, 0x02); (0x00, 0x84, 0x02);
   (0x00, 0x85, 0x02); (0x00, 0x86, 0x02); (0x00, 0x88, 0x02); (0x00, 0x92, 0x02);
   (0x00, 0x9a, 0x02); (0x00, 0x9c, 0x02); (0x00, 0xa0, 0x02); (0x00, 0xa3, 0x02);
   (0x00, 0xa4, 0x02); (0x00, 0xa9, 0x02); (0x00, 0xaa, 0x02); (0x00, 0xad, 0x02)];
  [(0x02, 0xe6, 0x02); (0x09, 0xe6, 0x02); (0x17, 0xe6, 0x02); (0x28, 0xe6, 0x03);
   (0x01, 0x81, 0x02); (0x16, 0x81, 0x03); (0x01, 0x84, 0x02); (0x16, 0x84, 0x03);
   (0x01, 0x85, 0x02); (0x16, 0x85, 0x03); (0x01, 0x86, 0x02); (0x16, 0x86, 0x03);
   (0x01, 0x88, 0x02); (0x16, 0x88, 0x03); (0x01, 0x92, 0x02); (0x16, 0x92, 0x03)];
  [(0x03, 0xe6, 0x02); (0x06, 0xe6, 0x02); (0x0a, 0xe6, 0x02); (0x0f, 0xe6, 0x02);
   (0x18, 0xe6, 0x02); (0x1f, 0xe6, 0x02); (0x29, 0xe6, 0x02); (0x38, 0xe6, 0x03);
   (0x02, 0x81, 0x02); (0x09, 0x81, 0x02); (0x17, 0x81, 0x02); (0x28, 0x81, 0x03);
   (0x02, 0x84, 0x02); (0x09, 0x84, 0x02); (0x17, 0x84, 0x02); (0x28, 0x84, 0x03)];
  [(0x03, 0x81, 0x02); (0x06, 0x81, 0x02); (0x0a, 0x81, 0x02); (0x0f, 0x81, 0x02);
   (0x18, 0x81, 0x02); (0x1f, 0x81, 0x02); (0x29, 0x81, 0x02); (0x38, 0x81, 0x03);
   (0x03, 0x84, 0x02); (0x06, 0x84, 0x02); (0x0a, 0x84, 0x02); (0x0f, 0x84, 0x02);
   (0x18, 0x84, 0x02); (0x1f, 0x84, 0x02); (0x29, 0x84, 0x02); (0x38, 0x84, 0x03)];
  [(0x02, 0x85, 0x02); (0x09, 0x85, 0x02); (0x17, 0x85, 0x02); (0x28, 0x85, 0x03);
   (0x02, 0x86, 0x02); (0x09, 0x86, 0x02); (0x17, 0x86, 0x02); (0x28, 0x86, 0x03);
   (0x02, 0x88, 0x02); (0x09, 0x88, 0x02); (0x17, 0x88, 0x02); (0x28, 0x88, 0x03);
   (0x02, 0x92, 0x02); (0x09, 0x92, 0x02); (0x17, 0x92, 0x02); (0x28, 0x92, 0x03)];
  [(0x03, 0x85, 0x02); (0x06, 0x85, 0x02); (0x0a, 0x85, 0x02); (0x0f, 0x85, 0x02);
   (0x18, 0x85, 0x02); (0x1f, 0x85, 0x02); (0x29, 0x85, 0x02); (0x38, 0x85, 0x03);
   (0x03, 0x86, 0x02); (0x06, 0x86, 0x02); (0x0a, 0x86, 0x02); (0x0f, 0x86, 0x02);
   (0x18, 0x86, 0x02); (0x1f, 0x86, 0x02); (0x29, 0x86, 0x02); (0x38, 0x86, 0x03)];
  [(0x03, 0x88, 0x02); (0x06, 0x88, 0x02); (0x0a, 0x88, 0x02); (0x0f, 0x88, 0x02);
   (0x18, 0x88, 0x02); (0x1f, 0x88, 0x02); (0x29, 0x88, 0x02); (0x38, 0x88, 0x03);
   (0x03, 0x92, 0x02); (0x06, 0x92, 0x02); (0x0a, 0x92, 0x02); (0x0f, 0x92, 0x02);
   (0x18, 0x92, 0x02); (0x1f, 0x92, 0x02); (0x29, 0x92, 0x02); (0x38, 0x92, 0x03)];
  [(0x01, 0x9a, 0x02); (0x16, 0x9a, 0x03); (0x01, 0x9c, 0x02); (0x16, 0x9c, 0x03);
   (0x01, 0xa0, 0x02); (0x16, 0xa0, 0x03); (0x01, 0xa3, 0x02); (0x16, 0xa3, 0x03);
   (0x01, 0xa4, 0x02); (0x16, 0xa4, 0x03); (0x01, 0xa9, 0x02); (0x16, 0xa9, 0x03);
   (0x01, 0xaa, 0x02); (0x16, 0xaa, 0x03); (0x01, 0xad, 0x02); (0x16, 0xad, 0x03)];
  [(0x02, 0x9a, 0x02); (0x09, 0x9a, 0x02); (0x17, 0x9a, 0x02); (0x28, 0x9a, 0x03);
   (0x02, 0x9c, 0x02); (0x09, 0x9c, 0x02); (0x17, 0x9c, 0x02); (0x28, 0x9c, 0x03);
   (0x02, 0xa0, 0x02); (0x09, 0xa0, 0x02); (0x17, 0xa0, 0x02); (0x28, 0xa0, 0x03);
   (0x02, 0xa3, 0x02); (0x09, 0xa3, 0x02); (0x17, 0xa3, 0x02); (0x28, 0xa3, 0x03)]].

(** Rows 0x80 to 0x8f: [(next state, byte, flags)]. *)
Definition HUFFMAN_DECODE_8 : list (list (Z * Z * Z)) := [
  [(0x03, 0x9a, 0x02); (0x06, 0x9a, 0x02); (0x0a, 0x9a, 0x02); (0x0f, 0x9a, 0x02);
   (0x18, 0x9a, 0x02); (0x1f, 0x9a, 0x02); (0x29, 0x9a, 0x02); (0x38, 0x9a, 0x03);
   (0x03, 0x9c, 0x02); (0x06, 0x9c, 0x02); (0x0a, 0x9c, 0x02); (0x0f, 0x9c, 0x02);
   (0x18, 0x9c, 0x02); (0x1f, 0x9c, 0x02); (0x29, 0x9c, 0x02); (0x38, 0x9c, 0x03)];
  [(0x03, 0xa0, 0x02); (0x06, 0xa0, 0x02); (0x0a, 0xa0, 0x02); (0x0f, 0xa0, 0x02);
   (0x18, 0xa0, 0x02); (0x1f, 0xa0, 0x02); (0x29, 0xa0, 0x02); (0x38, 0xa0, 0x03);
   (0x03, 0xa3, 0x02); (0x06, 0xa3, 0x02); (0x0a, 0xa3, 0x02); (0x0f, 0xa3, 0x02);
   (0x18, 0xa3, 0x02); (0x1f, 0xa3, 0x02); (0x29, 0xa3, 0x02); (0x38, 0xa3, 0x03)];
  [(0x02, 0xa4, 0x02); (0x09, 0xa4, 0x02); (0x17, 0xa4, 0x02); (0x28, 0xa4, 0x03);
   (0x02, 0xa9, 0x02); (0x09, 0xa9, 0x02); (0x17, 0xa9, 0x02); (0x28, 0xa9, 0x03);
   (0x02, 0xaa, 0x02); (0x09, 0xaa, 0x02); (0x17, 0xaa, 0x02); (0x28, 0xaa, 0x03);
   (0x02, 0xad, 0x02); (0x09, 0xad, 0x02); (0x17, 0xad, 0x02); (0x28, 0xad, 0x03)];
  [(0x03, 0xa4, 0x02); (0x06, 0xa4, 0x02); (0x0a, 0xa4, 0x02); (0x0f, 0xa4, 0x02);
   (0x18, 0xa4, 0x02); (0x1f, 0xa4, 0x02); (0x29, 0xa4, 0x02); (0x38, 0xa4, 0x03);
   (0x03, 0xa9, 0x02); (0x06, 0xa9, 0x02); (0x0a, 0xa9, 0x02); (0x0f, 0xa9, 0x02);
   (0x18, 0xa9, 0x02); (0x1f, 0xa9, 0x02); (0x29, 0xa9, 0x02); (0x38, 0xa9, 0x03)];
  [(0x03, 0xaa, 0x02); (0x06, 0xaa, 0x02); (0x0a, 0xaa, 0x02); (0x0f, 0xaa, 0x02);
   (0x18, 0xaa, 0x02); (0x1f, 0xaa, 0x02); (0x29, 0xaa, 0x02); (0x38, 0xaa, 0x03);
   (0x03, 0xad, 0x02); (0x06, 0xad, 0x02); (0x0a, 0xad, 0x02); (0x0f, 0xad, 0x02);
   (0x18, 0xad, 0x02); (0x1f, 0xad, 0x02); (0x29, 0xad, 0x02); (0x38, 0xad, 0x03)];
  [(0x89, 0x00, 0x00); (0x8a, 0x00, 0x00); (0x8c, 0x00, 0x00); (0x8d, 0x00, 0x00);
   (0x90, 0x00, 0x00); (0x91, 0x00, 0x00); (0x93, 0x00, 0x00); (0x96, 0x00, 0x00);
   (0x9c, 0x00, 0x00); (0x9f, 0x00, 0x00); (0xa3, 0x00, 0x00); (0xa6, 0x00, 0x00);
   (0xab, 0x00, 0x00); (0xae, 0x00, 0x00); (0xb5, 0x00, 0x00); (0xbe, 0x00, 0x00)];
  [(0x00, 0xb2, 0x02); (0x00, 0xb5, 0x02); (0x00, 0xb9, 0x02); (0x00, 0xba, 0x02);
   (0x00, 0xbb, 0x02); (0x00, 0xbd, 0x02); (0x00, 0xbe, 0x02); (0x00, 0xc4, 0x02);
   (0x00, 0xc6, 0x02); (0x00, 0xe4, 0x02); (0x00, 0xe8, 0x02); (0x00, 0xe9, 0x02);
   (0x94, 0x00, 0x00); (0x95, 0x00, 0x00); (0x97, 0x00, 0x00); (0x98, 0x00, 0x00)];
  [(0x01, 0xb2, 0x02); (0x16, 0xb2, 0x03); (0x01, 0xb5, 0x02); (0x16, 0xb5, 0x03);
   (0x01, 0xb9, 0x02); (0x16, 0xb9, 0x03); (0x01, 0xba, 0x02); (0x16, 0xba, 0x03);
   (0x01, 0xbb, 0x02); (0x16, 0xbb, 0x03); (0x01, 0xbd, 0x02); (0x16, 0xbd, 0x03);
   (0x01, 0xbe, 0x02); (0x16, 0xbe, 0x03); (0x01, 0xc4, 0x02); (0x16, 0xc4, 0x03)];
  [(0x02, 0xb2, 0x02); (0x09, 0xb2, 0x02); (0x17, 0xb2, 0x02); (0x28, 0xb2, 0x03);
   (0x02, 0xb5, 0x02); (0x09, 0xb5, 0x02); (0x17, 0xb5, 0x02); (0x28, 0xb5, 0x03);
   (0x02, 0xb9, 0x02); (0x09, 0xb9, 0x02); (0x17, 0xb9, 0x02); (0x28, 0xb9, 0x03);
   (0x02, 0xba, 0x02); (0x09, 0xba, 0x02); (0x17, 0xba, 0x02); (0x28, 0xba, 0x03)];
  [(0x03, 0xb2, 0x02); (0x06, 0xb2, 0x02); (0x0a, 0xb2, 0x02); (0x0f, 0xb2, 0x02);
   (0x18, 0xb2, 0x02); (0x1f, 0xb2, 0x02); (0x29, 0xb2, 0x02); (0x38, 0xb2, 0x03);
   (0x03, 0xb5, 0x02); (0x06, 0xb5, 0x02); (0x0a, 0xb5, 0x02); (0x0f, 0xb5, 0x02);
   (0x18, 0xb5, 0x02); (0x1f, 0xb5, 0x02); (0x29, 0xb5, 0x02); (0x38, 0xb5, 0x03)];
  [(0x03, 0xb9, 0x02); (0x06, 0xb9, 0x02); (0x0a, 0xb9, 0x02); (0x0f, 0xb9, 0x02);
   (0x18, 0xb9, 0x02); (0x1f, 0xb9, 0x02); (0x29, 0xb9, 0x02); (0x38, 0xb9, 0x03);
   (0x03, 0xba, 0x02); (0x06, 0xba, 0x02); (0x0a, 0xba, 0x02); (0x0f, 0xba, 0x02);
   (0x18, 0xba, 0x02); (0x1f, 0xba, 0x02); (0x29, 0xba, 0x02); (0x38, 0xba, 0x03)];
  [(0x02, 0xbb, 0x02); (0x09, 0xbb, 0x02); (0x17, 0xbb, 0x02); (0x28, 0xbb, 0x03);
   (0x02, 0xbd, 0x02); (0x09, 0xbd, 0x02); (0x17, 0xbd, 0x02); (0x28, 0xbd, 0x03);
   (0x02, 0xbe, 0x02); (0x09, 0xbe, 0x02); (0x17, 0xbe, 0x02); (0x28, 0xbe, 0x03);
   (0x02, 0xc4, 0x02); (0x09, 0xc4, 0x02); (0x17, 0xc4, 0x02); (0x28, 0xc4, 0x03)];
  [(0x03, 0xbb, 0x02); (0x06, 0xbb, 0x02); (0x0a, 0xbb, 0x02); (0x0f, 0xbb, 0x02);
   (0x18, 0xbb, 0x02); (0x1f, 0xbb, 0x02); (0x29, 0xbb, 0x02); (0x38, 0xbb, 0x03);
   (0x03, 0xbd, 0x02); (0x06, 0xbd, 0x02); (0x0a, 0xbd, 0x02); (0x0f, 0xbd, 0x02);
   (0x18, 0xbd, 0x02); (0x1f, 0xbd, 0x02); (0x29, 0xbd, 0x02); (0x38, 0xbd, 0x03)];
  [(0x03, 0xbe, 0x02); (0x06, 0xbe, 0x02); (0x0a, 0xbe, 0x02); (0x0f, 0xbe, 0x02);
   (0x18, 0xbe, 0x02); (0x1f, 0xbe, 0x02); (0x29, 0xbe, 0x02); (0x38, 0xbe, 0x03);
   (0x03, 0xc4, 0x02); (0x06, 0xc4, 0x02); (0x0a, 0xc4, 0x02); (0x0f, 0xc4, 0x02);
   (0x18, 0xc4, 0x02); (0x1f, 0xc4, 0x02); (0x29, 0xc4, 0x02); (0x38, 0xc4, 0x03)];
  [(0x01, 0xc6, 0x02); (0x16, 0xc6, 0x03); (0x01, 0xe4, 0x02); (0x16, 0xe4, 0x03);
   (0x01, 0xe8, 0x02); (0x16, 0xe8, 0x03); (0x01, 0xe9, 0x02); (0x16, 0xe9, 0x03);
   (0x00, 0x01, 0x02); (0x00, 0x87, 0x02); (0x00, 0x89, 0x02); (0x00, 0x8a, 0x02);
   (0x00, 0x8b, 0x02); (0x00, 0x8c, 0x02); (0x00, 0x8d, 0x02); (0x00, 0x8f, 0x02)];
  [(0x02, 0xc6, 0x02); (0x09, 0xc6, 0x02); (0x17, 0xc6, 0x02); (0x28, 0xc6, 0x03);
   (0x02, 0xe4, 0x02); (0x09, 0xe4, 0x02); (0x17, 0xe4, 0x02); (0x28, 0xe4, 0x03);
   (0x02, 0xe8, 0x02); (0x09, 0xe8, 0x02); (0x17, 0xe8, 0x02); (0x28, 0xe8, 0x03);
   (0x02, 0xe9, 0x02); (0x09, 0xe9, 0x02); (0x17, 0xe9, 0x02); (0x28, 0xe9, 0x03)]].

(** Rows 0x90 to 0x9f: [(next state, byte, flags)]. *)
Definition HUFFMAN_DECODE_9 : list (list (Z * Z * Z)) := [
  [(0x03, 0xc6, 0x02); (0x06, 0xc6, 0x02); (0x0a, 0xc6, 0x02); (0x0f, 0xc6, 0x02);
   (0x18, 0xc6, 0x02); (0x1f, 0xc6, 0x02); (0x29, 0xc6, 0x02); (0x38, 0xc6, 0x03);
   (0x03, 0xe4, 0x02); (0x06, 0xe4, 0x02); (0x0a, 0xe4, 0x02); (0x0f, 0xe4, 0x02);
   (0x18, 0xe4, 0x02); (0x1f, 0xe4, 0x02); (0x29, 0xe4, 0x02); (0x38, 0xe4, 0x03)];
  [(0x03, 0xe8, 0x02); (0x06, 0xe8, 0x02); (0x0a, 0xe8, 0x02); (0x0f, 0xe8, 0x02);
   (0x18, 0xe8, 0x02); (0x1f, 0xe8, 0x02); (0x29, 0xe8, 0x02); (0x38, 0xe8, 0x03);
   (0x03, 0xe9, 0x02); (0x06, 0xe9, 0x02); (0x0a, 0xe9, 0x02); (0x0f, 0xe9, 0x02);
   (0x18, 0xe9, 0x02); (0x1f, 0xe9, 0x02); (0x29, 0xe9, 0x02); (0x38, 0xe9, 0x03)];
  [(0x01, 0x01, 0x02); (0x16, 0x01, 0x03); (0x01, 0x87, 0x02); (0x16, 0x87, 0x03);
   (0x01, 0x89, 0x02); (0x16, 0x89, 0x03); (0x01, 0x8a, 0x02); (0x16, 0x8a, 0x03);
   (0x01, 0x8b, 0x02); (0x16, 0x8b, 0x03); (0x01, 0x8c, 0x02); (0x16, 0x8c, 0x03);
   (0x01, 0x8d, 0x02); (0x16, 0x8d, 0x03); (0x01, 0x8f, 0x02); (0x16, 0x8f, 0x03)];
  [(0x02, 0x01, 0x02); (0x09, 0x01, 0x02); (0x17, 0x01, 0x02); (0x28, 0x01, 0x03);
   (0x02, 0x87, 0x02); (0x09, 0x87, 0x02); (0x17, 0x87, 0x02); (0x28, 0x87, 0x03);
   (0x02, 0x89, 0x02); (0x09, 0x89, 0x02); (0x17, 0x89, 0x02); (0x28, 0x89, 0x03);
   (0x02, 0x8a, 0x02); (0x09, 0x8a, 0x02); (0x17, 0x8a, 0x02); (0x28, 0x8a, 0x03)];
  [(0x03, 0x01, 0x02); (0x06, 0x01, 0x02); (0x0a, 0x01, 0x02); (0x0f, 0x01, 0x02);
   (0x18, 0x01, 0x02); (0x1f, 0x01, 0x02); (0x29, 0x01, 0x02); (0x38, 0x01, 0x03);
   (0x03, 0x87, 0x02); (0x06, 0x87, 0x02); (0x0a, 0x87, 0x02); (0x0f, 0x87, 0x02);
   (0x18, 0x87, 0x02); (0x1f, 0x87, 0x02); (0x29, 0x87, 0x02); (0x38, 0x87, 0x03)];
  [(0x03, 0x89, 0x02); (0x06, 0x89, 0x02); (0x0a, 0x89, 0x02); (0x0f, 0x89, 0x02);
   (0x18, 0x89, 0x02); (0x1f, 0x89, 0x02); (0x29, 0x89, 0x02); (0x38, 0x89, 0x03);
   (0x03, 0x8a, 0x02); (0x06, 0x8a, 0x02); (0x0a, 0x8a, 0x02); (0x0f, 0x8a, 0x02);
   (0x18, 0x8a, 0x02); (0x1f, 0x8a, 0x02); (0x29, 0x8a, 0x02); (0x38, 0x8a, 0x03)];
  [(0x02, 0x8b, 0x02); (0x09, 0x8b, 0x02); (0x17, 0x8b, 0x02); (0x28, 0x8b, 0x03);
   (0x02, 0x8c, 0x02); (0x09, 0x8c, 0x02); (0x17, 0x8c, 0x02); (0x28, 0x8c, 0x03);
   (0x02, 0x8d, 0x02); (0x09, 0x8d, 0x02); (0x17, 0x8d, 0x02); (0x28, 0x8d, 0x03);
   (0x02, 0x8f, 0x02); (0x09, 0x8f, 0x02); (0x17, 0x8f, 0x02); (0x28, 0x8f, 0x03)];
  [(0x03, 0x8b, 0x02); (0x06, 0x8b, 0x02); (0x0a, 0x8b, 0x02); (0x0f, 0x8b, 0x02);
   (0x18, 0x8b, 0x02); (0x1f, 0x8b, 0x02); (0x29, 0x8b, 0x02); (0x38, 0x8b, 0x03);
   (0x03, 0x8c, 0x02); (0x06, 0x8c, 0x02); (0x0a, 0x8c, 0x02); (0x0f, 0x8c, 0x02);
   (0x18, 0x8c, 0x02); (0x1f, 0x8c, 0x02); (0x29, 0x8c, 0x02); (0x38, 0x8c, 0x03)];
  [(0x03, 0x8d, 0x02); (0x06, 0x8d, 0x02); (0x0a, 0x8d, 0x02); (0x0f, 0x8d, 0x02);
   (0x18, 0x8d, 0x02); (0x1f, 0x8d, 0x02); (0x29, 0x8d, 0x02); (0x38, 0x8d, 0x03);
   (0x03, 0x8f, 0x02); (0x06, 0x8f, 0x02); (0x0a, 0x8f, 0x02); (0x0f, 0x8f, 0x02);
   (0x18, 0x8f, 0x02); (0x1f, 0x8f, 0x02); (0x29, 0x8f, 0x02); (0x38, 0x8f, 0x03)];
  [(0x9d, 0x00, 0x00); (0x9e, 0x00, 0x00); (0xa0, 0x00, 0x00); (0xa1, 0x00, 0x00);
   (0xa4, 0x00, 0x00); (0xa5, 0x00, 0x00); (0xa7, 0x00, 0x00); (0xa8, 0x00, 0x00);
   (0xac, 0x00, 0x00); (0xad, 0x00, 0x00); (0xaf, 0x00, 0x00); (0xb1, 0x00, 0x00);
   (0xb6, 0x00, 0x00); (0xb9, 0x00, 0x00); (0xbf, 0x00, 0x00); (0xcf, 0x00, 0x00)];
  [(0x00, 0x93, 0x02); (0x00, 0x95, 0x02); (0x00, 0x96, 0x02); (0x00, 0x97, 0x02);
   (0x00, 0x98, 0x02); (0x00, 0x9b, 0x02); (0x00, 0x9d, 0x02); (0x00, 0x9e, 0x02);
   (0x00, 0xa5, 0x02); (0x00, 0xa6, 0x02); (0x00, 0xa8, 0x02); (0x00, 0xae, 0x02);
   (0x00, 0xaf, 0x02); (0x00, 0xb4, 0x02); (0x00, 0xb6, 0x02); (0x00, 0xb7, 0x02)];
  [(0x01, 0x93, 0x02); (0x16, 0x93, 0x03); (0x01, 0x95, 0x02); (0x16, 0x95, 0x03);
   (0x01, 0x96, 0x02); (0x16, 0x96, 0x03); (0x01, 0x97, 0x02); (0x16, 0x97, 0x03);
   (0x01, 0x98, 0x02); (0x16, 0x98, 0x03); (0x01, 0x9b, 0x02); (0x16, 0x9b, 0x03);
   (0x01, 0x9d, 0x02); (0x16, 0x9d, 0x03); (0x01, 0x9e, 0x02); (0x16, 0x9e, 0x03)];
  [(0x02, 0x93, 0x02); (0x09, 0x93, 0x02); (0x17, 0x93, 0x02); (0x28, 0x93, 0x03);
   (0x02, 0x95, 0x02); (0x09, 0x95, 0x02); (0x17, 0x95, 0x02); (0x28, 0x95, 0x03);
   (0x02, 0x96, 0x02); (0x09, 0x96, 0x02); (0x17, 0x96, 0x02); (0x28, 0x96, 0x03);
   (0x02, 0x97, 0x02); (0x09, 0x97, 0x02); (0x17, 0x97, 0x02); (0x28, 0x97, 0x03)];
  [(0x03, 0x93, 0x02); (0x06, 0x93, 0x02); (0x0a, 0x93, 0x02); (0x0f, 0x93, 0x02);
   (0x18, 0x93, 0x02); (0x1f, 0x93, 0x02); (0x29, 0x93, 0x02); (0x38, 0x93, 0x03);
   (0x03, 0x95, 0x02); (0x06, 0x95, 0x02); (0x0a, 0x95, 0x02); (0x0f, 0x95, 0x02);
   (0x18, 0x95, 0x02); (0x1f, 0x95, 0x02); (0x29, 0x95, 0x02); (0x38, 0x95, 0x03)];
  [(0x03, 0x96, 0x02); (0x06, 0x96, 0x02); (0x0a, 0x96, 0x02); (0x0f, 0x96, 0x02);
   (0x18, 0x96, 0x02); (0x1f, 0x96, 0x02); (0x29, 0x96, 0x02); (0x38, 0x96, 0x03);
   (0x03, 0x97, 0x02); (0x06, 0x97, 0x02); (0x0a, 0x97, 0x02); (0x0f, 0x97, 0x02);
   (0x18, 0x97, 0x02); (0x1f, 0x97, 0x02); (0x29, 0x97, 0x02); (0x38, 0x97, 0x03)];
  [(0x02, 0x98, 0x02); (0x09, 0x98, 0x02); (0x17, 0x98, 0x02); (0x28, 0x98, 0x03);
   (0x02, 0x9b, 0x02); (0x09, 0x9b, 0x02); (0x17, 0x9b, 0x02); (0x28, 0x9b, 0x03);
   (0x02, 0x9d, 0x02); (0x09, 0x9d, 0x02); (0x17, 0x9d, 0x02); (0x28, 0x9d, 0x03);
   (0x02, 0x9e, 0x02); (0x09, 0x9e, 0x02); (0x17, 0x9e, 0x02); (0x28, 0x9e, 0x03)]].

(** Rows 0xa0 to 0xaf: [(next state, byte, flags)]. *)
Definition HUFFMAN_DECODE_a : list (list (Z * Z * Z)) := [
  [(0x03, 0x98, 0x02); (0x06, 0x98, 0x02); (0x0a, 0x98, 0x02); (0x0f, 0x98, 0x02);
   (0x18, 0x98, 0x02); (0x1f, 0x98, 0x02); (0x29, 0x98, 0x02); (0x38, 0x98, 0x03);
   (0x03, 0x9b, 0x02); (0x06, 0x9b, 0x02); (0x0a, 0x9b, 0x02); (0x0f, 0x9b, 0x02);
   (0x18, 0x9b, 0x02); (0x1f, 0x9b, 0x02); (0x29, 0x9b, 0x02); (0x38, 0x9b, 0x03)];
  [(0x03, 0x9d, 0x02); (0x06, 0x9d, 0x02); (0x0a, 0x9d, 0x02); (0x0f, 0x9d, 0x02);
   (0x18, 0x9d, 0x02); (0x1f, 0x9d, 0x02); (0x29, 0x9d, 0x02); (0x38, 0x9d, 0x03);
   (0x03, 0x9e, 0x02); (0x06, 0x9e, 0x02); (0x0a, 0x9e, 0x02); (0x0f, 0x9e, 0x02);
   (0x18, 0x9e, 0x02); (0x1f, 0x9e, 0x02); (0x29, 0x9e, 0x02); (0x38, 0x9e, 0x03)];
  [(0x01, 0xa5, 0x02); (0x16, 0xa5, 0x03); (0x01, 0xa6, 0x02); (0x16, 0xa6, 0x03);
   (0x01, 0xa8, 0x02); (0x16, 0xa8, 0x03); (0x01, 0xae, 0x02); (0x16, 0xae, 0x03);
   (0x01, 0xaf, 0x02); (0x16, 0xaf, 0x03); (0x01, 0xb4, 0x02); (0x16, 0xb4, 0x03);
   (0x01, 0xb6, 0x02); (0x16, 0xb6, 0x03); (0x01, 0xb7, 0x02); (0x16, 0xb7, 0x03)];
  [(0x02, 0xa5, 0x02); (0x09, 0xa5, 0x02); (0x17, 0xa5, 0x02); (0x28, 0xa5, 0x03);
   (0x02, 0xa6, 0x02); (0x09, 0xa6, 0x02); (0x17, 0xa6, 0x02); (0x28, 0xa6, 0x03);
   (0x02, 0xa8, 0x02); (0x09, 0xa8, 0x02); (0x17, 0xa8, 0x02); (0x28, 0xa8, 0x03);
   (0x02, 0xae, 0x02); (0x09, 0xae, 0x02); (0x17, 0xae, 0x02); (0x28, 0xae, 0x03)];
  [(0x03, 0xa5, 0x02); (0x06, 0xa5, 0x02); (0x0a, 0xa5, 0x02); (0x0f, 0xa5, 0x02);
   (0x18, 0xa5, 0x02); (0x1f, 0xa5, 0x02); (0x29, 0xa5, 0x02); (0x38, 0xa5, 0x03);
   (0x03, 0xa6, 0x02); (0x06, 0xa6, 0x02); (0x0a, 0xa6, 0x02); (0x0f, 0xa6, 0x02);
   (0x18, 0xa6, 0x02); (0x1f, 0xa6, 0x02); (0x29, 0xa6, 0x02); (0x38, 0xa6, 0x03)];
  [(0x03, 0xa8, 0x02); (0x06, 0xa8, 0x02); (0x0a, 0xa8, 0x02); (0x0f, 0xa8, 0x02);
   (0x18, 0xa8, 0x02); (0x1f, 0xa8, 0x02); (0x29, 0xa8, 0x02); (0x38, 0xa8, 0x03);
   (0x03, 0xae, 0x02); (0x06, 0xae, 0x02); (0x0a, 0xae, 0x02); (0x0f, 0xae, 0x02);
   (0x18, 0xae, 0x02); (0x1f, 0xae, 0x02); (0x29, 0xae, 0x02); (0x38, 0xae, 0x03)];
  [(0x02, 0xaf, 0x02); (0x09, 0xaf, 0x02); (0x17, 0xaf, 0x02); (0x28, 0xaf, 0x03);
   (0x02, 0xb4, 0x02); (0x09, 0xb4, 0x02); (0x17, 0xb4, 0x02); (0x28, 0xb4, 0x03);
   (0x02, 0xb6, 0x02); (0x09, 0xb6, 0x02); (0x17, 0xb6, 0x02); (0x28, 0xb6, 0x03);
   (0x02, 0xb7, 0x02); (0x09, 0xb7, 0x02); (0x17, 0xb7, 0x02); (0x28, 0xb7, 0x03)];
  [(0x03, 0xaf, 0x02); (0x06, 0xaf, 0x02); (0x0a, 0xaf, 0x02); (0x0f, 0xaf, 0x02);
   (0x18, 0xaf, 0x02); (0x1f, 0xaf, 0x02); (0x29, 0xaf, 0x02); (0x38, 0xaf, 0x03);
   (0x03, 0xb4, 0x02); (0x06, 0xb4, 0x02); (0x0a, 0xb4, 0x02); (0x0f, 0xb4, 0x02);
   (0x18, 0xb4, 0x02); (0x1f, 0xb4, 0x02); (0x29, 0xb4, 0x02); (0x38, 0xb4, 0x03)];
  [(0x03, 0xb6, 0x02); (0x06, 0xb6, 0x02); (0x0a, 0xb6, 0x02); (0x0f, 0xb6, 0x02);
   (0x18, 0xb6, 0x02); (0x1f, 0xb6, 0x02); (0x29, 0xb6, 0x02); (0x38, 0xb6, 0x03);
   (0x03, 0xb7, 0x02); (0x06, 0xb7, 0x02); (0x0a, 0xb7, 0x02); (0x0f, 0xb7, 0x02);
   (0x18, 0xb7, 0x02); (0x1f, 0xb7, 0x02); (0x29, 0xb7, 0x02); (0x38, 0xb7, 0x03)];
  [(0x00, 0xbc, 0x02); (0x00, 0xbf, 0x02); (0x00, 0xc5, 0x02); (0x00, 0xe7, 0x02);
   (0x00, 0xef, 0x02); (0xb0, 0x00, 0x00); (0xb2, 0x00, 0x00); (0xb3, 0x00, 0x00);
   (0xb7, 0x00, 0x00); (0xb8, 0x00, 0x00); (0xba, 0x00, 0x00); (0xbb, 0x00, 0x00);
   (0xc0, 0x00, 0x00); (0xc7, 0x00, 0x00); (0xd0, 0x00, 0x00); (0xdf, 0x00, 0x00)];
  [(0x01, 0xbc, 0x02); (0x16, 0xbc, 0x03); (0x01, 0xbf, 0x02); (0x16, 0xbf, 0x03);
   (0x01, 0xc5, 0x02); (0x16, 0xc5, 0x03); (0x01, 0xe7, 0x02); (0x16, 0xe7, 0x03);
   (0x01, 0xef, 0x02); (0x16, 0xef, 0x03); (0x00, 0x09, 0x02); (0x00, 0x8e, 0x02);
   (0x00, 0x90, 0x02); (0x00, 0x91, 0x02); (0x00, 0x94, 0x02); (0x00, 0x9f, 0x02)];
  [(0x02, 0xbc, 0x02); (0x09, 0xbc, 0x02); (0x17, 0xbc, 0x02); (0x28, 0xbc, 0x03);
   (0x02, 0xbf, 0x02); (0x09, 0xbf, 0x02); (0x17, 0xbf, 0x02); (0x28, 0xbf, 0x03);
   (0x02, 0xc5, 0x02); (0x09, 0xc5, 0x02); (0x17, 0xc5, 0x02); (0x28, 0xc5, 0x03);
   (0x02, 0xe7, 0x02); (0x09, 0xe7, 0x02); (0x17, 0xe7, 0x02); (0x28, 0xe7, 0x03)];
  [(0x03, 0xbc, 0x02); (0x06, 0xbc, 0x02); (0x0a, 0xbc, 0x02); (0x0f, 0xbc, 0x02);
   (0x18, 0xbc, 0x02); (0x1f, 0xbc, 0x02); (0x29, 0xbc, 0x02); (0x38, 0xbc, 0x03);
   (0x03, 0xbf, 0x02); (0x06, 0xbf, 0x02); (0x0a, 0xbf, 0x02); (0x0f, 0xbf, 0x02);
   (0x18, 0xbf, 0x02); (0x1f, 0xbf, 0x02); (0x29, 0xbf, 0x02); (0x38, 0xbf, 0x03)];
  [(0x03, 0xc5, 0x02); (0x06, 0xc5, 0x02); (0x0a, 0xc5, 0x02); (0x0f, 0xc5, 0x02);
   (0x18, 0xc5, 0x02); (0x1f, 0xc5, 0x02); (0x29, 0xc5, 0x02); (0x38, 0xc5, 0x03);
   (0x03, 0xe7, 0x02); (0x06, 0xe7, 0x02); (0x0a, 0xe7, 0x02); (0x0f, 0xe7, 0x02);
   (0x18, 0xe7, 0x02); (0x1f, 0xe7, 0x02); (0x29, 0xe7, 0x02); (0x38, 0xe7, 0x03)];
  [(0x02, 0xef, 0x02); (0x09, 0xef, 0x02); (0x17, 0xef, 0x02); (0x28, 0xef, 0x03);
   (0x01, 0x09, 0x02); (0x16, 0x09, 0x03); (0x01, 0x8e, 0x02); (0x16, 0x8e, 0x03);
   (0x01, 0x90, 0x02); (0x16, 0x90, 0x03); (0x01, 0x91, 0x02); (0x16, 0x91, 0x03);
   (0x01, 0x94, 0x02); (0x16, 0x94, 0x03); (0x01, 0x9f, 0x02); (0x16, 0x9f, 0x03)];
  [(0x03, 0xef, 0x02); (0x06, 0xef, 0x02); (0x0a, 0xef, 0x02); (0x0f, 0xef, 0x02);
   (0x18, 0xef, 0x02); (0x1f, 0xef, 0x02); (0x29, 0xef, 0x02); (0x38, 0xef, 0x03);
   (0x02, 0x09, 0x02); (0x09, 0x09, 0x02); (0x17, 0x09, 0x02); (0x28, 0x09, 0x03);
   (0x02, 0x8e, 0x02); (0x09, 0x8e, 0x02); (0x17, 0x8e, 0x02); (0x28, 0x8e, 0x03)]].

(** Rows 0xb0 to 0xbf: [(next state, byte, flags)]. *)
Definition HUFFMAN_DECODE_b : list (list (Z * Z * Z)) := [
  [(0x03, 0x09, 0x02); (0x06, 0x09, 0x02); (0x0a, 0x09, 0x02); (0x0f, 0x09, 0x02);
   (0x18, 0x09, 0x02); (0x1f, 0x09, 0x02); (0x29, 0x09, 0x02); (0x38, 0x09, 0x03);
   (0x03, 0x8e, 0x02); (0x06, 0x8e, 0x02); (0x0a, 0x8e, 0x02); (0x0f, 0x8e, 0x02);
   (0x18, 0x8e, 0x02); (0x1f, 0x8e, 0x02); (0x29, 0x8e, 0x02); (0x38, 0x8e, 0x03)];
  [(0x02, 0x90, 0x02); (0x09, 0x90, 0x02); (0x17, 0x90, 0x02); (0x28, 0x90, 0x03);
   (0x02, 0x91, 0x02); (0x09, 0x91, 0x02); (0x17, 0x91, 0x02); (0x28, 0x91, 0x03);
   (0x02, 0x94, 0x02); (0x09, 0x94, 0x02); (0x17, 0x94, 0x02); (0x28, 0x94, 0x03);
   (0x02, 0x9f, 0x02); (0x09, 0x9f, 0x02); (0x17, 0x9f, 0x02); (0x28, 0x9f, 0x03)];
  [(0x03, 0x90, 0x02); (0x06, 0x90, 0x02); (0x0a, 0x90, 0x02); (0x0f, 0x90, 0x02);
   (0x18, 0x90, 0x02); (0x1f, 0x90, 0x02); (0x29, 0x90, 0x02); (0x38, 0x90, 0x03);
   (0x03, 0x91, 0x02); (0x06, 0x91, 0x02); (0x0a, 0x91, 0x02); (0x0f, 0x91, 0x02);
   (0x18, 0x91, 0x02); (0x1f, 0x91, 0x02); (0x29, 0x91, 0x02); (0x38, 0x91, 0x03)];
  [(0x03, 0x94, 0x02); (0x06, 0x94, 0x02); (0x0a, 0x94, 0x02); (0x0f, 0x94, 0x02);
   (0x18, 0x94, 0x02); (0x1f, 0x94, 0x02); (0x29, 0x94, 0x02); (0x38, 0x94, 0x03);
   (0x03, 0x9f, 0x02); (0x06, 0x9f, 0x02); (0x0a, 0x9f, 0x02); (0x0f, 0x9f, 0x02);
   (0x18, 0x9f, 0x02); (0x1f, 0x9f, 0x02); (0x29, 0x9f, 0x02); (0x38, 0x9f, 0x03)];
  [(0x00, 0xab, 0x02); (0x00, 0xce, 0x02); (0x00, 0xd7, 0x02); (0x00, 0xe1, 0x02);
   (0x00, 0xec, 0x02); (0x00, 0xed, 0x02); (0xbc, 0x00, 0x00); (0xbd, 0x00, 0x00);
   (0xc1, 0x00, 0x00); (0xc4, 0x00, 0x00); (0xc8, 0x00, 0x00); (0xcb, 0x00, 0x00);
   (0xd1, 0x00, 0x00); (0xd8, 0x00, 0x00); (0xe0, 0x00, 0x00); (0xee, 0x00, 0x00)];
  [(0x01, 0xab, 0x02); (0x16, 0xab, 0x03); (0x01, 0xce, 0x02); (0x16, 0xce, 0x03);
   (0x01, 0xd7, 0x02); (0x16, 0xd7, 0x03); (0x01, 0xe1, 0x02); (0x16, 0xe1, 0x03);
   (0x01, 0xec, 0x02); (0x16, 0xec, 0x03); (0x01, 0xed, 0x02); (0x16, 0xed, 0x03);
   (0x00, 0xc7, 0x02); (0x00, 0xcf, 0x02); (0x00, 0xea, 0x02); (0x00, 0xeb, 0x02)];
  [(0x02, 0xab, 0x02); (0x09, 0xab, 0x02); (0x17, 0xab, 0x02); (0x28, 0xab, 0x03);
   (0x02, 0xce, 0x02); (0x09, 0xce, 0x02); (0x17, 0xce, 0x02); (0x28, 0xce, 0x03);
   (0x02, 0xd7, 0x02); (0x09, 0xd7, 0x02); (0x17, 0xd7, 0x02); (0x28, 0xd7, 0x03);
   (0x02, 0xe1, 0x02); (0x09, 0xe1, 0x02); (0x17, 0xe1, 0x02); (0x28, 0xe1, 0x03)];
  [(0x03, 0xab, 0x02); (0x06, 0xab, 0x02); (0x0a, 0xab, 0x02); (0x0f, 0xab, 0x02);
   (0x18, 0xab, 0x02); (0x1f, 0xab, 0x02); (0x29, 0xab, 0x02); (0x38, 0xab, 0x03);
   (0x03, 0xce, 0x02); (0x06, 0xce, 0x02); (0x0a, 0xce, 0x02); (0x0f, 0xce, 0x02);
   (0x18, 0xce, 0x02); (0x1f, 0xce, 0x02); (0x29, 0xce, 0x02); (0x38, 0xce, 0x03)];
  [(0x03, 0xd7, 0x02); (0x06, 0xd7, 0x02); (0x0a, 0xd7, 0x02); (0x0f, 0xd7, 0x02);
   (0x18, 0xd7, 0x02); (0x1f, 0xd7, 0x02); (0x29, 0xd7, 0x02); (0x38, 0xd7, 0x03);
   (0x03, 0xe1, 0x02); (0x06, 0xe1, 0x02); (0x0a, 0xe1, 0x02); (0x0f, 0xe1, 0x02);
   (0x18, 0xe1, 0x02); (0x1f, 0xe1, 0x02); (0x29, 0xe1, 0x02); (0x38, 0xe1, 0x03)];
  [(0x02, 0xec, 0x02); (0x09, 0xec, 0x02); (0x17, 0xec, 0x02); (0x28, 0xec, 0x03);
   (0x02, 0xed, 0x02); (0x09, 0xed, 0x02); (0x17, 0xed, 0x02); (0x28, 0xed, 0x03);
   (0x01, 0xc7, 0x02); (0x16, 0xc7, 0x03); (0x01, 0xcf, 0x02); (0x16, 0xcf, 0x03);
   (0x01, 0xea, 0x02); (0x16, 0xea, 0x03); (0x01, 0xeb, 0x02); (0x16, 0xeb, 0x03)];
  [(0x03, 0xec, 0x02); (0x06, 0xec, 0x02); (0x0a, 0xec, 0x02); (0x0f, 0xec, 0x02);
   (0x18, 0xec, 0x02); (0x1f, 0xec, 0x02); (0x29, 0xec, 0x02); (0x38, 0xec, 0x03);
   (0x03, 0xed, 0x02); (0x06, 0xed, 0x02); (0x0a, 0xed, 0x02); (0x0f, 0xed, 0x02);
   (0x18, 0xed, 0x02); (0x1f, 0xed, 0x02); (0x29, 0xed, 0x02); (0x38, 0xed, 0x03)];
  [(0x02, 0xc7, 0x02); (0x09, 0xc7, 0x02); (0x17, 0xc7, 0x02); (0x28, 0xc7, 0x03);
   (0x02, 0xcf, 0x02); (0x09, 0xcf, 0x02); (0x17, 0xcf, 0x02); (0x28, 0xcf, 0x03);
   (0x02, 0xea, 0x02); (0x09, 0xea, 0x02); (0x17, 0xea, 0x02); (0x28, 0xea, 0x03);
   (0x02, 0xeb, 0x02); (0x09, 0xeb, 0x02); (0x17, 0xeb, 0x02); (0x28, 0xeb, 0x03)];
  [(0x03, 0xc7, 0x02); (0x06, 0xc7, 0x02); (0x0a, 0xc7, 0x02); (0x0f, 0xc7, 0x02);
   (0x18, 0xc7, 0x02); (0x1f, 0xc7, 0x02); (0x29, 0xc7, 0x02); (0x38, 0xc7, 0x03);
   (0x03, 0xcf, 0x02); (0x06, 0xcf, 0x02); (0x0a, 0xcf, 0x02); (0x0f, 0xcf, 0x02);
   (0x18, 0xcf, 0x02); (0x1f, 0xcf, 0x02); (0x29, 0xcf, 0x02); (0x38, 0xcf, 0x03)];
  [(0x03, 0xea, 0x02); (0x06, 0xea, 0x02); (0x0a, 0xea, 0x02); (0x0f, 0xea, 0x02);
   (0x18, 0xea, 0x02); (0x1f, 0xea, 0x02); (0x29, 0xea, 0x02); (0x38, 0xea, 0x03);
   (0x03, 0xeb, 0x02); (0x06, 0xeb, 0x02); (0x0a, 0xeb, 0x02); (0x0f, 0xeb, 0x02);
   (0x18, 0xeb, 0x02); (0x1f, 0xeb, 0x02); (0x29, 0xeb, 0x02); (0x38, 0xeb, 0x03)];
  [(0xc2, 0x00, 0x00); (0xc3, 0x00, 0x00); (0xc5, 0x00, 0x00); (0xc6, 0x00, 0x00);
   (0xc9, 0x00, 0x00); (0xca, 0x00, 0x00); (0xcc, 0x00, 0x00); (0xcd, 0x00, 0x00);
   (0xd2, 0x00, 0x00); (0xd5, 0x00, 0x00); (0xd9, 0x00, 0x00); (0xdc, 0x00, 0x00);
   (0xe1, 0x00, 0x00); (0xe7, 0x00, 0x00); (0xef, 0x00, 0x00); (0xf6, 0x00, 0x00)];
  [(0x00, 0xc0, 0x02); (0x00, 0xc1, 0x02); (0x00, 0xc8, 0x02); (0x00, 0xc9, 0x02);
   (0x00, 0xca, 0x02); (0x00, 0xcd, 0x02); (0x00, 0xd2, 0x02); (0x00, 0xd5, 0x02);
   (0x00, 0xda, 0x02); (0x00, 0xdb, 0x02); (0x00, 0xee, 0x02); (0x00, 0xf0, 0x02);
   (0x00, 0xf2, 0x02); (0x00, 0xf3, 0x02); (0x00, 0xff, 0x02); (0xce, 0x00, 0x00)]].

(** Rows 0xc0 to 0xcf: [(next state, byte, flags)]. *)
Definition HUFFMAN_DECODE_c : list (list (Z * Z * Z)) := [
  [(0x01, 0xc0, 0x02); (0x16, 0xc0, 0x03); (0x01, 0xc1, 0x02); (0x16, 0xc1, 0x03);
   (0x01, 0xc8, 0x02); (0x16, 0xc8, 0x03); (0x01, 0xc9, 0x02); (0x16, 0xc9, 0x03);
   (0x01, 0xca, 0x02); (0x16, 0xca, 0x03); (0x01, 0xcd, 0x02); (0x16, 0xcd, 0x03);
   (0x01, 0xd2, 0x02); (0x16, 0xd2, 0x03); (0x01, 0xd5, 0x02); (0x16, 0xd5, 0x03)];
  [(0x02, 0xc0, 0x02); (0x09, 0xc0, 0x02); (0x17, 0xc0, 0x02); (0x28, 0xc0, 0x03);
   (0x02, 0xc1, 0x02); (0x09, 0xc1, 0x02); (0x17, 0xc1, 0x02); (0x28, 0xc1, 0x03);
   (0x02, 0xc8, 0x02); (0x09, 0xc8, 0x02); (0x17, 0xc8, 0x02); (0x28, 0xc8, 0x03);
   (0x02, 0xc9, 0x02); (0x09, 0xc9, 0x02); (0x17, 0xc9, 0x02); (0x28, 0xc9, 0x03)];
  [(0x03, 0xc0, 0x02); (0x06, 0xc0, 0x02); (0x0a, 0xc0, 0x02); (0x0f, 0xc0, 0x02);
   (0x18, 0xc0, 0x02); (0x1f, 0xc0, 0x02); (0x29, 0xc0, 0x02); (0x38, 0xc0, 0x03);
   (0x03, 0xc1, 0x02); (0x06, 0xc1, 0x02); (0x0a, 0xc1, 0x02); (0x0f, 0xc1, 0x02);
   (0x18, 0xc1, 0x02); (0x1f, 0xc1, 0x02); (0x29, 0xc1, 0x02); (0x38, 0xc1, 0x03)];
  [(0x03, 0xc8, 0x02); (0x06, 0xc8, 0x02); (0x0a, 0xc8, 0x02); (0x0f, 0xc8, 0x02);
   (0x18, 0xc8, 0x02); (0x1f, 0xc8, 0x02); (0x29, 0xc8, 0x02); (0x38, 0xc8, 0x03);
   (0x03, 0xc9, 0x02); (0x06, 0xc9, 0x02); (0x0a, 0xc9, 0x02); (0x0f, 0xc9, 0x02);
   (0x18, 0xc9, 0x02); (0x1f, 0xc9, 0x02); (0x29, 0xc9, 0x02); (0x38, 0xc9, 0x03)];
  [(0x02, 0xca, 0x02); (0x09, 0xca, 0x02); (0x17, 0xca, 0x02); (0x28, 0xca, 0x03);
   (0x02, 0xcd, 0x02); (0x09, 0xcd, 0x02); (0x17, 0xcd, 0x02); (0x28, 0xcd, 0x03);
   (0x02, 0xd2, 0x02); (0x09, 0xd2, 0x02); (0x17, 0xd2, 0x02); (0x28, 0xd2, 0x03);
   (0x02, 0xd5, 0x02); (0x09, 0xd5, 0x02); (0x17, 0xd5, 0x02); (0x28, 0xd5, 0x03)];
  [(0x03, 0xca, 0x02); (0x06, 0xca, 0x02); (0x0a, 0xca, 0x02); (0x0f, 0xca, 0x02);
   (0x18, 0xca, 0x02); (0x1f, 0xca, 0x02); (0x29, 0xca, 0x02); (0x38, 0xca, 0x03);
   (0x03, 0xcd, 0x02); (0x06, 0xcd, 0x02); (0x0a, 0xcd, 0x02); (0x0f, 0xcd, 0x02);
   (0x18, 0xcd, 0x02); (0x1f, 0xcd, 0x02); (0x29, 0xcd, 0x02); (0x38, 0xcd, 0x03)];
  [(0x03, 0xd2, 0x02); (0x06, 0xd2, 0x02); (0x0a, 0xd2, 0x02); (0x0f, 0xd2, 0x02);
   (0x18, 0xd2, 0x02); (0x1f, 0xd2, 0x02); (0x29, 0xd2, 0x02); (0x38, 0xd2, 0x03);
   (0x03, 0xd5, 0x02); (0x06, 0xd5, 0x02); (0x0a, 0xd5, 0x02); (0x0f, 0xd5, 0x02);
   (0x18, 0xd5, 0x02); (0x1f, 0xd5, 0x02); (0x29, 0xd5, 0x02); (0x38, 0xd5, 0x03)];
  [(0x01, 0xda, 0x02); (0x16, 0xda, 0x03); (0x01, 0xdb, 0x02); (0x16, 0xdb, 0x03);
   (0x01, 0xee, 0x02); (0x16, 0xee, 0x03); (0x01, 0xf0, 0x02); (0x16, 0xf0, 0x03);
   (0x01, 0xf2, 0x02); (0x16, 0xf2, 0x03); (0x01, 0xf3, 0x02); (0x16, 0xf3, 0x03);
   (0x01, 0xff, 0x02); (0x16, 0xff, 0x03); (0x00, 0xcb, 0x02); (0x00, 0xcc, 0x02)];
  [(0x02, 0xda, 0x02); (0x09, 0xda, 0x02); (0x17, 0xda, 0x02); (0x28, 0xda, 0x03);
   (0x02, 0xdb, 0x02); (0x09, 0xdb, 0x02); (0x17, 0xdb, 0x02); (0x28, 0xdb, 0x03);
   (0x02, 0xee, 0x02); (0x09, 0xee, 0x02); (0x17, 0xee, 0x02); (0x28, 0xee, 0x03);
   (0x02, 0xf0, 0x02); (0x09, 0xf0, 0x02); (0x17, 0xf0, 0x02); (0x28, 0xf0, 0x03)];
  [(0x03, 0xda, 0x02); (0x06, 0xda, 0x02); (0x0a, 0xda, 0x02); (0x0f, 0xda, 0x02);
   (0x18, 0xda, 0x02); (0x1f, 0xda, 0x02); (0x29, 0xda, 0x02); (0x38, 0xda, 0x03);
   (0x03, 0xdb, 0x02); (0x06, 0xdb, 0x02); (0x0a, 0xdb, 0x02); (0x0f, 0xdb, 0x02);
   (0x18, 0xdb, 0x02); (0x1f, 0xdb, 0x02); (0x29, 0xdb, 0x02); (0x38, 0xdb, 0x03)];
  [(0x03, 0xee, 0x02); (0x06, 0xee, 0x02); (0x0a, 0xee, 0x02); (0x0f, 0xee, 0x02);
   (0x18, 0xee, 0x02); (0x1f, 0xee, 0x02); (0x29, 0xee, 0x02); (0x38, 0xee, 0x03);
   (0x03, 0xf0, 0x02); (0x06, 0xf0, 0x02); (0x0a, 0xf0, 0x02); (0x0f, 0xf0, 0x02);
   (0x18, 0xf0, 0x02); (0x1f, 0xf0, 0x02); (0x29, 0xf0, 0x02); (0x38, 0xf0, 0x03)];
  [(0x02, 0xf2, 0x02); (0x09, 0xf2, 0x02); (0x17, 0xf2, 0x02); (0x28, 0xf2, 0x03);
   (0x02, 0xf3, 0x02); (0x09, 0xf3, 0x02); (0x17, 0xf3, 0x02); (0x28, 0xf3, 0x03);
   (0x02, 0xff, 0x02); (0x09, 0xff, 0x02); (0x17, 0xff, 0x02); (0x28, 0xff, 0x03);
   (0x01, 0xcb, 0x02); (0x16, 0xcb, 0x03); (0x01, 0xcc, 0x02); (0x16, 0xcc, 0x03)];
  [(0x03, 0xf2, 0x02); (0x06, 0xf2, 0x02); (0x0a, 0xf2, 0x02); (0x0f, 0xf2, 0x02);
   (0x18, 0xf2, 0x02); (0x1f, 0xf2, 0x02); (0x29, 0xf2, 0x02); (0x38, 0xf2, 0x03);
   (0x03, 0xf3, 0x02); (0x06, 0xf3, 0x02); (0x0a, 0xf3, 0x02); (0x0f, 0xf3, 0x02);
   (0x18, 0xf3, 0x02); (0x1f, 0xf3, 0x02); (0x29, 0xf3, 0x02); (0x38, 0xf3, 0x03)];
  [(0x03, 0xff, 0x02); (0x06, 0xff, 0x02); (0x0a, 0xff, 0x02); (0x0f, 0xff, 0x02);
   (0x18, 0xff, 0x02); (0x1f, 0xff, 0x02); (0x29, 0xff, 0x02); (0x38, 0xff, 0x03);
   (0x02, 0xcb, 0x02); (0x09, 0xcb, 0x02); (0x17, 0xcb, 0x02); (0x28, 0xcb, 0x03);
   (0x02, 0xcc, 0x02); (0x09, 0xcc, 0x02); (0x17, 0xcc, 0x02); (0x28, 0xcc, 0x03)];
  [(0x03, 0xcb, 0x02); (0x06, 0xcb, 0x02); (0x0a, 0xcb, 0x02); (0x0f, 0xcb, 0x02);
   (0x18, 0xcb, 0x02); (0x1f, 0xcb, 0x02); (0x29, 0xcb, 0x02); (0x38, 0xcb, 0x03);
   (0x03, 0xcc, 0x02); (0x06, 0xcc, 0x02); (0x0a, 0xcc, 0x02); (0x0f, 0xcc, 0x02);
   (0x18, 0xcc, 0x02); (0x1f, 0xcc, 0x02); (0x29, 0xcc, 0x02); (0x38, 0xcc, 0x03)];
  [(0xd3, 0x00, 0x00); (0xd4, 0x00, 0x00); (0xd6, 0x00, 0x00); (0xd7, 0x00, 0x00);
   (0xda, 0x00, 0x00); (0xdb, 0x00, 0x00); (0xdd, 0x00, 0x00); (0xde, 0x00, 0x00);
   (0xe2, 0x00, 0x00); (0xe4, 0x00, 0x00); (0xe8, 0x00, 0x00); (0xeb, 0x00, 0x00);
   (0xf0, 0x00, 0x00); (0xf3, 0x00, 0x00); (0xf7, 0x00, 0x00); (0xfa, 0x00, 0x00)]].

(** Rows 0xd0 to 0xdf: [(next state, byte, flags)]. *)
Definition HUFFMAN_DECODE_d : list (list (Z * Z * Z)) := [
  [(0x00, 0xd3, 0x02); (0x00, 0xd4, 0x02); (0x00, 0xd6, 0x02); (0x00, 0xdd, 0x02);
   (0x00, 0xde, 0x02); (0x00, 0xdf, 0x02); (0x00, 0xf1, 0x02); (0x00, 0xf4, 0x02);
   (0x00, 0xf5, 0x02); (0x00, 0xf6, 0x02); (0x00, 0xf7, 0x02); (0x00, 0xf8, 0x02);
   (0x00, 0xfa, 0x02); (0x00, 0xfb, 0x02); (0x00, 0xfc, 0x02); (0x00, 0xfd, 0x02)];
  [(0x01, 0xd3, 0x02); (0x16, 0xd3, 0x03); (0x01, 0xd4, 0x02); (0x16, 0xd4, 0x03);
   (0x01, 0xd6, 0x02); (0x16, 0xd6, 0x03); (0x01, 0xdd, 0x02); (0x16, 0xdd, 0x03);
   (0x01, 0xde, 0x02); (0x16, 0xde, 0x03); (0x01, 0xdf, 0x02); (0x16, 0xdf, 0x03);
   (0x01, 0xf1, 0x02); (0x16, 0xf1, 0x03); (0x01, 0xf4, 0x02); (0x16, 0xf4, 0x03)];
  [(0x02, 0xd3, 0x02); (0x09, 0xd3, 0x02); (0x17, 0xd3, 0x02); (0x28, 0xd3, 0x03);
   (0x02, 0xd4, 0x02); (0x09, 0xd4, 0x02); (0x17, 0xd4, 0x02); (0x28, 0xd4, 0x03);
   (0x02, 0xd6, 0x02); (0x09, 0xd6, 0x02); (0x17, 0xd6, 0x02); (0x28, 0xd6, 0x03);
   (0x02, 0xdd, 0x02); (0x09, 0xdd, 0x02); (0x17, 0xdd, 0x02); (0x28, 0xdd, 0x03)];
  [(0x03, 0xd3, 0x02); (0x06, 0xd3, 0x02); (0x0a, 0xd3, 0x02); (0x0f, 0xd3, 0x02);
   (0x18, 0xd3, 0x02); (0x1f, 0xd3, 0x02); (0x29, 0xd3, 0x02); (0x38, 0xd3, 0x03);
   (0x03, 0xd4, 0x02); (0x06, 0xd4, 0x02); (0x0a, 0xd4, 0x02); (0x0f, 0xd4, 0x02);
   (0x18, 0xd4, 0x02); (0x1f, 0xd4, 0x02); (0x29, 0xd4, 0x02); (0x38, 0xd4, 0x03)];
  [(0x03, 0xd6, 0x02); (0x06, 0xd6, 0x02); (0x0a, 0xd6, 0x02); (0x0f, 0xd6, 0x02);
   (0x18, 0xd6, 0x02); (0x1f, 0xd6, 0x02); (0x29, 0xd6, 0x02); (0x38, 0xd6, 0x03);
   (0x03, 0xdd, 0x02); (0x06, 0xdd, 0x02); (0x0a, 0xdd, 0x02); (0x0f, 0xdd, 0x02);
   (0x18, 0xdd, 0x02); (0x1f, 0xdd, 0x02); (0x29, 0xdd, 0x02); (0x38, 0xdd, 0x03)];
  [(0x02, 0xde, 0x02); (0x09, 0xde, 0x02); (0x17, 0xde, 0x02); (0x28, 0xde, 0x03);
   (0x02, 0xdf, 0x02); (0x09, 0xdf, 0x02); (0x17, 0xdf, 0x02); (0x28, 0xdf, 0x03);
   (0x02, 0xf1, 0x02); (0x09, 0xf1, 0x02); (0x17, 0xf1, 0x02); (0x28, 0xf1, 0x03);
   (0x02, 0xf4, 0x02); (0x09, 0xf4, 0x02); (0x17, 0xf4, 0x02); (0x28, 0xf4, 0x03)];
  [(0x03, 0xde, 0x02); (0x06, 0xde, 0x02); (0x0a, 0xde, 0x02); (0x0f, 0xde, 0x02);
   (0x18, 0xde, 0x02); (0x1f, 0xde, 0x02); (0x29, 0xde, 0x02); (0x38, 0xde, 0x03);
   (0x03, 0xdf, 0x02); (0x06, 0xdf, 0x02); (0x0a, 0xdf, 0x02); (0x0f, 0xdf, 0x02);
   (0x18, 0xdf, 0x02); (0x1f, 0xdf, 0x02); (0x29, 0xdf, 0x02); (0x38, 0xdf, 0x03)];
  [(0x03, 0xf1, 0x02); (0x06, 0xf1, 0x02); (0x0a, 0xf1, 0x02); (0x0f, 0xf1, 0x02);
   (0x18, 0xf1, 0x02); (0x1f, 0xf1, 0x02); (0x29, 0xf1, 0x02); (0x38, 0xf1, 0x03);
   (0x03, 0xf4, 0x02); (0x06, 0xf4, 0x02); (0x0a, 0xf4, 0x02); (0x0f, 0xf4, 0x02);
   (0x18, 0xf4, 0x02); (0x1f, 0xf4, 0x02); (0x29, 0xf4, 0x02); (0x38, 0xf4, 0x03)];
  [(0x01, 0xf5, 0x02); (0x16, 0xf5, 0x03); (0x01, 0xf6, 0x02); (0x16, 0xf6, 0x03);
   (0x01, 0xf7, 0x02); (0x16, 0xf7, 0x03); (0x01, 0xf8, 0x02); (0x16, 0xf8, 0x03);
   (0x01, 0xfa, 0x02); (0x16, 0xfa, 0x03); (0x01, 0xfb, 0x02); (0x16, 0xfb, 0x03);
   (0x01, 0xfc, 0x02); (0x16, 0xfc, 0x03); (0x01, 0xfd, 0x02); (0x16, 0xfd, 0x03)];
  [(0x02, 0xf5, 0x02); (0x09, 0xf5, 0x02); (0x17, 0xf5, 0x02); (0x28, 0xf5, 0x03);
   (0x02, 0xf6, 0x02); (0x09, 0xf6, 0x02); (0x17, 0xf6, 0x02); (0x28, 0xf6, 0x03);
   (0x02, 0xf7, 0x02); (0x09, 0xf7, 0x02); (0x17, 0xf7, 0x02); (0x28, 0xf7, 0x03);
   (0x02, 0xf8, 0x02); (0x09, 0xf8, 0x02); (0x17, 0xf8, 0x02); (0x28, 0xf8, 0x03)];
  [(0x03, 0xf5, 0x02); (0x06, 0xf5, 0x02); (0x0a, 0xf5, 0x02); (0x0f, 0xf5, 0x02);
   (0x18, 0xf5, 0x02); (0x1f, 0xf5, 0x02); (0x29, 0xf5, 0x02); (0x38, 0xf5, 0x03);
   (0x03, 0xf6, 0x02); (0x06, 0xf6, 0x02); (0x0a, 0xf6, 0x02); (0x0f, 0xf6, 0x02);
   (0x18, 0xf6, 0x02); (0x1f, 0xf6, 0x02); (0x29, 0xf6, 0x02); (0x38, 0xf6, 0x03)];
  [(0x03, 0xf7, 0x02); (0x06, 0xf7, 0x02); (0x0a, 0xf7, 0x02); (0x0f, 0xf7, 0x02);
   (0x18, 0xf7, 0x02); (0x1f, 0xf7, 0x02); (0x29, 0xf7, 0x02); (0x38, 0xf7, 0x03);
   (0x03, 0xf8, 0x02); (0x06, 0xf8, 0x02); (0x0a, 0xf8, 0x02); (0x0f, 0xf8, 0x02);
   (0x18, 0xf8, 0x02); (0x1f, 0xf8, 0x02); (0x29, 0xf8, 0x02); (0x38, 0xf8, 0x03)];
  [(0x02, 0xfa, 0x02); (0x09, 0xfa, 0x02); (0x17, 0xfa, 0x02); (0x28, 0xfa, 0x03);
   (0x02, 0xfb, 0x02); (0x09, 0xfb, 0x02); (0x17, 0xfb, 0x02); (0x28, 0xfb, 0x03);
   (0x02, 0xfc, 0x02); (0x09, 0xfc, 0x02); (0x17, 0xfc, 0x02); (0x28, 0xfc, 0x03);
   (0x02, 0xfd, 0x02); (0x09, 0xfd, 0x02); (0x17, 0xfd, 0x02); (0x28, 0xfd, 0x03)];
  [(0x03, 0xfa, 0x02); (0x06, 0xfa, 0x02); (0x0a, 0xfa, 0x02); (0x0f, 0xfa, 0x02);
   (0x18, 0xfa, 0x02); (0x1f, 0xfa, 0x02); (0x29, 0xfa, 0x02); (0x38, 0xfa, 0x03);
   (0x03, 0xfb, 0x02); (0x06, 0xfb, 0x02); (0x0a, 0xfb, 0x02); (0x0f, 0xfb, 0x02);
   (0x18, 0xfb, 0x02); (0x1f, 0xfb, 0x02); (0x29, 0xfb, 0x02); (0x38, 0xfb, 0x03)];
  [(0x03, 0xfc, 0x02); (0x06, 0xfc, 0x02); (0x0a, 0xfc, 0x02); (0x0f, 0xfc, 0x02);
   (0x18, 0xfc, 0x02); (0x1f, 0xfc, 0x02); (0x29, 0xfc, 0x02); (0x38, 0xfc, 0x03);
   (0x03, 0xfd, 0x02); (0x06, 0xfd, 0x02); (0x0a, 0xfd, 0x02); (0x0f, 0xfd, 0x02);
   (0x18, 0xfd, 0x02); (0x1f, 0xfd, 0x02); (0x29, 0xfd, 0x02); (0x38, 0xfd, 0x03)];
  [(0x00, 0xfe, 0x02); (0xe3, 0x00, 0x00); (0xe5, 0x00, 0x00); (0xe6, 0x00, 0x00);
   (0xe9, 0x00, 0x00); (0xea, 0x00, 0x00); (0xec, 0x00, 0x00); (0xed, 0x00, 0x00);
   (0xf1, 0x00, 0x00); (0xf2, 0x00, 0x00); (0xf4, 0x00, 0x00); (0xf5, 0x00, 0x00);
   (0xf8, 0x00, 0x00); (0xf9, 0x00, 0x00); (0xfb, 0x00, 0x00); (0xfc, 0x00, 0x00)]].

(** Rows 0xe0 to 0xef: [(next state, byte, flags)]. *)
Definition HUFFMAN_DECODE_e : list (list (Z * Z * Z)) := [
  [(0x01, 0xfe, 0x02); (0x16, 0xfe, 0x03); (0x00, 0x02, 0x02); (0x00, 0x03, 0x02);
   (0x00, 0x04, 0x02); (0x00, 0x05, 0x02); (0x00, 0x06, 0x02); (0x00, 0x07, 0x02);
   (0x00, 0x08, 0x02); (0x00, 0x0b, 0x02); (0x00, 0x0c, 0x02); (0x00, 0x0e, 0x02);
   (0x00, 0x0f, 0x02); (0x00, 0x10, 0x02); (0x00, 0x11, 0x02); (0x00, 0x12, 0x02)];
  [(0x02, 0xfe, 0x02); (0x09, 0xfe, 0x02); (0x17, 0xfe, 0x02); (0x28, 0xfe, 0x03);
   (0x01, 0x02, 0x02); (0x16, 0x02, 0x03); (0x01, 0x03, 0x02); (0x16, 0x03, 0x03);
   (0x01, 0x04, 0x02); (0x16, 0x04, 0x03); (0x01, 0x05, 0x02); (0x16, 0x05, 0x03);
   (0x01, 0x06, 0x02); (0x16, 0x06, 0x03); (0x01, 0x07, 0x02); (0x16, 0x07, 0x03)];
  [(0x03, 0xfe, 0x02); (0x06, 0xfe, 0x02); (0x0a, 0xfe, 0x02); (0x0f, 0xfe, 0x02);
   (0x18, 0xfe, 0x02); (0x1f, 0xfe, 0x02); (0x29, 0xfe, 0x02); (0x38, 0xfe, 0x03);
   (0x02, 0x02, 0x02); (0x09, 0x02, 0x02); (0x17, 0x02, 0x02); (0x28, 0x02, 0x03);
   (0x02, 0x03, 0x02); (0x09, 0x03, 0x02); (0x17, 0x03, 0x02); (0x28, 0x03, 0x03)];
  [(0x03, 0x02, 0x02); (0x06, 0x02, 0x02); (0x0a, 0x02, 0x02); (0x0f, 0x02, 0x02);
   (0x18, 0x02, 0x02); (0x1f, 0x02, 0x02); (0x29, 0x02, 0x02); (0x38, 0x02, 0x03);
   (0x03, 0x03, 0x02); (0x06, 0x03, 0x02); (0x0a, 0x03, 0x02); (0x0f, 0x03, 0x02);
   (0x18, 0x03, 0x02); (0x1f, 0x03, 0x02); (0x29, 0x03, 0x02); (0x38, 0x03, 0x03)];
  [(0x02, 0x04, 0x02); (0x09, 0x04, 0x02); (0x17, 0x04, 0x02); (0x28, 0x04, 0x03);
   (0x02, 0x05, 0x02); (0x09, 0x05, 0x02); (0x17, 0x05, 0x02); (0x28, 0x05, 0x03);
   (0x02, 0x06, 0x02); (0x09, 0x06, 0x02); (0x17, 0x06, 0x02); (0x28, 0x06, 0x03);
   (0x02, 0x07, 0x02); (0x09, 0x07, 0x02); (0x17, 0x07, 0x02); (0x28, 0x07, 0x03)];
  [(0x03, 0x04, 0x02); (0x06, 0x04, 0x02); (0x0a, 0x04, 0x02); (0x0f, 0x04, 0x02);
   (0x18, 0x04, 0x02); (0x1f, 0x04, 0x02); (0x29, 0x04, 0x02); (0x38, 0x04, 0x03);
   (0x03, 0x05, 0x02); (0x06, 0x05, 0x02); (0x0a, 0x05, 0x02); (0x0f, 0x05, 0x02);
   (0x18, 0x05, 0x02); (0x1f, 0x05, 0x02); (0x29, 0x05, 0x02); (0x38, 0x05, 0x03)];
  [(0x03, 0x06, 0x02); (0x06, 0x06, 0x02); (0x0a, 0x06, 0x02); (0x0f, 0x06, 0x02);
   (0x18, 0x06, 0x02); (0x1f, 0x06, 0x02); (0x29, 0x06, 0x02); (0x38, 0x06, 0x03);
   (0x03, 0x07, 0x02); (0x06, 0x07, 0x02); (0x0a, 0x07, 0x02); (0x0f, 0x07, 0x02);
   (0x18, 0x07, 0x02); (0x1f, 0x07, 0x02); (0x29, 0x07, 0x02); (0x38, 0x07, 0x03)];
  [(0x01, 0x08, 0x02); (0x16, 0x08, 0x03); (0x01, 0x0b, 0x02); (0x16, 0x0b, 0x03);
   (0x01, 0x0c, 0x02); (0x16, 0x0c, 0x03); (0x01, 0x0e, 0x02); (0x16, 0x0e, 0x03);
   (0x01, 0x0f, 0x02); (0x16, 0x0f, 0x03); (0x01, 0x10, 0x02); (0x16, 0x10, 0x03);
   (0x01, 0x11, 0x02); (0x16, 0x11, 0x03); (0x01, 0x12, 0x02); (0x16, 0x12, 0x03)];
  [(0x02, 0x08, 0x02); (0x09, 0x08, 0x02); (0x17, 0x08, 0x02); (0x28, 0x08, 0x03);
   (0x02, 0x0b, 0x02); (0x09, 0x0b, 0x02); (0x17, 0x0b, 0x02); (0x28, 0x0b, 0x03);
   (0x02, 0x0c, 0x02); (0x09, 0x0c, 0x02); (0x17, 0x0c, 0x02); (0x28, 0x0c, 0x03);
   (0x02, 0x0e, 0x02); (0x09, 0x0e, 0x02); (0x17, 0x0e, 0x02); (0x28, 0x0e, 0x03)];
  [(0x03, 0x08, 0x02); (0x06, 0x08, 0x02); (0x0a, 0x08, 0x02); (0x0f, 0x08, 0x02);
   (0x18, 0x08, 0x02); (0x1f, 0x08, 0x02); (0x29, 0x08, 0x02); (0x38, 0x08, 0x03);
   (0x03, 0x0b, 0x02); (0x06, 0x0b, 0x02); (0x0a, 0x0b, 0x02); (0x0f, 0x0b, 0x02);
   (0x18, 0x0b, 0x02); (0x1f, 0x0b, 0x02); (0x29, 0x0b, 0x02); (0x38, 0x0b, 0x03)];
  [(0x03, 0x0c, 0x02); (0x06, 0x0c, 0x02); (0x0a, 0x0c, 0x02); (0x0f, 0x0c, 0x02);
   (0x18, 0x0c, 0x02); (0x1f, 0x0c, 0x02); (0x29, 0x0c, 0x02); (0x38, 0x0c, 0x03);
   (0x03, 0x0e, 0x02); (0x06, 0x0e, 0x02); (0x0a, 0x0e, 0x02); (0x0f, 0x0e, 0x02);
   (0x18, 0x0e, 0x02); (0x1f, 0x0e, 0x02); (0x29, 0x0e, 0x02); (0x38, 0x0e, 0x03)];
  [(0x02, 0x0f, 0x02); (0x09, 0x0f, 0x02); (0x17, 0x0f, 0x02); (0x28, 0x0f, 0x03);
   (0x02, 0x10, 0x02); (0x09, 0x10, 0x02); (0x17, 0x10, 0x02); (0x28, 0x10, 0x03);
   (0x02, 0x11, 0x02); (0x09, 0x11, 0x02); (0x17, 0x11, 0x02); (0x28, 0x11, 0x03);
   (0x02, 0x12, 0x02); (0x09, 0x12, 0x02); (0x17, 0x12, 0x02); (0x28, 0x12, 0x03)];
  [(0x03, 0x0f, 0x02); (0x06, 0x0f, 0x02); (0x0a, 0x0f, 0x02); (0x0f, 0x0f, 0x02);
   (0x18, 0x0f, 0x02); (0x1f, 0x0f, 0x02); (0x29, 0x0f, 0x02); (0x38, 0x0f, 0x03);
   (0x03, 0x10, 0x02); (0x06, 0x10, 0x02); (0x0a, 0x10, 0x02); (0x0f, 0x10, 0x02);
   (0x18, 0x10, 0x02); (0x1f, 0x10, 0x02); (0x29, 0x10, 0x02); (0x38, 0x10, 0x03)];
  [(0x03, 0x11, 0x02); (0x06, 0x11, 0x02); (0x0a, 0x11, 0x02); (0x0f, 0x11, 0x02);
   (0x18, 0x11, 0x02); (0x1f, 0x11, 0x02); (0x29, 0x11, 0x02); (0x38, 0x11, 0x03);
   (0x03, 0x12, 0x02); (0x06, 0x12, 0x02); (0x0a, 0x12, 0x02); (0x0f, 0x12, 0x02);
   (0x18, 0x12, 0x02); (0x1f, 0x12, 0x02); (0x29, 0x12, 0x02); (0x38, 0x12, 0x03)];
  [(0x00, 0x13, 0x02); (0x00, 0x14, 0x02); (0x00, 0x15, 0x02); (0x00, 0x17, 0x02);
   (0x00, 0x18, 0x02); (0x00, 0x19, 0x02); (0x00, 0x1a, 0x02); (0x00, 0x1b, 0x02);
   (0x00, 0x1c, 0x02); (0x00, 0x1d, 0x02); (0x00, 0x1e, 0x02); (0x00, 0x1f, 0x02);
   (0x00, 0x7f, 0x02); (0x00, 0xdc, 0x02); (0x00, 0xf9, 0x02); (0xfd, 0x00, 0x00)];
  [(0x01, 0x13, 0x02); (0x16, 0x13, 0x03); (0x01, 0x14, 0x02); (0x16, 0x14, 0x03);
   (0x01, 0x15, 0x02); (0x16, 0x15, 0x03); (0x01, 0x17, 0x02); (0x16, 0x17, 0x03);
   (0x01, 0x18, 0x02); (0x16, 0x18, 0x03); (0x01, 0x19, 0x02); (0x16, 0x19, 0x03);
   (0x01, 0x1a, 0x02); (0x16, 0x1a, 0x03); (0x01, 0x1b, 0x02); (0x16, 0x1b, 0x03)]].

(** Rows 0xf0 to 0xff: [(next state, byte, flags)]. *)
Definition HUFFMAN_DECODE_f : list (list (Z * Z * Z)) := [
  [(0x02, 0x13, 0x02); (0x09, 0x13, 0x02); (0x17, 0x13, 0x02); (0x28, 0x13, 0x03);
   (0x02, 0x14, 0x02); (0x09, 0x14, 0x02); (0x17, 0x14, 0x02); (0x28, 0x14, 0x03);
   (0x02, 0x15, 0x02); (0x09, 0x15, 0x02); (0x17, 0x15, 0x02); (0x28, 0x15, 0x03);
   (0x02, 0x17, 0x02); (0x09, 0x17, 0x02); (0x17, 0x17, 0x02); (0x28, 0x17, 0x03)];
  [(0x03, 0x13, 0x02); (0x06, 0x13, 0x02); (0x0a, 0x13, 0x02); (0x0f, 0x13, 0x02);
   (0x18, 0x13, 0x02); (0x1f, 0x13, 0x02); (0x29, 0x13, 0x02); (0x38, 0x13, 0x03);
   (0x03, 0x14, 0x02); (0x06, 0x14, 0x02); (0x0a, 0x14, 0x02); (0x0f, 0x14, 0x02);
   (0x18, 0x14, 0x02); (0x1f, 0x14, 0x02); (0x29, 0x14, 0x02); (0x38, 0x14, 0x03)];
  [(0x03, 0x15, 0x02); (0x06, 0x15, 0x02); (0x0a, 0x15, 0x02); (0x0f, 0x15, 0x02);
   (0x18, 0x15, 0x02); (0x1f, 0x15, 0x02); (0x29, 0x15, 0x02); (0x38, 0x15, 0x03);
   (0x03, 0x17, 0x02); (0x06, 0x17, 0x02); (0x0a, 0x17, 0x02); (0x0f, 0x17, 0x02);
   (0x18, 0x17, 0x02); (0x1f, 0x17, 0x02); (0x29, 0x17, 0x02); (0x38, 0x17, 0x03)];
  [(0x02, 0x18, 0x02); (0x09, 0x18, 0x02); (0x17, 0x18, 0x02); (0x28, 0x18, 0x03);
   (0x02, 0x19, 0x02); (0x09, 0x19, 0x02); (0x17, 0x19, 0x02); (0x28, 0x19, 0x03);
   (0x02, 0x1a, 0x02); (0x09, 0x1a, 0x02); (0x17, 0x1a, 0x02); (0x28, 0x1a, 0x03);
   (0x02, 0x1b, 0x02); (0x09, 0x1b, 0x02); (0x17, 0x1b, 0x02); (0x28, 0x1b, 0x03)];
  [(0x03, 0x18, 0x02); (0x06, 0x18, 0x02); (0x0a, 0x18, 0x02); (0x0f, 0x18, 0x02);
   (0x18, 0x18, 0x02); (0x1f, 0x18, 0x02); (0x29, 0x18, 0x02); (0x38, 0x18, 0x03);
   (0x03, 0x19, 0x02); (0x06, 0x19, 0x02); (0x0a, 0x19, 0x02); (0x0f, 0x19, 0x02);
   (0x18, 0x19, 0x02); (0x1f, 0x19, 0x02); (0x29, 0x19, 0x02); (0x38, 0x19, 0x03)];
  [(0x03, 0x1a, 0x02); (0x06, 0x1a, 0x02); (0x0a, 0x1a, 0x02); (0x0f, 0x1a, 0x02);
   (0x18, 0x1a, 0x02); (0x1f, 0x1a, 0x02); (0x29, 0x1a, 0x02); (0x38, 0x1a, 0x03);
   (0x03, 0x1b, 0x02); (0x06, 0x1b, 0x02); (0x0a, 0x1b, 0x02); (0x0f, 0x1b, 0x02);
   (0x18, 0x1b, 0x02); (0x1f, 0x1b, 0x02); (0x29, 0x1b, 0x02); (0x38, 0x1b, 0x03)];
  [(0x01, 0x1c, 0x02); (0x16, 0x1c, 0x03); (0x01, 0x1d, 0x02); (0x16, 0x1d, 0x03);
   (0x01, 0x1e, 0x02); (0x16, 0x1e, 0x03); (0x01, 0x1f, 0x02); (0x16, 0x1f, 0x03);
   (0x01, 0x7f, 0x02); (0x16, 0x7f, 0x03); (0x01, 0xdc, 0x02); (0x16, 0xdc, 0x03);
   (0x01, 0xf9, 0x02); (0x16, 0xf9, 0x03); (0xfe, 0x00, 0x00); (0xff, 0x00, 0x00)];
  [(0x02, 0x1c, 0x02); (0x09, 0x1c, 0x02); (0x17, 0x1c, 0x02); (0x28, 0x1c, 0x03);
   (0x02, 0x1d, 0x02); (0x09, 0x1d, 0x02); (0x17, 0x1d, 0x02); (0x28, 0x1d, 0x03);
   (0x02, 0x1e, 0x02); (0x09, 0x1e, 0x02); (0x17, 0x1e, 0x02); (0x28, 0x1e, 0x03);
   (0x02, 0x1f, 0x02); (0x09, 0x1f, 0x02); (0x17, 0x1f, 0x02); (0x28, 0x1f, 0x03)];
  [(0x03, 0x1c, 0x02); (0x06, 0x1c, 0x02); (0x0a, 0x1c, 0x02); (0x0f, 0x1c, 0x02);
   (0x18, 0x1c, 0x02); (0x1f, 0x1c, 0x02); (0x29, 0x1c, 0x02); (0x38, 0x1c, 0x03);
   (0x03, 0x1d, 0x02); (0x06, 0x1d, 0x02); (0x0a, 0x1d, 0x02); (0x0f, 0x1d, 0x02);
   (0x18, 0x1d, 0x02); (0x1f, 0x1d, 0x02); (0x29, 0x1d, 0x02); (0x38, 0x1d, 0x03)];
  [(0x03, 0x1e, 0x02); (0x06, 0x1e, 0x02); (0x0a, 0x1e, 0x02); (0x0f, 0x1e, 0x02);
   (0x18, 0x1e, 0x02); (0x1f, 0x1e, 0x02); (0x29, 0x1e, 0x02); (0x38, 0x1e, 0x03);
   (0x03, 0x1f, 0x02); (0x06, 0x1f, 0x02); (0x0a, 0x1f, 0x02); (0x0f, 0x1f, 0x02);
   (0x18, 0x1f, 0x02); (0x1f, 0x1f, 0x02); (0x29, 0x1f, 0x02); (0x38, 0x1f, 0x03)];
  [(0x02, 0x7f, 0x02); (0x09, 0x7f, 0x02); (0x17, 0x7f, 0x02); (0x28, 0x7f, 0x03);
   (0x02, 0xdc, 0x02); (0x09, 0xdc, 0x02); (0x17, 0xdc, 0x02); (0x28, 0xdc, 0x03);
   (0x02, 0xf9, 0x02); (0x09, 0xf9, 0x02); (0x17, 0xf9, 0x02); (0x28, 0xf9, 0x03);
   (0x00, 0x0a, 0x02); (0x00, 0x0d, 0x02); (0x00, 0x16, 0x02); (0x00, 0x00, 0x04)];
  [(0x03, 0x7f, 0x02); (0x06, 0x7f, 0x02); (0x0a, 0x7f, 0x02); (0x0f, 0x7f, 0x02);
   (0x18, 0x7f, 0x02); (0x1f, 0x7f, 0x02); (0x29, 0x7f, 0x02); (0x38, 0x7f, 0x03);
   (0x03, 0xdc, 0x02); (0x06, 0xdc, 0x02); (0x0a, 0xdc, 0x02); (0x0f, 0xdc, 0x02);
   (0x18, 0xdc, 0x02); (0x1f, 0xdc, 0x02); (0x29, 0xdc, 0x02); (0x38, 0xdc, 0x03)];
  [(0x03, 0xf9, 0x02); (0x06, 0xf9, 0x02); (0x0a, 0xf9, 0x02); (0x0f, 0xf9, 0x02);
   (0x18, 0xf9, 0x02); (0x1f, 0xf9, 0x02); (0x29, 0xf9, 0x02); (0x38, 0xf9, 0x03);
   (0x01, 0x0a, 0x02); (0x16, 0x0a, 0x03); (0x01, 0x0d, 0x02); (0x16, 0x0d, 0x03);
   (0x01, 0x16, 0x02); (0x16, 0x16, 0x03); (0x00, 0x00, 0x04); (0x00, 0x00, 0x05)];
  [(0x02, 0x0a, 0x02); (0x09, 0x0a, 0x02); (0x17, 0x0a, 0x02); (0x28, 0x0a, 0x03);
   (0x02, 0x0d, 0x02); (0x09, 0x0d, 0x02); (0x17, 0x0d, 0x02); (0x28, 0x0d, 0x03);
   (0x02, 0x16, 0x02); (0x09, 0x16, 0x02); (0x17, 0x16, 0x02); (0x28, 0x16, 0x03);
   (0x00, 0x00, 0x04); (0x00, 0x00, 0x04); (0x00, 0x00, 0x04); (0x00, 0x00, 0x05)];
  [(0x03, 0x0a, 0x02); (0x06, 0x0a, 0x02); (0x0a, 0x0a, 0x02); (0x0f, 0x0a, 0x02);
   (0x18, 0x0a, 0x02); (0x1f, 0x0a, 0x02); (0x29, 0x0a, 0x02); (0x38, 0x0a, 0x03);
   (0x03, 0x0d, 0x02); (0x06, 0x0d, 0x02); (0x0a, 0x0d, 0x02); (0x0f, 0x0d, 0x02);
   (0x18, 0x0d, 0x02); (0x1f, 0x0d, 0x02); (0x29, 0x0d, 0x02); (0x38, 0x0d, 0x03)];
  [(0x03, 0x16, 0x02); (0x06, 0x16, 0x02); (0x0a, 0x16, 0x02); (0x0f, 0x16, 0x02);
   (0x18, 0x16, 0x02); (0x1f, 0x16, 0x02); (0x29, 0x16, 0x02); (0x38, 0x16, 0x03);
   (0x00, 0x00, 0x04); (0x00, 0x00, 0x04); (0x00, 0x00, 0x04); (0x00, 0x00, 0x04);
   (0x00, 0x00, 0x04); (0x00, 0x00, 0x04); (0x00, 0x00, 0x04); (0x00, 0x00, 0x05)]].

(** The whole decode table. *)
Definition HUFFMAN_DECODE : list (list (Z * Z * Z)) :=
  HUFFMAN_DECODE_0 ++ HUFFMAN_DECODE_1 ++ HUFFMAN_DECODE_2 ++ HUFFMAN_DECODE_3 ++ 
  HUFFMAN_DECODE_4 ++ HUFFMAN_DECODE_5 ++ HUFFMAN_DECODE_6 ++ HUFFMAN_DECODE_7 ++ 
  HUFFMAN_DECODE_8 ++ HUFFMAN_DECODE_9 ++ HUFFMAN_DECODE_a ++ HUFFMAN_DECODE_b ++ 
  HUFFMAN_DECODE_c ++ HUFFMAN_DECODE_d ++ HUFFMAN_DECODE_e ++ HUFFMAN_DECODE_f.
