(* ===== verification/Huffman.v ===== *)
(** * Huffman coding of string literals

    Models [src/ylong_http/src/huffman/mod.rs]: [huffman_encode], the one-shot
    [huffman_decode] and the resumable [HuffmanDecoder].  The theorems relate
    both directions to the code as bit strings ([code_bits]): the encoder emits
    the codes of the bytes padded with ones, the decoder accepts exactly the
    encoder's outputs. *)

From S2P Require Import Prelude HuffmanTables.
#[local] Open Scope Z_scope.

(** ** Definitions *)

(** [HUFFMAN_ENCODE[byte]]. *)
Definition encode_entry (b : Z) : Z * Z := nth (Z.to_nat b) HUFFMAN_ENCODE (0, 0).

(** The encoder's loop state: [state], [unfilled] and [dst]. *)
Record EncState := mkEnc { enc_state : Z; enc_unfilled : Z; enc_dst : bytes }.

(** One iteration of the loop of [huffman_encode]. *)
Definition encode_byte (e : EncState) (b : Z) : EncState :=
  let '(nbits, code) := encode_entry b in
  match enc_unfilled e ?= nbits with
  | Gt =>
      mkEnc (Z.lor (enc_state e) (wrap64 (Z.shiftl code (enc_unfilled e - nbits))))
        (enc_unfilled e - nbits) (enc_dst e)
  | Eq => mkEnc 0 64 (enc_dst e ++ be_bytes 8 (Z.lor (enc_state e) code))
  | Lt =>
      let rotate := rotate_right64 code (nbits - enc_unfilled e) in
      let mask := Z.shiftr (U64 - 1) (64 - enc_unfilled e) in
      mkEnc (Z.land rotate (lnot64 mask)) (64 - (nbits - enc_unfilled e))
        (enc_dst e ++ be_bytes 8 (Z.lor (enc_state e) (Z.land rotate mask)))
  end.

(** The padding after the loop. *)
Definition encode_finish (e : EncState) : bytes :=
  if enc_unfilled e =? 64 then enc_dst e
  else
    let state := Z.lor (enc_state e) (Z.shiftr (U64 - 1) (64 - enc_unfilled e)) in
    enc_dst e ++ takeZ (8 - Z.shiftr (enc_unfilled e) 3) (be_bytes 8 state).

Definition huffman_encode (src dst : bytes) : bytes :=
  encode_finish (foldl encode_byte (mkEnc 0 64 dst) src).

Inductive HuffmanDecodeError := InvalidHuffmanCode.

(** [HUFFMAN_DECODE[state][nibble]]. *)
Definition decode_entry (state nibble : Z) : Z * Z * Z :=
  nth (Z.to_nat nibble) (nth (Z.to_nat state) HUFFMAN_DECODE []) (0, 0, 0).

(** [(state, flags)]; the output vector is the state of the monad. *)
Definition decode_nibble (state nibble : Z) : ST bytes HuffmanDecodeError (Z * Z) := λ dst,
  let '(state, result, flags) := decode_entry state nibble in
  if Z.land flags 4 =? 4 then (dst, Err InvalidHuffmanCode)
  else if Z.land flags 2 =? 2 then (dst ++ [result], Ok (state, flags))
  else (dst, Ok (state, flags)).

Fixpoint huffman_decode_inner (src : bytes) (state flags : Z) :
    ST bytes HuffmanDecodeError (Z * Z) :=
  match src with
  | [] => mret (state, flags)
  | byte :: src =>
      sf ← decode_nibble state (Z.shiftr byte 4);
      sf ← decode_nibble sf.1 (Z.land byte 15);
      huffman_decode_inner src sf.1 sf.2
  end.

(** The acceptance condition of [huffman_decode] and of [finish]. *)
Definition rejects_end (state flags : Z) : bool :=
  negb (state =? 0) && (Z.land flags 1 =? 0).

Definition huffman_decode (src : bytes) : ST bytes HuffmanDecodeError () :=
  sf ← huffman_decode_inner src 0 0;
  if rejects_end sf.1 sf.2 then throw InvalidHuffmanCode else mret ().

Record HuffmanDecoder := mkHuffmanDecoder { hd_state : Z; hd_flags : Z; hd_vec : bytes }.

Definition HuffmanDecoder_new : HuffmanDecoder := mkHuffmanDecoder 0 0 [].

(** [HuffmanDecoder::decode]: an error leaves [state] and [flags] unchanged. *)
Definition HuffmanDecoder_decode (src : bytes) : ST HuffmanDecoder HuffmanDecodeError () := λ d,
  match huffman_decode_inner src (hd_state d) (hd_flags d) (hd_vec d) with
  | (v, Ok (s, f)) => (mkHuffmanDecoder s f v, Ok ())
  | (v, Err e) => (mkHuffmanDecoder (hd_state d) (hd_flags d) v, Err e)
  | (v, Panic) => (mkHuffmanDecoder (hd_state d) (hd_flags d) v, Panic)
  end.

Definition HuffmanDecoder_finish (d : HuffmanDecoder) : result HuffmanDecodeError bytes :=
  if rejects_end (hd_state d) (hd_flags d) then Err InvalidHuffmanCode else Ok (hd_vec d).

(** ** The code as bit strings *)

Definition code_bits (b : Z) : list bool :=
  let '(n, c) := encode_entry b in to_bits (Z.to_nat n) c.

Definition codes (l : bytes) : list bool := l ≫= code_bits.

(** Padding to a whole number of bytes with ones. *)
Definition pad_ones (l : list bool) : list bool :=
  l ++ replicate (Nat.modulo (8 - Nat.modulo (length l) 8) 8) true.

(** The bits read since the last complete code, for each decoder state: found
    by following the decode table from state 0. *)
Definition prefix_step (known : list (option (list bool))) (s : nat) :
    list (option (list bool)) :=
  match nth s known None with
  | None => known
  | Some p =>
      foldl (λ known nib,
        let '(ns, c, fl) := decode_entry (Z.of_nat s) (Z.of_nat nib) in
        if Z.land fl 4 =? 4 then known
        else
          let bits := p ++ to_bits 4 (Z.of_nat nib) in
          let rest := if Z.land fl 2 =? 2 then drop (length (code_bits c)) bits else bits in
          match nth (Z.to_nat ns) known None with
          | Some _ => known
          | None => <[Z.to_nat ns := Some rest]> known
          end) known (seq 0 16)
  end.

Definition prefix_round (known : list (option (list bool))) :=
  foldl prefix_step known (seq 0 256).

Definition prefix_table : list (option (list bool)) :=
  Eval vm_compute in
    Nat.iter 4 prefix_round (<[0%nat := Some []]> (replicate 256 None)).

Definition state_prefix (s : Z) : list bool :=
  default [] (nth (Z.to_nat s) prefix_table None).

(** ** Facts on the tables, checked by computation *)

Definition all_bytes : list Z := seqZ 0 256.

Lemma elem_of_all_bytes b : is_byte b → b ∈ all_bytes.
Proof. intros H. unfold all_bytes. rewrite elem_of_seqZ. unfold is_byte in H. lia. Qed.

Lemma forallb_bytes (f : Z → bool) b : forallb f all_bytes = true → is_byte b → f b = true.
Proof.
  intros H Hb. rewrite forallb_forall in H. apply H.
  apply list_elem_of_In, elem_of_all_bytes, Hb.
Qed.

Definition code_ok (b : Z) : bool :=
  let '(n, c) := encode_entry b in (5 <=? n) && (n <=? 30) && (0 <=? c) && (c <? 2 ^ n).

Lemma encode_entry_bounds b n c :
  is_byte b → encode_entry b = (n, c) → 5 ≤ n ≤ 30 ∧ 0 ≤ c < 2 ^ n.
Proof.
  intros Hb E. assert (forallb code_ok all_bytes = true) as H by (vm_compute; reflexivity).
  apply (forallb_bytes _ b) in H; [|done]. unfold code_ok in H. rewrite E in H.
  bool_to_prop. lia.
Qed.

(** The codes of all bytes, computed once. *)
Definition code_list : list (Z * list bool) :=
  Eval vm_compute in map (λ b, (b, code_bits b)) all_bytes.

Lemma forallb_codes (f : Z → list bool → bool) b :
  forallb (λ p, f p.1 p.2) code_list = true → is_byte b → f b (code_bits b) = true.
Proof.
  assert (code_list = map (λ b, (b, code_bits b)) all_bytes) as -> by (vm_compute; reflexivity).
  rewrite forallb_forall. intros H Hb. apply (H (b, code_bits b)).
  apply in_map_iff. exists b. split; [done|]. by apply list_elem_of_In, elem_of_all_bytes.
Qed.

Definition prefix_free : bool :=
  forallb (λ p, forallb (λ q, (p.1 =? q.1) || negb (is_prefix p.2 q.2)) code_list) code_list.

Lemma prefix_free_ok : prefix_free = true.
Proof. vm_compute. reflexivity. Qed.

(** No code is a prefix of another one. *)
Lemma code_prefix_eq b c k k' :
  is_byte b → is_byte c → code_bits b ++ k = code_bits c ++ k' → b = c ∧ k = k'.
Proof.
  intros Hb Hc E.
  assert (∀ x y l l', is_byte x → is_byte y → code_bits x ++ l = code_bits y ++ l' →
    (length (code_bits x) ≤ length (code_bits y))%nat → x = y) as Haux.
  { intros x y l l' Hx Hy Exy Hlen.
    pose proof (forallb_codes (λ b bits,
      forallb (λ q, (b =? q.1) || negb (is_prefix bits q.2)) code_list) x prefix_free_ok Hx) as H1.
    pose proof (forallb_codes (λ c bits, (x =? c) || negb (is_prefix (code_bits x) bits))
      y H1 Hy) as H2. cbn beta in H2.
    apply orb_true_iff in H2 as [H2|H2]; bool_to_prop; [done|].
    assert (is_prefix (code_bits x) (code_bits y) = true); [|congruence].
    apply is_prefix_spec. exists (drop (length (code_bits x)) (code_bits y)).
    rewrite <- (take_drop (length (code_bits x)) (code_bits y)) at 1. f_equal.
    apply (f_equal (take (length (code_bits x)))) in Exy.
    rewrite take_app_length, take_app_le in Exy by done. done. }
  assert (b = c) as ->.
  { destruct (Nat.le_ge_cases (length (code_bits b)) (length (code_bits c))).
    - by eapply Haux.
    - symmetry. by eapply Haux. }
  split; [done|]. by apply app_inv_head in E.
Qed.

Lemma code_bits_nonempty b : is_byte b → code_bits b ≠ [].
Proof.
  intros Hb E. destruct (encode_entry b) as [n c] eqn:En.
  pose proof (encode_entry_bounds b n c Hb En) as [Hn _].
  apply (f_equal length) in E. unfold code_bits in E. rewrite En, length_to_bits in E.
  cbn in E. lia.
Qed.

Definition all_ones (l : list bool) : bool := forallb (λ b, b) l.

(** Padding shorter than a byte. *)
Definition short_ones (l : list bool) : bool := all_ones l && (length l <? 8)%nat.

Definition comparable (l k : list bool) : bool := is_prefix l k || is_prefix k l.

Definition entry_ok (s nib : Z) : bool :=
  let '(ns, c, fl) := decode_entry s nib in
  let bits := state_prefix s ++ to_bits 4 nib in
  if Z.land fl 4 =? 4 then
    forallb (λ p, negb (comparable p.2 bits)) code_list && negb (short_ones bits)
  else
    (0 <=? ns) && (ns <? 256) &&
    (if Z.land fl 2 =? 2
     then (0 <=? c) && (c <? 256) && bool_decide (bits = code_bits c ++ state_prefix ns)
     else bool_decide (bits = state_prefix ns)) &&
    (implb (negb (Z.land fl 1 =? 0)) (short_ones (state_prefix ns))) &&
    implb (short_ones (state_prefix ns) && negb (bool_decide (state_prefix ns = [])))
      (negb (Z.land fl 1 =? 0)).

Definition state_ok (s : Z) : bool :=
  forallb (entry_ok s) (seqZ 0 16) &&
  eqb (s =? 0) (bool_decide (state_prefix s = [])) &&
  forallb (λ p, negb (is_prefix p.2 (state_prefix s))) code_list.

Lemma states_ok : forallb state_ok all_bytes = true.
Proof. vm_compute. reflexivity. Qed.

Definition is_nibble (n : Z) : Prop := 0 ≤ n < 16.

Lemma state_entry_ok s nib : is_byte s → is_nibble nib → entry_ok s nib = true.
Proof.
  intros Hs Hn. pose proof (forallb_bytes _ s states_ok Hs) as H. unfold state_ok in H.
  bool_to_prop. rewrite forallb_forall in *. apply H.
  apply list_elem_of_In, elem_of_seqZ. unfold is_nibble in Hn. lia.
Qed.

Lemma state_prefix_nil s : is_byte s → state_prefix s = [] ↔ s = 0.
Proof.
  intros Hs. pose proof (forallb_bytes _ s states_ok Hs) as H. unfold state_ok in H.
  bool_to_prop. apply eqb_prop in H1. rewrite <- Z.eqb_eq, H1. symmetry.
  apply bool_decide_eq_true.
Qed.

Lemma state_prefix_0 : state_prefix 0 = [].
Proof. reflexivity. Qed.

#[local] Opaque state_prefix decode_entry encode_entry.

(** A state is the strict prefix of a code: no whole code fits in it. *)
Lemma state_prefix_no_code s c k :
  is_byte s → is_byte c → state_prefix s ≠ code_bits c ++ k.
Proof.
  intros Hs Hc E. pose proof (forallb_bytes _ s states_ok Hs) as H. unfold state_ok in H.
  bool_to_prop.
  pose proof (forallb_codes (λ _ bits, negb (is_prefix bits (state_prefix s))) c H0 Hc) as H2.
  apply negb_true_iff in H2. rewrite (proj2 (is_prefix_spec _ _)) in H2; [done|eauto].
Qed.

Lemma all_ones_spec l : all_ones l = true ↔ l = replicate (length l) true.
Proof.
  unfold all_ones. induction l as [|b l IH]; cbn; [done|].
  rewrite andb_true_iff, IH. split.
  - intros [-> ->]. by rewrite length_replicate.
  - intros [= -> E]. by rewrite <- E.
Qed.

Lemma short_ones_spec l : short_ones l = true ↔ ∃ k, (k < 8)%nat ∧ l = replicate k true.
Proof.
  unfold short_ones. rewrite andb_true_iff, all_ones_spec, Nat.ltb_lt. split.
  - intros [-> ?]. eexists. split; [done|]. by rewrite length_replicate.
  - intros (k & Hk & ->). by rewrite length_replicate.
Qed.

Lemma short_ones_prefix l k : short_ones (l ++ k) = true → short_ones l = true.
Proof.
  unfold short_ones, all_ones. rewrite forallb_app, length_app, !andb_true_iff, !Nat.ltb_lt.
  intros [[? ?] ?]. split; [done|lia].
Qed.

Lemma code_bits_length b : is_byte b → (5 ≤ length (code_bits b))%nat.
Proof.
  intros Hb. destruct (encode_entry b) as [n c] eqn:En.
  pose proof (encode_entry_bounds b n c Hb En) as [Hn _].
  unfold code_bits. rewrite En, length_to_bits. lia.
Qed.

(** ** One nibble *)

(** The flags and the state accept the end of the input exactly when the
    unread bits are padding. *)
Definition flag_ok (s f : Z) : Prop := rejects_end s f = negb (short_ones (state_prefix s)).

Lemma flag_ok_start f : flag_ok 0 f.
Proof. done. Qed.

Lemma flag_ok_intro s f :
  is_byte s →
  implb (negb (Z.land f 1 =? 0)) (short_ones (state_prefix s)) = true →
  implb (short_ones (state_prefix s) && negb (bool_decide (state_prefix s = [])))
    (negb (Z.land f 1 =? 0)) = true →
  flag_ok s f.
Proof.
  intros Hs. pose proof (state_prefix_nil s Hs) as Hnil. unfold flag_ok, rejects_end.
  destruct (s =? 0) eqn:E; bool_to_prop.
  - intros _ _. destruct Hnil as [_ Hnil]. by rewrite (Hnil E).
  - rewrite bool_decide_eq_false_2 by (intros H; by apply E, Hnil).
    by destruct (Z.land f 1 =? 0), (short_ones (state_prefix s)).
Qed.

(** What a table entry says when it is not an error. *)
Lemma decode_nibble_ok s nib dst dst' s' f' :
  is_byte s → is_nibble nib → decode_nibble s nib dst = (dst', Ok (s', f')) →
  is_byte s' ∧ flag_ok s' f' ∧
  ∃ out, dst' = dst ++ out ∧ Forall is_byte out ∧
    state_prefix s ++ to_bits 4 nib = codes out ++ state_prefix s'.
Proof.
  intros Hs Hn. pose proof (state_entry_ok s nib Hs Hn) as H. unfold entry_ok in H.
  unfold decode_nibble. destruct (decode_entry s nib) as [[ns c] fl].
  destruct (Z.land fl 4 =? 4); [done|].
  apply andb_true_iff in H as [H Hf2]. apply andb_true_iff in H as [H Hf1].
  apply andb_true_iff in H as [H Hb]. bool_to_prop.
  assert (is_byte ns) as Hns by (split; lia).
  pose proof (flag_ok_intro ns fl Hns Hf1 Hf2).
  destruct (Z.land fl 2 =? 2); intros [= <- <- <-]; (split; [done|split; [done|]]).
  - apply andb_true_iff in Hb as [Hc Hb]. apply bool_decide_eq_true in Hb. bool_to_prop.
    exists [c]. split; [done|]. split; [repeat constructor; lia|].
    unfold codes. cbn [mbind list_bind]. by rewrite app_nil_r.
  - apply bool_decide_eq_true in Hb. exists []. by rewrite app_nil_r.
Qed.

(** An error entry is one that no sequence of codes and padding reaches. *)
Lemma decode_nibble_err s nib dst dst' out k rest :
  is_byte s → is_nibble nib → decode_nibble s nib dst = (dst', Err InvalidHuffmanCode) →
  Forall is_byte out → (k < 8)%nat →
  state_prefix s ++ to_bits 4 nib ++ rest = codes out ++ replicate k true → False.
Proof.
  intros Hs Hn. pose proof (state_entry_ok s nib Hs Hn) as H. unfold entry_ok in H.
  unfold decode_nibble. destruct (decode_entry s nib) as [[ns c] fl].
  destruct (Z.land fl 4 =? 4); [|destruct (Z.land fl 2 =? 2); done].
  intros _ Hout Hk E. apply andb_true_iff in H as [H1 H2]. rewrite app_assoc in E.
  set (bits := state_prefix s ++ to_bits 4 nib) in *.
  destruct Hout as [|b out Hb Hout].
  - cbn in E. apply negb_true_iff in H2.
    assert (short_ones bits = true); [|congruence].
    apply (short_ones_prefix _ rest), short_ones_spec. by exists k.
  - pose proof (forallb_codes (λ _ cb, negb (comparable cb bits)) b H1 Hb) as H3.
    apply negb_true_iff, orb_false_iff in H3 as [H3 H4].
    change (codes (b :: out)) with (code_bits b ++ codes out) in E. rewrite <- app_assoc in E.
    destruct (Nat.le_ge_cases (length bits) (length (code_bits b))).
    + assert (is_prefix bits (code_bits b) = true); [|congruence].
      apply is_prefix_spec. apply (f_equal (take (length (code_bits b)))) in E.
      rewrite take_app_length, take_app_ge in E by done. eauto.
    + assert (is_prefix (code_bits b) bits = true); [|congruence].
      apply is_prefix_spec. apply (f_equal (take (length bits))) in E.
      rewrite take_app_length, take_app_ge in E by done. eauto.
Qed.

Lemma decode_nibble_total s nib dst :
  (∃ dst' s' f', decode_nibble s nib dst = (dst', Ok (s', f'))) ∨
  decode_nibble s nib dst = (dst, Err InvalidHuffmanCode).
Proof.
  unfold decode_nibble. destruct (decode_entry s nib) as [[ns c] fl].
  destruct (Z.land fl 4 =? 4); [by right|]. left.
  destruct (Z.land fl 2 =? 2); eauto.
Qed.

Lemma bits_of_cons b l : bits_of (b :: l) = to_bits 8 b ++ bits_of l.
Proof. done. Qed.

Lemma byte_nibbles b : is_byte b →
  is_nibble (Z.shiftr b 4) ∧ is_nibble (Z.land b 15) ∧
  to_bits 8 b = to_bits 4 (Z.shiftr b 4) ++ to_bits 4 (Z.land b 15).
Proof.
  intros Hb. unfold is_nibble. split_and!.
  - unfold is_byte in Hb. rewrite Z.shiftr_div_pow2 by lia. apply Z.div_pos; lia.
  - unfold is_byte in Hb. rewrite Z.shiftr_div_pow2 by lia. apply Z.div_lt_upper_bound; lia.
  - apply Z.land_nonneg. lia.
  - change 15 with (Z.ones 4). rewrite Z.land_ones by lia. apply Z.mod_pos_bound. lia.
  - change 8%nat with (4 + 4)%nat. rewrite to_bits_app. f_equal. apply to_bits_ext.
    intros i Hi. change 15 with (Z.ones 4). rewrite Z.land_spec, Z.ones_spec_low by lia.
    by rewrite andb_true_r.
Qed.

(** ** Whole inputs *)

Lemma huffman_decode_inner_ok src s f dst dst' s' f' :
  is_byte s → flag_ok s f → Forall is_byte src →
  huffman_decode_inner src s f dst = (dst', Ok (s', f')) →
  is_byte s' ∧ flag_ok s' f' ∧
  ∃ out, dst' = dst ++ out ∧ Forall is_byte out ∧
    state_prefix s ++ bits_of src = codes out ++ state_prefix s'.
Proof.
  intros Hs Hf Hsrc. revert s f dst Hs Hf.
  induction Hsrc as [|b src Hb Hsrc IH]; intros s f dst Hs Hf; cbn [huffman_decode_inner].
  - intros [= <- <- <-]. split_and!; [done..|]. exists []. rewrite !app_nil_r. done.
  - destruct (byte_nibbles b Hb) as (Hl & Hr & Eb). unfold mbind, ST_bind.
    destruct (decode_nibble s (Z.shiftr b 4) dst) as [d1 [[s1 f1]|e|]] eqn:E1; [|done..].
    destruct (decode_nibble_ok _ _ _ _ _ _ Hs Hl E1) as (Hs1 & _ & o1 & -> & Ho1 & P1).
    cbn [fst snd].
    destruct (decode_nibble s1 (Z.land b 15) _) as [d2 [[s2 f2]|e|]] eqn:E2; [|done..].
    destruct (decode_nibble_ok _ _ _ _ _ _ Hs1 Hr E2) as (Hs2 & Hf2 & o2 & -> & Ho2 & P2).
    intros E. destruct (IH _ _ _ Hs2 Hf2 E) as (? & ? & o3 & -> & Ho3 & P3).
    split_and!; [done..|]. exists (o1 ++ o2 ++ o3). rewrite !app_assoc. split; [done|].
    split; [rewrite !Forall_app; done|].
    rewrite bits_of_cons, Eb. unfold codes in *. rewrite !bind_app.
    rewrite <- !app_assoc, <- P3, (app_assoc _ (state_prefix s2)), <- P2, <- !app_assoc.
    rewrite (app_assoc (state_prefix s)), P1. by rewrite <- !app_assoc.
Qed.

Lemma huffman_decode_inner_total src s f dst :
  (∃ dst' s' f', huffman_decode_inner src s f dst = (dst', Ok (s', f'))) ∨
  ∃ dst', huffman_decode_inner src s f dst = (dst', Err InvalidHuffmanCode).
Proof.
  revert s f dst. induction src as [|b src IH]; intros s f dst; cbn [huffman_decode_inner].
  - left. by eexists _, _, _.
  - unfold mbind, ST_bind.
    destruct (decode_nibble_total s (Z.shiftr b 4) dst) as [(? & ? & ? & ->)| ->]; [|eauto].
    cbn [fst snd].
    destruct (decode_nibble_total x0 (Z.land b 15) x) as [(? & ? & ? & ->)| ->]; [|eauto].
    apply IH.
Qed.

Lemma code_not_short c k : is_byte c → short_ones (code_bits c ++ k) = false.
Proof.
  intros Hc. destruct (short_ones _) eqn:E; [|done]. apply short_ones_prefix in E.
  pose proof (forallb_codes (λ _ bits, negb (short_ones bits)) c
    ltac:(vm_compute; reflexivity) Hc) as H2. cbn beta in H2. by rewrite E in H2.
Qed.

(** Codes already emitted are dropped from both sides. *)
Lemma codes_cancel o out l k :
  Forall is_byte o → Forall is_byte out → (k < 8)%nat →
  codes o ++ l = codes out ++ replicate k true →
  ∃ out', Forall is_byte out' ∧ out = o ++ out' ∧ l = codes out' ++ replicate k true.
Proof.
  intros Ho Hout Hk. revert out Hout.
  induction Ho as [|c o Hc Ho IH]; intros out Hout P; [by exists out|].
  change (codes (c :: o)) with (code_bits c ++ codes o) in P. rewrite <- app_assoc in P.
  destruct Hout as [|c' out Hc' Hout].
  - cbn in P. exfalso. pose proof (code_not_short c (codes o ++ l) Hc) as H.
    assert (short_ones (replicate k true) = true) as H' by (apply short_ones_spec; eauto).
    by rewrite P, H' in H.
  - change (codes (c' :: out)) with (code_bits c' ++ codes out) in P. rewrite <- app_assoc in P.
    apply code_prefix_eq in P as [-> P]; [|done..].
    destruct (IH out Hout P) as (out' & ? & -> & ->). by exists out'.
Qed.

(** On the bits of codes followed by padding, a nibble is not an error and
    leaves such bits. *)
Lemma decode_nibble_continue s nib dst out k rest :
  is_byte s → is_nibble nib → Forall is_byte out → (k < 8)%nat →
  state_prefix s ++ to_bits 4 nib ++ rest = codes out ++ replicate k true →
  ∃ dst' s' f' out', decode_nibble s nib dst = (dst', Ok (s', f')) ∧
    is_byte s' ∧ Forall is_byte out' ∧
    state_prefix s' ++ rest = codes out' ++ replicate k true.
Proof.
  intros Hs Hn Hout Hk P.
  destruct (decode_nibble_total s nib dst) as [(d1 & s1 & f1 & E)|E].
  - destruct (decode_nibble_ok _ _ _ _ _ _ Hs Hn E) as (Hs1 & _ & o & -> & Ho & P1).
    rewrite app_assoc, P1, <- app_assoc in P.
    destruct (codes_cancel _ _ _ _ Ho Hout Hk P) as (out' & ? & _ & ?). eauto 10.
  - exfalso. by eapply decode_nibble_err.
Qed.

(** No error on the bits of codes followed by padding. *)
Lemma huffman_decode_inner_no_err src s f dst out k :
  is_byte s → Forall is_byte src → Forall is_byte out → (k < 8)%nat →
  state_prefix s ++ bits_of src = codes out ++ replicate k true →
  ∃ dst' s' f', huffman_decode_inner src s f dst = (dst', Ok (s', f')).
Proof.
  intros Hs Hsrc Hout Hk. revert s f dst out Hs Hout.
  induction Hsrc as [|b src Hb Hsrc IH]; intros s f dst out Hs Hout P;
    cbn [huffman_decode_inner]; [by eexists _, _, _|].
  destruct (byte_nibbles b Hb) as (Hl & Hr & Eb). rewrite bits_of_cons, Eb, <- app_assoc in P.
  unfold mbind, ST_bind.
  destruct (decode_nibble_continue s _ dst out k _ Hs Hl Hout Hk P)
    as (d1 & s1 & f1 & o1 & -> & Hs1 & Ho1 & P1). cbn [fst snd].
  destruct (decode_nibble_continue s1 _ d1 o1 k _ Hs1 Hr Ho1 Hk P1)
    as (d2 & s2 & f2 & o2 & -> & Hs2 & Ho2 & P2).
  by eapply IH.
Qed.

(** ** The encoder on bits *)

Lemma pad_ones_decomp l :
  ∃ k, (k < 8)%nat ∧ pad_ones l = l ++ replicate k true ∧ Nat.modulo (length l + k) 8 = 0%nat.
Proof.
  eexists. split; [|split; [done|]].
  - apply Nat.mod_upper_bound. lia.
  - rewrite Nat.Div0.add_mod_idemp_r.
    pose proof (Nat.div_mod_eq (length l) 8). pose proof (Nat.mod_upper_bound (length l) 8).
    replace (length l + (8 - length l mod 8))%nat with ((length l / 8 + 1) * 8)%nat by lia.
    apply Nat.Div0.mod_mul.
Qed.

Lemma pad_ones_unique l k :
  (k < 8)%nat → Nat.modulo (length l + k) 8 = 0%nat → pad_ones l = l ++ replicate k true.
Proof.
  intros Hk Hm. unfold pad_ones. do 2 f_equal.
  pose proof (Nat.div_mod_eq (length l) 8). pose proof (Nat.mod_upper_bound (length l) 8).
  pose proof (Nat.div_mod_eq (length l + k) 8).
  assert (length l mod 8 = 0 ∨ 0 < length l mod 8)%nat as [E|E] by lia.
  - rewrite E. change ((8 - 0) mod 8)%nat with 0%nat. lia.
  - rewrite Nat.mod_small by lia. lia.
Qed.

(** The pending bits of the encoder are the top [64 - unfilled] bits of
    [state]; the rest of [state] is zero. *)
Definition enc_inv (e : EncState) (bits : list bool) : Prop :=
  1 ≤ enc_unfilled e ≤ 64 ∧
  (∀ i, 0 ≤ i < enc_unfilled e → Z.testbit (enc_state e) i = false) ∧
  bits_of (enc_dst e) ++
    to_bits (Z.to_nat (64 - enc_unfilled e)) (Z.shiftr (enc_state e) (enc_unfilled e)) = bits.

(** A 64-bit word split at bit [u]. *)
Lemma to_bits_64_split x u : 0 ≤ u ≤ 64 →
  to_bits 64 x = to_bits (Z.to_nat (64 - u)) (Z.shiftr x u) ++ to_bits (Z.to_nat u) x.
Proof.
  intros Hu. replace 64%nat with (Z.to_nat (64 - u) + Z.to_nat u)%nat at 1 by lia.
  rewrite to_bits_app. by rewrite Z2Nat.id by lia.
Qed.

Lemma wrap64_testbit x i : 0 ≤ i < 64 → Z.testbit (wrap64 x) i = Z.testbit x i.
Proof. intros. unfold wrap64, U64. apply Z.mod_pow2_bits_low. lia. Qed.

Lemma testbit_small x n i : 0 ≤ x < 2 ^ n → n ≤ i → Z.testbit x i = false.
Proof.
  intros Hx Hi. assert (0 ≤ n). { destruct (Z.neg_nonneg_cases n); [|done].
    rewrite Z.pow_neg_r in Hx; lia. }
  rewrite <- (Z.mod_small x (2 ^ n)) by done. by apply Z.mod_pow2_bits_high.
Qed.

Lemma mask_testbit u i : 0 ≤ u ≤ 64 → 0 ≤ i < 64 →
  Z.testbit (Z.shiftr (U64 - 1) (64 - u)) i = (i <? u).
Proof.
  intros Hu Hi. rewrite Z.shiftr_spec by lia. change (U64 - 1) with (Z.ones 64).
  destruct (Z.ltb_spec i u).
  - apply Z.ones_spec_low. lia.
  - apply Z.ones_spec_high. lia.
Qed.

(** The code of a byte is [n] bits, written below the pending bits. *)
Section encode_step.
Context (st u n c : Z).
Context (Hu : 1 ≤ u ≤ 64) (Hn : 5 ≤ n ≤ 30) (Hc : 0 ≤ c < 2 ^ n).
Context (Hzero : ∀ i, 0 ≤ i < u → Z.testbit st i = false).

Let pending := to_bits (Z.to_nat (64 - u)) (Z.shiftr st u).

(** [n < u]: the code fits. *)
Lemma step_fits : n < u →
  let st' := Z.lor st (wrap64 (Z.shiftl c (u - n))) in
  (∀ i, 0 ≤ i < u - n → Z.testbit st' i = false) ∧
  to_bits (Z.to_nat (64 - (u - n))) (Z.shiftr st' (u - n)) = pending ++ to_bits (Z.to_nat n) c.
Proof.
  intros Hlt st'. subst st' pending. split.
  - intros i Hi. rewrite Z.lor_spec, Hzero, wrap64_testbit, Z.shiftl_spec by lia.
    rewrite Z.testbit_neg_r by lia. done.
  - replace (Z.to_nat (64 - (u - n))) with (Z.to_nat (64 - u) + Z.to_nat n)%nat by lia.
    rewrite to_bits_app, Z2Nat.id by lia. f_equal; apply to_bits_ext; intros i Hi.
    + rewrite !Z.shiftr_spec, Z.lor_spec, wrap64_testbit, Z.shiftl_spec by lia.
      rewrite (testbit_small c n) by (done || lia). rewrite orb_false_r. f_equal. lia.
    + rewrite Z.shiftr_spec, Z.lor_spec, Hzero, wrap64_testbit, Z.shiftl_spec by lia.
      cbn. f_equal. lia.
Qed.

(** [n = u]: the word is full. *)
Lemma step_full : n = u →
  to_bits 64 (Z.lor st c) = pending ++ to_bits (Z.to_nat n) c.
Proof.
  intros E. rewrite (to_bits_64_split _ u) by lia. subst pending. rewrite E.
  f_equal; apply to_bits_ext; intros i Hi.
  - rewrite !Z.shiftr_spec, Z.lor_spec by lia. rewrite (testbit_small c n) by (done || lia).
    by rewrite orb_false_r.
  - by rewrite Z.lor_spec, Hzero by lia.
Qed.

Lemma rotate_low i : u < n → 0 ≤ i < 64 - (n - u) → Z.testbit (rotate_right64 c (n - u)) i =
  Z.testbit c (i + (n - u)).
Proof.
  intros Hlt Hi. unfold rotate_right64.
  rewrite Z.lor_spec, wrap64_testbit, Z.shiftl_spec, Z.shiftr_spec by lia.
  rewrite (Z.testbit_neg_r c (i - _)) by lia. apply orb_false_r.
Qed.

Lemma rotate_high i : u < n → 64 - (n - u) ≤ i < 64 →
  Z.testbit (rotate_right64 c (n - u)) i = Z.testbit c (i - (64 - (n - u))).
Proof.
  intros Hlt Hi. unfold rotate_right64.
  rewrite Z.lor_spec, wrap64_testbit, Z.shiftl_spec, Z.shiftr_spec by lia.
  rewrite (testbit_small c n) by (done || lia). done.
Qed.

(** [u < n]: the code is split over two words. *)
Lemma step_split : u < n →
  let r := rotate_right64 c (n - u) in
  let m := Z.shiftr (U64 - 1) (64 - u) in
  (∀ i, 0 ≤ i < 64 - (n - u) → Z.testbit (Z.land r (lnot64 m)) i = false) ∧
  to_bits 64 (Z.lor st (Z.land r m)) ++
    to_bits (Z.to_nat (64 - (64 - (n - u)))) (Z.shiftr (Z.land r (lnot64 m)) (64 - (n - u)))
  = pending ++ to_bits (Z.to_nat n) c.
Proof.
  intros Hlt r m. unfold lnot64. split.
  - intros i Hi. subst r m. rewrite Z.land_spec, rotate_low, wrap64_testbit by lia.
    rewrite Z.lnot_spec, mask_testbit by lia. destruct (Z.ltb_spec i u); [apply andb_false_r|].
    by rewrite (testbit_small c n) by (done || lia).
  - rewrite (to_bits_64_split _ u) by lia. rewrite <- app_assoc. f_equal.
    + subst pending. apply to_bits_ext. intros i Hi. rewrite !Z.shiftr_spec, Z.lor_spec by lia.
      subst r m. rewrite Z.land_spec, mask_testbit by lia.
      destruct (Z.ltb_spec (i + u) u); [lia|]. by rewrite andb_false_r, orb_false_r.
    + replace (Z.to_nat n) with (Z.to_nat u + Z.to_nat (n - u))%nat by lia.
      rewrite to_bits_app, Z2Nat.id by lia.
      replace (64 - (64 - (n - u))) with (n - u) by lia.
      f_equal; apply to_bits_ext; intros i Hi; subst r m.
      * rewrite Z.lor_spec, Hzero, Z.land_spec, mask_testbit, rotate_low by lia.
        rewrite Z.shiftr_spec by lia. destruct (Z.ltb_spec i u); [|lia]. by rewrite andb_true_r.
      * rewrite Z.shiftr_spec, Z.land_spec, rotate_high, wrap64_testbit by lia.
        rewrite Z.lnot_spec, mask_testbit by lia.
        destruct (Z.ltb_spec (i + (64 - (n - u))) u); [lia|]. rewrite andb_true_r. f_equal. lia.
Qed.
End encode_step.

Lemma encode_byte_inv e b bits :
  is_byte b → enc_inv e bits → enc_inv (encode_byte e b) (bits ++ code_bits b).
Proof.
  intros Hb (Hu & Hz & Hbits). unfold encode_byte, code_bits.
  destruct (encode_entry b) as [n c] eqn:En.
  pose proof (encode_entry_bounds b n c Hb En) as [Hn Hc].
  destruct e as [st u dst]. cbn [enc_state enc_unfilled enc_dst] in *.
  rewrite <- Hbits, <- app_assoc.
  destruct (Z.compare_spec u n) as [E|Hlt|Hgt]; unfold enc_inv; cbn [enc_state enc_unfilled enc_dst];
    (split; [lia|split]).
  - intros i _. apply Z.testbit_0_l.
  - rewrite bits_of_app, bits_of_be_bytes. change (8 * 8)%nat with 64%nat.
    rewrite (step_full st u n c) by done. cbn. by rewrite app_nil_r.
  - by apply (step_split st u n c).
  - rewrite bits_of_app, bits_of_be_bytes, <- app_assoc. f_equal.
    by apply (step_split st u n c).
  - apply (step_fits st u n c); done || lia.
  - f_equal. apply (step_fits st u n c); done || lia.
Qed.

Lemma encode_fold_inv src e bits :
  Forall is_byte src → enc_inv e bits → enc_inv (foldl encode_byte e src) (bits ++ codes src).
Proof.
  intros Hsrc. revert e bits. induction Hsrc as [|b src Hb Hsrc IH]; intros e bits He; cbn.
  - by rewrite app_nil_r.
  - rewrite app_assoc. by apply IH, encode_byte_inv.
Qed.

Lemma bits_of_take n l : bits_of (take n l) = take (8 * n) (bits_of l).
Proof.
  revert n. induction l as [|b l IH]; intros [|n]; try done.
  cbn [take]. rewrite !bits_of_cons, IH.
  rewrite take_app_ge by (rewrite length_to_bits; lia). f_equal.
  rewrite length_to_bits. f_equal. lia.
Qed.

Lemma encode_finish_bits e bits :
  enc_inv e bits →
  ∃ k, (k < 8)%nat ∧ bits_of (encode_finish e) = bits ++ replicate k true.
Proof.
  intros (Hu & Hz & <-). unfold encode_finish. destruct e as [st u dst].
  cbn [enc_state enc_unfilled enc_dst] in *. destruct (Z.eqb_spec u 64) as [->|Hne].
  - exists 0%nat. split; [lia|]. cbn. by rewrite !app_nil_r.
  - exists (Z.to_nat (u mod 8)). pose proof (Z.mod_pos_bound u 8). split; [lia|].
    rewrite bits_of_app, <- app_assoc. f_equal. unfold takeZ.
    rewrite bits_of_take, bits_of_be_bytes. change (8 * 8)%nat with 64%nat.
    rewrite Z.shiftr_div_pow2 by lia. change (2 ^ 3) with 8. pose proof (Z.div_mod u 8).
    rewrite (to_bits_64_split _ u) by lia.
    rewrite take_app_ge by (rewrite length_to_bits; lia). rewrite length_to_bits. f_equal.
    + apply to_bits_ext. intros i Hi. rewrite !Z.shiftr_spec, Z.lor_spec by lia.
      rewrite mask_testbit by lia. destruct (Z.ltb_spec (i + u) u); [lia|]. apply orb_false_r.
    + rewrite to_bits_ones.
      * rewrite take_replicate. f_equal. lia.
      * intros i Hi. rewrite Z.lor_spec, mask_testbit by lia.
        destruct (Z.ltb_spec i u); [|lia]. apply orb_true_r.
Qed.

Lemma encode_byte_dst e b : Forall is_byte (enc_dst e) → Forall is_byte (enc_dst (encode_byte e b)).
Proof.
  intros H. unfold encode_byte. destruct (encode_entry b), (_ ?= _); cbn [enc_dst];
    rewrite ?Forall_app; auto with ylong.
Qed.

Lemma huffman_encode_bytes src dst :
  Forall is_byte dst → Forall is_byte (huffman_encode src dst).
Proof.
  intros H. unfold huffman_encode.
  assert (∀ e, Forall is_byte (enc_dst e) → Forall is_byte (encode_finish e)) as Hfin.
  { intros e He. unfold encode_finish, takeZ. destruct (_ =? 64); [done|].
    rewrite Forall_app. split; [done|]. apply Forall_take. auto with ylong. }
  apply Hfin. clear Hfin. set (e := mkEnc 0 64 dst). assert (Forall is_byte (enc_dst e)) by done.
  clearbody e. revert e H0. induction src; intros e He; cbn; [done|]. by apply IHsrc, encode_byte_dst.
Qed.

(** [huffman_encode] emits the codes of the bytes, padded with ones. *)
Lemma huffman_encode_bits src dst :
  Forall is_byte src →
  bits_of (huffman_encode src dst) = bits_of dst ++ pad_ones (codes src).
Proof.
  intros Hsrc.
  assert (enc_inv (mkEnc 0 64 dst) (bits_of dst)) as H0.
  { split; [cbn; lia|]. split; [intros; apply Z.testbit_0_l|]. apply app_nil_r. }
  pose proof (encode_fold_inv src _ _ Hsrc H0) as H.
  destruct (encode_finish_bits _ _ H) as (k & Hk & E). unfold huffman_encode. rewrite E.
  rewrite <- app_assoc. f_equal. symmetry. apply pad_ones_unique; [done|].
  apply (f_equal length) in E. rewrite !length_app, !length_bits_of, length_replicate in E.
  replace (length (codes src) + k)%nat
    with ((length (encode_finish (foldl encode_byte (mkEnc 0 64 dst) src)) - length dst) * 8)%nat
    by lia.
  apply Nat.Div0.mod_mul.
Qed.

(** ** Properties *)

(** What acceptance means on bits. *)
Lemma huffman_decode_accepts src dst dst' :
  Forall is_byte src → huffman_decode src dst = (dst', Ok ()) →
  ∃ out k, dst' = dst ++ out ∧ Forall is_byte out ∧ (k < 8)%nat ∧
    bits_of src = codes out ++ replicate k true.
Proof.
  intros Hsrc. unfold huffman_decode, mbind, ST_bind.
  destruct (huffman_decode_inner src 0 0 dst) as [d [[s f]|e|]] eqn:E; [|done..].
  destruct (huffman_decode_inner_ok src 0 0 dst d s f ltac:(done) (flag_ok_start 0) Hsrc E)
    as (Hs & Hf & out & -> & Ho & P).
  cbn [fst snd]. rewrite Hf. destruct (short_ones (state_prefix s)) eqn:Eo; [|done].
  cbn. intros [= <-]. apply short_ones_spec in Eo as (k & Hk & Ek).
  exists out, k. split_and!; [done..|]. by rewrite <- Ek.
Qed.

Lemma huffman_decode_complete src dst out k :
  Forall is_byte src → Forall is_byte out → (k < 8)%nat →
  bits_of src = codes out ++ replicate k true →
  huffman_decode src dst = (dst ++ out, Ok ()).
Proof.
  intros Hsrc Hout Hk P.
  destruct (huffman_decode_inner_no_err src 0 0 dst out k) as (d & s & f & E); [done..|].
  unfold huffman_decode, mbind, ST_bind. rewrite E. cbn [fst snd].
  destruct (huffman_decode_inner_ok src 0 0 dst d s f ltac:(done) (flag_ok_start 0) Hsrc E)
    as (Hs & Hf & o & -> & Ho & P'). rewrite state_prefix_0 in P'. cbn [app] in P'.
  rewrite P' in P. apply codes_cancel in P as (o' & Ho' & -> & P); [|done..].
  destruct Ho' as [|b o' Hb Ho'].
  - rewrite app_nil_r. rewrite Hf, P. cbn. rewrite (proj2 (short_ones_spec _)); [done|eauto].
  - exfalso. change (codes (b :: o')) with (code_bits b ++ codes o') in P.
    rewrite <- app_assoc in P. by apply state_prefix_no_code in P.
Qed.

(** C36: the one-shot Huffman decoder accepts a byte string exactly when it is
    the encoder's output for some bytes, and then appends those bytes: it
    rejects every other padding, code and truncation. *)
Theorem huffman_decode_iff (src dst out : bytes) (Hsrc : Forall is_byte src) :
  huffman_decode src dst = (dst ++ out, Ok ()) ↔
  Forall is_byte out ∧ src = huffman_encode out [].
Proof.
  split.
  - intros E. destruct (huffman_decode_accepts _ _ _ Hsrc E) as (o & k & Eo & Ho & Hk & P).
    apply app_inv_head in Eo as <-. split; [done|].
    apply bits_of_inj; [done|by apply huffman_encode_bytes|].
    rewrite huffman_encode_bits by done. cbn. rewrite P. symmetry.
    apply pad_ones_unique; [done|]. apply (f_equal length) in P.
    rewrite length_app, length_replicate, length_bits_of in P.
    rewrite <- P, Nat.mul_comm. apply Nat.Div0.mod_mul.
  - intros [Hout ->]. destruct (pad_ones_decomp (codes out)) as (k & Hk & Ek & _).
    eapply huffman_decode_complete; [done..|]. rewrite huffman_encode_bits by done. done.
Qed.

Lemma huffman_decode_iff_witness :
  Forall is_byte [241; 227; 194; 229; 242; 58; 107; 160; 171; 144; 244; 255] ∧
  huffman_decode [241; 227; 194; 229; 242; 58; 107; 160; 171; 144; 244; 255] []
    = (bs "www.example.com", Ok ()).
Proof.
  assert (Forall is_byte [241; 227; 194; 229; 242; 58; 107; 160; 171; 144; 244; 255]) as H
    by (repeat constructor; cbv; discriminate).
  split; [exact H|].
  apply (proj2 (huffman_decode_iff _ [] (bs "www.example.com") H)).
  split; [repeat constructor; cbv; discriminate|vm_compute; reflexivity].
Defined.

(** [huffman_encode] appends the codes of its input, most significant bit
    first, padded with ones to whole bytes; so its length is the number of
    code bits divided by eight, rounded up. *)
Theorem huffman_encode_spec (src dst : bytes) (Hsrc : Forall is_byte src) :
  bits_of (huffman_encode src dst) = bits_of dst ++ pad_ones (codes src) ∧
  length (huffman_encode src dst) =
    (length dst + (length (codes src) + 7) / 8)%nat.
Proof.
  pose proof (huffman_encode_bits src dst Hsrc) as E. split; [done|].
  apply (f_equal length) in E. destruct (pad_ones_decomp (codes src)) as (k & Hk & Ek & Em).
  rewrite Ek, !length_app, !length_bits_of, length_replicate in E.
  replace ((length (codes src) + 7) / 8)%nat
    with (length (huffman_encode src dst) - length dst)%nat; [lia|].
  apply (Nat.div_unique _ _ _ (7 - k)); lia.
Qed.

Lemma huffman_encode_spec_witness :
  Forall is_byte (bs "302") ∧ length (huffman_encode (bs "302") []) = 2%nat.
Proof.
  assert (Forall is_byte (bs "302")) as H by (repeat constructor; cbv; discriminate).
  split; [exact H|].
  exact (eq_trans (proj2 (huffman_encode_spec (bs "302") [] H)) eq_refl).
Defined.

(** Decoding chunk by chunk. *)
Fixpoint decode_chunks (cs : list bytes) : ST HuffmanDecoder HuffmanDecodeError () :=
  match cs with
  | [] => mret ()
  | c :: cs => _ ← HuffmanDecoder_decode c; decode_chunks cs
  end.

Lemma huffman_decode_inner_app a b s f dst :
  huffman_decode_inner (a ++ b) s f dst =
  (sf ← huffman_decode_inner a s f; huffman_decode_inner b sf.1 sf.2) dst.
Proof.
  revert s f dst. induction a as [|x a IH]; intros s f dst; [done|].
  cbn [app huffman_decode_inner]. unfold mbind, ST_bind in *.
  destruct (decode_nibble s _ dst) as [d1 [[s1 f1]|e|]]; [|done..].
  destruct (decode_nibble _ _ d1) as [d2 [[s2 f2]|e|]]; [|done..]. apply IH.
Qed.

Lemma decode_chunks_inner cs s f v :
  match decode_chunks cs (mkHuffmanDecoder s f v) with
  | (d, Ok _) => HuffmanDecoder_finish d
  | (_, Err e) => Err e
  | (_, Panic) => Panic
  end =
  match huffman_decode_inner (concat cs) s f v with
  | (v, Ok sf) => if rejects_end sf.1 sf.2 then Err InvalidHuffmanCode else Ok v
  | (_, Err e) => Err e
  | (_, Panic) => Panic
  end.
Proof.
  revert s f v. induction cs as [|c cs IH]; intros s f v; [done|].
  cbn [concat decode_chunks]. rewrite huffman_decode_inner_app.
  unfold mbind, ST_bind, HuffmanDecoder_decode. cbn [hd_state hd_flags hd_vec].
  destruct (huffman_decode_inner c s f v) as [v' [[s' f']|e|]]; [|done..].
  cbn [fst snd]. apply IH.
Qed.

(** the resumable [HuffmanDecoder] does not depend on how its input is cut:
    fed any list of chunks and finished, it gives the result of
    [huffman_decode] on their concatenation, errors included. *)
Theorem huffman_chunks_refine (cs : list bytes) :
  match decode_chunks cs HuffmanDecoder_new with
  | (d, Ok _) => HuffmanDecoder_finish d
  | (_, Err e) => Err e
  | (_, Panic) => Panic
  end =
  match huffman_decode (concat cs) [] with
  | (v, Ok _) => Ok v
  | (_, Err e) => Err e
  | (_, Panic) => Panic
  end.
Proof.
  unfold HuffmanDecoder_new. rewrite decode_chunks_inner.
  unfold huffman_decode, mbind, ST_bind.
  destruct (huffman_decode_inner _ 0 0 []) as [v [[s f]|e|]]; [|done..].
  cbn [fst snd]. by destruct (rejects_end s f).
Qed.
