(* ===== verification/H2Error.v ===== *)
(** * HTTP/2 errors

    Models [src/ylong_http/src/h2/error.rs]: the error codes with their wire
    values, and the two kinds of [H2Error]. *)

From S2P Require Import Prelude.
#[local] Open Scope Z_scope.

Inductive ErrorCode :=
  | NoError | ProtocolError | IntervalError | FlowControlError | SettingsTimeout
  | StreamClosed | FrameSizeError | RefusedStream | Cancel | CompressionError
  | ConnectError | EnhanceYourCalm | InadequateSecurity | Http1_1Required.

Inductive H2Error :=
  | StreamError (id : Z) (code : ErrorCode)
  | ConnectionError (code : ErrorCode).

#[export] Instance ErrorCode_eq_dec : EqDecision ErrorCode.
Proof. solve_decision. Defined.
#[export] Instance H2Error_eq_dec : EqDecision H2Error.
Proof. solve_decision. Defined.

(** [ErrorCode::into_code]: the discriminant. *)
Definition into_code (e : ErrorCode) : Z :=
  match e with
  | NoError => 0x00 | ProtocolError => 0x01 | IntervalError => 0x02
  | FlowControlError => 0x03 | SettingsTimeout => 0x04 | StreamClosed => 0x05
  | FrameSizeError => 0x06 | RefusedStream => 0x07 | Cancel => 0x08
  | CompressionError => 0x09 | ConnectError => 0x0a | EnhanceYourCalm => 0x0b
  | InadequateSecurity => 0x0c | Http1_1Required => 0x0d
  end.

(** [ErrorCode::try_from]. *)
Definition ErrorCode_try_from (value : Z) : result H2Error ErrorCode :=
  match value with
  | 0x00 => Ok NoError | 0x01 => Ok ProtocolError | 0x02 => Ok IntervalError
  | 0x03 => Ok FlowControlError | 0x04 => Ok SettingsTimeout | 0x05 => Ok StreamClosed
  | 0x06 => Ok FrameSizeError | 0x07 => Ok RefusedStream | 0x08 => Ok Cancel
  | 0x09 => Ok CompressionError | 0x0a => Ok ConnectError | 0x0b => Ok EnhanceYourCalm
  | 0x0c => Ok InadequateSecurity | 0x0d => Ok Http1_1Required
  | _ => Err (ConnectionError ProtocolError)
  end.

(** error codes survive the wire, and every other 32-bit value is refused
    with a connection error. *)
Theorem error_code_roundtrip (value : Z) (e : ErrorCode) :
  (ErrorCode_try_from value = Ok e ↔ value = into_code e) ∧
  (is_Ok (ErrorCode_try_from value) = false ↔ ¬ (0 ≤ value ≤ 0x0d)).
Proof.
  assert (value < 0 ∨ 0x0d < value ∨ value ∈ seqZ 0 14) as [H|[H|H]]
    by (rewrite elem_of_seqZ; lia).
  - destruct value as [|p|p]; [lia..|]. cbn. split; split; try done; [|lia..].
    intros E. destruct e; discriminate E.
  - assert (ErrorCode_try_from value = Err (ConnectionError ProtocolError)) as ->.
    { destruct value as [|p|p]; [lia| |lia].
      do 4 (try (destruct p as [p|p|]; [..|lia]; try reflexivity)); lia || reflexivity. }
    split; split; try done; [|lia..]. intros E. destruct e; cbn in E; lia.
  - apply list_elem_of_In in H. cbn in H.
    repeat destruct H as [<-|H]; [..|done];
      (split; split; intros E;
        [injection E as <-; reflexivity
        |destruct e; cbn in E; (reflexivity || discriminate E)
        |discriminate E
        |exfalso; lia]).
Qed.
