(* ===== verification/HpackInteger.v ===== *)
(** * HPACK integers

    Models [src/ylong_http/src/h2/hpack/integer.rs]: the byte-at-a-time
    [IntegerDecoder], with the checked arithmetic of [usize], and
    [IntegerEncoder].  [int_bytes] is the pseudocode of RFC 7541 section 5.1
    that the source quotes; the encoder refines it and the decoder inverts it. *)

From S2P Require Import Prelude H2Error.
#[local] Open Scope Z_scope.

(** ** Checked arithmetic on [usize] *)

Definition checked_shl (x k : Z) : option Z :=
  if k <? 64 then Some (wrap64 (Z.shiftl x k)) else None.
Definition checked_mul (x y : Z) : option Z :=
  if x * y <=? USIZE_MAX then Some (x * y) else None.
Definition checked_add (x y : Z) : option Z :=
  if x + y <=? USIZE_MAX then Some (x + y) else None.

(** ** Decoder *)

Record IntegerDecoder := mkIntegerDecoder { id_index : Z; id_shift : Z }.

(** [IntegerDecoder::first_byte]: [inl] is its [Ok], the integer; [inr] its
    [Err], the decoder that needs more bytes. *)
Definition first_byte (byte mask : Z) : Z + IntegerDecoder :=
  let index := Z.land byte mask in
  match index ?= mask with
  | Lt => inl index
  | _ => inr (mkIntegerDecoder index 1)
  end.

(** [IntegerDecoder::next_byte]: the decoder afterwards, and [inl] an error or
    [inr] the returned [Option<usize>]. *)
Definition next_byte (byte : Z) (d : IntegerDecoder) : IntegerDecoder * (H2Error + option Z) :=
  match (res ← checked_shl 1 (id_shift d - 1);
         res ← checked_mul res (Z.land byte 127);
         checked_add res (id_index d)) : option Z with
  | None => (d, inl (ConnectionError CompressionError))
  | Some index =>
      let d := mkIntegerDecoder index (id_shift d + 7) in
      if Z.land byte 128 =? 0 then (d, inr (Some index)) else (d, inr None)
  end.

(** ** Encoder *)

Inductive IntegerEncodeState := First | Other | Finish.

Record IntegerEncoder := mkIntegerEncoder {
  ie_i : Z; ie_mask : Z; ie_pre : Z; ie_state : IntegerEncodeState }.

Definition IntegerEncoder_new (i mask pre : Z) : IntegerEncoder :=
  mkIntegerEncoder i mask pre First.

(** [IntegerEncoder::next_byte]. *)
Definition IntegerEncoder_next_byte (e : IntegerEncoder) : IntegerEncoder * option Z :=
  let '(mkIntegerEncoder i mask pre state) := e in
  match state with
  | First =>
      if i <? mask then (mkIntegerEncoder i mask pre Finish, Some (Z.lor pre (wrap8 i)))
      else (mkIntegerEncoder (i - mask) mask pre Other, Some (Z.lor pre mask))
  | Other =>
      if 128 <=? i then
        (mkIntegerEncoder (Z.shiftr i 7) mask pre Other, Some (Z.lor (wrap8 (Z.land i 127)) 128))
      else (mkIntegerEncoder i mask pre Finish, Some (wrap8 (Z.land i 127)))
  | Finish => (e, None)
  end.

Definition IntegerEncoder_is_finish (e : IntegerEncoder) : bool :=
  match ie_state e with Finish => true | _ => false end.

(** ** Results of a resumable decoder

    [DecResult] of [representation/decoder.rs].  After [Decoded d rest] the
    buffer is [rest]; after [NeedMore] it is empty; after [Error] it is not
    used again. *)
Inductive DecResult (D S : Type) :=
  | Decoded (d : D) (rest : bytes)
  | NeedMore (s : S)
  | Error (e : H2Error).
Arguments Decoded {D S} d rest.
Arguments NeedMore {D S} s.
Arguments Error {D S} e.

(** The loop of [TrailingBytes::decode] and [LengthTrailingBytes::decode]. *)
Fixpoint next_bytes (d : IntegerDecoder) (buf : bytes) : DecResult Z IntegerDecoder :=
  match buf with
  | [] => NeedMore d
  | byte :: buf =>
      match next_byte byte d with
      | (d, inr None) => next_bytes d buf
      | (_, inr (Some index)) => Decoded index buf
      | (_, inl e) => Error e
      end
  end.

(** The two decoder calls in a row: the first byte, then the others. *)
Definition int_decode (mask : Z) (buf : bytes) : DecResult Z IntegerDecoder :=
  match buf with
  | [] => NeedMore (mkIntegerDecoder 0 1)
  | byte :: buf =>
      match first_byte byte mask with
      | inl index => Decoded index buf
      | inr d => next_bytes d buf
      end
  end.

(** ** RFC 7541 section 5.1 *)

(** The groups of seven bits, least significant first; ten groups are enough
    for 64 bits. *)
Fixpoint groups (fuel : nat) (i : Z) : bytes :=
  match fuel with
  | O => []
  | S fuel => if i <? 128 then [i] else (i mod 128 + 128) :: groups fuel (i / 128)
  end.

Definition int_bytes (i mask pre : Z) : bytes :=
  if i <? mask then [pre + i] else (pre + mask) :: groups 10 (i - mask).

(** Prefix patterns and masks that share no bit. *)
Definition prefix_ok (mask pre : Z) : Prop :=
  (∃ n, 1 ≤ n ≤ 8 ∧ mask = 2 ^ n - 1) ∧ is_byte pre ∧ Z.land pre mask = 0.

(** All bytes of an encoder, in order. *)
Fixpoint encoder_bytes (fuel : nat) (e : IntegerEncoder) : bytes :=
  match fuel with
  | O => []
  | S fuel =>
      match IntegerEncoder_next_byte e with
      | (e, Some b) => b :: encoder_bytes fuel e
      | (_, None) => []
      end
  end.

(** ** Lemmas *)

Lemma groups_unfold fuel i :
  groups (S fuel) i = if i <? 128 then [i] else (i mod 128 + 128) :: groups fuel (i / 128).
Proof. done. Qed.

Lemma land_128 b : is_byte b → Z.land b 128 = if b <? 128 then 0 else 128.
Proof.
  intros Hb. pose proof (Z.add_lor_land (b / 128 * 128) (b mod 128)) as H.
  assert (forallb (λ b, Z.land b 128 =? (if b <? 128 then 0 else 128)) (seqZ 0 256) = true)
    as Hall by (vm_compute; reflexivity).
  rewrite forallb_forall in Hall. apply Z.eqb_eq, Hall, list_elem_of_In, elem_of_seqZ.
  unfold is_byte in Hb. lia.
Qed.

Lemma land_127 b : Z.land b 127 = b mod 128.
Proof. apply (land_mask b 7). lia. Qed.

(** One continuation byte, when the arithmetic does not overflow. *)
Lemma next_byte_ok x k b :
  is_byte b → 0 ≤ x → 0 ≤ k → 7 * k < 64 → x + b mod 128 * 2 ^ (7 * k) ≤ USIZE_MAX →
  next_byte b (mkIntegerDecoder x (7 * k + 1)) =
    (mkIntegerDecoder (x + b mod 128 * 2 ^ (7 * k)) (7 * (k + 1) + 1),
     inr (if b <? 128 then Some (x + b mod 128 * 2 ^ (7 * k)) else None)).
Proof.
  intros Hb Hx Hk H7 Hmax. unfold next_byte, checked_shl, checked_mul, checked_add.
  cbn [id_index id_shift]. rewrite Z.add_simpl_r.
  destruct (Z.ltb_spec (7 * k) 64); [|lia]. cbn [mbind option_bind].
  pose proof (Z.pow_pos_nonneg 2 (7 * k)) as Hpos. pose proof (Z.mod_pos_bound b 128).
  assert (2 ^ (7 * k) < 2 ^ 64) as Hlt by (apply Z.pow_lt_mono_r; lia).
  unfold wrap64, U64. rewrite Z.shiftl_mul_pow2, Z.mul_1_l, Z.mod_small, land_127 by lia.
  destruct (Z.leb_spec (2 ^ (7 * k) * (b mod 128)) USIZE_MAX); [|nia]. cbn [mbind option_bind].
  destruct (Z.leb_spec (2 ^ (7 * k) * (b mod 128) + x) USIZE_MAX); [|nia].
  rewrite land_128 by done. rewrite (Z.mul_comm (2 ^ _)), (Z.add_comm (_ * _) x).
  replace (7 * k + 1 + 7) with (7 * (k + 1) + 1) by lia.
  by destruct (b <? 128).
Qed.

Lemma groups_step_small i : 0 ≤ i < 128 → i mod 128 = i ∧ is_byte i.
Proof. intros. split; [by apply Z.mod_small|unfold is_byte; lia]. Qed.

Lemma groups_step_big i : 128 ≤ i →
  is_byte (i mod 128 + 128) ∧ (i mod 128 + 128) mod 128 = i mod 128 ∧
  128 ≤ i mod 128 + 128 ∧ 1 ≤ i / 128.
Proof.
  intros Hi. pose proof (Z.mod_pos_bound i 128). split_and!; [unfold is_byte; lia| |lia|].
  - rewrite <- (Z.mul_1_l 128) at 2. rewrite Z.mod_add, Z.mod_mod by lia. done.
  - apply Z.div_le_lower_bound; lia.
Qed.

Lemma next_bytes_groups fuel i x k rest :
  0 ≤ i < 128 ^ Z.of_nat (S fuel) → 0 ≤ x → 0 ≤ k → 7 * k < 64 →
  x + i * 2 ^ (7 * k) ≤ USIZE_MAX →
  next_bytes (mkIntegerDecoder x (7 * k + 1)) (groups (S fuel) i ++ rest)
    = Decoded (x + i * 2 ^ (7 * k)) rest.
Proof.
  revert i x k. induction fuel as [|fuel IH]; intros i x k Hi Hx Hk H7 Hmax;
    rewrite groups_unfold; pose proof (Z.pow_pos_nonneg 2 (7 * k)) as Hpos;
    (destruct (Z.ltb_spec i 128) as [Hlt|Hge]; cbn [app next_bytes];
      [destruct (groups_step_small i) as [Hm Hb]; [lia|];
       rewrite next_byte_ok, Hm by (rewrite ?Hm; done);
       destruct (Z.ltb_spec i 128); [done|lia]|]).
  { change (128 ^ Z.of_nat 1) with 128 in Hi. lia. }
  destruct (groups_step_big i Hge) as (Hb & Hm & Hbig & Hdiv).
  pose proof (Z.div_mod i 128). pose proof (Z.mod_pos_bound i 128).
  rewrite next_byte_ok; [|done..|rewrite Hm; nia].
  destruct (Z.ltb_spec (i mod 128 + 128) 128); [lia|]. rewrite Hm.
  assert (2 ^ (7 * (k + 1)) = 128 * 2 ^ (7 * k)) as Hpow.
  { replace (7 * (k + 1)) with (7 + 7 * k) by lia. by rewrite Z.pow_add_r by lia. }
  assert (7 * (k + 1) < 64).
  { apply (Z.pow_lt_mono_r_iff 2); [lia..|]. rewrite Hpow. unfold USIZE_MAX in Hmax. nia. }
  rewrite IH; [f_equal; nia| |nia|lia|done|nia].
  split; [lia|]. apply Z.div_lt_upper_bound; [lia|].
  rewrite Nat2Z.inj_succ, Z.pow_succ_r in Hi by lia. lia.
Qed.

Lemma first_byte_prefix mask pre x :
  prefix_ok mask pre → 0 ≤ x ≤ mask → Z.land (pre + x) mask = x.
Proof.
  intros ((n & Hn & ->) & Hpre & Hd) Hx. rewrite land_mask in * by lia.
  rewrite <- Z.add_mod_idemp_l, Hd by lia. apply Z.mod_small. lia.
Qed.

Lemma groups_byte fuel i : 0 ≤ i → Forall is_byte (groups fuel i).
Proof.
  revert i. induction fuel as [|fuel IH]; intros i Hi; [constructor|].
  rewrite groups_unfold. destruct (Z.ltb_spec i 128).
  - repeat constructor; lia.
  - pose proof (Z.mod_pos_bound i 128). constructor; [unfold is_byte; lia|].
    apply IH, Z.div_pos; lia.
Qed.

Lemma encoder_groups fuel i mask pre :
  0 ≤ i < 128 ^ Z.of_nat (S fuel) →
  encoder_bytes (S (S fuel)) (mkIntegerEncoder i mask pre Other) = groups (S fuel) i.
Proof.
  revert i. induction fuel as [|fuel IH]; intros i Hi;
    rewrite groups_unfold; cbn [encoder_bytes IntegerEncoder_next_byte];
    rewrite land_127; pose proof (Z.mod_pos_bound i 128); rewrite wrap8_small by lia;
    destruct (Z.leb_spec 128 i), (Z.ltb_spec i 128); try lia;
    try (rewrite Z.mod_small by lia; reflexivity).
  f_equal.
  - apply lor_disjoint. rewrite Z.land_comm. apply (land_below 128 _ 7); done || lia.
  - rewrite Z.shiftr_div_pow2 by lia. change (2 ^ 7) with 128. apply IH.
    split; [apply Z.div_pos; lia|]. apply Z.div_lt_upper_bound; [lia|].
    rewrite Nat2Z.inj_succ, Z.pow_succ_r in Hi by lia. lia.
Qed.

Lemma usize_groups i : 0 ≤ i ≤ USIZE_MAX → 0 ≤ i < 128 ^ Z.of_nat 10.
Proof. unfold USIZE_MAX. intros. change (128 ^ Z.of_nat 10) with (2 ^ 70). lia. Qed.

Lemma prefix_room pre n : 1 ≤ n ≤ 8 → is_byte pre → Z.land pre (2 ^ n - 1) = 0 →
  pre + 2 ^ n ≤ 256.
Proof.
  intros Hn Hpre Hd. rewrite land_mask in Hd by lia.
  pose proof (Z.pow_pos_nonneg 2 n). pose proof (Z.pow_pos_nonneg 2 (8 - n)).
  pose proof (Z.div_mod pre (2 ^ n) ltac:(lia)) as E. rewrite Hd in E.
  assert (256 = 2 ^ n * 2 ^ (8 - n)).
  { rewrite <- Z.pow_add_r by lia. replace (n + (8 - n)) with 8 by lia. done. }
  unfold is_byte in Hpre.
  assert (pre / 2 ^ n < 2 ^ (8 - n)) by (apply (Z.mul_lt_mono_pos_l (2 ^ n)); lia).
  nia.
Qed.

Lemma encoder_int_bytes i mask pre :
  0 ≤ i ≤ USIZE_MAX → prefix_ok mask pre →
  encoder_bytes 12 (IntegerEncoder_new i mask pre) = int_bytes i mask pre.
Proof.
  intros Hi ((n & Hn & ->) & Hpre & Hd). unfold int_bytes, IntegerEncoder_new.
  assert (1 < 2 ^ n ≤ 256) as Hpow.
  { split; [apply Z.pow_gt_1; lia|]. change 256 with (2 ^ 8). apply Z.pow_le_mono_r; lia. }
  cbn [encoder_bytes IntegerEncoder_next_byte].
  destruct (Z.ltb_spec i (2 ^ n - 1)); cbn [encoder_bytes IntegerEncoder_next_byte].
  - by rewrite wrap8_small, lor_disjoint by (lia || apply (land_below pre i n); lia).
  - rewrite lor_disjoint by done. f_equal. apply (encoder_groups 9). apply usize_groups. lia.
Qed.

Lemma length_groups fuel i : (length (groups fuel i) ≤ fuel)%nat.
Proof.
  revert i. induction fuel as [|fuel IH]; intros i; [done|]. rewrite groups_unfold.
  destruct (i <? 128); cbn [length]; [lia|]. specialize (IH (i / 128)). lia.
Qed.

Lemma int_decode_bytes i mask pre rest :
  0 ≤ i ≤ USIZE_MAX → prefix_ok mask pre →
  int_decode mask (int_bytes i mask pre ++ rest) = Decoded i rest.
Proof.
  intros Hi Hp. pose proof Hp as ((n & Hn & Hmask) & Hpre & Hd). unfold int_bytes, first_byte.
  assert (0 ≤ mask) by (rewrite Hmask; pose proof (Z.pow_pos_nonneg 2 n); lia).
  destruct (Z.ltb_spec i mask) as [Hlt|Hge]; cbn [app int_decode]; unfold first_byte;
    rewrite (first_byte_prefix mask pre _ Hp) by lia.
  - by rewrite (proj2 (Z.compare_lt_iff _ _) Hlt).
  - rewrite Z.compare_refl. change 1 with (7 * 0 + 1).
    rewrite (next_bytes_groups 9); [f_equal; lia|apply usize_groups; lia|lia..].
Qed.

Lemma int_bytes_byte i mask pre :
  0 ≤ i ≤ USIZE_MAX → prefix_ok mask pre → Forall is_byte (int_bytes i mask pre).
Proof.
  intros Hi ((n & Hn & ->) & Hpre & Hd). pose proof (prefix_room pre n Hn Hpre Hd).
  assert (∀ x, 0 ≤ x < 2 ^ n → is_byte (pre + x)) as Hbyte by (unfold is_byte in *; lia).
  pose proof (Z.pow_pos_nonneg 2 n). unfold int_bytes.
  destruct (Z.ltb_spec i (2 ^ n - 1)).
  - repeat constructor; apply Hbyte; lia.
  - constructor; [apply Hbyte; lia|apply groups_byte; lia].
Qed.

(** [IntegerEncoder] emits the encoding of RFC 7541 section 5.1, for every
    [usize] and every prefix, in at most eleven bytes, and then stops. *)
Theorem integer_encoder_spec (i mask pre : Z)
    (Hi : 0 ≤ i ≤ USIZE_MAX) (Hp : prefix_ok mask pre) :
  encoder_bytes 12 (IntegerEncoder_new i mask pre) = int_bytes i mask pre ∧
  (length (int_bytes i mask pre) ≤ 11)%nat ∧ Forall is_byte (int_bytes i mask pre).
Proof.
  split; [by apply encoder_int_bytes|]. split; [|by apply int_bytes_byte].
  unfold int_bytes. destruct (i <? mask); cbn [length]; [lia|].
  pose proof (length_groups 10 (i - mask)). lia.
Qed.

Lemma prefix_ok_63_64 : prefix_ok 63 64.
Proof. split; [exists 6; lia|]. split; [unfold is_byte; lia|reflexivity]. Qed.

Lemma integer_encoder_spec_witness :
  encoder_bytes 12 (IntegerEncoder_new 1337 63 64) = [127; 250; 9].
Proof.
  refine (eq_trans (proj1 (integer_encoder_spec 1337 63 64 _ prefix_ok_63_64)) _);
    [unfold USIZE_MAX; lia|vm_compute; reflexivity].
Defined.

(** decoding inverts encoding: reading what [IntegerEncoder] emits for any
    [usize], followed by any other bytes, gives back the integer and stops at
    the first of those. *)
Theorem integer_roundtrip (i mask pre : Z) (rest : bytes)
    (Hi : 0 ≤ i ≤ USIZE_MAX) (Hp : prefix_ok mask pre) :
  int_decode mask (encoder_bytes 12 (IntegerEncoder_new i mask pre) ++ rest) = Decoded i rest.
Proof. rewrite encoder_int_bytes by done. by apply (int_decode_bytes i mask pre). Qed.

Lemma integer_roundtrip_witness :
  int_decode 63 (encoder_bytes 12 (IntegerEncoder_new 1337 63 64) ++ [1; 2]) = Decoded 1337 [1; 2].
Proof.
  refine (integer_roundtrip 1337 63 64 [1; 2] _ prefix_ok_63_64). unfold USIZE_MAX. lia.
Defined.

(** [next_byte] either fails or keeps the index a [usize]. *)
Lemma next_byte_cases x k b :
  is_byte b → 0 ≤ x ≤ USIZE_MAX → 0 ≤ k →
  next_byte b (mkIntegerDecoder x (7 * k + 1)) =
    (mkIntegerDecoder x (7 * k + 1), inl (ConnectionError CompressionError)) ∨
  (7 * k < 64 ∧ ∃ y o, 0 ≤ y ≤ USIZE_MAX ∧ (o = None ∨ o = Some y) ∧
    next_byte b (mkIntegerDecoder x (7 * k + 1)) = (mkIntegerDecoder y (7 * (k + 1) + 1), inr o)).
Proof.
  intros Hb Hx Hk. unfold next_byte, checked_shl, checked_mul, checked_add.
  cbn [id_index id_shift]. rewrite Z.add_simpl_r.
  destruct (Z.ltb_spec (7 * k) 64); [|by left]. cbn [mbind option_bind].
  destruct (_ <=? USIZE_MAX) eqn:E1; [|by left]. cbn [mbind option_bind].
  destruct (_ + x <=? USIZE_MAX) eqn:E2; [|by left]. right. bool_to_prop.
  split; [done|].
  assert (0 ≤ wrap64 (Z.shiftl 1 (7 * k))) by (unfold wrap64; apply Z.mod_pos_bound; done).
  assert (0 ≤ Z.land b 127) by (apply Z.land_nonneg; lia).
  replace (7 * k + 1 + 7) with (7 * (k + 1) + 1) by lia.
  exists (wrap64 (Z.shiftl 1 (7 * k)) * Z.land b 127 + x).
  destruct (Z.land b 128 =? 0); [eexists (Some _)|exists None];
    (split; [nia|]; split; [auto|done]).
Qed.

Lemma next_bytes_bound x k buf :
  0 ≤ x ≤ USIZE_MAX → Forall is_byte buf → (11 ≤ length buf + k)%nat → (k ≤ 10)%nat →
  match next_bytes (mkIntegerDecoder x (7 * Z.of_nat k + 1)) buf with
  | Decoded v rest => 0 ≤ v ≤ USIZE_MAX ∧ (length buf + k ≤ length rest + 10)%nat
  | NeedMore _ => False
  | Error e => e = ConnectionError CompressionError
  end.
Proof.
  intros Hx Hbuf. revert x k Hx. induction Hbuf as [|b buf Hb Hbuf IH]; intros x k Hx Hl Hk.
  { cbn in Hl. lia. }
  cbn [next_bytes]. destruct (next_byte_cases x (Z.of_nat k) b Hb Hx) as
    [->|(H7 & y & o & Hy & Ho & ->)]; [lia|done|].
  destruct Ho as [-> | ->]; [|cbn [length]; lia].
  replace (Z.of_nat k + 1) with (Z.of_nat (S k)) by lia.
  cbn [length] in Hl. specialize (IH y (S k) Hy ltac:(lia) ltac:(lia)).
  destruct (next_bytes _ buf); [|done..]. cbn [length]. lia.
Qed.

(** an integer on the wire is at most ten continuation bytes: given eleven,
    the decoder has produced a [usize] or refused; it never asks for more. *)
Theorem integer_decoder_bound (x : Z) (buf : bytes)
    (Hx : 0 ≤ x ≤ USIZE_MAX) (Hbuf : Forall is_byte buf) (Hlen : (11 ≤ length buf)%nat) :
  match next_bytes (mkIntegerDecoder x 1) buf with
  | Decoded v rest => 0 ≤ v ≤ USIZE_MAX ∧ (length buf ≤ length rest + 10)%nat
  | NeedMore _ => False
  | Error e => e = ConnectionError CompressionError
  end.
Proof.
  pose proof (next_bytes_bound x 0 buf Hx Hbuf) as H. rewrite Nat.add_0_r in H.
  apply H; lia.
Qed.

Lemma integer_decoder_bound_witness :
  next_bytes (mkIntegerDecoder 31 1) (replicate 11 255) = Error (ConnectionError CompressionError) ∧
  match next_bytes (mkIntegerDecoder 31 1) (replicate 11 255) with
  | Decoded v rest => 0 ≤ v ≤ USIZE_MAX ∧ (11 ≤ length rest + 10)%nat
  | NeedMore _ => False
  | Error e => e = ConnectionError CompressionError
  end.
Proof.
  split; [vm_compute; reflexivity|].
  refine (integer_decoder_bound 31 (replicate 11 255) _ _ _);
    [unfold USIZE_MAX; lia|repeat constructor; cbv; discriminate|cbn; lia].
Defined.
