(* ===== verification/HpackTable.v ===== *)
(** * HPACK header tables

    Models [src/ylong_http/src/h2/hpack/table.rs]: the static table, the dynamic
    table with its eviction, and the searcher over both that the encoder and the
    decoder share. *)

From S2P Require Import Prelude.
#[local] Open Scope Z_scope.

(** ** Data *)

Inductive Header := Authority | Method | Path | Scheme | Status | Other (s : bytes).

Inductive TableIndex := IHeader (i : Z) | IHeaderName (i : Z).

#[export] Instance Header_eq_dec : EqDecision Header.
Proof. solve_decision. Defined.
#[export] Instance TableIndex_eq_dec : EqDecision TableIndex.
Proof. solve_decision. Defined.

(** [Header::len]. *)
Definition Header_len (h : Header) : Z :=
  match h with
  | Authority => 10
  | Method => 7
  | Path => 5
  | Scheme => 7
  | Status => 7
  | Other s => len s
  end.

(** [Header::into_string]. *)
Definition into_string (h : Header) : bytes :=
  match h with
  | Authority => bs ":authority"
  | Method => bs ":method"
  | Path => bs ":path"
  | Scheme => bs ":scheme"
  | Status => bs ":status"
  | Other s => s
  end.

(** ** Static table *)

(** [StaticTable::header_name]. *)
Definition static_header_name (index : Z) : option Header :=
  match index with
  | 1 => Some Authority
  | 2 | 3 => Some Method
  | 4 | 5 => Some Path
  | 6 | 7 => Some Scheme
  | 8 | 9 | 10 | 11 | 12 | 13 | 14 => Some Status
  | 15 => Some (Other (bs "accept-charset"))
  | 16 => Some (Other (bs "accept-encoding"))
  | 17 => Some (Other (bs "accept-language"))
  | 18 => Some (Other (bs "accept-ranges"))
  | 19 => Some (Other (bs "accept"))
  | 20 => Some (Other (bs "access-control-allow-origin"))
  | 21 => Some (Other (bs "age"))
  | 22 => Some (Other (bs "allow"))
  | 23 => Some (Other (bs "authorization"))
  | 24 => Some (Other (bs "cache-control"))
  | 25 => Some (Other (bs "content-disposition"))
  | 26 => Some (Other (bs "content-encoding"))
  | 27 => Some (Other (bs "content-language"))
  | 28 => Some (Other (bs "content-length"))
  | 29 => Some (Other (bs "content-location"))
  | 30 => Some (Other (bs "content-range"))
  | 31 => Some (Other (bs "content-type"))
  | 32 => Some (Other (bs "cookie"))
  | 33 => Some (Other (bs "date"))
  | 34 => Some (Other (bs "etag"))
  | 35 => Some (Other (bs "expect"))
  | 36 => Some (Other (bs "expires"))
  | 37 => Some (Other (bs "from"))
  | 38 => Some (Other (bs "host"))
  | 39 => Some (Other (bs "if-match"))
  | 40 => Some (Other (bs "if-modified-since"))
  | 41 => Some (Other (bs "if-none-match"))
  | 42 => Some (Other (bs "if-range"))
  | 43 => Some (Other (bs "if-unmodified-since"))
  | 44 => Some (Other (bs "last-modified"))
  | 45 => Some (Other (bs "link"))
  | 46 => Some (Other (bs "location"))
  | 47 => Some (Other (bs "max-forwards"))
  | 48 => Some (Other (bs "proxy-authenticate"))
  | 49 => Some (Other (bs "proxy-authorization"))
  | 50 => Some (Other (bs "range"))
  | 51 => Some (Other (bs "referer"))
  | 52 => Some (Other (bs "refresh"))
  | 53 => Some (Other (bs "retry-after"))
  | 54 => Some (Other (bs "server"))
  | 55 => Some (Other (bs "set-cookie"))
  | 56 => Some (Other (bs "strict-transport-security"))
  | 57 => Some (Other (bs "transfer-encoding"))
  | 58 => Some (Other (bs "user-agent"))
  | 59 => Some (Other (bs "vary"))
  | 60 => Some (Other (bs "via"))
  | 61 => Some (Other (bs "www-authenticate"))
  | _ => None
  end.

(** [StaticTable::header]. *)
Definition static_header (index : Z) : option (Header * bytes) :=
  match index with
  | 2 => Some (Method, bs "GET")
  | 3 => Some (Method, bs "POST")
  | 4 => Some (Path, bs "/")
  | 5 => Some (Path, bs "/index.html")
  | 6 => Some (Scheme, bs "http")
  | 7 => Some (Scheme, bs "https")
  | 8 => Some (Status, bs "200")
  | 9 => Some (Status, bs "204")
  | 10 => Some (Status, bs "206")
  | 11 => Some (Status, bs "304")
  | 12 => Some (Status, bs "400")
  | 13 => Some (Status, bs "404")
  | 14 => Some (Status, bs "500")
  | 16 => Some (Other (bs "accept-encoding"), bs "gzip, deflate")
  | _ => None
  end.

(** The arms of the [match] of [StaticTable::index_headers], in order: the key,
    the value ([None] for the wildcard) and the result. *)
Definition index_headers_arms : list (string * option string * TableIndex) :=
  [("accept-charset", None, IHeaderName 15);
   ("accept-encoding", Some "gzip, deflate", IHeader 16);
   ("accept-encoding", None, IHeaderName 16);
   ("accept-language", None, IHeaderName 17);
   ("accept-ranges", None, IHeaderName 18);
   ("accept", None, IHeaderName 19);
   ("access-control-allow-origin", None, IHeaderName 20);
   ("age", None, IHeaderName 21);
   ("allow", None, IHeaderName 22);
   ("authorization", None, IHeaderName 23);
   ("cache-control", None, IHeaderName 24);
   ("content-disposition", None, IHeaderName 25);
   ("content-encoding", None, IHeaderName 26);
   ("content-language", None, IHeaderName 27);
   ("content-length", None, IHeaderName 28);
   ("content-location", None, IHeaderName 29);
   ("content-range", None, IHeaderName 30);
   ("content-type", None, IHeaderName 31);
   ("cookie", None, IHeaderName 32);
   ("date", None, IHeaderName 33);
   ("etag", None, IHeaderName 34);
   ("expect", None, IHeaderName 35);
   ("expires", None, IHeaderName 36);
   ("from", None, IHeaderName 37);
   ("host", None, IHeaderName 38);
   ("if-match", None, IHeaderName 39);
   ("if-modified-since", None, IHeaderName 40);
   ("if-none-match", None, IHeaderName 41);
   ("if-range", None, IHeaderName 42);
   ("if-unmodified-since", None, IHeaderName 43);
   ("last-modified", None, IHeaderName 44);
   ("link", None, IHeaderName 45);
   ("location", None, IHeaderName 46);
   ("max-forwards", None, IHeaderName 47);
   ("proxy-authenticate", None, IHeaderName 48);
   ("proxy-authorization", None, IHeaderName 49);
   ("range", None, IHeaderName 50);
   ("referer", None, IHeaderName 51);
   ("refresh", None, IHeaderName 52);
   ("retry-after", None, IHeaderName 53);
   ("server", None, IHeaderName 54);
   ("set-cookie", None, IHeaderName 55);
   ("strict-transport-security", None, IHeaderName 56);
   ("transfer-encoding", None, IHeaderName 57);
   ("user-agent", None, IHeaderName 58);
   ("vary", None, IHeaderName 59);
   ("via", None, IHeaderName 60);
   ("www-authenticate", None, IHeaderName 61)].

(** The first arm that matches. *)
Fixpoint match_arms (arms : list (string * option string * TableIndex)) (key value : bytes) :
    option TableIndex :=
  match arms with
  | [] => None
  | (k, v, r) :: arms =>
      if bool_decide (key = bs k) && from_option (λ v, bool_decide (value = bs v)) true v
      then Some r else match_arms arms key value
  end.

(** [StaticTable::index_headers]. *)
Definition index_headers (key value : bytes) : option TableIndex :=
  match_arms index_headers_arms key value.

(** [StaticTable::index]. *)
Definition static_index (header : Header) (value : bytes) : option TableIndex :=
  match header with
  | Authority => Some (IHeaderName 1)
  | Method =>
      if decide (value = bs "GET") then Some (IHeader 2)
      else if decide (value = bs "POST") then Some (IHeader 3)
      else Some (IHeaderName 2)
  | Path =>
      if decide (value = bs "/") then Some (IHeader 4)
      else if decide (value = bs "/index.html") then Some (IHeader 5)
      else Some (IHeaderName 4)
  | Scheme =>
      if decide (value = bs "http") then Some (IHeader 6)
      else if decide (value = bs "https") then Some (IHeader 7)
      else Some (IHeaderName 6)
  | Status =>
      if decide (value = bs "200") then Some (IHeader 8)
      else if decide (value = bs "204") then Some (IHeader 9)
      else if decide (value = bs "206") then Some (IHeader 10)
      else if decide (value = bs "304") then Some (IHeader 11)
      else if decide (value = bs "400") then Some (IHeader 12)
      else if decide (value = bs "404") then Some (IHeader 13)
      else if decide (value = bs "500") then Some (IHeader 14)
      else Some (IHeaderName 8)
  | Other s => index_headers s value
  end.

(** ** Dynamic table *)

(** [queue] is newest first, as the [VecDeque]. *)
Record DynamicTable := mkDynamicTable {
  dt_queue : list (Header * bytes); dt_curr_size : Z; dt_max_size : Z }.

Definition with_max_size (max_size : Z) : DynamicTable := mkDynamicTable [] 0 max_size.

Definition entry_size (e : Header * bytes) : Z := Header_len e.1 + len e.2 + 32.

(** [DynamicTable::header_name] and [header]: [VecDeque::get]. *)
Definition dt_header (t : DynamicTable) (index : Z) : option (Header * bytes) :=
  dt_queue t !! Z.to_nat index.
Definition dt_header_name (t : DynamicTable) (index : Z) : option Header :=
  fst <$> dt_header t index.

(** The loop of [fit_size], on the queue read from the back: [pop_back] while
    the table is too big and not empty. *)
Fixpoint pop_back_while (back : list (Header * bytes)) (curr max : Z) :
    list (Header * bytes) * Z :=
  match back with
  | [] => ([], curr)
  | e :: back' =>
      if max <? curr then pop_back_while back' (curr - entry_size e) max else (back, curr)
  end.

Definition fit_size (t : DynamicTable) : DynamicTable :=
  let '(back, curr) := pop_back_while (rev (dt_queue t)) (dt_curr_size t) (dt_max_size t) in
  mkDynamicTable (rev back) curr (dt_max_size t).

(** [DynamicTable::update]. *)
Definition dt_update (t : DynamicTable) (header : Header) (value : bytes) : DynamicTable :=
  fit_size (mkDynamicTable ((header, value) :: dt_queue t)
    (dt_curr_size t + entry_size (header, value)) (dt_max_size t)).

(** [DynamicTable::update_size]. *)
Definition dt_update_size (t : DynamicTable) (max_size : Z) : DynamicTable :=
  fit_size (mkDynamicTable (dt_queue t) (dt_curr_size t) max_size).

(** The loop of [DynamicTable::index]: [n] counts, [index] remembers the first
    entry with the same name. *)
Fixpoint dt_index_from (q : list (Header * bytes)) (n : Z) (index : option TableIndex)
    (header : Header) (value : bytes) : option TableIndex :=
  match q with
  | [] => index
  | (h, v) :: q =>
      if decide (header = h) then
        if decide (value = v) then Some (IHeader n)
        else match index with
             | None => dt_index_from q (n + 1) (Some (IHeaderName n)) header value
             | Some _ => dt_index_from q (n + 1) index header value
             end
      else dt_index_from q (n + 1) index header value
  end.

Definition dt_index (t : DynamicTable) (header : Header) (value : bytes) : option TableIndex :=
  dt_index_from (dt_queue t) 0 None header value.

(** ** Both tables *)

(** [TableSearcher::search_header_name]. *)
Definition search_header_name (t : DynamicTable) (index : Z) : option Header :=
  if index <=? 61 then static_header_name index else dt_header_name t (index - 62).

(** [TableSearcher::search_header]. *)
Definition search_header (t : DynamicTable) (index : Z) : option (Header * bytes) :=
  if index <=? 61 then static_header index else dt_header t (index - 62).

(** [TableSearcher::index].  The fourth arm turns a match on the name alone,
    found in the dynamic table, into [IHeader], as the source does. *)
Definition searcher_index (t : DynamicTable) (header : Header) (value : bytes) :
    option TableIndex :=
  match static_index header value, dt_index t header value with
  | Some (IHeader i), _ => Some (IHeader i)
  | _, Some (IHeader i) => Some (IHeader (i + 62))
  | Some (IHeaderName i), _ => Some (IHeaderName i)
  | _, Some (IHeaderName i) => Some (IHeader (i + 62))
  | _, _ => None
  end.

(** ** Specification of eviction *)

Definition total_size (q : list (Header * bytes)) : Z := foldr (λ e n, entry_size e + n) 0 q.

(** The longest prefix of [q] that fits in [max]. *)
Fixpoint longest_fit (max : Z) (q : list (Header * bytes)) : list (Header * bytes) :=
  match q with
  | [] => []
  | e :: q => if entry_size e <=? max then e :: longest_fit (max - entry_size e) q else []
  end.

(** [curr_size] is the size of the entries. *)
Definition table_inv (t : DynamicTable) : Prop := dt_curr_size t = total_size (dt_queue t).

(** ** Lemmas *)

Lemma Header_len_nonneg h : 0 ≤ Header_len h.
Proof. destruct h; cbn; try lia. apply len_nonneg. Qed.

Lemma entry_size_pos e : 32 ≤ entry_size e.
Proof.
  unfold entry_size. pose proof (Header_len_nonneg e.1). pose proof (len_nonneg e.2). lia.
Qed.

Lemma total_size_nonneg q : 0 ≤ total_size q.
Proof.
  induction q as [|e q IH]; cbn; [done|]. pose proof (entry_size_pos e).
  unfold total_size in IH. lia.
Qed.

Lemma total_size_app q r : total_size (q ++ r) = total_size q + total_size r.
Proof.
  induction q as [|e q IH]; cbn [app total_size foldr]; [done|].
  unfold total_size in *. lia.
Qed.

Lemma total_size_longest_fit max q : 0 ≤ max → total_size (longest_fit max q) ≤ max.
Proof.
  revert max. induction q as [|e q IH]; intros max Hmax; cbn; [done|].
  destruct (Z.leb_spec (entry_size e) max); cbn; [|done].
  specialize (IH (max - entry_size e)). unfold total_size in IH. lia.
Qed.

Lemma longest_fit_all max q : total_size q ≤ max → longest_fit max q = q.
Proof.
  revert max. induction q as [|e q IH]; intros max H; cbn; [done|].
  cbn in H. pose proof (total_size_nonneg q). unfold total_size in H0.
  destruct (Z.leb_spec (entry_size e) max); [|lia]. f_equal. apply IH. unfold total_size. lia.
Qed.

Lemma longest_fit_snoc max q e :
  max < total_size (q ++ [e]) → longest_fit max (q ++ [e]) = longest_fit max q.
Proof.
  revert max. induction q as [|e' q IH]; intros max H; cbn.
  - cbn in H. destruct (Z.leb_spec (entry_size e) max); [lia|done].
  - destruct (Z.leb_spec (entry_size e') max); [|done]. f_equal. apply IH.
    cbn in H. unfold total_size. lia.
Qed.

Lemma pop_back_while_spec q max :
  pop_back_while (rev q) (total_size q) max =
    (rev (longest_fit max q), total_size (longest_fit max q)).
Proof.
  induction q as [|e q IH] using rev_ind; [done|].
  rewrite rev_app_distr. cbn [rev app pop_back_while].
  destruct (Z.ltb_spec max (total_size (q ++ [e]))).
  - rewrite longest_fit_snoc by done. rewrite total_size_app. cbn [total_size foldr].
    replace (total_size q + (entry_size e + 0) - entry_size e) with (total_size q) by lia.
    apply IH.
  - rewrite longest_fit_all by done. by rewrite rev_app_distr.
Qed.

Lemma fit_size_spec t :
  table_inv t →
  fit_size t = mkDynamicTable (longest_fit (dt_max_size t) (dt_queue t))
    (total_size (longest_fit (dt_max_size t) (dt_queue t))) (dt_max_size t).
Proof.
  intros H. unfold fit_size. rewrite H, pop_back_while_spec. by rewrite rev_involutive.
Qed.

(** inserting an entry or changing the size limit keeps exactly the longest
    run of newest entries that fits, and [curr_size] stays their total size,
    within the limit. *)
Theorem dynamic_table_refines (t : DynamicTable) (h : Header) (v : bytes) (m : Z)
    (Hinv : table_inv t) (Hmax : 0 ≤ dt_max_size t) (Hm : 0 ≤ m) :
  (dt_queue (dt_update t h v) = longest_fit (dt_max_size t) ((h, v) :: dt_queue t) ∧
   table_inv (dt_update t h v) ∧ dt_max_size (dt_update t h v) = dt_max_size t ∧
   dt_curr_size (dt_update t h v) ≤ dt_max_size t) ∧
  (dt_queue (dt_update_size t m) = longest_fit m (dt_queue t) ∧
   table_inv (dt_update_size t m) ∧ dt_max_size (dt_update_size t m) = m ∧
   dt_curr_size (dt_update_size t m) ≤ m).
Proof.
  unfold dt_update, dt_update_size. split; rewrite fit_size_spec.
  - split_and!; [done..|]. by apply total_size_longest_fit.
  - unfold table_inv in *. cbn. unfold total_size in *. lia.
  - split_and!; [done..|]. by apply total_size_longest_fit.
  - done.
Qed.

Definition two_entries : DynamicTable :=
  dt_update (dt_update (with_max_size 80) (Other (bs "a")) (bs "1")) (Other (bs "b")) (bs "2").

Lemma dynamic_table_refines_witness :
  dt_queue two_entries = [(Other (bs "b"), bs "2"); (Other (bs "a"), bs "1")] ∧
  dt_queue (dt_update two_entries (Other (bs "c")) (bs "3")) =
    [(Other (bs "c"), bs "3"); (Other (bs "b"), bs "2")].
Proof.
  split; [vm_compute; reflexivity|].
  refine (eq_trans (proj1 (proj1 (dynamic_table_refines two_entries (Other (bs "c")) (bs "3") 0
    _ _ _))) _); vm_compute; first [reflexivity | discriminate].
Defined.

(** ** The searcher *)

Definition arm_ok (a : string * option string * TableIndex) : bool :=
  match a with
  | (k, Some v, IHeader i) => bool_decide (static_header i = Some (Other (bs k), bs v))
  | (k, None, IHeaderName i) => bool_decide (static_header_name i = Some (Other (bs k)))
  | _ => false
  end && match a.2 with IHeader i | IHeaderName i => (0 <=? i) && (i <=? 61) end.

Lemma match_arms_sound arms key value r :
  forallb arm_ok arms = true → match_arms arms key value = Some r →
  match r with
  | IHeader i => static_header i = Some (Other key, value) ∧ 0 ≤ i ≤ 61
  | IHeaderName i => static_header_name i = Some (Other key) ∧ 0 ≤ i ≤ 61
  end.
Proof.
  induction arms as [|[[k v] r'] arms IH]; [done|]. cbn [forallb match_arms].
  intros H. apply andb_true_iff in H as [Ha Harms].
  destruct (bool_decide (key = bs k) && _) eqn:E; [|by apply IH].
  intros [= ->]. apply andb_true_iff in E as [Ek Ev]. apply bool_decide_eq_true in Ek as ->.
  unfold arm_ok in Ha. cbn in Ha. apply andb_true_iff in Ha as [Ha Hi].
  destruct v as [v|], r as [i|i]; try done; apply bool_decide_eq_true in Ha; bool_to_prop.
  - apply bool_decide_eq_true in Ev as ->. done.
  - done.
Qed.

(** The static index is right about the static table. *)
Lemma static_index_sound h v r :
  static_index h v = Some r →
  match r with
  | IHeader i => static_header i = Some (h, v) ∧ 0 ≤ i ≤ 61
  | IHeaderName i => static_header_name i = Some h ∧ 0 ≤ i ≤ 61
  end.
Proof.
  destruct h; cbn [static_index].
  6: { apply match_arms_sound. vm_compute. reflexivity. }
  all: repeat case_decide; subst; intros [= <-]; cbn; (split; [done|lia]).
Qed.

(** What the loop over the dynamic table finds. *)
Lemma dt_index_from_spec q n index h v :
  match dt_index_from q n index h v with
  | Some (IHeader i) =>
      index = Some (IHeader i) ∨ n ≤ i ∧ q !! Z.to_nat (i - n) = Some (h, v)
  | Some (IHeaderName i) =>
      index = Some (IHeaderName i) ∨
      n ≤ i ∧ ∃ v', q !! Z.to_nat (i - n) = Some (h, v') ∧ v' ≠ v
  | None => index = None ∧ ∀ v', (h, v') ∉ q
  end.
Proof.
  revert n index. induction q as [|[h' v'] q IH]; intros n index; cbn [dt_index_from].
  { destruct index as [[]|]; eauto. split; [done|]. intros v' H. by apply not_elem_of_nil in H. }
  assert (∀ i, n + 1 ≤ i → ((h', v') :: q) !! Z.to_nat (i - n) = q !! Z.to_nat (i - (n + 1))) as Hs.
  { intros i Hi. replace (Z.to_nat (i - n)) with (S (Z.to_nat (i - (n + 1)))) by lia. done. }
  assert (∀ index', (∀ v'', (h, v'') ∉ (h', v') :: q ↔ (h, v'') ∉ q) ∨ index' ≠ None →
    (∀ j, index' = Some j → index = Some j ∨ (j = IHeaderName n ∧ h = h' ∧ v' ≠ v)) →
    (index' = None → index = None) →
    match dt_index_from q (n + 1) index' h v with
    | Some (IHeader i) =>
        index = Some (IHeader i) ∨ n ≤ i ∧ ((h', v') :: q) !! Z.to_nat (i - n) = Some (h, v)
    | Some (IHeaderName i) =>
        index = Some (IHeaderName i) ∨
        n ≤ i ∧ ∃ v'', ((h', v') :: q) !! Z.to_nat (i - n) = Some (h, v'') ∧ v'' ≠ v
    | None => index = None ∧ ∀ v'', (h, v'') ∉ (h', v') :: q
    end) as Hstep.
  { intros index' Hn Hj Hnone. specialize (IH (n + 1) index').
    destruct (dt_index_from q (n + 1) index' h v) as [[i|i]|].
    - destruct IH as [IH|[Hi IH]]; [|right; rewrite Hs by lia; split; [lia|done]].
      destruct (Hj _ IH) as [?|[? _]]; [by left|done].
    - destruct IH as [IH|[Hi IH]]; [|right; rewrite Hs by lia; split; [lia|done]].
      destruct (Hj _ IH) as [?|([= ->] & -> & ?)]; [by left|right]. split; [lia|].
      rewrite Z.sub_diag. eauto.
    - destruct IH as [IH1 IH2]. split; [auto|]. intros v''. destruct Hn as [Hn|Hn]; [|done].
      apply Hn, IH2. }
  case_decide as Eh; [subst h'; case_decide as Ev|].
  - subst v'. right. split; [lia|]. by rewrite Z.sub_diag.
  - destruct index as [j|]; apply Hstep; try done; [by right|intros j' Hj'; by left|by right|].
    intros j [= <-]. eauto.
  - apply Hstep; [left|naive_solver|done]. intros v''. rewrite elem_of_cons. naive_solver.
Qed.

Lemma search_header_dynamic t i :
  0 ≤ i → search_header t (i + 62) = dt_queue t !! Z.to_nat i ∧
  search_header_name t (i + 62) = fst <$> dt_queue t !! Z.to_nat i.
Proof.
  intros Hi. unfold search_header, search_header_name, dt_header_name, dt_header.
  destruct (Z.leb_spec (i + 62) 61); [lia|]. by rewrite Z.add_simpl_r.
Qed.

Lemma search_header_static t i :
  i ≤ 61 → search_header t i = static_header i ∧ search_header_name t i = static_header_name i.
Proof.
  intros Hi. unfold search_header, search_header_name. by destruct (Z.leb_spec i 61); [|lia].
Qed.

(** The only way for an index to be wrong: the name is known to the dynamic
    table alone, and only with other values. *)
Definition name_only_dynamic (t : DynamicTable) (h : Header) (v : bytes) : bool :=
  match static_index h v, dt_index t h v with
  | None, Some (IHeaderName _) => true
  | _, _ => false
  end.

Lemma searcher_index_cases (t : DynamicTable) (h : Header) (v : bytes) :
  match searcher_index t h v with
  | Some (IHeader i) =>
      if name_only_dynamic t h v
      then ∃ v', v' ≠ v ∧ search_header t i = Some (h, v')
      else search_header t i = Some (h, v)
  | Some (IHeaderName i) => search_header_name t i = Some h
  | None => static_index h v = None ∧ ∀ v', (h, v') ∉ dt_queue t
  end.
Proof.
  unfold searcher_index, name_only_dynamic, dt_index.
  pose proof (static_index_sound h v) as Hs.
  pose proof (dt_index_from_spec (dt_queue t) 0 None h v) as Hd.
  destruct (static_index h v) as [[i|i]|] eqn:Es.
  - destruct (Hs _ eq_refl) as [E Hi]. destruct (dt_index_from _ _ _ _ _) as [[]|];
      by rewrite (proj1 (search_header_static t i ltac:(lia))).
  - destruct (Hs _ eq_refl) as [E Hi].
    destruct (dt_index_from _ _ _ _ _) as [[j|j]|];
      [|by rewrite (proj2 (search_header_static t i ltac:(lia)))..].
    destruct Hd as [?|[Hj Hd]]; [done|].
    rewrite (proj1 (search_header_dynamic t j Hj)), <- Hd. f_equal. lia.
  - destruct (dt_index_from _ _ _ _ _) as [[j|j]|].
    + destruct Hd as [?|[Hj Hd]]; [done|].
      rewrite (proj1 (search_header_dynamic t j Hj)), <- Hd. f_equal. lia.
    + destruct Hd as [?|(Hj & v' & Hd & Hv)]; [done|]. exists v'. split; [done|].
      rewrite (proj1 (search_header_dynamic t j Hj)), <- Hd. f_equal. lia.
    + by destruct Hd.
Qed.

(** What the searcher says of a name is right. *)
Lemma searcher_index_sound t h v :
  match searcher_index t h v with
  | Some (IHeader i) => fst <$> search_header t i = Some h
  | Some (IHeaderName i) => search_header_name t i = Some h
  | None => static_index h v = None
  end.
Proof.
  pose proof (searcher_index_cases t h v) as H.
  destruct (searcher_index t h v) as [[i|i]|]; [|done|by destruct H].
  destruct (name_only_dynamic t h v); [destruct H as (v' & _ & ->)|rewrite H]; done.
Qed.

(** an index returned by the searcher denotes what was searched: [IHeader]
    the same name and value, [IHeaderName] the same name, [None] a name that
    neither table has; except that a name known only to the dynamic table, with
    other values, comes back as the [IHeader] of one of those. *)
Theorem searcher_index_spec (t : DynamicTable) (h : Header) (v : bytes) :
  match searcher_index t h v with
  | Some (IHeader i) =>
      if name_only_dynamic t h v
      then ∃ v', v' ≠ v ∧ search_header t i = Some (h, v')
      else search_header t i = Some (h, v)
  | Some (IHeaderName i) => search_header_name t i = Some h
  | None => static_index h v = None ∧ ∀ v', (h, v') ∉ dt_queue t
  end.
Proof. apply searcher_index_cases. Qed.

Lemma dt_index_from_skip q n i h v :
  (h, v) ∉ q → dt_index_from q n (Some (IHeaderName i)) h v = Some (IHeaderName i).
Proof.
  revert n. induction q as [|[h' v'] q IH]; intros n H; [done|]. cbn [dt_index_from].
  rewrite not_elem_of_cons in H. destruct H as [H1 H2].
  case_decide; [case_decide; [congruence|]|]; by apply IH.
Qed.

(** the searcher can return the index of another value.  Once [h] was sent
    with the value [v'], looking up [h] with [v], a field the tables do not
    have, gives [IHeader 62], and entry 62 is [h] with [v']: the encoder then
    sends an indexed field with the wrong value. *)
Theorem searcher_index_wrong_value (t : DynamicTable) (h : Header) (v v' : bytes)
    (Hinv : table_inv t) (Hfit : entry_size (h, v') ≤ dt_max_size t)
    (Hstatic : static_index h v = None) (Hnew : (h, v) ∉ dt_queue t) (Hne : v ≠ v') :
  searcher_index (dt_update t h v') h v = Some (IHeader 62) ∧
  search_header (dt_update t h v') 62 = Some (h, v').
Proof.
  assert (∃ q, dt_queue (dt_update t h v') = (h, v') :: q ∧ (h, v) ∉ q) as (q & Eq & Hq).
  { unfold dt_update. rewrite fit_size_spec.
    - cbn [dt_queue dt_max_size longest_fit]. destruct (Z.leb_spec (entry_size (h, v')) (dt_max_size t));
        [|lia]. eexists. split; [done|]. revert Hnew. generalize (dt_max_size t - entry_size (h, v')) as m.
      induction (dt_queue t) as [|e q IH]; intros m Hn; cbn; [done|].
      rewrite not_elem_of_cons in Hn. destruct Hn as [Hn1 Hn2].
      destruct (_ <=? m); [|apply not_elem_of_nil].
      rewrite not_elem_of_cons. split; [done|by apply IH].
    - unfold table_inv in *. cbn [dt_curr_size dt_queue total_size foldr]. unfold total_size in Hinv. lia. }
  split.
  - unfold searcher_index, dt_index. rewrite Hstatic, Eq. cbn [dt_index_from].
    rewrite decide_True by done. rewrite decide_False by done.
    by rewrite dt_index_from_skip.
  - change 62 with (0 + 62). rewrite (proj1 (search_header_dynamic _ 0 ltac:(done))), Eq. done.
Qed.

Lemma searcher_index_wrong_value_witness :
  let t := dt_update (with_max_size 4096) (Other (bs "x-id")) (bs "1") in
  searcher_index t (Other (bs "x-id")) (bs "2") = Some (IHeader 62) ∧
  search_header t 62 = Some (Other (bs "x-id"), bs "1").
Proof.
  refine (searcher_index_wrong_value (with_max_size 4096) (Other (bs "x-id")) (bs "2") (bs "1")
    _ _ _ _ _); [reflexivity|vm_compute; discriminate|vm_compute; reflexivity| |discriminate].
  apply not_elem_of_nil.
Defined.

(** ** Tables within bounds *)

(** The invariant with the limits of [usize]. *)
Definition table_bounded (t : DynamicTable) : Prop :=
  table_inv t ∧ 0 ≤ dt_max_size t ≤ USIZE_MAX ∧ dt_curr_size t ≤ dt_max_size t.

Lemma table_bounded_update t h v : table_bounded t → table_bounded (dt_update t h v).
Proof.
  intros (Hinv & Hmax & Hcur). unfold table_bounded, dt_update. rewrite fit_size_spec.
  - cbn [dt_max_size dt_queue dt_curr_size]. split_and!; [done|lia..|]. apply total_size_longest_fit. lia.
  - unfold table_inv in *. cbn. unfold total_size in *. lia.
Qed.

Lemma table_bounded_length t : table_bounded t → 32 * len (dt_queue t) ≤ USIZE_MAX.
Proof.
  intros (Hinv & Hmax & Hcur). unfold table_inv in Hinv.
  assert (32 * len (dt_queue t) ≤ total_size (dt_queue t)); [|lia].
  clear. induction (dt_queue t) as [|e q IH]; cbn; [done|]. rewrite len_cons.
  pose proof (entry_size_pos e). unfold total_size in IH. lia.
Qed.

(** The indices that the searcher gives. *)
Lemma searcher_index_range t h v i :
  searcher_index t h v = Some (IHeader i) ∨ searcher_index t h v = Some (IHeaderName i) →
  1 ≤ i < 62 + len (dt_queue t).
Proof.
  pose proof (static_index_sound h v) as Hs.
  pose proof (dt_index_from_spec (dt_queue t) 0 None h v) as Hd.
  pose proof (len_nonneg (dt_queue t)) as Hl. unfold searcher_index, dt_index.
  assert (∀ j (e : Header * bytes), 0 ≤ j → dt_queue t !! Z.to_nat (j - 0) = Some e →
    1 ≤ j + 62 < 62 + len (dt_queue t)) as Hlook.
  { intros j e Hj E. apply lookup_lt_Some in E. unfold len. lia. }
  assert (∀ j, (static_header j ≠ None ∨ static_header_name j ≠ None) → 0 ≤ j ≤ 61 →
    1 ≤ j < 62 + len (dt_queue t)) as Hstat.
  { intros j Hj ?. assert (j ≠ 0) by (intros ->; by destruct Hj). lia. }
  destruct (static_index h v) as [[j|j]|] eqn:Es.
  - destruct (Hs _ eq_refl) as [E Hi]. intros [[= <-]|[=]]. apply Hstat; [rewrite E; by left|done].
  - destruct (Hs _ eq_refl) as [E Hi].
    destruct (dt_index_from _ _ _ _ _) as [[k|k]|]; intros [[= <-]|[= <-]];
      try (apply Hstat; [rewrite E; by right|done]).
    destruct Hd as [?|[Hk Hd]]; [done|]. by eapply Hlook.
  - destruct (dt_index_from _ _ _ _ _) as [[k|k]|]; intros [[= <-]|[=]].
    + destruct Hd as [?|[Hk Hd]]; [done|]. by eapply Hlook.
    + destruct Hd as [?|(Hk & v' & Hd & _)]; [done|]. by eapply Hlook.
Qed.
