(* ===== verification/HpackRepr.v ===== *)
(** * HPACK representations and their decoder

    Models [src/ylong_http/src/h2/hpack/representation/mod.rs] and
    [representation/decoder.rs]: the five representations, their prefixes, and
    the resumable [ReprDecoder] with its three levels of states
    ([ReprDecodeState], [IndexInner], [LiteralString]).  A [decode] method takes
    its state and the buffer and gives a [DecResult]. *)

From S2P Require Import Prelude Huffman H2Error HpackInteger.
#[local] Open Scope Z_scope.

(** ** Data *)

Inductive Name := Index (index : Z) | Literal (octets : bytes).

Inductive Representation :=
  | Indexed (index : Z)
  | LiteralWithIndexing (name : Name) (value : bytes)
  | LiteralWithoutIndexing (name : Name) (value : bytes)
  | LiteralNeverIndexed (name : Name) (value : bytes)
  | SizeUpdate (max_size : Z).

(** [PrefixBit], by its five constants. *)
Inductive PrefixBit :=
  | PB_INDEXED | PB_LITERAL_WITH_INDEXING | PB_SIZE_UPDATE
  | PB_LITERAL_NEVER_INDEXED | PB_LITERAL_WITHOUT_INDEXING.

Definition prefix_bit_value (p : PrefixBit) : Z :=
  match p with
  | PB_INDEXED => 0x80
  | PB_LITERAL_WITH_INDEXING => 0x40
  | PB_SIZE_UPDATE => 0x20
  | PB_LITERAL_NEVER_INDEXED => 0x10
  | PB_LITERAL_WITHOUT_INDEXING => 0x00
  end.

(** [PrefixBit::from_u8]. *)
Definition from_u8 (byte : Z) : PrefixBit :=
  if 0x80 <=? byte then PB_INDEXED
  else if 0x40 <=? byte then PB_LITERAL_WITH_INDEXING
  else if 0x20 <=? byte then PB_SIZE_UPDATE
  else if 0x10 <=? byte then PB_LITERAL_NEVER_INDEXED
  else PB_LITERAL_WITHOUT_INDEXING.

(** [PrefixBit::prefix_index_mask]. *)
Definition prefix_index_mask (p : PrefixBit) : Z :=
  match p with
  | PB_INDEXED => 0x7f
  | PB_LITERAL_WITH_INDEXING => 0x3f
  | PB_SIZE_UPDATE => 0x1f
  | PB_LITERAL_NEVER_INDEXED => 0x0f
  | PB_LITERAL_WITHOUT_INDEXING => 0x0f
  end.

(** ** States *)

(** [IndexInner]. *)
Inductive IndexInner :=
  | FirstByte
  | TrailingBytes (repr : PrefixBit) (index : IntegerDecoder).

(** [LiteralString]. *)
Inductive LiteralString :=
  | LengthFirstByte
  | LengthTrailingBytes (is_huffman : bool) (length : IntegerDecoder)
  | AsciiStringBytes (octets : bytes) (length : Z)
  | HuffmanStringBytes (huffman : HuffmanDecoder) (read length : Z).

(** [ReprDecodeState]. *)
Inductive ReprDecodeState :=
  | SIndex (inner : IndexInner)
  | SNameString (repr : PrefixBit) (inner : LiteralString)
  | SValueString (repr : PrefixBit) (name : Name) (inner : LiteralString).

(** ** Index *)

(** [TrailingBytes::decode]. *)
Definition TrailingBytes_decode (repr : PrefixBit) (index : IntegerDecoder) (buf : bytes) :
    DecResult (PrefixBit * Z) IndexInner :=
  match next_bytes index buf with
  | Decoded i rest => Decoded (repr, i) rest
  | NeedMore d => NeedMore (TrailingBytes repr d)
  | Error e => Error e
  end.

(** [FirstByte::decode]. *)
Definition FirstByte_decode (buf : bytes) : DecResult (PrefixBit * Z) IndexInner :=
  match buf with
  | [] => NeedMore FirstByte
  | byte :: buf =>
      let repr := from_u8 byte in
      match first_byte byte (prefix_index_mask repr) with
      | inl idx => Decoded (repr, idx) buf
      | inr int => TrailingBytes_decode repr int buf
      end
  end.

Definition IndexInner_decode (s : IndexInner) (buf : bytes) :
    DecResult (PrefixBit * Z) IndexInner :=
  match s with
  | FirstByte => FirstByte_decode buf
  | TrailingBytes repr index => TrailingBytes_decode repr index buf
  end.

(** ** Literal strings *)

(** [AsciiStringBytes::decode]. *)
Definition AsciiStringBytes_decode (octets : bytes) (length : Z) (buf : bytes) :
    DecResult bytes LiteralString :=
  match len buf + len octets ?= length with
  | Gt | Eq =>
      let pos := length - len octets in
      Decoded (octets ++ takeZ pos buf) (dropZ pos buf)
  | Lt => NeedMore (AsciiStringBytes (octets ++ buf) length)
  end.

(** [HuffmanStringBytes::decode]. *)
Definition HuffmanStringBytes_decode (huffman : HuffmanDecoder) (read length : Z) (buf : bytes) :
    DecResult bytes LiteralString :=
  match len buf + read ?= length with
  | Gt | Eq =>
      let pos := length - read in
      match HuffmanDecoder_decode (takeZ pos buf) huffman with
      | (huffman, Ok _) =>
          match HuffmanDecoder_finish huffman with
          | Ok vec => Decoded vec (dropZ pos buf)
          | _ => Error (ConnectionError CompressionError)
          end
      | _ => Error (ConnectionError CompressionError)
      end
  | Lt =>
      match HuffmanDecoder_decode buf huffman with
      | (huffman, Ok _) => NeedMore (HuffmanStringBytes huffman (read + len buf) length)
      | _ => Error (ConnectionError CompressionError)
      end
  end.

(** The string once its length is known. *)
Definition string_bytes_decode (is_huffman : bool) (length : Z) (buf : bytes) :
    DecResult bytes LiteralString :=
  if is_huffman then HuffmanStringBytes_decode HuffmanDecoder_new 0 length buf
  else AsciiStringBytes_decode [] length buf.

(** [LengthTrailingBytes::decode]. *)
Definition LengthTrailingBytes_decode (is_huffman : bool) (length : IntegerDecoder) (buf : bytes) :
    DecResult bytes LiteralString :=
  match next_bytes length buf with
  | Decoded length rest => string_bytes_decode is_huffman length rest
  | NeedMore d => NeedMore (LengthTrailingBytes is_huffman d)
  | Error e => Error e
  end.

(** [LengthFirstByte::decode]. *)
Definition LengthFirstByte_decode (buf : bytes) : DecResult bytes LiteralString :=
  match buf with
  | [] => NeedMore LengthFirstByte
  | byte :: buf =>
      let is_huffman := Z.land byte 0x80 =? 0x80 in
      match first_byte byte 0x7f with
      | inl length => string_bytes_decode is_huffman length buf
      | inr int => LengthTrailingBytes_decode is_huffman int buf
      end
  end.

Definition LiteralString_decode (s : LiteralString) (buf : bytes) :
    DecResult bytes LiteralString :=
  match s with
  | LengthFirstByte => LengthFirstByte_decode buf
  | LengthTrailingBytes h l => LengthTrailingBytes_decode h l buf
  | AsciiStringBytes o l => AsciiStringBytes_decode o l buf
  | HuffmanStringBytes h r l => HuffmanStringBytes_decode h r l buf
  end.

(** ** Representations *)

(** [ValueString::decode]. *)
Definition ValueString_decode (repr : PrefixBit) (name : Name) (inner : LiteralString)
    (buf : bytes) : DecResult Representation ReprDecodeState :=
  match LiteralString_decode inner buf with
  | Decoded value rest =>
      Decoded (match repr with
               | PB_LITERAL_WITH_INDEXING => LiteralWithIndexing name value
               | PB_LITERAL_WITHOUT_INDEXING => LiteralWithoutIndexing name value
               | _ => LiteralNeverIndexed name value
               end) rest
  | NeedMore inner => NeedMore (SValueString repr name inner)
  | Error e => Error e
  end.

(** [NameString::decode]. *)
Definition NameString_decode (repr : PrefixBit) (inner : LiteralString) (buf : bytes) :
    DecResult Representation ReprDecodeState :=
  match LiteralString_decode inner buf with
  | Decoded octets rest => ValueString_decode repr (Literal octets) LengthFirstByte rest
  | NeedMore inner => NeedMore (SNameString repr inner)
  | Error e => Error e
  end.

(** [Index::decode]. *)
Definition Index_decode (inner : IndexInner) (buf : bytes) :
    DecResult Representation ReprDecodeState :=
  match IndexInner_decode inner buf with
  | Decoded (PB_INDEXED, index) rest =>
      if index =? 0 then Error (ConnectionError CompressionError)
      else Decoded (Indexed index) rest
  | Decoded (PB_SIZE_UPDATE, max_size) rest => Decoded (SizeUpdate max_size) rest
  | Decoded (repr, index) rest =>
      if index =? 0 then NameString_decode repr LengthFirstByte rest
      else ValueString_decode repr (Index index) LengthFirstByte rest
  | NeedMore inner => NeedMore (SIndex inner)
  | Error e => Error e
  end.

(** [ReprDecodeState::decode]. *)
Definition ReprDecodeState_decode (s : ReprDecodeState) (buf : bytes) :
    DecResult Representation ReprDecodeState :=
  match s with
  | SIndex inner => Index_decode inner buf
  | SNameString repr inner => NameString_decode repr inner buf
  | SValueString repr name inner => ValueString_decode repr name inner buf
  end.

(** [ReprDecoder]: the rest of the buffer and the state. *)
Record ReprDecoder := mkReprDecoder { rd_buf : bytes; rd_state : option ReprDecodeState }.

(** [ReprDecoder::decode]. *)
Definition ReprDecoder_decode : ST ReprDecoder H2Error (option Representation) := λ d,
  match rd_buf d with
  | [] => (d, Ok None)
  | _ :: _ =>
      match ReprDecodeState_decode (default (SIndex FirstByte) (rd_state d)) (rd_buf d) with
      | NeedMore state => (mkReprDecoder [] (Some state), Ok None)
      | Decoded repr rest => (mkReprDecoder rest None, Ok (Some repr))
      | Error e => (mkReprDecoder [] None, Err e)
      end
  end.

(** ** Resumable decoders

    Cutting the input in two does not change what a decoder gives: a result or
    an error found in the first part is the result on the whole, and when the
    first part is not enough, the saved state reads the second part as the
    initial state would have read both. *)
Class Resumable {D S} (dec : S → bytes → DecResult D S) : Prop :=
  resume : ∀ s a b,
    match dec s a with
    | Decoded d rest => dec s (a ++ b) = Decoded d (rest ++ b)
    | NeedMore s' => dec s (a ++ b) = dec s' b
    | Error e => dec s (a ++ b) = Error e
    end.

#[export] Instance next_bytes_resumable : Resumable next_bytes.
Proof.
  intros d a b. revert d. induction a as [|x a IH]; intros d; [done|].
  cbn [app next_bytes]. destruct (next_byte x d) as [d' [e|[i|]]]; [done..|]. apply IH.
Qed.

Lemma TrailingBytes_resume repr d a b :
  match TrailingBytes_decode repr d a with
  | Decoded r rest => TrailingBytes_decode repr d (a ++ b) = Decoded r (rest ++ b)
  | NeedMore s' => TrailingBytes_decode repr d (a ++ b) = IndexInner_decode s' b
  | Error e => TrailingBytes_decode repr d (a ++ b) = Error e
  end.
Proof.
  unfold TrailingBytes_decode. pose proof (resume (dec := next_bytes) d a b) as H.
  destruct (next_bytes d a); by rewrite H.
Qed.

#[export] Instance IndexInner_resumable : Resumable IndexInner_decode.
Proof.
  intros [|repr d] a b; cbn [IndexInner_decode]; [|apply TrailingBytes_resume].
  destruct a as [|x a]; [done|]. cbn [FirstByte_decode app].
  destruct (first_byte x _); [done|]. apply TrailingBytes_resume.
Qed.

Lemma AsciiStringBytes_resume octets l a b :
  match AsciiStringBytes_decode octets l a with
  | Decoded r rest => AsciiStringBytes_decode octets l (a ++ b) = Decoded r (rest ++ b)
  | NeedMore s' => AsciiStringBytes_decode octets l (a ++ b) = LiteralString_decode s' b
  | Error e => AsciiStringBytes_decode octets l (a ++ b) = Error e
  end.
Proof.
  unfold AsciiStringBytes_decode. rewrite len_app. pose proof (len_nonneg b).
  destruct (Z.compare_spec (len a + len octets) l) as [E|Hlt|Hgt].
  1,3: destruct (Z.compare_spec (len a + len b + len octets) l); [|lia|];
    rewrite takeZ_app_le, dropZ_app_le by lia; done.
  cbn [LiteralString_decode]. unfold AsciiStringBytes_decode. rewrite len_app.
  replace (len b + (len octets + len a)) with (len a + len b + len octets) by lia.
  destruct (Z.compare_spec (len a + len b + len octets) l); [| by rewrite app_assoc|];
    rewrite takeZ_app_ge, dropZ_app_ge, app_assoc by lia;
    replace (l - (len octets + len a)) with (l - len octets - len a) by lia; done.
Qed.

(** [HuffmanDecoder::decode] as a partial function: [None] is its error. *)
Definition huffman_feed (h : HuffmanDecoder) (src : bytes) : option HuffmanDecoder :=
  match HuffmanDecoder_decode src h with (h, Ok _) => Some h | _ => None end.

Lemma huffman_feed_match {A} h src (f : HuffmanDecoder → A) (e : A) :
  match HuffmanDecoder_decode src h with (h, Ok _) => f h | _ => e end =
  match huffman_feed h src with Some h => f h | None => e end.
Proof. unfold huffman_feed. by destruct (HuffmanDecoder_decode src h) as [? [| |]]. Qed.

Lemma huffman_feed_app h a b :
  huffman_feed h (a ++ b) = h' ← huffman_feed h a; huffman_feed h' b.
Proof.
  unfold huffman_feed, HuffmanDecoder_decode. rewrite huffman_decode_inner_app.
  unfold mbind, ST_bind, option_bind.
  destruct (huffman_decode_inner a _ _ _) as [v [[s f]|e|]]; [|done..].
  cbn [fst snd hd_state hd_flags hd_vec].
  by destruct (huffman_decode_inner b s f v) as [? [[? ?]| |]].
Qed.

Lemma HuffmanStringBytes_decode_eq h read l buf :
  HuffmanStringBytes_decode h read l buf =
  match len buf + read ?= l with
  | Gt | Eq =>
      match huffman_feed h (takeZ (l - read) buf) with
      | Some h =>
          match HuffmanDecoder_finish h with
          | Ok vec => Decoded vec (dropZ (l - read) buf)
          | _ => Error (ConnectionError CompressionError)
          end
      | None => Error (ConnectionError CompressionError)
      end
  | Lt =>
      match huffman_feed h buf with
      | Some h => NeedMore (HuffmanStringBytes h (read + len buf) l)
      | None => Error (ConnectionError CompressionError)
      end
  end.
Proof. unfold HuffmanStringBytes_decode. destruct (_ ?= _); by rewrite <- huffman_feed_match. Qed.

Lemma HuffmanStringBytes_resume h read l a b :
  match HuffmanStringBytes_decode h read l a with
  | Decoded r rest => HuffmanStringBytes_decode h read l (a ++ b) = Decoded r (rest ++ b)
  | NeedMore s' => HuffmanStringBytes_decode h read l (a ++ b) = LiteralString_decode s' b
  | Error e => HuffmanStringBytes_decode h read l (a ++ b) = Error e
  end.
Proof.
  rewrite !HuffmanStringBytes_decode_eq. rewrite len_app. pose proof (len_nonneg b).
  destruct (Z.compare_spec (len a + read) l) as [E|Hlt|Hgt].
  1,3: destruct (Z.compare_spec (len a + len b + read) l); [|lia|];
    rewrite takeZ_app_le, dropZ_app_le by lia;
    (destruct (huffman_feed h _) as [h'|]; [|done]); by destruct (HuffmanDecoder_finish h').
  destruct (huffman_feed h a) as [h'|] eqn:Ea.
  - cbn [LiteralString_decode]. rewrite HuffmanStringBytes_decode_eq.
    replace (len b + (read + len a)) with (len a + len b + read) by lia.
    destruct (Z.compare_spec (len a + len b + read) l);
      rewrite ?takeZ_app_ge, ?dropZ_app_ge, huffman_feed_app, Ea by lia; cbn;
      replace (l - (read + len a)) with (l - read - len a) by lia; try done.
    by replace (read + (len a + len b)) with (read + len a + len b) by lia.
  - destruct (_ ?= l); [|by rewrite huffman_feed_app, Ea|].
    all: by rewrite takeZ_app_ge, huffman_feed_app, Ea by lia.
Qed.

Lemma string_bytes_resume hf l a b :
  match string_bytes_decode hf l a with
  | Decoded r rest => string_bytes_decode hf l (a ++ b) = Decoded r (rest ++ b)
  | NeedMore s' => string_bytes_decode hf l (a ++ b) = LiteralString_decode s' b
  | Error e => string_bytes_decode hf l (a ++ b) = Error e
  end.
Proof. destruct hf; [apply HuffmanStringBytes_resume|apply AsciiStringBytes_resume]. Qed.

Lemma LengthTrailingBytes_resume hf d a b :
  match LengthTrailingBytes_decode hf d a with
  | Decoded r rest => LengthTrailingBytes_decode hf d (a ++ b) = Decoded r (rest ++ b)
  | NeedMore s' => LengthTrailingBytes_decode hf d (a ++ b) = LiteralString_decode s' b
  | Error e => LengthTrailingBytes_decode hf d (a ++ b) = Error e
  end.
Proof.
  unfold LengthTrailingBytes_decode. pose proof (resume (dec := next_bytes) d a b) as H.
  destruct (next_bytes d a); rewrite H; [|done..]. apply string_bytes_resume.
Qed.

#[export] Instance LiteralString_resumable : Resumable LiteralString_decode.
Proof.
  intros [|hf d|o l|h r l] a b; cbn [LiteralString_decode].
  - destruct a as [|x a]; [done|]. cbn [LengthFirstByte_decode app].
    destruct (first_byte x _); [apply string_bytes_resume|apply LengthTrailingBytes_resume].
  - apply LengthTrailingBytes_resume.
  - apply AsciiStringBytes_resume.
  - apply HuffmanStringBytes_resume.
Qed.

Lemma ValueString_resume repr name s a b :
  match ValueString_decode repr name s a with
  | Decoded r rest => ValueString_decode repr name s (a ++ b) = Decoded r (rest ++ b)
  | NeedMore s' => ValueString_decode repr name s (a ++ b) = ReprDecodeState_decode s' b
  | Error e => ValueString_decode repr name s (a ++ b) = Error e
  end.
Proof.
  unfold ValueString_decode. pose proof (resume (dec := LiteralString_decode) s a b) as H.
  destruct (LiteralString_decode s a); by rewrite H.
Qed.

Lemma NameString_resume repr s a b :
  match NameString_decode repr s a with
  | Decoded r rest => NameString_decode repr s (a ++ b) = Decoded r (rest ++ b)
  | NeedMore s' => NameString_decode repr s (a ++ b) = ReprDecodeState_decode s' b
  | Error e => NameString_decode repr s (a ++ b) = Error e
  end.
Proof.
  unfold NameString_decode. pose proof (resume (dec := LiteralString_decode) s a b) as H.
  destruct (LiteralString_decode s a); rewrite H; [|done..]. apply ValueString_resume.
Qed.

#[export] Instance ReprDecodeState_resumable : Resumable ReprDecodeState_decode.
Proof.
  intros [inner|repr s|repr name s] a b; cbn [ReprDecodeState_decode];
    [|apply NameString_resume|apply ValueString_resume].
  unfold Index_decode. pose proof (resume (dec := IndexInner_decode) inner a b) as H.
  destruct (IndexInner_decode inner a) as [[[] i] rest| |]; rewrite H; try done;
    destruct (i =? 0); try done; apply NameString_resume || apply ValueString_resume.
Qed.

(** the representation decoder is resumable: wherever its input is cut,
    inside an integer, a plain string or a Huffman string, saving and resuming
    gives the representation, the unread rest or the error of one pass. *)
Theorem repr_decode_resumes (s : ReprDecodeState) (a b : bytes) :
  match ReprDecodeState_decode s a with
  | Decoded r rest => ReprDecodeState_decode s (a ++ b) = Decoded r (rest ++ b)
  | NeedMore s' => ReprDecodeState_decode s (a ++ b) = ReprDecodeState_decode s' b
  | Error e => ReprDecodeState_decode s (a ++ b) = Error e
  end.
Proof. apply resume. Qed.

(** ** Wire format

    The layouts drawn in [representation/mod.rs]. *)

(** A string literal: its length with the Huffman bit, then its octets. *)
Definition string_octets (h : bool) (s : bytes) : bytes :=
  if h then huffman_encode s [] else s.
Definition huffman_bit (h : bool) : Z := if h then 0x80 else 0.
Definition string_wire (h : bool) (s : bytes) : bytes :=
  int_bytes (len (string_octets h s)) 0x7f (huffman_bit h) ++ string_octets h s.

Definition name_wire (h : bool) (p : PrefixBit) (name : Name) : bytes :=
  match name with
  | Index i => int_bytes i (prefix_index_mask p) (prefix_bit_value p)
  | Literal s => int_bytes 0 (prefix_index_mask p) (prefix_bit_value p) ++ string_wire h s
  end.

Definition repr_wire (h : bool) (r : Representation) : bytes :=
  match r with
  | Indexed i => int_bytes i 0x7f 0x80
  | LiteralWithIndexing n v => name_wire h PB_LITERAL_WITH_INDEXING n ++ string_wire h v
  | LiteralWithoutIndexing n v => name_wire h PB_LITERAL_WITHOUT_INDEXING n ++ string_wire h v
  | LiteralNeverIndexed n v => name_wire h PB_LITERAL_NEVER_INDEXED n ++ string_wire h v
  | SizeUpdate m => int_bytes m 0x1f 0x20
  end.

Definition string_ok (s : bytes) : Prop :=
  Forall is_byte s ∧ len s ≤ USIZE_MAX ∧ len (huffman_encode s []) ≤ USIZE_MAX.

Definition name_ok (n : Name) : Prop :=
  match n with Index i => 1 ≤ i ≤ USIZE_MAX | Literal s => string_ok s end.

Definition repr_ok (r : Representation) : Prop :=
  match r with
  | Indexed i => 1 ≤ i ≤ USIZE_MAX
  | LiteralWithIndexing n v | LiteralWithoutIndexing n v | LiteralNeverIndexed n v =>
      name_ok n ∧ string_ok v
  | SizeUpdate m => 0 ≤ m ≤ USIZE_MAX
  end.

(** *** Decoding the wire format *)

Lemma prefix_ok_pb p : prefix_ok (prefix_index_mask p) (prefix_bit_value p).
Proof.
  destruct p; (split; [|split; [unfold is_byte; cbn; lia|reflexivity]]);
    [exists 7|exists 6|exists 5|exists 4|exists 4]; cbn; lia.
Qed.

Lemma prefix_ok_len h : prefix_ok 0x7f (huffman_bit h).
Proof. split; [exists 7; lia|]. destruct h; (split; [unfold is_byte; cbn; lia|reflexivity]). Qed.

(** The first byte of an integer carries its prefix. *)
Lemma int_bytes_head i mask pre :
  0 ≤ i → 0 ≤ mask → ∃ x tail, int_bytes i mask pre = (pre + x) :: tail ∧ 0 ≤ x ≤ mask.
Proof.
  intros Hi Hm. unfold int_bytes. destruct (Z.ltb_spec i mask).
  - exists i, []. split; [done|lia].
  - eexists mask, _. split; [done|lia].
Qed.

Lemma from_u8_pb p x : 0 ≤ x ≤ prefix_index_mask p → from_u8 (prefix_bit_value p + x) = p.
Proof.
  intros Hx. unfold from_u8. destruct p; cbn in *;
    repeat match goal with |- context [?a <=? ?b] => destruct (Z.leb_spec a b); try lia end; done.
Qed.

Lemma IndexInner_wire p i rest :
  0 ≤ i ≤ USIZE_MAX →
  IndexInner_decode FirstByte (int_bytes i (prefix_index_mask p) (prefix_bit_value p) ++ rest)
    = Decoded (p, i) rest.
Proof.
  intros Hi. pose proof (int_decode_bytes i _ _ rest Hi (prefix_ok_pb p)) as H.
  assert (0 ≤ prefix_index_mask p) as Hm by (destruct p; cbn; lia).
  destruct (int_bytes_head i _ (prefix_bit_value p) ltac:(lia) Hm) as (x & tail & E & Hx).
  rewrite E in *. cbn [app IndexInner_decode FirstByte_decode int_decode] in *.
  rewrite from_u8_pb by done. destruct (first_byte _ _) as [v|d].
  - by injection H as -> ->.
  - unfold TrailingBytes_decode. by rewrite H.
Qed.

Lemma huffman_feed_encode s :
  Forall is_byte s → ∃ h,
    huffman_feed HuffmanDecoder_new (huffman_encode s []) = Some h ∧ HuffmanDecoder_finish h = Ok s.
Proof.
  intros Hs. pose proof (decode_chunks_inner [huffman_encode s []] 0 0 []) as H.
  cbn [decode_chunks concat] in H. rewrite app_nil_r in H. unfold mbind, ST_bind in H.
  change (mkHuffmanDecoder 0 0 []) with HuffmanDecoder_new in H. unfold huffman_feed.
  destruct (pad_ones_decomp (codes s)) as (k & Hk & Ek & _).
  pose proof (huffman_decode_complete (huffman_encode s []) [] s k) as Hd.
  unfold huffman_decode, mbind, ST_bind in Hd.
  destruct (huffman_decode_inner _ 0 0 []) as [v [[st f]|e|]].
  - specialize (Hd ltac:(by apply huffman_encode_bytes) Hs Hk
      ltac:(by rewrite huffman_encode_bits)). cbn [fst snd] in *.
    destruct (rejects_end st f); [done|]. injection Hd as ->.
    destruct (HuffmanDecoder_decode _ _) as [h [?|?|]]; [|done..]. by exists h.
  - by specialize (Hd ltac:(by apply huffman_encode_bytes) Hs Hk
      ltac:(by rewrite huffman_encode_bits)).
  - by specialize (Hd ltac:(by apply huffman_encode_bytes) Hs Hk
      ltac:(by rewrite huffman_encode_bits)).
Qed.

Lemma string_bytes_wire h s rest :
  Forall is_byte s →
  string_bytes_decode h (len (string_octets h s)) (string_octets h s ++ rest) = Decoded s rest.
Proof.
  intros Hs. destruct h; cbn [string_bytes_decode string_octets].
  - rewrite HuffmanStringBytes_decode_eq. rewrite len_app, Z.sub_0_r.
    rewrite takeZ_app_len, dropZ_app_len.
    destruct (huffman_feed_encode s Hs) as (hd & -> & ->).
    pose proof (len_nonneg rest). by destruct (Z.compare_spec (len (huffman_encode s []) + len rest + 0)
      (len (huffman_encode s []))); [|lia|].
  - unfold AsciiStringBytes_decode. rewrite len_app, len_nil, Z.sub_0_r.
    rewrite takeZ_app_len, dropZ_app_len. pose proof (len_nonneg rest).
    by destruct (Z.compare_spec (len s + len rest + 0) (len s)); [|lia|].
Qed.

Lemma string_octets_len h s : string_ok s → 0 ≤ len (string_octets h s) ≤ USIZE_MAX.
Proof. intros (? & ? & ?). split; [apply len_nonneg|]. by destruct h. Qed.

Lemma huffman_bit_first h x : 0 ≤ x ≤ 127 → (Z.land (huffman_bit h + x) 128 =? 128) = h.
Proof.
  intros Hx. rewrite land_128 by (destruct h; unfold is_byte; cbn; lia).
  destruct h; cbn [huffman_bit]; destruct (Z.ltb_spec (128 + x) 128), (Z.ltb_spec (0 + x) 128);
    try lia; done.
Qed.

Lemma LiteralString_wire h s rest :
  string_ok s → LiteralString_decode LengthFirstByte (string_wire h s ++ rest) = Decoded s rest.
Proof.
  intros Hs. pose proof (string_octets_len h s Hs) as Hl. unfold string_wire.
  rewrite <- app_assoc. set (octets := string_octets h s) in *.
  pose proof (int_decode_bytes _ _ _ (octets ++ rest) Hl (prefix_ok_len h)) as H.
  destruct (int_bytes_head (len octets) 127 (huffman_bit h)) as (x & tail & E & Hx); [lia..|].
  rewrite E in *. cbn [app LiteralString_decode LengthFirstByte_decode int_decode] in *.
  rewrite huffman_bit_first by done. destruct (first_byte _ _) as [v|d].
  - injection H as -> ->. apply string_bytes_wire, Hs.
  - unfold LengthTrailingBytes_decode. rewrite H. apply string_bytes_wire, Hs.
Qed.

Lemma usize_0 : 0 ≤ 0 ≤ USIZE_MAX.
Proof. unfold USIZE_MAX. lia. Qed.

(** What goes on the wire is bytes. *)
Lemma string_wire_byte h s : string_ok s → Forall is_byte (string_wire h s).
Proof.
  intros Hs. apply Forall_app. split; [apply int_bytes_byte; [by apply string_octets_len|apply prefix_ok_len]|].
  destruct h; cbn [string_octets]; [apply huffman_encode_bytes; constructor|apply Hs].
Qed.

Lemma name_wire_byte h p n : name_ok n → Forall is_byte (name_wire h p n).
Proof.
  destruct n as [i|s]; intros Hn; cbn [name_wire].
  - apply int_bytes_byte; [cbn in Hn; lia|apply prefix_ok_pb].
  - apply Forall_app. split; [apply int_bytes_byte; [apply usize_0|apply prefix_ok_pb]|by apply string_wire_byte].
Qed.

Lemma repr_wire_byte h r : repr_ok r → Forall is_byte (repr_wire h r).
Proof.
  destruct r as [i|n v|n v|n v|m]; cbn [repr_ok repr_wire]; intros Hr;
    try (destruct Hr; apply Forall_app; split; [by apply name_wire_byte|by apply string_wire_byte]).
  - apply int_bytes_byte; [lia|apply (prefix_ok_pb PB_INDEXED)].
  - apply int_bytes_byte; [lia|apply (prefix_ok_pb PB_SIZE_UPDATE)].
Qed.

Lemma literal_wire h p n v rest :
  p ≠ PB_INDEXED → p ≠ PB_SIZE_UPDATE → name_ok n → string_ok v →
  Index_decode FirstByte ((name_wire h p n ++ string_wire h v) ++ rest) =
    Decoded (match p with
             | PB_LITERAL_WITH_INDEXING => LiteralWithIndexing n v
             | PB_LITERAL_WITHOUT_INDEXING => LiteralWithoutIndexing n v
             | _ => LiteralNeverIndexed n v
             end) rest.
Proof.
  intros Hp1 Hp2 Hn Hv. rewrite <- app_assoc. unfold Index_decode.
  destruct n as [i|s]; cbn [name_wire name_ok] in *.
  - rewrite IndexInner_wire by lia.
    assert ((i =? 0) = false) as Ei by lia.
    unfold ValueString_decode. rewrite LiteralString_wire by done. destruct p; try done; by rewrite Ei.
  - rewrite <- app_assoc, IndexInner_wire by apply usize_0. rewrite Z.eqb_refl.
    unfold NameString_decode. rewrite LiteralString_wire by done.
    unfold ValueString_decode. rewrite LiteralString_wire by done. by destruct p.
Qed.

Lemma LiteralRepr_wire h r rest :
  repr_ok r → ReprDecodeState_decode (SIndex FirstByte) (repr_wire h r ++ rest) = Decoded r rest.
Proof.
  intros Hr. destruct r as [i|n v|n v|n v|m]; cbn [repr_wire repr_ok ReprDecodeState_decode] in *.
  2-4: rewrite literal_wire by (done || apply Hr); done.
  - unfold Index_decode. rewrite (IndexInner_wire PB_INDEXED) by lia.
    destruct (Z.eqb_spec i 0); [lia|done].
  - unfold Index_decode. by rewrite (IndexInner_wire PB_SIZE_UPDATE) by lia.
Qed.

(** the decoder reads back every representation from its wire format,
    with plain or Huffman strings, and leaves the bytes that follow. *)
Theorem repr_wire_decode (h : bool) (r : Representation) (rest : bytes) (Hr : repr_ok r) :
  ReprDecodeState_decode (SIndex FirstByte) (repr_wire h r ++ rest) = Decoded r rest.
Proof. by apply LiteralRepr_wire. Qed.

Lemma string_ok_short (s : bytes) :
  Forall is_byte s → (length s ≤ 100)%nat → (length (huffman_encode s []) ≤ 100)%nat → string_ok s.
Proof. intros ? ? ?. unfold string_ok, len, USIZE_MAX. split_and!; [done|lia..]. Qed.

Lemma repr_wire_decode_witness :
  ReprDecodeState_decode (SIndex FirstByte)
    (repr_wire true (LiteralWithIndexing (Literal (bs "custom-key")) (bs "custom-value")) ++ [130])
  = Decoded (LiteralWithIndexing (Literal (bs "custom-key")) (bs "custom-value")) [130].
Proof.
  refine (repr_wire_decode true (LiteralWithIndexing (Literal (bs "custom-key")) (bs "custom-value"))
    [130] _).
  split; (apply string_ok_short; [repeat constructor; cbv; discriminate|vm_compute; lia..]).
Defined.

(** ** Progress: what a decoder leaves is no longer than what it got *)

Lemma next_bytes_length d buf i rest :
  next_bytes d buf = Decoded i rest → (length rest < length buf)%nat.
Proof.
  revert d. induction buf as [|x buf IH]; intros d; [done|]. cbn [next_bytes length].
  destruct (next_byte x d) as [d' [e|[j|]]]; [done|intros [= -> ->]; lia|].
  intros H. apply IH in H. lia.
Qed.

Lemma length_dropZ {A} n (l : list A) : (length (dropZ n l) ≤ length l)%nat.
Proof. unfold dropZ. rewrite length_drop. lia. Qed.

Lemma string_bytes_length h l buf s rest :
  string_bytes_decode h l buf = Decoded s rest → (length rest ≤ length buf)%nat.
Proof.
  destruct h; cbn [string_bytes_decode]; [rewrite HuffmanStringBytes_decode_eq|
    unfold AsciiStringBytes_decode]; destruct (_ ?= _);
    repeat case_match; intros; simplify_eq; apply length_dropZ.
Qed.

Lemma LiteralString_length st buf s rest :
  LiteralString_decode st buf = Decoded s rest → (length rest ≤ length buf)%nat.
Proof.
  destruct st as [|h d|o l|h r l]; cbn [LiteralString_decode].
  - destruct buf as [|x buf]; [done|]. cbn [LengthFirstByte_decode length].
    destruct (first_byte x _); [intros H%string_bytes_length; lia|].
    unfold LengthTrailingBytes_decode. destruct (next_bytes _ _) eqn:E; [|done..].
    apply next_bytes_length in E. intros H%string_bytes_length. lia.
  - unfold LengthTrailingBytes_decode. destruct (next_bytes _ _) eqn:E; [|done..].
    apply next_bytes_length in E. intros H%string_bytes_length. lia.
  - unfold AsciiStringBytes_decode. destruct (_ ?= _); intros; simplify_eq; apply length_dropZ.
  - rewrite HuffmanStringBytes_decode_eq. destruct (_ ?= _);
      repeat case_match; intros; simplify_eq; apply length_dropZ.
Qed.

Lemma IndexInner_length st buf p rest :
  IndexInner_decode st buf = Decoded p rest → (length rest < length buf)%nat.
Proof.
  assert (∀ repr d buf, TrailingBytes_decode repr d buf = Decoded p rest →
    (length rest < length buf)%nat) as Ht.
  { intros repr d b. unfold TrailingBytes_decode. destruct (next_bytes _ _) eqn:E; [|done..].
    apply next_bytes_length in E. by intros [= _ ->]. }
  destruct st as [|repr d]; cbn [IndexInner_decode]; [|apply Ht].
  destruct buf as [|x buf]; [done|]. cbn [FirstByte_decode length].
  destruct (first_byte x _); [intros [= _ ->]; lia|]. intros H%Ht. lia.
Qed.

Lemma ValueString_length repr name st buf r rest :
  ValueString_decode repr name st buf = Decoded r rest → (length rest ≤ length buf)%nat.
Proof.
  unfold ValueString_decode. destruct (LiteralString_decode _ _) eqn:E; [|done..].
  apply LiteralString_length in E. by intros [= _ ->].
Qed.

Lemma NameString_length repr st buf r rest :
  NameString_decode repr st buf = Decoded r rest → (length rest ≤ length buf)%nat.
Proof.
  unfold NameString_decode. destruct (LiteralString_decode _ _) eqn:E; [|done..].
  apply LiteralString_length in E. intros H%ValueString_length. lia.
Qed.

(** A fresh representation takes a byte; a resumed one may take none. *)
Lemma ReprDecodeState_length st buf r rest :
  ReprDecodeState_decode st buf = Decoded r rest →
  (length rest ≤ length buf)%nat ∧ (st = SIndex FirstByte → length rest < length buf)%nat.
Proof.
  destruct st as [inner|repr s|repr name s]; cbn [ReprDecodeState_decode].
  - intros H. enough (length rest < length buf)%nat by (split; [lia|done]).
    revert H. unfold Index_decode. destruct (IndexInner_decode _ _) as [[p i] rest'| |] eqn:E; [|done..].
    apply IndexInner_length in E.
    destruct p; try destruct (i =? 0); intros H; simplify_eq; try done;
      (apply NameString_length in H || apply ValueString_length in H); lia.
  - intros H%NameString_length. done.
  - intros H%ValueString_length. done.
Qed.

(** ** Integers that a decoder holds are not negative *)

Definition state_ok (s : ReprDecodeState) : Prop :=
  match s with SIndex (TrailingBytes _ d) => 0 ≤ id_index d | _ => True end.

Lemma next_bytes_nonneg d buf :
  0 ≤ id_index d →
  match next_bytes d buf with
  | Decoded i _ => 0 ≤ i ≤ USIZE_MAX
  | NeedMore d' => 0 ≤ id_index d'
  | Error _ => True
  end.
Proof.
  revert d. induction buf as [|b buf IH]; intros d Hd; cbn [next_bytes]; [done|].
  unfold next_byte, checked_shl, checked_mul, checked_add.
  destruct (_ <? 64); [|done]. cbn [mbind option_bind].
  assert (0 ≤ wrap64 (Z.shiftl 1 (id_shift d - 1))) by (unfold wrap64; by apply Z.mod_pos_bound).
  assert (0 ≤ Z.land b 127) by (apply Z.land_nonneg; lia).
  destruct (_ <=? USIZE_MAX); [|done]. cbn [mbind option_bind].
  destruct (_ + id_index d <=? USIZE_MAX) eqn:E; [|done]. bool_to_prop.
  destruct (Z.land b 128 =? 0); [nia|]. apply IH. cbn [id_index]. nia.
Qed.

Lemma IndexInner_nonneg s buf :
  state_ok (SIndex s) →
  match IndexInner_decode s buf with
  | Decoded (_, i) _ => 0 ≤ i ≤ USIZE_MAX
  | NeedMore s' => state_ok (SIndex s')
  | Error _ => True
  end.
Proof.
  assert (∀ p d buf, 0 ≤ id_index d →
    match TrailingBytes_decode p d buf with
    | Decoded (_, i) _ => 0 ≤ i ≤ USIZE_MAX
    | NeedMore s' => state_ok (SIndex s')
    | Error _ => True
    end) as Ht.
  { intros p d b Hd. unfold TrailingBytes_decode. pose proof (next_bytes_nonneg d b Hd).
    by destruct (next_bytes d b). }
  destruct s as [|p d]; cbn [IndexInner_decode state_ok]; [intros _|apply Ht].
  destruct buf as [|b buf]; cbn [FirstByte_decode]; [done|]. unfold first_byte.
  set (mask := prefix_index_mask (from_u8 b)).
  assert (0 ≤ mask ≤ USIZE_MAX) by (unfold USIZE_MAX; destruct (from_u8 b); cbn; lia).
  assert (0 ≤ Z.land b mask) by (apply Z.land_nonneg; lia).
  destruct (Z.compare_spec (Z.land b mask) mask); [apply Ht; cbn; lia|lia|apply Ht; cbn; lia].
Qed.

Lemma ReprDecodeState_nonneg s buf :
  state_ok s →
  match ReprDecodeState_decode s buf with
  | Decoded (SizeUpdate m) _ => 0 ≤ m ≤ USIZE_MAX
  | NeedMore s' => state_ok s'
  | _ => True
  end.
Proof.
  assert (∀ p n s buf, match ValueString_decode p n s buf with
    | Decoded (SizeUpdate m) _ => 0 ≤ m ≤ USIZE_MAX | NeedMore s' => state_ok s' | _ => True end) as Hv.
  { intros p n i b. unfold ValueString_decode. destruct (LiteralString_decode i b); [|done..].
    by destruct p. }
  assert (∀ p s buf, match NameString_decode p s buf with
    | Decoded (SizeUpdate m) _ => 0 ≤ m ≤ USIZE_MAX | NeedMore s' => state_ok s' | _ => True end) as Hn.
  { intros p i b. unfold NameString_decode. destruct (LiteralString_decode i b); [|done..]. apply Hv. }
  intros Hs. destruct s as [i|p i|p n i]; cbn [ReprDecodeState_decode]; [|apply Hn|apply Hv].
  unfold Index_decode. pose proof (IndexInner_nonneg i buf Hs) as H.
  destruct (IndexInner_decode i buf) as [[p n] rest|s'|e]; [|done..].
  destruct p; try destruct (n =? 0); try done; apply Hn || apply Hv.
Qed.
