(* ===== verification/Headers.v ===== *)
(** * Header names, values and the header map

    Models [src/ylong_http/src/headers.rs]: names normalised to lower case
    through [HEADER_CHARS], values checked byte by byte, and [Headers], a hash
    map from names to lists of values, as a [gmap]. *)

From S2P Require Import Prelude.
From stdpp Require Export gmap.
#[local] Open Scope Z_scope.

(** The errors of this file are all [ErrorKind::InvalidInput]. *)
Inductive HttpError := InvalidInput.

(** ** Names *)

(** [HEADER_CHARS]: the lower-case byte, or 0 for a byte that is refused. *)
Definition HEADER_CHARS : list Z :=
  [0; 0; 0; 0; 0; 0; 0; 0; 0; 0; 0; 0; 0; 0; 0; 0;
   0; 0; 0; 0; 0; 0; 0; 0; 0; 0; 0; 0; 0; 0; 0; 0;
   32; 33; 34; 35; 36; 37; 38; 39; 0; 0; 42; 43; 44; 45; 46; 47;
   48; 49; 50; 51; 52; 53; 54; 55; 56; 57; 0; 0; 0; 0; 0; 0;
   0; 97; 98; 99; 100; 101; 102; 103; 104; 105; 106; 107; 108; 109; 110; 111;
   112; 113; 114; 115; 116; 117; 118; 119; 120; 121; 122; 0; 0; 0; 94; 95;
   96; 97; 98; 99; 100; 101; 102; 103; 104; 105; 106; 107; 108; 109; 110; 111;
   112; 113; 114; 115; 116; 117; 118; 119; 120; 121; 122; 0; 124; 0; 126; 0;
   0; 0; 0; 0; 0; 0; 0; 0; 0; 0; 0; 0; 0; 0; 0; 0;
   0; 0; 0; 0; 0; 0; 0; 0; 0; 0; 0; 0; 0; 0; 0; 0;
   0; 0; 0; 0; 0; 0; 0; 0; 0; 0; 0; 0; 0; 0; 0; 0;
   0; 0; 0; 0; 0; 0; 0; 0; 0; 0; 0; 0; 0; 0; 0; 0;
   0; 0; 0; 0; 0; 0; 0; 0; 0; 0; 0; 0; 0; 0; 0; 0;
   0; 0; 0; 0; 0; 0; 0; 0; 0; 0; 0; 0; 0; 0; 0; 0;
   0; 0; 0; 0; 0; 0; 0; 0; 0; 0; 0; 0; 0; 0; 0; 0;
   0; 0; 0; 0; 0; 0; 0; 0; 0; 0; 0; 0; 0; 0; 0; 0].

(** [HEADER_CHARS[b as usize]]. *)
Definition header_char (b : Z) : Z := nth (Z.to_nat b) HEADER_CHARS 0.

(** [HeaderName::normalize], also [HeaderName::from_bytes]. *)
Fixpoint normalize (input : bytes) : result HttpError bytes :=
  match input with
  | [] => Ok []
  | b :: input =>
      let c := header_char b in
      if c =? 0 then Err InvalidInput
      else dst ← normalize input; mret (c :: dst)
  end.

(** ** Values *)

Record HeaderValue := mkHeaderValue { hv_inner : list bytes; hv_is_sensitive : bool }.

(** [HeaderValue::is_valid]. *)
Definition is_valid (b : Z) : bool := (32 <=? b) && negb (b =? 127) || (b =? 9).

(** [HeaderValue::from_bytes]. *)
Definition HeaderValue_from_bytes (l : bytes) : result HttpError HeaderValue :=
  if forallb is_valid l then Ok (mkHeaderValue [l] false) else Err InvalidInput.

(** [HeaderValue::append]. *)
Definition HeaderValue_append (v other : HeaderValue) : HeaderValue :=
  mkHeaderValue (hv_inner v ++ hv_inner other) (hv_is_sensitive v).

(** [HeaderValue::append_bytes]. *)
Definition HeaderValue_append_bytes (l : bytes) : ST HeaderValue HttpError () := λ v,
  if forallb is_valid l then (mkHeaderValue (hv_inner v ++ [l]) (hv_is_sensitive v), Ok ())
  else (v, Err InvalidInput).

(** [HeaderValue::to_string] and [to_vec]: the values joined with a comma and a
    space. *)
Fixpoint to_vec_from (n : nat) (inner : list bytes) : bytes :=
  match inner with
  | [] => []
  | i :: inner => (if Nat.eqb n 0 then [] else bs ", ") ++ i ++ to_vec_from (S n) inner
  end.
Definition HeaderValue_to_vec (v : HeaderValue) : bytes := to_vec_from 0 (hv_inner v).

(** ** The map *)

Abbreviation Headers := (gmap bytes HeaderValue).

Definition Headers_len (m : Headers) : Z := Z.of_nat (size m).

(** [Headers::get]: an invalid name is found nowhere. *)
Definition Headers_get (m : Headers) (name : bytes) : option HeaderValue :=
  match normalize name with Ok name => m !! name | _ => None end.

(** [Headers::insert]: the previous value is returned. *)
Definition Headers_insert (name value : bytes) : ST Headers HttpError (option HeaderValue) := λ m,
  match normalize name, HeaderValue_from_bytes value with
  | Ok name, Ok value => (<[name := value]> m, Ok (m !! name))
  | _, _ => (m, Err InvalidInput)
  end.

(** [Headers::append]. *)
Definition Headers_append (name value : bytes) : ST Headers HttpError () := λ m,
  match normalize name, HeaderValue_from_bytes value with
  | Ok name, Ok value =>
      match m !! name with
      | Some old => (<[name := HeaderValue_append old value]> m, Ok ())
      | None => (<[name := value]> m, Ok ())
      end
  | _, _ => (m, Err InvalidInput)
  end.

(** [Headers::remove]. *)
Definition Headers_remove (name : bytes) (m : Headers) : Headers * option HeaderValue :=
  match normalize name with
  | Ok name => (delete name m, m !! name)
  | _ => (m, None)
  end.

(** ** Lemmas *)

Lemma normalize_no_panic name : normalize name ≠ Panic.
Proof.
  induction name as [|b name IH]; [done|]. cbn [normalize].
  destruct (_ =? 0); [done|]. unfold mbind, result_mbind.
  by destruct (normalize name).
Qed.

(** A normalised byte is its own normal form. *)
Lemma header_chars_idem b :
  header_char b ≠ 0 → header_char (header_char b) = header_char b.
Proof.
  assert (Forall (λ c, c ≠ 0 → header_char c = c) HEADER_CHARS) as H.
  { apply Forall_forall. intros c Hc Hne.
    assert (forallb (λ c, (c =? 0) || (header_char c =? c)) HEADER_CHARS = true)
      as Hall by (vm_compute; reflexivity).
    rewrite forallb_forall in Hall. apply list_elem_of_In, Hall, orb_true_iff in Hc.
    destruct Hc as [Hc|Hc]; bool_to_prop; done. }
  rewrite Forall_forall in H. intros Hne. apply H; [|done].
  unfold header_char in *. destruct (nth_in_or_default (Z.to_nat b) HEADER_CHARS 0) as [Hin|Hd]; [|congruence].
  by apply list_elem_of_In.
Qed.

#[local] Opaque header_char.

Lemma normalize_idem name n : normalize name = Ok n → normalize n = Ok n.
Proof.
  revert n. induction name as [|b name IH]; intros n; cbn [normalize]; [by intros [= <-]|].
  destruct (Z.eqb_spec (header_char b) 0) as [|Hne]; [done|].
  unfold mbind, result_mbind. destruct (normalize name) as [m|e|] eqn:E; [|done..].
  unfold result_bind, mret, result_ret. intros [= <-]. cbn [normalize].
  rewrite header_chars_idem by done.
  destruct (Z.eqb_spec (header_char b) 0); [done|].
  unfold mbind, result_mbind, result_bind. by rewrite (IH m eq_refl).
Qed.

(** The names found in a map built by [append] and [insert] are normalised. *)
Definition headers_inv (m : Headers) : Prop := ∀ n v, m !! n = Some v → normalize n = Ok n.

(** [append] adds the value after those of the same name, whatever the
    case of the name it is looked up with, leaves every other name alone and
    keeps the keys normalised; an invalid name or value is refused and changes
    nothing. *)
Theorem headers_append_spec (m : Headers) (name value : bytes) (Hinv : headers_inv m) :
  match normalize name, forallb is_valid value with
  | Ok n, true =>
      (Headers_append name value m).2 = Ok () ∧
      headers_inv (Headers_append name value m).1 ∧
      (∀ name', normalize name' = Ok n →
        hv_inner <$> Headers_get (Headers_append name value m).1 name' =
          Some (from_option hv_inner [] (Headers_get m name') ++ [value])) ∧
      (∀ name', normalize name' ≠ Ok n →
        Headers_get (Headers_append name value m).1 name' = Headers_get m name')
  | _, _ => Headers_append name value m = (m, Err InvalidInput)
  end.
Proof.
  unfold Headers_append, HeaderValue_from_bytes, Headers_get.
  destruct (normalize name) as [n|[]|] eqn:En; [|by destruct (forallb is_valid value)|by apply normalize_no_panic in En].
  destruct (forallb is_valid value); [|done].
  assert (∀ x, headers_inv (<[n := x]> m)) as Hins.
  { intros x k v. rewrite lookup_insert. case_decide; [subst; intros _|apply Hinv].
    by eapply normalize_idem. }
  destruct (m !! n) as [old|] eqn:Eo; cbn [fst snd];
    (split; [done|split; [apply Hins|split]]); intros name' Hn'.
  - rewrite Hn', lookup_insert_eq, Eo. done.
  - destruct (normalize name') as [n'| |]; [|done..]. rewrite lookup_insert_ne; congruence.
  - rewrite Hn', lookup_insert_eq, Eo. done.
  - destruct (normalize name') as [n'| |]; [|done..]. rewrite lookup_insert_ne; congruence.
Qed.

Lemma headers_append_spec_witness :
  headers_inv ∅ ∧
  hv_inner <$> Headers_get (Headers_append (bs "Accept") (bs "text/html") ∅).1 (bs "ACCEPT")
    = Some [bs "text/html"].
Proof.
  assert (headers_inv ∅) as H by (intros n v Hn; rewrite lookup_empty in Hn; discriminate Hn).
  split; [exact H|].
  refine (proj1 (proj2 (proj2 (headers_append_spec ∅ (bs "Accept") (bs "text/html") H)))
    (bs "ACCEPT") _). vm_compute. reflexivity.
Defined.
