(* ===== verification/Parts.v ===== *)
(** * Header blocks of HTTP/2

    Models [src/ylong_http/src/pseudo.rs] and [src/ylong_http/src/h2/parts.rs]:
    the pseudo headers and the [Parts] that an HPACK decoder fills. *)

From S2P Require Import Prelude Headers HpackTable.
#[local] Open Scope Z_scope.

Record PseudoHeaders := mkPseudo {
  ph_authority : option bytes;
  ph_method : option bytes;
  ph_path : option bytes;
  ph_scheme : option bytes;
  ph_status : option bytes }.

Definition PseudoHeaders_new : PseudoHeaders := mkPseudo None None None None None.

Definition PseudoHeaders_is_empty (p : PseudoHeaders) : bool :=
  match p with mkPseudo None None None None None => true | _ => false end.

Definition set_authority (v : option bytes) (p : PseudoHeaders) : PseudoHeaders :=
  mkPseudo v (ph_method p) (ph_path p) (ph_scheme p) (ph_status p).
Definition set_method (v : option bytes) (p : PseudoHeaders) : PseudoHeaders :=
  mkPseudo (ph_authority p) v (ph_path p) (ph_scheme p) (ph_status p).
Definition set_path (v : option bytes) (p : PseudoHeaders) : PseudoHeaders :=
  mkPseudo (ph_authority p) (ph_method p) v (ph_scheme p) (ph_status p).
Definition set_scheme (v : option bytes) (p : PseudoHeaders) : PseudoHeaders :=
  mkPseudo (ph_authority p) (ph_method p) (ph_path p) v (ph_status p).
Definition set_status (v : option bytes) (p : PseudoHeaders) : PseudoHeaders :=
  mkPseudo (ph_authority p) (ph_method p) (ph_path p) (ph_scheme p) v.

(** [take_method] and the like: the value, and the headers without it. *)
Definition take_authority (p : PseudoHeaders) : PseudoHeaders * option bytes :=
  (set_authority None p, ph_authority p).
Definition take_method (p : PseudoHeaders) : PseudoHeaders * option bytes :=
  (set_method None p, ph_method p).
Definition take_path (p : PseudoHeaders) : PseudoHeaders * option bytes :=
  (set_path None p, ph_path p).
Definition take_scheme (p : PseudoHeaders) : PseudoHeaders * option bytes :=
  (set_scheme None p, ph_scheme p).
Definition take_status (p : PseudoHeaders) : PseudoHeaders * option bytes :=
  (set_status None p, ph_status p).

Record Parts := mkParts { parts_pseudo : PseudoHeaders; parts_map : Headers }.

Definition Parts_new : Parts := mkParts PseudoHeaders_new ∅.

Definition Parts_is_empty (p : Parts) : bool :=
  PseudoHeaders_is_empty (parts_pseudo p) && bool_decide (parts_map p = ∅).

(** [Parts::update]: the [unwrap] of [Headers::append] panics on a name or a
    value that [Headers] refuses. *)
Definition Parts_update {E} (header : Header) (value : bytes) : ST Parts E () := λ p,
  match header with
  | Authority => (mkParts (set_authority (Some value) (parts_pseudo p)) (parts_map p), Ok ())
  | Method => (mkParts (set_method (Some value) (parts_pseudo p)) (parts_map p), Ok ())
  | Path => (mkParts (set_path (Some value) (parts_pseudo p)) (parts_map p), Ok ())
  | Scheme => (mkParts (set_scheme (Some value) (parts_pseudo p)) (parts_map p), Ok ())
  | Status => (mkParts (set_status (Some value) (parts_pseudo p)) (parts_map p), Ok ())
  | Other header =>
      match Headers_append header value (parts_map p) with
      | (m, Ok _) => (mkParts (parts_pseudo p) m, Ok ())
      | (_, _) => (p, Panic)
      end
  end.

(** What [Parts::update] accepts. *)
Definition field_ok (h : Header) (v : bytes) : bool :=
  match h with
  | Other n => is_Ok (normalize n) && forallb is_valid v
  | _ => true
  end.

Lemma Parts_update_cases {E} h v p :
  if field_ok h v then ∃ p', Parts_update (E:=E) h v p = (p', Ok ())
  else Parts_update (E:=E) h v p = (p, Panic).
Proof.
  destruct h; cbn [field_ok Parts_update]; eauto.
  unfold Headers_append, HeaderValue_from_bytes.
  destruct (normalize s) as [n| |]; cbn [is_Ok andb]; [|done..].
  destruct (forallb is_valid v); [|done].
  destruct (parts_map p !! n); eauto.
Qed.
