(* ===== verification/HpackDecoder.v ===== *)
(** * The HPACK decoder

    Models [src/ylong_http/src/h2/hpack/decoder.rs]: [HpackDecoder], which runs
    the representation decoder over the bytes it is given and applies each
    representation to the dynamic table and to the header lines ([Updater]). *)

From S2P Require Import Prelude Huffman H2Error HpackInteger HpackTable HpackRepr Headers Parts.
#[local] Open Scope Z_scope.

(** ** State *)

(** [HpackDecoder] with its [HeaderLines] and the [ReprDecStateHolder]. *)
Record HpackDecoder := mkHpackDecoder {
  hp_header_list_size : Z;
  hp_table : DynamicTable;
  hp_parts : Parts;
  hp_header_size : Z;
  hp_holder : option ReprDecodeState }.

(** [HpackDecoder::with_max_size]. *)
Definition HpackDecoder_with_max_size (header_table_size max_header_list_size : Z) : HpackDecoder :=
  mkHpackDecoder max_header_list_size (with_max_size header_table_size) Parts_new 0 None.

Definition set_table (t : DynamicTable) (d : HpackDecoder) : HpackDecoder :=
  mkHpackDecoder (hp_header_list_size d) t (hp_parts d) (hp_header_size d) (hp_holder d).
Definition set_parts (p : Parts) (d : HpackDecoder) : HpackDecoder :=
  mkHpackDecoder (hp_header_list_size d) (hp_table d) p (hp_header_size d) (hp_holder d).
Definition set_header_size (n : Z) (d : HpackDecoder) : HpackDecoder :=
  mkHpackDecoder (hp_header_list_size d) (hp_table d) (hp_parts d) n (hp_holder d).
Definition set_holder (s : option ReprDecodeState) (d : HpackDecoder) : HpackDecoder :=
  mkHpackDecoder (hp_header_list_size d) (hp_table d) (hp_parts d) (hp_header_size d) s.

Abbreviation HD := (ST HpackDecoder H2Error).

(** ** Updater *)

Definition compression_error {A} : HD A := throw (ConnectionError CompressionError).

Definition ok_or_compression {A} (o : option A) : HD A :=
  match o with Some a => mret a | None => compression_error end.

Definition header_line_length (key_size value_size : Z) : Z := key_size + value_size + 32.

(** [Updater::check_header_list_size]. *)
Definition check_header_list_size (key : Header) (value : bytes) : HD () :=
  _ ← modify_st (λ d, set_header_size
        (hp_header_size d + header_line_length (Header_len key) (len value)) d);
  d ← get_st;
  if hp_header_list_size d <? hp_header_size d then throw (ConnectionError ConnectError)
  else mret ().

(** [Updater::get_header_by_name_and_value]. *)
Definition get_header_by_name_and_value (name : Name) (value : bytes) : HD (Header * bytes) :=
  d ← get_st;
  match name with
  | Index index =>
      h ← ok_or_compression (search_header_name (hp_table d) index);
      mret (h, value)
  | Literal octets => mret (Other octets, value)
  end.

Definition parts_update (h : Header) (v : bytes) : HD () :=
  zoom hp_parts set_parts (Parts_update h v).

Definition update_indexed (index : Z) : HD () :=
  d ← get_st;
  hv ← ok_or_compression (search_header (hp_table d) index);
  _ ← check_header_list_size hv.1 hv.2;
  parts_update hv.1 hv.2.

Definition update_literal_with_indexing (name : Name) (value : bytes) : HD () :=
  hv ← get_header_by_name_and_value name value;
  _ ← check_header_list_size hv.1 hv.2;
  _ ← modify_st (λ d, set_table (dt_update (hp_table d) hv.1 hv.2) d);
  parts_update hv.1 hv.2.

Definition update_literal_without_indexing (name : Name) (value : bytes) : HD () :=
  hv ← get_header_by_name_and_value name value;
  _ ← check_header_list_size hv.1 hv.2;
  parts_update hv.1 hv.2.

Definition update_literal_never_indexing (name : Name) (value : bytes) : HD () :=
  update_literal_without_indexing name value.

(** [Updater::update]. *)
Definition Updater_update (repr : Representation) : HD () :=
  match repr with
  | Indexed index => update_indexed index
  | LiteralWithIndexing n v => update_literal_with_indexing n v
  | LiteralWithoutIndexing n v => update_literal_without_indexing n v
  | LiteralNeverIndexed n v => update_literal_never_indexing n v
  | SizeUpdate max_size => modify_st (λ d, set_table (dt_update_size (hp_table d) max_size) d)
  end.

(** ** Decoding *)

(** The loop of [HpackDecoder::decode], on the representation decoder's state
    and the unread bytes; [holder] is empty while it runs. *)
Fixpoint decode_loop (fuel : nat) (r : ReprDecoder) : HD () :=
  match fuel with
  | O => panic
  | S fuel =>
      match ReprDecoder_decode r with
      | (r, Ok (Some repr)) => _ ← Updater_update repr; decode_loop fuel r
      | (r, Ok None) => modify_st (set_holder (rd_state r))
      | (_, Err e) => throw e
      | (_, Panic) => panic
      end
  end.

(** Every representation but a resumed one takes at least one byte. *)
Definition decode_fuel (buf : bytes) : nat := S (S (length buf)).

(** [HpackDecoder::decode]. *)
Definition HpackDecoder_decode (buf : bytes) : HD () :=
  d ← get_st;
  _ ← put_st (set_holder None d);
  decode_loop (decode_fuel buf) (mkReprDecoder buf (hp_holder d)).

(** [HpackDecoder::finish]. *)
Definition HpackDecoder_finish : HD Parts :=
  d ← get_st;
  match hp_holder d with
  | Some _ => compression_error
  | None =>
      _ ← put_st (set_parts Parts_new (set_header_size 0 d));
      mret (hp_parts d)
  end.

(** [HpackDecoder::update_header_list_size]. *)
Definition update_header_list_size (size : Z) (d : HpackDecoder) : HpackDecoder :=
  mkHpackDecoder size (hp_table d) (hp_parts d) (hp_header_size d) (hp_holder d).

(** ** Fuel

    [loop_measure] drops at each turn of the loop, so more fuel than it makes
    no difference: the loop always ends by itself. *)
Definition loop_measure (r : ReprDecoder) : nat :=
  (length (rd_buf r) + match rd_state r with Some _ => 1 | None => 0 end)%nat.

Definition run (r : ReprDecoder) : HD () := decode_loop (S (loop_measure r)) r.

Lemma ReprDecoder_decode_measure r r' repr :
  ReprDecoder_decode r = (r', Ok (Some repr)) → (loop_measure r' < loop_measure r)%nat.
Proof.
  destruct r as [[|x buf] s]; unfold ReprDecoder_decode, loop_measure; cbn [rd_buf rd_state]; [done|].
  destruct (ReprDecodeState_decode _ _) as [? rest| |] eqn:E; [|done..].
  apply ReprDecodeState_length in E as [E1 E2]. intros [= <- ->]. cbn [rd_buf rd_state].
  destruct s; cbn [default] in *; [lia|]. specialize (E2 eq_refl). lia.
Qed.

Lemma decode_loop_fuel f1 f2 r d :
  (loop_measure r < f1)%nat → (loop_measure r < f2)%nat →
  decode_loop f1 r d = decode_loop f2 r d.
Proof.
  revert f2 r d. induction f1 as [|f1 IH]; intros [|f2] r d H1 H2; [lia..|]. cbn [decode_loop].
  destruct (ReprDecoder_decode r) as [r' [[repr|]| |]] eqn:E; [|done..].
  apply ReprDecoder_decode_measure in E. unfold mbind, ST_bind.
  destruct (Updater_update repr d) as [d' [[]| |]]; [|done..]. apply IH; lia.
Qed.

(** The loop without fuel. *)
Lemma run_unfold r d :
  run r d =
  match ReprDecoder_decode r with
  | (r', Ok (Some repr)) => (_ ← Updater_update repr; run r') d
  | (r', Ok None) => (set_holder (rd_state r') d, Ok ())
  | (_, Err e) => (d, Err e)
  | (_, Panic) => (d, Panic)
  end.
Proof.
  unfold run at 1. cbn [decode_loop].
  destruct (ReprDecoder_decode r) as [r' [[repr|]| |]] eqn:E; [|done..].
  apply ReprDecoder_decode_measure in E. unfold mbind, ST_bind.
  destruct (Updater_update repr d) as [d' [[]| |]]; [|done..]. apply decode_loop_fuel; lia.
Qed.

Lemma HpackDecoder_decode_run buf d :
  HpackDecoder_decode buf d = run (mkReprDecoder buf (hp_holder d)) (set_holder None d).
Proof.
  unfold HpackDecoder_decode, run, mbind, ST_bind, get_st, put_st, decode_fuel.
  apply decode_loop_fuel; unfold loop_measure; cbn [rd_buf rd_state]; destruct (hp_holder d); lia.
Qed.

(** ** Updating *)

(** The header line that a representation stands for. *)
Definition line_of (t : DynamicTable) (r : Representation) : option (Header * bytes) :=
  match r with
  | Indexed i => search_header t i
  | LiteralWithIndexing n v | LiteralWithoutIndexing n v | LiteralNeverIndexed n v =>
      match n with
      | Index i => (λ h, (h, v)) <$> search_header_name t i
      | Literal s => Some (Other s, v)
      end
  | SizeUpdate _ => None
  end.

(** What becomes of the table. *)
Definition table_after (t : DynamicTable) (r : Representation) : DynamicTable :=
  match line_of t r, r with
  | _, SizeUpdate m => dt_update_size t m
  | Some (h, v), LiteralWithIndexing _ _ => dt_update t h v
  | _, _ => t
  end.

Definition line_size (e : Header * bytes) : Z := header_line_length (Header_len e.1) (len e.2).

Definition with_line (d : HpackDecoder) (r : Representation) (e : Header * bytes) : HpackDecoder :=
  set_table (table_after (hp_table d) r) (set_header_size (hp_header_size d + line_size e) d).

Lemma check_header_list_size_eq h v d :
  check_header_list_size h v d =
  if hp_header_list_size d <? hp_header_size d + line_size (h, v)
  then (set_header_size (hp_header_size d + line_size (h, v)) d, Err (ConnectionError ConnectError))
  else (set_header_size (hp_header_size d + line_size (h, v)) d, Ok ()).
Proof.
  unfold check_header_list_size. repeat (rewrite bind_st; cbn -[Z.ltb mbind]).
  unfold line_size. cbn [fst snd]. by destruct (_ <? _).
Qed.

(** [Updater::update], branch by branch. *)
Lemma Updater_update_eq r d :
  Updater_update r d =
  match line_of (hp_table d) r with
  | None =>
      match r with
      | SizeUpdate m => (set_table (dt_update_size (hp_table d) m) d, Ok ())
      | _ => (d, Err (ConnectionError CompressionError))
      end
  | Some (h, v) =>
      if hp_header_list_size d <? hp_header_size d + line_size (h, v)
      then (set_header_size (hp_header_size d + line_size (h, v)) d, Err (ConnectionError ConnectError))
      else parts_update h v (with_line d r (h, v))
  end.
Proof.
  unfold with_line, table_after.
  destruct r as [i|[i|s] v|[i|s] v|[i|s] v|m]; cbn [Updater_update line_of]; [..|done];
    unfold update_indexed, update_literal_never_indexing, update_literal_with_indexing,
      update_literal_without_indexing, get_header_by_name_and_value, ok_or_compression;
    repeat (rewrite bind_st; cbn [get_st]);
    try (destruct (search_header (hp_table d) i) as [[h v]|]; [|done]);
    try (destruct (search_header_name (hp_table d) i) as [h|]; [|done]);
    cbn [mret ST_ret fst snd fmap option_fmap option_map];
    rewrite ?bind_st, check_header_list_size_eq; by destruct d, (_ <? _).
Qed.

Lemma parts_update_cases h v d :
  parts_update h v d =
  if field_ok h v then (set_parts (Parts_update (E := H2Error) h v (hp_parts d)).1 d, Ok ())
  else (d, Panic).
Proof.
  unfold parts_update, zoom. pose proof (Parts_update_cases (E := H2Error) h v (hp_parts d)) as H.
  destruct (field_ok h v).
  - by destruct H as [p' ->].
  - rewrite H. by destruct d.
Qed.

(** What an update leaves alone. *)
Lemma Updater_update_frame r d :
  hp_holder (Updater_update r d).1 = hp_holder d ∧
  hp_header_list_size (Updater_update r d).1 = hp_header_list_size d.
Proof.
  rewrite Updater_update_eq. destruct (line_of _ _) as [[h v]|]; [|by destruct r].
  destruct (_ <? _); [done|]. rewrite parts_update_cases. by destruct (field_ok h v).
Qed.

(** ** Segments *)

Lemma set_holder_id s d : hp_holder d = s → set_holder s d = d.
Proof. intros <-. by destruct d. Qed.

Lemma set_holder_twice s s' d : set_holder s (set_holder s' d) = set_holder s d.
Proof. by destruct d. Qed.

Lemma run_nil s d : run (mkReprDecoder [] s) d = (set_holder s d, Ok ()).
Proof. by rewrite run_unfold. Qed.

Lemma HpackDecoder_decode_nil d : HpackDecoder_decode [] d = (d, Ok ()).
Proof.
  rewrite HpackDecoder_decode_run, run_nil, set_holder_twice. by rewrite set_holder_id.
Qed.

Lemma HpackDecoder_decode_held b s d :
  hp_holder d = None → HpackDecoder_decode b (set_holder s d) = run (mkReprDecoder b s) d.
Proof.
  intros Hd. rewrite HpackDecoder_decode_run, set_holder_twice, (set_holder_id None) by done. done.
Qed.

Lemma run_app n a b s d :
  (loop_measure (mkReprDecoder a s) ≤ n)%nat → hp_holder d = None →
  run (mkReprDecoder (a ++ b) s) d = (_ ← run (mkReprDecoder a s); HpackDecoder_decode b) d.
Proof.
  revert a s d. induction n as [|n IH]; intros a s d Hn Hd; rewrite bind_st.
  - destruct a; [|by unfold loop_measure in Hn; cbn in Hn; lia].
    by rewrite run_nil, HpackDecoder_decode_held.
  - destruct a as [|x a].
    { by rewrite run_nil, HpackDecoder_decode_held. }
    rewrite (run_unfold (mkReprDecoder (x :: a) s)), run_unfold. unfold ReprDecoder_decode.
    cbn [rd_buf rd_state app]. set (st := default (SIndex FirstByte) s).
    pose proof (ReprDecodeState_resumable st (x :: a) b) as Hr. cbn [app] in Hr.
    destruct (ReprDecodeState_decode st (x :: a)) as [r rest|s'|e] eqn:E.
    + rewrite Hr, !bind_st. destruct (Updater_update_frame r d) as [Hf _].
      destruct (Updater_update r d) as [d' [[]|e|]]; [|done..]. cbn [fst] in Hf.
      rewrite IH, bind_st; [done| |congruence].
      apply ReprDecodeState_length in E as [E1 E2]. unfold loop_measure in *. cbn [rd_buf rd_state] in *.
      subst st. destruct s; cbn [default] in *; [|specialize (E2 eq_refl)]; lia.
    + cbn [rd_state]. rewrite HpackDecoder_decode_held by done. destruct b as [|y b].
      * rewrite app_nil_r in Hr. by rewrite app_nil_r, E, run_nil.
      * rewrite run_unfold. unfold ReprDecoder_decode. cbn [rd_buf rd_state default]. by rewrite Hr.
    + by rewrite Hr.
Qed.

Lemma HpackDecoder_decode_app a b d :
  HpackDecoder_decode (a ++ b) d = (_ ← HpackDecoder_decode a; HpackDecoder_decode b) d.
Proof.
  rewrite HpackDecoder_decode_run, (run_app (loop_measure (mkReprDecoder a (hp_holder d)))) by done.
  by rewrite !bind_st, HpackDecoder_decode_run.
Qed.

(** decoding a header block in one call or in two gives the same decoder
    and the same result, wherever the block is cut and whatever its bytes are:
    the same table, the same header lines, the same error. *)
Theorem hpack_decode_segments (a b : bytes) (d : HpackDecoder) :
  HpackDecoder_decode (a ++ b) d = (_ ← HpackDecoder_decode a; HpackDecoder_decode b) d.
Proof. apply HpackDecoder_decode_app. Qed.

(** ** Header blocks in wire format *)

Fixpoint update_all (rs : list Representation) : HD () :=
  match rs with
  | [] => mret ()
  | r :: rs => _ ← Updater_update r; update_all rs
  end.

(** Each representation with its choice of plain or Huffman strings. *)
Definition block_wire (rs : list (bool * Representation)) : bytes :=
  rs ≫= λ p, repr_wire p.1 p.2.

Lemma repr_wire_cons h r : ∃ x l, repr_wire h r = x :: l.
Proof.
  assert (∀ i m p k, ∃ x l, int_bytes i m p ++ k = x :: l) as H.
  { intros. unfold int_bytes. destruct (_ <? _); cbn; eauto. }
  destruct r as [i|n v|n v|n v|m]; cbn [repr_wire];
    try (rewrite <- (app_nil_r (int_bytes _ _ _)); apply H);
    destruct n; cbn [name_wire]; rewrite <- ?app_assoc; apply H.
Qed.

Lemma run_block rs rest d :
  Forall (λ p, repr_ok p.2) rs → hp_holder d = None →
  run (mkReprDecoder (block_wire rs ++ rest) None) d =
    (_ ← update_all (snd <$> rs); HpackDecoder_decode rest) d.
Proof.
  intros Hrs. revert d. induction Hrs as [|[h r] rs Hr Hrs IH]; intros d Hd.
  - cbn [block_wire mbind list_bind app fmap list_fmap update_all]. rewrite bind_st. cbn [mret ST_ret].
    by rewrite HpackDecoder_decode_run, Hd, set_holder_id.
  - change (block_wire ((h, r) :: rs)) with (repr_wire h r ++ block_wire rs).
    rewrite <- app_assoc, run_unfold. unfold ReprDecoder_decode. cbn [rd_buf rd_state default].
    rewrite (LiteralRepr_wire h r) by done.
    destruct (repr_wire_cons h r) as (x & l & ->). cbn [app].
    cbn [fmap list_fmap snd update_all]. rewrite !bind_st.
    destruct (Updater_update_frame r d) as [Hf _].
    destruct (Updater_update r d) as [d' [[]|e|]]; [|done..]. cbn [fst] in Hf.
    rewrite IH by congruence. by rewrite bind_st.
Qed.

(** a header block that is the wire format of a list of representations is
    decoded by applying them in order, up to the first that fails. *)
Theorem hpack_decode_block (rs : list (bool * Representation)) (d : HpackDecoder)
    (Hrs : Forall (λ p, repr_ok p.2) rs) (Hd : hp_holder d = None) :
  HpackDecoder_decode (block_wire rs) d = update_all (snd <$> rs) d.
Proof.
  rewrite HpackDecoder_decode_run, Hd, set_holder_id by done.
  rewrite <- (app_nil_r (block_wire rs)), run_block, bind_st by done.
  destruct (update_all _ d) as [d' [[]| |]]; [|done..]. by rewrite HpackDecoder_decode_nil.
Qed.

Lemma hpack_decode_block_witness :
  HpackDecoder_decode (block_wire [(false, Indexed 2); (true, SizeUpdate 30)])
    (HpackDecoder_with_max_size 4096 16384)
  = update_all [Indexed 2; SizeUpdate 30] (HpackDecoder_with_max_size 4096 16384).
Proof.
  refine (hpack_decode_block [(false, Indexed 2); (true, SizeUpdate 30)] _ _ _); [|reflexivity].
  repeat constructor; cbv; discriminate.
Defined.

(** ** Invariant *)

(** The dynamic table is consistent and within its limit, and its entries are
    fields that [Parts] accepts. *)
Definition decoder_inv (d : HpackDecoder) : Prop :=
  table_inv (hp_table d) ∧ 0 ≤ dt_max_size (hp_table d) ≤ USIZE_MAX ∧
  dt_curr_size (hp_table d) ≤ dt_max_size (hp_table d) ∧
  Forall (λ e, field_ok e.1 e.2 = true) (dt_queue (hp_table d)) ∧
  from_option state_ok True (hp_holder d).

Lemma longest_fit_Forall (P : Header * bytes → Prop) m q : Forall P q → Forall P (longest_fit m q).
Proof.
  intros H. revert m. induction H as [|e q He Hq IH]; intros m; cbn; [done|].
  destruct (_ <=? m); auto.
Qed.

Lemma static_field_ok i h v : static_header i = Some (h, v) → field_ok h v = true.
Proof.
  destruct (decide (1 ≤ i ≤ 61)) as [Hi|Hi].
  - assert (forallb (λ i, match static_header i with Some (h, v) => field_ok h v | None => true end)
      (seqZ 1 61) = true) as Hall by (vm_compute; reflexivity).
    rewrite forallb_forall in Hall. intros E.
    specialize (Hall i ltac:(apply list_elem_of_In, elem_of_seqZ; lia)). by rewrite E in Hall.
  - destruct i as [|p|p]; [done| |done]. intros E. exfalso. revert E. cbn [static_header].
    repeat (destruct p as [p|p|]; try done; try lia).
Qed.

(** A field found in the tables is accepted. *)
Lemma search_field_ok d i h v :
  decoder_inv d → search_header (hp_table d) i = Some (h, v) → field_ok h v = true.
Proof.
  intros (_ & _ & _ & Hq & _). unfold search_header, dt_header.
  destruct (i <=? 61); [apply static_field_ok|]. intros E.
  by eapply Forall_lookup_1 in Hq; [|done].
Qed.

Lemma table_update_inv t h v :
  table_inv t → 0 ≤ dt_max_size t ≤ USIZE_MAX → Forall (λ e, field_ok e.1 e.2 = true) (dt_queue t) →
  field_ok h v = true →
  table_inv (dt_update t h v) ∧ dt_max_size (dt_update t h v) = dt_max_size t ∧
  dt_curr_size (dt_update t h v) ≤ dt_max_size t ∧
  Forall (λ e, field_ok e.1 e.2 = true) (dt_queue (dt_update t h v)).
Proof.
  intros Hinv Hmax Hq Hf. unfold dt_update. rewrite fit_size_spec.
  - cbn [dt_max_size dt_queue dt_curr_size]. split_and!; [done..|apply total_size_longest_fit; lia|].
    apply longest_fit_Forall. by constructor.
  - unfold table_inv in *. cbn. unfold total_size in *. lia.
Qed.

(** The kinds of representation that can carry a field [Parts] refuses. *)
Definition is_literal (r : Representation) : bool :=
  match r with Indexed _ | SizeUpdate _ => false | _ => true end.

Lemma Updater_update_inv r d :
  decoder_inv d → (∀ m, r = SizeUpdate m → 0 ≤ m ≤ USIZE_MAX) →
  match Updater_update r d with
  | (d', Ok _) =>
      decoder_inv d' ∧
      (hp_header_size d ≤ hp_header_list_size d → hp_header_size d' ≤ hp_header_list_size d')
  | (d', Err _) => decoder_inv d'
  | (_, Panic) => is_literal r = true ∧
      ∃ h v, line_of (hp_table d) r = Some (h, v) ∧ field_ok h v = false
  end.
Proof.
  intros Hd Hm. pose proof Hd as (Hinv & Hmax & Hcur & Hq & Hst). rewrite Updater_update_eq.
  destruct (line_of (hp_table d) r) as [[h v]|] eqn:El.
  2:{ destruct r; try exact Hd. specialize (Hm _ eq_refl).
      split; [|done]. unfold decoder_inv, set_table, dt_update_size. cbn [hp_table hp_holder].
      rewrite fit_size_spec by done. cbn [dt_max_size dt_queue dt_curr_size].
      split_and!; [done|lia..|apply total_size_longest_fit; lia|by apply longest_fit_Forall|done]. }
  assert (is_literal r = false → field_ok h v = true) as Hi.
  { destruct r; try done. intros _. by eapply search_field_ok. }
  destruct (_ <? _) eqn:Elt; [by destruct r|].
  rewrite parts_update_cases. bool_to_prop. destruct (field_ok h v) eqn:Ef.
  - pose proof (table_update_inv (hp_table d) h v Hinv Hmax Hq Ef) as (H1 & H2 & H3 & H4).
    unfold with_line, table_after. rewrite El.
    destruct r; try done; (split; [|done]); split_and!; cbn; rewrite ?H2;
      done || lia.
  - destruct r; try (by specialize (Hi eq_refl)); (split; [done|eauto]).
Qed.

(** The representations that are read one after the other. *)
Inductive reads : ReprDecoder → Representation → Prop :=
  | reads_here r r' x : ReprDecoder_decode r = (r', Ok (Some x)) → reads r x
  | reads_later r r' x y : ReprDecoder_decode r = (r', Ok (Some x)) → reads r' y → reads r y.

(** The outcome of reading [r]: the invariant, and no panic but one that a
    literal field among those read caused. *)
Definition outcome_ok (r : ReprDecoder) (d : HpackDecoder)
    (out : HpackDecoder * result H2Error ()) : Prop :=
  match out with
  | (d', Ok _) =>
      decoder_inv d' ∧
      (hp_header_size d ≤ hp_header_list_size d → hp_header_size d' ≤ hp_header_list_size d')
  | (d', Err _) => decoder_inv d'
  | (_, Panic) => ∃ x t h v, reads r x ∧ is_literal x = true ∧
      line_of t x = Some (h, v) ∧ field_ok h v = false
  end.

Lemma decoder_inv_holder s d :
  decoder_inv d → from_option state_ok True s → decoder_inv (set_holder s d).
Proof. by intros (? & ? & ? & ? & ?) ?. Qed.

Lemma outcome_later r r' x d d' out :
  ReprDecoder_decode r = (r', Ok (Some x)) →
  (hp_header_size d ≤ hp_header_list_size d → hp_header_size d' ≤ hp_header_list_size d') →
  outcome_ok r' d' out → outcome_ok r d out.
Proof.
  intros E Hs. destruct out as [d'' [[]|e|]]; cbn; [naive_solver|done|].
  intros (y & t & h & v & Hy & ?). exists y, t, h, v. split; [by eapply reads_later|done].
Qed.

Lemma run_inv n r d :
  (loop_measure r ≤ n)%nat → decoder_inv d → from_option state_ok True (rd_state r) →
  outcome_ok r d (run r d).
Proof.
  revert r d. induction n as [|n IH]; intros r d Hn Hd Hr; rewrite run_unfold.
  - destruct r as [[|x buf] s]; [|unfold loop_measure in Hn; cbn in Hn; lia].
    split; [by apply decoder_inv_holder|done].
  - destruct (ReprDecoder_decode r) as [r' o] eqn:E. pose proof E as Er.
    destruct r as [[|x buf] s]; unfold ReprDecoder_decode in E; cbn [rd_buf rd_state] in *.
    { injection E as <- <-. split; [by apply decoder_inv_holder|done]. }
    pose proof (ReprDecodeState_nonneg (default (SIndex FirstByte) s) (x :: buf)
      ltac:(by destruct s)) as Hs.
    destruct (ReprDecodeState_decode _ _) as [repr rest|s'|e] eqn:Ed; injection E as <- <-.
    + apply ReprDecoder_decode_measure in Er as Em. rewrite bind_st.
      pose proof (Updater_update_inv repr d Hd ltac:(by intros m ->)) as Hu.
      destruct (Updater_update repr d) as [d' [[]|e|]]; [|done|].
      * destruct Hu as [Hu1 Hu2]. eapply outcome_later; [done..|]. by apply IH; [lia|..].
      * destruct Hu as (Hu1 & h & v & Hu). exists repr, (hp_table d), h, v.
        split; [by eapply reads_here|done].
    + split; [by apply decoder_inv_holder|done].
    + done.
Qed.

(** C38: whatever bytes are decoded, on success and on error, the decoder stays
    consistent: [curr_size] is the size of the entries and within the limit;
    after a success the header lines are within the header list limit.  The
    decoder panics only when a literal field is read whose name or value
    [Headers] refuses. *)
Theorem hpack_decode_invariant (buf : bytes) (d : HpackDecoder) (Hd : decoder_inv d) :
  outcome_ok (mkReprDecoder buf (hp_holder d)) d (HpackDecoder_decode buf d).
Proof.
  rewrite HpackDecoder_decode_run.
  apply (run_inv _ _ (set_holder None d) (le_n _)); [|apply Hd]. by apply decoder_inv_holder.
Qed.

Lemma decoder_inv_new t l : 0 ≤ t ≤ USIZE_MAX → decoder_inv (HpackDecoder_with_max_size t l).
Proof. intros Ht. unfold decoder_inv. cbn. split_and!; done || lia. Qed.

Lemma usize_4096 : 0 ≤ 4096 ≤ USIZE_MAX.
Proof. unfold USIZE_MAX. lia. Qed.

Lemma hpack_decode_invariant_witness :
  outcome_ok (mkReprDecoder [130; 190] None) (HpackDecoder_with_max_size 4096 16384)
    (HpackDecoder_decode [130; 190] (HpackDecoder_with_max_size 4096 16384)) ∧
  (HpackDecoder_decode [130; 190] (HpackDecoder_with_max_size 4096 16384)).2 =
    Err (ConnectionError CompressionError).
Proof.
  split; [|vm_compute; reflexivity].
  refine (hpack_decode_invariant [130; 190] _ (decoder_inv_new 4096 16384 usize_4096)).
Defined.

Lemma decode_one h r d :
  repr_ok r → hp_holder d = None → HpackDecoder_decode (repr_wire h r) d = Updater_update r d.
Proof.
  intros Hr Hd. pose proof (run_block [(h, r)] [] d) as H.
  unfold block_wire in H. cbn [mbind list_bind fst snd fmap list_fmap update_all] in H.
  rewrite !app_nil_r in H. rewrite HpackDecoder_decode_run, Hd, set_holder_id by done.
  rewrite H by (done || by constructor). rewrite !bind_st.
  destruct (Updater_update r d) as [d' [[]| |]]; [|done..]. cbn. by rewrite HpackDecoder_decode_nil.
Qed.

(** a peer can make the decoder panic: a literal field that is not indexed,
    with a name that [Headers] refuses, such as a pseudo header's, or a value it
    refuses, and that fits in the header list limit, reaches the [unwrap] of
    [Parts::update]. *)
Theorem hpack_decode_literal_panic (h : bool) (name value : bytes) (d : HpackDecoder)
    (Hn : string_ok name) (Hv : string_ok value) (Hbad : field_ok (Other name) value = false)
    (Hd : hp_holder d = None)
    (Hfit : hp_header_size d + len name + len value + 32 ≤ hp_header_list_size d) :
  (HpackDecoder_decode (repr_wire h (LiteralWithoutIndexing (Literal name) value)) d).2 = Panic.
Proof.
  rewrite decode_one, Updater_update_eq by done. cbn [line_of].
  unfold line_size, header_line_length. cbn [fst snd Header_len].
  destruct (Z.ltb_spec (hp_header_list_size d) (hp_header_size d + (len name + len value + 32))); [lia|].
  by rewrite parts_update_cases, Hbad.
Qed.

Lemma hpack_decode_literal_panic_witness :
  (HpackDecoder_decode (repr_wire false (LiteralWithoutIndexing (Literal (bs ":status")) (bs "200")))
    (HpackDecoder_with_max_size 4096 16384)).2 = Panic.
Proof.
  refine (hpack_decode_literal_panic false (bs ":status") (bs "200") _ _ _ _ _ _);
    [apply string_ok_short; [repeat constructor; cbv; discriminate|vm_compute; lia..]
    |apply string_ok_short; [repeat constructor; cbv; discriminate|vm_compute; lia..]
    |vm_compute; reflexivity|reflexivity|vm_compute; discriminate].
Defined.

(** a size update sets the limit of the dynamic table to any [usize] the
    peer names, above the size the decoder was created with as well. *)
Theorem hpack_size_update_any (m : Z) (d : HpackDecoder)
    (Hm : 0 ≤ m ≤ USIZE_MAX) (Hd : hp_holder d = None) :
  HpackDecoder_decode (int_bytes m 0x1f 0x20) d =
    (set_table (dt_update_size (hp_table d) m) d, Ok ()) ∧
  dt_max_size (dt_update_size (hp_table d) m) = m.
Proof.
  split.
  - by rewrite (decode_one false (SizeUpdate m)).
  - unfold dt_update_size, fit_size. by destruct (pop_back_while _ _ _).
Qed.

Lemma hpack_size_update_any_witness :
  dt_max_size (dt_update_size (hp_table (HpackDecoder_with_max_size 4096 16384)) 1000000) = 1000000.
Proof.
  refine (proj2 (hpack_size_update_any 1000000 (HpackDecoder_with_max_size 4096 16384) _ _));
    [unfold USIZE_MAX; lia|reflexivity].
Defined.
