(* ===== verification/HpackEncoder.v ===== *)
(** * The HPACK encoder

    Models [src/ylong_http/src/h2/hpack/representation/encoder.rs] and
    [src/ylong_http/src/h2/hpack/encoder.rs]: the resumable encoders of
    integers, octets and representations, the iterator over [Parts], and
    [HpackEncoder], which writes a header block into buffers of any size.

    A [dst: &mut [u8]] is its length, [room]; what a method writes at its front
    is an output. *)

From S2P Require Import Prelude Huffman H2Error HpackInteger HpackTable HpackRepr Headers Parts.
From S2P Require Import HpackDecoder.
#[local] Open Scope Z_scope.

(** ** Integers and octets

    The bytes written, and [None] for [Ok(size)], [size] being their number, or
    [Some s] for [Err(s)], the state to go on from. *)
Definition EncResult (S : Type) : Type := bytes * option S.

(** [Integer::index], [Integer::length]. *)
Definition Integer_index (index mask pre : Z) : IntegerEncoder := IntegerEncoder_new index mask pre.
Definition pre_mask (is_huffman : bool) : Z := if is_huffman then 0x80 else 0.
Definition Integer_length (length : Z) (is_huffman : bool) : IntegerEncoder :=
  IntegerEncoder_new length 0x7f (pre_mask is_huffman).

(** [Integer::encode].  An encoder that is not finished has a next byte, so the
    last arm, an [unwrap] of [None], is not reached. *)
Fixpoint Integer_encode (int : IntegerEncoder) (room : nat) : EncResult IntegerEncoder :=
  if IntegerEncoder_is_finish int then ([], None)
  else match room with
       | O => ([], Some int)
       | S room =>
           match IntegerEncoder_next_byte int with
           | (int, Some b) => let '(out, r) := Integer_encode int room in (b :: out, r)
           | (int, None) => ([], Some int)
           end
       end.

Record Octets := mkOctets { oc_src : bytes; oc_idx : Z }.

(** [Octets::new]. *)
Definition Octets_new (src : bytes) (is_huffman : bool) : Octets :=
  if is_huffman then mkOctets (huffman_encode src []) 0 else mkOctets src 0.

(** [Octets::encode]. *)
Definition Octets_encode (o : Octets) (room : nat) : EncResult Octets :=
  let input_len := len (oc_src o) - oc_idx o in
  let output_len := Z.of_nat room in
  if input_len =? 0 then ([], None)
  else match output_len ?= input_len with
       | Gt | Eq => (dropZ (oc_idx o) (oc_src o), None)
       | Lt => (takeZ output_len (dropZ (oc_idx o) (oc_src o)),
                Some (mkOctets (oc_src o) (oc_idx o + output_len)))
       end.

(** ** Representations *)

Record IndexAndValue := mkIndexAndValue {
  iv_index : option IntegerEncoder;
  iv_value_length : option IntegerEncoder;
  iv_value_octets : option Octets }.

Record NameAndValue := mkNameAndValue {
  nv_index : option IntegerEncoder;
  nv_name_length : option IntegerEncoder;
  nv_name_octets : option Octets;
  nv_value_length : option IntegerEncoder;
  nv_value_octets : option Octets }.

(** [IndexAndValue::new().set_index(..).set_value(..)]. *)
Definition IndexAndValue_new (index mask pre : Z) (value : bytes) (h : bool) : IndexAndValue :=
  let octets := Octets_new value h in
  mkIndexAndValue (Some (Integer_index index mask pre))
    (Some (Integer_length (len (oc_src octets)) h)) (Some octets).

(** [NameAndValue::new().set_index(..).set_name_and_value(..)]. *)
Definition NameAndValue_new (mask pre : Z) (name value : bytes) (h : bool) : NameAndValue :=
  let name_octets := Octets_new name h in
  let value_octets := Octets_new value h in
  mkNameAndValue (Some (Integer_index 0 mask pre))
    (Some (Integer_length (len (oc_src name_octets)) h)) (Some name_octets)
    (Some (Integer_length (len (oc_src value_octets)) h)) (Some value_octets).

(** The macro [check_and_encode!]: what is written, the room that is left, and
    the item, [None] once it is written. *)
Definition check_and_encode {S} (enc : S → nat → EncResult S) (item : option S) (room : nat) :
    bytes * nat * option S :=
  match item with
  | None => ([], room, None)
  | Some i => let '(out, r) := enc i room in (out, (room - length out)%nat, r)
  end.

(** [IndexAndValue::encode]: each item that stays stops the encoding. *)
Definition IndexAndValue_encode (s : IndexAndValue) (room : nat) : EncResult IndexAndValue :=
  let '(mkIndexAndValue i vl vo) := s in
  let '(o1, room, i) := check_and_encode Integer_encode i room in
  if i is Some _ then (o1, Some (mkIndexAndValue i vl vo)) else
  let '(o2, room, vl) := check_and_encode Integer_encode vl room in
  if vl is Some _ then (o1 ++ o2, Some (mkIndexAndValue i vl vo)) else
  let '(o3, room, vo) := check_and_encode Octets_encode vo room in
  if vo is Some _ then (o1 ++ o2 ++ o3, Some (mkIndexAndValue i vl vo)) else (o1 ++ o2 ++ o3, None).

(** [NameAndValue::encode]. *)
Definition NameAndValue_encode (s : NameAndValue) (room : nat) : EncResult NameAndValue :=
  let '(mkNameAndValue i nl no vl vo) := s in
  let '(o1, room, i) := check_and_encode Integer_encode i room in
  if i is Some _ then (o1, Some (mkNameAndValue i nl no vl vo)) else
  let '(o2, room, nl) := check_and_encode Integer_encode nl room in
  if nl is Some _ then (o1 ++ o2, Some (mkNameAndValue i nl no vl vo)) else
  let '(o3, room, no) := check_and_encode Octets_encode no room in
  if no is Some _ then (o1 ++ o2 ++ o3, Some (mkNameAndValue i nl no vl vo)) else
  let '(o4, room, vl) := check_and_encode Integer_encode vl room in
  if vl is Some _ then (o1 ++ o2 ++ o3 ++ o4, Some (mkNameAndValue i nl no vl vo)) else
  let '(o5, room, vo) := check_and_encode Octets_encode vo room in
  if vo is Some _ then (o1 ++ o2 ++ o3 ++ o4 ++ o5, Some (mkNameAndValue i nl no vl vo))
  else (o1 ++ o2 ++ o3 ++ o4 ++ o5, None).

(** [ReprEncodeState]. *)
Inductive ReprEncodeState :=
  | EIndexed (index : IntegerEncoder)
  | EIndexing (inner : IndexAndValue)
  | EIndexingWithName (inner : NameAndValue)
  | EWithoutIndexing (inner : IndexAndValue)
  | EWithoutIndexingWithName (inner : NameAndValue)
  | ENeverIndexed (inner : IndexAndValue)
  | ENeverIndexedWithName (inner : NameAndValue).

(** The seven [new] functions. *)
Definition Indexed_new (index : Z) : ReprEncodeState :=
  EIndexed (Integer_index index (prefix_index_mask PB_INDEXED) 0x80).
Definition Indexing_new (index : Z) (value : bytes) (h : bool) : ReprEncodeState :=
  EIndexing (IndexAndValue_new index (prefix_index_mask PB_LITERAL_WITH_INDEXING) 0x40 value h).
Definition IndexingWithName_new (name value : bytes) (h : bool) : ReprEncodeState :=
  EIndexingWithName (NameAndValue_new (prefix_index_mask PB_LITERAL_WITH_INDEXING) 0x40 name value h).
Definition WithoutIndexing_new (index : Z) (value : bytes) (h : bool) : ReprEncodeState :=
  EWithoutIndexing
    (IndexAndValue_new index (prefix_index_mask PB_LITERAL_WITHOUT_INDEXING) 0x00 value h).
Definition WithoutIndexingWithName_new (name value : bytes) (h : bool) : ReprEncodeState :=
  EWithoutIndexingWithName
    (NameAndValue_new (prefix_index_mask PB_LITERAL_WITHOUT_INDEXING) 0x00 name value h).
Definition NeverIndexed_new (index : Z) (value : bytes) (h : bool) : ReprEncodeState :=
  ENeverIndexed (IndexAndValue_new index (prefix_index_mask PB_LITERAL_NEVER_INDEXED) 0x10 value h).
Definition NeverIndexedWithName_new (name value : bytes) (h : bool) : ReprEncodeState :=
  ENeverIndexedWithName
    (NameAndValue_new (prefix_index_mask PB_LITERAL_NEVER_INDEXED) 0x10 name value h).

Definition map_err {S T} (f : S → T) (r : EncResult S) : EncResult T := (r.1, f <$> r.2).

(** [ReprEncodeState::encode], with the [encode] of the seven structures. *)
Definition ReprEncodeState_encode (s : ReprEncodeState) (room : nat) : EncResult ReprEncodeState :=
  match s with
  | EIndexed i => map_err EIndexed (Integer_encode i room)
  | EIndexing i => map_err EIndexing (IndexAndValue_encode i room)
  | EIndexingWithName i => map_err EIndexingWithName (NameAndValue_encode i room)
  | EWithoutIndexing i => map_err EWithoutIndexing (IndexAndValue_encode i room)
  | EWithoutIndexingWithName i => map_err EWithoutIndexingWithName (NameAndValue_encode i room)
  | ENeverIndexed i => map_err ENeverIndexed (IndexAndValue_encode i room)
  | ENeverIndexedWithName i => map_err ENeverIndexedWithName (NameAndValue_encode i room)
  end.

(** ** The iterator over [Parts] *)

Inductive PartsIterDirection := DAuthority | DMethod | DPath | DScheme | DStatus | DOther.

(** [pi_map] is what is left of the hash map's iterator. *)
Record PartsIter := mkPartsIter {
  pi_pseudo : PseudoHeaders; pi_map : list (bytes * HeaderValue); pi_next_type : PartsIterDirection }.

(** [PartsIter::new]; [order] is the order in which the hash map is visited. *)
Definition PartsIter_new (pseudo : PseudoHeaders) (order : list (bytes * HeaderValue)) : PartsIter :=
  mkPartsIter pseudo order DMethod.

Definition next_other (pseudo : PseudoHeaders) (map : list (bytes * HeaderValue)) :
    option ((Header * bytes) * PartsIter) :=
  match map with
  | [] => None
  | (h, v) :: map => Some ((Other h, HeaderValue_to_vec v), mkPartsIter pseudo map DOther)
  end.

(** One arm of [PartsIter::next]: the value of the pseudo header, or the next
    turn of the loop. *)
Definition next_pseudo (h : Header) (dir : PartsIterDirection)
    (take : PseudoHeaders → PseudoHeaders * option bytes)
    (next : PseudoHeaders → list (bytes * HeaderValue) → option ((Header * bytes) * PartsIter))
    (pseudo : PseudoHeaders) (map : list (bytes * HeaderValue)) :
    option ((Header * bytes) * PartsIter) :=
  match take pseudo with
  | (pseudo, Some value) => Some ((h, value), mkPartsIter pseudo map dir)
  | (pseudo, None) => next pseudo map
  end.

Definition next_authority := next_pseudo Authority DAuthority take_authority next_other.
Definition next_path := next_pseudo Path DPath take_path next_authority.
Definition next_scheme := next_pseudo Scheme DScheme take_scheme next_path.
Definition next_status := next_pseudo Status DStatus take_status next_scheme.
Definition next_method := next_pseudo Method DMethod take_method next_status.

(** [PartsIter::next]: the order is method, status, scheme, path, authority,
    then the others. *)
Definition PartsIter_next (it : PartsIter) : option ((Header * bytes) * PartsIter) :=
  match pi_next_type it with
  | DMethod => next_method (pi_pseudo it) (pi_map it)
  | DStatus => next_status (pi_pseudo it) (pi_map it)
  | DScheme => next_scheme (pi_pseudo it) (pi_map it)
  | DPath => next_path (pi_pseudo it) (pi_map it)
  | DAuthority => next_authority (pi_pseudo it) (pi_map it)
  | DOther => next_other (pi_pseudo it) (pi_map it)
  end.

(** ** The encoder *)

(** The body of the loop of [ReprEncoder::encode]: the table after it, and the
    state whose [encode] is called. *)
Definition encode_line (t : DynamicTable) (huffman : bool) (h : Header) (v : bytes) :
    DynamicTable * ReprEncodeState :=
  match searcher_index t h v with
  | Some (IHeader index) => (t, Indexed_new index)
  | Some (IHeaderName index) => (dt_update t h v, Indexing_new index v huffman)
  | None => (dt_update t h v, IndexingWithName_new (into_string h) v huffman)
  end.

Record ReprEncoder := mkReprEncoder {
  re_table : DynamicTable; re_iter : option PartsIter; re_state : option ReprEncodeState }.

(** The loop of [ReprEncoder::encode]: the encoder after it, what is written,
    and whether it stopped with [dst] full. *)
Fixpoint encode_iter (fuel : nat) (t : DynamicTable) (it : PartsIter) (huffman : bool)
    (room : nat) : ReprEncoder * bytes * bool :=
  match fuel with
  | O => (mkReprEncoder t (Some it) None, [], false)
  | S fuel =>
      match PartsIter_next it with
      | None => (mkReprEncoder t None None, [], false)
      | Some ((h, v), it) =>
          let '(t, s) := encode_line t huffman h v in
          match ReprEncodeState_encode s room with
          | (out, Some s) => (mkReprEncoder t (Some it) (Some s), out, true)
          | (out, None) =>
              let '(e, out', full) := encode_iter fuel t it huffman (room - length out) in
              (e, out ++ out', full)
          end
      end
  end.

(** A turn takes one of the lines that are left: five pseudo headers at most. *)
Definition iter_fuel (it : PartsIter) : nat := (6 + length (pi_map it))%nat.

(** The [if let Some(iter)] of [ReprEncoder::encode], at position [cur] of a
    [dst] of [room] bytes. *)
Definition encode_rest (t : DynamicTable) (it : option PartsIter) (huffman : bool)
    (room cur : nat) : ReprEncoder * bytes * nat :=
  match it with
  | None => (mkReprEncoder t None None, [], cur)
  | Some it =>
      let '(e, out, full) := encode_iter (iter_fuel it) t it huffman (room - cur) in
      (e, out, if full then room else (cur + length out)%nat)
  end.

(** [ReprEncoder::encode]: the encoder after it, what is written and the size
    that is returned. *)
Definition ReprEncoder_encode (e : ReprEncoder) (room : nat) (huffman : bool) :
    ReprEncoder * bytes * nat :=
  match room, re_state e with
  | O, _ => (e, [], O)
  | _, None => encode_rest (re_table e) (re_iter e) huffman room 0
  | _, Some s =>
      match ReprEncodeState_encode s room with
      | (out, Some s) => (mkReprEncoder (re_table e) (re_iter e) (Some s), out, room)
      | (out, None) =>
          let '(e, out', size) := encode_rest (re_table e) (re_iter e) huffman room (length out) in
          (e, out ++ out', size)
      end
  end.

(** [HpackEncoder] with its [ReprEncStateHolder]. *)
Record HpackEncoder := mkHpackEncoder {
  he_table : DynamicTable;
  he_iter : option PartsIter;
  he_state : option ReprEncodeState;
  he_use_huffman : bool }.

(** [HpackEncoder::new]. *)
Definition HpackEncoder_new (max_size : Z) (use_huffman : bool) : HpackEncoder :=
  mkHpackEncoder (with_max_size max_size) None None use_huffman.

(** [HpackEncoder::set_parts]: a state left in the holder stays. *)
Definition HpackEncoder_set_parts (pseudo : PseudoHeaders) (order : list (bytes * HeaderValue))
    (e : HpackEncoder) : HpackEncoder :=
  mkHpackEncoder (he_table e) (Some (PartsIter_new pseudo order)) (he_state e) (he_use_huffman e).

(** [HpackEncoder::encode]: the holder is emptied, and filled again when [dst]
    was. *)
Definition HpackEncoder_encode (room : nat) (e : HpackEncoder) : HpackEncoder * bytes * nat :=
  let '(r, out, size) :=
    ReprEncoder_encode (mkReprEncoder (he_table e) (he_iter e) (he_state e)) room (he_use_huffman e) in
  if Nat.eqb size room
  then (mkHpackEncoder (re_table r) (re_iter r) (re_state r) (he_use_huffman e), out, size)
  else (mkHpackEncoder (re_table r) None None (he_use_huffman e), out, size).

(** [HpackEncoder::is_finished]. *)
Definition HpackEncoder_is_finished (e : HpackEncoder) : bool :=
  match he_iter e, he_state e with None, None => true | _, _ => false end.

(** ** Writers

    A resumable encoder writes its pending bytes: all of them when there is
    room, or as many as there is room for, leaving the others pending. *)

Definition wrote {S} (pending : S → bytes) (ok : S → Prop) (s : S) (room : nat)
    (r : EncResult S) : Prop :=
  match r with
  | (out, None) => out = pending s ∧ (length out ≤ room)%nat
  | (out, Some s') => length out = room ∧ pending s = out ++ pending s' ∧ pending s' ≠ [] ∧ ok s'
  end.

Class Writer {S} (enc : S → nat → EncResult S) (pending : S → bytes) (ok : S → Prop) : Prop :=
  writes : ∀ s room, ok s → wrote pending ok s room (enc s room).

(** *** Integers *)

Definition int_pending (e : IntegerEncoder) : bytes :=
  match ie_state e with
  | First => int_bytes (ie_i e) (ie_mask e) (ie_pre e)
  | HpackInteger.Other => groups 10 (ie_i e)
  | Finish => []
  end.

Definition int_ok (e : IntegerEncoder) : Prop :=
  0 ≤ ie_i e ≤ USIZE_MAX ∧ prefix_ok (ie_mask e) (ie_pre e).

Lemma groups_more fuel i :
  0 ≤ i < 128 ^ Z.of_nat (S fuel) → groups (S (S fuel)) i = groups (S fuel) i.
Proof.
  revert i. induction fuel as [|fuel IH]; intros i Hi.
  - change (128 ^ Z.of_nat 1) with 128 in Hi. rewrite !groups_unfold.
    by destruct (Z.ltb_spec i 128); [|lia].
  - rewrite groups_unfold, (groups_unfold (S fuel) i). destruct (Z.ltb_spec i 128); [done|]. f_equal.
    apply IH. split; [apply Z.div_pos; lia|]. apply Z.div_lt_upper_bound; [lia|].
    rewrite <- Z.pow_succ_r by lia. replace (Z.succ (Z.of_nat (S fuel))) with (Z.of_nat (S (S fuel))) by lia. lia.
Qed.

(** One byte. *)
Lemma Integer_next e :
  int_ok e → IntegerEncoder_is_finish e = false →
  ∃ e' b, IntegerEncoder_next_byte e = (e', Some b) ∧ int_pending e = b :: int_pending e' ∧ int_ok e'.
Proof.
  destruct e as [i mask pre st]. unfold int_ok, int_pending, IntegerEncoder_is_finish.
  cbn [ie_i ie_mask ie_pre ie_state IntegerEncoder_next_byte].
  intros [Hi Hp] Hst. pose proof Hp as ((n & Hn & Hmask) & Hpre & Hd).
  assert (1 < 2 ^ n ≤ 256) as Hpow.
  { split; [apply Z.pow_gt_1; lia|]. change 256 with (2 ^ 8). apply Z.pow_le_mono_r; lia. }
  destruct st; [| |done].
  - unfold int_bytes. destruct (Z.ltb_spec i mask); do 2 eexists; (split; [done|]);
      cbn [ie_i ie_mask ie_pre ie_state].
    + split; [|done]. f_equal. rewrite wrap8_small by lia. symmetry. apply lor_disjoint.
      rewrite Hmask in *. by apply (land_below pre i n); [lia| |lia].
    + split; [|split; [lia|done]]. f_equal. symmetry. by apply lor_disjoint.
  - destruct (Z.leb_spec 128 i); do 2 eexists; (split; [done|]); cbn [ie_i ie_mask ie_pre ie_state];
      rewrite groups_unfold; destruct (Z.ltb_spec i 128); try lia; rewrite land_127.
    + rewrite Z.shiftr_div_pow2 by lia. change (2 ^ 7) with 128.
      pose proof (Z.mod_pos_bound i 128). pose proof (usize_groups i Hi) as Hg.
      split; [|split; [split; [apply Z.div_pos; lia|apply Z.div_le_upper_bound; lia]|done]].
      f_equal.
      * rewrite wrap8_small by lia. symmetry. apply lor_disjoint.
        rewrite Z.land_comm. apply (land_below 128 _ 7); done || lia.
      * symmetry. apply (groups_more 8). split; [apply Z.div_pos; lia|].
        apply Z.div_lt_upper_bound; [lia|].
        rewrite <- Z.pow_succ_r by lia. exact (proj2 Hg).
    + split; [|done]. rewrite Z.mod_small, wrap8_small by lia. done.
Qed.

#[export] Instance Integer_writer : Writer Integer_encode int_pending int_ok.
Proof.
  intros e room. revert e. induction room as [|room IH]; intros e Hok; cbn [Integer_encode];
    destruct (IntegerEncoder_is_finish e) eqn:Ef;
    try (destruct e as [i m p []]; try done; (split; [done|cbn; lia]));
    destruct (Integer_next e Hok Ef) as (e' & b & En & Ep & Hok').
  - split_and!; [done..| |done]. by rewrite Ep.
  - rewrite En. specialize (IH e' Hok'). unfold wrote in *.
    destruct (Integer_encode e' room) as [out [s|]]; rewrite Ep.
    + destruct IH as (H1 & H2 & H3 & H4). cbn [length]. split_and!; [congruence| |done..].
      by rewrite H2.
    + destruct IH as [-> H]. cbn [length]. split; [done|lia].
Qed.

(** *** Octets *)

Definition oc_pending (o : Octets) : bytes := dropZ (oc_idx o) (oc_src o).
Definition oc_ok (o : Octets) : Prop := 0 ≤ oc_idx o ≤ len (oc_src o).

#[export] Instance Octets_writer : Writer Octets_encode oc_pending oc_ok.
Proof.
  intros [src idx] room. unfold oc_ok, wrote, Octets_encode, oc_pending. cbn [oc_src oc_idx]. intros Hok.
  pose proof (len_dropZ idx src Hok) as Hl. assert (len (dropZ idx src) = Z.of_nat (length (dropZ idx src))) as Hlen by done.
  destruct (Z.eqb_spec (len src - idx) 0).
  { rewrite (len_0_nil (dropZ idx src)) by lia. cbn. split; [done|lia]. }
  destruct (Z.compare_spec (Z.of_nat room) (len src - idx)); [split; [done|lia]| |split; [done|lia]].
  pose proof (len_takeZ (Z.of_nat room) (dropZ idx src) ltac:(lia)) as Ht.
  assert (len (takeZ (Z.of_nat room) (dropZ idx src)) =
    Z.of_nat (length (takeZ (Z.of_nat room) (dropZ idx src)))) by done.
  cbn [oc_src oc_idx]. rewrite <- dropZ_dropZ, takeZ_dropZ by lia. split_and!; [lia|done| |lia..].
  intros E. pose proof (len_dropZ (Z.of_nat room) (dropZ idx src) ltac:(lia)). rewrite E in *.
  rewrite len_nil in *. lia.
Qed.

(** *** Items in a row *)

Definition opt_pending {S} (pending : S → bytes) (o : option S) : bytes := from_option pending [] o.

Lemma check_and_encode_wrote {S} enc (pending : S → bytes) ok `{!Writer enc pending ok} item room :
  from_option ok True item →
  match check_and_encode enc item room with
  | (out, room', None) => out = opt_pending pending item ∧ (length out + room' = room)%nat
  | (out, room', Some s) =>
      length out = room ∧ opt_pending pending item = out ++ pending s ∧ pending s ≠ [] ∧ ok s
  end.
Proof.
  intros Hok. destruct item as [s|]; cbn [check_and_encode opt_pending from_option] in *; [|done].
  pose proof (writes s room Hok) as H. unfold wrote in H.
  destruct (enc s room) as [out [s'|]]; [done|]. destruct H as [-> H]. split; [done|lia].
Qed.

(** Runs the items of a goal one by one. *)
Ltac run_items :=
  repeat match goal with
  | |- context [check_and_encode ?enc ?item ?room] =>
      let H := fresh "H" in let o := fresh "o" in
      first [assert (H := check_and_encode_wrote enc int_pending int_ok item room ltac:(assumption))
            |assert (H := check_and_encode_wrote enc oc_pending oc_ok item room ltac:(assumption))];
      destruct (check_and_encode enc item room) as [[? ?] [?|]];
      [destruct H as (? & H & ? & ?)|destruct H as [-> ?]]
  end.

Ltac rewrite_items :=
  repeat match goal with H : opt_pending _ _ = _ ++ _ |- _ => rewrite H; clear H end.

(** The item that stopped the encoding is the first of those pending. *)
Ltac solve_items :=
  rewrite ?length_app; split_and!; cbn [opt_pending from_option app];
  rewrite <- ?app_assoc; try done; try lia;
  let E := fresh in intros E; repeat (apply app_eq_nil in E as [E ?]); done.

Definition iv_pending (s : IndexAndValue) : bytes :=
  opt_pending int_pending (iv_index s) ++ opt_pending int_pending (iv_value_length s) ++
  opt_pending oc_pending (iv_value_octets s).

Definition iv_ok (s : IndexAndValue) : Prop :=
  from_option int_ok True (iv_index s) ∧ from_option int_ok True (iv_value_length s) ∧
  from_option oc_ok True (iv_value_octets s).

#[export] Instance IndexAndValue_writer : Writer IndexAndValue_encode iv_pending iv_ok.
Proof.
  intros [i vl vo] room (Hi & Hl & Ho). cbn [iv_index iv_value_length iv_value_octets] in *.
  unfold IndexAndValue_encode, iv_pending, iv_ok.
  cbn [iv_index iv_value_length iv_value_octets].
  run_items; unfold wrote; cbn [iv_index iv_value_length iv_value_octets]; rewrite_items; solve_items.
Qed.

Definition nv_pending (s : NameAndValue) : bytes :=
  opt_pending int_pending (nv_index s) ++ opt_pending int_pending (nv_name_length s) ++
  opt_pending oc_pending (nv_name_octets s) ++ opt_pending int_pending (nv_value_length s) ++
  opt_pending oc_pending (nv_value_octets s).

Definition nv_ok (s : NameAndValue) : Prop :=
  from_option int_ok True (nv_index s) ∧ from_option int_ok True (nv_name_length s) ∧
  from_option oc_ok True (nv_name_octets s) ∧ from_option int_ok True (nv_value_length s) ∧
  from_option oc_ok True (nv_value_octets s).

#[export] Instance NameAndValue_writer : Writer NameAndValue_encode nv_pending nv_ok.
Proof.
  intros [i nl no vl vo] room (Hi & Hnl & Hno & Hl & Ho).
  cbn [nv_index nv_name_length nv_name_octets nv_value_length nv_value_octets] in *.
  unfold NameAndValue_encode, nv_pending, nv_ok.
  cbn [nv_index nv_name_length nv_name_octets nv_value_length nv_value_octets].
  run_items; unfold wrote; cbn [nv_index nv_name_length nv_name_octets nv_value_length nv_value_octets];
    rewrite_items; solve_items.
Qed.

Definition state_pending (s : ReprEncodeState) : bytes :=
  match s with
  | EIndexed i => int_pending i
  | EIndexing i | EWithoutIndexing i | ENeverIndexed i => iv_pending i
  | EIndexingWithName i | EWithoutIndexingWithName i | ENeverIndexedWithName i => nv_pending i
  end.

Definition enc_state_ok (s : ReprEncodeState) : Prop :=
  match s with
  | EIndexed i => int_ok i
  | EIndexing i | EWithoutIndexing i | ENeverIndexed i => iv_ok i
  | EIndexingWithName i | EWithoutIndexingWithName i | ENeverIndexedWithName i => nv_ok i
  end.

#[export] Instance ReprEncodeState_writer : Writer ReprEncodeState_encode state_pending enc_state_ok.
Proof.
  intros s room Hok. destruct s as [i|i|i|i|i|i|i]; cbn [ReprEncodeState_encode enc_state_ok] in *;
    pose proof (writes i room Hok) as H; unfold wrote, map_err in *;
    match goal with |- context [?f i room] => destruct (f i room) as [out [s'|]] end; exact H.
Qed.

(** ** What a new state writes *)

(** The representation that [encode_line] chooses. *)
Definition line_repr (t : DynamicTable) (h : Header) (v : bytes) : Representation :=
  match searcher_index t h v with
  | Some (IHeader index) => Indexed index
  | Some (IHeaderName index) => LiteralWithIndexing (Index index) v
  | None => LiteralWithIndexing (Literal (into_string h)) v
  end.

Lemma int_ok_index i p :
  0 ≤ i ≤ USIZE_MAX → int_ok (Integer_index i (prefix_index_mask p) (prefix_bit_value p)).
Proof. intros Hi. split; [done|apply prefix_ok_pb]. Qed.

Lemma int_ok_length h s : string_ok s → int_ok (Integer_length (len (string_octets h s)) h).
Proof.
  intros Hs. split; [by apply string_octets_len|].
  pose proof (prefix_ok_len h). by destruct h.
Qed.

Lemma Octets_new_eq s h : Octets_new s h = mkOctets (string_octets h s) 0.
Proof. by destruct h. Qed.

Lemma string_pending s h :
  int_pending (Integer_length (len (string_octets h s)) h) ++ oc_pending (Octets_new s h) = string_wire h s.
Proof. rewrite Octets_new_eq. by destruct h. Qed.

Lemma oc_ok_new s h : oc_ok (Octets_new s h).
Proof. rewrite Octets_new_eq. unfold oc_ok. cbn. split; [done|apply len_nonneg]. Qed.

Lemma IndexAndValue_new_spec i p v h :
  0 ≤ i ≤ USIZE_MAX → string_ok v →
  let s := IndexAndValue_new i (prefix_index_mask p) (prefix_bit_value p) v h in
  iv_ok s ∧ iv_pending s = name_wire h p (Index i) ++ string_wire h v.
Proof.
  intros Hi Hv s. subst s. unfold iv_ok, iv_pending, IndexAndValue_new.
  cbn [iv_index iv_value_length iv_value_octets opt_pending from_option].
  rewrite Octets_new_eq at 1 3. cbn [oc_src]. rewrite string_pending. split_and!; [..|done].
  - by apply int_ok_index.
  - by apply int_ok_length.
  - apply oc_ok_new.
Qed.

Lemma NameAndValue_new_spec p n v h :
  string_ok n → string_ok v →
  let s := NameAndValue_new (prefix_index_mask p) (prefix_bit_value p) n v h in
  nv_ok s ∧ nv_pending s = name_wire h p (Literal n) ++ string_wire h v.
Proof.
  intros Hn Hv s. subst s. unfold nv_ok, nv_pending, NameAndValue_new.
  cbn [nv_index nv_name_length nv_name_octets nv_value_length nv_value_octets opt_pending from_option].
  rewrite (Octets_new_eq n) at 1 3. rewrite (Octets_new_eq v) at 1 3. cbn [oc_src].
  rewrite string_pending, (app_assoc (int_pending (Integer_length _ _)) (oc_pending _)), string_pending.
  cbn [name_wire]. rewrite <- app_assoc. split_and!; [..|done].
  - apply int_ok_index, usize_0.
  - by apply int_ok_length.
  - apply oc_ok_new.
  - by apply int_ok_length.
  - apply oc_ok_new.
Qed.

(** Pseudo headers are all in the static table. *)
Lemma static_index_none h v : static_index h v = None → ∃ s, h = Other s.
Proof. destruct h; cbn [static_index]; repeat case_decide; try done. eauto. Qed.

(** The state chosen for a line writes its representation. *)
Lemma encode_line_spec t huff h v :
  repr_ok (line_repr t h v) →
  let '(t', s) := encode_line t huff h v in
  t' = table_after t (line_repr t h v) ∧ enc_state_ok s ∧
  state_pending s = repr_wire huff (line_repr t h v).
Proof.
  unfold encode_line, line_repr.
  pose proof (searcher_index_sound t h v) as Hs.
  destruct (searcher_index t h v) as [[i|i]|]; cbn [repr_ok]; intros Hr.
  - split_and!; [by unfold table_after; cbn [line_of]; destruct (search_header t i) as [[]|]|..].
    + by apply (int_ok_index i PB_INDEXED); lia.
    + done.
  - destruct Hr as [Hi Hv]. split.
    { unfold table_after. cbn [line_of]. by rewrite Hs. }
    by apply (IndexAndValue_new_spec i PB_LITERAL_WITH_INDEXING v huff); [cbn in Hi; lia|].
  - destruct Hr as [Hn Hv]. split.
    { unfold table_after. cbn [line_of]. by destruct (static_index_none h v Hs) as [s ->]. }
    by apply (NameAndValue_new_spec PB_LITERAL_WITH_INDEXING (into_string h) v huff).
Qed.

(** ** Header lines *)

Definition pseudo_line (h : Header) (o : option bytes) : list (Header * bytes) :=
  from_option (λ v, [(h, v)]) [] o.

Definition other_lines (map : list (bytes * HeaderValue)) : list (Header * bytes) :=
  (λ e, (Other e.1, HeaderValue_to_vec e.2)) <$> map.

(** The lines that an iterator still gives, in order. *)
Definition iter_lines (it : PartsIter) : list (Header * bytes) :=
  let p := pi_pseudo it in
  let others := other_lines (pi_map it) in
  let authority := pseudo_line Authority (ph_authority p) ++ others in
  let path := pseudo_line Path (ph_path p) ++ authority in
  let scheme := pseudo_line Scheme (ph_scheme p) ++ path in
  let status := pseudo_line Status (ph_status p) ++ scheme in
  match pi_next_type it with
  | DMethod => pseudo_line Method (ph_method p) ++ status
  | DStatus => status
  | DScheme => scheme
  | DPath => path
  | DAuthority => authority
  | DOther => others
  end.

Lemma PartsIter_next_lines it :
  match PartsIter_next it with
  | None => iter_lines it = []
  | Some (l, it') => iter_lines it = l :: iter_lines it'
  end.
Proof.
  destruct it as [[a m p sc st] map dir].
  destruct dir, m, st, sc, p, a, map as [|[? ?] ?]; reflexivity.
Qed.

Lemma iter_lines_length it : (length (iter_lines it) < iter_fuel it)%nat.
Proof.
  unfold iter_fuel, iter_lines, other_lines. destruct it as [[a m p sc st] map dir]. cbn.
  destruct dir, m, st, sc, p, a; cbn; rewrite length_fmap; lia.
Qed.

(** The representations of some lines, and the table after them. *)
Fixpoint lines_reprs (t : DynamicTable) (lines : list (Header * bytes)) : list Representation :=
  match lines with
  | [] => []
  | (h, v) :: lines => line_repr t h v :: lines_reprs (table_after t (line_repr t h v)) lines
  end.

Fixpoint lines_table (t : DynamicTable) (lines : list (Header * bytes)) : DynamicTable :=
  match lines with
  | [] => t
  | (h, v) :: lines => lines_table (table_after t (line_repr t h v)) lines
  end.

Definition lines_wire (huff : bool) (t : DynamicTable) (lines : list (Header * bytes)) : bytes :=
  lines_reprs t lines ≫= repr_wire huff.

(** What an encoder has still to write, the table it will have then, and that
    all of it can be written. *)
Definition enc_pending (huff : bool) (e : ReprEncoder) : bytes :=
  opt_pending state_pending (re_state e) ++
  from_option (λ it, lines_wire huff (re_table e) (iter_lines it)) [] (re_iter e).

Definition enc_table (e : ReprEncoder) : DynamicTable :=
  from_option (λ it, lines_table (re_table e) (iter_lines it)) (re_table e) (re_iter e).

Definition enc_ok (e : ReprEncoder) : Prop :=
  from_option enc_state_ok True (re_state e) ∧
  from_option (λ it, Forall repr_ok (lines_reprs (re_table e) (iter_lines it))) True (re_iter e).

(** What a call with [room] bytes gives: [full] when it stopped for lack of
    room. *)
Definition wrote_all (huff : bool) (e : ReprEncoder) (room : nat) (e' : ReprEncoder) (out : bytes)
    (full : bool) : Prop :=
  enc_table e' = enc_table e ∧ enc_ok e' ∧
  if full then length out = room ∧ enc_pending huff e = out ++ enc_pending huff e' ∧
    enc_pending huff e' ≠ []
  else out = enc_pending huff e ∧ (length out ≤ room)%nat ∧ re_iter e' = None ∧ re_state e' = None.

Lemma encode_iter_spec fuel t it huff room :
  (length (iter_lines it) < fuel)%nat → Forall repr_ok (lines_reprs t (iter_lines it)) →
  let '(e, out, full) := encode_iter fuel t it huff room in
  wrote_all huff (mkReprEncoder t (Some it) None) room e out full.
Proof.
  revert t it room. induction fuel as [|fuel IH]; intros t it room Hf Hok; [lia|].
  cbn [encode_iter]. pose proof (PartsIter_next_lines it) as Hn.
  destruct (PartsIter_next it) as [[[h v] it']|].
  2:{ unfold wrote_all, enc_table, enc_pending, enc_ok, lines_wire. cbn. rewrite Hn.
      split_and!; (done || lia). }
  rewrite Hn in Hf, Hok. cbn [length lines_reprs] in *. apply Forall_cons in Hok as [Hr Hok].
  pose proof (encode_line_spec t huff h v Hr) as Hl.
  destruct (encode_line t huff h v) as [t' s]. destruct Hl as (Ht & Hs & Hp).
  rewrite <- Ht in Hok. pose proof (writes s room Hs) as Hw. unfold wrote in Hw.
  assert (enc_table (mkReprEncoder t (Some it) None) = lines_table t' (iter_lines it')) as Htab.
  { unfold enc_table. cbn [re_iter re_table from_option]. by rewrite Hn, Ht. }
  assert (enc_pending huff (mkReprEncoder t (Some it) None) =
    state_pending s ++ lines_wire huff t' (iter_lines it')) as Hpend.
  { unfold enc_pending, lines_wire. cbn [re_iter re_state re_table from_option opt_pending app].
    rewrite Hn. cbn [lines_reprs mbind list_bind]. by rewrite Hp, Ht. }
  destruct (ReprEncodeState_encode s room) as [out [s'|]].
  - destruct Hw as (Hw1 & Hw2 & Hw3 & Hw4). unfold wrote_all.
    rewrite Htab, Hpend, Hw2. split_and!; try done.
    + by rewrite <- app_assoc.
    + unfold enc_pending. cbn [re_state opt_pending from_option].
      intros E. by apply app_eq_nil in E as [E _].
  - destruct Hw as [-> Hw]. specialize (IH t' it' (room - length (state_pending s))%nat ltac:(lia) Hok).
    destruct (encode_iter fuel t' it' huff _) as [[e out'] full]. unfold wrote_all in *.
    destruct IH as (H1 & H2 & H3). rewrite Htab, Hpend, length_app.
    split; [done|split; [done|]].
    unfold enc_pending at 1 in H3. cbn [re_state re_iter re_table opt_pending from_option app] in H3.
    destruct full; [destruct H3 as (H3 & -> & H5)|destruct H3 as (-> & H4 & H5)].
    + split_and!; [lia|by rewrite app_assoc|done].
    + split_and!; [done|lia|apply H5..].
Qed.

(** The part of [ReprEncoder::encode] after the saved state. *)
Lemma encode_rest_spec t it huff room cur :
  (cur ≤ room)%nat → enc_ok (mkReprEncoder t it None) →
  let '(e, out, size) := encode_rest t it huff room cur in
  size = (cur + length out)%nat ∧ (size ≤ room)%nat ∧
  ∃ full, wrote_all huff (mkReprEncoder t it None) (room - cur) e out full.
Proof.
  intros Hc [_ Hok]. destruct it as [it|]; cbn [encode_rest re_iter re_table from_option] in *.
  - pose proof (encode_iter_spec (iter_fuel it) t it huff (room - cur) (iter_lines_length it) Hok) as H.
    destruct (encode_iter _ _ _ _ _) as [[e out] full]. split; [|split; [|by exists full]];
      destruct full, H as (_ & _ & H); destruct H as (? & ? & _); lia.
  - split_and!; [cbn; lia|lia|]. exists false. split_and!; done || (cbn; lia).
Qed.

Lemma ReprEncoder_encode_spec e huff room :
  (0 < room)%nat → enc_ok e →
  let '(e', out, size) := ReprEncoder_encode e room huff in
  size = length out ∧ (size ≤ room)%nat ∧ ∃ full, wrote_all huff e room e' out full.
Proof.
  intros Hroom Hok. destruct e as [t it st]. unfold ReprEncoder_encode.
  cbn [re_state re_table re_iter]. destruct room as [|room]; [lia|].
  destruct st as [s|].
  - destruct Hok as [Hs Hit]. cbn [re_state re_iter re_table from_option] in *.
    pose proof (writes s (S room) Hs) as Hw. unfold wrote in Hw.
    destruct (ReprEncodeState_encode s (S room)) as [out [s'|]].
    + destruct Hw as (H1 & H2 & H3 & H4). split_and!; [done|lia|]. exists true.
      split; [done|]. split; [done|]. unfold enc_pending. cbn [re_state re_iter opt_pending from_option].
      rewrite H2, app_assoc. split_and!; [done..|]. intros E. by apply app_eq_nil in E as [E _].
    + destruct Hw as [-> Hw].
      pose proof (encode_rest_spec t it huff (S room) (length (state_pending s)) Hw (conj I Hit)) as H.
      destruct (encode_rest _ _ _ _ _) as [[e out'] size]. destruct H as (-> & Hsize & full & H).
      rewrite length_app. split_and!; [done..|]. exists full. destruct H as (Ht & He & H).
      split; [done|]. split; [done|]. unfold enc_pending in *.
      cbn [re_state re_iter re_table opt_pending from_option app] in *. rewrite length_app.
      destruct full; [destruct H as (H5 & -> & H7)|destruct H as (-> & H6 & H7)].
      * split_and!; [lia|by rewrite app_assoc|done].
      * split_and!; [done|lia|apply H7..].
  - pose proof (encode_rest_spec t it huff (S room) 0 ltac:(lia) Hok) as H.
    destruct (encode_rest _ _ _ _ _) as [[e out] size]. destruct H as (-> & H1 & full & H2).
    rewrite Nat.sub_0_r in H2. split; [done|]. split; [done|]. by exists full.
Qed.

(** *** [HpackEncoder] *)

Definition to_repr (e : HpackEncoder) : ReprEncoder :=
  mkReprEncoder (he_table e) (he_iter e) (he_state e).

Definition he_pending (e : HpackEncoder) : bytes := enc_pending (he_use_huffman e) (to_repr e).
Definition he_final_table (e : HpackEncoder) : DynamicTable := enc_table (to_repr e).
Definition he_ok (e : HpackEncoder) : Prop := enc_ok (to_repr e).

Lemma HpackEncoder_encode_spec e room :
  (0 < room)%nat → he_ok e →
  let '(e', out, size) := HpackEncoder_encode room e in
  size = length out ∧ (size ≤ room)%nat ∧ he_pending e = out ++ he_pending e' ∧
  he_final_table e' = he_final_table e ∧ he_ok e' ∧
  (HpackEncoder_is_finished e' = true ↔ he_pending e' = []) ∧
  (he_pending e' ≠ [] → size = room).
Proof.
  intros Hroom Hok. unfold HpackEncoder_encode.
  pose proof (ReprEncoder_encode_spec (to_repr e) (he_use_huffman e) room Hroom Hok) as H.
  unfold to_repr in H at 1. destruct (ReprEncoder_encode _ _ _) as [[[t it st] out] size].
  destruct H as (-> & Hsize & full & Ht & He & H). unfold he_pending, he_final_table, he_ok, to_repr.
  unfold HpackEncoder_is_finished. destruct full.
  - destruct H as (Hlen & Hp & Hne). rewrite Hlen, Nat.eqb_refl.
    cbn [re_table re_iter re_state he_table he_iter he_state he_use_huffman].
    split_and!; try done. split; [|done]. by destruct it, st.
  - destruct H as (-> & Hle & Hit & Hst). cbn [re_iter re_state] in Hit, Hst. subst it st.
    assert (∀ b : bool, (if b then (mkHpackEncoder t None None (he_use_huffman e),
        enc_pending (he_use_huffman e) (to_repr e), length (enc_pending (he_use_huffman e) (to_repr e)))
      else (mkHpackEncoder t None None (he_use_huffman e),
        enc_pending (he_use_huffman e) (to_repr e), length (enc_pending (he_use_huffman e) (to_repr e))))
      = (mkHpackEncoder t None None (he_use_huffman e),
        enc_pending (he_use_huffman e) (to_repr e), length (enc_pending (he_use_huffman e) (to_repr e))))
      as -> by (by intros []).
    cbn [re_table re_iter re_state he_table he_iter he_state he_use_huffman].
    split_and!; try done. symmetry. apply app_nil_r.
Qed.

(** ** Lines that can be written *)

Definition line_ok (e : Header * bytes) : Prop := string_ok (into_string e.1) ∧ string_ok e.2.

Lemma line_repr_ok t h v : table_bounded t → line_ok (h, v) → repr_ok (line_repr t h v).
Proof.
  intros Ht [Hh Hv]. apply table_bounded_length in Ht as Hl. unfold line_repr.
  pose proof (searcher_index_range t h v) as Hr. pose proof (len_nonneg (dt_queue t)).
  destruct (searcher_index t h v) as [[i|i]|]; cbn [repr_ok name_ok].
  - specialize (Hr i (or_introl eq_refl)). unfold USIZE_MAX in *. lia.
  - specialize (Hr i (or_intror eq_refl)). split; [unfold USIZE_MAX in *; lia|done].
  - done.
Qed.

Lemma table_after_bounded t h v : table_bounded t → table_bounded (table_after t (line_repr t h v)).
Proof.
  intros Ht. unfold table_after.
  destruct (line_of t _) as [[h' v']|], (line_repr t h v) eqn:E; try done;
    try (by apply table_bounded_update); unfold line_repr in E;
    by destruct (searcher_index t h v) as [[]|].
Qed.

Lemma lines_reprs_ok t lines :
  table_bounded t → Forall line_ok lines → Forall repr_ok (lines_reprs t lines).
Proof.
  intros Ht Hl. revert t Ht. induction Hl as [|[h v] lines Hl Hls IH]; intros t Ht; [constructor|].
  cbn [lines_reprs]. constructor; [by apply line_repr_ok|]. by apply IH, table_after_bounded.
Qed.

(** ** Segmented encoding *)

(** One [encode] for each buffer of the list. *)
Fixpoint encode_buffers (rooms : list nat) (e : HpackEncoder) : HpackEncoder * bytes :=
  match rooms with
  | [] => (e, [])
  | room :: rooms =>
      let '(e, out, _) := HpackEncoder_encode room e in
      let '(e, out') := encode_buffers rooms e in (e, out ++ out')
  end.

Lemma encode_buffers_spec rooms e :
  Forall (lt 0) rooms → he_ok e →
  let '(e', out) := encode_buffers rooms e in
  out = take (sum_list rooms) (he_pending e) ∧ he_pending e' = drop (sum_list rooms) (he_pending e) ∧
  he_final_table e' = he_final_table e ∧ he_ok e' ∧
  (rooms ≠ [] → (HpackEncoder_is_finished e' = true ↔ he_pending e' = [])).
Proof.
  intros Hr. revert e. induction Hr as [|room rooms Hroom Hr IH]; intros e Hok; [done|].
  cbn [encode_buffers]. change (sum_list (room :: rooms)) with (room + sum_list rooms)%nat.
  pose proof (HpackEncoder_encode_spec e room Hroom Hok) as H.
  destruct (HpackEncoder_encode room e) as [[e1 out] size].
  destruct H as (-> & Hs & Hp & Ht & Hok1 & Hfin & Hfull). specialize (IH e1 Hok1).
  destruct (encode_buffers rooms e1) as [e2 out2] eqn:E2. destruct IH as (-> & Hp2 & Ht2 & Hok2 & Hf2).
  rewrite Hp2, Hp, Ht2, Ht.
  assert (take (room + sum_list rooms) (out ++ he_pending e1) = out ++ take (sum_list rooms) (he_pending e1) ∧
    drop (room + sum_list rooms) (out ++ he_pending e1) = drop (sum_list rooms) (he_pending e1)) as [-> ->].
  { destruct (decide (he_pending e1 = [])) as [E|E].
    - rewrite E, !take_nil, !drop_nil, app_nil_r. split; [apply take_ge|apply drop_ge]; lia.
    - rewrite <- (Hfull E), take_app_add, drop_app_add. done. }
  split_and!; [done..|]. intros _. rewrite <- Hp2.
  destruct rooms as [|room2 rooms]; [|by apply Hf2]. by injection E2 as <-.
Qed.

(** The lines of some [Parts], with the order in which the map is visited. *)
Definition parts_lines (pseudo : PseudoHeaders) (order : list (bytes * HeaderValue)) :
    list (Header * bytes) := iter_lines (PartsIter_new pseudo order).

(** The header block of some lines: what [set_parts] leaves to be written. *)
Lemma set_parts_pending e pseudo order :
  HpackEncoder_is_finished e = true →
  he_pending (HpackEncoder_set_parts pseudo order e) =
    lines_wire (he_use_huffman e) (he_table e) (parts_lines pseudo order) ∧
  he_final_table (HpackEncoder_set_parts pseudo order e) =
    lines_table (he_table e) (parts_lines pseudo order).
Proof. unfold HpackEncoder_is_finished. destruct e as [t [it|] [st|] h]; done. Qed.

Lemma set_parts_ok e pseudo order :
  HpackEncoder_is_finished e = true → table_bounded (he_table e) →
  Forall line_ok (parts_lines pseudo order) → he_ok (HpackEncoder_set_parts pseudo order e).
Proof.
  unfold HpackEncoder_is_finished. destruct e as [t [it|] [st|] h]; try done. intros _ Ht Hl.
  split; [done|]. by apply lines_reprs_ok.
Qed.

(** whatever the sizes of the buffers given to [encode], what it writes
    into them one after the other is the header block, the wire format of the
    representations of the lines of [Parts], cut where the buffers end; and
    [is_finished] holds exactly when the block is written. *)
Theorem hpack_encode_segments (e : HpackEncoder) (pseudo : PseudoHeaders)
    (order : list (bytes * HeaderValue)) (rooms : list nat)
    (Hfin : HpackEncoder_is_finished e = true) (Ht : table_bounded (he_table e))
    (Hl : Forall line_ok (parts_lines pseudo order))
    (Hr : Forall (lt 0) rooms) (Hne : rooms ≠ []) :
  let block := lines_wire (he_use_huffman e) (he_table e) (parts_lines pseudo order) in
  let '(e', out) := encode_buffers rooms (HpackEncoder_set_parts pseudo order e) in
  out = take (sum_list rooms) block ∧
  (HpackEncoder_is_finished e' = true ↔ (length block ≤ sum_list rooms)%nat) ∧
  (HpackEncoder_is_finished e' = true → he_table e' = lines_table (he_table e) (parts_lines pseudo order)).
Proof.
  intros block. pose proof (set_parts_pending e pseudo order Hfin) as [Hp Htab].
  pose proof (encode_buffers_spec rooms _ Hr (set_parts_ok e pseudo order Hfin Ht Hl)) as H.
  rewrite Hp, Htab in H. fold block in H.
  destruct (encode_buffers _ _) as [e' out]. destruct H as (-> & Hp' & Ht' & _ & Hf).
  specialize (Hf Hne). rewrite Hp' in Hf. split; [done|]. split.
  - rewrite Hf. split; intros H; [|by apply drop_ge].
    apply (f_equal (@length Z)) in H. rewrite length_drop in H. change (length (@nil Z)) with 0%nat in H. lia.
  - intros Hfin'. rewrite <- Ht'. unfold HpackEncoder_is_finished in Hfin'.
    by destruct e' as [? [|] [|] ?].
Qed.

Lemma table_bounded_new m : 0 ≤ m ≤ USIZE_MAX → table_bounded (with_max_size m).
Proof. intros. split_and!; cbn; done || lia. Qed.

(** A decidable form of [line_ok] for short lines. *)
Definition short_line (e : Header * bytes) : bool :=
  forallb (λ s, forallb (λ b, (0 <=? b) && (b <? 256)) s && (length s <=? 100)%nat &&
    (length (huffman_encode s []) <=? 100)%nat) [into_string e.1; e.2].

Lemma short_line_ok lines : forallb short_line lines = true → Forall line_ok lines.
Proof.
  intros H. apply Forall_forall. intros e He. rewrite forallb_forall in H.
  specialize (H e ltac:(by apply list_elem_of_In)). unfold short_line in H. cbn [forallb] in H.
  assert (∀ s, (forallb (λ b, (0 <=? b) && (b <? 256)) s && (length s <=? 100)%nat &&
    (length (huffman_encode s []) <=? 100)%nat) = true → string_ok s) as Hs.
  { intros s Hs. bool_to_prop. apply string_ok_short; [|by apply Nat.leb_le..].
    apply Forall_forall. intros b Hb. rewrite forallb_forall in H0.
    apply list_elem_of_In, H0 in Hb. bool_to_prop. split; lia. }
  rewrite andb_true_r in H. apply andb_true_iff in H as [H1 H2]. split; auto.
Qed.

Definition get_request : PseudoHeaders := mkPseudo (Some (bs "a.b")) (Some (bs "GET")) (Some (bs "/")) (Some (bs "http")) None.

Lemma get_request_ok : Forall line_ok (parts_lines get_request []).
Proof. apply short_line_ok. vm_compute. reflexivity. Qed.

Lemma hpack_encode_segments_witness :
  (encode_buffers [2%nat; 100%nat] (HpackEncoder_set_parts get_request [] (HpackEncoder_new 4096 false))).2
    = [130; 134; 132; 65; 3; 97; 46; 98].
Proof.
  pose proof (hpack_encode_segments (HpackEncoder_new 4096 false) get_request [] [2%nat; 100%nat]
    eq_refl (table_bounded_new 4096 usize_4096) get_request_ok
    ltac:(repeat constructor) ltac:(discriminate)) as H.
  cbv zeta in H. destruct (encode_buffers _ _) as [e out]. destruct H as [-> _]. vm_compute. reflexivity.
Defined.

(** ** Round trip *)

(** Every index sent for these lines denotes the line. *)
Fixpoint lines_exact (t : DynamicTable) (lines : list (Header * bytes)) : bool :=
  match lines with
  | [] => true
  | (h, v) :: lines =>
      negb (name_only_dynamic t h v) && lines_exact (table_after t (line_repr t h v)) lines
  end.

Lemma line_of_repr t h v :
  name_only_dynamic t h v = false → line_of t (line_repr t h v) = Some (h, v).
Proof.
  intros Hn. pose proof (searcher_index_cases t h v) as H. unfold line_repr. rewrite Hn in H.
  destruct (searcher_index t h v) as [[i|i]|]; cbn [line_of]; [done|by rewrite H|].
  destruct H as [H _]. by destruct (static_index_none h v H) as [s ->].
Qed.

Definition fold_parts (lines : list (Header * bytes)) (p : Parts) : Parts :=
  foldl (λ p e, (Parts_update (E := H2Error) e.1 e.2 p).1) p lines.

Definition lines_size (lines : list (Header * bytes)) : Z := foldr (λ e n, line_size e + n) 0 lines.

Lemma line_size_nonneg e : 0 ≤ line_size e.
Proof.
  unfold line_size, header_line_length. pose proof (Header_len_nonneg e.1). pose proof (len_nonneg e.2). lia.
Qed.

Lemma lines_size_nonneg lines : 0 ≤ lines_size lines.
Proof.
  induction lines as [|e lines IH]; cbn; [done|]. pose proof (line_size_nonneg e).
  unfold lines_size in IH. lia.
Qed.

(** The decoder's side: the representations of the lines give the lines back. *)
Lemma update_all_lines lines d :
  lines_exact (hp_table d) lines = true → Forall (λ e, field_ok e.1 e.2 = true) lines →
  hp_header_size d + lines_size lines ≤ hp_header_list_size d →
  update_all (lines_reprs (hp_table d) lines) d =
    (mkHpackDecoder (hp_header_list_size d) (lines_table (hp_table d) lines)
       (fold_parts lines (hp_parts d)) (hp_header_size d + lines_size lines) (hp_holder d), Ok ()).
Proof.
  intros Hex Hf. revert d Hex. induction Hf as [|[h v] lines Hf Hfs IH]; intros d Hex Hsize.
  { cbn. rewrite Z.add_0_r. by destruct d. }
  cbn [lines_exact lines_reprs update_all lines_table] in *. apply andb_true_iff in Hex as [Hn Hex].
  apply negb_true_iff in Hn. rewrite bind_st, Updater_update_eq, line_of_repr by done.
  assert (lines_size ((h, v) :: lines) = line_size (h, v) + lines_size lines) as Hs by done.
  rewrite Hs in *. pose proof (lines_size_nonneg lines).
  destruct (Z.ltb_spec (hp_header_list_size d) (hp_header_size d + line_size (h, v))); [lia|].
  rewrite parts_update_cases. cbn [fst snd] in Hf. rewrite Hf.
  destruct d as [l t p z ho]; cbn [hp_table hp_header_size hp_header_list_size hp_parts hp_holder] in *.
  specialize (IH (mkHpackDecoder l (table_after t (line_repr t h v))
    (Parts_update (E := H2Error) h v p).1 (z + line_size (h, v)) ho)).
  cbn [hp_table hp_header_size hp_header_list_size hp_parts hp_holder] in IH.
  etransitivity; [apply IH; [done|lia]|]. by rewrite Z.add_assoc.
Qed.

(** What [Parts] become on the way: the values of a name are joined. *)
Definition joined (v : HeaderValue) : HeaderValue := mkHeaderValue [HeaderValue_to_vec v] false.

Definition value_ok (v : HeaderValue) : Prop := Forall (λ l, forallb is_valid l = true) (hv_inner v).

Lemma to_vec_valid v : value_ok v → forallb is_valid (HeaderValue_to_vec v) = true.
Proof.
  unfold value_ok, HeaderValue_to_vec. generalize 0%nat. induction (hv_inner v) as [|l ls IH];
    intros n Hv; cbn [to_vec_from]; [done|].
  apply Forall_cons in Hv as [Hl Hls]. rewrite !forallb_app, Hl, IH by done.
  by destruct (Nat.eqb n 0).
Qed.

Lemma fold_parts_app l k p : fold_parts (l ++ k) p = fold_parts k (fold_parts l p).
Proof. apply foldl_app. Qed.

Lemma fold_parts_pseudo pseudo order :
  fold_parts (parts_lines pseudo order) Parts_new = fold_parts (other_lines order) (mkParts pseudo ∅).
Proof.
  destruct pseudo as [a m p s st].
  destruct a, m, p, s, st; reflexivity.
Qed.

Lemma fold_parts_others order pseudo m0 :
  NoDup order.*1 → (∀ k, k ∈ order.*1 → m0 !! k = None) →
  Forall (λ e, normalize e.1 = Ok e.1 ∧ value_ok e.2) order →
  fold_parts (other_lines order) (mkParts pseudo m0) =
    mkParts pseudo (list_to_map (prod_map id joined <$> order) ∪ m0).
Proof.
  intros Hnd Hm0 Ho. revert m0 Hm0. induction Ho as [|[k v] order [Hk Hv] Ho IH]; intros m0 Hm0.
  { cbn. by rewrite (left_id_L ∅ (∪)). }
  cbn [fst snd] in *. rewrite fmap_cons in Hnd. apply NoDup_cons in Hnd as [Hk1 Hnd].
  change (fold_parts (other_lines ((k, v) :: order)) (mkParts pseudo m0)) with
    (fold_parts (other_lines order)
      (Parts_update (E := H2Error) (Other k) (HeaderValue_to_vec v) (mkParts pseudo m0)).1).
  assert (Parts_update (E := H2Error) (Other k) (HeaderValue_to_vec v) (mkParts pseudo m0) =
    (mkParts pseudo (<[k := joined v]> m0), Ok ())) as ->.
  { unfold Parts_update, Headers_append, HeaderValue_from_bytes.
    rewrite Hk, (to_vec_valid v Hv). cbn [parts_map parts_pseudo].
    by rewrite (Hm0 k ltac:(by left)). }
  cbn [fst]. rewrite IH; [|done|].
  - rewrite fmap_cons. cbn [prod_map list_to_map foldr uncurry fst snd id].
    f_equal. rewrite <- insert_union_l, insert_union_r; [done|].
    apply not_elem_of_list_to_map_1. rewrite <- list_fmap_compose. exact Hk1.
  - intros k' Hk'. rewrite lookup_insert_ne by (intros ->; done). apply Hm0. by right.
Qed.

Lemma order_lines_ok (order : list (bytes * HeaderValue)) (m : Headers) :
  order ≡ₚ map_to_list m → headers_inv m → map_Forall (λ _, value_ok) m →
  Forall (λ e, normalize e.1 = Ok e.1 ∧ value_ok e.2) order.
Proof.
  intros Ho Hi Hv. apply Forall_forall. intros [k v] He. rewrite Ho in He.
  apply elem_of_map_to_list in He. split; [by eapply Hi|by eapply Hv].
Qed.

Lemma fold_parts_order (order : list (bytes * HeaderValue)) (pseudo : PseudoHeaders) (m : Headers) :
  order ≡ₚ map_to_list m → headers_inv m → map_Forall (λ _, value_ok) m →
  fold_parts (parts_lines pseudo order) Parts_new = mkParts pseudo (joined <$> m).
Proof.
  intros Ho Hi Hv. assert (NoDup order.*1) as Hnd by (rewrite Ho; apply NoDup_fst_map_to_list).
  rewrite fold_parts_pseudo, fold_parts_others;
    [|done|intros; apply lookup_empty|by eapply order_lines_ok].
  f_equal. rewrite (right_id_L ∅ (∪)), (list_to_map_fmap joined order). f_equal.
  rewrite <- (list_to_map_to_list m). by apply list_to_map_proper.
Qed.

Lemma parts_lines_field_ok (order : list (bytes * HeaderValue)) (pseudo : PseudoHeaders) (m : Headers) :
  order ≡ₚ map_to_list m → headers_inv m → map_Forall (λ _, value_ok) m →
  Forall (λ e, field_ok e.1 e.2 = true) (parts_lines pseudo order).
Proof.
  intros Ho Hi Hv. pose proof (order_lines_ok order m Ho Hi Hv) as H.
  assert (Forall (λ e, field_ok e.1 e.2 = true) (other_lines order)) as Hothers.
  { apply Forall_fmap. eapply Forall_impl; [exact H|]. intros [k v] [Hk Hval]. cbn in *.
    rewrite Hk. by apply to_vec_valid. }
  unfold parts_lines, iter_lines. destruct pseudo as [a me p s st].
  cbn [pi_next_type PartsIter_new pi_pseudo pi_map ph_method ph_status ph_scheme ph_path ph_authority].
  rewrite !Forall_app. split_and!; try done;
    match goal with |- Forall _ (pseudo_line _ ?o) => destruct o end; repeat constructor.
Qed.

(** Decoding the block of some lines. *)
Lemma decode_lines huff lines d :
  hp_holder d = None → Forall repr_ok (lines_reprs (hp_table d) lines) →
  lines_exact (hp_table d) lines = true → Forall (λ e, field_ok e.1 e.2 = true) lines →
  hp_header_size d + lines_size lines ≤ hp_header_list_size d →
  HpackDecoder_decode (lines_wire huff (hp_table d) lines) d =
    (mkHpackDecoder (hp_header_list_size d) (lines_table (hp_table d) lines)
       (fold_parts lines (hp_parts d)) (hp_header_size d + lines_size lines) (hp_holder d), Ok ()).
Proof.
  intros Hd Hr Hex Hf Hsize.
  pose proof (run_block (pair huff <$> lines_reprs (hp_table d) lines) [] d) as H.
  assert (block_wire (pair huff <$> lines_reprs (hp_table d) lines) =
    lines_wire huff (hp_table d) lines) as Hw.
  { unfold block_wire, lines_wire. generalize (lines_reprs (hp_table d) lines).
    intros rs. induction rs as [|r rs IH]; [done|]. cbn. by f_equal. }
  rewrite app_nil_r, Hw, <- list_fmap_compose in H. unfold compose in H. cbn [snd] in H.
  rewrite list_fmap_id, bind_st, update_all_lines in H by done.
  rewrite HpackDecoder_decode_run, Hd, set_holder_id, H by (done || by apply Forall_fmap).
  by rewrite HpackDecoder_decode_nil, Hd.
Qed.

(** C3: The header block of Parts with valid names and values, written into
    non-empty buffers of any sizes that together hold it, is decoded to those Parts,
    the values of a name joined into one, by a decoder with the same dynamic table,
    and the two tables stay equal; provided that there is no field line of which,
    when it is written, only the name is found, and only in the dynamic table
    (TableSearcher::index, table.rs:55, sends a wrong line then: lines_exact), and
    that the lines stay within the decoder's header list limit. *)
Theorem hpack_roundtrip (e : HpackEncoder) (d : HpackDecoder) (pseudo : PseudoHeaders) (m : Headers)
    (order : list (bytes * HeaderValue)) (rooms : list nat)
    (Hfin : HpackEncoder_is_finished e = true) (Ht : table_bounded (he_table e))
    (Hsync : hp_table d = he_table e) (Hd : hp_holder d = None) (Hp : hp_parts d = Parts_new)
    (Ho : order ≡ₚ map_to_list m) (Hi : headers_inv m) (Hv : map_Forall (λ _, value_ok) m)
    (Hl : Forall line_ok (parts_lines pseudo order))
    (Hex : lines_exact (he_table e) (parts_lines pseudo order) = true)
    (Hsize : hp_header_size d + lines_size (parts_lines pseudo order) ≤ hp_header_list_size d)
    (Hr : Forall (lt 0) rooms) :
  let '(e', out) := encode_buffers rooms (HpackEncoder_set_parts pseudo order e) in
  HpackEncoder_is_finished e' = true →
  ∃ d', HpackDecoder_decode out d = (d', Ok ()) ∧ hp_table d' = he_table e' ∧
    (HpackDecoder_finish d').2 = Ok (mkParts pseudo (joined <$> m)).
Proof.
  pose proof (set_parts_pending e pseudo order Hfin) as [Hpend Htab].
  pose proof (encode_buffers_spec rooms _ Hr (set_parts_ok e pseudo order Hfin Ht Hl)) as H.
  rewrite Hpend, Htab in H. destruct (encode_buffers _ _) as [e' out] eqn:Ee.
  destruct H as (-> & Hp' & Ht' & _ & Hf). intros Hfin'.
  assert (rooms ≠ []) as Hne.
  { intros ->. cbn in Ee. injection Ee as <-. by unfold HpackEncoder_is_finished in Hfin'. }
  apply Hf in Hfin' as Hnil; [|done]. rewrite Hp' in Hnil.
  pose proof (take_drop (sum_list rooms)
    (lines_wire (he_use_huffman e) (he_table e) (parts_lines pseudo order))) as Htd.
  rewrite Hnil, app_nil_r in Htd. rewrite Htd, <- Hsync in *.
  eexists. split_and!.
  - apply decode_lines; [done|apply lines_reprs_ok; congruence|done|by eapply parts_lines_field_ok|done].
  - cbn [hp_table]. rewrite <- Ht'. unfold HpackEncoder_is_finished in Hfin'.
    by destruct e' as [? [|] [|] ?].
  - unfold HpackDecoder_finish. rewrite bind_st. cbn [get_st hp_holder]. rewrite Hd, bind_st.
    cbn [put_st mret ST_ret snd hp_parts]. by rewrite Hp, (fold_parts_order order pseudo m).
Qed.

(** A request with a field of two values. *)
Definition x_id : HeaderValue := mkHeaderValue [bs "1"; bs "2"] false.
Definition x_id_map : Headers := <[bs "x-id" := x_id]> ∅.
Definition x_id_order : list (bytes * HeaderValue) := [(bs "x-id", x_id)].

Lemma x_id_order_perm : x_id_order ≡ₚ map_to_list x_id_map.
Proof. unfold x_id_map. by rewrite insert_empty, map_to_list_singleton. Qed.

Lemma x_id_map_ok : headers_inv x_id_map ∧ map_Forall (λ _, value_ok) x_id_map.
Proof.
  unfold x_id_map. rewrite insert_empty. split.
  - intros n v H. apply lookup_singleton_Some in H as [<- _]. vm_compute. reflexivity.
  - apply map_Forall_singleton. by repeat constructor.
Qed.

Lemma x_id_lines_ok : Forall line_ok (parts_lines get_request x_id_order).
Proof. apply short_line_ok. vm_compute. reflexivity. Qed.

Lemma hpack_roundtrip_witness :
  let e := HpackEncoder_set_parts get_request x_id_order (HpackEncoder_new 4096 true) in
  ∃ d', HpackDecoder_decode (encode_buffers [7%nat; 200%nat] e).2
          (HpackDecoder_with_max_size 4096 16384) = (d', Ok ()) ∧
    (HpackDecoder_finish d').2 = Ok (mkParts get_request (joined <$> x_id_map)).
Proof.
  intros e.
  assert (HpackEncoder_is_finished (encode_buffers [7%nat; 200%nat] e).1 = true) as Hfin
    by (vm_compute; reflexivity).
  pose proof (hpack_roundtrip (HpackEncoder_new 4096 true) (HpackDecoder_with_max_size 4096 16384)
    get_request x_id_map x_id_order [7%nat; 200%nat] eq_refl (table_bounded_new 4096 usize_4096)
    eq_refl eq_refl eq_refl x_id_order_perm (proj1 x_id_map_ok) (proj2 x_id_map_ok) x_id_lines_ok
    ltac:(vm_compute; reflexivity) ltac:(vm_compute; discriminate) ltac:(repeat constructor)) as H.
  fold e in H. destruct (encode_buffers _ e) as [e' out].
  destruct (H Hfin) as (d' & H1 & _ & H2). exists d'. split; [exact H1|exact H2].
Defined.
