(* ===== verification/H2Frame.v ===== *)
(** * HTTP/2 frames

    Models [src/ylong_http/src/h2/frame.rs]: frames, their flags and payloads,
    and the list of settings with its in-place update. *)

From S2P Require Import Prelude H2Error Headers Parts.
#[local] Open Scope Z_scope.

(** ** Masks *)

Definition END_STREAM_MASK : Z := 0x01.
Definition RST_STREAM_MASK : Z := 0x03.
Definition END_HEADERS_MASK : Z := 0x04.
Definition PADDED_MASK : Z := 0x08.
Definition HEADERS_PRIORITY_MASK : Z := 0x20.
Definition ACK_MASK : Z := 0x1.

(** ** Data *)

Inductive FrameType :=
  | TData | THeaders | TPriority | TRstStream | TSettings
  | TPushPromise | TPing | TGoaway | TWindowUpdate | TContinuation.

(** The discriminants of [FrameType]. *)
Definition frame_type_code (t : FrameType) : Z :=
  match t with
  | TData => 0x0 | THeaders => 0x1 | TPriority => 0x2 | TRstStream => 0x3 | TSettings => 0x4
  | TPushPromise => 0x5 | TPing => 0x6 | TGoaway => 0x7 | TWindowUpdate => 0x8 | TContinuation => 0x9
  end.

Inductive Setting :=
  | HeaderTableSize (n : Z)
  | EnablePush (b : bool)
  | MaxConcurrentStreams (n : Z)
  | InitialWindowSize (n : Z)
  | MaxFrameSize (n : Z)
  | MaxHeaderListSize (n : Z).

(** [Payload], with the structures it holds. *)
Inductive Payload :=
  | PHeaders (parts : Parts)
  | PData (data : bytes)
  | PPriority (exclusive : bool) (stream_dependency weight : Z)
  | PRstStream (error_code : Z)
  | PPing (data : bytes)
  | PSettings (settings : list Setting)
  | PGoaway (error_code last_stream_id : Z) (debug_data : bytes)
  | PWindowUpdate (window_size_increment : Z)
  | PPushPromise (promised_stream_id : Z) (parts : Parts).

Record Frame := mkFrame { f_id : Z; f_flags : Z; f_payload : Payload }.

#[export] Instance Setting_eq_dec : EqDecision Setting.
Proof. solve_decision. Defined.

(** [Payload::frame_type]. *)
Definition frame_type (p : Payload) : FrameType :=
  match p with
  | PHeaders _ => THeaders
  | PData _ => TData
  | PPriority _ _ _ => TPriority
  | PPing _ => TPing
  | PRstStream _ => TRstStream
  | PSettings _ => TSettings
  | PGoaway _ _ _ => TGoaway
  | PWindowUpdate _ => TWindowUpdate
  | PPushPromise _ _ => TPushPromise
  end.

(** [Payload::as_headers]. *)
Definition as_headers (p : Payload) : option Parts :=
  match p with PHeaders parts => Some parts | _ => None end.

(** ** Flags *)

(** The test of a mask: [self.0 & MASK == MASK]. *)
Definition has_flag (mask flags : Z) : bool := Z.land mask flags =? mask.

Definition is_end_stream (flags : Z) : bool := has_flag END_STREAM_MASK flags.
Definition is_end_headers (flags : Z) : bool := has_flag END_HEADERS_MASK flags.
Definition is_padded (flags : Z) : bool := has_flag PADDED_MASK flags.
Definition is_ack (flags : Z) : bool := has_flag ACK_MASK flags.
Definition is_headers_priority (flags : Z) : bool := has_flag HEADERS_PRIORITY_MASK flags.

(** [!mask] on [u8]. *)
Definition lnot8 (x : Z) : Z := Z.land (Z.lnot x) 255.

(** [FrameFlags::set_end_stream], [set_end_headers], [set_padded]. *)
Definition set_flag (mask : Z) (on : bool) (flags : Z) : Z :=
  if on then Z.lor flags mask else Z.land flags (lnot8 mask).

Definition set_end_stream (on : bool) (flags : Z) : Z := set_flag END_STREAM_MASK on flags.
Definition set_end_headers (on : bool) (flags : Z) : Z := set_flag END_HEADERS_MASK on flags.
Definition set_padded (on : bool) (flags : Z) : Z := set_flag PADDED_MASK on flags.

(** ** Settings *)

(** [Setting::setting_identifier]. *)
Definition setting_identifier (s : Setting) : Z :=
  match s with
  | HeaderTableSize _ => 0x01
  | EnablePush _ => 0x02
  | MaxConcurrentStreams _ => 0x03
  | InitialWindowSize _ => 0x04
  | MaxFrameSize _ => 0x05
  | MaxHeaderListSize _ => 0x06
  end.

(** [Settings::update_setting]: the first setting of the same identifier is
    replaced, or the setting is pushed. *)
Fixpoint update_setting (settings : list Setting) (setting : Setting) : list Setting :=
  match settings with
  | [] => [setting]
  | s :: settings =>
      if setting_identifier s =? setting_identifier setting then setting :: settings
      else s :: update_setting settings setting
  end.

(** [Settings::encoded_len], [Goaway::encoded_len], [WindowUpdate::encoded_len]. *)
Definition settings_encoded_len (settings : list Setting) : Z := len settings * 6.
Definition goaway_encoded_len (debug_data : bytes) : Z := 8 + len debug_data.
Definition window_update_encoded_len : Z := 4.

(** [Settings::ack], [Ping::ack]. *)
Definition settings_ack : Frame := mkFrame 0 0x1 (PSettings []).
Definition ping_ack (data : bytes) : Frame := mkFrame 0 0x1 (PPing data).

(** The methods of [SettingsBuilder]. *)
Definition header_table_size (size : Z) (b : list Setting) : list Setting := b ++ [HeaderTableSize size].
Definition enable_push (is_enable : bool) (b : list Setting) : list Setting := b ++ [EnablePush is_enable].
Definition initial_window_size (size : Z) (b : list Setting) : list Setting := b ++ [InitialWindowSize size].
Definition max_frame_size (size : Z) (b : list Setting) : list Setting := b ++ [MaxFrameSize size].
Definition max_header_list_size (size : Z) (b : list Setting) : list Setting := b ++ [MaxHeaderListSize size].

(** [RstStream::error]: the stream error of a code. *)
Definition rst_error (error_code id : Z) : result H2Error H2Error :=
  code ← ErrorCode_try_from error_code; mret (StreamError id code).

(** ** Lemmas *)

Definition is_mask (m : Z) : Prop := m = END_STREAM_MASK ∨ m = END_HEADERS_MASK ∨ m = PADDED_MASK.

Lemma is_mask_In m : is_mask m → In m [1; 4; 8].
Proof. intros [->|[->| ->]]; cbn; tauto. Qed.

(** setting or clearing one of the flags END_STREAM, END_HEADERS, PADDED
    makes it read back so, leaves the two others as they were and keeps the
    flags a byte. *)
Theorem flags_set_get (m m' : Z) (on : bool) (flags : Z)
    (Hm : is_mask m) (Hm' : is_mask m') (Hf : is_byte flags) :
  has_flag m' (set_flag m on flags) = (if decide (m = m') then on else has_flag m' flags) ∧
  is_byte (set_flag m on flags).
Proof.
  assert (forallb (λ m, forallb (λ m', forallb (λ on, forallb (λ flags,
      eqb (has_flag m' (set_flag m on flags)) (if decide (m = m') then on else has_flag m' flags) &&
      ((0 <=? set_flag m on flags) && (set_flag m on flags <? 256)))
    (seqZ 0 256)) [true; false]) [1; 4; 8]) [1; 4; 8] = true) as H by (vm_compute; reflexivity).
  rewrite forallb_forall in H. specialize (H m (is_mask_In m Hm)).
  rewrite forallb_forall in H. specialize (H m' (is_mask_In m' Hm')).
  rewrite forallb_forall in H. specialize (H on ltac:(destruct on; cbn; tauto)).
  rewrite forallb_forall in H. specialize (H flags).
  specialize (H ltac:(apply list_elem_of_In, elem_of_seqZ; unfold is_byte in Hf; lia)).
  apply andb_true_iff in H as [H1 H2]. apply eqb_prop in H1. bool_to_prop. split; [done|split; lia].
Qed.

Lemma flags_set_get_witness :
  has_flag END_STREAM_MASK (set_flag END_HEADERS_MASK true 0x09) = true.
Proof.
  refine (eq_trans (proj1 (flags_set_get END_HEADERS_MASK END_STREAM_MASK true 0x09 _ _ _)) eq_refl);
    unfold is_mask, is_byte; (tauto || lia).
Defined.

(** The value of an identifier in a list of settings, the first found. *)
Definition find_setting (settings : list Setting) (id : Z) : option Setting :=
  snd <$> list_find (λ s, setting_identifier s = id) settings.

Lemma find_setting_cons s l id :
  find_setting (s :: l) id = if decide (setting_identifier s = id) then Some s else find_setting l id.
Proof.
  unfold find_setting. cbn [list_find]. case_decide; [done|].
  by destruct (list_find _ l) as [[]|].
Qed.

Lemma update_setting_ids l s id :
  id ∈ (setting_identifier <$> update_setting l s) →
  id = setting_identifier s ∨ id ∈ (setting_identifier <$> l).
Proof.
  induction l as [|x l IH]; cbn [update_setting].
  - cbn. rewrite list_elem_of_singleton. tauto.
  - destruct (Z.eqb_spec (setting_identifier x) (setting_identifier s)) as [E|E];
      rewrite !fmap_cons, !elem_of_cons; [tauto|]. intros [?|H]; [tauto|]. apply IH in H. tauto.
Qed.

(** updating a setting replaces the one of the same identifier or adds it:
    it is then found under its identifier, every other identifier has what it
    had, and identifiers that were distinct stay distinct. *)
Theorem update_setting_spec (l : list Setting) (s : Setting) :
  find_setting (update_setting l s) (setting_identifier s) = Some s ∧
  (∀ id, id ≠ setting_identifier s → find_setting (update_setting l s) id = find_setting l id) ∧
  (NoDup (setting_identifier <$> l) → NoDup (setting_identifier <$> update_setting l s)).
Proof.
  induction l as [|x l (IH1 & IH2 & IH3)]; cbn [update_setting].
  - split_and!; [by rewrite find_setting_cons, decide_True| |intros; apply NoDup_singleton].
    intros id Hid. by rewrite find_setting_cons, decide_False.
  - destruct (Z.eqb_spec (setting_identifier x) (setting_identifier s)) as [E|E]; split_and!.
    + by rewrite find_setting_cons, decide_True.
    + intros id Hid. by rewrite !find_setting_cons, !decide_False by congruence.
    + rewrite !fmap_cons. by rewrite E.
    + by rewrite find_setting_cons, decide_False.
    + intros id Hid. rewrite !find_setting_cons. case_decide; auto.
    + rewrite !fmap_cons, !NoDup_cons. intros [Hn Hnd]. split; [|by apply IH3].
      intros H%update_setting_ids. by destruct H.
Qed.

Lemma update_setting_spec_witness :
  NoDup (setting_identifier <$> update_setting [HeaderTableSize 1; MaxFrameSize 16384] (HeaderTableSize 2)).
Proof.
  refine (proj2 (proj2 (update_setting_spec [HeaderTableSize 1; MaxFrameSize 16384] (HeaderTableSize 2))) _).
  cbn. apply NoDup_cons. split; [|apply NoDup_singleton]. intros H%list_elem_of_singleton. discriminate H.
Defined.
