(* ===== verification/FrameDecoder.v ===== *)
(** * The HTTP/2 frame decoder

    Models [src/ylong_http/src/h2/decoder.rs]: [FrameDecoder], a two-stage
    machine (frame header, payload) that takes bytes in segments of any size,
    buffers what is incomplete and gives frames.  Field blocks go to the HPACK
    decoder; HEADERS and PUSH_PROMISE may be continued by CONTINUATION. *)

From S2P Require Import Prelude H2Error HpackTable HpackRepr Headers Parts HpackDecoder H2Frame.
#[local] Open Scope Z_scope.

Definition FRAME_HEADER_LENGTH : Z := 9.
Definition DEFAULT_MAX_FRAME_SIZE : Z := Z.shiftl 2 13.
Definition MAX_ALLOWED_MAX_FRAME_SIZE : Z := Z.shiftl 2 23 - 1.
Definition DEFAULT_HEADER_TABLE_SIZE : Z := 4096.
Definition DEFAULT_MAX_HEADER_LIST_SIZE : Z := Z.shiftl 16 20.
Definition MAX_INITIAL_WINDOW_SIZE : Z := Z.shiftl 1 31 - 1.

(** ** State *)

(** [FrameKind]: a complete frame, or a field block to be continued. *)
Inductive FrameKind := Complete (f : Frame) | Partial.

Inductive Stage := StageHeader | StagePayload.

Record FrameHeader := mkFrameHeader {
  fh_stream_id : Z; fh_flags : Z; fh_frame_type : Z; fh_payload_length : Z }.

(** [FrameHeader::new], [FrameHeader::reset]. *)
Definition FrameHeader_new : FrameHeader := mkFrameHeader 0 0 0 0.

Record Continuations := mkContinuations {
  ct_flags : Z; ct_is_end_stream : bool; ct_stream_id : Z; ct_is_end_headers : bool;
  ct_promised_stream_id : Z }.

(** [Continuations::new], [Continuations::reset]. *)
Definition Continuations_new : Continuations := mkContinuations 0 false 0 true 0.

Record FrameDecoder := mkFrameDecoder {
  fd_buffer : bytes;
  fd_offset : Z;
  fd_max_frame_size : Z;
  fd_stage : Stage;
  fd_header : FrameHeader;
  fd_hpack : HpackDecoder;
  fd_continuations : Continuations }.

(** [FrameDecoder::new]. *)
Definition FrameDecoder_new : FrameDecoder :=
  mkFrameDecoder [] 0 DEFAULT_MAX_FRAME_SIZE StageHeader FrameHeader_new
    (HpackDecoder_with_max_size DEFAULT_HEADER_TABLE_SIZE DEFAULT_MAX_HEADER_LIST_SIZE)
    Continuations_new.

Definition set_buffer (b : bytes) (o : Z) (d : FrameDecoder) : FrameDecoder :=
  mkFrameDecoder b o (fd_max_frame_size d) (fd_stage d) (fd_header d) (fd_hpack d) (fd_continuations d).
Definition set_stage (s : Stage) (d : FrameDecoder) : FrameDecoder :=
  mkFrameDecoder (fd_buffer d) (fd_offset d) (fd_max_frame_size d) s (fd_header d) (fd_hpack d) (fd_continuations d).
Definition set_header (h : FrameHeader) (d : FrameDecoder) : FrameDecoder :=
  mkFrameDecoder (fd_buffer d) (fd_offset d) (fd_max_frame_size d) (fd_stage d) h (fd_hpack d) (fd_continuations d).
Definition set_hpack (h : HpackDecoder) (d : FrameDecoder) : FrameDecoder :=
  mkFrameDecoder (fd_buffer d) (fd_offset d) (fd_max_frame_size d) (fd_stage d) (fd_header d) h (fd_continuations d).
Definition set_continuations (c : Continuations) (d : FrameDecoder) : FrameDecoder :=
  mkFrameDecoder (fd_buffer d) (fd_offset d) (fd_max_frame_size d) (fd_stage d) (fd_header d) (fd_hpack d) c.

Abbreviation FD := (ST FrameDecoder H2Error).

Definition connection_error {A} (c : ErrorCode) : FD A := throw (ConnectionError c).

(** [set_max_frame_size]. *)
Definition allowed_max_frame_size (size : Z) : bool :=
  (DEFAULT_MAX_FRAME_SIZE <=? size) && (size <=? MAX_ALLOWED_MAX_FRAME_SIZE).

Definition set_max_frame_size (size : Z) : FD () :=
  if allowed_max_frame_size size then
    modify_st (λ d, mkFrameDecoder (fd_buffer d) (fd_offset d) size (fd_stage d) (fd_header d)
      (fd_hpack d) (fd_continuations d))
  else connection_error ProtocolError.

(** [set_max_header_list_size]. *)
Definition set_max_header_list_size (size : Z) : FD () :=
  modify_st (λ d, set_hpack (update_header_list_size size (fd_hpack d)) d).

(** ** Access *)

Definition get_header : FD FrameHeader := λ d, (d, Ok (fd_header d)).
Definition get_continuations : FD Continuations := λ d, (d, Ok (fd_continuations d)).
Definition put_continuations (c : Continuations) : FD () := λ d, (set_continuations c d, Ok ()).

(** [HpackDecoderLayer]. *)
Definition hpack_decode (buf : bytes) : FD () := zoom fd_hpack set_hpack (HpackDecoder_decode buf).
Definition hpack_finish : FD Parts := zoom fd_hpack set_hpack HpackDecoder_finish.

(** [&buf[a..b]] and [buf[i]]: out of range is a panic. *)
Definition slice (buf : bytes) (a b : Z) : FD bytes :=
  if (a <=? b) && (b <=? len buf) then mret (takeZ (b - a) (dropZ a buf)) else panic.
Definition index_byte (buf : bytes) (i : Z) : FD Z :=
  match buf !! Z.to_nat i with Some x => mret x | None => panic end.

(** ** Tokens *)

Definition is_connection_frame (id : Z) : bool := id =? 0.

Definition byte_at (token : bytes) (i : nat) : Z := nth i token 0.

(** [get_stream_id], [get_code_value], on the four bytes that they are given. *)
Definition get_stream_id (token : bytes) : Z :=
  Z.lor (Z.lor (Z.lor (Z.shiftl (Z.land (byte_at token 0) 0x7f) 24) (Z.shiftl (byte_at token 1) 16))
    (Z.shiftl (byte_at token 2) 8)) (byte_at token 3).

Definition get_code_value (token : bytes) : Z :=
  Z.lor (Z.lor (Z.lor (Z.shiftl (byte_at token 0) 24) (Z.shiftl (byte_at token 1) 16))
    (Z.shiftl (byte_at token 2) 8)) (byte_at token 3).

(** [get_setting]: [None] for an unknown identifier. *)
Definition get_setting (id value : Z) : result H2Error (option Setting) :=
  match id with
  | 1 => Ok (Some (HeaderTableSize value))
  | 2 =>
      match value with
      | 0 => Ok (Some (EnablePush false))
      | 1 => Ok (Some (EnablePush true))
      | _ => Err (ConnectionError ProtocolError)
      end
  | 3 => Ok (Some (MaxConcurrentStreams value))
  | 4 =>
      if MAX_INITIAL_WINDOW_SIZE <? value then Err (ConnectionError FlowControlError)
      else Ok (Some (InitialWindowSize value))
  | 5 =>
      if allowed_max_frame_size value then Ok (Some (MaxFrameSize value))
      else Err (ConnectionError ProtocolError)
  | 6 => Ok (Some (MaxHeaderListSize value))
  | _ => Ok None
  end.

(** [split_token_to_setting], on a chunk of six bytes. *)
Definition split_token_to_setting (token : bytes) : result H2Error (option Setting) :=
  get_setting (Z.lor (Z.shiftl (byte_at token 0) 8) (byte_at token 1)) (get_code_value (drop 2 token)).

(** The loop over [buf.chunks(6)]; a chunk shorter than six is indexed out of
    range. *)
Fixpoint settings_of_chunks (fuel : nat) (buf : bytes) : result H2Error (list Setting) :=
  match fuel, buf with
  | _, [] => Ok []
  | O, _ => Panic
  | S fuel, _ =>
      if len buf <? 6 then Panic
      else
        s ← split_token_to_setting (take 6 buf);
        rest ← settings_of_chunks fuel (drop 6 buf);
        mret (match s with Some s => s :: rest | None => rest end)
  end.

(** ** Payloads *)

(** The lines that start most of the payload decoders: the payload is what was
    buffered, followed by [buf]. *)
Definition join_buffer (buf : bytes) : FD bytes := λ d,
  if negb (fd_offset d =? 0) then
    let d' := set_buffer (fd_buffer d ++ buf) (fd_offset d + len buf) d in (d', Ok (fd_buffer d'))
  else (d, Ok buf).

Definition complete (h : FrameHeader) (p : Payload) : FrameKind :=
  Complete (mkFrame (fh_stream_id h) (fh_flags h) p).

Definition reject_stream_0 : FD () :=
  h ← get_header;
  if is_connection_frame (fh_stream_id h) then connection_error ProtocolError else mret ().

Definition require_stream_0 : FD () :=
  h ← get_header;
  if negb (is_connection_frame (fh_stream_id h)) then connection_error ProtocolError else mret ().

(** The rest of [decode_ping_payload], once the payload is joined; and so for
    the other types. *)
Definition ping_payload (buf : bytes) : FD FrameKind :=
  h ← get_header;
  if negb (fh_payload_length h =? 8) || negb (len buf =? 8) then connection_error FrameSizeError
  else mret (complete h (PPing buf)).

Definition decode_ping_payload (buf : bytes) : FD FrameKind :=
  _ ← require_stream_0; buf ← join_buffer buf; ping_payload buf.

(** [decode_priority_payload]: the length of [buf] is checked before what was
    buffered is joined. *)
Definition priority_payload (buf : bytes) : FD FrameKind :=
  h ← get_header;
  b0 ← index_byte buf 0;
  id ← slice buf 0 4;
  weight ← index_byte buf 4;
  mret (complete h (PPriority (Z.land b0 0x80 =? 0x80) (get_stream_id id) weight)).

Definition decode_priority_payload (buf : bytes) : FD FrameKind :=
  _ ← reject_stream_0;
  h ← get_header;
  if negb (fh_payload_length h =? 5) || negb (len buf =? 5)
  then throw (StreamError (fh_stream_id h) FrameSizeError)
  else buf ← join_buffer buf; priority_payload buf.

(** [decode_goaway_payload]. *)
Definition goaway_payload (buf : bytes) : FD FrameKind :=
  h ← get_header;
  if (fh_payload_length h <? 8) || (len buf <? 8) then connection_error FrameSizeError
  else
    id ← slice buf 0 4;
    code ← slice buf 4 8;
    debug_data ← slice buf 8 (len buf);
    mret (complete h (PGoaway (get_code_value code) (get_stream_id id) debug_data)).

Definition decode_goaway_payload (buf : bytes) : FD FrameKind :=
  _ ← require_stream_0; buf ← join_buffer buf; goaway_payload buf.

(** [decode_window_update_payload]. *)
Definition window_update_payload (buf : bytes) : FD FrameKind :=
  h ← get_header;
  if negb (fh_payload_length h =? 4) || negb (len buf =? 4) then connection_error FrameSizeError
  else
    let increment_size := get_stream_id buf in
    if increment_size =? 0 then throw (StreamError (fh_stream_id h) ProtocolError)
    else mret (complete h (PWindowUpdate increment_size)).

Definition decode_window_update_payload (buf : bytes) : FD FrameKind :=
  buf ← join_buffer buf; window_update_payload buf.

(** [decode_reset_payload]. *)
Definition reset_payload (buf : bytes) : FD FrameKind :=
  h ← get_header;
  if negb (fh_payload_length h =? 4) || negb (len buf =? 4) then connection_error FrameSizeError
  else
    code ← slice buf 0 4;
    mret (complete h (PRstStream (get_code_value code))).

Definition decode_reset_payload (buf : bytes) : FD FrameKind :=
  _ ← reject_stream_0; buf ← join_buffer buf; reset_payload buf.

(** [decode_settings_payload]. *)
Definition settings_payload (buf : bytes) : FD FrameKind :=
  h ← get_header;
  if negb (fh_payload_length h mod 6 =? 0) then connection_error FrameSizeError
  else if is_ack (fh_flags h) then
    if negb (fh_payload_length h =? 0) || negb (len buf =? 0) then connection_error FrameSizeError
    else mret (complete h (PSettings []))
  else
    settings ← lift_res (settings_of_chunks (length buf) buf);
    mret (complete h (PSettings settings)).

Definition decode_settings_payload (buf : bytes) : FD FrameKind :=
  _ ← require_stream_0; buf ← join_buffer buf; settings_payload buf.

(** [decode_data_payload]. *)
Definition data_payload (buf : bytes) : FD FrameKind :=
  h ← get_header;
  if fh_payload_length h =? 0 then mret (complete h (PData []))
  else if is_padded (fh_flags h) then
    padded_length ← index_byte buf 0;
    if fh_payload_length h <=? padded_length then connection_error ProtocolError
    else
      data ← slice buf 1 (fh_payload_length h - padded_length);
      mret (complete h (PData data))
  else
    data ← slice buf 0 (fh_payload_length h);
    mret (complete h (PData data)).

Definition decode_data_payload (buf : bytes) : FD FrameKind :=
  _ ← reject_stream_0; buf ← join_buffer buf; data_payload buf.

(** [decode_continuation_payload]. *)
Definition continuation_payload (buf : bytes) : FD FrameKind :=
  h ← get_header;
  if is_end_headers (fh_flags h) then
    _ ← hpack_decode buf;
    headers ← hpack_finish;
    c ← get_continuations;
    let frame := mkFrame (ct_stream_id c) (ct_flags c)
      (if negb (ct_promised_stream_id c =? 0)
       then PPushPromise (ct_promised_stream_id c) headers else PHeaders headers) in
    _ ← put_continuations Continuations_new;
    mret (Complete frame)
  else
    _ ← hpack_decode buf;
    mret Partial.

Definition decode_continuation_payload (buf : bytes) : FD FrameKind :=
  _ ← reject_stream_0; buf ← join_buffer buf; continuation_payload buf.

(** Where the field block starts and ends, after the pad length and [skip]
    bytes, before the padding. *)
Definition fragment_range (h : FrameHeader) (skip : Z) (buf : bytes) : FD (Z * Z) :=
  range ← (if is_padded (fh_flags h) then
      padded_length ← index_byte buf 0;
      if fh_payload_length h <=? padded_length then connection_error ProtocolError
      else mret (skip + 1, fh_payload_length h - padded_length)
    else mret (skip, fh_payload_length h));
  if range.2 <? range.1 then connection_error ProtocolError else mret range.

(** [decode_headers_payload]. *)
Definition headers_payload (buf : bytes) : FD FrameKind :=
  h ← get_header;
  range ← fragment_range h (if is_headers_priority (fh_flags h) then 5 else 0) buf;
  if is_end_headers (fh_flags h) then
    fragment ← slice buf range.1 range.2;
    _ ← hpack_decode fragment;
    headers ← hpack_finish;
    mret (complete h (PHeaders headers))
  else
    c ← get_continuations;
    _ ← put_continuations (mkContinuations (fh_flags h) (is_end_stream (fh_flags h))
          (fh_stream_id h) false (ct_promised_stream_id c));
    fragment ← slice buf range.1 range.2;
    _ ← hpack_decode fragment;
    mret Partial.

Definition decode_headers_payload (buf : bytes) : FD FrameKind :=
  _ ← reject_stream_0; buf ← join_buffer buf; headers_payload buf.

(** [push_promise_framing]. *)
Definition push_promise_framing (end_headers : bool) (promised_stream_id : Z) : FD FrameKind :=
  h ← get_header;
  if end_headers then
    headers ← hpack_finish;
    mret (complete h (PPushPromise promised_stream_id headers))
  else
    c ← get_continuations;
    _ ← put_continuations (mkContinuations (fh_flags h) (ct_is_end_stream c)
          (fh_stream_id h) false promised_stream_id);
    mret Partial.

(** [decode_push_promise_payload]: the whole payload goes to the HPACK decoder,
    with the pad length, the promised stream identifier and the padding. *)
Definition push_promise_payload (buf : bytes) : FD FrameKind :=
  h ← get_header;
  range ← fragment_range h 4 buf;
  _ ← hpack_decode buf;
  id ← (if is_padded (fh_flags h) then slice buf 1 5 else slice buf 0 4);
  let promised_stream_id := get_stream_id id in
  if is_connection_frame promised_stream_id then connection_error ProtocolError
  else push_promise_framing (is_end_headers (fh_flags h)) promised_stream_id.

Definition decode_push_promise_payload (buf : bytes) : FD FrameKind :=
  _ ← reject_stream_0; buf ← join_buffer buf; push_promise_payload buf.

(** ** The machine *)

(** The [match] on the frame type in [decode_frame_payload]. *)
Definition decode_payload_of_type (frame_type : Z) (buf : bytes) : FD FrameKind :=
  match frame_type with
  | 0 => decode_data_payload buf
  | 1 => decode_headers_payload buf
  | 2 => decode_priority_payload buf
  | 3 => decode_reset_payload buf
  | 4 => decode_settings_payload buf
  | 5 => decode_push_promise_payload buf
  | 6 => decode_ping_payload buf
  | 7 => decode_goaway_payload buf
  | 8 => decode_window_update_payload buf
  | 9 => decode_continuation_payload buf
  | _ => connection_error ProtocolError
  end.

(** Frames of other types or streams are not allowed in a field block. *)
Definition breaks_block (d : FrameDecoder) : bool :=
  negb (ct_is_end_headers (fd_continuations d)) &&
  (negb (fh_stream_id (fd_header d) =? ct_stream_id (fd_continuations d)) ||
   negb (fh_frame_type (fd_header d) =? 9)).

Definition extend_buffer (buf : bytes) (d : FrameDecoder) : FrameDecoder :=
  set_buffer (fd_buffer d ++ buf) (fd_offset d + len buf) d.

Definition clear_buffer (d : FrameDecoder) : FrameDecoder :=
  if negb (fd_offset d =? 0) then set_buffer [] 0 d else d.

(** [decode_frame_payload]. *)
Definition decode_frame_payload (buf : bytes) : FD (option (bytes * FrameKind)) :=
  d ← get_st;
  if breaks_block d then connection_error ProtocolError
  else if fh_payload_length (fd_header d) <? fd_offset d then panic
  else
    let frame_end_index := fh_payload_length (fd_header d) - fd_offset d in
    if len buf <? frame_end_index then
      _ ← modify_st (extend_buffer buf);
      mret None
    else
      frame ← decode_payload_of_type (fh_frame_type (fd_header d)) (takeZ frame_end_index buf);
      _ ← modify_st (λ d, clear_buffer (set_header FrameHeader_new d));
      mret (Some (dropZ frame_end_index buf, frame)).

(** The nine bytes of a frame header. *)
Definition parse_header (b : bytes) : FrameHeader :=
  mkFrameHeader (get_stream_id (drop 5 b)) (byte_at b 4) (byte_at b 3)
    (Z.shiftl (byte_at b 0) 16 + Z.shiftl (byte_at b 1) 8 + byte_at b 2).

(** [decode_frame_header]. *)
Definition decode_frame_header (buf : bytes) : FD (option bytes) :=
  d ← get_st;
  if FRAME_HEADER_LENGTH <? fd_offset d then panic
  else
    let payload_pos := FRAME_HEADER_LENGTH - fd_offset d in
    if len buf <? payload_pos then
      _ ← modify_st (extend_buffer buf);
      mret None
    else
      _ ← (if fd_offset d =? 0 then mret ()
           else modify_st (λ d, set_buffer (fd_buffer d ++ takeZ payload_pos buf) (fd_offset d) d));
      d ← get_st;
      let header := parse_header (if fd_offset d =? 0 then buf else fd_buffer d) in
      if fd_max_frame_size d <? fh_payload_length header then connection_error FrameSizeError
      else
        _ ← modify_st (λ d, set_header header (clear_buffer d));
        mret (Some (dropZ payload_pos buf)).

(** The loop of [FrameDecoder::decode]. *)
Fixpoint decode_frames (fuel : nat) (buf : bytes) : FD (list FrameKind) :=
  match fuel with
  | O => panic
  | S fuel =>
      d ← get_st;
      match fd_stage d with
      | StageHeader =>
          r ← decode_frame_header buf;
          match r with
          | Some remain => _ ← modify_st (set_stage StagePayload); decode_frames fuel remain
          | None => mret []
          end
      | StagePayload =>
          r ← decode_frame_payload buf;
          match r with
          | Some (remain, frame) =>
              _ ← modify_st (set_stage StageHeader);
              frames ← decode_frames fuel remain;
              mret (frame :: frames)
          | None => mret []
          end
      end
  end.

(** Two turns of the loop take at least a byte. *)
Definition frames_fuel (buf : bytes) : nat := (2 * length buf + 2)%nat.

(** [FrameDecoder::decode]. *)
Definition FrameDecoder_decode (buf : bytes) : FD (list FrameKind) := decode_frames (frames_fuel buf) buf.

(** ** Code that does not see the buffer

    Once the payload is joined, the payload decoders look at the frame header,
    the HPACK decoder and the continuation only. *)
Class Unbuffered {A} (m : FD A) : Prop :=
  unbuffered : ∀ b o d, m (set_buffer b o d) = (set_buffer b o (m d).1, (m d).2).

#[export] Instance ret_unbuffered {A} (a : A) : Unbuffered (mret a).
Proof. done. Qed.
#[export] Instance throw_unbuffered {A} e : Unbuffered (A := A) (throw e).
Proof. done. Qed.
#[export] Instance connection_error_unbuffered {A} e : Unbuffered (A := A) (connection_error e).
Proof. done. Qed.
#[export] Instance panic_unbuffered {A} : Unbuffered (A := A) panic.
Proof. done. Qed.
#[export] Instance lift_res_unbuffered {A} (r : result H2Error A) : Unbuffered (lift_res r).
Proof. done. Qed.
#[export] Instance get_header_unbuffered : Unbuffered get_header.
Proof. done. Qed.
#[export] Instance get_continuations_unbuffered : Unbuffered get_continuations.
Proof. done. Qed.
#[export] Instance put_continuations_unbuffered c : Unbuffered (put_continuations c).
Proof. done. Qed.
#[export] Instance zoom_unbuffered {A} (m : ST HpackDecoder H2Error A) :
  Unbuffered (zoom fd_hpack set_hpack m).
Proof. intros b o d. unfold zoom. cbn. by destruct (m (fd_hpack d)). Qed.
#[export] Instance hpack_decode_unbuffered buf : Unbuffered (hpack_decode buf).
Proof. apply _. Qed.
#[export] Instance hpack_finish_unbuffered : Unbuffered hpack_finish.
Proof. apply _. Qed.
#[export] Instance bind_unbuffered {A B} (m : FD A) (f : A → FD B) :
  Unbuffered m → (∀ a, Unbuffered (f a)) → Unbuffered (m ≫= f).
Proof.
  intros Hm Hf b o d. rewrite !bind_st, Hm. destruct (m d) as [d' [a| |]]; cbn [fst snd]; [apply Hf|done..].
Qed.
#[export] Instance if_unbuffered {A} (c : bool) (m n : FD A) :
  Unbuffered m → Unbuffered n → Unbuffered (if c then m else n).
Proof. by destruct c. Qed.
#[export] Instance slice_unbuffered buf a b : Unbuffered (slice buf a b).
Proof. unfold slice. apply _. Qed.
#[export] Instance index_byte_unbuffered buf i : Unbuffered (index_byte buf i).
Proof. unfold index_byte. destruct (buf !! _); apply _. Qed.
#[export] Instance fragment_range_unbuffered h skip buf : Unbuffered (fragment_range h skip buf).
Proof. unfold fragment_range. apply _. Qed.
#[export] Instance push_promise_framing_unbuffered e i : Unbuffered (push_promise_framing e i).
Proof. unfold push_promise_framing. apply _. Qed.

#[export] Instance ping_unbuffered buf : Unbuffered (ping_payload buf).
Proof. unfold ping_payload. cbv zeta. apply _. Qed.
#[export] Instance goaway_unbuffered buf : Unbuffered (goaway_payload buf).
Proof. unfold goaway_payload. cbv zeta. apply _. Qed.
#[export] Instance window_update_unbuffered buf : Unbuffered (window_update_payload buf).
Proof. unfold window_update_payload. cbv zeta. apply _. Qed.
#[export] Instance reset_unbuffered buf : Unbuffered (reset_payload buf).
Proof. unfold reset_payload. cbv zeta. apply _. Qed.
#[export] Instance settings_unbuffered buf : Unbuffered (settings_payload buf).
Proof. unfold settings_payload. cbv zeta. apply _. Qed.
#[export] Instance data_unbuffered buf : Unbuffered (data_payload buf).
Proof. unfold data_payload. cbv zeta. apply _. Qed.
#[export] Instance continuation_unbuffered buf : Unbuffered (continuation_payload buf).
Proof. unfold continuation_payload. cbv zeta. apply _. Qed.
#[export] Instance headers_unbuffered buf : Unbuffered (headers_payload buf).
Proof. unfold headers_payload. cbv zeta. apply _. Qed.
#[export] Instance push_promise_unbuffered buf : Unbuffered (push_promise_payload buf).
Proof.
  unfold push_promise_payload. cbv zeta.
  repeat (apply bind_unbuffered; [apply _|intros ?]). apply _.
Qed.

(** A check of the frame header. *)
Definition check_header (f : FrameHeader → result H2Error ()) : FD () := λ d, (d, f (fd_header d)).

(** All the payload decoders but the one of PRIORITY are a check of the header,
    the joining of the buffer, and code that does not see it. *)
Definition joins_first (dec : bytes → FD FrameKind) : Prop :=
  ∃ f body, (∀ b, Unbuffered (body b)) ∧
    ∀ buf d, dec buf d = (_ ← check_header f; buf ← join_buffer buf; body buf) d.

Lemma reject_joins body : (∀ b, Unbuffered (body b)) →
  joins_first (λ buf, _ ← reject_stream_0; buf ← join_buffer buf; body buf).
Proof.
  intros Hb. exists (λ h, if is_connection_frame (fh_stream_id h) then Err (ConnectionError ProtocolError) else Ok ()), body.
  split; [done|]. intros buf d. rewrite !bind_st. unfold reject_stream_0, check_header.
  rewrite bind_st. cbn [get_header]. by destruct (is_connection_frame _).
Qed.

Lemma require_joins body : (∀ b, Unbuffered (body b)) →
  joins_first (λ buf, _ ← require_stream_0; buf ← join_buffer buf; body buf).
Proof.
  intros Hb. exists (λ h, if negb (is_connection_frame (fh_stream_id h)) then Err (ConnectionError ProtocolError) else Ok ()), body.
  split; [done|]. intros buf d. rewrite !bind_st. unfold require_stream_0, check_header.
  rewrite bind_st. cbn [get_header]. by destruct (is_connection_frame _).
Qed.

Lemma joins_ext dec dec' : (∀ b, dec b = dec' b) → joins_first dec' → joins_first dec.
Proof. intros E (f & body & Hb & H). exists f, body. split; [done|]. intros. by rewrite E. Qed.

Lemma payload_joins t : t ≠ 2 → joins_first (decode_payload_of_type t).
Proof.
  intros Ht. unfold decode_payload_of_type. destruct t as [|p|p].
  { apply reject_joins. apply _. }
  2:{ exists (λ _, Err (ConnectionError ProtocolError)), (λ _, mret Partial). split; [apply _|done]. }
  do 4 (try destruct p as [p|p|]); try done;
    try (exists (λ _, Err (ConnectionError ProtocolError)), (λ _, mret Partial); split; [apply _|done]);
    try (apply reject_joins; apply _); try (apply require_joins; apply _).
  exists (λ _, Ok ()), window_update_payload. split; [apply _|done].
Qed.

(** ** Invariant *)

(** What is buffered is part of a frame header or of a payload. *)
Definition frame_inv (d : FrameDecoder) : Prop :=
  len (fd_buffer d) = fd_offset d ∧ Forall is_byte (fd_buffer d) ∧
  match fd_stage d with
  | StageHeader => fd_offset d < FRAME_HEADER_LENGTH
  | StagePayload => fd_offset d ≤ fh_payload_length (fd_header d)
  end.

Lemma frame_inv_new : frame_inv FrameDecoder_new.
Proof. split_and!; [done|constructor|done]. Qed.

Definition norm (d : FrameDecoder) : FrameDecoder := set_buffer [] 0 d.

Lemma clear_norm d : len (fd_buffer d) = fd_offset d → clear_buffer d = norm d.
Proof.
  intros H. unfold clear_buffer, norm. destruct (Z.eqb_spec (fd_offset d) 0) as [E|]; [|done].
  rewrite E in H. apply len_0_nil in H. destruct d; cbn in *. by subst.
Qed.

Lemma set_buffer_same d : set_buffer (fd_buffer d) (fd_offset d) d = d.
Proof. by destruct d. Qed.

(** Same result, and same state unless it is an error. *)
Definition out_eq {A} (x y : FrameDecoder * result H2Error A) : Prop :=
  x.2 = y.2 ∧ (is_Ok x.2 = true → x.1 = y.1).

#[export] Instance out_eq_equiv {A} : Equivalence (@out_eq A).
Proof.
  split; [by intros x; split| |].
  - intros x y [H1 H2]. split; [done|]. intros H. symmetry. apply H2. by rewrite H1.
  - intros x y z [H1 H2] [H3 H4]. split; [congruence|].
    intros H. rewrite H2 by done. apply H4. by rewrite <- H1.
Qed.

Lemma out_eq_bind {A B} (m m' : FD A) (f f' : A → FD B) d d' :
  out_eq (m d) (m' d') → (∀ a s, m d = (s, Ok a) → out_eq (f a s) (f' a s)) →
  out_eq ((m ≫= f) d) ((m' ≫= f') d').
Proof.
  intros [H1 H2] Hf. rewrite !bind_st.
  destruct (m d) as [s [a|e|]], (m' d') as [s' [a'|e'|]]; cbn [fst snd is_Ok] in *; try done;
    simplify_eq; [|by split..]. rewrite <- (H2 eq_refl). by apply Hf.
Qed.

(** The payload decoders leave the buffer and its length in step, and the rest
    of the machine alone. *)
Lemma check_header_st f d : check_header f d = (d, f (fd_header d)).
Proof. done. Qed.

Lemma join_buffer_eq buf d :
  len (fd_buffer d) = fd_offset d →
  ∃ b o, len b = o ∧ join_buffer buf d = (set_buffer b o d, Ok (fd_buffer d ++ buf)).
Proof.
  intros H. unfold join_buffer. destruct (Z.eqb_spec (fd_offset d) 0) as [E|E]; cbn [negb].
  - exists (fd_buffer d), (fd_offset d). rewrite E in H. apply len_0_nil in H as H'.
    rewrite set_buffer_same, H'. split; [|done]. cbn. by rewrite E.
  - eexists _, _. split; [|done]. rewrite len_app. lia.
Qed.

(** The payload is what counts, not where it was cut. *)
Lemma joins_norm dec buf d :
  joins_first dec → len (fd_buffer d) = fd_offset d →
  (dec buf d).2 = (dec (fd_buffer d ++ buf) (norm d)).2 ∧
  norm (dec buf d).1 = norm (dec (fd_buffer d ++ buf) (norm d)).1 ∧
  len (fd_buffer (dec buf d).1) = fd_offset (dec buf d).1.
Proof.
  intros (f & body & Hb & Hdec) Hlen. rewrite !Hdec, !bind_st, !check_header_st.
  change (fd_header (norm d)) with (fd_header d).
  destruct (f (fd_header d)) as [[]|e|]; [|done..]. rewrite !bind_st.
  destruct (join_buffer_eq buf d Hlen) as (b & o & Ho & ->).
  change (join_buffer (fd_buffer d ++ buf) (norm d)) with (norm d, @Ok H2Error _ (fd_buffer d ++ buf)).
  unfold norm at 2. rewrite (Hb _ b o d), (Hb _ [] 0 d). cbn [fst snd].
  by split_and!.
Qed.

Lemma priority_len buf d :
  len (fd_buffer d) = fd_offset d →
  len (fd_buffer (decode_priority_payload buf d).1) = fd_offset (decode_priority_payload buf d).1.
Proof.
  intros Hlen. unfold decode_priority_payload, reject_stream_0. rewrite !bind_st. cbn [get_header].
  destruct (is_connection_frame _); [done|]. cbn [mret ST_ret]. rewrite bind_st. cbn [get_header].
  destruct (_ || _); [done|]. rewrite bind_st.
  destruct (join_buffer_eq buf d Hlen) as (b & o & Ho & ->).
  assert (Unbuffered (priority_payload (fd_buffer d ++ buf))) as Hu by (unfold priority_payload; apply _).
  by rewrite Hu.
Qed.

Lemma payload_len t buf d :
  len (fd_buffer d) = fd_offset d →
  len (fd_buffer (decode_payload_of_type t buf d).1) = fd_offset (decode_payload_of_type t buf d).1.
Proof.
  intros Hlen. destruct (decide (t = 2)) as [->|Ht]; [by apply priority_len|].
  by apply (joins_norm _ buf d (payload_joins t Ht) Hlen).
Qed.

(** ** One turn of the loop *)

(** A turn: the bytes that are left and the frames it gave, or [None] when the
    loop stops. *)
Definition frame_step (buf : bytes) : FD (option (bytes * list FrameKind)) :=
  d ← get_st;
  match fd_stage d with
  | StageHeader =>
      r ← decode_frame_header buf;
      match r with
      | Some remain => _ ← modify_st (set_stage StagePayload); mret (Some (remain, []))
      | None => mret None
      end
  | StagePayload =>
      r ← decode_frame_payload buf;
      match r with
      | Some (remain, frame) => _ ← modify_st (set_stage StageHeader); mret (Some (remain, [frame]))
      | None => mret None
      end
  end.

Lemma decode_frames_step fuel buf d :
  decode_frames (S fuel) buf d =
  match frame_step buf d with
  | (d', Ok (Some (remain, frames))) => (rest ← decode_frames fuel remain; mret (frames ++ rest)) d'
  | (d', Ok None) => (d', Ok [])
  | (d', Err e) => (d', Err e)
  | (d', Panic) => (d', Panic)
  end.
Proof.
  cbn [decode_frames]. unfold frame_step. rewrite !bind_st. cbn [get_st].
  destruct (fd_stage d).
  - rewrite !bind_st. destruct (decode_frame_header buf d) as [d' [[remain|]|e|]]; [|done..].
    rewrite !bind_st. cbn [modify_st mret ST_ret app]. rewrite !bind_st. cbn [mret ST_ret].
    by destruct (decode_frames fuel remain _) as [? [| |]].
  - rewrite !bind_st. destruct (decode_frame_payload buf d) as [d' [[[remain frame]|]|e|]]; [|done..].
    by rewrite !bind_st.
Qed.

Definition turn_measure (buf : bytes) (d : FrameDecoder) : nat :=
  (2 * length buf + match fd_stage d with StagePayload => 1 | StageHeader => 0 end)%nat.

Lemma parse_header_nonneg b : Forall is_byte b → 0 ≤ fh_payload_length (parse_header b).
Proof.
  intros Hb. assert (∀ i, 0 ≤ byte_at b i) as H.
  { intros i. unfold byte_at. destruct (nth_in_or_default i b 0) as [Hin| ->]; [|done].
    rewrite Forall_forall in Hb. apply list_elem_of_In, Hb in Hin. by destruct Hin. }
  cbn [parse_header fh_payload_length]. pose proof (H 0%nat). pose proof (H 1%nat). pose proof (H 2%nat).
  rewrite !Z.shiftl_mul_pow2 by lia. lia.
Qed.

Lemma length_dropZ_lt {A} n (l : list A) : 0 < n ≤ len l → (length (dropZ n l) < length l)%nat.
Proof. unfold dropZ, len. rewrite length_drop. lia. Qed.

Lemma parse_header_take b : parse_header (takeZ 9 b) = parse_header b.
Proof. do 9 (destruct b as [|? b]; [reflexivity|]). reflexivity. Qed.

(** The header decoder, on a consistent state. *)
Lemma decode_frame_header_eq buf d :
  len (fd_buffer d) = fd_offset d → fd_offset d < FRAME_HEADER_LENGTH →
  let pos := FRAME_HEADER_LENGTH - fd_offset d in
  let header := parse_header (fd_buffer d ++ takeZ pos buf) in
  ∃ d', decode_frame_header buf d =
    if len buf <? pos then (extend_buffer buf d, Ok None)
    else if fd_max_frame_size d <? fh_payload_length header
    then (d', Err (ConnectionError FrameSizeError))
    else (set_header header (norm d), Ok (Some (dropZ pos buf))).
Proof.
  intros Hlen Hoff pos header. unfold decode_frame_header. rewrite bind_st. cbn [get_st].
  destruct (Z.ltb_spec FRAME_HEADER_LENGTH (fd_offset d)); [lia|]. fold pos.
  destruct (len buf <? pos); [by exists d|]. rewrite bind_st.
  destruct (Z.eqb_spec (fd_offset d) 0) as [E|E].
  - exists d. cbn [mret ST_ret]. rewrite bind_st. cbn [get_st].
    assert (header = parse_header buf) as Hh.
    { subst header pos. rewrite E in Hlen. rewrite (len_0_nil _ Hlen), E. apply parse_header_take. }
    destruct (Z.eqb_spec (fd_offset d) 0); [|done]. rewrite <- Hh.
    destruct (_ <? fh_payload_length header); [done|]. by rewrite bind_st, <- clear_norm.
  - set (d' := set_buffer (fd_buffer d ++ takeZ pos buf) (fd_offset d) d). exists d'.
    unfold modify_st at 1. rewrite bind_st. cbn [get_st]. fold d'.
    change (fd_offset d') with (fd_offset d). destruct (Z.eqb_spec (fd_offset d) 0); [done|].
    change (fd_buffer d') with (fd_buffer d ++ takeZ pos buf). fold header.
    change (fd_max_frame_size d') with (fd_max_frame_size d).
    destruct (_ <? fh_payload_length header); [done|]. rewrite bind_st. unfold modify_st, clear_buffer.
    change (fd_offset d') with (fd_offset d). by destruct (Z.eqb_spec (fd_offset d) 0).
Qed.

(** The payload decoder, on a consistent state. *)
Lemma decode_frame_payload_eq buf d :
  len (fd_buffer d) = fd_offset d → fd_offset d ≤ fh_payload_length (fd_header d) →
  let n := fh_payload_length (fd_header d) - fd_offset d in
  decode_frame_payload buf d =
    if breaks_block d then (d, Err (ConnectionError ProtocolError))
    else if len buf <? n then (extend_buffer buf d, Ok None)
    else match decode_payload_of_type (fh_frame_type (fd_header d)) (takeZ n buf) d with
         | (d', Ok frame) => (set_header FrameHeader_new (norm d'), Ok (Some (dropZ n buf, frame)))
         | (d', Err e) => (d', Err e)
         | (d', Panic) => (d', Panic)
         end.
Proof.
  intros Hlen Hoff n. unfold decode_frame_payload. rewrite bind_st. cbn [get_st].
  destruct (breaks_block d); [done|].
  destruct (Z.ltb_spec (fh_payload_length (fd_header d)) (fd_offset d)); [lia|]. fold n.
  destruct (len buf <? n); [done|]. rewrite bind_st.
  pose proof (payload_len (fh_frame_type (fd_header d)) (takeZ n buf) d Hlen) as Hl.
  destruct (decode_payload_of_type _ _ d) as [d' [frame|e|]]; [|done..]. cbn [fst] in Hl.
  rewrite bind_st. unfold modify_st. cbn [mret ST_ret]. by rewrite (clear_norm (set_header _ d')).
Qed.

Lemma Forall_takeZ {A} (P : A → Prop) n l : Forall P l → Forall P (takeZ n l).
Proof. apply Forall_take. Qed.

(** More bytes behind the ones that a turn needs make no difference. *)
Lemma frame_step_app a b d :
  frame_inv d → Forall is_byte a →
  match frame_step a d with
  | (d', Ok (Some (remain, frames))) =>
      frame_step (a ++ b) d = (d', Ok (Some (remain ++ b, frames))) ∧ frame_inv d' ∧
      (turn_measure remain d' < turn_measure a d)%nat ∧ Forall is_byte remain
  | (d', Ok None) => d' = extend_buffer a d ∧ frame_inv d'
  | (_, r) => (frame_step (a ++ b) d).2 = r
  end.
Proof.
  intros (Hlen & Hbuf & Hst) Ha. unfold frame_step. rewrite !bind_st. cbn [get_st].
  pose proof (len_nonneg b) as Hnb. unfold turn_measure.
  destruct (fd_stage d) eqn:Est; rewrite !bind_st.
  - destruct (decode_frame_header_eq a d Hlen Hst) as (d1 & E1).
    destruct (decode_frame_header_eq (a ++ b) d Hlen Hst) as (d2 & E2).
    rewrite E1, E2. clear E1 E2. set (pos := FRAME_HEADER_LENGTH - fd_offset d) in *.
    rewrite len_app. destruct (Z.ltb_spec (len a) pos) as [Hlt|Hge].
    + cbn [mret ST_ret]. split; [done|]. unfold extend_buffer, frame_inv. split_and!; cbn [fd_buffer fd_offset set_buffer fd_stage].
      * rewrite len_app. lia.
      * by apply Forall_app.
      * rewrite Est. lia.
    + destruct (Z.ltb_spec (len a + len b) pos); [lia|]. rewrite takeZ_app_le, dropZ_app_le by lia.
      assert (Forall is_byte (fd_buffer d ++ takeZ pos a)) as Hh
        by (apply Forall_app; split; [done|by apply Forall_takeZ]).
      destruct (_ <? _); [done|]. rewrite !bind_st. unfold modify_st. cbn [mret ST_ret].
      split; [done|]. split; [split_and!; [done|constructor|apply parse_header_nonneg; exact Hh]|].
      split; [|by apply Forall_drop].
      cbn [fd_stage set_stage]. pose proof (length_dropZ_lt pos a). subst pos. unfold FRAME_HEADER_LENGTH in *. lia.
  - rewrite !decode_frame_payload_eq by done. set (n := fh_payload_length (fd_header d) - fd_offset d).
    destruct (breaks_block d); [done|]. rewrite len_app. destruct (Z.ltb_spec (len a) n) as [Hlt|Hge].
    + cbn [mret ST_ret]. split; [done|]. unfold extend_buffer, frame_inv. split_and!; cbn [fd_buffer fd_offset set_buffer fd_stage].
      * rewrite len_app. lia.
      * by apply Forall_app.
      * rewrite Est. cbn [fd_header set_buffer fd_stage fd_offset]. subst n. lia.
    + destruct (Z.ltb_spec (len a + len b) n); [lia|]. rewrite takeZ_app_le, dropZ_app_le by lia.
      destruct (decode_payload_of_type _ _ d) as [d' [frame|e|]]; [|done..].
      rewrite !bind_st. unfold modify_st. cbn [mret ST_ret].
      split; [done|]. split; [split_and!; [done|constructor|done]|].
      split; [|by apply Forall_drop].
      cbn [fd_stage set_stage]. pose proof (length_dropZ n a). lia.
Qed.

(** In a state that has no part of a PRIORITY payload in its buffer. *)
Definition inside_priority (d : FrameDecoder) : bool :=
  match fd_stage d with
  | StagePayload => (fh_frame_type (fd_header d) =? 2) && negb (fd_offset d =? 0)
  | StageHeader => false
  end.

(** A turn sees the bytes that were buffered and those that come alike. *)
Lemma frame_step_norm buf d :
  frame_inv d → inside_priority d = false →
  out_eq (frame_step buf d) (frame_step (fd_buffer d ++ buf) (norm d)).
Proof.
  intros (Hlen & Hbuf & Hst) Hp. unfold frame_step, inside_priority in *. rewrite !bind_st. cbn [get_st].
  change (fd_stage (norm d)) with (fd_stage d). pose proof (len_nonneg (fd_buffer d)) as Hn.
  destruct (fd_stage d).
  - apply out_eq_bind; [|done].
    destruct (decode_frame_header_eq buf d Hlen Hst) as (d1 & ->).
    destruct (decode_frame_header_eq (fd_buffer d ++ buf) (norm d)) as (d2 & ->); [done|done|].
    change (fd_offset (norm d)) with 0. change (fd_buffer (norm d)) with (@nil Z).
    change (fd_max_frame_size (norm d)) with (fd_max_frame_size d). cbn [app].
    set (pos := FRAME_HEADER_LENGTH - fd_offset d) in *. rewrite Z.sub_0_r, len_app.
    assert ((len (fd_buffer d) + len buf <? FRAME_HEADER_LENGTH) = (len buf <? pos)) as -> by lia.
    destruct (len buf <? pos) eqn:E.
    + split; [done|]. intros _. unfold extend_buffer, norm, set_buffer. cbn. by rewrite len_app, Hlen.
    + bool_to_prop. rewrite takeZ_app_ge, dropZ_app_ge by lia.
      replace (FRAME_HEADER_LENGTH - len (fd_buffer d)) with pos by lia.
      by destruct (_ <? _); [split|].
  - apply out_eq_bind; [|done]. rewrite !decode_frame_payload_eq by (done || cbn; lia).
    change (breaks_block (norm d)) with (breaks_block d). change (fd_header (norm d)) with (fd_header d).
    change (fd_offset (norm d)) with 0. destruct (breaks_block d); [by split|].
    set (n := fh_payload_length (fd_header d) - fd_offset d) in *. rewrite Z.sub_0_r, len_app.
    assert ((len (fd_buffer d) + len buf <? fh_payload_length (fd_header d)) = (len buf <? n)) as -> by lia.
    destruct (len buf <? n) eqn:E.
    + split; [done|]. intros _. unfold extend_buffer, norm, set_buffer. cbn. by rewrite len_app, Hlen.
    + bool_to_prop. rewrite takeZ_app_ge, dropZ_app_ge by lia.
      replace (fh_payload_length (fd_header d) - len (fd_buffer d)) with n by lia.
      destruct (Z.eqb_spec (fd_offset d) 0) as [E0|E0].
      { rewrite E0 in Hlen. rewrite (len_0_nil _ Hlen). cbn [app].
        replace (norm d) with d; [done|]. rewrite <- clear_norm by congruence.
        unfold clear_buffer. by rewrite (proj2 (Z.eqb_eq _ _) E0). }
      rewrite andb_true_r in Hp. bool_to_prop.
      destruct (joins_norm _ (takeZ n buf) d (payload_joins _ Hp) Hlen) as (H1 & H2 & _).
      destruct (decode_payload_of_type _ (takeZ n buf) d) as [s [f|e|]],
        (decode_payload_of_type _ (fd_buffer d ++ takeZ n buf) (norm d)) as [s' [f'|e'|]];
        cbn [fst snd] in *; try done; (split; [cbn [snd]; congruence|]); try done.
      intros _. cbn [fst]. by rewrite H2.
Qed.

(** ** The loop *)

Lemma decode_frames_fuel f1 f2 buf d :
  frame_inv d → Forall is_byte buf → (turn_measure buf d < f1)%nat → (turn_measure buf d < f2)%nat →
  decode_frames f1 buf d = decode_frames f2 buf d.
Proof.
  revert f2 buf d. induction f1 as [|f1 IH]; intros [|f2] buf d Hd Hb H1 H2; [lia..|].
  rewrite !decode_frames_step. pose proof (frame_step_app buf [] d Hd Hb) as H.
  destruct (frame_step buf d) as [d' [[[remain frames]|]|e|]]; [|done..].
  destruct H as (_ & Hd' & Hm & Hb'). rewrite !bind_st. by rewrite (IH f2) by (done || lia).
Qed.

(** [FrameDecoder::decode] turn by turn, without fuel: it always returns. *)
Lemma FrameDecoder_decode_step buf d :
  frame_inv d → Forall is_byte buf →
  FrameDecoder_decode buf d =
  match frame_step buf d with
  | (d', Ok (Some (remain, frames))) => (rest ← FrameDecoder_decode remain; mret (frames ++ rest)) d'
  | (d', Ok None) => (d', Ok [])
  | (d', Err e) => (d', Err e)
  | (d', Panic) => (d', Panic)
  end.
Proof.
  intros Hd Hb. unfold FrameDecoder_decode, frames_fuel.
  replace (2 * length buf + 2)%nat with (S (2 * length buf + 1)) by lia. rewrite decode_frames_step.
  pose proof (frame_step_app buf [] d Hd Hb) as H.
  destruct (frame_step buf d) as [d' [[[remain frames]|]|e|]]; [|done..].
  destruct H as (_ & Hd' & Hm & Hb'). rewrite !bind_st.
  assert (∀ r s, turn_measure r s ≤ 2 * length r + 1)%nat as Hle
    by (intros r s; unfold turn_measure; destruct (fd_stage s); lia).
  rewrite (decode_frames_fuel _ (2 * length remain + 2)%nat) by
    (done || (pose proof (Hle remain d'); pose proof (Hle buf d); lia)). done.
Qed.

Lemma turn_ind (P : bytes → FrameDecoder → Prop) :
  (∀ buf d, (∀ r s, (turn_measure r s < turn_measure buf d)%nat → P r s) → P buf d) → ∀ buf d, P buf d.
Proof.
  intros H. assert (∀ n buf d, (turn_measure buf d < n)%nat → P buf d) as Hn.
  { induction n as [|n IH]; intros buf d Hm; [lia|]. apply H. intros r s Hr. apply IH. lia. }
  intros buf d. apply (Hn (S (turn_measure buf d))). lia.
Qed.

(** Decoding keeps the invariant, while it succeeds. *)
Lemma FrameDecoder_decode_inv buf d d' frames :
  frame_inv d → Forall is_byte buf → FrameDecoder_decode buf d = (d', Ok frames) → frame_inv d'.
Proof.
  revert buf d d' frames. refine (turn_ind (λ buf d, ∀ d' frames, _) _). intros buf d IH d' frames Hd Hb.
  rewrite FrameDecoder_decode_step by done. pose proof (frame_step_app buf [] d Hd Hb) as H.
  destruct (frame_step buf d) as [s [[[remain fs]|]|e|]]; [| |done..].
  - destruct H as (_ & Hs & Hm & Hr). rewrite bind_st.
    destruct (FrameDecoder_decode remain s) as [s' [rest| |]] eqn:E; [|done..].
    intros [= -> _]. by eapply IH.
  - destruct H as (_ & Hs). by intros [= <- _].
Qed.

(** The loop respects what [frame_step_norm] gives. *)
Lemma FrameDecoder_decode_norm buf d :
  frame_inv d → Forall is_byte buf → inside_priority d = false →
  out_eq (FrameDecoder_decode buf d) (FrameDecoder_decode (fd_buffer d ++ buf) (norm d)).
Proof.
  intros Hd Hb Hp. pose proof Hd as (Hlen & Hbuf & Hst).
  assert (frame_inv (norm d)) as Hn.
  { split_and!; [done|constructor|]. change (fd_stage (norm d)) with (fd_stage d).
    pose proof (len_nonneg (fd_buffer d)). destruct (fd_stage d); [done|]. cbn. lia. }
  rewrite !FrameDecoder_decode_step by (done || by apply Forall_app).
  destruct (frame_step_norm buf d Hd Hp) as [H1 H2].
  destruct (frame_step buf d) as [s [o|e|]], (frame_step (fd_buffer d ++ buf) (norm d)) as [s' [o'|e'|]];
    cbn [fst snd is_Ok] in *; try done; [|split; [cbn [snd]; congruence|done]].
  rewrite <- (H2 eq_refl). by injection H1 as <-.
Qed.

Lemma norm_extend a d : norm (extend_buffer a d) = norm d.
Proof. done. Qed.

Lemma inside_priority_extend a d :
  len (fd_buffer d) = fd_offset d → inside_priority (extend_buffer a d) = false → inside_priority d = false.
Proof.
  intros Hlen. unfold inside_priority, extend_buffer. cbn [fd_stage set_buffer fd_header fd_offset].
  destruct (fd_stage d); [done|]. destruct (_ =? 2); [|done]. cbn [andb].
  pose proof (len_nonneg (fd_buffer d)). pose proof (len_nonneg a). lia.
Qed.

(** When the first segment stops the loop at once. *)
Lemma decode_extend a b d :
  frame_inv d → Forall is_byte a → Forall is_byte b → frame_inv (extend_buffer a d) →
  inside_priority (extend_buffer a d) = false →
  out_eq (FrameDecoder_decode (a ++ b) d) (FrameDecoder_decode b (extend_buffer a d)).
Proof.
  intros Hd Ha Hb Hd' Hp.
  rewrite (FrameDecoder_decode_norm (a ++ b) d);
    [|done|by apply Forall_app|eapply inside_priority_extend; [apply Hd|exact Hp]].
  rewrite (FrameDecoder_decode_norm b (extend_buffer a d)) by done.
  rewrite norm_extend. unfold extend_buffer. cbn [fd_buffer set_buffer]. by rewrite app_assoc.
Qed.

Lemma decode_segments_ind a d : ∀ b,
  frame_inv d → Forall is_byte a → Forall is_byte b →
  (∀ d1 f1, FrameDecoder_decode a d = (d1, Ok f1) → inside_priority d1 = false) →
  out_eq (FrameDecoder_decode (a ++ b) d)
    ((f1 ← FrameDecoder_decode a; f2 ← FrameDecoder_decode b; mret (f1 ++ f2)) d).
Proof.
  revert a d. refine (turn_ind _ _). intros a d IH b Hd Ha Hb Hp.
  rewrite bind_st. rewrite (FrameDecoder_decode_step a) in * by done.
  pose proof (frame_step_app a b d Hd Ha) as H.
  destruct (frame_step a d) as [s [[[remain fs]|]|e|]] eqn:Es.
  - destruct H as (Eab & Hs & Hm & Hr).
    rewrite FrameDecoder_decode_step, Eab, !bind_st by (done || by apply Forall_app).
    rewrite bind_st in Hp. specialize (IH remain s Hm b Hs Hr Hb).
    destruct (FrameDecoder_decode remain s) as [s' [rest|e|]] eqn:Er.
    + specialize (IH ltac:(intros d1 f1 [= <- <-]; by eapply Hp)). rewrite bind_st, Er, bind_st in IH.
      cbn [mret ST_ret] in *. rewrite bind_st. destruct IH as [IH1 IH2].
      destruct (FrameDecoder_decode b s') as [s2 [f2|e|]];
        destruct (FrameDecoder_decode (remain ++ b) s) as [s3 [f3|e3|]];
        cbn [fst snd is_Ok] in *; try done; [|split; [cbn [snd]; congruence|done]..].
      injection IH1 as ->. split; [by rewrite app_assoc|]. intros _. cbn [fst]. by apply IH2.
    + specialize (IH ltac:(done)). rewrite bind_st, Er in IH. destruct IH as [IH1 IH2].
      destruct (FrameDecoder_decode (remain ++ b) s) as [s3 [f3|e3|]]; cbn [fst snd is_Ok] in *; try done.
    + specialize (IH ltac:(done)). rewrite bind_st, Er in IH. destruct IH as [IH1 IH2].
      destruct (FrameDecoder_decode (remain ++ b) s) as [s3 [f3|e3|]]; cbn [fst snd is_Ok] in *; try done.
  - destruct H as (-> & Hs). specialize (Hp _ _ eq_refl). rewrite (decode_extend a b d) by done.
    rewrite bind_st. cbn [mret ST_ret app].
    by destruct (FrameDecoder_decode b _) as [s2 [f2|e|]].
  - rewrite FrameDecoder_decode_step by (done || by apply Forall_app).
    destruct (frame_step (a ++ b) d) as [s2 [?|e2|]]; cbn [snd] in H; try done. by simplify_eq.
  - rewrite FrameDecoder_decode_step by (done || by apply Forall_app).
    destruct (frame_step (a ++ b) d) as [s2 [?|e2|]]; cbn [snd] in H; try done.
Qed.

(** C7: the frame decoder can be fed in segments of any size: cutting the input
    anywhere but inside a PRIORITY payload gives the same frames and the same
    error, and, when there is none, leaves the same decoder. *)
Theorem frame_decode_segments (a b : bytes) (d : FrameDecoder)
    (Hd : frame_inv d) (Ha : Forall is_byte a) (Hb : Forall is_byte b)
    (Hp : ∀ d1 f1, FrameDecoder_decode a d = (d1, Ok f1) → inside_priority d1 = false) :
  out_eq (FrameDecoder_decode (a ++ b) d)
    ((f1 ← FrameDecoder_decode a; f2 ← FrameDecoder_decode b; mret (f1 ++ f2)) d).
Proof. by apply decode_segments_ind. Qed.

Lemma frame_decode_segments_witness :
  out_eq (FrameDecoder_decode ([0; 0; 4; 8] ++ [0; 0; 0; 0; 1; 0; 0; 0; 9]) FrameDecoder_new)
    ((f1 ← FrameDecoder_decode [0; 0; 4; 8]; f2 ← FrameDecoder_decode [0; 0; 0; 0; 1; 0; 0; 0; 9];
      mret (f1 ++ f2)) FrameDecoder_new) ∧
  (FrameDecoder_decode ([0; 0; 4; 8] ++ [0; 0; 0; 0; 1; 0; 0; 0; 9]) FrameDecoder_new).2 =
    Ok [Complete (mkFrame 1 0 (PWindowUpdate 9))].
Proof.
  split; [|vm_compute; reflexivity].
  refine (frame_decode_segments [0; 0; 4; 8] [0; 0; 0; 0; 1; 0; 0; 0; 9] FrameDecoder_new frame_inv_new _ _ _).
  - apply bytesb_ok. reflexivity.
  - apply bytesb_ok. reflexivity.
  - intros d1 f1 H. vm_compute in H. injection H as <- _. reflexivity.
Defined.

(** ** Frames on the wire *)

(** The layout of RFC 9113 section 4.1: length, type, flags, stream, payload. *)
Definition frame_head (frame_type flags id n : Z) : bytes :=
  be_bytes 3 n ++ [frame_type; flags] ++ be_bytes 4 id.
Definition frame_wire (frame_type flags id : Z) (payload : bytes) : bytes :=
  frame_head frame_type flags id (len payload) ++ payload.

Lemma get_code_value_be x rest : 0 ≤ x < 2 ^ 32 → get_code_value (be_bytes 4 x ++ rest) = x.
Proof.
  intros Hx. rewrite be_bytes_4. unfold get_code_value. cbn [byte_at nth app].
  rewrite be_value4 by apply is_byte_mod.
  symmetry. by apply be_digits.
Qed.

Lemma get_stream_id_be x rest : 0 ≤ x < 2 ^ 31 → get_stream_id (be_bytes 4 x ++ rest) = x.
Proof.
  intros Hx. rewrite be_bytes_4. unfold get_stream_id. cbn [byte_at nth app].
  destruct (be_digits x) as [E1 E2]; [lia|].
  assert (Z.land (Z.shiftr x 24 mod 256) 127 = Z.shiftr x 24 mod 256) as ->.
  { rewrite (land_mask _ 7) by lia. rewrite E2. apply Z.mod_small.
    rewrite Z.shiftr_div_pow2 by lia. split; [apply Z.div_pos; lia|apply Z.div_lt_upper_bound; lia]. }
  rewrite be_value4 by apply is_byte_mod.
  by symmetry.
Qed.

Lemma parse_header_head t flags id n rest :
  0 ≤ n < 2 ^ 24 → 0 ≤ id < 2 ^ 31 →
  parse_header (frame_head t flags id n ++ rest) = mkFrameHeader id flags t n.
Proof.
  intros Hn Hid. unfold parse_header, frame_head. rewrite <- !app_assoc.
  pose proof (get_stream_id_be id rest Hid) as E.
  change (drop 5 (be_bytes 3 n ++ [t; flags] ++ be_bytes 4 id ++ rest)) with (be_bytes 4 id ++ rest).
  rewrite E. cbn [be_bytes app byte_at nth Z.of_nat]. f_equal.
  destruct (be_digits n) as [E1 _]; [lia|].
  rewrite !Z.shiftl_mul_pow2 by lia. rewrite Z.shiftr_0_r.
  assert (Z.shiftr n 24 = 0) as E0.
  { rewrite Z.shiftr_div_pow2 by lia. apply Z.div_small. lia. }
  rewrite E0, Z.mod_0_l in E1 by lia. change (8 * Z.of_nat 2) with 16. change (8 * Z.of_nat 1) with 8. lia.
Qed.

(** Between two frames. *)
Definition idle (d : FrameDecoder) : Prop :=
  fd_stage d = StageHeader ∧ fd_offset d = 0 ∧ fd_buffer d = [].

(** What can be sent as a frame to a decoder. *)
Definition wire_ok (d : FrameDecoder) (t flags id : Z) (payload : bytes) : Prop :=
  is_byte t ∧ is_byte flags ∧ 0 ≤ id < 2 ^ 31 ∧ Forall is_byte payload ∧
  len payload ≤ fd_max_frame_size d < 2 ^ 24.

(** The decoder while it reads the payload of a frame, and after the frame. *)
Definition in_payload (t flags id n : Z) (d : FrameDecoder) : FrameDecoder :=
  set_stage StagePayload (set_header (mkFrameHeader id flags t n) d).
Definition after_frame (d : FrameDecoder) : FrameDecoder :=
  set_stage StageHeader (set_header FrameHeader_new (norm d)).

Lemma idle_inv d : idle d → frame_inv d.
Proof. intros (H1 & H2 & H3). unfold frame_inv. rewrite H1, H2, H3. split_and!; [done|constructor|done]. Qed.

Lemma idle_norm d : idle d → norm d = d.
Proof. intros (H1 & H2 & H3). unfold norm. rewrite <- H2, <- H3. apply set_buffer_same. Qed.

Lemma idle_after d : idle (after_frame d).
Proof. done. Qed.

Lemma frame_head_bytes t flags id n :
  is_byte t → is_byte flags → Forall is_byte (frame_head t flags id n).
Proof. intros. unfold frame_head. rewrite !Forall_app. split_and!; auto with ylong. Qed.

Lemma frame_wire_bytes t flags id payload :
  is_byte t → is_byte flags → Forall is_byte payload → Forall is_byte (frame_wire t flags id payload).
Proof. intros. apply Forall_app. split; [by apply frame_head_bytes|done]. Qed.

Lemma len_frame_head t flags id n : len (frame_head t flags id n) = 9.
Proof. reflexivity. Qed.

Lemma frame_step_payload buf d :
  fd_stage d = StagePayload →
  frame_step buf d =
  match decode_frame_payload buf d with
  | (d', Ok (Some (remain, frame))) => (set_stage StageHeader d', Ok (Some (remain, [frame])))
  | (d', Ok None) => (d', Ok None)
  | (d', Err e) => (d', Err e)
  | (d', Panic) => (d', Panic)
  end.
Proof.
  intros Hst. unfold frame_step. rewrite bind_st. cbn [get_st]. rewrite Hst, bind_st.
  by destruct (decode_frame_payload buf d) as [d' [[[]|]| |]].
Qed.

Lemma frame_step_header t flags id n rest d :
  idle d → 0 ≤ id < 2 ^ 31 → 0 ≤ n ≤ fd_max_frame_size d → fd_max_frame_size d < 2 ^ 24 →
  frame_step (frame_head t flags id n ++ rest) d = (in_payload t flags id n d, Ok (Some (rest, []))).
Proof.
  intros Hi Hid Hn Hmax. pose proof (idle_inv d Hi) as (Hlen & _ & Hst).
  pose proof Hi as (Hs & Ho & Hb). rewrite Hs in Hst. unfold frame_step. rewrite bind_st. cbn [get_st].
  rewrite Hs, bind_st.
  destruct (decode_frame_header_eq (frame_head t flags id n ++ rest) d Hlen Hst) as (d' & ->).
  rewrite Ho, Hb, len_app, len_frame_head. pose proof (len_nonneg rest).
  change (FRAME_HEADER_LENGTH - 0) with (len (frame_head t flags id n)). cbn [app].
  destruct (Z.ltb_spec (9 + len rest) (len (frame_head t flags id n))); [rewrite len_frame_head in *; lia|].
  rewrite dropZ_app_len. change (len (frame_head t flags id n)) with 9.
  rewrite parse_header_take, parse_header_head by lia. cbn [fh_payload_length].
  destruct (Z.ltb_spec (fd_max_frame_size d) n); [lia|].
  rewrite bind_st, idle_norm by done. done.
Qed.

Lemma decode_wire t flags id payload rest d :
  idle d → wire_ok d t flags id payload → Forall is_byte rest →
  FrameDecoder_decode (frame_wire t flags id payload ++ rest) d =
  let d1 := in_payload t flags id (len payload) d in
  if breaks_block d1 then (d1, Err (ConnectionError ProtocolError))
  else match decode_payload_of_type t payload d1 with
       | (d2, Ok frame) => (frames ← FrameDecoder_decode rest; mret (frame :: frames)) (after_frame d2)
       | (d2, Err e) => (d2, Err e)
       | (d2, Panic) => (d2, Panic)
       end.
Proof.
  intros Hi Hw Hr. cbv zeta. set (d1 := in_payload t flags id (len payload) d).
  pose proof Hw as (Ht & Hf & Hid & Hp & Hmax).
  pose proof (len_nonneg payload) as Hnn. pose proof Hi as (_ & Ho & Hb).
  assert (frame_inv d1) as Hd1.
  { unfold frame_inv. cbn. rewrite Ho, Hb. split_and!; [done|constructor|done]. }
  rewrite FrameDecoder_decode_step by
    ((by apply idle_inv) || (apply Forall_app; split; [by apply frame_wire_bytes|done])).
  unfold frame_wire. rewrite <- app_assoc, frame_step_header, bind_st by (done || lia).
  fold d1. rewrite FrameDecoder_decode_step by (done || by apply Forall_app).
  rewrite frame_step_payload by done. rewrite decode_frame_payload_eq by (apply Hd1).
  destruct (breaks_block d1); [done|]. cbn [fd_header set_stage set_header in_payload fh_payload_length fd_offset d1].
  change (fd_header d1) with (mkFrameHeader id flags t (len payload)).
  change (fd_offset d1) with (fd_offset d). rewrite Ho, Z.sub_0_r. cbn [fh_payload_length fh_frame_type].
  rewrite len_app, takeZ_app_len, dropZ_app_len. pose proof (len_nonneg rest).
  destruct (Z.ltb_spec (len payload + len rest) (len payload)); [lia|].
  destruct (decode_payload_of_type t payload d1) as [d2 [frame|e|]]; [|done..].
  fold (after_frame d2). rewrite !bind_st. by destruct (FrameDecoder_decode rest (after_frame d2)) as [? [| |]].
Qed.

(** ** Field blocks *)

(** The first frame and its continuations. *)
Definition field_block_wire (flags id : Z) (first : bytes) (middle : list bytes) (last : bytes) : bytes :=
  frame_wire 1 flags id first ++ (middle ≫= frame_wire 9 0 id) ++ frame_wire 9 END_HEADERS_MASK id last.

(** A block is open on a stream, with these flags. *)
Definition block_open (d : FrameDecoder) (flags id : Z) : Prop :=
  ct_flags (fd_continuations d) = flags ∧ ct_stream_id (fd_continuations d) = id ∧
  ct_is_end_headers (fd_continuations d) = false ∧ ct_promised_stream_id (fd_continuations d) = 0.

Lemma hpack_decode_eq buf d h :
  HpackDecoder_decode buf (fd_hpack d) = (h, Ok ()) → hpack_decode buf d = (set_hpack h d, Ok ()).
Proof. intros H. unfold hpack_decode, zoom. by rewrite H. Qed.

Lemma hpack_finish_eq d h p :
  HpackDecoder_finish (fd_hpack d) = (h, Ok p) → hpack_finish d = (set_hpack h d, Ok p).
Proof. intros H. unfold hpack_finish, zoom. by rewrite H. Qed.

Lemma reject_stream_0_ok d :
  fh_stream_id (fd_header d) ≠ 0 → reject_stream_0 d = (d, Ok ()).
Proof.
  intros H. unfold reject_stream_0, is_connection_frame. rewrite bind_st. cbn [get_header].
  by destruct (Z.eqb_spec (fh_stream_id (fd_header d)) 0).
Qed.

Lemma require_stream_0_ok d :
  fh_stream_id (fd_header d) = 0 → require_stream_0 d = (d, Ok ()).
Proof. intros H. unfold require_stream_0. rewrite bind_st. cbn [get_header]. by rewrite H. Qed.

Lemma join_idle buf d : fd_offset d = 0 → join_buffer buf d = (d, Ok buf).
Proof. intros H. unfold join_buffer. by rewrite H. Qed.

(** A continuation that does not end the block. *)
Lemma continuation_middle flags id f rest d h :
  idle d → block_open d flags id → id ≠ 0 → wire_ok d 9 0 id f → Forall is_byte rest →
  HpackDecoder_decode f (fd_hpack d) = (h, Ok ()) →
  FrameDecoder_decode (frame_wire 9 0 id f ++ rest) d =
    (frames ← FrameDecoder_decode rest; mret (Partial :: frames))
      (after_frame (set_hpack h (in_payload 9 0 id (len f) d))).
Proof.
  intros Hi (Hf & Hid & Hend & Hpr) Hne Hw Hr Hh. rewrite decode_wire by done. cbv zeta.
  unfold breaks_block. cbn [fd_continuations fd_header in_payload set_stage set_header fh_stream_id fh_frame_type].
  rewrite Hid, Hend, Z.eqb_refl. cbn [negb andb orb Z.eqb Pos.eqb decode_payload_of_type].
  unfold decode_continuation_payload. rewrite bind_st, reject_stream_0_ok by done.
  rewrite bind_st, join_idle by apply Hi. unfold continuation_payload. rewrite bind_st.
  cbn [get_header fd_header in_payload set_stage set_header fh_flags].
  change (is_end_headers 0) with false. cbv iota.
  by rewrite bind_st, (hpack_decode_eq _ _ h).
Qed.

(** The one that ends it. *)
Lemma continuation_last flags id f rest d h h' parts :
  idle d → block_open d flags id → id ≠ 0 → wire_ok d 9 END_HEADERS_MASK id f → Forall is_byte rest →
  HpackDecoder_decode f (fd_hpack d) = (h, Ok ()) → HpackDecoder_finish h = (h', Ok parts) →
  FrameDecoder_decode (frame_wire 9 END_HEADERS_MASK id f ++ rest) d =
    (frames ← FrameDecoder_decode rest; mret (Complete (mkFrame id flags (PHeaders parts)) :: frames))
      (after_frame (set_continuations Continuations_new
        (set_hpack h' (set_hpack h (in_payload 9 END_HEADERS_MASK id (len f) d))))).
Proof.
  intros Hi (Hf & Hid & Hend & Hpr) Hne Hw Hr Hh Hfin. rewrite decode_wire by done. cbv zeta.
  unfold breaks_block. cbn [fd_continuations fd_header in_payload set_stage set_header fh_stream_id fh_frame_type].
  rewrite Hid, Hend, Z.eqb_refl. cbn [negb andb orb Z.eqb Pos.eqb decode_payload_of_type].
  unfold decode_continuation_payload. rewrite bind_st, reject_stream_0_ok by done.
  rewrite bind_st, join_idle by apply Hi. unfold continuation_payload. rewrite bind_st.
  cbn [get_header fd_header in_payload set_stage set_header fh_flags].
  change (is_end_headers END_HEADERS_MASK) with true. cbv iota.
  rewrite bind_st, (hpack_decode_eq _ _ h) by done. rewrite bind_st, (hpack_finish_eq _ h' parts) by done.
  rewrite bind_st. cbn [get_continuations fd_continuations set_hpack set_stage set_header in_payload].
  by rewrite Hpr, Hf, Hid.
Qed.

(** The first frame of a block that is continued. *)
Lemma headers_first flags id f rest d h :
  idle d → fd_continuations d = Continuations_new → id ≠ 0 → wire_ok d 1 flags id f →
  Forall is_byte rest → is_end_headers flags = false → is_padded flags = false →
  is_headers_priority flags = false → HpackDecoder_decode f (fd_hpack d) = (h, Ok ()) →
  ∃ d', FrameDecoder_decode (frame_wire 1 flags id f ++ rest) d =
    (frames ← FrameDecoder_decode rest; mret (Partial :: frames)) d' ∧
    idle d' ∧ block_open d' flags id ∧ fd_hpack d' = h ∧ fd_max_frame_size d' = fd_max_frame_size d.
Proof.
  intros Hi Hc Hne Hw Hr Heh Hpad Hpri Hh. rewrite decode_wire by done. cbv zeta.
  unfold breaks_block. cbn [fd_continuations in_payload set_stage set_header].
  rewrite Hc. cbn [ct_is_end_headers Continuations_new negb andb decode_payload_of_type].
  unfold decode_headers_payload. rewrite bind_st, reject_stream_0_ok by done.
  rewrite bind_st, join_idle by apply Hi. unfold headers_payload. rewrite bind_st.
  cbn [get_header fd_header in_payload set_stage set_header fh_flags].
  unfold fragment_range. cbn [fh_flags fh_payload_length]. rewrite Heh, Hpad, Hpri. cbv iota.
  rewrite !bind_st. cbn [mret ST_ret fst snd]. pose proof (len_nonneg f).
  destruct (Z.ltb_spec (len f) 0); [lia|]. cbn [mret ST_ret]. rewrite bind_st. cbn [get_continuations fd_continuations].
  rewrite bind_st. cbn [put_continuations]. unfold slice. cbn [fst snd].
  destruct (Z.leb_spec 0 (len f)), (Z.leb_spec (len f) (len f)); try lia. cbn [andb].
  rewrite bind_st. cbn [mret ST_ret]. rewrite Z.sub_0_r, dropZ_0, takeZ_all by lia.
  rewrite bind_st, (hpack_decode_eq _ _ h) by done. cbn [mret ST_ret].
  eexists. split; [done|]. cbn. rewrite Hc. done.
Qed.

(** The header decoder, after the frames of the block, back between frames. *)
Definition block_done (d d' : FrameDecoder) (h : HpackDecoder) : Prop :=
  idle d' ∧ fd_continuations d' = Continuations_new ∧ fd_hpack d' = h ∧
  fd_max_frame_size d' = fd_max_frame_size d.

Lemma hpack_decode_split a b h h' :
  HpackDecoder_decode (a ++ b) h = (h', Ok ()) →
  ∃ h1, HpackDecoder_decode a h = (h1, Ok ()) ∧ HpackDecoder_decode b h1 = (h', Ok ()).
Proof.
  rewrite HpackDecoder_decode_app, bind_st.
  destruct (HpackDecoder_decode a h) as [h1 [[]| |]]; [|done..]. eauto.
Qed.

Lemma wire_ok_rest d t flags id l rest :
  Forall (wire_ok d t flags id) l → Forall is_byte rest →
  Forall is_byte ((l ≫= frame_wire t flags id) ++ rest).
Proof.
  intros Hl Hr. induction Hl as [|f l (Ht & Hf & Hid & Hp & _) Hl IH]; [done|]. cbn [mbind list_bind].
  rewrite <- app_assoc. apply Forall_app. split; [by apply frame_wire_bytes|done].
Qed.

Lemma continuations_spec flags id middle last rest d h' h'' parts :
  idle d → block_open d flags id → id ≠ 0 → Forall (wire_ok d 9 0 id) middle →
  wire_ok d 9 END_HEADERS_MASK id last → Forall is_byte rest →
  HpackDecoder_decode (concat middle ++ last) (fd_hpack d) = (h', Ok ()) →
  HpackDecoder_finish h' = (h'', Ok parts) →
  ∃ d', FrameDecoder_decode ((middle ≫= frame_wire 9 0 id) ++ frame_wire 9 END_HEADERS_MASK id last ++ rest) d =
    (frames ← FrameDecoder_decode rest;
     mret (replicate (length middle) Partial ++ Complete (mkFrame id flags (PHeaders parts)) :: frames)) d' ∧
    block_done d d' h''.
Proof.
  intros Hi Ho Hne Hm Hl Hr. revert d Hi Ho Hm Hl. induction middle as [|f middle IH]; intros d Hi Ho Hm Hl Hh Hfin.
  - cbn [concat app mbind list_bind] in *. eexists. split; [by eapply continuation_last|].
    split_and!; done.
  - apply Forall_cons in Hm as [Hf Hm]. cbn [concat] in Hh. rewrite <- app_assoc in Hh.
    apply hpack_decode_split in Hh as (h1 & Hh1 & Hh2). pose proof Hl as (Ht & Hfl & Hid & Hp & _).
    cbn [mbind list_bind]. rewrite <- app_assoc.
    rewrite (continuation_middle flags id f _ d h1); [|done..|apply (wire_ok_rest d); [done|]; apply Forall_app; split; [by apply frame_wire_bytes|done]|done].
    edestruct (IH (after_frame (set_hpack h1 (in_payload 9 0 id (len f) d)))) as (d' & E & Hd'); [done..|].
    exists d'. split; [|done]. rewrite bind_st, E, !bind_st.
    by destruct (FrameDecoder_decode rest d') as [? [| |]].
Qed.

(** a field block sent as HEADERS without END_HEADERS, any number of
    CONTINUATION frames and a last one with END_HEADERS gives one frame, the
    HEADERS of the first stream and flags, whose parts are what the HPACK decoder
    makes of the fragments put together, after a [Partial] for each frame
    before; the decoder is then ready for the next frame. *)
Theorem field_block_spec (d : FrameDecoder) (flags id : Z) (first : bytes) (middle : list bytes)
    (last rest : bytes) (h' h'' : HpackDecoder) (parts : Parts)
    (Hi : idle d) (Hc : fd_continuations d = Continuations_new) (Hne : id ≠ 0)
    (Hflags : is_end_headers flags = false ∧ is_padded flags = false ∧ is_headers_priority flags = false)
    (Hf : wire_ok d 1 flags id first) (Hm : Forall (wire_ok d 9 0 id) middle)
    (Hl : wire_ok d 9 END_HEADERS_MASK id last) (Hr : Forall is_byte rest)
    (Hh : HpackDecoder_decode (first ++ concat middle ++ last) (fd_hpack d) = (h', Ok ()))
    (Hfin : HpackDecoder_finish h' = (h'', Ok parts)) :
  ∃ d', FrameDecoder_decode (field_block_wire flags id first middle last ++ rest) d =
    (frames ← FrameDecoder_decode rest;
     mret (Partial :: replicate (length middle) Partial ++ Complete (mkFrame id flags (PHeaders parts)) :: frames)) d' ∧
    block_done d d' h''.
Proof.
  destruct Hflags as (Heh & Hpad & Hpri). apply hpack_decode_split in Hh as (h1 & Hh1 & Hh2).
  pose proof Hl as (Ht & Hfl & Hid & Hp & _).
  assert (Forall is_byte (frame_wire 9 END_HEADERS_MASK id last ++ rest)) as Hlr
    by (apply Forall_app; split; [by apply frame_wire_bytes|done]).
  unfold field_block_wire. rewrite <- !app_assoc.
  edestruct (headers_first flags id first ((middle ≫= frame_wire 9 0 id) ++ frame_wire 9 END_HEADERS_MASK id last ++ rest) d h1)
    as (d1 & -> & Hi1 & Ho1 & Hh1' & Hmax); [done|done|done|done|by apply (wire_ok_rest d)|done..|].
  assert (∀ t fl f, wire_ok d t fl id f → wire_ok d1 t fl id f) as Hw by (unfold wire_ok; by rewrite Hmax).
  edestruct (continuations_spec flags id middle last rest d1) as (d' & E & Hd');
    [done..|eapply Forall_impl; [exact Hm|auto]|auto|done|by rewrite Hh1'|done|].
  exists d'. split.
  - rewrite bind_st, E, !bind_st. by destruct (FrameDecoder_decode rest d') as [? [| |]].
  - destruct Hd' as (? & ? & ? & ?). split_and!; congruence || done.
Qed.

(** [wire_ok], as a test. *)
Definition wire_okb (d : FrameDecoder) (t flags id : Z) (payload : bytes) : bool :=
  is_byteb t && is_byteb flags && (0 <=? id) && (id <? 2 ^ 31) && forallb is_byteb payload &&
  (len payload <=? fd_max_frame_size d) && (fd_max_frame_size d <? 2 ^ 24).

Lemma wire_okb_ok d t flags id payload : wire_okb d t flags id payload = true → wire_ok d t flags id payload.
Proof.
  unfold wire_okb, wire_ok. rewrite !andb_true_iff. intros ((((((?&?)&?)&?)&?)&?)&?).
  bool_to_prop. split_and!; auto using is_byteb_ok, bytesb_ok.
Qed.

Definition hpack_new : HpackDecoder := fd_hpack FrameDecoder_new.
Definition hpack_two_fields : HpackDecoder := (HpackDecoder_decode [130; 132] hpack_new).1.

Lemma field_block_spec_witness :
  ∃ d', FrameDecoder_decode (field_block_wire 1 1 [130] [[132]] [] ++ []) FrameDecoder_new =
    (frames ← FrameDecoder_decode [];
     mret (Partial :: replicate 1 Partial ++
       Complete (mkFrame 1 1 (PHeaders (hp_parts hpack_two_fields))) :: frames)) d' ∧
    block_done FrameDecoder_new d' (HpackDecoder_finish hpack_two_fields).1.
Proof.
  refine (field_block_spec FrameDecoder_new 1 1 [130] [[132]] [] [] hpack_two_fields
    (HpackDecoder_finish hpack_two_fields).1 (hp_parts hpack_two_fields) _ eq_refl _ _ _ _ _ _ _ _).
  - repeat split.
  - discriminate.
  - repeat split.
  - apply wire_okb_ok. vm_compute. reflexivity.
  - constructor; [|constructor]. apply wire_okb_ok. vm_compute. reflexivity.
  - apply wire_okb_ok. vm_compute. reflexivity.
  - constructor.
  - vm_compute. reflexivity.
  - vm_compute. reflexivity.
Defined.

(** while a field block is open, a frame of another type or of another
    stream, or a CONTINUATION of stream 0, is refused with a connection error,
    whatever its payload. *)
Theorem open_block_refuses (d : FrameDecoder) (flags id t fl id' : Z) (payload rest : bytes)
    (Hi : idle d) (Ho : block_open d flags id) (Hw : wire_ok d t fl id' payload)
    (Hr : Forall is_byte rest) (Hne : t ≠ 9 ∨ id' ≠ id) :
  (FrameDecoder_decode (frame_wire t fl id' payload ++ rest) d).2 = Err (ConnectionError ProtocolError).
Proof.
  rewrite decode_wire by done. cbv zeta. destruct Ho as (_ & Hid & Hend & _).
  unfold breaks_block. cbn [fd_continuations fd_header in_payload set_stage set_header fh_stream_id fh_frame_type].
  rewrite Hid, Hend. destruct (Z.eqb_spec id' id), (Z.eqb_spec t 9); try done. by destruct Hne.
Qed.

(** A decoder that has read HEADERS of stream 1 without END_HEADERS. *)
Definition open_decoder : FrameDecoder := (FrameDecoder_decode (frame_wire 1 0 1 [130]) FrameDecoder_new).1.

Lemma open_block_refuses_witness :
  block_open open_decoder 0 1 ∧
  (FrameDecoder_decode (frame_wire 0 0 1 [1; 2] ++ []) open_decoder).2 = Err (ConnectionError ProtocolError).
Proof.
  assert (block_open open_decoder 0 1) as Ho by (vm_compute; repeat split).
  split; [exact Ho|].
  refine (open_block_refuses open_decoder 0 1 0 0 1 [1; 2] [] _ Ho _ _ _).
  - vm_compute. repeat split.
  - apply wire_okb_ok. vm_compute. reflexivity.
  - constructor.
  - left. discriminate.
Defined.

(** ** PRIORITY in two segments *)

Lemma priority_payload_ok p d :
  len p = 5 →
  priority_payload p d = (d, Ok (complete (fd_header d)
    (PPriority (Z.land (byte_at p 0) 0x80 =? 0x80) (get_stream_id p) (byte_at p 4)))).
Proof.
  intros Hp. unfold priority_payload. rewrite bind_st. cbn [get_header].
  do 5 (destruct p as [|? p]; [vm_compute in Hp; lia|]).
  destruct p; [reflexivity|]. rewrite !len_cons in Hp. pose proof (len_nonneg p). lia.
Qed.

(** a PRIORITY frame whose payload comes in two segments is refused with a
    stream error FRAME_SIZE_ERROR, though the same bytes in one segment are a
    frame: its length is checked before the segments are joined. *)
Theorem priority_in_segments (d : FrameDecoder) (flags id : Z) (a b : bytes)
    (Hi : idle d) (Hc : fd_continuations d = Continuations_new) (Hne : id ≠ 0)
    (Hw : wire_ok d 2 flags id (a ++ b)) (Hlen : len a + len b = 5) (Ha : 0 < len a) (Hb : 0 < len b) :
  (∃ frame, (FrameDecoder_decode (frame_head 2 flags id 5 ++ a ++ b) d).2 = Ok [frame]) ∧
  ((_ ← FrameDecoder_decode (frame_head 2 flags id 5 ++ a); FrameDecoder_decode b) d).2
    = Err (StreamError id FrameSizeError).
Proof.
  pose proof Hw as (_ & Hfl & Hid & Hp & Hmax). apply Forall_app in Hp as [Hpa Hpb].
  assert (len (a ++ b) = 5) as Hab by (rewrite len_app; lia). rewrite Hab in Hmax.
  assert (breaks_block (in_payload 2 flags id 5 d) = false) as Hbb by (unfold breaks_block; cbn; by rewrite Hc).
  pose proof Hi as (_ & Ho & Hbuf).
  split.
  - rewrite <- Hab. change (frame_head 2 flags id (len (a ++ b)) ++ a ++ b) with (frame_wire 2 flags id (a ++ b)).
    rewrite <- (app_nil_r (frame_wire _ _ _ _)), decode_wire by done. cbv zeta. rewrite Hab, Hbb.
    cbn [decode_payload_of_type]. unfold decode_priority_payload.
    rewrite bind_st, reject_stream_0_ok, bind_st by done.
    cbn [get_header fd_header in_payload set_stage set_header fh_payload_length]. rewrite Hab. cbn [negb orb Z.eqb Pos.eqb].
    rewrite bind_st, join_idle, priority_payload_ok by (done || apply Hi). eexists. reflexivity.
  - set (d1 := in_payload 2 flags id 5 d) in *. rewrite bind_st.
    assert (FrameDecoder_decode (frame_head 2 flags id 5 ++ a) d = (extend_buffer a d1, Ok [])) as ->.
    { rewrite FrameDecoder_decode_step by
        ((by apply idle_inv) || (apply Forall_app; split; [by apply frame_head_bytes|done])).
      rewrite frame_step_header, bind_st by (done || lia). fold d1.
      rewrite FrameDecoder_decode_step by (done || (unfold frame_inv; cbn; rewrite Ho, Hbuf; split_and!; done)).
      rewrite frame_step_payload, decode_frame_payload_eq by (done || (cbn; rewrite Ho, ?Hbuf; done)).
      rewrite Hbb. change (fh_payload_length (fd_header d1)) with 5. change (fd_offset d1) with (fd_offset d).
      rewrite Ho. destruct (Z.ltb_spec (len a) (5 - 0)); [done|lia]. }
    assert (frame_inv (extend_buffer a d1)) as Hinv.
    { unfold frame_inv, extend_buffer. cbn. rewrite Ho, Hbuf. split_and!; [done|done|lia]. }
    rewrite FrameDecoder_decode_step, frame_step_payload, decode_frame_payload_eq by (done || apply Hinv).
    change (breaks_block (extend_buffer a d1)) with (breaks_block d1). rewrite Hbb.
    change (fh_payload_length (fd_header (extend_buffer a d1))) with 5.
    change (fd_offset (extend_buffer a d1)) with (fd_offset d + len a). rewrite Ho.
    destruct (Z.ltb_spec (len b) (5 - (0 + len a))); [lia|]. rewrite takeZ_all by lia.
    change (fh_frame_type (fd_header (extend_buffer a d1))) with 2. cbn [decode_payload_of_type].
    unfold decode_priority_payload. rewrite bind_st, reject_stream_0_ok, bind_st by done.
    cbn [get_header]. destruct (Z.eqb_spec (len b) 5); [lia|]. by rewrite orb_true_r.
Qed.

Lemma priority_in_segments_witness :
  ((_ ← FrameDecoder_decode (frame_head 2 0 1 5 ++ [0; 0]); FrameDecoder_decode [0; 3; 15]) FrameDecoder_new).2
    = Err (StreamError 1 FrameSizeError).
Proof.
  refine (proj2 (priority_in_segments FrameDecoder_new 0 1 [0; 0] [0; 3; 15] _ eq_refl _ _ _ _ _));
    try (apply wire_okb_ok); vm_compute; try reflexivity; try discriminate. repeat split.
Defined.

(** ** Settings *)

(** The settings that RFC 9113 section 6.5.2 allows. *)
Definition setting_ok (s : Setting) : Prop :=
  match s with
  | InitialWindowSize n => n ≤ MAX_INITIAL_WINDOW_SIZE
  | MaxFrameSize n => DEFAULT_MAX_FRAME_SIZE ≤ n ≤ MAX_ALLOWED_MAX_FRAME_SIZE
  | _ => True
  end.

(** The value of a setting on the wire. *)
Definition setting_value (s : Setting) : Z :=
  match s with
  | HeaderTableSize n | MaxConcurrentStreams n | InitialWindowSize n | MaxFrameSize n
  | MaxHeaderListSize n => n
  | EnablePush b => if b then 1 else 0
  end.

Lemma get_setting_cases id value :
  match get_setting id value with
  | Ok (Some s) => setting_identifier s = id ∧ setting_value s = value ∧ setting_ok s
  | Ok None => ¬ 1 ≤ id ≤ 6
  | Err e => (id = 2 ∧ value ≠ 0 ∧ value ≠ 1 ∧ e = ConnectionError ProtocolError) ∨
      (id = 4 ∧ MAX_INITIAL_WINDOW_SIZE < value ∧ e = ConnectionError FlowControlError) ∨
      (id = 5 ∧ ¬ DEFAULT_MAX_FRAME_SIZE ≤ value ≤ MAX_ALLOWED_MAX_FRAME_SIZE ∧
       e = ConnectionError ProtocolError)
  | Panic => False
  end.
Proof.
  assert (¬ 1 ≤ id ≤ 6 → get_setting id value = Ok None) as Hout.
  { intros H. destruct id as [|p|p]; try done. do 3 (try destruct p as [p|p|]); try done; lia. }
  destruct (decide (1 ≤ id ≤ 6)) as [Hid|Hid]; [|by rewrite Hout].
  assert (id = 1 ∨ id = 2 ∨ id = 3 ∨ id = 4 ∨ id = 5 ∨ id = 6) as Hc by lia.
  destruct Hc as [->|[->|[->|[->|[->| ->]]]]]; cbn [get_setting]; try done.
  - destruct value as [|[p|p|]|p]; try done; left; (split_and!; done).
  - destruct (Z.ltb_spec MAX_INITIAL_WINDOW_SIZE value); [naive_solver|done].
  - unfold allowed_max_frame_size.
    destruct (Z.leb_spec DEFAULT_MAX_FRAME_SIZE value), (Z.leb_spec value MAX_ALLOWED_MAX_FRAME_SIZE);
      cbn [andb]; try (split_and!; done); right; right; (split_and!; [done|lia|done]).
Qed.

(** a setting is read with its identifier and value and within the limits
    of RFC 9113; an identifier that is not known is skipped; ENABLE_PUSH other
    than 0 and 1, a window size above 2^31-1 and a frame size outside 2^14 to
    2^24-1 are the connection errors PROTOCOL_ERROR, FLOW_CONTROL_ERROR and
    PROTOCOL_ERROR, and nothing else is an error. *)
Theorem get_setting_spec (id value : Z) :
  match get_setting id value with
  | Ok (Some s) => setting_identifier s = id ∧ setting_value s = value ∧ setting_ok s
  | Ok None => ¬ 1 ≤ id ≤ 6
  | Err e => (id = 2 ∧ value ≠ 0 ∧ value ≠ 1 ∧ e = ConnectionError ProtocolError) ∨
      (id = 4 ∧ MAX_INITIAL_WINDOW_SIZE < value ∧ e = ConnectionError FlowControlError) ∨
      (id = 5 ∧ ¬ DEFAULT_MAX_FRAME_SIZE ≤ value ≤ MAX_ALLOWED_MAX_FRAME_SIZE ∧
       e = ConnectionError ProtocolError)
  | Panic => False
  end.
Proof. apply get_setting_cases. Qed.

Lemma settings_of_chunks_no_panic n fuel buf :
  length buf = (6 * n)%nat → (n ≤ fuel)%nat → settings_of_chunks fuel buf ≠ Panic.
Proof.
  revert fuel buf. induction n as [|n IH]; intros fuel buf Hlen Hf.
  - destruct buf; [by destruct fuel|done].
  - destruct fuel as [|fuel]; [lia|]. destruct buf as [|x buf]; [done|]. cbn [settings_of_chunks].
    destruct (Z.ltb_spec (len (x :: buf)) 6); [unfold len in *; lia|].
    unfold mbind, result_mbind, result_bind. unfold split_token_to_setting.
    pose proof (get_setting_cases (Z.lor (byte_at (take 6 (x :: buf)) 0 ≪ 8) (byte_at (take 6 (x :: buf)) 1))
      (get_code_value (drop 2 (take 6 (x :: buf))))) as Hg.
    destruct (get_setting _ _) as [o|e|]; [|done..].
    specialize (IH fuel (drop 6 (x :: buf)) ltac:(rewrite length_drop; lia) ltac:(lia)).
    by destruct (settings_of_chunks fuel _).
Qed.

(** ** Panics *)

(** A payload decoder panics only in these two cases. *)
Definition panics (t : Z) (h : FrameHeader) (p : HpackDecoder) : Prop :=
  ((t = 1 ∨ t = 5) ∧ is_padded (fh_flags h) = true ∧ fh_payload_length h = 0) ∨
  ((t = 1 ∨ t = 5 ∨ t = 9) ∧ ∃ fragment, (HpackDecoder_decode fragment p).2 = Panic).

Lemma hpack_decode_panic buf d : (hpack_decode buf d).2 = Panic → (HpackDecoder_decode buf (fd_hpack d)).2 = Panic.
Proof. unfold hpack_decode, zoom. by destruct (HpackDecoder_decode buf (fd_hpack d)). Qed.

Lemma hpack_finish_no_panic d : (hpack_finish d).2 ≠ Panic.
Proof.
  unfold hpack_finish, zoom, HpackDecoder_finish. rewrite bind_st. cbn [get_st].
  by destruct (hp_holder (fd_hpack d)).
Qed.

Lemma slice_st buf a b d : 0 ≤ a ≤ b → b ≤ len buf → slice buf a b d = (d, Ok (takeZ (b - a) (dropZ a buf))).
Proof.
  intros Ha Hb. unfold slice. destruct (Z.leb_spec a b), (Z.leb_spec b (len buf)); try lia. done.
Qed.

Lemma index_byte_st buf i d : 0 ≤ i < len buf → index_byte buf i d = (d, Ok (byte_at buf (Z.to_nat i))).
Proof.
  intros Hi. unfold index_byte, byte_at. rewrite (nth_lookup buf (Z.to_nat i) 0).
  destruct (lookup_lt_is_Some_2 buf (Z.to_nat i)) as [x ->]; [unfold len in Hi; lia|done].
Qed.

Lemma byte_at_nonneg buf i : Forall is_byte buf → 0 ≤ byte_at buf i.
Proof.
  intros Hb. unfold byte_at. destruct (nth_in_or_default i buf 0) as [Hin| ->]; [|done].
  rewrite Forall_forall in Hb. apply list_elem_of_In, Hb in Hin. by destruct Hin.
Qed.

(** A joined payload is as long as the header says. *)
Definition joined_payload (buf : bytes) (d : FrameDecoder) : Prop :=
  fh_payload_length (fd_header d) = len buf ∧ Forall is_byte buf.

Lemma fragment_range_cases h skip buf d :
  fh_payload_length h = len buf → Forall is_byte buf → 0 ≤ skip →
  is_padded (fh_flags h) = false ∨ len buf ≠ 0 →
  fragment_range h skip buf d = (d, Err (ConnectionError ProtocolError)) ∨
  ∃ b, fragment_range h skip buf d =
    (d, Ok (if is_padded (fh_flags h) then skip + 1 else skip, b)) ∧
    (if is_padded (fh_flags h) then skip + 1 else skip) ≤ b ≤ len buf.
Proof.
  intros Hl Hb Hs Hp. unfold fragment_range. rewrite bind_st. pose proof (len_nonneg buf).
  destruct (is_padded (fh_flags h)).
  - rewrite bind_st, index_byte_st by (destruct Hp; [done|lia]).
    pose proof (byte_at_nonneg buf (Z.to_nat 0) Hb). rewrite Hl.
    destruct (_ <=? _); [by left|]. cbn [mret ST_ret fst snd].
    destruct (Z.ltb_spec (len buf - byte_at buf (Z.to_nat 0)) (skip + 1)); [by left|right].
    eexists. split; [done|lia].
  - cbn [mret ST_ret fst snd]. rewrite Hl. destruct (Z.ltb_spec (len buf) skip); [by left|right].
    eexists. split; [done|lia].
Qed.

Lemma headers_payload_panic buf d :
  joined_payload buf d → (headers_payload buf d).2 = Panic → panics 1 (fd_header d) (fd_hpack d).
Proof.
  intros [Hl Hb]. destruct (decide (is_padded (fh_flags (fd_header d)) = true ∧ len buf = 0)) as [[H1 H2]|Hn].
  { intros _. left. split_and!; [by left|done|congruence]. }
  unfold headers_payload. rewrite bind_st. cbn [get_header]. rewrite bind_st.
  assert (0 ≤ (if is_headers_priority (fh_flags (fd_header d)) then 5 else 0)) as Hs by (by destruct (is_headers_priority _)).
  destruct (fragment_range_cases (fd_header d) _ buf d Hl Hb Hs) as [->|(b & -> & Hr)];
    [destruct (is_padded _); [right; naive_solver|by left]|done|].
  cbn [fst snd]. set (a := if is_padded _ then _ else _) in *.
  assert (0 ≤ a) by (subst a; destruct (is_padded _); lia).
  destruct (is_end_headers _).
  - rewrite bind_st, slice_st, bind_st by lia.
    destruct (hpack_decode _ d) as [d' [[]|e|]] eqn:Eh; [|done|].
    + rewrite bind_st. pose proof (hpack_finish_no_panic d'). by destruct (hpack_finish d') as [? [| |]].
    + intros _. right. split; [by left|]. eexists. apply hpack_decode_panic. by rewrite Eh.
  - rewrite bind_st. cbn [get_continuations]. rewrite bind_st. cbn [put_continuations].
    rewrite bind_st, slice_st, bind_st by lia.
    destruct (hpack_decode _ _) as [d' [[]|e|]] eqn:Eh; [done..|].
    intros _. right. split; [by left|]. eexists. apply (f_equal snd), hpack_decode_panic in Eh. exact Eh.
Qed.

Lemma push_promise_framing_no_panic e i d : (push_promise_framing e i d).2 ≠ Panic.
Proof.
  unfold push_promise_framing. rewrite bind_st. cbn [get_header]. destruct e; [|done].
  rewrite bind_st. pose proof (hpack_finish_no_panic d). by destruct (hpack_finish d) as [? [| |]].
Qed.

Lemma push_promise_payload_panic buf d :
  joined_payload buf d → (push_promise_payload buf d).2 = Panic → panics 5 (fd_header d) (fd_hpack d).
Proof.
  intros [Hl Hb]. destruct (decide (is_padded (fh_flags (fd_header d)) = true ∧ len buf = 0)) as [[H1 H2]|Hn].
  { intros _. left. split_and!; [by right|done|congruence]. }
  unfold push_promise_payload. rewrite bind_st. cbn [get_header]. rewrite bind_st.
  destruct (fragment_range_cases (fd_header d) 4 buf d Hl Hb) as [->|(b & -> & Hr)];
    [done|destruct (is_padded _); [right; naive_solver|by left]|done|].
  rewrite bind_st. destruct (hpack_decode buf d) as [d' [[]|e|]] eqn:Eh; [|done|].
  - rewrite bind_st. destruct (is_padded (fh_flags (fd_header d)));
      rewrite slice_st by lia; cbv zeta; (destruct (is_connection_frame _); [done|]);
      intros H; by apply push_promise_framing_no_panic in H.
  - intros _. right. split; [by right; left|]. eexists. apply hpack_decode_panic. by rewrite Eh.
Qed.

Lemma continuation_payload_panic buf d :
  (continuation_payload buf d).2 = Panic → panics 9 (fd_header d) (fd_hpack d).
Proof.
  unfold continuation_payload. rewrite bind_st. cbn [get_header]. intros H. right.
  split; [by right; right|]. exists buf. apply hpack_decode_panic.
  destruct (is_end_headers _); rewrite bind_st in H;
    destruct (hpack_decode buf d) as [d' [[]|e|]] eqn:Eh; try done.
  rewrite bind_st in H. pose proof (hpack_finish_no_panic d'). by destruct (hpack_finish d') as [? [| |]].
Qed.

(** The other payloads do not panic. *)
Lemma data_payload_no_panic buf d : joined_payload buf d → (data_payload buf d).2 ≠ Panic.
Proof.
  intros [Hl Hb]. unfold data_payload. rewrite bind_st. cbn [get_header]. rewrite Hl.
  pose proof (len_nonneg buf). destruct (Z.eqb_spec (len buf) 0); [done|].
  destruct (is_padded _).
  - rewrite bind_st, index_byte_st by lia. pose proof (byte_at_nonneg buf (Z.to_nat 0) Hb).
    destruct (Z.leb_spec (len buf) (byte_at buf (Z.to_nat 0))); [done|].
    by rewrite bind_st, slice_st by lia.
  - by rewrite bind_st, slice_st by lia.
Qed.

Lemma settings_payload_no_panic buf d : joined_payload buf d → (settings_payload buf d).2 ≠ Panic.
Proof.
  intros [Hl Hb]. unfold settings_payload. rewrite bind_st. cbn [get_header]. rewrite Hl.
  destruct (Z.eqb_spec (len buf mod 6) 0) as [E|E]; [|done]. cbn [negb].
  destruct (is_ack _); [by destruct (_ || _)|]. rewrite bind_st. unfold lift_res.
  pose proof (settings_of_chunks_no_panic (Z.to_nat (len buf / 6)) (length buf) buf) as H.
  pose proof (Z.div_mod (len buf) 6). pose proof (len_nonneg buf).
  pose proof (Z.div_pos (len buf) 6). unfold len in *.
  specialize (H ltac:(lia) ltac:(lia)). by destruct (settings_of_chunks _ buf).
Qed.

Lemma fixed_payloads_no_panic buf d :
  (ping_payload buf d).2 ≠ Panic ∧ (goaway_payload buf d).2 ≠ Panic ∧
  (window_update_payload buf d).2 ≠ Panic ∧ (reset_payload buf d).2 ≠ Panic.
Proof.
  unfold ping_payload, goaway_payload, window_update_payload, reset_payload.
  rewrite !bind_st. cbn [get_header]. pose proof (len_nonneg buf). split_and!.
  - by destruct (_ || _).
  - destruct (_ || _) eqn:E; [done|]. apply orb_false_iff in E as [E1 E2]. bool_to_prop.
    rewrite bind_st, slice_st, bind_st, slice_st, bind_st, slice_st by lia. done.
  - destruct (_ || _); [done|]. cbv zeta. by destruct (_ =? 0).
  - destruct (_ || _) eqn:E; [done|]. apply orb_false_iff in E as [E1 E2]. bool_to_prop.
    by rewrite bind_st, slice_st by lia.
Qed.

Lemma join_panic (Q : FrameHeader → HpackDecoder → Prop) body buf d :
  len (fd_buffer d) = fd_offset d → Forall is_byte (fd_buffer d) → Forall is_byte buf →
  fh_payload_length (fd_header d) = fd_offset d + len buf →
  (∀ b d, joined_payload b d → (body b d).2 = Panic → Q (fd_header d) (fd_hpack d)) →
  ((b ← join_buffer buf; body b) d : FrameDecoder * result H2Error FrameKind).2 = Panic →
  Q (fd_header d) (fd_hpack d).
Proof.
  intros Hlen Hbuf Hb Hl Hbody. rewrite bind_st.
  destruct (join_buffer_eq buf d Hlen) as (b & o & Ho & ->). intros H.
  apply Hbody in H; [done|]. split; [|by apply Forall_app]. cbn. rewrite len_app. lia.
Qed.

Lemma reject_cases d :
  reject_stream_0 d = (d, Ok ()) ∨ reject_stream_0 d = (d, Err (ConnectionError ProtocolError)).
Proof.
  unfold reject_stream_0. rewrite bind_st. cbn [get_header]. destruct (is_connection_frame _); auto.
Qed.

Lemma require_cases d :
  require_stream_0 d = (d, Ok ()) ∨ require_stream_0 d = (d, Err (ConnectionError ProtocolError)).
Proof.
  unfold require_stream_0. rewrite bind_st. cbn [get_header].
  destruct (negb (is_connection_frame _)); auto.
Qed.

Lemma priority_panic buf d :
  len (fd_buffer d) = fd_offset d → fh_payload_length (fd_header d) = fd_offset d + len buf →
  (decode_priority_payload buf d).2 ≠ Panic.
Proof.
  intros Hlen Hl. unfold decode_priority_payload. rewrite bind_st.
  destruct (reject_cases d) as [-> | ->]; [|done]. rewrite bind_st. cbn [get_header].
  destruct (_ || _) eqn:E; [done|]. apply orb_false_iff in E as [E1 E2]. bool_to_prop.
  rewrite bind_st, join_idle by lia. by rewrite priority_payload_ok.
Qed.

Lemma payload_panics t buf d :
  len (fd_buffer d) = fd_offset d → Forall is_byte (fd_buffer d) → Forall is_byte buf →
  fh_payload_length (fd_header d) = fd_offset d + len buf →
  (decode_payload_of_type t buf d).2 = Panic → panics t (fd_header d) (fd_hpack d).
Proof.
  intros Hlen Hbuf Hb Hl.
  assert (∀ (body : bytes → FD FrameKind) u, (∀ b d, joined_payload b d → (body b d).2 = Panic → panics u (fd_header d) (fd_hpack d)) →
    ((_ ← reject_stream_0; b ← join_buffer buf; body b) d).2 = Panic → panics u (fd_header d) (fd_hpack d)) as Hrej.
  { intros body u Hbody. rewrite bind_st. destruct (reject_cases d) as [-> | ->]; [|done]. by apply join_panic. }
  assert (∀ (body : bytes → FD FrameKind), (∀ b d, joined_payload b d → (body b d).2 ≠ Panic) →
    ((_ ← reject_stream_0; b ← join_buffer buf; body b) d).2 ≠ Panic) as Hrej'.
  { intros body Hbody. rewrite bind_st. destruct (reject_cases d) as [-> | ->]; [|done].
    intros H. by eapply (join_panic (λ _ _, False)) in H. }
  assert (∀ (body : bytes → FD FrameKind), (∀ b d, joined_payload b d → (body b d).2 ≠ Panic) →
    ((_ ← require_stream_0; b ← join_buffer buf; body b) d).2 ≠ Panic) as Hreq.
  { intros body Hbody. rewrite bind_st. destruct (require_cases d) as [-> | ->]; [|done].
    intros H. by eapply (join_panic (λ _ _, False)) in H. }
  unfold decode_payload_of_type. destruct t as [|p|p]; [|do 4 (try destruct p as [p|p|]); try done|done].
  - intros H. exfalso. revert H. apply (Hrej' data_payload), data_payload_no_panic.
  - intros H. exfalso. revert H. apply (Hreq goaway_payload). intros. apply fixed_payloads_no_panic.
  - apply (Hrej continuation_payload 9). intros b s _. apply continuation_payload_panic.
  - apply (Hrej push_promise_payload 5), push_promise_payload_panic.
  - intros H. exfalso. revert H. apply (Hrej' reset_payload). intros. apply fixed_payloads_no_panic.
  - intros H. exfalso. revert H. apply (Hreq ping_payload). intros. apply fixed_payloads_no_panic.
  - intros H. exfalso. eapply (join_panic (λ _ _, False)) in H; [done..|].
    intros b s _ H'. by apply fixed_payloads_no_panic in H'.
  - intros H. exfalso. revert H. apply (Hreq settings_payload), settings_payload_no_panic.
  - intros H. exfalso. revert H. by apply priority_panic.
  - apply (Hrej headers_payload 1), headers_payload_panic.
Qed.

(** The states of the loop, with the bytes that it has still to read. *)
Inductive turns : bytes → FrameDecoder → bytes → FrameDecoder → Prop :=
  | turns_refl buf d : turns buf d buf d
  | turns_step buf d d' remain frames buf'' d'' :
      frame_step buf d = (d', Ok (Some (remain, frames))) →
      turns remain d' buf'' d'' → turns buf d buf'' d''.

Lemma frame_step_panic buf d :
  frame_inv d → Forall is_byte buf → (frame_step buf d).2 = Panic →
  fd_stage d = StagePayload ∧ panics (fh_frame_type (fd_header d)) (fd_header d) (fd_hpack d).
Proof.
  intros (Hlen & Hbuf & Hst) Hb. destruct (fd_stage d) eqn:Es.
  - unfold frame_step. rewrite bind_st. cbn [get_st]. rewrite Es, bind_st.
    destruct (decode_frame_header_eq buf d Hlen Hst) as (d' & ->).
    destruct (_ <? _); [done|]. by destruct (_ <? _).
  - rewrite frame_step_payload, decode_frame_payload_eq by done.
    destruct (breaks_block d); [done|]. destruct (Z.ltb_spec (len buf) (fh_payload_length (fd_header d) - fd_offset d)) as [|Hge]; [done|].
    pose proof (payload_panics (fh_frame_type (fd_header d))
      (takeZ (fh_payload_length (fd_header d) - fd_offset d) buf) d Hlen Hbuf) as H.
    rewrite len_takeZ in H by lia. specialize (H ltac:(by apply Forall_takeZ) ltac:(lia)).
    destruct (decode_payload_of_type _ _ d) as [d' [f|e|]]; [done..|]. auto.
Qed.

(** [FrameDecoder::decode] always returns, and panics in two cases only: a
    padded HEADERS or PUSH_PROMISE frame with an empty payload, and a field block
    on which the HPACK decoder panics.  No other bytes make an index, a slice or
    a subtraction of the frame decoder fail. *)
Theorem frame_decode_panics (buf : bytes) (d : FrameDecoder)
    (Hd : frame_inv d) (Hb : Forall is_byte buf)
    (Hp : (FrameDecoder_decode buf d).2 = Panic) :
  ∃ remain d', turns buf d remain d' ∧ fd_stage d' = StagePayload ∧
    panics (fh_frame_type (fd_header d')) (fd_header d') (fd_hpack d').
Proof.
  revert buf d Hd Hb Hp. refine (turn_ind _ _). intros buf d IH Hd Hb Hp.
  rewrite FrameDecoder_decode_step in Hp by done. pose proof (frame_step_panic buf d Hd Hb) as Hs.
  pose proof (frame_step_app buf [] d Hd Hb) as H.
  destruct (frame_step buf d) as [d' [[[remain frames]|]|e|]] eqn:E; try done.
  - destruct H as (_ & Hd' & Hm & Hr). rewrite bind_st in Hp.
    destruct (IH remain d' Hm Hd' Hr) as (r & s & Ht & Hrest).
    { by destruct (FrameDecoder_decode remain d') as [? [| |]]. }
    exists r, s. split; [by eapply turns_step|done].
  - destruct Hs as [H1 H2]; [done|]. exists buf, d. split; [constructor|done].
Qed.

(** a HEADERS frame with PADDED and no payload, on any stream, makes the
    decoder panic: the pad length is read before the length is looked at. *)
Theorem padded_empty_headers_panic (d : FrameDecoder) (flags id : Z)
    (Hi : idle d) (Hc : fd_continuations d = Continuations_new) (Hne : id ≠ 0)
    (Hw : wire_ok d 1 flags id []) (Hpad : is_padded flags = true) :
  (FrameDecoder_decode (frame_wire 1 flags id []) d).2 = Panic.
Proof.
  rewrite <- (app_nil_r (frame_wire _ _ _ _)), decode_wire by done. cbv zeta.
  unfold breaks_block. cbn [fd_continuations in_payload set_stage set_header]. rewrite Hc.
  cbn [ct_is_end_headers Continuations_new negb andb decode_payload_of_type].
  unfold decode_headers_payload. rewrite bind_st, reject_stream_0_ok by done.
  rewrite bind_st, join_idle by apply Hi. unfold headers_payload. rewrite bind_st.
  cbn [get_header fd_header in_payload set_stage set_header fh_flags].
  unfold fragment_range. cbn [fh_flags]. by rewrite Hpad.
Qed.

Lemma padded_empty_headers_panic_witness :
  (FrameDecoder_decode [0; 0; 0; 1; 8; 0; 0; 0; 1] FrameDecoder_new).2 = Panic.
Proof.
  refine (padded_empty_headers_panic FrameDecoder_new 8 1 _ eq_refl _ _ eq_refl);
    [repeat split|discriminate|apply wire_okb_ok; vm_compute; reflexivity].
Defined.

Lemma frame_decode_panics_witness :
  ∃ remain d', turns [0; 0; 0; 1; 8; 0; 0; 0; 1] FrameDecoder_new remain d' ∧ fd_stage d' = StagePayload ∧
    panics (fh_frame_type (fd_header d')) (fd_header d') (fd_hpack d').
Proof.
  refine (frame_decode_panics _ _ frame_inv_new _ _).
  - apply bytesb_ok. vm_compute. reflexivity.
  - vm_compute. reflexivity.
Defined.

(** a CONTINUATION frame that no HEADERS precedes is taken as a field
    block: with END_HEADERS it gives a HEADERS frame of stream 0. *)
Theorem unsolicited_continuation (d : FrameDecoder) (id : Z) (fragment : bytes)
    (h h' : HpackDecoder) (parts : Parts)
    (Hi : idle d) (Hc : fd_continuations d = Continuations_new) (Hne : id ≠ 0)
    (Hw : wire_ok d 9 END_HEADERS_MASK id fragment)
    (Hh : HpackDecoder_decode fragment (fd_hpack d) = (h, Ok ()))
    (Hfin : HpackDecoder_finish h = (h', Ok parts)) :
  (FrameDecoder_decode (frame_wire 9 END_HEADERS_MASK id fragment) d).2 =
    Ok [Complete (mkFrame 0 0 (PHeaders parts))].
Proof.
  rewrite <- (app_nil_r (frame_wire _ _ _ _)), decode_wire by done. cbv zeta.
  unfold breaks_block. cbn [fd_continuations in_payload set_stage set_header]. rewrite Hc.
  cbn [ct_is_end_headers Continuations_new negb andb decode_payload_of_type].
  unfold decode_continuation_payload. rewrite bind_st, reject_stream_0_ok by done.
  rewrite bind_st, join_idle by apply Hi. unfold continuation_payload. rewrite bind_st.
  cbn [get_header fd_header in_payload set_stage set_header fh_flags].
  change (is_end_headers END_HEADERS_MASK) with true. cbv iota.
  rewrite bind_st, (hpack_decode_eq _ _ h) by done. rewrite bind_st, (hpack_finish_eq _ h' parts) by done.
  rewrite bind_st. cbn [get_continuations fd_continuations set_hpack set_stage set_header in_payload].
  rewrite Hc. rewrite bind_st. cbn [put_continuations mret ST_ret]. rewrite bind_st.
  by rewrite FrameDecoder_decode_step by (done || by apply idle_inv).
Qed.

Lemma unsolicited_continuation_witness :
  (FrameDecoder_decode (frame_wire 9 END_HEADERS_MASK 5 [130]) FrameDecoder_new).2 =
    Ok [Complete (mkFrame 0 0 (PHeaders (hp_parts (HpackDecoder_decode [130] hpack_new).1)))].
Proof.
  refine (unsolicited_continuation FrameDecoder_new 5 [130] (HpackDecoder_decode [130] hpack_new).1
    (HpackDecoder_finish (HpackDecoder_decode [130] hpack_new).1).1 _ _ eq_refl _ _ _ _);
    [repeat split|discriminate|apply wire_okb_ok; vm_compute; reflexivity|vm_compute; reflexivity..].
Defined.

(** The bytes of a small stream identifier, read as a field block. *)
Lemma promised_id_decode pid fragment hp :
  0 < pid < 256 → hp_holder hp = None →
  HpackDecoder_decode (be_bytes 4 pid ++ fragment) hp =
    (_ ← Updater_update (LiteralWithoutIndexing (Literal []) []); HpackDecoder_decode (pid :: fragment)) hp.
Proof.
  intros Hpid Hh. change (be_bytes 4 pid) with
    [Z.shiftr pid 24 mod 256; Z.shiftr pid 16 mod 256; Z.shiftr pid 8 mod 256; Z.shiftr pid 0 mod 256].
  rewrite !Z.shiftr_div_pow2, !(Z.div_small pid) by lia. rewrite Z.div_1_r, (Z.mod_small pid) by lia.
  rewrite HpackDecoder_decode_run, Hh, set_holder_id by done.
  assert (Forall (λ p : bool * Representation, repr_ok p.2) [(false, LiteralWithoutIndexing (Literal []) [])]) as Hok
    by (constructor; [|done]; split; apply string_ok_short; done || (cbn; lia)).
  pose proof (run_block _ (pid :: fragment) hp Hok Hh) as H. etransitivity; [exact H|].
  cbn [fmap list_fmap snd update_all]. rewrite !bind_st.
  by destruct (Updater_update _ _) as [d' [[]| |]].
Qed.

(** the field block of a PUSH_PROMISE is not decoded by itself: the four
    bytes of the promised stream go to the HPACK decoder first.  For a promised
    stream below 256 the parts begin with a field of empty name and value, and
    the last byte of the identifier is read as the start of the block. *)
Theorem push_promise_wrong_block (d : FrameDecoder) (id pid : Z) (fragment : bytes)
    (h h' : HpackDecoder) (parts : Parts)
    (Hi : idle d) (Hc : fd_continuations d = Continuations_new) (Hne : id ≠ 0)
    (Hw : wire_ok d 5 END_HEADERS_MASK id (be_bytes 4 pid ++ fragment)) (Hpid : 0 < pid < 256)
    (Hholder : hp_holder (fd_hpack d) = None)
    (Hh : (_ ← Updater_update (LiteralWithoutIndexing (Literal []) []);
           HpackDecoder_decode (pid :: fragment)) (fd_hpack d) = (h, Ok ()))
    (Hfin : HpackDecoder_finish h = (h', Ok parts)) :
  (FrameDecoder_decode (frame_wire 5 END_HEADERS_MASK id (be_bytes 4 pid ++ fragment)) d).2 =
    Ok [Complete (mkFrame id END_HEADERS_MASK (PPushPromise pid parts))].
Proof.
  rewrite <- promised_id_decode in Hh by done.
  rewrite <- (app_nil_r (frame_wire _ _ _ _)), decode_wire by done. cbv zeta.
  unfold breaks_block. cbn [fd_continuations in_payload set_stage set_header]. rewrite Hc.
  cbn [ct_is_end_headers Continuations_new negb andb decode_payload_of_type].
  unfold decode_push_promise_payload. rewrite bind_st, reject_stream_0_ok by done.
  rewrite bind_st, join_idle by apply Hi. unfold push_promise_payload. rewrite bind_st.
  cbn [get_header fd_header in_payload set_stage set_header fh_flags].
  unfold fragment_range. cbn [fh_flags fh_payload_length].
  change (is_padded END_HEADERS_MASK) with false. change (is_end_headers END_HEADERS_MASK) with true. cbv iota.
  rewrite !bind_st. cbn [mret ST_ret fst snd]. rewrite len_app. change (len (be_bytes 4 pid)) with 4.
  pose proof (len_nonneg fragment). destruct (Z.ltb_spec (4 + len fragment) 4); [lia|]. cbn [mret ST_ret].
  rewrite bind_st, (hpack_decode_eq _ _ h) by done.
  rewrite bind_st, slice_st by (rewrite ?len_app; change (len (be_bytes 4 pid)) with 4; lia). cbv zeta.
  rewrite dropZ_0. change (takeZ (4 - 0) (be_bytes 4 pid ++ fragment)) with (be_bytes 4 pid ++ []).
  rewrite get_stream_id_be by lia. unfold is_connection_frame. destruct (Z.eqb_spec pid 0); [lia|].
  unfold push_promise_framing. rewrite bind_st. cbn [get_header]. rewrite bind_st, (hpack_finish_eq _ h' parts) by done.
  cbn [mret ST_ret]. rewrite bind_st. by rewrite FrameDecoder_decode_step by (done || by apply idle_inv).
Qed.

Lemma push_promise_wrong_block_witness :
  let hp := ((_ ← Updater_update (LiteralWithoutIndexing (Literal []) []);
              HpackDecoder_decode (130 :: [132])) hpack_new).1 in
  (FrameDecoder_decode (frame_wire 5 END_HEADERS_MASK 1 (be_bytes 4 130 ++ [132])) FrameDecoder_new).2 =
    Ok [Complete (mkFrame 1 END_HEADERS_MASK (PPushPromise 130 (hp_parts hp)))].
Proof.
  intros hp.
  refine (push_promise_wrong_block FrameDecoder_new 1 130 [132] hp (HpackDecoder_finish hp).1 _
    _ eq_refl _ _ _ eq_refl _ _);
    [repeat split|discriminate|apply wire_okb_ok; vm_compute; reflexivity|lia|vm_compute; reflexivity..].
Defined.
