(* ===== verification/FrameEncoder.v ===== *)
(** * The HTTP/2 frame encoder

    Models [src/ylong_http/src/h2/encoder.rs]: [FrameEncoder], a state machine
    that writes one frame after the other into buffers given by the caller.  A
    method that writes takes the slice [buf] as the bytes it holds and gives the
    slice afterwards with the number that the source returns. *)

From S2P Require Import Prelude H2Error HpackTable HpackRepr Headers Parts HpackDecoder HpackEncoder.
From S2P Require Import H2Frame FrameDecoder.
#[local] Open Scope Z_scope.

(** ** State *)

Inductive FrameEncoderErr :=
  | EncodingData | UnexpectedPayloadType | NoCurrentFrame | InternalError | HeadersNotEnd.

Inductive FrameEncoderState :=
  | Idle
  | EncodingHeadersFrame | EncodingHeadersPayload | EncodingHeadersPadding
  | EncodingContinuationFrames | HeadersComplete
  | EncodingDataHeader | EncodingDataPayload | EncodingDataPadding
  | EncodingSettingsFrame | EncodingSettingsPayload
  | EncodingGoawayFrame | EncodingGoawayPayload
  | EncodingWindowUpdateFrame | EncodingWindowUpdatePayload
  | EncodingPriorityFrame | EncodingPriorityPayload
  | EncodingRstStreamFrame | EncodingRstStreamPayload
  | EncodingPingFrame | EncodingPingPayload
  | DataComplete.

#[export] Instance FrameEncoderState_eq_dec : EqDecision FrameEncoderState.
Proof. solve_decision. Defined.

Record FrameEncoder := mkFrameEncoder {
  fe_current_frame : option Frame;
  fe_max_frame_size : Z;
  fe_max_header_list_size : Z;
  fe_hpack : HpackEncoder;
  fe_state : FrameEncoderState;
  fe_encoded_bytes : Z;
  fe_data_offset : Z;
  fe_remaining_header_payload : Z;
  fe_remaining_payload_bytes : Z;
  fe_is_end_stream : bool;
  fe_is_end_headers : bool;
  fe_header_payload_buffer : bytes;
  fe_header_payload_index : Z }.

Definition ENCODER_BUFFER_SIZE : nat := Z.to_nat 16384.

(** [FrameEncoder::new]. *)
Definition FrameEncoder_new (max_frame_size : Z) (use_huffman : bool) : FrameEncoder :=
  mkFrameEncoder None max_frame_size USIZE_MAX (HpackEncoder_new 4096 use_huffman) Idle 0 0 0 0
    false false (replicate ENCODER_BUFFER_SIZE 0) 0.

Definition with_frame (f : option Frame) (e : FrameEncoder) : FrameEncoder :=
  mkFrameEncoder f (fe_max_frame_size e) (fe_max_header_list_size e) (fe_hpack e) (fe_state e)
    (fe_encoded_bytes e) (fe_data_offset e) (fe_remaining_header_payload e) (fe_remaining_payload_bytes e)
    (fe_is_end_stream e) (fe_is_end_headers e) (fe_header_payload_buffer e) (fe_header_payload_index e).
Definition with_limits (max_frame max_list : Z) (e : FrameEncoder) : FrameEncoder :=
  mkFrameEncoder (fe_current_frame e) max_frame max_list (fe_hpack e) (fe_state e)
    (fe_encoded_bytes e) (fe_data_offset e) (fe_remaining_header_payload e) (fe_remaining_payload_bytes e)
    (fe_is_end_stream e) (fe_is_end_headers e) (fe_header_payload_buffer e) (fe_header_payload_index e).
Definition with_state (s : FrameEncoderState) (e : FrameEncoder) : FrameEncoder :=
  mkFrameEncoder (fe_current_frame e) (fe_max_frame_size e) (fe_max_header_list_size e) (fe_hpack e) s
    (fe_encoded_bytes e) (fe_data_offset e) (fe_remaining_header_payload e) (fe_remaining_payload_bytes e)
    (fe_is_end_stream e) (fe_is_end_headers e) (fe_header_payload_buffer e) (fe_header_payload_index e).
Definition with_encoded (n : Z) (e : FrameEncoder) : FrameEncoder :=
  mkFrameEncoder (fe_current_frame e) (fe_max_frame_size e) (fe_max_header_list_size e) (fe_hpack e) (fe_state e)
    n (fe_data_offset e) (fe_remaining_header_payload e) (fe_remaining_payload_bytes e)
    (fe_is_end_stream e) (fe_is_end_headers e) (fe_header_payload_buffer e) (fe_header_payload_index e).
Definition with_data (offset remaining : Z) (e : FrameEncoder) : FrameEncoder :=
  mkFrameEncoder (fe_current_frame e) (fe_max_frame_size e) (fe_max_header_list_size e) (fe_hpack e) (fe_state e)
    (fe_encoded_bytes e) offset (fe_remaining_header_payload e) remaining
    (fe_is_end_stream e) (fe_is_end_headers e) (fe_header_payload_buffer e) (fe_header_payload_index e).
Definition with_ends (stream headers : bool) (e : FrameEncoder) : FrameEncoder :=
  mkFrameEncoder (fe_current_frame e) (fe_max_frame_size e) (fe_max_header_list_size e) (fe_hpack e) (fe_state e)
    (fe_encoded_bytes e) (fe_data_offset e) (fe_remaining_header_payload e) (fe_remaining_payload_bytes e)
    stream headers (fe_header_payload_buffer e) (fe_header_payload_index e).
Definition with_headers (h : HpackEncoder) (buffer : bytes) (remaining index : Z) (e : FrameEncoder) : FrameEncoder :=
  mkFrameEncoder (fe_current_frame e) (fe_max_frame_size e) (fe_max_header_list_size e) h (fe_state e)
    (fe_encoded_bytes e) (fe_data_offset e) remaining (fe_remaining_payload_bytes e)
    (fe_is_end_stream e) (fe_is_end_headers e) buffer index.

Abbreviation FE := (ST FrameEncoder FrameEncoderErr).

Definition add_encoded (n : Z) : FE () := modify_st (λ e, with_encoded (fe_encoded_bytes e + n) e).
Definition goto (s : FrameEncoderState) : FE () := modify_st (with_state s).

(** ** Writing into a slice *)

(** [for (buf_index, item) in buf.iter_mut().enumerate().take(n)], when item
    [buf_index] is set to [f (i + buf_index)]. *)
Fixpoint fill (n : nat) (f : Z → result FrameEncoderErr Z) (i : Z) (buf : bytes) :
    result FrameEncoderErr bytes :=
  match n, buf with
  | S n, _ :: buf =>
      b ← f i;
      rest ← fill n f (i + 1) buf;
      mret (b :: rest)
  | _, _ => mret buf
  end.

(** [buf[i] = x]. *)
Definition set_index (buf : bytes) (i x : Z) : result FrameEncoderErr bytes :=
  if (0 <=? i) && (i <? len buf) then Ok (takeZ i buf ++ x :: dropZ (i + 1) buf) else Panic.

(** [for buf_index in 0..n], when the body sets index [(f buf_index).1] to
    [(f buf_index).2]. *)
Fixpoint set_each (n : nat) (f : Z → result FrameEncoderErr (Z * Z)) (buf_index : Z) (buf : bytes) :
    result FrameEncoderErr bytes :=
  match n with
  | O => mret buf
  | S n =>
      p ← f buf_index;
      buf ← set_index buf p.1 p.2;
      set_each n f (buf_index + 1) buf
  end.

(** The byte [i] of a frame header, as the [iterate_*_header] of HEADERS, DATA,
    GOAWAY, WINDOW_UPDATE and PRIORITY compute it. *)
Definition header_byte (payload_len frame_type flags id : Z) (i : Z) : result FrameEncoderErr Z :=
  if i <=? 2 then Ok (Z.land (Z.shiftr payload_len (16 - 8 * i)) 0xFF)
  else if i =? 3 then Ok frame_type
  else if i =? 4 then Ok flags
  else if i <=? 8 then Ok (wrap8 (Z.shiftr id (24 - 8 * (i - 5))))
  else Err InternalError.

(** The lines that these five have in common: the bytes of the header that are
    left, as many as [buf] can take. *)
Definition encode_frame_header (byte : Z → result FrameEncoderErr Z) (buf : bytes) : FE (bytes * Z) :=
  e ← get_st;
  let remaining_header_bytes := if 9 <=? fe_encoded_bytes e then 0 else 9 - fe_encoded_bytes e in
  let bytes_to_write := Z.min remaining_header_bytes (len buf) in
  buf ← lift_res (fill (Z.to_nat bytes_to_write) byte (fe_encoded_bytes e) buf);
  _ ← add_encoded bytes_to_write;
  mret (buf, bytes_to_write).

(** [if self.encoded_bytes == n { self.state = s }]. *)
Definition goto_at (n : Z) (s : FrameEncoderState) : FE () :=
  e ← get_st; if fe_encoded_bytes e =? n then goto s else mret ().

(** [try_retrieve_current_frame]. *)
Definition try_retrieve_current_frame : FE Frame :=
  e ← get_st; match fe_current_frame e with Some f => mret f | None => throw NoCurrentFrame end.

Definition unexpected {A} : FE A := throw UnexpectedPayloadType.

Definition saturating_sub (x y : Z) : Z := Z.max 0 (x - y).

(** [x - y] on [usize]. *)
Definition usize_sub (x y : Z) : result FrameEncoderErr Z := if y <=? x then Ok (x - y) else Panic.

(** ** HEADERS and CONTINUATION *)

(** The call of [HpackEncoder::encode] on [header_payload_buffer], with
    [header_payload_index] set to 0: [set_frame] and [read_rest_payload]. *)
Definition read_rest_payload : FE () :=
  modify_st (λ e,
    let '(h, out, size) := HpackEncoder_encode (length (fe_header_payload_buffer e)) (fe_hpack e) in
    with_headers h (out ++ drop (length out) (fe_header_payload_buffer e)) (Z.of_nat size) 0 e).

(** [finish_current_frame]. *)
Definition finish_current_frame : FE () :=
  modify_st (λ e, with_frame None (with_encoded 0 (with_ends false false
    (with_headers (fe_hpack e) (fe_header_payload_buffer e) 0 0 e)))).

(** [write_payload]. *)
Definition write_payload (buf : bytes) (payload_len : Z) : FE (bytes * Z) :=
  e ← get_st;
  rest ← lift_res (usize_sub payload_len (fe_header_payload_index e));
  let bytes_to_write := Z.min (len buf) rest in
  let index := fe_header_payload_index e in
  if len (fe_header_payload_buffer e) <? index + bytes_to_write then panic
  else
    let src := takeZ bytes_to_write (dropZ index (fe_header_payload_buffer e)) in
    _ ← put_st (with_headers (fe_hpack e) (fe_header_payload_buffer e) (fe_remaining_header_payload e)
          (index + bytes_to_write) e);
    mret (src ++ dropZ bytes_to_write buf, bytes_to_write).

(** [headers_header_status]. *)
Definition headers_header_status : FE () :=
  e ← get_st;
  if fe_header_payload_index e <? fe_remaining_header_payload e then goto EncodingHeadersPayload
  else if HpackEncoder_is_finished (fe_hpack e) then
    _ ← finish_current_frame; goto HeadersComplete
  else
    _ ← read_rest_payload; goto EncodingContinuationFrames.

(** [iterate_headers_header]: the flags, without END_HEADERS when a
    CONTINUATION follows. *)
Definition headers_header_byte (e : FrameEncoder) (f : Frame) : Z → result FrameEncoderErr Z :=
  header_byte (fe_remaining_header_payload e) (frame_type_code THeaders)
    (if HpackEncoder_is_finished (fe_hpack e) then f_flags f else Z.land (f_flags f) 0xFB) (f_id f).

(** [encode_headers_frame]. *)
Definition encode_headers_frame (buf : bytes) : FE (bytes * Z) :=
  f ← try_retrieve_current_frame;
  match f_payload f with
  | PHeaders _ =>
      e ← get_st;
      w ← encode_frame_header (headers_header_byte e f) buf;
      let '(buf, bytes_written) := w in
      e ← get_st;
      if 9 <=? fe_encoded_bytes e then
        p ← write_payload (dropZ bytes_written buf) (fe_remaining_header_payload e);
        _ ← add_encoded p.2;
        _ ← headers_header_status;
        mret (takeZ bytes_written buf ++ p.1, bytes_written + p.2)
      else mret (buf, bytes_written)
  | _ => unexpected
  end.

(** [encode_headers_payload]. *)
Definition encode_headers_payload (buf : bytes) : FE (bytes * Z) :=
  f ← try_retrieve_current_frame;
  match f_payload f with
  | PHeaders _ =>
      if len buf =? 0 then mret (buf, 0)
      else
        e ← get_st;
        p ← write_payload buf (fe_remaining_header_payload e);
        _ ← add_encoded p.2;
        _ ← headers_header_status;
        mret p
  | _ => unexpected
  end.

(** [encode_continuation_frames]: its nine bytes are written at once. *)
Definition encode_continuation_frames (buf : bytes) : FE (bytes * Z) :=
  f ← try_retrieve_current_frame;
  match f_payload f with
  | PHeaders _ =>
      if len buf <? 9 then mret (buf, 0)
      else
        e ← get_st;
        let continuation_frame_len := Z.min (fe_remaining_header_payload e) (fe_max_frame_size e) in
        let flags := if (fe_remaining_header_payload e <=? fe_max_frame_size e) &&
            HpackEncoder_is_finished (fe_hpack e) && fe_is_end_headers e
          then set_end_headers true 0 else 0 in
        buf ← lift_res (fill 9 (header_byte continuation_frame_len
                (frame_type_code TContinuation) flags (f_id f)) 0 buf);
        p ← write_payload (dropZ 9 buf) continuation_frame_len;
        _ ← add_encoded p.2;
        _ ← headers_header_status;
        mret (takeZ 9 buf ++ p.1, 9 + p.2)
  | _ => unexpected
  end.

(** ** DATA *)

(** [encode_data_header]. *)
Definition data_header_byte (e : FrameEncoder) (f : Frame) : Z → result FrameEncoderErr Z :=
  header_byte (Z.min (fe_remaining_payload_bytes e) (fe_max_frame_size e))
    (frame_type_code (frame_type (f_payload f)))
    (if fe_remaining_payload_bytes e <=? fe_max_frame_size e then f_flags f
     else Z.land (f_flags f) 0xFE) (f_id f).

Definition encode_data_header (buf : bytes) : FE (bytes * Z) :=
  f ← try_retrieve_current_frame;
  match f_payload f with
  | PData _ =>
      e ← get_st;
      w ← encode_frame_header (data_header_byte e f) buf;
      e ← get_st;
      _ ← (if fe_encoded_bytes e =? 9 then
             _ ← modify_st (with_encoded 0); goto EncodingDataPayload
           else mret ());
      mret w
  | _ => unexpected
  end.

(** [encode_slice]: the bytes to copy; the subtraction and the slices panic out
    of range. *)
Definition encode_slice (e : FrameEncoder) (room : Z) (data : bytes) : result FrameEncoderErr bytes :=
  let start := fe_data_offset e in
  rest ← usize_sub (fe_max_frame_size e) start;
  let allow_to_write := Z.min rest (fe_remaining_payload_bytes e) in
  let bytes_to_write := Z.min allow_to_write room in
  if len data <? start + bytes_to_write then Panic
  else Ok (takeZ bytes_to_write (dropZ start data)).

(** [encode_data_payload]. *)
Definition encode_data_payload (buf : bytes) : FE (bytes * Z) :=
  f ← try_retrieve_current_frame;
  match f_payload f with
  | PData data =>
      e ← get_st;
      src ← lift_res (encode_slice e (len buf) data);
      let offset := fe_data_offset e + len src in
      let remaining := fe_remaining_payload_bytes e - len src in
      _ ← put_st (
        if remaining =? 0 then with_state DataComplete (with_data 0 remaining e)
        else if offset =? fe_max_frame_size e then with_state EncodingDataHeader (with_data 0 remaining e)
        else with_state EncodingDataPayload (with_data offset remaining e));
      mret (src ++ dropZ (len src) buf, len src)
  | _ => unexpected
  end.

(** [encode_padding]. *)
Definition encode_padding (buf : bytes) : FE (bytes * Z) :=
  f ← try_retrieve_current_frame;
  if is_padded (f_flags f) then
    match f_payload f with
    | PData data =>
        e ← get_st;
        remaining_padding_bytes ← lift_res (usize_sub (len data) (fe_encoded_bytes e));
        let bytes_to_write := Z.min remaining_padding_bytes (len buf) in
        buf ← lift_res (fill (Z.to_nat bytes_to_write) (λ _, Ok 0) 0 buf);
        _ ← add_encoded bytes_to_write;
        _ ← goto_at (len data) DataComplete;
        mret (buf, bytes_to_write)
    | _ => unexpected
    end
  else mret (buf, 0).

(** ** GOAWAY *)

(** [encode_goaway_frame]. *)
Definition encode_goaway_frame (buf : bytes) : FE (bytes * Z) :=
  f ← try_retrieve_current_frame;
  match f_payload f with
  | PGoaway _ _ debug_data =>
      w ← encode_frame_header
            (header_byte (goaway_encoded_len debug_data) (frame_type_code TGoaway) (f_flags f) (f_id f)) buf;
      _ ← goto_at 9 EncodingGoawayPayload;
      mret w
  | _ => unexpected
  end.

(** [iterate_goaway_payload]. *)
Definition goaway_byte (error_code last_stream_id : Z) (debug_data : bytes) (i : Z) :
    result FrameEncoderErr Z :=
  if i <=? 3 then Ok (wrap8 (Z.shiftr last_stream_id (24 - 8 * i)))
  else if i <=? 7 then Ok (wrap8 (Z.shiftr error_code (24 - 8 * (i - 4))))
  else match debug_data !! Z.to_nat (i - 8) with Some b => Ok b | None => Err InternalError end.

(** [encode_goaway_payload]; the index [encoded_bytes - 9] is at least 0 there. *)
Definition encode_goaway_payload (buf : bytes) : FE (bytes * Z) :=
  f ← try_retrieve_current_frame;
  match f_payload f with
  | PGoaway error_code last_stream_id debug_data =>
      e ← get_st;
      let payload_size := goaway_encoded_len debug_data in
      let remaining := saturating_sub payload_size (saturating_sub (fe_encoded_bytes e) 9) in
      let bytes_to_write := Z.min remaining (len buf) in
      start ← lift_res (if bytes_to_write =? 0 then Ok 0 else usize_sub (fe_encoded_bytes e) 9);
      buf ← lift_res (fill (Z.to_nat bytes_to_write) (goaway_byte error_code last_stream_id debug_data) start buf);
      _ ← add_encoded bytes_to_write;
      _ ← goto_at (9 + payload_size) DataComplete;
      mret (buf, bytes_to_write)
  | _ => unexpected
  end.

(** ** WINDOW_UPDATE *)

(** [encode_window_update_frame]: [encoded_bytes] starts again at 0. *)
Definition encode_window_update_frame (buf : bytes) : FE (bytes * Z) :=
  f ← try_retrieve_current_frame;
  match f_payload f with
  | PWindowUpdate _ =>
      w ← encode_frame_header (header_byte 4 (frame_type_code TWindowUpdate) (f_flags f) (f_id f)) buf;
      e ← get_st;
      _ ← (if fe_encoded_bytes e =? 9 then
             _ ← goto EncodingWindowUpdatePayload; modify_st (with_encoded 0)
           else mret ());
      mret w
  | _ => unexpected
  end.

(** [encode_window_update_payload]. *)
Definition encode_window_update_payload (buf : bytes) : FE (bytes * Z) :=
  f ← try_retrieve_current_frame;
  match f_payload f with
  | PWindowUpdate increment =>
      e ← get_st;
      let start := saturating_sub (fe_encoded_bytes e) 9 in
      let bytes_to_write := Z.min (saturating_sub 4 start) (len buf) in
      buf ← lift_res (fill (Z.to_nat bytes_to_write)
              (λ i, Ok (wrap8 (Z.shiftr increment (24 - 8 * i)))) start buf);
      _ ← add_encoded bytes_to_write;
      _ ← goto_at 4 DataComplete;
      mret (buf, bytes_to_write)
  | _ => unexpected
  end.

(** ** SETTINGS *)

(** [iterate_settings_header]: where the body writes and what, for header byte
    [encoded + buf_index]; the type and the flags always go to index 3 and 4. *)
Definition settings_header_item (payload_len flags encoded buf_index : Z) :
    result FrameEncoderErr (Z * Z) :=
  let i := encoded + buf_index in
  if i <=? 2 then Ok (buf_index, Z.land (Z.shiftr payload_len (16 - 8 * buf_index)) 0xFF)
  else if i =? 3 then Ok (3, frame_type_code TSettings)
  else if i =? 4 then Ok (4, flags)
  else if i <=? 8 then Ok (buf_index, 0)
  else Err InternalError.

(** [encode_settings_frame]. *)
Definition encode_settings_frame (buf : bytes) : FE (bytes * Z) :=
  f ← try_retrieve_current_frame;
  match f_payload f with
  | PSettings settings =>
      e ← get_st;
      let encoded := fe_encoded_bytes e in
      let bytes_to_write := Z.min (if 9 <=? encoded then 0 else 9 - encoded) (len buf) in
      buf ← lift_res (set_each (Z.to_nat bytes_to_write)
              (settings_header_item (len settings * 6) (f_flags f) encoded) 0 buf);
      _ ← add_encoded bytes_to_write;
      _ ← goto_at 9 EncodingSettingsPayload;
      mret (buf, bytes_to_write)
  | _ => unexpected
  end.

(** The pair [(id, value)] of [iterate_settings_payload]. *)
Definition setting_pair (s : Setting) : Z * Z :=
  match s with
  | HeaderTableSize v => (0x1, v)
  | EnablePush v => (0x2, if v then 1 else 0)
  | MaxConcurrentStreams v => (0x3, v)
  | InitialWindowSize v => (0x4, v)
  | MaxFrameSize v => (0x5, v)
  | MaxHeaderListSize v => (0x6, v)
  end.

(** [iterate_settings_payload]. *)
Definition settings_byte (settings : list Setting) (i : Z) : result FrameEncoderErr Z :=
  match settings !! Z.to_nat (i / 6) with
  | Some s =>
      let '(id, value) := setting_pair s in
      let j := i mod 6 in
      if j <=? 1 then Ok (Z.land (Z.shiftr id (8 * (1 - j))) 0xFF)
      else Ok (Z.land (Z.shiftr value (8 * (3 - (j - 2)))) 0xFF)
  | None => Err InternalError
  end.

(** [encode_settings_payload]. *)
Definition encode_settings_payload (buf : bytes) : FE (bytes * Z) :=
  f ← try_retrieve_current_frame;
  match f_payload f with
  | PSettings settings =>
      e ← get_st;
      let settings_len := len settings * 6 in
      let remaining := saturating_sub settings_len (saturating_sub (fe_encoded_bytes e) 9) in
      let bytes_to_write := Z.min remaining (len buf) in
      start ← lift_res (if bytes_to_write =? 0 then Ok 0 else usize_sub (fe_encoded_bytes e) 9);
      buf ← lift_res (fill (Z.to_nat bytes_to_write) (settings_byte settings) start buf);
      _ ← add_encoded bytes_to_write;
      _ ← goto_at (9 + settings_len) DataComplete;
      mret (buf, bytes_to_write)
  | _ => unexpected
  end.

(** ** PRIORITY *)

(** [encode_priority_frame]. *)
Definition encode_priority_frame (buf : bytes) : FE (bytes * Z) :=
  f ← try_retrieve_current_frame;
  match f_payload f with
  | PPriority _ _ _ =>
      w ← encode_frame_header
            (header_byte 5 (frame_type_code (frame_type (f_payload f))) (f_flags f) (f_id f)) buf;
      _ ← goto_at 9 EncodingPriorityPayload;
      mret w
  | _ => unexpected
  end.

(** [iterate_priority_payload]. *)
Definition priority_byte (exclusive : bool) (stream_dependency weight : Z) (i : Z) :
    result FrameEncoderErr Z :=
  if i =? 0 then
    Ok (Z.lor (if exclusive then 0x80 else 0) (Z.land (Z.shiftr stream_dependency 24) 0x7F))
  else if i <=? 3 then Ok (wrap8 (Z.shiftr stream_dependency (16 - 8 * (i - 1))))
  else if i =? 4 then Ok weight
  else Err InternalError.

(** [encode_priority_payload]. *)
Definition encode_priority_payload (buf : bytes) : FE (bytes * Z) :=
  f ← try_retrieve_current_frame;
  match f_payload f with
  | PPriority exclusive stream_dependency weight =>
      e ← get_st;
      done_bytes ← lift_res (usize_sub (fe_encoded_bytes e) 9);
      remaining ← lift_res (usize_sub 5 done_bytes);
      let bytes_to_write := Z.min remaining (len buf) in
      buf ← lift_res (fill (Z.to_nat bytes_to_write) (priority_byte exclusive stream_dependency weight)
              (saturating_sub (fe_encoded_bytes e) 9) buf);
      _ ← add_encoded bytes_to_write;
      _ ← goto_at 14 DataComplete;
      mret (buf, bytes_to_write)
  | _ => unexpected
  end.

(** ** RST_STREAM *)

(** The bytes of its header, with the shifts by [buf_index]; the subtraction
    [buf_index - 5] and a negative shift panic. *)
Definition rst_header_byte (flags id encoded i : Z) : result FrameEncoderErr Z :=
  let buf_index := i - encoded in
  if i <=? 2 then Ok (Z.land (Z.shiftr 4 (16 - 8 * buf_index)) 0xFF)
  else if i =? 3 then Ok (frame_type_code TRstStream)
  else if i =? 4 then Ok flags
  else if i <=? 8 then
    j ← usize_sub buf_index 5;
    mret (Z.land (Z.shiftr id (24 - 8 * j)) 0xFF)
  else Err InternalError.

(** [encode_rst_stream_frame]: the type of the payload is not looked at. *)
Definition encode_rst_stream_frame (buf : bytes) : FE (bytes * Z) :=
  f ← try_retrieve_current_frame;
  e ← get_st;
  let encoded := fe_encoded_bytes e in
  if 9 <=? encoded then mret (buf, 0)
  else
    let bytes_to_write := Z.min (9 - encoded) (len buf) in
    buf ← lift_res (fill (Z.to_nat bytes_to_write) (rst_header_byte (f_flags f) (f_id f) encoded) encoded buf);
    _ ← add_encoded bytes_to_write;
    _ ← goto_at 9 EncodingRstStreamPayload;
    mret (buf, bytes_to_write).

(** [encode_rst_stream_payload]. *)
Definition encode_rst_stream_payload (buf : bytes) : FE (bytes * Z) :=
  f ← try_retrieve_current_frame;
  match f_payload f with
  | PRstStream error_code =>
      e ← get_st;
      let encoded := fe_encoded_bytes e in
      if encoded <? 9 then mret (buf, 0)
      else if 4 <=? encoded - 9 then mret (buf, 0)
      else
        let bytes_to_write := Z.min (4 - (encoded - 9)) (len buf) in
        buf ← lift_res (fill (Z.to_nat bytes_to_write)
                (λ i, Ok (Z.land (Z.shiftr error_code (24 - 8 * i)) 0xFF)) (encoded - 9) buf);
        _ ← add_encoded bytes_to_write;
        _ ← goto_at 13 DataComplete;
        mret (buf, bytes_to_write)
  | _ => unexpected
  end.

(** ** PING *)

(** [iterate_ping_header], as the one of SETTINGS. *)
Definition ping_header_item (flags encoded buf_index : Z) : result FrameEncoderErr (Z * Z) :=
  let i := encoded + buf_index in
  if i <=? 2 then Ok (buf_index, Z.land (Z.shiftr 8 (16 - 8 * buf_index)) 0xFF)
  else if i =? 3 then Ok (3, frame_type_code TPing)
  else if i =? 4 then Ok (4, flags)
  else if i <=? 8 then Ok (buf_index, 0)
  else Err InternalError.

(** [encode_ping_frame]. *)
Definition encode_ping_frame (buf : bytes) : FE (bytes * Z) :=
  f ← try_retrieve_current_frame;
  match f_payload f with
  | PPing _ =>
      e ← get_st;
      let encoded := fe_encoded_bytes e in
      let bytes_to_write := Z.min (if 9 <=? encoded then 0 else 9 - encoded) (len buf) in
      buf ← lift_res (set_each (Z.to_nat bytes_to_write) (ping_header_item (f_flags f) encoded) 0 buf);
      _ ← add_encoded bytes_to_write;
      _ ← goto_at 9 EncodingPingPayload;
      mret (buf, bytes_to_write)
  | _ => unexpected
  end.

(** [encode_ping_payload]. *)
Definition encode_ping_payload (buf : bytes) : FE (bytes * Z) :=
  f ← try_retrieve_current_frame;
  match f_payload f with
  | PPing data =>
      e ← get_st;
      let start := saturating_sub (fe_encoded_bytes e) 9 in
      let bytes_to_write := Z.min (saturating_sub 8 start) (len buf) in
      buf ← lift_res (fill (Z.to_nat bytes_to_write)
              (λ i, match data !! Z.to_nat i with Some b => Ok b | None => Panic end) start buf);
      _ ← add_encoded bytes_to_write;
      _ ← goto_at 17 DataComplete;
      mret (buf, bytes_to_write)
  | _ => unexpected
  end.

(** ** The machine *)

(** The [match] on the state in [FrameEncoder::encode]: [None] in the three
    states that stop the loop. *)
Definition encode_state (s : FrameEncoderState) : option (bytes → FE (bytes * Z)) :=
  match s with
  | Idle | HeadersComplete | DataComplete => None
  | EncodingHeadersFrame => Some encode_headers_frame
  | EncodingHeadersPayload => Some encode_headers_payload
  | EncodingHeadersPadding => Some encode_padding
  | EncodingContinuationFrames => Some encode_continuation_frames
  | EncodingDataHeader => Some encode_data_header
  | EncodingDataPayload => Some encode_data_payload
  | EncodingDataPadding => Some encode_padding
  | EncodingSettingsFrame => Some encode_settings_frame
  | EncodingSettingsPayload => Some encode_settings_payload
  | EncodingGoawayFrame => Some encode_goaway_frame
  | EncodingGoawayPayload => Some encode_goaway_payload
  | EncodingWindowUpdateFrame => Some encode_window_update_frame
  | EncodingWindowUpdatePayload => Some encode_window_update_payload
  | EncodingPriorityFrame => Some encode_priority_frame
  | EncodingPriorityPayload => Some encode_priority_payload
  | EncodingRstStreamFrame => Some encode_rst_stream_frame
  | EncodingRstStreamPayload => Some encode_rst_stream_payload
  | EncodingPingFrame => Some encode_ping_frame
  | EncodingPingPayload => Some encode_ping_payload
  end.

(** The loop of [FrameEncoder::encode] from [written_bytes = w] on: it stops
    when the buffer is full, in a final state, or when a state was not left. *)
Fixpoint encode_loop (fuel : nat) (w : Z) (buf : bytes) : FE (bytes * Z) :=
  match fuel with
  | O => panic
  | S fuel =>
      e ← get_st;
      if len buf <=? w then mret (buf, w)
      else match encode_state (fe_state e) with
           | None => mret (buf, w)
           | Some enc =>
               r ← enc (dropZ w buf);
               let buf := takeZ w buf ++ r.1 in
               let w := w + r.2 in
               e' ← get_st;
               if decide (fe_state e' = fe_state e) then mret (buf, w) else encode_loop fuel w buf
           end
  end.

(** Two turns write a byte or end the frame. *)
Definition encode_fuel (buf : bytes) : nat := (2 * length buf + 4)%nat.

(** [FrameEncoder::encode]. *)
Definition FrameEncoder_encode (buf : bytes) : FE (bytes * Z) := encode_loop (encode_fuel buf) 0 buf.

Section set_frame.
(** The order in which the hash map of the header fields is visited. *)
Variable hash_order : Headers → list (bytes * HeaderValue).

(** [FrameEncoder::set_frame]. *)
Definition set_frame (f : Frame) : FE () :=
  _ ← modify_st (λ e, with_encoded 0 (with_frame (Some f)
        (with_ends (is_end_stream (f_flags f)) (is_end_headers (f_flags f)) e)));
  match f_payload f with
  | PHeaders parts =>
      if negb (is_end_headers (f_flags f)) then throw HeadersNotEnd
      else
        _ ← modify_st (λ e, with_headers
              (HpackEncoder_set_parts (parts_pseudo parts) (hash_order (parts_map parts)) (fe_hpack e))
              (fe_header_payload_buffer e) (fe_remaining_header_payload e) 0 e);
        _ ← read_rest_payload;
        goto EncodingHeadersFrame
  | PPriority _ _ _ => goto EncodingPriorityFrame
  | PRstStream _ => goto EncodingRstStreamFrame
  | PPing _ => goto EncodingPingFrame
  | PData data =>
      _ ← modify_st (with_data 0 (len data)); goto EncodingDataHeader
  | PSettings _ => goto EncodingSettingsFrame
  | PGoaway _ _ _ => goto EncodingGoawayFrame
  | PWindowUpdate _ => goto EncodingWindowUpdateFrame
  | PPushPromise _ _ => mret ()
  end.
End set_frame.

(** [FrameEncoder::update_setting]. *)
Definition FrameEncoder_update_setting (s : Setting) (e : FrameEncoder) : FrameEncoder :=
  match fe_current_frame e with
  | Some (mkFrame id flags (PSettings settings)) =>
      with_frame (Some (mkFrame id flags (PSettings (update_setting settings s)))) e
  | _ => e
  end.

(** [update_max_frame_size], [update_max_header_list_size];
    [update_header_table_size] does nothing. *)
Definition update_max_frame_size (size : Z) (e : FrameEncoder) : FrameEncoder :=
  with_limits size (fe_max_header_list_size e) e.
Definition update_max_header_list_size (size : Z) (e : FrameEncoder) : FrameEncoder :=
  with_limits (fe_max_frame_size e) size e.
Definition update_header_table_size (size : Z) (e : FrameEncoder) : FrameEncoder := e.

(** ** Writing known bytes *)

Lemma fill_list l f i buf :
  (length l ≤ length buf)%nat → (∀ j x, l !! j = Some x → f (i + Z.of_nat j) = Ok x) →
  fill (length l) f i buf = Ok (l ++ drop (length l) buf).
Proof.
  revert i buf. induction l as [|x l IH]; intros i buf Hl Hf; [done|].
  destruct buf as [|y buf]; [cbn in Hl; lia|]. cbn [length fill drop app].
  assert (f i = Ok x) as -> by (rewrite <- (Hf 0%nat x eq_refl); f_equal; lia).
  unfold mbind, result_mbind, result_bind. rewrite IH; [done|cbn in Hl; lia|].
  intros j z Hj. rewrite <- (Hf (S j) z Hj). f_equal. lia.
Qed.

Lemma set_each_list l g f i buf :
  (∀ j x, l !! j = Some x → f (i + Z.of_nat j) = Ok (i + Z.of_nat j, x)) →
  (length g = Z.to_nat i)%nat → 0 ≤ i → (length l ≤ length buf)%nat →
  set_each (length l) f i (g ++ buf) = Ok (g ++ l ++ drop (length l) buf).
Proof.
  revert g i buf. induction l as [|x l IH]; intros g i buf Hf Hg Hi Hl; [done|].
  destruct buf as [|y buf]; [cbn in Hl; lia|]. cbn [length set_each drop app].
  pose proof (Hf 0%nat x eq_refl) as H0. rewrite Z.add_0_r in H0. rewrite H0.
  unfold mbind, result_mbind, result_bind. cbn [fst snd]. unfold set_index.
  assert (len (g ++ y :: buf) = i + 1 + len buf) as Hlen by (unfold len; rewrite length_app; cbn [length]; lia).
  rewrite Hlen. pose proof (len_nonneg buf).
  destruct (Z.leb_spec 0 i), (Z.ltb_spec i (i + 1 + len buf)); try lia. cbn [andb].
  assert (len g = i) as Hg' by (unfold len; lia).
  rewrite takeZ_app_le, (takeZ_all i g), dropZ_app_ge by lia.
  replace (i + 1 - len g) with 1 by lia. change (dropZ 1 (y :: buf)) with buf.
  change (g ++ x :: buf) with (g ++ [x] ++ buf). rewrite app_assoc.
  rewrite IH; [by rewrite <- app_assoc| |rewrite length_app; cbn [length]; lia|lia|cbn [length] in Hl; lia].
  intros j z Hj. replace (i + 1 + Z.of_nat j) with (i + Z.of_nat (S j)) by lia. by apply Hf.
Qed.

Lemma land_255 x : Z.land x 255 = x mod 256.
Proof. apply (land_mask x 8). lia. Qed.

(** The bytes of a frame header are those of its layout. *)
Lemma header_byte_head n t flags id j x :
  frame_head t flags id n !! j = Some x → header_byte n t flags id (Z.of_nat j) = Ok x.
Proof.
  do 9 (destruct j as [|j]; [intros [= <-]; unfold header_byte; cbn -[Z.land Z.shiftr];
    rewrite ?land_255; reflexivity|]).
  destruct j; discriminate.
Qed.

Lemma encode_frame_header_whole n t flags id buf e :
  fe_encoded_bytes e = 0 → 9 ≤ len buf →
  encode_frame_header (header_byte n t flags id) buf e =
    (with_encoded 9 e, Ok (frame_head t flags id n ++ dropZ 9 buf, 9)).
Proof.
  intros He Hb. unfold encode_frame_header. rewrite bind_st. cbn [get_st]. rewrite He.
  change (9 <=? 0) with false. cbv iota zeta. rewrite Z.sub_0_r, Z.min_l by lia.
  rewrite bind_st. unfold lift_res. change (Z.to_nat 9) with (length (frame_head t flags id n)).
  rewrite fill_list; [|unfold len in Hb; cbn; lia|intros j x; apply header_byte_head].
  rewrite bind_st. unfold add_encoded, modify_st. cbn [mret ST_ret]. by rewrite He.
Qed.

(** ** The loop *)

Lemma encode_loop_step fuel w buf e enc e' b n :
  w < len buf → encode_state (fe_state e) = Some enc →
  enc (dropZ w buf) e = (e', Ok (b, n)) → fe_state e' ≠ fe_state e →
  encode_loop (S fuel) w buf e = encode_loop fuel (w + n) (takeZ w buf ++ b) e'.
Proof.
  intros Hw Hs He Hne. cbn [encode_loop]. rewrite bind_st. cbn [get_st].
  destruct (Z.leb_spec (len buf) w); [lia|]. rewrite Hs, bind_st, He, bind_st. cbn [get_st fst snd].
  by rewrite decide_False.
Qed.

Lemma encode_loop_stop fuel w buf e :
  encode_state (fe_state e) = None → encode_loop (S fuel) w buf e = (e, Ok (buf, w)).
Proof.
  intros Hs. cbn [encode_loop]. rewrite bind_st. cbn [get_st]. rewrite Hs. by destruct (_ <=? w).
Qed.

(** A header and a payload, in a buffer that has room for both. *)
Lemma encode_two_steps e e1 e2 enc1 enc2 head payload buf :
  encode_state (fe_state e) = Some enc1 → encode_state (fe_state e1) = Some enc2 →
  fe_state e1 ≠ fe_state e → fe_state e2 = DataComplete →
  len head = 9 → 9 + len payload < len buf →
  enc1 buf e = (e1, Ok (head ++ dropZ 9 buf, 9)) →
  enc2 (dropZ 9 buf) e1 = (e2, Ok (payload ++ dropZ (len payload) (dropZ 9 buf), len payload)) →
  FrameEncoder_encode buf e =
    (e2, Ok (head ++ payload ++ dropZ (9 + len payload) buf, 9 + len payload)).
Proof.
  intros Hs1 Hs2 Hne Hc Hh Hb H1 H2. pose proof (len_nonneg payload).
  unfold FrameEncoder_encode, encode_fuel.
  replace (2 * length buf + 4)%nat with (S (S (S (2 * length buf + 1)))) by lia.
  rewrite (encode_loop_step _ 0 buf e enc1 e1 (head ++ dropZ 9 buf) 9) by (done || lia).
  rewrite takeZ_0, Z.add_0_l. cbn [app].
  assert (dropZ 9 (head ++ dropZ 9 buf) = dropZ 9 buf ∧ takeZ 9 (head ++ dropZ 9 buf) = head) as [Hd Ht]
    by (rewrite <- Hh; split; [apply dropZ_app_len|apply takeZ_app_len]).
  assert (len (head ++ dropZ 9 buf) = len buf) as Hl by (rewrite len_app, len_dropZ by lia; lia).
  rewrite (encode_loop_step _ 9 _ e1 enc2 e2 (payload ++ dropZ (len payload) (dropZ 9 buf)) (len payload));
    [|lia|done|by rewrite Hd|rewrite Hc; intros E; by rewrite <- E in Hs2].
  rewrite encode_loop_stop by (by rewrite Hc). by rewrite Ht, dropZ_dropZ by lia.
Qed.

(** ** The layout of the payloads *)

Definition setting_wire (s : Setting) : bytes :=
  be_bytes 2 (setting_identifier s) ++ be_bytes 4 (setting_value s).

Definition priority_wire (exclusive : bool) (stream_dependency weight : Z) : bytes :=
  Z.lor (if exclusive then 0x80 else 0) (Z.land (Z.shiftr stream_dependency 24) 0x7F) ::
  be_bytes 3 stream_dependency ++ [weight].

(** RFC 9113 section 6, for the frames without a field block. *)
Definition payload_wire (p : Payload) : bytes :=
  match p with
  | PData data => data
  | PPriority exclusive stream_dependency weight => priority_wire exclusive stream_dependency weight
  | PRstStream error_code => be_bytes 4 error_code
  | PPing data => data
  | PSettings settings => settings ≫= setting_wire
  | PGoaway error_code last_stream_id debug_data =>
      be_bytes 4 last_stream_id ++ be_bytes 4 error_code ++ debug_data
  | PWindowUpdate increment => be_bytes 4 increment
  | PHeaders _ | PPushPromise _ _ => []
  end.

(** SETTINGS and PING are written with stream 0. *)
Definition wire_id (p : Payload) (id : Z) : Z :=
  match p with PSettings _ | PPing _ => 0 | _ => id end.

(** What the encoder can write in one frame, without a field block. *)
Definition plain_payload (max_frame_size : Z) (p : Payload) : Prop :=
  match p with
  | PHeaders _ | PPushPromise _ _ => False
  | PData data => len data ≤ max_frame_size
  | PPing data => len data = 8
  | _ => True
  end.

Lemma be4_lookup x j b :
  be_bytes 4 x !! j = Some b → b = Z.shiftr x (24 - 8 * Z.of_nat j) mod 256 ∧ (j < 4)%nat.
Proof. do 4 (destruct j as [|j]; [intros [= <-]; split; [done|lia]|]). destruct j; discriminate. Qed.

Lemma goaway_byte_wire c i d j x :
  (be_bytes 4 i ++ be_bytes 4 c ++ d) !! j = Some x → goaway_byte c i d (Z.of_nat j) = Ok x.
Proof.
  do 8 (destruct j as [|j]; [intros [= <-]; reflexivity|]). intros H.
  change (d !! j = Some x) in H. unfold goaway_byte.
  destruct (Z.leb_spec (Z.of_nat (S (S (S (S (S (S (S (S j))))))))) 3); [lia|].
  destruct (Z.leb_spec (Z.of_nat (S (S (S (S (S (S (S (S j))))))))) 7); [lia|].
  replace (Z.to_nat (Z.of_nat (S (S (S (S (S (S (S (S j)))))))) - 8)) with j by lia. by rewrite H.
Qed.

Lemma priority_byte_wire x d w j b :
  priority_wire x d w !! j = Some b → priority_byte x d w (Z.of_nat j) = Ok b.
Proof. do 5 (destruct j as [|j]; [intros [= <-]; reflexivity|]). destruct j; discriminate. Qed.

Lemma setting_pair_eq s : setting_pair s = (setting_identifier s, setting_value s).
Proof. by destruct s. Qed.

Lemma settings_byte_wire l j b :
  (l ≫= setting_wire) !! j = Some b → settings_byte l (Z.of_nat j) = Ok b.
Proof.
  revert j. induction l as [|s l IH]; intros j; [done|]. cbn [mbind list_bind].
  destruct (decide (j < 6)%nat) as [Hj|Hj].
  - clear IH. intros Hb. unfold settings_byte.
    rewrite Z.div_small, Z.mod_small by lia. change ((s :: l) !! Z.to_nat 0) with (Some s).
    cbv iota beta. rewrite setting_pair_eq.
    do 6 (destruct j as [|j]; [injection Hb as <-; rewrite !land_255; reflexivity|]). lia.
  - rewrite lookup_app_r by (change (length (setting_wire s)) with 6%nat; lia).
    change (length (setting_wire s)) with 6%nat. intros H. apply IH in H. revert H. unfold settings_byte.
    assert (Z.of_nat j = Z.of_nat (j - 6) + 1 * 6) as -> by lia.
    rewrite Z.div_add, Z.mod_add by lia.
    replace (Z.to_nat (Z.of_nat (j - 6) / 6 + 1)) with (S (Z.to_nat (Z.of_nat (j - 6) / 6))); [done|].
    pose proof (Z.div_pos (Z.of_nat (j - 6)) 6). lia.
Qed.

Lemma settings_header_wire n flags j x :
  frame_head 4 flags 0 n !! j = Some x →
  settings_header_item n flags 0 (0 + Z.of_nat j) = Ok (0 + Z.of_nat j, x).
Proof.
  do 9 (destruct j as [|j]; [intros [= <-]; unfold settings_header_item; cbn -[Z.land Z.shiftr];
    rewrite ?land_255; reflexivity|]).
  destruct j; discriminate.
Qed.

Lemma ping_header_wire flags j x :
  frame_head 6 flags 0 8 !! j = Some x →
  ping_header_item flags 0 (0 + Z.of_nat j) = Ok (0 + Z.of_nat j, x).
Proof.
  do 9 (destruct j as [|j]; [intros [= <-]; reflexivity|]). destruct j; discriminate.
Qed.

Lemma rst_header_wire flags id j x :
  frame_head 3 flags id 4 !! j = Some x → rst_header_byte flags id 0 (0 + Z.of_nat j) = Ok x.
Proof.
  do 9 (destruct j as [|j]; [intros [= <-]; cbv -[Z.land Z.shiftr Z.modulo];
    rewrite ?land_255; reflexivity|]).
  destruct j; discriminate.
Qed.

Lemma len_settings_wire l : len (l ≫= setting_wire) = len l * 6.
Proof.
  induction l as [|s l IH]; [done|].
  change ((s :: l) ≫= setting_wire) with (setting_wire s ++ (l ≫= setting_wire)).
  rewrite len_app, len_cons, IH. change (len (setting_wire s)) with 6. lia.
Qed.

(** ** One frame at a time *)

(** The encoder with a frame set. *)
Definition framed (f : Frame) (e : FrameEncoder) : FrameEncoder :=
  with_encoded 0 (with_frame (Some f) (with_ends (is_end_stream (f_flags f)) (is_end_headers (f_flags f)) e)).

Ltac step_st := rewrite bind_st; cbn [get_st mret ST_ret lift_res modify_st put_st fst snd].

Lemma fill_whole l f buf :
  len l ≤ len buf → (∀ j x, l !! j = Some x → f (Z.of_nat j) = Ok x) →
  fill (Z.to_nat (len l)) f 0 buf = Ok (l ++ dropZ (len l) buf).
Proof.
  intros Hl Hf. unfold dropZ, len in *. rewrite Nat2Z.id. apply fill_list; [lia|].
  intros j x Hj. by apply Hf.
Qed.

Lemma set_each_whole l f buf :
  len l ≤ len buf → (∀ j x, l !! j = Some x → f (0 + Z.of_nat j) = Ok (0 + Z.of_nat j, x)) →
  set_each (Z.to_nat (len l)) f 0 buf = Ok (l ++ dropZ (len l) buf).
Proof.
  intros Hl Hf. unfold dropZ, len in *. rewrite Nat2Z.id. apply (set_each_list l [] f 0 buf); [done|done|done|lia].
Qed.

(** Headers of frames whose encoder calls [encode_frame_header] and then goes on
    at nine bytes. *)
Lemma goto_at_hit n s e : fe_encoded_bytes e = n → goto_at n s e = (with_state s e, Ok ()).
Proof. intros H. unfold goto_at. step_st. by rewrite H, Z.eqb_refl. Qed.

Lemma try_retrieve f e : fe_current_frame e = Some f → try_retrieve_current_frame e = (e, Ok f).
Proof. intros H. unfold try_retrieve_current_frame. rewrite bind_st. cbn [get_st]. by rewrite H. Qed.

(** The frame that is set goes out whole, and the encoder is done. *)
Definition writes_frame (e : FrameEncoder) (head payload buf : bytes) : Prop :=
  ∃ e', FrameEncoder_encode buf e =
    (e', Ok (head ++ payload ++ dropZ (9 + len payload) buf, 9 + len payload)) ∧
    fe_state e' = DataComplete ∧ fe_max_frame_size e' = fe_max_frame_size e.

Lemma two_steps e e1 e2 enc1 enc2 head payload buf n :
  encode_state (fe_state e) = Some enc1 → encode_state (fe_state e1) = Some enc2 →
  fe_state e1 ≠ fe_state e → fe_state e2 = DataComplete ∧ fe_max_frame_size e2 = fe_max_frame_size e →
  len head = 9 → len payload = n → 9 + n < len buf →
  enc1 buf e = (e1, Ok (head ++ dropZ 9 buf, 9)) →
  enc2 (dropZ 9 buf) e1 = (e2, Ok (payload ++ dropZ n (dropZ 9 buf), n)) →
  writes_frame e head payload buf.
Proof. intros ??? [? ?] ? <-. intros. exists e2. split; [by eapply encode_two_steps|done]. Qed.

Lemma payload_room (payload buf : bytes) :
  9 + len payload < len buf → len payload ≤ len (dropZ 9 buf) ∧ 9 ≤ len buf.
Proof. pose proof (len_nonneg payload). intros. rewrite len_dropZ by lia. lia. Qed.

(** An encoder that starts the header, or the payload, of [f]. *)
Definition at_header (f : Frame) (e : FrameEncoder) : Prop :=
  fe_current_frame e = Some f ∧ fe_encoded_bytes e = 0.
Definition at_payload (f : Frame) (e : FrameEncoder) : Prop :=
  fe_current_frame e = Some f ∧ fe_encoded_bytes e = 9.

Ltac enter H := rewrite bind_st, (try_retrieve _ _ (proj1 H)).

(** *** PRIORITY *)

Lemma priority_header_whole f x d w buf e :
  at_header f e → f_payload f = PPriority x d w → 9 ≤ len buf →
  encode_priority_frame buf e =
    (with_state EncodingPriorityPayload (with_encoded 9 e), Ok (frame_head 2 (f_flags f) (f_id f) 5 ++ dropZ 9 buf, 9)).
Proof.
  intros He Hf Hb. unfold encode_priority_frame. enter He. rewrite Hf.
  rewrite bind_st, encode_frame_header_whole by (done || apply He). by rewrite bind_st, goto_at_hit.
Qed.

Lemma priority_payload_whole f x d w buf e :
  at_payload f e → f_payload f = PPriority x d w → 5 ≤ len buf →
  encode_priority_payload buf e =
    (with_state DataComplete (with_encoded 14 e), Ok (priority_wire x d w ++ dropZ 5 buf, 5)).
Proof.
  intros He Hf Hb. pose proof He as [_ H9]. unfold encode_priority_payload. enter He. rewrite Hf, bind_st. cbn [get_st].
  rewrite H9, bind_st. change (lift_res (usize_sub 9 9) e) with (e, @Ok FrameEncoderErr Z 0). cbv iota.
  rewrite bind_st. change (lift_res (usize_sub 5 0) e) with (e, @Ok FrameEncoderErr Z 5). cbv iota zeta.
  rewrite Z.min_l by done.
  rewrite bind_st. unfold lift_res. change (saturating_sub 9 9) with 0.
  pose proof (fill_whole (priority_wire x d w) (priority_byte x d w) buf Hb (priority_byte_wire x d w)) as Hw.
  change (len (priority_wire x d w)) with 5 in Hw. rewrite Hw, bind_st. unfold add_encoded, modify_st. rewrite H9.
  by rewrite bind_st, goto_at_hit.
Qed.

(** *** RST_STREAM *)

Lemma rst_header_whole f buf e :
  at_header f e → 9 ≤ len buf →
  encode_rst_stream_frame buf e =
    (with_state EncodingRstStreamPayload (with_encoded 9 e), Ok (frame_head 3 (f_flags f) (f_id f) 4 ++ dropZ 9 buf, 9)).
Proof.
  intros He Hb. pose proof He as [_ H0]. unfold encode_rst_stream_frame. enter He. rewrite bind_st. cbn [get_st].
  rewrite H0. change (9 <=? 0) with false. cbv iota zeta. rewrite Z.sub_0_r, Z.min_l by done.
  rewrite bind_st. unfold lift_res.
  pose proof (fill_whole (frame_head 3 (f_flags f) (f_id f) 4) (rst_header_byte (f_flags f) (f_id f) 0) buf Hb
    (λ j x, rst_header_wire _ _ j x)) as Hw.
  change (len (frame_head 3 (f_flags f) (f_id f) 4)) with 9 in Hw. rewrite Hw, bind_st.
  unfold add_encoded, modify_st. rewrite H0. by rewrite bind_st, goto_at_hit.
Qed.

Lemma rst_payload_whole f c buf e :
  at_payload f e → f_payload f = PRstStream c → 4 ≤ len buf →
  encode_rst_stream_payload buf e =
    (with_state DataComplete (with_encoded 13 e), Ok (be_bytes 4 c ++ dropZ 4 buf, 4)).
Proof.
  intros He Hf Hb. pose proof He as [_ H9]. unfold encode_rst_stream_payload. enter He. rewrite Hf, bind_st. cbn [get_st].
  rewrite H9. change (9 <? 9) with false. change (4 <=? 9 - 9) with false. change (4 - (9 - 9)) with 4.
  change (9 - 9) with 0. cbv iota zeta. rewrite Z.min_l by done. rewrite bind_st. unfold lift_res.
  pose proof (fill_whole (be_bytes 4 c) (λ i, Ok (Z.land (Z.shiftr c (24 - 8 * i)) 255)) buf Hb) as Hw.
  change (len (be_bytes 4 c)) with 4 in Hw. rewrite Hw, bind_st.
  - unfold add_encoded, modify_st. rewrite H9. by rewrite bind_st, goto_at_hit.
  - intros j x Hj. apply be4_lookup in Hj as [-> _]. by rewrite land_255.
Qed.

(** *** WINDOW_UPDATE *)

Lemma window_update_header_whole f i buf e :
  at_header f e → f_payload f = PWindowUpdate i → 9 ≤ len buf →
  encode_window_update_frame buf e =
    (with_encoded 0 (with_state EncodingWindowUpdatePayload (with_encoded 9 e)),
     Ok (frame_head 8 (f_flags f) (f_id f) 4 ++ dropZ 9 buf, 9)).
Proof.
  intros He Hf Hb. unfold encode_window_update_frame. enter He. rewrite Hf.
  by rewrite bind_st, encode_frame_header_whole by (done || apply He).
Qed.

Lemma window_update_payload_whole f i buf e :
  at_header f e → f_payload f = PWindowUpdate i → 4 ≤ len buf →
  encode_window_update_payload buf e =
    (with_state DataComplete (with_encoded 4 e), Ok (be_bytes 4 i ++ dropZ 4 buf, 4)).
Proof.
  intros He Hf Hb. pose proof He as [_ H0]. unfold encode_window_update_payload. enter He. rewrite Hf, bind_st. cbn [get_st].
  rewrite H0. change (saturating_sub 0 9) with 0. change (saturating_sub 4 0) with 4. cbv zeta.
  rewrite Z.min_l by done. rewrite bind_st. unfold lift_res.
  pose proof (fill_whole (be_bytes 4 i) (λ j, Ok (wrap8 (Z.shiftr i (24 - 8 * j)))) buf Hb) as Hw.
  change (len (be_bytes 4 i)) with 4 in Hw. rewrite Hw, bind_st.
  - unfold add_encoded, modify_st. rewrite H0. by rewrite bind_st, goto_at_hit.
  - intros j x Hj. by apply be4_lookup in Hj as [-> _].
Qed.

(** *** GOAWAY *)

Lemma goaway_header_whole f c i d buf e :
  at_header f e → f_payload f = PGoaway c i d → 9 ≤ len buf →
  encode_goaway_frame buf e =
    (with_state EncodingGoawayPayload (with_encoded 9 e),
     Ok (frame_head 7 (f_flags f) (f_id f) (8 + len d) ++ dropZ 9 buf, 9)).
Proof.
  intros He Hf Hb. unfold encode_goaway_frame. enter He. rewrite Hf.
  rewrite bind_st, encode_frame_header_whole by (done || apply He). by rewrite bind_st, goto_at_hit.
Qed.

Lemma len_goaway_wire c i d : len (be_bytes 4 i ++ be_bytes 4 c ++ d) = 8 + len d.
Proof. rewrite !len_app. change (len (be_bytes 4 i)) with 4. change (len (be_bytes 4 c)) with 4. lia. Qed.

Lemma goaway_payload_whole f c i d buf e :
  at_payload f e → f_payload f = PGoaway c i d → 8 + len d ≤ len buf →
  encode_goaway_payload buf e =
    (with_state DataComplete (with_encoded (9 + (8 + len d)) e),
     Ok ((be_bytes 4 i ++ be_bytes 4 c ++ d) ++ dropZ (8 + len d) buf, 8 + len d)).
Proof.
  intros He Hf Hb. pose proof He as [_ H9]. pose proof (len_nonneg d) as Hd.
  unfold encode_goaway_payload. enter He. rewrite Hf, bind_st. cbn [get_st].
  rewrite H9. change (saturating_sub 9 9) with 0. unfold goaway_encoded_len.
  assert (saturating_sub (8 + len d) 0 = 8 + len d) as -> by (unfold saturating_sub; lia). cbv zeta.
  rewrite Z.min_l by done. destruct (Z.eqb_spec (8 + len d) 0); [lia|].
  rewrite bind_st. change (lift_res (usize_sub 9 9) e) with (e, @Ok FrameEncoderErr Z 0). cbv iota.
  rewrite bind_st. unfold lift_res.
  pose proof (fill_whole (be_bytes 4 i ++ be_bytes 4 c ++ d) (goaway_byte c i d) buf) as Hw.
  rewrite len_goaway_wire in Hw. rewrite Hw, bind_st by (done || apply goaway_byte_wire).
  unfold add_encoded, modify_st. rewrite H9. by rewrite bind_st, goto_at_hit.
Qed.

(** *** SETTINGS *)

Lemma settings_header_whole f l buf e :
  at_header f e → f_payload f = PSettings l → 9 ≤ len buf →
  encode_settings_frame buf e =
    (with_state EncodingSettingsPayload (with_encoded 9 e),
     Ok (frame_head 4 (f_flags f) 0 (len l * 6) ++ dropZ 9 buf, 9)).
Proof.
  intros He Hf Hb. pose proof He as [_ H0]. unfold encode_settings_frame. enter He. rewrite Hf, bind_st. cbn [get_st].
  rewrite H0. change (9 <=? 0) with false. cbv iota zeta. rewrite Z.sub_0_r, Z.min_l by done.
  rewrite bind_st. unfold lift_res.
  pose proof (set_each_whole (frame_head 4 (f_flags f) 0 (len l * 6)) (settings_header_item (len l * 6) (f_flags f) 0)
    buf Hb (λ j x, settings_header_wire _ _ j x)) as Hw.
  change (len (frame_head 4 (f_flags f) 0 (len l * 6))) with 9 in Hw. rewrite Hw, bind_st.
  unfold add_encoded, modify_st. rewrite H0. by rewrite bind_st, goto_at_hit.
Qed.

Lemma settings_payload_whole f l buf e :
  at_payload f e → f_payload f = PSettings l → len l * 6 ≤ len buf →
  encode_settings_payload buf e =
    (with_state DataComplete (with_encoded (9 + len l * 6) e),
     Ok ((l ≫= setting_wire) ++ dropZ (len l * 6) buf, len l * 6)).
Proof.
  intros He Hf Hb. pose proof He as [_ H9]. pose proof (len_nonneg l) as Hl.
  unfold encode_settings_payload. enter He. rewrite Hf, bind_st. cbn [get_st].
  rewrite H9. change (saturating_sub 9 9) with 0.
  assert (saturating_sub (len l * 6) 0 = len l * 6) as -> by (unfold saturating_sub; lia). cbv zeta.
  rewrite Z.min_l by done. rewrite bind_st.
  assert (lift_res (if len l * 6 =? 0 then Ok 0 else usize_sub 9 9) e = (e, @Ok FrameEncoderErr Z 0)) as ->
    by (by destruct (len l * 6 =? 0)).
  rewrite bind_st. unfold lift_res.
  pose proof (fill_whole (l ≫= setting_wire) (settings_byte l) buf) as Hw.
  rewrite len_settings_wire in Hw. rewrite Hw, bind_st by (done || apply settings_byte_wire).
  unfold add_encoded, modify_st. rewrite H9. by rewrite bind_st, goto_at_hit.
Qed.

(** *** PING *)

Lemma ping_header_whole f d buf e :
  at_header f e → f_payload f = PPing d → 9 ≤ len buf →
  encode_ping_frame buf e =
    (with_state EncodingPingPayload (with_encoded 9 e), Ok (frame_head 6 (f_flags f) 0 8 ++ dropZ 9 buf, 9)).
Proof.
  intros He Hf Hb. pose proof He as [_ H0]. unfold encode_ping_frame. enter He. rewrite Hf, bind_st. cbn [get_st].
  rewrite H0. change (9 <=? 0) with false. cbv iota zeta. rewrite Z.sub_0_r, Z.min_l by done.
  rewrite bind_st. unfold lift_res.
  pose proof (set_each_whole (frame_head 6 (f_flags f) 0 8) (ping_header_item (f_flags f) 0)
    buf Hb (λ j x, ping_header_wire _ j x)) as Hw.
  change (len (frame_head 6 (f_flags f) 0 8)) with 9 in Hw. rewrite Hw, bind_st.
  unfold add_encoded, modify_st. rewrite H0. by rewrite bind_st, goto_at_hit.
Qed.

Lemma ping_payload_whole f d buf e :
  at_payload f e → f_payload f = PPing d → len d = 8 → 8 ≤ len buf →
  encode_ping_payload buf e =
    (with_state DataComplete (with_encoded 17 e), Ok (d ++ dropZ 8 buf, 8)).
Proof.
  intros He Hf Hd Hb. pose proof He as [_ H9]. unfold encode_ping_payload. enter He. rewrite Hf, bind_st. cbn [get_st].
  rewrite H9. change (saturating_sub 9 9) with 0. change (saturating_sub 8 0) with 8. cbv zeta.
  rewrite Z.min_l by done. rewrite bind_st. unfold lift_res.
  pose proof (fill_whole d (λ i, match d !! Z.to_nat i with Some b => Ok b | None => Panic end) buf) as Hw.
  rewrite Hd in Hw. rewrite Hw, bind_st.
  - unfold add_encoded, modify_st. rewrite H9. by rewrite bind_st, goto_at_hit.
  - done.
  - intros j x Hj. rewrite Nat2Z.id. by rewrite Hj.
Qed.

(** *** DATA *)

Lemma data_header_whole f d buf e :
  at_header f e → f_payload f = PData d → fe_remaining_payload_bytes e = len d → len d ≤ fe_max_frame_size e →
  9 ≤ len buf →
  encode_data_header buf e =
    (with_state EncodingDataPayload (with_encoded 0 (with_encoded 9 e)),
     Ok (frame_head 0 (f_flags f) (f_id f) (len d) ++ dropZ 9 buf, 9)).
Proof.
  intros He Hf Hr Hmax Hb. unfold encode_data_header. enter He. rewrite Hf, bind_st. cbn [get_st].
  unfold data_header_byte. rewrite Hr, Z.min_l, Hf by done.
  destruct (Z.leb_spec (len d) (fe_max_frame_size e)); [|lia].
  by rewrite bind_st, encode_frame_header_whole by (done || apply He).
Qed.

Lemma data_payload_whole f d buf e :
  fe_current_frame e = Some f → f_payload f = PData d → fe_data_offset e = 0 →
  fe_remaining_payload_bytes e = len d → len d ≤ fe_max_frame_size e → len d ≤ len buf →
  encode_data_payload buf e =
    (with_state DataComplete (with_data 0 0 e), Ok (d ++ dropZ (len d) buf, len d)).
Proof.
  intros He Hf Ho Hr Hmax Hb. pose proof (len_nonneg d) as Hd.
  unfold encode_data_payload. rewrite bind_st, (try_retrieve f), Hf, bind_st by done. cbn [get_st].
  rewrite bind_st. unfold lift_res, encode_slice. rewrite Ho, Hr. unfold usize_sub.
  destruct (Z.leb_spec 0 (fe_max_frame_size e)); [|lia]. unfold mbind, result_mbind, result_bind.
  rewrite Z.sub_0_r, (Z.min_r _ (len d)), (Z.min_l (len d)), Z.add_0_l by lia.
  destruct (Z.ltb_spec (len d) (len d)); [lia|]. rewrite dropZ_0, takeZ_all by lia.
  fold (@mbind (ST FrameEncoder FrameEncoderErr) _). rewrite Z.sub_diag. reflexivity.
Qed.

(** *** Any of them *)

(** The state that [set_frame] goes to. *)
Definition start_state (p : Payload) : FrameEncoderState :=
  match p with
  | PHeaders _ => EncodingHeadersFrame
  | PData _ => EncodingDataHeader
  | PPriority _ _ _ => EncodingPriorityFrame
  | PRstStream _ => EncodingRstStreamFrame
  | PPing _ => EncodingPingFrame
  | PSettings _ => EncodingSettingsFrame
  | PGoaway _ _ _ => EncodingGoawayFrame
  | PWindowUpdate _ => EncodingWindowUpdateFrame
  | PPushPromise _ _ => Idle
  end.

Definition set_plain (f : Frame) (e : FrameEncoder) : FrameEncoder :=
  with_state (start_state (f_payload f))
    (match f_payload f with PData d => with_data 0 (len d) (framed f e) | _ => framed f e end).

Lemma set_frame_plain order f e :
  plain_payload (fe_max_frame_size e) (f_payload f) → set_frame order f e = (set_plain f e, Ok ()).
Proof.
  intros Hp. unfold set_frame, set_plain. rewrite bind_st. cbn [modify_st].
  by destruct (f_payload f).
Qed.

Lemma set_plain_at_header f e : at_header f (set_plain f e).
Proof. unfold set_plain. by destruct (f_payload f). Qed.

Ltac plain_side :=
  try done; try apply len_settings_wire; try apply len_goaway_wire;
  try (match goal with H : fe_state _ = _ |- _ => by rewrite H end);
  try (match goal with H : at_header _ _ |- _ => by destruct H end);
  try (unfold set_plain; match goal with H : f_payload _ = _ |- _ => by rewrite H end).

Lemma plain_writes f e buf :
  plain_payload (fe_max_frame_size e) (f_payload f) → 9 + len (payload_wire (f_payload f)) < len buf →
  writes_frame (set_plain f e)
    (frame_head (frame_type_code (frame_type (f_payload f))) (f_flags f) (wire_id (f_payload f) (f_id f))
       (len (payload_wire (f_payload f))))
    (payload_wire (f_payload f)) buf.
Proof.
  intros Hp Hb. destruct (payload_room _ _ Hb) as [Hroom H9].
  pose proof (set_plain_at_header f e) as Hat.
  assert (fe_state (set_plain f e) = start_state (f_payload f)) as Hst by done.
  destruct (f_payload f) as [p|d|x dep w|c|d|l|c i d|i|pid p] eqn:Ef; try done;
    cbn [payload_wire frame_type frame_type_code wire_id start_state plain_payload] in *;
    rewrite ?Hp, ?len_settings_wire, ?len_goaway_wire in *.
  - unshelve refine (two_steps _ _ _ _ _ _ _ _ _ _ _ _ _ _ _ Hb (data_header_whole f d buf _ Hat Ef _ _ H9)
      (data_payload_whole f d _ _ _ Ef _ _ _ Hroom)); plain_side.
  - unshelve refine (two_steps _ _ _ _ _ _ _ _ _ _ _ _ _ _ _ Hb (priority_header_whole f x dep w buf _ Hat Ef H9)
      (priority_payload_whole f x dep w _ _ _ Ef Hroom)); plain_side.
  - unshelve refine (two_steps _ _ _ _ _ _ _ _ _ _ _ _ _ _ _ Hb (rst_header_whole f buf _ Hat H9)
      (rst_payload_whole f c _ _ _ Ef Hroom)); plain_side.
  - unshelve refine (two_steps _ _ _ _ _ _ _ _ _ _ _ _ _ _ _ Hb (ping_header_whole f d buf _ Hat Ef H9)
      (ping_payload_whole f d _ _ _ Ef Hp Hroom)); plain_side.
  - unshelve refine (two_steps _ _ _ _ _ _ _ _ _ _ _ _ _ _ _ Hb (settings_header_whole f l buf _ Hat Ef H9)
      (settings_payload_whole f l _ _ _ Ef Hroom)); plain_side.
  - unshelve refine (two_steps _ _ _ _ _ _ _ _ _ _ _ _ _ _ _ Hb (goaway_header_whole f c i d buf _ Hat Ef H9)
      (goaway_payload_whole f c i d _ _ _ Ef Hroom)); plain_side.
  - unshelve refine (two_steps _ _ _ _ _ _ _ _ _ _ _ _ _ _ _ Hb (window_update_header_whole f i buf _ Hat Ef H9)
      (window_update_payload_whole f i _ _ _ Ef Hroom)); plain_side.
Qed.

(** a frame without a field block (DATA of at most [max_frame_size] bytes,
    PRIORITY, RST_STREAM, SETTINGS, PING, GOAWAY, WINDOW_UPDATE), set in an
    encoder in any state and encoded into a buffer with room to spare, is written
    in the layout of RFC 9113: header of nine bytes, then the payload; the rest of
    the buffer is left alone, the number of bytes is returned and the encoder is
    done. *)
Theorem encode_frame_spec (order : Headers → list (bytes * HeaderValue)) (f : Frame) (e : FrameEncoder)
    (buf : bytes) (Hp : plain_payload (fe_max_frame_size e) (f_payload f))
    (Hb : 9 + len (payload_wire (f_payload f)) < len buf) :
  ∃ e', (_ ← set_frame order f; FrameEncoder_encode buf) e =
    (e', Ok (frame_wire (frame_type_code (frame_type (f_payload f))) (f_flags f)
               (wire_id (f_payload f) (f_id f)) (payload_wire (f_payload f))
               ++ dropZ (9 + len (payload_wire (f_payload f))) buf,
             9 + len (payload_wire (f_payload f)))) ∧
    fe_state e' = DataComplete.
Proof.
  rewrite bind_st, set_frame_plain by done.
  destruct (plain_writes f e buf Hp Hb) as (e' & E & Hs & _). exists e'. split; [|done].
  rewrite E. unfold frame_wire. by rewrite <- app_assoc.
Qed.

(** An order for the witnesses: the one of the map. *)
Definition map_order (m : Headers) : list (bytes * HeaderValue) := map_to_list m.

Definition goaway_frame : Frame := mkFrame 0 0 (PGoaway 2 1 [1; 2; 3]).

Lemma encode_frame_spec_witness :
  ∃ e', (_ ← set_frame map_order goaway_frame; FrameEncoder_encode (replicate 30 7)) (FrameEncoder_new 16384 true) =
    (e', Ok ([0; 0; 11; 7; 0; 0; 0; 0; 0; 0; 0; 0; 1; 0; 0; 0; 2; 1; 2; 3] ++ replicate 10 7, 20)) ∧
    fe_state e' = DataComplete.
Proof.
  refine (encode_frame_spec map_order goaway_frame (FrameEncoder_new 16384 true) (replicate 30 7) _ _).
  - exact I.
  - reflexivity.
Defined.

(** ** DATA longer than a frame *)

(** One turn of the loop that writes [piece] behind [out]. *)
Lemma encode_loop_write fuel out buf e enc e' piece :
  len out < len buf → encode_state (fe_state e) = Some enc →
  enc (dropZ (len out) buf) e = (e', Ok (piece ++ dropZ (len piece) (dropZ (len out) buf), len piece)) →
  fe_state e' ≠ fe_state e →
  encode_loop (S fuel) (len out) (out ++ dropZ (len out) buf) e =
    encode_loop fuel (len (out ++ piece)) ((out ++ piece) ++ dropZ (len (out ++ piece)) buf) e'.
Proof.
  intros Ho Hs He Hne. pose proof (len_nonneg out). pose proof (len_nonneg piece).
  rewrite (encode_loop_step _ _ _ e enc e' (piece ++ dropZ (len piece) (dropZ (len out) buf)) (len piece));
    [|rewrite len_app, len_dropZ by lia; lia|done|by rewrite dropZ_app_len|done].
  by rewrite takeZ_app_len, len_app, dropZ_dropZ, app_assoc by done.
Qed.

Lemma data_header_turn f d r buf e :
  at_header f e → f_payload f = PData d → fe_remaining_payload_bytes e = r → 9 ≤ len buf →
  let m := fe_max_frame_size e in
  encode_data_header buf e =
    (with_state EncodingDataPayload (with_encoded 0 (with_encoded 9 e)),
     Ok (frame_head 0 (if r <=? m then f_flags f else Z.land (f_flags f) 0xFE) (f_id f) (Z.min r m)
           ++ dropZ 9 buf, 9)).
Proof.
  intros He Hf <- Hb m. unfold encode_data_header. enter He. rewrite Hf, bind_st. cbn [get_st].
  unfold data_header_byte. rewrite Hf.
  by rewrite bind_st, encode_frame_header_whole by (done || apply He).
Qed.

Lemma data_payload_turn f d r buf e :
  fe_current_frame e = Some f → f_payload f = PData d → fe_data_offset e = 0 →
  fe_remaining_payload_bytes e = r → 0 < fe_max_frame_size e → 0 ≤ r ≤ len d →
  let n := Z.min r (fe_max_frame_size e) in
  n ≤ len buf →
  encode_data_payload buf e =
    ((if r <=? fe_max_frame_size e then with_state DataComplete (with_data 0 0 e)
      else with_state EncodingDataHeader (with_data 0 (r - n) e)),
     Ok (takeZ n d ++ dropZ n buf, n)).
Proof.
  intros He Hf Ho Hr Hm Hrd n Hb.
  unfold encode_data_payload. rewrite bind_st, (try_retrieve f), Hf, bind_st by done. cbn [get_st].
  rewrite bind_st. unfold lift_res, encode_slice. rewrite Ho, Hr. unfold usize_sub.
  destruct (Z.leb_spec 0 (fe_max_frame_size e)); [|lia]. unfold mbind at 1, result_mbind, result_bind.
  rewrite Z.sub_0_r, Z.add_0_l, (Z.min_comm _ r). fold n. rewrite (Z.min_l n) by lia.
  destruct (Z.ltb_spec (len d) n); [lia|]. rewrite dropZ_0. cbv iota beta.
  rewrite len_takeZ, Z.add_0_l by lia. rewrite bind_st. unfold put_st. cbn [mret ST_ret].
  destruct (Z.leb_spec r (fe_max_frame_size e)).
  - replace (r - n) with 0 by lia. done.
  - destruct (Z.eqb_spec (r - n) 0); [lia|]. by destruct (Z.eqb_spec n (fe_max_frame_size e)); [|lia].
Qed.

(** Two turns that write a DATA frame behind [out]. *)
Definition data_turns (r : Z) (e : FrameEncoder) : FrameEncoder :=
  let m := fe_max_frame_size e in
  let e := with_state EncodingDataPayload (with_encoded 0 (with_encoded 9 e)) in
  if r <=? m then with_state DataComplete (with_data 0 0 e)
  else with_state EncodingDataHeader (with_data 0 (r - Z.min r m) e).

Lemma data_frame_turns fuel out f d r buf e :
  fe_state e = EncodingDataHeader → at_header f e → f_payload f = PData d → fe_data_offset e = 0 →
  fe_remaining_payload_bytes e = r → 0 < fe_max_frame_size e → 0 ≤ r ≤ len d →
  let m := fe_max_frame_size e in
  len out + 9 + Z.min r m < len buf →
  let piece := frame_wire 0 (if r <=? m then f_flags f else Z.land (f_flags f) 0xFE) (f_id f)
    (takeZ (Z.min r m) d) in
  encode_loop (S (S fuel)) (len out) (out ++ dropZ (len out) buf) e =
    encode_loop fuel (len (out ++ piece)) ((out ++ piece) ++ dropZ (len (out ++ piece)) buf) (data_turns r e).
Proof.
  intros Hs He Hf Ho Hr Hm Hrd m Hb piece. pose proof (len_nonneg out) as Hno.
  assert (len (takeZ (Z.min r m) d) = Z.min r m) as Hlt by (apply len_takeZ; lia).
  set (h := frame_head 0 (if r <=? m then f_flags f else Z.land (f_flags f) 0xFE) (f_id f) (Z.min r m)).
  assert (len h = 9) as Hh by apply len_frame_head.
  assert (piece = h ++ takeZ (Z.min r m) d) as -> by (unfold piece, frame_wire, h; by rewrite Hlt).
  rewrite (encode_loop_write (S fuel) out buf e encode_data_header
    (with_state EncodingDataPayload (with_encoded 0 (with_encoded 9 e))) h);
    [|lia|by rewrite Hs| |by rewrite Hs].
  2:{ rewrite Hh. apply (data_header_turn f d r); try done. rewrite len_dropZ by lia. lia. }
  rewrite app_assoc. apply (encode_loop_write fuel (out ++ h) buf _ encode_data_payload);
    [rewrite len_app; lia|done| |unfold data_turns; by destruct (_ <=? _)].
  rewrite Hlt. apply (data_payload_turn f d r); try done; [apply He|].
  rewrite len_dropZ; rewrite len_app; cbn [fe_max_frame_size with_state with_encoded]; subst m; lia.
Qed.

(** DATA longer than [max_frame_size], up to twice, is written as two DATA
    frames of the right lengths, the first without END_STREAM, but the payload
    of the second starts again at the first byte of the data: the bytes from
    [max_frame_size] on are never sent. *)
Theorem data_split_repeats (order : Headers → list (bytes * HeaderValue)) (f : Frame) (d : bytes)
    (e : FrameEncoder) (buf : bytes) (Hf : f_payload f = PData d)
    (Hm : 0 < fe_max_frame_size e < len d) (H2m : len d ≤ 2 * fe_max_frame_size e)
    (Hb : 18 + len d < len buf) :
  let m := fe_max_frame_size e in
  ∃ e', (_ ← set_frame order f; FrameEncoder_encode buf) e =
    (e', Ok (frame_wire 0 (Z.land (f_flags f) 0xFE) (f_id f) (takeZ m d) ++
             frame_wire 0 (f_flags f) (f_id f) (takeZ (len d - m) d) ++ dropZ (18 + len d) buf,
             18 + len d)) ∧
    fe_state e' = DataComplete.
Proof.
  intros m. rewrite bind_st. unfold set_frame. rewrite bind_st. cbn [modify_st]. rewrite Hf, bind_st.
  unfold goto. cbn [modify_st]. unfold FrameEncoder_encode, encode_fuel.
  replace (2 * length buf + 4)%nat with (S (S (S (S (S (2 * length buf - 1)))))) by (unfold len in *; lia).
  set (e0 := with_state _ _). change (encode_loop ?n 0 buf e0) with (encode_loop n (len (@nil Z)) ([] ++ dropZ (len (@nil Z)) buf) e0).
  rewrite (data_frame_turns _ [] f d (len d) buf e0); [|done..|cbn; lia|lia|change (len []) with 0; cbn; lia].
  change (fe_max_frame_size e0) with m. cbn [app]. rewrite Z.min_r by (subst m; lia).
  set (p1 := frame_wire _ _ _ _).
  assert (len p1 = 9 + m) as Hp1
    by (unfold p1, frame_wire; rewrite len_app, len_frame_head, len_takeZ; subst m; lia).
  assert (data_turns (len d) e0 = with_state EncodingDataHeader (with_data 0 (len d - m)
    (with_state EncodingDataPayload (with_encoded 0 (with_encoded 9 e0))))) as ->.
  { unfold data_turns. change (fe_max_frame_size e0) with m.
    destruct (Z.leb_spec (len d) m); [subst m; lia|]. by rewrite Z.min_r by lia. }
  set (e1 := with_state _ (with_data _ _ _)).
  rewrite (data_frame_turns _ p1 f d (len d - m) buf e1); [|done..|subst m; cbn in *; lia|subst m; cbn in *; lia|].
  2:{ rewrite Hp1. subst m. cbn in *. lia. }
  change (fe_max_frame_size e1) with m. rewrite Z.min_l by (subst m; cbn in *; lia).
  set (p2 := frame_wire _ _ _ _).
  assert (len (p1 ++ p2) = 18 + len d) as Hp2.
  { rewrite len_app, Hp1. unfold p2, frame_wire. rewrite len_app, len_frame_head, len_takeZ; subst m; cbn in *; lia. }
  assert (fe_state (data_turns (len d - m) e1) = DataComplete) as Hs.
  { unfold data_turns. change (fe_max_frame_size e1) with m. by destruct (Z.leb_spec (len d - m) m); [|subst m; cbn in *; lia]. }
  rewrite encode_loop_stop by (by rewrite Hs). eexists. split; [|exact Hs].
  rewrite Hp2, <- app_assoc. unfold p1, p2.
  destruct (Z.leb_spec (len d) m), (Z.leb_spec (len d - m) m); try (subst m; cbn in *; lia). done.
Qed.

Lemma data_split_repeats_witness :
  ∃ e', (_ ← set_frame map_order (mkFrame 1 1 (PData [1; 2; 3; 4; 5; 6])); FrameEncoder_encode (replicate 30 0))
      (FrameEncoder_new 4 true) =
    (e', Ok ([0; 0; 4; 0; 0; 0; 0; 0; 1; 1; 2; 3; 4] ++ [0; 0; 2; 0; 1; 0; 0; 0; 1; 1; 2] ++ replicate 6 0, 24)) ∧
    fe_state e' = DataComplete.
Proof.
  exact (data_split_repeats map_order (mkFrame 1 1 (PData [1; 2; 3; 4; 5; 6])) [1; 2; 3; 4; 5; 6]
    (FrameEncoder_new 4 true) (replicate 30 0) eq_refl (conj eq_refl eq_refl)
    ltac:(vm_compute; discriminate) eq_refl).
Defined.

(** ** Frames cut by a buffer

    Small cases of frames that do not go on as they should in the next buffer. *)

(** The outcome of two calls of [encode] for a frame, with the state after. *)
Definition encode_twice (f : Frame) (buf1 buf2 : bytes) :
    FrameEncoderState * result FrameEncoderErr (bytes * Z) :=
  let '(e, r) := (_ ← set_frame map_order f; _ ← FrameEncoder_encode buf1; FrameEncoder_encode buf2)
                   (FrameEncoder_new 16384 true) in
  (fe_state e, r).

(** WINDOW_UPDATE: the increment starts again, and the encoder is not done. *)
Example window_update_resumed :
  encode_twice (mkFrame 1 0 (PWindowUpdate 0x01020304)) (replicate 11 0) (replicate 5 9) =
    (EncodingWindowUpdatePayload, Ok ([1; 2; 3; 4; 9], 4)).
Proof. vm_compute. reflexivity. Qed.

(** PING: two bytes of the buffer stay, and the type and the flags are lost. *)
Example ping_header_resumed :
  encode_twice (mkFrame 0 1 (PPing [1; 2; 3; 4; 5; 6; 7; 8])) (replicate 3 0) (replicate 15 9) =
    (DataComplete, Ok ([9; 9; 0; 0; 0; 0; 1; 2; 3; 4; 5; 6; 7; 8; 9], 14)).
Proof. vm_compute. reflexivity. Qed.

(** SETTINGS: likewise. *)
Example settings_header_resumed :
  encode_twice (mkFrame 0 0 (PSettings [EnablePush true])) (replicate 3 0) (replicate 13 9) =
    (DataComplete, Ok ([9; 9; 0; 0; 0; 0; 0; 2; 0; 0; 0; 1; 9], 12)).
Proof. vm_compute. reflexivity. Qed.

(** RST_STREAM: [buf_index - 5] goes below zero. *)
Example rst_stream_header_resumed :
  (encode_twice (mkFrame 1 0 (PRstStream 8)) (replicate 3 0) (replicate 13 9)).2 = Panic.
Proof. vm_compute. reflexivity. Qed.

(** PRIORITY and GOAWAY do go on. *)
Example priority_resumed :
  (encode_twice (mkFrame 1 0 (PPriority true 3 15)) (replicate 10 0) (replicate 4 9)).2 =
    Ok ([0; 0; 3; 15], 4).
Proof. vm_compute. reflexivity. Qed.
