(* ===== verification/FrameRoundtrip.v ===== *)
(** * What the frame encoder writes, the frame decoder reads

    The two machines of [FrameEncoder.v] and [FrameDecoder.v] put together:
    every frame without a field block, and HEADERS, whose block goes through the
    two HPACK machines. *)

From S2P Require Import Prelude H2Error HpackTable HpackRepr Headers Parts HpackDecoder HpackEncoder.
From S2P Require Import H2Frame FrameDecoder FrameEncoder.
#[local] Open Scope Z_scope.

(** ** Round trip *)

(** The frames without padding and without a field block that RFC 9113 allows, on the
    streams where it allows them, that fit the 32-bit fields. *)
Definition sendable (f : Frame) : Prop :=
  is_byte (f_flags f) ∧ 0 ≤ f_id f < 2 ^ 31 ∧
  match f_payload f with
  | PHeaders _ | PPushPromise _ _ => False
  | PData data => f_id f ≠ 0 ∧ is_padded (f_flags f) = false ∧ Forall is_byte data
  | PPriority _ dep weight => f_id f ≠ 0 ∧ 0 ≤ dep < 2 ^ 31 ∧ is_byte weight
  | PRstStream code => f_id f ≠ 0 ∧ 0 ≤ code < 2 ^ 32
  | PPing data => f_id f = 0 ∧ len data = 8 ∧ Forall is_byte data
  | PSettings settings =>
      f_id f = 0 ∧ (is_ack (f_flags f) = true → settings = []) ∧
      Forall (λ s, setting_ok s ∧ 0 ≤ setting_value s < 2 ^ 32) settings
  | PGoaway code last debug => f_id f = 0 ∧ 0 ≤ code < 2 ^ 32 ∧ 0 ≤ last < 2 ^ 31 ∧ Forall is_byte debug
  | PWindowUpdate increment => 0 < increment < 2 ^ 31
  end.

Lemma priority_first_byte x y :
  let b := Z.lor (if x : bool then 0x80 else 0) (Z.land y 0x7F) in
  (Z.land b 0x80 =? 0x80) = x ∧ Z.land b 0x7F = Z.land y 0x7F.
Proof.
  intros b. subst b. rewrite !Z.land_lor_distr_l, <- !Z.land_assoc.
  change (Z.land 0x7F 0x80) with 0. change (Z.land 0x7F 0x7F) with 0x7F. rewrite Z.land_0_r, Z.lor_0_r.
  by destruct x.
Qed.

Lemma get_stream_id_priority x dep weight :
  0 ≤ dep < 2 ^ 31 → get_stream_id (priority_wire x dep weight) = dep.
Proof.
  intros Hd. rewrite <- (get_stream_id_be dep [weight]) at 2 by done. rewrite be_bytes_4.
  unfold get_stream_id. cbn [byte_at nth app priority_wire be_bytes Z.of_nat].
  rewrite (proj2 (priority_first_byte x (Z.shiftr dep 24))).
  assert (Z.land (Z.shiftr dep 24 mod 256) 127 = Z.land (Z.shiftr dep 24) 127) as ->.
  { by rewrite <- land_255, <- Z.land_assoc. }
  by rewrite Z.shiftr_0_r.
Qed.

Lemma get_setting_value s : setting_ok s → get_setting (setting_identifier s) (setting_value s) = Ok (Some s).
Proof.
  destruct s as [n|[]|n|n|n|n]; cbn [setting_ok setting_identifier setting_value get_setting]; intros H; try done.
  - by destruct (Z.ltb_spec MAX_INITIAL_WINDOW_SIZE n); [lia|].
  - unfold allowed_max_frame_size.
    by destruct (Z.leb_spec DEFAULT_MAX_FRAME_SIZE n), (Z.leb_spec n MAX_ALLOWED_MAX_FRAME_SIZE); try lia.
Qed.

Lemma split_setting_wire s rest :
  setting_ok s → 0 ≤ setting_value s < 2 ^ 32 →
  split_token_to_setting (take 6 (setting_wire s ++ rest)) = Ok (Some s).
Proof.
  intros Hs Hv. rewrite <- (get_setting_value s Hs). unfold split_token_to_setting.
  change (drop 2 (take 6 (setting_wire s ++ rest))) with (be_bytes 4 (setting_value s) ++ []).
  rewrite get_code_value_be by done. f_equal. by destruct s.
Qed.

Lemma settings_of_wire l fuel :
  Forall (λ s, setting_ok s ∧ 0 ≤ setting_value s < 2 ^ 32) l → (length l ≤ fuel)%nat →
  settings_of_chunks fuel (l ≫= setting_wire) = Ok l.
Proof.
  intros Hl. revert fuel. induction Hl as [|s l [Hs Hv] Hl IH]; intros fuel Hf; [by destruct fuel|].
  destruct fuel as [|fuel]; [cbn in Hf; lia|].
  change ((s :: l) ≫= setting_wire) with (setting_wire s ++ (l ≫= setting_wire)).
  pose proof (split_setting_wire s (l ≫= setting_wire) Hs Hv) as Ht.
  assert ((len (setting_wire s ++ (l ≫= setting_wire)) <? 6) = false) as Hlen.
  { rewrite len_app. pose proof (len_nonneg (l ≫= setting_wire)). change (len (setting_wire s)) with 6. lia. }
  change (drop 6 (setting_wire s ++ (l ≫= setting_wire))) with (l ≫= setting_wire) in *.
  specialize (IH fuel ltac:(cbn in Hf; lia)).
  destruct (setting_wire s ++ (l ≫= setting_wire)) as [|x r] eqn:E; [discriminate|].
  cbn [settings_of_chunks]. rewrite Hlen, Ht. unfold mbind, result_mbind, result_bind.
  assert (drop 6 (x :: r) = l ≫= setting_wire) as -> by (by rewrite <- E). by rewrite IH.
Qed.

Lemma priority_first_is_byte x y : is_byte (Z.lor (if x : bool then 0x80 else 0) (Z.land y 0x7F)).
Proof.
  assert (0 ≤ Z.land y 0x7F < 128) as Hy
    by (change 0x7F with (Z.ones 7); rewrite Z.land_ones by lia; apply Z.mod_pos_bound; lia).
  rewrite (lor_add _ _ 7) by (destruct x; done || lia). destruct x; split; lia.
Qed.

Lemma settings_wire_bytes l : Forall is_byte (l ≫= setting_wire).
Proof.
  induction l as [|s l IH]; [constructor|].
  change ((s :: l) ≫= setting_wire) with (setting_wire s ++ (l ≫= setting_wire)).
  apply Forall_app. split; [apply Forall_app; split; apply be_bytes_byte|done].
Qed.

Lemma payload_wire_bytes f : sendable f → Forall is_byte (payload_wire (f_payload f)).
Proof.
  intros (_ & _ & H). destruct (f_payload f) as [p|d|x dep w|c|d|l|c i d|i|pid p]; cbn [payload_wire];
    try done; try apply be_bytes_byte; try apply settings_wire_bytes; destruct_and?; auto.
  - constructor; [apply priority_first_is_byte|]. apply Forall_app. split; [apply be_bytes_byte|by constructor].
  - rewrite !Forall_app. split_and!; [apply be_bytes_byte..|done].
Qed.

(** The decoder, on the payload of a frame that it was sent. *)
Definition reads_back (f : Frame) (t : Z) (p : bytes) (d : FrameDecoder) : Prop :=
  decode_payload_of_type t p (in_payload t (f_flags f) (f_id f) (len p) d) =
    (in_payload t (f_flags f) (f_id f) (len p) d, Ok (Complete f)).

Lemma reads_frame id flags p t w d :
  decode_payload_of_type t w (in_payload t flags id (len w) d) =
    (in_payload t flags id (len w) d, Ok (Complete (mkFrame id flags p))) →
  reads_back (mkFrame id flags p) t w d.
Proof. done. Qed.

Ltac read_header := rewrite bind_st; cbn [get_header fd_header in_payload set_stage set_header
  fh_payload_length fh_flags fh_stream_id fh_frame_type].

Lemma reads_data id flags data d :
  idle d → id ≠ 0 → is_padded flags = false → reads_back (mkFrame id flags (PData data)) 0 data d.
Proof.
  intros Hi Hid Hpad. apply reads_frame. cbn [decode_payload_of_type]. unfold decode_data_payload.
  rewrite bind_st, reject_stream_0_ok, bind_st, join_idle by (done || apply Hi).
  unfold data_payload. read_header. destruct (Z.eqb_spec (len data) 0) as [E|E].
  - by rewrite (len_0_nil _ E).
  - pose proof (len_nonneg data). rewrite Hpad, bind_st, slice_st, Z.sub_0_r, dropZ_0, takeZ_all by lia. done.
Qed.

Lemma reads_priority id flags x dep w d :
  idle d → id ≠ 0 → 0 ≤ dep < 2 ^ 31 →
  reads_back (mkFrame id flags (PPriority x dep w)) 2 (priority_wire x dep w) d.
Proof.
  intros Hi Hid Hdep. apply reads_frame. cbn [decode_payload_of_type]. unfold decode_priority_payload.
  rewrite bind_st, reject_stream_0_ok by done. read_header.
  change (len (priority_wire x dep w)) with 5. cbn [negb orb Z.eqb Pos.eqb].
  rewrite bind_st, join_idle, priority_payload_ok by (done || apply Hi). rewrite get_stream_id_priority by done.
  unfold priority_wire at 1. cbn [byte_at nth].
  by rewrite (proj1 (priority_first_byte x (Z.shiftr dep 24))).
Qed.

Lemma be_bytes_nil n x : be_bytes n x = be_bytes n x ++ [].
Proof. by rewrite app_nil_r. Qed.

Lemma reads_rst id flags code d :
  idle d → id ≠ 0 → 0 ≤ code < 2 ^ 32 → reads_back (mkFrame id flags (PRstStream code)) 3 (be_bytes 4 code) d.
Proof.
  intros Hi Hid Hc. apply reads_frame. cbn [decode_payload_of_type]. unfold decode_reset_payload.
  rewrite bind_st, reject_stream_0_ok, bind_st, join_idle by (done || apply Hi).
  unfold reset_payload. read_header. change (len (be_bytes 4 code)) with 4. cbn [negb orb Z.eqb Pos.eqb].
  rewrite bind_st, slice_st, dropZ_0, takeZ_all by (change (len (be_bytes 4 code)) with 4; lia).
  by rewrite (be_bytes_nil 4 code), get_code_value_be.
Qed.

Lemma reads_ping flags data d :
  idle d → len data = 8 → reads_back (mkFrame 0 flags (PPing data)) 6 data d.
Proof.
  intros Hi Hl. apply reads_frame. cbn [decode_payload_of_type]. unfold decode_ping_payload.
  rewrite bind_st, require_stream_0_ok, bind_st, join_idle by (done || apply Hi).
  unfold ping_payload. read_header. by rewrite Hl.
Qed.

Lemma reads_settings flags l d :
  idle d → (is_ack flags = true → l = []) → Forall (λ s, setting_ok s ∧ 0 ≤ setting_value s < 2 ^ 32) l →
  reads_back (mkFrame 0 flags (PSettings l)) 4 (l ≫= setting_wire) d.
Proof.
  intros Hi Ha Hl. apply reads_frame. cbn [decode_payload_of_type]. unfold decode_settings_payload.
  rewrite bind_st, require_stream_0_ok, bind_st, join_idle by (done || apply Hi).
  unfold settings_payload. read_header. rewrite len_settings_wire, Z.mod_mul by lia. cbn [negb Z.eqb].
  destruct (is_ack flags) eqn:Ea; [by rewrite Ha|].
  rewrite bind_st, settings_of_wire; [done|done|].
  pose proof (len_settings_wire l). unfold len in *. lia.
Qed.

Lemma reads_goaway flags code last debug d :
  idle d → 0 ≤ code < 2 ^ 32 → 0 ≤ last < 2 ^ 31 →
  reads_back (mkFrame 0 flags (PGoaway code last debug)) 7 (be_bytes 4 last ++ be_bytes 4 code ++ debug) d.
Proof.
  intros Hi Hc Hl. apply reads_frame. cbn [decode_payload_of_type]. unfold decode_goaway_payload.
  rewrite bind_st, require_stream_0_ok, bind_st, join_idle by (done || apply Hi).
  unfold goaway_payload. read_header. rewrite len_goaway_wire. pose proof (len_nonneg debug).
  destruct (Z.ltb_spec (8 + len debug) 8); [lia|]. cbn [orb].
  rewrite bind_st, slice_st by (rewrite ?len_goaway_wire; lia).
  rewrite bind_st, slice_st by (rewrite ?len_goaway_wire; lia).
  rewrite bind_st, slice_st by (rewrite ?len_goaway_wire; lia).
  change (takeZ (4 - 0) (dropZ 0 (be_bytes 4 last ++ be_bytes 4 code ++ debug))) with (be_bytes 4 last ++ []).
  change (takeZ (8 - 4) (dropZ 4 (be_bytes 4 last ++ be_bytes 4 code ++ debug))) with (be_bytes 4 code ++ []).
  change (dropZ 8 (be_bytes 4 last ++ be_bytes 4 code ++ debug)) with debug.
  rewrite takeZ_all by lia. by rewrite get_code_value_be, get_stream_id_be.
Qed.

Lemma reads_window_update id flags i d :
  idle d → 0 < i < 2 ^ 31 → reads_back (mkFrame id flags (PWindowUpdate i)) 8 (be_bytes 4 i) d.
Proof.
  intros Hi Hinc. apply reads_frame. cbn [decode_payload_of_type]. unfold decode_window_update_payload.
  rewrite bind_st, join_idle by apply Hi. unfold window_update_payload. read_header.
  change (len (be_bytes 4 i)) with 4. cbn [negb orb Z.eqb Pos.eqb].
  rewrite (be_bytes_nil 4 i), get_stream_id_be by lia. by destruct (Z.eqb_spec i 0); [lia|].
Qed.

Lemma sendable_reads f d :
  idle d → sendable f →
  wire_id (f_payload f) (f_id f) = f_id f ∧
  reads_back f (frame_type_code (frame_type (f_payload f))) (payload_wire (f_payload f)) d.
Proof.
  intros Hi (_ & _ & H). destruct f as [id flags p]. cbn [f_payload f_flags f_id] in *.
  destruct p as [p|data|x dep w|c|data|l|c i db|i|pid p]; cbn [payload_wire wire_id frame_type frame_type_code];
    try done; destruct_and?; subst; (split; [done|]).
  - by apply reads_data.
  - by apply reads_priority.
  - by apply reads_rst.
  - by apply reads_ping.
  - by apply reads_settings.
  - by apply reads_goaway.
  - by apply reads_window_update.
Qed.

Lemma sendable_plain f m : sendable f → len (payload_wire (f_payload f)) ≤ m → plain_payload m (f_payload f).
Proof. intros (_ & _ & H) Hm. destruct (f_payload f); cbn in *; tauto. Qed.

Lemma frame_type_byte p : is_byte (frame_type_code (frame_type p)).
Proof. by destruct p. Qed.

(** The bytes of a frame are read as this frame, whatever comes behind them. *)
Lemma sendable_decodes_more f rest d :
  sendable f → len (payload_wire (f_payload f)) ≤ fd_max_frame_size d < 2 ^ 24 → idle d →
  fd_continuations d = Continuations_new → Forall is_byte rest →
  ∃ d', FrameDecoder_decode
      (frame_wire (frame_type_code (frame_type (f_payload f))) (f_flags f) (f_id f) (payload_wire (f_payload f)) ++ rest) d =
      (frames ← FrameDecoder_decode rest; mret (Complete f :: frames)) d' ∧
    idle d' ∧ fd_continuations d' = Continuations_new ∧ fd_hpack d' = fd_hpack d ∧ fd_max_frame_size d' = fd_max_frame_size d.
Proof.
  intros Hf Hmax Hi Hc Hr. set (p := payload_wire (f_payload f)) in *. set (t := frame_type_code (frame_type (f_payload f))).
  destruct (sendable_reads f d Hi Hf) as [Hid Hread]. fold p t in Hread.
  exists (after_frame (in_payload t (f_flags f) (f_id f) (len p) d)). split; [|split_and!; done].
  rewrite decode_wire; [|done| |exact Hr].
  - cbv zeta. unfold reads_back in Hread. rewrite Hread. unfold breaks_block.
    cbn [fd_continuations in_payload set_stage set_header]. by rewrite Hc.
  - destruct Hf as (Hfl & Hidr & Hrest) eqn:Ef. refine (conj _ (conj Hfl (conj Hidr (conj _ Hmax)))); [apply frame_type_byte|].
    by apply payload_wire_bytes.
Qed.

Lemma decode_nothing d : idle d → FrameDecoder_decode [] d = (d, Ok []).
Proof.
  intros Hi. rewrite FrameDecoder_decode_step; [|by apply idle_inv|constructor].
  destruct d, Hi as (H1 & H2 & H3). cbn in H1, H2, H3. by subst.
Qed.

Lemma sendable_decodes f d :
  sendable f → len (payload_wire (f_payload f)) ≤ fd_max_frame_size d < 2 ^ 24 → idle d →
  fd_continuations d = Continuations_new →
  ∃ d', FrameDecoder_decode
      (frame_wire (frame_type_code (frame_type (f_payload f))) (f_flags f) (f_id f) (payload_wire (f_payload f))) d =
      (d', Ok [Complete f]) ∧
    idle d' ∧ fd_continuations d' = Continuations_new ∧ fd_hpack d' = fd_hpack d.
Proof.
  intros Hf Hmax Hi Hc. destruct (sendable_decodes_more f [] d) as (d' & Hd & Hi' & Hc' & Hh & _); [done..|].
  exists d'. split; [|done]. rewrite app_nil_r in Hd. by rewrite Hd, bind_st, decode_nothing.
Qed.

(** C2: A DATA frame without padding, or a PRIORITY, RST_STREAM, SETTINGS, PING,
    GOAWAY or WINDOW_UPDATE frame, in the form and on the stream RFC 9113 allows,
    whose payload is within the frame sizes of encoder and decoder, written by
    FrameEncoder in one call with a buffer longer than the frame (a head cut by the
    end of a buffer is written wrong: findings), is given back unchanged by a
    FrameDecoder between two frames with no field block open, which is again between
    two frames. *)
Theorem frame_roundtrip (order : Headers → list (bytes * HeaderValue)) (f : Frame) (e : FrameEncoder)
    (buf : bytes) (d : FrameDecoder) (Hf : sendable f)
    (Hlen : len (payload_wire (f_payload f)) ≤ fe_max_frame_size e)
    (Hmax : len (payload_wire (f_payload f)) ≤ fd_max_frame_size d < 2 ^ 24)
    (Hb : 9 + len (payload_wire (f_payload f)) < len buf)
    (Hi : idle d) (Hc : fd_continuations d = Continuations_new) :
  ∃ e' out n d', (_ ← set_frame order f; FrameEncoder_encode buf) e = (e', Ok (out, n)) ∧
    fe_state e' = DataComplete ∧
    FrameDecoder_decode (takeZ n out) d = (d', Ok [Complete f]) ∧
    idle d' ∧ fd_continuations d' = Continuations_new ∧ fd_hpack d' = fd_hpack d.
Proof.
  set (p := payload_wire (f_payload f)) in *. set (t := frame_type_code (frame_type (f_payload f))).
  destruct (sendable_reads f d Hi Hf) as [Hid Hread]. fold p t in Hread.
  pose proof (sendable_plain f _ Hf Hlen) as Hp.
  destruct (plain_writes f e buf Hp Hb) as (e' & E & Hs & _). fold p t in E. rewrite Hid in E.
  destruct (sendable_decodes f d Hf Hmax Hi Hc) as (d' & Ed & H').
  exists e', (frame_wire t (f_flags f) (f_id f) p ++ dropZ (9 + len p) buf), (9 + len p), d'.
  split; [rewrite bind_st, set_frame_plain, E by done; unfold frame_wire; by rewrite <- app_assoc|].
  split; [done|]. split; [|exact H'].
  assert (9 + len p = len (frame_wire t (f_flags f) (f_id f) p)) as ->
    by (unfold frame_wire; by rewrite len_app, len_frame_head).
  by rewrite takeZ_app_len.
Qed.

Definition settings_frame : Frame := mkFrame 0 0 (PSettings [EnablePush false; MaxFrameSize 16384; InitialWindowSize 65535]).

Lemma frame_roundtrip_witness :
  ∃ e' out n d', (_ ← set_frame map_order settings_frame; FrameEncoder_encode (replicate 40 0))
      (FrameEncoder_new 16384 true) = (e', Ok (out, n)) ∧
    fe_state e' = DataComplete ∧
    FrameDecoder_decode (takeZ n out) FrameDecoder_new = (d', Ok [Complete settings_frame]) ∧
    idle d' ∧ fd_continuations d' = Continuations_new ∧ fd_hpack d' = fd_hpack FrameDecoder_new.
Proof.
  refine (frame_roundtrip map_order settings_frame (FrameEncoder_new 16384 true) (replicate 40 0) FrameDecoder_new
    _ _ _ _ _ eq_refl).
  - split; [by split|]. split; [by split|]. split; [reflexivity|]. split; [discriminate|].
    repeat apply Forall_cons_2; [..|apply Forall_nil_2];
      (split; [exact I || (vm_compute; discriminate) || (split; vm_compute; discriminate)|by split]).
  - vm_compute. discriminate.
  - split; vm_compute; (reflexivity || discriminate).
  - reflexivity.
  - repeat split.
Defined.

(** ** HEADERS *)

(** The encoder with the block of a HEADERS frame in its buffer. *)
Definition headers_ready (f : Frame) (block : bytes) (e : FrameEncoder) : Prop :=
  fe_state e = EncodingHeadersFrame ∧ at_header f e ∧ fe_remaining_header_payload e = len block ∧
  fe_header_payload_index e = 0 ∧ (∃ rest, fe_header_payload_buffer e = block ++ rest) ∧
  HpackEncoder_is_finished (fe_hpack e) = true.

(** What an idle HPACK encoder writes in one call with enough room. *)
Lemma encode_block pseudo order h room :
  HpackEncoder_is_finished h = true → table_bounded (he_table h) →
  Forall line_ok (parts_lines pseudo order) →
  let block := lines_wire (he_use_huffman h) (he_table h) (parts_lines pseudo order) in
  (length block ≤ room)%nat → (0 < room)%nat →
  ∃ h', HpackEncoder_encode room (HpackEncoder_set_parts pseudo order h) = (h', block, length block) ∧
    HpackEncoder_is_finished h' = true ∧ he_table h' = lines_table (he_table h) (parts_lines pseudo order).
Proof.
  intros Hfin Ht Hl block Hlen Hroom.
  pose proof (HpackEncoder_encode_spec _ room Hroom (set_parts_ok h pseudo order Hfin Ht Hl)) as H.
  pose proof (set_parts_pending h pseudo order Hfin) as [Hp Htab]. rewrite Hp, Htab in H. fold block in H.
  destruct (HpackEncoder_encode room _) as [[h' out] size].
  destruct H as (-> & Hs & Hb & Ht' & _ & Hfin' & Hfull).
  assert (he_pending h' = []) as Hnil.
  { destruct (he_pending h') as [|x l] eqn:E; [done|]. specialize (Hfull ltac:(done)).
    apply (f_equal length) in Hb. rewrite length_app in Hb. cbn [length] in Hb. lia. }
  rewrite Hnil, app_nil_r in Hb. subst out. apply Hfin' in Hnil. exists h'. split_and!; [done..|].
  rewrite <- Ht'. unfold HpackEncoder_is_finished in Hnil. by destruct h' as [t [|] [|] u].
Qed.

Lemma set_frame_headers order f e parts :
  f_payload f = PHeaders parts → is_end_headers (f_flags f) = true →
  HpackEncoder_is_finished (fe_hpack e) = true → table_bounded (he_table (fe_hpack e)) →
  let lines := parts_lines (parts_pseudo parts) (order (parts_map parts)) in
  let block := lines_wire (he_use_huffman (fe_hpack e)) (he_table (fe_hpack e)) lines in
  Forall line_ok lines → len block ≤ len (fe_header_payload_buffer e) →
  0 < len (fe_header_payload_buffer e) →
  ∃ e0, set_frame order f e = (e0, Ok ()) ∧ headers_ready f block e0 ∧
    he_table (fe_hpack e0) = lines_table (he_table (fe_hpack e)) lines.
Proof.
  intros Hf Heh Hfin Ht lines block Hl Hlen Hpos. unfold set_frame. rewrite bind_st. cbn [modify_st].
  rewrite Hf, Heh. cbn [negb]. rewrite bind_st. cbn [modify_st]. rewrite bind_st. unfold read_rest_payload, modify_st.
  cbn [fe_header_payload_buffer fe_hpack with_headers with_encoded with_frame with_ends].
  destruct (encode_block (parts_pseudo parts) (order (parts_map parts)) (fe_hpack e)
    (length (fe_header_payload_buffer e))) as (h' & -> & Hfin' & Htab); [done..|unfold len in *; fold lines block; lia|unfold len in *; lia|].
  eexists. split; [reflexivity|]. split; [|done].
  split_and!; try done. by eexists.
Qed.

Lemma headers_ready_encode f parts block e buf :
  headers_ready f block e → f_payload f = PHeaders parts → 9 + len block ≤ len buf →
  ∃ e', encode_headers_frame buf e =
    (e', Ok ((frame_head 1 (f_flags f) (f_id f) (len block) ++ block) ++ dropZ (9 + len block) buf, 9 + len block)) ∧
    fe_state e' = HeadersComplete ∧ fe_hpack e' = fe_hpack e.
Proof.
  intros (Hs & He & Hr & Hi & (rest & Hbuf) & Hfin) Hf Hb. pose proof (len_nonneg block) as Hn.
  unfold encode_headers_frame. enter He. rewrite Hf, bind_st. cbn [get_st]. unfold headers_header_byte.
  rewrite Hfin, Hr, bind_st. change (frame_type_code THeaders) with 1.
  rewrite encode_frame_header_whole by (lia || apply He). rewrite bind_st. cbn [get_st fe_encoded_bytes with_encoded].
  change (9 <=? 9) with true. cbv iota. rewrite bind_st.
  set (h := frame_head 1 (f_flags f) (f_id f) (len block)).
  change (dropZ 9 (h ++ dropZ 9 buf)) with (dropZ (len h) (h ++ dropZ 9 buf)).
  change (takeZ 9 (h ++ dropZ 9 buf)) with (takeZ (len h) (h ++ dropZ 9 buf)).
  rewrite dropZ_app_len, takeZ_app_len. set (e1 := with_encoded 9 e).
  assert (write_payload (dropZ 9 buf) (fe_remaining_header_payload e1) e1 =
    (with_headers (fe_hpack e) (fe_header_payload_buffer e) (len block) (len block) e1,
     Ok (block ++ dropZ (len block) (dropZ 9 buf), len block))) as ->.
  { unfold write_payload. rewrite bind_st. cbn [get_st].
    change (fe_header_payload_index e1) with (fe_header_payload_index e).
    change (fe_remaining_header_payload e1) with (fe_remaining_header_payload e).
    change (fe_header_payload_buffer e1) with (fe_header_payload_buffer e).
    rewrite Hr, Hi, Hbuf. unfold usize_sub. destruct (Z.leb_spec 0 (len block)); [|lia].
    rewrite bind_st. cbn [lift_res]. rewrite Z.sub_0_r, len_dropZ, Z.min_r by lia.
    rewrite len_app, Z.add_0_l. pose proof (len_nonneg rest).
    destruct (Z.ltb_spec (len block + len rest) (len block)); [lia|].
    rewrite bind_st. cbn [put_st mret ST_ret]. by rewrite dropZ_0, takeZ_app_len. }
  rewrite bind_st. cbn [add_encoded modify_st fst snd]. rewrite bind_st. unfold headers_header_status. rewrite bind_st.
  cbn [get_st fe_header_payload_index fe_remaining_header_payload with_headers with_encoded fe_hpack].
  destruct (Z.ltb_spec (len block) (len block)); [lia|]. subst e1. cbn [fe_hpack with_encoded with_headers].
  rewrite Hfin, bind_st. cbn [finish_current_frame modify_st goto mret ST_ret].
  rewrite dropZ_dropZ, app_assoc by lia. eexists. split; [reflexivity|]. done.
Qed.

(** The machine writes the frame in one call. *)
Lemma headers_ready_writes f parts block e buf :
  headers_ready f block e → f_payload f = PHeaders parts → 9 + len block ≤ len buf →
  ∃ e', FrameEncoder_encode buf e =
    (e', Ok (frame_wire 1 (f_flags f) (f_id f) block ++ dropZ (9 + len block) buf, 9 + len block)) ∧
    fe_state e' = HeadersComplete ∧ fe_hpack e' = fe_hpack e.
Proof.
  intros Hready Hf Hb. pose proof (len_nonneg block).
  destruct (headers_ready_encode f parts block e buf Hready Hf Hb) as (e' & E & Hs' & Hh).
  destruct Hready as (Hs & _). exists e'. split; [|done]. unfold FrameEncoder_encode, encode_fuel.
  replace (2 * length buf + 4)%nat with (S (S (2 * length buf + 2))) by lia.
  rewrite (encode_loop_step _ 0 buf e _ e' _ _ ltac:(lia) (f_equal encode_state Hs) E) by (by rewrite Hs, Hs').
  rewrite encode_loop_stop by (by rewrite Hs'). by rewrite takeZ_0, Z.add_0_l.
Qed.

(** A whole field block in one HEADERS frame, without padding and priority. *)
Lemma headers_frame_decode flags id block d h h' parts :
  idle d → fd_continuations d = Continuations_new → id ≠ 0 → wire_ok d 1 flags id block →
  is_end_headers flags = true → is_padded flags = false → is_headers_priority flags = false →
  HpackDecoder_decode block (fd_hpack d) = (h, Ok ()) → HpackDecoder_finish h = (h', Ok parts) →
  ∃ d', FrameDecoder_decode (frame_wire 1 flags id block) d =
      (d', Ok [Complete (mkFrame id flags (PHeaders parts))]) ∧
    idle d' ∧ fd_continuations d' = Continuations_new ∧ fd_hpack d' = h'.
Proof.
  intros Hi Hc Hne Hw Heh Hpad Hpri Hh Hfin. pose proof (len_nonneg block).
  rewrite <- (app_nil_r (frame_wire _ _ _ _)), decode_wire by (done || constructor). cbv zeta.
  unfold breaks_block. cbn [fd_continuations in_payload set_stage set_header].
  rewrite Hc. cbn [ct_is_end_headers Continuations_new negb andb decode_payload_of_type].
  unfold decode_headers_payload. rewrite bind_st, reject_stream_0_ok by done.
  rewrite bind_st, join_idle by apply Hi. unfold headers_payload. read_header.
  unfold fragment_range. cbn [fh_flags fh_payload_length]. rewrite Heh, Hpad, Hpri. cbv iota.
  rewrite !bind_st. cbn [mret ST_ret fst snd].
  destruct (Z.ltb_spec (len block) 0); [lia|]. cbn [mret ST_ret]. rewrite bind_st.
  cbn [fst snd]. rewrite slice_st by lia. rewrite Z.sub_0_r, dropZ_0, takeZ_all by lia.
  rewrite bind_st, (hpack_decode_eq _ _ h) by done. rewrite bind_st, (hpack_finish_eq _ h' parts) by done.
  cbn [mret ST_ret]. rewrite bind_st, FrameDecoder_decode_step; [|by apply idle_inv|constructor].
  eexists. split; [reflexivity|]. by split_and!.
Qed.

(** The block of a request or response, from an encoder to a decoder with the
    same dynamic table. *)
Definition block_fits (d : HpackDecoder) (pseudo : PseudoHeaders) (m : Headers)
    (order : list (bytes * HeaderValue)) : Prop :=
  hp_holder d = None ∧ hp_parts d = Parts_new ∧ order ≡ₚ map_to_list m ∧ headers_inv m ∧
  map_Forall (λ _, value_ok) m ∧ Forall line_ok (parts_lines pseudo order) ∧
  lines_exact (hp_table d) (parts_lines pseudo order) = true ∧
  hp_header_size d + lines_size (parts_lines pseudo order) ≤ hp_header_list_size d.

Lemma decode_block huff pseudo m order d :
  table_bounded (hp_table d) → block_fits d pseudo m order →
  ∃ h h', HpackDecoder_decode (lines_wire huff (hp_table d) (parts_lines pseudo order)) d = (h, Ok ()) ∧
    HpackDecoder_finish h = (h', Ok (mkParts pseudo (joined <$> m))) ∧
    hp_table h' = lines_table (hp_table d) (parts_lines pseudo order).
Proof.
  intros Ht (Hd & Hp & Ho & Hi & Hv & Hl & Hex & Hsize).
  eexists _, _. split_and!.
  - apply decode_lines; [done|by apply lines_reprs_ok|done|by eapply parts_lines_field_ok|done].
  - unfold HpackDecoder_finish. rewrite bind_st. cbn [get_st hp_holder]. rewrite Hd, bind_st.
    cbn [put_st mret ST_ret hp_parts]. by rewrite Hp, (fold_parts_order order pseudo m).
  - done.
Qed.

Lemma lines_wire_bytes huff t lines :
  table_bounded t → Forall line_ok lines → Forall is_byte (lines_wire huff t lines).
Proof.
  intros Ht Hl. pose proof (lines_reprs_ok t lines Ht Hl) as H. unfold lines_wire.
  induction H as [|r l Hr H IH]; [constructor|].
  change (Forall is_byte (repr_wire huff r ++ (l ≫= repr_wire huff))). apply Forall_app.
  split; [by apply repr_wire_byte|done].
Qed.

(** C1: A HEADERS frame of a request or response, with the flag END_HEADERS and
    without PADDED and PRIORITY. Let its Parts have valid names and values, no field
    line of which only the name is found, and only in the dynamic table
    (TableSearcher::index, table.rs:55, gives a wrong line there: lines_exact), and
    be within the decoder's header list limit, and let the header block fit the
    encoder's payload buffer, the decoder's frame size and the buffer of the call.
    Then one call of FrameEncoder::encode writes the frame, and a FrameDecoder
    between two frames whose dynamic table is the encoder's gives the frame with
    these Parts, the values of a name joined into one; both are ready for the next
    frame and the two dynamic tables are again equal. *)
Theorem headers_roundtrip (order : Headers → list (bytes * HeaderValue)) (f : Frame)
    (pseudo : PseudoHeaders) (m : Headers) (e : FrameEncoder) (buf : bytes) (d : FrameDecoder)
    (Hf : f_payload f = PHeaders (mkParts pseudo m)) (Hid : 0 < f_id f < 2 ^ 31) (Hfl : is_byte (f_flags f))
    (Hflags : is_end_headers (f_flags f) = true ∧ is_padded (f_flags f) = false ∧
      is_headers_priority (f_flags f) = false)
    (Hfin : HpackEncoder_is_finished (fe_hpack e) = true) (Ht : table_bounded (he_table (fe_hpack e)))
    (Hsync : hp_table (fd_hpack d) = he_table (fe_hpack e))
    (Hblock : block_fits (fd_hpack d) pseudo m (order m))
    (Hi : idle d) (Hc : fd_continuations d = Continuations_new) :
  let block := lines_wire (he_use_huffman (fe_hpack e)) (he_table (fe_hpack e)) (parts_lines pseudo (order m)) in
  0 < len (fe_header_payload_buffer e) → len block ≤ len (fe_header_payload_buffer e) →
  len block ≤ fd_max_frame_size d < 2 ^ 24 → 9 + len block ≤ len buf →
  ∃ e' out n d', (_ ← set_frame order f; FrameEncoder_encode buf) e = (e', Ok (out, n)) ∧
    fe_state e' = HeadersComplete ∧
    FrameDecoder_decode (takeZ n out) d =
      (d', Ok [Complete (mkFrame (f_id f) (f_flags f) (PHeaders (mkParts pseudo (joined <$> m))))]) ∧
    idle d' ∧ fd_continuations d' = Continuations_new ∧
    hp_table (fd_hpack d') = he_table (fe_hpack e').
Proof.
  intros block Hpos Hroom Hmax Hb. destruct Hflags as (Heh & Hpad & Hpri).
  assert (f_id f ≠ 0 ∧ 0 ≤ f_id f) as [Hne Hid0] by (clear - Hid; lia).
  pose proof Hblock as (_ & _ & _ & _ & _ & Hl & _).
  destruct (set_frame_headers order f e _ Hf Heh Hfin Ht) as (e0 & E0 & Hready & Htab); [done..|].
  cbn [parts_pseudo parts_map] in *. fold block in Hready.
  destruct (headers_ready_writes f _ block e0 buf Hready Hf Hb) as (e' & E & Hs & Hh).
  destruct (decode_block (he_use_huffman (fe_hpack e)) pseudo m (order m) (fd_hpack d)) as (h & h' & Hd & Hfin' & Ht');
    [by rewrite Hsync|done|].
  rewrite Hsync in Hd, Ht'. fold block in Hd.
  destruct (headers_frame_decode (f_flags f) (f_id f) block d h h' (mkParts pseudo (joined <$> m)) Hi Hc Hne) as (d' & Ed & Hi' & Hc' & Hh');
    [|done..|].
  { refine (conj _ (conj Hfl (conj _ (conj _ Hmax)))); [by split|lia|by apply lines_wire_bytes]. }
  do 4 eexists. split; [rewrite bind_st, E0, E; reflexivity|]. split; [done|].
  assert (9 + len block = len (frame_wire 1 (f_flags f) (f_id f) block)) as ->
    by (unfold frame_wire; by rewrite len_app, len_frame_head).
  rewrite takeZ_app_len, Ed. split_and!; [done..|]. by rewrite Hh', Ht', Hh, Htab.
Qed.

(** A request, in the order of [map_order]. *)
Definition request_frame : Frame := mkFrame 1 5 (PHeaders (mkParts get_request x_id_map)).

Lemma x_id_map_order : map_order x_id_map = x_id_order.
Proof. unfold map_order, x_id_map. by rewrite insert_empty, map_to_list_singleton. Qed.

Lemma headers_roundtrip_witness :
  ∃ e' out n d', (_ ← set_frame map_order request_frame; FrameEncoder_encode (replicate 100 0))
      (FrameEncoder_new 16384 true) = (e', Ok (out, n)) ∧
    fe_state e' = HeadersComplete ∧
    FrameDecoder_decode (takeZ n out) FrameDecoder_new =
      (d', Ok [Complete (mkFrame 1 5 (PHeaders (mkParts get_request (joined <$> x_id_map))))]) ∧
    idle d' ∧ fd_continuations d' = Continuations_new ∧
    hp_table (fd_hpack d') = he_table (fe_hpack e').
Proof.
  refine (headers_roundtrip map_order request_frame get_request x_id_map (FrameEncoder_new 16384 true)
    (replicate 100 0) FrameDecoder_new eq_refl _ _ _ eq_refl _ eq_refl _ _ eq_refl _ _ _ _);
    rewrite ?x_id_map_order.
  - by split.
  - by split.
  - by split.
  - exact (table_bounded_new 4096 usize_4096).
  - split; [reflexivity|]. split; [reflexivity|]. split; [exact x_id_order_perm|].
    split; [exact (proj1 x_id_map_ok)|]. split; [exact (proj2 x_id_map_ok)|].
    split; [exact x_id_lines_ok|]. split; [vm_compute; reflexivity|vm_compute; discriminate].
  - by split.
  - vm_compute. reflexivity.
  - vm_compute. discriminate.
  - split; vm_compute; [discriminate|reflexivity].
  - vm_compute. discriminate.
Defined.
