(* ===== verification/H2Window.v ===== *)
(** * Flow control windows of the HTTP/2 client

    Models [src/ylong_http_client/src/util/h2/buffer/window.rs] and
    [buffer/settings.rs]: the window for sending, the window for receiving with
    its two counters, and [FlowControl], one of each for the connection.  The
    counters are [i32]; an operation that leaves its range is [Panic], as in a
    build with overflow checks. *)

From S2P Require Import Prelude H2Error Headers Parts H2Frame.
#[local] Open Scope Z_scope.

(** ** [i32] and [u32] *)

Definition I32_MAX : Z := 2 ^ 31 - 1.
Definition is_i32 (x : Z) : Prop := - 2 ^ 31 ≤ x ≤ I32_MAX.
Definition in_i32 (x : Z) : bool := (- 2 ^ 31 <=? x) && (x <=? I32_MAX).

(** [x as i32], on [u32]. *)
Definition as_i32 (x : Z) : Z := if x <=? I32_MAX then x else x - 2 ^ 32.
(** [x as u32], on [i32]. *)
Definition as_u32 (x : Z) : Z := if x <? 0 then x + 2 ^ 32 else x.

Definition i32_check {E} (x : Z) : result E Z := if in_i32 x then Ok x else Panic.
Definition u32_check {E} (x : Z) : result E Z := if (0 <=? x) && (x <? 2 ^ 32) then Ok x else Panic.

(** [i32::overflowing_add]. *)
Definition i32_overflowing_add (x y : Z) : Z * bool :=
  if in_i32 (x + y) then (x + y, false)
  else (if x + y <? 0 then x + y + 2 ^ 32 else x + y - 2 ^ 32, true).

(** [MAX_FLOW_CONTROL_WINDOW]. *)
Definition MAX_FLOW_CONTROL_WINDOW : Z := Z.shiftl 1 31 - 1.

(** ** [SendWindow] *)

Record SendWindow := mkSendWindow { sw_size : Z }.

Definition SendWindow_new (size : Z) : SendWindow := mkSendWindow size.

Definition size_available (w : SendWindow) : Z := if sw_size w <? 0 then 0 else sw_size w.

(** [reduce_size], [send_data]. *)
Definition reduce_size {E} (size : Z) : ST SendWindow E () :=
  w ← get_st;
  n ← lift_res (i32_check (sw_size w - as_i32 size));
  put_st (mkSendWindow n).

Definition send_data {E} (size : Z) : ST SendWindow E () := reduce_size size.

Definition increase_size (size : Z) : ST SendWindow H2Error () :=
  w ← get_st;
  let '(curr, overflow) := i32_overflowing_add (sw_size w) (as_i32 size) in
  if overflow then throw (ConnectionError FlowControlError)
  else if as_i32 MAX_FLOW_CONTROL_WINDOW <? curr then throw (ConnectionError FlowControlError)
  else put_st (mkSendWindow curr).

(** ** [RecvWindow] *)

Record RecvWindow := mkRecvWindow { rw_notification : Z; rw_actual : Z }.

Definition RecvWindow_new (size : Z) : RecvWindow := mkRecvWindow size size.

Definition unreleased_size {E} (w : RecvWindow) : result E (option Z) :=
  unreleased ← i32_check (rw_actual w - rw_notification w);
  if unreleased <=? 0 then Ok None
  else
    twice ← i32_check (unreleased * 2);
    Ok (if rw_notification w <? twice then Some (as_u32 unreleased) else None).

Definition notification_available (w : RecvWindow) : Z :=
  if rw_notification w <? 0 then 0 else rw_notification w.

Definition reduce_actual {E} (size : Z) : ST RecvWindow E () :=
  w ← get_st;
  n ← lift_res (i32_check (rw_actual w - as_i32 size));
  put_st (mkRecvWindow (rw_notification w) n).
Definition increase_actual {E} (size : Z) : ST RecvWindow E () :=
  w ← get_st;
  n ← lift_res (i32_check (rw_actual w + as_i32 size));
  put_st (mkRecvWindow (rw_notification w) n).
Definition reduce_notification {E} (size : Z) : ST RecvWindow E () :=
  w ← get_st;
  n ← lift_res (i32_check (rw_notification w - as_i32 size));
  put_st (mkRecvWindow n (rw_actual w)).
Definition increase_notification {E} (size : Z) : ST RecvWindow E () :=
  w ← get_st;
  n ← lift_res (i32_check (rw_notification w + as_i32 size));
  put_st (mkRecvWindow n (rw_actual w)).

(** [RecvWindow::recv_data]. *)
Definition window_recv_data {E} (size : Z) : ST RecvWindow E () := reduce_notification size.

Definition check_window_update {E} (id : Z) : ST RecvWindow E (option Frame) :=
  w ← get_st;
  u ← lift_res (unreleased_size w);
  match u with
  | Some size => _ ← increase_notification size; mret (Some (mkFrame id 0 (PWindowUpdate size)))
  | None => mret None
  end.

(** ** [FlowControl] *)

Record FlowControl := mkFlowControl { fc_recv_window : RecvWindow; fc_send_window : SendWindow }.

Definition FlowControl_new (conn_recv_window conn_send_window : Z) : FlowControl :=
  mkFlowControl (RecvWindow_new (as_i32 conn_recv_window)) (SendWindow_new (as_i32 conn_send_window)).

Definition set_fc_recv (w : RecvWindow) (c : FlowControl) : FlowControl := mkFlowControl w (fc_send_window c).
Definition set_fc_send (w : SendWindow) (c : FlowControl) : FlowControl := mkFlowControl (fc_recv_window c) w.

Definition check_conn_recv_window_update {E} : ST FlowControl E (option Frame) :=
  zoom fc_recv_window set_fc_recv (check_window_update 0).

Definition setup_recv_window {E} (size : Z) : ST FlowControl E () :=
  c ← get_st;
  let actual := as_u32 (rw_actual (fc_recv_window c)) in
  if actual <? size then zoom fc_recv_window set_fc_recv (increase_actual (size - actual))
  else zoom fc_recv_window set_fc_recv (reduce_actual (actual - size)).

Definition increase_send_size (size : Z) : ST FlowControl H2Error () :=
  zoom fc_send_window set_fc_send (increase_size size).
Definition send_size_available (c : FlowControl) : Z := size_available (fc_send_window c).
Definition recv_notification_size_available (c : FlowControl) : Z := notification_available (fc_recv_window c).
(** [FlowControl::send_data], [FlowControl::recv_data]. *)
Definition conn_send_data {E} (size : Z) : ST FlowControl E () := zoom fc_send_window set_fc_send (send_data size).
Definition conn_recv_data {E} (size : Z) : ST FlowControl E () := zoom fc_recv_window set_fc_recv (window_recv_data size).

(** ** Lemmas *)

Lemma as_i32_id x : x ≤ I32_MAX → as_i32 x = x.
Proof. intros H. unfold as_i32. by destruct (Z.leb_spec x I32_MAX); [|lia]. Qed.

Lemma as_u32_id x : 0 ≤ x → as_u32 x = x.
Proof. intros H. unfold as_u32. by destruct (Z.ltb_spec x 0); [lia|]. Qed.

Lemma in_i32_spec x : in_i32 x = true ↔ is_i32 x.
Proof. unfold in_i32, is_i32. rewrite andb_true_iff, !Z.leb_le. done. Qed.

Lemma i32_check_ok {E} x : is_i32 x → i32_check (E := E) x = Ok x.
Proof. intros H. unfold i32_check. by rewrite (proj2 (in_i32_spec x) H). Qed.

(** Every increment of a WINDOW_UPDATE. *)
Lemma increase_size_eq n w :
  is_i32 (sw_size w) → 0 ≤ n ≤ I32_MAX →
  increase_size n w =
    if I32_MAX <? sw_size w + n then (w, Err (ConnectionError FlowControlError))
    else (mkSendWindow (sw_size w + n), Ok ()).
Proof.
  intros Hw Hn. unfold increase_size. rewrite bind_st. cbn [get_st]. rewrite as_i32_id by lia.
  unfold i32_overflowing_add. destruct (Z.ltb_spec I32_MAX (sw_size w + n)).
  - destruct (in_i32 (sw_size w + n)) eqn:E; [apply in_i32_spec in E; unfold is_i32 in E; lia|done].
  - rewrite (proj2 (in_i32_spec _)) by (unfold is_i32 in *; lia).
    change (as_i32 MAX_FLOW_CONTROL_WINDOW) with I32_MAX.
    by destruct (Z.ltb_spec I32_MAX (sw_size w + n)); [lia|].
Qed.

Lemma reduce_size_eq {E} n w :
  0 ≤ n ≤ I32_MAX → is_i32 (sw_size w - n) →
  reduce_size (E := E) n w = (mkSendWindow (sw_size w - n), Ok ()).
Proof.
  intros Hn Hw. unfold reduce_size. rewrite bind_st. cbn [get_st].
  rewrite as_i32_id, i32_check_ok by (done || lia). by rewrite bind_st.
Qed.

Lemma reduce_notification_eq {E} n w :
  0 ≤ n ≤ I32_MAX → is_i32 (rw_notification w - n) →
  reduce_notification (E := E) n w = (mkRecvWindow (rw_notification w - n) (rw_actual w), Ok ()).
Proof.
  intros Hn Hw. unfold reduce_notification. rewrite bind_st. cbn [get_st].
  rewrite as_i32_id, i32_check_ok by (done || lia). by rewrite bind_st.
Qed.

(** A window for receiving, as it is between two frames: at least two thirds of
    it are open to the peer. *)
Definition recv_window_ok (w : RecvWindow) : Prop :=
  0 ≤ rw_actual w ≤ I32_MAX ∧ rw_notification w ≤ rw_actual w ∧
  2 * (rw_actual w - rw_notification w) ≤ rw_notification w.

Lemma unreleased_size_eq {E} w :
  0 ≤ rw_notification w ≤ rw_actual w → rw_actual w ≤ I32_MAX → rw_actual w - rw_notification w < 2 ^ 30 →
  unreleased_size (E := E) w =
    Ok (if rw_notification w <? 2 * (rw_actual w - rw_notification w)
        then Some (rw_actual w - rw_notification w) else None).
Proof.
  intros Hn Ha Hd. unfold unreleased_size. rewrite i32_check_ok by (unfold is_i32, I32_MAX in *; lia).
  unfold mbind, result_mbind, result_bind.
  destruct (Z.leb_spec (rw_actual w - rw_notification w) 0) as [H0|H0].
  { by destruct (Z.ltb_spec (rw_notification w) (2 * (rw_actual w - rw_notification w))); [lia|]. }
  rewrite i32_check_ok, (Z.mul_comm 2) by (unfold is_i32, I32_MAX in *; lia). by rewrite as_u32_id by lia.
Qed.

Lemma check_window_update_eq {E} id w :
  0 ≤ rw_notification w ≤ rw_actual w → rw_actual w ≤ I32_MAX →
  rw_actual w - rw_notification w < 2 ^ 30 →
  check_window_update (E := E) id w =
    if rw_notification w <? 2 * (rw_actual w - rw_notification w)
    then (mkRecvWindow (rw_actual w) (rw_actual w),
          Ok (Some (mkFrame id 0 (PWindowUpdate (rw_actual w - rw_notification w)))))
    else (w, Ok None).
Proof.
  intros Hn Ha Hd. unfold check_window_update. rewrite bind_st. cbn [get_st]. rewrite bind_st.
  unfold lift_res at 1. rewrite unreleased_size_eq by done. destruct (_ <? _); [|done].
  unfold increase_notification. rewrite as_i32_id by lia.
  rewrite !bind_st. cbn [get_st]. rewrite bind_st, i32_check_ok by (unfold is_i32, I32_MAX in *; lia).
  cbn [lift_res]. unfold put_st. cbn [mret ST_ret].
  by replace (rw_notification w + (rw_actual w - rw_notification w)) with (rw_actual w) by lia.
Qed.
