(* ===== verification/H2Streams.v ===== *)
(** * Streams of the HTTP/2 client

    Models [src/ylong_http_client/src/util/h2/streams.rs]: the states of the
    streams of a connection, the queues of streams that wait to send, and the
    use of the flow control windows; and the opening of a stream in
    [util/h2/manager.rs].

    What is outside: a body is asked for bytes through the asynchronous runtime,
    so the outcome of a [poll_read] is an argument; a channel of the runtime is
    the list of frames sent and whether it is closed; the orders in which hash
    maps and sets are visited are arguments. *)

From S2P Require Import Prelude H2Error Headers Parts H2Frame H2Window.
#[local] Open Scope Z_scope.

(** ** Data *)

Definition INITIAL_MAX_SEND_STREAM_ID : Z := Z.shiftr (2 ^ 32 - 1) 1.
Definition INITIAL_MAX_RECV_STREAM_ID : Z := Z.shiftr (2 ^ 32 - 1) 1.
Definition DEFAULT_MAX_STREAM_ID : Z := Z.shiftr (2 ^ 32 - 1) 1.
Definition INITIAL_LATEST_REMOTE_ID : Z := 0.
Definition DEFAULT_MAX_CONCURRENT_STREAMS : Z := 100.
(** The constant of [poll_read_body]. *)
Definition BODY_FRAME_SIZE : Z := 16 * 1024.

Inductive FrameRecvState := RecvOK | RecvIgnore | RecvErr (e : H2Error).
Inductive DataReadState := ReadClosed | ReadPending | ReadReady (f : Frame) | ReadFinish (f : Frame).
Inductive StreamEndState := EndOK | EndIgnore | EndErr (e : H2Error).

(** [DispatchErrorKind] of [util/dispatcher.rs]. *)
Inductive DispatchErrorKind := KindH2 (e : H2Error) | KindIo (kind : Z) | KindChannelClosed | KindDisconnect.

Inductive ActiveState := WaitHeaders | WaitData.
Inductive CloseReason := LocalRst | RemoteRst | RemoteGoAway | LocalGoAway | EndStream.
Inductive H2StreamState :=
  | Idle
  | Open (send recv : ActiveState)
  | ReservedRemote
  | LocalHalfClosed (recv : ActiveState)
  | RemoteHalfClosed (send : ActiveState)
  | Closed (reason : CloseReason).

#[export] Instance ActiveState_eq_dec : EqDecision ActiveState.
Proof. solve_decision. Defined.
#[export] Instance CloseReason_eq_dec : EqDecision CloseReason.
Proof. solve_decision. Defined.
#[export] Instance H2StreamState_eq_dec : EqDecision H2StreamState.
Proof. solve_decision. Defined.

(** [BodyDataRef] of [util/data_ref.rs]: whether it still has a body. *)
Record BodyDataRef := mkBodyDataRef { bd_body : bool }.
Definition body_clear (d : BodyDataRef) : BodyDataRef := mkBodyDataRef false.

(** What a [poll_read] of a body gives. *)
Inductive PollRead := PollReady (l : bytes) | PollError | PollPending.
Definition body_poll_read (outcome : PollRead) (d : BodyDataRef) : PollRead :=
  if bd_body d then outcome else PollReady [].

Record Stream := mkStream {
  st_recv_window : RecvWindow;
  st_send_window : SendWindow;
  st_state : H2StreamState;
  st_header : option Frame;
  st_data : BodyDataRef }.

(** [Stream::new]. *)
Definition Stream_new (recv_window : RecvWindow) (send_window : SendWindow) (headers : Frame)
    (data : BodyDataRef) : Stream :=
  mkStream recv_window send_window Idle (Some headers) data.

Definition set_recv_window (w : RecvWindow) (s : Stream) : Stream :=
  mkStream w (st_send_window s) (st_state s) (st_header s) (st_data s).
Definition set_send_window (w : SendWindow) (s : Stream) : Stream :=
  mkStream (st_recv_window s) w (st_state s) (st_header s) (st_data s).
Definition set_state (x : H2StreamState) (s : Stream) : Stream :=
  mkStream (st_recv_window s) (st_send_window s) x (st_header s) (st_data s).
Definition set_header_data (h : option Frame) (d : BodyDataRef) (s : Stream) : Stream :=
  mkStream (st_recv_window s) (st_send_window s) (st_state s) h d.

(** [Stream::is_init_or_active_flow_control]. *)
Definition is_init_or_active_flow_control (s : Stream) : bool :=
  match st_state s with
  | Idle | Open _ WaitData | LocalHalfClosed WaitData => true
  | _ => false
  end.

Record Streams := mkStreams {
  max_send_id : Z;
  max_recv_id : Z;
  latest_remote_id : Z;
  stream_recv_window_size : Z;
  stream_send_window_size : Z;
  max_concurrent_streams : Z;
  current_concurrent_streams : Z;
  flow_control : FlowControl;
  pending_concurrency : list Z;
  pending_stream_window : gset Z;
  pending_conn_window : list Z;
  pending_send : list Z;
  window_updating_streams : list Z;
  stream_map : gmap Z Stream;
  next_stream_id : Z }.

(** [Streams::new]. *)
Definition Streams_new (recv_window_size send_window_size : Z) (fc : FlowControl) : Streams :=
  mkStreams INITIAL_MAX_SEND_STREAM_ID INITIAL_MAX_RECV_STREAM_ID INITIAL_LATEST_REMOTE_ID
    recv_window_size send_window_size DEFAULT_MAX_CONCURRENT_STREAMS 0 fc [] ∅ [] [] [] ∅ 1.

Definition with_sizes (recv send : Z) (s : Streams) : Streams :=
  mkStreams (max_send_id s) (max_recv_id s) (latest_remote_id s) recv send
    (max_concurrent_streams s) (current_concurrent_streams s) (flow_control s) (pending_concurrency s)
    (pending_stream_window s) (pending_conn_window s) (pending_send s) (window_updating_streams s)
    (stream_map s) (next_stream_id s).
Definition with_concurrency (max current : Z) (s : Streams) : Streams :=
  mkStreams (max_send_id s) (max_recv_id s) (latest_remote_id s) (stream_recv_window_size s)
    (stream_send_window_size s) max current (flow_control s) (pending_concurrency s)
    (pending_stream_window s) (pending_conn_window s) (pending_send s) (window_updating_streams s)
    (stream_map s) (next_stream_id s).
Definition with_flow (fc : FlowControl) (s : Streams) : Streams :=
  mkStreams (max_send_id s) (max_recv_id s) (latest_remote_id s) (stream_recv_window_size s)
    (stream_send_window_size s) (max_concurrent_streams s) (current_concurrent_streams s) fc
    (pending_concurrency s) (pending_stream_window s) (pending_conn_window s) (pending_send s)
    (window_updating_streams s) (stream_map s) (next_stream_id s).
Definition with_queues (concurrency : list Z) (stream_window : gset Z) (conn_window send updating : list Z)
    (s : Streams) : Streams :=
  mkStreams (max_send_id s) (max_recv_id s) (latest_remote_id s) (stream_recv_window_size s)
    (stream_send_window_size s) (max_concurrent_streams s) (current_concurrent_streams s) (flow_control s)
    concurrency stream_window conn_window send updating (stream_map s) (next_stream_id s).
Definition with_map (m : gmap Z Stream) (s : Streams) : Streams :=
  mkStreams (max_send_id s) (max_recv_id s) (latest_remote_id s) (stream_recv_window_size s)
    (stream_send_window_size s) (max_concurrent_streams s) (current_concurrent_streams s) (flow_control s)
    (pending_concurrency s) (pending_stream_window s) (pending_conn_window s) (pending_send s)
    (window_updating_streams s) m (next_stream_id s).
Definition with_next_id (id : Z) (s : Streams) : Streams :=
  mkStreams (max_send_id s) (max_recv_id s) (latest_remote_id s) (stream_recv_window_size s)
    (stream_send_window_size s) (max_concurrent_streams s) (current_concurrent_streams s) (flow_control s)
    (pending_concurrency s) (pending_stream_window s) (pending_conn_window s) (pending_send s)
    (window_updating_streams s) (stream_map s) id.

Definition with_pending_concurrency (l : list Z) (s : Streams) : Streams :=
  with_queues l (pending_stream_window s) (pending_conn_window s) (pending_send s) (window_updating_streams s) s.
Definition with_pending_stream_window (x : gset Z) (s : Streams) : Streams :=
  with_queues (pending_concurrency s) x (pending_conn_window s) (pending_send s) (window_updating_streams s) s.
Definition with_pending_conn_window (l : list Z) (s : Streams) : Streams :=
  with_queues (pending_concurrency s) (pending_stream_window s) l (pending_send s) (window_updating_streams s) s.
Definition with_pending_send (l : list Z) (s : Streams) : Streams :=
  with_queues (pending_concurrency s) (pending_stream_window s) (pending_conn_window s) l (window_updating_streams s) s.

(** A method of a stream, called through [stream_map.get_mut]. *)
Definition on_stream {E A} (id : Z) (m : ST Stream E A) : ST Streams E A := λ s,
  match stream_map s !! id with
  | Some st => let '(st, r) := m st in (with_map (<[id := st]> (stream_map s)) s, r)
  | None => (s, Panic)
  end.

(** [stream.state = x]. *)
Definition put_state {E} (id : Z) (x : H2StreamState) : ST Streams E () :=
  on_stream id (modify_st (set_state x)).
(** [stream.header = None; stream.data.clear()]. *)
Definition drop_request {E} (id : Z) : ST Streams E () :=
  on_stream id (modify_st (λ st, set_header_data None (body_clear (st_data st)) st)).

Definition on_flow {E A} (m : ST FlowControl E A) : ST Streams E A := zoom flow_control with_flow m.

(** ** Concurrency *)

Definition decrease_current_concurrency {E} : ST Streams E () :=
  s ← get_st;
  n ← lift_res (u32_check (current_concurrent_streams s - 1));
  put_st (with_concurrency (max_concurrent_streams s) n s).

Definition increase_current_concurrency {E} : ST Streams E () :=
  s ← get_st;
  n ← lift_res (u32_check (current_concurrent_streams s + 1));
  put_st (with_concurrency (max_concurrent_streams s) n s).

Definition reach_max_concurrency (s : Streams) : bool :=
  max_concurrent_streams s <=? current_concurrent_streams s.

Definition apply_max_concurrent_streams {E} (num : Z) : ST Streams E () :=
  modify_st (λ s, with_concurrency num (current_concurrent_streams s) s).

Definition push_back_pending_send {E} (id : Z) : ST Streams E () :=
  modify_st (λ s, with_pending_send (pending_send s ++ [id]) s).
Definition push_pending_concurrency {E} (id : Z) : ST Streams E () :=
  modify_st (λ s, with_pending_concurrency (pending_concurrency s ++ [id]) s).
Definition is_pending_concurrency_empty (s : Streams) : bool :=
  match pending_concurrency s with [] => true | _ => false end.

Definition next_pending_stream {E} : ST Streams E (option Z) :=
  s ← get_st;
  match pending_send s with
  | [] => mret None
  | id :: rest => _ ← put_st (with_pending_send rest s); mret (Some id)
  end.
Definition pending_stream_num (s : Streams) : Z := len (pending_send s).

(** The loop of [try_consume_pending_concurrency]: a turn takes an id. *)
Fixpoint consume_loop {E} (fuel : nat) : ST Streams E () :=
  match fuel with
  | O => panic
  | S fuel =>
      s ← get_st;
      if reach_max_concurrency s then mret ()
      else match pending_concurrency s with
           | [] => mret ()
           | id :: rest =>
               _ ← put_st (with_pending_concurrency rest s);
               _ ← increase_current_concurrency;
               _ ← push_back_pending_send id;
               consume_loop fuel
           end
  end.
Definition try_consume_pending_concurrency {E} : ST Streams E () :=
  s ← get_st; consume_loop (S (length (pending_concurrency s))).

(** ** Opening a stream *)

Definition generate_id : ST Streams DispatchErrorKind Z :=
  s ← get_st;
  let id := next_stream_id s in
  if id <? DEFAULT_MAX_STREAM_ID then _ ← put_st (with_next_id (id + 2) s); mret id
  else throw (KindH2 (ConnectionError ProtocolError)).

Definition insert {E} (id : Z) (headers : Frame) (data : BodyDataRef) : ST Streams E () :=
  modify_st (λ s,
    with_map (<[id := Stream_new (RecvWindow_new (as_i32 (stream_recv_window_size s)))
                      (SendWindow_new (as_i32 (stream_send_window_size s))) headers data]> (stream_map s)) s).

(** A request, in [ConnManager::poll_recv_request] of [util/h2/manager.rs]; the
    map of the senders of responses is left aside. *)
Definition open_request (flag : Z) (payload : Payload) (data : BodyDataRef) : ST Streams DispatchErrorKind () :=
  id ← generate_id;
  let headers := mkFrame id flag payload in
  s ← get_st;
  _ ← (if reach_max_concurrency s || negb (is_pending_concurrency_empty s)
       then push_pending_concurrency id
       else _ ← increase_current_concurrency; push_back_pending_send id);
  insert id headers data.

(** ** Windows *)

Section orders.
(** The orders in which the hash map and the hash set are visited. *)
Variable map_order : gmap Z Stream → list Z.
Variable set_order : gset Z → list Z.

(** [for (_id, stream) in self.stream_map.iter_mut() { m?; }]. *)
Fixpoint for_streams {E} (ids : list Z) (m : ST Stream E ()) : ST Streams E () :=
  match ids with
  | [] => mret ()
  | id :: ids => _ ← on_stream id m; for_streams ids m
  end.

Definition apply_send_initial_window_size (size : Z) : ST Streams H2Error () :=
  s ← get_st;
  let current := stream_send_window_size s in
  _ ← put_st (with_sizes (stream_recv_window_size s) size s);
  match current ?= size with
  | Lt =>
      let excess := size - current in
      _ ← for_streams (map_order (stream_map s)) (zoom st_send_window set_send_window (increase_size excess));
      modify_st (λ s, with_pending_stream_window ∅
        (with_pending_send (pending_send s ++ set_order (pending_stream_window s)) s))
  | Gt =>
      let excess := current - size in
      for_streams (map_order (stream_map s)) (zoom st_send_window set_send_window (reduce_size excess))
  | Eq => mret ()
  end.

Definition apply_recv_initial_window_size {E} (size : Z) : ST Streams E () :=
  s ← get_st;
  let current := stream_recv_window_size s in
  _ ← put_st (with_sizes size (stream_send_window_size s) s);
  match current ?= size with
  | Lt =>
      let extra := size - current in
      for_streams (map_order (stream_map s)) (zoom st_recv_window set_recv_window
        (_ ← increase_notification extra; increase_actual extra))
  | Gt =>
      for_streams (map_order (stream_map s)) (zoom st_recv_window set_recv_window
        (reduce_notification (current - size)))
  | Eq => mret ()
  end.

(** [get_unset_streams]: the streams above [last_stream_id], which are closed. *)
Fixpoint unset_streams {E} (ids : list Z) (last_stream_id : Z) : ST Streams E (list Z) :=
  match ids with
  | [] => mret []
  | id :: ids =>
      if last_stream_id <? id then
        s ← get_st;
        _ ← match st_state <$> stream_map s !! id with
            | Some (Closed _) => mret ()
            | Some Idle => _ ← put_state id (Closed RemoteGoAway); drop_request id
            | Some _ =>
                _ ← decrease_current_concurrency;
                _ ← put_state id (Closed RemoteGoAway); drop_request id
            | None => panic
            end;
        rest ← unset_streams ids last_stream_id; mret (id :: rest)
      else unset_streams ids last_stream_id
  end.
Definition get_unset_streams {E} (last_stream_id : Z) : ST Streams E (list Z) :=
  s ← get_st; unset_streams (map_order (stream_map s)) last_stream_id.

(** [get_all_unclosed_streams]. *)
Fixpoint unclosed_streams {E} (ids : list Z) : ST Streams E (list Z) :=
  match ids with
  | [] => mret []
  | id :: ids =>
      s ← get_st;
      match st_state <$> stream_map s !! id with
      | Some (Closed _) => unclosed_streams ids
      | Some _ =>
          _ ← drop_request id; _ ← put_state id (Closed LocalGoAway);
          rest ← unclosed_streams ids; mret (id :: rest)
      | None => panic
      end
  end.
Definition get_all_unclosed_streams {E} : ST Streams E (list Z) :=
  s ← get_st; unclosed_streams (map_order (stream_map s)).
End orders.

(** The channel to the task that writes frames. *)
Record Sender := mkSender { tx_closed : bool; tx_sent : list Frame }.
Definition sender_send (f : Frame) : ST Sender DispatchErrorKind () := λ c,
  if tx_closed c then (c, Err KindChannelClosed) else (mkSender false (tx_sent c ++ [f]), Ok ()).

Definition on_streams {A} (m : ST Streams DispatchErrorKind A) : ST (Streams * Sender) DispatchErrorKind A :=
  zoom fst (λ s p, (s, p.2)) m.
Definition on_sender {A} (m : ST Sender DispatchErrorKind A) : ST (Streams * Sender) DispatchErrorKind A :=
  zoom snd (λ c p, (p.1, c)) m.
Definition send_option (f : option Frame) : ST (Streams * Sender) DispatchErrorKind () :=
  match f with Some f => on_sender (sender_send f) | None => mret () end.

Definition release_stream_recv_window (id size : Z) : ST (Streams * Sender) DispatchErrorKind () :=
  p ← get_st;
  match stream_map p.1 !! id with
  | None => mret ()
  | Some stream =>
      if notification_available (st_recv_window stream) <? size
      then throw (KindH2 (StreamError id FlowControlError))
      else
        stream ← on_streams (on_stream id (_ ← zoom st_recv_window set_recv_window (window_recv_data size); get_st));
        u ← lift_res (unreleased_size (st_recv_window stream));
        match u with
        | None => mret ()
        | Some _ =>
            if negb (is_init_or_active_flow_control stream) then mret ()
            else
              f ← on_streams (on_stream id (zoom st_recv_window set_recv_window (check_window_update id)));
              send_option f
        end
  end.

Definition release_conn_recv_window (size : Z) : ST (Streams * Sender) DispatchErrorKind () :=
  p ← get_st;
  if recv_notification_size_available (flow_control p.1) <? size
  then throw (KindH2 (ConnectionError FlowControlError))
  else
    _ ← on_streams (on_flow (conn_recv_data size));
    f ← on_streams (on_flow check_conn_recv_window_update);
    send_option f.

Definition increase_conn_send_window (size : Z) : ST Streams H2Error () := on_flow (increase_send_size size).

(** The loop of [reassign_conn_send_window]: a turn takes an id. *)
Fixpoint reassign_loop {E} (fuel : nat) : ST Streams E () :=
  match fuel with
  | O => panic
  | S fuel =>
      s ← get_st;
      match pending_conn_window s with
      | [] => mret ()
      | id :: rest =>
          _ ← put_st (with_pending_conn_window rest s);
          _ ← push_back_pending_send id;
          reassign_loop fuel
      end
  end.
Definition reassign_conn_send_window {E} : ST Streams E () :=
  s ← get_st; reassign_loop (S (length (pending_conn_window s))).

Definition reassign_stream_send_window (id size : Z) : ST Streams H2Error () :=
  s ← get_st;
  _ ← match stream_map s !! id with
      | Some _ => on_stream id (zoom st_send_window set_send_window (increase_size size))
      | None => mret ()
      end;
  s ← get_st;
  if decide (id ∈ pending_stream_window s)
  then _ ← put_st (with_pending_stream_window (pending_stream_window s ∖ {[id]}) s); push_back_pending_send id
  else mret ().

(** ** Frames sent and received *)

Definition is_closed_state (x : H2StreamState) : bool := match x with Closed _ => true | _ => false end.

Definition is_closed (s : Streams) : bool :=
  forallb (λ p, is_closed_state (st_state p.2)) (map_to_list (stream_map s)).

Definition stream_state (id : Z) (s : Streams) : option H2StreamState := st_state <$> stream_map s !! id.

Definition protocol_error : FrameRecvState := RecvErr (ConnectionError ProtocolError).

(** [Streams::headers]. *)
Definition headers (id : Z) : ST Streams H2Error (option Frame) :=
  s ← get_st;
  match stream_map s !! id with
  | None => throw (ConnectionError IntervalError)
  | Some stream =>
      match st_state stream with
      | Closed _ => mret None
      | _ =>
          _ ← on_stream id (modify_st (λ st, set_header_data None (st_data st) st));
          mret (st_header stream)
      end
  end.

(** [poll_sized_data], with the outcome of the [poll_read] into [room] bytes. *)
Definition poll_sized_data (outcome : Z → PollRead) (id room : Z) : ST Streams H2Error DataReadState :=
  s ← get_st;
  match stream_map s !! id with
  | None => throw (ConnectionError IntervalError)
  | Some stream =>
      match body_poll_read (outcome room) (st_data stream) with
      | PollReady data =>
          let size := len data in
          if 0 <? size then
            _ ← on_stream id (zoom st_send_window set_send_window (send_data size));
            _ ← on_flow (conn_send_data size);
            mret (ReadReady (mkFrame id 0 (PData data)))
          else mret (ReadFinish (mkFrame id (set_end_stream true 1) (PData [])))
      | PollError => throw (StreamError id IntervalError)
      | PollPending => _ ← push_back_pending_send id; mret ReadPending
      end
  end.

Definition poll_read_body (outcome : Z → PollRead) (id : Z) : ST Streams H2Error DataReadState :=
  s ← get_st;
  match stream_map s !! id with
  | None => throw (ConnectionError IntervalError)
  | Some stream =>
      match st_state stream with
      | Closed _ => mret ReadClosed
      | _ =>
          let stream_send_vacant := size_available (st_send_window stream) in
          if stream_send_vacant =? 0 then
            _ ← put_st (with_pending_stream_window ({[id]} ∪ pending_stream_window s) s); mret ReadPending
          else
            let conn_send_vacant := send_size_available (flow_control s) in
            if conn_send_vacant =? 0 then
              _ ← put_st (with_pending_conn_window (pending_conn_window s ++ [id]) s); mret ReadPending
            else
              let available := Z.min stream_send_vacant conn_send_vacant in
              poll_sized_data outcome id (Z.min available BODY_FRAME_SIZE)
      end
  end.

Definition clear_streams_states {E} : ST Streams E () := modify_st (with_queues [] ∅ [] [] []).

Definition send_local_reset {E} (id : Z) : ST Streams E StreamEndState :=
  s ← get_st;
  match stream_map s !! id with
  | None => mret (EndErr (ConnectionError ProtocolError))
  | Some stream =>
      match st_state stream with
      | Closed (LocalRst | LocalGoAway | RemoteRst | RemoteGoAway) => mret EndIgnore
      | Closed EndStream => _ ← put_state id (Closed LocalRst); mret EndIgnore
      | _ =>
          _ ← put_state id (Closed LocalRst);
          _ ← drop_request id;
          _ ← decrease_current_concurrency;
          mret EndOK
      end
  end.

Definition recv_remote_reset {E} (id : Z) : ST Streams E StreamEndState :=
  s ← get_st;
  if max_recv_id s <? id then mret EndIgnore
  else match stream_map s !! id with
       | None => mret (EndErr (ConnectionError ProtocolError))
       | Some stream =>
           match st_state stream with
           | Closed _ => mret EndIgnore
           | _ =>
               _ ← put_state id (Closed RemoteRst);
               _ ← drop_request id;
               _ ← decrease_current_concurrency;
               mret EndOK
           end
       end.

Definition send_headers_frame {E} (id : Z) (eos : bool) : ST Streams E FrameRecvState :=
  s ← get_st;
  match stream_map s !! id with
  | None => mret protocol_error
  | Some stream =>
      match st_state stream with
      | Idle =>
          _ ← put_state id (if eos then LocalHalfClosed WaitHeaders else Open WaitData WaitHeaders);
          mret RecvOK
      | Open WaitHeaders recv =>
          _ ← put_state id (if eos then LocalHalfClosed recv else Open WaitData recv);
          mret RecvOK
      | RemoteHalfClosed WaitHeaders =>
          _ ← (if eos then _ ← decrease_current_concurrency; put_state id (Closed EndStream)
               else put_state id (RemoteHalfClosed WaitData));
          mret RecvOK
      | _ => mret protocol_error
      end
  end.

Definition send_data_frame {E} (id : Z) (eos : bool) : ST Streams E FrameRecvState :=
  s ← get_st;
  match stream_map s !! id with
  | None => mret protocol_error
  | Some stream =>
      match st_state stream with
      | Open WaitData recv =>
          _ ← (if eos then put_state id (LocalHalfClosed recv) else mret ()); mret RecvOK
      | RemoteHalfClosed WaitData =>
          _ ← (if eos then _ ← decrease_current_concurrency; put_state id (Closed EndStream) else mret ());
          mret RecvOK
      | _ => mret protocol_error
      end
  end.

(** [change_stream_state!(HalfClosed: eos, state)]. *)
Definition half_closed (eos : bool) : H2StreamState :=
  if eos then Closed EndStream else LocalHalfClosed WaitData.

Definition recv_headers {E} (id : Z) (eos : bool) : ST Streams E FrameRecvState :=
  s ← get_st;
  if max_recv_id s <? id then mret RecvIgnore
  else match stream_map s !! id with
       | None => mret protocol_error
       | Some stream =>
           match st_state stream with
           | Idle =>
               _ ← put_state id (if eos then RemoteHalfClosed WaitHeaders else Open WaitHeaders WaitData);
               mret RecvOK
           | ReservedRemote | LocalHalfClosed WaitHeaders =>
               _ ← put_state id (half_closed eos);
               _ ← (if eos then decrease_current_concurrency else mret ());
               mret RecvOK
           | Open send WaitHeaders =>
               _ ← put_state id (if eos then RemoteHalfClosed send else Open send WaitData);
               mret RecvOK
           | Closed (LocalGoAway | LocalRst) => mret RecvIgnore
           | _ => mret protocol_error
           end
       end.

(** [Streams::recv_data]. *)
Definition recv_data {E} (id : Z) (eos : bool) : ST Streams E FrameRecvState :=
  s ← get_st;
  if max_recv_id s <? id then mret RecvIgnore
  else match stream_map s !! id with
       | None => mret protocol_error
       | Some stream =>
           match st_state stream with
           | Open send WaitData =>
               _ ← (if eos then put_state id (RemoteHalfClosed send) else mret ()); mret RecvOK
           | LocalHalfClosed WaitData =>
               _ ← (if eos then _ ← put_state id (Closed EndStream); decrease_current_concurrency else mret ());
               mret RecvOK
           | Closed (LocalGoAway | LocalRst) => mret RecvIgnore
           | _ => mret protocol_error
           end
       end.

(** ** Events of a stream

    The six handlers as one function of what is sent or received. *)
Inductive StreamEvent :=
  | SendHeaders (eos : bool) | SendData (eos : bool) | RecvHeaders (eos : bool) | RecvData (eos : bool)
  | SendReset | RecvReset.

Inductive Outcome := Done | Ignored | Failed (e : H2Error).

Definition of_recv (r : FrameRecvState) : Outcome :=
  match r with RecvOK => Done | RecvIgnore => Ignored | RecvErr e => Failed e end.
Definition of_end (r : StreamEndState) : Outcome :=
  match r with EndOK => Done | EndIgnore => Ignored | EndErr e => Failed e end.

Definition handle (ev : StreamEvent) (id : Z) : ST Streams H2Error Outcome :=
  match ev with
  | SendHeaders eos => r ← send_headers_frame id eos; mret (of_recv r)
  | SendData eos => r ← send_data_frame id eos; mret (of_recv r)
  | RecvHeaders eos => r ← recv_headers id eos; mret (of_recv r)
  | RecvData eos => r ← recv_data id eos; mret (of_recv r)
  | SendReset => r ← send_local_reset id; mret (of_end r)
  | RecvReset => r ← recv_remote_reset id; mret (of_end r)
  end.

(** The stream [id] becomes [st], with one stream less when this closes it. *)
Definition moved (id : Z) (st : Stream) (s : Streams) : Streams :=
  with_concurrency (max_concurrent_streams s)
    (current_concurrent_streams s - (if is_closed_state (st_state st) then 1 else 0))
    (with_map (<[id := st]> (stream_map s)) s).

(** The states of RFC 9113 section 5.1, and its transitions; [None] is an error
    of whoever causes the event. *)
Inductive RfcState := RIdle | ROpen | RReservedRemote | RHalfClosedLocal | RHalfClosedRemote | RClosed.

Definition rfc_state (x : H2StreamState) : RfcState :=
  match x with
  | Idle => RIdle
  | Open _ _ => ROpen
  | ReservedRemote => RReservedRemote
  | LocalHalfClosed _ => RHalfClosedLocal
  | RemoteHalfClosed _ => RHalfClosedRemote
  | Closed _ => RClosed
  end.

Definition rfc_next (ev : StreamEvent) (x : RfcState) : option RfcState :=
  match x, ev with
  | RIdle, SendHeaders eos => Some (if eos then RHalfClosedLocal else ROpen)
  | RIdle, RecvHeaders eos => Some (if eos then RHalfClosedRemote else ROpen)
  | ROpen, (SendHeaders eos | SendData eos) => Some (if eos then RHalfClosedLocal else ROpen)
  | ROpen, (RecvHeaders eos | RecvData eos) => Some (if eos then RHalfClosedRemote else ROpen)
  | RReservedRemote, RecvHeaders eos => Some (if eos then RClosed else RHalfClosedLocal)
  | RHalfClosedLocal, (RecvHeaders eos | RecvData eos) => Some (if eos then RClosed else RHalfClosedLocal)
  | RHalfClosedRemote, (SendHeaders eos | SendData eos) => Some (if eos then RClosed else RHalfClosedRemote)
  | (ROpen | RReservedRemote | RHalfClosedLocal | RHalfClosedRemote), (SendReset | RecvReset) => Some RClosed
  | _, _ => None
  end.

Definition is_reset (ev : StreamEvent) : bool :=
  match ev with SendReset | RecvReset => true | _ => false end.

(** What a reset drops, nothing else. *)
Definition after_event (ev : StreamEvent) (x : H2StreamState) (st : Stream) : Stream :=
  set_state x (if is_reset ev then set_header_data None (body_clear (st_data st)) st else st).

Lemma on_stream_eq {E A} id (m : ST Stream E A) s st :
  stream_map s !! id = Some st →
  on_stream id m s = (with_map (<[id := (m st).1]> (stream_map s)) s, (m st).2).
Proof. intros H. unfold on_stream. rewrite H. by destruct (m st). Qed.

Lemma put_state_eq {E} id x s st :
  stream_map s !! id = Some st →
  put_state (E := E) id x s = (with_map (<[id := set_state x st]> (stream_map s)) s, Ok ()).
Proof. intros H. unfold put_state. by rewrite (on_stream_eq _ _ _ st). Qed.

Lemma drop_request_eq {E} id s st :
  stream_map s !! id = Some st →
  drop_request (E := E) id s =
    (with_map (<[id := set_header_data None (body_clear (st_data st)) st]> (stream_map s)) s, Ok ()).
Proof. intros H. unfold drop_request. by rewrite (on_stream_eq _ _ _ st). Qed.

Lemma decrease_eq {E} s :
  decrease_current_concurrency (E := E) s =
    if (1 <=? current_concurrent_streams s) && (current_concurrent_streams s <=? 2 ^ 32)
    then (with_concurrency (max_concurrent_streams s) (current_concurrent_streams s - 1) s, Ok ())
    else (s, Panic).
Proof.
  unfold decrease_current_concurrency. rewrite bind_st. cbn [get_st]. rewrite bind_st. unfold lift_res, u32_check.
  destruct (Z.leb_spec 0 (current_concurrent_streams s - 1)), (Z.ltb_spec (current_concurrent_streams s - 1) (2 ^ 32)),
    (Z.leb_spec 1 (current_concurrent_streams s)), (Z.leb_spec (current_concurrent_streams s) (2 ^ 32));
    try lia; done.
Qed.

(** One stream less can be counted. *)
Definition can_close (s : Streams) : Prop := 1 ≤ current_concurrent_streams s ≤ 2 ^ 32.

#[export] Instance can_close_dec s : Decision (can_close s).
Proof. unfold can_close. apply _. Defined.

Lemma decrease_ok {E} s :
  can_close s → decrease_current_concurrency (E := E) s =
    (with_concurrency (max_concurrent_streams s) (current_concurrent_streams s - 1) s, Ok ()).
Proof.
  intros H. unfold can_close in H. rewrite decrease_eq.
  by destruct (Z.leb_spec 1 (current_concurrent_streams s)), (Z.leb_spec (current_concurrent_streams s) (2 ^ 32)); try lia.
Qed.

Lemma decrease_panics {E} s : ¬ can_close s → decrease_current_concurrency (E := E) s = (s, Panic).
Proof.
  intros H. unfold can_close in H. rewrite decrease_eq.
  by destruct (Z.leb_spec 1 (current_concurrent_streams s)), (Z.leb_spec (current_concurrent_streams s) (2 ^ 32)); try lia.
Qed.

Lemma reassign_loop_eq {E} fuel s :
  (length (pending_conn_window s) < fuel)%nat →
  reassign_loop (E := E) fuel s =
    (with_pending_conn_window [] (with_pending_send (pending_send s ++ pending_conn_window s) s), Ok ()).
Proof.
  revert s. induction fuel as [|fuel IH]; intros s Hf; [lia|]. cbn [reassign_loop]. rewrite bind_st. cbn [get_st].
  destruct (pending_conn_window s) as [|id rest] eqn:Hp.
  - rewrite app_nil_r. destruct s. cbn in *. by subst.
  - rewrite bind_st. cbn [put_st]. rewrite bind_st. cbn [push_back_pending_send modify_st].
    rewrite IH by (cbn in *; lia). cbn. by rewrite <- app_assoc.
Qed.

(** The streams that wait for the window of the connection are ready again, in
    the order they came. *)
Lemma reassign_conn_eq {E} s :
  reassign_conn_send_window (E := E) s =
    (with_pending_conn_window [] (with_pending_send (pending_send s ++ pending_conn_window s) s), Ok ()).
Proof. unfold reassign_conn_send_window. rewrite bind_st. cbn [get_st]. apply reassign_loop_eq; lia. Qed.

Ltac handler_step :=
  repeat first
    [ progress rewrite bind_st
    | progress cbn [get_st of_recv of_end half_closed]
    | match goal with
      | |- context [@mret (ST Streams ?E) ?I ?A ?a ?s] => change (@mret (ST Streams E) I A a s) with (s, @Ok E A a)
      | H : stream_map _ !! _ = Some ?st |- context [put_state _ _ _] => rewrite (put_state_eq _ _ _ st) by exact H
      | |- context [put_state _ _ _] => erewrite put_state_eq by (cbn; eassumption || apply lookup_insert_eq)
      | |- context [drop_request _ _] => erewrite drop_request_eq by (cbn; apply lookup_insert_eq)
      | H : can_close _ |- context [decrease_current_concurrency _] => rewrite decrease_ok by exact H
      | H : ¬ can_close _ |- context [decrease_current_concurrency _] => rewrite decrease_panics by exact H
      end ].

Lemma moved_open id st s :
  is_closed_state (st_state st) = false → moved id st s = with_map (<[id := st]> (stream_map s)) s.
Proof. intros H. unfold moved. rewrite H, Z.sub_0_r. by destruct s. Qed.

Lemma moved_same id st s :
  is_closed_state (st_state st) = false → stream_map s !! id = Some st → moved id (set_state (st_state st) st) s = s.
Proof.
  intros Hc H. rewrite moved_open by done. assert (set_state (st_state st) st = st) as -> by (by destruct st).
  rewrite insert_id by done. by destruct s.
Qed.

(** The event moves the stream as RFC 9113 does. *)
Definition rfc_event (ev : StreamEvent) (x x' : H2StreamState) : Prop := rfc_next ev (rfc_state x) = Some (rfc_state x').
(** What RFC 9113 does not have, and the code does: a reset closes an idle stream. *)
Definition idle_reset (ev : StreamEvent) (x x' : H2StreamState) : Prop := is_reset ev = true ∧ x = Idle ∧ rfc_state x' = RClosed.
Definition code_event (ev : StreamEvent) (x x' : H2StreamState) : Prop := rfc_event ev x x' ∨ idle_reset ev x x'.

(** The outcome of an event for a stream of the map. *)
Definition event_ok (ev : StreamEvent) (id : Z) (s : Streams) (st : Stream)
    (out : Streams * result H2Error Outcome) : Prop :=
  match out with
  | (s', Ok Done) =>
      ∃ x, s' = moved id (after_event ev x st) s ∧ code_event ev (st_state st) x ∧ is_closed_state (st_state st) = false ∧
        (is_closed_state x = true → can_close s)
  | (s', Ok Ignored) =>
      s' = s ∨ (ev = SendReset ∧ st_state st = Closed EndStream ∧
                s' = with_map (<[id := set_state (Closed LocalRst) st]> (stream_map s)) s)
  | (s', Ok (Failed e)) => s' = s ∧ e = ConnectionError ProtocolError
  | (_, Err _) => False
  | (_, Panic) => ¬ can_close s ∧ is_closed_state (st_state st) = false ∧ code_event ev (st_state st) (Closed EndStream)
  end.

Lemma event_moves ev id s st x :
  is_closed_state x = false → code_event ev (st_state st) x → is_closed_state (st_state st) = false →
  is_reset ev = false →
  event_ok ev id s st (with_map (<[id := set_state x st]> (stream_map s)) s, Ok Done).
Proof.
  intros Hx Hr Hc Hn. exists x. split_and!; [|done|done|congruence].
  unfold after_event. rewrite Hn. by rewrite moved_open.
Qed.

Lemma event_stays ev id s st :
  stream_map s !! id = Some st → code_event ev (st_state st) (st_state st) → is_closed_state (st_state st) = false →
  is_reset ev = false → event_ok ev id s st (s, Ok Done).
Proof.
  intros H Hr Hc Hn. exists (st_state st). split_and!; [|done|done|congruence].
  unfold after_event. rewrite Hn. by rewrite moved_same.
Qed.

Lemma event_closes ev id s st r :
  can_close s → code_event ev (st_state st) (Closed r) → is_closed_state (st_state st) = false →
  event_ok ev id s st
    (with_concurrency (max_concurrent_streams s) (current_concurrent_streams s - 1)
       (with_map (<[id := after_event ev (Closed r) st]> (stream_map s)) s), Ok Done).
Proof. intros Hcc Hr Hc. exists (Closed r). by split_and!. Qed.

Lemma event_resets ev id s st r :
  can_close s → code_event ev (st_state st) (Closed r) → is_closed_state (st_state st) = false → is_reset ev = true →
  let s1 := with_map (<[id := set_state (Closed r) st]> (stream_map s)) s in
  let st1 := set_state (Closed r) st in
  let s2 := with_map (<[id := set_header_data None (body_clear (st_data st1)) st1]> (stream_map s1)) s1 in
  event_ok ev id s st
    (with_concurrency (max_concurrent_streams s2) (current_concurrent_streams s2 - 1) s2, Ok Done).
Proof.
  intros Hcc Hr Hc Hn s1 st1 s2. exists (Closed r). split_and!; [|done|done|done].
  unfold after_event, moved. rewrite Hn. subst s2 s1 st1. cbn. by rewrite insert_insert_eq.
Qed.

Ltac event_end Ex :=
  first
    [ done | by left | by split | (split_and!; rewrite ?Ex; first [done | by left | by right])
    | apply event_stays; rewrite ?Ex; first [done | by left]
    | apply event_moves; rewrite ?Ex; first [done | by left]
    | match goal with |- event_ok ?ev ?id ?s ?st _ => refine (event_closes ev id s st EndStream _ _ _) end;
        rewrite ?Ex; first [done | by left]
    | apply event_resets; rewrite ?Ex; first [done | by left | by right]
    | right; by rewrite ?Ex ].

Lemma handle_some ev id s st :
  stream_map s !! id = Some st → event_ok ev id s st (handle ev id s).
Proof.
  intros Est. destruct (decide (can_close s)) as [Hcc|Hcc]; destruct ev as [[]|[]|[]|[]| |];
    unfold handle, send_headers_frame, send_data_frame, recv_headers, recv_data, send_local_reset, recv_remote_reset;
    handler_step; rewrite ?Est; try (destruct (max_recv_id s <? id); handler_step; [by left|]);
    destruct (st_state st) as [|[] []| |[]|[]|[]] eqn:Ex; handler_step; event_end Ex.
Qed.

(** An event for a stream that is not in the map. *)
Lemma handle_none ev id s :
  stream_map s !! id = None → handle ev id s = (s, Ok Ignored) ∨ handle ev id s = (s, Ok (Failed (ConnectionError ProtocolError))).
Proof.
  intros En. destruct ev; unfold handle, send_headers_frame, send_data_frame, recv_headers, recv_data,
    send_local_reset, recv_remote_reset; handler_step; rewrite ?En;
    try (destruct (max_recv_id s <? id); handler_step; [by left|]); by right.
Qed.


(** C30: every frame that a stream accepts, sent or received, and every reset
    moves it as the state machine of RFC 9113 section 5.1 does, with one exception
    that the code adds: a reset, sent or received, closes an idle stream
    ([idle_reset]; the RFC makes a RST_STREAM for an idle stream a connection error).
    It changes no other stream, and counts one stream less exactly when this one
    closes; what is refused is a connection error PROTOCOL_ERROR and changes
    nothing; what is ignored changes nothing but the reason of a stream that was
    closed; the one panic is the underflow of the counter, when a stream that is
    not closed would close and no stream is counted. *)
Theorem stream_events_rfc (ev : StreamEvent) (id : Z) (s : Streams) :
  match handle ev id s with
  | (s', Ok Done) =>
      ∃ st x, stream_map s !! id = Some st ∧ s' = moved id (after_event ev x st) s ∧
        (rfc_event ev (st_state st) x ∨ idle_reset ev (st_state st) x) ∧ is_closed_state (st_state st) = false
  | (s', Ok Ignored) =>
      s' = s ∨ ∃ st, stream_map s !! id = Some st ∧ st_state st = Closed EndStream ∧
        s' = with_map (<[id := set_state (Closed LocalRst) st]> (stream_map s)) s
  | (s', Ok (Failed e)) => s' = s ∧ e = ConnectionError ProtocolError
  | (_, Err _) => False
  | (_, Panic) =>
      ¬ can_close s ∧ ∃ st, stream_map s !! id = Some st ∧ is_closed_state (st_state st) = false ∧
        (rfc_event ev (st_state st) (Closed EndStream) ∨ idle_reset ev (st_state st) (Closed EndStream))
  end.
Proof.
  destruct (stream_map s !! id) as [st|] eqn:Est.
  - pose proof (handle_some ev id s st Est) as H. unfold event_ok in H.
    destruct (handle ev id s) as [s' [[| |e]|e|]]; [|..]; try done.
    + destruct H as (x & ? & ? & ? & _). by exists st, x.
    + destruct H as [?|(_ & ? & ?)]; [by left|right; by exists st].
    + destruct H as (? & ? & ?). split; [done|by exists st].
  - destruct (handle_none ev id s Est) as [->| ->]; [by left|by split].
Qed.

