(* ===== verification/H2Accounting.v ===== *)
(** * Accounting of the streams of the HTTP/2 client

    The operations of [H2Streams] as the steps of a connection, and what holds
    after any sequence of them: [current_concurrent_streams] is the number of the
    streams that are not closed, less the length of the queue of waiting streams. *)

From S2P Require Import Prelude H2Error Headers Parts H2Frame H2Window H2Streams.
#[local] Open Scope Z_scope.

(** ** What counts *)

Definition states (s : Streams) : gmap Z H2StreamState := st_state <$> stream_map s.

(** The streams that are not closed, and those of them that left the queue. *)
Definition open_streams (s : Streams) : gmap Z H2StreamState := filter (λ p, is_closed_state p.2 = false) (states s).
Definition active (s : Streams) : gmap Z H2StreamState := filter (λ p, p.1 ∉ pending_concurrency s) (open_streams s).

Definition streams_inv (s : Streams) : Prop :=
  current_concurrent_streams s + len (pending_concurrency s) = Z.of_nat (size (open_streams s)) ∧
  0 ≤ current_concurrent_streams s < 2 ^ 32 ∧
  0 ≤ max_concurrent_streams s < 2 ^ 32 ∧ NoDup (pending_concurrency s) ∧
  (∀ id, id ∈ pending_concurrency s → is_Some (states s !! id)) ∧
  Z.odd (next_stream_id s) = true ∧ 1 ≤ next_stream_id s ∧
  (∀ id, is_Some (states s !! id) → 1 ≤ id < next_stream_id s ∧ Z.odd id = true).

Lemma states_moved id st s : states (moved id st s) = <[id := st_state st]> (states s).
Proof. unfold states, moved. cbn. by rewrite fmap_insert. Qed.

Lemma open_lookup s id x : open_streams s !! id = Some x ↔ states s !! id = Some x ∧ is_closed_state x = false.
Proof. unfold open_streams. by rewrite map_lookup_filter_Some. Qed.

(** A stream with this state is open. *)
Definition opens (x : option H2StreamState) : Z :=
  match x with Some x => if is_closed_state x then 0 else 1 | None => 0 end.

Lemma open_insert s s' id x :
  states s' = <[id := x]> (states s) →
  open_streams s' = if is_closed_state x then delete id (open_streams s) else <[id := x]> (open_streams s).
Proof.
  intros Hs. apply map_eq. intros i. apply option_eq. intros y. rewrite open_lookup, Hs.
  destruct (decide (i = id)) as [->|Hne].
  - rewrite lookup_insert_eq. destruct (is_closed_state x) eqn:Ex.
    + rewrite lookup_delete_eq. split; [intros ([= ->] & ?); congruence|done].
    + rewrite lookup_insert_eq. split; [by intros ([= ->] & _)|by intros [= ->]].
  - rewrite lookup_insert_ne by done.
    destruct (is_closed_state x); rewrite ?lookup_delete_ne, ?lookup_insert_ne by done; by rewrite open_lookup.
Qed.

(** A stream changes its state, or is new. *)
Lemma open_size s s' id x :
  states s' = <[id := x]> (states s) →
  Z.of_nat (size (open_streams s')) = Z.of_nat (size (open_streams s)) - opens (states s !! id) + opens (Some x).
Proof.
  intros Hs. rewrite (open_insert s s' id x Hs).
  assert (open_streams s !! id = match states s !! id with Some y => if is_closed_state y then None else Some y | None => None end) as Hl.
  { apply option_eq. intros y. rewrite open_lookup. destruct (states s !! id) as [z|]; [|by split; [intros [? _]|]].
    destruct (is_closed_state z) eqn:Ez; split; [intros ([= ->] & ?); congruence|done|by intros ([= ->] & _)|by intros [= ->]]. }
  cbn [opens]. destruct (is_closed_state x).
  - rewrite map_size_delete, Hl. destruct (states s !! id) as [y|] eqn:Ey; cbn; [|lia]. destruct (is_closed_state y) eqn:Ec; cbn; [lia|].
    assert (size (open_streams s) ≠ 0%nat); [|lia]. intros Hz%map_size_empty_inv. rewrite Hz, lookup_empty in Hl. done.
  - rewrite map_size_insert, Hl. destruct (states s !! id) as [y|]; cbn; [|lia]. destruct (is_closed_state y); cbn; lia.
Qed.

(** The streams of the queue, when they are open, are not counted. *)
Lemma queue_open s id :
  NoDup (pending_concurrency s) → (∀ i, i ∈ id :: pending_concurrency s → is_Some (open_streams s !! i)) →
  len (pending_concurrency s) ≤ Z.of_nat (size (open_streams s)) ∧
  (id ∉ pending_concurrency s → len (pending_concurrency s) < Z.of_nat (size (open_streams s))).
Proof.
  intros Hd Ho. assert (∀ l, NoDup l → (∀ i, i ∈ l → is_Some (open_streams s !! i)) → (length l ≤ size (open_streams s))%nat) as H.
  { intros l Hl Hi. rewrite <- (size_dom (D := gset Z)), <- (size_list_to_set (C := gset Z) l) by done.
    apply subseteq_size. intros i Hin%elem_of_list_to_set. by apply elem_of_dom, Hi. }
  unfold len. split.
  - pose proof (H (pending_concurrency s) Hd ltac:(intros i Hi; apply Ho; by right)). lia.
  - intros Hnin. pose proof (H (id :: pending_concurrency s) ltac:(by apply NoDup_cons) Ho) as Hl. cbn in Hl. lia.
Qed.

Lemma active_size s :
  NoDup (pending_concurrency s) → (∀ i, i ∈ pending_concurrency s → is_Some (open_streams s !! i)) →
  Z.of_nat (size (active s)) = Z.of_nat (size (open_streams s)) - len (pending_concurrency s).
Proof.
  intros Hd Ho. assert (dom (open_streams s) = dom (active s) ∪ list_to_set (C := gset Z) (pending_concurrency s)) as He.
  { apply set_eq. intros i. rewrite elem_of_union, elem_of_list_to_set, !elem_of_dom. unfold active. split.
    - intros [x Hx]. destruct (decide (i ∈ pending_concurrency s)); [by right|left]. exists x. by apply map_lookup_filter_Some.
    - intros [[x [Hx _]%map_lookup_filter_Some]|Hi]; [by exists x|by apply Ho]. }
  apply (f_equal size) in He. rewrite size_union, !size_dom, size_list_to_set in He; [unfold len; lia|done|].
  intros i. rewrite elem_of_list_to_set, elem_of_dom. unfold active. by intros [x [_ Hx]%map_lookup_filter_Some] Hi.
Qed.

(** ** Operations that leave the accounts alone *)

Definition accounts (s : Streams) : gmap Z H2StreamState * Z * Z * list Z * Z :=
  (states s, current_concurrent_streams s, max_concurrent_streams s, pending_concurrency s, next_stream_id s).
Definition same_accounts (s s' : Streams) : Prop := accounts s' = accounts s.

#[export] Instance same_accounts_equiv : Equivalence same_accounts.
Proof. split; [done|by intros s s' H|intros s1 s2 s3 H1 H2; unfold same_accounts in *; congruence]. Qed.

#[export] Instance streams_inv_proper : Proper (same_accounts ==> iff) streams_inv.
Proof.
  intros s s' H. unfold same_accounts, accounts in H. injection H as Hs Hc Hm Hp Hn.
  unfold streams_inv, open_streams. by rewrite Hs, Hc, Hm, Hp, Hn.
Qed.

(** An operation on the streams that keeps the accounts, and one on a stream
    that keeps its state. *)
Class Quiet {E A} (m : ST Streams E A) : Prop := quiet s : same_accounts s (m s).1.
Class KeepsState {E A} (m : ST Stream E A) : Prop := keeps_state st : st_state (m st).1 = st_state st.

Lemma quiet_ret {E A} (a : A) : Quiet (E := E) (mret a).
Proof. by intros s. Qed.
Lemma quiet_throw {E A} (e : E) : Quiet (A := A) (throw e).
Proof. by intros s. Qed.
Lemma quiet_panic {E A} : Quiet (E := E) (A := A) panic.
Proof. by intros s. Qed.
Lemma quiet_lift {E A} (r : result E A) : Quiet (lift_res r).
Proof. by intros s. Qed.
Lemma quiet_get {E} : Quiet (E := E) get_st.
Proof. by intros s. Qed.
Lemma quiet_bind {E A B} (m : ST Streams E A) (f : A → ST Streams E B) :
  Quiet m → (∀ a, Quiet (f a)) → Quiet (m ≫= f).
Proof.
  intros Hm Hf s. specialize (Hm s). rewrite bind_st. destruct (m s) as [s1 [a|e|]]; cbn in *; [|done|done].
  etrans; [exact Hm|apply Hf].
Qed.
(** What is read is the state that is put back. *)
Lemma quiet_get_bind {E A} (f : Streams → ST Streams E A) :
  (∀ s, same_accounts s (f s s).1) → Quiet (s ← get_st; f s).
Proof. intros H s. apply H. Qed.
Lemma quiet_put_bind {E A} (m : ST Streams E A) s s' :
  same_accounts s s' → Quiet m → same_accounts s ((_ ← put_st s'; m) s).1.
Proof. intros H Hm. rewrite bind_st. cbn. etrans; [exact H|apply Hm]. Qed.
Lemma quiet_modify {E} (f : Streams → Streams) : (∀ s, same_accounts s (f s)) → Quiet (E := E) (modify_st f).
Proof. intros H s. apply H. Qed.
Lemma quiet_flow {E A} (m : ST FlowControl E A) : Quiet (on_flow m).
Proof. intros s. unfold on_flow, zoom. by destruct (m (flow_control s)) as [? []]. Qed.
Lemma quiet_stream {E A} id (m : ST Stream E A) : KeepsState m → Quiet (on_stream id m).
Proof.
  intros Hm s. unfold on_stream. destruct (stream_map s !! id) as [st|] eqn:Est; [|done].
  specialize (Hm st). destruct (m st) as [st' r]. cbn in *. unfold same_accounts, accounts. cbn.
  f_equal. do 4 f_equal. unfold states. cbn. rewrite fmap_insert, Hm. apply insert_id. by rewrite lookup_fmap, Est.
Qed.

Lemma keeps_recv {E A} (m : ST RecvWindow E A) : KeepsState (zoom st_recv_window set_recv_window m).
Proof. intros st. unfold zoom. by destruct (m (st_recv_window st)) as [? []]. Qed.
Lemma keeps_send {E A} (m : ST SendWindow E A) : KeepsState (zoom st_send_window set_send_window m).
Proof. intros st. unfold zoom. by destruct (m (st_send_window st)) as [? []]. Qed.
Lemma keeps_header {E} h d : KeepsState (E := E) (modify_st (λ st, set_header_data h (d st) st)).
Proof. by intros st. Qed.
Lemma keeps_bind_get {E A} (m : ST Stream E A) : KeepsState m → KeepsState (_ ← m; get_st).
Proof. intros H st. specialize (H st). rewrite bind_st. by destruct (m st) as [? []]. Qed.

Create HintDb quiet.
#[export] Hint Resolve quiet_ret quiet_throw quiet_panic quiet_lift quiet_get quiet_flow quiet_stream
  keeps_recv keeps_send keeps_header keeps_bind_get : quiet.

(** Walks through an operation. *)
Ltac quiet_tac :=
  repeat first
    [ solve [auto with quiet]
    | apply quiet_bind; [|intros ?]
    | apply quiet_modify; by intros ?
    | match goal with |- Quiet (match ?x with _ => _ end) => destruct x eqn:? end
    | match goal with |- Quiet (if ?x then _ else _) => destruct x eqn:? end ].

#[export] Instance headers_quiet id : Quiet (headers id).
Proof. unfold headers. quiet_tac. Qed.
#[export] Instance next_pending_quiet {E} : Quiet (E := E) next_pending_stream.
Proof.
  apply quiet_get_bind. intros s. destruct (pending_send s); [done|]. apply quiet_put_bind; [done|quiet_tac].
Qed.
#[export] Instance poll_sized_quiet outcome id room : Quiet (poll_sized_data outcome id room).
Proof. unfold poll_sized_data, push_back_pending_send. quiet_tac. Qed.
#[export] Instance poll_body_quiet outcome id : Quiet (poll_read_body outcome id).
Proof.
  apply quiet_get_bind. intros s. destruct (stream_map s !! id) as [st|]; [|done].
  destruct (st_state st); try done; cbv zeta;
    (destruct (size_available (st_send_window st) =? 0); [by apply quiet_put_bind; [|quiet_tac]|]);
    (destruct (send_size_available (flow_control s) =? 0); [by apply quiet_put_bind; [|quiet_tac]|]); apply poll_sized_quiet.
Qed.

#[export] Instance reassign_conn_quiet {E} : Quiet (E := E) reassign_conn_send_window.
Proof. intros s. by rewrite reassign_conn_eq. Qed.
#[export] Instance increase_conn_quiet n : Quiet (increase_conn_send_window n).
Proof. unfold increase_conn_send_window. quiet_tac. Qed.
#[export] Instance reassign_stream_quiet id n : Quiet (reassign_stream_send_window id n).
Proof.
  unfold reassign_stream_send_window, push_back_pending_send.
  do 2 (apply quiet_bind; [quiet_tac|intros ?]). apply quiet_get_bind. intros s'. destruct (decide _); [|done]. apply quiet_put_bind; [done|quiet_tac].
Qed.
Lemma for_streams_quiet {E} ids (m : ST Stream E ()) : KeepsState m → Quiet (for_streams ids m).
Proof. intros Hm. induction ids; cbn; quiet_tac. Qed.
#[export] Hint Resolve for_streams_quiet : quiet.

#[export] Instance send_initial_quiet map_order set_order n :
  Quiet (apply_send_initial_window_size map_order set_order n).
Proof.
  apply quiet_get_bind. intros s. apply quiet_put_bind; [done|]. quiet_tac.
Qed.
#[export] Instance recv_initial_quiet {E} map_order n : Quiet (E := E) (apply_recv_initial_window_size map_order n).
Proof. apply quiet_get_bind. intros s. apply quiet_put_bind; [done|]. quiet_tac. Qed.

(** The streams after an operation that also writes to the channel. *)
Class QuietSent {A} (m : ST (Streams * Sender) DispatchErrorKind A) : Prop :=
  quiet_sent p : same_accounts p.1 (m p).1.1.

Lemma sent_bind {A B} (m : ST (Streams * Sender) DispatchErrorKind A) (f : A → ST _ _ B) :
  QuietSent m → (∀ a, QuietSent (f a)) → QuietSent (m ≫= f).
Proof.
  intros Hm Hf p. specialize (Hm p). rewrite bind_st. destruct (m p) as [p1 [a|e|]]; cbn in *; [|done|done].
  etrans; [exact Hm|apply Hf].
Qed.
Lemma sent_streams {A} (m : ST Streams DispatchErrorKind A) : Quiet m → QuietSent (on_streams m).
Proof. intros Hm p. specialize (Hm p.1). unfold on_streams, zoom. by destruct (m p.1). Qed.
Lemma sent_keep {A} (m : ST (Streams * Sender) DispatchErrorKind A) : (∀ p, (m p).1.1 = p.1) → QuietSent m.
Proof. intros Hm p. by rewrite Hm. Qed.
Lemma sent_option f : QuietSent (send_option f).
Proof.
  apply sent_keep. intros p. destruct f as [f|]; [|done]. cbn. unfold on_sender, zoom, sender_send.
  by destruct (tx_closed p.2).
Qed.

Ltac sent_tac :=
  repeat first
    [ apply sent_option | solve [apply sent_keep; intros ?; reflexivity] | apply sent_streams; solve [quiet_tac]
    | apply sent_bind; [|intros ?]
    | match goal with
      | |- QuietSent (match ?x with _ => _ end) => destruct x
      | |- QuietSent (if ?x then _ else _) => destruct x
      end ].

#[export] Instance release_stream_quiet id n : QuietSent (release_stream_recv_window id n).
Proof. unfold release_stream_recv_window. sent_tac. Qed.
#[export] Instance release_conn_quiet n : QuietSent (release_conn_recv_window n).
Proof. unfold release_conn_recv_window. sent_tac. Qed.

(** ** The steps of a connection

    The calls of [ConnManager] on the streams, until a GOAWAY. *)
Inductive Op :=
  | OpenRequest (flag : Z) (payload : Payload) (data : BodyDataRef)
  | ConsumePending
  | Event (ev : StreamEvent) (id : Z)
  | MaxConcurrent (n : Z)
  | NextPending
  | TakeHeaders (id : Z)
  | PollBody (outcome : Z → PollRead) (id : Z)
  | SendInitial (n : Z) (map_order : gmap Z Stream → list Z) (set_order : gset Z → list Z)
  | RecvInitial (n : Z) (map_order : gmap Z Stream → list Z)
  | IncreaseConn (n : Z) | ReassignConn | ReassignStream (id n : Z)
  | ReleaseStream (id n : Z) (tx : Sender) | ReleaseConn (n : Z) (tx : Sender).

(** The streams after a call. *)
Definition run (o : Op) (s : Streams) : Streams :=
  match o with
  | OpenRequest flag payload data => (open_request flag payload data s).1
  | ConsumePending => (try_consume_pending_concurrency (E := H2Error) s).1
  | Event ev id => (handle ev id s).1
  | MaxConcurrent n => (apply_max_concurrent_streams (E := H2Error) n s).1
  | NextPending => (next_pending_stream (E := H2Error) s).1
  | TakeHeaders id => (headers id s).1
  | PollBody outcome id => (poll_read_body outcome id s).1
  | SendInitial n map_order set_order => (apply_send_initial_window_size map_order set_order n s).1
  | RecvInitial n map_order => (apply_recv_initial_window_size (E := H2Error) map_order n s).1
  | IncreaseConn n => (increase_conn_send_window n s).1
  | ReassignConn => (reassign_conn_send_window (E := H2Error) s).1
  | ReassignStream id n => (reassign_stream_send_window id n s).1
  | ReleaseStream id n tx => (release_stream_recv_window id n (s, tx)).1.1
  | ReleaseConn n tx => (release_conn_recv_window n (s, tx)).1.1
  end.

(** Any call, on any stream; a panic ends the task, so what follows it is no step. The
    number of a SETTINGS frame is a [u32]. *)
Definition allowed (o : Op) (s : Streams) : Prop :=
  match o with
  | Event ev id => (handle ev id s).2 ≠ Panic
  | MaxConcurrent n => 0 ≤ n < 2 ^ 32
  | _ => True
  end.

Inductive steps (s0 : Streams) : Streams → Prop :=
  | steps_refl : steps s0 s0
  | steps_step s o : steps s0 s → allowed o s → steps s0 (run o s).

(** *** Events *)

Lemma state_lookup s id st : stream_map s !! id = Some st → states s !! id = Some (st_state st).
Proof. intros H. unfold states. by rewrite lookup_fmap, H. Qed.

(** The part of the invariant about the queue and the ids. *)
Lemma ids_insert s s' id x x' :
  states s !! id = Some x → states s' = <[id := x']> (states s) → next_stream_id s' = next_stream_id s →
  (∀ i, is_Some (states s !! i) → 1 ≤ i < next_stream_id s ∧ Z.odd i = true) →
  (∀ i, is_Some (states s' !! i) → 1 ≤ i < next_stream_id s' ∧ Z.odd i = true).
Proof.
  intros Hx Hs Hn H i. rewrite Hs, Hn. destruct (decide (i = id)) as [->|Hne].
  - intros _. apply H. by exists x.
  - rewrite lookup_insert_ne by done. apply H.
Qed.

Lemma inv_insert s s' id x x' :
  streams_inv s → states s !! id = Some x → states s' = <[id := x']> (states s) →
  pending_concurrency s' = pending_concurrency s → next_stream_id s' = next_stream_id s →
  max_concurrent_streams s' = max_concurrent_streams s →
  current_concurrent_streams s' = current_concurrent_streams s - opens (Some x) + opens (Some x') →
  0 ≤ current_concurrent_streams s' ≤ current_concurrent_streams s →
  streams_inv s'.
Proof.
  intros (H1 & H2 & H3 & H4 & H5 & H6 & H7 & H8) Hx Hs Hp Hn Hm Hc Hl.
  pose proof (ids_insert s s' id x x' Hx Hs Hn H8) as H8'. pose proof (open_size s s' id x' Hs) as Hsz. rewrite Hx in Hsz.
  unfold streams_inv. rewrite Hm, Hn, Hp in *. split_and!; try done; try lia.
  intros i Hi. rewrite Hs. apply lookup_insert_is_Some'. right. by apply H5.
Qed.

Lemma after_event_state ev x st : st_state (after_event ev x st) = x.
Proof. done. Qed.

Lemma inv_moved ev id s st x :
  streams_inv s → stream_map s !! id = Some st → is_closed_state (st_state st) = false →
  (is_closed_state x = true → can_close s) → streams_inv (moved id (after_event ev x st) s).
Proof.
  intros Hi Est Hc Hx. pose proof (state_lookup s id st Est) as Hst. pose proof (states_moved id (after_event ev x st) s) as Hm.
  rewrite after_event_state in Hm. unfold can_close in Hx. assert (0 ≤ current_concurrent_streams s) as H0 by apply Hi.
  eapply inv_insert; try done; cbn; rewrite ?Hc; destruct (is_closed_state x); try specialize (Hx eq_refl); lia.
Qed.

Lemma inv_reset_closed id s st :
  streams_inv s → stream_map s !! id = Some st → st_state st = Closed EndStream →
  streams_inv (with_map (<[id := set_state (Closed LocalRst) st]> (stream_map s)) s).
Proof.
  intros Hi Est Ex. pose proof (state_lookup s id st Est) as Hst. set (s' := with_map _ s).
  assert (states s' = <[id := Closed LocalRst]> (states s)) as Hs by (unfold states; cbn; by rewrite fmap_insert).
  assert (0 ≤ current_concurrent_streams s) as H0 by apply Hi.
  eapply (inv_insert s s' id (Closed EndStream)); try done; [by rewrite Hst, Ex|cbn; lia].
Qed.

Lemma inv_event ev id s : streams_inv s → (handle ev id s).2 ≠ Panic → streams_inv (handle ev id s).1.
Proof.
  intros Hi Hp. destruct (stream_map s !! id) as [st|] eqn:Est; [|by destruct (handle_none ev id s Est) as [-> | ->]].
  pose proof (handle_some ev id s st Est) as H. destruct (handle ev id s) as [s' [[| |e]|e|]]; cbn in *; [..|done|done].
  - destruct H as (x & -> & _ & Hc & Hx). by apply inv_moved.
  - destruct H as [-> |(_ & Hx & ->)]; [done|by apply inv_reset_closed].
  - by destruct H as [-> _].
Qed.

(** When an event panics: no stream is counted, as this one waits in the queue, or one in
    the queue was closed. *)
Lemma event_panics ev id s :
  streams_inv s → (handle ev id s).2 = Panic →
  current_concurrent_streams s = 0 ∧ ∃ i, i ∈ pending_concurrency s ∧ (i = id ∨ open_streams s !! i = None).
Proof.
  intros (H1 & H2 & H3 & H4 & H5 & _) Hp. destruct (stream_map s !! id) as [st|] eqn:Est;
    [|by destruct (handle_none ev id s Est) as [E|E]; rewrite E in Hp].
  pose proof (handle_some ev id s st Est) as H. destruct (handle ev id s) as [s' [[| |e]|e|]]; cbn in *; try done.
  destruct H as (Hcc & Hc & _). unfold can_close in Hcc. assert (current_concurrent_streams s = 0) as H0 by lia. split; [done|].
  destruct (decide (Exists (λ i, i = id ∨ open_streams s !! i = None) (pending_concurrency s))) as [He|Hne];
    [by apply Exists_exists in He|]. exfalso. apply not_Exists_Forall in Hne; [|intros i; apply _]. rewrite Forall_forall in Hne.
  destruct (queue_open s id H4) as [_ Hlt].
  - intros i [->|Hin]%elem_of_cons; [exists (st_state st); apply open_lookup; by rewrite (state_lookup s id st)|].
    apply not_eq_None_Some. intros Hn. apply (Hne i Hin). by right.
  - destruct (decide (id ∈ pending_concurrency s)) as [Hin|Hin]; [apply (Hne id Hin); by left|]. specialize (Hlt Hin). lia.
Qed.

(** *** Leaving the queue *)

(** The stream [id] leaves the queue, [rest] stays. *)
Definition took (id : Z) (rest : list Z) (s : Streams) : Streams :=
  with_pending_send (pending_send s ++ [id])
    (with_concurrency (max_concurrent_streams s) (current_concurrent_streams s + 1) (with_pending_concurrency rest s)).

Lemma increase_ok {E} s :
  0 ≤ current_concurrent_streams s < max_concurrent_streams s → max_concurrent_streams s < 2 ^ 32 →
  increase_current_concurrency (E := E) s =
    (with_concurrency (max_concurrent_streams s) (current_concurrent_streams s + 1) s, Ok ()).
Proof.
  intros H1 H2. unfold increase_current_concurrency. rewrite bind_st. cbn [get_st]. rewrite bind_st.
  unfold lift_res, u32_check.
  by destruct (Z.leb_spec 0 (current_concurrent_streams s + 1)), (Z.ltb_spec (current_concurrent_streams s + 1) (2 ^ 32));
    try lia.
Qed.

Lemma consume_loop_S {E} fuel s :
  0 ≤ current_concurrent_streams s → max_concurrent_streams s < 2 ^ 32 →
  consume_loop (E := E) (S fuel) s =
    if reach_max_concurrency s then (s, Ok ())
    else match pending_concurrency s with
         | [] => (s, Ok ())
         | id :: rest => consume_loop fuel (took id rest s)
         end.
Proof.
  intros Hc Hm. cbn [consume_loop]. rewrite bind_st. cbn [get_st].
  unfold reach_max_concurrency. destruct (Z.leb_spec (max_concurrent_streams s) (current_concurrent_streams s)); [done|].
  destruct (pending_concurrency s) as [|id rest]; [done|].
  rewrite bind_st. cbn [put_st]. rewrite bind_st, increase_ok by (cbn; lia). done.
Qed.

Lemma inv_took s id rest :
  streams_inv s → pending_concurrency s = id :: rest →
  current_concurrent_streams s < max_concurrent_streams s → streams_inv (took id rest s).
Proof.
  intros (H1 & H2 & H3 & H4 & H5 & H6 & H7 & H8) Hp Hl. unfold streams_inv.
  change (states (took id rest s)) with (states s). change (open_streams (took id rest s)) with (open_streams s).
  change (pending_concurrency (took id rest s)) with rest.
  change (next_stream_id (took id rest s)) with (next_stream_id s).
  change (max_concurrent_streams (took id rest s)) with (max_concurrent_streams s).
  change (current_concurrent_streams (took id rest s)) with (current_concurrent_streams s + 1).
  rewrite Hp in H1, H4, H5. rewrite len_cons in H1. apply NoDup_cons in H4 as [_ H4].
  split_and!; try done; try lia. intros i Hi. apply H5. by right.
Qed.

Lemma inv_consume_loop {E} fuel s :
  streams_inv s → (length (pending_concurrency s) < fuel)%nat →
  streams_inv (consume_loop (E := E) fuel s).1 ∧ (consume_loop (E := E) fuel s).2 ≠ Panic.
Proof.
  revert s. induction fuel as [|fuel IH]; intros s Hi Hf; [lia|].
  assert (0 ≤ current_concurrent_streams s ∧ max_concurrent_streams s < 2 ^ 32) as [H1 H2]
    by (unfold streams_inv in Hi; lia).
  rewrite consume_loop_S by done. unfold reach_max_concurrency.
  destruct (Z.leb_spec (max_concurrent_streams s) (current_concurrent_streams s)); [done|].
  destruct (pending_concurrency s) as [|id rest] eqn:Hp; [done|].
  apply IH; [by apply inv_took|]. cbn in *. lia.
Qed.

Lemma inv_consume {E} s :
  streams_inv s → streams_inv (try_consume_pending_concurrency (E := E) s).1 ∧
    (try_consume_pending_concurrency (E := E) s).2 ≠ Panic.
Proof.
  intros Hi. unfold try_consume_pending_concurrency. rewrite bind_st. cbn [get_st].
  apply inv_consume_loop; [done|lia].
Qed.

(** *** A new request *)

(** The stream that [open_request] inserts. *)
Definition new_stream (flag : Z) (payload : Payload) (data : BodyDataRef) (s : Streams) : Stream :=
  Stream_new (RecvWindow_new (as_i32 (stream_recv_window_size s))) (SendWindow_new (as_i32 (stream_send_window_size s)))
    (mkFrame (next_stream_id s) flag payload) data.

(** The streams with it: in the queue, or ready to send. *)
Definition opened (flag : Z) (payload : Payload) (data : BodyDataRef) (s : Streams) : Streams :=
  let id := next_stream_id s in
  let s1 := with_map (<[id := new_stream flag payload data s]> (stream_map s)) (with_next_id (id + 2) s) in
  if reach_max_concurrency s || negb (is_pending_concurrency_empty s)
  then with_pending_concurrency (pending_concurrency s ++ [id]) s1
  else with_pending_send (pending_send s ++ [id])
         (with_concurrency (max_concurrent_streams s) (current_concurrent_streams s + 1) s1).

Lemma open_request_eq flag payload data s :
  0 ≤ current_concurrent_streams s → max_concurrent_streams s < 2 ^ 32 →
  open_request flag payload data s =
    if next_stream_id s <? DEFAULT_MAX_STREAM_ID then (opened flag payload data s, Ok ())
    else (s, Err (KindH2 (ConnectionError ProtocolError))).
Proof.
  intros H1 H2. unfold open_request. rewrite bind_st. unfold generate_id at 1. rewrite bind_st. cbn [get_st].
  destruct (next_stream_id s <? DEFAULT_MAX_STREAM_ID); [|done]. rewrite bind_st. cbn [put_st].
  unfold mret at 1, ST_ret at 1. cbv iota beta.
  rewrite bind_st. cbn [get_st]. rewrite bind_st. unfold opened.
  change (reach_max_concurrency (with_next_id (next_stream_id s + 2) s)) with (reach_max_concurrency s).
  change (is_pending_concurrency_empty (with_next_id (next_stream_id s + 2) s)) with (is_pending_concurrency_empty s).
  destruct (reach_max_concurrency s) eqn:Er; [done|]. destruct (is_pending_concurrency_empty s); [|done].
  cbn [orb negb]. unfold reach_max_concurrency in Er. apply Z.leb_gt in Er.
  rewrite bind_st, increase_ok by (cbn; lia). done.
Qed.

Lemma states_fresh s : streams_inv s → states s !! next_stream_id s = None.
Proof.
  intros (_ & _ & _ & _ & _ & _ & _ & H). apply eq_None_not_Some. intros Hs%H. lia.
Qed.

Lemma opened_states flag payload data s :
  states (opened flag payload data s) = <[next_stream_id s := Idle]> (states s).
Proof. unfold opened. destruct (_ || _); unfold states; cbn; by rewrite fmap_insert. Qed.

Lemma opened_ids flag payload data s :
  streams_inv s →
  let s' := opened flag payload data s in
  max_concurrent_streams s' = max_concurrent_streams s ∧
  Z.odd (next_stream_id s') = true ∧ 1 ≤ next_stream_id s' ∧
  (∀ id, is_Some (states s' !! id) → 1 ≤ id < next_stream_id s' ∧ Z.odd id = true).
Proof.
  intros (_ & _ & _ & _ & _ & H6 & H7 & H8) s'. subst s'.
  assert (next_stream_id (opened flag payload data s) = next_stream_id s + 2) as ->
    by (unfold opened; by destruct (_ || _)).
  split_and!; [unfold opened; by destruct (_ || _)| |lia|].
  - rewrite Z.odd_add, H6. done.
  - intros id. rewrite opened_states. destruct (decide (id = next_stream_id s)) as [->|Hne].
    + intros _. split; [lia|done].
    + rewrite lookup_insert_ne by done. intros Hid%H8. split; [lia|apply Hid].
Qed.

Lemma opened_queued s s' :
  streams_inv s → states s' = <[next_stream_id s := Idle]> (states s) →
  pending_concurrency s' = pending_concurrency s ++ [next_stream_id s] →
  NoDup (pending_concurrency s') ∧ (∀ id, id ∈ pending_concurrency s' → is_Some (states s' !! id)).
Proof.
  intros Hi Hs Hp. pose proof (states_fresh s Hi) as Hf. destruct Hi as (_ & _ & _ & H4 & H5 & _ & _ & _).
  assert (next_stream_id s ∉ pending_concurrency s) as Hnin.
  { intros [x Hx]%H5. congruence. }
  split.
  - rewrite Hp. apply NoDup_app. split_and!; [done| |apply NoDup_singleton].
    intros x Hx ->%list_elem_of_singleton. done.
  - intros id. rewrite Hs, Hp, elem_of_app, list_elem_of_singleton. intros [Hin| ->]; apply lookup_insert_is_Some'; auto.
Qed.

Lemma inv_opened flag payload data s : streams_inv s → streams_inv (opened flag payload data s).
Proof.
  intros Hi. pose proof (opened_ids flag payload data s Hi) as (Hm & Ho & Hn & Hids).
  pose proof (opened_states flag payload data s) as Hs. pose proof Hi as (H1 & H2 & H3 & H4 & H5 & _).
  pose proof (open_size s _ _ _ Hs) as Hsz. rewrite (states_fresh s Hi) in Hsz. cbn in Hsz.
  unfold streams_inv. rewrite Hm, Hsz.
  destruct (reach_max_concurrency s || negb (is_pending_concurrency_empty s)) eqn:E.
  - destruct (opened_queued s (opened flag payload data s) Hi Hs) as (Hd & Hq); [unfold opened; by rewrite E|].
    assert (current_concurrent_streams (opened flag payload data s) = current_concurrent_streams s ∧
      len (pending_concurrency (opened flag payload data s)) = len (pending_concurrency s) + 1) as [-> ->]
      by (unfold opened; rewrite E; split; [done|exact (len_app _ _)]).
    by split_and!; try lia.
  - apply orb_false_iff in E as E'. destruct E' as [Er Ee]. unfold reach_max_concurrency in Er. apply Z.leb_gt in Er.
    unfold is_pending_concurrency_empty in Ee. destruct (pending_concurrency s) as [|? ?] eqn:Hp; [|done].
    assert (pending_concurrency (opened flag payload data s) = []) as -> by (unfold opened; by rewrite E).
    assert (current_concurrent_streams (opened flag payload data s) = current_concurrent_streams s + 1) as ->
      by (unfold opened; by rewrite E).
    rewrite len_nil in *. split_and!; try done; try lia; try apply NoDup_nil_2. by intros id Hid%not_elem_of_nil.
Qed.

(** *** Every step *)

Lemma inv_quiet {E A} (m : ST Streams E A) s : Quiet m → streams_inv s → streams_inv (m s).1.
Proof. intros Hm Hi. by rewrite <- (Hm s). Qed.

Lemma inv_max n s : streams_inv s → 0 ≤ n < 2 ^ 32 → streams_inv (with_concurrency n (current_concurrent_streams s) s).
Proof. intros (H1 & H2 & H3 & H4 & H5 & H6 & H7 & H8) Hn. split_and!; try done; first [apply H2|apply Hn]. Qed.

Lemma inv_bounds s : streams_inv s → 0 ≤ current_concurrent_streams s ∧ max_concurrent_streams s < 2 ^ 32.
Proof. intros (_ & H2 & H3 & _). lia. Qed.

Lemma inv_open flag payload data s :
  streams_inv s → streams_inv (open_request flag payload data s).1 ∧ (open_request flag payload data s).2 ≠ Panic.
Proof.
  intros Hi. destruct (inv_bounds s Hi). rewrite open_request_eq by done.
  destruct (_ <? _); [|done]. split; [by apply inv_opened|done].
Qed.

Lemma inv_run o s : streams_inv s → allowed o s → streams_inv (run o s).
Proof.
  intros Hi Ha. destruct o; cbn [run]; try (apply inv_quiet; [apply _|done]).
  - by apply inv_open.
  - by apply inv_consume.
  - by apply inv_event.
  - by apply inv_max.
  - by rewrite <- (release_stream_quiet id n (s, tx)).
  - by rewrite <- (release_conn_quiet n (s, tx)).
Qed.

Lemma inv_new recv send fc : streams_inv (Streams_new recv send fc).
Proof.
  unfold streams_inv, open_streams, states. cbn. rewrite fmap_empty, map_filter_empty, map_size_empty.
  split_and!; try done; [apply NoDup_nil_2|by intros id Hid%not_elem_of_nil|].
  intros id [x Hx]. by rewrite lookup_empty in Hx.
Qed.

Lemma inv_steps recv send fc s : steps (Streams_new recv send fc) s → streams_inv s.
Proof. induction 1; [apply inv_new|by apply inv_run]. Qed.

(** ** The limit on concurrent streams *)

(** The first [k] streams of the queue leave it. *)
Definition consumed (k : nat) (s : Streams) : Streams :=
  with_pending_send (pending_send s ++ take k (pending_concurrency s))
    (with_concurrency (max_concurrent_streams s) (current_concurrent_streams s + Z.of_nat k)
       (with_pending_concurrency (drop k (pending_concurrency s)) s)).

(** How many do. *)
Definition room (s : Streams) : nat :=
  Nat.min (length (pending_concurrency s)) (Z.to_nat (max_concurrent_streams s - current_concurrent_streams s)).

Lemma consumed_0 s : consumed 0 s = s.
Proof. unfold consumed. rewrite take_0, drop_0, app_nil_r. cbn. rewrite Z.add_0_r. by destruct s. Qed.

Lemma consumed_S id rest s :
  pending_concurrency s = id :: rest → current_concurrent_streams s < max_concurrent_streams s →
  consumed (room s) s = consumed (room (took id rest s)) (took id rest s).
Proof.
  intros Hp Hl. assert (room s = S (room (took id rest s))) as ->.
  { unfold room. rewrite Hp. change (pending_concurrency (took id rest s)) with rest.
    change (max_concurrent_streams (took id rest s)) with (max_concurrent_streams s).
    change (current_concurrent_streams (took id rest s)) with (current_concurrent_streams s + 1).
    cbn [length]. lia. }
  unfold consumed. rewrite Hp. unfold took, with_pending_send, with_concurrency, with_pending_concurrency, with_queues. cbn.
  rewrite <- app_assoc. cbn. f_equal. lia.
Qed.

Lemma room_0 s :
  max_concurrent_streams s ≤ current_concurrent_streams s ∨ pending_concurrency s = [] → room s = 0%nat.
Proof. unfold room. intros [H| ->]; [lia|done]. Qed.

Lemma consume_loop_eq {E} fuel s :
  0 ≤ current_concurrent_streams s → max_concurrent_streams s < 2 ^ 32 →
  (length (pending_concurrency s) < fuel)%nat →
  consume_loop (E := E) fuel s = (consumed (room s) s, Ok ()).
Proof.
  revert s. induction fuel as [|fuel IH]; intros s Hc Hm Hf; [lia|].
  rewrite consume_loop_S by done. unfold reach_max_concurrency.
  destruct (Z.leb_spec (max_concurrent_streams s) (current_concurrent_streams s)) as [Hr|Hr].
  { rewrite room_0, consumed_0 by auto. done. }
  destruct (pending_concurrency s) as [|id rest] eqn:Hp.
  { rewrite room_0, consumed_0 by auto. done. }
  rewrite (consumed_S id rest) by done. apply IH; cbn in *; lia.
Qed.

Lemma try_consume_eq {E} s :
  0 ≤ current_concurrent_streams s → max_concurrent_streams s < 2 ^ 32 →
  try_consume_pending_concurrency (E := E) s = (consumed (room s) s, Ok ()).
Proof.
  intros Hc Hm. unfold try_consume_pending_concurrency. rewrite bind_st. cbn [get_st].
  by apply consume_loop_eq; [..|lia].
Qed.

Lemma quiet_current {E A} (m : ST Streams E A) s :
  Quiet m → current_concurrent_streams (m s).1 = current_concurrent_streams s.
Proof. intros Hm. pose proof (Hm s) as H. unfold same_accounts, accounts in H. congruence. Qed.

Lemma event_limit ev id s : current_concurrent_streams (handle ev id s).1 ≤ current_concurrent_streams s ∨ (handle ev id s).2 = Panic.
Proof.
  destruct (stream_map s !! id) as [st|] eqn:Est; [|left; by destruct (handle_none ev id s Est) as [-> | ->]].
  pose proof (handle_some ev id s st Est) as H. destruct (handle ev id s) as [s' [[| |e]|e|]]; cbn in *; auto; left.
  - destruct H as (x & -> & _). cbn. destruct (is_closed_state x); lia.
  - by destruct H as [-> |(_ & _ & ->)].
  - by destruct H as [-> _].
  - done.
Qed.

Lemma run_limit o s :
  streams_inv s → allowed o s → (∀ n, o ≠ MaxConcurrent n) →
  current_concurrent_streams (run o s) ≤ Z.max (current_concurrent_streams s) (max_concurrent_streams s).
Proof.
  intros Hi Ha Hn. destruct (inv_bounds s Hi). destruct o; cbn [run]; try (rewrite quiet_current by apply _; lia).
  - rewrite open_request_eq by done. destruct (_ <? _); cbn [fst]; [|lia].
    unfold opened, reach_max_concurrency. destruct (Z.leb_spec (max_concurrent_streams s) (current_concurrent_streams s)); cbn; [lia|].
    destruct (negb _); cbn; lia.
  - rewrite try_consume_eq by done. unfold room. cbn. lia.
  - pose proof (event_limit ev id s) as [Hl|Hl]; [lia|done].
  - by destruct (Hn n).
  - pose proof (release_stream_quiet id n (s, tx)) as H'. unfold same_accounts, accounts in H'. injection H' as _ -> _ _ _. cbn. lia.
  - pose proof (release_conn_quiet n (s, tx)) as H'. unfold same_accounts, accounts in H'. injection H' as _ -> _ _ _. cbn. lia.
Qed.



(** [try_consume_pending_concurrency] lets streams through the queue in the
    order of their requests, as many as the limit of the peer leaves room for,
    and behind the streams that are ready already: it stops only with an empty
    queue or at the limit. *)
Theorem consume_fifo (s : Streams) :
  0 ≤ current_concurrent_streams s → max_concurrent_streams s < 2 ^ 32 →
  try_consume_pending_concurrency (E := H2Error) s = (consumed (room s) s, Ok ()) ∧
  pending_concurrency s = take (room s) (pending_concurrency s) ++ pending_concurrency (consumed (room s) s) ∧
  (pending_concurrency (consumed (room s) s) = [] ∨ reach_max_concurrency (consumed (room s) s) = true) ∧
  current_concurrent_streams (consumed (room s) s) ≤ Z.max (current_concurrent_streams s) (max_concurrent_streams s).
Proof.
  intros Hc Hm. split_and!.
  - by apply try_consume_eq.
  - cbn. by rewrite take_drop.
  - unfold room, reach_max_concurrency. cbn.
    destruct (Z.leb_spec (len (pending_concurrency s)) (max_concurrent_streams s - current_concurrent_streams s)) as [H|H];
      unfold len in H.
    + left. apply drop_ge. lia.
    + right. apply Z.leb_le. lia.
  - unfold room. cbn. lia.
Qed.

Lemma consume_fifo_witness :
  let s := with_concurrency 2 0 (with_pending_concurrency [1; 3; 5] (Streams_new 10 10 (FlowControl_new 10 10))) in
  try_consume_pending_concurrency (E := H2Error) s = (consumed (room s) s, Ok ()) ∧
  pending_send (consumed (room s) s) = [1; 3].
Proof. intros s. split; [by apply (consume_fifo s)|by vm_compute]. Defined.

(** ** A reset of a stream that waits *)

(** The end of [send_local_reset] and [recv_remote_reset] for an open stream. *)
Lemma remote_reset_eq s id st :
  stream_map s !! id = Some st → is_closed_state (st_state st) = false → id ≤ max_recv_id s →
  let s' := with_map (<[id := after_event RecvReset (Closed RemoteRst) st]> (stream_map s)) s in
  handle RecvReset id s =
    if decide (can_close s) then (with_concurrency (max_concurrent_streams s) (current_concurrent_streams s - 1) s', Ok Done)
    else (s', Panic).
Proof.
  intros Est Hc Hle s'. unfold handle, recv_remote_reset. handler_step.
  destruct (Z.ltb_spec (max_recv_id s) id); [lia|]. rewrite Est.
  assert (∀ m m' : ST Streams H2Error StreamEndState, match st_state st with Closed _ => m | _ => m' end = m') as ->
    by (intros m m'; revert Hc; by destruct (st_state st)).
  set (s2 := with_map (<[id := set_header_data None (body_clear (st_data (set_state (Closed RemoteRst) st)))
      (set_state (Closed RemoteRst) st)]> (<[id := set_state (Closed RemoteRst) st]> (stream_map s))) s).
  assert (s2 = s') as Hs2 by (subst s2 s'; cbn; by rewrite insert_insert_eq).
  handler_step. change (with_map _ (with_map _ s)) with s2. rewrite Hs2.
  destruct (decide (can_close s)) as [Hcc|Hcc]; [by rewrite decrease_ok|by rewrite decrease_panics].
Qed.

(** A stream in the queue is not counted, but RST_STREAM of the peer for it
    still takes one from the counter.  When no stream is counted the counter
    underflows, and otherwise it is one below the number of the streams that it
    counts from then on. *)
Theorem reset_of_waiting (recv send : Z) (fc : FlowControl) (s : Streams) (id : Z) :
  steps (Streams_new recv send fc) s → (∀ i, i ∈ pending_concurrency s → is_Some (open_streams s !! i)) →
  id ∈ pending_concurrency s → id ≤ max_recv_id s →
  let out := handle RecvReset id s in
  (current_concurrent_streams s = 0 → out.2 = Panic) ∧
  (0 < current_concurrent_streams s →
    out.2 = Ok Done ∧ current_concurrent_streams out.1 = Z.of_nat (size (active out.1)) - 1).
Proof.
  intros Hi%inv_steps Ho Hin Hle out. destruct (Ho id Hin) as [x [Hx Hc]%open_lookup].
  unfold states in Hx. rewrite lookup_fmap in Hx. destruct (stream_map s !! id) as [st|] eqn:Est; [|done]. injection Hx as <-.
  subst out. rewrite (remote_reset_eq s id st) by done. unfold can_close. pose proof Hi as (Hn & Hb & _ & Hd & _).
  split; intros Hcur; [rewrite decide_False by lia; done|]. rewrite decide_True by lia. split; [done|]. cbn.
  assert (current_concurrent_streams s = Z.of_nat (size (active s))) as -> by (rewrite (active_size s Hd Ho); lia).
  do 3 f_equal. apply map_eq. intros i. apply option_eq. intros y. unfold active. rewrite !map_lookup_filter_Some, !open_lookup. cbn.
  destruct (decide (i = id)) as [->|Hne]; [split; by intros (_ & [])|].
  unfold states. cbn. by rewrite fmap_insert, lookup_insert_ne.
Qed.

Lemma reset_of_waiting_witness :
  let s := run (OpenRequest 0 (PPing []) (mkBodyDataRef false))
             (run (MaxConcurrent 0) (Streams_new 65535 65535 (FlowControl_new 65535 65535))) in
  (handle RecvReset 1 s).2 = Panic.
Proof.
  intros s. refine (proj1 (reset_of_waiting 65535 65535 (FlowControl_new 65535 65535) s 1 _ _ _ _) eq_refl).
  - apply steps_step; [apply steps_step; [apply steps_refl|by vm_compute]|done].
  - intros i. change (pending_concurrency s) with [1]. intros ->%list_elem_of_singleton. by eexists.
  - by apply list_elem_of_singleton.
  - by vm_compute.
Defined.
