(* ===== verification/H2FlowControl.v ===== *)
(** * Flow control of the HTTP/2 client

    What the operations of [H2Streams] do to the windows of [H2Window]: a DATA
    frame fits the windows of its stream and of the connection, the windows for
    sending stay in [i32], SETTINGS_INITIAL_WINDOW_SIZE shifts every stream, and
    what is received opens the windows for receiving again. *)

From S2P Require Import Prelude H2Error Headers Parts H2Frame H2Window H2Streams.
#[local] Open Scope Z_scope.

(** ** Sending *)

(** The windows for sending: a stream may fall below zero when the peer lowers
    SETTINGS_INITIAL_WINDOW_SIZE, but never by more than was sent. *)
Definition send_window_ok (s : Streams) (w : SendWindow) : Prop :=
  stream_send_window_size s - I32_MAX ≤ sw_size w ≤ I32_MAX.

Definition send_inv (s : Streams) : Prop :=
  0 ≤ stream_send_window_size s ≤ I32_MAX ∧
  (∀ id st, stream_map s !! id = Some st → send_window_ok s (st_send_window st)) ∧
  0 ≤ sw_size (fc_send_window (flow_control s)) ≤ I32_MAX.

#[export] Instance send_inv_dec s : Decision (send_inv s).
Proof.
  change (Decision (0 ≤ stream_send_window_size s ≤ I32_MAX ∧
    map_Forall (λ _ st, stream_send_window_size s - I32_MAX ≤ sw_size (st_send_window st) ≤ I32_MAX) (stream_map s) ∧
    0 ≤ sw_size (fc_send_window (flow_control s)) ≤ I32_MAX)). apply _.
Defined.

(** [poll_read] fills at most the buffer it is given. *)
Definition fills (outcome : Z → PollRead) : Prop := ∀ room l, 0 ≤ room → outcome room = PollReady l → len l ≤ room.

Lemma size_available_pos w : size_available w ≠ 0 → size_available w = sw_size w ∧ 0 < sw_size w.
Proof. unfold size_available. destruct (Z.ltb_spec (sw_size w) 0); lia. Qed.

(** The windows after [n] bytes of DATA. *)
Definition sent (id : Z) (st : Stream) (n : Z) (s : Streams) : Streams :=
  with_flow (set_fc_send (mkSendWindow (sw_size (fc_send_window (flow_control s)) - n)) (flow_control s))
    (with_map (<[id := set_send_window (mkSendWindow (sw_size (st_send_window st) - n)) st]> (stream_map s)) s).

Lemma stream_send_eq {E} id st n s :
  stream_map s !! id = Some st → 0 ≤ n ≤ sw_size (st_send_window st) → sw_size (st_send_window st) ≤ I32_MAX →
  on_stream (E := E) id (zoom st_send_window set_send_window (send_data n)) s =
    (with_map (<[id := set_send_window (mkSendWindow (sw_size (st_send_window st) - n)) st]> (stream_map s)) s, Ok ()).
Proof.
  intros Est Hn Hm. rewrite (on_stream_eq _ _ _ st) by done. unfold zoom, send_data.
  by rewrite reduce_size_eq by (unfold is_i32, I32_MAX in *; lia).
Qed.

Lemma conn_send_eq {E} n s :
  0 ≤ n ≤ sw_size (fc_send_window (flow_control s)) → sw_size (fc_send_window (flow_control s)) ≤ I32_MAX →
  on_flow (E := E) (conn_send_data n) s =
    (with_flow (set_fc_send (mkSendWindow (sw_size (fc_send_window (flow_control s)) - n)) (flow_control s)) s, Ok ()).
Proof.
  intros Hn Hm. unfold on_flow, conn_send_data, send_data, zoom.
  by rewrite reduce_size_eq by (unfold is_i32, I32_MAX in *; lia).
Qed.

(** The room that [poll_read_body] gives to the body. *)
Definition body_room (st : Stream) (s : Streams) : Z :=
  Z.min (Z.min (sw_size (st_send_window st)) (sw_size (fc_send_window (flow_control s)))) BODY_FRAME_SIZE.

(** What a poll of the body of an open stream does. *)
Definition polled (outcome : Z → PollRead) (id : Z) (st : Stream) (s : Streams) : Streams * result H2Error DataReadState :=
  if sw_size (st_send_window st) <=? 0
  then (with_pending_stream_window ({[id]} ∪ pending_stream_window s) s, Ok ReadPending)
  else if sw_size (fc_send_window (flow_control s)) <=? 0
  then (with_pending_conn_window (pending_conn_window s ++ [id]) s, Ok ReadPending)
  else match body_poll_read (outcome (body_room st s)) (st_data st) with
       | PollReady [] => (s, Ok (ReadFinish (mkFrame id 1 (PData []))))
       | PollReady l => (sent id st (len l) s, Ok (ReadReady (mkFrame id 0 (PData l))))
       | PollError => (s, Err (StreamError id IntervalError))
       | PollPending => (with_pending_send (pending_send s ++ [id]) s, Ok ReadPending)
       end.

Lemma body_fills outcome d room l :
  fills outcome → 0 ≤ room → body_poll_read (outcome room) d = PollReady l → len l ≤ room.
Proof.
  unfold body_poll_read. intros Hf Hr. destruct (bd_body d); [by apply Hf|]. intros [= <-]. done.
Qed.

Lemma poll_sized_eq outcome id room st s :
  stream_map s !! id = Some st → fills outcome → 0 ≤ room ≤ sw_size (st_send_window st) →
  room ≤ sw_size (fc_send_window (flow_control s)) →
  sw_size (st_send_window st) ≤ I32_MAX → sw_size (fc_send_window (flow_control s)) ≤ I32_MAX →
  poll_sized_data outcome id room s =
    match body_poll_read (outcome room) (st_data st) with
    | PollReady [] => (s, Ok (ReadFinish (mkFrame id 1 (PData []))))
    | PollReady l => (sent id st (len l) s, Ok (ReadReady (mkFrame id 0 (PData l))))
    | PollError => (s, Err (StreamError id IntervalError))
    | PollPending => (with_pending_send (pending_send s ++ [id]) s, Ok ReadPending)
    end.
Proof.
  intros Est Hf Hr Hc Hm Hm'. unfold poll_sized_data. rewrite bind_st. cbn [get_st]. rewrite Est.
  destruct (body_poll_read (outcome room) (st_data st)) as [[|b l]| |] eqn:E; [done| |done|done].
  assert (0 < len (b :: l) ≤ room) as Hl.
  { split; [unfold len; cbn; lia|]. apply (body_fills outcome (st_data st)); [done|lia|done]. }
  cbv zeta. destruct (Z.ltb_spec 0 (len (b :: l))); [|lia].
  rewrite bind_st, (stream_send_eq id st) by (done || lia). rewrite bind_st, conn_send_eq by (cbn; lia). done.
Qed.

Lemma poll_body_eq outcome id st s :
  stream_map s !! id = Some st → is_closed_state (st_state st) = false → fills outcome →
  sw_size (st_send_window st) ≤ I32_MAX → sw_size (fc_send_window (flow_control s)) ≤ I32_MAX →
  poll_read_body outcome id s = polled outcome id st s.
Proof.
  intros Est Hc Hf Hm Hm'. unfold poll_read_body, polled. rewrite bind_st. cbn [get_st]. rewrite Est.
  unfold send_size_available, size_available.
  assert (∀ x y : ST Streams H2Error DataReadState, x = y → match st_state st with Closed _ => mret ReadClosed | _ => x end s = y s)
    as Hopen by (intros x y ->; by destruct (st_state st)).
  erewrite Hopen by reflexivity. cbv zeta.
  destruct (Z.ltb_spec (sw_size (st_send_window st)) 0), (Z.leb_spec (sw_size (st_send_window st)) 0); try lia; [done| |].
  { by destruct (Z.eqb_spec (sw_size (st_send_window st)) 0); [|lia]. }
  destruct (Z.eqb_spec (sw_size (st_send_window st)) 0); [lia|].
  set (c := sw_size (fc_send_window (flow_control s))) in *.
  destruct (Z.ltb_spec c 0), (Z.leb_spec c 0); try lia; [done| |].
  { by destruct (Z.eqb_spec c 0); [|lia]. }
  destruct (Z.eqb_spec c 0); [lia|]. destruct (Z.ltb_spec (sw_size (st_send_window st)) 0); [lia|].
  unfold body_room. fold c. unfold BODY_FRAME_SIZE. by apply poll_sized_eq; [..|lia|lia| |].
Qed.

Lemma polled_ready outcome id st s s' f :
  fills outcome → polled outcome id st s = (s', Ok (ReadReady f)) →
  ∃ data, f = mkFrame id 0 (PData data) ∧ s' = sent id st (len data) s ∧ 0 < len data ≤ BODY_FRAME_SIZE ∧
    len data ≤ sw_size (st_send_window st) ∧ len data ≤ sw_size (fc_send_window (flow_control s)).
Proof.
  intros Hf. unfold polled.
  destruct (Z.leb_spec (sw_size (st_send_window st)) 0) as [|Hs]; [done|].
  destruct (Z.leb_spec (sw_size (fc_send_window (flow_control s))) 0) as [|Hc]; [done|].
  assert (0 ≤ body_room st s) as Hr by (unfold body_room, BODY_FRAME_SIZE; lia).
  destruct (body_poll_read (outcome (body_room st s)) (st_data st)) as [[|b l]| |] eqn:E; intros [=].
  simplify_eq. exists (b :: l). apply (body_fills outcome (st_data st)) in E; [|done..].
  unfold body_room in E. split_and!; try done; lia || (unfold len; cbn; lia).
Qed.

(** [poll_read_body] sends from the body of an open stream exactly what both
    windows allow, at most 16384 bytes, and takes it from both windows; a stream
    without a window waits in the set of its kind, a body without data in the
    queue of streams that are ready, and the end of the body is an empty DATA
    frame with END_STREAM, which needs no window. *)
Theorem poll_body_spec (outcome : Z → PollRead) (id : Z) (st : Stream) (s : Streams) :
  stream_map s !! id = Some st → send_inv s → fills outcome →
  poll_read_body outcome id s =
    (if is_closed_state (st_state st) then (s, Ok ReadClosed) else polled outcome id st s) ∧
  ∀ s' f, poll_read_body outcome id s = (s', Ok (ReadReady f)) →
    ∃ data, f = mkFrame id 0 (PData data) ∧ s' = sent id st (len data) s ∧ 0 < len data ≤ BODY_FRAME_SIZE ∧
      len data ≤ sw_size (st_send_window st) ∧ len data ≤ sw_size (fc_send_window (flow_control s)).
Proof.
  intros Est (_ & Hw & Hc) Hf. specialize (Hw id st Est). unfold send_window_ok in Hw.
  destruct (is_closed_state (st_state st)) eqn:Ex.
  - assert (poll_read_body outcome id s = (s, Ok ReadClosed)) as ->; [|by split; [|intros s' f [=]]].
    unfold poll_read_body. rewrite bind_st. cbn [get_st]. rewrite Est. revert Ex. by destruct (st_state st).
  - rewrite (poll_body_eq outcome id st s) by (done || lia). split; [done|]. intros s' f. by apply polled_ready.
Qed.

(** A connection with a stream that has [body] to send. *)
Definition sample_stream : Stream :=
  mkStream (RecvWindow_new 100) (SendWindow_new 2) (Open WaitData WaitHeaders) None (mkBodyDataRef true).
Definition sample_streams : Streams :=
  with_map {[ 1 := sample_stream ]} (Streams_new 100 100 (FlowControl_new 100 100)).
Definition sample_body (room : Z) : PollRead := PollReady (take (Z.to_nat room) [104; 105; 33]).

Lemma sample_fills : fills sample_body.
Proof. intros n l Hn [= <-]. unfold len. rewrite length_take. lia. Qed.

Lemma poll_body_spec_witness :
  poll_read_body sample_body 1 sample_streams = polled sample_body 1 sample_stream sample_streams ∧
  (polled sample_body 1 sample_stream sample_streams).2 = Ok (ReadReady (mkFrame 1 0 (PData [104; 105]))).
Proof.
  split; [|by vm_compute].
  refine (proj1 (poll_body_spec sample_body 1 sample_stream sample_streams _ _ sample_fills)); [by vm_compute|].
  apply (bool_decide_unpack (send_inv sample_streams)). by vm_compute.
Defined.

(** ** Every stream *)

(** The map when [m] has run for the streams of [ids]. *)
Definition ran {E} (ids : list Z) (m : ST Stream E ()) (M M' : gmap Z Stream) : Prop :=
  ∀ i, M' !! i = (if decide (i ∈ ids) then (λ st, (m st).1) else id) <$> M !! i.

Lemma for_streams_ran {E} ids (m : ST Stream E ()) s :
  NoDup ids → (∀ i, i ∈ ids → is_Some (stream_map s !! i)) →
  (∀ i st, i ∈ ids → stream_map s !! i = Some st → (m st).2 = Ok ()) →
  ∃ M, for_streams ids m s = (with_map M s, Ok ()) ∧ ran ids m (stream_map s) M.
Proof.
  revert s. induction ids as [|j ids IH]; intros s Hd Hk Hm.
  - exists (stream_map s). split; [by destruct s|]. intros i. by destruct (stream_map s !! i).
  - apply NoDup_cons in Hd as [Hj Hd]. destruct (Hk j) as [st Est]; [by left|].
    cbn [for_streams]. rewrite bind_st, (on_stream_eq j m s st), (Hm j st) by (done || by left).
    set (s1 := with_map (<[j := (m st).1]> (stream_map s)) s).
    assert (∀ i, i ∈ ids → stream_map s1 !! i = stream_map s !! i) as Hs1
      by (intros i Hi; cbn; rewrite lookup_insert_ne; congruence).
    destruct (IH s1 Hd) as (M & HM & HR).
    { intros i Hi. rewrite Hs1 by done. apply Hk. by right. }
    { intros i st' Hi. rewrite Hs1 by done. apply (Hm i). by right. }
    exists M. split; [rewrite HM; by destruct s|]. intros i. rewrite (HR i).
    destruct (decide (i = j)) as [->|Hne].
    + rewrite !decide_False, decide_True by (done || by left). cbn. by rewrite lookup_insert_eq, Est.
    + cbn. rewrite lookup_insert_ne by done. f_equal.
      destruct (decide (i ∈ ids)), (decide (i ∈ j :: ids)) as [Hin|Hin]; try done.
      * destruct Hin. by right.
      * by apply elem_of_cons in Hin as [?|?].
Qed.

(** An error of a stream is the error of the loop. *)
Lemma for_streams_err {E} ids (m : ST Stream E ()) s (e : E) :
  NoDup ids → (∀ i, i ∈ ids → is_Some (stream_map s !! i)) →
  (∀ i st, i ∈ ids → stream_map s !! i = Some st → (m st).2 = Ok () ∨ (m st).2 = Err e) →
  (∃ i st, i ∈ ids ∧ stream_map s !! i = Some st ∧ (m st).2 = Err e) →
  (for_streams ids m s).2 = Err e.
Proof.
  revert s. induction ids as [|j ids IH]; intros s Hd Hk Hm (i & st & Hi & Est & He); [by apply not_elem_of_nil in Hi|].
  apply NoDup_cons in Hd as [Hj Hd]. destruct (Hk j) as [st' Est']; [by left|].
  cbn [for_streams]. rewrite bind_st, (on_stream_eq j m s st') by done.
  destruct (Hm j st') as [Ho|Ho]; [by left|done| |by rewrite Ho]. rewrite Ho.
  assert (∀ k, k ∈ ids → stream_map (with_map (<[j := (m st').1]> (stream_map s)) s) !! k = stream_map s !! k) as Hs1
    by (intros k Hin; cbn; rewrite lookup_insert_ne; congruence).
  apply IH; [done|intros k Hin|intros k x Hin|]; rewrite ?Hs1 by done.
  - apply Hk. by right.
  - apply Hm. by right.
  - exists i, st. apply elem_of_cons in Hi as [-> |Hi]; [congruence|]. by rewrite Hs1.
Qed.

(** An iteration over a [HashMap] visits each key once. *)
Definition visits (map_order : gmap Z Stream → list Z) : Prop :=
  ∀ m, NoDup (map_order m) ∧ ∀ i, i ∈ map_order m ↔ is_Some (m !! i).

Lemma ran_all {E} ids (m : ST Stream E ()) M M' (f : Stream → Stream) :
  ran ids m M M' → (∀ i, i ∈ ids ↔ is_Some (M !! i)) → (∀ i st, M !! i = Some st → (m st).1 = f st) → M' = f <$> M.
Proof.
  intros H Hi Hf. apply map_eq. intros i. rewrite H, lookup_fmap. destruct (M !! i) as [st|] eqn:EM; [|done].
  cbn. rewrite decide_True by (apply Hi; by rewrite EM). by rewrite (Hf i st EM).
Qed.

(** One such order. *)
Definition hash_order (m : gmap Z Stream) : list Z := (map_to_list m).*1.

Lemma hash_order_visits : visits hash_order.
Proof.
  intros m. split; [apply NoDup_fst_map_to_list|]. intros i. unfold hash_order. rewrite list_elem_of_fmap. split.
  - intros ([j st] & -> & Hin%elem_of_map_to_list). by exists st.
  - intros [st Hst]. exists (i, st). split; [done|]. by apply elem_of_map_to_list.
Qed.

Definition shift_send (d : Z) (st : Stream) : Stream :=
  set_send_window (mkSendWindow (sw_size (st_send_window st) + d)) st.

(** No window exceeds [i32] when it grows by [d]. *)
Definition fits (d : Z) (s : Streams) : Prop :=
  map_Forall (λ _ st, sw_size (st_send_window st) + d ≤ I32_MAX) (stream_map s).

#[export] Instance fits_dec d s : Decision (fits d s).
Proof. unfold fits. apply _. Defined.

Definition shifted (set_order : gset Z → list Z) (n : Z) (s : Streams) : Streams :=
  let s1 := with_map (shift_send (n - stream_send_window_size s) <$> stream_map s)
              (with_sizes (stream_recv_window_size s) n s) in
  if stream_send_window_size s <? n
  then with_pending_stream_window ∅ (with_pending_send (pending_send s ++ set_order (pending_stream_window s)) s1)
  else s1.

Lemma increase_stream_eq n st :
  is_i32 (sw_size (st_send_window st)) → 0 ≤ n ≤ I32_MAX →
  zoom st_send_window set_send_window (increase_size n) st =
    if I32_MAX <? sw_size (st_send_window st) + n then (st, Err (ConnectionError FlowControlError))
    else (shift_send n st, Ok ()).
Proof.
  intros Hw Hn. unfold zoom. rewrite increase_size_eq by done.
  destruct (_ <? _); [by destruct st|done].
Qed.

Lemma reduce_stream_eq {E} n st :
  is_i32 (sw_size (st_send_window st) - n) → 0 ≤ n ≤ I32_MAX →
  zoom (E := E) st_send_window set_send_window (reduce_size n) st = (shift_send (- n) st, Ok ()).
Proof. intros Hw Hn. unfold zoom. by rewrite reduce_size_eq by done. Qed.

Lemma send_inv_i32 s id st : send_inv s → stream_map s !! id = Some st → is_i32 (sw_size (st_send_window st)).
Proof. intros (? & H & _) Est. specialize (H id st Est). unfold send_window_ok, is_i32, I32_MAX in *. lia. Qed.

Lemma send_initial_grow map_order set_order n s :
  visits map_order → send_inv s → 0 ≤ n ≤ I32_MAX → stream_send_window_size s < n →
  (fits (n - stream_send_window_size s) s →
    apply_send_initial_window_size map_order set_order n s = (shifted set_order n s, Ok ())) ∧
  (¬ fits (n - stream_send_window_size s) s →
    (apply_send_initial_window_size map_order set_order n s).2 = Err (ConnectionError FlowControlError)).
Proof.
  intros Hv Hi Hn Hl. destruct (Hv (stream_map s)) as [Hd Hk]. pose proof Hi as (Hsz & _).
  set (d := n - stream_send_window_size s). set (m := zoom st_send_window set_send_window (increase_size d)).
  set (s1 := with_sizes (stream_recv_window_size s) n s).
  assert (∀ i st, stream_map s !! i = Some st → m st =
    if I32_MAX <? sw_size (st_send_window st) + d then (st, Err (ConnectionError FlowControlError))
    else (shift_send d st, Ok ())) as Hm.
  { intros i st Est. apply increase_stream_eq; [by eapply send_inv_i32|lia]. }
  assert (∀ i, i ∈ map_order (stream_map s) → is_Some (stream_map s1 !! i)) as Hk' by (intros i; apply Hk).
  unfold apply_send_initial_window_size. rewrite bind_st. cbn [get_st]. rewrite bind_st. cbn [put_st].
  fold s1. rewrite (proj2 (Z.compare_lt_iff _ _) Hl). fold d. fold m. rewrite bind_st. split.
  - intros Hf. assert (∀ i st, stream_map s !! i = Some st → m st = (shift_send d st, Ok ())) as Hm'.
    { intros i st Est. rewrite (Hm i st Est). specialize (Hf i st Est). cbn in Hf.
      by destruct (Z.ltb_spec I32_MAX (sw_size (st_send_window st) + d)); [lia|]. }
    destruct (for_streams_ran (map_order (stream_map s)) m s1 Hd Hk') as (M & -> & HR).
    { intros i st _ Est. by rewrite (Hm' i st Est). }
    apply (ran_all _ _ _ _ (shift_send d)) in HR as ->; [|done|intros i st Est; by rewrite (Hm' i st Est)].
    unfold shifted. by destruct (Z.ltb_spec (stream_send_window_size s) n); [|lia].
  - intros Hf. apply map_not_Forall in Hf as (i & st & Est & Hf); [|intros; apply _].
    pose proof (for_streams_err (map_order (stream_map s)) m s1 (ConnectionError FlowControlError) Hd Hk') as He.
    destruct (for_streams _ m s1) as [s2 r]. cbn in He. rewrite He; [done| |].
    + intros j x _ Hj. rewrite (Hm j x Hj). destruct (_ <? _); auto.
    + exists i, st. split_and!; [apply Hk; by exists st|done|]. rewrite (Hm i st Est).
      by destruct (Z.ltb_spec I32_MAX (sw_size (st_send_window st) + d)); [|lia].
Qed.

Lemma send_initial_shrink map_order set_order n s :
  visits map_order → send_inv s → 0 ≤ n ≤ I32_MAX → n ≤ stream_send_window_size s →
  apply_send_initial_window_size map_order set_order n s = (shifted set_order n s, Ok ()).
Proof.
  intros Hv Hi Hn Hl. destruct (Hv (stream_map s)) as [Hd Hk]. pose proof Hi as (Hsz & Hw & _).
  unfold apply_send_initial_window_size, shifted. rewrite bind_st. cbn [get_st]. rewrite bind_st. cbn [put_st].
  set (s1 := with_sizes (stream_recv_window_size s) n s).
  destruct (Z.ltb_spec (stream_send_window_size s) n); [lia|].
  destruct (Z.compare_spec (stream_send_window_size s) n) as [He|He|He]; [|lia|].
  - assert (shift_send (n - stream_send_window_size s) <$> stream_map s = stream_map s) as ->.
    { rewrite <- (map_fmap_id (stream_map s)) at 2. apply map_fmap_ext. intros i [? [w] ? ? ?] _.
      unfold shift_send. cbn. by replace (w + (n - stream_send_window_size s)) with w by lia. }
    by destruct s.
  - assert (∀ i st, stream_map s !! i = Some st →
      zoom (E := H2Error) st_send_window set_send_window (reduce_size (stream_send_window_size s - n)) st =
        (shift_send (n - stream_send_window_size s) st, Ok ())) as Hm.
    { intros i st Est. specialize (Hw i st Est). unfold send_window_ok in Hw.
      rewrite reduce_stream_eq by (unfold is_i32, I32_MAX in *; lia). by rewrite Z.opp_sub_distr, Z.add_comm. }
    destruct (for_streams_ran (map_order (stream_map s)) (zoom (E := H2Error) st_send_window set_send_window
      (reduce_size (stream_send_window_size s - n))) s1 Hd) as (M & -> & HR).
    { intros i. apply Hk. }
    { intros i st _ Est. by rewrite (Hm i st Est). }
    by apply (ran_all _ _ _ _ (shift_send (n - stream_send_window_size s))) in HR as ->;
      [|done|intros i st Est; rewrite (Hm i st Est)].
Qed.

Lemma shifted_windows set_order n s :
  stream_map (shifted set_order n s) = shift_send (n - stream_send_window_size s) <$> stream_map s ∧
  stream_send_window_size (shifted set_order n s) = n ∧ flow_control (shifted set_order n s) = flow_control s.
Proof. unfold shifted. by destruct (_ <? _). Qed.

Lemma shifted_inv set_order n s :
  send_inv s → 0 ≤ n ≤ I32_MAX → fits (n - stream_send_window_size s) s → send_inv (shifted set_order n s).
Proof.
  intros (Hsz & Hw & Hc) Hn Hf. destruct (shifted_windows set_order n s) as (Em & En & Ec).
  unfold send_inv, send_window_ok. rewrite Em, En, Ec. split_and!; [lia..| |lia|lia].
  intros i st. rewrite lookup_fmap. destruct (stream_map s !! i) as [st0|] eqn:Est; [|done]. intros [= <-].
  specialize (Hw i st0 Est). specialize (Hf i st0 Est). unfold send_window_ok in Hw. cbn in *. lia.
Qed.

Lemma fits_shrink d s : send_inv s → d ≤ 0 → fits d s.
Proof. intros (_ & Hw & _) Hd i st Est. specialize (Hw i st Est). unfold send_window_ok in Hw. lia. Qed.

Lemma send_initial_ok map_order set_order n s :
  visits map_order → send_inv s → 0 ≤ n ≤ I32_MAX → fits (n - stream_send_window_size s) s →
  apply_send_initial_window_size map_order set_order n s = (shifted set_order n s, Ok ()).
Proof.
  intros Hv Hi Hn Hf. destruct (Z.lt_ge_cases (stream_send_window_size s) n).
  - by apply send_initial_grow.
  - by apply send_initial_shrink.
Qed.

(** SETTINGS_INITIAL_WINDOW_SIZE shifts the window of every stream by the
    difference to the old value, below zero too, and when it grows the streams
    that wait for a window are ready again; a window that would exceed [i32] is
    a connection error FLOW_CONTROL_ERROR, and nothing overflows (RFC 9113,
    section 6.9.2). *)
Theorem send_initial_spec (map_order : gmap Z Stream → list Z) (set_order : gset Z → list Z) (n : Z) (s : Streams) :
  visits map_order → send_inv s → 0 ≤ n ≤ I32_MAX →
  (fits (n - stream_send_window_size s) s →
    apply_send_initial_window_size map_order set_order n s = (shifted set_order n s, Ok ())) ∧
  (¬ fits (n - stream_send_window_size s) s →
    (apply_send_initial_window_size map_order set_order n s).2 = Err (ConnectionError FlowControlError)).
Proof.
  intros Hv Hi Hn. split; [by apply send_initial_ok|].
  intros Hf. destruct (Z.lt_ge_cases (stream_send_window_size s) n); [by apply send_initial_grow|].
  destruct Hf. apply fits_shrink; [done|lia].
Qed.

Lemma send_initial_spec_witness :
  apply_send_initial_window_size hash_order elements 90 sample_streams = (shifted elements 90 sample_streams, Ok ()) ∧
  sw_size ∘ st_send_window <$> stream_map (shifted elements 90 sample_streams) !! 1 = Some (-8).
Proof.
  split; [|by vm_compute].
  refine (proj1 (send_initial_spec hash_order elements 90 sample_streams hash_order_visits _ _) _).
  - apply (bool_decide_unpack (send_inv sample_streams)). by vm_compute.
  - by vm_compute.
  - apply (bool_decide_unpack (fits (90 - stream_send_window_size sample_streams) sample_streams)). by vm_compute.
Defined.

(** ** The windows for sending stay in range *)

Lemma send_inv_insert s s' id st :
  send_inv s → stream_map s' = <[id := st]> (stream_map s) →
  stream_send_window_size s' = stream_send_window_size s → send_window_ok s (st_send_window st) →
  0 ≤ sw_size (fc_send_window (flow_control s')) ≤ I32_MAX → send_inv s'.
Proof.
  intros (Hsz & Hw & _) Em En Hst Hc. unfold send_inv, send_window_ok in *. rewrite Em, En. split_and!; try lia.
  intros i x. destruct (decide (i = id)) as [->|Hne].
  - rewrite lookup_insert_eq. by intros [= <-].
  - rewrite lookup_insert_ne by done. apply Hw.
Qed.

Lemma send_inv_same s s' :
  send_inv s → stream_map s' = stream_map s → stream_send_window_size s' = stream_send_window_size s →
  flow_control s' = flow_control s → send_inv s'.
Proof. intros Hi Em En Ec. unfold send_inv, send_window_ok in *. by rewrite Em, En, Ec. Qed.

Lemma send_inv_sent s id st n :
  send_inv s → stream_map s !! id = Some st → 0 ≤ n ≤ sw_size (st_send_window st) →
  n ≤ sw_size (fc_send_window (flow_control s)) → send_inv (sent id st n s).
Proof.
  intros Hi Est Hn Hc. pose proof Hi as (Hsz & Hw & Hf). specialize (Hw id st Est). unfold send_window_ok in Hw.
  eapply send_inv_insert; [done|done|done| |cbn; lia]. unfold send_window_ok. cbn. lia.
Qed.

Lemma send_inv_polled outcome id st s :
  send_inv s → fills outcome → stream_map s !! id = Some st →
  send_inv (polled outcome id st s).1 ∧ (polled outcome id st s).2 ≠ Panic.
Proof.
  intros Hi Hf Est. destruct (polled outcome id st s) as [s' r] eqn:Ep. pose proof Ep as Hp. unfold polled in Hp.
  destruct (Z.leb_spec (sw_size (st_send_window st)) 0); [injection Hp as <- <-; by split|].
  destruct (Z.leb_spec (sw_size (fc_send_window (flow_control s))) 0); [injection Hp as <- <-; by split|].
  destruct (body_poll_read _ _) as [[|b l]| |]; injection Hp as <- <-; try done.
  apply polled_ready in Ep as (data & [= <-] & _ & Hl & Hs & Hc); [|done].
  split; [apply send_inv_sent; [done..|lia|lia]|done].
Qed.

Lemma send_inv_poll outcome id s :
  send_inv s → fills outcome → send_inv (poll_read_body outcome id s).1 ∧ (poll_read_body outcome id s).2 ≠ Panic.
Proof.
  intros Hi Hf. destruct (stream_map s !! id) as [st|] eqn:Est.
  - destruct (is_closed_state (st_state st)) eqn:Ex.
    + unfold poll_read_body. rewrite bind_st. cbn [get_st]. rewrite Est. revert Ex. by destruct (st_state st).
    + pose proof Hi as (_ & Hw & Hc). specialize (Hw id st Est). unfold send_window_ok in Hw.
      rewrite (poll_body_eq outcome id st s) by (done || lia). by apply send_inv_polled.
  - unfold poll_read_body. rewrite bind_st. cbn [get_st]. by rewrite Est.
Qed.

Lemma send_inv_conn n s :
  send_inv s → 0 ≤ n ≤ I32_MAX → send_inv (increase_conn_send_window n s).1 ∧ (increase_conn_send_window n s).2 ≠ Panic.
Proof.
  intros Hi Hn. pose proof Hi as (Hsz & Hw & Hc).
  unfold increase_conn_send_window, on_flow, increase_send_size, zoom.
  rewrite increase_size_eq by (unfold is_i32, I32_MAX in *; lia).
  destruct (Z.ltb_spec I32_MAX (sw_size (fc_send_window (flow_control s)) + n)); cbn; (split; [|done]).
  - apply (send_inv_same s); [done..|]. cbn. by destruct (flow_control s).
  - unfold send_inv. cbn. split_and!; try done; lia.
Qed.

Lemma send_inv_reassign id n s :
  send_inv s → 0 ≤ n ≤ I32_MAX →
  send_inv (reassign_stream_send_window id n s).1 ∧ (reassign_stream_send_window id n s).2 ≠ Panic.
Proof.
  intros Hi Hn.
  assert (∀ s' : Streams, send_inv s' → let out := (s ← get_st;
      if decide (id ∈ pending_stream_window s)
      then _ ← put_st (with_pending_stream_window (pending_stream_window s ∖ {[id]}) s); push_back_pending_send (E := H2Error) id
      else mret ()) s' in send_inv out.1 ∧ out.2 ≠ Panic) as Hq.
  { intros s' Hi'. rewrite bind_st. cbn [get_st]. destruct (decide _); done. }
  unfold reassign_stream_send_window. rewrite bind_st. cbn [get_st]. rewrite bind_st.
  destruct (stream_map s !! id) as [st|] eqn:Est; [|by apply Hq].
  rewrite (on_stream_eq id _ s st) by done. pose proof (send_inv_i32 s id st Hi Est) as Hw.
  rewrite increase_stream_eq by done. destruct (Z.ltb_spec I32_MAX (sw_size (st_send_window st) + n)) as [|Hle]; cbn [fst snd].
  - split; [|done]. cbn. by rewrite insert_id by done; destruct s.
  - apply Hq. pose proof Hi as (_ & Hok & Hc). specialize (Hok id st Est).
    eapply send_inv_insert; [done|done|done| |done]. unfold send_window_ok in *. cbn. lia.
Qed.

(** C31: the windows for sending never leave [i32], whatever the peer sends:
    WINDOW_UPDATE of a stream and of the connection, DATA of a body, new streams
    and SETTINGS_INITIAL_WINDOW_SIZE keep the window of the connection between 0
    and 2^31-1, and the window of a stream at most 2^31-1 below
    SETTINGS_INITIAL_WINDOW_SIZE, without overflow. *)
Theorem send_windows_safe (s : Streams) :
  send_inv s →
  (∀ outcome id, fills outcome →
    send_inv (poll_read_body outcome id s).1 ∧ (poll_read_body outcome id s).2 ≠ Panic) ∧
  (∀ n, 0 ≤ n ≤ I32_MAX →
    send_inv (increase_conn_send_window n s).1 ∧ (increase_conn_send_window n s).2 ≠ Panic) ∧
  (∀ id n, 0 ≤ n ≤ I32_MAX →
    send_inv (reassign_stream_send_window id n s).1 ∧ (reassign_stream_send_window id n s).2 ≠ Panic) ∧
  (∀ map_order set_order n, visits map_order → 0 ≤ n ≤ I32_MAX →
    let out := apply_send_initial_window_size map_order set_order n s in
    out.2 ≠ Panic ∧ (out.2 = Ok () → send_inv out.1)) ∧
  (∀ id headers data, send_inv (insert (E := H2Error) id headers data s).1).
Proof.
  intros Hi. split_and!.
  - intros outcome id. by apply send_inv_poll.
  - intros n. by apply send_inv_conn.
  - intros id n. by apply send_inv_reassign.
  - intros map_order set_order n Hv Hn out. subst out.
    destruct (decide (fits (n - stream_send_window_size s) s)) as [Hf|Hf].
    + rewrite send_initial_ok by done. split; [done|]. intros _. by apply shifted_inv.
    + destruct (Z.lt_ge_cases (stream_send_window_size s) n).
      * rewrite (proj2 (send_initial_grow map_order set_order n s Hv Hi Hn ltac:(done))) by done. done.
      * destruct Hf. apply fits_shrink; [done|lia].
  - intros id headers data. pose proof Hi as (Hsz & _ & Hc).
    eapply send_inv_insert; [done|done|done| |done]. unfold send_window_ok. cbn.
    rewrite as_i32_id by lia. lia.
Qed.

Lemma send_windows_safe_witness :
  let out := increase_conn_send_window 7 sample_streams in send_inv out.1 ∧ out.2 ≠ Panic.
Proof.
  refine (proj1 (proj2 (send_windows_safe sample_streams _)) 7 _); [|by vm_compute].
  apply (bool_decide_unpack (send_inv sample_streams)). by vm_compute.
Defined.

(** ** Receiving *)

(** The window after [n] bytes, and the WINDOW_UPDATE: once more than a third
    was received, what was received is open again. *)
Definition released (id n : Z) (w : RecvWindow) : RecvWindow * option Frame :=
  let k := rw_notification w - n in
  if k <? 2 * (rw_actual w - k)
  then (mkRecvWindow (rw_actual w) (rw_actual w), Some (mkFrame id 0 (PWindowUpdate (rw_actual w - k))))
  else (mkRecvWindow k (rw_actual w), None).

(** The frame in the channel, if it is open. *)
Definition deliver (f : option Frame) (tx : Sender) : Sender * result DispatchErrorKind () :=
  match f with
  | None => (tx, Ok ())
  | Some f => if tx_closed tx then (tx, Err KindChannelClosed) else (mkSender false (tx_sent tx ++ [f]), Ok ())
  end.

Definition conn_released (n : Z) (s : Streams) (tx : Sender) :=
  let '(w, f) := released 0 n (fc_recv_window (flow_control s)) in
  let '(tx, r) := deliver f tx in
  ((with_flow (set_fc_recv w (flow_control s)) s, tx), r).

(** The peer opens no window of a stream whose response is complete. *)
Definition stream_released (id n : Z) (st : Stream) (s : Streams) (tx : Sender) :=
  let '(w, f) :=
    if is_init_or_active_flow_control st then released id n (st_recv_window st)
    else (mkRecvWindow (rw_notification (st_recv_window st) - n) (rw_actual (st_recv_window st)), None) in
  let '(tx, r) := deliver f tx in
  ((with_map (<[id := set_recv_window w st]> (stream_map s)) s, tx), r).

Lemma released_ok id n w :
  recv_window_ok w → 0 ≤ n ≤ rw_notification w → recv_window_ok (released id n w).1 ∧ rw_actual (released id n w).1 = rw_actual w.
Proof.
  unfold recv_window_ok, released. intros Hw Hn.
  destruct (Z.ltb_spec (rw_notification w - n) (2 * (rw_actual w - (rw_notification w - n)))); cbn; lia.
Qed.

(** The largest payload of a frame. *)
Definition MAX_PAYLOAD : Z := 2 ^ 24 - 1.

Definition took_bytes (n : Z) (w : RecvWindow) : RecvWindow := mkRecvWindow (rw_notification w - n) (rw_actual w).

Lemma window_recv_eq {E} n w :
  recv_window_ok w → 0 ≤ n ≤ MAX_PAYLOAD → window_recv_data (E := E) n w = (took_bytes n w, Ok ()).
Proof.
  unfold recv_window_ok, MAX_PAYLOAD. intros Hw Hn. unfold window_recv_data.
  by rewrite reduce_notification_eq by (unfold is_i32, I32_MAX in *; lia).
Qed.

Lemma window_check_eq {E} id n w :
  recv_window_ok w → 0 ≤ n ≤ MAX_PAYLOAD → n ≤ rw_notification w →
  check_window_update (E := E) id (took_bytes n w) = ((released id n w).1, Ok (released id n w).2).
Proof.
  unfold recv_window_ok, MAX_PAYLOAD. intros Hw Hn Hl.
  rewrite check_window_update_eq by (cbn; unfold I32_MAX in *; lia). unfold released. cbn. by destruct (_ <? _).
Qed.

Lemma notification_available_id w : recv_window_ok w → notification_available w = rw_notification w.
Proof. unfold recv_window_ok, notification_available. destruct (Z.ltb_spec (rw_notification w) 0); [lia|done]. Qed.

Lemma send_option_eq f s tx : send_option f (s, tx) = ((s, (deliver f tx).1), (deliver f tx).2).
Proof. destruct f as [f|]; [|done]. unfold send_option, on_sender, zoom, sender_send, deliver. cbn. by destruct (tx_closed tx). Qed.

Lemma release_conn_eq n s tx :
  recv_window_ok (fc_recv_window (flow_control s)) → 0 ≤ n ≤ MAX_PAYLOAD →
  release_conn_recv_window n (s, tx) =
    if rw_notification (fc_recv_window (flow_control s)) <? n
    then ((s, tx), Err (KindH2 (ConnectionError FlowControlError)))
    else conn_released n s tx.
Proof.
  intros Hw Hn. unfold release_conn_recv_window. rewrite bind_st. cbn [get_st fst].
  unfold recv_notification_size_available. rewrite notification_available_id by done.
  destruct (Z.ltb_spec (rw_notification (fc_recv_window (flow_control s))) n); [done|].
  unfold on_streams, on_flow, conn_recv_data, check_conn_recv_window_update, zoom. rewrite bind_st. cbn [fst snd].
  rewrite window_recv_eq, bind_st by done. cbn [fst snd flow_control with_flow set_fc_recv fc_recv_window].
  rewrite window_check_eq, send_option_eq by done.
  unfold conn_released. destruct (released 0 n (fc_recv_window (flow_control s))) as [w f]. cbn [fst snd]. by destruct (deliver f tx).
Qed.

Lemma unreleased_took {E} id n w :
  recv_window_ok w → 0 ≤ n ≤ MAX_PAYLOAD → n ≤ rw_notification w →
  ∃ u, unreleased_size (E := E) (took_bytes n w) = Ok u ∧
    (u = None → released id n w = (took_bytes n w, None)).
Proof.
  unfold recv_window_ok, MAX_PAYLOAD. intros Hw Hn Hl.
  rewrite unreleased_size_eq by (cbn; unfold I32_MAX in *; lia). eexists. split; [done|].
  unfold released. cbn. by destruct (_ <? _).
Qed.

Lemma release_stream_eq id n st s tx :
  stream_map s !! id = Some st → recv_window_ok (st_recv_window st) → 0 ≤ n ≤ MAX_PAYLOAD →
  release_stream_recv_window id n (s, tx) =
    if rw_notification (st_recv_window st) <? n
    then ((s, tx), Err (KindH2 (StreamError id FlowControlError)))
    else stream_released id n st s tx.
Proof.
  intros Est Hw Hn. unfold release_stream_recv_window. rewrite bind_st. cbn [get_st fst]. rewrite Est.
  rewrite notification_available_id by done.
  destruct (Z.ltb_spec (rw_notification (st_recv_window st)) n); [done|].
  set (st1 := set_recv_window (took_bytes n (st_recv_window st)) st).
  assert (on_streams (on_stream (E := DispatchErrorKind) id
    (_ ← zoom st_recv_window set_recv_window (window_recv_data n); get_st)) (s, tx) =
    ((with_map (<[id := st1]> (stream_map s)) s, tx), Ok st1)) as He.
  { unfold on_streams, zoom at 1. cbn [fst snd]. rewrite (on_stream_eq id _ s st) by done.
    rewrite bind_st. unfold zoom. by rewrite window_recv_eq by done. }
  rewrite bind_st, He, bind_st. unfold lift_res, stream_released. change (st_recv_window st1) with (took_bytes n (st_recv_window st)).
  destruct (unreleased_took (E := DispatchErrorKind) id n (st_recv_window st) Hw Hn ltac:(done)) as (u & -> & Hu).
  change (is_init_or_active_flow_control st1) with (is_init_or_active_flow_control st).
  destruct u as [u|]; [|rewrite Hu by done; by destruct (is_init_or_active_flow_control st)].
  destruct (is_init_or_active_flow_control st); [|done]. cbn [negb]. rewrite bind_st.
  assert (on_streams (on_stream (E := DispatchErrorKind) id (zoom st_recv_window set_recv_window (check_window_update id)))
    (with_map (<[id := st1]> (stream_map s)) s, tx) =
    ((with_map (<[id := set_recv_window (released id n (st_recv_window st)).1 st]> (stream_map s)) s, tx),
     Ok (released id n (st_recv_window st)).2)) as ->.
  { unfold on_streams, zoom at 1. cbn [fst snd]. rewrite (on_stream_eq id _ _ st1) by (cbn; apply lookup_insert_eq).
    unfold zoom. change (st_recv_window st1) with (took_bytes n (st_recv_window st)).
    rewrite window_check_eq by done. cbn. by rewrite insert_insert_eq. }
  rewrite send_option_eq. destruct (released id n (st_recv_window st)) as [w f]. cbn [fst snd]. by destruct (deliver f tx).
Qed.

(** DATA that exceeds a window of this side is FLOW_CONTROL_ERROR, of the
    stream or of the connection, and changes nothing; other DATA is taken from
    the window, and once more than a third is taken, a WINDOW_UPDATE opens
    exactly what was taken (for a stream: as long as its response is not
    complete).  So two thirds of a window are always open to the peer and no
    counter overflows. *)
Theorem release_windows_spec (n : Z) (s : Streams) (tx : Sender) :
  0 ≤ n ≤ MAX_PAYLOAD →
  (recv_window_ok (fc_recv_window (flow_control s)) →
    release_conn_recv_window n (s, tx) =
      if rw_notification (fc_recv_window (flow_control s)) <? n
      then ((s, tx), Err (KindH2 (ConnectionError FlowControlError)))
      else conn_released n s tx) ∧
  (∀ id st, stream_map s !! id = Some st → recv_window_ok (st_recv_window st) →
    release_stream_recv_window id n (s, tx) =
      if rw_notification (st_recv_window st) <? n
      then ((s, tx), Err (KindH2 (StreamError id FlowControlError)))
      else stream_released id n st s tx) ∧
  (∀ id w, recv_window_ok w → n ≤ rw_notification w →
    recv_window_ok (released id n w).1 ∧ rw_actual (released id n w).1 = rw_actual w).
Proof.
  intros Hn. split_and!.
  - intros Hw. by apply release_conn_eq.
  - intros id st. by intros; apply release_stream_eq.
  - intros id w Hw Hl. apply released_ok; [done|lia].
Qed.

Lemma release_windows_spec_witness :
  let tx := mkSender false [] in
  release_stream_recv_window 1 40 (sample_streams, tx) = stream_released 1 40 sample_stream sample_streams tx ∧
  recv_window_ok (RecvWindow_new 100).
Proof.
  intros tx. assert (recv_window_ok (RecvWindow_new 100)) as Hw by (by vm_compute).
  split; [|done].
  exact (proj1 (proj2 (release_windows_spec 40 sample_streams tx ltac:(by vm_compute))) 1 sample_stream eq_refl Hw).
Defined.
