(* ===== verification/ChunkDecoder.v ===== *)
(** * The decoder of chunked bodies

    Models [ChunkBodyDecoder] of [src/ylong_http/src/body/chunk.rs]: a machine
    that is fed with pieces of a body in the chunked transfer coding and gives
    the chunks, or the parts of chunks, that each piece holds.

    The theorems compare it with an automaton that reads one byte at a time, for
    a decoder without trailers. *)

From S2P Require Import Prelude Headers.
#[local] Open Scope Z_scope.

(** ** Data *)

Inductive Stage := SSize | SExtension | SSizeEnd | SData | SDataEnd | STrailerCrlf | STrailerData | STrailerEndCrlf.

Inductive ChunkState := CMetaSize | CMetaExt | CMetaCrlf | CData | CDataCrlf | CFinish.

#[export] Instance Stage_eq_dec : EqDecision Stage.
Proof. solve_decision. Defined.
#[export] Instance ChunkState_eq_dec : EqDecision ChunkState.
Proof. solve_decision. Defined.

(** [ChunkExt]: a map that is always empty. *)
Definition ChunkExt : Type := list (bytes * bytes).
Definition ChunkExt_new : ChunkExt := [].

Record Chunk := mkChunk {
  ck_id : Z;
  ck_state : ChunkState;
  ck_size : Z;
  ck_extension : ChunkExt;
  ck_data : bytes;
  ck_trailer : option bytes }.

Definition set_id (id : Z) (c : Chunk) : Chunk :=
  mkChunk id (ck_state c) (ck_size c) (ck_extension c) (ck_data c) (ck_trailer c).

Definition is_complete (c : Chunk) : bool := bool_decide (ck_state c = CFinish).

Definition sized_chunk (data : bytes) (trailer : option bytes) (size : Z) (state : ChunkState) : Chunk :=
  mkChunk 0 state size ChunkExt_new data trailer.

Record ChunkBodyDecoder := mkChunkBodyDecoder {
  chunk_num : Z;
  total_size : Z;
  rest_size : Z;
  hex_count : Z;
  cd_trailer : bytes;
  cr_meet : bool;
  chunk_flag : bool;
  num_flag : bool;
  is_last_chunk : bool;
  is_chunk_trailer : bool;
  is_trailer : bool;
  is_trailer_crlf : bool;
  stage : Stage }.

Definition ChunkBodyDecoder_new : ChunkBodyDecoder :=
  mkChunkBodyDecoder 0 0 0 0 [] false false false false false false false SSize.

(** Assignments to the fields. *)
Definition set_chunk_num (x : Z) (d : ChunkBodyDecoder) : ChunkBodyDecoder :=
  mkChunkBodyDecoder x (total_size d) (rest_size d) (hex_count d) (cd_trailer d) (cr_meet d) (chunk_flag d)
    (num_flag d) (is_last_chunk d) (is_chunk_trailer d) (is_trailer d) (is_trailer_crlf d) (stage d).
Definition set_sizes (total rest hex : Z) (d : ChunkBodyDecoder) : ChunkBodyDecoder :=
  mkChunkBodyDecoder (chunk_num d) total rest hex (cd_trailer d) (cr_meet d) (chunk_flag d)
    (num_flag d) (is_last_chunk d) (is_chunk_trailer d) (is_trailer d) (is_trailer_crlf d) (stage d).
Definition set_trailer (x : bytes) (d : ChunkBodyDecoder) : ChunkBodyDecoder :=
  mkChunkBodyDecoder (chunk_num d) (total_size d) (rest_size d) (hex_count d) x (cr_meet d) (chunk_flag d)
    (num_flag d) (is_last_chunk d) (is_chunk_trailer d) (is_trailer d) (is_trailer_crlf d) (stage d).
Definition set_cr_meet (x : bool) (d : ChunkBodyDecoder) : ChunkBodyDecoder :=
  mkChunkBodyDecoder (chunk_num d) (total_size d) (rest_size d) (hex_count d) (cd_trailer d) x (chunk_flag d)
    (num_flag d) (is_last_chunk d) (is_chunk_trailer d) (is_trailer d) (is_trailer_crlf d) (stage d).
(** [chunk_flag] and [num_flag]. *)
Definition set_digit_flags (chunk num : bool) (d : ChunkBodyDecoder) : ChunkBodyDecoder :=
  mkChunkBodyDecoder (chunk_num d) (total_size d) (rest_size d) (hex_count d) (cd_trailer d) (cr_meet d) chunk
    num (is_last_chunk d) (is_chunk_trailer d) (is_trailer d) (is_trailer_crlf d) (stage d).
Definition set_last_chunk (x : bool) (d : ChunkBodyDecoder) : ChunkBodyDecoder :=
  mkChunkBodyDecoder (chunk_num d) (total_size d) (rest_size d) (hex_count d) (cd_trailer d) (cr_meet d)
    (chunk_flag d) (num_flag d) x (is_chunk_trailer d) (is_trailer d) (is_trailer_crlf d) (stage d).
Definition set_chunk_trailer (x : bool) (d : ChunkBodyDecoder) : ChunkBodyDecoder :=
  mkChunkBodyDecoder (chunk_num d) (total_size d) (rest_size d) (hex_count d) (cd_trailer d) (cr_meet d)
    (chunk_flag d) (num_flag d) (is_last_chunk d) x (is_trailer d) (is_trailer_crlf d) (stage d).
(** [contains_trailer]. *)
Definition contains_trailer (x : bool) (d : ChunkBodyDecoder) : ChunkBodyDecoder :=
  mkChunkBodyDecoder (chunk_num d) (total_size d) (rest_size d) (hex_count d) (cd_trailer d) (cr_meet d)
    (chunk_flag d) (num_flag d) (is_last_chunk d) (is_chunk_trailer d) x (is_trailer_crlf d) (stage d).
Definition set_trailer_crlf (x : bool) (d : ChunkBodyDecoder) : ChunkBodyDecoder :=
  mkChunkBodyDecoder (chunk_num d) (total_size d) (rest_size d) (hex_count d) (cd_trailer d) (cr_meet d)
    (chunk_flag d) (num_flag d) (is_last_chunk d) (is_chunk_trailer d) (is_trailer d) x (stage d).
Definition set_stage (x : Stage) (d : ChunkBodyDecoder) : ChunkBodyDecoder :=
  mkChunkBodyDecoder (chunk_num d) (total_size d) (rest_size d) (hex_count d) (cd_trailer d) (cr_meet d)
    (chunk_flag d) (num_flag d) (is_last_chunk d) (is_chunk_trailer d) (is_trailer d) (is_trailer_crlf d) x.

Abbreviation Dec A := (ST ChunkBodyDecoder HttpError A).

(** ** The stages

    Each function reads a buffer and gives a chunk with the rest of the buffer,
    as the [for] loops over the bytes of the source do. *)

Definition CR : Z := 13.
Definition LF : Z := 10.

(** [i64]: the largest value. *)
Definition I64_MAX : Z := 2 ^ 63 - 1.
Definition i64_checked (x : Z) : option Z := if (- 2 ^ 63 <=? x) && (x <=? I64_MAX) then Some x else None.

Definition hex_to_decimal (count num : Z) : result HttpError Z :=
  match i64_checked (count * 16) with
  | None => Err InvalidInput
  | Some count => match i64_checked (count + num) with None => Err InvalidInput | Some n => Ok n end
  end.

Definition decode_cr : Dec () :=
  d ← get_st;
  if cr_meet d then throw InvalidInput else put_st (set_cr_meet true d).

Definition decode_lf : Dec () :=
  d ← get_st;
  if negb (cr_meet d) then throw InvalidInput else put_st (set_cr_meet false d).

(** [skip_last_crlf]: the loop. *)
Fixpoint last_crlf_loop (data buf : bytes) : Dec (Chunk * bytes) :=
  match buf with
  | [] => d ← get_st; mret (sized_chunk data None (total_size d) CDataCrlf, [])
  | b :: rest =>
      if b =? CR then _ ← decode_cr; last_crlf_loop data rest
      else if b =? LF then
        _ ← decode_lf;
        _ ← modify_st (set_stage SSize);
        d ← get_st;
        _ ← put_st (set_sizes 0 (rest_size d) (hex_count d) d);
        mret (sized_chunk data None (total_size d) CFinish, rest)
      else throw InvalidInput
  end.
Definition skip_last_crlf (data buf : bytes) : Dec (Chunk * bytes) :=
  _ ← modify_st (set_stage SDataEnd); last_crlf_loop data buf.

Definition decode_data (buf : bytes) : Dec (Chunk * bytes) :=
  _ ← modify_st (set_stage SData);
  d ← get_st;
  match buf with
  | [] => mret (sized_chunk [] None (total_size d) CData, [])
  | _ =>
      let rest := rest_size d in
      if rest <=? len buf then
        _ ← put_st (set_cr_meet false (set_sizes (total_size d) 0 (hex_count d) d));
        skip_last_crlf (takeZ rest buf) (dropZ rest buf)
      else
        _ ← put_st (set_sizes (total_size d) (rest - len buf) (hex_count d) d);
        mret (sized_chunk buf None (total_size d) CData, [])
  end.

(** [skip_crlf]: the loop. *)
Fixpoint crlf_loop (buf : bytes) : Dec (Chunk * bytes) :=
  match buf with
  | [] => d ← get_st; mret (sized_chunk [] None (total_size d) CMetaCrlf, [])
  | b :: rest =>
      if b =? CR then _ ← decode_cr; crlf_loop rest
      else if b =? LF then _ ← decode_lf; decode_data rest
      else throw InvalidInput
  end.
Definition skip_crlf (buf : bytes) : Dec (Chunk * bytes) :=
  _ ← modify_st (set_stage SSizeEnd); crlf_loop buf.

Fixpoint skip_chunk_ext (buf : bytes) : Dec (Chunk * bytes) :=
  match buf with
  | [] => d ← get_st; mret (sized_chunk [] None (total_size d) CMetaExt, [])
  | b :: rest =>
      if b =? CR then _ ← decode_cr; skip_crlf rest
      else if b =? LF then _ ← decode_lf; skip_crlf buf
      else skip_chunk_ext rest
  end.

(** [skip_trailer_last_crlf]: the loop. *)
Fixpoint trailer_last_crlf_loop (data buf : bytes) : Dec (Chunk * bytes) :=
  match buf with
  | [] => mret (sized_chunk [] (Some data) 0 CDataCrlf, [])
  | b :: rest =>
      if b =? CR then _ ← decode_cr; trailer_last_crlf_loop data rest
      else if b =? LF then
        _ ← decode_lf;
        d ← get_st;
        if is_last_chunk d then
          _ ← put_st (set_stage STrailerEndCrlf d);
          mret (sized_chunk [] (Some []) 0 CFinish, rest)
        else
          _ ← put_st (set_stage STrailerData (set_trailer_crlf true (set_cr_meet false d)));
          mret (sized_chunk [] (Some data) 0 CDataCrlf, rest)
      else throw InvalidInput
  end.
Definition skip_trailer_last_crlf (data buf : bytes) : Dec (Chunk * bytes) :=
  _ ← modify_st (set_stage STrailerEndCrlf); trailer_last_crlf_loop data buf.

(** [decode_trailer_data]: the loop; [read] is what it has read of [buf]. *)
Fixpoint trailer_data_loop (read rest : bytes) : Dec (Chunk * bytes) :=
  match rest with
  | [] => _ ← modify_st (set_trailer_crlf false); mret (sized_chunk [] (Some read) 0 CData, [])
  | b :: rest' =>
      if b =? CR then _ ← decode_cr; skip_trailer_last_crlf read rest'
      else if b =? LF then _ ← decode_lf; skip_trailer_last_crlf read rest
      else trailer_data_loop (read ++ [b]) rest'
  end.
Definition decode_trailer_data (buf : bytes) : Dec (Chunk * bytes) :=
  _ ← modify_st (set_stage STrailerData);
  match buf with
  | [] => mret (sized_chunk [] (Some []) 0 CData, [])
  | b :: _ =>
      d ← get_st;
      _ ← (if (b =? CR) && is_trailer_crlf d then put_st (set_last_chunk true d) else mret ());
      trailer_data_loop [] buf
  end.

(** [skip_trailer_crlf]: the loop. *)
Fixpoint trailer_crlf_loop (buf : bytes) : Dec (Chunk * bytes) :=
  match buf with
  | [] => d ← get_st; mret (sized_chunk [] (Some []) (total_size d) CMetaCrlf, [])
  | b :: rest =>
      if b =? CR then _ ← decode_cr; trailer_crlf_loop rest
      else if b =? LF then _ ← decode_lf; _ ← modify_st (set_trailer_crlf true); decode_trailer_data rest
      else throw InvalidInput
  end.
Definition skip_trailer_crlf (buf : bytes) : Dec (Chunk * bytes) :=
  _ ← modify_st (set_stage STrailerCrlf); trailer_crlf_loop buf.

Fixpoint skip_trailer_ext (buf : bytes) : Dec (Chunk * bytes) :=
  match buf with
  | [] => d ← get_st; mret (sized_chunk [] (Some []) (total_size d) CMetaExt, [])
  | b :: rest =>
      if b =? CR then _ ← decode_cr; skip_trailer_crlf rest
      else if b =? LF then _ ← decode_lf; skip_trailer_crlf buf
      else skip_trailer_ext rest
  end.

Definition skip_extension (buf : bytes) : Dec (Chunk * bytes) :=
  _ ← modify_st (set_stage SExtension);
  d ← get_st;
  if is_chunk_trailer d then skip_trailer_ext buf else skip_chunk_ext buf.

Definition decode_special_char (buf : bytes) : Dec (Chunk * bytes) :=
  d ← get_st;
  if is_chunk_trailer d then
    _ ← put_st (set_digit_flags (chunk_flag d) false d); skip_trailer_crlf buf
  else
    let total := hex_count d in
    let d := set_digit_flags (chunk_flag d) false (set_sizes total (rest_size d) 0 d) in
    if total =? 0 then _ ← put_st (set_last_chunk true d); skip_extension buf
    else _ ← put_st (set_sizes total total 0 d); skip_extension buf.

(** The value of a digit other than 0. *)
Definition hex_digit (b : Z) : option Z :=
  if (49 <=? b) && (b <=? 57) then Some (b - 48)
  else if (97 <=? b) && (b <=? 102) then Some (b - 97 + 10)
  else if (65 <=? b) && (b <=? 70) then Some (b - 65 + 10)
  else None.

(** A space, a tab, a semicolon, CR or LF. *)
Definition is_special (b : Z) : bool := (b =? 32) || (b =? 9) || (b =? 59) || (b =? CR) || (b =? LF).

(** [self.hex_count = Self::hex_to_decimal(self.hex_count, num)?]. *)
Definition add_digit (num : Z) : Dec () :=
  d ← get_st;
  n ← lift_res (hex_to_decimal (hex_count d) num);
  put_st (set_sizes (total_size d) (rest_size d) n d).

(** Whether the 0 is followed by the end of a size. *)
Definition ends_size (rest : bytes) : bool :=
  match rest with [] => false | c :: _ => (c =? 59) || (c =? 32) || (c =? CR) end.

(** [decode_size]: the loop. *)
Fixpoint size_loop (buf : bytes) : Dec (Chunk * bytes) :=
  match buf with
  | [] => d ← get_st; mret (sized_chunk [] None (total_size d) CMetaSize, [])
  | b :: rest =>
      if b =? 48 then
        if negb (ends_size rest) then _ ← add_digit 0; size_loop rest
        else
          d ← get_st;
          if is_trailer d && negb (chunk_flag d) && negb (num_flag d) then
            _ ← put_st (set_digit_flags (chunk_flag d) false (set_chunk_trailer true d));
            skip_extension buf
          else _ ← add_digit 0; size_loop rest
      else match hex_digit b with
           | Some num =>
               _ ← add_digit num;
               _ ← modify_st (set_digit_flags true true);
               size_loop rest
           | None => if is_special b then decode_special_char buf else throw InvalidInput
           end
  end.
Definition decode_size (buf : bytes) : Dec (Chunk * bytes) :=
  _ ← modify_st (set_stage SSize);
  d ← get_st;
  match buf with
  | [] => mret (sized_chunk [] None (total_size d) CMetaSize, [])
  | _ => _ ← put_st (set_digit_flags false (num_flag d) d); size_loop buf
  end.

(** ** [decode] *)

(** [merge_trailer], for a chunk with a trailer. *)
Definition merge_trailer (state : ChunkState) (trailer : bytes) (d : ChunkBodyDecoder) : ChunkBodyDecoder :=
  if bool_decide (state = CFinish) || bool_decide (state = CDataCrlf) then
    let t := cd_trailer d ++ trailer in
    match t with [] => set_trailer [] d | _ => set_trailer (t ++ [CR; LF]) d end
  else set_trailer (cd_trailer d ++ trailer) d.

(** [match_decode_result]: [true] ends the loop; the chunk is always pushed. *)
Definition match_decode_result (c : Chunk) (remains : bytes) : Dec bool :=
  d ← get_st;
  match is_complete c, is_last_chunk d with
  | false, _ =>
      if is_chunk_trailer d && (bool_decide (ck_state c = CData) || bool_decide (ck_state c = CDataCrlf)) then
        _ ← put_st (set_chunk_num (chunk_num d + 1) d);
        mret (match remains with [] => true | _ => false end)
      else mret true
  | true, true => _ ← put_st (set_chunk_num 0 (set_last_chunk false d)); mret true
  | true, false =>
      _ ← put_st (set_chunk_num (chunk_num d + 1) d);
      mret (match remains with [] => true | _ => false end)
  end.

Definition decode_stage (buf : bytes) : Dec (Chunk * bytes) :=
  d ← get_st;
  match stage d with
  | SSize => decode_size buf
  | SExtension => skip_extension buf
  | SSizeEnd => skip_crlf buf
  | SData => decode_data buf
  | SDataEnd => skip_last_crlf [] buf
  | STrailerCrlf => skip_trailer_crlf buf
  | STrailerData => decode_trailer_data buf
  | STrailerEndCrlf => skip_trailer_last_crlf [] buf
  end.

(** The loop of [decode]. *)
Fixpoint decode_loop (fuel : nat) (results : list Chunk) (remains : bytes) : Dec (list Chunk * bytes) :=
  match fuel with
  | O => panic
  | S fuel =>
      '(c, rest) ← decode_stage remains;
      d ← get_st;
      let c := set_id (chunk_num d) c in
      _ ← match ck_trailer c with Some t => modify_st (merge_trailer (ck_state c) t) | None => mret () end;
      stop ← match_decode_result c rest;
      if stop : bool then mret (results ++ [c], rest) else decode_loop fuel (results ++ [c]) rest
  end.

(** Each turn but the last reads a byte. *)
Definition decode_fuel (buf : bytes) : nat := S (length buf).

(** [ChunkBodyDecoder::decode]. *)
Definition ChunkBodyDecoder_decode (buf : bytes) : Dec (list Chunk * bytes) :=
  decode_loop (decode_fuel buf) [] buf.

(** ** The automaton

    The grammar of a chunked body, byte by byte: the digits of a size [n], the
    rest of its line, the LF that ends it, [r] more bytes of data, the CRLF
    behind the data.  A chunk of size 0 is the last. *)
Inductive Auto :=
  | ASize (n : Z)
  | AExt (n : Z)
  | ALf (n : Z)
  | AData (n r : Z)
  | AEnd (n : Z) (cr : bool).

Inductive Event := EvData (b : Z) | EvChunk (n : Z).

#[export] Instance Event_eq_dec : EqDecision Event.
Proof. solve_decision. Defined.

Definition digit_value (b : Z) : option Z := if b =? 48 then Some 0 else hex_digit b.

Definition step (a : Auto) (b : Z) : option (Auto * option Event) :=
  match a with
  | ASize n =>
      match digit_value b with
      | Some k => if n * 16 + k <=? I64_MAX then Some (ASize (n * 16 + k), None) else None
      | None =>
          if b =? CR then Some (ALf n, None)
          else if b =? LF then None
          else if is_special b then Some (AExt n, None)
          else None
      end
  | AExt n => if b =? CR then Some (ALf n, None) else if b =? LF then None else Some (AExt n, None)
  | ALf n => if b =? LF then Some (if n =? 0 then AEnd 0 false else AData n n, None) else None
  | AData n r => Some (if r =? 1 then AEnd n false else AData n (r - 1), Some (EvData b))
  | AEnd n cr =>
      if b =? CR then if cr then None else Some (AEnd n true, None)
      else if (b =? LF) && cr then Some (ASize 0, Some (EvChunk n))
      else None
  end.

(** Until the input or the body ends. *)
Inductive End := More (a : Auto) | Done (rest : bytes) | Bad.

Fixpoint run (a : Auto) (buf : bytes) : list Event * End :=
  match buf with
  | [] => ([], More a)
  | b :: rest =>
      match step a b with
      | None => ([], Bad)
      | Some (_, Some (EvChunk 0)) => ([EvChunk 0], Done rest)
      | Some (a, None) => run a rest
      | Some (a, Some e) => let '(es, o) := run a rest in (e :: es, o)
      end
  end.

(** Until the input or the chunk ends; with the data of the chunk. *)
Inductive TurnEnd := TMore (a : Auto) | TChunk (n : Z) (rest : bytes) | TBad.

Fixpoint turn (a : Auto) (buf : bytes) : bytes * TurnEnd :=
  match buf with
  | [] => ([], TMore a)
  | b :: rest =>
      match step a b with
      | None => ([], TBad)
      | Some (a, None) => turn a rest
      | Some (a, Some (EvData b)) => let '(data, o) := turn a rest in (b :: data, o)
      | Some (_, Some (EvChunk n)) => ([], TChunk n rest)
      end
  end.

(** What the chunks of a result tell: their data, and their ends. *)
Definition chunk_events (c : Chunk) : list Event :=
  map EvData (ck_data c) ++ (if is_complete c then [EvChunk (ck_size c)] else []).
Definition events (cs : list Chunk) : list Event := cs ≫= chunk_events.

(** The decoders without trailers. *)
Definition D (num total rest hex : Z) (cr cf nf last : bool) (s : Stage) : ChunkBodyDecoder :=
  mkChunkBodyDecoder num total rest hex [] cr cf nf last false false false s.

(** The state of a decoder as a state of the automaton. *)
Inductive rel (num : Z) : Auto → ChunkBodyDecoder → Prop :=
  | rel_size n cf nf : 0 ≤ n → rel num (ASize n) (D num 0 0 n false cf nf false SSize)
  | rel_ext n cf nf : 0 ≤ n → rel num (AExt n) (D num n n 0 false cf nf (n =? 0) SExtension)
  | rel_lf n cf nf : 0 ≤ n → rel num (ALf n) (D num n n 0 true cf nf (n =? 0) SSizeEnd)
  | rel_data n r cf nf : 0 < n → 0 < r → rel num (AData n r) (D num n r 0 false cf nf (n =? 0) SData)
  | rel_end n cr cf nf : 0 ≤ n → rel num (AEnd n cr) (D num n 0 0 cr cf nf (n =? 0) SDataEnd)
  | rel_end_data n cf nf : 0 ≤ n → rel num (AEnd n false) (D num n 0 0 false cf nf (n =? 0) SData).

(** The outcome of a stage, when [data] of the chunk was read before. *)
Definition turn_ok (num : Z) (data : bytes) (t : bytes * TurnEnd)
    (out : ChunkBodyDecoder * result HttpError (Chunk * bytes)) : Prop :=
  match t with
  | (more, TMore a) =>
      ∃ d c, out = (d, Ok (c, [])) ∧ rel num a d ∧ ck_data c = data ++ more ∧ is_complete c = false ∧
        ck_trailer c = None
  | (more, TChunk n rest) =>
      ∃ cf nf, out = (D num 0 0 0 false cf nf (n =? 0) SSize, Ok (sized_chunk (data ++ more) None n CFinish, rest))
  | (_, TBad) => ∃ d, out = (d, Err InvalidInput)
  end.

Lemma more_ok num data a d c :
  rel num a d → ck_data c = data → is_complete c = false → ck_trailer c = None →
  turn_ok num data ([], TMore a) (d, Ok (c, [])).
Proof. intros Hr Hd Hc Ht. exists d, c. by rewrite app_nil_r. Qed.

Lemma last_crlf_ok num n cf nf data buf cr :
  0 ≤ n →
  turn_ok num data (turn (AEnd n cr) buf) (last_crlf_loop data buf (D num n 0 0 cr cf nf (n =? 0) SDataEnd)).
Proof.
  intros Hn. revert cr. induction buf as [|b buf IH]; intros cr.
  - by apply more_ok; [constructor|..].
  - cbn [turn step last_crlf_loop]. destruct (b =? CR).
    + rewrite bind_st. destruct cr; [by eexists|]. apply IH.
    + destruct (b =? LF); [|by eexists]. cbn [andb]. rewrite bind_st. destruct cr; [|by eexists].
      exists cf, nf. by rewrite app_nil_r.
Qed.

Lemma turn_data n r buf :
  0 < r →
  turn (AData n r) buf =
    if r <=? len buf
    then let '(more, o) := turn (AEnd n false) (dropZ r buf) in (takeZ r buf ++ more, o)
    else (buf, TMore (AData n (r - len buf))).
Proof.
  revert r. induction buf as [|b buf IH]; intros r Hr.
  - destruct (Z.leb_spec r (len (@nil Z))); [len_lia|]. cbn. by rewrite Z.sub_0_r.
  - cbn [turn step]. destruct (Z.eqb_spec r 1) as [->|Hne].
    + destruct (Z.leb_spec 1 (len (b :: buf))); [|len_lia].
      change (dropZ 1 (b :: buf)) with buf. change (takeZ 1 (b :: buf)) with [b]. by destruct (turn (AEnd n false) buf).
    + rewrite IH by lia.
      destruct (Z.leb_spec (r - 1) (len buf)), (Z.leb_spec r (len (b :: buf))); try len_lia.
      * assert (dropZ r (b :: buf) = dropZ (r - 1) buf ∧ takeZ r (b :: buf) = b :: takeZ (r - 1) buf) as [-> ->].
        { unfold dropZ, takeZ. replace (Z.to_nat r) with (S (Z.to_nat (r - 1))) by lia. done. }
        by destruct (turn (AEnd n false) (dropZ (r - 1) buf)).
      * rewrite len_cons. by replace (r - (1 + len buf)) with (r - 1 - len buf) by lia.
Qed.

Lemma turn_ok_data num data more t out :
  turn_ok num (data ++ more) t out → turn_ok num data (let '(m, o) := t in (more ++ m, o)) out.
Proof. destruct t as [m [a|n rest|]]; unfold turn_ok; by rewrite ?app_assoc. Qed.

Lemma decode_data_ok num n r cf nf buf s :
  0 ≤ n → 0 ≤ r → (r = 0 ∨ 0 < n) →
  turn_ok num [] (turn (if r =? 0 then AEnd n false else AData n r) buf)
    (decode_data buf (D num n r 0 false cf nf (n =? 0) s)).
Proof.
  intros Hn Hr Hnr. unfold decode_data. rewrite bind_st. cbn [modify_st]. rewrite bind_st. cbn [get_st].
  destruct buf as [|b buf].
  { apply more_ok; try done. destruct (Z.eqb_spec r 0) as [->|]; [by apply rel_end_data|apply rel_data; cbn; lia]. }
  set (l := b :: buf). change (rest_size _) with r. cbv zeta.
  destruct (Z.eqb_spec r 0) as [->|Hne].
  - destruct (Z.leb_spec 0 (len l)); [|len_lia]. rewrite bind_st. cbn [put_st].
    rewrite dropZ_0. unfold skip_last_crlf. rewrite bind_st. cbn [modify_st]. by apply last_crlf_ok.
  - rewrite turn_data by lia. destruct (Z.leb_spec r (len l)); rewrite bind_st; cbn [put_st].
    + rewrite <- (app_nil_l (takeZ r l)). apply turn_ok_data. cbn [app]. unfold skip_last_crlf. rewrite bind_st. by apply last_crlf_ok.
    + exists (D num n (r - len l) 0 false cf nf (n =? 0) SData), (sized_chunk l None n CData).
      split_and!; try done. apply rel_data; lia.
Qed.

(** ** The head of a chunk *)

Lemma skip_crlf_ok num n cf nf buf s :
  0 ≤ n → turn_ok num [] (turn (ALf n) buf) (skip_crlf buf (D num n n 0 true cf nf (n =? 0) s)).
Proof.
  intros Hn. unfold skip_crlf. rewrite bind_st. cbn [modify_st].
  destruct buf as [|b buf]; [by apply more_ok; [apply rel_lf|..]|].
  cbn [turn step crlf_loop]. destruct (Z.eqb_spec b CR) as [->|Hcr]; [rewrite bind_st; by eexists|].
  destruct (b =? LF); [|by eexists]. rewrite bind_st. cbn.
  destruct (Z.eqb_spec n 0) as [->|Hne].
  - apply (decode_data_ok num 0 0 cf nf buf SSizeEnd); lia.
  - pose proof (decode_data_ok num n n cf nf buf SSizeEnd) as H. rewrite (proj2 (Z.eqb_neq n 0) Hne) in H. apply H; lia.
Qed.

Lemma skip_ext_ok num n cf nf buf :
  0 ≤ n → turn_ok num [] (turn (AExt n) buf) (skip_chunk_ext buf (D num n n 0 false cf nf (n =? 0) SExtension)).
Proof.
  intros Hn. induction buf as [|b buf IH]; [by apply more_ok; [apply rel_ext|..]|].
  cbn [turn step skip_chunk_ext]. destruct (b =? CR); [rewrite bind_st; by apply skip_crlf_ok|].
  destruct (b =? LF); [by eexists|done].
Qed.

(** The end of a size, at the byte that ends it. *)
Lemma special_ok num n cf nf b buf :
  0 ≤ n → is_special b = true →
  turn_ok num []
    (if b =? CR then turn (ALf n) buf else if b =? LF then ([], TBad) else turn (AExt n) buf)
    (decode_special_char (b :: buf) (D num 0 0 n false cf nf false SSize)).
Proof.
  intros Hn Hb. unfold decode_special_char. rewrite bind_st. cbn [get_st is_chunk_trailer D].
  assert (∀ d, d = D num n n 0 false cf false (n =? 0) SSize →
    turn_ok num [] (if b =? CR then turn (ALf n) buf else if b =? LF then ([], TBad) else turn (AExt n) buf)
      (skip_extension (b :: buf) d)) as H.
  { intros d ->. unfold skip_extension. rewrite bind_st. cbn [modify_st]. rewrite bind_st. cbn [get_st].
    change (is_chunk_trailer _) with false. cbv iota. cbn [skip_chunk_ext].
    destruct (b =? CR); [rewrite bind_st; by apply skip_crlf_ok|].
    destruct (b =? LF); [by eexists|by apply skip_ext_ok]. }
  change (hex_count (D num 0 0 n false cf nf false SSize)) with n. cbv zeta. destruct (Z.eqb_spec n 0) as [->|Hne]; rewrite bind_st; cbn [put_st]; by apply H.
Qed.

Lemma hex_digit_range b k : hex_digit b = Some k → 0 < k < 16.
Proof.
  unfold hex_digit. intros H. repeat case_match; simplify_eq; bool_to_prop; lia.
Qed.

Lemma add_digit_eq k num n cf nf :
  0 ≤ n → 0 ≤ k →
  add_digit k (D num 0 0 n false cf nf false SSize) =
    if n * 16 + k <=? I64_MAX then (D num 0 0 (n * 16 + k) false cf nf false SSize, Ok ())
    else (D num 0 0 n false cf nf false SSize, Err InvalidInput).
Proof.
  intros Hn Hk. unfold add_digit. rewrite bind_st. cbn [get_st]. rewrite bind_st. unfold lift_res, hex_to_decimal, i64_checked.
  change (hex_count (D num 0 0 n false cf nf false SSize)) with n.
  rewrite (proj2 (Z.leb_le (- 2 ^ 63) (n * 16))) by lia. cbn [andb].
  destruct (Z.leb_spec (n * 16) I64_MAX).
  - rewrite (proj2 (Z.leb_le (- 2 ^ 63) (n * 16 + k))) by lia. cbn [andb]. by destruct (_ <=? I64_MAX).
  - by destruct (Z.leb_spec (n * 16 + k) I64_MAX); [lia|].
Qed.

Lemma size_loop_ok num n cf nf buf :
  0 ≤ n → turn_ok num [] (turn (ASize n) buf) (size_loop buf (D num 0 0 n false cf nf false SSize)).
Proof.
  revert n cf nf. induction buf as [|b buf IH]; intros n cf nf Hn; [by apply more_ok; [apply rel_size|..]|].
  cbn [turn step size_loop]. unfold digit_value. destruct (b =? 48).
  - assert (turn_ok num [] (if n * 16 + 0 <=? I64_MAX then turn (ASize (n * 16 + 0)) buf else ([], TBad))
      ((_ ← add_digit 0; size_loop buf) (D num 0 0 n false cf nf false SSize))) as H.
    { rewrite bind_st, add_digit_eq by lia. destruct (_ <=? _); [apply IH; lia|by eexists]. }
    destruct (ends_size buf); cbn [negb]; destruct (_ <=? _); exact H.
  - destruct (hex_digit b) as [k|] eqn:Ek.
    + apply hex_digit_range in Ek. rewrite bind_st, add_digit_eq by lia.
      destruct (_ <=? _); [|by eexists]. rewrite bind_st. apply (IH (n * 16 + k) true true). lia.
    + destruct (is_special b) eqn:Es.
      * pose proof (special_ok num n cf nf b buf Hn Es) as H. by destruct (b =? CR), (b =? LF).
      * assert ((b =? CR) = false ∧ (b =? LF) = false) as [-> ->]; [|by eexists].
        unfold is_special in Es. by bool_to_prop; split; apply Z.eqb_neq.
Qed.

Lemma stage_ok num a d buf : rel num a d → turn_ok num [] (turn a buf) (decode_stage buf d).
Proof.
  intros Hr. unfold decode_stage. rewrite bind_st. cbn [get_st].
  destruct Hr as [n cf nf Hn|n cf nf Hn|n cf nf Hn|n r cf nf Hn Hr|n cr cf nf Hn|n cf nf Hn]; cbn [stage D].
  - unfold decode_size. rewrite bind_st. cbn [modify_st]. rewrite bind_st. cbn [get_st].
    destruct buf as [|b buf]; [by apply more_ok; [apply rel_size|..]|]. rewrite bind_st. cbn [put_st]. by apply size_loop_ok.
  - unfold skip_extension. rewrite bind_st. cbn [modify_st]. rewrite bind_st. cbn [get_st].
    change (is_chunk_trailer _) with false. by apply skip_ext_ok.
  - by apply skip_crlf_ok.
  - pose proof (decode_data_ok num n r cf nf buf SData) as H. rewrite (proj2 (Z.eqb_neq r 0)) in H by lia. apply H; lia.
  - unfold skip_last_crlf. rewrite bind_st. by apply last_crlf_ok.
  - apply (decode_data_ok num n 0 cf nf buf SData); lia.
Qed.

(** ** [decode] against the automaton *)

Lemma turn_rest a buf : match (turn a buf).2 with TChunk _ rest => (length rest < length buf)%nat | _ => True end.
Proof.
  revert a. induction buf as [|b buf IH]; intros a; [done|]. cbn [turn]. destruct (step a b) as [[a' [[c|n]|]]|]; try done.
  - specialize (IH a'). destruct (turn a' buf) as [? [| |]]; cbn in *; lia.
  - cbn. lia.
  - specialize (IH a'). destruct (turn a' buf) as [? [| |]]; cbn in *; lia.
Qed.

Lemma run_turn a buf :
  run a buf = match turn a buf with
              | (data, TMore a) => (map EvData data, More a)
              | (data, TChunk 0 rest) => (map EvData data ++ [EvChunk 0], Done rest)
              | (data, TChunk n rest) => let '(es, o) := run (ASize 0) rest in (map EvData data ++ EvChunk n :: es, o)
              | (data, TBad) => (map EvData data, Bad)
              end.
Proof.
  revert a. induction buf as [|b buf IH]; intros a; [done|]. cbn [run turn].
  destruct (step a b) as [[a' [[c|n]|]]|] eqn:Es; [| |apply IH|done].
  - rewrite IH. destruct (turn a' buf) as [data [|[|n|n] rest|]]; try done; by destruct (run (ASize 0) rest).
  - assert (a' = ASize 0) as ->.
    { destruct a; cbn in Es; repeat case_match; simplify_eq; done. }
    by destruct n; [|destruct (run (ASize 0) buf)..].
Qed.

(** The outcome of [decode], after the chunks [before]. *)
Definition run_ok (before : list Chunk) (r : list Event * End)
    (out : ChunkBodyDecoder * result HttpError (list Chunk * bytes)) : Prop :=
  match r with
  | (es, More a) => ∃ num d cs, out = (d, Ok (before ++ cs, [])) ∧ rel num a d ∧ events cs = es
  | (es, Done rest) => ∃ d cs, out = (d, Ok (before ++ cs, rest)) ∧ rel 0 (ASize 0) d ∧ events cs = es
  | (_, Bad) => ∃ d, out = (d, Err InvalidInput)
  end.

Lemma run_ok_cons before c r out :
  run_ok (before ++ [c]) r out → run_ok before (let '(es, o) := r in (chunk_events c ++ es, o)) out.
Proof.
  destruct r as [es [a|rest|]]; [| |done]; cbn.
  - intros (num & d & cs & -> & Hr & <-). exists num, d, (c :: cs). by rewrite <- app_assoc.
  - intros (d & cs & -> & Hr & <-). exists d, (c :: cs). by rewrite <- app_assoc.
Qed.

Lemma rel_num num num' a d : rel num a d → rel num' a (set_chunk_num num' d).
Proof. by destruct 1; constructor. Qed.

Lemma rel_plain num a d : rel num a d → is_chunk_trailer d = false ∧ chunk_num d = num.
Proof. by destruct 1. Qed.

Lemma more_events c : is_complete c = false → chunk_events c = map EvData (ck_data c).
Proof. unfold chunk_events. intros ->. apply app_nil_r. Qed.

Lemma events_one c : events [c] = chunk_events c.
Proof. apply app_nil_r. Qed.

Lemma complete_result c rest num cf nf last :
  is_complete c = true →
  match_decode_result c rest (D num 0 0 0 false cf nf last SSize) =
    if last then (D 0 0 0 0 false cf nf false SSize, Ok true)
    else (D (num + 1) 0 0 0 false cf nf false SSize, Ok (match rest with [] => true | _ => false end)).
Proof. intros Hc. unfold match_decode_result. rewrite bind_st. cbn [get_st]. rewrite Hc. by destruct last. Qed.

Lemma decode_loop_ok fuel before num a d buf :
  (length buf < fuel)%nat → rel num a d → run_ok before (run a buf) (decode_loop fuel before buf d).
Proof.
  revert before num a d buf. induction fuel as [|fuel IH]; intros before num a d buf Hf Hr; [lia|].
  cbn [decode_loop]. rewrite bind_st. pose proof (stage_ok num a d buf Hr) as Ht. pose proof (turn_rest a buf) as Hlen.
  rewrite run_turn. destruct (turn a buf) as [data [a'|n rest|]]; cbn in Ht, Hlen.
  - destruct Ht as (d' & c & -> & Hr' & Hd & Hc & Htr). destruct (rel_plain num a' d' Hr') as [Hp Hn].
    rewrite bind_st. cbn [get_st ck_trailer set_id]. rewrite Htr, bind_st. cbn [mret ST_ret].
    rewrite bind_st. unfold match_decode_result. rewrite bind_st. cbn [get_st].
    change (is_complete (set_id (chunk_num d') c)) with (is_complete c). rewrite Hc, Hp. cbn [andb].
    exists num, d', [set_id (chunk_num d') c]. split_and!; [done|done|].
    rewrite events_one, more_events by done. cbn. by rewrite Hd.
  - destruct Ht as (cf & nf & ->). rewrite bind_st. cbn [get_st ck_trailer set_id sized_chunk].
    rewrite bind_st. cbn [mret ST_ret]. rewrite bind_st.
    change (chunk_num (D num 0 0 0 false cf nf (n =? 0) SSize)) with num.
    set (c := set_id num (sized_chunk data None n CFinish)). rewrite complete_result by done.
    assert (chunk_events c = map EvData data ++ [EvChunk n]) as Hc by done.
    destruct (Z.eqb_spec n 0) as [->|Hne].
    + eexists _, [c]. split_and!; [done|by apply rel_size|]. by rewrite events_one, Hc.
    + set (d1 := D (num + 1) 0 0 0 false cf nf false SSize).
      assert (rel (num + 1) (ASize 0) d1) as Hr1 by (by apply rel_size).
      assert (run_ok before (let '(es, o) := run (ASize 0) rest in (chunk_events c ++ es, o))
        (if match rest with [] => true | _ => false end then (d1, Ok (before ++ [c], rest))
         else decode_loop fuel (before ++ [c]) rest d1)) as H.
      { apply run_ok_cons. destruct rest as [|b rest]; [|eapply IH; [lia|done]].
        exists (num + 1), d1, []. by rewrite app_nil_r. }
      rewrite Hc in H. destruct n; [done|..]; destruct (run (ASize 0) rest) as [es o];
        (rewrite <- app_assoc in H; by destruct rest).
  - destruct Ht as (d' & ->). by eexists.
Qed.

Lemma chunk_decode_ok num a d buf : rel num a d → run_ok [] (run a buf) (ChunkBodyDecoder_decode buf d).
Proof. intros Hr. apply (decode_loop_ok (decode_fuel buf) [] num); [unfold decode_fuel; lia|done]. Qed.

(** [decode], for a decoder without trailers, refines the automaton of the
    grammar of RFC 9112 section 7.1 that reads one byte at a time: the data and
    the ends of the chunks that it gives are those of the automaton, it stops
    behind the last chunk and leaves the rest, it is then in the state it started
    from, and it fails exactly when the automaton does. *)
Theorem chunk_decode_refines (num : Z) (a : Auto) (d : ChunkBodyDecoder) (buf : bytes) :
  rel num a d →
  match run a buf with
  | (es, More a') => ∃ num' d' cs, ChunkBodyDecoder_decode buf d = (d', Ok (cs, [])) ∧ rel num' a' d' ∧ events cs = es
  | (es, Done rest) => ∃ d' cs, ChunkBodyDecoder_decode buf d = (d', Ok (cs, rest)) ∧ rel 0 (ASize 0) d' ∧ events cs = es
  | (_, Bad) => ∃ d', ChunkBodyDecoder_decode buf d = (d', Err InvalidInput)
  end.
Proof. apply chunk_decode_ok. Qed.

Lemma rel_new num : rel num (ASize 0) (set_chunk_num num ChunkBodyDecoder_new).
Proof. by apply (rel_size num 0 false false). Qed.

Lemma chunk_decode_refines_witness :
  let buf := bs "3;x" ++ [CR; LF] ++ bs "ab" in
  run (ASize 0) buf = ([EvData 97; EvData 98], More (AData 3 1)) ∧
  ∃ num d cs, ChunkBodyDecoder_decode buf ChunkBodyDecoder_new = (d, Ok (cs, [])) ∧ rel num (AData 3 1) d ∧
    events cs = [EvData 97; EvData 98].
Proof.
  intros buf. split; [by vm_compute|].
  exact (chunk_decode_refines 0 (ASize 0) ChunkBodyDecoder_new buf (rel_new 0)).
Defined.

(** ** In pieces *)

Lemma chunk_run_app a b1 b2 :
  run a (b1 ++ b2) = match run a b1 with
                     | (es, More a') => let '(es', o) := run a' b2 in (es ++ es', o)
                     | (es, Done rest) => (es, Done (rest ++ b2))
                     | (es, Bad) => (es, Bad)
                     end.
Proof.
  revert a. induction b1 as [|b b1 IH]; intros a; [cbn; by destruct (run a b2)|]. cbn [run app].
  destruct (step a b) as [[a' [[c|[|n|n]]|]]|]; [..|apply IH|done]; try done; rewrite IH;
    destruct (run a' b1) as [es [a1|rest|]]; try done; by destruct (run a1 b2).
Qed.
