(* ===== verification/ChunkEncoder.v ===== *)
(** * Chunked bodies

    Models [ChunkBody] of [src/ylong_http/src/body/chunk.rs]: the encoder of the
    chunked transfer coding, over a slice and over a reader.  It writes into
    buffers of any size and keeps where it stopped.

    A method that fills a [&mut [u8]] takes the room and gives the bytes
    written.  A reader is the list of what its reads give. *)

From S2P Require Import Prelude Headers ChunkDecoder.
#[local] Open Scope Z_scope.

(** ** Tokens *)

Definition CHUNK_SIZE : Z := 1024.

Inductive DataState := DPartial | DComplete | DFinish.
#[export] Instance DataState_eq_dec : EqDecision DataState.
Proof. solve_decision. Defined.

(** [Token<usize>]: the bytes written and whether the token is complete. *)
Inductive Token := TokComplete (out : bytes) | TokPartial (out : bytes).

(** [WriteData::write]; the state is [src_idx]. *)
Definition write_data {E} (src : bytes) (room : Z) : ST Z E Token :=
  src_idx ← get_st;
  if len src <? src_idx then panic
  else
    let input_len := len src - src_idx in
    let out := takeZ room (dropZ src_idx src) in
    _ ← put_st (src_idx + len out);
    mret (if input_len <=? room then TokComplete out else TokPartial out).

Record EncodeHex := mkEncodeHex { hex_inner : bytes; hex_idx : Z }.
Definition EncodeHex_new (hex : bytes) : EncodeHex := mkEncodeHex hex 0.
Definition set_hex_idx (i : Z) (h : EncodeHex) : EncodeHex := mkEncodeHex (hex_inner h) i.

Definition hex_encode {E} (room : Z) : ST EncodeHex E Token :=
  h ← get_st; zoom hex_idx set_hex_idx (write_data (hex_inner h) room).

(** [EncodeCrlf::encode]; the state is its [src_idx]. *)
Definition crlf_encode {E} (room : Z) : ST Z E Token := write_data [CR; LF] room.

(** [format!("{x:x}")] of a [usize]. *)
Definition hex_char (k : Z) : Z := if k <? 10 then 48 + k else 87 + k.
Fixpoint hex_go (fuel : nat) (x : Z) : bytes :=
  match fuel with
  | O => []
  | S fuel => if x <? 16 then [hex_char x] else hex_go fuel (x / 16) ++ [hex_char (x mod 16)]
  end.
Definition format_hex (x : Z) : bytes := hex_go 16 x.

(** ** [EncodeStatus] *)

Record EncodeStatus := mkEncodeStatus {
  es_chunk_last : Z;
  es_chunk_idx : Z;
  es_read_flag : bool;
  es_chunk_status : ChunkState;
  es_meta_crlf : Z;
  es_data_crlf : Z;
  es_finish_crlf : Z;
  es_hex : EncodeHex;
  es_hex_last : EncodeHex }.

Definition EncodeStatus_new : EncodeStatus :=
  mkEncodeStatus 0 0 false CMetaSize 0 0 0 (EncodeHex_new (format_hex CHUNK_SIZE)) (EncodeHex_new []).

Definition es_set_chunk (last idx : Z) (flag : bool) (s : EncodeStatus) : EncodeStatus :=
  mkEncodeStatus last idx flag (es_chunk_status s) (es_meta_crlf s) (es_data_crlf s) (es_finish_crlf s) (es_hex s) (es_hex_last s).
Definition es_set_status (x : ChunkState) (s : EncodeStatus) : EncodeStatus :=
  mkEncodeStatus (es_chunk_last s) (es_chunk_idx s) (es_read_flag s) x (es_meta_crlf s) (es_data_crlf s)
    (es_finish_crlf s) (es_hex s) (es_hex_last s).
Definition es_set_crlfs (meta data finish : Z) (s : EncodeStatus) : EncodeStatus :=
  mkEncodeStatus (es_chunk_last s) (es_chunk_idx s) (es_read_flag s) (es_chunk_status s) meta data finish (es_hex s) (es_hex_last s).
Definition es_set_hexes (hex last : EncodeHex) (s : EncodeStatus) : EncodeStatus :=
  mkEncodeStatus (es_chunk_last s) (es_chunk_idx s) (es_read_flag s) (es_chunk_status s) (es_meta_crlf s)
    (es_data_crlf s) (es_finish_crlf s) hex last.

Definition set_chunk_idx (num : Z) (s : EncodeStatus) : EncodeStatus := es_set_chunk (es_chunk_last s) num (es_read_flag s) s.
Definition set_flag (flag : bool) (s : EncodeStatus) : EncodeStatus := es_set_chunk (es_chunk_last s) (es_chunk_idx s) flag s.

Definition on_meta_crlf {E A} (m : ST Z E A) : ST EncodeStatus E A :=
  zoom es_meta_crlf (λ i s, es_set_crlfs i (es_data_crlf s) (es_finish_crlf s) s) m.
Definition on_data_crlf {E A} (m : ST Z E A) : ST EncodeStatus E A :=
  zoom es_data_crlf (λ i s, es_set_crlfs (es_meta_crlf s) i (es_finish_crlf s) s) m.
Definition on_finish_crlf {E A} (m : ST Z E A) : ST EncodeStatus E A :=
  zoom es_finish_crlf (λ i s, es_set_crlfs (es_meta_crlf s) (es_data_crlf s) i s) m.
Definition on_hex {E A} (m : ST EncodeHex E A) : ST EncodeStatus E A :=
  zoom es_hex (λ h s, es_set_hexes h (es_hex_last s) s) m.
Definition on_hex_last {E A} (m : ST EncodeHex E A) : ST EncodeStatus E A :=
  zoom es_hex_last (λ h s, es_set_hexes (es_hex s) h s) m.
Definition on_chunk_idx {E A} (m : ST Z E A) : ST EncodeStatus E A := zoom es_chunk_idx set_chunk_idx m.

(** [StatusVar]. *)
Record StatusVar := mkStatusVar { sv_cnt : Z; sv_data_status : DataState }.

Definition meta_size_encode {E} (room : Z) : ST EncodeStatus E bytes :=
  s ← get_st;
  if es_chunk_last s =? CHUNK_SIZE then
    t ← on_hex (hex_encode room);
    match t with
    | TokComplete out =>
        _ ← modify_st (es_set_status CMetaCrlf);
        _ ← on_hex (modify_st (set_hex_idx 0)); mret out
    | TokPartial out => mret out
    end
  else
    _ ← on_hex_last (put_st (EncodeHex_new (format_hex (es_chunk_last s))));
    t ← on_hex_last (hex_encode room);
    match t with
    | TokComplete out =>
        _ ← modify_st (es_set_status CMetaCrlf);
        _ ← on_hex_last (modify_st (set_hex_idx 0)); mret out
    | TokPartial out => mret out
    end.

Definition meta_crlf_encode {E} (room : Z) : ST EncodeStatus E bytes :=
  t ← on_meta_crlf (crlf_encode room);
  match t with
  | TokComplete out => _ ← modify_st (es_set_status CData); _ ← on_meta_crlf (put_st 0); mret out
  | TokPartial out => mret out
  end.

Definition data_crlf_encode {E} (room : Z) : ST EncodeStatus E bytes :=
  t ← on_data_crlf (crlf_encode room);
  match t with
  | TokComplete out => _ ← modify_st (es_set_status CMetaSize); _ ← on_data_crlf (put_st 0); mret out
  | TokPartial out => mret out
  end.

Definition finish_encode {E} (room : Z) : ST EncodeStatus E (bytes * option StatusVar) :=
  t ← on_finish_crlf (crlf_encode room);
  match t with
  | TokComplete out => _ ← on_meta_crlf (put_st 0); mret (out, Some (mkStatusVar 0 DComplete))
  | TokPartial out => mret (out, None)
  end.

Definition data_encode {E} (src : bytes) (room : Z) : ST EncodeStatus E (bytes * option StatusVar) :=
  t ← on_chunk_idx (write_data src room);
  match t with
  | TokComplete out =>
      _ ← modify_st (es_set_status CDataCrlf); _ ← modify_st (set_flag false);
      mret (out, Some (mkStatusVar 1 DPartial))
  | TokPartial out => mret (out, None)
  end.

Definition tail_encode {E} (src : bytes) (room : Z) : ST EncodeStatus E (bytes * option StatusVar) :=
  t ← on_chunk_idx (write_data src room);
  match t with
  | TokComplete out =>
      _ ← modify_st (es_set_status CFinish); _ ← modify_st (set_flag false);
      mret (out, Some (mkStatusVar 0 DPartial))
  | TokPartial out => mret (out, None)
  end.

(** [EncodeStatus::encode]. *)
Definition status_encode {E} (src : bytes) (room : Z) : ST EncodeStatus E (bytes * option StatusVar) :=
  s ← get_st;
  match es_chunk_status s with
  | CMetaSize => out ← meta_size_encode room; mret (out, None)
  | CMetaExt => mret ([], None)
  | CMetaCrlf => out ← meta_crlf_encode room; mret (out, None)
  | CData => if negb (es_chunk_last s =? CHUNK_SIZE) then tail_encode src room else data_encode src room
  | CDataCrlf => out ← data_crlf_encode room; mret (out, None)
  | CFinish => finish_encode room
  end.

(** ** [ChunkBody] *)

Record ChunkBody := mkChunkBody {
  cb_trailer_value : bytes;
  cb_chunk_buf : bytes;
  cb_chunk_count : Z;
  cb_chunk_last : Z;
  cb_data_status : DataState;
  cb_encode_status : EncodeStatus;
  cb_trailer_idx : Z }.

Definition cb_set_chunk (buf : bytes) (count last : Z) (b : ChunkBody) : ChunkBody :=
  mkChunkBody (cb_trailer_value b) buf count last (cb_data_status b) (cb_encode_status b) (cb_trailer_idx b).
Definition cb_set_status (x : DataState) (b : ChunkBody) : ChunkBody :=
  mkChunkBody (cb_trailer_value b) (cb_chunk_buf b) (cb_chunk_count b) (cb_chunk_last b) x (cb_encode_status b) (cb_trailer_idx b).
Definition cb_set_encode (x : EncodeStatus) (b : ChunkBody) : ChunkBody :=
  mkChunkBody (cb_trailer_value b) (cb_chunk_buf b) (cb_chunk_count b) (cb_chunk_last b) (cb_data_status b) x (cb_trailer_idx b).
Definition cb_set_trailer_idx (x : Z) (b : ChunkBody) : ChunkBody :=
  mkChunkBody (cb_trailer_value b) (cb_chunk_buf b) (cb_chunk_count b) (cb_chunk_last b) (cb_data_status b) (cb_encode_status b) x.

(** [from_bytes]; [from_reader] starts with a buffer of zeros. *)
Definition ChunkBody_from_bytes : ChunkBody := mkChunkBody [] [] 0 0 DPartial EncodeStatus_new 0.
Definition ChunkBody_from_reader : ChunkBody :=
  mkChunkBody [] (replicate (Z.to_nat CHUNK_SIZE) 0) 0 0 DPartial EncodeStatus_new 0.

(** [set_trailer], with the header fields in the order of the hash map. *)
Definition trailer_line (h : bytes * HeaderValue) : bytes := h.1 ++ bs ":" ++ HeaderValue_to_vec h.2 ++ [CR; LF].
Definition ChunkBody_set_trailer (trailer_headers : list (bytes * HeaderValue)) (b : ChunkBody) : ChunkBody :=
  mkChunkBody (trailer_headers ≫= trailer_line) (cb_chunk_buf b) (cb_chunk_count b) (cb_chunk_last b)
    (cb_data_status b) (cb_encode_status b) (cb_trailer_idx b).

Definition on_encode {E A} (m : ST EncodeStatus E A) : ST ChunkBody E A := zoom cb_encode_status cb_set_encode m.

(** [chunk_encode] and [chunk_encode_reader]. *)
Definition chunk_encode {E} (src : bytes) (room : Z) : ST ChunkBody E bytes :=
  b ← get_st;
  _ ← on_encode (modify_st (λ s, es_set_chunk (cb_chunk_last b) (es_chunk_idx s) (es_read_flag s) s));
  '(out, var) ← on_encode (status_encode src room);
  _ ← match var with
      | Some v => modify_st (λ b, cb_set_status (sv_data_status v) (cb_set_chunk (cb_chunk_buf b) (sv_cnt v) (cb_chunk_last b) b))
      | None => mret ()
      end;
  mret out.

Definition trailer_src (b : ChunkBody) : bytes := bs "0" ++ [CR; LF] ++ cb_trailer_value b ++ [CR; LF].

Definition trailer_encode {E} (room : Z) : ST ChunkBody E bytes :=
  b ← get_st;
  t ← zoom cb_trailer_idx cb_set_trailer_idx (write_data (trailer_src b) room);
  match t with
  | TokComplete out => _ ← modify_st (cb_set_status DFinish); mret out
  | TokPartial out => mret out
  end.

(** [bytes_encode]. *)
Definition bytes_encode {E} (from : bytes) (room : Z) : ST ChunkBody E bytes :=
  b ← get_st;
  _ ← (if negb (es_read_flag (cb_encode_status b)) then
         _ ← on_encode (modify_st (set_flag true));
         _ ← on_encode (modify_st (set_chunk_idx 0));
         let data_left := len from - cb_chunk_count b * CHUNK_SIZE in
         if data_left <? 0 then panic
         else modify_st (λ b, cb_set_chunk (cb_chunk_buf b) (cb_chunk_count b)
                                (if data_left <? CHUNK_SIZE then data_left else CHUNK_SIZE) b)
       else mret ());
  b ← get_st;
  let start := cb_chunk_count b * CHUNK_SIZE in
  if len from <? start + cb_chunk_last b then panic
  else chunk_encode (takeZ (cb_chunk_last b) (dropZ start from)) room.

(** The loop of [data], with what encodes the next token. *)
Fixpoint data_loop {S E} (status : S → DataState) (next trailer : Z → ST S E bytes) (fuel : nat) (room : Z) : ST S E bytes :=
  match fuel with
  | O => panic
  | S fuel =>
      if room =? 0 then mret []
      else
        s ← get_st;
        match status s with
        | DFinish => mret []
        | st =>
            out ← (if decide (st = DPartial) then next room else trailer room);
            more ← data_loop status next trailer fuel (room - len out); mret (out ++ more)
        end
  end.

(** Every token but the empty tail has a byte. *)
Definition data_fuel (room : Z) : nat := (Z.to_nat room + 2)%nat.

(** [data] of [ChunkBody<FromBytes>], and its [poll_data], which is always
    ready. *)
Definition bytes_data {E} (from : bytes) (room : Z) : ST ChunkBody E bytes :=
  data_loop cb_data_status (bytes_encode from) trailer_encode (data_fuel room) room.

(** ** Tokens that fit *)

Lemma write_complete {E} src room :
  len src ≤ room → write_data (E := E) src room 0 = (len src, Ok (TokComplete src)).
Proof.
  intros H. unfold write_data. rewrite bind_st. cbn [get_st].
  destruct (Z.ltb_spec (len src) 0); [len_lia|]. cbv zeta. rewrite bind_st. cbn [put_st].
  rewrite dropZ_0, takeZ_all by done. rewrite Z.sub_0_r. by destruct (Z.leb_spec (len src) room); [|lia].
Qed.

Lemma write_partial {E} src room :
  0 ≤ room < len src → write_data (E := E) src room 0 = (room, Ok (TokPartial (takeZ room src))).
Proof.
  intros H. unfold write_data. rewrite bind_st. cbn [get_st].
  destruct (Z.ltb_spec (len src) 0); [len_lia|]. cbv zeta. rewrite bind_st. cbn [put_st].
  rewrite dropZ_0, Z.sub_0_r, len_takeZ by lia. by destruct (Z.leb_spec (len src) room); [lia|].
Qed.

Definition crlf : bytes := [CR; LF].
Definition full_hex : EncodeHex := mkEncodeHex (format_hex CHUNK_SIZE) 0.

Lemma hex_complete {E} h room :
  len h ≤ room → hex_encode (E := E) room (mkEncodeHex h 0) = (mkEncodeHex h (len h), Ok (TokComplete h)).
Proof. intros H. unfold hex_encode. rewrite bind_st. cbn. unfold zoom. cbn. by rewrite write_complete. Qed.

Lemma hex_partial {E} h room :
  0 ≤ room < len h → hex_encode (E := E) room (mkEncodeHex h 0) = (mkEncodeHex h room, Ok (TokPartial (takeZ room h))).
Proof. intros H. unfold hex_encode. rewrite bind_st. cbn. unfold zoom. cbn. by rewrite write_partial. Qed.

Lemma crlf_complete {E} room : 2 ≤ room → crlf_encode (E := E) room 0 = (2, Ok (TokComplete crlf)).
Proof. apply (write_complete crlf). Qed.

(** The status between two tokens. *)
Definition status (last idx : Z) (flag : bool) (st : ChunkState) (hl : EncodeHex) : EncodeStatus :=
  mkEncodeStatus last idx flag st 0 0 0 full_hex hl.

(** The hexadecimal size that is written last. *)
Definition hex_after (last : Z) (hl : EncodeHex) : EncodeHex :=
  if last =? CHUNK_SIZE then hl else mkEncodeHex (format_hex last) 0.

Lemma on_hex_eq {E A} (m : ST EncodeHex E A) s h r :
  m (es_hex s) = (h, r) → on_hex m s = (es_set_hexes h (es_hex_last s) s, r).
Proof. intros H. unfold on_hex, zoom. by rewrite H. Qed.

Lemma on_hex_last_eq {E A} (m : ST EncodeHex E A) s h r :
  m (es_hex_last s) = (h, r) → on_hex_last m s = (es_set_hexes (es_hex s) h s, r).
Proof. intros H. unfold on_hex_last, zoom. by rewrite H. Qed.

Lemma status_size {E} last hl src room :
  len (format_hex last) ≤ room →
  status_encode (E := E) src room (status last 0 true CMetaSize hl) =
    (status last 0 true CMetaCrlf (hex_after last hl), Ok (format_hex last, None)).
Proof.
  intros Hr. unfold status_encode. rewrite bind_st. cbn [get_st es_chunk_status status]. rewrite bind_st.
  unfold meta_size_encode, hex_after. rewrite bind_st. cbn [get_st es_chunk_last status].
  destruct (Z.eqb_spec last CHUNK_SIZE) as [->|Hne].
  - rewrite bind_st, (on_hex_eq _ (status CHUNK_SIZE 0 true CMetaSize hl) _ _ (hex_complete _ _ Hr)). done.
  - rewrite bind_st, (on_hex_last_eq (put_st _) _ _ _ eq_refl), bind_st.
    rewrite (on_hex_last_eq _ (status last 0 true CMetaSize (EncodeHex_new (format_hex last))) _ _ (hex_complete _ _ Hr)). done.
Qed.

Lemma status_size_partial {E} last hl src room :
  last ≠ CHUNK_SIZE → 0 ≤ room < len (format_hex last) →
  status_encode (E := E) src room (status last 0 true CMetaSize hl) =
    (status last 0 true CMetaSize (mkEncodeHex (format_hex last) room), Ok (takeZ room (format_hex last), None)).
Proof.
  intros Hne Hr. unfold status_encode. rewrite bind_st. cbn [get_st es_chunk_status status]. rewrite bind_st.
  unfold meta_size_encode. rewrite bind_st. cbn [get_st es_chunk_last status].
  rewrite (proj2 (Z.eqb_neq _ _) Hne), bind_st.
  rewrite (on_hex_last_eq (put_st _) _ _ _ eq_refl), bind_st.
  rewrite (on_hex_last_eq _ (status last 0 true CMetaSize (EncodeHex_new (format_hex last))) _ _ (hex_partial _ _ Hr)). done.
Qed.

Lemma status_meta_crlf {E} last hl src room :
  2 ≤ room →
  status_encode (E := E) src room (status last 0 true CMetaCrlf hl) = (status last 0 true CData hl, Ok (crlf, None)).
Proof.
  intros Hr. unfold status_encode, meta_crlf_encode, on_meta_crlf, zoom. repeat (rewrite bind_st; cbn). by rewrite crlf_complete.
Qed.

Lemma status_data_crlf {E} last hl src room :
  2 ≤ room →
  status_encode (E := E) src room (status last 0 true CDataCrlf hl) = (status last 0 true CMetaSize hl, Ok (crlf, None)).
Proof.
  intros Hr. unfold status_encode, data_crlf_encode, on_data_crlf, zoom. repeat (rewrite bind_st; cbn). by rewrite crlf_complete.
Qed.

Lemma status_data {E} hl src room :
  len src ≤ room →
  status_encode (E := E) src room (status CHUNK_SIZE 0 true CData hl) =
    (status CHUNK_SIZE (len src) false CDataCrlf hl, Ok (src, Some (mkStatusVar 1 DPartial))).
Proof.
  intros Hr. unfold status_encode. rewrite bind_st. cbn [get_st es_chunk_status status es_chunk_last].
  rewrite Z.eqb_refl. cbn [negb]. unfold data_encode, on_chunk_idx, zoom. rewrite bind_st. cbn [es_chunk_idx].
  by rewrite write_complete.
Qed.

Lemma status_tail {E} last hl src room :
  last ≠ CHUNK_SIZE → len src ≤ room →
  status_encode (E := E) src room (status last 0 true CData hl) =
    (status last (len src) false CFinish hl, Ok (src, Some (mkStatusVar 0 DPartial))).
Proof.
  intros Hne Hr. unfold status_encode. rewrite bind_st. cbn [get_st es_chunk_status status es_chunk_last].
  rewrite (proj2 (Z.eqb_neq _ _) Hne). cbn [negb]. unfold tail_encode, on_chunk_idx, zoom. rewrite bind_st. cbn [es_chunk_idx].
  by rewrite write_complete.
Qed.

Lemma status_finish {E} last hl src room :
  2 ≤ room →
  ∃ s, status_encode (E := E) src room (status last 0 true CFinish hl) = (s, Ok (crlf, Some (mkStatusVar 0 DComplete))).
Proof.
  intros Hr. unfold status_encode, finish_encode, on_finish_crlf, zoom. repeat (rewrite bind_st; cbn).
  rewrite crlf_complete by done. by eexists.
Qed.

(** [out] before what comes. *)
Definition prefix {S E} (out : bytes) (x : S * result E bytes) : S * result E bytes :=
  (x.1, more ← x.2; mret (out ++ more)).

Lemma prefix_app {S E} a b (x : S * result E bytes) : prefix a (prefix b x) = prefix (a ++ b) x.
Proof. destruct x as [? [| |]]; unfold prefix; cbn; [|done..]. by rewrite app_assoc. Qed.

Lemma prefix_ok {S E} out (b : S) (x : bytes) : prefix (E := E) out (b, Ok x) = (b, Ok (out ++ x)).
Proof. done. Qed.

Lemma data_loop_token {S E} (status : S → DataState) (next trailer : Z → ST S E bytes) fuel room s s' out :
  0 < room → status s = DPartial → next room s = (s', Ok out) →
  data_loop status next trailer (Datatypes.S fuel) room s =
    prefix out (data_loop status next trailer fuel (room - len out) s').
Proof.
  intros Hr Hd H. cbn [data_loop]. destruct (Z.eqb_spec room 0); [lia|].
  rewrite bind_st. cbn [get_st]. rewrite Hd. rewrite decide_True by done. rewrite bind_st, H, bind_st.
  by destruct (data_loop _ _ _ fuel _ s') as [? [| |]].
Qed.

Section body.
Context {E : Type} (from tv buf : bytes).

(** The size of the chunk that starts at [count * CHUNK_SIZE], and its data. *)
Definition size_at (count : Z) : Z := Z.min (len from - count * CHUNK_SIZE) CHUNK_SIZE.
Definition chunk_at (count : Z) : bytes := takeZ (size_at count) (dropZ (count * CHUNK_SIZE) from).

(** A chunk as it is written, and the last chunk with the trailer. *)
Definition frame (data : bytes) : bytes := format_hex (len data) ++ crlf ++ data ++ crlf.
Definition ending : bytes := bs "0" ++ crlf ++ tv ++ crlf.

Lemma len_chunk_at count : 0 ≤ count → count * CHUNK_SIZE ≤ len from → len (chunk_at count) = size_at count.
Proof.
  intros Hc Hl. unfold chunk_at, size_at, CHUNK_SIZE in *. apply len_takeZ. rewrite len_dropZ by lia. lia.
Qed.

(** A body between two tokens. *)
Definition body (count last idx : Z) (flag : bool) (st : ChunkState) (hl : EncodeHex) : ChunkBody :=
  mkChunkBody tv buf count last DPartial (status last idx flag st hl) 0.

(** The body when a token is written. *)
Definition after_token (count last : Z) (s : EncodeStatus) (var : option StatusVar) : ChunkBody :=
  match var with
  | Some v => mkChunkBody tv buf (sv_cnt v) last (sv_data_status v) s 0
  | None => mkChunkBody tv buf count last DPartial s 0
  end.

Lemma chunk_encode_eq count last el st hl src room s out var :
  status_encode (E := E) src room (status last 0 true st hl) = (s, Ok (out, var)) →
  chunk_encode (E := E) src room (mkChunkBody tv buf count last DPartial (status el 0 true st hl) 0) =
    (after_token count last s var, Ok out).
Proof.
  intros H. unfold chunk_encode. rewrite bind_st. cbn [get_st]. rewrite bind_st.
  unfold on_encode at 1, zoom at 1, modify_st at 1. rewrite bind_st. unfold on_encode, zoom.
  cbn [cb_encode_status cb_set_encode]. change (es_set_chunk _ _ _ _) with (status last 0 true st hl).
  rewrite H, bind_st. by destruct var.
Qed.

(** The next token of [bytes_encode]: the flag tells whether the chunk was
    looked up already. *)
Lemma bytes_token count last idx flag st hl room s out var :
  0 ≤ count → count * CHUNK_SIZE ≤ len from → (flag = true → last = size_at count ∧ idx = 0) →
  status_encode (E := E) (chunk_at count) room (status (size_at count) 0 true st hl) = (s, Ok (out, var)) →
  bytes_encode (E := E) from room (body count last idx flag st hl) = (after_token count (size_at count) s var, Ok out).
Proof.
  intros Hc Hl Hflag H. unfold bytes_encode. rewrite bind_st. cbn [get_st]. rewrite bind_st. cbn [es_read_flag cb_encode_status body status].
  assert ((len from <? count * CHUNK_SIZE + size_at count) = false) as Hb by (apply Z.ltb_ge; unfold size_at; lia).
  destruct flag; cbn [negb].
  - destruct (Hflag eq_refl) as [-> ->]. cbn. rewrite bind_st. cbn. rewrite Hb. by apply chunk_encode_eq.
  - rewrite bind_st. cbn. destruct (Z.ltb_spec (len from - count * CHUNK_SIZE) 0); [lia|].
    rewrite bind_st. cbn. rewrite bind_st. cbn.
    assert ((if len from - count * CHUNK_SIZE <? CHUNK_SIZE then len from - count * CHUNK_SIZE else CHUNK_SIZE) = size_at count) as ->.
    { unfold size_at. destruct (Z.ltb_spec (len from - count * CHUNK_SIZE) CHUNK_SIZE); lia. }
    rewrite Hb. by apply chunk_encode_eq.
Qed.

Definition loop (fuel : nat) (room : Z) : ST ChunkBody E bytes :=
  data_loop cb_data_status (bytes_encode from) trailer_encode fuel room.

Lemma loop_token fuel room b b' out :
  0 < room → cb_data_status b = DPartial → bytes_encode (E := E) from room b = (b', Ok out) →
  loop (S fuel) room b = prefix out (loop fuel (room - len out) b').
Proof. apply (data_loop_token cb_data_status (bytes_encode from) trailer_encode). Qed.

(** A token of the chunk at [count]. *)
Definition ready (count last idx : Z) (flag : bool) : Prop :=
  0 ≤ count ∧ count * CHUNK_SIZE ≤ len from ∧ (flag = true → last = size_at count ∧ idx = 0).

Lemma loop_bytes fuel room count last idx flag st hl s out var :
  0 < room → ready count last idx flag →
  status_encode (E := E) (chunk_at count) room (status (size_at count) 0 true st hl) = (s, Ok (out, var)) →
  loop (S fuel) room (body count last idx flag st hl) =
    prefix out (loop fuel (room - len out) (after_token count (size_at count) s var)).
Proof. intros Hr (Hc & Hl & Hf) H. apply loop_token; [done|done|by apply bytes_token]. Qed.

Lemma ready_true count : 0 ≤ count → count * CHUNK_SIZE ≤ len from → ready count (size_at count) 0 true.
Proof. done. Qed.

(** The head of a chunk: its size and CRLF. *)
Lemma loop_head fuel room count last idx flag hl :
  ready count last idx flag → len (format_hex (size_at count)) + 2 ≤ room → 0 < len (format_hex (size_at count)) →
  loop (2 + fuel) room (body count last idx flag CMetaSize hl) =
    prefix (format_hex (size_at count) ++ crlf)
      (loop fuel (room - (len (format_hex (size_at count)) + 2))
         (body count (size_at count) 0 true CData (hex_after (size_at count) hl))).
Proof.
  intros Hr Hroom Hpos. change (2 + fuel)%nat with (S (S fuel)).
  erewrite loop_bytes; [|lia|exact Hr|apply status_size; lia]. destruct Hr as (Hc & Hl & _). set (h := format_hex (size_at count)) in *.
  change (after_token _ _ _ None) with (body count (size_at count) 0 true CMetaCrlf (hex_after (size_at count) hl)).
  erewrite loop_bytes; [|lia|by apply ready_true|apply status_meta_crlf; lia].
  rewrite prefix_app. by replace (room - len h - len crlf) with (room - (len h + 2)) by (change (len crlf) with 2; lia).
Qed.

(** A chunk of full size. *)
Lemma loop_full fuel room count last idx flag hl :
  ready count last idx flag → (count + 1) * CHUNK_SIZE ≤ len from → 1031 ≤ room →
  loop (4 + fuel) room (body count last idx flag CMetaSize hl) =
    prefix (frame (chunk_at count)) (loop fuel (room - 1031) (body 1 (size_at 1) 0 true CMetaSize hl)).
Proof.
  intros Hr Hl Hroom. pose proof Hr as (Hc & Hl0 & _).
  assert (size_at count = CHUNK_SIZE) as Hs by (unfold size_at, CHUNK_SIZE in *; lia).
  assert (len (chunk_at count) = CHUNK_SIZE) as Hlen by (by rewrite len_chunk_at).
  assert (len (format_hex (size_at count)) = 3) as Hx by (by rewrite Hs).
  change (4 + fuel)%nat with (2 + S (S fuel))%nat. rewrite loop_head by (done || lia).
  rewrite Hx. erewrite loop_bytes; [|lia|by apply ready_true|rewrite Hs; apply status_data; rewrite Hlen; unfold CHUNK_SIZE; lia].
  assert (1 * CHUNK_SIZE ≤ len from) as Hl1 by (unfold CHUNK_SIZE in *; lia).
  rewrite Hs. change (after_token _ _ _ (Some (mkStatusVar 1 DPartial))) with
    (body 1 CHUNK_SIZE (len (chunk_at count)) false CDataCrlf hl).
  erewrite loop_bytes; [|rewrite Hlen; unfold CHUNK_SIZE; lia|by split_and!|apply status_data_crlf; rewrite Hlen; unfold CHUNK_SIZE; lia].
  rewrite !prefix_app. unfold frame. rewrite Hlen, <- !app_assoc.
  replace (room - (3 + 2) - CHUNK_SIZE - len crlf) with (room - 1031) by (change (len crlf) with 2; unfold CHUNK_SIZE; lia).
  done.
Qed.

Lemma len_ending : len ending = 5 + len tv.
Proof. unfold ending. autorewrite with len. change (len crlf) with 2. change (len (bs "0")) with 1. lia. Qed.

Lemma trailer_encode_eq count last s room :
  len ending ≤ room →
  trailer_encode (E := E) room (mkChunkBody tv buf count last DComplete s 0) =
    (mkChunkBody tv buf count last DFinish s (len ending), Ok ending).
Proof.
  intros Hr. unfold trailer_encode. rewrite bind_st. cbn [get_st]. rewrite bind_st. unfold zoom. cbn [cb_trailer_idx].
  replace (trailer_src (mkChunkBody tv buf count last DComplete s 0)) with ending by done.
  by rewrite write_complete by done.
Qed.

Lemma loop_ending fuel room count last s :
  len ending ≤ room →
  loop (2 + fuel) room (mkChunkBody tv buf count last DComplete s 0) =
    (mkChunkBody tv buf count last DFinish s (len ending), Ok ending).
Proof.
  intros Hr. pose proof len_ending. pose proof (len_nonneg tv). unfold loop. cbn [Nat.add data_loop].
  destruct (Z.eqb_spec room 0); [lia|]. rewrite bind_st. cbn [get_st cb_data_status]. rewrite decide_False by done.
  rewrite bind_st, trailer_encode_eq by done. rewrite bind_st.
  generalize ending. intros e. destruct (_ =? 0); [|rewrite bind_st]; cbn; by rewrite app_nil_r.
Qed.

(** The last chunk of the data, which is shorter, and the ending. *)
Lemma loop_tail fuel room count last idx flag hl :
  ready count last idx flag → len from < (count + 1) * CHUNK_SIZE →
  0 < len (format_hex (size_at count)) → len (frame (chunk_at count) ++ ending) ≤ room →
  ∃ b, loop (6 + fuel) room (body count last idx flag CMetaSize hl) = (b, Ok (frame (chunk_at count) ++ ending)) ∧
    cb_data_status b = DFinish.
Proof.
  intros Hr Hl Hpos Hroom. pose proof Hr as (Hc & Hl0 & _).
  assert (size_at count ≠ CHUNK_SIZE) as Hs by (unfold size_at, CHUNK_SIZE in *; lia).
  assert (len (chunk_at count) = size_at count) as Hlen by (by rewrite len_chunk_at).
  pose proof len_ending. unfold frame in Hroom. rewrite Hlen in Hroom. autorewrite with len in Hroom.
  change (len crlf) with 2 in Hroom. pose proof (len_nonneg tv). pose proof (len_nonneg (chunk_at count)).
  change (6 + fuel)%nat with (2 + S (S (2 + fuel)))%nat. rewrite loop_head by (done || lia).
  set (h := format_hex (size_at count)) in *.
  erewrite loop_bytes; [|lia|by apply ready_true|apply status_tail; [done|lia]].
  change (after_token _ _ _ (Some (mkStatusVar 0 DPartial))) with
    (body 0 (size_at count) (len (chunk_at count)) false CFinish (hex_after (size_at count) hl)).
  destruct (status_finish (E := E) (size_at 0) (hex_after (size_at count) hl) (chunk_at 0)
    (room - (len h + 2) - len (chunk_at count)) ltac:(lia)) as [s Hfin].
  erewrite loop_bytes; [|lia|split_and!; [done|len_lia|done]|exact Hfin].
  cbn [after_token sv_data_status sv_cnt]. rewrite loop_ending by (change (len crlf) with 2; lia).
  rewrite !prefix_app, prefix_ok. unfold frame. rewrite Hlen, <- !app_assoc. by eexists.
Qed.
End body.

(** ** Hexadecimal sizes *)

Lemma digit_value_char k : 0 ≤ k < 16 → digit_value (hex_char k) = Some k.
Proof.
  intros Hk. assert (k = 0 ∨ k = 1 ∨ k = 2 ∨ k = 3 ∨ k = 4 ∨ k = 5 ∨ k = 6 ∨ k = 7 ∨ k = 8 ∨ k = 9 ∨ k = 10 ∨ k = 11 ∨
    k = 12 ∨ k = 13 ∨ k = 14 ∨ k = 15) as H by lia.
  by repeat destruct H as [->|H]; [..|subst].
Qed.

Lemma run_hex_char n k rest :
  0 ≤ k < 16 → n * 16 + k ≤ I64_MAX → run (ASize n) (hex_char k :: rest) = run (ASize (n * 16 + k)) rest.
Proof.
  intros Hk Hn. cbn [run step]. rewrite digit_value_char by done.
  by destruct (Z.leb_spec (n * 16 + k) I64_MAX); [|lia].
Qed.

Lemma run_hex_go fuel n rest :
  0 ≤ n < 16 ^ Z.of_nat fuel → n ≤ I64_MAX → run (ASize 0) (hex_go fuel n ++ rest) = run (ASize n) rest.
Proof.
  revert n rest. induction fuel as [|fuel IH]; intros n rest Hn Hm.
  { assert (n = 0) as -> by (cbn in Hn; lia). done. }
  cbn [hex_go]. destruct (Z.ltb_spec n 16) as [Hlt|Hge].
  - cbn [app]. by rewrite run_hex_char by lia.
  - rewrite Nat2Z.inj_succ, Z.pow_succ_r in Hn by lia.
    pose proof (Z.div_mod n 16). pose proof (Z.mod_pos_bound n 16).
    rewrite <- app_assoc, IH by (first [split; [apply Z.div_pos; lia|apply Z.div_lt_upper_bound; lia]|lia]). cbn [app].
    rewrite run_hex_char by lia. f_equal. f_equal. lia.
Qed.

Lemma run_hex n rest : 0 ≤ n ≤ I64_MAX → run (ASize 0) (format_hex n ++ rest) = run (ASize n) rest.
Proof. intros H. apply run_hex_go; [|lia]. change (16 ^ Z.of_nat 16) with (2 ^ 64). unfold I64_MAX in H. lia. Qed.

Lemma len_hex_go fuel n : 0 < len (hex_go (S fuel) n).
Proof.
  cbn [hex_go]. destruct (n <? 16); [done|]. rewrite len_app. pose proof (len_nonneg (hex_go fuel (n / 16))).
  change (len [hex_char (n mod 16)]) with 1. lia.
Qed.

Lemma format_hex_pos n : 0 < len (format_hex n).
Proof. apply len_hex_go. Qed.

(** ** What the decoder reads of a chunk *)

Lemma run_size_crlf n rest : n ≠ 0 → run (ASize n) (crlf ++ rest) = run (AData n n) rest.
Proof. intros Hn. cbn. by rewrite (proj2 (Z.eqb_neq _ _) Hn). Qed.

Lemma run_data n data rest :
  0 < len data →
  run (AData n (len data)) (data ++ rest) = let '(es, o) := run (AEnd n false) rest in (map EvData data ++ es, o).
Proof.
  induction data as [|b data IH]; intros Hd; [done|]. cbn [app run step]. rewrite len_cons in *.
  destruct data as [|b' data].
  - replace (1 + len [] =? 1) with true by done. cbn [app map]. by destruct (run (AEnd n false) rest).
  - rewrite len_cons in *. pose proof (len_nonneg data). destruct (Z.eqb_spec (1 + (1 + len data)) 1); [lia|].
    replace (1 + (1 + len data) - 1) with (1 + len data) by lia. rewrite IH by lia. by destruct (run (AEnd n false) rest).
Qed.

Lemma run_end_crlf n rest : n ≠ 0 →
  run (AEnd n false) (crlf ++ rest) = let '(es, o) := run (ASize 0) rest in (EvChunk n :: es, o).
Proof. intros Hn. by destruct n. Qed.

Lemma run_frame data rest :
  0 < len data ≤ I64_MAX →
  run (ASize 0) (frame data ++ rest) =
    let '(es, o) := run (ASize 0) rest in (map EvData data ++ EvChunk (len data) :: es, o).
Proof.
  intros Hd. unfold frame. rewrite <- !app_assoc, run_hex by lia. rewrite run_size_crlf by lia.
  rewrite run_data, run_end_crlf by lia. by destruct (run (ASize 0) rest).
Qed.

(** The data of events. *)
Definition event_data (e : Event) : bytes := match e with EvData b => [b] | EvChunk _ => [] end.

Lemma event_data_map data : map EvData data ≫= event_data = data.
Proof. induction data as [|b data IH]; [done|]. cbn. by rewrite <- IH at 2. Qed.

Lemma event_data_events cs : events cs ≫= event_data = cs ≫= ck_data.
Proof.
  induction cs as [|c cs IH]; [done|]. unfold events in *. rewrite !bind_cons, bind_app, IH. f_equal.
  unfold chunk_events. rewrite bind_app, event_data_map. destruct (is_complete c); apply app_nil_r.
Qed.

(** ** Whole bodies *)

(** What is written of a body of less than two full chunks. *)
Definition wire (from tv : bytes) : bytes :=
  (if len from <? CHUNK_SIZE then frame from else frame (takeZ CHUNK_SIZE from) ++ frame (dropZ CHUNK_SIZE from)) ++ ending tv.

Definition trailer_bytes (hs : list (bytes * HeaderValue)) : bytes := hs ≫= trailer_line.

Lemma bytes_data_loop {E} from hs room :
  bytes_data (E := E) from room (ChunkBody_set_trailer hs ChunkBody_from_bytes) =
    loop from (data_fuel room) room (body (trailer_bytes hs) [] 0 0 0 false CMetaSize (EncodeHex_new [])).
Proof. done. Qed.

Lemma chunk_at_last from count :
  count * CHUNK_SIZE ≤ len from < (count + 1) * CHUNK_SIZE → 0 ≤ count →
  chunk_at from count = dropZ (count * CHUNK_SIZE) from.
Proof.
  intros H Hc. unfold chunk_at, size_at, CHUNK_SIZE in *. apply takeZ_all. rewrite len_dropZ by lia. lia.
Qed.

Lemma wire_ok {E} from tv room flag last hl :
  len from < 2 * CHUNK_SIZE → len (wire from tv) ≤ room → (flag = true → last = size_at from 0) →
  ∃ b, loop (E := E) from (data_fuel room) room (body tv [] 0 last 0 flag CMetaSize hl) = (b, Ok (wire from tv)) ∧
    cb_data_status b = DFinish.
Proof.
  intros Hf Hr Hflag. pose proof (len_nonneg from) as H0. pose proof (len_ending tv) as He. pose proof (len_nonneg tv).
  assert (ready from 0 last 0 flag) as Hready by (split_and!; [done|lia|auto]).
  unfold wire in *. destruct (Z.ltb_spec (len from) CHUNK_SIZE) as [Hlt|Hge].
  - assert (chunk_at from 0 = from) as Hc by (rewrite chunk_at_last by (unfold CHUNK_SIZE in *; lia); by rewrite dropZ_0).
    pose proof (format_hex_pos (len from)).
    replace (data_fuel room) with (6 + (data_fuel room - 6))%nat
      by (unfold data_fuel, frame in *; autorewrite with len in Hr; change (len crlf) with 2 in Hr; lia).
    pose proof (loop_tail (E := E) from tv [] (data_fuel room - 6) room 0 last 0 flag hl Hready) as Htail.
    rewrite Hc in Htail. apply Htail; [lia|apply format_hex_pos|done].
  - rewrite <- app_assoc in *. assert (takeZ CHUNK_SIZE from = chunk_at from 0) as Hc0.
    { unfold chunk_at, size_at. rewrite dropZ_0. f_equal. unfold CHUNK_SIZE in *. lia. }
    assert (dropZ CHUNK_SIZE from = chunk_at from 1) as Hc1 by (rewrite chunk_at_last by (unfold CHUNK_SIZE in *; lia); done).
    rewrite Hc0, Hc1 in *. rewrite len_app in Hr.
    assert (len (frame (chunk_at from 0)) = 1031) as Hl0.
    { unfold frame. rewrite !len_app, len_chunk_at by lia. by replace (size_at from 0) with CHUNK_SIZE by (unfold size_at, CHUNK_SIZE in *; lia). }
    pose proof (len_nonneg (frame (chunk_at from 1) ++ ending tv)).
    replace (data_fuel room) with (4 + (6 + (data_fuel room - 10)))%nat by (unfold data_fuel; lia).
    assert (1 * CHUNK_SIZE ≤ len from) as Hl1 by lia.
    rewrite loop_full by (done || lia).
    destruct (loop_tail (E := E) from tv [] (data_fuel room - 10) (room - 1031) 1 (size_at from 1) 0 true hl) as (b & -> & Hb);
      [by apply ready_true|lia|apply format_hex_pos|lia|]. rewrite prefix_ok. by eexists.
Qed.

(** a body of less than two full chunks, written into a buffer that holds
    it, is the chunked coding of RFC 9112 section 7.1: a chunk of 1024 bytes
    while there is one, the chunk of the rest, the chunk of size 0 and the
    trailer, and the encoder is finished. *)
Theorem chunk_body_spec (from : bytes) (trailers : list (bytes * HeaderValue)) (room : Z) :
  len from < 2 * CHUNK_SIZE → len (wire from (trailer_bytes trailers)) ≤ room →
  ∃ b, bytes_data (E := HttpError) from room (ChunkBody_set_trailer trailers ChunkBody_from_bytes) =
      (b, Ok (wire from (trailer_bytes trailers))) ∧
    cb_data_status b = DFinish.
Proof. intros Hf Hr. rewrite bytes_data_loop. by apply wire_ok. Qed.

Lemma chunk_body_spec_witness :
  let trailers := [(bs "a", mkHeaderValue [bs "b"] false)] in
  ∃ b, bytes_data (E := HttpError) (bs "hello") 100 (ChunkBody_set_trailer trailers ChunkBody_from_bytes) =
      (b, Ok (wire (bs "hello") (trailer_bytes trailers))) ∧
    cb_data_status b = DFinish.
Proof. intros trailers. apply (chunk_body_spec (bs "hello") trailers 100); by vm_compute. Defined.

(** C10: For a byte slice that is not empty, is shorter than two full chunks and is
    not one full chunk, one call of ChunkBody's data with a buffer that holds all of
    it writes a chunked body that ChunkBodyDecoder decodes to chunks with the data
    of the slice, with nothing left. (The empty slice, one full chunk and longer
    slices are findings: the end is written twice or never.) *)
Theorem chunk_body_roundtrip (from : bytes) (room : Z) :
  0 < len from < 2 * CHUNK_SIZE → len from ≠ CHUNK_SIZE → len (wire from []) ≤ room →
  ∃ b w d cs, bytes_data (E := HttpError) from room ChunkBody_from_bytes = (b, Ok w) ∧
    ChunkBodyDecoder_decode w ChunkBodyDecoder_new = (d, Ok (cs, [])) ∧ cs ≫= ck_data = from.
Proof.
  intros Hf Hne Hr. destruct (wire_ok (E := HttpError) from [] room false 0 (EncodeHex_new [])) as (b & Hb & _); [lia|done|done|].
  assert (∃ es, run (ASize 0) (wire from []) = (es, Done []) ∧ es ≫= event_data = from) as (es & Hrun & Hes).
  { assert (run (ASize 0) (ending []) = ([EvChunk 0], Done [])) as He by done. unfold wire, CHUNK_SIZE in *.
    destruct (Z.ltb_spec (len from) 1024).
    - rewrite run_frame, He by (unfold I64_MAX; lia). eexists. split; [done|].
      by rewrite bind_app, event_data_map, app_nil_r.
    - assert (len (takeZ 1024 from) = 1024) by (apply len_takeZ; lia).
      assert (len (dropZ 1024 from) = len from - 1024) by (apply len_dropZ; lia).
      rewrite <- app_assoc, !run_frame, He by (unfold I64_MAX; lia). eexists. split; [done|].
      rewrite bind_app, event_data_map, bind_cons. cbn [event_data]. rewrite app_nil_l, bind_app, event_data_map.
      cbn. rewrite app_nil_r. apply takeZ_dropZ. }
  pose proof (chunk_decode_ok 0 (ASize 0) ChunkBodyDecoder_new (wire from []) (rel_new 0)) as Hd. rewrite Hrun in Hd.
  destruct Hd as (d & cs & Hd & _ & Hcs). exists b, (wire from []), d, cs. split_and!; [exact Hb|exact Hd|].
  by rewrite <- event_data_events, Hcs.
Qed.

Lemma chunk_body_roundtrip_witness :
  ∃ b w d cs, bytes_data (E := HttpError) (bs "hello") 100 ChunkBody_from_bytes = (b, Ok w) ∧
    ChunkBodyDecoder_decode w ChunkBodyDecoder_new = (d, Ok (cs, [])) ∧ cs ≫= ck_data = bs "hello".
Proof. apply (chunk_body_roundtrip (bs "hello") 100); by vm_compute. Defined.

(** ** Bodies that are not what they should be *)

Lemma loop_repeats {E} from tv hl fuel k :
  2 * CHUNK_SIZE ≤ len from →
  loop (E := E) from (4 * k + S fuel) (1031 * Z.of_nat k) (body tv [] 1 (size_at from 1) 0 true CMetaSize hl) =
    (body tv [] 1 (size_at from 1) 0 true CMetaSize hl, Ok (concat (replicate k (frame (chunk_at from 1))))).
Proof.
  intros Hl. induction k as [|k IH]; [done|].
  replace (4 * S k + S fuel)%nat with (4 + (4 * k + S fuel))%nat by lia.
  rewrite loop_full; [|apply ready_true; unfold CHUNK_SIZE in *; lia|lia|lia].
  replace (1031 * Z.of_nat (S k) - 1031) with (1031 * Z.of_nat k) by lia. by rewrite IH, prefix_ok.
Qed.

(** [chunk_count] is set to 1 behind every full chunk, where it should
    grow: a body of two full chunks or more never ends.  The encoder fills any
    buffer with its second chunk again and again. *)
Theorem chunk_body_never_ends (from : bytes) (k : nat) :
  2 * CHUNK_SIZE ≤ len from →
  ∃ b, bytes_data (E := HttpError) from (1031 * (1 + Z.of_nat k)) ChunkBody_from_bytes =
      (b, Ok (frame (takeZ CHUNK_SIZE from) ++
              concat (replicate k (frame (takeZ CHUNK_SIZE (dropZ CHUNK_SIZE from)))))) ∧
    cb_data_status b = DPartial.
Proof.
  intros Hl. set (room := 1031 * (1 + Z.of_nat k)). assert (0 ≤ Z.of_nat k) by lia.
  change (bytes_data from room ChunkBody_from_bytes) with
    (loop (E := HttpError) from (data_fuel room) room (body [] [] 0 0 0 false CMetaSize (EncodeHex_new []))).
  assert (data_fuel room = 4 + (4 * k + S (Z.to_nat room - 4 * k - 3)))%nat as -> by (unfold data_fuel, room; lia).
  rewrite loop_full; [|split_and!; [done|len_lia|done]|unfold CHUNK_SIZE in *; lia|unfold room; lia].
  replace (room - 1031) with (1031 * Z.of_nat k) by (unfold room; lia). rewrite loop_repeats, prefix_ok by done.
  replace (chunk_at from 0) with (takeZ CHUNK_SIZE from); [replace (chunk_at from 1) with (takeZ CHUNK_SIZE (dropZ CHUNK_SIZE from))|].
  - by eexists.
  - unfold chunk_at, size_at, CHUNK_SIZE in *. f_equal. lia.
  - unfold chunk_at, size_at, CHUNK_SIZE in *. rewrite dropZ_0. f_equal. lia.
Qed.

Lemma chunk_body_never_ends_witness :
  2 * CHUNK_SIZE ≤ len (replicate 2048 97) ∧
  ∃ b, bytes_data (E := HttpError) (replicate 2048 97) 2062 ChunkBody_from_bytes =
      (b, Ok (frame (replicate 1024 97) ++ frame (replicate 1024 97))) ∧ cb_data_status b = DPartial.
Proof.
  split; [by vm_compute|]. destruct (chunk_body_never_ends (replicate 2048 97) 1) as (b & Hb & Hs); [by vm_compute|].
  exists b. split; [|exact Hs]. etransitivity; [exact Hb|]. by vm_compute.
Defined.

(** the size of a chunk that is not full is written again from its first
    digit when a buffer ends inside it, so the digits that were written stay in
    front of it and the body is not what it should be. *)
Theorem chunk_size_restarts (from : bytes) (r room : Z) :
  len from < CHUNK_SIZE → 0 ≤ r < len (format_hex (len from)) → len (wire from []) ≤ room →
  ∃ b1 b2, bytes_data (E := HttpError) from r ChunkBody_from_bytes = (b1, Ok (takeZ r (format_hex (len from)))) ∧
    bytes_data (E := HttpError) from room b1 = (b2, Ok (wire from [])) ∧ cb_data_status b2 = DFinish.
Proof.
  intros Hl Hr Hroom. pose proof (len_nonneg from).
  assert (size_at from 0 = len from) as Hs by (unfold size_at; lia).
  destruct (decide (r = 0)) as [->|Hpos].
  { destruct (wire_ok (E := HttpError) from [] room false 0 (EncodeHex_new [])) as (b & Hb & Hst); [unfold CHUNK_SIZE in *; lia|done|done|].
    exists ChunkBody_from_bytes, b. done. }
  set (b1 := body [] [] 0 (size_at from 0) 0 true CMetaSize (mkEncodeHex (format_hex (size_at from 0)) r)).
  destruct (wire_ok (E := HttpError) from [] room true (size_at from 0) (mkEncodeHex (format_hex (size_at from 0)) r))
    as (b & Hb & Hst); [unfold CHUNK_SIZE in *; lia|done|done|].
  exists b1, b. split_and!; [|exact Hb|exact Hst].
  change (bytes_data from r ChunkBody_from_bytes) with
    (loop (E := HttpError) from (data_fuel r) r (body [] [] 0 0 0 false CMetaSize (EncodeHex_new []))).
  replace (data_fuel r) with (S (S (Z.to_nat r))) by (unfold data_fuel; lia).
  erewrite loop_bytes; [|lia|split_and!; [done|len_lia|done]|apply status_size_partial; rewrite Hs; [lia|done]].
  rewrite Hs, len_takeZ, Z.sub_diag by lia. cbn [after_token]. unfold loop. cbn [data_loop Z.eqb].
  unfold b1. rewrite Hs. unfold prefix. cbn. by rewrite app_nil_r.
Qed.

Lemma chunk_size_restarts_witness :
  let from := bs "seventeen letters" in
  ∃ b1 b2, bytes_data (E := HttpError) from 1 ChunkBody_from_bytes = (b1, Ok (bs "1")) ∧
    bytes_data (E := HttpError) from 100 b1 = (b2, Ok (wire from [])) ∧ cb_data_status b2 = DFinish.
Proof. intros from. apply (chunk_size_restarts from 1 100); by vm_compute. Defined.

(** An empty body gets a second last chunk, which the decoder leaves. *)
Example empty_body_ends_twice :
  (bytes_data (E := HttpError) [] 100 ChunkBody_from_bytes).2 = Ok (ending [] ++ ending []) ∧
  ∃ d cs, ChunkBodyDecoder_decode (ending [] ++ ending []) ChunkBodyDecoder_new = (d, Ok (cs, ending [])).
Proof. split; [by vm_compute|]. eexists _, _. by vm_compute. Qed.
