(* ===== verification/Body.v ===== *)
(** * Bodies and their readers

    What the bodies of [src/ylong_http/src/body] read from: [Poll], the buffer
    [ReadBuf] of an asynchronous read, cursors, and the traits [AsyncRead] and
    [ReusableReader] ([body/mod.rs]) as classes, with the laws a reader
    promises.  Then the bodies of [body/empty.rs] and [body/text.rs], and
    [ReusableReader] for [&[u8]]. *)

From S2P Require Import Prelude.
#[local] Open Scope Z_scope.

(** [Poll]. *)
Inductive Poll (A : Type) := Ready (a : A) | Pending.
Arguments Ready {A} a.
Arguments Pending {A}.

Definition poll_map {S E A B} (f : A → B) (x : S * result E A) : S * result E B := (x.1, a ← x.2; mret (f a)).

(** ** Buffers and cursors *)

(** [ReadBuf]: what was filled, of a buffer of [rb_cap] bytes. *)
Record ReadBuf := mkReadBuf { rb_filled : bytes; rb_cap : Z }.

(** [initialize_unfilled().len()], [remaining()]. *)
Definition rb_room (b : ReadBuf) : Z := rb_cap b - len (rb_filled b).
Definition rb_put (out : bytes) (b : ReadBuf) : ReadBuf := mkReadBuf (rb_filled b ++ out) (rb_cap b).
Definition ReadBuf_new (cap : Z) : ReadBuf := mkReadBuf [] cap.

(** [Cursor<Vec<u8>>] and [Read::read] of it. *)
Record Cursor := mkCursor { cu_data : bytes; cu_pos : Z }.
Definition Cursor_new (l : bytes) : Cursor := mkCursor l 0.
Definition set_position (p : Z) (c : Cursor) : Cursor := mkCursor (cu_data c) p.
Definition cu_rest (c : Cursor) : bytes := dropZ (cu_pos c) (cu_data c).
Definition Cursor_read (room : Z) (c : Cursor) : Cursor * bytes :=
  let out := takeZ room (cu_rest c) in (set_position (cu_pos c + len out) c, out).

(** [Read::read] of [&[u8]]. *)
Definition slice_read (room : Z) (l : bytes) : bytes * bytes := (dropZ room l, takeZ room l).

(** ** Readers *)

(** [AsyncRead::poll_read] of a reader with errors in [E]. *)
Class AsyncRead (E R : Type) := poll_read : ST (R * ReadBuf) E (Poll ()).

(** [ReusableReader::reuse], awaited. *)
Class ReusableReader (E R : Type) := reuse : ST R E ().

(** What a reader does to the buffer: it appends at most as many bytes as there
    is room, the next ones of those it has left, and a read that appends none to
    a buffer with room is the end. *)
Definition poll_spec {E R : Type} (rest : R → bytes) (r : R) (b : ReadBuf) (x : (R * ReadBuf) * result E (Poll ())) : Prop :=
  ∃ out, x.1.2 = rb_put out b ∧ rest r = out ++ rest x.1.1 ∧ len out ≤ rb_room b ∧
    match x.2 with
    | Ok (Ready _) => out = [] → rb_room b = 0 ∨ rest r = []
    | Ok Pending => out = []
    | Err _ => True
    | Panic => False
    end.

(** The promises of a reader: [rest] is what it has left and [whole] what it gives
    from its start. *)
Class ReaderLaws (E R : Type) `{!AsyncRead E R} := {
  reader_ok : R → Prop;
  reader_rest : R → bytes;
  reader_whole : R → bytes;
  poll_read_ok : ∀ r b, reader_ok r → 0 ≤ rb_room b →
    poll_spec reader_rest r b (poll_read (r, b)) ∧
    reader_ok (poll_read (r, b)).1.1 ∧ reader_whole (poll_read (r, b)).1.1 = reader_whole r
}.

(** What the trait asks of [reuse], files and cursors do and the slices of the
    repository do not: the reader starts again. *)
Class ReuseLaws (E R : Type) `{!AsyncRead E R, !ReusableReader E R, !ReaderLaws E R} : Prop :=
  reuse_ok : ∀ r, reader_ok r →
    match reuse r with
    | (r', Ok _) => reader_ok r' ∧ reader_rest r' = reader_whole r ∧ reader_whole r' = reader_whole r
    | (_, Err _) => True
    | (_, Panic) => False
    end.

(** Reads with new buffers of the given capacities, to the first that gives
    nothing; whether there was one. *)
Fixpoint read_to_end {E R} `{!AsyncRead E R} (caps : list Z) (r : R) : R * bytes * bool :=
  match caps with
  | [] => (r, [], false)
  | cap :: caps =>
      match poll_read (E := E) (r, ReadBuf_new cap) with
      | ((r, b), Ok (Ready _)) =>
          if len (rb_filled b) =? 0 then (r, [], true)
          else let '(r, more, e) := read_to_end caps r in (r, rb_filled b ++ more, e)
      | ((r, b), Ok Pending) => let '(r, more, e) := read_to_end caps r in (r, rb_filled b ++ more, e)
      | ((r, b), _) => (r, rb_filled b, false)
      end
  end.

(** ** [EmptyBody] and [TextBody] *)

Inductive EmptyBody := mkEmptyBody.

(** [data] and [poll_data]. *)
Definition EmptyBody_data (room : Z) : ST EmptyBody False bytes := mret [].
Definition EmptyBody_poll_data (room : Z) : ST EmptyBody False (Poll bytes) := mret (Ready []).

Section text.
Context {E R : Type} (read : R → Z → R * result E bytes) `{!AsyncRead E R}.

(** A [TextBody] over a slice, a reader and an asynchronous reader: what a read
    into a buffer with [room] bytes gives. *)
Definition bytes_data (room : Z) : ST bytes E bytes := λ l, let (l, out) := slice_read room l in (l, Ok out).
Definition bytes_poll_data (room : Z) : ST bytes E (Poll bytes) := λ l, let (l, out) := slice_read room l in (l, Ok (Ready out)).
Definition text_reader_data (room : Z) : ST R E bytes := λ r, read r room.
Definition text_poll_data (room : Z) : ST R E (Poll bytes) := λ r,
  match poll_read (r, ReadBuf_new room) with
  | ((r, b), Ok (Ready _)) => (r, Ok (Ready (rb_filled b)))
  | ((r, _), Ok Pending) => (r, Ok Pending)
  | ((r, _), Err e) => (r, Err e)
  | ((r, _), Panic) => (r, Panic)
  end.
End text.

Inductive TextState := TPartial | TComplete.
Record Text := mkText { tx_state : TextState; tx_data : bytes }.
Definition Text_is_complete (t : Text) : bool := match tx_state t with TComplete => true | TPartial => false end.

(** [TextBodyDecoder]: how many bytes are left. *)
Record TextBodyDecoder := mkTextBodyDecoder { td_left : Z }.

Definition text_decode (d : TextBodyDecoder) (buf : bytes) : TextBodyDecoder * Text * bytes :=
  if td_left d =? 0 then (d, mkText TComplete [], buf)
  else
    let size := Z.min (td_left d) (len buf) in
    let d := mkTextBodyDecoder (td_left d - size) in
    (d, mkText (if td_left d =? 0 then TComplete else TPartial) (takeZ size buf), dropZ size buf).

(** The data and the rest of the pieces of a text: the decoder takes pieces
    until it is complete. *)
Fixpoint text_decode_all (d : TextBodyDecoder) (pieces : list bytes) : bytes * bool * list bytes :=
  match pieces with
  | [] => ([], false, [])
  | p :: pieces =>
      let '(d, t, rest) := text_decode d p in
      if Text_is_complete t then (tx_data t, true, rest :: pieces)
      else let '(more, c, r) := text_decode_all d pieces in (tx_data t ++ more, c, r)
  end.

(** ** [&[u8]] as a reader *)

#[export] Instance slice_AsyncRead {E} : AsyncRead E bytes := λ s,
  let '(l, b) := s in let '(l, out) := slice_read (rb_room b) l in ((l, rb_put out b), Ok (Ready ())).

(** [ReusableReader for &[u8]] does nothing. *)
#[export] Instance slice_ReusableReader {E} : ReusableReader E bytes := mret ().

(** ** Lemmas *)

Lemma len_takeZ_min {A} (n : Z) (l : list A) : 0 ≤ n → len (takeZ n l) = Z.min n (len l).
Proof. intros. unfold len, takeZ. rewrite length_take. lia. Qed.

Lemma takeZ_nil_inv {A} (n : Z) (l : list A) : 0 ≤ n → takeZ n l = [] → n = 0 ∨ l = [].
Proof. intros Hn E. apply (f_equal len) in E. rewrite len_takeZ_min in E by done. rewrite len_nil in E. destruct l as [|x l]; [by right|left]. rewrite len_cons in E. pose proof (len_nonneg l). lia. Qed.

Lemma rb_room_put out b : rb_room (rb_put out b) = rb_room b - len out.
Proof. unfold rb_room, rb_put. cbn. len_lia. Qed.

Lemma rb_room_new cap : rb_room (ReadBuf_new cap) = cap.
Proof. unfold rb_room, ReadBuf_new. cbn [rb_cap rb_filled]. len_lia. Qed.

Lemma rb_put_put a b buf : rb_put b (rb_put a buf) = rb_put (a ++ b) buf.
Proof. unfold rb_put. cbn. by rewrite app_assoc. Qed.

Lemma rb_put_nil buf : rb_put [] buf = buf.
Proof. unfold rb_put. rewrite app_nil_r. by destruct buf. Qed.

Lemma cu_rest_read room c :
  0 ≤ cu_pos c → 0 ≤ room → cu_rest c = (Cursor_read room c).2 ++ cu_rest (Cursor_read room c).1 ∧ 0 ≤ cu_pos (Cursor_read room c).1.
Proof.
  intros Hp Hr. unfold Cursor_read. cbn [fst snd]. set (out := takeZ room (cu_rest c)).
  pose proof (len_nonneg out). split; [|cbn; lia]. unfold cu_rest at 2. cbn [cu_pos cu_data set_position].
  rewrite <- dropZ_dropZ by lia. fold (cu_rest c). unfold out at 2. rewrite len_takeZ_min by done.
  rewrite <- (takeZ_dropZ room (cu_rest c)) at 1. f_equal. destruct (Z.le_gt_cases room (len (cu_rest c))).
  - by rewrite Z.min_l.
  - by rewrite Z.min_r, !dropZ_all by lia.
Qed.

(** ** Reading to the end *)

Section read_to_end.
Context {E R : Type} `{!AsyncRead E R, !ReaderLaws E R}.

(** What was read and what is left are what was left, whatever the sizes of the
    buffers, the waits and the errors; after an empty read, all was read. *)
Lemma read_to_end_spec (caps : list Z) (r : R) :
  reader_ok r → Forall (λ c, 0 < c) caps →
  match read_to_end (E := E) caps r with
  | (r', out, e) =>
      reader_ok r' ∧ reader_whole r' = reader_whole r ∧ reader_rest r = out ++ reader_rest r' ∧ (e = true → out = reader_rest r)
  end.
Proof.
  intros Hok Hc. revert r Hok. induction Hc as [|cap caps Hcap _ IH]; intros r Hok; cbn [read_to_end]; [by split_and!|].
  destruct (poll_read_ok r (ReadBuf_new cap) Hok) as ((out & Hb & Hrest & _ & Hp) & Hok' & Hw); [rewrite rb_room_new; lia|].
  destruct (poll_read (r, ReadBuf_new cap)) as [[r1 b] [[[]|]|e|]]; cbn [fst snd] in *; [| | |done].
  - subst b. cbn [rb_filled ReadBuf_new rb_put app]. destruct (Z.eqb_spec (len out) 0) as [Ez|Hne].
    + apply len_0_nil in Ez as ->. rewrite Hrest. split_and!; try done. intros _.
      destruct (Hp eq_refl) as [Hr|Hr]; [rewrite rb_room_new in Hr; lia|congruence].
    + specialize (IH r1 Hok'). destruct (read_to_end caps r1) as [[r' more] e']. destruct IH as (H1 & H2 & H3 & H4).
      rewrite Hrest, H3, <- app_assoc. split_and!; try done; [congruence|]. intros He. by rewrite <- H3, (H4 He).
  - subst b out. cbn [rb_filled ReadBuf_new rb_put app]. specialize (IH r1 Hok').
    destruct (read_to_end caps r1) as [[r' more] e']. destruct IH as (H1 & H2 & H3 & H4). rewrite Hrest.
    split_and!; try done. congruence.
  - subst b. cbn [rb_filled ReadBuf_new rb_put app]. by split_and!.
Qed.

Hypothesis always_ready : ∀ r b, reader_ok r → 0 ≤ rb_room b → ∃ x, (poll_read (E := E) (r, b)).2 = Ok (Ready x).

(** A reader that never waits and does not fail comes to its end. *)
Lemma read_to_end_ends (caps : list Z) (r : R) :
  reader_ok r → Forall (λ c, 0 < c) caps → len (reader_rest r) < len caps → (read_to_end (E := E) caps r).2 = true.
Proof.
  intros Hok Hc. revert r Hok. induction Hc as [|cap caps Hcap _ IH]; intros r Hok Hl; cbn [read_to_end]; [len_lia|].
  destruct (poll_read_ok r (ReadBuf_new cap) Hok) as ((out & Hb & Hrest & _ & Hp) & Hok' & _); [rewrite rb_room_new; lia|].
  destruct (always_ready r (ReadBuf_new cap) Hok) as [[] Hr]; [rewrite rb_room_new; lia|].
  destruct (poll_read (r, ReadBuf_new cap)) as [[r1 b] p]. cbn [fst snd] in *. subst p.
  destruct (Z.eqb_spec (len (rb_filled b)) 0) as [|Hne]; [done|]. specialize (IH r1 Hok'). rewrite Hrest in Hl. subst b.
  cbn [rb_filled ReadBuf_new rb_put app] in Hne. destruct (read_to_end caps r1) as [[r' more] e']. apply IH. len_lia.
Qed.
End read_to_end.

(** ** The text decoder *)

Lemma text_decode_eq d buf :
  0 ≤ td_left d →
  text_decode d buf =
    (mkTextBodyDecoder (td_left d - Z.min (td_left d) (len buf)),
     mkText (if td_left d <=? len buf then TComplete else TPartial) (takeZ (td_left d) buf), dropZ (td_left d) buf).
Proof.
  intros Hd. unfold text_decode. pose proof (len_nonneg buf). destruct d as [n]. cbn [td_left] in *.
  destruct (Z.eqb_spec n 0) as [->|Hne]; [destruct (Z.leb_spec 0 (len buf)); [|lia]; by rewrite Z.min_l by done|].
  destruct (Z.leb_spec n (len buf)); [rewrite Z.min_l by done|rewrite Z.min_r by lia].
  - by rewrite Z.sub_diag.
  - destruct (Z.eqb_spec (n - len buf) 0); [lia|]. by rewrite !takeZ_all, !dropZ_all by lia.
Qed.

(** A body of a given length: however the bytes after the head are cut into
    pieces, the decoder gives the first [n] of them, says that it is complete
    when it has them all and leaves the others. *)
Theorem text_decode_pieces (n : Z) (pieces : list bytes) (Hn : 0 ≤ n) :
  let '(data, complete, rest) := text_decode_all (mkTextBodyDecoder n) pieces in
  data = takeZ n (concat pieces) ∧
  (complete = true → concat rest = dropZ n (concat pieces)) ∧
  (complete = false → rest = [] ∧ len (concat pieces) ≤ n).
Proof.
  revert n Hn. induction pieces as [|p pieces IH]; intros n Hn; cbn [text_decode_all concat].
  - split_and!; [by rewrite takeZ_all by len_lia|done|]. intros _. split; [done|len_lia].
  - rewrite text_decode_eq by done. cbn [td_left]. destruct (Z.leb_spec n (len p)) as [Hle|Hgt].
    + cbn [Text_is_complete tx_state tx_data concat]. by rewrite takeZ_app_le, dropZ_app_le by done.
    + cbn [Text_is_complete tx_state tx_data]. rewrite Z.min_r by lia. specialize (IH (n - len p) ltac:(lia)).
      destruct (text_decode_all _ pieces) as [[more c] r]. destruct IH as (-> & H1 & H2).
      rewrite takeZ_app_ge, dropZ_app_ge, takeZ_all by lia. split_and!; [done..|].
      intros Hc. destruct (H2 Hc) as [-> ?]. split; [done|len_lia].
Qed.

Lemma text_decode_pieces_witness :
  0 ≤ 5 ∧ text_decode_all (mkTextBodyDecoder 5) [bs "hel"; []; bs "lo HTTP"; bs "/1.1"] = (bs "hello", true, [bs " HTTP"; bs "/1.1"]) ∧
  concat [bs " HTTP"; bs "/1.1"] = dropZ 5 (bs "hello HTTP/1.1").
Proof.
  split; [lia|]. split; [by vm_compute|].
  exact (proj1 (proj2 (text_decode_pieces 5 [bs "hel"; []; bs "lo HTTP"; bs "/1.1"] ltac:(lia))) eq_refl).
Defined.

(** ** [&[u8]] cannot be read again *)

(** After it was read, [reuse] gives back an empty reader. *)
Example slice_reuse_empty :
  let s := (poll_read (E := ()) (bs "1234", ReadBuf_new 10)) in
  rb_filled s.1.2 = bs "1234" ∧ reuse (E := ()) s.1.1 = ([], Ok ()).
Proof. done. Qed.

(** ** Cursors as readers *)

(** [poll_read_cursor] of [ylong_http_client/src/async_impl/request.rs]. *)
#[export] Instance Cursor_AsyncRead {E} : AsyncRead E Cursor :=
  '(c, b) ← get_st;
  if len (cu_data c) <? cu_pos c then mret (Ready ())
  else
    let target := Z.min (len (cu_data c) - cu_pos c) (rb_room b) in
    let e := cu_pos c + target in
    _ ← put_st (set_position e c, rb_put (takeZ (e - cu_pos c) (dropZ (cu_pos c) (cu_data c))) b);
    mret (Ready ()).

(** A slice is read again from its start. *)
#[export] Instance Cursor_ReusableReader {E} : ReusableReader E Cursor := modify_st (set_position 0).

Definition cursor_ok (c : Cursor) : Prop := 0 ≤ cu_pos c.

Lemma takeZ_min {A} n (l : list A) : takeZ (Z.min (len l) n) l = takeZ n l.
Proof. destruct (Z.le_gt_cases (len l) n); [rewrite Z.min_l, !takeZ_all by lia|rewrite Z.min_r by lia]; done. Qed.

Lemma cursor_poll_eq {E} c b : cursor_ok c → 0 ≤ rb_room b →
  ∃ c' out, poll_read (E := E) (c, b) = ((c', rb_put out b), Ok (Ready ())) ∧ cu_data c' = cu_data c ∧ cursor_ok c' ∧
    cu_rest c = out ++ cu_rest c' ∧ out = takeZ (rb_room b) (cu_rest c).
Proof.
  intros Hc Hb. unfold cursor_ok in *. unfold poll_read, Cursor_AsyncRead. rewrite bind_st. cbn [get_st].
  destruct (Z.ltb_spec (len (cu_data c)) (cu_pos c)).
  - exists c, []. rewrite rb_put_nil. assert (cu_rest c = []) as -> by (unfold cu_rest; by apply dropZ_all; lia).
    split_and!; try done. unfold takeZ. by rewrite take_nil.
  - rewrite bind_st. cbn [put_st]. eexists _, _. split; [reflexivity|]. destruct (cu_rest_read (rb_room b) c Hc Hb) as [H1 H2].
    assert (len (cu_rest c) = len (cu_data c) - cu_pos c) as Hl by (unfold cu_rest; rewrite len_dropZ; lia). rewrite <- Hl.
    replace (cu_pos c + Z.min (len (cu_rest c)) (rb_room b) - cu_pos c) with (Z.min (len (cu_rest c)) (rb_room b)) by lia.
    fold (cu_rest c). rewrite takeZ_min. unfold Cursor_read in *. cbn [fst snd] in *.
    rewrite len_takeZ_min, Z.min_comm in H1, H2 by done. split_and!; done.
Qed.

Lemma cursor_poll_ok {E} c b : cursor_ok c → 0 ≤ rb_room b →
  poll_spec (E := E) cu_rest c b (poll_read (c, b)) ∧ cursor_ok (poll_read (E := E) (c, b)).1.1 ∧ cu_data (poll_read (E := E) (c, b)).1.1 = cu_data c.
Proof.
  intros Hc Hb. destruct (cursor_poll_eq (E := E) c b Hc Hb) as (c' & out & -> & Hd & Hc' & Hr & Ho). cbn [fst snd]. split; [|done].
  exists out. split_and!; [done..|rewrite Ho, len_takeZ_min; lia|]. cbn [snd]. rewrite Ho. intros E0. by apply takeZ_nil_inv in E0.
Qed.

Lemma cursor_reuse_ok {E} c : cursor_ok c →
  match reuse (E := E) c with
  | (c', Ok _) => cursor_ok c' ∧ cu_rest c' = cu_data c ∧ cu_data c' = cu_data c
  | (_, Err _) => True
  | (_, Panic) => False
  end.
Proof. intros _. by split_and!. Qed.

#[export] Instance Cursor_laws {E} : ReaderLaws E Cursor :=
  {| reader_ok := cursor_ok; reader_rest := cu_rest; reader_whole := cu_data; poll_read_ok := cursor_poll_ok |}.
#[export] Instance Cursor_reuses {E} : ReuseLaws E Cursor := cursor_reuse_ok (E := E).

Lemma cursor_ready {E} c b : cursor_ok c → 0 ≤ rb_room b → ∃ x, (poll_read (E := E) (c, b)).2 = Ok (Ready x).
Proof. intros Hc Hb. destruct (cursor_poll_eq (E := E) c b Hc Hb) as (c' & out & -> & _). by exists (). Qed.
