(* ===== verification/ChunkReader.v ===== *)
(** * Chunked bodies over readers

    Models the bodies of [ChunkBody] over a [Read] and over an [AsyncRead]
    ([src/ylong_http/src/body/chunk.rs]), and shows that the loop of [data]
    ends.  The reader is a parameter: what a read into a buffer of a given size
    gives. *)

From S2P Require Import Prelude Headers Body ChunkDecoder ChunkEncoder.
#[local] Open Scope Z_scope.

(** ** Readers *)

Section reader.
Context {R E : Type}.

(** [Read::read] and [AsyncRead::poll_read] with a buffer of the given size. *)
Variable read : R → Z → R * result E bytes.
Variable poll_read : R → Z → R * result E (Poll bytes).

Definition on_body {A} (m : ST ChunkBody E A) : ST (ChunkBody * R) E A := zoom fst (λ b s, (b, s.2)) m.

(** What [read] put at the start of the buffer. *)
Definition filled (out : bytes) (b : ChunkBody) : ChunkBody :=
  cb_set_chunk (out ++ dropZ (len out) (cb_chunk_buf b)) (cb_chunk_count b) (len out) b.

Definition chunk_encode_reader (room : Z) : ST (ChunkBody * R) E bytes :=
  s ← get_st;
  if len (cb_chunk_buf s.1) <? cb_chunk_last s.1 then panic
  else on_body (chunk_encode (takeZ (cb_chunk_last s.1) (cb_chunk_buf s.1)) room).

Definition set_flag_idx : ST (ChunkBody * R) E () :=
  _ ← on_body (on_encode (modify_st (set_flag true))); on_body (on_encode (modify_st (set_chunk_idx 0))).

(** The [DataState::Partial] of [data]: an error of the reader is unwrapped. *)
Definition reader_encode (room : Z) : ST (ChunkBody * R) E bytes :=
  s ← get_st;
  _ ← (if negb (es_read_flag (cb_encode_status s.1)) then
         _ ← set_flag_idx;
         s ← get_st;
         match read s.2 (len (cb_chunk_buf s.1)) with
         | (r, Ok out) => put_st (filled out s.1, r)
         | (_, _) => panic
         end
       else mret ());
  chunk_encode_reader room.

(** [data] of [ChunkBody<FromReader<T>>]. *)
Definition reader_data (room : Z) : ST (ChunkBody * R) E bytes :=
  data_loop (λ s, cb_data_status s.1) reader_encode (λ room, on_body (trailer_encode room)) (data_fuel room) room.

(** [poll_partial]. *)
Definition poll_partial (room : Z) : ST (ChunkBody * R) E (Poll bytes) :=
  s ← get_st;
  if negb (es_read_flag (cb_encode_status s.1)) then
    match poll_read s.2 (len (cb_chunk_buf s.1)) with
    | (r, Ok (Ready out)) =>
        _ ← put_st (s.1, r);
        _ ← set_flag_idx;
        s ← get_st;
        _ ← put_st (filled out s.1, s.2);
        out ← chunk_encode_reader room; mret (Ready out)
    | (r, Ok Pending) => _ ← put_st (s.1, r); mret Pending
    | (r, Err e) => _ ← put_st (s.1, r); throw e
    | (r, Panic) => panic
    end
  else out ← chunk_encode_reader room; mret (Ready out).

(** The loop of [poll_data] of [ChunkBody<FromAsyncReader<T>>]. *)
Fixpoint poll_loop (fuel : nat) (room : Z) (count : bytes) : ST (ChunkBody * R) E (Poll bytes) :=
  match fuel with
  | O => panic
  | S fuel =>
      if room =? 0 then mret (Ready count)
      else
        s ← get_st;
        match cb_data_status s.1 with
        | DFinish => mret (Ready count)
        | st =>
            p ← (if decide (st = DPartial) then poll_partial room
                 else out ← on_body (trailer_encode room); mret (Ready out));
            match p with
            | Ready out => poll_loop fuel (room - len out) (count ++ out)
            | Pending => mret (if len count =? 0 then Pending else Ready count)
            end
        end
  end.

Definition poll_data (room : Z) : ST (ChunkBody * R) E (Poll bytes) := poll_loop (data_fuel room) room [].
End reader.

(** ** A step *)

(** The body when a chunk was read. *)
Definition started (b : ChunkBody) : ChunkBody := cb_set_encode (set_chunk_idx 0 (set_flag true (cb_encode_status b))) b.

Section equivalence.
Context {R E : Type} (read : R → Z → R * result E bytes) (poll_read : R → Z → R * result E (Poll bytes)).

Lemma reader_encode_eq room b r :
  reader_encode read room (b, r) =
    if es_read_flag (cb_encode_status b) then chunk_encode_reader room (b, r)
    else match read r (len (cb_chunk_buf b)) with
         | (r', Ok out) => chunk_encode_reader room (filled out (started b), r')
         | (_, _) => ((started b, r), Panic)
         end.
Proof.
  unfold reader_encode. rewrite bind_st. cbn [get_st fst snd]. rewrite bind_st.
  destruct (es_read_flag _); cbn [negb]; [done|]. rewrite bind_st.
  change (set_flag_idx (b, r)) with ((started b, r), Ok (E := E) ()). cbv iota beta. rewrite bind_st. cbn [get_st fst snd].
  change (cb_chunk_buf (started b)) with (cb_chunk_buf b). by destruct (read r _) as [r' [out| |]].
Qed.

Lemma encode_ready room s :
  (out ← chunk_encode_reader (R := R) (E := E) room; mret (Ready out)) s = poll_map Ready (chunk_encode_reader room s).
Proof. rewrite bind_st. unfold poll_map. by destruct (chunk_encode_reader room s) as [? [| |]]. Qed.

Lemma poll_partial_eq room b r :
  poll_partial poll_read room (b, r) =
    if es_read_flag (cb_encode_status b) then poll_map Ready (chunk_encode_reader room (b, r))
    else match poll_read r (len (cb_chunk_buf b)) with
         | (r', Ok (Ready out)) => poll_map Ready (chunk_encode_reader room (filled out (started b), r'))
         | (r', Ok Pending) => ((b, r'), Ok Pending)
         | (r', Err e) => ((b, r'), Err e)
         | (_, Panic) => ((b, r), Panic)
         end.
Proof.
  unfold poll_partial. rewrite bind_st. cbn [get_st fst snd].
  destruct (es_read_flag _); cbn [negb]; [apply encode_ready|]. destruct (poll_read r _) as [r' [[out|]| |]]; [|done..].
  rewrite bind_st. cbn [put_st]. rewrite bind_st.
  change (set_flag_idx (b, r')) with ((started b, r'), Ok (E := E) ()). cbv iota beta. rewrite bind_st. cbn [get_st fst snd].
  rewrite bind_st. apply encode_ready.
Qed.

Hypothesis read_ok : ∀ r n, is_Ok (read r n).2 = true.
Hypothesis always_ready : ∀ r n, poll_read r n = poll_map Ready (read r n).

Lemma poll_partial_ready room s : poll_partial poll_read room s = poll_map Ready (reader_encode read room s).
Proof.
  destruct s as [b r]. rewrite poll_partial_eq, reader_encode_eq, always_ready. destruct (es_read_flag _); [done|].
  pose proof (read_ok r (len (cb_chunk_buf b))). by destruct (read r _) as [r' [out| |]].
Qed.

Lemma poll_loop_ready fuel room count s :
  poll_loop poll_read fuel room count s =
    poll_map (λ out, Ready (count ++ out))
      (data_loop (λ s, cb_data_status s.1) (reader_encode read) (λ room, on_body (trailer_encode room)) fuel room s).
Proof.
  revert room count s. induction fuel as [|fuel IH]; intros room count s; [done|]. cbn [poll_loop data_loop].
  destruct (room =? 0); [unfold poll_map; cbn; by rewrite app_nil_r|]. rewrite !bind_st. cbn [get_st].
  assert (∀ x : (ChunkBody * R) * result E bytes,
    (let (s', r) := poll_map Ready x in
     match r with
     | Ok (Ready out) => poll_loop poll_read fuel (room - len out) (count ++ out) s'
     | Ok Pending => (s', Ok (if len count =? 0 then Pending else Ready count))
     | Err e => (s', Err e)
     | Panic => (s', Panic)
     end) = poll_map (λ out, Ready (count ++ out))
       (let (s', r) := x in
        match r with
        | Ok out => (more ← data_loop (λ s, cb_data_status s.1) (reader_encode read) (λ room, on_body (trailer_encode room))
                              fuel (room - len out); mret (out ++ more)) s'
        | Err e => (s', Err e)
        | Panic => (s', Panic)
        end)) as Hgo.
  { intros [s' [out| |]]; [|done..]. unfold poll_map at 1. cbn. rewrite IH, bind_st. unfold poll_map.
    destruct (data_loop _ _ _ _ _ s') as [s2 [more| |]]; [|done..]. cbn. by rewrite app_assoc. }
  destruct (cb_data_status s.1); [| |unfold poll_map; cbn; by rewrite app_nil_r].
  - rewrite !(decide_True (P := DPartial = DPartial)) by done. rewrite !bind_st, poll_partial_ready, <- Hgo.
    by destruct (reader_encode read room s) as [? [| |]].
  - rewrite !(decide_False (P := DComplete = DPartial)) by done. rewrite !bind_st, <- Hgo.
    by destruct (on_body (trailer_encode room) s) as [? [| |]].
Qed.
End equivalence.

(** over a reader that never has to wait and does not fail, the
    asynchronous body gives what the synchronous one gives: the same bytes and
    the same state, for every state and every buffer. *)
Theorem poll_data_equiv {R E : Type} (read : R → Z → R * result E bytes) (poll_read : R → Z → R * result E (Poll bytes))
    (s : ChunkBody * R) (room : Z) :
  (∀ r n, is_Ok (read r n).2 = true) → (∀ r n, poll_read r n = poll_map Ready (read r n)) →
  poll_data poll_read room s = poll_map Ready (reader_data read room s).
Proof. intros Ho Hr. apply (poll_loop_ready read poll_read Ho Hr). Qed.

(** A reader is the list of what its reads give; then it is at its end. *)
Definition list_read (r : list bytes) (n : Z) : list bytes * result () bytes :=
  match r with [] => ([], Ok []) | x :: r => (r, Ok x) end.

Lemma poll_data_equiv_witness :
  let s := (ChunkBody_from_reader, [bs "hello"]) in
  poll_data (λ r n, poll_map Ready (list_read r n)) 100 s = poll_map Ready (reader_data list_read 100 s) ∧
  (reader_data list_read 100 s).2 = Ok (bs "5" ++ crlf ++ bs "hello" ++ crlf ++ ending []).
Proof.
  intros s. split; [|by vm_compute]. apply (poll_data_equiv list_read (λ r n, poll_map Ready (list_read r n)) s 100);
    [by intros [|x r]|done].
Defined.

(** ** What the body over a reader is *)

Section wire.
Context {R E : Type} (read : R → Z → R * result E bytes) (tv : bytes).

(** The body over a reader, between two tokens. *)
Definition rbody (buf : bytes) (count last idx : Z) (flag : bool) (st : ChunkState) (hl : EncodeHex) : ChunkBody :=
  mkChunkBody tv buf count last DPartial (status last idx flag st hl) 0.

Definition rloop (fuel : nat) (room : Z) : ST (ChunkBody * R) E bytes :=
  data_loop (λ s, cb_data_status s.1) (reader_encode read) (λ room, on_body (trailer_encode room)) fuel room.

(** The chunk [x] was read, and the reader is [r'] behind it, or it is what
    the reader [r] gives next. *)
Definition upcoming (x : bytes) (r' : R) (buf : bytes) (last idx : Z) (flag : bool) (r : R) : Prop :=
  len buf = CHUNK_SIZE ∧ len x ≤ CHUNK_SIZE ∧
  if flag then takeZ last buf = x ∧ last = len x ∧ idx = 0 ∧ r = r' else read r CHUNK_SIZE = (r', Ok x).

Lemma reader_token x r' buf count last idx flag r st hl room s out var :
  upcoming x r' buf last idx flag r →
  status_encode (E := E) x room (status (len x) 0 true st hl) = (s, Ok (out, var)) →
  ∃ buf', len buf' = CHUNK_SIZE ∧ takeZ (len x) buf' = x ∧
    reader_encode read room (rbody buf count last idx flag st hl, r) = ((after_token tv buf' count (len x) s var, r'), Ok out).
Proof.
  intros (Hb & Hx & Hf) H. rewrite reader_encode_eq. cbn [es_read_flag cb_encode_status rbody status].
  assert (∀ buf' el, len buf' = CHUNK_SIZE → takeZ (len x) buf' = x →
    chunk_encode_reader (E := E) room (mkChunkBody tv buf' count (len x) DPartial (status el 0 true st hl) 0, r') =
      ((after_token tv buf' count (len x) s var, r'), Ok out)) as He.
  { intros buf' el Hb' Ht. unfold chunk_encode_reader. rewrite bind_st. cbn [get_st fst cb_chunk_buf cb_chunk_last].
    destruct (Z.ltb_spec (len buf') (len x)); [lia|]. unfold on_body, zoom. cbn [fst snd]. rewrite Ht.
    by rewrite (chunk_encode_eq tv buf' count (len x) el st hl x room s out var H). }
  destruct flag.
  - destruct Hf as (Ht & -> & -> & ->). exists buf. split_and!; [done|done|]. by apply He.
  - cbn [cb_chunk_buf rbody]. rewrite Hb, Hf. pose proof (len_nonneg x).
    exists (x ++ dropZ (len x) buf). assert (len (x ++ dropZ (len x) buf) = CHUNK_SIZE) as Hl by (rewrite len_app, len_dropZ; lia).
    split_and!; [done|apply takeZ_app_len|]. apply He; [done|apply takeZ_app_len].
Qed.

Lemma rloop_token x r' fuel buf count last idx flag r st hl room s out var :
  0 < room → upcoming x r' buf last idx flag r →
  status_encode (E := E) x room (status (len x) 0 true st hl) = (s, Ok (out, var)) →
  ∃ buf', len buf' = CHUNK_SIZE ∧ takeZ (len x) buf' = x ∧
    rloop (S fuel) room (rbody buf count last idx flag st hl, r) =
      prefix out (rloop fuel (room - len out) (after_token tv buf' count (len x) s var, r')).
Proof.
  intros Hr Hu H. destruct (reader_token x r' buf count last idx flag r st hl room s out var Hu H) as (buf' & Hl & Ht & He).
  exists buf'. split_and!; [done|done|]. by apply data_loop_token.
Qed.

Lemma upcoming_true x r buf : len buf = CHUNK_SIZE → takeZ (len x) buf = x → len x ≤ CHUNK_SIZE → upcoming x r buf (len x) 0 true r.
Proof. done. Qed.

Lemma upcoming_false x r r' buf last idx :
  len buf = CHUNK_SIZE → len x ≤ CHUNK_SIZE → read r CHUNK_SIZE = (r', Ok x) → upcoming x r' buf last idx false r.
Proof. done. Qed.

(** The head of a chunk. *)
Lemma rloop_head x r' fuel buf count last idx flag r hl room :
  len (format_hex (len x)) + 2 ≤ room → upcoming x r' buf last idx flag r →
  ∃ buf' hl', len buf' = CHUNK_SIZE ∧ takeZ (len x) buf' = x ∧
    rloop (2 + fuel) room (rbody buf count last idx flag CMetaSize hl, r) =
      prefix (format_hex (len x) ++ crlf)
        (rloop fuel (room - (len (format_hex (len x)) + 2)) (rbody buf' count (len x) 0 true CData hl', r')).
Proof.
  intros Hroom Hu. pose proof (format_hex_pos (len x)). pose proof Hu as (_ & Hx & _). change (2 + fuel)%nat with (S (S fuel)).
  destruct (rloop_token x r' (S fuel) buf count last idx flag r CMetaSize hl room _ _ _ ltac:(lia) Hu
    (status_size (len x) hl x room ltac:(lia))) as (b1 & H1 & T1 & ->).
  change (after_token _ _ _ _ _ None) with (rbody b1 count (len x) 0 true CMetaCrlf (hex_after (len x) hl)).
  destruct (rloop_token x r' fuel b1 count (len x) 0 true r' CMetaCrlf (hex_after (len x) hl) (room - len (format_hex (len x))) _ _ _
    ltac:(lia) (upcoming_true x r' b1 H1 T1 Hx) (status_meta_crlf (len x) _ x (room - len (format_hex (len x))) ltac:(lia))) as (b2 & H2 & T2 & ->).
  exists b2, (hex_after (len x) hl). split_and!; [done|done|]. rewrite prefix_app.
  change (len crlf) with 2. by replace (room - len (format_hex (len x)) - 2) with (room - (len (format_hex (len x)) + 2)) by lia.
Qed.

(** A chunk of full size; the next one is read meanwhile. *)
Lemma rloop_full x r' x2 r2 fuel buf count last idx flag r hl room :
  1031 ≤ room → len x = CHUNK_SIZE → upcoming x r' buf last idx flag r → read r' CHUNK_SIZE = (r2, Ok x2) → len x2 ≤ CHUNK_SIZE →
  ∃ buf' hl', upcoming x2 r2 buf' (len x2) 0 true r2 ∧
    rloop (4 + fuel) room (rbody buf count last idx flag CMetaSize hl, r) =
      prefix (frame x) (rloop fuel (room - 1031) (rbody buf' 1 (len x2) 0 true CMetaSize hl', r2)).
Proof.
  intros Hroom Hx Hu H2 Hx2. assert (len x ≤ CHUNK_SIZE) as Hx1 by lia. assert (len (format_hex (len x)) = 3) as Hh by (by rewrite Hx).
  change (4 + fuel)%nat with (2 + S (S fuel))%nat.
  destruct (rloop_head x r' (S (S fuel)) buf count last idx flag r hl room ltac:(lia) Hu) as (b1 & hl1 & L1 & T1 & ->).
  rewrite Hh. assert (status_encode (E := E) x (room - 5) (status (len x) 0 true CData hl1) =
    (status (len x) (len x) false CDataCrlf hl1, Ok (x, Some (mkStatusVar 1 DPartial)))) as Hst.
  { rewrite Hx at 1 2. apply status_data. unfold CHUNK_SIZE in *. lia. }
  destruct (rloop_token x r' (S fuel) b1 count (len x) 0 true r' CData hl1 (room - (3 + 2)) _ _ _
    ltac:(lia) (upcoming_true x r' b1 L1 T1 Hx1) Hst) as (b2 & L2 & T2 & ->).
  change (after_token _ _ _ _ _ (Some _)) with (rbody b2 1 (len x) (len x) false CDataCrlf hl1).
  destruct (rloop_token x2 r2 fuel b2 1 (len x) (len x) false r' CDataCrlf hl1 (room - (3 + 2) - len x) _ _ _
    ltac:(unfold CHUNK_SIZE in *; lia) (upcoming_false x2 r' r2 b2 _ _ L2 Hx2 H2)
    (status_data_crlf (len x2) hl1 x2 (room - (3 + 2) - len x) ltac:(unfold CHUNK_SIZE in *; lia))) as (b3 & L3 & T3 & ->).
  exists b3, hl1. split; [by apply upcoming_true|]. rewrite !prefix_app. unfold frame. rewrite <- !app_assoc.
  replace (room - (3 + 2) - len x - len crlf) with (room - 1031) by (change (len crlf) with 2; unfold CHUNK_SIZE in *; lia).
  done.
Qed.

Lemma rloop_ending fuel room buf count last s r :
  len (ending tv) ≤ room →
  rloop (2 + fuel) room (mkChunkBody tv buf count last DComplete s 0, r) =
    ((mkChunkBody tv buf count last DFinish s (len (ending tv)), r), Ok (ending tv)).
Proof.
  intros Hr. pose proof (len_ending tv). pose proof (len_nonneg tv). unfold rloop. cbn [Nat.add data_loop].
  destruct (Z.eqb_spec room 0); [lia|]. rewrite bind_st. cbn [get_st cb_data_status fst]. rewrite decide_False by done.
  rewrite bind_st. unfold on_body at 1, zoom at 1. cbn [fst snd]. rewrite trailer_encode_eq, bind_st by done.
  generalize (ending tv). intros e. destruct (_ =? 0); [|rewrite bind_st]; cbn; by rewrite app_nil_r.
Qed.

(** A chunk that is not full; one more read is made and dropped. *)
Lemma rloop_tail x r' x2 r2 fuel buf count last idx flag r hl room :
  len (frame x ++ ending tv) ≤ room → len x < CHUNK_SIZE → upcoming x r' buf last idx flag r →
  read r' CHUNK_SIZE = (r2, Ok x2) → len x2 ≤ CHUNK_SIZE →
  ∃ b, rloop (6 + fuel) room (rbody buf count last idx flag CMetaSize hl, r) = ((b, r2), Ok (frame x ++ ending tv)) ∧
    cb_data_status b = DFinish.
Proof.
  intros Hroom Hx Hu H2 Hx2. pose proof (len_ending tv) as He. pose proof (format_hex_pos (len x)). pose proof (len_nonneg tv).
  unfold frame in Hroom. rewrite !len_app, He in Hroom. change (len crlf) with 2 in Hroom. pose proof (len_nonneg x).
  change (6 + fuel)%nat with (2 + S (S (2 + fuel)))%nat. set (h := len (format_hex (len x))) in *.
  destruct (rloop_head x r' (S (S (2 + fuel))) buf count last idx flag r hl room ltac:(lia) Hu) as (b1 & hl1 & L1 & T1 & ->).
  fold h. destruct (rloop_token x r' (S (2 + fuel)) b1 count (len x) 0 true r' CData hl1 (room - (h + 2)) _ _ _
    ltac:(lia) (upcoming_true x r' b1 L1 T1 ltac:(lia)) (status_tail (len x) hl1 x (room - (h + 2)) ltac:(lia) ltac:(lia)))
    as (b2 & L2 & T2 & ->).
  change (after_token _ _ _ _ _ (Some _)) with (rbody b2 0 (len x) (len x) false CFinish hl1).
  destruct (status_finish (E := E) (len x2) hl1 x2 (room - (h + 2) - len x) ltac:(lia)) as [s Hs].
  destruct (rloop_token x2 r2 (2 + fuel) b2 0 (len x) (len x) false r' CFinish hl1 (room - (h + 2) - len x) _ _ _
    ltac:(lia) (upcoming_false x2 r' r2 b2 _ _ L2 Hx2 H2) Hs) as (b3 & L3 & T3 & ->).
  cbn [after_token sv_data_status sv_cnt]. rewrite rloop_ending by (change (len crlf) with 2; lia).
  rewrite !prefix_app, prefix_ok. unfold frame. rewrite <- !app_assoc. by eexists.
Qed.

(** The reads of a reader. *)
Fixpoint reads (r : R) (xs : list bytes) (r' : R) : Prop :=
  match xs with
  | [] => r = r'
  | x :: xs => ∃ r1, read r CHUNK_SIZE = (r1, Ok x) ∧ reads r1 xs r'
  end.

Lemma rloop_ok fulls short extra r' : ∀ fuel buf count last idx flag r x r1 xs hl room,
  x :: xs = fulls ++ [short; extra] → upcoming x r1 buf last idx flag r → reads r1 xs r' →
  Forall (λ x, len x = CHUNK_SIZE) fulls → len short < CHUNK_SIZE → len extra ≤ CHUNK_SIZE →
  let w := (fulls ≫= frame) ++ frame short ++ ending tv in
  len w ≤ room → (4 * length fulls + 6 ≤ fuel)%nat →
  ∃ b, rloop fuel room (rbody buf count last idx flag CMetaSize hl, r) = ((b, r'), Ok w) ∧ cb_data_status b = DFinish.
Proof.
  induction fulls as [|full fulls IH]; intros fuel buf count last idx flag r x r1 xs hl room Hxs Hu Hrd Hfull Hshort Hextra w Hroom Hf.
  - injection Hxs as -> ->. destruct Hrd as (r2 & H2 & <-). replace fuel with (6 + (fuel - 6))%nat by (cbn in Hf; lia).
    eapply rloop_tail; try done.
  - injection Hxs as -> ->. apply Forall_cons in Hfull as [Hlen Hfull].
    assert (len (frame full) = 1031) as Hl1 by (unfold frame; rewrite !len_app, Hlen; done).
    assert (∃ x2 xs2, fulls ++ [short; extra] = x2 :: xs2 ∧ len x2 ≤ CHUNK_SIZE) as (x2 & xs2 & Hxs & Hx2).
    { destruct fulls as [|f fulls]; [by exists short, [extra]; split; [|lia]|].
      apply Forall_cons in Hfull as [Hf1 _]. exists f, (fulls ++ [short; extra]). split; [done|lia]. }
    rewrite Hxs in Hrd. destruct Hrd as (r2 & H2 & Hrd). unfold w in *. rewrite bind_cons, <- app_assoc, len_app in *.
    pose proof (len_nonneg ((fulls ≫= frame) ++ frame short ++ ending tv)). cbn [length] in Hf.
    replace fuel with (4 + (fuel - 4))%nat by lia.
    destruct (rloop_full full r1 x2 r2 (fuel - 4) buf count last idx flag r hl room) as (b1 & hl1 & Hu1 & ->); [lia|done..|].
    destruct (IH (fuel - 4)%nat b1 1 (len x2) 0 true r2 x2 r2 xs2 hl1 (room - 1031)) as (b & -> & Hb); [done..|rewrite len_app in Hroom; lia|lia|].
    rewrite prefix_ok. by eexists.
Qed.
End wire.

(** a body over a reader: each read that fills the buffer of 1024 bytes is
    a chunk, and the first that does not, even when more would come, is the last
    of the body; one more read is made, and what it gives is dropped. *)
Theorem chunk_reader_spec {R E : Type} (read : R → Z → R * result E bytes) (r r' : R)
    (fulls : list bytes) (short dropped : bytes) (trailers : list (bytes * HeaderValue)) (room : Z) :
  reads read r (fulls ++ [short; dropped]) r' →
  Forall (λ x, len x = CHUNK_SIZE) fulls → len short < CHUNK_SIZE → len dropped ≤ CHUNK_SIZE →
  let w := (fulls ≫= frame) ++ frame short ++ ending (trailer_bytes trailers) in
  len w ≤ room →
  ∃ b, reader_data read room (ChunkBody_set_trailer trailers ChunkBody_from_reader, r) = ((b, r'), Ok w) ∧
    cb_data_status b = DFinish.
Proof.
  intros Hrd Hfull Hshort Hdr w Hroom. set (tv := trailer_bytes trailers) in *.
  change (reader_data read room _) with (rloop read (data_fuel room) room
    (rbody tv (replicate (Z.to_nat CHUNK_SIZE) 0) 0 0 0 false CMetaSize (EncodeHex_new []), r)).
  assert (len (fulls ≫= frame) = 1031 * len fulls) as Hl.
  { clear -Hfull. induction Hfull as [|x l Hx _ IH]; [done|]. rewrite bind_cons, len_app, IH, len_cons. unfold frame.
    rewrite !len_app, Hx. change (len crlf) with 2. change (len (format_hex CHUNK_SIZE)) with 3. unfold CHUNK_SIZE. lia. }
  pose proof (len_ending tv). pose proof (len_nonneg tv). pose proof (format_hex_pos (len short)).
  assert (4 * length fulls + 6 ≤ data_fuel room)%nat as Hfuel.
  { assert (5 ≤ len (frame short)) by (unfold frame, crlf; len_lia).
    unfold w in Hroom. rewrite !len_app, Hl in Hroom. unfold data_fuel. unfold len in *. lia. }
  assert (∃ x xs, x :: xs = fulls ++ [short; dropped] ∧ len x ≤ CHUNK_SIZE) as (x & xs & Hxs & Hx).
  { destruct Hfull as [|x l Hx ?]; eexists _, _; (split; [done|lia]). }
  rewrite <- Hxs in Hrd. destruct Hrd as (r1 & Hread & Hrd). by eapply rloop_ok.
Qed.

Lemma chunk_reader_spec_witness :
  ∃ b, reader_data list_read 100 (ChunkBody_set_trailer [] ChunkBody_from_reader, [bs "ab"; bs "cd"; bs "ef"]) =
      ((b, [bs "ef"]), Ok (frame (bs "ab") ++ ending [])) ∧
    cb_data_status b = DFinish.
Proof.
  apply (chunk_reader_spec list_read [bs "ab"; bs "cd"; bs "ef"] [bs "ef"] [] (bs "ab") (bs "cd") [] 100); try by vm_compute.
  by eexists; split; [|eexists].
Defined.
