(* ===== verification/ChunkProgress.v ===== *)
(** * The chunked encoder makes progress

    An invariant of [ChunkBody] over a slice, for every state that a sequence
    of buffers of any sizes can reach, and the termination of the loop of
    [data] ([src/ylong_http/src/body/chunk.rs]). *)

From S2P Require Import Prelude Headers ChunkDecoder ChunkEncoder.
#[local] Open Scope Z_scope.

(** ** A token *)

(** What [WriteData::write] does from the index [i]. *)
Inductive wrote (src : bytes) (room i : Z) : Z → Token → Prop :=
  | wrote_complete out : i + len out = len src → len out ≤ room → wrote src room i (i + len out) (TokComplete out)
  | wrote_partial out : i + len out < len src → len out = room → wrote src room i (i + len out) (TokPartial out).

Lemma write_wrote {E} src room i :
  0 ≤ i ≤ len src → 0 ≤ room → ∃ j t, write_data (E := E) src room i = (j, Ok t) ∧ wrote src room i j t.
Proof.
  intros Hi Hr. unfold write_data. rewrite bind_st. cbn [get_st]. destruct (Z.ltb_spec (len src) i); [lia|].
  cbv zeta. rewrite bind_st. cbn [put_st]. assert (len (dropZ i src) = len src - i) as Hd by (apply len_dropZ; lia).
  destruct (Z.leb_spec (len src - i) room).
  - eexists _, _. split; [done|]. rewrite takeZ_all by lia. constructor; lia.
  - assert (len (takeZ room (dropZ i src)) = room) as Ht by (apply len_takeZ; lia).
    eexists _, _. split; [done|]. constructor; lia.
Qed.

Section progress.
Context {E : Type}.

(** ** [EncodeStatus] *)

(** No token is behind its end. *)
Record enc_ok (s : EncodeStatus) : Prop := {
  ok_meta : 0 ≤ es_meta_crlf s < 2;
  ok_data : 0 ≤ es_data_crlf s < 2;
  ok_finish : 0 ≤ es_finish_crlf s < 2;
  ok_inner : hex_inner (es_hex s) = format_hex CHUNK_SIZE;
  ok_hex : 0 ≤ hex_idx (es_hex s) < 3;
  ok_status : es_chunk_status s ≠ CMetaExt }.

(** Some of the chunk is left, unless it is empty. *)
Definition idx_ok (src : bytes) (s : EncodeStatus) : Prop :=
  0 ≤ es_chunk_idx s ≤ len src ∧ (es_chunk_idx s = len src → src = []).

(** 1 until the data is written. *)
Definition weight (s : EncodeStatus) : Z := if decide (es_chunk_status s = CFinish) then 0 else 1.

(** What [encode] has done. *)
Definition encoded (src : bytes) (room : Z) (s s' : EncodeStatus) (out : bytes) (var : option StatusVar) : Prop :=
  len out ≤ room ∧ (0 < len out ∨ weight s' < weight s) ∧ weight s' ≤ weight s ∧
  match var with
  | None => enc_ok s' ∧ es_read_flag s' = es_read_flag s ∧ idx_ok src s'
  | Some (mkStatusVar cnt DPartial) =>
      enc_ok s' ∧ es_read_flag s' = false ∧ (cnt = 0 ∨ (cnt = 1 ∧ es_chunk_last s = CHUNK_SIZE))
  | Some (mkStatusVar cnt DComplete) => True
  | Some (mkStatusVar cnt DFinish) => False
  end.

Lemma crlf_step room i : 0 ≤ i < 2 → 0 < room →
  ∃ j t, crlf_encode (E := E) room i = (j, Ok t) ∧ wrote crlf room i j t.
Proof. intros Hi Hr. apply write_wrote; [change (len crlf) with 2; lia|lia]. Qed.

Lemma hex_step room h : 0 ≤ hex_idx h ≤ len (hex_inner h) → 0 < room →
  ∃ j t, hex_encode (E := E) room h = (set_hex_idx j h, Ok t) ∧ wrote (hex_inner h) room (hex_idx h) j t.
Proof.
  intros Hi Hr. destruct (write_wrote (E := E) (hex_inner h) room (hex_idx h)) as (j & t & Hw & H); [lia|lia|].
  exists j, t. split; [|done]. unfold hex_encode. rewrite bind_st. cbn [get_st]. unfold zoom. by rewrite Hw.
Qed.

#[local] Ltac encoded_done :=
  split_and!; first
    [ lia | done | congruence
    | by left; lia
    | unfold weight; cbn -[format_hex]; repeat case_decide; solve [lia | congruence | by right; lia]
    | constructor; cbn -[format_hex]; solve [done | lia | congruence] | idtac].

Lemma meta_size_progress src room s :
  es_chunk_status s = CMetaSize → enc_ok s → idx_ok src s → 0 < room →
  ∃ s' out, meta_size_encode (E := E) room s = (s', Ok out) ∧ encoded src room s s' out None.
Proof.
  intros Hst [Hm Hd Hfi Hin Hhex _] Hidx Hr. unfold meta_size_encode. rewrite bind_st. cbn [get_st].
  destruct (_ =? CHUNK_SIZE).
  - assert (len (hex_inner (es_hex s)) = 3) as H3 by (by rewrite Hin).
    destruct (hex_step room (es_hex s)) as (j & t & He & H); [lia|done|].
    rewrite bind_st, (on_hex_eq _ s _ _ He).
    destruct H as [out Ho Hl|out Ho Hl]; eexists _, _; (split; [done|]); encoded_done.
  - rewrite bind_st, (on_hex_last_eq (put_st _) _ _ _ eq_refl), bind_st. set (h := EncodeHex_new _). set (s1 := es_set_hexes _ _ _).
    pose proof (format_hex_pos (es_chunk_last s)) as Hp.
    assert (hex_idx h = 0 ∧ hex_inner h = format_hex (es_chunk_last s)) as [Hh0 Hh1] by done.
    destruct (hex_step room h) as (j & t & He & H); [rewrite Hh0, Hh1; lia|done|].
    rewrite (on_hex_last_eq _ s1 _ _ He). rewrite Hh0, Hh1 in H.
    destruct H as [out Ho Hl|out Ho Hl]; eexists _, _; (split; [done|]); encoded_done.
Qed.

Lemma meta_crlf_progress src room s :
  es_chunk_status s = CMetaCrlf → enc_ok s → idx_ok src s → 0 < room →
  ∃ s' out, meta_crlf_encode (E := E) room s = (s', Ok out) ∧ encoded src room s s' out None.
Proof.
  intros Hst [Hm Hd Hfi Hin Hhex _] Hidx Hr. unfold meta_crlf_encode, on_meta_crlf, zoom. rewrite bind_st.
  destruct (crlf_step room (es_meta_crlf s)) as (j & t & -> & H); [lia|done|]. change (len crlf) with 2 in H.
  destruct H as [out Ho Hl|out Ho Hl]; change (len crlf) with 2 in Ho; eexists _, _; (split; [done|]); encoded_done.
Qed.

Lemma data_crlf_progress src room s :
  es_chunk_status s = CDataCrlf → enc_ok s → idx_ok src s → 0 < room →
  ∃ s' out, data_crlf_encode (E := E) room s = (s', Ok out) ∧ encoded src room s s' out None.
Proof.
  intros Hst [Hm Hd Hfi Hin Hhex _] Hidx Hr. unfold data_crlf_encode, on_data_crlf, zoom. rewrite bind_st.
  destruct (crlf_step room (es_data_crlf s)) as (j & t & -> & H); [lia|done|].
  destruct H as [out Ho Hl|out Ho Hl]; change (len crlf) with 2 in Ho; eexists _, _; (split; [done|]); encoded_done.
Qed.

Lemma finish_progress src room s :
  es_chunk_status s = CFinish → enc_ok s → idx_ok src s → 0 < room →
  ∃ s' out var, finish_encode (E := E) room s = (s', Ok (out, var)) ∧ encoded src room s s' out var.
Proof.
  intros Hst [Hm Hd Hfi Hin Hhex _] Hidx Hr. unfold finish_encode, on_finish_crlf, zoom. rewrite bind_st.
  destruct (crlf_step room (es_finish_crlf s)) as (j & t & -> & H); [lia|done|].
  destruct H as [out Ho Hl|out Ho Hl]; change (len crlf) with 2 in Ho; eexists _, _, _; (split; [done|]); encoded_done.
Qed.

Lemma data_progress src room s :
  es_chunk_status s = CData → es_chunk_last s = len src → enc_ok s → idx_ok src s → 0 < room →
  ∃ s' out var, (if negb (es_chunk_last s =? CHUNK_SIZE) then tail_encode (E := E) src room else data_encode src room) s =
      (s', Ok (out, var)) ∧ encoded src room s s' out var.
Proof.
  intros Hst Hlast [Hm Hd Hfi Hin Hhex _] [Hidx Hemp] Hr.
  destruct (write_wrote (E := E) src room (es_chunk_idx s)) as (j & t & Hw & H); [lia|lia|].
  assert (∀ out : bytes, es_chunk_idx s + len out = len src → 0 < len out ∨ src = []) as Hout.
  { intros out Ho. destruct (decide (len out = 0)); [right; apply Hemp; lia|left; len_lia]. }
  destruct (Z.eqb_spec (es_chunk_last s) CHUNK_SIZE) as [He|He]; cbn [negb]; unfold data_encode, tail_encode, on_chunk_idx, zoom;
    rewrite bind_st, Hw.
  - assert (src ≠ []) by (intros ->; rewrite len_nil in Hlast; unfold CHUNK_SIZE in He; lia).
    destruct H as [out Ho Hl|out Ho Hl]; eexists _, _, _; (split; [done|]).
    + destruct (Hout out Ho) as [Hp|Hp]; [|done]. encoded_done.
    + split_and!; [lia|by left; lia|done| |done|]; [constructor; cbn; solve [done | lia | congruence]|].
      split; [cbn; lia|cbn; lia].
  - destruct H as [out Ho Hl|out Ho Hl]; eexists _, _, _; (split; [done|]).
    + destruct (Hout out Ho) as [Hp|Hp]; encoded_done.
    + split_and!; [lia|by left; lia|done| |done|]; [constructor; cbn; solve [done | lia | congruence]|].
      split; [cbn; lia|cbn; lia].
Qed.

Lemma status_progress src room s :
  es_chunk_last s = len src → enc_ok s → idx_ok src s → 0 < room →
  ∃ s' out var, status_encode (E := E) src room s = (s', Ok (out, var)) ∧ encoded src room s s' out var.
Proof.
  intros Hlast Hs Hidx Hr. unfold status_encode. rewrite bind_st. cbn [get_st].
  destruct (es_chunk_status s) eqn:Hst.
  - destruct (meta_size_progress src room s) as (s' & out & He & H); [done..|]. rewrite bind_st, He. by eexists _, _, _.
  - by destruct (ok_status s Hs).
  - destruct (meta_crlf_progress src room s) as (s' & out & He & H); [done..|]. rewrite bind_st, He. by eexists _, _, _.
  - by apply data_progress.
  - destruct (data_crlf_progress src room s) as (s' & out & He & H); [done..|]. rewrite bind_st, He. by eexists _, _, _.
  - by apply finish_progress.
Qed.

(** ** [ChunkBody] *)

Context (from : bytes).

(** The states of the body of [from]. *)
Definition body_ok (b : ChunkBody) : Prop :=
  match cb_data_status b with
  | DPartial =>
      0 ≤ cb_chunk_count b ∧ cb_chunk_count b * CHUNK_SIZE ≤ len from ∧ enc_ok (cb_encode_status b) ∧ cb_trailer_idx b = 0 ∧
      (es_read_flag (cb_encode_status b) = true →
        cb_chunk_last b = size_at from (cb_chunk_count b) ∧
        idx_ok (chunk_at from (cb_chunk_count b)) (cb_encode_status b))
  | DComplete => 0 ≤ cb_trailer_idx b < len (trailer_src b)
  | DFinish => True
  end.

(** Turns without a byte that may still come. *)
Definition slack (b : ChunkBody) : Z :=
  match cb_data_status b with DPartial => weight (cb_encode_status b) | _ => 0 end.

(** A turn of the loop: it writes a byte or it ends the data. *)
Definition moved (room : Z) (b : ChunkBody) (r : ChunkBody * result E bytes) : Prop :=
  ∃ b' out, r = (b', Ok out) ∧ body_ok b' ∧ len out ≤ room ∧ slack b' ≤ slack b ∧ (0 < len out ∨ slack b' < slack b).

Lemma trailer_progress room b :
  cb_data_status b = DComplete → body_ok b → 0 < room → moved room b (trailer_encode room b).
Proof.
  intros Hs Hb Hr. unfold body_ok in Hb. rewrite Hs in Hb. unfold trailer_encode. rewrite bind_st. cbn [get_st]. rewrite bind_st.
  unfold zoom. destruct (write_wrote (E := E) (trailer_src b) room (cb_trailer_idx b)) as (j & t & -> & H); [lia|lia|].
  assert (slack b = 0) as Hsl by (unfold slack; by rewrite Hs).
  destruct H as [out Ho Hl|out Ho Hl]; eexists _, _; (split; [done|]); unfold body_ok, slack; cbn; rewrite ?Hs, ?Hsl.
  - split_and!; [done|lia|lia|lia].
  - split_and!; [lia|exact Ho|lia|lia|lia].
Qed.

Lemma chunk_progress count room b :
  cb_data_status b = DPartial → cb_chunk_count b = count → 0 ≤ count → count * CHUNK_SIZE ≤ len from → cb_trailer_idx b = 0 →
  es_read_flag (cb_encode_status b) = true → cb_chunk_last b = size_at from count →
  enc_ok (cb_encode_status b) → idx_ok (chunk_at from count) (cb_encode_status b) → 0 < room →
  moved room b (chunk_encode (chunk_at from count) room b).
Proof.
  intros Hs Hcnt Hc Hl Ht Hflag Hlast Henc Hidx Hr. unfold chunk_encode. rewrite bind_st. cbn [get_st]. rewrite bind_st.
  unfold on_encode at 1, zoom at 1, modify_st at 1. rewrite bind_st. unfold on_encode, zoom. cbn [cb_encode_status cb_set_encode].
  set (s := es_set_chunk _ _ _ _). set (src := chunk_at from count) in *.
  assert (es_chunk_last s = len src) as Hsl by (unfold src; rewrite len_chunk_at by done; done).
  destruct (status_progress src room s) as (s' & out & var & -> & Hlen & Hprog & Hw & Hvar); [done|by destruct Henc|done|done|].
  change (weight s) with (weight (cb_encode_status b)) in *. rewrite bind_st.
  destruct var as [[cnt [| |]]|]; [..|].
  - destruct Hvar as (He & Hf & Hcnt'). eexists _, _. split; [done|]. unfold body_ok, slack. cbn. rewrite Hs, Hf.
    split_and!; [lia| |done|done|done|done|done|done].
    unfold s in Hcnt'. cbn in Hcnt'. rewrite Hlast in Hcnt'. unfold size_at, CHUNK_SIZE in *. pose proof (len_nonneg from). lia.
  - eexists _, _. split; [done|]. unfold body_ok, slack. cbn. rewrite Hs, Ht.
    assert (0 ≤ weight s') by (unfold weight; case_decide; lia).
    split_and!; [lia|unfold trailer_src; len_lia|done|lia|]. destruct Hprog; [by left|right; lia].
  - done.
  - destruct Hvar as (He & Hf & Hi). eexists _, _. split; [done|]. unfold body_ok, slack. cbn. rewrite Hs, Hcnt.
    split_and!; done.
Qed.

Lemma bytes_progress room b :
  cb_data_status b = DPartial → body_ok b → 0 < room → moved room b (bytes_encode from room b).
Proof.
  intros Hs Hb Hr. unfold body_ok in Hb. rewrite Hs in Hb. destruct Hb as (Hc & Hl & Henc & Ht & Hf).
  set (count := cb_chunk_count b) in *. assert (len (chunk_at from count) = size_at from count) as Hlen by (by apply len_chunk_at).
  assert ((len from <? count * CHUNK_SIZE + size_at from count) = false) as Hle by (apply Z.ltb_ge; unfold size_at; lia).
  unfold bytes_encode. rewrite bind_st. cbn [get_st]. rewrite bind_st.
  destruct (es_read_flag (cb_encode_status b)) eqn:Hflag; cbn [negb].
  - destruct (Hf eq_refl) as [Hlast Hidx]. cbn [mret ST_ret]. rewrite bind_st. cbn [get_st]. fold count.
    rewrite Hlast, Hle. by apply chunk_progress.
  - rewrite bind_st. cbn [on_encode]. unfold on_encode at 1, zoom at 1, modify_st at 1. rewrite bind_st.
    unfold on_encode at 1, zoom at 1, modify_st at 1. cbv zeta. fold count.
    destruct (Z.ltb_spec (len from - count * CHUNK_SIZE) 0); [lia|].
    assert ((if len from - count * CHUNK_SIZE <? CHUNK_SIZE then len from - count * CHUNK_SIZE else CHUNK_SIZE) = size_at from count) as ->.
    { unfold size_at. destruct (Z.ltb_spec (len from - count * CHUNK_SIZE) CHUNK_SIZE); lia. }
    unfold modify_st at 1. rewrite bind_st. cbn [get_st].
    set (b1 := cb_set_chunk _ _ _ _). change (cb_chunk_count b1) with count. change (cb_chunk_last b1) with (size_at from count).
    rewrite Hle. assert (moved room b1 (chunk_encode (chunk_at from count) room b1)) as Hm.
    { apply chunk_progress; try done; [by destruct Henc|]. split; cbn; [rewrite Hlen; unfold size_at, CHUNK_SIZE in *; lia|].
      intros H0. by apply len_0_nil. }
    exact Hm.
Qed.

Lemma loop_total fuel room b :
  body_ok b → 0 ≤ room → room + slack b < Z.of_nat fuel →
  ∃ b' out, loop (E := E) from fuel room b = (b', Ok out) ∧ body_ok b' ∧ len out ≤ room ∧
    (len out = room ∨ cb_data_status b' = DFinish).
Proof.
  assert (∀ b, 0 ≤ slack b) as H0 by (intros b1; unfold slack, weight; repeat case_match; lia).
  revert room b. induction fuel as [|fuel IH]; intros room b Hb Hr Hf; [specialize (H0 b); lia|].
  unfold loop. cbn [data_loop]. destruct (Z.eqb_spec room 0) as [->|Hne].
  { exists b, []. split_and!; [done|done|done|by left]. }
  rewrite bind_st. cbn [get_st].
  assert (∀ m : ST ChunkBody E bytes, moved room b (m b) → ∃ b' out,
    (out ← m; more ← loop from fuel (room - len out); mret (out ++ more)) b = (b', Ok out) ∧
    body_ok b' ∧ len out ≤ room ∧ (len out = room ∨ cb_data_status b' = DFinish)) as Hgo.
  { intros m (b1 & out & Hm & Hb1 & Hlen & Hle & Hprog). rewrite bind_st, Hm, bind_st. pose proof (len_nonneg out).
    destruct (IH (room - len out) b1) as (b2 & more & -> & Hb2 & Hlen2 & Hend); [done|lia|lia|].
    exists b2, (out ++ more). rewrite len_app. split_and!; [done|done|lia|]. destruct Hend; [left; lia|by right]. }
  destruct (cb_data_status b) eqn:Hs.
  - rewrite decide_True by done. apply Hgo, bytes_progress; [done|done|lia].
  - rewrite decide_False by done. apply Hgo, trailer_progress; [done|done|lia].
  - exists b, []. rewrite Hs. split_and!; [done|done|len_lia|by right].
Qed.
End progress.

Lemma body_ok_new from hs : body_ok from (ChunkBody_set_trailer hs ChunkBody_from_bytes).
Proof. split_and!; [done|cbn; len_lia| |done|done]. by constructor. Qed.

(** the loop of [data] over a slice ends, in every state that buffers of
    any sizes lead to: it does not panic, it writes the whole buffer unless the
    body is finished, and it leaves such a state. *)
Theorem bytes_data_total (from : bytes) (room : Z) (b : ChunkBody) :
  body_ok from b → 0 ≤ room →
  ∃ b' out, bytes_data (E := HttpError) from room b = (b', Ok out) ∧ body_ok from b' ∧ len out ≤ room ∧
    (len out = room ∨ cb_data_status b' = DFinish).
Proof.
  intros Hb Hr. apply loop_total; [done|done|]. assert (slack b ≤ 1) by (unfold slack, weight; repeat case_match; lia).
  unfold data_fuel. lia.
Qed.

Lemma bytes_data_total_witness :
  ∃ b' out, bytes_data (E := HttpError) (bs "hello") 4 ChunkBody_from_bytes = (b', Ok out) ∧ body_ok (bs "hello") b' ∧
    len out ≤ 4 ∧ (len out = 4 ∨ cb_data_status b' = DFinish).
Proof. apply (bytes_data_total (bs "hello") 4 ChunkBody_from_bytes); [apply (body_ok_new _ [])|done]. Defined.
