(* ===== verification/Message.v ===== *)
(** * Methods, versions and status codes

    Models [src/ylong_http/src/request/method.rs], [version.rs] and
    [response/status.rs]: the tokens of the first line of a message. *)

From S2P Require Import Prelude Headers.
#[local] Open Scope Z_scope.

(** ** [Method] *)

Inductive Method := Get | Head | Post | Put | Delete | Connect | Options | Trace.
#[export] Instance Method_eq_dec : EqDecision Method.
Proof. solve_decision. Defined.

Definition Method_as_str (m : Method) : bytes :=
  match m with
  | Get => bs "GET" | Head => bs "HEAD" | Post => bs "POST" | Put => bs "PUT" | Delete => bs "DELETE"
  | Options => bs "OPTIONS" | Trace => bs "TRACE" | Connect => bs "CONNECT"
  end.

Definition is_tail (n : Z) (src : bytes) (s : string) : bool := bool_decide (dropZ n src = bs s).

(** [Method::from_bytes]: by the first byte, then the tail. *)
Definition Method_from_bytes (src : bytes) : result HttpError Method :=
  if (len src <? 3) || (7 <? len src) then Err InvalidInput
  else
    match src with
    | 71 :: _ => if is_tail 1 src "ET" then Ok Get else Err InvalidInput
    | 80 :: 85 :: _ => if is_tail 2 src "T" then Ok Put else Err InvalidInput
    | 80 :: 79 :: _ => if is_tail 2 src "ST" then Ok Post else Err InvalidInput
    | 72 :: _ => if is_tail 1 src "EAD" then Ok Head else Err InvalidInput
    | 84 :: _ => if is_tail 1 src "RACE" then Ok Trace else Err InvalidInput
    | 68 :: _ => if is_tail 1 src "ELETE" then Ok Delete else Err InvalidInput
    | 79 :: _ => if is_tail 1 src "PTIONS" then Ok Options else Err InvalidInput
    | 67 :: _ => if is_tail 1 src "ONNECT" then Ok Connect else Err InvalidInput
    | _ => Err InvalidInput
    end.

(** ** [Version] *)

Inductive Version := Http10 | Http11 | Http2 | Http3.
#[export] Instance Version_eq_dec : EqDecision Version.
Proof. solve_decision. Defined.

Definition Version_as_str (v : Version) : bytes :=
  match v with
  | Http10 => bs "HTTP/1.0" | Http11 => bs "HTTP/1.1" | Http2 => bs "HTTP/2.0" | Http3 => bs "HTTP/3.0"
  end.

Definition Version_try_from (src : bytes) : result HttpError Version :=
  if decide (src = bs "HTTP/1.0") then Ok Http10
  else if decide (src = bs "HTTP/1.1") then Ok Http11
  else if decide (src = bs "HTTP/2.0") then Ok Http2
  else if decide (src = bs "HTTP/3.0") then Ok Http3
  else Err InvalidInput.

(** ** [StatusCode]: a [u16] *)

Definition StatusCode : Type := Z.

Definition StatusCode_from_u16 (code : Z) : result HttpError StatusCode :=
  if negb ((100 <=? code) && (code <? 1000)) then Err InvalidInput else Ok code.

(** [bytes[i].wrapping_sub(b'0') as u16]. *)
Definition status_digit (i : nat) (src : bytes) : Z := wrap8 (nth i src 0 - 48).

Definition StatusCode_from_bytes (src : bytes) : result HttpError StatusCode :=
  if negb (len src =? 3) then Err InvalidInput
  else
    let a := status_digit 0 src in let b := status_digit 1 src in let c := status_digit 2 src in
    if (a =? 0) || (9 <? a) || (9 <? b) || (9 <? c) then Err InvalidInput
    else Ok (a * 100 + b * 10 + c).

(** [x as u8 + b'0']: an addition that goes over 255 panics. *)
Definition ascii_digit (x : Z) : result HttpError Z := if 255 <? wrap8 x + 48 then Panic else Ok (wrap8 x + 48).

Definition StatusCode_as_bytes (s : StatusCode) : result HttpError bytes :=
  a ← ascii_digit (s / 100); b ← ascii_digit (s mod 100 / 10); c ← ascii_digit (s mod 10); mret [a; b; c].

Definition is_informational (s : StatusCode) : bool := (100 <=? s) && (s <? 200).
Definition is_successful (s : StatusCode) : bool := (200 <=? s) && (s <? 300).
Definition is_redirection (s : StatusCode) : bool := (300 <=? s) && (s <? 400).
Definition is_client_error (s : StatusCode) : bool := (400 <=? s) && (s <? 500).
Definition is_server_error (s : StatusCode) : bool := (500 <=? s) && (s <? 600).

(** [status_list!]. *)
Definition status_list : list (Z * string) := [
  (100, "Continue"); (101, "Switching Protocols"); (102, "Processing"); (200, "OK"); (201, "Created"); (202, "Accepted");
  (203, "Non Authoritative Information"); (204, "No Content"); (205, "Reset Content"); (206, "Partial Content");
  (207, "Multi-Status"); (208, "Already Reported"); (226, "IM Used"); (300, "Multiple Choices"); (301, "Moved Permanently");
  (302, "Found"); (303, "See Other"); (304, "Not Modified"); (305, "Use Proxy"); (307, "Temporary Redirect");
  (308, "Permanent Redirect"); (400, "Bad Request"); (401, "Unauthorized"); (402, "Payment Required"); (403, "Forbidden");
  (404, "Not Found"); (405, "Method Not Allowed"); (406, "Not Acceptable"); (407, "Proxy Authentication Required");
  (408, "Request Timeout"); (409, "Conflict"); (410, "Gone"); (411, "Length Required"); (412, "Precondition Failed");
  (413, "Payload Too Large"); (414, "URI Too Long"); (415, "Unsupported Media Type"); (416, "Range Not Satisfiable");
  (417, "Expectation Failed"); (418, "I'm a teapot"); (421, "Misdirected Request"); (422, "Unprocessable Entity");
  (423, "Locked"); (424, "Failed Dependency"); (426, "Upgrade Required"); (428, "Precondition Required");
  (429, "Too Many Requests"); (431, "Request Header Fields Too Large"); (451, "Unavailable For Legal Reasons");
  (500, "Internal Server Error"); (501, "Not Implemented"); (502, "Bad Gateway"); (503, "Service Unavailable");
  (504, "Gateway Timeout"); (505, "HTTP Version Not Supported"); (506, "Variant Also Negotiates"); (507, "Insufficient Storage");
  (508, "Loop Detected"); (510, "Not Extended"); (511, "Network Authentication Required")].

Definition StatusCode_reason (s : StatusCode) : option bytes :=
  (λ p : Z * string, bs p.2) <$> List.find (λ p, p.1 =? s) status_list.

(** ** Tokens are read back *)

Lemma method_of_bytes src m : Method_from_bytes src = Ok m ↔ src = Method_as_str m.
Proof.
  split; [|intros ->; by destruct m]. unfold Method_from_bytes. destruct (_ || _); [done|].
  unfold is_tail. destruct src as [|x l]; [done|].
  intros H. repeat (case_match; try discriminate H);
    match goal with B : bool_decide _ = true |- _ => apply bool_decide_eq_true in B; cbv in B; subst end;
    by injection H as <-.
Qed.

(** The codes that exist are those of three digits, and both readings give
    them. *)
Lemma status_roundtrip s : 100 ≤ s < 1000 →
  StatusCode_from_u16 s = Ok s ∧ ∃ b, StatusCode_as_bytes s = Ok b ∧ StatusCode_from_bytes b = Ok s.
Proof.
  intros Hs. split.
  { unfold StatusCode_from_u16. destruct (Z.leb_spec 100 s), (Z.ltb_spec s 1000); cbn; [done|lia..]. }
  assert (1 ≤ s / 100 ≤ 9) as Ha by (split; [apply Z.div_le_lower_bound|apply Z.lt_succ_r, Z.div_lt_upper_bound]; lia).
  assert (0 ≤ s mod 100 / 10 ≤ 9) as Hb.
  { pose proof (Z.mod_pos_bound s 100 ltac:(lia)). split; [apply Z.div_pos; lia|apply Z.lt_succ_r, Z.div_lt_upper_bound; lia]. }
  pose proof (Z.mod_pos_bound s 10 ltac:(lia)) as Hc. unfold StatusCode_as_bytes.
  assert (∀ x, 0 ≤ x ≤ 9 → ascii_digit x = Ok (x + 48)) as Hd.
  { intros x Hx. unfold ascii_digit, wrap8. rewrite Z.mod_small by lia. destruct (Z.ltb_spec 255 (x + 48)); [lia|done]. }
  rewrite !Hd by lia. eexists. split; [done|]. unfold StatusCode_from_bytes, status_digit. cbn [nth]. rewrite !Z.add_simpl_r.
  assert (∀ x, 0 ≤ x ≤ 9 → wrap8 x = x) as Hw by (intros x Hx; apply Z.mod_small; lia).
  rewrite !Hw by lia. change (len _ =? 3) with true. cbn [negb].
  destruct (Z.eqb_spec (s / 100) 0), (Z.ltb_spec 9 (s / 100)), (Z.ltb_spec 9 (s mod 100 / 10)), (Z.ltb_spec 9 (s mod 10)); try lia.
  cbn. f_equal. pose proof (Z.div_mod s 100). pose proof (Z.div_mod (s mod 100) 10).
  assert (s mod 100 mod 10 = s mod 10) by (apply Z.mod_mod_divide; by exists 10). lia.
Qed.
