(* ===== verification/Uri.v ===== *)
(** * URIs

    Models [src/ylong_http/src/request/uri/mod.rs]: the parser of URIs and of
    their parts, the builder, and the way back to text.  A [String] or [&str] is
    its bytes; the bytes the parser accepts are ASCII. *)

From S2P Require Import Prelude Headers Message.
#[local] Open Scope Z_scope.

Inductive Protocol := PHttp | PHttps.
#[export] Instance Protocol_eq_dec : EqDecision Protocol.
Proof. solve_decision. Defined.

(** [Scheme], with its [Protocol]. *)
Definition Scheme : Type := Protocol.

Record Authority := mkAuthority { auth_host : bytes; auth_port : option bytes }.

Record Uri := mkUri {
  uri_scheme : option Scheme;
  uri_authority : option Authority;
  uri_path : option bytes;
  uri_query : option bytes }.

Inductive InvalidUri :=
  | InvalidScheme | InvalidAuthority | InvalidPath | InvalidByte | InvalidFormat | InvalidPort | UriMissScheme | UriMissPath
  | UriMissQuery | UriMissAuthority | UriMissHost | UriContainUserinfo | UriTooLong.

Definition MAX_URI_LEN : Z := 65534.

(** ** Bytes *)

Abbreviation T := true (only parsing).
Abbreviation F := false (only parsing).

Definition URI_VALUE_BYTES : list bool :=
  [F; F; F; F; F; F; F; F; F; F; F; F; F; F; F; F;
   F; F; F; F; F; F; F; F; F; F; F; F; F; F; F; F;
   F; T; F; T; T; T; T; T; T; T; T; T; T; T; T; T;
   T; T; T; T; T; T; T; T; T; T; T; T; F; T; F; T;
   T; T; T; T; T; T; T; T; T; T; T; T; T; T; T; T;
   T; T; T; T; T; T; T; T; T; T; T; T; F; T; F; T;
   F; T; T; T; T; T; T; T; T; T; T; T; T; T; T; T;
   T; T; T; T; T; T; T; T; T; T; T; F; F; F; T; F;
   F; F; F; F; F; F; F; F; F; F; F; F; F; F; F; F;
   F; F; F; F; F; F; F; F; F; F; F; F; F; F; F; F;
   F; F; F; F; F; F; F; F; F; F; F; F; F; F; F; F;
   F; F; F; F; F; F; F; F; F; F; F; F; F; F; F; F;
   F; F; F; F; F; F; F; F; F; F; F; F; F; F; F; F;
   F; F; F; F; F; F; F; F; F; F; F; F; F; F; F; F;
   F; F; F; F; F; F; F; F; F; F; F; F; F; F; F; F;
   F; F; F; F; F; F; F; F; F; F; F; F; F; F; F; F].

Definition PATH_AND_QUERY_BYTES : list bool :=
  [F; F; F; F; F; F; F; F; F; F; F; F; F; F; F; F;
   F; F; F; F; F; F; F; F; F; F; F; F; F; F; F; F;
   F; T; F; F; T; T; T; T; T; T; T; T; T; T; T; T;
   T; T; T; T; T; T; T; T; T; T; T; T; F; T; F; F;
   T; T; T; T; T; T; T; T; T; T; T; T; T; T; T; T;
   T; T; T; T; T; T; T; T; T; T; T; T; T; T; T; T;
   F; T; T; T; T; T; T; T; T; T; T; T; T; T; T; T;
   T; T; T; T; T; T; T; T; T; T; T; F; T; F; T; F;
   F; F; F; F; F; F; F; F; F; F; F; F; F; F; F; F;
   F; F; F; F; F; F; F; F; F; F; F; F; F; F; F; F;
   F; F; F; F; F; F; F; F; F; F; F; F; F; F; F; F;
   F; F; F; F; F; F; F; F; F; F; F; F; F; F; F; F;
   F; F; F; F; F; F; F; F; F; F; F; F; F; F; F; F;
   F; F; F; F; F; F; F; F; F; F; F; F; F; F; F; F;
   F; F; F; F; F; F; F; F; F; F; F; F; F; F; F; F;
   F; F; F; F; F; F; F; F; F; F; F; F; F; F; F; F].

Definition byte_in (table : list bool) (b : Z) : bool := nth (Z.to_nat b) table false.

(** [u8::to_ascii_lowercase] and [eq_ignore_ascii_case]. *)
Definition ascii_lower (b : Z) : Z := if (65 <=? b) && (b <=? 90) then b + 32 else b.
Definition eq_ignore_ascii_case (a b : bytes) : bool := bool_decide (map ascii_lower a = map ascii_lower b).

(** [str::parse] for an unsigned integer type with the maximum [max]. *)
Definition is_digit (b : Z) : bool := (48 <=? b) && (b <=? 57).
Fixpoint uint_digits (max acc : Z) (l : bytes) : option Z :=
  match l with
  | [] => Some acc
  | b :: l => if is_digit b then let acc := acc * 10 + (b - 48) in if acc <=? max then uint_digits max acc l else None else None
  end.
Definition parse_uint (max : Z) (l : bytes) : option Z :=
  match l with
  | [] => None
  | 43 :: l => match l with [] => None | _ => uint_digits max 0 l end
  | _ => uint_digits max 0 l
  end.
Definition parse_u16 : bytes → option Z := parse_uint 65535.

(** [rsplit_once(':')]: around the last colon. *)
Fixpoint rsplit_once (c : Z) (l : bytes) : option (bytes * bytes) :=
  match l with
  | [] => None
  | b :: l =>
      match rsplit_once c l with
      | Some (x, y) => Some (b :: x, y)
      | None => if b =? c then Some ([], l) else None
      end
  end.

(** The position of the first byte that is [c]. *)
Fixpoint find_byte (c : Z) (l : bytes) : option Z :=
  match l with
  | [] => None
  | b :: l => if b =? c then Some 0 else Z.succ <$> find_byte c l
  end.

(** ** Tokens *)

Definition scheme_token (l : bytes) : result InvalidUri (option Scheme * bytes) :=
  match find_byte 58 l with
  | Some i =>
      if negb (i =? 0) && (2 <? len (dropZ i l)) && eq_ignore_ascii_case (takeZ 2 (dropZ (i + 1) l)) (bs "//") then
        if eq_ignore_ascii_case (takeZ i l) (bs "http") then Ok (Some PHttp, dropZ 7 l)
        else if eq_ignore_ascii_case (takeZ i l) (bs "https") then Ok (Some PHttps, dropZ 8 l)
        else Err InvalidScheme
      else if i =? 0 then Err InvalidScheme
      else Ok (None, l)
  | None => Ok (None, l)
  end.

(** The loop of [authority_token]: the end, the colons and the brackets. *)
Fixpoint authority_loop (i colon_num : Z) (left right : bool) (l : bytes) : result InvalidUri (Z * Z * bool * bool) :=
  match l with
  | [] => Ok (i, colon_num, left, right)
  | b :: l =>
      if (b =? 47) || (b =? 63) || (b =? 35) then Ok (i, colon_num, left, right)
      else if b =? 91 then
        if i =? 0 then authority_loop (i + 1) colon_num true right l
        else if left then Err InvalidAuthority
        else authority_loop (i + 1) colon_num left right l
      else if b =? 93 then
        if left then if right then Err InvalidAuthority else authority_loop (i + 1) 0 left true l
        else authority_loop (i + 1) colon_num left right l
      else if b =? 64 then Err UriContainUserinfo
      else if b =? 58 then authority_loop (i + 1) (colon_num + 1) left right l
      else if byte_in URI_VALUE_BYTES b then authority_loop (i + 1) colon_num left right l
      else Err InvalidByte
  end.

Definition host_port (auth : bytes) (colon_num : Z) : result InvalidUri Authority :=
  if negb (colon_num =? 0) then
    match rsplit_once 58 auth with
    | Some (host, port) =>
        match host, port with
        | [], _ => Err UriMissHost
        | _, [] => Ok (mkAuthority host None)
        | _, _ => match parse_u16 port with Some _ => Ok (mkAuthority host (Some port)) | None => Err InvalidPort end
        end
    | None => Err UriMissAuthority
    end
  else Ok (mkAuthority auth None).

Definition authority_parse (l : bytes) (e colon_num : Z) (left right : bool) : result InvalidUri (option Authority * bytes) :=
  if e =? 0 then Ok (None, dropZ e l)
  else if xorb left right then Err InvalidAuthority
  else if 1 <? colon_num then Err InvalidAuthority
  else a ← host_port (takeZ e l) colon_num; mret (Some a, dropZ e l).

Definition authority_token (l : bytes) : result InvalidUri (option Authority * bytes) :=
  '(e, colon_num, lb, rb) ← authority_loop 0 0 false false l;
  authority_parse l e colon_num lb rb.

(** The end of a path: where a query or a fragment starts. *)
Fixpoint path_end (i : Z) (l : bytes) : result InvalidUri Z :=
  match l with
  | [] => Ok i
  | b :: l =>
      if (b =? 63) || (b =? 35) then Ok i
      else if byte_in PATH_AND_QUERY_BYTES b then path_end (i + 1) l
      else Err InvalidByte
  end.

Definition path_token (l : bytes) : result InvalidUri (option bytes * bytes) :=
  e ← path_end 0 l;
  mret (if negb (e =? 0) then (Some (takeZ e l), dropZ e l) else (None, dropZ e l)).

Fixpoint query_end (i : Z) (l : bytes) : result InvalidUri Z :=
  match l with
  | [] => Ok i
  | b :: l =>
      if b =? 35 then Ok i
      else if (b =? 63) || (b =? 96) || (b =? 123) || (b =? 125) || byte_in PATH_AND_QUERY_BYTES b then query_end (i + 1) l
      else Err InvalidByte
  end.

Definition query_token (l : bytes) : result InvalidUri (option bytes) :=
  match l with
  | [] => Ok None
  | _ => e ← query_end 0 l; mret (if e =? 0 then None else Some (takeZ e l))
  end.

Definition validity_check (u : Uri) : result InvalidUri Uri :=
  match u with
  | mkUri (Some _) None _ _ => Err UriMissAuthority
  | mkUri None (Some _) (Some _) _ => Err UriMissScheme
  | mkUri None (Some _) _ (Some _) => Err UriMissScheme
  | mkUri None None None None => Err InvalidFormat
  | _ => Ok u
  end.

(** ** [Uri] *)

Definition Uri_from_bytes (l : bytes) : result InvalidUri Uri :=
  if MAX_URI_LEN <? len l then Err UriTooLong
  else
    match l with
    | [] => Err InvalidFormat
    | _ =>
        '(scheme, rest) ← scheme_token l;
        '(authority, rest) ← authority_token rest;
        '(path, rest) ← path_token rest;
        query ← match rest with
                | [] => mret None
                | 63 :: rest => query_token rest
                | 35 :: _ => mret None
                | _ => Err UriMissQuery
                end;
        validity_check (mkUri scheme authority path query)
    end.

Definition Scheme_as_str (s : Scheme) : bytes := match s with PHttp => bs "http" | PHttps => bs "https" end.
Definition default_port (s : Scheme) : Z := match s with PHttp => 80 | PHttps => 443 end.

(** [Authority::to_str], also its [to_string]. *)
Definition Authority_to_str (a : Authority) : bytes :=
  auth_host a ++ from_option (λ p, bs ":" ++ p) [] (auth_port a).

Definition path_query (u : Uri) : bytes :=
  from_option id [] (uri_path u) ++ from_option (λ q, bs "?" ++ q) [] (uri_query u).

(** [Uri::path_and_query]. *)
Definition path_and_query (u : Uri) : option bytes := match path_query u with [] => None | l => Some l end.

(** [Uri::to_string]. *)
Definition Uri_to_string (u : Uri) : bytes :=
  from_option (λ s, Scheme_as_str s ++ bs "://") [] (uri_scheme u) ++
  from_option Authority_to_str [] (uri_authority u) ++ path_query u.

(** [Uri::http]. *)
Definition Path_from_bytes (l : bytes) : result InvalidUri bytes :=
  '(path, rest) ← path_token l;
  match rest with [] => match path with Some p => mret p | None => Err UriMissPath end | _ => Err InvalidPath end.
Definition Uri_http : Uri :=
  mkUri None None (match Path_from_bytes (bs "/") with Ok p => Some p | _ => None end) None.

Definition Query_from_bytes (l : bytes) : result InvalidUri bytes :=
  q ← query_token l; match q with Some q => mret q | None => Err UriMissQuery end.

Definition Scheme_from_bytes (l : bytes) : result InvalidUri Scheme :=
  if eq_ignore_ascii_case l (bs "http") then Ok PHttp
  else if eq_ignore_ascii_case l (bs "https") then Ok PHttps
  else Err InvalidScheme.

Definition Authority_from_bytes (l : bytes) : result InvalidUri Authority :=
  match l with
  | [] => Err UriMissAuthority
  | _ =>
      '(authority, rest) ← authority_token l;
      match rest, authority with [], Some a => mret a | _, _ => Err InvalidAuthority end
  end.

Definition Host_from_str (l : bytes) : result InvalidUri bytes := match l with [] => Err UriMissHost | _ => Ok l end.
Definition Port_from_str (l : bytes) : result InvalidUri bytes :=
  match parse_u16 l with Some _ => Ok l | None => Err InvalidPort end.
Definition Port_as_u16 (p : bytes) : result InvalidUri Z := match parse_u16 p with Some x => Ok x | None => Err InvalidPort end.

(** ** [UriBuilder]: the URI, or the first error *)

Definition UriBuilder : Type := result InvalidUri Uri.
Definition UriBuilder_new : UriBuilder := Ok (mkUri None None None None).
Definition builder_scheme (s : bytes) (b : UriBuilder) : UriBuilder :=
  u ← b; x ← Scheme_from_bytes s; mret (mkUri (Some x) (uri_authority u) (uri_path u) (uri_query u)).
Definition builder_authority (s : bytes) (b : UriBuilder) : UriBuilder :=
  u ← b; x ← Authority_from_bytes s; mret (mkUri (uri_scheme u) (Some x) (uri_path u) (uri_query u)).
Definition builder_path (s : bytes) (b : UriBuilder) : UriBuilder :=
  u ← b; x ← Path_from_bytes s; mret (mkUri (uri_scheme u) (uri_authority u) (Some x) (uri_query u)).
Definition builder_query (s : bytes) (b : UriBuilder) : UriBuilder :=
  u ← b; x ← Query_from_bytes s; mret (mkUri (uri_scheme u) (uri_authority u) (uri_path u) (Some x)).
Definition UriBuilder_build (b : UriBuilder) : result InvalidUri Uri := u ← b; validity_check u.

(** ** Tokens are found again *)

(** What may follow an authority, and a path. *)
Definition ends_authority (l : bytes) : Prop := match l with [] => True | b :: _ => b = 47 ∨ b = 63 ∨ b = 35 end.
Definition ends_path (l : bytes) : Prop := match l with [] => True | b :: _ => b = 63 ∨ b = 35 end.

Lemma ends_path_authority l : ends_path l → ends_authority l.
Proof. destruct l; cbn; [done|tauto]. Qed.

Lemma authority_loop_stop i c lb rb l : ends_authority l → authority_loop i c lb rb l = Ok (i, c, lb, rb).
Proof. destruct l as [|b l]; [done|]. by intros [->|[->| ->]]. Qed.

Lemma authority_loop_ok i c lb rb l e c' lb' rb' :
  authority_loop i c lb rb l = Ok (e, c', lb', rb') →
  ∃ auth rest, l = auth ++ rest ∧ e = i + len auth ∧ ends_authority rest ∧
    ∀ rest', ends_authority rest' → authority_loop i c lb rb (auth ++ rest') = Ok (e, c', lb', rb').
Proof.
  revert i c lb rb. induction l as [|b l IH]; intros i c lb rb; cbn [authority_loop].
  { intros [= <- <- <- <-]. exists [], []. split_and!; [done|len_lia|done|]. intros rest'. apply authority_loop_stop. }
  destruct ((b =? 47) || (b =? 63) || (b =? 35)) eqn:Es.
  { intros [= <- <- <- <-]. exists [], (b :: l). split_and!; [done|len_lia| |].
    - cbn. rewrite !orb_true_iff, !Z.eqb_eq in Es. tauto.
    - intros rest'. apply authority_loop_stop. }
  assert (∀ c1 lb1 rb1, authority_loop (i + 1) c1 lb1 rb1 l = Ok (e, c', lb', rb') →
    (∀ l', authority_loop i c lb rb (b :: l') = authority_loop (i + 1) c1 lb1 rb1 l') →
    ∃ auth rest, b :: l = auth ++ rest ∧ e = i + len auth ∧ ends_authority rest ∧
      ∀ rest', ends_authority rest' → authority_loop i c lb rb (auth ++ rest') = Ok (e, c', lb', rb')) as Hgo.
  { intros c1 lb1 rb1 H Heq. destruct (IH _ _ _ _ H) as (auth & rest & -> & -> & Hr & Ha). exists (b :: auth), rest.
    split_and!; [done|rewrite len_cons; lia|done|]. intros rest' Hr'. cbn [app]. rewrite Heq. by apply Ha. }
  intros H. repeat case_match; try done; (eapply Hgo; [exact H|]; intros l'; cbn [authority_loop]; by rewrite Es; simplify_option_eq;
    repeat match goal with E : (_ =? _) = _ |- _ => rewrite E; clear E | E : byte_in _ _ = _ |- _ => rewrite E; clear E end).
Qed.

Lemma authority_loop_colons i c lb rb l e c' lb' rb' :
  0 ≤ c → authority_loop i c lb rb l = Ok (e, c', lb', rb') → 0 ≤ c'.
Proof.
  revert i c lb rb. induction l as [|b l IH]; intros i c lb rb Hc; cbn [authority_loop]; [by intros [= <- <- <- <-]|].
  repeat case_match; try done; try (by intros [= <- <- <- <-]); intros Hloop; (eapply IH; [|exact Hloop]; lia).
Qed.

(** A colon at the end. *)
Lemma authority_loop_colon host i c lb rb c' lb' rb' :
  authority_loop i c lb rb (host ++ [58]) = Ok (i + len host + 1, c', lb', rb') →
  ∀ rest', ends_authority rest' → authority_loop i c lb rb (host ++ rest') = Ok (i + len host, c' - 1, lb', rb').
Proof.
  revert i c lb rb. induction host as [|b host IH]; intros i c lb rb H rest' Hr.
  { cbn in H. simplify_eq. rewrite authority_loop_stop by done. repeat f_equal; len_lia. }
  rewrite len_cons in *. cbn [app authority_loop] in *.
  replace (i + (1 + len host) + 1) with (i + 1 + len host + 1) in H by lia.
  replace (i + (1 + len host)) with (i + 1 + len host) by lia.
  pose proof (len_nonneg host). repeat case_match; try done; try (exfalso; injection H as Hi _ _ _; lia); by eapply IH.
Qed.

Lemma rsplit_once_eq c l x y : rsplit_once c l = Some (x, y) → l = x ++ c :: y.
Proof.
  revert x y. induction l as [|b l IH]; intros x y; [done|]. cbn [rsplit_once].
  destruct (rsplit_once c l) as [[x' y']|].
  - intros [= <- <-]. by rewrite (IH _ _ eq_refl).
  - destruct (Z.eqb_spec b c) as [->|]; [|done]. by intros [= <- <-].
Qed.

Lemma authority_token_stop l : ends_authority l → authority_token l = Ok (None, l).
Proof. intros H. unfold authority_token. by rewrite authority_loop_stop. Qed.

Lemma authority_token_none l rest : authority_token l = Ok (None, rest) → rest = l ∧ ends_authority l.
Proof.
  unfold authority_token. destruct (authority_loop 0 0 false false l) as [[[[e c] lb] rb]| |] eqn:Hl; [|done..].
  apply authority_loop_ok in Hl as (auth & rest' & -> & -> & Hr & _). cbn -[Z.add]. unfold authority_parse.
  destruct (Z.eqb_spec (0 + len auth) 0).
  - intros [= <-]. rewrite (len_0_nil auth) in * by lia. done.
  - destruct (xorb _ _); [done|]. destruct (1 <? c); [done|]. by destruct (host_port _ _).
Qed.

(** The text of an authority that was read, and what is left. *)
Lemma authority_token_some l a rest :
  authority_token l = Ok (Some a, rest) →
  ends_authority rest ∧ (∃ more, l = Authority_to_str a ++ more ++ rest) ∧ Authority_to_str a ≠ [] ∧
  ∀ rest', ends_authority rest' → authority_token (Authority_to_str a ++ rest') = Ok (Some a, rest').
Proof.
  unfold authority_token. destruct (authority_loop 0 0 false false l) as [[[[e c] lb] rb]| |] eqn:Hl; [|done..].
  apply authority_loop_ok in Hl as (auth & rest0 & -> & -> & Hr0 & Ha). cbn -[Z.add]. rewrite Z.add_0_l in *. unfold authority_parse at 1.
  destruct (Z.eqb_spec (len auth) 0) as [|Hne]; [done|]. destruct (xorb lb rb) eqn:Ex; [done|].
  destruct (Z.ltb_spec 1 c) as [|Hc]; [done|]. rewrite takeZ_app_len, dropZ_app_len.
  destruct (host_port auth c) as [a'| |] eqn:Hh; [|done..]. intros [= <- <-].
  assert (∀ rest', ends_authority rest' →
    authority_token (auth ++ rest') = Ok (Some a', rest')) as Hauth.
  { intros rest' Hr'. unfold authority_token. rewrite Ha by done. cbn. unfold authority_parse. rewrite takeZ_app_len, dropZ_app_len, Hh, Ex.
    destruct (Z.eqb_spec (len auth) 0); [lia|]. by destruct (Z.ltb_spec 1 c); [lia|]. }
  unfold host_port in Hh. destruct (Z.eqb_spec c 0) as [|Hc0]; cbn [negb] in Hh.
  { injection Hh as <-. unfold Authority_to_str. cbn. rewrite app_nil_r. split_and!; [done|by exists []| |done]. by intros ->. }
  destruct (rsplit_once 58 auth) as [[host port]|] eqn:Hs; [|done]. apply rsplit_once_eq in Hs as ->.
  destruct host as [|b host]; [done|]. destruct port as [|p port].
  - injection Hh as <-. unfold Authority_to_str. cbn [auth_host auth_port from_option]. rewrite app_nil_r.
    split_and!; [done|exists [58]; by rewrite <- app_assoc|done|]. intros rest' Hr'.
    pose proof (Ha [] I) as Hl. rewrite app_nil_r in Hl.
    assert (len ((b :: host) ++ [58]) = 0 + len (b :: host) + 1) as Hlen by (rewrite len_app; done).
    rewrite Hlen in Hl. unfold authority_token. rewrite (authority_loop_colon _ _ _ _ _ _ _ _ Hl) by done.
    unfold mbind, result_mbind, result_bind, authority_parse. rewrite Z.add_0_l.
    rewrite takeZ_app_len, dropZ_app_len, Ex. destruct (Z.eqb_spec (len (b :: host)) 0) as [H0|]; [pose proof (len_nonneg host); rewrite len_cons in H0; lia|].
    destruct (Z.ltb_spec 1 (c - 1)); [lia|]. unfold host_port.
    destruct (Z.eqb_spec (c - 1) 0); [done|]. pose proof (authority_loop_colons _ _ _ _ _ _ _ _ _ ltac:(done) Hl). lia.
  - destruct (parse_u16 (p :: port)); [|done]. injection Hh as <-. split_and!; [done|by exists []|done|exact Hauth].
Qed.

Lemma path_end_ok i l e :
  path_end i l = Ok e →
  ∃ p rest, l = p ++ rest ∧ e = i + len p ∧ ends_path rest ∧ (∀ rest', ends_path rest' → path_end i (p ++ rest') = Ok e) ∧
    match p with [] => True | b :: _ => b ≠ 63 ∧ b ≠ 35 end.
Proof.
  assert (∀ i l, ends_path l → path_end i l = Ok i) as Hstop.
  { intros j [|b k]; [done|]. by intros [->| ->]. }
  revert i. induction l as [|b l IH]; intros i; cbn [path_end].
  { intros [= <-]. exists [], []. split_and!; [done|len_lia|done|by auto|done]. }
  destruct ((b =? 63) || (b =? 35)) eqn:Es.
  { intros [= <-]. exists [], (b :: l). rewrite orb_true_iff, !Z.eqb_eq in Es. split_and!; [done|len_lia|done|by auto|done]. }
  destruct (byte_in _ b) eqn:Eb; [|done]. intros H. destruct (IH _ H) as (p & rest & -> & -> & Hr & Hp & _).
  exists (b :: p), rest. rewrite orb_false_iff, !Z.eqb_neq in Es. split_and!; [done|len_lia|done| |tauto..].
  intros rest' Hr'. cbn [app path_end]. rewrite (proj2 (Z.eqb_neq b 63)), (proj2 (Z.eqb_neq b 35)), Eb by tauto. by apply Hp.
Qed.

(** A path that was read, and what is left. *)
Lemma path_token_ok l p rest :
  path_token l = Ok (p, rest) →
  l = from_option id [] p ++ rest ∧ ends_path rest ∧
  (∀ rest', ends_path rest' → path_token (from_option id [] p ++ rest') = Ok (p, rest')) ∧
  match p with Some [] => False | Some (b :: _) => b ≠ 63 ∧ b ≠ 35 | None => True end.
Proof.
  unfold path_token at 1. destruct (path_end 0 l) as [e| |] eqn:He; [|done..].
  apply path_end_ok in He as (q & rest0 & -> & -> & Hr & Hp & Hb). cbn -[Z.add]. rewrite Z.add_0_l in *.
  rewrite takeZ_app_len, dropZ_app_len. destruct (Z.eqb_spec (len q) 0) as [H0|H0]; cbn [negb].
  - rewrite (len_0_nil q H0) in *. intros [= <- <-]. split_and!; [done|done| |done].
    intros rest' Hr'. unfold path_token. pose proof (Hp rest' Hr') as H. cbn [app from_option] in *. by rewrite H.
  - intros [= <- <-]. cbn [from_option id]. split_and!; [done|done| |by destruct q].
    intros rest' Hr'. unfold path_token. rewrite Hp by done. cbn. rewrite takeZ_app_len, dropZ_app_len.
    by rewrite (proj2 (Z.eqb_neq _ _) H0).
Qed.

Lemma query_end_ok i l e :
  query_end i l = Ok e → ∃ q rest, l = q ++ rest ∧ e = i + len q ∧ query_end i q = Ok e.
Proof.
  revert i. induction l as [|b l IH]; intros i; cbn [query_end].
  { intros [= <-]. exists [], []. split_and!; [done|len_lia|done]. }
  destruct (b =? 35) eqn:Es.
  { intros [= <-]. exists [], (b :: l). split_and!; [done|len_lia|done]. }
  destruct (_ || byte_in _ b) eqn:Eb; [|done]. intros H. destruct (IH _ H) as (q & rest & -> & -> & Hq).
  exists (b :: q), rest. split_and!; [done|len_lia|]. cbn [query_end]. by rewrite Es, Eb.
Qed.

Lemma query_token_ok l q :
  query_token l = Ok (Some q) → (∃ rest, l = q ++ rest) ∧ q ≠ [] ∧ query_token q = Ok (Some q).
Proof.
  destruct l as [|b l]; [done|]. unfold query_token at 1. destruct (query_end 0 (b :: l)) as [e| |] eqn:He; [|done..].
  apply query_end_ok in He as (s & rest & -> & -> & Hq). cbn -[Z.add]. rewrite Z.add_0_l in *.
  destruct (Z.eqb_spec (len s) 0) as [|H0]; [done|]. rewrite takeZ_app_len. intros [= <-].
  split_and!; [by exists rest|by intros ->|]. unfold query_token. rewrite Hq. cbn. rewrite (proj2 (Z.eqb_neq _ _) H0), takeZ_all by done.
  by destruct s.
Qed.

Lemma find_byte_app c a b : find_byte c (a ++ b) = match find_byte c a with Some i => Some i | None => Z.add (len a) <$> find_byte c b end.
Proof.
  induction a as [|x a IH]; cbn [app find_byte]; [destruct (find_byte c b); [f_equal; len_lia|done]|].
  destruct (x =? c); [done|]. rewrite IH. destruct (find_byte c a); [done|]. destruct (find_byte c b); [|done].
  cbn. f_equal. len_lia.
Qed.

Lemma find_byte_bound c l i : find_byte c l = Some i → 0 ≤ i < len l.
Proof.
  revert i. induction l as [|x l IH]; intros i; [done|]. cbn [find_byte]. destruct (x =? c); [intros [= <-]; len_lia|].
  destruct (find_byte c l) as [j|]; [|done]. intros [= <-]. specialize (IH j eq_refl). len_lia.
Qed.

(** A prefix of a text without scheme has none. *)
Lemma scheme_token_prefix s r l : s ++ r = l → scheme_token l = Ok (None, l) → scheme_token s = Ok (None, s).
Proof.
  intros <-. unfold scheme_token. rewrite find_byte_app. destruct (find_byte 58 s) as [i|] eqn:Hi; [|done].
  apply find_byte_bound in Hi. destruct (Z.eqb_spec i 0); cbn [negb andb]; [done|].
  destruct (Z.ltb_spec 2 (len (dropZ i s))) as [H2|H2]; [|done].
  rewrite (dropZ_app_le i) by lia. rewrite len_app. destruct (Z.ltb_spec 2 (len (dropZ i s) + len r)); [|len_lia].
  rewrite len_dropZ in H2 by lia. rewrite (dropZ_app_le (i + 1)) by lia.
  rewrite takeZ_app_le by (rewrite len_dropZ; lia). cbn [andb].
  destruct (eq_ignore_ascii_case (takeZ 2 _) _); [|done]. destruct (eq_ignore_ascii_case _ (bs "http")); [done|].
  by destruct (eq_ignore_ascii_case _ (bs "https")).
Qed.

Lemma scheme_token_none l rest : scheme_token l = Ok (None, rest) → rest = l ∧ scheme_token l = Ok (None, l).
Proof. unfold scheme_token. repeat case_match; intros; simplify_eq; done. Qed.

Lemma scheme_token_some l s rest :
  scheme_token l = Ok (Some s, rest) →
  len l = len (Scheme_as_str s ++ bs "://") + len rest ∧ ∀ r, scheme_token (Scheme_as_str s ++ bs "://" ++ r) = Ok (Some s, r).
Proof.
  assert (∀ r, scheme_token (Scheme_as_str s ++ bs "://" ++ r) = Ok (Some s, r)) as Hs.
  { intros r. assert ((2 <? len (bs "://" ++ r)) = true) as Hl by (apply Z.ltb_lt; rewrite len_app; change (len (bs "://")) with 3; len_lia).
    unfold scheme_token. destruct s.
    - change (find_byte 58 _) with (Some 4). cbn -[dropZ takeZ len]. change (dropZ 4 _) with (bs "://" ++ r). by rewrite Hl.
    - change (find_byte 58 _) with (Some 5). cbn -[dropZ takeZ len]. change (dropZ 5 _) with (bs "://" ++ r). by rewrite Hl. }
  unfold scheme_token at 1. destruct (find_byte 58 l) as [i|] eqn:Hi; [|done]. apply find_byte_bound in Hi.
  destruct (negb (i =? 0)); cbn [andb]; [|by destruct (i =? 0)].
  destruct (Z.ltb_spec 2 (len (dropZ i l))) as [Hd|Hd]; cbn [andb]; [|by destruct (i =? 0)].
  rewrite len_dropZ in Hd by lia. destruct (eq_ignore_ascii_case _ (bs "//")); [|by destruct (i =? 0)].
  assert (∀ t, eq_ignore_ascii_case (takeZ i l) t = true → i = len t) as Heq.
  { intros t Ht. apply bool_decide_eq_true in Ht. apply (f_equal length) in Ht. rewrite !length_map in Ht.
    pose proof (len_takeZ i l ltac:(lia)). unfold len in *. lia. }
  destruct (eq_ignore_ascii_case _ (bs "http")) eqn:E1; [|destruct (eq_ignore_ascii_case _ (bs "https")) eqn:E2; [|done]].
  - intros [= <- <-]. apply Heq in E1. change (len (bs "http")) with 4 in E1. split; [|exact Hs].
    rewrite len_dropZ by lia. cbn [Scheme_as_str]. change (len (bs "http" ++ bs "://")) with 7. lia.
  - intros [= <- <-]. apply Heq in E2. change (len (bs "https")) with 5 in E2. split; [|exact Hs].
    rewrite len_dropZ by lia. cbn [Scheme_as_str]. change (len (bs "https" ++ bs "://")) with 8. lia.
Qed.

(** ** Whole URIs *)

(** A path and a query that were read. *)
Definition tail_read (p q : option bytes) : Prop :=
  (∀ rest', ends_path rest' → path_token (from_option id [] p ++ rest') = Ok (p, rest')) ∧
  (q = None ∨ ∃ s, q = Some s ∧ query_token s = Ok (Some s)).

(** [Uri::from_bytes] behind the scheme and the authority. *)
Definition read_tail (scheme : option Scheme) (authority : option Authority) (l : bytes) : result InvalidUri Uri :=
  '(path, rest) ← path_token l;
  query ← match rest with [] => mret None | 63 :: rest => query_token rest | 35 :: _ => mret None | _ => Err UriMissQuery end;
  validity_check (mkUri scheme authority path query).

Lemma read_tail_ok s a l u :
  read_tail s a l = Ok u →
  uri_scheme u = s ∧ uri_authority u = a ∧ tail_read (uri_path u) (uri_query u) ∧ validity_check u = Ok u ∧
  (∃ more, l = path_query u ++ more) ∧ (ends_authority l → ends_authority (path_query u)).
Proof.
  unfold read_tail. destruct (path_token l) as [[p rest]| |] eqn:Hp; [|done..]. apply path_token_ok in Hp as (-> & Hr & Hp & Hb).
  cbn -[validity_check]. intros H.
  assert (∃ q, validity_check (mkUri s a p q) = Ok u ∧ (q = None ∨ ∃ t, q = Some t ∧ query_token t = Ok (Some t)) ∧
    ∃ more, rest = from_option (λ q, bs "?" ++ q) [] q ++ more) as (q & Hv & Hq & more & ->).
  { destruct rest as [|b rest]; [exists None; split_and!; [exact H|by left|by exists []]|].
    destruct Hr as [->| ->]; [|exists None; split_and!; [exact H|by left|by eexists]]. cbn -[validity_check] in H.
    destruct (query_token rest) as [[t|]| |] eqn:Ht; [| |done..].
    - apply query_token_ok in Ht as ([more ->] & _ & Ht). exists (Some t). split_and!; [exact H|right; by exists t|].
      exists more. done.
    - exists None. split_and!; [exact H|by left|by eexists]. }
  assert (u = mkUri s a p q) as -> by (unfold validity_check in Hv; repeat case_match; simplify_eq; done).
  unfold path_query. cbn [uri_scheme uri_authority uri_path uri_query]. split_and!; [done|done|done|done| |].
  - exists more. by rewrite <- app_assoc.
  - destruct p as [[|b p]|]; [done|by cbn|]. cbn [from_option app]. destruct q; [right; by left|done].
Qed.

Lemma read_tail_again u : validity_check u = Ok u → tail_read (uri_path u) (uri_query u) →
  read_tail (uri_scheme u) (uri_authority u) (path_query u) = Ok u.
Proof.
  intros Hv [Hp Hq]. unfold read_tail, path_query. destruct u as [s a p q]. cbn [uri_scheme uri_authority uri_path uri_query] in *.
  rewrite Hp by (destruct q; [by left|done]). cbn -[validity_check]. destruct Hq as [->|(t & -> & Ht)]; [done|].
  cbn -[validity_check query_token]. by rewrite Ht.
Qed.

Lemma Uri_from_bytes_eq l : len l ≤ MAX_URI_LEN → l ≠ [] →
  Uri_from_bytes l = ('(scheme, rest) ← scheme_token l; '(authority, rest) ← authority_token rest; read_tail scheme authority rest).
Proof. intros Hl Hne. unfold Uri_from_bytes. destruct (Z.ltb_spec MAX_URI_LEN (len l)); [lia|]. by destruct l. Qed.

Lemma path_query_nonempty u :
  tail_read (uri_path u) (uri_query u) → validity_check u = Ok u → uri_authority u = None → uri_scheme u = None → path_query u ≠ [].
Proof.
  destruct u as [s a p q]. unfold path_query. cbn [uri_scheme uri_authority uri_path uri_query]. intros [Hp _] Hv -> -> H.
  destruct q; [by apply app_nil in H as [_ ?]|]. rewrite app_nil_r in H. destruct p as [p|]; [|done].
  cbn [from_option id] in *. subst p. by specialize (Hp [] I).
Qed.

(** What is behind the scheme is read again. *)
Lemma authority_again a rest rest2 u :
  authority_token rest = Ok (a, rest2) → read_tail (uri_scheme u) a rest2 = Ok u → uri_authority u = a →
  let t := from_option Authority_to_str [] a ++ path_query u in
  authority_token t = Ok (a, path_query u) ∧ len t ≤ len rest ∧
  (uri_scheme u = None → t ≠ [] ∧ ∃ more, t ++ more = rest).
Proof.
  intros Ha Hr Hau t. apply read_tail_ok in Hr as (_ & _ & Htail & Hv & (more & Hrest) & Hends).
  destruct a as [auth|]; cbn [from_option] in t; unfold t.
  - apply authority_token_some in Ha as (He & (m & ->) & Hane & Hagain). split_and!; [by apply Hagain, Hends|rewrite Hrest; len_lia|].
    intros Hsc. split; [by intros [E _]%app_nil|]. destruct u as [s a p q]. cbn [uri_scheme uri_authority] in *. subst s a.
    destruct p, q; try done. exists (m ++ rest2). change (path_query _) with (@nil Z). by rewrite app_nil_r.
  - apply authority_token_none in Ha as [-> He]. rewrite app_nil_l. split_and!; [by apply authority_token_stop, Hends|rewrite Hrest; len_lia|].
    intros Hsc. split; [by apply path_query_nonempty|]. by exists more.
Qed.

(** C35: a URI that was parsed, written as text and parsed again, is the same
    URI, and the text is not longer than what was parsed. *)
Theorem uri_roundtrip (l : bytes) (u : Uri) :
  Uri_from_bytes l = Ok u → Uri_from_bytes (Uri_to_string u) = Ok u ∧ len (Uri_to_string u) ≤ len l.
Proof.
  intros H. assert (len l ≤ MAX_URI_LEN ∧ l ≠ []) as [Hlen Hne].
  { unfold Uri_from_bytes in H. destruct (Z.ltb_spec MAX_URI_LEN (len l)); [done|]. split; [done|by intros ->]. }
  rewrite Uri_from_bytes_eq in H by done. destruct (scheme_token l) as [[s rest]| |] eqn:Hs; [|done..]. cbn -[authority_token read_tail] in H.
  destruct (authority_token rest) as [[a rest2]| |] eqn:Ha; [|done..]. cbn -[read_tail] in H.
  pose proof (read_tail_ok _ _ _ _ H) as (<- & <- & Htail & Hv & _). destruct (authority_again _ _ _ u Ha H eq_refl) as (Hagain & Hle & Hsc).
  unfold Uri_to_string. set (t := from_option Authority_to_str [] (uri_authority u) ++ path_query u) in *.
  assert (('(authority, rest) ← authority_token t; read_tail (uri_scheme u) authority rest) = Ok u) as Hgo.
  { rewrite Hagain. cbn -[read_tail]. by apply read_tail_again. }
  destruct (uri_scheme u) as [s|]; cbn [from_option].
  - apply scheme_token_some in Hs as [Hls Hs]. rewrite <- app_assoc.
    assert (len (Scheme_as_str s ++ bs "://" ++ t) ≤ len l) as Hl by (rewrite Hls, app_assoc, len_app; lia). split; [|done].
    rewrite Uri_from_bytes_eq; [|lia|by destruct s]. by rewrite Hs.
  - apply scheme_token_none in Hs as [-> Hs]. destruct (Hsc eq_refl) as [Htne [more Hmore]]. split; [|done].
    rewrite app_nil_l, Uri_from_bytes_eq by (done || lia). by rewrite (scheme_token_prefix t more l Hmore Hs).
Qed.

Lemma uri_roundtrip_witness :
  let l := bs "HTTP://[::1]:/a?b#c" in let u := mkUri (Some PHttp) (Some (mkAuthority (bs "[::1]") None)) (Some (bs "/a")) (Some (bs "b")) in
  Uri_from_bytes l = Ok u ∧ Uri_to_string u = bs "http://[::1]/a?b" ∧ Uri_from_bytes (Uri_to_string u) = Ok u ∧ len (Uri_to_string u) ≤ len l.
Proof. intros l u. assert (Uri_from_bytes l = Ok u) as H by done. split; [done|]. split; [done|]. exact (uri_roundtrip l u H). Defined.

(** A colon anywhere, even behind the path, is taken for the end of a scheme
    when two slashes follow. *)
Example uri_in_query_refused : Uri_from_bytes (bs "/login?next=https://a.b/") = Err InvalidScheme.
Proof. done. Qed.

(** The builder accepts a path that does not start with a slash, which is then
    part of the host. *)
Example builder_path_in_host :
  (u ← UriBuilder_build (builder_path (bs "x") (builder_authority (bs "h") (builder_scheme (bs "http") UriBuilder_new)));
   Uri_from_bytes (Uri_to_string u)) = Ok (mkUri (Some PHttp) (Some (mkAuthority (bs "hx") None)) None None).
Proof. done. Qed.
