(* ===== verification/H1Encoder.v ===== *)
(** * HTTP/1.1 requests: the encoder

    Models [src/ylong_http/src/h1/request/encoder.rs]: [RequestEncoder], which
    owns the request, and [RequestRefEncoder], which borrows it.  The two have
    the same state machine, [encode], over different parts for the URI and the
    header fields.  The fields come in the order of the hash map, an argument.

    [encode] takes the room of the buffer and gives the bytes written. *)

From S2P Require Import Prelude Headers Message Uri.
#[local] Open Scope Z_scope.

(** ** Tokens *)

(** [TokenResult<usize>]: the bytes written and whether the token is complete. *)
Inductive Token := Complete (out : bytes) | Partial (out : bytes).

(** [WriteData::write]: the index stays when the token is complete. *)
Definition WriteData_write (src : bytes) (room : Z) : ST Z HttpError Token :=
  src_idx ← get_st;
  if len src <? src_idx then panic
  else
    let out := takeZ room (dropZ src_idx src) in
    if len src - src_idx <=? room then mret (Complete out)
    else _ ← put_st (src_idx + len out); mret (Partial out).

Definition EncodeSp_encode (room : Z) : ST Z HttpError Token := WriteData_write (bs " ") room.
Definition EncodeCrlf_encode (room : Z) : ST Z HttpError Token := WriteData_write [13; 10] room.

(** ** URIs *)

Record EncodeUri := mkEncodeUri { eu_absolute : bytes; eu_origin : bytes; eu_idx : Z; eu_is_absolute : bool }.

(** What is sent to a server. *)
Definition origin_form (u : Uri) : bytes := from_option id (bs "/") (path_and_query u).

Definition EncodeUri_new (u : Uri) (is_absolute : bool) : EncodeUri := mkEncodeUri (Uri_to_string u) (origin_form u) 0 is_absolute.
Definition eu_set_idx (i : Z) (e : EncodeUri) : EncodeUri := mkEncodeUri (eu_absolute e) (eu_origin e) i (eu_is_absolute e).
Definition eu_set_absolute (b : bool) (e : EncodeUri) : EncodeUri := mkEncodeUri (eu_absolute e) (eu_origin e) (eu_idx e) b.

Definition EncodeUri_encode (room : Z) : ST EncodeUri HttpError Token :=
  e ← get_st;
  zoom eu_idx eu_set_idx (WriteData_write (if eu_is_absolute e then eu_absolute e else eu_origin e) room).

(** [EncodeUriRef]: the text is made when it is needed. *)
Record EncodeUriRef := mkEncodeUriRef {
  ur_inner : Uri;
  ur_absolute : option bytes;
  ur_origin : option bytes;
  ur_idx : Z;
  ur_is_absolute : bool }.

Definition EncodeUriRef_new (u : Uri) (is_absolute : bool) : EncodeUriRef := mkEncodeUriRef u None None 0 is_absolute.
Definition ur_set_idx (i : Z) (e : EncodeUriRef) : EncodeUriRef := mkEncodeUriRef (ur_inner e) (ur_absolute e) (ur_origin e) i (ur_is_absolute e).
Definition ur_set_absolute (b : bool) (e : EncodeUriRef) : EncodeUriRef := mkEncodeUriRef (ur_inner e) (ur_absolute e) (ur_origin e) (ur_idx e) b.

Definition ur_fill (e : EncodeUriRef) : EncodeUriRef :=
  if ur_is_absolute e then
    mkEncodeUriRef (ur_inner e) (Some (from_option id (Uri_to_string (ur_inner e)) (ur_absolute e))) (ur_origin e) (ur_idx e) true
  else
    mkEncodeUriRef (ur_inner e) (ur_absolute e) (Some (from_option id (origin_form (ur_inner e)) (ur_origin e))) (ur_idx e) false.

Definition EncodeUriRef_encode (room : Z) : ST EncodeUriRef HttpError Token :=
  _ ← modify_st ur_fill;
  e ← get_st;
  match (if ur_is_absolute e then ur_absolute e else ur_origin e) with
  | Some uri => zoom ur_idx ur_set_idx (WriteData_write uri room)
  | None => panic
  end.

(** ** Header fields *)

(** [Crlf] holds the index of its [EncodeCrlf]. *)
Inductive HeaderStatus := HName | HColon | HValue | HCrlf (src_idx : Z) | HEmpty.

Record EncodeHeader := mkEncodeHeader {
  eh_inner : list (bytes * HeaderValue);
  eh_status : option HeaderStatus;
  eh_name : bytes;
  eh_value : bytes;
  eh_name_idx : Z;
  eh_colon_idx : Z;
  eh_value_idx : Z }.

(** [EncodeHeader::new]: the [unwrap] is of the name of one space. *)
Definition EncodeHeader_new (headers : list (bytes * HeaderValue)) : result HttpError EncodeHeader :=
  match headers with
  | (name, value) :: inner => Ok (mkEncodeHeader inner (Some HName) name (HeaderValue_to_vec value) 0 0 0)
  | [] => match normalize (bs " ") with Ok name => Ok (mkEncodeHeader [] (Some HEmpty) name [] 0 0 0) | _ => Panic end
  end.

Definition eh_set_status (s : option HeaderStatus) (e : EncodeHeader) : EncodeHeader :=
  mkEncodeHeader (eh_inner e) s (eh_name e) (eh_value e) (eh_name_idx e) (eh_colon_idx e) (eh_value_idx e).
Definition eh_set_idxs (name colon value : Z) (e : EncodeHeader) : EncodeHeader :=
  mkEncodeHeader (eh_inner e) (eh_status e) (eh_name e) (eh_value e) name colon value.

Definition eh_on_name {A} (m : ST Z HttpError A) : ST EncodeHeader HttpError A :=
  zoom eh_name_idx (λ i e, eh_set_idxs i (eh_colon_idx e) (eh_value_idx e) e) m.
Definition eh_on_colon {A} (m : ST Z HttpError A) : ST EncodeHeader HttpError A :=
  zoom eh_colon_idx (λ i e, eh_set_idxs (eh_name_idx e) i (eh_value_idx e) e) m.
Definition eh_on_value {A} (m : ST Z HttpError A) : ST EncodeHeader HttpError A :=
  zoom eh_value_idx (λ i e, eh_set_idxs (eh_name_idx e) (eh_colon_idx e) i e) m.

(** [encode_name], [encode_colon], [encode_value]: a part of the line, then the
    next status. *)
Definition line_part {S} (write : ST S HttpError Token) (set : HeaderStatus → S → S) (this next : HeaderStatus) : ST S HttpError Token :=
  t ← write;
  match t with
  | Complete out => _ ← modify_st (set next); mret (Partial out)
  | Partial out => _ ← modify_st (set this); mret (Partial out)
  end.

Definition eh_to (s : HeaderStatus) : EncodeHeader → EncodeHeader := eh_set_status (Some s).

Definition EncodeHeader_encode_name (room : Z) : ST EncodeHeader HttpError Token :=
  e ← get_st; line_part (eh_on_name (WriteData_write (eh_name e) room)) eh_to HName HColon.
Definition EncodeHeader_encode_colon (room : Z) : ST EncodeHeader HttpError Token :=
  line_part (eh_on_colon (WriteData_write (bs ":") room)) eh_to HColon HValue.
Definition EncodeHeader_encode_value (room : Z) : ST EncodeHeader HttpError Token :=
  e ← get_st; line_part (eh_on_value (WriteData_write (eh_value e) room)) eh_to HValue (HCrlf 0).

Definition EncodeHeader_encode_crlf (room crlf : Z) : ST EncodeHeader HttpError Token :=
  let '(crlf, r) := EncodeCrlf_encode room crlf in
  t ← lift_res r;
  match t with
  | Complete out =>
      e ← get_st;
      match eh_inner e with
      | (name, value) :: inner =>
          _ ← put_st (mkEncodeHeader inner (Some HName) name (HeaderValue_to_vec value) 0 0 0); mret (Partial out)
      | [] => mret (Complete out)
      end
  | Partial out => _ ← modify_st (eh_to (HCrlf crlf)); mret (Partial out)
  end.

Definition EncodeHeader_encode (room : Z) : ST EncodeHeader HttpError Token :=
  e ← get_st;
  _ ← modify_st (eh_set_status None);
  match eh_status e with
  | Some HName => EncodeHeader_encode_name room
  | Some HColon => EncodeHeader_encode_colon room
  | Some HValue => EncodeHeader_encode_value room
  | Some (HCrlf crlf) => EncodeHeader_encode_crlf room crlf
  | Some HEmpty => mret (Complete [])
  | None => panic
  end.

(** [EncodeHeaderRef]: the values of a field are written one by one. *)
Record EncodeHeaderRef := mkEncodeHeaderRef {
  hr_inner : list (bytes * HeaderValue);
  hr_status : option HeaderStatus;
  hr_name : option bytes;
  hr_value_iter : option (list bytes);
  hr_value_part : option bytes;
  hr_name_idx : Z;
  hr_colon_idx : Z;
  hr_value_idx : Z;
  hr_separator_idx : Z;
  hr_parts_written : Z;
  hr_needs_separator : bool }.

Definition hr_line (inner : list (bytes * HeaderValue)) (name : bytes) (value : HeaderValue) : EncodeHeaderRef :=
  mkEncodeHeaderRef inner (Some HName) (Some name) (Some (hv_inner value)) None 0 0 0 0 0 false.

Definition EncodeHeaderRef_new (headers : list (bytes * HeaderValue)) : EncodeHeaderRef :=
  match headers with
  | (name, value) :: inner => hr_line inner name value
  | [] => mkEncodeHeaderRef [] (Some HEmpty) None None None 0 0 0 0 0 false
  end.

Definition hr_set_status (s : option HeaderStatus) (e : EncodeHeaderRef) : EncodeHeaderRef :=
  mkEncodeHeaderRef (hr_inner e) s (hr_name e) (hr_value_iter e) (hr_value_part e) (hr_name_idx e) (hr_colon_idx e)
    (hr_value_idx e) (hr_separator_idx e) (hr_parts_written e) (hr_needs_separator e).
Definition hr_set_idxs (name colon : Z) (e : EncodeHeaderRef) : EncodeHeaderRef :=
  mkEncodeHeaderRef (hr_inner e) (hr_status e) (hr_name e) (hr_value_iter e) (hr_value_part e) name colon
    (hr_value_idx e) (hr_separator_idx e) (hr_parts_written e) (hr_needs_separator e).
Definition hr_set_value (iter : option (list bytes)) (part : option bytes) (value sep written : Z) (needs : bool) (e : EncodeHeaderRef)
  : EncodeHeaderRef :=
  mkEncodeHeaderRef (hr_inner e) (hr_status e) (hr_name e) iter part (hr_name_idx e) (hr_colon_idx e) value sep written needs.

Definition hr_to (s : HeaderStatus) : EncodeHeaderRef → EncodeHeaderRef := hr_set_status (Some s).

Definition hr_on_name {A} (m : ST Z HttpError A) : ST EncodeHeaderRef HttpError A := zoom hr_name_idx (λ i e, hr_set_idxs i (hr_colon_idx e) e) m.
Definition hr_on_colon {A} (m : ST Z HttpError A) : ST EncodeHeaderRef HttpError A := zoom hr_colon_idx (λ i e, hr_set_idxs (hr_name_idx e) i e) m.
Definition hr_on_separator {A} (m : ST Z HttpError A) : ST EncodeHeaderRef HttpError A :=
  zoom hr_separator_idx (λ i e, hr_set_value (hr_value_iter e) (hr_value_part e) (hr_value_idx e) i (hr_parts_written e) (hr_needs_separator e) e) m.
Definition hr_on_value {A} (m : ST Z HttpError A) : ST EncodeHeaderRef HttpError A :=
  zoom hr_value_idx (λ i e, hr_set_value (hr_value_iter e) (hr_value_part e) i (hr_separator_idx e) (hr_parts_written e) (hr_needs_separator e) e) m.

Definition EncodeHeaderRef_encode_name (room : Z) : ST EncodeHeaderRef HttpError Token :=
  e ← get_st;
  match hr_name e with Some name => line_part (hr_on_name (WriteData_write name room)) hr_to HName HColon | None => panic end.
Definition EncodeHeaderRef_encode_colon (room : Z) : ST EncodeHeaderRef HttpError Token :=
  line_part (hr_on_colon (WriteData_write (bs ":") room)) hr_to HColon HValue.

(** [encode_value]: the value, when a value starts; the separator; the value. *)
Definition hr_next_part : ST EncodeHeaderRef HttpError bool :=
  e ← get_st;
  match hr_value_part e with
  | Some _ => mret true
  | None =>
      match hr_value_iter e with
      | Some (part :: iter) =>
          _ ← modify_st (hr_set_value (Some iter) (Some part) 0 0 (hr_parts_written e) (negb (hr_parts_written e =? 0))); mret true
      | _ => _ ← modify_st (hr_to (HCrlf 0)); mret false
      end
  end.

Definition hr_separator (room : Z) : ST EncodeHeaderRef HttpError Token :=
  e ← get_st;
  if hr_needs_separator e then
    t ← hr_on_separator (WriteData_write (bs ", ") room);
    match t with
    | Complete out =>
        _ ← modify_st (λ e, hr_set_value (hr_value_iter e) (hr_value_part e) (hr_value_idx e) 0 (hr_parts_written e) false e);
        mret (Complete out)
    | Partial out => _ ← modify_st (hr_to HValue); mret (Partial out)
    end
  else mret (Complete []).

Definition hr_write_part (room : Z) : ST EncodeHeaderRef HttpError Token :=
  e ← get_st;
  match hr_value_part e with
  | Some value =>
      t ← hr_on_value (WriteData_write value room);
      match t with
      | Complete out =>
          _ ← modify_st (λ e, hr_set_value (hr_value_iter e) None 0 (hr_separator_idx e) (hr_parts_written e + 1) (hr_needs_separator e) e);
          mret (Complete out)
      | Partial out => _ ← modify_st (hr_to HValue); mret (Partial out)
      end
  | None => panic
  end.

Fixpoint hr_value_loop (fuel : nat) (room : Z) (written : bytes) : ST EncodeHeaderRef HttpError Token :=
  match fuel with
  | O => panic
  | S fuel =>
      more ← hr_next_part;
      if negb more then mret (Partial written)
      else
        t ← hr_separator (room - len written);
        match t with
        | Partial out => mret (Partial (written ++ out))
        | Complete out =>
            let written := written ++ out in
            t ← hr_write_part (room - len written);
            match t with
            | Partial out => mret (Partial (written ++ out))
            | Complete out => hr_value_loop fuel room (written ++ out)
            end
        end
  end.

(** Each turn takes a value. *)
Definition hr_value_fuel (e : EncodeHeaderRef) : nat := (2 + length (from_option id [] (hr_value_iter e)))%nat.
Definition EncodeHeaderRef_encode_value (room : Z) : ST EncodeHeaderRef HttpError Token :=
  e ← get_st; hr_value_loop (hr_value_fuel e) room [].

Definition EncodeHeaderRef_encode_crlf (room crlf : Z) : ST EncodeHeaderRef HttpError Token :=
  let '(crlf, r) := EncodeCrlf_encode room crlf in
  t ← lift_res r;
  match t with
  | Complete out =>
      e ← get_st;
      match hr_inner e with
      | (name, value) :: inner => _ ← put_st (hr_line inner name value); mret (Partial out)
      | [] => mret (Complete out)
      end
  | Partial out => _ ← modify_st (hr_to (HCrlf crlf)); mret (Partial out)
  end.

Definition EncodeHeaderRef_encode (room : Z) : ST EncodeHeaderRef HttpError Token :=
  e ← get_st;
  _ ← modify_st (hr_set_status None);
  match hr_status e with
  | Some HName => EncodeHeaderRef_encode_name room
  | Some HColon => EncodeHeaderRef_encode_colon room
  | Some HValue => EncodeHeaderRef_encode_value room
  | Some (HCrlf crlf) => EncodeHeaderRef_encode_crlf room crlf
  | Some HEmpty => mret (Complete [])
  | None => panic
  end.

(** ** The machine *)

Record RequestPart := mkRequestPart { rp_uri : Uri; rp_method : Method; rp_version : Version; rp_headers : list (bytes * HeaderValue) }.

Inductive EncodeState := SMethod | SMethodSp | SUri | SUriSp | SVersion | SVersionCrlf | SHeader | SHeaderCrlf | SFinished.
#[export] Instance EncodeState_eq_dec : EqDecision EncodeState.
Proof. solve_decision. Defined.

(** The encoder over the part [U] for the URI and [H] for the header fields;
    [EncodeMethod] and [EncodeVersion] hold a token and an index. *)
Record Encoder (U H : Type) := mkEncoder {
  re_status : EncodeState;
  re_method : Method; re_method_idx : Z;
  re_method_sp : Z;
  re_uri : U;
  re_uri_sp : Z;
  re_version : Version; re_version_idx : Z;
  re_version_crlf : Z;
  re_headers : H;
  re_headers_crlf : Z;
  re_is_absolute_uri : bool }.
Arguments mkEncoder {U H}.
Arguments re_status {U H}. Arguments re_method {U H}. Arguments re_method_idx {U H}. Arguments re_method_sp {U H}.
Arguments re_uri {U H}. Arguments re_uri_sp {U H}. Arguments re_version {U H}. Arguments re_version_idx {U H}.
Arguments re_version_crlf {U H}. Arguments re_headers {U H}. Arguments re_headers_crlf {U H}. Arguments re_is_absolute_uri {U H}.

(** What the machine needs of its two parts. *)
Class UriPart (U : Type) := { uri_encode : Z → ST U HttpError Token; uri_set_absolute : bool → U → U }.
Class HeaderPart (H : Type) := { header_part_encode : Z → ST H HttpError Token; header_lines : H → nat }.

#[export] Instance EncodeUri_part : UriPart EncodeUri := {| uri_encode := EncodeUri_encode; uri_set_absolute := eu_set_absolute |}.
#[export] Instance EncodeUriRef_part : UriPart EncodeUriRef := {| uri_encode := EncodeUriRef_encode; uri_set_absolute := ur_set_absolute |}.
#[export] Instance EncodeHeader_part : HeaderPart EncodeHeader :=
  {| header_part_encode := EncodeHeader_encode; header_lines := λ e, length (eh_inner e) |}.
#[export] Instance EncodeHeaderRef_part : HeaderPart EncodeHeaderRef :=
  {| header_part_encode := EncodeHeaderRef_encode; header_lines := λ e, length (hr_inner e) |}.

Section machine.
Context {U H : Type} `{UriPart U} `{HeaderPart H}.
Implicit Types r : Encoder U H.

Definition re_set_status (s : EncodeState) r : Encoder U H :=
  mkEncoder s (re_method r) (re_method_idx r) (re_method_sp r) (re_uri r) (re_uri_sp r) (re_version r) (re_version_idx r)
    (re_version_crlf r) (re_headers r) (re_headers_crlf r) (re_is_absolute_uri r).
Definition re_set_idxs (method msp usp version vcrlf hcrlf : Z) r : Encoder U H :=
  mkEncoder (re_status r) (re_method r) method msp (re_uri r) usp (re_version r) version vcrlf (re_headers r) hcrlf (re_is_absolute_uri r).
Definition re_set_uri (u : U) r : Encoder U H :=
  mkEncoder (re_status r) (re_method r) (re_method_idx r) (re_method_sp r) u (re_uri_sp r) (re_version r) (re_version_idx r)
    (re_version_crlf r) (re_headers r) (re_headers_crlf r) (re_is_absolute_uri r).
Definition re_set_headers (h : H) r : Encoder U H :=
  mkEncoder (re_status r) (re_method r) (re_method_idx r) (re_method_sp r) (re_uri r) (re_uri_sp r) (re_version r) (re_version_idx r)
    (re_version_crlf r) h (re_headers_crlf r) (re_is_absolute_uri r).

(** [absolute_uri]. *)
Definition re_absolute_uri (b : bool) r : Encoder U H :=
  mkEncoder (re_status r) (re_method r) (re_method_idx r) (re_method_sp r) (re_uri r) (re_uri_sp r) (re_version r) (re_version_idx r)
    (re_version_crlf r) (re_headers r) (re_headers_crlf r) b.

(** A token of the message: the status when it is complete, and when not. *)
Definition token (write : ST (Encoder U H) HttpError Token) (done : Encoder U H → Encoder U H) (next this : EncodeState)
  : ST (Encoder U H) HttpError bytes :=
  t ← write;
  match t with
  | Complete out => _ ← modify_st (λ r, re_set_status next (done r)); mret out
  | Partial out => _ ← modify_st (re_set_status this); mret out
  end.

Definition method_encode (room : Z) : ST (Encoder U H) HttpError bytes :=
  r ← get_st;
  token (zoom re_method_idx (λ i r, re_set_idxs i (re_method_sp r) (re_uri_sp r) (re_version_idx r) (re_version_crlf r) (re_headers_crlf r) r)
    (WriteData_write (Method_as_str (re_method r)) room)) id SMethodSp SMethod.
Definition method_sp_encode (room : Z) : ST (Encoder U H) HttpError bytes :=
  token (zoom re_method_sp (λ i r, re_set_idxs (re_method_idx r) i (re_uri_sp r) (re_version_idx r) (re_version_crlf r) (re_headers_crlf r) r)
    (EncodeSp_encode room)) (λ r, re_set_uri (uri_set_absolute (re_is_absolute_uri r) (re_uri r)) r) SUri SMethodSp.
Definition uri_token_encode (room : Z) : ST (Encoder U H) HttpError bytes :=
  token (zoom re_uri re_set_uri (uri_encode room)) id SUriSp SUri.
Definition uri_sp_encode (room : Z) : ST (Encoder U H) HttpError bytes :=
  token (zoom re_uri_sp (λ i r, re_set_idxs (re_method_idx r) (re_method_sp r) i (re_version_idx r) (re_version_crlf r) (re_headers_crlf r) r)
    (EncodeSp_encode room)) id SVersion SUriSp.
Definition version_encode (room : Z) : ST (Encoder U H) HttpError bytes :=
  r ← get_st;
  token (zoom re_version_idx (λ i r, re_set_idxs (re_method_idx r) (re_method_sp r) (re_uri_sp r) i (re_version_crlf r) (re_headers_crlf r) r)
    (WriteData_write (Version_as_str (re_version r)) room)) id SVersionCrlf SVersion.
Definition version_crlf_encode (room : Z) : ST (Encoder U H) HttpError bytes :=
  token (zoom re_version_crlf (λ i r, re_set_idxs (re_method_idx r) (re_method_sp r) (re_uri_sp r) (re_version_idx r) i (re_headers_crlf r) r)
    (EncodeCrlf_encode room)) id SHeader SVersionCrlf.
Definition header_encode (room : Z) : ST (Encoder U H) HttpError bytes :=
  token (zoom re_headers re_set_headers (header_part_encode room)) id SHeaderCrlf SHeader.
Definition header_crlf_encode (room : Z) : ST (Encoder U H) HttpError bytes :=
  token (zoom re_headers_crlf (λ i r, re_set_idxs (re_method_idx r) (re_method_sp r) (re_uri_sp r) (re_version_idx r) (re_version_crlf r) i r)
    (EncodeCrlf_encode room)) id SFinished SHeaderCrlf.

Definition state_encode (s : EncodeState) (room : Z) : ST (Encoder U H) HttpError bytes :=
  match s with
  | SMethod => method_encode room
  | SMethodSp => method_sp_encode room
  | SUri => uri_token_encode room
  | SUriSp => uri_sp_encode room
  | SVersion => version_encode room
  | SVersionCrlf => version_crlf_encode room
  | SHeader => header_encode room
  | SHeaderCrlf => header_crlf_encode room
  | SFinished => mret []
  end.

Fixpoint encode_loop (fuel : nat) (room : Z) : ST (Encoder U H) HttpError bytes :=
  match fuel with
  | O => panic
  | S fuel =>
      if room =? 0 then mret []
      else
        r ← get_st;
        match re_status r with
        | SFinished => mret []
        | s => out ← state_encode s room; more ← encode_loop fuel (room - len out); mret (out ++ more)
        end
  end.

(** A turn fills the buffer or ends a token; a field has four. *)
Definition encode_fuel r : nat := (14 + 4 * header_lines (re_headers r))%nat.

(** [encode]. *)
Definition Encoder_encode (room : Z) : ST (Encoder U H) HttpError bytes :=
  if room =? 0 then throw InvalidInput else r ← get_st; encode_loop (encode_fuel r) room.
End machine.

Abbreviation RequestEncoder := (Encoder EncodeUri EncodeHeader).
Abbreviation RequestRefEncoder := (Encoder EncodeUriRef EncodeHeaderRef).

Definition RequestEncoder_new (p : RequestPart) : result HttpError RequestEncoder :=
  h ← EncodeHeader_new (rp_headers p);
  mret (mkEncoder SMethod (rp_method p) 0 0 (EncodeUri_new (rp_uri p) false) 0 (rp_version p) 0 0 h 0 false).
Definition RequestRefEncoder_new (p : RequestPart) : RequestRefEncoder :=
  mkEncoder SMethod (rp_method p) 0 0 (EncodeUriRef_new (rp_uri p) false) 0 (rp_version p) 0 0 (EncodeHeaderRef_new (rp_headers p)) 0 false.
