(* ===== verification/H1EncoderSpec.v ===== *)
(** * HTTP/1.1 requests: what is written

    The message that [RequestEncoder] and [RequestRefEncoder] of [H1Encoder]
    still have to write, in every state, and that [encode] writes as much of it
    as the buffer holds.  The two encoders then give the same bytes. *)

From S2P Require Import Prelude Headers Message Uri H1Encoder.
#[local] Open Scope Z_scope.

(** ** Writers of tokens

    [todo] is what is left of the token, [weight] bounds the calls that write
    less than the buffer holds. *)

Definition wrote {S} (todo : S → bytes) (ok : S → Prop) (weight : S → nat) (s : S) (room : Z) (r : S * result HttpError Token) : Prop :=
  match r with
  | (_, Ok (Complete out)) => out = todo s ∧ len out ≤ room
  | (s', Ok (Partial out)) => todo s = out ++ todo s' ∧ len out ≤ room ∧ ok s' ∧ (len out = room ∨ (weight s' < weight s)%nat)
  | _ => False
  end.

Class TokenWriter {S} (enc : Z → ST S HttpError Token) (todo : S → bytes) (ok : S → Prop) (weight : S → nat) : Prop :=
  token_writes : ∀ s room, ok s → 0 ≤ room → wrote todo ok weight s room (enc room s).

(** The outcomes of [WriteData::write]. *)
Inductive write_spec (src : bytes) (room i : Z) : Z * result HttpError Token → Prop :=
  | write_all : len (dropZ i src) ≤ room → write_spec src room i (i, Ok (Complete (dropZ i src)))
  | write_some out : len out = room → dropZ i src = out ++ dropZ (i + room) src → 0 ≤ i + room ≤ len src →
      write_spec src room i (i + room, Ok (Partial out)).

Lemma write_ok src room i : 0 ≤ i ≤ len src → 0 ≤ room → write_spec src room i (WriteData_write src room i).
Proof.
  intros Hi Hr. unfold WriteData_write. rewrite bind_st. cbn [get_st]. destruct (Z.ltb_spec (len src) i); [lia|].
  pose proof (len_dropZ i src Hi) as Hd. cbv zeta. destruct (Z.leb_spec (len src - i) room).
  - rewrite takeZ_all by lia. constructor. lia.
  - rewrite bind_st. cbn [put_st]. assert (len (takeZ room (dropZ i src)) = room) as Ht by (apply len_takeZ; lia).
    rewrite Ht. constructor; [done| |lia]. by rewrite <- dropZ_dropZ, takeZ_dropZ by lia.
Qed.

#[export] Instance write_writer src : TokenWriter (WriteData_write src) (λ i, dropZ i src) (λ i, 0 ≤ i ≤ len src) (λ _, O).
Proof. intros i room Hi Hr. destruct (write_ok src room i Hi Hr) as [H|out Ho Hd Hb]; cbn; [done|]. split_and!; [done|lia|lia|lia|by left]. Qed.

(** ** URIs *)

Definition eu_text (e : EncodeUri) : bytes := if eu_is_absolute e then eu_absolute e else eu_origin e.
Definition eu_todo (e : EncodeUri) : bytes := dropZ (eu_idx e) (eu_text e).
Definition eu_ok (e : EncodeUri) : Prop := 0 ≤ eu_idx e ≤ len (eu_text e).

#[export] Instance EncodeUri_writer : TokenWriter EncodeUri_encode eu_todo eu_ok (λ _, O).
Proof.
  intros e room He Hr. unfold EncodeUri_encode. rewrite bind_st. cbn [get_st]. fold (eu_text e). unfold zoom.
  destruct (write_ok (eu_text e) room (eu_idx e) He Hr) as [H|out Ho Hd Hb]; cbn; [done|].
  split_and!; [exact Hd|lia|exact Hb|by left].
Qed.

Definition ur_text (e : EncodeUriRef) : bytes := if ur_is_absolute e then Uri_to_string (ur_inner e) else origin_form (ur_inner e).
Definition ur_todo (e : EncodeUriRef) : bytes := dropZ (ur_idx e) (ur_text e).
Definition ur_ok (e : EncodeUriRef) : Prop :=
  0 ≤ ur_idx e ≤ len (ur_text e) ∧
  (∀ t, ur_absolute e = Some t → t = Uri_to_string (ur_inner e)) ∧ (∀ t, ur_origin e = Some t → t = origin_form (ur_inner e)).

#[export] Instance EncodeUriRef_writer : TokenWriter EncodeUriRef_encode ur_todo ur_ok (λ _, O).
Proof.
  intros e room (He & Ha & Ho) Hr. unfold EncodeUriRef_encode. rewrite bind_st. cbn [modify_st]. rewrite bind_st. cbn [get_st].
  assert (ur_is_absolute (ur_fill e) = ur_is_absolute e ∧ ur_idx (ur_fill e) = ur_idx e ∧ ur_inner (ur_fill e) = ur_inner e ∧
    (if ur_is_absolute e then ur_absolute (ur_fill e) else ur_origin (ur_fill e)) = Some (ur_text e) ∧
    (∀ t, ur_absolute (ur_fill e) = Some t → t = Uri_to_string (ur_inner e)) ∧
    (∀ t, ur_origin (ur_fill e) = Some t → t = origin_form (ur_inner e))) as (E1 & E2 & E3 & E4 & E5 & E6).
  { unfold ur_fill, ur_text. destruct (ur_is_absolute e) eqn:E; cbn; rewrite ?E; split_and!; try done.
    - destruct (ur_absolute e) as [t|]; cbn; [by rewrite (Ha t eq_refl)|done].
    - intros t [= <-]. destruct (ur_absolute e) as [t|]; cbn; [by apply Ha|done].
    - destruct (ur_origin e) as [t|]; cbn; [by rewrite (Ho t eq_refl)|done].
    - intros t [= <-]. destruct (ur_origin e) as [t|]; cbn; [by apply Ho|done]. }
  rewrite E1, E4. unfold zoom. rewrite E2.
  destruct (write_ok (ur_text e) room (ur_idx e) He Hr) as [H|out Hout Hd Hb]; cbn; [done|].
  assert (ur_text (ur_set_idx (ur_idx e + room) (ur_fill e)) = ur_text e) as Ht by (unfold ur_text; cbn; by rewrite E1, E3).
  unfold ur_todo, ur_ok. rewrite Ht. cbn. rewrite E3. split_and!; [done|lia|lia|lia|done|done|by left].
Qed.

(** ** Header fields *)

Definition field_line (h : bytes * HeaderValue) : bytes := h.1 ++ bs ":" ++ HeaderValue_to_vec h.2 ++ [13; 10].
Definition field_lines (hs : list (bytes * HeaderValue)) : bytes := hs ≫= field_line.

Lemma field_lines_cons h hs : field_lines (h :: hs) = field_line h ++ field_lines hs.
Proof. done. Qed.

Definition status_weight (s : option HeaderStatus) : nat :=
  match s with Some HName => 4 | Some HColon => 3 | Some HValue => 2 | Some (HCrlf _) => 1 | _ => 0 end.

Definition eh_todo (e : EncodeHeader) : bytes :=
  let colon := dropZ (eh_colon_idx e) (bs ":") in
  let value := dropZ (eh_value_idx e) (eh_value e) in
  let more := field_lines (eh_inner e) in
  match eh_status e with
  | Some HName => dropZ (eh_name_idx e) (eh_name e) ++ colon ++ value ++ [13; 10] ++ more
  | Some HColon => colon ++ value ++ [13; 10] ++ more
  | Some HValue => value ++ [13; 10] ++ more
  | Some (HCrlf i) => dropZ i [13; 10] ++ more
  | Some HEmpty | None => []
  end.

Definition eh_ok (e : EncodeHeader) : Prop :=
  eh_status e ≠ None ∧ 0 ≤ eh_name_idx e ≤ len (eh_name e) ∧ 0 ≤ eh_colon_idx e ≤ 1 ∧ 0 ≤ eh_value_idx e ≤ len (eh_value e) ∧
  (∀ i, eh_status e = Some (HCrlf i) → 0 ≤ i ≤ 2).

Definition eh_weight (e : EncodeHeader) : nat := (4 * length (eh_inner e) + status_weight (eh_status e))%nat.

#[local] Ltac header_done := repeat (rewrite bind_st; cbn [modify_st put_st mret ST_ret]); unfold wrote, eh_todo, eh_ok, eh_weight, eh_to; cbn -[dropZ takeZ bs field_lines]; split_and!;
  first [done | lia | by left | (right; lia) | (intros ? [= <-]; lia) | idtac].

#[export] Instance EncodeHeader_writer : TokenWriter EncodeHeader_encode eh_todo eh_ok eh_weight.
Proof.
  intros [inner st name value ni ci vi] room (Hst & Hn & Hc & Hv & Hi) Hr. cbn -[bs] in *.
  unfold EncodeHeader_encode. rewrite bind_st. cbn [get_st]. rewrite bind_st. cbn [modify_st eh_status].
  destruct st as [[| | |i|]|]; [..|done].
  - unfold EncodeHeader_encode_name. rewrite bind_st. cbn [get_st]. unfold line_part. rewrite bind_st. unfold eh_on_name, zoom. cbn [eh_name_idx eh_name eh_set_status].
    destruct (write_ok name room ni Hn Hr) as [H|out Ho Hd Hb]; cbn -[dropZ bs].
    + header_done.
    + header_done. by rewrite Hd, <- app_assoc.
  - unfold EncodeHeader_encode_colon. unfold line_part. rewrite bind_st. unfold eh_on_colon, zoom. cbn [eh_colon_idx eh_set_status].
    destruct (write_ok (bs ":") room ci Hc Hr) as [H|out Ho Hd Hb]; cbn -[dropZ bs].
    + header_done.
    + change (len (bs ":")) with 1 in Hb. header_done. by rewrite Hd, <- app_assoc.
  - unfold EncodeHeader_encode_value. rewrite bind_st. cbn [get_st]. unfold line_part. rewrite bind_st. unfold eh_on_value, zoom. cbn [eh_value_idx eh_value eh_set_status].
    destruct (write_ok value room vi Hv Hr) as [H|out Ho Hd Hb]; cbn -[dropZ bs].
    + header_done.
    + header_done. by rewrite Hd, <- app_assoc.
  - specialize (Hi i eq_refl). unfold EncodeHeader_encode_crlf, EncodeCrlf_encode.
    destruct (write_ok [13; 10] room i Hi Hr) as [H|out Ho Hd Hb].
    + rewrite bind_st. cbn [lift_res]. rewrite bind_st. cbn [get_st eh_inner eh_set_status]. destruct inner as [|[n v] inner].
      * cbn -[dropZ]. split; [by rewrite app_nil_r|done].
      * cbn -[dropZ bs]. header_done; try len_lia. unfold field_lines. rewrite bind_cons. unfold field_line. cbn [fst snd].
        by rewrite !dropZ_0, <- !app_assoc.
    + rewrite bind_st. cbn [lift_res]. rewrite bind_st. cbn -[dropZ bs]. change (len [13; 10]) with 2 in Hb. header_done.
      by rewrite Hd, <- app_assoc.
  - cbn. done.
Qed.

(** *** Borrowed fields *)

Lemma to_vec_from_S n inner : to_vec_from (S n) inner = to_vec_from 1 inner.
Proof. revert n. induction inner as [|i inner IH]; intros n; [done|]. cbn. by rewrite (IH (S n)), (IH 1%nat). Qed.

(** The values that are left of a field. *)
Definition hr_value_todo (e : EncodeHeaderRef) : bytes :=
  let iter := from_option id [] (hr_value_iter e) in
  match hr_value_part e with
  | Some p => (if hr_needs_separator e then dropZ (hr_separator_idx e) (bs ", ") else []) ++ dropZ (hr_value_idx e) p ++ to_vec_from 1 iter
  | None => to_vec_from (if hr_parts_written e =? 0 then 0 else 1) iter
  end.

Definition hr_value_ok (e : EncodeHeaderRef) : Prop :=
  0 ≤ hr_parts_written e ∧
  match hr_value_part e with
  | Some p => 0 ≤ hr_value_idx e ≤ len p ∧ 0 ≤ hr_separator_idx e ≤ 2
  | None => True
  end.

(** What the loop over the values leaves alone. *)
Definition hr_same (e e' : EncodeHeaderRef) : Prop :=
  hr_inner e' = hr_inner e ∧ hr_name e' = hr_name e ∧ hr_name_idx e' = hr_name_idx e ∧ hr_colon_idx e' = hr_colon_idx e.

Lemma hr_next_part_ok e : hr_value_ok e →
  (hr_next_part e = (hr_to (HCrlf 0) e, Ok false) ∧ hr_value_todo e = [] ∧ hr_value_part e = None) ∨
  (∃ e' p, hr_next_part e = (e', Ok true) ∧ hr_value_part e' = Some p ∧ hr_value_ok e' ∧ hr_value_todo e' = hr_value_todo e ∧ hr_same e e' ∧
    (length (from_option id [] (hr_value_iter e')) = length (from_option id [] (hr_value_iter e)) ∧ hr_value_part e = Some p ∨
     S (length (from_option id [] (hr_value_iter e'))) = length (from_option id [] (hr_value_iter e)))).
Proof.
  intros [Hw Hp]. unfold hr_next_part. rewrite bind_st. cbn [get_st]. destruct (hr_value_part e) as [p|] eqn:Ep.
  { right. exists e, p. unfold hr_value_ok, hr_same. rewrite Ep. split_and!; try done; [tauto..|by left]. }
  destruct (hr_value_iter e) as [[|p iter]|] eqn:Ei.
  - left. unfold hr_value_todo. by rewrite Ep, Ei.
  - right. eexists _, p. split; [done|]. unfold hr_value_ok, hr_value_todo, hr_same. cbn -[bs dropZ to_vec_from]. rewrite Ep, Ei.
    split_and!; try done; try lia; try len_lia; try (by right).
    cbn -[bs dropZ]. rewrite !dropZ_0. destruct (hr_parts_written e =? 0); cbn -[bs]; [done|]. by rewrite (to_vec_from_S 1).
  - left. unfold hr_value_todo. by rewrite Ep, Ei.
Qed.

(** A step of the loop that writes: all of its part, or what there is room for. *)
Definition hr_wrote (e : EncodeHeaderRef) (room : Z) (r : EncodeHeaderRef * result HttpError Token) (after : EncodeHeaderRef → Prop) : Prop :=
  match r with
  | (e', Ok (Complete out)) => hr_value_todo e = out ++ hr_value_todo e' ∧ len out ≤ room ∧ hr_value_ok e' ∧ hr_same e e' ∧
      hr_value_iter e' = hr_value_iter e ∧ after e'
  | (e', Ok (Partial out)) => hr_value_todo e = out ++ hr_value_todo e' ∧ len out = room ∧ hr_value_ok e' ∧ hr_same e e' ∧
      hr_status e' = Some HValue
  | _ => False
  end.

Lemma hr_separator_ok e p room : hr_value_ok e → hr_value_part e = Some p → 0 ≤ room →
  hr_wrote e room (hr_separator room e) (λ e', hr_value_part e' = Some p ∧ hr_needs_separator e' = false).
Proof.
  intros [Hw Hp] Ep Hr. rewrite Ep in Hp. unfold hr_separator. rewrite bind_st. cbn [get_st].
  destruct (hr_needs_separator e) eqn:En.
  - rewrite bind_st. unfold hr_on_separator, zoom. destruct (write_ok (bs ", ") room (hr_separator_idx e) (proj2 Hp) Hr) as [H|out Ho Hd Hb];
      repeat (rewrite bind_st; cbn [modify_st mret ST_ret]); unfold hr_wrote, hr_value_todo, hr_value_ok, hr_same, hr_to;
      cbn -[dropZ bs to_vec_from]; rewrite ?Ep, ?En.
    + split_and!; done || lia.
    + change (len (bs ", ")) with 2 in Hb. split_and!; try done || lia. by rewrite Hd, <- !app_assoc.
  - unfold hr_wrote, hr_same, hr_value_ok. cbn. rewrite Ep. split_and!; done || lia.
Qed.

Lemma hr_write_part_ok e p room : hr_value_ok e → hr_value_part e = Some p → hr_needs_separator e = false → 0 ≤ room →
  hr_wrote e room (hr_write_part room e) (λ e', hr_value_part e' = None).
Proof.
  intros [Hw Hp] Ep En Hr. rewrite Ep in Hp. unfold hr_write_part. rewrite bind_st. cbn [get_st]. rewrite Ep.
  rewrite bind_st. unfold hr_on_value, zoom. destruct (write_ok p room (hr_value_idx e) (proj1 Hp) Hr) as [H|out Ho Hd Hb];
    repeat (rewrite bind_st; cbn [modify_st mret ST_ret]); unfold hr_wrote, hr_value_todo, hr_value_ok, hr_same, hr_to;
    cbn -[dropZ bs to_vec_from]; rewrite ?Ep, ?En.
  - split_and!; try done || lia. destruct (Z.eqb_spec (hr_parts_written e + 1) 0); [lia|done].
  - split_and!; try done || lia. by rewrite Hd, <- !app_assoc.
Qed.

Lemma hr_same_trans e1 e2 e3 : hr_same e1 e2 → hr_same e2 e3 → hr_same e1 e3.
Proof. unfold hr_same. intuition congruence. Qed.

Lemma hr_value_loop_ok fuel room written e :
  hr_value_ok e → len written ≤ room →
  (length (from_option id [] (hr_value_iter e)) + (match hr_value_part e with Some _ => 2 | None => 1 end) ≤ fuel)%nat →
  ∃ e' w, hr_value_loop fuel room written e = (e', Ok (Partial (written ++ w))) ∧ hr_same e e' ∧ len (written ++ w) ≤ room ∧
    ((hr_status e' = Some (HCrlf 0) ∧ w = hr_value_todo e) ∨
     (hr_status e' = Some HValue ∧ hr_value_ok e' ∧ hr_value_todo e = w ++ hr_value_todo e' ∧ len (written ++ w) = room)).
Proof.
  revert written e. induction fuel as [|fuel IH]; intros written e He Hw Hf; [destruct (hr_value_part e); lia|].
  cbn [hr_value_loop]. rewrite bind_st. destruct (hr_next_part_ok e He) as [(-> & Ht & _)|(e1 & p & -> & Ep & H1 & T1 & S1 & Hn)]; cbn [negb].
  { eexists _, []. rewrite app_nil_r. split_and!; [done|done|done|by left]. }
  rewrite bind_st. pose proof (hr_separator_ok e1 p (room - len written) H1 Ep ltac:(lia)) as H2.
  destruct (hr_separator (room - len written) e1) as [e2 [[o2|o2]| |]]; try done.
  - destruct H2 as (T2 & L2 & H2 & S2 & I2 & Ep2 & En2). cbv zeta. rewrite bind_st.
    pose proof (hr_write_part_ok e2 p (room - len (written ++ o2)) H2 Ep2 En2 ltac:(len_lia)) as H3.
    destruct (hr_write_part (room - len (written ++ o2)) e2) as [e3 [[o3|o3]| |]]; try done.
    + destruct H3 as (T3 & L3 & H3 & S3 & I3 & Ep3).
      destruct (IH ((written ++ o2) ++ o3) e3) as (e4 & w & -> & S4 & L4 & Hend); [done|len_lia| |].
      { rewrite Ep3, I3, I2. destruct (hr_value_part e); destruct Hn as [[Hn ?]|Hn]; simplify_eq; lia. }
      exists e4, (o2 ++ o3 ++ w). rewrite !app_assoc. split_and!; [done|by do 3 (eapply hr_same_trans; [eassumption|])|done|].
      rewrite <- T1, T2, T3. destruct Hend as [[Hst ->]|(Hst & Hok & -> & Hl)]; [left; by rewrite app_assoc|].
      right. split_and!; [done|done|by rewrite !app_assoc|done].
    + destruct H3 as (T3 & L3 & H3 & S3 & Hst). exists e3, (o2 ++ o3). rewrite app_assoc.
      split_and!; [done|by do 2 (eapply hr_same_trans; [eassumption|])|len_lia|right]. rewrite <- T1, T2, T3.
      split_and!; [done|done|by rewrite app_assoc|len_lia].
  - destruct H2 as (T2 & L2 & H2 & S2 & Hst). exists e2, o2. split_and!; [done|by eapply hr_same_trans|len_lia|right].
    rewrite <- T1. split_and!; [done|done|done|len_lia].
Qed.

Definition hr_todo (e : EncodeHeaderRef) : bytes :=
  let colon := dropZ (hr_colon_idx e) (bs ":") in
  let more := field_lines (hr_inner e) in
  match hr_status e with
  | Some HName => dropZ (hr_name_idx e) (from_option id [] (hr_name e)) ++ colon ++ hr_value_todo e ++ [13; 10] ++ more
  | Some HColon => colon ++ hr_value_todo e ++ [13; 10] ++ more
  | Some HValue => hr_value_todo e ++ [13; 10] ++ more
  | Some (HCrlf i) => dropZ i [13; 10] ++ more
  | Some HEmpty | None => []
  end.

Definition hr_ok (e : EncodeHeaderRef) : Prop :=
  match hr_status e with
  | Some HName => hr_value_ok e ∧ 0 ≤ hr_colon_idx e ≤ 1 ∧ ∃ n, hr_name e = Some n ∧ 0 ≤ hr_name_idx e ≤ len n
  | Some HColon => hr_value_ok e ∧ 0 ≤ hr_colon_idx e ≤ 1
  | Some HValue => hr_value_ok e
  | Some (HCrlf i) => 0 ≤ i ≤ 2
  | Some HEmpty => True
  | None => False
  end.

Definition hr_weight (e : EncodeHeaderRef) : nat := (4 * length (hr_inner e) + status_weight (hr_status e))%nat.

#[local] Ltac href_done := repeat (rewrite bind_st; cbn [modify_st put_st mret ST_ret]);
  unfold wrote, hr_todo, hr_ok, hr_weight, hr_to; cbn -[dropZ takeZ bs field_lines hr_value_todo hr_value_ok]; split_and!;
  first [done | lia | by left | (right; lia) | idtac].

#[export] Instance EncodeHeaderRef_writer : TokenWriter EncodeHeaderRef_encode hr_todo hr_ok hr_weight.
Proof.
  intros e room He Hr. unfold EncodeHeaderRef_encode. rewrite bind_st. cbn [get_st]. rewrite bind_st. cbn [modify_st].
  unfold hr_ok in He. unfold wrote at 1, hr_todo at 1 2, hr_weight at 2. set (e0 := hr_set_status None e).
  assert (hr_value_todo e0 = hr_value_todo e ∧ hr_inner e0 = hr_inner e ∧ hr_name e0 = hr_name e ∧ hr_name_idx e0 = hr_name_idx e ∧
    hr_colon_idx e0 = hr_colon_idx e ∧ hr_value_ok e0 = hr_value_ok e) as (E1 & E2 & E3 & E4 & E5 & E6) by done.
  destruct (hr_status e) as [[| | |i|]|] eqn:Est; [..|done].
  - destruct He as (Hv & Hc & n & En & Hn). rewrite En. unfold EncodeHeaderRef_encode_name. rewrite bind_st. cbn [get_st]. rewrite E3, En.
    unfold line_part. rewrite bind_st. unfold hr_on_name, zoom. rewrite E4.
    destruct (write_ok n room (hr_name_idx e) Hn Hr) as [H|out Ho Hd Hb]; href_done.
    + rewrite Hd, <- app_assoc. cbn. rewrite En. done.
    + by exists n.
  - destruct He as (Hv & Hc). unfold EncodeHeaderRef_encode_colon. unfold line_part. rewrite bind_st. unfold hr_on_colon, zoom. rewrite E5.
    destruct (write_ok (bs ":") room (hr_colon_idx e) Hc Hr) as [H|out Ho Hd Hb]; change (len (bs ":")) with 1 in *; href_done.
    by rewrite Hd, <- app_assoc.
  - unfold EncodeHeaderRef_encode_value. rewrite bind_st. cbn [get_st].
    destruct (hr_value_loop_ok (hr_value_fuel e0) room [] e0) as (e' & w & -> & (S1 & S2 & S3 & S4) & Hl & Hend).
    { by rewrite E6. } { len_lia. } { unfold hr_value_fuel. destruct (hr_value_part e0); lia. }
    cbn [app] in *. rewrite E1 in Hend. rewrite E2 in S1. destruct Hend as [[Hst ->]|(Hst & Hok & -> & Hlen)]; href_done.
    all: rewrite ?Hst, ?S1; cbn -[dropZ hr_value_todo hr_value_ok]. all: try done; try lia. by rewrite <- app_assoc.
  - unfold EncodeHeaderRef_encode_crlf, EncodeCrlf_encode. destruct (write_ok [13; 10] room i He Hr) as [H|out Ho Hd Hb].
    + rewrite bind_st. cbn [lift_res]. rewrite bind_st. cbn [get_st]. rewrite E2. destruct (hr_inner e) as [|[n v] inner].
      * cbn -[dropZ]. split; [by rewrite app_nil_r|done].
      * href_done; try len_lia; [|exists n; split; [done|len_lia]]. rewrite field_lines_cons. unfold field_line, HeaderValue_to_vec. cbn [fst snd].
        rewrite !dropZ_0, <- !app_assoc. done.
    + rewrite bind_st. cbn [lift_res]. change (len [13; 10]) with 2 in Hb. href_done. by rewrite Hd, <- app_assoc.
  - done.
Qed.

(** ** The machine *)

(** What the machine relies on: how a URI that was not written yet is
    written, and the calls that a header part may need. *)
Class UriLaws (U : Type) `{UriPart U} (utodo : U → bytes) (uok : U → Prop) (fresh : U → Prop) (text : bool → U → bytes) : Prop := {
  uri_writer :: TokenWriter uri_encode utodo uok (λ _, O);
  uri_absolute : ∀ b u, fresh u → uok (uri_set_absolute b u) ∧ utodo (uri_set_absolute b u) = text b u }.

Class HeaderLaws (H : Type) `{HeaderPart H} (htodo : H → bytes) (hok : H → Prop) (hweight : H → nat) : Prop := {
  header_writer :: TokenWriter header_part_encode htodo hok hweight;
  header_weight : ∀ h, (hweight h ≤ 4 + 4 * header_lines h)%nat }.

#[export] Instance EncodeUri_laws :
  UriLaws EncodeUri eu_todo eu_ok (λ u, eu_idx u = 0) (λ b u, if b then eu_absolute u else eu_origin u).
Proof. split; [apply _|]. intros b [a o i s] Hi. cbn in *. subst i. unfold eu_ok, eu_todo, eu_text. cbn. split; [len_lia|done]. Qed.

#[export] Instance EncodeUriRef_laws :
  UriLaws EncodeUriRef ur_todo ur_ok (λ u, ur_idx u = 0 ∧ ur_absolute u = None ∧ ur_origin u = None)
    (λ b u, if b then Uri_to_string (ur_inner u) else origin_form (ur_inner u)).
Proof.
  split; [apply _|]. intros b [u a o i s] (Hi & Ha & Ho). cbn in *. subst. unfold ur_ok, ur_todo, ur_text. cbn. split; [|done].
  split_and!; [done|len_lia|done|done].
Qed.

Lemma status_weight_le s : (status_weight s ≤ 4)%nat.
Proof. destruct s as [[]|]; cbn; lia. Qed.

#[export] Instance EncodeHeader_laws : HeaderLaws EncodeHeader eh_todo eh_ok eh_weight.
Proof. split; [apply _|]. intros h. unfold eh_weight. pose proof (status_weight_le (eh_status h)). cbn. lia. Qed.

#[export] Instance EncodeHeaderRef_laws : HeaderLaws EncodeHeaderRef hr_todo hr_ok hr_weight.
Proof. split; [apply _|]. intros h. unfold hr_weight. pose proof (status_weight_le (hr_status h)). cbn. lia. Qed.

Section machine.
Context {U H : Type} `{UriPart U} `{HeaderPart H}.
Context {utodo : U → bytes} {uok fresh : U → Prop} {text : bool → U → bytes} `{!UriLaws U utodo uok fresh text}.
Context {htodo : H → bytes} {hok : H → Prop} {hweight : H → nat} `{!HeaderLaws H htodo hok hweight}.
Implicit Types r : Encoder U H.

(** What is left of the message. *)
Definition re_tail (n : nat) r : bytes :=
  concat (drop n [dropZ (re_method_idx r) (Method_as_str (re_method r)); dropZ (re_method_sp r) (bs " "); utodo (re_uri r);
    dropZ (re_uri_sp r) (bs " "); dropZ (re_version_idx r) (Version_as_str (re_version r)); dropZ (re_version_crlf r) [13; 10];
    htodo (re_headers r); dropZ (re_headers_crlf r) [13; 10]]).

Definition state_index (s : EncodeState) : nat :=
  match s with SMethod => 0 | SMethodSp => 1 | SUri => 2 | SUriSp => 3 | SVersion => 4 | SVersionCrlf => 5 | SHeader => 6 | SHeaderCrlf => 7 | SFinished => 8 end.

Definition re_todo r : bytes :=
  let uri := text (re_is_absolute_uri r) (re_uri r) in
  match re_status r with
  | SMethod => dropZ (re_method_idx r) (Method_as_str (re_method r)) ++ dropZ (re_method_sp r) (bs " ") ++ uri ++ re_tail 3 r
  | SMethodSp => dropZ (re_method_sp r) (bs " ") ++ uri ++ re_tail 3 r
  | s => re_tail (state_index s) r
  end.

Record re_ok r : Prop := {
  ok_method : 0 ≤ re_method_idx r ≤ len (Method_as_str (re_method r));
  ok_method_sp : 0 ≤ re_method_sp r ≤ 1;
  ok_fresh : (state_index (re_status r) < 2)%nat → fresh (re_uri r);
  ok_uri : re_status r = SUri → uok (re_uri r);
  ok_uri_sp : 0 ≤ re_uri_sp r ≤ 1;
  ok_version : 0 ≤ re_version_idx r ≤ len (Version_as_str (re_version r));
  ok_version_crlf : 0 ≤ re_version_crlf r ≤ 2;
  ok_header : (state_index (re_status r) < 7)%nat → hok (re_headers r);
  ok_header_crlf : 0 ≤ re_headers_crlf r ≤ 2 }.

Definition re_weight r : nat :=
  (8 - state_index (re_status r) + (if decide (state_index (re_status r) < 7)%nat then hweight (re_headers r) else 0))%nat.

(** A turn of the loop. *)
Definition turned r (room : Z) (x : Encoder U H * result HttpError bytes) : Prop :=
  match x with
  | (r', Ok out) => re_todo r = out ++ re_todo r' ∧ len out ≤ room ∧ re_ok r' ∧ (len out = room ∨ (re_weight r' < re_weight r)%nat)
  | _ => False
  end.

#[local] Ltac turn_done Hst :=
  repeat (rewrite bind_st; cbn [modify_st put_st mret ST_ret]); unfold turned, re_todo, re_weight, re_tail; rewrite ?Hst;
  cbn -[dropZ bs Method_as_str Version_as_str]; rewrite ?Hst; cbn -[dropZ bs Method_as_str Version_as_str]; split_and!;
  [ try done | lia | constructor; cbn -[bs Method_as_str Version_as_str]; rewrite ?Hst; cbn; first [done | lia | (intros; lia) | idtac]
    | first [by left | right; repeat case_decide; lia | idtac]].
#[local] Ltac rest_done Hd := rewrite Hd, <- !app_assoc; done.

Lemma turn_token r room : re_ok r → 0 < room → re_status r ≠ SFinished → re_status r ≠ SUri → re_status r ≠ SHeader → re_status r ≠ SMethodSp →
  turned r room (state_encode (re_status r) room r).
Proof.
  intros [Hm Hmsp Hfr Huri Husp Hv Hvc Hh Hhc] Hr Hn1 Hn2 Hn3 Hn4.
  destruct (re_status r) eqn:Hst; cbn [state_encode state_index] in *; try done; try specialize (Hfr ltac:(lia)); try specialize (Hh ltac:(lia)).
  - unfold method_encode, token, zoom. rewrite bind_st. cbn [get_st]. rewrite bind_st.
    destruct (write_ok (Method_as_str (re_method r)) room (re_method_idx r) Hm ltac:(lia)) as [Hl|out Ho Hd Hb]; turn_done Hst. rest_done Hd.
  - unfold uri_sp_encode, token, zoom. rewrite bind_st. unfold EncodeSp_encode.
    destruct (write_ok (bs " ") room (re_uri_sp r) Husp ltac:(lia)) as [Hl|out Ho Hd Hb]; change (len (bs " ")) with 1 in *; turn_done Hst. rest_done Hd.
  - unfold version_encode, token, zoom. rewrite bind_st. cbn [get_st]. rewrite bind_st.
    destruct (write_ok (Version_as_str (re_version r)) room (re_version_idx r) Hv ltac:(lia)) as [Hl|out Ho Hd Hb]; turn_done Hst. rest_done Hd.
  - unfold version_crlf_encode, token, zoom. rewrite bind_st. unfold EncodeCrlf_encode.
    destruct (write_ok [13; 10] room (re_version_crlf r) Hvc ltac:(lia)) as [Hl|out Ho Hd Hb]; change (len [13; 10]) with 2 in *; turn_done Hst. rest_done Hd.
  - unfold header_crlf_encode, token, zoom. rewrite bind_st. unfold EncodeCrlf_encode.
    destruct (write_ok [13; 10] room (re_headers_crlf r) Hhc ltac:(lia)) as [Hl|out Ho Hd Hb]; change (len [13; 10]) with 2 in *; turn_done Hst. rest_done Hd.
Qed.

Lemma turn_method_sp r room : re_ok r → 0 < room → re_status r = SMethodSp → turned r room (method_sp_encode room r).
Proof.
  intros [Hm Hmsp Hfr Huri Husp Hv Hvc Hh Hhc] Hr Hst. rewrite Hst in *. cbn [state_index] in *. specialize (Hfr ltac:(lia)). specialize (Hh ltac:(lia)).
  destruct (uri_absolute (re_is_absolute_uri r) (re_uri r) Hfr) as [Hok Htodo].
  unfold method_sp_encode, token, zoom. rewrite bind_st. unfold EncodeSp_encode.
  destruct (write_ok (bs " ") room (re_method_sp r) Hmsp ltac:(lia)) as [Hl|out Ho Hd Hb]; change (len (bs " ")) with 1 in *; turn_done Hst.
  - by rewrite Htodo.
  - rest_done Hd.
Qed.

Lemma turn_uri r room : re_ok r → 0 < room → re_status r = SUri → turned r room (uri_token_encode room r).
Proof.
  intros [Hm Hmsp Hfr Huri Husp Hv Hvc Hh Hhc] Hr Hst. rewrite Hst in *. cbn [state_index] in *. specialize (Hh ltac:(lia)).
  unfold uri_token_encode, token, zoom. rewrite bind_st. pose proof (token_writes (re_uri r) room (Huri eq_refl) ltac:(lia)) as Hw.
  destruct (uri_encode room (re_uri r)) as [u [[out|out]| |]]; try done; cbn in Hw.
  - destruct Hw as [-> Hl]. turn_done Hst.
  - destruct Hw as (Hd & Hl & Hok & [Ho|Ho]); [|lia]. turn_done Hst. rest_done Hd.
Qed.

Lemma turn_header r room : re_ok r → 0 < room → re_status r = SHeader → turned r room (header_encode room r).
Proof.
  intros [Hm Hmsp Hfr Huri Husp Hv Hvc Hh Hhc] Hr Hst. rewrite Hst in *. cbn [state_index] in *. specialize (Hh ltac:(lia)).
  unfold header_encode, token, zoom. rewrite bind_st. pose proof (token_writes (re_headers r) room Hh ltac:(lia)) as Hw.
  destruct (header_part_encode room (re_headers r)) as [h [[out|out]| |]]; try done; cbn in Hw.
  - destruct Hw as [-> Hl]. turn_done Hst.
  - destruct Hw as (Hd & Hl & Hok & Ho). turn_done Hst; [rest_done Hd|]. destruct Ho; [by left|right]. repeat case_decide; lia.
Qed.

Lemma turn_ok r room : re_ok r → 0 < room → re_status r ≠ SFinished → turned r room (state_encode (re_status r) room r).
Proof.
  intros Hok Hr Hne. destruct (decide (re_status r = SMethodSp)) as [E|]; [rewrite E; by apply turn_method_sp|].
  destruct (decide (re_status r = SUri)) as [E|]; [rewrite E; by apply turn_uri|].
  destruct (decide (re_status r = SHeader)) as [E|]; [rewrite E; by apply turn_header|]. by apply turn_token.
Qed.

(** What a call of [encode] has written. *)
Definition written r (room : Z) (x : Encoder U H * result HttpError bytes) : Prop :=
  match x with
  | (r', Ok out) => re_todo r = out ++ re_todo r' ∧ re_ok r' ∧ (len out = room ∨ len out ≤ room ∧ re_status r' = SFinished)
  | _ => False
  end.

Lemma encode_loop_ok fuel r room : re_ok r → 0 ≤ room → (re_weight r + 1 < fuel)%nat → written r room (encode_loop fuel room r).
Proof.
  revert r room. induction fuel as [|fuel IH]; intros r room Hok Hr Hf; [lia|]. cbn [encode_loop].
  destruct (Z.eqb_spec room 0) as [->|Hne]; [cbn; by split_and!; [..|left]|]. rewrite bind_st. cbn [get_st].
  destruct (decide (re_status r = SFinished)) as [E|E].
  { rewrite E. cbn. split_and!; [done|done|right; split; [len_lia|done]]. }
  replace (match re_status r with SFinished => mret [] | s => out ← state_encode s room; more ← encode_loop fuel (room - len out); mret (out ++ more) end)
    with (out ← state_encode (re_status r) room; more ← encode_loop fuel (room - len out); mret (out ++ more)) by (by destruct (re_status r)).
  rewrite bind_st. pose proof (turn_ok r room Hok ltac:(lia) E) as Ht. destruct (state_encode (re_status r) room r) as [r1 [out| |]]; [|done..].
  destruct Ht as (Hd & Hl & Hok1 & Hp). rewrite bind_st.
  assert (written r1 (room - len out) (encode_loop fuel (room - len out) r1)) as Hw.
  { destruct (decide (len out = room)) as [Heq|Hlt]; [|apply IH; [done|lia|destruct Hp; [lia|lia]]].
    rewrite Heq, Z.sub_diag. destruct fuel; [|cbn; by split_and!; [..|left]].
    assert (re_weight r = 0)%nat as Hw0 by lia. unfold re_weight in Hw0. destruct (re_status r); cbn in Hw0; try lia; done. }
  destruct (encode_loop fuel (room - len out) r1) as [r2 [more| |]]; [|done..]. destruct Hw as (Hd2 & Hok2 & Hend). cbn.
  split_and!; [by rewrite Hd, Hd2, app_assoc|done|]. rewrite len_app. destruct Hend as [?|[? ?]]; [left; lia|right; split; [lia|done]].
Qed.

Lemma Encoder_encode_ok r room : re_ok r → 0 < room → written r room (Encoder_encode room r).
Proof.
  intros Hok Hr. unfold Encoder_encode. destruct (Z.eqb_spec room 0); [lia|]. rewrite bind_st. cbn [get_st].
  apply encode_loop_ok; [done|lia|]. unfold re_weight, encode_fuel. pose proof (header_weight (re_headers r)).
  destruct (re_status r); cbn; case_decide; lia.
Qed.
End machine.

(** ** Whole messages *)

(** A request message: the request line, the fields, an empty
    line. *)
Definition request_message (absolute : bool) (p : RequestPart) : bytes :=
  Method_as_str (rp_method p) ++ bs " " ++ (if absolute then Uri_to_string (rp_uri p) else origin_form (rp_uri p)) ++ bs " " ++
  Version_as_str (rp_version p) ++ [13; 10] ++ field_lines (rp_headers p) ++ [13; 10].

(** Calls of [encode] with buffers of the given sizes. *)
Fixpoint encode_calls {U H} `{UriPart U} `{HeaderPart H} (rooms : list Z) (r : Encoder U H) : result HttpError (list bytes) :=
  match rooms with
  | [] => Ok []
  | room :: rooms =>
      match Encoder_encode room r with
      | (r', Ok out) => outs ← encode_calls rooms r'; mret (out :: outs)
      | (_, Err e) => Err e
      | (_, Panic) => Panic
      end
  end.

(** A text cut at the given sizes. *)
Fixpoint pieces (rooms : list Z) (l : bytes) : list bytes :=
  match rooms with [] => [] | room :: rooms => takeZ room l :: pieces rooms (dropZ room l) end.

Lemma written_pieces {U H} `{UriPart U} `{HeaderPart H} {utodo uok fresh text} `{!UriLaws U utodo uok fresh text}
    {htodo hok hweight} `{!HeaderLaws H htodo hok hweight} rooms (r : Encoder U H) :
  re_ok (uok := uok) (fresh := fresh) (hok := hok) r → Forall (λ room, 0 < room) rooms →
  encode_calls rooms r = Ok (pieces rooms (re_todo (utodo := utodo) (text := text) (htodo := htodo) r)).
Proof.
  intros Hok Hrooms. revert r Hok. induction Hrooms as [|room rooms Hr _ IH]; intros r Hok; [done|]. cbn [encode_calls pieces].
  pose proof (Encoder_encode_ok (utodo := utodo) (text := text) (htodo := htodo) (hweight := hweight) r room Hok Hr) as Hw.
  destruct (Encoder_encode room r) as [r' [out| |]]; [|done..]. destruct Hw as (Hd & Hok' & Hend). rewrite (IH r' Hok'). cbn. rewrite Hd.
  destruct Hend as [Heq|[Hle Hfin]].
  - by rewrite <- Heq, takeZ_app_len, dropZ_app_len.
  - assert (re_todo (utodo := utodo) (text := text) (htodo := htodo) r' = []) as -> by (unfold re_todo; by rewrite Hfin).
    rewrite app_nil_r, takeZ_all, dropZ_all by done. done.
Qed.

Lemma owned_ok p (b : bool) : ∃ r, RequestEncoder_new p = Ok r ∧
  re_ok (uok := eu_ok) (fresh := λ u, eu_idx u = 0) (hok := eh_ok) (re_absolute_uri b r) ∧
  re_todo (utodo := eu_todo) (text := λ b u, if b then eu_absolute u else eu_origin u) (htodo := eh_todo) (re_absolute_uri b r) = request_message b p.
Proof.
  assert (∃ h, EncodeHeader_new (rp_headers p) = Ok h ∧ eh_ok h ∧ eh_todo h = field_lines (rp_headers p)) as (h & Hh & Hok & Ht).
  { destruct (rp_headers p) as [|[n v] inner]; eexists; (split; [done|]); unfold eh_ok, eh_todo; cbn -[bs dropZ field_lines];
      (split; [split_and!; done || len_lia|]); [done|].
    rewrite field_lines_cons. unfold field_line. cbn [fst snd]. by rewrite !dropZ_0, <- !app_assoc. }
  unfold RequestEncoder_new. rewrite Hh. cbn. eexists. split; [done|]. split.
  - constructor; cbn; try done; len_lia.
  - unfold re_todo, re_tail, request_message. cbn -[bs dropZ Method_as_str Version_as_str field_lines]. rewrite Ht, !dropZ_0.
    by rewrite app_nil_r.
Qed.

Lemma borrowed_ok p (b : bool) :
  re_ok (uok := ur_ok) (fresh := λ u, ur_idx u = 0 ∧ ur_absolute u = None ∧ ur_origin u = None) (hok := hr_ok) (re_absolute_uri b (RequestRefEncoder_new p)) ∧
  re_todo (utodo := ur_todo) (text := λ b u, if b then Uri_to_string (ur_inner u) else origin_form (ur_inner u)) (htodo := hr_todo)
    (re_absolute_uri b (RequestRefEncoder_new p)) = request_message b p.
Proof.
  assert (hr_ok (EncodeHeaderRef_new (rp_headers p)) ∧ hr_todo (EncodeHeaderRef_new (rp_headers p)) = field_lines (rp_headers p)) as [Hok Ht].
  { destruct (rp_headers p) as [|[n v] inner]; [done|]. cbn [EncodeHeaderRef_new]. split.
    - cbn. split_and!; try done. exists n. split; [done|]. cbn. len_lia.
    - unfold hr_todo, hr_value_todo. cbn -[bs dropZ field_lines to_vec_from]. rewrite field_lines_cons. unfold field_line, HeaderValue_to_vec.
      cbn [fst snd]. by rewrite !dropZ_0, <- !app_assoc. }
  split.
  - constructor; cbn; try done; len_lia.
  - unfold re_todo, re_tail, request_message. cbn -[bs dropZ Method_as_str Version_as_str field_lines EncodeHeaderRef_new]. rewrite Ht, !dropZ_0.
    by rewrite app_nil_r.
Qed.

(** the request encoder writes the request message, into buffers of any
    sizes that are not empty: the pieces are those of the message cut at the
    sizes of the buffers, nothing is lost or repeated, and behind the message
    nothing is written. *)
Theorem request_encode_refines (p : RequestPart) (absolute : bool) (rooms : list Z) :
  Forall (λ room, 0 < room) rooms →
  ∃ r, RequestEncoder_new p = Ok r ∧ encode_calls rooms (re_absolute_uri absolute r) = Ok (pieces rooms (request_message absolute p)).
Proof.
  intros Hrooms. destruct (owned_ok p absolute) as (r & Hr & Hok & <-). exists r. split; [done|].
  apply (written_pieces (hweight := eh_weight) rooms _ Hok Hrooms).
Qed.

Definition example_request : RequestPart :=
  mkRequestPart (mkUri (Some PHttp) (Some (mkAuthority (bs "h") None)) None (Some (bs "q"))) Get Http11
    [(bs "accept", mkHeaderValue [bs "a"; bs "b"] false)].

Lemma request_encode_refines_witness :
  ∃ r, RequestEncoder_new example_request = Ok r ∧
    encode_calls [3; 12; 100] (re_absolute_uri false r) = Ok [bs "GET"; bs " ?q HTTP/1.1"; [13; 10] ++ bs "accept:a, b" ++ [13; 10; 13; 10]].
Proof. apply (request_encode_refines example_request false [3; 12; 100]). repeat constructor. Defined.

(** C40: the encoder that borrows the request gives, call by call, what the
    encoder that owns it gives. *)
Theorem request_ref_equiv (p : RequestPart) (absolute : bool) (rooms : list Z) :
  Forall (λ room, 0 < room) rooms →
  ∃ r, RequestEncoder_new p = Ok r ∧
    encode_calls rooms (re_absolute_uri absolute (RequestRefEncoder_new p)) = encode_calls rooms (re_absolute_uri absolute r).
Proof.
  intros Hrooms. destruct (owned_ok p absolute) as (r & Hr & Hok & Ht). destruct (borrowed_ok p absolute) as [Hok' Ht']. exists r. split; [done|].
  rewrite (written_pieces (hweight := eh_weight) rooms _ Hok Hrooms), (written_pieces (hweight := hr_weight) rooms _ Hok' Hrooms).
  by rewrite Ht, Ht'.
Qed.

Lemma request_ref_equiv_witness :
  ∃ r, RequestEncoder_new example_request = Ok r ∧
    encode_calls [5; 100] (re_absolute_uri true (RequestRefEncoder_new example_request)) = encode_calls [5; 100] (re_absolute_uri true r).
Proof. apply (request_ref_equiv example_request true [5; 100]). repeat constructor. Defined.
