(* ===== verification/H1Decoder.v ===== *)
(** * HTTP/1.1 responses: the decoder

    Models [ResponseDecoder] of [src/ylong_http/src/h1/response/decoder.rs]: the
    status line and the fields of a response, in any number of segments.  It is
    compared with an automaton that reads one byte at a time. *)

From S2P Require Import Prelude Headers Message Uri.
#[local] Open Scope Z_scope.

Inductive H1Error := InvalidRequest | InvalidResponse.

(** [HttpError], of its kinds those that occur. *)
Inductive RespError := EH1 (e : H1Error) | EKind (e : HttpError).

Record ResponsePart := mkResponsePart { sp_version : Version; sp_status : StatusCode; sp_headers : Headers }.

Inductive HeaderStage := HStart | HKey | HOwsBefore | HValue | HCrlf | HEndCrlf.
Inductive ParseStage := PInitial | PVersion | PStatusCode | PReason | PStatusCrlf | PHeader (s : HeaderStage) | PBlankLine.

Record ResponseDecoder := mkResponseDecoder {
  rd_stage : ParseStage;
  rd_version : option Version;
  rd_status_code : option StatusCode;
  rd_headers : option Headers;
  rd_head_key : bytes;
  rd_rest : bytes;
  rd_new_line : bool }.

Definition ResponseDecoder_new : ResponseDecoder := mkResponseDecoder PInitial None None None [] [] false.

Definition rd_set_stage (s : ParseStage) (d : ResponseDecoder) : ResponseDecoder :=
  mkResponseDecoder s (rd_version d) (rd_status_code d) (rd_headers d) (rd_head_key d) (rd_rest d) (rd_new_line d).
Definition rd_set_version (v : option Version) (d : ResponseDecoder) : ResponseDecoder :=
  mkResponseDecoder (rd_stage d) v (rd_status_code d) (rd_headers d) (rd_head_key d) (rd_rest d) (rd_new_line d).
Definition rd_set_status_code (c : option StatusCode) (d : ResponseDecoder) : ResponseDecoder :=
  mkResponseDecoder (rd_stage d) (rd_version d) c (rd_headers d) (rd_head_key d) (rd_rest d) (rd_new_line d).
Definition rd_set_headers (h : option Headers) (d : ResponseDecoder) : ResponseDecoder :=
  mkResponseDecoder (rd_stage d) (rd_version d) (rd_status_code d) h (rd_head_key d) (rd_rest d) (rd_new_line d).
Definition rd_set_head_key (k : bytes) (d : ResponseDecoder) : ResponseDecoder :=
  mkResponseDecoder (rd_stage d) (rd_version d) (rd_status_code d) (rd_headers d) k (rd_rest d) (rd_new_line d).
Definition rd_set_rest (r : bytes) (d : ResponseDecoder) : ResponseDecoder :=
  mkResponseDecoder (rd_stage d) (rd_version d) (rd_status_code d) (rd_headers d) (rd_head_key d) r (rd_new_line d).
Definition rd_set_new_line (b : bool) (d : ResponseDecoder) : ResponseDecoder :=
  mkResponseDecoder (rd_stage d) (rd_version d) (rd_status_code d) (rd_headers d) (rd_head_key d) (rd_rest d) b.

Abbreviation Dec := (ST ResponseDecoder RespError).

(** ** Tokens *)

Definition HEADER_NAME_BYTES : list bool :=
  [F; F; F; F; F; F; F; F; F; F; F; F; F; F; F; F;
   F; F; F; F; F; F; F; F; F; F; F; F; F; F; F; F;
   F; T; F; T; T; T; T; T; F; F; T; T; F; T; T; F;
   T; T; T; T; T; T; T; T; T; T; F; F; F; F; F; F;
   F; T; T; T; T; T; T; T; T; T; T; T; T; T; T; T;
   T; T; T; T; T; T; T; T; T; T; T; F; F; F; T; T;
   T; T; T; T; T; T; T; T; T; T; T; T; T; T; T; T;
   T; T; T; T; T; T; T; T; T; T; T; F; T; F; T; F;
   F; F; F; F; F; F; F; F; F; F; F; F; F; F; F; F;
   F; F; F; F; F; F; F; F; F; F; F; F; F; F; F; F;
   F; F; F; F; F; F; F; F; F; F; F; F; F; F; F; F;
   F; F; F; F; F; F; F; F; F; F; F; F; F; F; F; F;
   F; F; F; F; F; F; F; F; F; F; F; F; F; F; F; F;
   F; F; F; F; F; F; F; F; F; F; F; F; F; F; F; F;
   F; F; F; F; F; F; F; F; F; F; F; F; F; F; F; F;
   F; F; F; F; F; F; F; F; F; F; F; F; F; F; F; F].

Definition HEADER_VALUE_BYTES : list bool :=
  [F; F; F; F; F; F; F; F; F; T; F; F; F; F; F; F;
   F; F; F; F; F; F; F; F; F; F; F; F; F; F; F; F;
   T; T; T; T; T; T; T; T; T; T; T; T; T; T; T; T;
   T; T; T; T; T; T; T; T; T; T; T; T; T; T; T; T;
   T; T; T; T; T; T; T; T; T; T; T; T; T; T; T; T;
   T; T; T; T; T; T; T; T; T; T; T; T; T; T; T; T;
   T; T; T; T; T; T; T; T; T; T; T; T; T; T; T; T;
   T; T; T; T; T; T; T; T; T; T; T; T; T; T; T; F;
   T; T; T; T; T; T; T; T; T; T; T; T; T; T; T; T;
   T; T; T; T; T; T; T; T; T; T; T; T; T; T; T; T;
   T; T; T; T; T; T; T; T; T; T; T; T; T; T; T; T;
   T; T; T; T; T; T; T; T; T; T; T; T; T; T; T; T;
   T; T; T; T; T; T; T; T; T; T; T; T; T; T; T; T;
   T; T; T; T; T; T; T; T; T; T; T; T; T; T; T; T;
   T; T; T; T; T; T; T; T; T; T; T; T; T; T; T; T;
   T; T; T; T; T; T; T; T; T; T; T; T; T; T; T; T].

Definition is_valid_byte (b : Z) : bool := (31 <? b) && (b <? 127).
Definition is_legal_reason_byte (b : Z) : bool :=
  (b =? 9) || (b =? 32) || (33 <=? b) && (b <=? 126) || (128 <=? b) && (b <=? 255).
Definition is_crlf (b : Z) : bool := (b =? 13) || (b =? 10).

(** [TokenStatus]: a token and what is behind it, or all of the segment. *)
Inductive TokenStatus := Complete (token unparsed : bytes) | Partial (rest : bytes).

(** [status_token], [get_header_name] and [get_header_value]: up to a byte that
    ends the token, which is kept or not. *)
Fixpoint token_loop (ends valid : Z → bool) (keep : bool) (read buffer : bytes) : result RespError TokenStatus :=
  match buffer with
  | [] => Ok (Partial read)
  | b :: rest =>
      if ends b then Ok (Complete read (if keep then buffer else rest))
      else if negb (valid b) then Err (EH1 InvalidResponse)
      else token_loop ends valid keep (read ++ [b]) rest
  end.

Definition status_token (buffer : bytes) : result RespError TokenStatus := token_loop (λ b, b =? 32) is_valid_byte false [] buffer.
Definition get_header_name (buffer : bytes) : result RespError TokenStatus :=
  token_loop (λ b, b =? 58) (byte_in HEADER_NAME_BYTES) false [] buffer.
Definition get_header_value (buffer : bytes) : result RespError TokenStatus :=
  token_loop is_crlf (byte_in HEADER_VALUE_BYTES) true [] buffer.

Fixpoint decode_reason (buffer : bytes) : result RespError (option bytes) :=
  match buffer with
  | [] => Ok None
  | b :: rest => if is_crlf b then Ok (Some buffer) else if negb (is_legal_reason_byte b) then Err (EH1 InvalidResponse) else decode_reason rest
  end.

(** [TokenStatus<&[u8], usize>]. *)
Inductive CrlfStatus := CrlfComplete (unparsed : bytes) | CrlfPartial (step : Z).

Definition consume_crlf (buffer : bytes) (cr_meet : bool) : result RespError CrlfStatus :=
  match buffer with
  | [] => Ok (CrlfPartial 0)
  | b :: rest =>
      if b =? 13 then
        if cr_meet then Err (EH1 InvalidResponse)
        else
          match rest with
          | [] => Ok (CrlfPartial 1)
          | c :: rest => if c =? 10 then Ok (CrlfComplete rest) else Err (EH1 InvalidResponse)
          end
      else if b =? 10 then Ok (CrlfComplete rest)
      else Err (EH1 InvalidResponse)
  end.

Fixpoint trim_ows (buffer : bytes) : option bytes :=
  match buffer with
  | [] => None
  | b :: rest => if (b =? 32) || (b =? 9) then trim_ows rest else Some buffer
  end.

(** [header_insert]: the name is lower-cased, the field appended. *)
Definition header_insert (name value : bytes) (headers : Headers) : result RespError Headers :=
  match Headers_append (map ascii_lower name) value headers with
  | (headers, Ok _) => Ok headers
  | (_, Err e) => Err (EKind e)
  | (_, Panic) => Panic
  end.

(** The value without the white space at its end. *)
Fixpoint trim_end (value : bytes) : bytes :=
  match value with
  | [] => []
  | b :: value =>
      match trim_end value with
      | [] => if (b =? 32) || (b =? 9) then [] else [b]
      | value => b :: value
      end
  end.

(** ** Fields *)

Definition take_value (value : bytes) : Dec bytes :=
  d ← get_st;
  match rd_rest d with
  | [] => mret value
  | rest => _ ← put_st (rd_set_rest [] d); mret (rest ++ value)
  end.

Definition save_rest (rest : bytes) : Dec () := modify_st (λ d, rd_set_rest (rd_rest d ++ rest) d).

Definition decode_ows (buffer : bytes) : Dec (option bytes) :=
  _ ← modify_st (rd_set_stage (PHeader HOwsBefore)); mret (trim_ows buffer).

Definition decode_key (buffer : bytes) : Dec (option bytes) :=
  _ ← modify_st (rd_set_stage (PHeader HKey));
  t ← lift_res (get_header_name buffer);
  match t with
  | Complete key unparsed => key ← take_value key; _ ← modify_st (rd_set_head_key key); mret (Some unparsed)
  | Partial rest => _ ← save_rest rest; mret None
  end.

Definition decode_value (buffer : bytes) : Dec (option bytes) :=
  _ ← modify_st (rd_set_stage (PHeader HValue));
  t ← lift_res (get_header_value buffer);
  match t with
  | Complete value unparsed =>
      complete_value ← take_value value;
      d ← get_st;
      match rd_headers d with
      | None => panic
      | Some headers =>
          _ ← put_st (rd_set_headers None (rd_set_head_key [] d));
          h ← lift_res (header_insert (rd_head_key d) (trim_end complete_value) headers);
          _ ← modify_st (rd_set_headers (Some h)); mret (Some unparsed)
      end
  | Partial rest => _ ← save_rest rest; mret None
  end.

Definition decode_crlf (cr_meet : bool) (buffer : bytes) : Dec (option bytes) :=
  _ ← modify_st (rd_set_stage (PHeader HCrlf));
  t ← lift_res (consume_crlf buffer cr_meet);
  match t with
  | CrlfComplete unparsed => _ ← modify_st (rd_set_new_line false); mret (Some unparsed)
  | CrlfPartial step => _ ← (if step =? 1 then modify_st (rd_set_new_line true) else mret ()); mret None
  end.

(** A step of the loops: it goes on with what is left, or returns. *)
Inductive Flow := Next (buffer : bytes) | Return (r : option bytes).

(** [get_unparsed_or_return!] and [detect_blank_and_return!]. *)
Definition get_unparsed (case : bytes → Dec (option bytes)) (buffer : bytes) : Dec Flow :=
  u ← case buffer; mret (match u with Some unparsed => Next unparsed | None => Return None end).
Definition detect_blank (buffer : bytes) : Dec Flow :=
  match buffer with
  | [] => _ ← modify_st (rd_set_stage (PHeader HEndCrlf)); mret (Return None)
  | b :: _ => mret (if is_crlf b then Return (Some buffer) else Next buffer)
  end.

Definition step_key : bytes → Dec Flow := get_unparsed decode_key.
Definition step_ows : bytes → Dec Flow := get_unparsed decode_ows.
Definition step_value : bytes → Dec Flow := get_unparsed decode_value.
Definition step_crlf : bytes → Dec Flow := get_unparsed (decode_crlf false).

(** The body of a loop. *)
Fixpoint run_steps (steps : list (bytes → Dec Flow)) (buffer : bytes) : Dec Flow :=
  match steps with
  | [] => mret (Next buffer)
  | s :: steps => f ← s buffer; match f with Next buffer => run_steps steps buffer | Return r => mret (Return r) end
  end.

Fixpoint steps_loop (fuel : nat) (steps : list (bytes → Dec Flow)) (buffer : bytes) : Dec (option bytes) :=
  match fuel with
  | O => panic
  | S fuel =>
      f ← run_steps steps buffer;
      match f with Next buffer => steps_loop fuel steps buffer | Return r => mret r end
  end.

(** Each turn takes the colon of a name. *)
Definition header_fuel (buffer : bytes) : nat := S (length buffer).
Definition header_loop (steps : list (bytes → Dec Flow)) (buffer : bytes) : Dec (option bytes) := steps_loop (header_fuel buffer) steps buffer.

Definition decode_header_from_value := header_loop [step_value; step_crlf; detect_blank; step_key; step_ows].
Definition decode_header_from_key := header_loop [step_key; step_ows; step_value; step_crlf; detect_blank].
Definition decode_header_from_ows_before := header_loop [step_ows; step_value; step_crlf; detect_blank; step_key].
Definition decode_header_from_crlf := header_loop [step_crlf; detect_blank; step_key; step_ows; step_value].
Definition decode_header_from_crlf_end := header_loop [detect_blank; step_key; step_ows; step_value; step_crlf].

Definition decode_header (buffer : bytes) : Dec (option bytes) :=
  d ← get_st;
  match rd_stage d with
  | PHeader HStart =>
      match buffer with
      | [] => mret None
      | b :: _ => if is_crlf b then mret (Some buffer) else decode_header_from_key buffer
      end
  | PHeader HKey => decode_header_from_key buffer
  | PHeader HOwsBefore => decode_header_from_ows_before buffer
  | PHeader HValue => decode_header_from_value buffer
  | PHeader HCrlf => decode_header_from_crlf buffer
  | PHeader HEndCrlf => decode_header_from_crlf_end buffer
  | _ => throw (EH1 InvalidResponse)
  end.

(** ** Phases *)

Definition decode_status_crlf (buffer : bytes) : Dec (option bytes) :=
  d ← get_st;
  _ ← put_st (rd_set_new_line false d);
  t ← lift_res (consume_crlf buffer (rd_new_line d));
  match t with
  | CrlfComplete unparsed => _ ← modify_st (rd_set_new_line false); mret (Some unparsed)
  | CrlfPartial step =>
      if step =? 0 then mret None
      else if step =? 1 then _ ← modify_st (rd_set_new_line true); mret None
      else throw (EH1 InvalidResponse)
  end.

(** The [take().unwrap()] of a field of the decoder. *)
Definition take_unwrap {A} (o : option A) : Dec A := match o with Some a => mret a | None => panic end.

Definition blank_line_phase (buffer : bytes) : Dec (option (ResponsePart * bytes)) :=
  _ ← modify_st (rd_set_stage PBlankLine);
  u ← decode_status_crlf buffer;
  match u with
  | Some unparsed =>
      d ← get_st; v ← take_unwrap (rd_version d); _ ← put_st (rd_set_version None d);
      d ← get_st; c ← take_unwrap (rd_status_code d); _ ← put_st (rd_set_status_code None d);
      d ← get_st; h ← take_unwrap (rd_headers d); _ ← put_st (rd_set_headers None d);
      mret (Some (mkResponsePart v c h, unparsed))
  | None => mret None
  end.

Definition header_phase (buffer : bytes) : Dec (option (ResponsePart * bytes)) :=
  u ← decode_header buffer; match u with Some unparsed => blank_line_phase unparsed | None => mret None end.

Definition header_phase_with_init (buffer : bytes) : Dec (option (ResponsePart * bytes)) :=
  _ ← modify_st (rd_set_headers (Some ∅));
  match buffer with
  | [] => _ ← modify_st (rd_set_stage (PHeader HStart)); mret None
  | b :: _ =>
      if is_crlf b then blank_line_phase buffer
      else _ ← modify_st (rd_set_stage (PHeader HKey)); header_phase buffer
  end.

Definition status_crlf_phase (buffer : bytes) : Dec (option (ResponsePart * bytes)) :=
  _ ← modify_st (rd_set_stage PStatusCrlf);
  u ← decode_status_crlf buffer; match u with Some unparsed => header_phase_with_init unparsed | None => mret None end.

Definition reason_phase (buffer : bytes) : Dec (option (ResponsePart * bytes)) :=
  _ ← modify_st (rd_set_stage PReason);
  u ← lift_res (decode_reason buffer); match u with Some unparsed => status_crlf_phase unparsed | None => mret None end.

Definition status_code_phase (buffer : bytes) : Dec (option (ResponsePart * bytes)) :=
  _ ← modify_st (rd_set_stage PStatusCode);
  t ← lift_res (status_token buffer);
  match t with
  | Complete code unparsed =>
      code ← take_value code;
      match StatusCode_from_bytes code with
      | Ok c => _ ← modify_st (rd_set_status_code (Some c)); reason_phase unparsed
      | _ => throw (EH1 InvalidResponse)
      end
  | Partial rest => _ ← save_rest rest; mret None
  end.

Definition version_phase (buffer : bytes) : Dec (option (ResponsePart * bytes)) :=
  _ ← modify_st (rd_set_stage PVersion);
  t ← lift_res (status_token buffer);
  match t with
  | Complete version unparsed =>
      version ← take_value version;
      _ ← (if decide (version = bs "HTTP/1.0") then modify_st (rd_set_version (Some Http10))
           else if decide (version = bs "HTTP/1.1") then modify_st (rd_set_version (Some Http11))
           else throw (EH1 InvalidResponse));
      status_code_phase unparsed
  | Partial rest => _ ← save_rest rest; mret None
  end.

(** [ResponseDecoder::decode]. *)
Definition ResponseDecoder_decode (buffer : bytes) : Dec (option (ResponsePart * bytes)) :=
  d ← get_st;
  match rd_stage d with
  | PInitial | PVersion => version_phase buffer
  | PStatusCode => status_code_phase buffer
  | PReason => reason_phase buffer
  | PStatusCrlf => status_crlf_phase buffer
  | PHeader _ => header_phase buffer
  | PBlankLine => blank_line_phase buffer
  end.
