(* ===== verification/H1DecoderSpec.v ===== *)
(** * HTTP/1.1 responses: the decoder against an automaton

    [ResponseDecoder] of [H1Decoder] does, segment by segment, what an automaton
    that reads one byte at a time does; so a response may be cut anywhere, with
    one exception that is stated. *)

From S2P Require Import Prelude Headers Message Uri H1Decoder.
#[local] Open Scope Z_scope.

(** ** The automaton *)

(** What is known of a response: its version, its code, its fields so far. *)
Record Known := mkKnown { kn_version : Version; kn_code : StatusCode; kn_headers : Headers }.

(** In a version, a code, a reason; behind the CR of the status line; before a
    line; in a name; before a value; in a value; behind the CR of a field; and
    of the empty line. *)
Inductive Auto :=
  | AVersion (acc : bytes)
  | ACode (v : Version) (acc : bytes)
  | AReason (v : Version) (c : StatusCode)
  | AStatusCr (v : Version) (c : StatusCode)
  | AStart (k : Known)
  | AKey (k : Known) (acc : bytes)
  | AOws (k : Known) (key : bytes)
  | AValue (k : Known) (key acc : bytes)
  | ACr (k : Known)
  | ABlankCr (k : Known).

Inductive Step := SNext (a : Auto) | SDone (k : Known) | SErr (e : RespError).
Abbreviation bad := (SErr (EH1 InvalidResponse)).

Definition read_version (l : bytes) : option Version :=
  if decide (l = bs "HTTP/1.0") then Some Http10 else if decide (l = bs "HTTP/1.1") then Some Http11 else None.

Definition key_step (k : Known) (acc : bytes) (b : Z) : Step :=
  if b =? 58 then SNext (AOws k acc) else if byte_in HEADER_NAME_BYTES b then SNext (AKey k (acc ++ [b])) else bad.

Definition value_step (k : Known) (key acc : bytes) (b : Z) : Step :=
  if is_crlf b then
    match header_insert key (trim_end acc) (kn_headers k) with
    | Ok h => let k := mkKnown (kn_version k) (kn_code k) h in SNext (if b =? 13 then ACr k else AStart k)
    | Err e => SErr e
    | Panic => bad
    end
  else if byte_in HEADER_VALUE_BYTES b then SNext (AValue k key (acc ++ [b])) else bad.

Definition step (a : Auto) (b : Z) : Step :=
  match a with
  | AVersion acc =>
      if b =? 32 then match read_version acc with Some v => SNext (ACode v []) | None => bad end
      else if is_valid_byte b then SNext (AVersion (acc ++ [b])) else bad
  | ACode v acc =>
      if b =? 32 then match StatusCode_from_bytes acc with Ok c => SNext (AReason v c) | _ => bad end
      else if is_valid_byte b then SNext (ACode v (acc ++ [b])) else bad
  | AReason v c =>
      if b =? 13 then SNext (AStatusCr v c)
      else if b =? 10 then SNext (AStart (mkKnown v c ∅))
      else if is_legal_reason_byte b then SNext (AReason v c) else bad
  | AStatusCr v c => if b =? 10 then SNext (AStart (mkKnown v c ∅)) else bad
  | AStart k => if b =? 13 then SNext (ABlankCr k) else if b =? 10 then SDone k else key_step k [] b
  | AKey k acc => key_step k acc b
  | AOws k key => if (b =? 32) || (b =? 9) then SNext (AOws k key) else value_step k key [] b
  | AValue k key acc => value_step k key acc b
  | ACr k => if b =? 10 then SNext (AStart k) else bad
  | ABlankCr k => if b =? 10 then SDone k else bad
  end.

Inductive End := More (a : Auto) | Done (k : Known) (rest : bytes) | Bad (e : RespError).

Fixpoint run (a : Auto) (buf : bytes) : End :=
  match buf with
  | [] => More a
  | b :: buf => match step a b with SNext a => run a buf | SDone k => Done k buf | SErr e => Bad e end
  end.

(** ** States *)

Definition known (k : Known) (d : ResponseDecoder) : Prop :=
  rd_version d = Some (kn_version k) ∧ rd_status_code d = Some (kn_code k) ∧ rd_headers d = Some (kn_headers k).

Definition rel (a : Auto) (d : ResponseDecoder) : Prop :=
  match a with
  | AVersion acc => (rd_stage d = PInitial ∨ rd_stage d = PVersion) ∧ rd_rest d = acc ∧ rd_new_line d = false
  | ACode v acc => rd_stage d = PStatusCode ∧ rd_version d = Some v ∧ rd_rest d = acc ∧ rd_new_line d = false
  | AReason v c => rd_stage d = PReason ∧ rd_version d = Some v ∧ rd_status_code d = Some c ∧ rd_rest d = [] ∧ rd_new_line d = false
  | AStatusCr v c => rd_stage d = PStatusCrlf ∧ rd_version d = Some v ∧ rd_status_code d = Some c ∧ rd_rest d = [] ∧ rd_new_line d = true
  | AStart k => (rd_stage d = PHeader HStart ∨ rd_stage d = PHeader HEndCrlf) ∧ known k d ∧ rd_rest d = [] ∧ rd_new_line d = false
  | AKey k acc => rd_stage d = PHeader HKey ∧ known k d ∧ rd_rest d = acc ∧ rd_new_line d = false
  | AOws k key => rd_stage d = PHeader HOwsBefore ∧ known k d ∧ rd_head_key d = key ∧ rd_rest d = [] ∧ rd_new_line d = false
  | AValue k key acc => rd_stage d = PHeader HValue ∧ known k d ∧ rd_head_key d = key ∧ rd_rest d = acc ∧ rd_new_line d = false
  | ACr k => rd_stage d = PHeader HCrlf ∧ known k d ∧ rd_rest d = [] ∧ rd_new_line d = true
  | ABlankCr k => rd_stage d = PBlankLine ∧ known k d ∧ rd_rest d = [] ∧ rd_new_line d = true
  end.

Definition known_part (k : Known) : ResponsePart := mkResponsePart (kn_version k) (kn_code k) (kn_headers k).

(** The outcome of [decode] for an outcome of the automaton. *)
Definition outcome (e : End) (x : ResponseDecoder * result RespError (option (ResponsePart * bytes))) : Prop :=
  match e with
  | More a => ∃ d, x = (d, Ok None) ∧ rel a d
  | Done k rest => ∃ d, x = (d, Ok (Some (known_part k, rest)))
  | Bad err => ∃ d, x = (d, Err err)
  end.

(** ** Tokens *)

Lemma token_loop_ok (f : bytes → Auto) (ends valid : Z → bool) (keep : bool) (acc read buf : bytes) :
  (∀ acc b, ends b = false → step (f acc) b = if valid b then SNext (f (acc ++ [b])) else bad) →
  match token_loop ends valid keep read buf with
  | Ok (Partial read') => read' = read ++ buf ∧ run (f (acc ++ read)) buf = More (f (acc ++ read'))
  | Ok (Complete tok unparsed) =>
      ∃ b r, run (f (acc ++ read)) buf = run (f (acc ++ tok)) (b :: r) ∧ ends b = true ∧ unparsed = (if keep then b :: r else r) ∧
        (length (b :: r) ≤ length buf)%nat
  | Err e => e = EH1 InvalidResponse ∧ run (f (acc ++ read)) buf = Bad e
  | Panic => False
  end.
Proof.
  intros Hstep. revert read. induction buf as [|b buf IH]; intros read; cbn [token_loop]; [by rewrite app_nil_r|].
  destruct (ends b) eqn:Eb; [exists b, buf; split_and!; done|]. destruct (valid b) eqn:Ev; cbn [negb].
  - specialize (IH (read ++ [b])). assert (run (f (acc ++ read)) (b :: buf) = run (f (acc ++ read ++ [b])) buf) as Hr.
    { cbn [run]. by rewrite Hstep, Ev, <- app_assoc. }
    rewrite Hr. destruct (token_loop ends valid keep (read ++ [b]) buf) as [[tok u|read']| |]; try done.
    + destruct IH as (b' & r & -> & ? & ? & ?). exists b', r. split_and!; try done. cbn [length] in *. lia.
    + by rewrite <- app_assoc in IH.
  - split; [done|]. cbn [run]. by rewrite Hstep, Ev.
Qed.

Lemma take_value_eq v d : take_value v d = (rd_set_rest [] d, Ok (rd_rest d ++ v)).
Proof. unfold take_value. rewrite bind_st. cbn [get_st]. by destruct d as [? ? ? ? ? [|r rest] ?]. Qed.

Lemma take_value_nil v d : rd_rest d = [] → take_value v d = (d, Ok v).
Proof. intros H. rewrite take_value_eq, H. by destruct d; cbn in *; subst. Qed.

(** ** The empty line *)

Lemma is_crlf_cases b : is_crlf b = true → b = 13 ∨ b = 10.
Proof. unfold is_crlf. rewrite orb_true_iff, !Z.eqb_eq. tauto. Qed.

Lemma blank_ok k d b buf :
  known k d → rd_rest d = [] → (rd_new_line d = false → is_crlf b = true) →
  outcome (run (if rd_new_line d then ABlankCr k else AStart k) (b :: buf)) (blank_line_phase (b :: buf) d).
Proof.
  destruct d as [st v c h key rest nl]. intros (Hv & Hc & Hh) Hr Hb. cbn in *. subst.
  unfold blank_line_phase, decode_status_crlf. cbn -[outcome run known_part]. unfold consume_crlf.
  destruct nl; cbn [run step].
  - destruct (Z.eqb_spec b 13) as [->|H13]; [cbn; by eexists|]. destruct (b =? 10); cbn; by eexists.
  - destruct (is_crlf_cases b (Hb eq_refl)) as [->| ->]; cbn -[outcome run known_part]; [|by eexists].
    destruct buf as [|x buf]; cbn [run step]; [eexists; split; [done|by split_and!]|]. destruct (x =? 10); cbn; by eexists.
Qed.

(** ** The fields *)

Lemma header_insert_no_panic name value h : header_insert name value h ≠ Panic.
Proof.
  unfold header_insert, Headers_append. pose proof (normalize_no_panic (map ascii_lower name)).
  destruct (normalize (map ascii_lower name)) as [n|e|]; [|by cbn..]. unfold HeaderValue_from_bytes.
  destruct (forallb is_valid value); [|by cbn]. destruct (lookup _ _); by cbn.
Qed.

(** The places in the cycle of [decode_header], and what holds there. *)
Inductive Place := AtKey | AtOws | AtValue | AtCrlf | AtStart.

Definition next_place (p : Place) : Place :=
  match p with AtKey => AtOws | AtOws => AtValue | AtValue => AtCrlf | AtCrlf => AtStart | AtStart => AtKey end.
Definition place_step (p : Place) : bytes → Dec Flow :=
  match p with AtKey => step_key | AtOws => step_ows | AtValue => step_value | AtCrlf => step_crlf | AtStart => detect_blank end.

(** Behind a value, or at the CRLF. *)
Definition crlf_run (k : Known) (buf : bytes) : End :=
  match buf with
  | [] => More (ACr k)
  | b :: r => if b =? 13 then run (ACr k) r else if b =? 10 then run (AStart k) r else Bad (EH1 InvalidResponse)
  end.

Definition at_place (p : Place) (d : ResponseDecoder) (buf : bytes) (e : End) : Prop :=
  ∃ k, known k d ∧
  match p with
  | AtKey => rd_new_line d = false ∧ e = run (AKey k (rd_rest d)) buf
  | AtOws => rd_new_line d = false ∧ rd_rest d = [] ∧ e = run (AOws k (rd_head_key d)) buf
  | AtValue => rd_new_line d = false ∧ e = run (AValue k (rd_head_key d) (rd_rest d)) buf
  | AtCrlf => rd_rest d = [] ∧ (buf = [] → rd_new_line d = true) ∧ e = crlf_run k buf
  | AtStart => rd_new_line d = false ∧ rd_rest d = [] ∧ e = run (AStart k) buf
  end.

(** The outcome of a step, of the body of a loop, or of the loop. *)
Definition flowed (post : ResponseDecoder → bytes → Prop) (e : End) (x : ResponseDecoder * result RespError Flow) : Prop :=
  match x with
  | (d, Ok (Next buf)) => post d buf
  | (d, Ok (Return None)) => ∃ a, e = More a ∧ rel a d
  | (d, Ok (Return (Some buf))) => ∃ k b r, known k d ∧ rd_rest d = [] ∧ rd_new_line d = false ∧ buf = b :: r ∧ is_crlf b = true ∧ e = run (AStart k) buf
  | (_, Err err) => e = Bad err
  | (_, Panic) => False
  end.

Lemma key_flow d buf e : at_place AtKey d buf e →
  flowed (λ d' buf', at_place AtOws d' buf' e ∧ (length buf' < length buf)%nat) e (step_key buf d).
Proof.
  intros (k & (Hv & Hc & Hh) & Hn & ->). unfold step_key, get_unparsed, decode_key. rewrite bind_st, bind_st. cbn [modify_st]. rewrite bind_st.
  unfold lift_res, get_header_name.
  pose proof (token_loop_ok (AKey k) (λ b, b =? 58) (byte_in HEADER_NAME_BYTES) false (rd_rest d) [] buf) as Ht.
  rewrite app_nil_r in Ht. destruct (token_loop _ _ _ _ buf) as [[tok u|read]| |].
  - destruct Ht as (b & r & -> & Hb & -> & Hl). { intros acc b Hb. cbn. unfold key_step. by rewrite Hb. }
    apply Z.eqb_eq in Hb as ->. rewrite bind_st, take_value_eq. cbn. split; [|cbn in Hl; lia]. exists k. by split_and!.
  - destruct Ht as [-> ->]. { intros acc b Hb. cbn. unfold key_step. by rewrite Hb. }
    cbn. eexists. split; [done|]. cbn. by split_and!.
  - destruct Ht as [-> ->]; [|done]. intros acc b Hb. cbn. unfold key_step. by rewrite Hb.
  - apply Ht. intros acc b Hb. cbn. unfold key_step. by rewrite Hb.
Qed.

Lemma ows_flow d buf e : at_place AtOws d buf e →
  flowed (λ d' buf', at_place AtValue d' buf' e ∧ (length buf' ≤ length buf)%nat) e (step_ows buf d).
Proof.
  intros (k & (Hv & Hc & Hh) & Hn & Hr & ->). unfold step_ows, get_unparsed, decode_ows. rewrite bind_st, bind_st. cbn [modify_st mret ST_ret].
  assert (match trim_ows buf with
    | Some u => run (AOws k (rd_head_key d)) buf = run (AValue k (rd_head_key d) []) u ∧ (length u ≤ length buf)%nat
    | None => run (AOws k (rd_head_key d)) buf = More (AOws k (rd_head_key d))
    end) as Ht.
  { induction buf as [|b buf IH]; [done|]. cbn [trim_ows run step]. destruct (_ || _); [|done].
    destruct (trim_ows buf); [|done]. destruct IH as [-> ?]. split; [done|cbn; lia]. }
  destruct (trim_ows buf) as [u|]; cbn.
  - destruct Ht as [-> Hl]. split; [|done]. exists k. cbn. rewrite Hr. by split_and!.
  - rewrite Ht. eexists. split; [done|]. cbn. by split_and!.
Qed.

Lemma value_flow d buf e : at_place AtValue d buf e →
  flowed (λ d' buf', at_place AtCrlf d' buf' e ∧ (length buf' ≤ length buf)%nat) e (step_value buf d).
Proof.
  intros (k & (Hv & Hc & Hh) & Hn & ->). unfold step_value, get_unparsed, decode_value. rewrite bind_st, bind_st. cbn [modify_st]. rewrite bind_st.
  unfold lift_res at 1, get_header_value.
  pose proof (token_loop_ok (AValue k (rd_head_key d)) is_crlf (byte_in HEADER_VALUE_BYTES) true (rd_rest d) [] buf) as Ht.
  rewrite app_nil_r in Ht. destruct (token_loop _ _ _ _ buf) as [[tok u|read]| |].
  - destruct Ht as (b & r & -> & Hb & -> & Hl). { intros acc b Hb. cbn. unfold value_step. by rewrite Hb. }
    rewrite bind_st, take_value_eq, bind_st. cbn [get_st rd_headers rd_set_rest rd_set_stage]. rewrite Hh. rewrite bind_st. cbn [put_st].
    rewrite bind_st. unfold lift_res. cbn [rd_head_key rd_rest rd_set_stage rd_set_rest run step]. unfold value_step. rewrite Hb.
    destruct (header_insert (rd_head_key d) (trim_end (rd_rest d ++ tok)) (kn_headers k)) as [h|err|] eqn:Ei.
    + cbn. split; [|done]. eexists (mkKnown (kn_version k) (kn_code k) h). split; [by split_and!|]. cbn. split_and!; [done|done|].
      by destruct (is_crlf_cases b Hb) as [->| ->].
    + done.
    + by apply header_insert_no_panic in Ei.
  - destruct Ht as [-> ->]. { intros acc b Hb. cbn. unfold value_step. by rewrite Hb. }
    cbn. eexists. split; [done|]. cbn. by split_and!.
  - destruct Ht as [-> ->]; [|done]. intros acc b Hb. cbn. unfold value_step. by rewrite Hb.
  - apply Ht. intros acc b Hb. cbn. unfold value_step. by rewrite Hb.
Qed.

Lemma crlf_flow d buf e : at_place AtCrlf d buf e →
  flowed (λ d' buf', at_place AtStart d' buf' e ∧ (length buf' ≤ length buf)%nat) e (step_crlf buf d).
Proof.
  intros (k & (Hv & Hc & Hh) & Hr & Hn & ->). unfold step_crlf, get_unparsed, decode_crlf. rewrite bind_st, bind_st. cbn [modify_st]. rewrite bind_st.
  unfold lift_res, consume_crlf, crlf_run. destruct buf as [|b buf].
  { cbn. eexists. split; [done|]. cbn. by split_and!; [..|apply Hn]. }
  destruct (Z.eqb_spec b 13) as [->|H13].
  - destruct buf as [|x buf]; cbn [run step].
    + cbn. eexists. split; [done|]. cbn. by split_and!.
    + destruct (x =? 10); [|done]. cbn. split; [|lia]. exists k. by split_and!.
  - destruct (b =? 10); [|done]. cbn. split; [|lia]. exists k. by split_and!.
Qed.

Lemma start_flow d buf e : at_place AtStart d buf e →
  flowed (λ d' buf', at_place AtKey d' buf' e ∧ (length buf' ≤ length buf)%nat) e (detect_blank buf d).
Proof.
  intros (k & (Hv & Hc & Hh) & Hn & Hr & ->). destruct buf as [|b buf]; cbn.
  { eexists. split; [done|]. cbn. by split_and!; [right|..]. }
  destruct (is_crlf b) eqn:Eb; cbn.
  - exists k, b, buf. by split_and!.
  - split; [|done]. exists k. cbn. rewrite Hr. split_and!; [by split_and!|done|]. unfold is_crlf in Eb. apply orb_false_iff in Eb as [-> ->]. done.
Qed.

(** A step from any place leads to the next. *)
Lemma place_flow p d buf e : at_place p d buf e →
  flowed (λ d' buf', at_place (next_place p) d' buf' e ∧ (length buf' ≤ length buf)%nat ∧ (p = AtKey → (length buf' < length buf)%nat)) e (place_step p buf d).
Proof.
  intros H. destruct p; cbn [place_step next_place];
    [pose proof (key_flow d buf e H) as Hf|pose proof (ows_flow d buf e H) as Hf|pose proof (value_flow d buf e H) as Hf
    |pose proof (crlf_flow d buf e H) as Hf|pose proof (start_flow d buf e H) as Hf];
    unfold flowed in *; repeat case_match; try done; destruct Hf as [? ?]; split_and!; try done; lia.
Qed.

(** The places from [p] on, and the place behind them. *)
Fixpoint places (n : nat) (p : Place) : list Place :=
  match n with O => [] | S n => p :: places n (next_place p) end.
Definition place_after (n : nat) (p : Place) : Place := Nat.iter n next_place p.

Lemma place_after_S n p : place_after (S n) p = place_after n (next_place p).
Proof. unfold place_after. induction n as [|n IH]; cbn in *; by f_equal. Qed.

Lemma run_places n p d buf e : at_place p d buf e →
  flowed (λ d' buf', at_place (place_after n p) d' buf' e ∧ (length buf' ≤ length buf)%nat ∧ (AtKey ∈ places n p → (length buf' < length buf)%nat))
    e (run_steps (map place_step (places n p)) buf d).
Proof.
  revert p d buf. induction n as [|n IH]; intros p d buf H; cbn [places map run_steps].
  { cbn. split_and!; [done|done|]. intros Hk. by apply elem_of_nil in Hk. }
  rewrite bind_st. pose proof (place_flow p d buf e H) as Hf. destruct (place_step p buf d) as [d1 [[buf1|r]|err|]]; [|done..].
  destruct Hf as (H1 & Hl & Hk). specialize (IH (next_place p) d1 buf1 H1). rewrite <- place_after_S in IH.
  destruct (run_steps _ buf1 d1) as [d2 [[buf2|r]|err|]]; try done. destruct IH as (H2 & Hl2 & Hk2).
  split_and!; [done|lia|]. intros Hin. apply elem_of_cons in Hin as [Hin|Hin]; [specialize (Hk (eq_sym Hin)); lia|specialize (Hk2 Hin); lia].
Qed.

(** The loop from any place does what the automaton does. *)
Definition returned (e : End) (x : ResponseDecoder * result RespError (option bytes)) : Prop :=
  flowed (λ _ _, False) e (match x with (d, Ok r) => (d, Ok (Return r)) | (d, Err err) => (d, Err err) | (d, Panic) => (d, Panic) end).

Lemma cycle_loop fuel p d buf e : at_place p d buf e → (length buf < fuel)%nat →
  returned e (steps_loop fuel (map place_step (places 5 p)) buf d).
Proof.
  revert d buf. induction fuel as [|fuel IH]; intros d buf H Hf; [lia|]. cbn [steps_loop]. rewrite bind_st.
  pose proof (run_places 5 p d buf e H) as Hr. destruct (run_steps _ buf d) as [d1 [[buf1|r]|err|]]; [|done..].
  destruct Hr as (H1 & _ & Hk). assert (place_after 5 p = p) as Hp by by destruct p. rewrite Hp in H1.
  apply IH; [done|]. assert (AtKey ∈ places 5 p) as Hin by (destruct p; cbn; rewrite !elem_of_cons; tauto). specialize (Hk Hin). lia.
Qed.

Lemma header_loop_ok p d buf e : at_place p d buf e → returned e (header_loop (map place_step (places 5 p)) buf d).
Proof. intros H. apply cycle_loop; [done|]. unfold header_fuel. lia. Qed.

(** *** The phases behind the status line *)

Lemma blank_crlf k d b r :
  known k d → rd_rest d = [] → rd_new_line d = false → is_crlf b = true →
  outcome (run (AStart k) (b :: r)) (blank_line_phase (b :: r) d).
Proof. intros Hk Hr Hn Hb. pose proof (blank_ok k d b r Hk Hr (λ _, Hb)) as H. by rewrite Hn in H. Qed.

Lemma header_phase_ok d buf e :
  returned e (decode_header buf d) → outcome e (header_phase buf d).
Proof.
  intros H. unfold header_phase. rewrite bind_st. unfold returned in H.
  destruct (decode_header buf d) as [d1 [[u|]|err|]]; cbn in H.
  - destruct H as (k & b & r & Hk & Hr & Hn & -> & Hb & ->). by apply blank_crlf.
  - destruct H as (a & -> & Hr). cbn. by eexists.
  - subst e. cbn. by eexists.
  - done.
Qed.

(** Where the decoder is, for a state of the automaton behind the status line. *)
Definition field_place (a : Auto) : option Place :=
  match a with
  | AStart _ => Some AtStart | AKey _ _ => Some AtKey | AOws _ _ => Some AtOws | AValue _ _ _ => Some AtValue | ACr _ => Some AtCrlf
  | _ => None
  end.

(** A CR that opens a segment behind a segment that ends in the CR of a field
    is taken, where the automaton refuses it. *)
Definition double_cr (a : Auto) (buf : bytes) : Prop := match a, buf with ACr _, 13 :: _ => True | _, _ => False end.

Lemma decode_header_ok a d buf :
  rel a d → is_Some (field_place a) → buf ≠ [] → ¬ double_cr a buf → returned (run a buf) (decode_header buf d).
Proof.
  destruct buf as [|b buf]; [done|]. intros H Hp _ Hd. unfold decode_header. rewrite bind_st. cbn [get_st].
  destruct a as [| | | |k|k acc|k key|k key acc|k|]; try by destruct Hp. all: destruct H as [Hs H].
  - destruct H as (Hk & Hr & Hn). destruct Hs as [-> | ->].
    + destruct (is_crlf b) eqn:Eb; [cbn; exists k, b, buf; by split_and!|]. apply (header_loop_ok AtKey). exists k. rewrite Hr.
      split_and!; [done|done|]. unfold is_crlf in Eb. apply orb_false_iff in Eb as [E1 E2]. cbn. by rewrite E1, E2.
    + apply (header_loop_ok AtStart). exists k. by split_and!.
  - rewrite Hs. apply (header_loop_ok AtKey). exists k. destruct H as (? & -> & ?). by split_and!.
  - rewrite Hs. apply (header_loop_ok AtOws). exists k. destruct H as (? & <- & ? & ?). by split_and!.
  - rewrite Hs. apply (header_loop_ok AtValue). exists k. destruct H as (? & <- & <- & ?). by split_and!.
  - rewrite Hs. apply (header_loop_ok AtCrlf). exists k. destruct H as (? & ? & ?). split_and!; try done. cbn [run step crlf_run].
    destruct (Z.eqb_spec b 13) as [->|]; [by destruct Hd|]. by destruct (b =? 10).
Qed.

(** ** The status line *)

Lemma init_ok v c d buf :
  rd_version d = Some v → rd_status_code d = Some c → rd_rest d = [] → rd_new_line d = false →
  outcome (run (AStart (mkKnown v c ∅)) buf) (header_phase_with_init buf d).
Proof.
  intros Hv Hc Hr Hn. unfold header_phase_with_init. rewrite bind_st. cbn [modify_st].
  destruct buf as [|b buf]; [cbn; eexists; split; [done|]; by split_and!; [left|..]|].
  assert (known (mkKnown v c ∅) (rd_set_headers (Some ∅) d)) as Hk by by split_and!.
  destruct (is_crlf b) eqn:Eb; [by apply blank_crlf|]. rewrite bind_st. cbn [modify_st]. apply header_phase_ok.
  apply (header_loop_ok AtKey). exists (mkKnown v c ∅). split; [by split_and!|]. cbn [rd_set_stage rd_set_headers rd_rest rd_new_line]. rewrite Hr.
  split; [done|]. unfold is_crlf in Eb. apply orb_false_iff in Eb as [E1 E2]. cbn. by rewrite E1, E2.
Qed.

Lemma status_crlf_ok v c d b buf :
  rd_version d = Some v → rd_status_code d = Some c → rd_rest d = [] → (rd_new_line d = false → is_crlf b = true) →
  outcome (run (if rd_new_line d then AStatusCr v c else AReason v c) (b :: buf)) (status_crlf_phase (b :: buf) d).
Proof.
  intros Hv Hc Hr Hb. unfold status_crlf_phase, decode_status_crlf. rewrite bind_st. cbn [modify_st]. rewrite !bind_st. cbn [get_st].
  rewrite bind_st. cbn [put_st rd_new_line rd_set_stage rd_set_new_line]. rewrite bind_st. unfold lift_res, consume_crlf.
  destruct (rd_new_line d); cbn [run step].
  - destruct (Z.eqb_spec b 13) as [->|H13]; [cbn; by eexists|]. destruct (b =? 10); [|by eexists].
    rewrite bind_st. cbn [modify_st mret ST_ret]. by apply init_ok.
  - destruct (is_crlf_cases b (Hb eq_refl)) as [->| ->]; cbn -[outcome run header_phase_with_init].
    + destruct buf as [|x buf]; [eexists; split; [done|by split_and!]|]. cbn [run step].
      destruct (x =? 10); [|by eexists]. by apply init_ok.
    + by apply init_ok.
Qed.

Lemma reason_ok v c d buf :
  rd_version d = Some v → rd_status_code d = Some c → rd_rest d = [] → rd_new_line d = false →
  outcome (run (AReason v c) buf) (reason_phase buf d).
Proof.
  intros Hv Hc Hr Hn. unfold reason_phase. rewrite bind_st. cbn [modify_st]. rewrite bind_st. unfold lift_res.
  assert (match decode_reason buf with
    | Ok (Some u) => ∃ b r, u = b :: r ∧ is_crlf b = true ∧ run (AReason v c) buf = run (AReason v c) u
    | Ok None => run (AReason v c) buf = More (AReason v c)
    | Err e => run (AReason v c) buf = Bad e
    | Panic => False
    end) as Ht.
  { induction buf as [|b buf IH]; [done|]. cbn [decode_reason]. destruct (is_crlf b) eqn:Eb; [by exists b, buf|].
    unfold is_crlf in Eb. apply orb_false_iff in Eb as [E1 E2]. cbn [run step]. rewrite E1, E2. by destruct (is_legal_reason_byte b). }
  destruct (decode_reason buf) as [[u|]|err|].
  - destruct Ht as (b & r & -> & Hb & ->). set (d' := rd_set_stage PReason d).
    pose proof (status_crlf_ok v c d' b r Hv Hc Hr (λ _, Hb)) as H. cbn [rd_new_line d' rd_set_stage] in H. by rewrite Hn in H.
  - rewrite Ht. eexists. split; [done|]. by split_and!.
  - rewrite Ht. by eexists.
  - done.
Qed.

Lemma status_code_ok v d buf :
  rd_version d = Some v → rd_new_line d = false →
  outcome (run (ACode v (rd_rest d)) buf) (status_code_phase buf d).
Proof.
  intros Hv Hn. unfold status_code_phase. rewrite bind_st. cbn [modify_st]. rewrite bind_st. unfold lift_res, status_token.
  assert (∀ acc b, (b =? 32) = false → step (ACode v acc) b = if is_valid_byte b then SNext (ACode v (acc ++ [b])) else bad) as Hs.
  { intros acc b Hb. cbn. by rewrite Hb. }
  pose proof (token_loop_ok (ACode v) (λ b, b =? 32) is_valid_byte false (rd_rest d) [] buf Hs) as Ht. rewrite app_nil_r in Ht.
  destruct (token_loop _ _ _ _ buf) as [[tok u|read]|err|].
  - destruct Ht as (b & r & -> & Hb & -> & _). rewrite bind_st, take_value_eq. cbn [rd_rest rd_set_stage run step]. rewrite Hb.
    destruct (StatusCode_from_bytes (rd_rest d ++ tok)); [|by eexists..]. rewrite bind_st. cbn [modify_st]. by apply reason_ok.
  - destruct Ht as [-> ->]. rewrite bind_st. eexists. split; [done|]. by split_and!.
  - destruct Ht as [-> ->]. by eexists.
  - done.
Qed.

Lemma version_ok d buf :
  rd_new_line d = false → outcome (run (AVersion (rd_rest d)) buf) (version_phase buf d).
Proof.
  intros Hn. unfold version_phase. rewrite bind_st. cbn [modify_st]. rewrite bind_st. unfold lift_res, status_token.
  assert (∀ acc b, (b =? 32) = false → step (AVersion acc) b = if is_valid_byte b then SNext (AVersion (acc ++ [b])) else bad) as Hs.
  { intros acc b Hb. cbn. by rewrite Hb. }
  pose proof (token_loop_ok AVersion (λ b, b =? 32) is_valid_byte false (rd_rest d) [] buf Hs) as Ht. rewrite app_nil_r in Ht.
  destruct (token_loop _ _ _ _ buf) as [[tok u|read]|err|].
  - destruct Ht as (b & r & -> & Hb & -> & _). rewrite bind_st, take_value_eq. cbn [rd_rest rd_set_stage run step]. rewrite Hb.
    unfold read_version. rewrite bind_st. do 2 (case_decide; [cbn [modify_st];
      by match goal with |- outcome _ (status_code_phase _ ?d') => apply (status_code_ok _ d') end|]). by eexists.
  - destruct Ht as [-> ->]. rewrite bind_st. eexists. split; [done|]. split_and!; [by right|done..].
  - destruct Ht as [-> ->]. by eexists.
  - done.
Qed.

(** ** Properties *)

Lemma response_decode_ok a d buf :
  rel a d → buf ≠ [] → ¬ double_cr a buf → outcome (run a buf) (ResponseDecoder_decode buf d).
Proof.
  intros H Hne Hd. unfold ResponseDecoder_decode. rewrite bind_st. cbn [get_st].
  destruct (field_place a) as [p|] eqn:Ep.
  { assert (∃ s, rd_stage d = PHeader s) as [s ->].
    { destruct a as [| | | |k|k acc|k key|k key acc|k|]; try done; cbn in H; destruct H as [H _]; [destruct H|..]; by eexists. }
    apply header_phase_ok, decode_header_ok; try done. }
  destruct buf as [|b buf]; [done|]. destruct a as [acc|v acc|v c|v c| | | | | |k]; try done.
  - destruct H as (Hs & <- & Hn). destruct Hs as [-> | ->]; by apply version_ok.
  - destruct H as (-> & Hv & <- & Hn). by apply status_code_ok.
  - destruct H as (-> & Hv & Hc & Hr & Hn). by apply reason_ok.
  - destruct H as (-> & Hv & Hc & Hr & Hn). pose proof (status_crlf_ok v c d b buf Hv Hc Hr) as H. rewrite Hn in H. by apply H.
  - destruct H as (-> & Hk & Hr & Hn). pose proof (blank_ok k d b buf Hk Hr) as H. rewrite Hn in H. by apply H.
Qed.

(** on a segment that is not empty, [ResponseDecoder::decode] does, from any
    state it reaches, what the automaton that reads the response byte by byte
    does: it asks for more and is in the state of the automaton, returns the
    version, the status and the fields with what is behind the empty line, or
    refuses the response, with the same error; it does not panic.  The one
    exception is a segment that opens with a CR behind one that ended in the CR
    of a field, which the decoder takes. *)
Theorem response_decode_refines (a : Auto) (d : ResponseDecoder) (buf : bytes) :
  rel a d → buf ≠ [] → ¬ double_cr a buf → outcome (run a buf) (ResponseDecoder_decode buf d).
Proof. apply response_decode_ok. Qed.

Lemma response_decode_refines_witness :
  outcome (run (AVersion []) (bs "HTTP/1.1 200 OK" ++ [13; 10] ++ bs "a:  b " ++ [13; 10; 13; 10] ++ bs "c"))
    (ResponseDecoder_decode (bs "HTTP/1.1 200 OK" ++ [13; 10] ++ bs "a:  b " ++ [13; 10; 13; 10] ++ bs "c") ResponseDecoder_new).
Proof. apply (response_decode_refines (AVersion []) ResponseDecoder_new); [split_and!; [left|..]; reflexivity|done|intros []]. Defined.

(** Segments in a row, until the response is complete or refused. *)
Fixpoint decode_segments (segs : list bytes) : Dec (option (ResponsePart * bytes)) :=
  match segs with
  | [] => mret None
  | seg :: segs => r ← ResponseDecoder_decode seg; match r with Some (p, rest) => mret (Some (p, rest ++ concat segs)) | None => decode_segments segs end
  end.

Lemma response_run_app a b1 b2 :
  run a (b1 ++ b2) = match run a b1 with More a => run a b2 | Done k rest => Done k (rest ++ b2) | Bad e => Bad e end.
Proof. revert a. induction b1 as [|b b1 IH]; intros a; [done|]. cbn [app run]. by destruct (step a b). Qed.

(** The automaton is behind the CR of a field only at the end of a segment that ends in CR. *)
Lemma run_cr a buf k : buf ≠ [] → run a buf = More (ACr k) → last buf = Some 13.
Proof.
  revert a. induction buf as [|b buf IH]; intros a Hne H; [done|]. cbn [run] in H.
  destruct buf as [|x buf]; [|destruct (step a b); [|done..]; by apply (IH a0)].
  destruct (step a b) as [a'| |] eqn:Es; [|done..]. cbn in H. injection H as ->. cbn.
  destruct (Z.eqb_spec b 13) as [->|Hb]; [done|]. apply Z.eqb_neq in Hb.
  destruct a; cbn in Es; unfold key_step, value_step in Es; rewrite ?Hb in Es; repeat case_match; simplify_eq.
Qed.

(** No segment is empty, and no CR stands on both sides of a cut. *)
Fixpoint cuts_ok (segs : list bytes) : Prop :=
  match segs with
  | [] => True
  | seg :: segs => seg ≠ [] ∧ ¬ (last seg = Some 13 ∧ head (concat segs) = Some 13) ∧ cuts_ok segs
  end.

Lemma double_cr_app a b1 b2 : b1 ≠ [] → double_cr a b1 → double_cr a (b1 ++ b2).
Proof. by destruct a, b1 as [|? b1]. Qed.

(** C9: a response may be cut into any segments, where none is empty and no cut
    is between two CRs: decoded one after the other they give what the automaton
    gives on the whole, the same part, the same bytes behind it, or the same
    error; cutting a response changes nothing. *)
Theorem response_decode_segments (a : Auto) (d : ResponseDecoder) (segs : list bytes) :
  rel a d → cuts_ok segs → ¬ double_cr a (concat segs) → outcome (run a (concat segs)) (decode_segments segs d).
Proof.
  revert a d. induction segs as [|seg segs IH]; intros a d H Hc Hd; [by eexists|].
  destruct Hc as (Hne & Hcr & Hc). cbn [concat decode_segments] in *.
  assert (¬ double_cr a seg) as Hd' by (intros ?; by apply Hd, double_cr_app).
  pose proof (response_decode_ok a d seg H Hne Hd') as Ho. rewrite response_run_app, bind_st.
  destruct (run a seg) as [a'|k rest|e] eqn:Er; cbn [outcome] in Ho.
  - destruct Ho as (d1 & -> & H1). apply IH; [done..|]. intros Hd2. apply Hcr. destruct a'; try done.
    apply run_cr in Er; [|done]. split; [done|]. destruct (concat segs) as [|x l]; [done|]. cbn in Hd2. cbn. destruct x; try done.
    repeat match goal with p : positive |- _ => destruct p; try done end.
  - destruct Ho as (d1 & ->). by eexists.
  - destruct Ho as (d1 & ->). by eexists.
Qed.

Lemma response_decode_segments_witness :
  let segs := [bs "HT"; bs "TP/1.0 40"; bs "4 Not" ++ [13]; [10] ++ bs "a"; bs "b:" ; bs " "; bs "c" ++ [13; 10; 13]; [10]] in
  outcome (run (AVersion []) (concat segs)) (decode_segments segs ResponseDecoder_new).
Proof.
  apply (response_decode_segments (AVersion []) ResponseDecoder_new); [split_and!; [left|..]; reflexivity| |intros []].
  cbn. split_and!; try done; by intros [].
Defined.

(** *** What the automaton shows of the decoder *)

Definition decoded (x : ResponseDecoder * result RespError (option (ResponsePart * bytes))) : result RespError (option (list (bytes * HeaderValue) * bytes)) :=
  match snd x with
  | Ok (Some (p, rest)) => Ok (Some (map_to_list (sp_headers p), rest))
  | Ok None => Ok None
  | Err e => Err e
  | Panic => Panic
  end.

(** A CR, the end of a segment, and CR LF again: taken; at once: refused. *)
Example cr_twice_across_segments :
  decoded (decode_segments [bs "HTTP/1.1 200 OK" ++ [13; 10] ++ bs "a:b" ++ [13]; [13; 10; 13; 10]] ResponseDecoder_new)
    = Ok (Some ([(bs "a", mkHeaderValue [bs "b"] false)], [])) ∧
  decoded (decode_segments [bs "HTTP/1.1 200 OK" ++ [13; 10] ++ bs "a:b" ++ [13; 13; 10; 13; 10]] ResponseDecoder_new)
    = Err (EH1 InvalidResponse).
Proof. by vm_compute. Qed.

(** A field without a name is taken. *)
Example empty_name_taken :
  decoded (ResponseDecoder_decode (bs "HTTP/1.1 200 OK" ++ [13; 10] ++ bs ":v" ++ [13; 10; 13; 10]) ResponseDecoder_new)
    = Ok (Some ([([], mkHeaderValue [bs "v"] false)], [])).
Proof. by vm_compute. Qed.

(** Called once more behind the end of a response, the decoder panics. *)
Example decode_behind_end_panics :
  snd (ResponseDecoder_decode [13; 10] (fst (ResponseDecoder_decode (bs "HTTP/1.1 200 OK" ++ [13; 10; 13; 10]) ResponseDecoder_new))) = Panic.
Proof. by vm_compute. Qed.

(** ** Responses in the form of the standard *)

Definition is_ows (b : Z) : bool := (b =? 32) || (b =? 9).

(** A field line: the name, white space around the value. *)
Record FieldLine := mkFieldLine { fl_name : bytes; fl_before : bytes; fl_value : bytes; fl_behind : bytes }.
Definition field_line (f : FieldLine) : bytes :=
  fl_name f ++ [58] ++ fl_before f ++ fl_value f ++ fl_behind f ++ [13; 10].

Definition field_line_ok (f : FieldLine) : Prop :=
  fl_name f ≠ [] ∧ Forall (λ b, byte_in HEADER_NAME_BYTES b = true) (fl_name f) ∧
  Forall (λ b, is_ows b = true) (fl_before f) ∧ Forall (λ b, is_ows b = true) (fl_behind f) ∧
  Forall (λ b, byte_in HEADER_VALUE_BYTES b = true) (fl_value f) ∧
  trim_end (fl_value f) = fl_value f ∧ match fl_value f with b :: _ => is_ows b = false | [] => True end.

Fixpoint insert_lines (fs : list FieldLine) (h : Headers) : result RespError Headers :=
  match fs with
  | [] => Ok h
  | f :: fs => match header_insert (fl_name f) (fl_value f) h with Ok h => insert_lines fs h | Err e => Err e | Panic => Panic end
  end.

Definition response_bytes (version code reason : bytes) (fs : list FieldLine) (body : bytes) : bytes :=
  version ++ [32] ++ code ++ [32] ++ reason ++ [13; 10] ++ concat (map field_line fs) ++ [13; 10] ++ body.

(** A token of valid bytes, from any state that reads one. *)
Lemma run_token (f : bytes → Auto) (P : Z → bool) acc tok r :
  (∀ acc b, P b = true → step (f acc) b = SNext (f (acc ++ [b]))) → Forall (λ b, P b = true) tok →
  run (f acc) (tok ++ r) = run (f (acc ++ tok)) r.
Proof.
  intros Hs Ht. revert acc. induction Ht as [|b tok Hb Ht IH]; intros acc; [by rewrite app_nil_r|].
  cbn [app run]. rewrite Hs, IH by done. by rewrite <- app_assoc.
Qed.

Lemma table_excludes (l : list bool) (b c : Z) : byte_in l b = true → byte_in l c = false → (b =? c) = false.
Proof. intros Hb Hc. apply Z.eqb_neq. intros ->. congruence. Qed.

Lemma value_no_crlf b : byte_in HEADER_VALUE_BYTES b = true → is_crlf b = false.
Proof. intros H. unfold is_crlf. by rewrite !(table_excludes _ b _ H). Qed.

Lemma ows_value b : is_ows b = true → byte_in HEADER_VALUE_BYTES b = true.
Proof. unfold is_ows. rewrite orb_true_iff, !Z.eqb_eq. by intros [->| ->]. Qed.

Lemma trim_end_app v w : Forall (λ b, is_ows b = true) w → trim_end (v ++ w) = trim_end v.
Proof.
  intros H. assert (trim_end w = []) as Hw.
  { induction H as [|b w Hb _ IH]; [done|]. cbn. rewrite IH. unfold is_ows in Hb. by rewrite Hb. }
  induction v as [|b v IH]; [done|]. cbn [app trim_end]. by rewrite IH.
Qed.

Lemma key_step_token k acc b : byte_in HEADER_NAME_BYTES b = true → key_step k acc b = SNext (AKey k (acc ++ [b])).
Proof. intros Hb. unfold key_step. by rewrite (table_excludes _ b 58 Hb eq_refl), Hb. Qed.

Lemma run_value k key v r :
  Forall (λ b, byte_in HEADER_VALUE_BYTES b = true) v →
  run (AValue k key []) (v ++ [13; 10] ++ r) =
    match header_insert key (trim_end v) (kn_headers k) with
    | Ok h => run (AStart (mkKnown (kn_version k) (kn_code k) h)) r
    | Err e => Bad e
    | Panic => Bad (EH1 InvalidResponse)
    end.
Proof.
  intros Hv. rewrite (run_token (AValue k key) (byte_in HEADER_VALUE_BYTES)); [|intros acc b Hb|done].
  - cbn [app run step]. unfold value_step. cbn [is_crlf Z.eqb Pos.eqb orb]. by destruct (header_insert _ _ _).
  - cbn. unfold value_step. by rewrite value_no_crlf, Hb.
Qed.

(** Behind white space, before a byte that is none, the value begins. *)
Lemma run_ows k key w b r :
  Forall (λ b, is_ows b = true) w → is_ows b = false → run (AOws k key) (w ++ b :: r) = run (AValue k key []) (b :: r).
Proof.
  intros Hw Hb. induction Hw as [|x w Hx _ IH]; cbn [app run step]; unfold is_ows in *; [by rewrite Hb|by rewrite Hx].
Qed.

Lemma run_field k f r :
  field_line_ok f →
  run (AStart k) (field_line f ++ r) =
    match header_insert (fl_name f) (fl_value f) (kn_headers k) with
    | Ok h => run (AStart (mkKnown (kn_version k) (kn_code k) h)) r
    | Err e => Bad e
    | Panic => Bad (EH1 InvalidResponse)
    end.
Proof.
  destruct f as [name w v w']. unfold field_line, field_line_ok. cbn [fl_name fl_before fl_value fl_behind].
  intros (Hne & Hn & Hw & Hw' & Hv & Ht & Hh). rewrite <- !app_assoc.
  assert (run (AStart k) (name ++ [58] ++ w ++ v ++ w' ++ [13; 10] ++ r) = run (AOws k name) (w ++ v ++ w' ++ [13; 10] ++ r)) as ->.
  { destruct name as [|b name]; [done|]. inversion Hn as [|? ? Hb Hn']; subst. cbn [app run step].
    rewrite !(table_excludes _ b _ Hb) by done. rewrite key_step_token by done.
    rewrite (run_token (AKey k) (byte_in HEADER_NAME_BYTES)); [done|intros; by apply key_step_token|done]. }
  assert (Forall (λ b, byte_in HEADER_VALUE_BYTES b = true) w') as Hv' by (eapply Forall_impl; [exact Hw'|apply ows_value]).
  destruct v as [|b v].
  - rewrite app_nil_l, app_assoc. change ([13; 10] ++ r) with (13 :: 10 :: r). rewrite run_ows; [|by apply Forall_app|done].
    by apply (run_value k name []).
  - rewrite <- Ht at 2. rewrite <- (trim_end_app (b :: v) w' Hw'). change ((b :: v) ++ w' ++ [13; 10] ++ r) with (b :: (v ++ w' ++ [13; 10] ++ r)). rewrite run_ows by done.
    rewrite <- run_value by by apply Forall_app. by rewrite <- !app_assoc.
Qed.

Lemma run_fields fs k h r :
  Forall field_line_ok fs → insert_lines fs (kn_headers k) = Ok h →
  run (AStart k) (concat (map field_line fs) ++ [13; 10] ++ r) = Done (mkKnown (kn_version k) (kn_code k) h) r.
Proof.
  intros H. revert k. induction H as [|f fs Hf _ IH]; intros k Hi; cbn [map concat insert_lines] in *; [injection Hi as <-; by destruct k|].
  rewrite <- app_assoc, run_field by done. destruct (header_insert _ _ _) as [h'| |]; [|done..]. by rewrite (IH (mkKnown _ _ h')).
Qed.

Lemma run_status_line version v code c reason r :
  read_version version = Some v → Forall (λ b, is_valid_byte b && negb (b =? 32) = true) code → StatusCode_from_bytes code = Ok c →
  Forall (λ b, is_legal_reason_byte b = true) reason →
  run (AVersion []) (version ++ [32] ++ code ++ [32] ++ reason ++ [13; 10] ++ r) = run (AStart (mkKnown v c ∅)) r.
Proof.
  intros Hv Hcode Hc Hr.
  assert (∀ r, run (AVersion []) (version ++ [32] ++ r) = run (ACode v []) r) as ->.
  { intros r'. revert Hv. unfold read_version. repeat case_decide; intros Hv; simplify_eq; reflexivity. }
  rewrite (run_token (ACode v) (λ b, is_valid_byte b && negb (b =? 32))); [|intros acc b Hb|done].
  2:{ apply andb_true_iff in Hb as [Hb1 Hb2%negb_true_iff]. cbn. by rewrite Hb1, Hb2. }
  cbn [app run step]. rewrite Hc. change (32 =? 32) with true. cbn [run].
  rewrite (run_token (λ _, AReason v c) is_legal_reason_byte []); [done| |done].
  intros _ b Hb. cbn. assert ((b =? 13) = false ∧ (b =? 10) = false) as [-> ->]; [|by rewrite Hb].
  rewrite !Z.eqb_neq. split; intros ->; done.
Qed.

(** a response in the form of the standard, a status line with a known
    version, a code and a reason, lines of fields with any white space around
    their values, an empty line and a body, is decoded to its version, its code
    and its fields, appended one by one in their order under their lower-case
    names and without the white space, and the body is returned as it is. *)
Theorem response_wellformed (version code reason body : bytes) (v : Version) (c : StatusCode) (fs : list FieldLine) (h : Headers) :
  read_version version = Some v → Forall (λ b, is_valid_byte b && negb (b =? 32) = true) code → StatusCode_from_bytes code = Ok c →
  Forall (λ b, is_legal_reason_byte b = true) reason → Forall field_line_ok fs → insert_lines fs ∅ = Ok h →
  snd (ResponseDecoder_decode (response_bytes version code reason fs body) ResponseDecoder_new) =
    Ok (Some (mkResponsePart v c h, body)).
Proof.
  intros Hv Hcode Hc Hr Hf Hi. unfold response_bytes. set (buf := version ++ _).
  assert (run (AVersion []) buf = Done (mkKnown v c h) body) as Hrun.
  { unfold buf. rewrite (run_status_line version v code c reason) by done. by apply (run_fields fs (mkKnown v c ∅)). }
  assert (outcome (run (AVersion []) buf) (ResponseDecoder_decode buf ResponseDecoder_new)) as Hd.
  { apply response_decode_ok; [split_and!; [by left|done..]|by destruct version|by intros []]. }
  rewrite Hrun in Hd. destruct Hd as [d ->]. done.
Qed.

Lemma response_wellformed_witness :
  let fs := [mkFieldLine (bs "Date") (bs " ") (bs "a b") []; mkFieldLine (bs "x") [] [] [9; 32]; mkFieldLine (bs "date") [] (bs "c") []] in
  snd (ResponseDecoder_decode (response_bytes (bs "HTTP/1.1") (bs "404") (bs "Not Found") fs (bs "body")) ResponseDecoder_new) =
    Ok (Some (mkResponsePart Http11 404
      (<[bs "date" := mkHeaderValue [bs "a b"; bs "c"] false]> (<[bs "x" := mkHeaderValue [[]] false]> (<[bs "date" := mkHeaderValue [bs "a b"] false]> ∅))), bs "body")).
Proof.
  apply (response_wellformed _ _ _ _ Http11); [reflexivity| |reflexivity| | |reflexivity].
  - repeat constructor.
  - repeat constructor.
  - repeat (constructor; [unfold field_line_ok; split_and!; cbn [fl_name fl_before fl_value fl_behind]; first [done|reflexivity|repeat constructor]|]). constructor.
Defined.
