(* ===== verification/Base64.v ===== *)
(** * Base64

    Models [src/ylong_http_client/src/util/base64.rs], which writes the user and
    the password of a proxy, against a decoder in the terms of RFC 4648. *)

From S2P Require Import Prelude.
#[local] Open Scope Z_scope.

Definition BASE64_TABLE : bytes := bs "ABCDEFGHIJKLMNOPQRSTUVWXYZabcdefghijklmnopqrstuvwxyz0123456789+/".

Definition table_at (k : Z) : Z := nth (Z.to_nat k) BASE64_TABLE 0.

(** [encode]: the chunks of three bytes. *)
Fixpoint encode (input : bytes) : bytes :=
  match input with
  | [] => []
  | [a] =>
      [table_at (Z.land (Z.shiftr a 2) 0x3f); table_at (Z.shiftl (Z.land a 0x3) 4); 61; 61]
  | [a; b] =>
      [table_at (Z.land (Z.shiftr a 2) 0x3f);
       table_at (Z.lor (Z.shiftl (Z.land a 0x3) 4) (Z.land (Z.shiftr b 4) 0xf));
       table_at (Z.shiftl (Z.land b 0xf) 2); 61]
  | a :: b :: c :: input =>
      table_at (Z.land (Z.shiftr a 2) 0x3f) ::
      table_at (Z.lor (Z.shiftl (Z.land a 0x3) 4) (Z.land (Z.shiftr b 4) 0xf)) ::
      table_at (Z.lor (Z.shiftl (Z.land b 0xf) 2) (Z.land (Z.shiftr c 6) 0x3)) ::
      table_at (Z.land c 0x3f) :: encode input
  end.

(** ** A decoder *)

(** The value of a character, RFC 4648 section 4. *)
Definition char_value (c : Z) : option Z :=
  if (65 <=? c) && (c <=? 90) then Some (c - 65)
  else if (97 <=? c) && (c <=? 122) then Some (c - 71)
  else if (48 <=? c) && (c <=? 57) then Some (c + 4)
  else if c =? 43 then Some 62
  else if c =? 47 then Some 63
  else None.

(** Four characters are a number of 24 bits; only the last four may be padded,
    and the bits that padding leaves over are 0. *)
Fixpoint decode (l : bytes) : option bytes :=
  match l with
  | [] => Some []
  | x :: y :: 61 :: 61 :: [] =>
      x ← char_value x; y ← char_value y; if y mod 16 =? 0 then Some [(x * 64 + y) / 16] else None
  | x :: y :: z :: 61 :: [] =>
      x ← char_value x; y ← char_value y; z ← char_value z;
      let n := (x * 64 + y) * 64 + z in if n mod 4 =? 0 then Some [n / 1024; n / 4 mod 256] else None
  | x :: y :: z :: w :: l =>
      x ← char_value x; y ← char_value y; z ← char_value z; w ← char_value w;
      let n := ((x * 64 + y) * 64 + z) * 64 + w in rest ← decode l;
      Some (n / 65536 :: n / 256 mod 256 :: n mod 256 :: rest)
  | _ => None
  end.

(** ** The table *)

Lemma table_value k : 0 ≤ k < 64 → char_value (table_at k) = Some k ∧ table_at k ≠ 61.
Proof.
  intros Hk. assert (Forall (λ k, char_value (table_at k) = Some k ∧ table_at k ≠ 61) (seqZ 0 64)) as H.
  { vm_compute. repeat constructor; discriminate. }
  rewrite Forall_forall in H. by apply H, elem_of_seqZ.
Qed.

(** The indices, as arithmetic. *)
Lemma high_6 a : is_byte a → Z.land (Z.shiftr a 2) 0x3f = a / 4 ∧ 0 ≤ a / 4 < 64.
Proof.
  unfold is_byte. intros H. change 0x3f with (2 ^ 6 - 1). rewrite land_mask, Z.shiftr_div_pow2 by lia. change (2 ^ 2) with 4. change (2 ^ 6) with 64.
  assert (0 ≤ a / 4 < 64) by (Z.div_mod_to_equations; lia). by rewrite Z.mod_small.
Qed.

Lemma low_2 a : Z.shiftl (Z.land a 0x3) 4 = a mod 4 * 16 ∧ 0 ≤ a mod 4 < 4.
Proof. change 0x3 with (2 ^ 2 - 1). rewrite land_mask, Z.shiftl_mul_pow2 by lia. change (2 ^ 2) with 4. change (2 ^ 4) with 16. split; [done|]. by apply Z.mod_pos_bound. Qed.

Lemma low_4 b : Z.shiftl (Z.land b 0xf) 2 = b mod 16 * 4 ∧ 0 ≤ b mod 16 < 16.
Proof. change 0xf with (2 ^ 4 - 1). rewrite land_mask, Z.shiftl_mul_pow2 by lia. change (2 ^ 2) with 4. change (2 ^ 4) with 16. split; [done|]. by apply Z.mod_pos_bound. Qed.

Lemma middle_1 a b : is_byte b → Z.lor (Z.shiftl (Z.land a 0x3) 4) (Z.land (Z.shiftr b 4) 0xf) = a mod 4 * 16 + b / 16 ∧ 0 ≤ b / 16 < 16.
Proof.
  unfold is_byte. intros H. destruct (low_2 a) as [-> Ha]. change 0xf with (2 ^ 4 - 1). rewrite land_mask, Z.shiftr_div_pow2 by lia. change (2 ^ 4) with 16.
  assert (0 ≤ b / 16 < 16) by (Z.div_mod_to_equations; lia). rewrite (Z.mod_small (b / 16)) by done. split; [|done].
  apply (lor_add _ _ 4); [lia|by apply Z.mod_mul|done].
Qed.

Lemma middle_2 b c : is_byte c → Z.lor (Z.shiftl (Z.land b 0xf) 2) (Z.land (Z.shiftr c 6) 0x3) = b mod 16 * 4 + c / 64 ∧ 0 ≤ c / 64 < 4.
Proof.
  unfold is_byte. intros H. destruct (low_4 b) as [-> Hb]. change 0x3 with (2 ^ 2 - 1). rewrite land_mask, Z.shiftr_div_pow2 by lia. change (2 ^ 2) with 4. change (2 ^ 6) with 64.
  assert (0 ≤ c / 64 < 4) by (Z.div_mod_to_equations; lia). rewrite (Z.mod_small (c / 64)) by done. split; [|done].
  apply (lor_add _ _ 2); [lia|by apply Z.mod_mul|done].
Qed.

Lemma low_6 c : Z.land c 0x3f = c mod 64 ∧ 0 ≤ c mod 64 < 64.
Proof. change 0x3f with (2 ^ 6 - 1). rewrite land_mask by lia. change (2 ^ 6) with 64. split; [done|]. by apply Z.mod_pos_bound. Qed.

(** The decoder on a full group, and on the two padded ones. *)
Lemma decode_full x y z w l :
  0 ≤ x < 64 → 0 ≤ y < 64 → 0 ≤ z < 64 → 0 ≤ w < 64 →
  decode (table_at x :: table_at y :: table_at z :: table_at w :: l) =
    let n := ((x * 64 + y) * 64 + z) * 64 + w in rest ← decode l; Some (n / 65536 :: n / 256 mod 256 :: n mod 256 :: rest).
Proof.
  intros Hx Hy Hz Hw. destruct (table_value x Hx) as [Ex _], (table_value y Hy) as [Ey _], (table_value z Hz) as [Ez Nz], (table_value w Hw) as [Ew Nw].
  cbn [decode]. rewrite Ex, Ey, Ez, Ew. cbn [mbind option_bind].
  destruct (table_at w) as [|p|p]; [done| |done]. destruct (table_at z) as [|q|q]; try done;
  repeat match goal with p : positive |- _ => destruct p; try done end.
Qed.

Lemma decode_two x y : 0 ≤ x < 64 → 0 ≤ y < 64 →
  decode [table_at x; table_at y; 61; 61] = if y mod 16 =? 0 then Some [(x * 64 + y) / 16] else None.
Proof.
  intros Hx Hy. destruct (table_value x Hx) as [Ex _], (table_value y Hy) as [Ey _].
  cbn [decode]. by rewrite Ex, Ey.
Qed.

Lemma decode_three x y z : 0 ≤ x < 64 → 0 ≤ y < 64 → 0 ≤ z < 64 →
  decode [table_at x; table_at y; table_at z; 61] =
    let n := (x * 64 + y) * 64 + z in if n mod 4 =? 0 then Some [n / 1024; n / 4 mod 256] else None.
Proof.
  intros Hx Hy Hz. destruct (table_value x Hx) as [Ex _], (table_value y Hy) as [Ey _], (table_value z Hz) as [Ez Nz].
  cbn [decode]. rewrite Ex, Ey, Ez. cbn [mbind option_bind].
  destruct (table_at z) as [|q|q]; try done; repeat match goal with p : positive |- _ => destruct p; try done end.
Qed.

(** Induction by the chunks of three bytes. *)
Lemma chunks_ind (P : bytes → Prop) :
  P [] → (∀ a, P [a]) → (∀ a b, P [a; b]) → (∀ a b c l, P l → P (a :: b :: c :: l)) → ∀ l, P l.
Proof.
  intros H0 H1 H2 H3 l. assert (∀ n l, (length l ≤ n)%nat → P l) as H; [|by apply (H (length l))].
  clear l. induction n as [|n IH]; intros l Hl; [by destruct l; [|cbn in Hl; lia]|].
  destruct l as [|a [|b [|c l]]]; [done|done|done|]. apply H3, IH. cbn in Hl. lia.
Qed.

(** [encode] writes base64: a decoder of RFC 4648, which refuses padding
    inside and bits behind the end, reads back the bytes; four characters stand
    for each three bytes begun. *)
Theorem base64_roundtrip (l : bytes) :
  Forall is_byte l → decode (encode l) = Some l ∧ len (encode l) = 4 * ((len l + 2) / 3).
Proof.
  induction l as [|a|a b|a b c l IH] using chunks_ind; intros H; [done|..]; rewrite !Forall_cons in H.
  - destruct H as [Ha _]. cbn [encode]. destruct (high_6 a Ha) as [-> H1], (low_2 a) as [-> H2]. split; [|done].
    rewrite decode_two by lia. rewrite Z.mod_mul by lia. cbn. do 2 f_equal. clear Ha. Z.div_mod_to_equations. lia.
  - destruct H as (Ha & Hb & _). cbn [encode]. destruct (high_6 a Ha) as [-> H1], (middle_1 a b Hb) as [-> H2], (low_4 b) as [-> H3]. split; [|done].
    pose proof (low_2 a) as [_ H4]. rewrite decode_three by lia. cbv zeta.
    destruct (Z.eqb_spec (((a / 4 * 64 + (a mod 4 * 16 + b / 16)) * 64 + b mod 16 * 4) mod 4) 0) as [_|E];
      [|exfalso; apply E; clear; Z.div_mod_to_equations; lia].
    unfold is_byte in *. repeat f_equal; Z.div_mod_to_equations; lia.
  - destruct H as (Ha & Hb & Hc & H). destruct (IH H) as [IHd IHl]. cbn [encode].
    destruct (high_6 a Ha) as [-> H1], (middle_1 a b Hb) as [-> H2], (middle_2 b c Hc) as [-> H3], (low_6 c) as [-> H4].
    pose proof (low_2 a) as [_ H5]. pose proof (low_4 b) as [_ H6]. split.
    + rewrite decode_full, IHd by lia. cbv zeta. cbn [mbind option_bind]. unfold is_byte in *. repeat f_equal; Z.div_mod_to_equations; lia.
    + rewrite !len_cons, IHl. replace (1 + (1 + (1 + len l)) + 2) with (len l + 2 + 1 * 3) by lia. rewrite Z.div_add by lia. lia.
Qed.

Lemma base64_roundtrip_witness :
  decode (encode (bs "user:pass")) = Some (bs "user:pass") ∧ len (encode (bs "user:pass")) = 12.
Proof. apply (base64_roundtrip (bs "user:pass")). by apply bytesb_ok. Defined.

Example encode_known : encode (bs "this is an example") = bs "dGhpcyBpcyBhbiBleGFtcGxl" ∧ encode (bs "hello") = bs "aGVsbG8=".
Proof. done. Qed.

(** What is written can stand in a header field. *)
Lemma encode_chars l : Forall is_byte l → Forall (λ c, 43 ≤ c ≤ 122) (encode l).
Proof.
  assert (∀ k, 0 ≤ k < 64 → 43 ≤ table_at k ≤ 122) as Ht.
  { intros k Hk. assert (Forall (λ k, 43 ≤ table_at k ≤ 122) (seqZ 0 64)) as H by (vm_compute; repeat constructor; discriminate).
    rewrite Forall_forall in H. by apply H, elem_of_seqZ. }
  induction l as [|a|a b|a b c l IH] using chunks_ind; intros H; [constructor|..]; rewrite !Forall_cons in H; cbn [encode].
  - destruct H as [Ha _]. destruct (high_6 a Ha) as [-> H1], (low_2 a) as [-> H2]. repeat constructor; try apply Ht; lia.
  - destruct H as (Ha & Hb & _). destruct (high_6 a Ha) as [-> H1], (middle_1 a b Hb) as [-> H2], (low_4 b) as [-> H3], (low_2 a) as [_ H4].
    repeat constructor; try apply Ht; lia.
  - destruct H as (Ha & Hb & Hc & H).
    destruct (high_6 a Ha) as [-> H1], (middle_1 a b Hb) as [-> H2], (middle_2 b c Hc) as [-> H3], (low_6 c) as [-> H4], (low_2 a) as [_ H5], (low_4 b) as [_ H6].
    repeat constructor; try apply IH; try done; try apply Ht; lia.
Qed.
