(* ===== verification/Normalizer.v ===== *)
(** * Requests before they are sent, responses before their body is read

    Models [src/ylong_http_client/src/util/normalizer.rs]: the URI of a request
    gets a scheme, a port and a path, the headers a host; and the length of the
    body of a response.  The feature [__tls], which chooses the default scheme,
    is the argument [tls]; [http1_1] is on. *)

From stdpp Require Import gmap.
From S2P Require Import Prelude Headers Message Uri H1Decoder.
#[local] Open Scope Z_scope.

(** [ErrorKind] of the client, of its kinds those that occur. *)
Inductive ClientError := CRequest | CBuild | CRedirect.

(** What a request holds but its body. *)
Record Request := mkRequest { rq_method : Method; rq_version : Version; rq_uri : Uri; rq_headers : Headers }.
Definition rq_set_uri (u : Uri) (r : Request) : Request := mkRequest (rq_method r) (rq_version r) u (rq_headers r).
Definition rq_set_headers (h : Headers) (r : Request) : Request := mkRequest (rq_method r) (rq_version r) (rq_uri r) h.
Definition rq_set_method (m : Method) (r : Request) : Request := mkRequest m (rq_version r) (rq_uri r) (rq_headers r).

(** ** [UriFormatter] *)

(** An unsigned integer as text; a [u16] has at most five digits, a [u64]
    twenty. *)
Fixpoint dec_digits (fuel : nat) (n : Z) : bytes :=
  match fuel with
  | O => []
  | S fuel => if n <? 10 then [48 + n] else dec_digits fuel (n / 10) ++ [48 + n mod 10]
  end.
Definition decimal (n : Z) : bytes := dec_digits 20 n.

(** The methods of [UriBuilder] on a part that is a part already. *)
Definition put_scheme (s : Scheme) (b : UriBuilder) : UriBuilder :=
  u ← b; mret (mkUri (Some s) (uri_authority u) (uri_path u) (uri_query u)).
Definition put_authority (a : Authority) (b : UriBuilder) : UriBuilder :=
  u ← b; mret (mkUri (uri_scheme u) (Some a) (uri_path u) (uri_query u)).
Definition put_path (p : bytes) (b : UriBuilder) : UriBuilder :=
  u ← b; mret (mkUri (uri_scheme u) (uri_authority u) (Some p) (uri_query u)).
Definition put_query (q : bytes) (b : UriBuilder) : UriBuilder :=
  u ← b; mret (mkUri (uri_scheme u) (uri_authority u) (uri_path u) (Some q)).

Definition uri_host (u : Uri) : option bytes := auth_host <$> uri_authority u.
Definition uri_port (u : Uri) : option bytes := uri_authority u ≫= auth_port.
Definition ok_of {E A} (r : result E A) : option A := match r with Ok a => Some a | _ => None end.

(** [UriFormatter::format]: the new URI. *)
Definition UriFormatter_format (tls : bool) (u : Uri) : result ClientError Uri :=
  match uri_host u with
  | None => Err CRequest
  | Some host =>
      let scheme := from_option id (if tls then PHttps else PHttp) (uri_scheme u) in
      let port := match (p ← uri_port u; ok_of (Port_as_u16 p)) with
                  | Some port => port
                  | None => match scheme with PHttps => 443 | PHttp => 80 end
                  end in
      let b := builder_authority (host ++ bs ":" ++ decimal port) (put_scheme scheme UriBuilder_new) in
      let b := match uri_path u with None => builder_path (bs "/") b | Some path => put_path path b end in
      let b := match uri_query u with Some query => put_query query b | None => b end in
      match UriBuilder_build b with Ok u => Ok u | Err _ => Err CRequest | Panic => Panic end
  end.

(** ** [RequestFormatter] *)

Definition format_host_value (u : Uri) : result ClientError bytes :=
  match uri_host u, uri_port u with
  | Some host, Some port =>
      match Port_as_u16 port with
      | Ok p =>
          if p =? default_port (from_option id PHttp (uri_scheme u)) then Ok host
          else match uri_authority u with Some a => Ok (Authority_to_str a) | None => Panic end
      | Err _ => Err CRequest
      | Panic => Panic
      end
  | Some host, None => Ok host
  | None, _ => Err CRequest
  end.

(** [let _ = headers.insert(name, value)]. *)
Definition insert_ignored (name value : bytes) (r : Request) : Request :=
  rq_set_headers (Headers_insert name value (rq_headers r)).1 r.

Definition RequestFormatter_format (tls : bool) : ST Request ClientError () :=
  r ← get_st;
  if bool_decide (rq_version r = Http10) && bool_decide (rq_method r = Connect) then throw CRequest
  else
    u ← lift_res (UriFormatter_format tls (rq_uri r));
    _ ← modify_st (rq_set_uri u);
    host_value ← lift_res (format_host_value u);
    _ ← modify_st (λ r, match Headers_get (rq_headers r) (bs "Accept") with None => insert_ignored (bs "Accept") (bs "*/*") r | Some _ => r end);
    modify_st (insert_ignored (bs "Host") host_value).

(** ** [BodyLengthParser] *)

Inductive BodyLength := BChunk | BLength (n : Z) | BEmpty | BUntilClose.

Definition U64_MAX : Z := 2 ^ 64 - 1.

Definition BodyLengthParser_parse (method : Method) (part : ResponsePart) : result ClientError BodyLength :=
  let status := sp_status part in
  if is_informational status || (status =? 204) || (status =? 304) then Ok BEmpty
  else if bool_decide (method = Connect) && is_successful status || bool_decide (method = Head) then Ok BEmpty
  else
    match Headers_get (sp_headers part) (bs "Transfer-Encoding") with
    | Some v =>
        if bool_decide (sp_version part = Http10) then Err CRequest
        else if contains_text (bs "chunked") (HeaderValue_to_vec v) then Ok BChunk
        else Ok BUntilClose
    | None =>
        match Headers_get (sp_headers part) (bs "Content-Length") with
        | Some v =>
            match parse_uint U64_MAX (HeaderValue_to_vec v) with
            | Some 0 => Ok BEmpty
            | Some n => Ok (BLength n)
            | None => Err CRequest
            end
        | None => Ok BUntilClose
        end
    end.

(** ** A host takes any port *)

Lemma uint_digits_app max acc l k :
  uint_digits max acc (l ++ k) = match uint_digits max acc l with Some a => uint_digits max a k | None => None end.
Proof. revert acc. induction l as [|b l IH]; intros acc; [done|]. cbn [app uint_digits]. destruct (is_digit b); [|done]. cbv zeta. by destruct (_ <=? max). Qed.

Lemma dec_digits_ok fuel n max :
  0 ≤ n ≤ max → n < 10 ^ Z.of_nat fuel → uint_digits max 0 (dec_digits fuel n) = Some n ∧ Forall (λ b, is_digit b = true) (dec_digits fuel n).
Proof.
  assert (∀ d, 0 ≤ d < 10 → is_digit (48 + d) = true) as Hd.
  { intros d Hd. unfold is_digit. apply andb_true_iff. rewrite !Z.leb_le. lia. }
  assert (∀ a d, 0 ≤ d < 10 → a * 10 + d ≤ max → uint_digits max a [48 + d] = Some (a * 10 + d)) as Hstep.
  { intros a d Hr Hm. cbn [uint_digits]. rewrite Hd by done. cbv zeta. replace (a * 10 + (48 + d - 48)) with (a * 10 + d) by lia.
    by destruct (Z.leb_spec (a * 10 + d) max); [|lia]. }
  revert n. induction fuel as [|fuel IH]; intros n Hn Hf.
  { cbn. split; [|constructor]. f_equal. change (10 ^ Z.of_nat 0) with 1 in Hf. lia. }
  cbn [dec_digits]. destruct (Z.ltb_spec n 10) as [Hlt|Hge].
  { split; [by apply (Hstep 0); lia|]. constructor; [apply Hd; lia|constructor]. }
  pose proof (Z.mod_pos_bound n 10 ltac:(lia)) as Hm. pose proof (Z.div_mod n 10 ltac:(lia)) as He.
  destruct (IH (n / 10)) as [IHd IHf].
  - split; [apply Z.div_pos; lia|]. lia.
  - apply Z.div_lt_upper_bound; [lia|]. rewrite Nat2Z.inj_succ, Z.pow_succ_r in Hf by lia. lia.
  - rewrite uint_digits_app, IHd. split; [rewrite Hstep by lia; f_equal; lia|]. apply Forall_app. split; [done|]. constructor; [by apply Hd|constructor].
Qed.

Lemma parse_uint_digits max b l : b ≠ 43 → parse_uint max (b :: l) = uint_digits max 0 (b :: l).
Proof.
  intros Hb. unfold parse_uint. destruct b as [|b|b]; [done| |done].
  do 6 (destruct b as [b|b|]; try done).
Qed.

Lemma parse_decimal max n : 0 ≤ n ≤ max → n < 10 ^ 20 → parse_uint max (decimal n) = Some n.
Proof.
  intros Hn H. destruct (dec_digits_ok 20 n max Hn H) as [Hd Hf]. unfold decimal in *.
  destruct (dec_digits 20 n) as [|b l] eqn:E.
  - exfalso. cbn [dec_digits] in E. destruct (n <? 10); [done|]. by apply app_nil in E as [_ ?].
  - inversion Hf as [|? ? Hb _]; subst. rewrite <- Hd. apply parse_uint_digits. by intros ->.
Qed.

(** The loop of the authority on a text and what follows. *)
Lemma authority_loop_app i c lb rb a b c0 lb0 rb0 :
  authority_loop i c lb rb a = Ok (i + len a, c0, lb0, rb0) →
  authority_loop i c lb rb (a ++ b) = authority_loop (i + len a) c0 lb0 rb0 b.
Proof.
  revert i c lb rb. induction a as [|x a IH]; intros i c lb rb H.
  { cbn [authority_loop app] in *. rewrite len_nil, Z.add_0_r in *. by injection H as <- <- <-. }
  rewrite len_cons in *. cbn [app authority_loop] in *. pose proof (len_nonneg a).
  replace (i + (1 + len a)) with (i + 1 + len a) in * by lia.
  repeat case_match; try done; try (exfalso; injection H as Hi _ _ _; lia); by apply IH.
Qed.

Lemma authority_loop_split i c lb rb a b e c' lb' rb' :
  authority_loop i c lb rb (a ++ b) = Ok (e, c', lb', rb') → e = i + len (a ++ b) →
  ∃ c0 lb0 rb0, authority_loop i c lb rb a = Ok (i + len a, c0, lb0, rb0).
Proof.
  revert i c lb rb. induction a as [|x a IH]; intros i c lb rb H He.
  { cbn [authority_loop]. rewrite len_nil, Z.add_0_r. by eexists _, _, _. }
  rewrite len_app, !len_cons in He. cbn [app authority_loop] in *. rewrite len_cons. pose proof (len_nonneg a). pose proof (len_nonneg b).
  replace (i + (1 + len a)) with (i + 1 + len a) by lia.
  repeat case_match; try done; try (exfalso; injection H as Hi _ _ _; lia); (eapply IH; [exact H|len_lia]).
Qed.

Lemma uint_digits_chars max acc l n : uint_digits max acc l = Some n → Forall (λ b, is_digit b = true) l ∧ n ≤ Z.max max acc.
Proof.
  revert acc. induction l as [|b l IH]; intros acc; cbn [uint_digits]; [intros [= <-]; split; [constructor|lia]|].
  destruct (is_digit b) eqn:Eb; [|done]. cbv zeta. destruct (Z.leb_spec (acc * 10 + (b - 48)) max); [|done].
  intros H'. destruct (IH _ H') as [? ?]. split; [by constructor|lia].
Qed.

Lemma parse_uint_chars max l n : 0 ≤ max → parse_uint max l = Some n → Forall (λ b, is_digit b = true ∨ b = 43) l ∧ n ≤ max ∧ l ≠ [].
Proof.
  intros Hm H. assert (∀ k, uint_digits max 0 k = Some n → Forall (λ b, is_digit b = true ∨ b = 43) k ∧ n ≤ max) as Hu.
  { intros k Hk. apply uint_digits_chars in Hk as [Hk ?]. split; [|lia]. eapply Forall_impl; [exact Hk|by left]. }
  destruct l as [|b l]; [done|]. destruct (decide (b = 43)) as [->|Hb].
  - cbn in H. destruct l; [done|]. apply Hu in H as [? ?]. split_and!; [by constructor; [right|]|done|done].
  - rewrite parse_uint_digits in H by done. apply Hu in H as [? ?]. done.
Qed.

(** A port leaves the loop of the authority as it is. *)
Lemma authority_loop_port i c lb rb p :
  Forall (λ b, is_digit b = true ∨ b = 43) p → authority_loop i c lb rb p = Ok (i + len p, c, lb, rb).
Proof.
  intros H. revert i. induction H as [|b p Hb _ IH]; intros i; [by rewrite len_nil, Z.add_0_r|]. rewrite len_cons.
  assert (43 ≤ b ≤ 57 ∧ b ≠ 47 ∧ byte_in URI_VALUE_BYTES b = true) as (? & ? & Hv).
  { destruct Hb as [Hb| ->]; [|done]. unfold is_digit in Hb. apply andb_true_iff in Hb. rewrite !Z.leb_le in Hb. split_and!; [lia..|].
    assert (b ∈ seqZ 48 10) as Hin by (apply elem_of_seqZ; lia). revert Hin. apply (Forall_forall (λ b, byte_in URI_VALUE_BYTES b = true)). by repeat constructor. }
  cbn [authority_loop]. rewrite !(proj2 (Z.eqb_neq b _)) by lia. rewrite Hv. cbn [orb]. rewrite IH. do 4 f_equal. lia.
Qed.

Lemma uri_value_valid b : byte_in URI_VALUE_BYTES b = true → is_valid b = true.
Proof.
  intros H. destruct (is_valid b) eqn:Ev; [done|exfalso]. unfold is_valid in Ev. apply orb_false_iff in Ev as [Ev _].
  apply andb_false_iff in Ev as [Ev|Ev]; [apply Z.leb_gt in Ev|apply negb_false_iff, Z.eqb_eq in Ev; by subst].
  destruct (Z.le_gt_cases b 0) as [Hb|Hb]; [unfold byte_in in H; by rewrite (Z2Nat.nonpos b Hb) in H|].
  assert (b ∈ seqZ 1 31) as Hin by (apply elem_of_seqZ; lia). revert H. apply not_true_iff_false. revert Hin.
  apply (Forall_forall (λ b, byte_in URI_VALUE_BYTES b = false)). by repeat constructor.
Qed.

Lemma authority_loop_valid i c lb rb l e c' lb' rb' :
  authority_loop i c lb rb l = Ok (e, c', lb', rb') → e = i + len l → Forall (λ b, is_valid b = true) l.
Proof.
  revert i c lb rb. induction l as [|b l IH]; intros i c lb rb H He; [constructor|]. cbn [authority_loop] in H. rewrite len_cons in He. pose proof (len_nonneg l).
  assert (∀ i', e = i' + len l → i + 1 = i' → ∀ c1 lb1 rb1, authority_loop i' c1 lb1 rb1 l = Ok (e, c', lb', rb') → is_valid b = true → Forall (λ b, is_valid b = true) (b :: l)) as Hgo.
  { intros i' He' _ c1 lb1 rb1 Hl Hb. constructor; [done|]. by eapply IH. }
  repeat case_match; try done; try (exfalso; injection H as Hi _ _ _; lia); bool_to_prop; subst;
    (eapply Hgo; [|reflexivity|exact H|]; [lia|first [done|by apply uri_value_valid]]).
Qed.

(** The host of an authority that was read. *)
Record host_read (a : Authority) : Prop := {
  hr_nonempty : auth_host a ≠ [];
  hr_loop : ∃ lb rb, authority_loop 0 0 false false (auth_host a) = Ok (len (auth_host a), 0, lb, rb) ∧ xorb lb rb = false;
  hr_valid : Forall (λ b, is_valid b = true) (auth_host a);
  hr_port : match auth_port a with Some p => ∃ n, parse_u16 p = Some n ∧ n ≤ 65535 | None => True end }.

Lemma authority_token_host l a rest : authority_token l = Ok (Some a, rest) → host_read a.
Proof.
  unfold authority_token. destruct (authority_loop 0 0 false false l) as [[[[e c] lb] rb]| |] eqn:Hl; [|done..].
  apply authority_loop_ok in Hl as (auth & rest0 & -> & -> & _ & Ha). specialize (Ha [] I). rewrite app_nil_r in Ha. cbn -[Z.add]. rewrite Z.add_0_l in *.
  unfold authority_parse. destruct (Z.eqb_spec (len auth) 0) as [|Hne]; [done|]. destruct (xorb lb rb) eqn:Ex; [done|].
  destruct (Z.ltb_spec 1 c) as [|Hc]; [done|]. rewrite takeZ_app_len, dropZ_app_len. pose proof (authority_loop_colons _ _ _ _ _ _ _ _ _ ltac:(done) Ha) as Hc0.
  pose proof (authority_loop_valid _ _ _ _ _ _ _ _ _ Ha eq_refl) as Hv.
  destruct (host_port auth c) as [a'| |] eqn:Hh; [|done..]. intros [= -> _]. unfold host_port in Hh.
  destruct (Z.eqb_spec c 0) as [->|Hc1]; cbn [negb] in Hh.
  { injection Hh as <-. split; cbn; [by intros ->|by exists lb, rb|done|done]. }
  destruct (rsplit_once 58 auth) as [[host port]|] eqn:Hs; [|done]. apply rsplit_once_eq in Hs as ->.
  destruct (authority_loop_split _ _ _ _ _ _ _ _ _ _ Ha) as (c0 & lb0 & rb0 & Hhost); [lia|]. rewrite Z.add_0_l in Hhost.
  assert (authority_loop (len host) c0 lb0 rb0 (58 :: port) = Ok (len (host ++ 58 :: port), c, lb, rb)) as Hport.
  { rewrite <- Ha. symmetry. rewrite <- (Z.add_0_l (len host)). by apply authority_loop_app. }
  apply Forall_app in Hv as [Hv _]. destruct host as [|b host]; [done|]. set (h := b :: host) in *.
  assert (Forall (λ b, is_digit b = true ∨ b = 43) port ∧ auth_host a = h ∧ match auth_port a with Some p => ∃ n, parse_u16 p = Some n ∧ n ≤ 65535 | None => True end) as (Hd & Hah & Hap).
  { destruct port as [|p port]; [by injection Hh as <-|]. destruct (parse_u16 (p :: port)) as [n|] eqn:Ep; [|done]. injection Hh as <-.
    pose proof (parse_uint_chars 65535 _ n ltac:(done) Ep) as (? & ? & _). split_and!; [done|done|by exists n]. }
  cbn [authority_loop] in Hport. cbn [Z.eqb Pos.eqb orb] in Hport. rewrite authority_loop_port in Hport by done. injection Hport as _ <- <- <-.
  assert (c0 = 0) as -> by lia. rewrite <- Hah in *. split; [by rewrite Hah|by exists lb0, rb0|done|done].
Qed.

(** Any port may stand behind it. *)
Lemma authority_with_port a p :
  host_read a → Forall (λ b, is_digit b = true ∨ b = 43) p → p ≠ [] → (∃ n, parse_u16 p = Some n) →
  Authority_from_bytes (auth_host a ++ bs ":" ++ p) = Ok (mkAuthority (auth_host a) (Some p)).
Proof.
  intros [Hne (lb & rb & Hl & Hx) _ _] Hd Hp [n Hn]. destruct a as [host port0]. cbn [auth_host] in *. change (bs ":" ++ p) with (58 :: p).
  assert (authority_loop 0 0 false false (host ++ 58 :: p) = Ok (len (host ++ 58 :: p), 1, lb, rb)) as Hloop.
  { rewrite (authority_loop_app 0 0 false false host (58 :: p) 0 lb rb) by (by rewrite Z.add_0_l). cbn [authority_loop]. cbn [Z.eqb Pos.eqb orb]. rewrite authority_loop_port by done. rewrite len_app, len_cons. do 4 f_equal; lia. }
  unfold Authority_from_bytes. destruct (host ++ 58 :: p) as [|x l] eqn:El; [by destruct host|]. rewrite <- El in *. unfold authority_token. rewrite Hloop.
  cbn -[host_port]. unfold authority_parse. rewrite takeZ_all, dropZ_all, Hx by done.
  destruct (Z.eqb_spec (len (host ++ 58 :: p)) 0) as [E|_]; [apply len_0_nil in E; by destruct host|]. change (1 <? 1) with false.
  assert (rsplit_once 58 (host ++ 58 :: p) = Some (host, p)) as Hr.
  { assert (rsplit_once 58 p = None) as Hnone.
    { clear -Hd. induction Hd as [|b p Hb _ IH]; [done|]. cbn. rewrite IH. destruct (Z.eqb_spec b 58) as [->|]; [|done]. by destruct Hb. }
    clear -Hnone. induction host as [|b host IH]; cbn [app rsplit_once]; [cbn; by rewrite Hnone|]. by rewrite IH. }
  unfold host_port. rewrite Hr, Hn. cbn [negb Z.eqb]. destruct host as [|b host]; [done|]. by destruct p.
Qed.

(** ** The formatted URI *)

Definition scheme_or (tls : bool) (u : Uri) : Scheme := from_option id (if tls then PHttps else PHttp) (uri_scheme u).

(** The port that is meant. *)
Definition effective_port (tls : bool) (u : Uri) : Z :=
  match uri_port u ≫= parse_u16 with Some p => p | None => default_port (scheme_or tls u) end.

Definition formatted (tls : bool) (u : Uri) (a : Authority) : Uri :=
  mkUri (Some (scheme_or tls u)) (Some (mkAuthority (auth_host a) (Some (decimal (effective_port tls u)))))
    (Some (from_option id (bs "/") (uri_path u))) (uri_query u).

Definition uri_ok (u : Uri) : Prop := match uri_authority u with Some a => host_read a | None => True end.

Lemma effective_port_range tls u : uri_ok u → 0 ≤ effective_port tls u ≤ 65535.
Proof.
  unfold uri_ok, effective_port, uri_port. destruct (uri_authority u) as [a|]; cbn; [|by destruct (scheme_or tls u)].
  intros [_ _ _ Hp]. destruct (auth_port a) as [p|]; cbn; [|by destruct (scheme_or tls u)]. destruct Hp as (n & Hn & Hle). rewrite Hn. split; [|done].
  unfold parse_u16, parse_uint in Hn. assert (∀ acc l, 0 ≤ acc → uint_digits 65535 acc l = Some n → 0 ≤ n) as Hpos.
  { clear. intros acc l. revert acc. induction l as [|b l IH]; intros acc Ha; cbn [uint_digits]; [by intros [= <-]|].
    destruct (is_digit b) eqn:Eb; [|done]. cbv zeta. destruct (_ <=? _); [|done]. apply IH. unfold is_digit in Eb. apply andb_true_iff in Eb. rewrite !Z.leb_le in Eb. lia. }
  repeat case_match; try done; by eapply Hpos.
Qed.

Lemma decimal_port n : 0 ≤ n ≤ 65535 →
  parse_u16 (decimal n) = Some n ∧ Forall (λ b, is_digit b = true ∨ b = 43) (decimal n) ∧ decimal n ≠ [].
Proof.
  intros Hn. assert (parse_u16 (decimal n) = Some n) as Hp by (apply parse_decimal; lia).
  pose proof (parse_uint_chars 65535 _ n ltac:(done) Hp). tauto.
Qed.

Lemma format_eq tls u a : uri_authority u = Some a → host_read a → UriFormatter_format tls u = Ok (formatted tls u a).
Proof.
  intros Ha Hh. pose proof (effective_port_range tls u) as Hr. unfold uri_ok in Hr. rewrite Ha in Hr. specialize (Hr Hh).
  pose proof (decimal_port _ Hr) as (Hp & Hd & Hne).
  assert (match (p ← uri_port u; ok_of (Port_as_u16 p)) with Some p => p | None => match scheme_or tls u with PHttps => 443 | PHttp => 80 end end
    = effective_port tls u) as Hport.
  { unfold effective_port. destruct (uri_port u) as [p|]; cbn; [|by destruct (scheme_or tls u)]. unfold Port_as_u16.
    destruct (parse_u16 p); cbn; [done|by destruct (scheme_or tls u)]. }
  unfold UriFormatter_format, uri_host. rewrite Ha. cbn [fmap option_fmap option_map]. fold (scheme_or tls u). rewrite Hport.
  unfold builder_authority. cbn -[Authority_from_bytes decimal bs app].
  rewrite authority_with_port by (done || by eexists). cbn. unfold formatted. destruct (uri_path u) as [p|], (uri_query u) as [q|]; done.
Qed.

Lemma parsed_uri_ok l u : Uri_from_bytes l = Ok u → uri_ok u.
Proof.
  intros H. assert (len l ≤ MAX_URI_LEN ∧ l ≠ []) as [Hlen Hne].
  { unfold Uri_from_bytes in H. destruct (Z.ltb_spec MAX_URI_LEN (len l)); [done|]. split; [done|by intros ->]. }
  rewrite Uri_from_bytes_eq in H by done. destruct (scheme_token l) as [[s rest]| |]; [|done..]. cbn -[authority_token read_tail] in H.
  destruct (authority_token rest) as [[a rest2]| |] eqn:Ha; [|done..]. cbn -[read_tail] in H.
  apply read_tail_ok in H as (_ & Hau & _). unfold uri_ok. rewrite Hau. destruct a as [a|]; [|done]. by apply authority_token_host in Ha.
Qed.

Lemma formatted_ok tls u a : host_read a → uri_ok u → uri_ok (formatted tls u a).
Proof.
  intros [H1 H2 H3 H4] Hu. split; cbn [formatted uri_authority auth_host auth_port]; try done.
  pose proof (effective_port_range tls u Hu) as Hr. pose proof (decimal_port _ Hr) as (Hp & _). eexists. split; [exact Hp|lia].
Qed.

Lemma formatted_again tls u a : host_read a → uri_ok u →
  UriFormatter_format tls (formatted tls u a) = Ok (formatted tls u a).
Proof.
  intros Hh Hu. pose proof (formatted_ok tls u a Hh Hu) as Hok. erewrite format_eq; [|reflexivity|exact Hok].
  pose proof (effective_port_range tls u Hu) as Hr. pose proof (decimal_port _ Hr) as (Hp & _).
  assert (effective_port tls (formatted tls u a) = effective_port tls u) as He by (unfold effective_port at 1, uri_port; cbn [formatted uri_authority mbind option_bind auth_port]; by rewrite Hp).
  unfold formatted at 1. by rewrite He.
Qed.

(** the URI of a request, when it was parsed and has a host, always gets
    formatted: it then has its scheme or the default one, its host, its port as
    a number or the default port of the scheme, its path or "/", and its query;
    formatting it once more changes nothing.  Without a host it is refused. *)
Theorem uri_format_spec (tls : bool) (l : bytes) (u : Uri) :
  Uri_from_bytes l = Ok u →
  match uri_authority u with
  | Some a => UriFormatter_format tls u = Ok (formatted tls u a) ∧ UriFormatter_format tls (formatted tls u a) = Ok (formatted tls u a) ∧
      parse_u16 (decimal (effective_port tls u)) = Some (effective_port tls u)
  | None => UriFormatter_format tls u = Err CRequest
  end.
Proof.
  intros H. apply parsed_uri_ok in H. pose proof (effective_port_range tls u H) as Hr. unfold uri_ok in H.
  destruct (uri_authority u) as [a|] eqn:Ha; [|unfold UriFormatter_format, uri_host; by rewrite Ha].
  split_and!; [by apply format_eq| |by apply decimal_port]. apply formatted_again; [done|]. unfold uri_ok. by rewrite Ha.
Qed.

Lemma uri_format_spec_witness :
  let u := mkUri None (Some (mkAuthority (bs "h") (Some (bs "0080")))) None None in let a := mkAuthority (bs "h") (Some (bs "0080")) in
  Uri_from_bytes (bs "h:0080") = Ok u ∧ formatted true u a = mkUri (Some PHttps) (Some (mkAuthority (bs "h") (Some (bs "80")))) (Some (bs "/")) None ∧
  UriFormatter_format true u = Ok (formatted true u a) ∧ UriFormatter_format true (formatted true u a) = Ok (formatted true u a) ∧
  parse_u16 (decimal (effective_port true u)) = Some (effective_port true u).
Proof.
  intros u a. assert (Uri_from_bytes (bs "h:0080") = Ok u) as H by reflexivity. split; [exact H|]. split; [reflexivity|].
  exact (uri_format_spec true _ u H).
Defined.

(** ** The formatted request *)

(** The value of the host field. *)
Definition host_value (tls : bool) (u : Uri) (a : Authority) : bytes :=
  if effective_port tls u =? default_port (scheme_or tls u) then auth_host a
  else auth_host a ++ bs ":" ++ decimal (effective_port tls u).

Definition accept_default (h : Headers) : Headers :=
  match h !! (bs "accept") with Some _ => h | None => <[bs "accept" := mkHeaderValue [bs "*/*"] false]> h end.

Lemma format_host_eq tls u a : host_read a → uri_ok u → format_host_value (formatted tls u a) = Ok (host_value tls u a).
Proof.
  intros Hh Hu. pose proof (effective_port_range tls u Hu) as Hr. pose proof (decimal_port _ Hr) as (Hp & _).
  unfold format_host_value, uri_host, uri_port, Port_as_u16. cbn [formatted uri_authority uri_scheme fmap option_fmap option_map mbind option_bind auth_port auth_host].
  rewrite Hp. cbn [from_option id]. unfold host_value. by destruct (_ =? _).
Qed.

Lemma insert_ignored_eq name key value r :
  normalize name = Ok key → forallb is_valid value = true →
  insert_ignored name value r = rq_set_headers (<[key := mkHeaderValue [value] false]> (rq_headers r)) r.
Proof. intros Hn Hv. unfold insert_ignored, Headers_insert, HeaderValue_from_bytes. by rewrite Hn, Hv. Qed.

Lemma host_value_valid tls u a : host_read a → uri_ok u → forallb is_valid (host_value tls u a) = true.
Proof.
  intros Hh Hu. pose proof (effective_port_range tls u Hu) as Hr. pose proof (decimal_port _ Hr) as (_ & Hd & _).
  assert (Forall (λ b, is_valid b = true) (host_value tls u a)) as Hv.
  { pose proof (hr_valid a Hh). unfold host_value. destruct (_ =? _); [done|]. apply Forall_app. split; [done|]. constructor; [done|].
    eapply Forall_impl; [exact Hd|]. intros b [Hb| ->]; [|done]. unfold is_digit in Hb. apply andb_true_iff in Hb. rewrite !Z.leb_le in Hb.
    unfold is_valid. rewrite (proj2 (Z.leb_le 32 b)), (proj2 (Z.eqb_neq b 127)) by lia. done. }
  apply forallb_forall. intros b Hb. rewrite Forall_forall in Hv. by apply Hv, list_elem_of_In.
Qed.

(** a request with a URI that was parsed and has a host is formatted,
    unless it is CONNECT in HTTP/1.0: its URI is the formatted one; the host
    field is replaced by the host, with the port when it is not that of the
    scheme; accept is added when there is none; the other fields, the method and
    the version stay. *)
Theorem request_format_spec (tls : bool) (l : bytes) (r : Request) (a : Authority) :
  Uri_from_bytes l = Ok (rq_uri r) → uri_authority (rq_uri r) = Some a → ¬ (rq_version r = Http10 ∧ rq_method r = Connect) →
  RequestFormatter_format tls r =
    (mkRequest (rq_method r) (rq_version r) (formatted tls (rq_uri r) a)
       (<[bs "host" := mkHeaderValue [host_value tls (rq_uri r) a] false]> (accept_default (rq_headers r))), Ok ()).
Proof.
  intros Hl Ha Hc. apply parsed_uri_ok in Hl. assert (host_read a) as Hh by (unfold uri_ok in Hl; by rewrite Ha in Hl).
  unfold RequestFormatter_format. rewrite bind_st. cbn [get_st].
  destruct (bool_decide (rq_version r = Http10) && bool_decide (rq_method r = Connect)) eqn:Eb; [exfalso; apply andb_true_iff in Eb; rewrite !bool_decide_eq_true in Eb; tauto|].
  rewrite bind_st. unfold lift_res at 1. rewrite (format_eq tls _ a) by done. rewrite bind_st. cbn [modify_st]. rewrite bind_st. unfold lift_res.
  rewrite format_host_eq by done. rewrite bind_st. cbn [modify_st]. unfold modify_st.
  assert (normalize (bs "Accept") = Ok (bs "accept") ∧ normalize (bs "Host") = Ok (bs "host")) as [Hna Hnh] by by vm_compute.
  rewrite (insert_ignored_eq (bs "Host") (bs "host")) by (done || by apply host_value_valid).
  unfold Headers_get, accept_default. rewrite Hna. cbn [rq_headers rq_set_uri].
  destruct (rq_headers r !! bs "accept") eqn:Eacc; cbn [rq_headers rq_set_uri]; rewrite ?Eacc; [done|].
  by rewrite (insert_ignored_eq (bs "Accept") (bs "accept")) by by vm_compute.
Qed.

Lemma request_format_spec_witness :
  let u := mkUri (Some PHttp) (Some (mkAuthority (bs "h") (Some (bs "81")))) None None in let a := mkAuthority (bs "h") (Some (bs "81")) in
  let r := mkRequest Get Http11 u {[ bs "host" := mkHeaderValue [bs "x"] false ]} in
  Uri_from_bytes (bs "http://h:81") = Ok u ∧
  RequestFormatter_format false r =
    (mkRequest Get Http11 (formatted false u a) (<[bs "host" := mkHeaderValue [host_value false u a] false]> (accept_default (rq_headers r))), Ok ()) ∧
  host_value false u a = bs "h:81".
Proof.
  intros u a r. assert (Uri_from_bytes (bs "http://h:81") = Ok u) as H by reflexivity. split; [exact H|]. split; [|reflexivity].
  apply (request_format_spec false _ r a H); [reflexivity|by intros []].
Defined.

(** ** The length of a body *)

(** Responses that have no body, whatever their fields say. *)
Definition bodiless (method : Method) (part : ResponsePart) : bool :=
  is_informational (sp_status part) || (sp_status part =? 204) || (sp_status part =? 304) ||
  bool_decide (method = Connect) && is_successful (sp_status part) || bool_decide (method = Head).

(** the length of a response body, by the rules of RFC 9112 section 6.3 in
    their order: none for HEAD, for CONNECT that succeeded and for the codes 1xx,
    204 and 304; with a transfer coding, never what content-length says; with a
    content-length, the number it is the text of; otherwise up to the end of the
    connection. *)
Theorem body_length_spec (method : Method) (part : ResponsePart) (n : Z) :
  0 ≤ n ≤ U64_MAX →
  let te := sp_headers part !! (bs "transfer-encoding") in let cl := sp_headers part !! (bs "content-length") in
  (bodiless method part = true → BodyLengthParser_parse method part = Ok BEmpty) ∧
  (bodiless method part = false → is_Some te → ∀ m, BodyLengthParser_parse method part ≠ Ok (BLength m)) ∧
  (bodiless method part = false → te = None → cl = Some (mkHeaderValue [decimal n] false) →
     BodyLengthParser_parse method part = Ok (if n =? 0 then BEmpty else BLength n)) ∧
  (bodiless method part = false → te = None → cl = None → BodyLengthParser_parse method part = Ok BUntilClose).
Proof.
  intros Hn te cl. assert (n < 10 ^ 20) as H20 by (unfold U64_MAX in Hn; lia). pose proof (parse_decimal U64_MAX n Hn H20) as Hp.
  assert (HeaderValue_to_vec (mkHeaderValue [decimal n] false) = decimal n) as Hvec by (unfold HeaderValue_to_vec; cbn -[decimal]; by rewrite app_nil_r).
  unfold BodyLengthParser_parse, bodiless, Headers_get.
  assert (normalize (bs "Transfer-Encoding") = Ok (bs "transfer-encoding") ∧ normalize (bs "Content-Length") = Ok (bs "content-length")) as [-> ->] by by vm_compute.
  fold te cl. destruct (is_informational _ || _ || _); cbn [orb]; [by split_and!|].
  destruct (bool_decide (method = Connect) && _ || bool_decide (method = Head)); [by split_and!|]. split_and!; [done| | |].
  - intros _ [v ->] m. repeat case_match; done.
  - intros _ -> ->. rewrite Hvec, Hp. destruct n; try done.
  - by intros _ -> ->.
Qed.

Lemma body_length_spec_witness :
  let part := mkResponsePart Http11 200 {[ bs "content-length" := mkHeaderValue [decimal 12] false ]} in
  BodyLengthParser_parse Get part = Ok (BLength 12) ∧ BodyLengthParser_parse Head part = Ok BEmpty.
Proof.
  intros part. destruct (body_length_spec Get part 12) as (_ & _ & H & _); [done|]. split; [by apply H|].
  destruct (body_length_spec Head part 12) as (H' & _); [done|]. by apply H'.
Defined.

(** Any coding whose name contains the text is chunked; RFC 9112 asks for the
    last coding of the list. *)
Example not_chunked_is_chunked :
  BodyLengthParser_parse Get (mkResponsePart Http11 200 {[ bs "transfer-encoding" := mkHeaderValue [bs "unchunked, gzip"] false ]}) = Ok BChunk.
Proof. by vm_compute. Qed.

Example plus_length_taken :
  BodyLengthParser_parse Get (mkResponsePart Http11 200 {[ bs "content-length" := mkHeaderValue [bs "+5"] false ]}) = Ok (BLength 5).
Proof. by vm_compute. Qed.
