(* ===== verification/Redirect.v ===== *)
(** * Redirects

    Models [src/ylong_http_client/src/util/redirect.rs] and the loop of
    [Client::redirect] in [async_impl/client.rs] that follows them.  What happens
    between two calls, from the formatted request to the response (connections,
    interceptors, the body that is read again), is the argument [exchange], on a
    world of its own. *)

From stdpp Require Import gmap.
From S2P Require Import Prelude Headers Message Uri H1Decoder Normalizer.
#[local] Open Scope Z_scope.

Inductive Strategy := LimitTimes (times : Z) | NoRedirect.

Definition Redirect_limited (times : Z) : Strategy := LimitTimes times.
Definition Redirect_none : Strategy := NoRedirect.
Definition Redirect_default : Strategy := Redirect_limited 10.

(** [RedirectInfo]: the URIs so far. *)
Abbreviation RedirectInfo := (list Uri).

Inductive Trigger := NextLink | Stop.

Definition UPDATED_HEADERS : list bytes :=
  [bs "transfer-encoding"; bs "content-encoding"; bs "content-type"; bs "content-length"; bs "content-language"; bs "content-location";
   bs "digest"; bs "last-modified"].
Definition SENSITIVE_HEADERS : list bytes :=
  [bs "authorization"; bs "cookie"; bs "cookie2"; bs "proxy-authorization"; bs "www-authenticate"].

(** [let _ = headers.remove(name)] for each name. *)
Definition remove_all (names : list bytes) (h : Headers) : Headers := foldl (λ h name, (Headers_remove name h).1) h names.

Definition Strategy_trigger (s : Strategy) (previous : RedirectInfo) : result ClientError Trigger :=
  match s with
  | LimitTimes max => if len previous <? max then Ok NextLink else Err CBuild
  | NoRedirect => Ok Stop
  end.

(** What the status does to the request: [None] is no redirect. *)
Definition on_status (status : StatusCode) (r : Request) : option Request :=
  if (status =? 301) || (status =? 302) || (status =? 303) then
    let r := rq_set_headers (remove_all UPDATED_HEADERS (rq_headers r)) r in
    Some (match rq_method r with Get | Head => r | _ => rq_set_method Get r end)
  else if (status =? 307) || (status =? 308) then Some r
  else None.

(** The location, with the scheme and the authority of the request when it does
    not have both. *)
Definition location_of (response : ResponsePart) : option Uri :=
  v ← Headers_get (sp_headers response) (bs "Location"); ok_of (Uri_from_bytes (HeaderValue_to_vec v)).
Definition complete_location (origin location : Uri) : Uri :=
  match uri_scheme location, uri_authority location with
  | Some _, Some _ => location
  | _, _ => mkUri (uri_scheme origin) (uri_authority origin) (uri_path location) (uri_query location)
  end.

#[export] Instance Authority_eq_dec : EqDecision Authority.
Proof. solve_decision. Defined.

(** [Redirect::redirect]. *)
Definition redirect (s : Strategy) (response : ResponsePart) : ST (Request * RedirectInfo) ClientError Trigger :=
  '(request, previous) ← get_st;
  match on_status (sp_status response) request with
  | None => mret Stop
  | Some request =>
      let previous := previous ++ [rq_uri request] in
      _ ← put_st (request, previous);
      match location_of response with
      | None => throw CRedirect
      | Some location =>
          let location := complete_location (rq_uri request) location in
          trigger ← lift_res (Strategy_trigger s previous);
          match trigger with
          | NextLink =>
              let h := match last previous with
                       | Some p => if decide (uri_authority location ≠ uri_authority p) then remove_all SENSITIVE_HEADERS (rq_headers request)
                                   else rq_headers request
                       | None => rq_headers request
                       end in
              _ ← put_st (rq_set_uri location (rq_set_headers h request), previous); mret NextLink
          | Stop => mret Stop
          end
      end
  end.

(** ** The loop *)

Section loop.
Context {W : Type} (tls : bool) (exchange : Request → ST W ClientError ResponsePart).

Abbreviation Client := (ST (Request * RedirectInfo * W) ClientError).

Definition on_request {A} (m : ST Request ClientError A) : Client A :=
  zoom (λ s, s.1.1) (λ r s, (r, s.1.2, s.2)) m.
Definition on_redirect {A} (m : ST (Request * RedirectInfo) ClientError A) : Client A := zoom fst (λ p s, (p, s.2)) m.
Definition on_world {A} (m : ST W ClientError A) : Client A := zoom snd (λ w s, (s.1, w)) m.

(** [Client::send_unformatted_request]: the request is formatted and sent. *)
Definition send_unformatted_request : Client ResponsePart :=
  _ ← on_request (RequestFormatter_format tls); s ← get_st; on_world (exchange s.1.1).

(** [Client::redirect]: as many turns as there is fuel. *)
Fixpoint redirect_loop (fuel : nat) (s : Strategy) (response : ResponsePart) : Client ResponsePart :=
  match fuel with
  | O => panic
  | S fuel =>
      t ← on_redirect (redirect s response);
      match t with
      | NextLink => response ← send_unformatted_request; redirect_loop fuel s response
      | Stop => mret response
      end
  end.
End loop.

(** The limit is reached before the fuel. *)
Definition redirect_fuel (max : Z) : nat := S (Z.to_nat max).

(** ** One redirect *)

Lemma remove_all_lookup names h key :
  Forall (λ n, normalize n = Ok n) names → remove_all names h !! key = if bool_decide (key ∈ names) then None else h !! key.
Proof.
  intros Hn. revert h. unfold remove_all. induction Hn as [|n names Hn _ IH]; intros h; [done|]. cbn [foldl].
  rewrite IH. unfold Headers_remove. rewrite Hn. cbn [fst]. destruct (decide (key ∈ names)) as [Hin|Hin].
  - rewrite !bool_decide_true; [done|by right|done].
  - rewrite (bool_decide_false _ Hin). destruct (decide (key = n)) as [->|Hne].
    + rewrite lookup_delete_eq, bool_decide_true; [done|by left].
    + rewrite lookup_delete_ne by done. rewrite bool_decide_false; [done|]. by rewrite elem_of_cons; intros [?|?].
Qed.

Lemma redirect_names_ok : Forall (λ n, normalize n = Ok n) UPDATED_HEADERS ∧ Forall (λ n, normalize n = Ok n) SENSITIVE_HEADERS.
Proof. by vm_compute; repeat constructor. Qed.

Definition drops_body (status : StatusCode) : bool := (status =? 301) || (status =? 302) || (status =? 303).

#[local] Opaque remove_all.

Lemma on_status_spec status r r' :
  on_status status r = Some r' →
  rq_uri r' = rq_uri r ∧ rq_version r' = rq_version r ∧ (drops_body status || (status =? 307) || (status =? 308)) = true ∧
  rq_method r' = (if drops_body status then match rq_method r with Head => Head | _ => Get end else rq_method r) ∧
  ∀ key, rq_headers r' !! key = if drops_body status && bool_decide (key ∈ UPDATED_HEADERS) then None else rq_headers r !! key.
Proof.
  unfold on_status, drops_body. destruct (_ || (status =? 303)).
  - intros [= <-]. split_and!; [by destruct (rq_method _)|by destruct (rq_method _)|done|by destruct r as [m ? ? ?]; destruct m|].
    intros key. cbn [andb]. rewrite <- remove_all_lookup by apply redirect_names_ok. by destruct r as [m ? ? ?]; destruct m.
  - destruct ((status =? 307) || (status =? 308)) eqn:E; [|done]. intros [= <-]. by split_and!.
Qed.

(** What a followed redirect does. *)
Definition follows (s : Strategy) (response : ResponsePart) (request : Request) (previous : RedirectInfo) (request' : Request) (previous' : RedirectInfo) : Prop :=
  previous' = previous ++ [rq_uri request] ∧ (∃ max, s = LimitTimes max ∧ len previous' < max) ∧
  (drops_body (sp_status response) || (sp_status response =? 307) || (sp_status response =? 308)) = true ∧
  (∃ location, location_of response = Some location ∧ rq_uri request' = complete_location (rq_uri request) location) ∧
  rq_method request' = (if drops_body (sp_status response) then match rq_method request with Head => Head | _ => Get end else rq_method request) ∧
  ∀ key, rq_headers request' !! key =
    if bool_decide (uri_authority (rq_uri request') ≠ uri_authority (rq_uri request)) && bool_decide (key ∈ SENSITIVE_HEADERS) then None
    else if drops_body (sp_status response) && bool_decide (key ∈ UPDATED_HEADERS) then None
    else rq_headers request !! key.

Lemma redirect_follows s response request previous request' previous' :
  redirect s response (request, previous) = ((request', previous'), Ok NextLink) → follows s response request previous request' previous'.
Proof.
  unfold redirect. rewrite bind_st. cbn [get_st]. destruct (on_status _ request) as [r|] eqn:Es; [|done].
  apply on_status_spec in Es as (Hu & Hv & Hst & Hm & Hh). rewrite bind_st. cbn [put_st].
  destruct (location_of response) as [loc|] eqn:El; [|done]. rewrite bind_st. unfold lift_res, Strategy_trigger. destruct s as [max|]; [|done].
  destruct (Z.ltb_spec (len (previous ++ [rq_uri r])) max) as [Hmax|]; [|done]. rewrite bind_st. cbn [put_st mret ST_ret]. rewrite last_snoc.
  intros [= <- <-]. rewrite Hu in *. unfold follows. cbn [rq_uri rq_set_uri rq_method rq_set_headers rq_headers]. rewrite Hm.
  split_and!; [done|by exists max|done|by exists loc|done|]. intros key. rewrite <- Hh.
  destruct (decide (uri_authority (complete_location (rq_uri request) loc) ≠ uri_authority (rq_uri request))) as [Hne|Hne].
  - rewrite (bool_decide_true _ Hne), remove_all_lookup by apply redirect_names_ok. by destruct (bool_decide (key ∈ SENSITIVE_HEADERS)).
  - by rewrite (bool_decide_false _ Hne).
Qed.


Definition sample_request : Request :=
  mkRequest Post Http11 (mkUri (Some PHttps) (Some (mkAuthority (bs "a") (Some (bs "443")))) (Some (bs "/x")) None)
    (<[bs "cookie" := mkHeaderValue [bs "secret"] false]> {[ bs "content-length" := mkHeaderValue [bs "3"] false ]}).
Definition sample_response (status : StatusCode) (location : string) : ResponsePart :=
  mkResponsePart Http11 status {[ bs "location" := mkHeaderValue [bs location] false ]}.


(** ** The loop ends *)

Lemma authority_loop_no_panic i c lb rb l : authority_loop i c lb rb l ≠ Panic.
Proof. revert i c lb rb. induction l as [|b l IH]; intros i c lb rb; cbn [authority_loop]; [done|]. repeat case_match; done. Qed.

Lemma Authority_no_panic l : Authority_from_bytes l ≠ Panic.
Proof.
  unfold Authority_from_bytes. destruct l as [|b l]; [done|]. unfold authority_token. pose proof (authority_loop_no_panic 0 0 false false (b :: l)).
  destruct (authority_loop 0 0 false false (b :: l)) as [[[[e c] lb] rb]| |]; [|done..]. cbn -[authority_parse]. unfold authority_parse.
  destruct (e =? 0); cbn -[dropZ]; [by destruct (dropZ _ _)|]. destruct (xorb _ _); [done|]. destruct (1 <? c); [done|]. unfold host_port.
  repeat case_match; cbn -[dropZ] in *; simplify_eq; try done; by repeat case_match.
Qed.

Lemma format_no_panic tls u : UriFormatter_format tls u ≠ Panic.
Proof.
  unfold UriFormatter_format. destruct (uri_host u) as [host|]; [|done]. cbv zeta.
  set (port := match _ ≫= _ with Some port => port | None => _ end). unfold builder_authority. cbn -[Authority_from_bytes decimal bs app]. pose proof (Authority_no_panic (host ++ bs ":" ++ decimal port)).
  destruct (Authority_from_bytes _); cbn; by destruct (uri_path u), (uri_query u).
Qed.

Lemma format_host_no_panic u : format_host_value u ≠ Panic.
Proof.
  unfold format_host_value, uri_host, uri_port. destruct (uri_authority u) as [[h [p|]]|]; cbn; [|done..].
  unfold Port_as_u16. destruct (parse_u16 p); [|done]. by destruct (_ =? _).
Qed.

Lemma request_format_no_panic tls r : (RequestFormatter_format tls r).2 ≠ Panic.
Proof.
  unfold RequestFormatter_format. rewrite bind_st. cbn [get_st]. destruct (_ && _); [done|]. rewrite bind_st. unfold lift_res at 1.
  pose proof (format_no_panic tls (rq_uri r)). destruct (UriFormatter_format tls (rq_uri r)) as [u| |]; [|done..].
  rewrite bind_st. cbn [modify_st]. rewrite bind_st. unfold lift_res. pose proof (format_host_no_panic u). by destruct (format_host_value u).
Qed.

Lemma redirect_no_panic s response st : (redirect s response st).2 ≠ Panic.
Proof.
  destruct st as [r prev]. unfold redirect. rewrite bind_st. cbn [get_st]. destruct (on_status _ r) as [r'|]; [|done]. rewrite bind_st. cbn [put_st].
  destruct (location_of response); [|done]. rewrite bind_st. unfold lift_res, Strategy_trigger. destruct s as [max|]; [|done]. by destruct (_ <? max).
Qed.

(** A world that counts what was sent: the answer may depend on how many
    requests there were, and on the request. *)
Definition logged (server : nat → Request → result ClientError ResponsePart) (r : Request) : ST (list Request) ClientError ResponsePart :=
  λ log, (log ++ [r], server (length log) r).

Section ends.
Context (tls : bool) (server : nat → Request → result ClientError ResponsePart) (max : Z).
Context (Hserver : ∀ n r, server n r ≠ Panic).

(** What holds of a loop that is over. *)
Definition ended (x : (Request * RedirectInfo * list Request) * result ClientError ResponsePart) : Prop :=
  x.2 ≠ Panic ∧ len x.1.2 ≤ Z.max 0 (max - 1).

Lemma send_logged r prev log :
  let '((r', prev', log'), x) := send_unformatted_request tls (logged server) (r, prev, log) in
  x ≠ Panic ∧ prev' = prev ∧ len log' ≤ len log + 1.
Proof.
  unfold send_unformatted_request. rewrite bind_st. unfold on_request, zoom at 1. cbn [fst snd]. pose proof (request_format_no_panic tls r) as Hf.
  destruct (RequestFormatter_format tls r) as [r' [[]| |]]; cbn [snd] in Hf; [|split_and!; [done|done|lia]|done]. rewrite bind_st. cbn [get_st fst snd].
  unfold on_world, zoom, logged. cbn [fst snd]. split_and!; [apply Hserver|done|]. rewrite len_app. change (len [r']) with 1. lia.
Qed.

Lemma redirect_loop_ok fuel response r prev log :
  (1 ≤ fuel)%nat → max - len prev < Z.of_nat fuel → len log ≤ len prev → len log ≤ Z.max 0 (max - 1) →
  ended (redirect_loop tls (logged server) fuel (LimitTimes max) response (r, prev, log)).
Proof.
  revert response r prev log. induction fuel as [|fuel IH]; intros response r prev log H1 Hf Hlog Hmax; [lia|]. cbn [redirect_loop]. rewrite bind_st.
  unfold on_redirect, zoom. cbn [fst snd]. pose proof (redirect_no_panic (LimitTimes max) response (r, prev)) as Hn.
  destruct (redirect (LimitTimes max) response (r, prev)) as [[r1 prev1] [[|]|e|]] eqn:Er; cbn [snd] in Hn; [|by split..|done].
  apply redirect_follows in Er as (-> & (max' & [= <-] & Hlt) & _). rewrite len_app in Hlt. change (len [rq_uri r]) with 1 in Hlt.
  rewrite bind_st. pose proof (send_logged r1 (prev ++ [rq_uri r]) log) as Hs.
  destruct (send_unformatted_request _ _ _) as [[[r2 prev2] log2] [resp|e|]]; destruct Hs as (Hp & -> & Hl); [|split; [done|cbn; lia]|done].
  apply IH; rewrite ?len_app; change (len [rq_uri r]) with 1; lia.
Qed.
End ends.

(** following redirects ends, whatever the servers answer: with the limit
    [max], the loop returns a response or an error within [max + 1] turns, and
    sends at most [max - 1] more requests. *)
Theorem redirect_loop_ends (tls : bool) (server : nat → Request → result ClientError ResponsePart) (max : Z) (response : ResponsePart) (r : Request) :
  0 ≤ max → (∀ n r, server n r ≠ Panic) →
  let '((_, _, log), x) := redirect_loop tls (logged server) (redirect_fuel max) (Redirect_limited max) response (r, [], []) in
  x ≠ Panic ∧ len log ≤ Z.max 0 (max - 1).
Proof.
  intros Hm Hs. pose proof (redirect_loop_ok tls server max Hs (redirect_fuel max) response r [] []) as H. unfold redirect_fuel in *. rewrite len_nil in H.
  unfold Redirect_limited. destruct (redirect_loop _ _ _ _ _ _) as [[[r' p'] log] x]. apply H; try change (len []) with 0; lia.
Qed.

Definition ever_onward : nat → Request → result ClientError ResponsePart := λ n _, Ok (sample_response 307 "/next").

Lemma redirect_loop_ends_witness :
  let '((_, _, log), x) := redirect_loop true (logged ever_onward) (redirect_fuel 10) (Redirect_limited 10) (sample_response 307 "/next") (sample_request, [], []) in
  x ≠ Panic ∧ len log ≤ 9.
Proof. apply (redirect_loop_ends true ever_onward 10 (sample_response 307 "/next") sample_request); done. Defined.

(** The default follows nine redirects, where ten are promised; the tenth is an
    error. *)
Example nine_redirects :
  let '((_, _, log), x) := redirect_loop true (logged ever_onward) (redirect_fuel 10) Redirect_default (sample_response 307 "/next") (sample_request, [], []) in
  x = Err CBuild ∧ len log = 9.
Proof. by vm_compute. Qed.

(** A location that is a relative path becomes a host that is then dropped, and
    the path is lost. *)
Example relative_path_lost :
  match redirect Redirect_default (sample_response 307 "next") (sample_request, []) with
  | ((r, _), Ok NextLink) => Uri_to_string (rq_uri r) = bs "https://a:443"
  | _ => False
  end.
Proof. by vm_compute. Qed.

(** The same host and port without TLS get the credentials. *)
Example credentials_without_tls :
  match redirect Redirect_default (sample_response 307 "http://a:443/") (sample_request, []) with
  | ((r, _), Ok NextLink) => uri_scheme (rq_uri r) = Some PHttp ∧ rq_headers r !! bs "cookie" = Some (mkHeaderValue [bs "secret"] false)
  | _ => False
  end.
Proof. by vm_compute. Qed.

(** With no redirects allowed the request changes all the same. *)
Example request_changed_unfollowed :
  match redirect Redirect_none (sample_response 302 "/") (sample_request, []) with
  | ((r, _), Ok Stop) => rq_method r = Get ∧ rq_headers r !! bs "content-length" = None
  | _ => False
  end.
Proof. by vm_compute. Qed.
