(* ===== verification/IpAddr.v ===== *)
(** * Texts of the standard library

    What the client uses of [std]: [str::split], [trim], [trim_matches], and the
    parser of [IpAddr], the text of an address of version 4 or 6.  A text is the
    list of its characters. *)

From S2P Require Import Prelude.
#[local] Open Scope Z_scope.

(** ** Parts of a text *)

(** [split]: the parts between the characters [c]. *)
Fixpoint split_on (c : Z) (l : list Z) : list (list Z) :=
  match l with
  | [] => [[]]
  | x :: l =>
      if x =? c then [] :: split_on c l
      else match split_on c l with p :: ps => (x :: p) :: ps | [] => [[x]] end
  end.

Fixpoint drop_while (p : Z → bool) (l : list Z) : list Z :=
  match l with [] => [] | x :: k => if p x then drop_while p k else l end.
Definition trim_by (p : Z → bool) (l : list Z) : list Z := reverse (drop_while p (reverse (drop_while p l))).

(** [char::is_whitespace]. *)
Definition is_whitespace (c : Z) : bool :=
  (9 <=? c) && (c <=? 13) || (c =? 32) || (c =? 0x85) || (c =? 0xa0) || (c =? 0x1680) || (0x2000 <=? c) && (c <=? 0x200a) ||
  (c =? 0x2028) || (c =? 0x2029) || (c =? 0x202f) || (c =? 0x205f) || (c =? 0x3000).
Definition trim : list Z → list Z := trim_by is_whitespace.
Definition trim_matches (c : Z) : list Z → list Z := trim_by (Z.eqb c).

(** ** Addresses *)

Inductive IpAddr := V4 (octets : list Z) | V6 (segments : list Z).
#[export] Instance IpAddr_eq_dec : EqDecision IpAddr.
Proof. solve_decision. Defined.

(** [char::to_digit]. *)
Definition to_digit (radix c : Z) : option Z :=
  let d := if (48 <=? c) && (c <=? 57) then c - 48
           else if (97 <=? c) && (c <=? 122) then c - 87
           else if (65 <=? c) && (c <=? 90) then c - 55
           else radix in
  if d <? radix then Some d else None.

(** A parser gives a value and what is behind it. *)
Abbreviation Parser A := (bytes → option (A * bytes)).

Fixpoint read_digits (radix max : Z) (room : nat) (value : Z) (count : nat) (l : bytes) : option (Z * nat * bytes) :=
  match l with
  | [] => Some (value, count, [])
  | c :: rest =>
      match to_digit radix c with
      | None => Some (value, count, l)
      | Some d =>
          let value := value * radix + d in
          if max <? value then None else match room with O => None | S room => read_digits radix max room value (S count) rest end
      end
  end.

Definition read_number (radix max : Z) (max_digits : nat) (allow_zero_prefix : bool) : Parser Z := λ l,
  '(value, count, rest) ← read_digits radix max max_digits 0 0 l;
  if (count =? 0)%nat then None
  else if negb allow_zero_prefix && bool_decide (head l = Some 48) && (1 <? count)%nat then None
  else Some (value, rest).

Definition read_char (c : Z) : Parser () := λ l,
  match l with x :: rest => if x =? c then Some ((), rest) else None | [] => None end.

(** [read_separator]: the separator before all but the first. *)
Definition read_separator {A} (sep : Z) (index : nat) (inner : Parser A) : Parser A := λ l,
  match index with O => inner l | S _ => '(_, rest) ← read_char sep l; inner rest end.

Fixpoint read_octets (n index : nat) : Parser (list Z) := λ l,
  match n with
  | O => Some ([], l)
  | S n =>
      '(x, rest) ← read_separator 46 index (read_number 10 255 3 false) l;
      '(xs, rest) ← read_octets n (S index) rest; Some (x :: xs, rest)
  end.
Definition read_ipv4 : Parser (list Z) := read_octets 4 0.

(** [read_groups]: the groups, and whether they end in an address of version 4. *)
Fixpoint read_groups (n index : nat) (l : bytes) : list Z * bool * bytes :=
  match n with
  | O => ([], false, l)
  | S n =>
      match (if (0 <? n)%nat then read_separator 58 index read_ipv4 l else None) with
      | Some ([a; b; c; d], rest) => ([a * 256 + b; c * 256 + d], true, rest)
      | _ =>
          match read_separator 58 index (read_number 16 65535 4 true) l with
          | Some (g, rest) => let '(gs, v4, rest) := read_groups n (S index) rest in (g :: gs, v4, rest)
          | None => ([], false, l)
          end
      end
  end.

Definition read_ipv6 : Parser (list Z) := λ l,
  let '(hd, hd_v4, rest) := read_groups 8 0 l in
  if (length hd =? 8)%nat then Some (hd, rest)
  else if hd_v4 then None
  else
    '(_, rest) ← read_char 58 rest;
    '(_, rest) ← read_char 58 rest;
    let '(tl, _, rest) := read_groups (7 - length hd) 0 rest in
    Some (hd ++ replicate (8 - length hd - length tl) 0 ++ tl, rest).

(** [str::parse::<IpAddr>]. *)
Definition parse_ip (l : bytes) : option IpAddr :=
  match read_ipv4 l with
  | Some (o, rest) => match rest with [] => Some (V4 o) | _ => None end
  | None => match read_ipv6 l with Some (s, []) => Some (V6 s) | _ => None end
  end.

Lemma split_on_nonempty c l : ∃ p ps, split_on c l = p :: ps.
Proof. induction l as [|x l (p & ps & IH)]; [by exists [], []|]. cbn. rewrite IH. destruct (x =? c); eauto. Qed.

Lemma split_on_part c a l : c ∉ a → split_on c (a ++ c :: l) = a :: split_on c l.
Proof.
  induction a as [|x a IH]; intros H; cbn; [by rewrite Z.eqb_refl|]. apply not_elem_of_cons in H as [Hx H].
  destruct (Z.eqb_spec x c); [congruence|]. by rewrite IH.
Qed.

Lemma split_on_last c a : c ∉ a → split_on c a = [a].
Proof.
  induction a as [|x a IH]; intros H; cbn; [done|]. apply not_elem_of_cons in H as [Hx H].
  destruct (Z.eqb_spec x c); [congruence|]. by rewrite IH.
Qed.

Lemma split_on_inv c l p ps : split_on c l = p :: ps → (c ∉ p) ∧ (l = p ∧ ps = [] ∨ ∃ r, l = p ++ c :: r ∧ split_on c r = ps).
Proof.
  revert p. induction l as [|x l IH]; intros p; cbn.
  - intros [= <- <-]. split; [apply not_elem_of_nil|by left].
  - destruct (split_on_nonempty c l) as (q & qs & Hq). rewrite Hq. destruct (Z.eqb_spec x c) as [->|Hx].
    + intros [= <- <-]. split; [apply not_elem_of_nil|]. right. by exists l.
    + intros [= <- <-]. destruct (IH q Hq) as [Hn H]. split; [by apply not_elem_of_cons|].
      destruct H as [[-> ->]|(r & -> & Hr)]; [by left|right]. by exists r.
Qed.

(** ** Examples *)

Example parse_v4 :
  parse_ip (bs "127.0.0.1") = Some (V4 [127; 0; 0; 1]) ∧ parse_ip (bs "256.0.0.1") = None ∧ parse_ip (bs "1.2.3.04") = None ∧
  parse_ip (bs "1.2.3.4.") = None ∧ parse_ip (bs "localhost") = None.
Proof. done. Qed.

Example parse_v6 :
  parse_ip (bs "::1") = Some (V6 [0; 0; 0; 0; 0; 0; 0; 1]) ∧ parse_ip (bs "::") = Some (V6 [0; 0; 0; 0; 0; 0; 0; 0]) ∧
  parse_ip (bs "fe80::ABCD:1.2.3.4") = Some (V6 [0xfe80; 0; 0; 0; 0; 0xabcd; 0x102; 0x304]) ∧
  parse_ip (bs "1:2:3:4:5:6:7:8") = Some (V6 [1; 2; 3; 4; 5; 6; 7; 8]) ∧ parse_ip (bs "1:2:3:4:5:6:7::") = Some (V6 [1; 2; 3; 4; 5; 6; 7; 0]) ∧
  parse_ip (bs "[::1]") = None ∧ parse_ip (bs "1:2") = None ∧ parse_ip (bs "12345::") = None.
Proof. done. Qed.
