(* ===== verification/Proxy.v ===== *)
(** * Proxies

    Models [src/ylong_http_client/src/util/proxy.rs]: which requests go to a
    proxy, the credentials for it, the CONNECT request for a tunnel and the
    answer to it, and the hosts that need no proxy.  The TLS configuration of a
    proxy is left out. *)

From S2P Require Import Prelude Headers Message Uri Percent Normalizer IpAddr Base64.
#[local] Open Scope Z_scope.

(** ** [NoProxy] *)

Record NoProxy := mkNoProxy { np_ips : list IpAddr; np_domains : list bytes }.

(** The loop of [NoProxy::from_str]: a host that is no URI is skipped; the
    [unwrap] is of the host of the URI. *)
Fixpoint no_proxy_hosts (hosts : list (list Z)) (ips : list IpAddr) (domains : list bytes) : result ClientError NoProxy :=
  match hosts with
  | [] => Ok (mkNoProxy ips domains)
  | host :: hosts =>
      let text := host ≫= utf8 in
      match Uri_from_bytes text with
      | Ok address =>
          match uri_host address with
          | Some h =>
              match parse_ip h with
              | Some ip => no_proxy_hosts hosts (ips ++ [ip]) domains
              | None => no_proxy_hosts hosts ips (domains ++ [text])
              end
          | None => Panic
          end
      | _ => no_proxy_hosts hosts ips domains
      end
  end.

(** [NoProxy::from_str], of the characters of the text. *)
Definition NoProxy_from_str (no_proxy : list Z) : result ClientError (option NoProxy) :=
  match no_proxy with
  | [] => Ok None
  | _ => n ← no_proxy_hosts (map trim (split_on 44 no_proxy)) [] []; mret (Some n)
  end.

Definition contains_ip (ips : list IpAddr) (ip : IpAddr) : bool := existsb (λ i, bool_decide (ip = i)) ips.

(** [contains_domain]; the index of the byte before the block domain. *)
Definition block_domain (b : bytes) : bytes := if starts_with (bs "*") b && (1 <? len b) then trim_matches 42 b else b.
Fixpoint contains_domain (domains : list bytes) (domain : bytes) : result ClientError bool :=
  match domains with
  | [] => Ok false
  | b :: domains =>
      let b := block_domain b in
      if bool_decide (b = bs "*") || ends_with domain b || bool_decide (b = domain) || bool_decide (trim_matches 46 b = domain) then Ok true
      else if ends_with b domain then
        if starts_with (bs ".") b then Ok true
        else
          let i := len domain - len b - 1 in
          if i <? 0 then Panic
          else if bool_decide (domain !! Z.to_nat i = Some 46) then Ok true
          else contains_domain domains domain
      else contains_domain domains domain
  end.

Definition NoProxy_contain (n : NoProxy) (host : bytes) : result ClientError bool :=
  match parse_ip host with Some ip => Ok (contains_ip (np_ips n) ip) | None => contains_domain (np_domains n) host end.

(** ** [Proxy] *)

Record ProxyInfo := mkProxyInfo { pi_scheme : Scheme; pi_authority : Authority; pi_basic_auth : option HeaderValue }.
Inductive Intercept := All (i : ProxyInfo) | Http (i : ProxyInfo) | Https (i : ProxyInfo).
Record Proxy := mkProxy { px_intercept : Intercept; px_no_proxy : option NoProxy }.

Definition proxy_info (i : Intercept) : ProxyInfo := match i with All i | Http i | Https i => i end.

Definition ProxyInfo_new (tls : bool) (uri : bytes) : result ClientError ProxyInfo :=
  match Uri_from_bytes uri with
  | Ok u =>
      u ← UriFormatter_format tls u;
      match uri_scheme u, uri_authority u with
      | Some scheme, Some authority =>
          if negb (bool_decide (scheme = PHttp)) && negb (bool_decide (scheme = PHttps)) then Err CBuild
          else Ok (mkProxyInfo scheme authority None)
      | _, _ => Panic
      end
  | Err _ => Err CBuild
  | Panic => Panic
  end.

Definition Proxy_new (i : Intercept) : Proxy := mkProxy i None.
Definition Proxy_http (tls : bool) (uri : bytes) : result ClientError Proxy := i ← ProxyInfo_new tls uri; mret (Proxy_new (Http i)).
Definition Proxy_https (tls : bool) (uri : bytes) : result ClientError Proxy := i ← ProxyInfo_new tls uri; mret (Proxy_new (Https i)).
Definition Proxy_all (tls : bool) (uri : bytes) : result ClientError Proxy := i ← ProxyInfo_new tls uri; mret (Proxy_new (All i)).

Definition set_basic_auth (v : HeaderValue) (i : ProxyInfo) : ProxyInfo := mkProxyInfo (pi_scheme i) (pi_authority i) (Some v).

(** [basic_auth]: the [unwrap] is of the value of the header. *)
Definition Proxy_basic_auth (username password : bytes) (p : Proxy) : result ClientError Proxy :=
  match HeaderValue_from_bytes (Base64.encode (username ++ bs ":" ++ password)) with
  | Ok auth =>
      let auth := mkHeaderValue (hv_inner auth) true in
      Ok (mkProxy (match px_intercept p with
                   | All i => All (set_basic_auth auth i)
                   | Http i => Http (set_basic_auth auth i)
                   | Https i => Https (set_basic_auth auth i)
                   end) (px_no_proxy p))
  | _ => Panic
  end.

Definition Proxy_no_proxy (no_proxy : list Z) (p : Proxy) : result ClientError Proxy :=
  n ← NoProxy_from_str no_proxy; mret (mkProxy (px_intercept p) n).

(** [via_proxy]: the [unwrap] is of the URI that is built. *)
Definition via_proxy (p : Proxy) (u : Uri) : result ClientError Uri :=
  let info := proxy_info (px_intercept p) in
  let b := put_authority (pi_authority info) (put_scheme (pi_scheme info) UriBuilder_new) in
  let b := match uri_path u with Some path => put_path path b | None => b end in
  let b := match uri_query u with Some query => put_query query b | None => b end in
  match UriBuilder_build b with Ok u => Ok u | _ => Panic end.

Definition scheme_is (u : Uri) (s : Scheme) : result ClientError bool :=
  match uri_scheme u with Some x => Ok (bool_decide (x = s)) | None => Panic end.

Definition is_intercepted (p : Proxy) (u : Uri) : result ClientError bool :=
  no_proxy ← match px_no_proxy p with
             | Some n => match uri_host u with Some h => NoProxy_contain n h | None => Panic end
             | None => Ok false
             end;
  match px_intercept p with
  | All _ => Ok (negb no_proxy)
  | Http _ => if negb no_proxy then scheme_is u PHttp else Ok false
  | Https _ => if negb no_proxy then scheme_is u PHttps else Ok false
  end.

(** [Proxies]: the first that intercepts. *)
Fixpoint match_proxy (l : list Proxy) (u : Uri) : result ClientError (option Proxy) :=
  match l with
  | [] => Ok None
  | p :: l => i ← is_intercepted p u; if (i : bool) then mret (Some p) else match_proxy l u
  end.

Definition add_proxy (p : Proxy) (l : list Proxy) : list Proxy := l ++ [p].

Definition pi_addr (i : ProxyInfo) : bytes := Authority_to_str (pi_authority i).
Definition pi_port (i : ProxyInfo) : Z :=
  match (p ← auth_port (pi_authority i); ok_of (Port_as_u16 p)) with Some p => p | None => default_port (pi_scheme i) end.
Definition pi_is_secure (i : ProxyInfo) : bool := bool_decide (pi_scheme i = PHttps).

(** ** The tunnel *)

Fixpoint value_len_from (idx : nat) (inner : list bytes) : Z :=
  match inner with [] => 0 | b :: inner => len b + (if (idx =? 0)%nat then 0 else 1) * 2 + value_len_from (S idx) inner end.
Definition header_value_len (v : HeaderValue) : Z := value_len_from 0 (hv_inner v).
Definition append_header_value (buf : bytes) (v : HeaderValue) : bytes := buf ++ HeaderValue_to_vec v.

Definition crlf : bytes := [13; 10].
Definition connect_request (host : bytes) (port : Z) (auth : option HeaderValue) : bytes :=
  let target := host ++ bs ":" ++ decimal port in
  let req := bs "CONNECT " ++ target ++ bs " HTTP/1.1" ++ crlf ++ bs "Host: " ++ target ++ crlf in
  let req := match auth with
             | Some v => append_header_value (req ++ bs "Proxy-Authorization: Basic ") v ++ crlf
             | None => req
             end in
  req ++ crlf.

Definition MAX_TUNNEL_RESPONSE_SIZE : Z := 8192.
Inductive TunnelResponse := TComplete | TIncomplete.
Inductive CreateTunnelErr := ProxyHeadersTooLong | ProxyAuthenticationRequired | Unsuccessful.

(** [response_boundaries]: the loop from [idx]. *)
Fixpoint boundaries_loop (idx : Z) (line_end : option Z) (l : bytes) : option Z * option Z :=
  match l with
  | a :: (b :: l2) as l1 =>
      if (a =? 13) && (b =? 10) then
        let line_end := Some (from_option id idx line_end) in
        match l2 with
        | c :: d :: _ => if (c =? 13) && (d =? 10) then (line_end, Some (idx + 4)) else boundaries_loop (idx + 2) line_end l2
        | _ => boundaries_loop (idx + 2) line_end l2
        end
      else boundaries_loop (idx + 1) line_end l1
  | _ => (line_end, None)
  end.
Definition response_boundaries (buf : bytes) : option Z * option Z := boundaries_loop 0 None buf.

Definition status_code (status : bytes) : result CreateTunnelErr bytes :=
  if (len status <? 12) || negb (starts_with (bs "HTTP/1.1 ") status || starts_with (bs "HTTP/1.0 ") status) then Err Unsuccessful
  else if (12 <? len status) && negb (bool_decide (status !! 12%nat = Some 32)) then Err Unsuccessful
  else
    let code := takeZ 3 (dropZ 9 status) in
    if negb (forallb is_digit code) then Err Unsuccessful else Ok code.

Definition parse_tunnel_response (buf : bytes) : result CreateTunnelErr TunnelResponse :=
  let '(line_end, header_end) := response_boundaries buf in
  match line_end with
  | None => if MAX_TUNNEL_RESPONSE_SIZE <=? len buf then Err ProxyHeadersTooLong else Ok TIncomplete
  | Some line_end =>
      code ← status_code (takeZ line_end buf);
      if bool_decide (head code = Some 50) then
        match header_end with
        | Some _ => Ok TComplete
        | None => if MAX_TUNNEL_RESPONSE_SIZE <=? len buf then Err ProxyHeadersTooLong else Ok TIncomplete
        end
      else if bool_decide (code = bs "407") then Err ProxyAuthenticationRequired
      else Err Unsuccessful
  end.

(** The loop of [tunnel] of both connectors, over a connection whose [read] is
    given.  A turn that does not return adds at least one byte to the buffer. *)
Inductive TunnelError (E : Type) := TIo (e : E) | TFailed (e : CreateTunnelErr).
#[global] Arguments TIo {E} e.
#[global] Arguments TFailed {E} e.
Definition tunnel_fuel : nat := S (Z.to_nat MAX_TUNNEL_RESPONSE_SIZE).

Section tunnel.
Context {R E : Type} (read : R → Z → R * result E bytes).

Fixpoint tunnel_loop (fuel : nat) (conn : R) (buf : bytes) : R * result (TunnelError E) () :=
  match fuel with
  | O => (conn, Panic)
  | S fuel =>
      match read conn (MAX_TUNNEL_RESPONSE_SIZE - len buf) with
      | (conn, Ok []) => (conn, Err (TFailed Unsuccessful))
      | (conn, Ok out) =>
          let buf := buf ++ out in
          if MAX_TUNNEL_RESPONSE_SIZE <? len buf then (conn, Panic)
          else match parse_tunnel_response buf with
               | Ok TComplete => (conn, Ok ())
               | Ok TIncomplete => if len buf =? MAX_TUNNEL_RESPONSE_SIZE then (conn, Err (TFailed ProxyHeadersTooLong)) else tunnel_loop fuel conn buf
               | Err e => (conn, Err (TFailed e))
               | Panic => (conn, Panic)
               end
      | (conn, Err e) => (conn, Err (TIo e))
      | (conn, Panic) => (conn, Panic)
      end
  end.
Definition tunnel (conn : R) : R * result (TunnelError E) () := tunnel_loop tunnel_fuel conn [].
End tunnel.

(** ** The boundaries of a response *)

(** The first place of a text. *)
Fixpoint find_text (t l : bytes) : option Z :=
  if starts_with t l then Some 0 else match l with [] => None | _ :: l => Z.succ <$> find_text t l end.

Lemma find_text_app t l k i : find_text t l = Some i → find_text t (l ++ k) = Some i ∧ 0 ≤ i ∧ i + len t ≤ len l.
Proof.
  revert i. induction l as [|x l IH]; intros i; cbn [find_text].
  - destruct (starts_with t []) eqn:E; [|done]. intros [= <-]. apply starts_with_spec in E as [r E].
    symmetry in E. apply app_eq_nil in E as [-> ->]. cbn. split; [by destruct k|cbn; lia].
  - destruct (starts_with t (x :: l)) eqn:E.
    + intros [= <-]. apply starts_with_spec in E as [r E]. rewrite E, <- app_assoc.
      assert (starts_with t (t ++ r ++ k) = true) as H by (apply starts_with_spec; eauto).
      rewrite len_app. split; [by destruct (t ++ r ++ k); cbn [find_text]; rewrite H|len_lia].
    + destruct (find_text t l) as [j|] eqn:Ej; [|done]. intros [= <-]. destruct (IH _ eq_refl) as (H1 & H2 & H3).
      cbn [app find_text]. destruct (starts_with t (x :: l ++ k)) eqn:E'.
      * exfalso. apply starts_with_spec in E' as [r E']. enough (starts_with t (x :: l) = true) by congruence.
        apply starts_with_spec. exists (dropZ (len t) (x :: l)). rewrite <- (takeZ_dropZ (len t) (x :: l)) at 1. f_equal.
        rewrite <- (takeZ_app_le (len t) (x :: l) k) by len_lia. change ((x :: l) ++ k) with (x :: l ++ k). rewrite E'. apply takeZ_app_len.
      * rewrite H1. cbn. split; [done|len_lia].
Qed.

Lemma find_text_short t l : len l < len t → find_text t l = None.
Proof.
  intros H. destruct (find_text t l) eqn:E; [|done]. apply find_text_app with (k := []) in E. lia.
Qed.

Lemma find_crlf_cons a b l : find_text crlf (a :: b :: l) =
  if (a =? 13) && (b =? 10) then Some 0 else Z.succ <$> find_text crlf (b :: l).
Proof.
  change (find_text crlf (a :: b :: l)) with (if starts_with crlf (a :: b :: l) then Some 0 else Z.succ <$> find_text crlf (b :: l)).
  unfold starts_with. cbn [take length crlf]. destruct (Z.eqb_spec a 13), (Z.eqb_spec b 10); cbn [andb];
    (rewrite bool_decide_true by (subst; done); done) || (rewrite bool_decide_false by (intros [=]; done); done).
Qed.

Lemma find_end_cons a b c d l : find_text (crlf ++ crlf) (a :: b :: c :: d :: l) =
  if (a =? 13) && (b =? 10) && (c =? 13) && (d =? 10) then Some 0 else Z.succ <$> find_text (crlf ++ crlf) (b :: c :: d :: l).
Proof.
  change (find_text (crlf ++ crlf) (a :: b :: c :: d :: l)) with
    (if starts_with (crlf ++ crlf) (a :: b :: c :: d :: l) then Some 0 else Z.succ <$> find_text (crlf ++ crlf) (b :: c :: d :: l)).
  unfold starts_with. cbn [take length crlf app].
  destruct (Z.eqb_spec a 13), (Z.eqb_spec b 10), (Z.eqb_spec c 13), (Z.eqb_spec d 10); cbn [andb];
    (rewrite bool_decide_true by (subst; done); done) || (rewrite bool_decide_false by (intros [=]; done); done).
Qed.

Lemma find_end_other a b l : (a =? 13) && (b =? 10) = false → find_text (crlf ++ crlf) (a :: b :: l) = Z.succ <$> find_text (crlf ++ crlf) (b :: l).
Proof.
  intros H. change (find_text (crlf ++ crlf) (a :: b :: l)) with
    (if starts_with (crlf ++ crlf) (a :: b :: l) then Some 0 else Z.succ <$> find_text (crlf ++ crlf) (b :: l)).
  unfold starts_with. rewrite bool_decide_false; [done|]. cbn [take length crlf app]. intros [= -> -> _]. done.
Qed.

Lemma find_end_lf l : find_text (crlf ++ crlf) (10 :: l) = Z.succ <$> find_text (crlf ++ crlf) l.
Proof. destruct l as [|b l]; [done|]. by apply find_end_other. Qed.

Lemma boundaries_loop_cons idx le a b l :
  boundaries_loop idx le (a :: b :: l) =
    if (a =? 13) && (b =? 10) then
      match l with
      | c :: d :: _ => if (c =? 13) && (d =? 10) then (Some (from_option id idx le), Some (idx + 4))
                       else boundaries_loop (idx + 2) (Some (from_option id idx le)) l
      | _ => boundaries_loop (idx + 2) (Some (from_option id idx le)) l
      end
    else boundaries_loop (idx + 1) le (b :: l).
Proof. done. Qed.

Lemma boundaries_loop_spec idx le l :
  boundaries_loop idx le l = (match le with Some e => Some e | None => Z.add idx <$> find_text crlf l end,
                              (λ i, idx + i + 4) <$> find_text (crlf ++ crlf) l).
Proof.
  revert idx le. induction l as [l IH] using (induction_ltof1 _ (@length Z)); unfold ltof in IH. intros idx le.
  assert (∀ (f : Z → Z) (o : option Z), f <$> (Z.succ <$> o) = (λ i, f (Z.succ i)) <$> o) as Hs by (by intros f []).
  assert (∀ (f g : Z → Z) (o : option Z), (∀ i, f i = g i) → f <$> o = g <$> o) as He by (intros f g [] H; cbn; by rewrite ?H).
  destruct l as [|a [|b l2]]; [by rewrite !find_text_short by done; destruct le..|]. rewrite boundaries_loop_cons, find_crlf_cons.
  destruct ((a =? 13) && (b =? 10)) eqn:Hab.
  - replace (from_option id idx le) with (match le with Some e => e | None => idx + 0 end) by (destruct le; cbn; lia).
    assert (∀ le', le' = Some (match le with Some e => e | None => idx + 0 end) → find_text (crlf ++ crlf) (a :: b :: l2) = Z.succ <$> find_text (crlf ++ crlf) (b :: l2) →
      boundaries_loop (idx + 2) le' l2 = (match le with Some e => Some e | None => Z.add idx <$> Some 0 end,
        (λ i, idx + i + 4) <$> find_text (crlf ++ crlf) (a :: b :: l2))) as Hgo.
    { intros le' -> ->. rewrite IH by (cbn; lia). apply andb_prop in Hab as [_ ->%Z.eqb_eq]. rewrite find_end_lf, !Hs.
      f_equal; [by destruct le|]. apply He. lia. }
    destruct l2 as [|c [|d l]]; [apply Hgo; [done|by rewrite !find_text_short by done]..|].
    pose proof (find_end_cons a b c d l) as Hf. rewrite Hab in Hf. cbn [andb] in Hf. destruct ((c =? 13) && (d =? 10)); [|by apply Hgo].
      rewrite Hf. cbn. f_equal; [by destruct le|f_equal; lia].
  - rewrite IH by (cbn; lia). rewrite find_end_other by done. rewrite !Hs. f_equal; [|apply He; lia]. destruct le; [done|]. apply He. lia.
Qed.

(** [response_boundaries] finds the first line end and the place behind the
    first empty line of the answer of the proxy: its single pass that steps over
    two bytes at a line end is the two searches. *)
Theorem response_boundaries_equiv (buf : bytes) :
  response_boundaries buf = (find_text crlf buf, (λ i, i + 4) <$> find_text (crlf ++ crlf) buf).
Proof.
  unfold response_boundaries. rewrite boundaries_loop_spec. f_equal; destruct (find_text _ buf); done.
Qed.

(** ** The verdict on an answer *)

Lemma status_code_ends status : status_code status = Err Unsuccessful ∨ ∃ code, status_code status = Ok code.
Proof.
  unfold status_code. destruct (_ || _); [by left|]. destruct (_ && _); [by left|]. destruct (negb _); [by left|]. right. eauto.
Qed.

(** More bytes change only a verdict that there are too few or too many. *)
Definition decided (v : result CreateTunnelErr TunnelResponse) : Prop :=
  v = Ok TComplete ∨ v = Err ProxyAuthenticationRequired ∨ v = Err Unsuccessful.

Lemma parse_tunnel_eq buf : parse_tunnel_response buf =
  let short := if MAX_TUNNEL_RESPONSE_SIZE <=? len buf then Err ProxyHeadersTooLong else Ok TIncomplete in
  match find_text crlf buf with
  | None => short
  | Some i =>
      match status_code (takeZ i buf) with
      | Ok code =>
          if bool_decide (head code = Some 50) then match find_text (crlf ++ crlf) buf with Some _ => Ok TComplete | None => short end
          else if bool_decide (code = bs "407") then Err ProxyAuthenticationRequired else Err Unsuccessful
      | Err e => Err e
      | Panic => Panic
      end
  end.
Proof.
  unfold parse_tunnel_response, response_boundaries. rewrite boundaries_loop_spec. cbv zeta.
  destruct (find_text crlf buf) as [i|]; cbn [fmap option_fmap option_map]; [|done]. change (0 + i) with i.
  destruct (status_code _); cbn [mbind result_mbind result_bind]; [|done..]. by destruct (find_text (crlf ++ crlf) buf).
Qed.

Lemma parse_tunnel_cases buf :
  (parse_tunnel_response buf = Ok TIncomplete ∧ len buf < MAX_TUNNEL_RESPONSE_SIZE) ∨
  (parse_tunnel_response buf = Err ProxyHeadersTooLong ∧ MAX_TUNNEL_RESPONSE_SIZE ≤ len buf) ∨
  (decided (parse_tunnel_response buf) ∧ ∀ k, parse_tunnel_response (buf ++ k) = parse_tunnel_response buf).
Proof.
  rewrite (parse_tunnel_eq buf). cbv zeta. destruct (find_text crlf buf) as [i|] eqn:Ei.
  2:{ destruct (Z.leb_spec MAX_TUNNEL_RESPONSE_SIZE (len buf)); eauto. }
  destruct (find_text_app _ _ [] _ Ei) as (_ & Hi & Hlen). change (len crlf) with 2 in Hlen.
  pose proof (λ k, parse_tunnel_eq (buf ++ k)) as Hk. cbv zeta in Hk.
  setoid_rewrite (λ k, proj1 (find_text_app _ _ k _ Ei)) in Hk. setoid_rewrite takeZ_app_le in Hk; [|lia].
  destruct (status_code_ends (takeZ i buf)) as [E|[code E]]; rewrite E in Hk |- *.
  - right; right. split; [by right; right|done].
  - destruct (bool_decide (head code = Some 50)).
    + destruct (find_text (crlf ++ crlf) buf) as [j|] eqn:Ej.
      * right; right. split; [by left|]. intros k. rewrite Hk. by destruct (find_text_app _ _ k _ Ej) as [-> _].
      * destruct (Z.leb_spec MAX_TUNNEL_RESPONSE_SIZE (len buf)); eauto.
    + right; right. split; [|done]. destruct (bool_decide (code = _)); [by right; left|by right; right].
Qed.

Section tunnel_spec.
Context {R E : Type} (read : R → Z → R * result E bytes).

(** A connection that gives the bytes [d] in pieces of its choice, and then its
    end or an error. *)
Definition gives (fin : option E) (Stream : R → bytes → Prop) : Prop :=
  ∀ conn d room, Stream conn d → 0 < room →
    match d with
    | [] => ∃ conn', read conn room = (conn', match fin with Some e => Err e | None => Ok [] end)
    | _ => ∃ n conn', 0 < n ≤ Z.min room (len d) ∧ read conn room = (conn', Ok (takeZ n d)) ∧ Stream conn' (dropZ n d)
    end.

Definition tunnel_verdict (fin : option E) (d : bytes) : result (TunnelError E) () :=
  match parse_tunnel_response (takeZ MAX_TUNNEL_RESPONSE_SIZE d) with
  | Ok TComplete => Ok ()
  | Ok TIncomplete => Err match fin with Some e => TIo e | None => TFailed Unsuccessful end
  | Err e => Err (TFailed e)
  | Panic => Panic
  end.

Lemma tunnel_loop_verdict fin Stream : gives fin Stream → ∀ fuel conn rest buf,
  Stream conn rest → parse_tunnel_response buf = Ok TIncomplete → len buf < MAX_TUNNEL_RESPONSE_SIZE →
  MAX_TUNNEL_RESPONSE_SIZE - len buf < Z.of_nat fuel →
  (tunnel_loop read fuel conn buf).2 = tunnel_verdict fin (buf ++ rest).
Proof.
  intros Hg. induction fuel as [|fuel IH]; intros conn rest buf Hs Hp Hlen Hf; [lia|]. cbn [tunnel_loop].
  specialize (Hg conn rest (MAX_TUNNEL_RESPONSE_SIZE - len buf) Hs ltac:(lia)). destruct rest as [|b rest].
  - destruct Hg as [conn' ->]. rewrite app_nil_r. unfold tunnel_verdict. rewrite takeZ_all, Hp by lia. by destruct fin.
  - destruct Hg as (n & conn' & Hn & -> & Hs'). remember (b :: rest) as d eqn:Hd. clear Hd b rest.
    assert (len (takeZ n d) = n) as Hl by (apply len_takeZ; lia).
    destruct (takeZ n d) as [|x out] eqn:Ex; [change (len []) with 0 in Hl; lia|]. rewrite <- Ex in *. clear x out Ex.
    destruct (Z.ltb_spec MAX_TUNNEL_RESPONSE_SIZE (len (buf ++ takeZ n d))); [len_lia|].
    assert (buf ++ d = (buf ++ takeZ n d) ++ dropZ n d) as -> by (by rewrite <- app_assoc, takeZ_dropZ).
    destruct (parse_tunnel_cases (buf ++ takeZ n d)) as [[Hv Hb]|[[Hv Hb]|[Hd Hk]]].
    + rewrite Hv. destruct (Z.eqb_spec (len (buf ++ takeZ n d)) MAX_TUNNEL_RESPONSE_SIZE); [lia|]. apply IH; [done..|len_lia].
    + rewrite Hv. unfold tunnel_verdict. rewrite takeZ_app_le, takeZ_all, Hv by len_lia. done.
    + unfold tunnel_verdict. rewrite takeZ_app_ge, Hk by len_lia. destruct Hd as [->|[->| ->]]; done.
Qed.
End tunnel_spec.

(** C33: [tunnel] returns for every connection that gives at least a byte or ends,
    after at most 8192 reads, without a panic, and what it returns depends on the
    first 8192 bytes only and not on how the connection cuts them: the verdict of
    [parse_tunnel_response], and for an answer that ends early the error of the
    connection or an unsuccessful tunnel. *)
Theorem tunnel_reaches_verdict {R E} (read : R → Z → R * result E bytes) (fin : option E) (Stream : R → bytes → Prop) (conn : R) (d : bytes) :
  gives read fin Stream → Stream conn d →
  (tunnel read conn).2 = tunnel_verdict fin d ∧ tunnel_verdict fin d ≠ Panic.
Proof.
  intros Hg Hs. split; [by apply (tunnel_loop_verdict read fin Stream Hg tunnel_fuel conn d [])|]. unfold tunnel_verdict.
  destruct (parse_tunnel_cases (takeZ MAX_TUNNEL_RESPONSE_SIZE d)) as [[-> _]|[[-> _]|[[->|[->| ->]] _]]]; done.
Qed.

(** A connection that gives the pieces of a list, or what fits of them. *)
Definition read_pieces (conn : list bytes) (room : Z) : list bytes * result () bytes :=
  match conn with
  | [] => ([], Ok [])
  | p :: ps => if len p <=? room then (ps, Ok p) else (dropZ room p :: ps, Ok (takeZ room p))
  end.

Lemma read_pieces_gives : gives read_pieces None (λ ps d, concat ps = d ∧ Forall (λ p, p ≠ []) ps).
Proof.
  intros ps d room [<- Hne] Hr. destruct Hne as [|p ps Hp Hps]; [by exists []|]. cbn [concat read_pieces].
  destruct p as [|x p]; [done|]. remember (x :: p) as q eqn:Hq. assert (0 < len q) by (subst q; len_lia).
  assert (∃ y r, q ++ concat ps = y :: r) as (y & r & Hyr) by (subst q; cbn; eauto). rewrite Hyr. rewrite <- Hyr.
  destruct (Z.leb_spec (len q) room).
  - exists (len q), ps. rewrite takeZ_app_len, dropZ_app_len. clear Hyr. repeat split; [len_lia..|done].
  - exists room, (dropZ room q :: ps). rewrite takeZ_app_le, dropZ_app_le by lia. clear Hyr. repeat split; [len_lia|len_lia|]. constructor; [|done].
    intros E. apply (f_equal len) in E. rewrite len_dropZ in E by lia. change (len []) with 0 in E. lia.
Qed.

Lemma tunnel_reaches_verdict_witness :
  (tunnel read_pieces [bs "HTTP/1.1 20"; bs "0 OK" ++ [13]; [10; 13]; [10; 22]]).2 = Ok ().
Proof.
  pose proof (tunnel_reaches_verdict read_pieces None _ [bs "HTTP/1.1 20"; bs "0 OK" ++ [13]; [10; 13]; [10; 22]]
    (concat [bs "HTTP/1.1 20"; bs "0 OK" ++ [13]; [10; 13]; [10; 22]]) read_pieces_gives) as H.
  destruct H as [-> _]; [split; [done|by repeat constructor]|done].
Defined.

(** ** Hosts without a proxy *)

(** What an entry exempts: a host that ends with it behind a dot, but also a host
    that the entry ends with. *)
Definition exempts (entry host : bytes) : Prop :=
  let b := block_domain entry in
  b = bs "*" ∨ (∃ x, b = x ++ host) ∨ trim_matches 46 b = host ∨
  (∃ x, host = x ++ b ∧ ((∃ y, b = 46 :: y) ∨ ∃ y, x = y ++ [46])).

Lemma dot_before (x b : bytes) : x ≠ [] → (x ++ b) !! Z.to_nat (len (x ++ b) - len b - 1) = Some 46 ↔ ∃ y, x = y ++ [46].
Proof.
  intros Hx. destruct x as [|c y _] using rev_ind; [done|]. rewrite !len_app. change (len [c]) with 1.
  replace (Z.to_nat (len y + 1 + len b - len b - 1)) with (length y) by (unfold len; lia).
  rewrite <- app_assoc, lookup_app_r, Nat.sub_diag by lia. cbn. split; [intros [= ->]; eauto|]. intros [z [_ [= ->]]%app_inj_2]; done.
Qed.

Lemma contains_domain_spec domains host :
  ∃ v, contains_domain domains host = Ok v ∧ (v = true ↔ Exists (λ b, exempts b host) domains).
Proof.
  induction domains as [|e domains (v & IHv & IH)]; [exists false; split; [done|split; [done|by intros ?%Exists_nil]]|].
  cbn [contains_domain]. cbv zeta. setoid_rewrite Exists_cons. set (b := block_domain e).
  destruct (bool_decide (b = bs "*") || ends_with host b || bool_decide (b = host) || bool_decide (trim_matches 46 b = host)) eqn:H1.
  { exists true. split; [done|]. split; [intros _|done]. left. unfold exempts. fold b. cbv zeta.
    rewrite !orb_true_iff, !bool_decide_eq_true, ends_with_spec in H1. destruct H1 as [[[H|H]|H]|H]; eauto.
    right; left. exists []. done. }
  rewrite !orb_false_iff, !bool_decide_eq_false in H1. destruct H1 as [[[Ha Hb] Hc] Hd].
  assert (exempts e host ↔ ∃ x, host = x ++ b ∧ ((∃ y, b = 46 :: y) ∨ ∃ y, x = y ++ [46])) as Hex.
  { unfold exempts. fold b. cbv zeta. split; [|by auto]. intros [H|[H|[H|H]]]; try done. apply ends_with_spec in H. congruence. }
  destruct (ends_with b host) eqn:He.
  2:{ exists v. split; [done|]. rewrite IH, Hex. split; [by right|]. intros [(x & H & _)|H]; [|done].
      enough (ends_with b host = true) by congruence. apply ends_with_spec. eauto. }
  apply ends_with_spec in He as [x Hx]. rewrite Hx in Hex.
  assert (exempts e host ↔ (∃ y, b = 46 :: y) ∨ ∃ y, x = y ++ [46]) as Hex'.
  { rewrite <- Hx in Hex. rewrite Hex, Hx. split; [intros (z & <-%app_inv_tail & H); done|eauto]. }
  destruct (starts_with (bs ".") b) eqn:Hs; [exists true|].
  - apply starts_with_spec in Hs as [y Hs]. split; [done|]. split; [|done]. intros _. left. apply Hex'. left. by exists y.
  - assert (¬ ∃ y, b = 46 :: y) as Hs'.
    { intros [y Hy]. enough (starts_with (bs ".") b = true) by congruence. apply starts_with_spec. by exists y. }
    assert (x ≠ []) as Hx0 by (by intros ->).
    assert (0 < len x) by (destruct x; [done|rewrite len_cons; pose proof (len_nonneg x); lia]).
    destruct (Z.ltb_spec (len host - len b - 1) 0); [subst host; len_lia|]. pose proof (dot_before x b Hx0) as Hdot. rewrite <- Hx in Hdot.
    destruct (bool_decide _) eqn:Hdec.
    + apply bool_decide_eq_true, Hdot in Hdec. exists true. split; [done|]. split; [|done]. intros _. left. apply Hex'. by right.
    + apply bool_decide_eq_false in Hdec. exists v. split; [done|]. rewrite IH. split; [by right|]. intros [[?|?]%Hex'|?]; [done|tauto|done].
Qed.

Definition host_exempt (n : NoProxy) (host : bytes) : Prop :=
  match parse_ip host with Some ip => ip ∈ np_ips n | None => Exists (λ b, exempts b host) (np_domains n) end.

Lemma contain_spec n host : ∃ v, NoProxy_contain n host = Ok v ∧ (v = true ↔ host_exempt n host).
Proof.
  unfold NoProxy_contain, host_exempt. destruct (parse_ip host) as [ip|]; [|apply contains_domain_spec].
  eexists. split; [done|]. unfold contains_ip. rewrite existsb_exists. split.
  - by intros (x & H%list_elem_of_In & ->%bool_decide_eq_true).
  - intros H%list_elem_of_In. exists ip. split; [done|]. by apply bool_decide_eq_true.
Qed.

(** Which requests a proxy takes: those of its scheme, but for exempt hosts. *)
Definition intercepts (p : Proxy) (s : Scheme) (host : bytes) : Prop :=
  (∀ n, px_no_proxy p = Some n → ¬ host_exempt n host) ∧
  match px_intercept p with All _ => True | Http _ => s = PHttp | Https _ => s = PHttps end.

Lemma is_intercepted_spec p u s a : uri_scheme u = Some s → uri_authority u = Some a →
  ∃ v, is_intercepted p u = Ok v ∧ (v = true ↔ intercepts p s (auth_host a)).
Proof.
  intros Hs Ha. unfold is_intercepted, intercepts, uri_host, scheme_is. rewrite Hs, Ha. cbn [fmap option_fmap option_map].
  assert (∃ v, (match px_no_proxy p with Some n => NoProxy_contain n (auth_host a) | None => Ok false end) = Ok v ∧
    (v = false ↔ ∀ n, px_no_proxy p = Some n → ¬ host_exempt n (auth_host a))) as (v & -> & Hv).
  { destruct (px_no_proxy p) as [n|]; [|by exists false]. destruct (contain_spec n (auth_host a)) as (v & -> & Hv).
    exists v. split; [done|]. split; [intros -> ? [= <-] H%Hv; done|]. intros H. destruct v; [|done]. by destruct (H n eq_refl (proj1 Hv eq_refl)). }
  cbn [mbind result_mbind result_bind]. destruct (px_intercept p), v; cbn [negb]; eexists; (split; [done|]);
    rewrite ?bool_decide_eq_true; destruct Hv; intuition congruence.
Qed.

(** of a formatted URI [match_proxy] takes the first proxy for its scheme that
    does not exempt its host, without a panic; [via_proxy] then gives the path and
    the query of the URI behind the scheme and the authority of the proxy. *)
Theorem proxy_choice (l : list Proxy) (u : Uri) (s : Scheme) (a : Authority) :
  uri_scheme u = Some s → uri_authority u = Some a →
  match match_proxy l u with
  | Ok None => Forall (λ p, ¬ intercepts p s (auth_host a)) l
  | Ok (Some p) =>
      (∃ l1 l2, l = l1 ++ p :: l2 ∧ Forall (λ p, ¬ intercepts p s (auth_host a)) l1 ∧ intercepts p s (auth_host a)) ∧
      via_proxy p u = Ok (mkUri (Some (pi_scheme (proxy_info (px_intercept p)))) (Some (pi_authority (proxy_info (px_intercept p)))) (uri_path u) (uri_query u))
  | _ => False
  end.
Proof.
  intros Hs Ha. induction l as [|p l IH]; cbn [match_proxy]; [done|].
  destruct (is_intercepted_spec p u s a Hs Ha) as ([|] & -> & Hv); cbn [mbind result_mbind result_bind].
  - split; [exists [], l; destruct Hv; by auto|]. unfold via_proxy. destruct (proxy_info _) as [sch au ba], u as [us ua [path|] [query|]]; done.
  - assert (¬ intercepts p s (auth_host a)) as Hp by (intros H%Hv; done).
    destruct (match_proxy l u) as [[q|]| |]; [|by constructor|done..].
    destruct IH as [(l1 & l2 & -> & H1 & H2) H]. split; [|done]. exists (p :: l1), l2. by auto.
Qed.

Lemma proxy_choice_witness :
  let info := mkProxyInfo PHttp (mkAuthority (bs "proxy") (Some (bs "3128"))) None in
  let u := mkUri (Some PHttps) (Some (mkAuthority (bs "www.a.org") None)) (Some (bs "/x")) None in
  via_proxy (mkProxy (All info) (Some (mkNoProxy [] [bs "b.org"]))) u =
    Ok (mkUri (Some PHttp) (Some (mkAuthority (bs "proxy") (Some (bs "3128")))) (Some (bs "/x")) None).
Proof.
  cbv zeta. set (info := mkProxyInfo _ _ _). set (u := mkUri _ _ _ _).
  pose proof (proxy_choice [mkProxy (Http info) None; mkProxy (All info) (Some (mkNoProxy [] [bs "b.org"]))] u
    PHttps (mkAuthority (bs "www.a.org") None) eq_refl eq_refl) as H.
  exact (proj2 H).
Defined.

(** ** Credentials *)

Lemma encode_valid l : Forall is_byte l → forallb is_valid (Base64.encode l) = true.
Proof.
  intros H%encode_chars. apply Is_true_true, forallb_True. eapply Forall_impl; [done|]. intros c Hc. unfold is_valid. cbv beta in Hc.
  apply Is_true_true. destruct (Z.leb_spec 32 c), (Z.eqb_spec c 127); cbn; lia.
Qed.

(** [basic_auth] does not panic; the CONNECT request that carries its value
    has one [Proxy-Authorization] line, whose token decodes to the user name, a
    colon and the password. *)
Theorem proxy_credentials (username password host : bytes) (port : Z) (p : Proxy) :
  Forall is_byte username → Forall is_byte password →
  ∃ p' v token, Proxy_basic_auth username password p = Ok p' ∧ px_no_proxy p' = px_no_proxy p ∧
    pi_basic_auth (proxy_info (px_intercept p')) = Some v ∧ hv_is_sensitive v = true ∧
    connect_request host port (Some v) =
      bs "CONNECT " ++ host ++ bs ":" ++ decimal port ++ bs " HTTP/1.1" ++ crlf ++ bs "Host: " ++ host ++ bs ":" ++ decimal port ++ crlf ++
      bs "Proxy-Authorization: Basic " ++ token ++ crlf ++ crlf ∧
    len token = header_value_len v ∧ Base64.decode token = Some (username ++ bs ":" ++ password).
Proof.
  intros Hu Hp. assert (Forall is_byte (username ++ bs ":" ++ password)) as Hb.
  { rewrite !Forall_app. split_and!; [done|by apply bytesb_ok|done]. }
  set (text := username ++ bs ":" ++ password) in *. destruct (Base64.base64_roundtrip text Hb) as [Hd _].
  unfold Proxy_basic_auth, HeaderValue_from_bytes. fold text. rewrite encode_valid by done. cbv zeta.
  eexists _, (mkHeaderValue [Base64.encode text] true), (Base64.encode text). split; [done|].
  split; [done|]. split; [by destruct p as [[] ?]|]. split; [done|]. split; [|split; [|done]].
  - unfold connect_request, append_header_value, HeaderValue_to_vec. cbn [hv_inner to_vec_from Nat.eqb app]. cbv zeta.
    rewrite app_nil_r, <- !app_assoc. done.
  - unfold header_value_len. cbn. lia.
Qed.

Lemma proxy_credentials_witness :
  ∃ p' v token, Proxy_basic_auth (bs "user") (bs "pa:ss") (Proxy_new (All (mkProxyInfo PHttp (mkAuthority (bs "h") None) None))) = Ok p' ∧
    px_no_proxy p' = None ∧ pi_basic_auth (proxy_info (px_intercept p')) = Some v ∧ hv_is_sensitive v = true ∧
    connect_request (bs "a") 443 (Some v) =
      bs "CONNECT " ++ bs "a" ++ bs ":" ++ decimal 443 ++ bs " HTTP/1.1" ++ crlf ++ bs "Host: " ++ bs "a" ++ bs ":" ++ decimal 443 ++ crlf ++
      bs "Proxy-Authorization: Basic " ++ token ++ crlf ++ crlf ∧
    len token = header_value_len v ∧ Base64.decode token = Some (bs "user" ++ bs ":" ++ bs "pa:ss").
Proof. apply proxy_credentials; by apply bytesb_ok. Defined.

(** ** What the entries do *)

Definition np (t : bytes) : NoProxy := match NoProxy_from_str t with Ok (Some n) => n | _ => mkNoProxy [] [] end.

(** An entry that is a path ends the program. *)
Example no_proxy_path : NoProxy_from_str (bs "a.org,/x") = Panic.
Proof. done. Qed.

(** An entry exempts the hosts that it ends with. *)
Example no_proxy_reversed : NoProxy_contain (np (bs "example.com")) (bs "ample.com") = Ok true ∧ NoProxy_contain (np (bs "example.com")) (bs "com") = Ok true.
Proof. done. Qed.

Example no_proxy_subdomain : NoProxy_contain (np (bs " *.example.com, 10.0.0.1")) (bs "www.example.com") = Ok true ∧
  NoProxy_contain (np (bs "example.com")) (bs "notexample.com") = Ok false ∧ NoProxy_contain (np (bs "10.0.0.1")) (bs "10.0.0.1") = Ok true.
Proof. done. Qed.

(** An address of version 6 keeps its brackets, which the parser of addresses
    does not take: it is kept as a domain and compared as a text. *)
Example no_proxy_ipv6 : np (bs "[::1]") = mkNoProxy [] [bs "[::1]"] ∧
  NoProxy_contain (np (bs "[::1]")) (bs "[0:0:0:0:0:0:0:1]") = Ok false.
Proof. done. Qed.
