(* ===== verification/Utf8.v ===== *)
(** * Texts as bytes

    [str::from_utf8] and [String::from_utf8] of the standard library, which the
    Alt-Svc parser and the QPACK decoder call. *)

From S2P Require Import Prelude.
#[local] Open Scope Z_scope.

(** ** [str::from_utf8]: the characters of a text *)

Definition continuation (b : Z) : bool := (128 <=? b) && (b <? 192).
Fixpoint from_utf8 (fuel : nat) (l : bytes) : option (list Z) :=
  match fuel with
  | O => None
  | S fuel =>
      match l with
      | [] => Some []
      | a :: l =>
          if a <? 128 then cs ← from_utf8 fuel l; Some (a :: cs)
          else if (194 <=? a) && (a <? 224) then
            match l with
            | b :: l => if continuation b then cs ← from_utf8 fuel l; Some ((a - 192) * 64 + (b - 128) :: cs) else None
            | _ => None
            end
          else if (224 <=? a) && (a <? 240) then
            match l with
            | b :: c :: l =>
                let x := (a - 224) * 4096 + (b - 128) * 64 + (c - 128) in
                if continuation b && continuation c && (2048 <=? x) && negb ((0xd800 <=? x) && (x <? 0xe000)) then cs ← from_utf8 fuel l; Some (x :: cs) else None
            | _ => None
            end
          else if (240 <=? a) && (a <? 245) then
            match l with
            | b :: c :: d :: l =>
                let x := (a - 240) * 262144 + (b - 128) * 4096 + (c - 128) * 64 + (d - 128) in
                if continuation b && continuation c && continuation d && (65536 <=? x) && (x <? 1114112) then cs ← from_utf8 fuel l; Some (x :: cs) else None
            | _ => None
            end
          else None
      end
  end.
Definition str_from_utf8 (l : bytes) : option (list Z) := from_utf8 (S (length l)) l.
Definition is_utf8 (l : bytes) : bool := match str_from_utf8 l with Some _ => true | None => false end.

(** ** Texts of ASCII *)

Definition ascii (b : Z) : Prop := 0 ≤ b < 128.

Lemma from_utf8_ascii fuel l : Forall ascii l → (length l < fuel)%nat → from_utf8 fuel l = Some l.
Proof.
  intros H. revert fuel. induction H as [|b l Hb Hl IH]; intros [|fuel] Hf; cbn [length] in Hf; [lia|done|lia|].
  cbn [from_utf8]. unfold ascii in Hb. destruct (Z.ltb_spec b 128); [|lia]. rewrite IH by lia. done.
Qed.

Lemma str_from_utf8_ascii l : Forall ascii l → str_from_utf8 l = Some l.
Proof. intros H. apply from_utf8_ascii; [done|lia]. Qed.
