(* ===== verification/AltSvc.v ===== *)
(** * Alternative services

    Models [src/ylong_http_client/src/util/alt_svc.rs], the versions of
    [util/config/http.rs] that it reads, and what [async_impl/pool.rs] makes of a
    service.  An [Instant] is a count of nanoseconds, the time of a call an
    argument of it. *)

From S2P Require Import Prelude Utf8 Headers Uri Percent Normalizer IpAddr.
#[local] Open Scope Z_scope.

(** ** Services *)

Inductive HttpVersion := Http1 | Http2 | Http3 | Negotiate.
#[export] Instance HttpVersion_eq_dec : EqDecision HttpVersion.
Proof. solve_decision. Defined.

(** [TryFrom<&[u8]>] with all versions enabled. *)
Definition HttpVersion_try_from (value : bytes) : option HttpVersion :=
  if bool_decide (value = bs "h1") then Some Http1
  else if bool_decide (value = bs "h2") then Some Http2
  else if bool_decide (value = bs "h3") then Some Http3
  else None.

Record AltService := mkAltService {
  as_http_version : HttpVersion; as_src_host : bytes; as_host : option bytes; as_port : bytes; as_lifetime : Z }.

Definition DEFAULT_MAX_AGE : Z := 24 * 60 * 60.
Definition NANOS : Z := 1000000000.
Definition checked_add (now seconds : Z) : option Z :=
  let t := now + seconds * NANOS in if t / NANOS <? 2 ^ 63 then Some t else None.

(** [&x[1..x.len() - 1]]: [None] is the panic. *)
Definition unquote (x : bytes) : option bytes := if len x <? 2 then None else Some (takeZ (len x - 2) (dropZ 1 x)).

(** The first [ma] among the parameters; the inner option is that of a
    parameter that cannot be read. *)
Fixpoint max_age (params : list bytes) (seconds : Z) : option Z :=
  match params with
  | [] => Some seconds
  | para :: params =>
      para ← str_from_utf8 para;
      let para := trim para ≫= utf8 in
      match split_on 61 para with
      | name :: rest =>
          if bool_decide (name = bs "ma") then
            match rest with
            | value :: _ => _ ← str_from_utf8 value; parse_uint U64_MAX value
            | [] => None
            end
          else max_age params seconds
      | [] => None
      end
  end.

(** [host_port] of the alternative: an absent host is the host of the origin. *)
Definition alt_authority (host_port : bytes) : option (option bytes * bytes) :=
  match split_on 58 host_port with
  | first :: _ :: _ =>
      let host := takeZ (len first) host_port in
      let port := dropZ (len first + 1) host_port in
      if len first =? 0 then
        _ ← str_from_utf8 port; p ← ok_of (Port_from_str port); Some (None, p)
      else
        _ ← str_from_utf8 host; h ← ok_of (Host_from_str host); _ ← str_from_utf8 port; p ← ok_of (Port_from_str port); Some (Some h, p)
  | _ => None
  end.

Definition parse_alt_svc (now : Z) (src_host values : bytes) : result () AltService :=
  match split_on 59 values with
  | alternative :: params =>
      match split_on 61 alternative with
      | version :: rest =>
          match HttpVersion_try_from version, rest with
          | Some version, host_port :: _ =>
              match unquote host_port with
              | None => Panic
              | Some host_port =>
                  match ('(host, port) ← alt_authority host_port;
                         seconds ← max_age params DEFAULT_MAX_AGE;
                         lifetime ← checked_add now seconds;
                         Some (mkAltService version src_host host port lifetime)) with
                  | Some s => Ok s
                  | None => Err ()
                  end
              end
          | _, _ => Err ()
          end
      | [] => Err ()
      end
  | [] => Err ()
  end.

(** ** The map *)

#[export] Instance Authority_eq_dec : EqDecision Authority.
Proof. solve_decision. Defined.
#[export] Instance Protocol_countable : Countable Protocol.
Proof. refine (inj_countable' (λ p, match p with PHttp => false | PHttps => true end) (λ b, if b : bool then PHttps else PHttp) _). by intros []. Defined.
#[export] Instance Authority_countable : Countable Authority.
Proof. refine (inj_countable' (λ a, (auth_host a, auth_port a)) (λ p, mkAuthority p.1 p.2) _). by intros []. Defined.

Definition PoolKey : Type := Scheme * Authority.
Definition AltServiceMap : Type := gmap PoolKey (list AltService).

Definition get_alt_svcs (now : Z) (key : PoolKey) (m : AltServiceMap) : AltServiceMap * option (list AltService) :=
  match m !! key with
  | None => (m, None)
  | Some l => let l := filter (λ s, now ≤ as_lifetime s) l in (<[key := l]> m, Some l)
  end.

(** The services of a value, and of all values until one is [clear]. *)
Fixpoint parse_slices (now : Z) (host : bytes) (slices : list bytes) : result () (list AltService) :=
  match slices with
  | [] => Ok []
  | slice :: slices =>
      match parse_alt_svc now host slice with
      | Ok s => l ← parse_slices now host slices; mret (s :: l)
      | Err _ => parse_slices now host slices
      | Panic => Panic
      end
  end.

Fixpoint parse_values (now : Z) (host : bytes) (values : list bytes) (new : list AltService) : result () (option (list AltService)) :=
  match values with
  | [] => Ok (Some new)
  | slice :: values =>
      if bool_decide (slice = bs "clear") then Ok None
      else l ← parse_slices now host (split_on 44 slice); parse_values now host values (new ++ l)
  end.

Definition set_alt_svcs (now : Z) (uri : Uri) (headers : Headers) : ST AltServiceMap () () := λ m,
  match uri_scheme uri, uri_authority uri with
  | Some scheme, Some authority =>
      let key := (scheme, authority) in
      match Headers_get headers (bs "Alt-Svc") with
      | None => (m, Ok ())
      | Some values =>
          match parse_values now (auth_host authority) (hv_inner values) [] with
          | Ok None => (delete key m, Ok ())
          | Ok (Some new) => (<[key := new]> m, Ok ())
          | Err e => (m, Err e)
          | Panic => (m, Panic)
          end
      end
  | _, _ => (m, Ok ())
  end.

(** [conn_alt_svc]: the URI that it connects to, of the first service of HTTP/3. *)
Fixpoint alt_url (url : Uri) (l : list AltService) : result () Uri :=
  match l with
  | [] => Err ()
  | s :: l =>
      if negb (bool_decide (as_http_version s = Http3)) then alt_url url l
      else
        match (match as_host s with Some h => Some h | None => uri_host url end) with
        | None => Panic
        | Some host =>
            match Authority_from_bytes (host ++ bs ":" ++ as_port s) with
            | Ok authority => Ok (mkUri (Some PHttps) (Some authority) (uri_path url) (uri_query url))
            | _ => Err ()
            end
        end
  end.

(** ** Texts of ASCII *)

Lemma utf8_ascii l : Forall ascii l → l ≫= utf8 = l.
Proof.
  induction 1 as [|b l Hb Hl IH]; [done|]. cbn. change (mbind utf8 l) with (l ≫= utf8). rewrite IH.
  unfold utf8, ascii in *. destruct (Z.ltb_spec b 128); [done|lia].
Qed.

Lemma trim_inner a l z : is_whitespace a = false → is_whitespace z = false → trim (a :: l ++ [z]) = a :: l ++ [z].
Proof.
  intros Ha Hz. unfold trim, trim_by. cbn [drop_while]. rewrite Ha. change (a :: l ++ [z]) with ((a :: l) ++ [z]).
  rewrite reverse_snoc. cbn [drop_while]. rewrite Hz. rewrite reverse_cons, reverse_involutive. done.
Qed.

Lemma digit_ascii b : is_digit b = true → ascii b ∧ is_whitespace b = false ∧ b ≠ 58 ∧ b ≠ 59 ∧ b ≠ 61.
Proof.
  unfold is_digit, ascii, is_whitespace. intros H. rewrite andb_true_iff, !Z.leb_le in H.
  assert (b = 48 ∨ b = 49 ∨ b = 50 ∨ b = 51 ∨ b = 52 ∨ b = 53 ∨ b = 54 ∨ b = 55 ∨ b = 56 ∨ b = 57) as Hc by lia.
  repeat destruct Hc as [->|Hc]; [..|subst b]; repeat split; lia.
Qed.

Lemma decimal_ascii n : 0 ≤ n < 10 ^ 20 →
  Forall ascii (decimal n) ∧ (58 ∉ decimal n) ∧ (59 ∉ decimal n) ∧ (61 ∉ decimal n) ∧
  ∃ l z, decimal n = l ++ [z] ∧ is_whitespace z = false.
Proof.
  intros Hn. destruct (dec_digits_ok 20 n n) as [_ Hd]; [lia|apply Hn|]. fold (decimal n) in Hd.
  assert (∀ c, is_digit c = false → c ∉ decimal n) as Hne.
  { intros c Hc Hin. apply (proj1 (Forall_forall _ _) Hd) in Hin. congruence. }
  split; [eapply Forall_impl; [exact Hd|]; intros b Hb; by apply digit_ascii|]. split_and!; [by apply Hne..|].
  pose proof (parse_decimal n n ltac:(lia) ltac:(lia)) as Hp. destruct (decimal n) as [|z l _] using rev_ind; [done|].
  exists l, z. split; [done|]. apply Forall_app in Hd as [_ Hd]. inversion Hd. by apply digit_ascii.
Qed.

(** ** The services of a field *)

Definition quoted (l : bytes) : bytes := 34 :: l ++ [34].
Definition alternative (v host : bytes) (port : Z) : bytes := v ++ [61] ++ quoted (host ++ [58] ++ decimal port).

Lemma unquote_quoted l : unquote (quoted l) = Some l.
Proof.
  unfold unquote, quoted. rewrite len_cons, len_app. change (len [34]) with 1. pose proof (len_nonneg l).
  destruct (Z.ltb_spec (1 + (len l + 1)) 2); [lia|]. f_equal. replace (1 + (len l + 1) - 2) with (len l) by lia.
  change (dropZ 1 (34 :: l ++ [34])) with (l ++ [34]). by rewrite takeZ_app_len.
Qed.

Lemma alt_authority_text host port : Forall ascii host → 58 ∉ host → 0 ≤ port ≤ 65535 →
  alt_authority (host ++ [58] ++ decimal port) = Some (match host with [] => None | _ => Some host end, decimal port).
Proof.
  intros Hh Hc Hp. destruct (decimal_ascii port) as (Hd & H58 & _); [lia|]. unfold alt_authority. cbn [app].
  rewrite split_on_part, split_on_last by done. rewrite takeZ_app_len.
  replace (dropZ (len host + 1) (host ++ 58 :: decimal port)) with (decimal port).
  2:{ rewrite dropZ_app_ge by lia. by replace (len host + 1 - len host) with 1 by lia. }
  unfold Port_from_str, Host_from_str, parse_u16. rewrite !str_from_utf8_ascii, parse_decimal by (done || lia).
  destruct host as [|b host]; [done|]. rewrite len_cons. pose proof (len_nonneg host). by destruct (Z.eqb_spec (1 + len host) 0); [lia|].
Qed.

Lemma max_age_text n : 0 ≤ n ≤ U64_MAX → max_age [bs " ma=" ++ decimal n] DEFAULT_MAX_AGE = Some n.
Proof.
  intros Hn. assert (0 ≤ n < 10 ^ 20) as Hn' by (unfold U64_MAX in *; lia). destruct (decimal_ascii n Hn') as (Hd & _ & _ & H61 & l & z & Hl & Hz).
  cbn [max_age]. rewrite str_from_utf8_ascii by (apply Forall_app; split; [by repeat constructor|done]). cbn [mbind option_bind].
  assert (trim (bs " ma=" ++ decimal n) = bs "ma=" ++ decimal n) as ->.
  { rewrite Hl. change (trim (109 :: ((97 :: 61 :: l) ++ [z])) = 109 :: ((97 :: 61 :: l) ++ [z])). by apply trim_inner. }
  rewrite utf8_ascii by (apply Forall_app; split; [by repeat constructor|done]).
  change (bs "ma=" ++ decimal n) with (bs "ma" ++ 61 :: decimal n). rewrite split_on_part, split_on_last by (done || by apply (bool_decide_unpack _)).
  rewrite bool_decide_true by done. rewrite str_from_utf8_ascii by done. cbn [mbind option_bind]. apply parse_decimal; lia.
Qed.

Ltac not_in := repeat first [rewrite not_elem_of_app | rewrite not_elem_of_cons]; split_and!; try done; try apply not_elem_of_nil.

(** an alternative of a known version with an ASCII host, or none, and a
    port is read to a service with that host and port, whose life is the [ma] of
    its parameter in seconds, or a day without one. *)
Theorem alt_svc_wellformed (now : Z) (src host : bytes) (v : bytes) (version : HttpVersion) (port : Z) (ma : option Z) :
  HttpVersion_try_from v = Some version → Forall ascii host → 58 ∉ host → 59 ∉ host → 61 ∉ host → 0 ≤ port ≤ 65535 →
  match ma with Some n => 0 ≤ n ≤ U64_MAX | None => True end →
  parse_alt_svc now src (alternative v host port ++ match ma with Some n => [59] ++ bs " ma=" ++ decimal n | None => [] end) =
    match checked_add now (default (24 * 3600) ma) with
    | Some t => Ok (mkAltService version src (match host with [] => None | _ => Some host end) (decimal port) t)
    | None => Err ()
    end.
Proof.
  intros Hv Hh H58 H59 H61 Hp Hma. destruct (decimal_ascii port) as (_ & _ & Hd59 & Hd61 & _); [lia|].
  assert ((59 ∉ v) ∧ (61 ∉ v)) as [Hv59 Hv61].
  { unfold HttpVersion_try_from in Hv. repeat case_bool_decide; subst; try done; split; by apply (bool_decide_unpack _). }
  assert (59 ∉ alternative v host port) as Ha.
  { unfold alternative, quoted. not_in. }
  unfold parse_alt_svc. set (params := match ma with Some _ => _ | None => _ end).
  assert (∃ ps, split_on 59 (alternative v host port ++ params) = alternative v host port :: ps ∧
    max_age ps DEFAULT_MAX_AGE = Some (default (24 * 3600) ma)) as (ps & -> & Hage).
  { unfold params. destruct ma as [n|].
    - exists [bs " ma=" ++ decimal n]. cbn [app]. destruct (decimal_ascii n) as (_ & _ & Hn59 & _); [unfold U64_MAX in *; lia|].
      assert (59 ∉ bs " ma=" ++ decimal n) by (apply not_elem_of_app; split; [by apply (bool_decide_unpack _)|done]).
      rewrite split_on_part, split_on_last by done. split; [done|by apply max_age_text].
    - exists []. rewrite app_nil_r, split_on_last by done. done. }
  unfold alternative at 1. cbn [app]. rewrite split_on_part, split_on_last by (try done; unfold quoted; not_in).
  rewrite Hv. cbn [app] in *. rewrite unquote_quoted. pose proof (alt_authority_text host port Hh H58 Hp) as Hau. cbn [app] in Hau. rewrite Hau.
  cbn [mbind option_bind]. rewrite Hage. cbn [mbind option_bind]. by destruct (checked_add _ _).
Qed.

Lemma alt_svc_wellformed_witness :
  parse_alt_svc 5 (bs "a.org") (alternative (bs "h3") (bs "b.org") 8443 ++ [59] ++ bs " ma=" ++ decimal 60) =
    Ok (mkAltService Http3 (bs "a.org") (Some (bs "b.org")) (bs "8443") 60000000005).
Proof.
  refine (eq_trans (alt_svc_wellformed 5 (bs "a.org") (bs "b.org") (bs "h3") Http3 8443 (Some 60) eq_refl _ _ _ _ _ _) _);
    [by repeat constructor|by apply (bool_decide_unpack _)..|lia|unfold U64_MAX; lia|done].
Defined.

(** [parse_alt_svc] panics exactly on an alternative whose version is known
    and whose authority has less than two bytes: it slices off quotes that it did
    not look for. *)
Theorem alt_svc_panics (now : Z) (src values : bytes) :
  parse_alt_svc now src values = Panic ↔
  ∃ v x rest, values = v ++ 61 :: x ++ rest ∧ HttpVersion_try_from v ≠ None ∧ len x < 2 ∧ (59 ∉ x) ∧ (61 ∉ x) ∧
    (rest = [] ∨ ∃ r, rest = 59 :: r ∨ rest = 61 :: r).
Proof.
  assert (∀ v, HttpVersion_try_from v ≠ None → (59 ∉ v) ∧ (61 ∉ v)) as Hv.
  { intros v H. unfold HttpVersion_try_from in H. repeat case_bool_decide; subst; try done; split; by apply (bool_decide_unpack _). }
  unfold parse_alt_svc. split.
  - destruct (split_on_nonempty 59 values) as (alt & params & E). rewrite E. apply split_on_inv in E as [Ha Hvalues].
    destruct (split_on_nonempty 61 alt) as (v & rest & E). rewrite E. apply split_on_inv in E as [_ Halt].
    destruct (HttpVersion_try_from v) as [version|] eqn:Eversion; [|done]. destruct rest as [|x rest]; [done|].
    destruct Halt as [[_ ?]|(r & -> & E)]; [done|]. apply split_on_inv in E as [Hx Hr]. unfold unquote.
    destruct (Z.ltb_spec (len x) 2) as [Hlen|]; [intros _|by case_match].
    apply not_elem_of_app in Ha as [_ [_ Ha]%not_elem_of_cons].
    assert (59 ∉ x) as Hx' by (destruct Hr as [[-> _]|(r' & -> & _)]; [done|by apply not_elem_of_app in Ha as [? _]]).
    destruct Hvalues as [[-> _]|(s & -> & _)], Hr as [[-> _]|(r' & -> & _)].
    + exists v, x, []. rewrite app_nil_r, Eversion. by auto 10.
    + exists v, x, (61 :: r'). rewrite Eversion. by eauto 10.
    + exists v, x, (59 :: s). rewrite <- app_assoc, Eversion. by eauto 10.
    + exists v, x, (61 :: r' ++ 59 :: s). rewrite Eversion, <- app_assoc. cbn [app]. rewrite <- app_assoc. by eauto 10.
  - intros (v & x & rest & -> & Hversion & Hlen & H59 & H61 & Hrest). destruct (Hv v Hversion) as [Hv59 Hv61].
    assert (∃ alt params, split_on 59 (v ++ 61 :: x ++ rest) = alt :: params ∧ ∃ r, split_on 61 alt = v :: x :: r) as (alt & params & -> & r & ->).
    { assert (59 ∉ v ++ 61 :: x) as Hvx by not_in. destruct Hrest as [->|[r [->| ->]]].
      - exists (v ++ 61 :: x), []. rewrite app_nil_r, split_on_last by done. split; [done|]. exists []. by rewrite split_on_part, split_on_last.
      - exists (v ++ 61 :: x), (split_on 59 r). change (61 :: x ++ 59 :: r) with ((61 :: x) ++ 59 :: r). rewrite app_assoc, split_on_part by done.
        split; [done|]. exists []. by rewrite split_on_part, split_on_last.
      - destruct (split_on_nonempty 59 r) as (p & ps & E). apply split_on_inv in E as [Hp Hr].
        exists (v ++ 61 :: x ++ 61 :: p), ps. split.
        + assert (59 ∉ v ++ 61 :: x ++ 61 :: p) by not_in. destruct Hr as [[-> ->]|(r' & -> & <-)]; [by rewrite split_on_last|].
          replace (v ++ 61 :: x ++ 61 :: p ++ 59 :: r') with ((v ++ 61 :: x ++ 61 :: p) ++ 59 :: r') by (by rewrite <- !app_assoc; cbn; rewrite <- !app_assoc).
          by apply split_on_part.
        + exists (split_on 61 p). by rewrite !split_on_part. }
    destruct (HttpVersion_try_from v); [|done]. unfold unquote. by destruct (Z.ltb_spec (len x) 2); [|lia].
Qed.

(** ** What a field does *)

Definition origin : Uri := mkUri (Some PHttps) (Some (mkAuthority (bs "a.org") None)) None None.
Definition answer (value : bytes) : Headers := (Headers_insert (bs "Alt-Svc") value ∅).1.
Definition stored (value : bytes) : AltServiceMap := (set_alt_svcs 0 origin (answer value) ∅).1.
Definition key_of_origin : PoolKey := (PHttps, mkAuthority (bs "a.org") None).
Definition q : bytes := [34].

Definition svc (version : HttpVersion) (seconds : Z) : AltService := mkAltService version (bs "a.org") None (bs "443") (seconds * NANOS).
Definition field (space : bytes) : bytes :=
  bs "h3=" ++ q ++ bs ":443" ++ q ++ bs "; ma=60," ++ space ++ bs "h2=" ++ q ++ bs ":443" ++ q.

(** A space behind a comma hides the service that follows. *)
Example field_with_space :
  (get_alt_svcs 0 key_of_origin (stored (field []))).2 = Some [svc Http3 60; svc Http2 86400] ∧
  (get_alt_svcs 0 key_of_origin (stored (field (bs " ")))).2 = Some [svc Http3 60].
Proof. by vm_compute. Qed.

(** Services are dropped after their life, and all at [clear]. *)
Example lives_end :
  (get_alt_svcs (61 * NANOS) key_of_origin (stored (field []))).2 = Some [svc Http2 86400] ∧
  (set_alt_svcs 9 origin (answer (bs "clear")) (stored (field []))).1 = ∅ ∧ (get_alt_svcs 9 key_of_origin ∅).2 = None.
Proof. by vm_compute. Qed.

(** A field of three bytes ends the program. *)
Example short_field : (set_alt_svcs 0 origin (answer (bs "h3=")) ∅).2 = Panic.
Proof. by vm_compute. Qed.

(** The URI of the connection is that of the first service of HTTP/3. *)
Example url_of_service :
  alt_url (mkUri (Some PHttps) (Some (mkAuthority (bs "a.org") None)) (Some (bs "/x")) None) [svc Http2 9; svc Http3 9] =
    Ok (mkUri (Some PHttps) (Some (mkAuthority (bs "a.org") (Some (bs "443")))) (Some (bs "/x")) None).
Proof. by vm_compute. Qed.
