(* ===== verification/H3Error.v ===== *)
(** * HTTP/3 errors

    Models [src/ylong_http/src/h3/error.rs] and [h3/qpack/error.rs]. *)

From S2P Require Import Prelude.
#[local] Open Scope Z_scope.

(** ** QPACK *)

Inductive QpackErrorCode := DecompressionFailed | EncoderStreamError | DecoderStreamError | QpackSettingsError.
Inductive NotClassified := DynamicTableInsufficient | StreamBlocked.
Inductive QpackError := ConnectionError (c : QpackErrorCode) | QpackInternalError (e : NotClassified).

(** ** HTTP/3 *)

Inductive CommonError := BufferTooShort | FieldMissing | CalculateOverflow | InternalError.
Inductive EncodeError :=
  NoCurrentFrame | WrongTypeFrame | RepeatSetFrame | UnknownFrameType | TooManySettings | EncodeQpackError (e : QpackError).
Inductive DecodeError :=
  UnexpectedFrame (ty : Z) | DecodeQpackError (e : QpackError) | FrameSizeError (len : Z) | UnsupportedSetting (key : Z).

Inductive H3ErrorCode :=
  H3DatagramError | H3NoError | H3GeneralProtocolError | H3InternalError | H3StreamCreationError | H3ClosedCriticalStream |
  H3FrameUnexpected | H3FrameError | H3ExcessiveLoad | H3IdError | H3SettingsError | H3MissingSettings | H3RequestRejected |
  H3RequestCancelled | H3RequestIncomplete | H3MessageError | H3ConnectError | H3VersionFallback | QPACKDecompressionFailed |
  QPACKEncoderStreamError | QPACKDecoderStreamError.

Inductive H3Error :=
  Encode (e : EncodeError) | Decode (e : DecodeError) | Serialize (e : CommonError) | Connection (c : H3ErrorCode) | Stream (id : Z) (c : H3ErrorCode).

(** The discriminant. *)
Definition h3_code (c : H3ErrorCode) : Z :=
  match c with
  | H3DatagramError => 0x33 | H3NoError => 0x100 | H3GeneralProtocolError => 0x101 | H3InternalError => 0x102
  | H3StreamCreationError => 0x103 | H3ClosedCriticalStream => 0x104 | H3FrameUnexpected => 0x105 | H3FrameError => 0x106
  | H3ExcessiveLoad => 0x107 | H3IdError => 0x108 | H3SettingsError => 0x109 | H3MissingSettings => 0x10A
  | H3RequestRejected => 0x10B | H3RequestCancelled => 0x10C | H3RequestIncomplete => 0x10D | H3MessageError => 0x10E
  | H3ConnectError => 0x10F | H3VersionFallback => 0x110 | QPACKDecompressionFailed => 0x200
  | QPACKEncoderStreamError => 0x201 | QPACKDecoderStreamError => 0x202
  end.

(** [From<u64>]. *)
Definition H3ErrorCode_from (value : Z) : H3ErrorCode :=
  match value with
  | 0x33 => H3DatagramError | 0x100 => H3NoError | 0x101 => H3GeneralProtocolError | 0x102 => H3InternalError
  | 0x103 => H3StreamCreationError | 0x104 => H3ClosedCriticalStream | 0x105 => H3FrameUnexpected | 0x106 => H3FrameError
  | 0x107 => H3ExcessiveLoad | 0x108 => H3IdError | 0x109 => H3SettingsError | 0x10A => H3MissingSettings
  | 0x10B => H3RequestRejected | 0x10C => H3RequestCancelled | 0x10D => H3RequestIncomplete | 0x10E => H3MessageError
  | 0x10F => H3ConnectError | 0x110 => H3VersionFallback | 0x200 => QPACKDecompressionFailed
  | 0x201 => QPACKEncoderStreamError | 0x202 => QPACKDecoderStreamError
  | _ => H3GeneralProtocolError
  end.

(** A code survives the wire. *)
Theorem h3_code_roundtrip (c : H3ErrorCode) : H3ErrorCode_from (h3_code c) = c.
Proof. by destruct c. Qed.
