(* ===== verification/Varint.v ===== *)
(** * Variable-length integers of QUIC

    Models [src/ylong_http/src/h3/octets.rs]: the cursors over bytes, and the
    integers of RFC 9000 section 16 with their two bits of length. *)

From S2P Require Import Prelude H3Error.
#[local] Open Scope Z_scope.

Definition be_value (l : bytes) : Z := fold_left (λ acc b, acc * 256 + b) l 0.

(** ** [ReadableBytes] *)

Record ReadableBytes := mkReadableBytes { rb_buf : bytes; rb_idx : Z }.
Definition ReadableBytes_from (buf : bytes) : ReadableBytes := mkReadableBytes buf 0.
Definition rb_cap (r : ReadableBytes) : Z := len (rb_buf r) - rb_idx r.
Definition rb_remaining (r : ReadableBytes) : bytes := dropZ (rb_idx r) (rb_buf r).
Definition rb_add (n : Z) (r : ReadableBytes) : ReadableBytes := mkReadableBytes (rb_buf r) (rb_idx r + n).

(** The macros [peek_bytes] and [poll_bytes]. *)
Definition peek_bytes (n : Z) : ST ReadableBytes H3Error Z :=
  r ← get_st;
  if len (rb_remaining r) <? n then throw (Serialize BufferTooShort) else mret (be_value (takeZ n (rb_remaining r))).
Definition poll_bytes (n : Z) : ST ReadableBytes H3Error Z :=
  x ← peek_bytes n; _ ← modify_st (rb_add n); mret x.

Definition parse_varint_len (byte : Z) : Z := Z.shiftl 1 (Z.shiftr byte 6).

Definition get_varint : ST ReadableBytes H3Error Z :=
  first ← peek_bytes 1;
  let n := parse_varint_len first in
  r ← get_st;
  if rb_cap r <? n then throw (Serialize BufferTooShort)
  else
    match n with
    | 1 => poll_bytes 1
    | 2 => x ← poll_bytes 2; mret (Z.land x 0x3fff)
    | 4 => x ← poll_bytes 4; mret (Z.land x 0x3fffffff)
    | 8 => x ← poll_bytes 8; mret (Z.land x 0x3fffffffffffffff)
    | _ => panic
    end.

Definition rb_slice (length : Z) : ST ReadableBytes H3Error bytes :=
  r ← get_st;
  if rb_cap r <? length then throw (Serialize BufferTooShort)
  else _ ← put_st (rb_add length r); mret (takeZ length (rb_remaining r)).

(** ** [WritableBytes] *)

Record WritableBytes := mkWritableBytes { wb_bytes : bytes; wb_idx : Z }.
Definition WritableBytes_from (buf : bytes) : WritableBytes := mkWritableBytes buf 0.
Definition wb_remaining (w : WritableBytes) : Z := len (wb_bytes w) - wb_idx w.

(** The macro [write_bytes]: [tag] is what is set in the first byte. *)
Definition set_tag (tag : Z) (l : bytes) : bytes := match l with b :: l => Z.lor b tag :: l | [] => [] end.
Definition write_bytes (n : nat) (tag value : Z) : ST WritableBytes H3Error Z :=
  w ← get_st;
  if wb_remaining w <? Z.of_nat n then throw (Serialize BufferTooShort)
  else
    let out := set_tag tag (be_bytes n value) in
    _ ← put_st (mkWritableBytes (takeZ (wb_idx w) (wb_bytes w) ++ out ++ dropZ (wb_idx w + Z.of_nat n) (wb_bytes w)) (wb_idx w + Z.of_nat n));
    mret (Z.of_nat n).

(** [varint_len]: [Panic] is [unreachable]. *)
Definition varint_len (v : Z) : result H3Error Z :=
  if v <=? 63 then Ok 1
  else if v <=? 16383 then Ok 2
  else if v <=? 1073741823 then Ok 4
  else if v <=? 4611686018427387903 then Ok 8
  else Panic.

Definition write_varint_with_len (value n : Z) : ST WritableBytes H3Error Z :=
  w ← get_st;
  if wb_remaining w <? n then throw (Serialize BufferTooShort)
  else
    match n with
    | 1 => write_bytes 1 0 (value mod 2 ^ 8)
    | 2 => write_bytes 2 0x40 (value mod 2 ^ 16)
    | 4 => write_bytes 4 0x80 (value mod 2 ^ 32)
    | 8 => write_bytes 8 0xc0 value
    | _ => panic
    end.

Definition write_varint (value : Z) : ST WritableBytes H3Error Z :=
  n ← lift_res (varint_len value); write_varint_with_len value n.

(** [encode_var_integer] of [h3/encoder.rs]: the buffer afterwards, and the size. *)
Definition encode_var_integer (src : Z) (frame_buf : bytes) : result H3Error (bytes * Z) :=
  match write_varint src (WritableBytes_from frame_buf) with
  | (w, Ok _) => Ok (wb_bytes w, wb_idx w)
  | (_, Err e) => Err e
  | (_, Panic) => Panic
  end.

(** ** RFC 9000 section 16 *)

(** The length is 2 to the power of the two first bits. *)
Definition varint_bits (v : Z) : Z := if v <=? 63 then 0 else if v <=? 16383 then 1 else if v <=? 1073741823 then 2 else 3.
Definition varint_size (v : Z) : nat := 2 ^ Z.to_nat (varint_bits v).
Definition varint_wire (v : Z) : bytes := be_bytes (varint_size v) (varint_bits v * 2 ^ (8 * Z.of_nat (varint_size v) - 2) + v).
Definition is_varint (v : Z) : Prop := 0 ≤ v < 2 ^ 62.

(** ** Lemmas *)

Lemma be_value_app l k : be_value (l ++ k) = be_value l * 256 ^ len k + be_value k.
Proof.
  unfold be_value. rewrite fold_left_app. generalize (fold_left (λ acc b, acc * 256 + b) l 0). induction k as [|b k IH] using rev_ind; intros x.
  - cbn. change (256 ^ len []) with 1. lia.
  - rewrite !fold_left_app. cbn [fold_left]. rewrite IH, len_app. change (len [b]) with 1. rewrite Z.pow_add_r by (try apply len_nonneg; lia). ring.
Qed.

Lemma be_value_bytes n x : be_value (be_bytes n x) = x mod 2 ^ (8 * Z.of_nat n).
Proof.
  induction n as [|n IH]; [by rewrite Z.mod_1_r|]. cbn [be_bytes].
  change (?b :: be_bytes n x) with ([b] ++ be_bytes n x). rewrite be_value_app, IH. unfold len. rewrite length_be_bytes.
  change (be_value [Z.shiftr x (8 * Z.of_nat n) mod 256]) with (0 * 256 + Z.shiftr x (8 * Z.of_nat n) mod 256).
  rewrite Z.shiftr_div_pow2 by lia. change 256 with (2 ^ 8). rewrite <- Z.pow_mul_r by lia.
  replace (8 * Z.of_nat (S n)) with (8 * Z.of_nat n + 8) by lia. rewrite Z.pow_add_r by lia.
  rewrite Z.rem_mul_r by lia. lia.
Qed.

Lemma be_bytes_app n m x : be_bytes (n + m) x = be_bytes n (Z.shiftr x (8 * Z.of_nat m)) ++ be_bytes m x.
Proof.
  induction n as [|n IH]; [done|]. cbn [be_bytes Nat.add app]. rewrite IH, Z.shiftr_shiftr by lia. do 3 f_equal. lia.
Qed.

Lemma be_bytes_high n m t x : (n ≤ m)%nat → be_bytes n (t * 2 ^ (8 * Z.of_nat m) + x) = be_bytes n x.
Proof.
  induction n as [|n IH]; intros Hm; [done|]. cbn [be_bytes]. rewrite IH by lia. f_equal. rewrite !Z.shiftr_div_pow2 by lia.
  replace (8 * Z.of_nat m) with (8 * Z.of_nat (m - S n) + 8 + 8 * Z.of_nat n) by lia. rewrite !Z.pow_add_r by lia.
  rewrite Z.mul_assoc, Z.div_add_l by (apply Z.pow_nonzero; lia). rewrite Z.mul_assoc. change (2 ^ 8) with 256.
  rewrite Z.add_comm. by apply Z.mod_add.
Qed.

(** A tag is set where the value has no bits. *)
Lemma set_tag_bytes n tag v k : 0 ≤ k ≤ 8 → 0 ≤ v < 2 ^ (8 * Z.of_nat n + k) → tag * 2 ^ k < 256 → 0 ≤ tag →
  set_tag (tag * 2 ^ k) (be_bytes (S n) v) = be_bytes (S n) (tag * 2 ^ (8 * Z.of_nat n + k) + v).
Proof.
  intros Hk Hv Ht Ht0. cbn [be_bytes set_tag]. assert (0 < 2 ^ k) by (apply Z.pow_pos_nonneg; lia). rewrite !Z.shiftr_div_pow2 by lia.
  rewrite Z.pow_add_r in * by lia. pose proof (be_bytes_high n n (tag * 2 ^ k) v (le_n n)) as Htail.
  set (q := 2 ^ (8 * Z.of_nat n)) in *. assert (0 < q) by (apply Z.pow_pos_nonneg; lia).
  assert (0 ≤ v / q < 2 ^ k) by (split; [apply Z.div_pos; lia|apply Z.div_lt_upper_bound; nia]).
  replace (tag * (q * 2 ^ k) + v) with (tag * 2 ^ k * q + v) by lia. rewrite Htail, Z.div_add_l by lia. f_equal.
  assert (2 ^ k ≤ 2 ^ 8) by (apply Z.pow_le_mono_r; lia). change (2 ^ 8) with 256 in *.
  rewrite (Z.mod_small (v / q)) by lia. rewrite Z.lor_comm, (lor_add (tag * 2 ^ k) _ k); [|lia|by apply Z.mod_mul; lia|lia].
  assert (2 ^ (8 - k) * 2 ^ k = 256) as Hp by (rewrite <- Z.pow_add_r by lia; by replace (8 - k + k) with 8 by lia).
  rewrite Z.mod_small; [done|]. split; [nia|]. assert (tag < 2 ^ (8 - k)) by nia. nia.
Qed.

Lemma varint_len_size v : is_varint v → varint_len v = Ok (Z.of_nat (varint_size v)).
Proof.
  intros Hv. unfold varint_len, varint_size, varint_bits, is_varint in *.
  destruct (Z.leb_spec v 63); [done|]. destruct (Z.leb_spec v 16383); [done|]. destruct (Z.leb_spec v 1073741823); [done|].
  destruct (Z.leb_spec v 4611686018427387903); [done|lia].
Qed.

(** A case for each length of an integer below 2 to the power of 62. *)
Lemma varint_cases (P : nat → Z → Z → Prop) v : is_varint v →
  (0 ≤ v < 2 ^ 6 → P 1%nat 0 6) → (0 ≤ v < 2 ^ 14 → P 2%nat 1 14) → (0 ≤ v < 2 ^ 30 → P 4%nat 2 30) → (0 ≤ v < 2 ^ 62 → P 8%nat 3 62) →
  P (varint_size v) (varint_bits v) (8 * Z.of_nat (varint_size v) - 2).
Proof.
  intros Hv H1 H2 H4 H8. unfold varint_size, varint_bits, is_varint in *.
  destruct (Z.leb_spec v 63); [apply H1; lia|]. destruct (Z.leb_spec v 16383); [apply H2; lia|].
  destruct (Z.leb_spec v 1073741823); [apply H4; lia|apply H8; lia].
Qed.

Lemma length_varint_wire v : len (varint_wire v) = Z.of_nat (varint_size v).
Proof. unfold len, varint_wire. by rewrite length_be_bytes. Qed.

Lemma write_bytes_wire n tag v buf : 0 ≤ tag < 4 → 0 ≤ v < 2 ^ (8 * Z.of_nat n + 6) → Z.of_nat (S n) ≤ len buf →
  write_bytes (S n) (tag * 2 ^ 6) v (WritableBytes_from buf) =
    (mkWritableBytes (be_bytes (S n) (tag * 2 ^ (8 * Z.of_nat n + 6) + v) ++ dropZ (Z.of_nat (S n)) buf) (Z.of_nat (S n)), Ok (Z.of_nat (S n))).
Proof.
  intros Ht Hv Hb. unfold write_bytes, WritableBytes_from. rewrite bind_st. cbn [get_st wb_remaining wb_bytes wb_idx].
  unfold wb_remaining. cbn [wb_bytes wb_idx]. destruct (Z.ltb_spec (len buf - 0) (Z.of_nat (S n))); [lia|].
  rewrite set_tag_bytes by lia. done.
Qed.

Lemma write_varint_wire v buf : is_varint v → Z.of_nat (varint_size v) ≤ len buf →
  write_varint v (WritableBytes_from buf) =
    (mkWritableBytes (varint_wire v ++ dropZ (Z.of_nat (varint_size v)) buf) (Z.of_nat (varint_size v)), Ok (Z.of_nat (varint_size v))).
Proof.
  intros Hv Hb. unfold write_varint. rewrite bind_st. unfold lift_res. rewrite varint_len_size by done.
  unfold write_varint_with_len. rewrite bind_st. cbn [get_st]. unfold wb_remaining. cbn [WritableBytes_from wb_bytes wb_idx].
  destruct (Z.ltb_spec (len buf - 0) (Z.of_nat (varint_size v))); [lia|]. unfold varint_wire.
  revert Hb. pattern (varint_size v), (varint_bits v), (8 * Z.of_nat (varint_size v) - 2).
  apply (varint_cases _ v Hv); cbn [Z.of_nat Pos.of_succ_nat Pos.succ]; intros Hr Hb.
  - rewrite (Z.mod_small v (2 ^ 8)) by lia. by apply (write_bytes_wire 0 0).
  - rewrite (Z.mod_small v (2 ^ 16)) by lia. by apply (write_bytes_wire 1 1).
  - rewrite (Z.mod_small v (2 ^ 32)) by lia. by apply (write_bytes_wire 3 2).
  - by apply (write_bytes_wire 7 3).
Qed.

(** ** Reading *)

Lemma peek_at n r : (match peek_bytes n r with (r', x) => (r', x) end) =
  (r, if len (rb_remaining r) <? n then Err (Serialize BufferTooShort) else Ok (be_value (takeZ n (rb_remaining r)))).
Proof. unfold peek_bytes. rewrite bind_st. cbn [get_st]. by destruct (_ <? _). Qed.

Lemma poll_at n r : n ≤ len (rb_remaining r) →
  poll_bytes n r = (rb_add n r, Ok (be_value (takeZ n (rb_remaining r)))).
Proof.
  intros H. unfold poll_bytes, peek_bytes. rewrite !bind_st. cbn [get_st]. destruct (Z.ltb_spec (len (rb_remaining r)) n); [lia|]. done.
Qed.

(** What [get_varint] reads at the cursor: the integer and its size. *)
Definition read_varint (l : bytes) : option (Z * Z) :=
  match l with
  | [] => None
  | b :: _ =>
      let n := parse_varint_len b in
      if len l <? n then None else Some (be_value (takeZ n l) mod 2 ^ (8 * n - 2), n)
  end.

Lemma parse_varint_len_cases b : is_byte b →
  parse_varint_len b = 1 ∨ parse_varint_len b = 2 ∨ parse_varint_len b = 4 ∨ parse_varint_len b = 8.
Proof.
  unfold is_byte, parse_varint_len. intros H. rewrite Z.shiftr_div_pow2 by lia. change (2 ^ 6) with 64.
  assert (b / 64 = 0 ∨ b / 64 = 1 ∨ b / 64 = 2 ∨ b / 64 = 3) as [->|[->|[->| ->]]] by (Z.div_mod_to_equations; lia);
    [by left|by right; left|by do 2 right; left|by do 3 right].
Qed.

Lemma get_varint_at r : 0 ≤ rb_idx r ≤ len (rb_buf r) → Forall is_byte (rb_buf r) →
  get_varint r = match read_varint (rb_remaining r) with
                 | Some (v, n) => (rb_add n r, Ok v)
                 | None => (r, Err (Serialize BufferTooShort))
                 end.
Proof.
  intros Hi Hb. unfold get_varint, peek_bytes. rewrite !bind_st. cbn [get_st].
  assert (Forall is_byte (rb_remaining r)) as Hr by (by apply Forall_drop).
  assert (rb_cap r = len (rb_remaining r)) as Hc by (unfold rb_cap, rb_remaining; rewrite len_dropZ; lia).
  destruct (rb_remaining r) as [|b l] eqn:El; [done|]. rewrite len_cons in *. pose proof (len_nonneg l).
  destruct (Z.ltb_spec (1 + len l) 1); [lia|]. cbn [mret ST_ret]. change (be_value (takeZ 1 (b :: l))) with (0 * 256 + b).
  replace (0 * 256 + b) with b by lia. rewrite !bind_st. cbn [get_st]. rewrite Hc. unfold read_varint. rewrite len_cons. cbv zeta.
  destruct (Z.ltb_spec (1 + len l) (parse_varint_len b)); [done|].
  inversion Hr as [|? ? Hbyte _]; subst. pose proof (parse_varint_len_cases b Hbyte) as Hn.
  assert (∀ k, k ≤ 1 + len l → poll_bytes k r = (rb_add k r, Ok (be_value (takeZ k (b :: l))))) as Hpoll.
  { intros k Hk. rewrite poll_at; rewrite El; [done|by rewrite len_cons]. }
  destruct Hn as [E|[E|[E|E]]]; rewrite E in *; try rewrite bind_st; rewrite Hpoll by lia; unfold mret, ST_ret; do 2 f_equal.
  - change (takeZ 1 (b :: l)) with [b]. change (be_value [b]) with (0 * 256 + b). unfold parse_varint_len, is_byte in *.
    rewrite Z.shiftr_div_pow2 in E by lia. rewrite Z.mod_small; [done|].
    assert (b / 2 ^ 6 = 0 ∨ b / 2 ^ 6 = 1 ∨ b / 2 ^ 6 = 2 ∨ b / 2 ^ 6 = 3) as [E'|[E'|[E'|E']]]
      by (change (2 ^ 6) with 64; Z.div_mod_to_equations; lia); rewrite E' in E; try done.
    change (8 * 1 - 2) with 6. change (2 ^ 6) with 64 in *. Z.div_mod_to_equations; lia.
  - exact (land_mask _ 14 ltac:(lia)).
  - exact (land_mask _ 30 ltac:(lia)).
  - exact (land_mask _ 62 ltac:(lia)).
Qed.

Lemma first_byte_tag m t v : 0 ≤ m → 0 ≤ t < 4 → 0 ≤ v < 2 ^ (m + 6) →
  is_byte (Z.shiftr (t * 2 ^ (m + 6) + v) m mod 256) ∧ Z.shiftr (t * 2 ^ (m + 6) + v) m mod 256 / 64 = t.
Proof.
  intros Hm Ht Hv. rewrite Z.shiftr_div_pow2 by done. rewrite Z.pow_add_r in * by lia. change (2 ^ 6) with 64 in *.
  set (q := 2 ^ m) in *. assert (0 < q) by (apply Z.pow_pos_nonneg; lia).
  replace (t * (q * 64) + v) with (t * 64 * q + v) by lia. rewrite Z.div_add_l by lia.
  assert (0 ≤ v / q < 64) by (split; [apply Z.div_pos; lia|apply Z.div_lt_upper_bound; lia]).
  rewrite Z.mod_small by lia. split; [unfold is_byte; lia|]. rewrite Z.div_add_l by lia. rewrite Z.div_small by lia. lia.
Qed.

Lemma varint_wire_head v : is_varint v → ∃ b l, varint_wire v = b :: l ∧ is_byte b ∧ b / 64 = varint_bits v.
Proof.
  intros Hv. unfold varint_wire. pattern (varint_size v), (varint_bits v), (8 * Z.of_nat (varint_size v) - 2).
  apply (varint_cases _ v Hv); intros Hr; cbn [be_bytes]; eexists _, _; (split; [done|]).
  - by apply (first_byte_tag 0 0).
  - by apply (first_byte_tag 8 1).
  - by apply (first_byte_tag 24 2).
  - by apply (first_byte_tag 56 3).
Qed.

Lemma read_varint_wire v rest : is_varint v → read_varint (varint_wire v ++ rest) = Some (v, Z.of_nat (varint_size v)).
Proof.
  intros Hv. pose proof (length_varint_wire v) as Hlen. destruct (varint_wire_head v Hv) as (b & l & Hw & Hb & Hbits).
  assert (parse_varint_len b = Z.of_nat (varint_size v)) as Hp.
  { unfold parse_varint_len. rewrite Z.shiftr_div_pow2 by lia. change (2 ^ 6) with 64. rewrite Hbits.
    pattern (varint_size v), (varint_bits v), (8 * Z.of_nat (varint_size v) - 2). by apply (varint_cases _ v Hv). }
  unfold read_varint. rewrite Hw at 1. cbn [app]. rewrite Hp. cbv zeta. rewrite len_app, Hlen. pose proof (len_nonneg rest).
  destruct (Z.ltb_spec (Z.of_nat (varint_size v) + len rest) (Z.of_nat (varint_size v))); [lia|]. rewrite <- Hlen at 1.
  rewrite takeZ_app_len. unfold varint_wire. rewrite be_value_bytes. do 2 f_equal.
  pattern (varint_size v), (varint_bits v), (8 * Z.of_nat (varint_size v) - 2).
  apply (varint_cases _ v Hv); cbn [Z.of_nat Pos.of_succ_nat Pos.succ]; intros Hr.
  - rewrite (Z.mod_small (_ + v)); [|lia]. apply Z.mod_small. lia.
  - rewrite (Z.mod_small (_ + v)); [|lia]. rewrite Z.add_comm, Z.mod_add by lia. apply Z.mod_small. lia.
  - rewrite (Z.mod_small (_ + v)); [|lia]. rewrite Z.add_comm, Z.mod_add by lia. apply Z.mod_small. lia.
  - rewrite (Z.mod_small (_ + v)); [|lia]. rewrite Z.add_comm, Z.mod_add by lia. apply Z.mod_small. lia.
Qed.

Lemma encode_var_integer_wire v buf : is_varint v → len (varint_wire v) ≤ len buf →
  encode_var_integer v buf = Ok (varint_wire v ++ dropZ (len (varint_wire v)) buf, len (varint_wire v)).
Proof.
  intros Hv Hb. rewrite length_varint_wire in *. unfold encode_var_integer. by rewrite write_varint_wire.
Qed.

Lemma varint_size_bounds v : (1 ≤ varint_size v ≤ 8)%nat.
Proof. unfold varint_size, varint_bits. repeat case_match; cbv; lia. Qed.

Lemma get_varint_wire v rest : is_varint v → Forall is_byte rest →
  get_varint (ReadableBytes_from (varint_wire v ++ rest)) = (mkReadableBytes (varint_wire v ++ rest) (len (varint_wire v)), Ok v).
Proof.
  intros Hv Hrest. pose proof (length_varint_wire v) as Hlen. pose proof (len_nonneg rest). unfold ReadableBytes_from.
  rewrite get_varint_at; cbn [rb_idx rb_buf].
  - unfold rb_remaining. cbn [rb_idx rb_buf]. rewrite dropZ_0, read_varint_wire, Hlen by done. done.
  - rewrite len_app. lia.
  - apply Forall_app. split; [apply be_bytes_byte|done].
Qed.

(** an integer below 2 to the power of 62 is written in the shortest of the
    four lengths of RFC 9000 section 16, the rest of the buffer stays, and it is
    read back from in front of any bytes; a larger one panics. *)
Theorem varint_roundtrip (v : Z) (buf rest : bytes) :
  is_varint v → len (varint_wire v) ≤ len buf → Forall is_byte rest →
  encode_var_integer v buf = Ok (varint_wire v ++ dropZ (len (varint_wire v)) buf, len (varint_wire v)) ∧
  get_varint (ReadableBytes_from (varint_wire v ++ rest)) = (mkReadableBytes (varint_wire v ++ rest) (len (varint_wire v)), Ok v) ∧
  ∀ w, is_varint w → len (varint_wire v) < len (varint_wire w) → v < w.
Proof.
  intros Hv Hb Hrest. pose proof (length_varint_wire v) as Hlen. split_and!; [by apply encode_var_integer_wire|by apply get_varint_wire|].
  - intros w Hw. rewrite Hlen, length_varint_wire. unfold varint_size, varint_bits.
    destruct (Z.leb_spec v 63), (Z.leb_spec w 63), (Z.leb_spec v 16383), (Z.leb_spec w 16383), (Z.leb_spec v 1073741823), (Z.leb_spec w 1073741823);
      change (Z.of_nat (2 ^ Z.to_nat 0)) with 1; change (Z.of_nat (2 ^ Z.to_nat 1)) with 2;
      change (Z.of_nat (2 ^ Z.to_nat 2)) with 4; change (Z.of_nat (2 ^ Z.to_nat 3)) with 8; lia.
Qed.

Lemma varint_roundtrip_witness :
  encode_var_integer 494878333 [1; 2; 3; 4; 5] = Ok ([0x9d; 0x7f; 0x3e; 0x7d; 5], 4) ∧
  get_varint (ReadableBytes_from [0x9d; 0x7f; 0x3e; 0x7d; 9]) = (mkReadableBytes [0x9d; 0x7f; 0x3e; 0x7d; 9] 4, Ok 494878333).
Proof.
  destruct (varint_roundtrip 494878333 [1; 2; 3; 4; 5] [9]) as (H1 & H2 & _); [done|done|by apply bytesb_ok|]. by split.
Defined.

Lemma varint_too_large v buf : 2 ^ 62 ≤ v → encode_var_integer v buf = Panic.
Proof.
  intros Hv. unfold encode_var_integer, write_varint. rewrite bind_st. unfold lift_res, varint_len.
  destruct (Z.leb_spec v 63); [lia|]. destruct (Z.leb_spec v 16383); [lia|]. destruct (Z.leb_spec v 1073741823); [lia|].
  destruct (Z.leb_spec v 4611686018427387903); [lia|done].
Qed.
