(* ===== verification/QpackTable.v ===== *)
(** * QPACK tables

    Models [src/ylong_http/src/h3/qpack/table.rs]: the static table of RFC 9204,
    the dynamic table with absolute indices, tracked references and eviction,
    and the search over both.  [NameField] is the [Header] of [HpackTable], which
    has the same variants. *)

From S2P Require Import Prelude HpackTable.
#[local] Open Scope Z_scope.

Definition NameField : Type := Header.
Definition NameField_len : NameField → Z := Header_len.
Definition NameField_to_string : NameField → bytes := into_string.

Inductive TableIndex := IField (i : Z) | IFieldName (i : Z).
Inductive SearchResult := StaticIndex (i : Z) | StaticNameIndex (i : Z) | DynamicIndex (i : Z) | DynamicNameIndex (i : Z) | NotFound.

(** ** Static table *)

(** [StaticTable::field_name]. *)
Definition static_field_name (index : Z) : option Header :=
  match index with
  | 0 => Some Authority
  | 1 => Some Path
  | 2 => Some (Other (bs "age"))
  | 3 => Some (Other (bs "content-disposition"))
  | 4 => Some (Other (bs "content-length"))
  | 5 => Some (Other (bs "cookie"))
  | 6 => Some (Other (bs "date"))
  | 7 => Some (Other (bs "etag"))
  | 8 => Some (Other (bs "if-modified-since"))
  | 9 => Some (Other (bs "if-none-match"))
  | 10 => Some (Other (bs "last-modified"))
  | 11 => Some (Other (bs "link"))
  | 12 => Some (Other (bs "location"))
  | 13 => Some (Other (bs "referer"))
  | 14 => Some (Other (bs "set-cookie"))
  | 15 | 16 | 17 | 18 | 19 | 20 | 21 => Some Method
  | 22 | 23 => Some Scheme
  | 24 | 25 | 26 | 27 | 28 => Some Status
  | 29 | 30 => Some (Other (bs "accept"))
  | 31 => Some (Other (bs "accept-encoding"))
  | 32 => Some (Other (bs "accept-ranges"))
  | 33 | 34 => Some (Other (bs "access-control-allow-headers"))
  | 35 => Some (Other (bs "access-control-allow-origin"))
  | 36 | 37 | 38 | 39 | 40 | 41 => Some (Other (bs "cache-control"))
  | 42 | 43 => Some (Other (bs "content-encoding"))
  | 44 | 45 | 46 | 47 | 48 | 49 | 50 | 51 | 52 | 53 | 54 => Some (Other (bs "content-type"))
  | 55 => Some (Other (bs "range"))
  | 56 | 57 | 58 => Some (Other (bs "strict-transport-security"))
  | 59 | 60 => Some (Other (bs "vary"))
  | 61 => Some (Other (bs "x-content-type-options"))
  | 62 => Some (Other (bs "x-xss-protection"))
  | 63 | 64 | 65 | 66 | 67 | 68 | 69 | 70 | 71 => Some Status
  | 72 => Some (Other (bs "accept-language"))
  | 73 | 74 => Some (Other (bs "access-control-allow-credentials"))
  | 75 => Some (Other (bs "access-control-allow-headers"))
  | 76 | 77 | 78 => Some (Other (bs "access-control-allow-methods"))
  | 79 => Some (Other (bs "access-control-expose-headers"))
  | 80 => Some (Other (bs "access-control-request-headers"))
  | 81 | 82 => Some (Other (bs "access-control-request-method"))
  | 83 => Some (Other (bs "alt-svc"))
  | 84 => Some (Other (bs "authorization"))
  | 85 => Some (Other (bs "content-security-policy"))
  | 86 => Some (Other (bs "early-data"))
  | 87 => Some (Other (bs "expect-ct"))
  | 88 => Some (Other (bs "forwarded"))
  | 89 => Some (Other (bs "if-range"))
  | 90 => Some (Other (bs "origin"))
  | 91 => Some (Other (bs "purpose"))
  | 92 => Some (Other (bs "server"))
  | 93 => Some (Other (bs "timing-allow-origin"))
  | 94 => Some (Other (bs "upgrade-insecure-requests"))
  | 95 => Some (Other (bs "user-agent"))
  | 96 => Some (Other (bs "x-forwarded-for"))
  | 97 | 98 => Some (Other (bs "x-frame-options"))
  | _ => None
  end.

(** [StaticTable::field]. *)
Definition static_field (index : Z) : option (Header * bytes) :=
  match index with
  | 1 => Some (Path, bs "/")
  | 2 => Some (Other (bs "age"), bs "0")
  | 4 => Some (Other (bs "content-length"), bs "0")
  | 15 => Some (Method, bs "CONNECT")
  | 16 => Some (Method, bs "DELETE")
  | 17 => Some (Method, bs "GET")
  | 18 => Some (Method, bs "HEAD")
  | 19 => Some (Method, bs "OPTIONS")
  | 20 => Some (Method, bs "POST")
  | 21 => Some (Method, bs "PUT")
  | 22 => Some (Scheme, bs "http")
  | 23 => Some (Scheme, bs "https")
  | 24 => Some (Status, bs "103")
  | 25 => Some (Status, bs "200")
  | 26 => Some (Status, bs "304")
  | 27 => Some (Status, bs "404")
  | 28 => Some (Status, bs "503")
  | 29 => Some (Other (bs "accept"), bs "*/*")
  | 30 => Some (Other (bs "accept"), bs "application/dns-message")
  | 31 => Some (Other (bs "accept-encoding"), bs "gzip, deflate, br")
  | 32 => Some (Other (bs "accept-ranges"), bs "bytes")
  | 33 => Some (Other (bs "access-control-allow-headers"), bs "cache-control")
  | 34 => Some (Other (bs "access-control-allow-headers"), bs "content-type")
  | 35 => Some (Other (bs "access-control-allow-origin"), bs "*")
  | 36 => Some (Other (bs "cache-control"), bs "max-age=0")
  | 37 => Some (Other (bs "cache-control"), bs "max-age=2592000")
  | 38 => Some (Other (bs "cache-control"), bs "max-age=604800")
  | 39 => Some (Other (bs "cache-control"), bs "no-cache")
  | 40 => Some (Other (bs "cache-control"), bs "no-store")
  | 41 => Some (Other (bs "cache-control"), bs "public, max-age=31536000")
  | 42 => Some (Other (bs "content-encoding"), bs "br")
  | 43 => Some (Other (bs "content-encoding"), bs "gzip")
  | 44 => Some (Other (bs "content-type"), bs "application/dns-message")
  | 45 => Some (Other (bs "content-type"), bs "application/javascript")
  | 46 => Some (Other (bs "content-type"), bs "application/json")
  | 47 => Some (Other (bs "content-type"), bs "application/x-www-form-urlencoded")
  | 48 => Some (Other (bs "content-type"), bs "image/gif")
  | 49 => Some (Other (bs "content-type"), bs "image/jpeg")
  | 50 => Some (Other (bs "content-type"), bs "image/png")
  | 51 => Some (Other (bs "content-type"), bs "text/css")
  | 52 => Some (Other (bs "content-type"), bs "text/html; charset=utf-8")
  | 53 => Some (Other (bs "content-type"), bs "text/plain")
  | 54 => Some (Other (bs "content-type"), bs "text/plain;charset=utf-8")
  | 55 => Some (Other (bs "range"), bs "bytes=0-")
  | 56 => Some (Other (bs "strict-transport-security"), bs "max-age=31536000")
  | 57 => Some (Other (bs "strict-transport-security"), bs "max-age=31536000; includesubdomains")
  | 58 => Some (Other (bs "strict-transport-security"), bs "max-age=31536000; includesubdomains; preload")
  | 59 => Some (Other (bs "vary"), bs "accept-encoding")
  | 60 => Some (Other (bs "vary"), bs "origin")
  | 61 => Some (Other (bs "x-content-type-options"), bs "nosniff")
  | 62 => Some (Other (bs "x-xss-protection"), bs "1; mode=block")
  | 63 => Some (Status, bs "100")
  | 64 => Some (Status, bs "204")
  | 65 => Some (Status, bs "206")
  | 66 => Some (Status, bs "302")
  | 67 => Some (Status, bs "400")
  | 68 => Some (Status, bs "403")
  | 69 => Some (Status, bs "421")
  | 70 => Some (Status, bs "425")
  | 71 => Some (Status, bs "500")
  | 73 => Some (Other (bs "access-control-allow-credentials"), bs "FALSE")
  | 74 => Some (Other (bs "access-control-allow-credentials"), bs "TRUE")
  | 75 => Some (Other (bs "access-control-allow-headers"), bs "*")
  | 76 => Some (Other (bs "access-control-allow-methods"), bs "get")
  | 77 => Some (Other (bs "access-control-allow-methods"), bs "get, post, options")
  | 78 => Some (Other (bs "access-control-allow-methods"), bs "options")
  | 79 => Some (Other (bs "access-control-expose-headers"), bs "content-length")
  | 80 => Some (Other (bs "access-control-request-headers"), bs "content-type")
  | 81 => Some (Other (bs "access-control-request-method"), bs "get")
  | 82 => Some (Other (bs "access-control-request-method"), bs "post")
  | 83 => Some (Other (bs "alt-svc"), bs "clear")
  | 85 => Some (Other (bs "content-security-policy"), bs "script-src 'none'; object-src 'none'; base-uri 'none'")
  | 86 => Some (Other (bs "early-data"), bs "1")
  | 91 => Some (Other (bs "purpose"), bs "prefetch")
  | 93 => Some (Other (bs "timing-allow-origin"), bs "*")
  | 94 => Some (Other (bs "upgrade-insecure-requests"), bs "1")
  | 97 => Some (Other (bs "x-frame-options"), bs "deny")
  | 98 => Some (Other (bs "x-frame-options"), bs "sameorigin")
  | _ => None
  end.

(** The arms for other fields of the [match] of [StaticTable::index], in order:
    the key, the value ([None] for the wildcard) and the result. *)
Definition index_arms : list (string * option string * TableIndex) :=
  [("age", Some "0", IField 2);
   ("age", None, IFieldName 2);
   ("content-disposition", None, IFieldName 3);
   ("content-length", Some "0", IField 4);
   ("content-length", None, IFieldName 4);
   ("cookie", None, IFieldName 5);
   ("date", None, IFieldName 6);
   ("etag", None, IFieldName 7);
   ("if-modified-since", None, IFieldName 8);
   ("if-none-match", None, IFieldName 9);
   ("last-modified", None, IFieldName 10);
   ("link", None, IFieldName 11);
   ("location", None, IFieldName 12);
   ("referer", None, IFieldName 13);
   ("set-cookie", None, IFieldName 14);
   ("accept", Some "*/*", IField 29);
   ("accept", Some "application/dns-message", IField 30);
   ("accept", None, IFieldName 29);
   ("accept-encoding", Some "gzip, deflate, br", IField 31);
   ("accept-encoding", None, IFieldName 31);
   ("accept-ranges", Some "bytes", IField 32);
   ("accept-ranges", None, IFieldName 32);
   ("access-control-allow-headers", Some "cache-control", IField 33);
   ("access-control-allow-headers", Some "content-type", IField 34);
   ("access-control-allow-origin", Some "*", IField 35);
   ("access-control-allow-origin", None, IFieldName 35);
   ("cache-control", Some "max-age=0", IField 36);
   ("cache-control", Some "max-age=2592000", IField 37);
   ("cache-control", Some "max-age=604800", IField 38);
   ("cache-control", Some "no-cache", IField 39);
   ("cache-control", Some "no-store", IField 40);
   ("cache-control", Some "public, max-age=31536000", IField 41);
   ("cache-control", None, IFieldName 36);
   ("content-encoding", Some "br", IField 42);
   ("content-encoding", Some "gzip", IField 43);
   ("content-encoding", None, IFieldName 42);
   ("content-type", Some "application/dns-message", IField 44);
   ("content-type", Some "application/javascript", IField 45);
   ("content-type", Some "application/json", IField 46);
   ("content-type", Some "application/x-www-form-urlencoded", IField 47);
   ("content-type", Some "image/gif", IField 48);
   ("content-type", Some "image/jpeg", IField 49);
   ("content-type", Some "image/png", IField 50);
   ("content-type", Some "text/css", IField 51);
   ("content-type", Some "text/html; charset=utf-8", IField 52);
   ("content-type", Some "text/plain", IField 53);
   ("content-type", Some "text/plain;charset=utf-8", IField 54);
   ("content-type", None, IFieldName 44);
   ("range", Some "bytes=0-", IField 55);
   ("range", None, IFieldName 55);
   ("strict-transport-security", Some "max-age=31536000", IField 56);
   ("strict-transport-security", Some "max-age=31536000; includesubdomains", IField 57);
   ("strict-transport-security", Some "max-age=31536000; includesubdomains; preload", IField 58);
   ("strict-transport-security", None, IFieldName 56);
   ("vary", Some "accept-encoding", IField 59);
   ("vary", Some "origin", IField 60);
   ("vary", None, IFieldName 59);
   ("x-content-type-options", Some "nosniff", IField 61);
   ("x-content-type-options", None, IFieldName 61);
   ("x-xss-protection", Some "1; mode=block", IField 62);
   ("x-xss-protection", None, IFieldName 62);
   ("accept-language", None, IFieldName 72);
   ("access-control-allow-credentials", Some "FALSE", IField 73);
   ("access-control-allow-credentials", Some "TRUE", IField 74);
   ("access-control-allow-credentials", None, IFieldName 73);
   ("access-control-allow-headers", Some "*", IField 75);
   ("access-control-allow-headers", None, IFieldName 75);
   ("access-control-allow-methods", Some "get", IField 76);
   ("access-control-allow-methods", Some "get, post, options", IField 77);
   ("access-control-allow-methods", Some "options", IField 78);
   ("access-control-allow-methods", None, IFieldName 76);
   ("access-control-expose-headers", Some "content-length", IField 79);
   ("access-control-expose-headers", None, IFieldName 79);
   ("access-control-request-headers", Some "content-type", IField 80);
   ("access-control-request-headers", None, IFieldName 80);
   ("access-control-request-method", Some "get", IField 81);
   ("access-control-request-method", Some "post", IField 82);
   ("access-control-request-method", None, IFieldName 81);
   ("alt-svc", Some "clear", IField 83);
   ("alt-svc", None, IFieldName 83);
   ("authorization", None, IFieldName 84);
   ("content-security-policy", Some "script-src 'none'; object-src 'none'; base-uri 'none'", IField 85);
   ("content-security-policy", None, IFieldName 85);
   ("early-data", Some "1", IField 86);
   ("early-data", None, IFieldName 86);
   ("expect-ct", None, IFieldName 87);
   ("forwarded", None, IFieldName 88);
   ("if-range", None, IFieldName 89);
   ("origin", None, IFieldName 90);
   ("purpose", Some "prefetch", IField 91);
   ("purpose", None, IFieldName 91);
   ("server", None, IFieldName 92);
   ("timing-allow-origin", Some "*", IField 93);
   ("timing-allow-origin", None, IFieldName 93);
   ("upgrade-insecure-requests", Some "1", IField 94);
   ("upgrade-insecure-requests", None, IFieldName 94);
   ("user-agent", None, IFieldName 95);
   ("x-forwarded-for", None, IFieldName 96);
   ("x-frame-options", Some "deny", IField 97);
   ("x-frame-options", Some "sameorigin", IField 98);
   ("x-frame-options", None, IFieldName 97)].

(** The first arm that matches. *)
Fixpoint match_arms (arms : list (string * option string * TableIndex)) (key value : bytes) : option TableIndex :=
  match arms with
  | [] => None
  | (k, v, r) :: arms =>
      if bool_decide (key = bs k) && from_option (λ v, bool_decide (value = bs v)) true v
      then Some r else match_arms arms key value
  end.

(** [StaticTable::index]. *)
Definition static_index_of (field : Header) (value : bytes) : option TableIndex :=
  match field with
  | Authority =>
      Some (IFieldName 0)
  | Path =>
      if decide (value = bs "/") then Some (IField 1)
      else Some (IFieldName 1)
  | Method =>
      if decide (value = bs "CONNECT") then Some (IField 15)
      else if decide (value = bs "DELETE") then Some (IField 16)
      else if decide (value = bs "GET") then Some (IField 17)
      else if decide (value = bs "HEAD") then Some (IField 18)
      else if decide (value = bs "OPTIONS") then Some (IField 19)
      else if decide (value = bs "POST") then Some (IField 20)
      else if decide (value = bs "PUT") then Some (IField 21)
      else Some (IFieldName 15)
  | Scheme =>
      if decide (value = bs "http") then Some (IField 22)
      else if decide (value = bs "https") then Some (IField 23)
      else Some (IFieldName 22)
  | Status =>
      if decide (value = bs "103") then Some (IField 24)
      else if decide (value = bs "200") then Some (IField 25)
      else if decide (value = bs "304") then Some (IField 26)
      else if decide (value = bs "404") then Some (IField 27)
      else if decide (value = bs "503") then Some (IField 28)
      else if decide (value = bs "100") then Some (IField 63)
      else if decide (value = bs "204") then Some (IField 64)
      else if decide (value = bs "206") then Some (IField 65)
      else if decide (value = bs "302") then Some (IField 66)
      else if decide (value = bs "400") then Some (IField 67)
      else if decide (value = bs "403") then Some (IField 68)
      else if decide (value = bs "421") then Some (IField 69)
      else if decide (value = bs "425") then Some (IField 70)
      else if decide (value = bs "500") then Some (IField 71)
      else Some (IFieldName 24)
  | Other s => match_arms index_arms s value
  end.

(** ** Dynamic table *)

Record DynamicField := mkDynamicField { df_index : Z; df_name : NameField; df_value : bytes; df_tracked : Z }.
Definition df_size (f : DynamicField) : Z := NameField_len (df_name f) + len (df_value f) + 32.
Definition df_is_tracked (f : DynamicField) : bool := 0 <? df_tracked f.
Definition df_set_tracked (n : Z) (f : DynamicField) : DynamicField := mkDynamicField (df_index f) (df_name f) (df_value f) n.

(** [queue] is oldest first, as the [VecDeque]. *)
Record DynamicTable := mkDynamicTable {
  qt_queue : list DynamicField; qt_used_cap : Z; qt_capacity : Z; qt_insert_count : Z; qt_remove_count : Z; qt_known_received_count : Z }.

Definition with_empty : DynamicTable := mkDynamicTable [] 0 0 0 0 0.
Definition qt_max_entries (t : DynamicTable) : Z := qt_capacity t / 32.

Definition qt_set_capacity (n : Z) (t : DynamicTable) : DynamicTable :=
  mkDynamicTable (qt_queue t) (qt_used_cap t) n (qt_insert_count t) (qt_remove_count t) (qt_known_received_count t).
Definition qt_set_queue (q : list DynamicField) (t : DynamicTable) : DynamicTable :=
  mkDynamicTable q (qt_used_cap t) (qt_capacity t) (qt_insert_count t) (qt_remove_count t) (qt_known_received_count t).
Definition qt_set_known (n : Z) (t : DynamicTable) : DynamicTable :=
  mkDynamicTable (qt_queue t) (qt_used_cap t) (qt_capacity t) (qt_insert_count t) (qt_remove_count t) n.

Section table.
Context {E : Type}.

(** [index - self.remove_count], an index of the queue. *)
Definition queue_index (index : Z) (t : DynamicTable) : result E nat :=
  if index <? qt_remove_count t then Panic else Ok (Z.to_nat (index - qt_remove_count t)).

Definition track_field (index : Z) : ST DynamicTable E () :=
  t ← get_st;
  i ← lift_res (queue_index index t);
  match qt_queue t !! i with
  | Some f => put_st (qt_set_queue (<[i := df_set_tracked (df_tracked f + 1) f]> (qt_queue t)) t)
  | None => panic
  end.

Definition untracked_field (index : Z) : ST DynamicTable E () :=
  t ← get_st;
  i ← lift_res (queue_index index t);
  match qt_queue t !! i with
  | Some f => if df_tracked f <=? 0 then panic else put_st (qt_set_queue (<[i := df_set_tracked (df_tracked f - 1) f]> (qt_queue t)) t)
  | None => panic
  end.

(** The [assert] is behind the update. *)
Definition increase_known_receive_count (increment : Z) : ST DynamicTable E () :=
  t ← get_st;
  if increment <? 1 then panic
  else
    let known := qt_known_received_count t + (increment - 1) in
    _ ← put_st (qt_set_known known t);
    if known <? qt_insert_count t then mret () else panic.

(** The loop of [can_evict]: [front] is looked at again and again. *)
Fixpoint evict_loop (fuel : nat) (front : DynamicField) (known bound used count : Z) : result E (option Z) :=
  match fuel with
  | O => Panic
  | S fuel =>
      if bound <? used then
        if df_is_tracked front || (known <? df_index front) then Ok None
        else if used <? df_size front then Panic
        else evict_loop fuel front known bound (used - df_size front) (count + 1)
      else Ok (Some count)
  end.
Definition evict_fuel (used : Z) : nat := S (Z.to_nat used).

Definition can_evict (required : Z) (t : DynamicTable) : result E (option Z) :=
  if qt_capacity t <? required then Ok None
  else
    match qt_queue t with
    | [] => Ok (Some 0)
    | front :: _ => evict_loop (evict_fuel (qt_used_cap t)) front (qt_known_received_count t) (qt_capacity t - required) (qt_used_cap t) 0
    end.

(** [pop_front], with the counters. *)
Definition pop_front : ST DynamicTable E () :=
  t ← get_st;
  match qt_queue t with
  | [] => panic
  | f :: q =>
      if qt_used_cap t <? df_size f then panic
      else put_st (mkDynamicTable q (qt_used_cap t - df_size f) (qt_capacity t) (qt_insert_count t) (qt_remove_count t + 1) (qt_known_received_count t))
  end.

Fixpoint evict_times (n : nat) : ST DynamicTable E () :=
  match n with O => mret () | S n => _ ← pop_front; evict_times n end.
Definition evict_drained (size : Z) : ST DynamicTable E () := evict_times (Z.to_nat size).

Definition update_capacity (new_cap : Z) : ST DynamicTable E (option Z) :=
  t ← get_st;
  if new_cap <? qt_capacity t then
    n ← lift_res (can_evict (qt_capacity t - new_cap) t);
    match n with
    | Some size => _ ← evict_drained size; _ ← modify_st (qt_set_capacity new_cap); mret (Some new_cap)
    | None => mret None
    end
  else _ ← put_st (qt_set_capacity new_cap t); mret (Some new_cap).

Definition qt_update (field : NameField) (value : bytes) : ST DynamicTable E Z :=
  t ← get_st;
  let f := mkDynamicField (qt_insert_count t) field value 0 in
  _ ← put_st (mkDynamicTable (qt_queue t ++ [f]) (qt_used_cap t + df_size f) (qt_capacity t) (qt_insert_count t + 1) (qt_remove_count t) (qt_known_received_count t));
  mret (df_index f).

(** [index]: the last entry that matches, among those the peer knows. *)
Fixpoint qt_index_from (q : list DynamicField) (known : Z) (header : NameField) (value : bytes) (allow_block : bool) (index : option TableIndex) : option TableIndex :=
  match q with
  | [] => index
  | f :: q =>
      if (known <? df_index f) && negb allow_block then index
      else
        qt_index_from q known header value allow_block
          (if decide (header = df_name f) then Some (if decide (value = df_value f) then IField (df_index f) else IFieldName (df_index f)) else index)
  end.
Definition qt_index (header : NameField) (value : bytes) (allow_block : bool) (t : DynamicTable) : option TableIndex :=
  qt_index_from (qt_queue t) (qt_known_received_count t) header value allow_block None.

Definition qt_field (index : Z) (t : DynamicTable) : result E (option (NameField * bytes)) :=
  i ← queue_index index t; mret ((λ f, (df_name f, df_value f)) <$> qt_queue t !! i).
Definition qt_field_name (index : Z) (t : DynamicTable) : result E (option NameField) :=
  i ← queue_index index t; mret (df_name <$> qt_queue t !! i).

(** [fit_size]: one entry of the queue a turn. *)
Fixpoint qt_fit_size (fuel : nat) : ST DynamicTable E () :=
  match fuel with
  | O => mret ()
  | S fuel =>
      t ← get_st;
      if (qt_capacity t <? qt_used_cap t) && negb (bool_decide (qt_queue t = [])) then _ ← pop_front; qt_fit_size fuel else mret ()
  end.
Definition qt_update_size (max_size : Z) : ST DynamicTable E () :=
  _ ← modify_st (qt_set_capacity max_size);
  t ← get_st; qt_fit_size (length (qt_queue t)).
End table.

(** ** The table of RFC 9204, appendix A *)

Definition rfc9204_table : list (NameField * bytes) :=
  [(Authority, bs "");
   (Path, bs "/");
   ((Other (bs "age")), bs "0");
   ((Other (bs "content-disposition")), bs "");
   ((Other (bs "content-length")), bs "0");
   ((Other (bs "cookie")), bs "");
   ((Other (bs "date")), bs "");
   ((Other (bs "etag")), bs "");
   ((Other (bs "if-modified-since")), bs "");
   ((Other (bs "if-none-match")), bs "");
   ((Other (bs "last-modified")), bs "");
   ((Other (bs "link")), bs "");
   ((Other (bs "location")), bs "");
   ((Other (bs "referer")), bs "");
   ((Other (bs "set-cookie")), bs "");
   (Method, bs "CONNECT");
   (Method, bs "DELETE");
   (Method, bs "GET");
   (Method, bs "HEAD");
   (Method, bs "OPTIONS");
   (Method, bs "POST");
   (Method, bs "PUT");
   (Scheme, bs "http");
   (Scheme, bs "https");
   (Status, bs "103");
   (Status, bs "200");
   (Status, bs "304");
   (Status, bs "404");
   (Status, bs "503");
   ((Other (bs "accept")), bs "*/*");
   ((Other (bs "accept")), bs "application/dns-message");
   ((Other (bs "accept-encoding")), bs "gzip, deflate, br");
   ((Other (bs "accept-ranges")), bs "bytes");
   ((Other (bs "access-control-allow-headers")), bs "cache-control");
   ((Other (bs "access-control-allow-headers")), bs "content-type");
   ((Other (bs "access-control-allow-origin")), bs "*");
   ((Other (bs "cache-control")), bs "max-age=0");
   ((Other (bs "cache-control")), bs "max-age=2592000");
   ((Other (bs "cache-control")), bs "max-age=604800");
   ((Other (bs "cache-control")), bs "no-cache");
   ((Other (bs "cache-control")), bs "no-store");
   ((Other (bs "cache-control")), bs "public, max-age=31536000");
   ((Other (bs "content-encoding")), bs "br");
   ((Other (bs "content-encoding")), bs "gzip");
   ((Other (bs "content-type")), bs "application/dns-message");
   ((Other (bs "content-type")), bs "application/javascript");
   ((Other (bs "content-type")), bs "application/json");
   ((Other (bs "content-type")), bs "application/x-www-form-urlencoded");
   ((Other (bs "content-type")), bs "image/gif");
   ((Other (bs "content-type")), bs "image/jpeg");
   ((Other (bs "content-type")), bs "image/png");
   ((Other (bs "content-type")), bs "text/css");
   ((Other (bs "content-type")), bs "text/html; charset=utf-8");
   ((Other (bs "content-type")), bs "text/plain");
   ((Other (bs "content-type")), bs "text/plain;charset=utf-8");
   ((Other (bs "range")), bs "bytes=0-");
   ((Other (bs "strict-transport-security")), bs "max-age=31536000");
   ((Other (bs "strict-transport-security")), bs "max-age=31536000; includesubdomains");
   ((Other (bs "strict-transport-security")), bs "max-age=31536000; includesubdomains; preload");
   ((Other (bs "vary")), bs "accept-encoding");
   ((Other (bs "vary")), bs "origin");
   ((Other (bs "x-content-type-options")), bs "nosniff");
   ((Other (bs "x-xss-protection")), bs "1; mode=block");
   (Status, bs "100");
   (Status, bs "204");
   (Status, bs "206");
   (Status, bs "302");
   (Status, bs "400");
   (Status, bs "403");
   (Status, bs "421");
   (Status, bs "425");
   (Status, bs "500");
   ((Other (bs "accept-language")), bs "");
   ((Other (bs "access-control-allow-credentials")), bs "FALSE");
   ((Other (bs "access-control-allow-credentials")), bs "TRUE");
   ((Other (bs "access-control-allow-headers")), bs "*");
   ((Other (bs "access-control-allow-methods")), bs "get");
   ((Other (bs "access-control-allow-methods")), bs "get, post, options");
   ((Other (bs "access-control-allow-methods")), bs "options");
   ((Other (bs "access-control-expose-headers")), bs "content-length");
   ((Other (bs "access-control-request-headers")), bs "content-type");
   ((Other (bs "access-control-request-method")), bs "get");
   ((Other (bs "access-control-request-method")), bs "post");
   ((Other (bs "alt-svc")), bs "clear");
   ((Other (bs "authorization")), bs "");
   ((Other (bs "content-security-policy")), bs "script-src 'none'; object-src 'none'; base-uri 'none'");
   ((Other (bs "early-data")), bs "1");
   ((Other (bs "expect-ct")), bs "");
   ((Other (bs "forwarded")), bs "");
   ((Other (bs "if-range")), bs "");
   ((Other (bs "origin")), bs "");
   ((Other (bs "purpose")), bs "prefetch");
   ((Other (bs "server")), bs "");
   ((Other (bs "timing-allow-origin")), bs "*");
   ((Other (bs "upgrade-insecure-requests")), bs "1");
   ((Other (bs "user-agent")), bs "");
   ((Other (bs "x-forwarded-for")), bs "");
   ((Other (bs "x-frame-options")), bs "deny");
   ((Other (bs "x-frame-options")), bs "sameorigin")].

Definition all_below (n : nat) (f : Z → bool) : bool := forallb f (seqZ 0 (Z.of_nat n)).

Lemma all_below_spec n f i : all_below n f = true → 0 ≤ i < Z.of_nat n → f i = true.
Proof. unfold all_below. rewrite forallb_forall. intros H Hi. apply H, list_elem_of_In, elem_of_seqZ. lia. Qed.

(** Everything about an entry, and nothing beyond the table. *)
Definition entry_ok (i : Z) : bool :=
  match rfc9204_table !! Z.to_nat i with
  | Some (h, v) =>
      bool_decide (static_field_name i = Some h) &&
      bool_decide (static_field i = if decide (v = []) then None else Some (h, v)) &&
      match static_index_of h v with
      | Some (IField j) => bool_decide (j = i) && bool_decide (v ≠ [])
      | Some (IFieldName j) => bool_decide (v = []) && bool_decide (static_field_name j = Some h)
      | None => false
      end
  | None => false
  end.

Lemma entries_ok : all_below 99 entry_ok = true.
Proof. by vm_compute. Qed.

Lemma beyond_table i : ¬ 0 ≤ i < 99 → static_field_name i = None ∧ static_field i = None.
Proof.
  intros Hi. destruct i as [|p|p]; [lia| |done]. do 7 (destruct p as [p|p|]; try done; try lia).
Qed.

Definition arm_ok (a : string * option string * TableIndex) : bool :=
  match a with
  | (k, Some v, IField i) => bool_decide (static_field i = Some (Other (bs k), bs v))
  | (k, None, IFieldName i) => bool_decide (static_field_name i = Some (Other (bs k)))
  | _ => false
  end.

Lemma qpack_arms_sound arms key value r :
  forallb arm_ok arms = true → match_arms arms key value = Some r →
  match r with
  | IField i => static_field i = Some (Other key, value)
  | IFieldName i => static_field_name i = Some (Other key)
  end.
Proof.
  induction arms as [|[[k v] r'] arms IH]; [done|]. cbn [forallb match_arms]. intros H. apply andb_true_iff in H as [Ha Harms].
  destruct (bool_decide (key = bs k) && _) eqn:E; [|by apply IH].
  intros [= ->]. apply andb_true_iff in E as [Ek Ev]. apply bool_decide_eq_true in Ek as ->.
  unfold arm_ok in Ha. cbn in Ha. destruct v as [v|], r as [i|i]; try done; apply bool_decide_eq_true in Ha; [|done].
  by apply bool_decide_eq_true in Ev as ->.
Qed.

Lemma qpack_static_sound h v r : static_index_of h v = Some r →
  match r with IField i => static_field i = Some (h, v) | IFieldName i => static_field_name i = Some h end.
Proof.
  destruct h; cbn [static_index_of]; [..|by apply qpack_arms_sound];
    repeat case_decide; subst; by intros [= <-].
Qed.

(** the static table is that of RFC 9204, appendix A, but for the lines with
    an empty value, which have a name only; the search finds a line exactly where
    it is, and otherwise an entry with the name. *)
Theorem qpack_static_table (h : NameField) (v : bytes) (i : Z) :
  static_field_name i = (if decide (0 ≤ i) then fst <$> rfc9204_table !! Z.to_nat i else None) ∧
  (static_field i = Some (h, v) ↔ v ≠ [] ∧ 0 ≤ i ∧ rfc9204_table !! Z.to_nat i = Some (h, v)) ∧
  (static_index_of h v = Some (IField i) ↔ static_field i = Some (h, v)) ∧
  (static_index_of h v = Some (IFieldName i) → static_field_name i = Some h).
Proof.
  assert (length rfc9204_table = 99%nat) as Hlen by done.
  assert (0 ≤ i < 99 ∨ ¬ 0 ≤ i < 99) as [Hi|Hi] by lia.
  - pose proof (all_below_spec 99 entry_ok i entries_ok Hi) as Hok. unfold entry_ok in Hok.
    destruct (rfc9204_table !! Z.to_nat i) as [[h' v']|] eqn:E; [|done].
    apply andb_prop in Hok as [[Hn%bool_decide_eq_true Hf%bool_decide_eq_true]%andb_prop Hs].
    destruct (decide (0 ≤ i)); [|lia]. split_and!; [by rewrite Hn| | |apply (qpack_static_sound h v (IFieldName i))].
    + rewrite Hf. destruct (decide (v' = [])) as [->|Hv]; (split; [by intros [= <- <-]|by intros (? & _ & [= <- <-])]).
    + split; [apply (qpack_static_sound h v (IField i))|]. rewrite Hf. destruct (decide (v' = [])) as [->|Hv]; [done|]. intros [= -> ->].
      destruct (static_index_of h v) as [[j|j]|]; [| |done]; apply andb_prop in Hs as [Hj%bool_decide_eq_true Hs%bool_decide_eq_true]; congruence.
  - destruct (beyond_table i Hi) as [Hn Hf]. split_and!.
    + rewrite Hn. destruct (decide (0 ≤ i)); [|done]. symmetry. apply fmap_None, lookup_ge_None_2. unfold NameField in *. lia.
    + rewrite Hf. split; [done|]. intros (_ & ? & H%lookup_lt_Some). rewrite Hlen in H. lia.
    + rewrite Hf. split; [|done]. intros H%qpack_static_sound. congruence.
    + apply (qpack_static_sound h v (IFieldName i)).
Qed.

Lemma qpack_static_table_witness :
  static_index_of (Other (bs "x-frame-options")) (bs "deny") = Some (IField 97).
Proof. apply (qpack_static_table (Other (bs "x-frame-options")) (bs "deny") 97). by vm_compute. Defined.

(** ** The dynamic table *)

Definition fields_size (q : list DynamicField) : Z := foldr (λ f n, df_size f + n) 0 q.

(** Sizes and counts agree with the queue, which holds the absolute indices in a
    row. *)
Record table_ok (t : DynamicTable) : Prop := {
  ok_used : qt_used_cap t = fields_size (qt_queue t);
  ok_count : qt_insert_count t = qt_remove_count t + len (qt_queue t);
  ok_removed : 0 ≤ qt_remove_count t;
  ok_known : 0 ≤ qt_known_received_count t;
  ok_tracked : Forall (λ f, 0 ≤ df_tracked f) (qt_queue t);
  ok_index : ∀ i f, qt_queue t !! i = Some f → df_index f = qt_remove_count t + Z.of_nat i }.

Lemma df_size_pos f : 32 ≤ df_size f.
Proof. unfold df_size, NameField_len. pose proof (Header_len_nonneg (df_name f)). pose proof (len_nonneg (df_value f)). lia. Qed.

Lemma fields_size_app q r : fields_size (q ++ r) = fields_size q + fields_size r.
Proof. unfold fields_size. induction q as [|f q IH]; [done|]. cbn [app foldr]. rewrite IH. lia. Qed.

Lemma fields_size_nonneg q : 0 ≤ fields_size q.
Proof. unfold fields_size. induction q as [|f q IH]; cbn [foldr]; [done|]. pose proof (df_size_pos f). lia. Qed.

Lemma fields_size_same q i f g : q !! i = Some f → df_size g = df_size f → fields_size (<[i := g]> q) = fields_size q.
Proof.
  revert i. unfold fields_size. induction q as [|x q IH]; intros [|i] Hf Hs; try done; cbn in *; [naive_solver lia|]. f_equal. by apply IH.
Qed.

(** [t'] holds the entries of [t] that it still has, under the same indices. *)
Definition same_entries (t t' : DynamicTable) : Prop :=
  ∀ i f f', qt_queue t !! Z.to_nat (i - qt_remove_count t) = Some f → qt_queue t' !! Z.to_nat (i - qt_remove_count t') = Some f' →
    qt_remove_count t ≤ i → qt_remove_count t' ≤ i → df_name f' = df_name f ∧ df_value f' = df_value f.

(** What an operation keeps: the type of the table, the entries, and that
    nothing is inserted again under an old index. *)
Definition keeps (t t' : DynamicTable) : Prop :=
  table_ok t' ∧ same_entries t t' ∧ qt_remove_count t ≤ qt_remove_count t' ∧ qt_insert_count t ≤ qt_insert_count t'.

Lemma same_queue t t' : qt_queue t' = qt_queue t → qt_remove_count t' = qt_remove_count t → same_entries t t'.
Proof. intros Hq Hr i f f'. rewrite Hq, Hr. intros. by simplify_eq. Qed.

Lemma keeps_refl t : table_ok t → keeps t t.
Proof. intros Ht. split; [done|]. split; [by apply same_queue|lia]. Qed.

Lemma keeps_trans t1 t2 t3 : table_ok t1 → keeps t1 t2 → keeps t2 t3 → keeps t1 t3.
Proof.
  intros H1 (H2 & S12 & R12 & I12) (H3 & S23 & R23 & I23). split; [done|]. split; [|lia].
  intros i f f' Hf Hf' Hi Hi'. pose proof (ok_count _ H1) as C1. pose proof (ok_count _ H2) as C2. pose proof (lookup_lt_Some _ _ _ Hf) as Hlt.
  destruct (qt_queue t2 !! Z.to_nat (i - qt_remove_count t2)) as [g|] eqn:Eg.
  - destruct (S12 i f g) as [<- <-]; [done|done|lia|lia|]. apply (S23 i g f'); done || lia.
  - apply lookup_ge_None in Eg. unfold len in *. lia.
Qed.

Ltac table_cbn := cbn [mret ST_ret put_st fst snd qt_queue qt_used_cap qt_capacity qt_insert_count qt_remove_count qt_known_received_count qt_set_queue qt_set_known qt_set_capacity].

Section ops.
Context {E : Type}.

Lemma keeps_tracked t i f n : table_ok t → qt_queue t !! i = Some f → 0 ≤ n →
  keeps t (qt_set_queue (<[i := df_set_tracked n f]> (qt_queue t)) t).
Proof.
  intros [H1 H2 H3 H4 H5 H6] Hf Hn. split.
  - split; table_cbn; try done.
    + by rewrite (fields_size_same _ _ f).
    + unfold len. by rewrite length_insert.
    + by apply Forall_insert.
    + intros j g. destruct (decide (i = j)) as [<-|Hj].
      * rewrite list_lookup_insert_eq by (by eapply lookup_lt_Some). intros [= <-]. by apply (H6 i f).
      * rewrite list_lookup_insert_ne by done. apply H6.
  - split; [|cbn; lia]. intros j g g' Hg Hg' _ _. cbn in Hg'. destruct (decide (i = Z.to_nat (j - qt_remove_count t))) as [->|Hj].
    + rewrite list_lookup_insert_eq in Hg' by (by eapply lookup_lt_Some). by simplify_eq.
    + rewrite list_lookup_insert_ne in Hg' by done. by simplify_eq.
Qed.

Lemma track_keeps index t : table_ok t → keeps t (track_field (E:=E) index t).1.
Proof.
  intros Ht. unfold track_field. rewrite bind_st. cbn [get_st]. rewrite bind_st. unfold lift_res, queue_index.
  destruct (Z.ltb_spec index (qt_remove_count t)); [by apply keeps_refl|].
  destruct (qt_queue t !! _) as [f|] eqn:Ef; [|by apply keeps_refl]. apply (keeps_tracked _ _ f); [done..|].
  pose proof (proj1 (Forall_lookup _ _) (ok_tracked _ Ht) _ _ Ef). cbn in *. lia.
Qed.

Lemma untrack_keeps index t : table_ok t → keeps t (untracked_field (E:=E) index t).1.
Proof.
  intros Ht. unfold untracked_field. rewrite bind_st. cbn [get_st]. rewrite bind_st. unfold lift_res, queue_index.
  destruct (Z.ltb_spec index (qt_remove_count t)); [by apply keeps_refl|].
  destruct (qt_queue t !! _) as [f|] eqn:Ef; [|by apply keeps_refl].
  destruct (Z.leb_spec (df_tracked f) 0); [by apply keeps_refl|]. apply (keeps_tracked _ _ f); [done..|lia].
Qed.

Lemma known_keeps increment t : table_ok t → keeps t (increase_known_receive_count (E:=E) increment t).1.
Proof.
  intros Ht. unfold increase_known_receive_count. rewrite bind_st. cbn [get_st]. destruct (Z.ltb_spec increment 1); [by apply keeps_refl|].
  rewrite bind_st. cbn [put_st]. match goal with |- keeps t ?x.1 => assert (x.1 = qt_set_known (qt_known_received_count t + (increment - 1)) t) as -> by (by destruct (_ <? _)) end.
  destruct Ht as [H1 H2 H3 H4 H5 H6]. split; [split; table_cbn; auto; lia|]. split; [by apply same_queue|cbn; lia].
Qed.

Lemma pop_keeps t : table_ok t →
  keeps t (pop_front (E:=E) t).1 ∧
  match qt_queue t with [] => pop_front (E:=E) t = (t, Panic) | f :: q => qt_queue (pop_front (E:=E) t).1 = q ∧ (pop_front (E:=E) t).2 = Ok () ∧
    qt_capacity (pop_front (E:=E) t).1 = qt_capacity t end.
Proof.
  intros Ht. unfold pop_front. rewrite bind_st. cbn [get_st]. destruct (qt_queue t) as [|f q] eqn:Eq; [split; [by apply keeps_refl|done]|].
  destruct Ht as [H1 H2 H3 H4 H5 H6]. rewrite Eq in *. change (fields_size (f :: q)) with (df_size f + fields_size q) in H1.
  pose proof (fields_size_nonneg q). destruct (Z.ltb_spec (qt_used_cap t) (df_size f)); [lia|]. split; [|done]. split.
  - split; table_cbn; [lia| |lia|done|by inversion H5|].
    + rewrite H2, len_cons. lia.
    + intros i g Hg. rewrite (H6 (S i) g Hg), Nat2Z.inj_succ. lia.
  - split; [|cbn; lia]. intros i g g' Hg Hg' Hi Hi'. cbn in *. rewrite Eq in Hg.
    replace (Z.to_nat (i - qt_remove_count t)) with (S (Z.to_nat (i - (qt_remove_count t + 1)))) in Hg by lia. cbn in Hg.
    assert (Some g = Some g') as [= ->] by exact (eq_trans (eq_sym Hg) Hg'). done.
Qed.

Lemma pops_keep n t : table_ok t → keeps t (evict_times (E:=E) n t).1.
Proof.
  revert t. induction n as [|n IH]; intros t Ht; cbn [evict_times]; [by apply keeps_refl|]. rewrite bind_st.
  destruct (pop_keeps t Ht) as [Hk Hc]. destruct (pop_front t) as [t' [u| |]]; cbn [fst] in *; [|exact Hk..].
  eapply keeps_trans; [done|exact Hk|]. apply IH, Hk.
Qed.

Lemma set_capacity_keeps n t : table_ok t → keeps t (qt_set_capacity n t).
Proof. intros [H1 H2 H3 H4 H5 H6]. split; [by split|]. split; [by apply same_queue|cbn; lia]. Qed.

Lemma capacity_keeps n t : table_ok t → keeps t (update_capacity (E:=E) n t).1.
Proof.
  intros Ht. unfold update_capacity. rewrite bind_st. cbn [get_st]. destruct (n <? qt_capacity t).
  - rewrite bind_st. unfold lift_res. destruct (can_evict _ t) as [[size|]| |]; [|by apply keeps_refl..].
    rewrite bind_st. unfold evict_drained. pose proof (pops_keep (Z.to_nat size) t Ht) as Hk.
    destruct (evict_times _ t) as [t' [u| |]]; cbn [fst] in *; [|exact Hk..]. rewrite bind_st. cbn.
    eapply keeps_trans; [done|exact Hk|apply set_capacity_keeps, Hk].
  - rewrite bind_st. cbn. by apply set_capacity_keeps.
Qed.

Lemma insert_keeps h v t : table_ok t → keeps t (qt_update (E:=E) h v t).1 ∧
  (qt_update (E:=E) h v t).2 = Ok (qt_insert_count t) ∧ qt_queue (qt_update (E:=E) h v t).1 = qt_queue t ++ [mkDynamicField (qt_insert_count t) h v 0].
Proof.
  intros [H1 H2 H3 H4 H5 H6]. unfold qt_update. rewrite bind_st. cbn [get_st]. rewrite bind_st. cbn [put_st]. split; [|done]. split.
  - split; table_cbn; [|rewrite len_app; change (len [_]) with 1; lia|done|done|by apply Forall_app; split; [|repeat constructor]|].
    + rewrite fields_size_app, H1. unfold fields_size. cbn. lia.
    + intros i f. rewrite lookup_app_Some. intros [Hf|[Hi Hf]]; [by apply H6|].
      rewrite list_lookup_singleton_Some in Hf. destruct Hf as [Hi' <-]. cbn. unfold len in H2. lia.
  - split; [|cbn; lia]. intros i f f' Hf Hf' _ _. cbn in *. rewrite lookup_app_l in Hf' by (by eapply lookup_lt_Some). by simplify_eq.
Qed.

Lemma fit_keeps fuel t : table_ok t → (length (qt_queue t) ≤ fuel)%nat →
  keeps t (qt_fit_size (E:=E) fuel t).1 ∧ (qt_fit_size (E:=E) fuel t).2 = Ok () ∧
  (0 ≤ qt_capacity t → qt_used_cap (qt_fit_size (E:=E) fuel t).1 ≤ qt_capacity t).
Proof.
  revert t. induction fuel as [|fuel IH]; intros t Ht Hf; cbn [qt_fit_size].
  - cbn. split; [by apply keeps_refl|]. split; [done|]. rewrite (ok_used _ Ht). destruct (qt_queue t); [done|cbn in Hf; lia].
  - rewrite bind_st. cbn [get_st]. destruct (Z.ltb_spec (qt_capacity t) (qt_used_cap t)) as [Hc|Hc]; cbn [andb].
    2:{ cbn. split; [by apply keeps_refl|]. split; [done|lia]. }
    destruct (qt_queue t) as [|f q] eqn:Eq.
    { cbn. split; [by apply keeps_refl|]. split; [done|]. rewrite (ok_used _ Ht), Eq. done. }
    rewrite bool_decide_false by done. cbn [negb]. rewrite bind_st. destruct (pop_keeps t Ht) as [Hk Hp]. rewrite Eq in Hp.
    destruct (pop_front t) as [t' r]. cbn in Hk, Hp. destruct Hp as (Hq & -> & Hcap).
    destruct (IH t') as (IHk & IHr & IHc); [apply Hk|cbn in Hf; rewrite Hq; lia|]. split; [by eapply keeps_trans|]. split; [done|]. by rewrite <- Hcap.
Qed.
End ops.

(** What the encoder and the decoder do to a table. *)
Inductive TableOp := OTrack (i : Z) | OUntrack (i : Z) | OKnown (n : Z) | OEvict (n : Z) | OCapacity (n : Z) | OInsert (h : NameField) (v : bytes) | OSize (n : Z).
Definition table_op (o : TableOp) : ST DynamicTable () () :=
  match o with
  | OTrack i => track_field i
  | OUntrack i => untracked_field i
  | OKnown n => increase_known_receive_count n
  | OEvict n => evict_drained n
  | OCapacity n => _ ← update_capacity n; mret ()
  | OInsert h v => _ ← qt_update h v; mret ()
  | OSize n => qt_update_size n
  end.
Definition table_ops (os : list TableOp) (t : DynamicTable) : DynamicTable := fold_left (λ t o, (table_op o t).1) os t.

Lemma table_op_keeps o t : table_ok t → keeps t (table_op o t).1.
Proof.
  intros Ht. destruct o; cbn [table_op].
  - by apply track_keeps.
  - by apply untrack_keeps.
  - by apply known_keeps.
  - by apply pops_keep.
  - rewrite bind_st. pose proof (capacity_keeps (E:=()) n t Ht) as H. by destruct (update_capacity n t) as [? [| |]].
  - rewrite bind_st. pose proof (proj1 (insert_keeps (E:=()) h v t Ht)) as H. by destruct (qt_update h v t) as [? [| |]].
  - unfold qt_update_size. rewrite bind_st. cbn [modify_st]. rewrite bind_st. cbn [get_st].
    pose proof (set_capacity_keeps n t Ht) as Hk. eapply keeps_trans; [done|exact Hk|]. apply fit_keeps; [apply Hk|done].
Qed.

Lemma table_ops_keep os t : table_ok t → keeps t (table_ops os t).
Proof.
  revert t. induction os as [|o os IH]; intros t Ht; [by apply keeps_refl|]. cbn. change (fold_left _ os ?x) with (table_ops os x).
  pose proof (table_op_keeps o t Ht) as Hk. eapply keeps_trans; [done|exact Hk|apply IH, Hk].
Qed.

Lemma with_empty_ok : table_ok with_empty.
Proof. split; cbn; [done..|constructor|]. intros i f H. by rewrite lookup_nil in H. Qed.

(** C37: in a table that is reached by any operations, with any arguments, the
    size is the sum of the entries and the queue holds the entries with the
    absolute indices from remove_count to insert_count: each of those is found,
    and as long as it is there it is the same entry; no index is used twice. *)
Theorem qpack_table_type (os os' : list TableOp) (i : Z) :
  let t := table_ops os with_empty in let t' := table_ops os' t in
  table_ok t ∧
  (qt_remove_count t ≤ i < qt_insert_count t → ∃ e, qt_field (E := ()) i t = Ok (Some e) ∧ qt_field_name (E := ()) i t = Ok (Some e.1) ∧
     (qt_remove_count t' ≤ i → qt_field (E := ()) i t' = Ok (Some e))).
Proof.
  intros t t'. pose proof (table_ops_keep os with_empty with_empty_ok) as [Ht _]. fold t in Ht.
  pose proof (table_ops_keep os' t Ht) as (Ht' & Hs & Hr & Hi). fold t' in Ht', Hs, Hr, Hi. split; [done|]. intros Hrange.
  pose proof (ok_count t Ht) as Hc. pose proof (ok_count t' Ht') as Hc'. unfold len in *.
  destruct (lookup_lt_is_Some_2 (qt_queue t) (Z.to_nat (i - qt_remove_count t))) as [f Hf]; [lia|].
  exists (df_name f, df_value f). unfold qt_field, qt_field_name, queue_index. destruct (Z.ltb_spec i (qt_remove_count t)); [lia|]. cbn. rewrite Hf.
  split; [done|]. split; [done|]. intros Hi'. destruct (Z.ltb_spec i (qt_remove_count t')); [lia|]. cbn.
  destruct (lookup_lt_is_Some_2 (qt_queue t') (Z.to_nat (i - qt_remove_count t'))) as [f' Hf']; [lia|]. rewrite Hf'.
  destruct (Hs i f f') as [<- <-]; done || lia.
Qed.

(** ** Eviction *)

(** [can_evict] counts how often the oldest entry would have to go: with entries
    of 60 and 34 bytes, of which both must go, it takes the size of the first
    twice, which is below zero. *)
Definition two_fields : DynamicTable :=
  table_ops [OCapacity 100; OInsert (Other (bs "name")) (bs "abcdefghijklmnopqrstuvwx"); OInsert (Other (bs "x")) (bs "1"); OKnown 2] with_empty.

Example evict_underflow : qt_used_cap two_fields = 94 ∧ can_evict (E := ()) 100 two_fields = Panic.
Proof. by vm_compute. Qed.

(** With a small entry in front it asks for more entries than there are. *)
Definition small_first : DynamicTable :=
  table_ops [OCapacity 102; OInsert (Other (bs "x")) (bs "1"); OInsert (Other (bs "name")) (bs "abcdefghijklmnopqrstuvwxyz012345"); OKnown 2] with_empty.

Example evict_too_many : len (qt_queue small_first) = 2 ∧ can_evict (E := ()) 102 small_first = Ok (Some 3) ∧
  (update_capacity (E := ()) 0 small_first).2 = Panic.
Proof. by vm_compute. Qed.

(** Entries of one size are counted right. *)
Lemma evict_loop_equal fuel f known bound used count : 0 ≤ bound → (Z.to_nat used < fuel)%nat →
  df_is_tracked f = false → df_index f ≤ known →
  (∃ k, 0 ≤ k ∧ used = k * df_size f) →
  evict_loop (E := ()) fuel f known bound used count = Ok (Some (count + (if bound <? used then (used - bound + df_size f - 1) / df_size f else 0))).
Proof.
  pose proof (df_size_pos f) as Hp. revert used count. induction fuel as [|fuel IH]; intros used count Hb Hf Ht Hk (k & Hk0 & ->); [lia|].
  cbn [evict_loop]. rewrite Ht. destruct (Z.ltb_spec known (df_index f)); [lia|]. cbn [orb].
  destruct (Z.ltb_spec bound (k * df_size f)); [|do 2 f_equal; lia].
  assert (1 ≤ k) by nia. destruct (Z.ltb_spec (k * df_size f) (df_size f)); [nia|].
  rewrite IH; [|done|nia|done|done|exists (k - 1); nia]. do 2 f_equal.
  set (s := df_size f) in *. destruct (Z.ltb_spec bound (k * s - s)).
  - replace (k * s - bound + s - 1) with ((k * s - s - bound + s - 1) + 1 * s) by lia. rewrite Z.div_add by lia. lia.
  - assert ((k * s - bound + s - 1) / s = 1) as ->; [|lia]. symmetry. apply (Z.div_unique _ _ 1 (k * s - bound - 1)); lia.
Qed.
