(* ===== verification/QpackInteger.v ===== *)
(** * QPACK integers

    Models [src/ylong_http/src/h3/qpack/integer.rs].  The arithmetic is that of
    [HpackInteger], whose records are used; the error is a [QpackError]. *)

From S2P Require Import Prelude H3Error HpackInteger.
#[local] Open Scope Z_scope.

(** ** Decoder *)

(** [IntegerDecoder::first_byte]: [inl] is its [Ok]. *)
Definition first_byte (byte mask : Z) : Z + IntegerDecoder :=
  let index := Z.land byte mask in
  match index ?= mask with
  | Lt => inl index
  | _ => inr (mkIntegerDecoder index 1)
  end.

(** [IntegerDecoder::next_byte]. *)
Definition next_byte (byte : Z) (d : IntegerDecoder) : IntegerDecoder * (QpackError + option Z) :=
  match (res ← checked_shl 1 (id_shift d - 1);
         res ← checked_mul res (Z.land byte 0x7f);
         checked_add res (id_index d)) : option Z with
  | None => (d, inl (ConnectionError DecompressionFailed))
  | Some index =>
      let d := mkIntegerDecoder index (id_shift d + 7) in
      (d, inr (if Z.land byte 0x80 =? 0 then Some index else None))
  end.

(** [DecResult] of [format/decoder.rs]: [Decoded d rest] where the source gives
    the index of [rest] in the buffer. *)
Inductive DecResult (D S : Type) :=
  | Decoded (d : D) (rest : bytes)
  | NeedMore (s : S)
  | Error (e : QpackError).
Arguments Decoded {D S} d rest.
Arguments NeedMore {D S} s.
Arguments Error {D S} e.

(** The loop of the trailing bytes' decoders. *)
Fixpoint next_bytes (d : IntegerDecoder) (buf : bytes) : DecResult Z IntegerDecoder :=
  match buf with
  | [] => NeedMore d
  | byte :: buf =>
      match next_byte byte d with
      | (d, inr None) => next_bytes d buf
      | (_, inr (Some index)) => Decoded index buf
      | (_, inl e) => Error e
      end
  end.

(** The same loop where [buf_index >= buf_len] is asked before a byte is read:
    the last byte of the buffer is never looked at. *)
Fixpoint next_bytes_but_last (d : IntegerDecoder) (buf : bytes) : DecResult Z IntegerDecoder :=
  match buf with
  | byte :: (_ :: _) as rest =>
      match next_byte byte d with
      | (d, inr None) => next_bytes_but_last d rest
      | (_, inr (Some index)) => Decoded index rest
      | (_, inl e) => Error e
      end
  | _ => NeedMore d
  end.

(** ** Encoder *)

Definition pre_mask (is_huffman : bool) : Z := if is_huffman then 0x80 else 0.

(** [Integer], with its [IntegerEncoder]. *)
Definition Integer_index (pre index mask : Z) : IntegerEncoder := IntegerEncoder_new index mask pre.
Definition Integer_length (length : Z) (is_huffman : bool) : IntegerEncoder := IntegerEncoder_new length 0x7f (pre_mask is_huffman).

(** [Integer::encode]: what it adds; a [usize] takes at most eleven bytes. *)
Fixpoint encode_loop (fuel : nat) (e : IntegerEncoder) : bytes :=
  match fuel with
  | O => []
  | S fuel =>
      if IntegerEncoder_is_finish e then []
      else match IntegerEncoder_next_byte e with
           | (e, Some b) => b :: encode_loop fuel e
           | (e, None) => encode_loop fuel e
           end
  end.
Definition Integer_encode : IntegerEncoder → bytes := encode_loop 12.

(** ** Lemmas *)

Lemma encode_loop_eq fuel e : encode_loop fuel e = encoder_bytes fuel e.
Proof.
  revert e. induction fuel as [|fuel IH]; intros e; [done|]. cbn [encode_loop encoder_bytes].
  destruct e as [i mask pre st]. destruct st; cbn [IntegerEncoder_is_finish ie_state]; [..|done]; cbn;
    repeat case_match; by rewrite IH.
Qed.

Lemma Integer_encode_bytes pre i mask : 0 ≤ i ≤ USIZE_MAX → prefix_ok mask pre → Integer_encode (Integer_index pre i mask) = int_bytes i mask pre.
Proof.
  intros Hi Hp. unfold Integer_encode, Integer_index. rewrite encode_loop_eq. by apply encoder_int_bytes.
Qed.

(** The decoder of a complete integer is that of HPACK. *)
Lemma next_bytes_hpack d buf i rest : HpackInteger.next_bytes d buf = HpackInteger.Decoded i rest → next_bytes d buf = Decoded i rest.
Proof.
  revert d. induction buf as [|b buf IH]; intros d; [done|]. cbn [next_bytes HpackInteger.next_bytes].
  unfold next_byte, HpackInteger.next_byte. change 0x7f with 127. change 0x80 with 128.
  destruct (mbind _ _) as [x|]; [|done]. destruct (_ =? _); [by intros [= -> ->]|apply IH].
Qed.

Lemma next_bytes_last d buf i rest : next_bytes d buf = Decoded i rest → rest ≠ [] → next_bytes_but_last d buf = Decoded i rest.
Proof.
  intros H Hr. revert d H. induction buf as [|b buf IH]; intros d; [done|]. cbn [next_bytes next_bytes_but_last].
  destruct buf as [|c buf]; destruct (next_byte b d) as [d' [e|[x|]]]; cbn; try done; [by intros [= <- <-]|apply IH].
Qed.

(** A decoder of integers in two steps, on what the encoder writes. *)
Lemma Integer_first_byte i mask pre rest : 0 ≤ i ≤ USIZE_MAX → prefix_ok mask pre →
  ∃ x tail, int_bytes i mask pre = (pre + x) :: tail ∧ 0 ≤ x ≤ mask ∧
    match first_byte (pre + x) mask with
    | inl j => j = i ∧ tail = []
    | inr d => next_bytes d (tail ++ rest) = Decoded i rest ∧ mask ≤ i
    end.
Proof.
  intros Hi Hp. pose proof (int_decode_bytes i mask pre rest Hi Hp) as H. pose proof Hp as ((n & Hn & Hm) & _).
  pose proof (Z.pow_pos_nonneg 2 n). unfold int_bytes in *. destruct (Z.ltb_spec i mask).
  - exists i, []. split; [done|]. split; [lia|]. unfold first_byte. rewrite (first_byte_prefix mask pre i Hp) by lia.
    by rewrite (proj2 (Z.compare_lt_iff _ _)).
  - exists mask, (groups 10 (i - mask)). split; [done|]. split; [lia|]. cbn [app int_decode] in H.
    change (HpackInteger.first_byte (pre + mask) mask) with (first_byte (pre + mask) mask) in H.
    unfold first_byte in *. rewrite (first_byte_prefix mask pre mask Hp), Z.compare_refl in * by lia.
    split; [by apply next_bytes_hpack|lia].
Qed.
