(* ===== verification/QpackRepr.v ===== *)
(** * QPACK prefixes, representations and instructions, and their decoders

    Models [src/ylong_http/src/h3/qpack/mod.rs] and [format/decoder.rs]: the
    prefixes of instructions and field lines with their masks and middle bits,
    the resumable decoder of field sections ([ReprDecoder]) and that of encoder
    instructions ([EncInstDecoder]).  The macros of the source are the sections
    [first_byte_decoder] and [name_and_value_decoder]. *)

From S2P Require Import Prelude Huffman HpackInteger HpackRepr H3Error QpackInteger.
#[local] Open Scope Z_scope.

(** ** Prefixes *)

(** [MidBit]: permission of intermediaries, static table, Huffman. *)
Record MidBit := mkMidBit { mb_n : option bool; mb_t : option bool; mb_h : option bool }.

#[export] Instance MidBit_eq_dec : EqDecision MidBit.
Proof. solve_decision. Defined.

Inductive DecoderInstPrefixBit := ACK | STREAM_CANCEL | INSERT_COUNT_INCREMENT.
Inductive EncoderInstPrefixBit := SET_CAP | INSERT_WITH_INDEX | INSERT_WITH_LITERAL | DUPLICATE.
Inductive ReprPrefixBit := INDEXED | INDEXEDWITHPOSTINDEX | LITERALWITHINDEXING | LITERALWITHPOSTINDEXING | LITERALWITHLITERALNAME.
#[export] Instance EncoderInstPrefixBit_eq_dec : EqDecision EncoderInstPrefixBit.
Proof. solve_decision. Defined.
#[export] Instance ReprPrefixBit_eq_dec : EqDecision ReprPrefixBit.
Proof. solve_decision. Defined.

(** The last arm of [from_u8] is [unreachable!]. *)
Definition DecoderInst_from_u8 (x : Z) : result QpackError DecoderInstPrefixBit :=
  if Z.land x 0x80 =? 0x80 then Ok ACK
  else if Z.land x 0xC0 =? 0x40 then Ok STREAM_CANCEL
  else if Z.land x 0xC0 =? 0x0 then Ok INSERT_COUNT_INCREMENT
  else Panic.
Definition DecoderInst_mask (p : DecoderInstPrefixBit) : Z :=
  match p with ACK => 0x7f | STREAM_CANCEL => 0x3f | INSERT_COUNT_INCREMENT => 0x3f end.

Definition EncoderInst_from_u8 (x : Z) : EncoderInstPrefixBit :=
  if 0x80 <=? x then INSERT_WITH_INDEX
  else if 0x40 <=? x then INSERT_WITH_LITERAL
  else if 0x20 <=? x then SET_CAP
  else DUPLICATE.
Definition EncoderInst_mask (p : EncoderInstPrefixBit) : Z :=
  match p with INSERT_WITH_INDEX => 0x3f | INSERT_WITH_LITERAL => 0x1f | SET_CAP => 0x1f | DUPLICATE => 0x1f end.
Definition EncoderInst_midbit (p : EncoderInstPrefixBit) (byte : Z) : MidBit :=
  match p with
  | INSERT_WITH_INDEX => mkMidBit None (Some (negb (Z.land byte 0x40 =? 0))) None
  | INSERT_WITH_LITERAL => mkMidBit None None (Some (negb (Z.land byte 0x20 =? 0)))
  | SET_CAP => mkMidBit None None None
  | DUPLICATE => mkMidBit None None None
  end.

Definition Repr_from_u8 (x : Z) : ReprPrefixBit :=
  if 0x80 <=? x then INDEXED
  else if 0x40 <=? x then LITERALWITHINDEXING
  else if 0x20 <=? x then LITERALWITHLITERALNAME
  else if 0x10 <=? x then INDEXEDWITHPOSTINDEX
  else LITERALWITHPOSTINDEXING.
Definition Repr_mask (p : ReprPrefixBit) : Z :=
  match p with
  | INDEXED => 0x3f
  | LITERALWITHINDEXING => 0x0f
  | LITERALWITHLITERALNAME => 0x07
  | INDEXEDWITHPOSTINDEX => 0x0f
  | LITERALWITHPOSTINDEXING => 0x07
  end.
Definition Repr_midbit (p : ReprPrefixBit) (byte : Z) : MidBit :=
  match p with
  | INDEXED => mkMidBit None (Some (negb (Z.land byte 0x40 =? 0))) None
  | LITERALWITHINDEXING => mkMidBit (Some (negb (Z.land byte 0x20 =? 0))) (Some (negb (Z.land byte 0x10 =? 0))) None
  | LITERALWITHLITERALNAME => mkMidBit (Some (negb (Z.land byte 0x10 =? 0))) None (Some (negb (Z.land byte 0x08 =? 0)))
  | INDEXEDWITHPOSTINDEX => mkMidBit None None None
  | LITERALWITHPOSTINDEXING => mkMidBit (Some (negb (Z.land byte 0x08 =? 0))) None None
  end.

(** ** Data *)

Inductive Name := Index (index : Z) | Literal (octets : bytes).

Inductive EncoderInstruction :=
  | SetCap (capacity : Z)
  | InsertWithIndex (mid_bit : MidBit) (name : Name) (value : bytes)
  | InsertWithLiteral (mid_bit : MidBit) (name : Name) (value : bytes)
  | Duplicate (index : Z).

Inductive DecoderInstruction :=
  | Ack (stream_id : Z)
  | StreamCancel (stream_id : Z)
  | InsertCountIncrement (increment : Z).

Inductive Representation :=
  | FieldSectionPrefix (require_insert_count : Z) (signal : bool) (delta_base : Z)
  | Indexed (mid_bit : MidBit) (index : Z)
  | IndexedWithPostIndex (index : Z)
  | LiteralWithIndexing (mid_bit : MidBit) (name : Name) (value : bytes)
  | LiteralWithPostIndexing (mid_bit : MidBit) (name : Name) (value : bytes)
  | LiteralWithLiteralName (mid_bit : MidBit) (name : Name) (value : bytes).

Abbreviation decompression_failed := (ConnectionError DecompressionFailed).

(** [From] between the states of a decoder: only [NeedMore] carries one. *)
Definition map_state {D S T} (f : S → T) (r : DecResult D S) : DecResult D T :=
  match r with Decoded d rest => Decoded d rest | NeedMore s => NeedMore (f s) | Error e => Error e end.

(** ** Literal strings *)

Inductive LiteralString :=
  | LengthFirstByte
  | LengthTrailingBytes (is_huffman : bool) (length : IntegerDecoder)
  | AsciiStringBytes (octets : bytes) (length : Z)
  | HuffmanStringBytes (huffman : HuffmanDecoder) (read length : Z).

Definition AsciiStringBytes_decode (octets : bytes) (length : Z) (buf : bytes) : DecResult bytes LiteralString :=
  match len buf + len octets ?= length with
  | Gt | Eq =>
      let pos := length - len octets in
      Decoded (octets ++ takeZ pos buf) (dropZ pos buf)
  | Lt => NeedMore (AsciiStringBytes (octets ++ buf) length)
  end.

Definition HuffmanStringBytes_decode (huffman : HuffmanDecoder) (read length : Z) (buf : bytes) : DecResult bytes LiteralString :=
  match len buf + read ?= length with
  | Gt | Eq =>
      let pos := length - read in
      match HuffmanDecoder_decode (takeZ pos buf) huffman with
      | (huffman, Ok _) =>
          match HuffmanDecoder_finish huffman with
          | Ok vec => Decoded vec (dropZ pos buf)
          | _ => Error decompression_failed
          end
      | _ => Error decompression_failed
      end
  | Lt =>
      match HuffmanDecoder_decode buf huffman with
      | (huffman, Ok _) => NeedMore (HuffmanStringBytes huffman (read + len buf) length)
      | _ => Error decompression_failed
      end
  end.

(** The string once its length is known. *)
Definition string_bytes_decode (is_huffman : bool) (length : Z) (buf : bytes) : DecResult bytes LiteralString :=
  if is_huffman then HuffmanStringBytes_decode HuffmanDecoder_new 0 length buf
  else AsciiStringBytes_decode [] length buf.

Definition LengthTrailingBytes_decode (is_huffman : bool) (length : IntegerDecoder) (buf : bytes) : DecResult bytes LiteralString :=
  match next_bytes_but_last length buf with
  | Decoded length rest => string_bytes_decode is_huffman length rest
  | NeedMore d => NeedMore (LengthTrailingBytes is_huffman d)
  | Error e => Error e
  end.

Definition LengthFirstByte_decode (buf : bytes) : DecResult bytes LiteralString :=
  match buf with
  | [] => NeedMore LengthFirstByte
  | byte :: buf =>
      let is_huffman := Z.land byte 0x80 =? 0x80 in
      match first_byte byte 0x7f with
      | inl length => string_bytes_decode is_huffman length buf
      | inr int => LengthTrailingBytes_decode is_huffman int buf
      end
  end.

Definition LiteralString_decode (s : LiteralString) (buf : bytes) : DecResult bytes LiteralString :=
  match s with
  | LengthFirstByte => LengthFirstByte_decode buf
  | LengthTrailingBytes h l => LengthTrailingBytes_decode h l buf
  | AsciiStringBytes o l => AsciiStringBytes_decode o l buf
  | HuffmanStringBytes h r l => HuffmanStringBytes_decode h r l buf
  end.

(** ** The index that follows a prefix: [InstIndexInner] and [ReprIndexInner] *)

Inductive IndexInner (P : Type) :=
  | FirstByte
  | TrailingBytes (prefix : P) (mid_bit : MidBit) (index : IntegerDecoder).
Arguments FirstByte {P}.
Arguments TrailingBytes {P} prefix mid_bit index.

Section first_byte_decoder.
Context {P : Type} (from_u8 : Z → P) (prefix_midbit_value : P → Z → MidBit) (prefix_index_mask : P → Z).

Definition TrailingBytes_decode (prefix : P) (mid_bit : MidBit) (index : IntegerDecoder) (buf : bytes) : DecResult (P * MidBit * Z) (IndexInner P) :=
  match next_bytes index buf with
  | Decoded i rest => Decoded (prefix, mid_bit, i) rest
  | NeedMore d => NeedMore (TrailingBytes prefix mid_bit d)
  | Error e => Error e
  end.

Definition FirstByte_decode (buf : bytes) : DecResult (P * MidBit * Z) (IndexInner P) :=
  match buf with
  | [] => NeedMore FirstByte
  | byte :: buf =>
      let prefix := from_u8 byte in
      let mid_bit := prefix_midbit_value prefix byte in
      match first_byte byte (prefix_index_mask prefix) with
      | inl idx => Decoded (prefix, mid_bit, idx) buf
      | inr int => TrailingBytes_decode prefix mid_bit int buf
      end
  end.

Definition IndexInner_decode (s : IndexInner P) (buf : bytes) : DecResult (P * MidBit * Z) (IndexInner P) :=
  match s with
  | FirstByte => FirstByte_decode buf
  | TrailingBytes p m i => TrailingBytes_decode p m i buf
  end.
End first_byte_decoder.

(** ** [InstNameAndValue] and [ReprNameAndValue] *)

Section name_and_value_decoder.
Context {P T S : Type} (name_and_value : P → MidBit → LiteralString → S)
        (value_string : P → MidBit → Name → LiteralString → bytes → DecResult T S).

Definition NameAndValue_decode (prefix : P) (mid_bit : MidBit) (inner : LiteralString) (buf : bytes) : DecResult T S :=
  match LiteralString_decode inner buf with
  | Decoded octets rest => value_string prefix mid_bit (Literal octets) LengthFirstByte rest
  | NeedMore inner => NeedMore (name_and_value prefix mid_bit inner)
  | Error e => Error e
  end.

(** Its [new]: a Huffman string if the middle bit says so. *)
Definition NameAndValue_new (mid_bit : MidBit) (namelen : Z) : LiteralString :=
  match mb_h mid_bit with
  | Some true => HuffmanStringBytes HuffmanDecoder_new 0 namelen
  | _ => AsciiStringBytes [] namelen
  end.
End name_and_value_decoder.

(** ** Encoder instructions *)

Inductive InstDecodeState :=
  | EncInstIndex (inner : IndexInner EncoderInstPrefixBit)
  | InstValueString (inst : EncoderInstPrefixBit) (mid_bit : MidBit) (name : Name) (inner : LiteralString)
  | InstNameAndValue (prefix : EncoderInstPrefixBit) (mid_bit : MidBit) (inner : LiteralString).

(** [InstValueString::decode]: [NeedMore] is an error as well. *)
Definition InstValueString_decode (inst : EncoderInstPrefixBit) (mid_bit : MidBit) (name : Name) (inner : LiteralString) (buf : bytes) :
    DecResult EncoderInstruction InstDecodeState :=
  match inst, LiteralString_decode inner buf with
  | INSERT_WITH_INDEX, Decoded value rest => Decoded (InsertWithIndex mid_bit name value) rest
  | INSERT_WITH_LITERAL, Decoded value rest => Decoded (InsertWithLiteral mid_bit name value) rest
  | _, _ => Error decompression_failed
  end.
Definition InstNameAndValue_decode := NameAndValue_decode InstNameAndValue InstValueString_decode.
Definition InstIndexInner_decode := IndexInner_decode EncoderInst_from_u8 EncoderInst_midbit EncoderInst_mask.

Definition EncInstIndex_decode (inner : IndexInner EncoderInstPrefixBit) (buf : bytes) : DecResult EncoderInstruction InstDecodeState :=
  match InstIndexInner_decode inner buf with
  | Decoded (SET_CAP, _, index) rest => Decoded (SetCap index) rest
  | Decoded (INSERT_WITH_INDEX, mid_bit, index) rest => InstValueString_decode INSERT_WITH_INDEX mid_bit (Index index) LengthFirstByte rest
  | Decoded (INSERT_WITH_LITERAL, mid_bit, namelen) rest => InstNameAndValue_decode INSERT_WITH_LITERAL mid_bit (NameAndValue_new mid_bit namelen) rest
  | Decoded (DUPLICATE, _, index) rest => Decoded (Duplicate index) rest
  | NeedMore inner => NeedMore (EncInstIndex inner)
  | Error e => Error e
  end.

Definition InstDecodeState_decode (s : InstDecodeState) (buf : bytes) : DecResult EncoderInstruction InstDecodeState :=
  match s with
  | EncInstIndex inner => EncInstIndex_decode inner buf
  | InstValueString i m n inner => InstValueString_decode i m n inner buf
  | InstNameAndValue p m inner => InstNameAndValue_decode p m inner buf
  end.

(** [EncInstDecoder::decode]: the state is taken out; the rest of the buffer
    goes with an instruction. *)
Definition EncInstDecoder_decode (buf : bytes) : ST (option InstDecodeState) QpackError (option (EncoderInstruction * bytes)) := λ inst_state,
  match buf with
  | [] => (inst_state, Ok None)
  | _ =>
      match InstDecodeState_decode (default (EncInstIndex FirstByte) inst_state) buf with
      | NeedMore state => (Some state, Ok None)
      | Decoded repr rest => (None, Ok (Some (repr, rest)))
      | Error e => (None, Err e)
      end
  end.

(** ** Field sections *)

Inductive ReprDecodeState :=
  | FiledSectionPrefix
  | ReprIndex (inner : IndexInner ReprPrefixBit)
  | ReprValueString (repr : ReprPrefixBit) (mid_bit : MidBit) (name : Name) (inner : LiteralString)
  | ReprNameAndValue (prefix : ReprPrefixBit) (mid_bit : MidBit) (inner : LiteralString).

(** One integer of [FSPTwoIntergers::decode], and the bytes behind it;
    [NeedMore] if the end of the buffer comes first. *)
Definition fsp_integer (byte mask : Z) (buf : bytes) : DecResult Z IntegerDecoder :=
  match first_byte byte mask with
  | inl i => Decoded i buf
  | inr int => next_bytes_but_last int buf
  end.

(** [FSPTwoIntergers::decode] and [FiledSectionPrefix::decode]: the state that
    needs more is the one of the start. *)
Definition FiledSectionPrefix_decode (buf : bytes) : DecResult Representation ReprDecodeState :=
  match buf with
  | [] => NeedMore FiledSectionPrefix
  | byte :: buf =>
      match fsp_integer byte 0xff buf with
      | NeedMore _ => NeedMore FiledSectionPrefix
      | Error e => Error e
      | Decoded ric rest =>
          match rest with
          | byte :: (_ :: _) as buf =>
              let signal := negb (Z.land byte 0x80 =? 0) in
              match fsp_integer byte 0x7f buf with
              | NeedMore _ => NeedMore FiledSectionPrefix
              | Error e => Error e
              | Decoded delta_base rest => Decoded (FieldSectionPrefix ric signal delta_base) rest
              end
          | _ => NeedMore FiledSectionPrefix
          end
      end
  end.

Definition ReprValueString_decode (repr : ReprPrefixBit) (mid_bit : MidBit) (name : Name) (inner : LiteralString) (buf : bytes) :
    DecResult Representation ReprDecodeState :=
  match repr, LiteralString_decode inner buf with
  | LITERALWITHINDEXING, Decoded value rest => Decoded (LiteralWithIndexing mid_bit name value) rest
  | LITERALWITHPOSTINDEXING, Decoded value rest => Decoded (LiteralWithPostIndexing mid_bit name value) rest
  | LITERALWITHLITERALNAME, Decoded value rest => Decoded (LiteralWithLiteralName mid_bit name value) rest
  | _, NeedMore inner => NeedMore (ReprValueString repr mid_bit name inner)
  | _, _ => Error decompression_failed
  end.
Definition ReprNameAndValue_decode := NameAndValue_decode ReprNameAndValue ReprValueString_decode.
Definition ReprIndexInner_decode := IndexInner_decode Repr_from_u8 Repr_midbit Repr_mask.

Definition ReprIndex_decode (inner : IndexInner ReprPrefixBit) (buf : bytes) : DecResult Representation ReprDecodeState :=
  match ReprIndexInner_decode inner buf with
  | Decoded (INDEXED, mid_bit, index) rest => Decoded (Indexed mid_bit index) rest
  | Decoded (INDEXEDWITHPOSTINDEX, _, index) rest => Decoded (IndexedWithPostIndex index) rest
  | Decoded (LITERALWITHINDEXING, mid_bit, index) rest => ReprValueString_decode LITERALWITHINDEXING mid_bit (Index index) LengthFirstByte rest
  | Decoded (LITERALWITHPOSTINDEXING, mid_bit, index) rest => ReprValueString_decode LITERALWITHPOSTINDEXING mid_bit (Index index) LengthFirstByte rest
  | Decoded (LITERALWITHLITERALNAME, mid_bit, namelen) rest => ReprNameAndValue_decode LITERALWITHLITERALNAME mid_bit (NameAndValue_new mid_bit namelen) rest
  | NeedMore inner => NeedMore (ReprIndex inner)
  | Error e => Error e
  end.

Definition ReprDecodeState_decode (s : ReprDecodeState) (buf : bytes) : DecResult Representation ReprDecodeState :=
  match s with
  | FiledSectionPrefix => FiledSectionPrefix_decode buf
  | ReprIndex inner => ReprIndex_decode inner buf
  | ReprValueString r m n inner => ReprValueString_decode r m n inner buf
  | ReprNameAndValue p m inner => ReprNameAndValue_decode p m inner buf
  end.

(** [ReprDecoder::decode]: when a representation ends with the buffer the state
    is empty, as at the start of a section. *)
Definition ReprDecoder_decode (buf : bytes) : ST (option ReprDecodeState) QpackError (option (Representation * bytes)) := λ repr_state,
  match buf with
  | [] => (repr_state, Ok None)
  | _ =>
      match ReprDecodeState_decode (default FiledSectionPrefix repr_state) buf with
      | NeedMore state => (Some state, Ok None)
      | Decoded repr [] => (None, Ok (Some (repr, [])))
      | Decoded repr rest => (Some (ReprIndex FirstByte), Ok (Some (repr, rest)))
      | Error e => (None, Err e)
      end
  end.

(** ** Progress: what a decoder leaves is no longer than what it got *)

Lemma qpack_next_bytes_length d buf i rest : next_bytes d buf = Decoded i rest → (length rest < length buf)%nat.
Proof.
  revert d. induction buf as [|x buf IH]; intros d; [done|]. cbn [next_bytes length].
  destruct (next_byte x d) as [d' [e|[j|]]]; [done|intros [= -> ->]; lia|]. intros H. apply IH in H. lia.
Qed.
Lemma next_bytes_but_last_length d buf i rest : next_bytes_but_last d buf = Decoded i rest → (length rest < length buf)%nat.
Proof.
  revert d. induction buf as [|x buf IH]; intros d; [done|]. destruct buf as [|y buf]; [done|].
  change (next_bytes_but_last d (x :: y :: buf)) with
    (match next_byte x d with (d, inr None) => next_bytes_but_last d (y :: buf) | (_, inr (Some index)) => Decoded index (y :: buf) | (_, inl e) => Error e end).
  destruct (next_byte x d) as [d' [e|[j|]]]; [done|intros [= -> <-]; cbn; lia|]. intros H. apply IH in H. cbn [length] in *. lia.
Qed.

Lemma qpack_string_length h l buf s rest : string_bytes_decode h l buf = Decoded s rest → (length rest ≤ length buf)%nat.
Proof.
  destruct h; cbn [string_bytes_decode]; [unfold HuffmanStringBytes_decode|unfold AsciiStringBytes_decode]; destruct (_ ?= _);
    repeat case_match; intros; simplify_eq; apply length_dropZ.
Qed.

Lemma length_trailing_length h d buf s rest : LengthTrailingBytes_decode h d buf = Decoded s rest → (length rest ≤ length buf)%nat.
Proof.
  unfold LengthTrailingBytes_decode. destruct (next_bytes_but_last _ _) eqn:E; [|done..].
  apply next_bytes_but_last_length in E. intros H%qpack_string_length. lia.
Qed.

Lemma qpack_literal_length st buf s rest : LiteralString_decode st buf = Decoded s rest → (length rest ≤ length buf)%nat.
Proof.
  destruct st as [|h d|o l|h r l]; cbn [LiteralString_decode].
  - destruct buf as [|x buf]; [done|]. cbn [LengthFirstByte_decode length].
    destruct (first_byte x _); [intros H%qpack_string_length|intros H%length_trailing_length]; lia.
  - apply length_trailing_length.
  - unfold AsciiStringBytes_decode. destruct (_ ?= _); intros; simplify_eq; apply length_dropZ.
  - unfold HuffmanStringBytes_decode. destruct (_ ?= _); repeat case_match; intros; simplify_eq; apply length_dropZ.
Qed.

Lemma qpack_index_length {P} (u : Z → P) m k st buf p rest : IndexInner_decode u m k st buf = Decoded p rest → (length rest < length buf)%nat.
Proof.
  assert (∀ q b d buf, TrailingBytes_decode q b d buf = Decoded p rest → (length rest < length buf)%nat) as Ht.
  { intros q b d l. unfold TrailingBytes_decode. destruct (next_bytes _ _) eqn:E; [|done..].
    apply qpack_next_bytes_length in E. by intros [= _ ->]. }
  destruct st as [|q b d]; cbn [IndexInner_decode]; [|apply Ht].
  destruct buf as [|x buf]; [done|]. cbn [FirstByte_decode length].
  destruct (first_byte x _); [intros [= _ ->]; lia|]. intros H%Ht. lia.
Qed.

Lemma repr_value_length repr m name st buf r rest : ReprValueString_decode repr m name st buf = Decoded r rest → (length rest ≤ length buf)%nat.
Proof.
  unfold ReprValueString_decode. destruct (LiteralString_decode _ _) eqn:E; [|by destruct repr..].
  apply qpack_literal_length in E. destruct repr; try done; by intros [= _ ->].
Qed.
Lemma inst_value_length i m name st buf r rest : InstValueString_decode i m name st buf = Decoded r rest → (length rest ≤ length buf)%nat.
Proof.
  unfold InstValueString_decode. destruct (LiteralString_decode _ _) eqn:E; [|by destruct i..].
  apply qpack_literal_length in E. destruct i; try done; by intros [= _ ->].
Qed.
Lemma name_value_length {P T S} (f : P → MidBit → LiteralString → S) (g : P → MidBit → Name → LiteralString → bytes → DecResult T S) p m st buf r rest :
  (∀ p m n s b r k, g p m n s b = Decoded r k → (length k ≤ length b)%nat) →
  NameAndValue_decode f g p m st buf = Decoded r rest → (length rest ≤ length buf)%nat.
Proof.
  intros Hg. unfold NameAndValue_decode. destruct (LiteralString_decode _ _) eqn:E; [|done..].
  apply qpack_literal_length in E. intros H%Hg. lia.
Qed.

Lemma fsp_integer_length x m buf i rest : fsp_integer x m buf = Decoded i rest → (length rest ≤ length buf)%nat.
Proof.
  unfold fsp_integer. destruct (first_byte x m); [by intros [= _ ->]|]. intros H%next_bytes_but_last_length. lia.
Qed.

(** A state that has not read the index of a line takes a byte. *)
Definition resumed (s : option ReprDecodeState) : nat :=
  match s with Some (ReprValueString _ _ _ _) | Some (ReprNameAndValue _ _ _) => 1 | _ => 0 end.

Lemma qpack_repr_length st buf r rest :
  ReprDecodeState_decode st buf = Decoded r rest → (length rest < length buf + resumed (Some st))%nat.
Proof.
  destruct st as [|inner|p m n s|p m s]; cbn [ReprDecodeState_decode resumed].
  - destruct buf as [|x buf]; [done|]. cbn [FiledSectionPrefix_decode]. destruct (fsp_integer x _ _) as [ric rest'| |] eqn:E; [|done..].
    apply fsp_integer_length in E. destruct rest' as [|y [|z rest']]; [done..|]. destruct (fsp_integer y _ _) as [db rest''| |] eqn:E'; [|done..].
    apply fsp_integer_length in E'. intros [= _ ->]. cbn [length] in *. lia.
  - unfold ReprIndex_decode. destruct (ReprIndexInner_decode _ _) as [[[p m] i] rest'| |] eqn:E; [|done..]. apply qpack_index_length in E.
    destruct p; intros H; simplify_eq; try lia; [apply repr_value_length in H|apply repr_value_length in H|apply name_value_length in H; [|apply repr_value_length]]; lia.
  - intros H%repr_value_length. lia.
  - intros H%name_value_length; [lia|apply repr_value_length].
Qed.

Lemma qpack_inst_length st buf r rest :
  InstDecodeState_decode st buf = Decoded r rest →
  (length rest < length buf + match st with EncInstIndex _ => 0 | _ => 1 end)%nat.
Proof.
  destruct st as [inner|p m n s|p m s]; cbn [InstDecodeState_decode].
  - unfold EncInstIndex_decode. destruct (InstIndexInner_decode _ _) as [[[p m] i] rest'| |] eqn:E; [|done..]. apply qpack_index_length in E.
    destruct p; intros H; simplify_eq; try lia; [apply inst_value_length in H|apply name_value_length in H; [|apply inst_value_length]]; lia.
  - intros H%inst_value_length. lia.
  - intros H%name_value_length; [lia|apply inst_value_length].
Qed.
