(* ===== verification/QpackFormat.v ===== *)
(** * The encoders of QPACK representations

    Models [src/ylong_http/src/h3/qpack/format/encoder.rs]: the wire format of
    every field line and instruction, [ReprEncoder], which chooses among them for
    a field and keeps the dynamic table, and the decoder of decoder
    instructions.  A [u64] or [usize] index is a [Z]; what the source pushes to a
    [Vec] is returned. *)

From S2P Require Import Prelude Huffman HpackInteger HpackTable Headers Parts H3Error QpackInteger QpackTable QpackRepr.
From S2P Require HpackEncoder.
#[local] Open Scope Z_scope.

(** ** Strings *)

Definition Octets_new (src : bytes) (is_huffman : bool) : bytes := if is_huffman then huffman_encode src [] else src.

(** [IndexAndValue]: [set_index], [set_value] and [encode]. *)
Definition IndexAndValue_encode (pre index mask : Z) (value : bytes) (h : bool) : bytes :=
  let octets := Octets_new value h in
  Integer_encode (Integer_index pre index mask) ++ Integer_encode (Integer_length (len octets) h) ++ octets.

(** [NameAndValue]: the length of the name is in the index. *)
Definition NameAndValue_encode (pre index mask : Z) (name value : bytes) (h : bool) : bytes :=
  let octets := Octets_new value h in
  Integer_encode (Integer_index pre index mask) ++ Octets_new name h ++ Integer_encode (Integer_length (len octets) h) ++ octets.

(** ** Field lines and instructions: [new] and [encode] *)

Definition SetCap_encode (capacity : Z) : bytes := Integer_encode (Integer_index 0x20 capacity 0x1f).
Definition Duplicate_encode (index : Z) : bytes := Integer_encode (Integer_index 0x00 index 0x1f).
Definition Indexed_encode (index : Z) (is_static : bool) : bytes :=
  if is_static then Integer_encode (Integer_index 0xc0 index 0x3f)
  else Integer_encode (Integer_index 0x80 index 0x3f).
Definition IndexedWithPost_encode (index : Z) : bytes := Integer_encode (Integer_index 0x10 index 0x0f).
Definition InsertWithName_encode (index : Z) (value : bytes) (is_huffman is_static : bool) : bytes :=
  if is_static then IndexAndValue_encode 0xc0 index 0x3f value is_huffman
  else IndexAndValue_encode 0x80 index 0x3f value is_huffman.
Definition IndexingWithName_encode (index : Z) (value : bytes) (is_huffman is_static no_permit : bool) : bytes :=
  match no_permit, is_static with
  | true, true => IndexAndValue_encode 0x70 index 0x0f value is_huffman
  | true, false => IndexAndValue_encode 0x60 index 0x0f value is_huffman
  | false, true => IndexAndValue_encode 0x50 index 0x0f value is_huffman
  | false, false => IndexAndValue_encode 0x40 index 0x0f value is_huffman
  end.
Definition IndexingWithPostName_encode (index : Z) (value : bytes) (is_huffman no_permit : bool) : bytes :=
  if no_permit then IndexAndValue_encode 0x08 index 0x0f value is_huffman
  else IndexAndValue_encode 0x00 index 0x0f value is_huffman.
Definition IndexingWithLiteral_encode (name value : bytes) (is_huffman no_permit : bool) : bytes :=
  match no_permit, is_huffman with
  | true, true => NameAndValue_encode 0x38 (len name) 0x1f name value is_huffman
  | true, false => NameAndValue_encode 0x30 (len name) 0x1f name value is_huffman
  | false, true => NameAndValue_encode 0x28 (len name) 0x1f name value is_huffman
  | false, false => NameAndValue_encode 0x20 (len name) 0x1f name value is_huffman
  end.
Definition InsertWithLiteral_encode (name value : bytes) (is_huffman : bool) : bytes :=
  if is_huffman then NameAndValue_encode 0x60 (len name) 0x1f name value is_huffman
  else NameAndValue_encode 0x40 (len name) 0x1f name value is_huffman.

(** ** The iterator over [Parts]

    The same code as that of HTTP/2. *)
Definition PartsIter : Type := HpackEncoder.PartsIter.
Definition PartsIter_new (pseudo : PseudoHeaders) (order : list (bytes * HeaderValue)) : PartsIter := HpackEncoder.PartsIter_new pseudo order.
Definition PartsIter_next (it : PartsIter) : option ((NameField * bytes) * PartsIter) := HpackEncoder.PartsIter_next it.

(** ** [ReprEncoder] *)

Record ReprEncoder := mkReprEncoder { qr_stream_id : Z; qr_base : Z; qr_is_huffman : bool }.

(** What the encoder changes: the table it borrows, the references of the
    section, the instructions and the field lines. *)
Record Lines := mkLines { ls_table : DynamicTable; ls_refs : gset Z; ls_inst : bytes; ls_fields : bytes }.

Definition push_fields (b : bytes) (l : Lines) : Lines := mkLines (ls_table l) (ls_refs l) (ls_inst l) (ls_fields l ++ b).
Definition push_inst (b : bytes) (l : Lines) : Lines := mkLines (ls_table l) (ls_refs l) (ls_inst l ++ b) (ls_fields l).
Definition ls_set_table (t : DynamicTable) (l : Lines) : Lines := mkLines t (ls_refs l) (ls_inst l) (ls_fields l).
Definition insert_ref (i : Z) (l : Lines) : Lines := mkLines (ls_table l) ({[ i ]} ∪ ls_refs l) (ls_inst l) (ls_fields l).

Abbreviation LS := (ST Lines QpackError).
Definition on_table {A} (m : ST DynamicTable QpackError A) : LS A := zoom ls_table ls_set_table m.

(** [get_prefix]: [max_ref] is 0 when there is no dynamic reference; the
    remainder panics when the table has no entries. *)
Definition get_prefix (base : Z) (t : DynamicTable) (max_ref : Z) : result QpackError bytes :=
  let required_insert_count := max_ref + 1 in
  if negb (max_ref =? 0) then
    if 2 * qt_max_entries t =? 0 then Panic
    else
      let wire_ric := required_insert_count mod (2 * qt_max_entries t) + 1 in
      Ok (Integer_encode (Integer_index 0x00 wire_ric 0xff) ++
          (if required_insert_count <=? base then Integer_encode (Integer_index 0x00 (base - required_insert_count) 0x7f)
           else Integer_encode (Integer_index 0x80 (required_insert_count - base - 1) 0x7f)))
  else Ok (Integer_encode (Integer_index 0x00 0 0xff) ++ Integer_encode (Integer_index 0x00 0 0x7f)).

(** [search_filed_from_table]. *)
Definition search_filed_from_table (t : DynamicTable) (h : NameField) (v : bytes) (allow_block : bool) : SearchResult :=
  let search_dynamic search_result :=
    match qt_index h v allow_block t with
    | Some (IField index) => DynamicIndex index
    | Some (IFieldName index) => match search_result with NotFound => DynamicNameIndex index | _ => search_result end
    | None => search_result
    end in
  match static_index_of h v with
  | Some (IField index) => StaticIndex index
  | Some (IFieldName index) => search_dynamic (StaticNameIndex index)
  | None => search_dynamic NotFound
  end.

Definition indexed_dynamic_field (base index : Z) : bytes :=
  if base <=? index then IndexedWithPost_encode (index - base) else Indexed_encode (base - index - 1) false.

Definition indexed_name_ref_with_literal_field (base index : Z) (field_v : bytes) (is_huffman : bool) : bytes :=
  if base <=? index then IndexingWithPostName_encode (index - base) field_v is_huffman false
  else InsertWithName_encode (base - index - 1) field_v is_huffman false.

(** [add_field_to_dynamic]: without room, a field line goes into the
    instructions. *)
Definition add_field_to_dynamic (field_h : NameField) (field_v : bytes) (is_huffman : bool) : LS (option Z) :=
  l ← get_st;
  let header_size := NameField_len field_h + len field_v + 32 in
  n ← lift_res (can_evict header_size (ls_table l));
  match n with
  | Some n =>
      _ ← modify_st (push_inst (InsertWithLiteral_encode (NameField_to_string field_h) field_v is_huffman));
      _ ← on_table (evict_drained n);
      i ← on_table (qt_update field_h field_v);
      mret (Some i)
  | None =>
      _ ← modify_st (push_inst (IndexingWithLiteral_encode (NameField_to_string field_h) field_v is_huffman false));
      mret None
  end.

(** A reference is tracked once for a section. *)
Definition reference (index : Z) : LS () :=
  l ← get_st;
  if decide (index ∈ ls_refs l) then mret ()
  else _ ← modify_st (insert_ref index); on_table (track_field index).

(** [encode_field]: the dynamic index it refers to. *)
Definition encode_field (e : ReprEncoder) (field_h : NameField) (field_v : bytes) (allow_block : bool) : LS (option Z) :=
  l ← get_st;
  let literal := IndexingWithLiteral_encode (NameField_to_string field_h) field_v (qr_is_huffman e) false in
  match search_filed_from_table (ls_table l) field_h field_v allow_block with
  | StaticIndex index => _ ← modify_st (push_fields (Indexed_encode index true)); mret None
  | StaticNameIndex index => _ ← modify_st (push_fields (IndexingWithName_encode index field_v (qr_is_huffman e) true false)); mret None
  | DynamicIndex index =>
      _ ← modify_st (push_fields (indexed_dynamic_field (qr_base e) index)); _ ← reference index; mret (Some index)
  | DynamicNameIndex index =>
      _ ← modify_st (push_fields (indexed_name_ref_with_literal_field (qr_base e) index field_v (qr_is_huffman e)));
      _ ← reference index; mret (Some index)
  | NotFound =>
      if allow_block then
        i ← add_field_to_dynamic field_h field_v (qr_is_huffman e);
        match i with
        | Some index =>
            _ ← modify_st (push_fields (indexed_dynamic_field (qr_base e) index));
            _ ← modify_st (insert_ref index); _ ← on_table (track_field index); mret (Some index)
        | None => _ ← modify_st (push_fields literal); mret None
        end
      else _ ← modify_st (push_fields literal); mret None
  end.

(** The loop over the fields: the highest dynamic reference, at first 0. *)
Fixpoint encode_fields (fuel : nat) (e : ReprEncoder) (allow_block : bool) (it : PartsIter) (max_dynamic : Z) : LS Z :=
  match fuel with
  | O => panic
  | S fuel =>
      match PartsIter_next it with
      | None => mret max_dynamic
      | Some ((h, v), it) =>
          r ← encode_field e h v allow_block;
          encode_fields fuel e allow_block it (match r with Some dyn_ref => Z.max max_dynamic dyn_ref | None => max_dynamic end)
      end
  end.

(** [iterate_encode_fields]: the whole section in [fields], the track map's
    sections of the stream, and whether the section may block. *)
Definition iterate_encode_fields (e : ReprEncoder) (field_iter : option PartsIter) (track_map : gmap Z (list (gset Z))) (allow_block : bool) :
    LS (gmap Z (list (gset Z)) * bool) :=
  max_dynamic ← match field_iter with
                | Some it => encode_fields (HpackEncoder.iter_fuel it) e allow_block it 0
                | None => mret 0
                end;
  l ← get_st;
  prefix ← lift_res (get_prefix (qr_base e) (ls_table l) max_dynamic);
  _ ← put_st (mkLines (ls_table l) (ls_refs l) (ls_inst l) (prefix ++ ls_fields l));
  mret (if decide (ls_refs l = ∅) then track_map
        else <[qr_stream_id e := default [] (track_map !! qr_stream_id e) ++ [ls_refs l]]> track_map,
        qt_known_received_count (ls_table l) <? max_dynamic).

(** ** Decoder instructions *)

(** [DecInstIndexInner], the one state. *)
Inductive DecInstIndexInner :=
  | InstFirstByte
  | InstTrailingBytes (inst : DecoderInstPrefixBit) (index : IntegerDecoder).

Definition InstTrailingBytes_decode (inst : DecoderInstPrefixBit) (index : IntegerDecoder) (buf : bytes) : DecResult (DecoderInstPrefixBit * Z) DecInstIndexInner :=
  match next_bytes index buf with
  | Decoded i rest => Decoded (inst, i) rest
  | NeedMore d => NeedMore (InstTrailingBytes inst d)
  | Error e => Error e
  end.

Definition InstFirstByte_decode (buf : bytes) : result QpackError (DecResult (DecoderInstPrefixBit * Z) DecInstIndexInner) :=
  match buf with
  | [] => Ok (NeedMore InstFirstByte)
  | byte :: buf =>
      inst ← DecoderInst_from_u8 byte;
      match first_byte byte (DecoderInst_mask inst) with
      | inl idx => Ok (Decoded (inst, idx) buf)
      | inr int => Ok (InstTrailingBytes_decode inst int buf)
      end
  end.

(** [DecInstIndex::decode]: [NeedMore] falls into the last arm, an error. *)
Definition DecInstIndex_decode (inner : DecInstIndexInner) (buf : bytes) : result QpackError (DecResult DecoderInstruction DecInstIndexInner) :=
  r ← match inner with
      | InstFirstByte => InstFirstByte_decode buf
      | InstTrailingBytes i d => Ok (InstTrailingBytes_decode i d buf)
      end;
  Ok (match r with
      | Decoded (ACK, index) rest => Decoded (Ack index) rest
      | Decoded (STREAM_CANCEL, index) rest => Decoded (StreamCancel index) rest
      | Decoded (INSERT_COUNT_INCREMENT, index) rest => Decoded (InsertCountIncrement index) rest
      | Error e => Error e
      | NeedMore _ => Error (ConnectionError DecoderStreamError)
      end).

(** [DecInstDecoder::decode]. *)
Definition DecInstDecoder_decode (buf : bytes) : ST (option DecInstIndexInner) QpackError (option (DecoderInstruction * bytes)) := λ ins_state,
  match buf with
  | [] => (ins_state, Ok None)
  | _ =>
      match DecInstIndex_decode (default InstFirstByte ins_state) buf with
      | Ok (NeedMore state) => (Some state, Ok None)
      | Ok (Decoded repr rest) => (None, Ok (Some (repr, rest)))
      | Ok (Error e) => (None, Err e)
      | Err e => (None, Err e)
      | Panic => (None, Panic)
      end
  end.
