(* ===== verification/QpackDecoder.v ===== *)
(** * The QPACK decoder

    Models [src/ylong_http/src/h3/qpack/decoder.rs]: the encoder stream that
    updates the dynamic table ([decode_ins], [Updater]), the field sections of
    the request streams, blocked or decoded line by line ([decode_repr],
    [Searcher]), and the acknowledgements that are sent back. *)

From S2P Require Import Prelude Utf8 Headers HpackTable Parts H3Error QpackInteger QpackTable QpackRepr.
#[local] Open Scope Z_scope.

(** ** State *)

Inductive FieldDecodeState := FBlocked | FDecoded.

(** [ReprMessage], with its [FiledLines]. *)
Record ReprMessage := mkReprMessage {
  rm_require_insert_count : Z; rm_base : Z; rm_repr_state : option ReprDecodeState; rm_remaining : option bytes; rm_parts : Parts; rm_header_size : Z }.
Definition ReprMessage_new : ReprMessage := mkReprMessage 0 0 None None Parts_new 0.

Definition rm_set_repr_state (s : option ReprDecodeState) (m : ReprMessage) : ReprMessage :=
  mkReprMessage (rm_require_insert_count m) (rm_base m) s (rm_remaining m) (rm_parts m) (rm_header_size m).
Definition rm_set_remaining (r : option bytes) (m : ReprMessage) : ReprMessage :=
  mkReprMessage (rm_require_insert_count m) (rm_base m) (rm_repr_state m) r (rm_parts m) (rm_header_size m).
Definition rm_set_counts (ric base : Z) (m : ReprMessage) : ReprMessage :=
  mkReprMessage ric base (rm_repr_state m) (rm_remaining m) (rm_parts m) (rm_header_size m).
Definition rm_set_parts (p : Parts) (m : ReprMessage) : ReprMessage :=
  mkReprMessage (rm_require_insert_count m) (rm_base m) (rm_repr_state m) (rm_remaining m) p (rm_header_size m).
Definition rm_set_header_size (n : Z) (m : ReprMessage) : ReprMessage :=
  mkReprMessage (rm_require_insert_count m) (rm_base m) (rm_repr_state m) (rm_remaining m) (rm_parts m) n.

Record QpackDecoder := mkQpackDecoder {
  qd_table : DynamicTable; qd_inst_state : option InstDecodeState; qd_streams : gmap Z ReprMessage; qd_blocked : gmap Z Z;
  qd_max_blocked_streams : Z; qd_max_table_capacity : Z; qd_max_field_section_size : Z }.

Definition QpackDecoder_new (max_blocked_streams max_table_capacity : Z) : QpackDecoder :=
  mkQpackDecoder with_empty None ∅ ∅ max_blocked_streams max_table_capacity (2 ^ 62 - 1).

Definition qd_set_table (t : DynamicTable) (d : QpackDecoder) : QpackDecoder :=
  mkQpackDecoder t (qd_inst_state d) (qd_streams d) (qd_blocked d) (qd_max_blocked_streams d) (qd_max_table_capacity d) (qd_max_field_section_size d).
Definition qd_set_inst_state (s : option InstDecodeState) (d : QpackDecoder) : QpackDecoder :=
  mkQpackDecoder (qd_table d) s (qd_streams d) (qd_blocked d) (qd_max_blocked_streams d) (qd_max_table_capacity d) (qd_max_field_section_size d).
Definition qd_set_streams (m : gmap Z ReprMessage) (d : QpackDecoder) : QpackDecoder :=
  mkQpackDecoder (qd_table d) (qd_inst_state d) m (qd_blocked d) (qd_max_blocked_streams d) (qd_max_table_capacity d) (qd_max_field_section_size d).
Definition qd_set_blocked (m : gmap Z Z) (d : QpackDecoder) : QpackDecoder :=
  mkQpackDecoder (qd_table d) (qd_inst_state d) (qd_streams d) m (qd_max_blocked_streams d) (qd_max_table_capacity d) (qd_max_field_section_size d).
Definition set_max_field_section_size (n : Z) (d : QpackDecoder) : QpackDecoder :=
  mkQpackDecoder (qd_table d) (qd_inst_state d) (qd_streams d) (qd_blocked d) (qd_max_blocked_streams d) (qd_max_table_capacity d) n.

Abbreviation QD := (ST QpackDecoder QpackError).

Definition qd_finish_stream (id : Z) : QD () :=
  d ← get_st;
  match qd_blocked d !! id with
  | Some _ => throw (ConnectionError DecoderStreamError)
  | None => put_st (qd_set_streams (delete id (qd_streams d)) d)
  end.

(** ** The encoder stream *)

Definition ok_or {S A} (e : QpackError) (o : option A) : ST S QpackError A :=
  match o with Some a => mret a | None => throw e end.

(** [usize] arithmetic that panics. *)
Definition usize_sub {S} (a b : Z) : ST S QpackError Z := if a <? b then panic else mret (a - b).
Definition usize_add {S} (a b : Z) : ST S QpackError Z := if USIZE_MAX <? a + b then panic else mret (a + b).

(** [Updater::get_field_by_name_and_value]. *)
Definition updater_field (mid_bit : MidBit) (name : Name) (value : bytes) (insert_count : Z) : ST DynamicTable QpackError (NameField * bytes) :=
  t ← get_st;
  h ← match name with
      | Index index =>
          match mb_t mid_bit with
          | Some true => ok_or (ConnectionError EncoderStreamError) (static_field_name index)
          | _ =>
              i ← usize_sub insert_count index; i ← usize_sub i 1;
              h ← lift_res (qt_field_name i t); ok_or (ConnectionError EncoderStreamError) h
          end
      | Literal octets => if is_utf8 octets then mret (Other octets) else throw (ConnectionError EncoderStreamError)
      end;
  if is_utf8 value then mret (h, value) else throw (ConnectionError EncoderStreamError).

Definition updater_update_table (mid_bit : MidBit) (name : Name) (value : bytes) : ST DynamicTable QpackError () :=
  t ← get_st;
  fv ← updater_field mid_bit name value (qt_insert_count t);
  _ ← qt_update fv.1 fv.2; mret ().

Definition updater_duplicate (index : Z) : ST DynamicTable QpackError () :=
  t ← get_st;
  i ← usize_sub (qt_insert_count t) index; i ← usize_sub i 1;
  fv ← lift_res (qt_field i t);
  fv ← ok_or (ConnectionError EncoderStreamError) fv;
  _ ← qt_update fv.1 fv.2; mret ().

(** One instruction of [decode_ins]. *)
Definition apply_inst (inst : EncoderInstruction) : QD () :=
  d ← get_st;
  match inst with
  | SetCap capacity =>
      if qd_max_table_capacity d <? capacity then throw decompression_failed
      else zoom qd_table qd_set_table (qt_update_size capacity)
  | InsertWithIndex mid_bit name value => zoom qd_table qd_set_table (updater_update_table mid_bit name value)
  | InsertWithLiteral mid_bit name value => zoom qd_table qd_set_table (updater_update_table mid_bit name value)
  | Duplicate index => zoom qd_table qd_set_table (updater_duplicate index)
  end.

Fixpoint ins_loop (fuel : nat) (buf : bytes) : QD () :=
  match fuel with
  | O => panic
  | S fuel =>
      match buf with
      | [] => mret ()
      | _ =>
          r ← zoom qd_inst_state qd_set_inst_state (EncInstDecoder_decode buf);
          match r with
          | Some (inst, rest) => _ ← apply_inst inst; ins_loop fuel rest
          | None => mret ()
          end
      end
  end.

(** An instruction takes a byte, but for a resumed one. *)
Definition loop_fuel (buf : bytes) : nat := S (S (length buf)).

(** [decode_ins]: the streams that are no longer blocked, in the order in which
    the hash map [blocked] is visited. *)
Definition decode_ins (order : gmap Z Z → list (Z * Z)) (buf : bytes) : QD (list Z) :=
  _ ← ins_loop (loop_fuel buf) buf;
  d ← get_st;
  let insert_count := qt_insert_count (qd_table d) in
  let unblocked := filter (λ p, p.2 ≤ insert_count) (order (qd_blocked d)) in
  _ ← put_st (qd_set_blocked (filter (λ p, insert_count < p.2) (qd_blocked d)) d);
  mret (unblocked.*1).

(** ** Field sections *)

(** [Searcher], whose [lines] are those of the message. *)
Record Searcher := mkSearcher { sr_max : Z; sr_table : DynamicTable; sr_base : Z }.

Abbreviation MS := (ST ReprMessage QpackError).
Definition update_parts (h : NameField) (v : bytes) : MS () := zoom rm_parts rm_set_parts (Parts_update h v).

Definition field_line_length (key_size value_size : Z) : Z := key_size + value_size + 32.
Definition check_field_list_size (s : Searcher) (key : NameField) (value : bytes) : MS () :=
  _ ← modify_st (λ m, rm_set_header_size (rm_header_size m + field_line_length (NameField_len key) (len value)) m);
  m ← get_st;
  if sr_max s <? rm_header_size m then throw decompression_failed else mret ().

Definition find_dynamic (s : Searcher) (i : Z) : MS (NameField * bytes) :=
  fv ← lift_res (qt_field i (sr_table s)); ok_or decompression_failed fv.
Definition find_name_dynamic (s : Searcher) (i : Z) : MS NameField :=
  h ← lift_res (qt_field_name i (sr_table s)); ok_or decompression_failed h.

(** The size of an indexed line is not checked. *)
Definition search_indexed (s : Searcher) (mid_bit : MidBit) (index : Z) : MS () :=
  match mb_t mid_bit with
  | Some true => fv ← ok_or decompression_failed (static_field index); update_parts fv.1 fv.2
  | _ => i ← usize_sub (sr_base s) index; i ← usize_sub i 1; fv ← find_dynamic s i; update_parts fv.1 fv.2
  end.

Definition search_post_indexed (s : Searcher) (index : Z) : MS () :=
  i ← usize_add (sr_base s) index;
  fv ← find_dynamic s i;
  _ ← check_field_list_size s fv.1 fv.2;
  update_parts fv.1 fv.2.

(** [Searcher::get_field_by_name_and_value]. *)
Definition searcher_field (s : Searcher) (mid_bit : MidBit) (name : Name) (value : bytes) (repr : ReprPrefixBit) : MS (NameField * bytes) :=
  h ← match name with
      | Index index =>
          match repr, mb_t mid_bit with
          | LITERALWITHINDEXING, Some true => ok_or decompression_failed (static_field_name index)
          | LITERALWITHINDEXING, _ => i ← usize_sub (sr_base s) index; i ← usize_sub i 1; find_name_dynamic s i
          | _, _ => i ← usize_add (sr_base s) index; find_name_dynamic s i
          end
      | Literal octets => if is_utf8 octets then mret (Other octets) else throw decompression_failed
      end;
  if is_utf8 value then mret (h, value) else throw decompression_failed.

(** [search_literal_with_indexing], [.._post_indexing], [search_listeral_with_literal]. *)
Definition search_literal (s : Searcher) (mid_bit : MidBit) (name : Name) (value : bytes) (repr : ReprPrefixBit) : MS () :=
  fv ← searcher_field s mid_bit name value repr;
  _ ← check_field_list_size s fv.1 fv.2;
  update_parts fv.1 fv.2.

(** The required insert count of RFC 9204, section 4.5.1.1, from the one on the
    wire. *)
Definition required_insert_count (t : DynamicTable) (ric : Z) : result QpackError Z :=
  if ric =? 0 then Ok 0
  else
    let full_range := 2 * qt_max_entries t in
    if full_range <? ric then Err decompression_failed
    else
      let max_value := qt_insert_count t + qt_max_entries t in
      let max_wrapped := max_value / full_range * full_range in
      let r := max_wrapped + ric - 1 in
      if (max_value <? r) && (r <=? full_range) then Err decompression_failed
      else
        let r := if max_value <? r then r - full_range else r in
        if r =? 0 then Err decompression_failed else Ok r.

Definition section_base {S} (ric : Z) (signal : bool) (delta_base : Z) : ST S QpackError Z :=
  if signal then b ← usize_sub ric delta_base; usize_sub b 1 else usize_add ric delta_base.

(** The state of [decode_buffered_repr]: [self.blocked] and the message. *)
Record SectionSt := mkSection { se_blocked : gmap Z Z; se_message : ReprMessage }.
Definition se_set_message (m : ReprMessage) (s : SectionSt) : SectionSt := mkSection (se_blocked s) m.
Abbreviation SE := (ST SectionSt QpackError).
Definition on_message {A} (m : MS A) : SE A := zoom se_message se_set_message m.

(** The lines; [Some] when the section is blocked. *)
Definition apply_repr (d : QpackDecoder) (stream_id : Z) (s : Searcher) (repr : Representation) (rest : bytes) : SE (Searcher * bool) :=
  match repr with
  | FieldSectionPrefix ric signal delta_base =>
      ric ← lift_res (required_insert_count (sr_table s) ric);
      base ← section_base ric signal delta_base;
      _ ← on_message (modify_st (rm_set_counts ric base));
      let s := mkSearcher (sr_max s) (sr_table s) base in
      st ← get_st;
      if qt_insert_count (sr_table s) <? ric then
        if qd_max_blocked_streams d <? Z.of_nat (size (se_blocked st)) then throw decompression_failed
        else
          _ ← put_st (mkSection (<[stream_id := ric]> (se_blocked st)) (rm_set_remaining (Some rest) (se_message st)));
          mret (s, true)
      else mret (s, false)
  | Indexed mid_bit index => _ ← on_message (search_indexed s mid_bit index); mret (s, false)
  | IndexedWithPostIndex index => _ ← on_message (search_post_indexed s index); mret (s, false)
  | LiteralWithIndexing mid_bit name value => _ ← on_message (search_literal s mid_bit name value LITERALWITHINDEXING); mret (s, false)
  | LiteralWithPostIndexing mid_bit name value => _ ← on_message (search_literal s mid_bit name value LITERALWITHPOSTINDEXING); mret (s, false)
  | LiteralWithLiteralName mid_bit name value => _ ← on_message (search_literal s mid_bit name value LITERALWITHLITERALNAME); mret (s, false)
  end.

Fixpoint lines_loop (fuel : nat) (d : QpackDecoder) (stream_id : Z) (s : Searcher) (buf : bytes) : SE FieldDecodeState :=
  match fuel with
  | O => panic
  | S fuel =>
      r ← on_message (zoom rm_repr_state rm_set_repr_state (ReprDecoder_decode buf));
      match r with
      | None => mret FDecoded
      | Some (repr, rest) =>
          sb ← apply_repr d stream_id s repr rest;
          if sb.2 : bool then mret FBlocked else lines_loop fuel d stream_id sb.1 rest
      end
  end.

(** [decode_buffered_repr]: the base of the searcher is 0 at each call. *)
Definition decode_buffered_repr (d : QpackDecoder) (stream_id : Z) (buf : bytes) : SE FieldDecodeState :=
  match buf with
  | [] => mret FDecoded
  | _ => lines_loop (loop_fuel buf) d stream_id (mkSearcher (qd_max_field_section_size d) (qd_table d) 0) buf
  end.

(** [decode_repr]: the message is out of [streams] meanwhile, and an error
    loses it. *)
Definition decode_repr (buf : bytes) (stream_id : Z) : QD FieldDecodeState :=
  d ← get_st;
  match qd_blocked d !! stream_id with
  | Some _ => throw (QpackInternalError StreamBlocked)
  | None =>
      let message := default ReprMessage_new (qd_streams d !! stream_id) in
      let d := qd_set_streams (delete stream_id (qd_streams d)) d in
      let run : SE FieldDecodeState :=
        match rm_remaining message with
        | Some vec => _ ← on_message (modify_st (rm_set_remaining None)); _ ← decode_buffered_repr d stream_id vec; decode_buffered_repr d stream_id buf
        | None => decode_buffered_repr d stream_id buf
        end in
      let '(s, r) := run (mkSection (qd_blocked d) message) in
      _ ← put_st (qd_set_blocked (se_blocked s) d);
      match r with
      | Ok state =>
          _ ← modify_st (λ d, qd_set_streams (<[stream_id := se_message s]> (qd_streams d)) d);
          mret state
      | Err e => throw e
      | Panic => panic
      end
  end.

(** [finish]: the parts, and the acknowledgement that goes to [buf]. *)
Definition qd_finish (stream_id : Z) : QD (Parts * option bytes) :=
  d ← get_st;
  match qd_streams d !! stream_id with
  | None => throw decompression_failed
  | Some message =>
      _ ← put_st (qd_set_streams (delete stream_id (qd_streams d)) d);
      match rm_repr_state message with
      | Some _ => throw decompression_failed
      | None =>
          mret (rm_parts message,
                if 0 <? rm_require_insert_count message then Some (Integer_encode (Integer_index 0x80 stream_id 0x7f)) else None)
      end
  end.

(** [stream_cancel]: what it writes to [buf], of [room] bytes. *)
Definition qd_stream_cancel (stream_id room : Z) : QD bytes :=
  d ← get_st;
  if 0 <? qt_capacity (qd_table d) then
    _ ← put_st (qd_set_streams (delete stream_id (qd_streams d)) (qd_set_blocked (delete stream_id (qd_blocked d)) d));
    let res := Integer_encode (Integer_index 0x40 stream_id 0x3f) in
    if room <? len res then throw decompression_failed else mret res
  else mret [].

(** ** Fuel: both loops end by themselves *)

Lemma EncInst_progress buf s s' inst rest : EncInstDecoder_decode buf s = (s', Ok (Some (inst, rest))) →
  s' = None ∧ (length rest < length buf + match s with Some _ => 1 | None => 0 end)%nat.
Proof.
  unfold EncInstDecoder_decode. destruct buf as [|x buf]; [done|].
  destruct (InstDecodeState_decode _ _) as [r rest'| |] eqn:E; [|done..]. apply qpack_inst_length in E.
  intros [= <- -> ->]. split; [done|]. destruct s as [[]|]; cbn [default id] in E; lia.
Qed.

Lemma zoom_table_state (m : ST DynamicTable QpackError ()) d : qd_inst_state (zoom qd_table qd_set_table m d).1 = qd_inst_state d.
Proof. unfold zoom. by destruct (m (qd_table d)). Qed.

Lemma apply_inst_state inst d : qd_inst_state (apply_inst inst d).1 = qd_inst_state d.
Proof.
  unfold apply_inst. rewrite bind_st. cbn [get_st]. destruct inst; [destruct (_ <? _); [done|]|..]; apply zoom_table_state.
Qed.

Lemma ins_loop_fuel f1 f2 buf d :
  let m := (length buf + match qd_inst_state d with Some _ => 1 | None => 0 end)%nat in
  (m < f1)%nat → (m < f2)%nat → ins_loop f1 buf d = ins_loop f2 buf d.
Proof.
  revert f2 buf d. induction f1 as [|f1 IH]; intros [|f2] buf d m H1 H2; [lia..|]. cbn [ins_loop].
  destruct buf as [|x buf]; [done|]. rewrite !bind_st. unfold zoom.
  destruct (EncInstDecoder_decode _ _) as [s' [[[inst rest]|]| |]] eqn:E; [|done..]. apply EncInst_progress in E as [-> E].
  rewrite !bind_st. pose proof (apply_inst_state inst (qd_set_inst_state None d)) as Hs.
  destruct (apply_inst _ _) as [d' [[]| |]]; [|done..]. cbn [fst qd_inst_state qd_set_inst_state] in Hs. apply IH; rewrite Hs; lia.
Qed.

Lemma Repr_progress buf s s' r rest : QpackRepr.ReprDecoder_decode buf s = (s', Ok (Some (r, rest))) →
  resumed s' = 0%nat ∧ (length rest < length buf + resumed s)%nat.
Proof.
  unfold QpackRepr.ReprDecoder_decode. destruct buf as [|x buf]; [done|].
  destruct (ReprDecodeState_decode _ _) as [r' rest'| |] eqn:E; [|done..]. apply qpack_repr_length in E.
  assert (resumed (Some (default FiledSectionPrefix s)) = resumed s) as Hr by (by destruct s).
  rewrite Hr in E. destruct rest' as [|y rest']; intros [= <- -> <-]; split; done || lia.
Qed.

(** The lines leave the state of the representation decoder alone. *)
Definition keeps_state {A} (m : MS A) : Prop := ∀ x, rm_repr_state (m x).1 = rm_repr_state x.

Lemma keeps_state_bind {A B} (m : MS A) (f : A → MS B) : keeps_state m → (∀ a, keeps_state (f a)) → keeps_state (x ← m; f x).
Proof. intros Hm Hf x. rewrite bind_st. specialize (Hm x). destruct (m x) as [y [a| |]]; [by rewrite Hf|done..]. Qed.
Lemma keeps_state_const {A} (r : result QpackError A) : keeps_state (lift_res r).
Proof. by intros x. Qed.
Lemma keeps_state_parts h v : keeps_state (update_parts h v).
Proof. intros x. unfold update_parts, zoom. by destruct (Parts_update h v _). Qed.
Lemma keeps_state_size s k v : keeps_state (check_field_list_size s k v).
Proof.
  apply keeps_state_bind; [by intros x|]. intros []. apply keeps_state_bind; [by intros x|]. intros m. destruct (_ <? _); by intros x.
Qed.
Create HintDb keeps_state.
#[export] Hint Resolve keeps_state_bind keeps_state_const keeps_state_parts keeps_state_size : keeps_state.

Lemma keeps_state_find s i : keeps_state (find_dynamic s i) ∧ keeps_state (find_name_dynamic s i).
Proof. split; (apply keeps_state_bind; [apply keeps_state_const|]); intros [?|]; by intros x. Qed.
Lemma keeps_state_sub {B} a b (f : Z → MS B) : (∀ i, keeps_state (f i)) → keeps_state (i ← usize_sub a b; f i).
Proof. intros Hf. apply keeps_state_bind; [|done]. unfold usize_sub. destruct (_ <? _); by intros x. Qed.
Lemma keeps_state_add {B} a b (f : Z → MS B) : (∀ i, keeps_state (f i)) → keeps_state (i ← usize_add a b; f i).
Proof. intros Hf. apply keeps_state_bind; [|done]. unfold usize_add. destruct (_ <? _); by intros x. Qed.

Lemma searcher_field_state s m n v p : keeps_state (searcher_field s m n v p).
Proof.
  apply keeps_state_bind; [|intros h; destruct (is_utf8 v); by intros x].
  destruct n as [i|o]; [|destruct (is_utf8 o); by intros x].
  pose proof (λ i, proj2 (keeps_state_find s i)) as Hf.
  assert (keeps_state (i0 ← usize_add (sr_base s) i; find_name_dynamic s i0)) by (apply keeps_state_add, Hf).
  destruct p; try done. destruct (mb_t m) as [[]|]; [by destruct (static_field_name i); intros x|..];
    by do 2 (apply keeps_state_sub; intros ?).
Qed.

Lemma search_state s mb i n v p :
  keeps_state (search_indexed s mb i) ∧ keeps_state (search_post_indexed s i) ∧ keeps_state (search_literal s mb n v p).
Proof.
  pose proof (λ i, proj1 (keeps_state_find s i)) as Hf. split_and!.
  - unfold search_indexed. assert (keeps_state (i0 ← usize_sub (sr_base s) i; i1 ← usize_sub i0 1; fv ← find_dynamic s i1; update_parts fv.1 fv.2))
      by (do 2 (apply keeps_state_sub; intros ?); auto with keeps_state).
    destruct (mb_t mb) as [[]|]; [|done..]. apply keeps_state_bind; [by destruct (static_field i); intros x|]. auto with keeps_state.
  - apply keeps_state_add. auto with keeps_state.
  - apply keeps_state_bind; [apply searcher_field_state|]. auto with keeps_state.
Qed.

Lemma on_message_state {A} (m : MS A) st : keeps_state m → rm_repr_state (se_message (on_message m st).1) = rm_repr_state (se_message st).
Proof. intros Hm. unfold on_message, zoom. specialize (Hm (se_message st)). by destruct (m _). Qed.

Lemma on_message_bind_state {A B} (m : MS A) (k : B) st : keeps_state m →
  rm_repr_state (se_message ((_ ← on_message m; mret k) st).1) = rm_repr_state (se_message st).
Proof. intros Hm. rewrite bind_st. rewrite <- (on_message_state m st Hm). by destruct (on_message m st) as [? [| |]]. Qed.

Lemma section_base_st {S} k sg db (st : S) : (section_base k sg db st).1 = st.
Proof.
  unfold section_base, usize_sub, usize_add. destruct sg; [|by destruct (_ <? _)]. rewrite bind_st.
  destruct (k <? db); [done|]. cbn [mret ST_ret]. by destruct (_ <? 1).
Qed.

Lemma apply_repr_state d sid s r rest st : rm_repr_state (se_message (apply_repr d sid s r rest st).1) = rm_repr_state (se_message st).
Proof.
  destruct r as [ric sg db|mb i|i|mb n v|mb n v|mb n v]; cbn [apply_repr]; [|apply on_message_bind_state..].
  - rewrite bind_st. cbn [lift_res]. destruct (required_insert_count _ _) as [k| |]; [|done..]. rewrite bind_st.
    pose proof (section_base_st k sg db st) as Hb.
    destruct (section_base k sg db st) as [st' [b| |]]; cbn [fst] in Hb; subst st'; [|done..]. rewrite bind_st. destruct st as [bl m].
    change (on_message (modify_st (rm_set_counts k b)) (mkSection bl m)) with (mkSection bl (rm_set_counts k b m), Ok (E := QpackError) ()).
    cbv iota. rewrite bind_st. cbn [get_st]. destruct (_ <? _); [|done]. destruct (_ <? _); [done|]. by rewrite bind_st.
  - apply (search_state s mb i (Index 0) [] INDEXED).
  - apply (search_state s (mkMidBit None None None) i (Index 0) [] INDEXED).
  - apply (search_state s mb 0 n v _).
  - apply (search_state s mb 0 n v _).
  - apply (search_state s mb 0 n v _).
Qed.

Lemma lines_loop_fuel f1 f2 d sid s buf st :
  let m := (length buf + resumed (rm_repr_state (se_message st)))%nat in
  (m < f1)%nat → (m < f2)%nat → lines_loop f1 d sid s buf st = lines_loop f2 d sid s buf st.
Proof.
  revert f2 s buf st. induction f1 as [|f1 IH]; intros [|f2] s buf [bl m] k H1 H2; [lia..|]. cbn [lines_loop].
  rewrite !bind_st. unfold on_message, zoom. cbn [se_message].
  destruct (QpackRepr.ReprDecoder_decode _ _) as [s' [[[r rest]|]| |]] eqn:E; [|done..]. apply Repr_progress in E as [E1 E2].
  rewrite !bind_st. set (st' := se_set_message (rm_set_repr_state s' m) _). pose proof (apply_repr_state d sid s r rest st') as Hs.
  destruct (apply_repr _ _ _ _ _ _) as [st'' [[s'' []]| |]]; [done| |done..]. cbn [fst snd] in *.
  assert (rm_repr_state (se_message st') = s') as Hs' by done. cbn [se_message] in *. apply IH; rewrite Hs, Hs', E1; lia.
Qed.

(** decoding the encoder stream and a field section takes no more turns
    than there are bytes, and one for an instruction or a line that an earlier
    read has begun: more turns make no difference. *)
Theorem qpack_decode_terminates (fuel : nat) (d : QpackDecoder) (sid : Z) (s : Searcher) (buf : bytes) (st : SectionSt)
    (Hf : (loop_fuel buf ≤ fuel)%nat) :
  ins_loop fuel buf d = ins_loop (loop_fuel buf) buf d ∧
  lines_loop fuel d sid s buf st = lines_loop (loop_fuel buf) d sid s buf st.
Proof.
  unfold loop_fuel in *. split; [apply ins_loop_fuel|apply lines_loop_fuel];
    [destruct (qd_inst_state d)|destruct (qd_inst_state d)|destruct (rm_repr_state _) as [[]|]..]; cbn [resumed]; lia.
Qed.

Lemma qpack_decode_terminates_witness :
  ins_loop 100 [0x20] (QpackDecoder_new 0 0) = (QpackDecoder_new 0 0, Ok ()) ∧
  ins_loop 100 [0x20] (QpackDecoder_new 0 0) = ins_loop (loop_fuel [0x20]) [0x20] (QpackDecoder_new 0 0).
Proof.
  assert (loop_fuel [0x20%Z] ≤ 100)%nat as Hf by (cbv; lia).
  split; [by vm_compute|].
  apply (qpack_decode_terminates 100 (QpackDecoder_new 0 0) 0 (mkSearcher 0 with_empty 0) [0x20] (mkSection ∅ ReprMessage_new) Hf).
Defined.
