(* ===== verification/QpackEncoder.v ===== *)
(** * The QPACK encoder

    Models [src/ylong_http/src/h3/qpack/encoder.rs]: header blocks of the
    request streams, the instructions for the peer's table, the sections that
    wait for an acknowledgement and the decoder stream that brings it.  A
    [HashSet] is visited in an order that [order] gives. *)

From S2P Require Import Prelude Headers Parts H3Error QpackInteger QpackTable QpackRepr QpackFormat.
#[local] Open Scope Z_scope.

(** ** State *)

(** [UnackFields] is its queue of sections, oldest first. *)
Definition UnackFields : Type := list (gset Z).
Definition max_unacked_index (u : UnackFields) : option Z :=
  foldr (λ s m, set_fold (λ i m, Some (match m with Some x => Z.max x i | None => i end)) m s) None u.

(** [field_state], [insert_length] and [required_insert_count] are never used. *)
Record QpackEncoder := mkQpackEncoder {
  qe_max_blocked_streams : Z; qe_blocked_stream_nums : Z; qe_capacity_to_update : option Z; qe_tracked_stream : gmap Z UnackFields;
  qe_table : DynamicTable; qe_is_huffman : bool; qe_field_iter : option PartsIter; qe_inst_state : option DecInstIndexInner }.

Definition QpackEncoder_default : QpackEncoder := mkQpackEncoder 0 0 None ∅ with_empty true None None.

Definition qe_set_blocked (n : Z) (e : QpackEncoder) : QpackEncoder :=
  mkQpackEncoder (qe_max_blocked_streams e) n (qe_capacity_to_update e) (qe_tracked_stream e) (qe_table e) (qe_is_huffman e) (qe_field_iter e) (qe_inst_state e).
Definition qe_set_capacity (c : option Z) (e : QpackEncoder) : QpackEncoder :=
  mkQpackEncoder (qe_max_blocked_streams e) (qe_blocked_stream_nums e) c (qe_tracked_stream e) (qe_table e) (qe_is_huffman e) (qe_field_iter e) (qe_inst_state e).
Definition qe_set_tracked (m : gmap Z UnackFields) (e : QpackEncoder) : QpackEncoder :=
  mkQpackEncoder (qe_max_blocked_streams e) (qe_blocked_stream_nums e) (qe_capacity_to_update e) m (qe_table e) (qe_is_huffman e) (qe_field_iter e) (qe_inst_state e).
Definition qe_set_table (t : DynamicTable) (e : QpackEncoder) : QpackEncoder :=
  mkQpackEncoder (qe_max_blocked_streams e) (qe_blocked_stream_nums e) (qe_capacity_to_update e) (qe_tracked_stream e) t (qe_is_huffman e) (qe_field_iter e) (qe_inst_state e).
Definition qe_set_iter (i : option PartsIter) (e : QpackEncoder) : QpackEncoder :=
  mkQpackEncoder (qe_max_blocked_streams e) (qe_blocked_stream_nums e) (qe_capacity_to_update e) (qe_tracked_stream e) (qe_table e) (qe_is_huffman e) i (qe_inst_state e).
Definition qe_set_inst_state (s : option DecInstIndexInner) (e : QpackEncoder) : QpackEncoder :=
  mkQpackEncoder (qe_max_blocked_streams e) (qe_blocked_stream_nums e) (qe_capacity_to_update e) (qe_tracked_stream e) (qe_table e) (qe_is_huffman e) (qe_field_iter e) s.

Abbreviation QE := (ST QpackEncoder QpackError).
Definition on_qe_table {A} (m : ST DynamicTable QpackError A) : QE A := zoom qe_table qe_set_table m.

(** ** Settings *)

Definition qe_finish_stream (id : Z) : QE () :=
  e ← get_st;
  match qe_tracked_stream e !! id with
  | Some _ => throw (ConnectionError EncoderStreamError)
  | None => mret ()
  end.

Definition MAX_TABLE_CAPACITY : Z := 2 ^ 30 - 1.
Definition set_max_table_capacity (max_cap : Z) : QE () :=
  if MAX_TABLE_CAPACITY <? max_cap then throw (ConnectionError QpackSettingsError)
  else modify_st (qe_set_capacity (Some max_cap)).

Definition set_max_blocked_stream_size (max_blocked : Z) (e : QpackEncoder) : QpackEncoder :=
  mkQpackEncoder max_blocked (qe_blocked_stream_nums e) (qe_capacity_to_update e) (qe_tracked_stream e) (qe_table e) (qe_is_huffman e) (qe_field_iter e) (qe_inst_state e).

(** [update_max_dynamic_table_cap]: what it appends to the instructions. *)
Definition update_max_dynamic_table_cap : QE bytes :=
  e ← get_st;
  match qe_capacity_to_update e with
  | Some new_cap =>
      r ← on_qe_table (update_capacity new_cap);
      match r with
      | Some _ => _ ← modify_st (qe_set_capacity None); mret (SetCap_encode new_cap)
      | None => mret []
      end
  | None => mret []
  end.

Definition qe_set_parts (pseudo : PseudoHeaders) (order : list (bytes * HeaderValue)) (e : QpackEncoder) : QpackEncoder :=
  qe_set_iter (Some (PartsIter_new pseudo order)) e.

(** ** The decoder stream *)

Section order.
Context (order : gset Z → list Z).

(** [update_blocked_stream]: the streams with a section that the peer cannot
    decode yet. *)
Definition update_blocked_stream (e : QpackEncoder) : QpackEncoder :=
  let known := qt_known_received_count (qe_table e) in
  qe_set_blocked (Z.of_nat (size (filter (λ p, existsb (λ s, bool_decide (set_Exists (λ i, known < i) s)) p.2 = true) (qe_tracked_stream e)))) e.

Definition increase_insert_count (increment : Z) : QE () :=
  _ ← on_qe_table (increase_known_receive_count increment);
  modify_st update_blocked_stream.

(** The references of one section, in the set's order: the count that is known
    to be received grows by one for each that is above it. *)
Fixpoint ack_section (l : list Z) (known_received : Z) : ST DynamicTable QpackError Z :=
  match l with
  | [] => mret known_received
  | index :: l =>
      _ ← untracked_field index;
      ack_section l (if known_received <? index then known_received + 1 else known_received)
  end.

Definition qe_ack (stream_id : Z) : QE () :=
  e ← get_st;
  let start := qt_known_received_count (qe_table e) in
  known_received ←
    match qe_tracked_stream e !! stream_id with
    | Some [] => _ ← modify_st (λ e, qe_set_tracked (delete stream_id (qe_tracked_stream e)) e); mret start
    | Some (section :: rest) =>
        k ← on_qe_table (ack_section (order section) start);
        _ ← modify_st (λ e, qe_set_tracked (match rest with [] => delete stream_id (qe_tracked_stream e) | _ => <[stream_id := rest]> (qe_tracked_stream e) end) e);
        mret k
    | None => mret start
    end;
  let increment := known_received - start in
  if 0 <? increment then increase_insert_count increment else mret ().

Fixpoint untrack_all (l : list Z) : ST DynamicTable QpackError () :=
  match l with [] => mret () | index :: l => _ ← untracked_field index; untrack_all l end.

Definition cancel_stream (stream_id : Z) : QE () :=
  e ← get_st;
  match qe_tracked_stream e !! stream_id with
  | Some fields =>
      _ ← modify_st (λ e, qe_set_tracked (delete stream_id (qe_tracked_stream e)) e);
      let refs := fields ≫= order in
      _ ← on_qe_table (untrack_all refs);
      e ← get_st;
      if existsb (λ i, qt_known_received_count (qe_table e) <? i) refs then
        if qe_blocked_stream_nums e <? 1 then panic else put_st (qe_set_blocked (qe_blocked_stream_nums e - 1) e)
      else mret ()
  | None => mret ()
  end.

Definition apply_dec_inst (i : DecoderInstruction) : QE () :=
  match i with
  | Ack stream_id => qe_ack stream_id
  | StreamCancel stream_id => cancel_stream stream_id
  | InsertCountIncrement increment => increase_insert_count increment
  end.

Fixpoint dec_ins_loop (fuel : nat) (buf : bytes) : QE () :=
  match fuel with
  | O => panic
  | S fuel =>
      r ← zoom qe_inst_state qe_set_inst_state (DecInstDecoder_decode buf);
      match r with
      | Some (inst, rest) => _ ← apply_dec_inst inst; dec_ins_loop fuel rest
      | None => mret ()
      end
  end.

(** [decode_ins]. *)
Definition qe_decode_ins (buf : bytes) : QE () := dec_ins_loop (S (S (length buf))) buf.
End order.

(** ** Header blocks *)

Definition reach_max_blocked (e : QpackEncoder) : bool := qe_max_blocked_streams e <=? qe_blocked_stream_nums e.

(** [encode]: the fields and the instructions of [EncodeMessage]. *)
Definition qe_encode (stream_id : Z) : QE (bytes * bytes) :=
  inst ← update_max_dynamic_table_cap;
  e ← get_st;
  let stream_blocked :=
    match qe_tracked_stream e !! stream_id with
    | Some unacked => match max_unacked_index unacked with Some idx => qt_known_received_count (qe_table e) <? idx | None => false end
    | None => false
    end in
  let encoder := mkReprEncoder stream_id (qt_insert_count (qe_table e)) (qe_is_huffman e) in
  let '(l, r) := iterate_encode_fields encoder (qe_field_iter e) (qe_tracked_stream e) (stream_blocked || negb (reach_max_blocked e))
                   (mkLines (qe_table e) ∅ inst []) in
  _ ← put_st (qe_set_table (ls_table l) (qe_set_iter None e));
  match r with
  | Ok (track_map, blocks) =>
      _ ← modify_st (qe_set_tracked track_map);
      _ ← modify_st (λ e, qe_set_blocked (qe_blocked_stream_nums e + (if blocks : bool then 1 else 0)) e);
      mret (ls_fields l, ls_inst l)
  | Err e => throw e
  | Panic => panic
  end.
