(* ===== verification/QpackSection.v ===== *)
(** * Field sections on the wire

    What [QpackFormat] writes, [QpackRepr] reads: the wire format of field lines
    and instructions, and the round trip of whole field sections between
    [QpackEncoder] and [QpackDecoder]. *)

From S2P Require Import Prelude Utf8 Huffman Headers HpackInteger HpackTable HpackRepr Parts HpackDecoder HpackEncoder.
From S2P Require Import H3Error QpackInteger QpackTable QpackRepr QpackFormat QpackDecoder QpackEncoder.
#[local] Open Scope Z_scope.

(** ** Strings *)

Lemma IndexAndValue_wire pre i mask v h : 0 ≤ i ≤ USIZE_MAX → prefix_ok mask pre → string_ok v →
  QpackFormat.IndexAndValue_encode pre i mask v h = int_bytes i mask pre ++ string_wire h v.
Proof.
  intros Hi Hp Hv. unfold QpackFormat.IndexAndValue_encode. rewrite Integer_encode_bytes by done. f_equal.
  unfold string_wire. change (QpackFormat.Octets_new v h) with (string_octets h v). f_equal.
  unfold QpackInteger.Integer_length, QpackInteger.Integer_encode. rewrite encode_loop_eq.
  by apply encoder_int_bytes; [apply string_octets_len|apply (prefix_ok_len h)].
Qed.

Lemma qpack_string_bytes h s rest : Forall is_byte s →
  QpackRepr.string_bytes_decode h (len (string_octets h s)) (string_octets h s ++ rest) = Decoded s rest.
Proof.
  intros Hs. pose proof (string_bytes_wire h s rest Hs) as H. revert H.
  unfold QpackRepr.string_bytes_decode, HpackRepr.string_bytes_decode. destruct h.
  - unfold QpackRepr.HuffmanStringBytes_decode, HpackRepr.HuffmanStringBytes_decode.
    destruct (_ ?= _); [| |]; destruct (HuffmanDecoder_decode _ _) as [hd [?|?|]]; try done;
      destruct (HuffmanDecoder_finish hd); try done; congruence.
  - unfold QpackRepr.AsciiStringBytes_decode, HpackRepr.AsciiStringBytes_decode.
    destruct (_ ?= _); try done; congruence.
Qed.

Lemma qpack_string_wire h s rest : string_ok s →
  QpackRepr.LiteralString_decode QpackRepr.LengthFirstByte (string_wire h s ++ rest) = Decoded s rest.
Proof.
  intros Hs. pose proof (string_octets_len h s Hs) as Hl. unfold string_wire. rewrite <- app_assoc.
  destruct (Integer_first_byte (len (string_octets h s)) 0x7f (huffman_bit h) (string_octets h s ++ rest) Hl (prefix_ok_len h))
    as (x & tail & E & Hx & Hd).
  rewrite E. cbn [app QpackRepr.LiteralString_decode QpackRepr.LengthFirstByte_decode].
  rewrite huffman_bit_first by done. destruct (QpackInteger.first_byte _ _) as [j|d].
  - destruct Hd as [-> ->]. apply qpack_string_bytes, Hs.
  - destruct Hd as [Hd Hge]. unfold QpackRepr.LengthTrailingBytes_decode. rewrite (next_bytes_last _ _ _ _ Hd).
    + apply qpack_string_bytes, Hs.
    + intros [Hnil _]%app_eq_nil. rewrite Hnil in Hge. by apply Hge.
Qed.

(** ** Indices *)

(** All first bytes of a pattern give the prefix and its middle bits. *)
Definition pattern_ok {P} `{EqDecision P} (from_u8 : Z → P) (midbit : P → Z → MidBit) (mask_of : P → Z) (pre : Z) (p : P) (m : MidBit) : Prop :=
  prefix_ok (mask_of p) pre ∧ ∀ x, 0 ≤ x ≤ mask_of p → from_u8 (pre + x) = p ∧ midbit p (pre + x) = m.

Lemma index_wire {P} `{EqDecision P} from_u8 midbit mask_of pre (p : P) m i rest :
  pattern_ok from_u8 midbit mask_of pre p m → 0 ≤ i ≤ USIZE_MAX →
  QpackRepr.IndexInner_decode from_u8 midbit mask_of QpackRepr.FirstByte (int_bytes i (mask_of p) pre ++ rest) = Decoded (p, m, i) rest.
Proof.
  intros [Hp Hm] Hi. destruct (Integer_first_byte i (mask_of p) pre rest Hi Hp) as (x & tail & -> & Hx & Hd).
  cbn [app QpackRepr.IndexInner_decode QpackRepr.FirstByte_decode]. destruct (Hm x Hx) as [-> ->].
  destruct (QpackInteger.first_byte _ _) as [j|d].
  - by destruct Hd as [-> ->].
  - unfold QpackRepr.TrailingBytes_decode. by rewrite (proj1 Hd).
Qed.

Definition pattern_check {P} `{EqDecision P} (from_u8 : Z → P) (midbit : P → Z → MidBit) (mask_of : P → Z) (pre : Z) (p : P) (m : MidBit) : bool :=
  forallb (λ x, bool_decide (from_u8 (pre + x) = p) && bool_decide (midbit p (pre + x) = m)) (seqZ 0 (mask_of p + 1)).

Lemma pattern_check_ok {P} `{EqDecision P} from_u8 midbit mask_of pre (p : P) m n :
  1 ≤ n ≤ 8 → mask_of p = 2 ^ n - 1 → is_byte pre → Z.land pre (mask_of p) = 0 →
  pattern_check from_u8 midbit mask_of pre p m = true → pattern_ok from_u8 midbit mask_of pre p m.
Proof.
  intros Hn Hm Hpre Hd Hc. split; [split; [by exists n|done]|]. intros x Hx.
  unfold pattern_check in Hc. rewrite forallb_forall in Hc.
  specialize (Hc x ltac:(apply list_elem_of_In, elem_of_seqZ; lia)). apply andb_prop in Hc as [H1 H2].
  by apply bool_decide_eq_true in H1, H2.
Qed.

Ltac byte_pattern n := apply (pattern_check_ok _ _ _ _ _ _ n); [lia|reflexivity|unfold is_byte; lia|reflexivity|reflexivity].
Abbreviation repr_pattern := (pattern_ok Repr_from_u8 Repr_midbit Repr_mask).
Abbreviation inst_pattern := (pattern_ok EncoderInst_from_u8 EncoderInst_midbit EncoderInst_mask).

Lemma indexed_pattern (b : bool) : repr_pattern (if b then 0xc0 else 0x80) INDEXED (mkMidBit None (Some b) None).
Proof. destruct b; byte_pattern 6. Qed.
Lemma post_pattern : repr_pattern 0x10 INDEXEDWITHPOSTINDEX (mkMidBit None None None).
Proof. byte_pattern 4. Qed.
Lemma name_pattern (np st : bool) : repr_pattern (0x40 + (if np then 0x20 else 0) + (if st then 0x10 else 0)) LITERALWITHINDEXING (mkMidBit (Some np) (Some st) None).
Proof. destruct np, st; byte_pattern 4. Qed.
Lemma set_cap_pattern : inst_pattern 0x20 SET_CAP (mkMidBit None None None).
Proof. byte_pattern 5. Qed.
Lemma duplicate_pattern : inst_pattern 0x00 DUPLICATE (mkMidBit None None None).
Proof. byte_pattern 5. Qed.
Lemma insert_name_pattern (b : bool) : inst_pattern (if b then 0xc0 else 0x80) INSERT_WITH_INDEX (mkMidBit None (Some b) None).
Proof. destruct b; byte_pattern 6. Qed.
Lemma insert_literal_pattern : inst_pattern 0x40 INSERT_WITH_LITERAL (mkMidBit None None (Some false)).
Proof. byte_pattern 5. Qed.

(** ** Field lines *)

Lemma Indexed_decode i b rest : 0 ≤ i ≤ USIZE_MAX →
  ReprIndex_decode QpackRepr.FirstByte (QpackFormat.Indexed_encode i b ++ rest) = Decoded (QpackRepr.Indexed (mkMidBit None (Some b) None) i) rest.
Proof.
  intros Hi. pose proof (indexed_pattern b) as Hp. unfold ReprIndex_decode, ReprIndexInner_decode.
  assert (QpackFormat.Indexed_encode i b = int_bytes i 0x3f (if b then 0xc0 else 0x80)) as ->.
  { destruct Hp as [Hp _]. destruct b; cbn [QpackFormat.Indexed_encode]; by apply Integer_encode_bytes. }
  change 0x3f with (Repr_mask INDEXED). by rewrite (index_wire _ _ _ _ _ _ i rest Hp).
Qed.

Lemma IndexedWithPost_decode i rest : 0 ≤ i ≤ USIZE_MAX →
  ReprIndex_decode QpackRepr.FirstByte (IndexedWithPost_encode i ++ rest) = Decoded (IndexedWithPostIndex i) rest.
Proof.
  intros Hi. pose proof post_pattern as Hp. unfold ReprIndex_decode, ReprIndexInner_decode, IndexedWithPost_encode.
  rewrite Integer_encode_bytes by (done || apply Hp). change 0x0f with (Repr_mask INDEXEDWITHPOSTINDEX).
  by rewrite (index_wire _ _ _ _ _ _ i rest Hp).
Qed.

Lemma IndexingWithName_wire i v h st np : 0 ≤ i ≤ USIZE_MAX → string_ok v →
  IndexingWithName_encode i v h st np = int_bytes i 0x0f (0x40 + (if np then 0x20 else 0) + (if st then 0x10 else 0)) ++ string_wire h v.
Proof.
  intros Hi Hv. destruct (name_pattern np st) as [Hp _]. unfold IndexingWithName_encode.
  destruct np, st; by apply IndexAndValue_wire.
Qed.

Lemma IndexingWithName_decode i v h st np rest : 0 ≤ i ≤ USIZE_MAX → string_ok v →
  ReprIndex_decode QpackRepr.FirstByte (IndexingWithName_encode i v h st np ++ rest) =
    Decoded (QpackRepr.LiteralWithIndexing (mkMidBit (Some np) (Some st) None) (QpackRepr.Index i) v) rest.
Proof.
  intros Hi Hv. rewrite IndexingWithName_wire, <- app_assoc by done. unfold ReprIndex_decode, ReprIndexInner_decode.
  change 0x0f with (Repr_mask LITERALWITHINDEXING). rewrite (index_wire _ _ _ _ _ _ i _ (name_pattern np st)) by done.
  unfold ReprValueString_decode. by rewrite qpack_string_wire.
Qed.

(** the field lines with an index read back what was written: the index,
    whether it is static, the permission of intermediaries and the value, plain
    or Huffman-coded, and the bytes that follow are left. *)
Theorem qpack_line_roundtrip (i : Z) (b np h : bool) (v rest : bytes)
    (Hi : 0 ≤ i ≤ USIZE_MAX) (Hv : string_ok v) :
  ReprIndex_decode QpackRepr.FirstByte (QpackFormat.Indexed_encode i b ++ rest) = Decoded (QpackRepr.Indexed (mkMidBit None (Some b) None) i) rest ∧
  ReprIndex_decode QpackRepr.FirstByte (IndexedWithPost_encode i ++ rest) = Decoded (IndexedWithPostIndex i) rest ∧
  ReprIndex_decode QpackRepr.FirstByte (IndexingWithName_encode i v h b np ++ rest) =
    Decoded (QpackRepr.LiteralWithIndexing (mkMidBit (Some np) (Some b) None) (QpackRepr.Index i) v) rest.
Proof. split_and!; [by apply Indexed_decode|by apply IndexedWithPost_decode|by apply IndexingWithName_decode]. Qed.

Lemma qpack_line_roundtrip_witness :
  ReprIndex_decode QpackRepr.FirstByte (IndexingWithName_encode 5 (bs "a=b") true true false ++ [192]) =
    Decoded (QpackRepr.LiteralWithIndexing (mkMidBit (Some false) (Some true) None) (QpackRepr.Index 5) (bs "a=b")) [192].
Proof.
  apply (qpack_line_roundtrip 5 true false true (bs "a=b") [192]); [unfold USIZE_MAX; lia|].
  apply string_ok_short; [repeat constructor; cbv; discriminate|vm_compute; lia..].
Defined.

(** ** Instructions *)

Lemma SetCap_decode c rest : 0 ≤ c ≤ USIZE_MAX →
  EncInstIndex_decode QpackRepr.FirstByte (SetCap_encode c ++ rest) = Decoded (SetCap c) rest.
Proof.
  intros Hi. pose proof set_cap_pattern as Hp. unfold EncInstIndex_decode, InstIndexInner_decode, SetCap_encode.
  rewrite Integer_encode_bytes by (done || apply Hp). change 0x1f with (EncoderInst_mask SET_CAP).
  by rewrite (index_wire _ _ _ _ _ _ c rest Hp).
Qed.

Lemma Duplicate_decode i rest : 0 ≤ i ≤ USIZE_MAX →
  EncInstIndex_decode QpackRepr.FirstByte (Duplicate_encode i ++ rest) = Decoded (Duplicate i) rest.
Proof.
  intros Hi. pose proof duplicate_pattern as Hp. unfold EncInstIndex_decode, InstIndexInner_decode, Duplicate_encode.
  rewrite Integer_encode_bytes by (done || apply Hp). change 0x1f with (EncoderInst_mask DUPLICATE).
  by rewrite (index_wire _ _ _ _ _ _ i rest Hp).
Qed.

Lemma InsertWithName_decode i v h b rest : 0 ≤ i ≤ USIZE_MAX → string_ok v →
  EncInstIndex_decode QpackRepr.FirstByte (InsertWithName_encode i v h b ++ rest) =
    Decoded (InsertWithIndex (mkMidBit None (Some b) None) (QpackRepr.Index i) v) rest.
Proof.
  intros Hi Hv. pose proof (insert_name_pattern b) as Hp. unfold EncInstIndex_decode, InstIndexInner_decode.
  assert (InsertWithName_encode i v h b = int_bytes i 0x3f (if b then 0xc0 else 0x80) ++ string_wire h v) as ->.
  { destruct Hp as [Hp _]. unfold InsertWithName_encode. destruct b; by apply IndexAndValue_wire. }
  rewrite <- app_assoc. change 0x3f with (EncoderInst_mask INSERT_WITH_INDEX). rewrite (index_wire _ _ _ _ _ _ i _ Hp) by done.
  unfold InstValueString_decode. by rewrite qpack_string_wire.
Qed.

Lemma InsertWithLiteral_decode name v rest : string_ok name → string_ok v →
  EncInstIndex_decode QpackRepr.FirstByte (InsertWithLiteral_encode name v false ++ rest) =
    Decoded (InsertWithLiteral (mkMidBit None None (Some false)) (QpackRepr.Literal name) v) rest.
Proof.
  intros Hn Hv. pose proof insert_literal_pattern as Hp. unfold EncInstIndex_decode, InstIndexInner_decode.
  assert (0 ≤ len name ≤ USIZE_MAX) as Hlen by (split; [apply len_nonneg|apply Hn]).
  assert (InsertWithLiteral_encode name v false = int_bytes (len name) 0x1f 0x40 ++ name ++ string_wire false v) as ->.
  { unfold InsertWithLiteral_encode, QpackFormat.NameAndValue_encode. rewrite Integer_encode_bytes by (done || apply Hp).
    do 2 f_equal. unfold QpackFormat.Octets_new, string_wire. cbn [string_octets]. f_equal.
    unfold QpackInteger.Integer_length, QpackInteger.Integer_encode. rewrite encode_loop_eq.
    apply encoder_int_bytes; [split; [apply len_nonneg|apply Hv]|apply (prefix_ok_len false)]. }
  rewrite <- !app_assoc. change 0x1f with (EncoderInst_mask INSERT_WITH_LITERAL). rewrite (index_wire _ _ _ _ _ _ (len name) _ Hp) by done.
  unfold InstNameAndValue_decode, QpackRepr.NameAndValue_decode.
  change (QpackRepr.LiteralString_decode _ (name ++ string_wire false v ++ rest)) with
    (QpackRepr.string_bytes_decode false (len (string_octets false name)) (string_octets false name ++ string_wire false v ++ rest)).
  rewrite qpack_string_bytes by apply Hn. unfold InstValueString_decode. by rewrite qpack_string_wire.
Qed.

(** every encoder instruction is read back, with what follows it left, when
    it is complete in the buffer; a literal name must be written plain. *)
Theorem qpack_inst_roundtrip (i : Z) (b h : bool) (name v rest : bytes)
    (Hi : 0 ≤ i ≤ USIZE_MAX) (Hn : string_ok name) (Hv : string_ok v) :
  EncInstIndex_decode QpackRepr.FirstByte (SetCap_encode i ++ rest) = Decoded (SetCap i) rest ∧
  EncInstIndex_decode QpackRepr.FirstByte (Duplicate_encode i ++ rest) = Decoded (Duplicate i) rest ∧
  EncInstIndex_decode QpackRepr.FirstByte (InsertWithName_encode i v h b ++ rest) =
    Decoded (InsertWithIndex (mkMidBit None (Some b) None) (QpackRepr.Index i) v) rest ∧
  EncInstIndex_decode QpackRepr.FirstByte (InsertWithLiteral_encode name v false ++ rest) =
    Decoded (InsertWithLiteral (mkMidBit None None (Some false)) (QpackRepr.Literal name) v) rest.
Proof.
  split_and!; [by apply SetCap_decode|by apply Duplicate_decode|by apply InsertWithName_decode|by apply InsertWithLiteral_decode].
Qed.

Lemma qpack_inst_roundtrip_witness :
  EncInstIndex_decode QpackRepr.FirstByte (InsertWithLiteral_encode (bs "x-id") (bs "1") false ++ [63]) =
    Decoded (InsertWithLiteral (mkMidBit None None (Some false)) (QpackRepr.Literal (bs "x-id")) (bs "1")) [63].
Proof.
  apply (qpack_inst_roundtrip 5 true true (bs "x-id") (bs "1") [63]); [unfold USIZE_MAX; lia|..];
    (apply string_ok_short; [repeat constructor; cbv; discriminate|vm_compute; lia..]).
Defined.

(** A Huffman-coded literal name, which is what the encoder writes, has the
    length of the plain name: the name that is read is another one. *)
Example huffman_name_misread :
  match ReprIndex_decode QpackRepr.FirstByte (IndexingWithLiteral_encode (bs "foo") (bs "bar") true false) with
  | NeedMore (QpackRepr.ReprValueString _ _ (QpackRepr.Literal n) _) => n = bs "foo="
  | _ => False
  end.
Proof. by vm_compute. Qed.

(** An instruction that a read cuts in its value is an error. *)
Example cut_instruction :
  InsertWithLiteral_encode (bs "x-id") (bs "12") false = [0x44] ++ bs "x-id" ++ [2] ++ bs "12" ∧
  EncInstIndex_decode QpackRepr.FirstByte ([0x44] ++ bs "x-id" ++ [2] ++ bs "1") = Error decompression_failed.
Proof. by vm_compute. Qed.

(** ** Field sections *)

(** A line whose name is in the static table, as the encoder writes it and as
    the decoder sees it. *)
Definition static_wire (huff : bool) (e : NameField * bytes) : bytes :=
  match static_index_of e.1 e.2 with
  | Some (IField i) => QpackFormat.Indexed_encode i true
  | Some (IFieldName i) => IndexingWithName_encode i e.2 huff true false
  | None => []
  end.
Definition static_line (e : NameField * bytes) : Prop := is_Some (static_index_of e.1 e.2).

Lemma encode_field_static enc h v ab l : static_line (h, v) → qt_queue (ls_table l) = [] →
  encode_field enc h v ab l = (push_fields (static_wire (qr_is_huffman enc) (h, v)) l, Ok None).
Proof.
  intros [r Hr] Hq. unfold encode_field, static_wire. rewrite bind_st. cbn [get_st fst snd] in *. unfold search_filed_from_table.
  unfold static_index_of in Hr |- *. fold (static_index_of h v) in Hr |- *. rewrite Hr.
  unfold qt_index. rewrite Hq. cbn [qt_index_from]. destruct r as [i|i]; by rewrite bind_st.
Qed.

Lemma encode_fields_static fuel enc ab it md l :
  (length (iter_lines it) < fuel)%nat → Forall static_line (iter_lines it) → qt_queue (ls_table l) = [] →
  encode_fields fuel enc ab it md l = (push_fields (iter_lines it ≫= static_wire (qr_is_huffman enc)) l, Ok md).
Proof.
  revert it l. induction fuel as [|fuel IH]; intros it l Hf Hs Hq; [lia|]. cbn [encode_fields]. unfold QpackFormat.PartsIter_next.
  pose proof (PartsIter_next_lines it) as Hn. destruct (HpackEncoder.PartsIter_next it) as [[[h v] it']|].
  - rewrite Hn in *. apply Forall_cons in Hs as [Hs Hs']. cbn [length] in Hf.
    rewrite bind_st, encode_field_static, IH by (done || lia). cbn [mbind list_bind].
    destruct l. unfold push_fields. cbn. by rewrite app_assoc.
  - rewrite Hn. destruct l. unfold push_fields. cbn. by rewrite app_nil_r.
Qed.

(** A section whose fields all have a static name. *)
Lemma static_section enc it track ab t inst :
  Forall static_line (iter_lines it) → qt_queue t = [] →
  iterate_encode_fields enc (Some it) track ab (mkLines t ∅ inst []) =
    (mkLines t ∅ inst ([0; 0] ++ (iter_lines it ≫= static_wire (qr_is_huffman enc))),
     Ok (track, qt_known_received_count t <? 0)).
Proof.
  intros Hs Hq. unfold iterate_encode_fields. rewrite bind_st, encode_fields_static by (done || apply iter_lines_length).
  done.
Qed.

Definition static_repr (e : NameField * bytes) : QpackRepr.Representation :=
  match static_index_of e.1 e.2 with
  | Some (IFieldName i) => QpackRepr.LiteralWithIndexing (mkMidBit (Some false) (Some true) None) (QpackRepr.Index i) e.2
  | Some (IField i) => QpackRepr.Indexed (mkMidBit None (Some true) None) i
  | None => FieldSectionPrefix 0 false 0
  end.

Lemma static_bound i h v : static_field i = Some (h, v) ∨ static_field_name i = Some h → 0 ≤ i ≤ USIZE_MAX.
Proof.
  intros H. assert (0 ≤ i < 99 ∨ ¬ 0 ≤ i < 99) as [Hi|Hi] by lia; [unfold USIZE_MAX; lia|].
  destruct (beyond_table i Hi) as [Hn Hf]. destruct H; congruence.
Qed.

Lemma static_wire_decode huff e rest : static_line e → string_ok e.2 →
  ReprIndex_decode QpackRepr.FirstByte (static_wire huff e ++ rest) = Decoded (static_repr e) rest.
Proof.
  destruct e as [h v]. unfold static_line, static_wire, static_repr. cbn [fst snd]. intros [r Hr] Hv. pose proof (qpack_static_sound h v r Hr) as H. rewrite Hr.
  destruct r as [i|i].
  - apply Indexed_decode. eapply static_bound. by left.
  - apply IndexingWithName_decode; [|done]. eapply (static_bound i h v). by right.
Qed.

Lemma static_wire_cons huff e : static_line e → string_ok e.2 → ∃ x l, static_wire huff e = x :: l.
Proof.
  intros Hs Hv. pose proof (static_wire_decode huff e [] Hs Hv) as H. rewrite app_nil_r in H.
  destruct (static_wire huff e) as [|x l]; [done|]. eauto.
Qed.

(** The message after a line. *)
Definition qpack_counted (e : NameField * bytes) : Z :=
  match static_index_of e.1 e.2 with Some (IField _) => 0 | _ => HpackDecoder.line_size e end.
Definition message_line (m : ReprMessage) (e : NameField * bytes) : ReprMessage :=
  rm_set_parts (Parts_update (E := H2Error.H2Error) e.1 e.2 (rm_parts m)).1 (rm_set_header_size (rm_header_size m + qpack_counted e) m).

Lemma update_parts_ok h v m : field_ok h v = true →
  update_parts h v m = (rm_set_parts (Parts_update (E := H2Error.H2Error) h v (rm_parts m)).1 m, Ok ()).
Proof.
  intros Hf. unfold update_parts, zoom. pose proof (Parts_update_cases (E := QpackError) h v (rm_parts m)) as H. rewrite Hf in H.
  destruct H as [p H]. rewrite H. replace (Parts_update (E := H2Error.H2Error) h v (rm_parts m)).1 with (Parts_update (E := QpackError) h v (rm_parts m)).1.
  - by rewrite H.
  - unfold Parts_update. destruct h; try done. by destruct (Headers_append _ _ _) as [? [| |]].
Qed.

(** A line is looked up, counted if it is not an index, and goes to the parts. *)
Lemma apply_static_repr d sid s e rest st :
  static_line e → is_utf8 e.2 = true → field_ok e.1 e.2 = true → rm_header_size (se_message st) + qpack_counted e ≤ sr_max s →
  apply_repr d sid s (static_repr e) rest st = (se_set_message (message_line (se_message st) e) st, Ok (s, false)).
Proof.
  destruct e as [h v], st as [blocked m]. unfold static_line, static_repr, message_line, qpack_counted. cbn [fst snd se_message]. intros [r Hr] Hu Hf Hsz.
  pose proof (qpack_static_sound h v r Hr) as H. rewrite Hr in *. destruct r as [i|i].
  - unfold apply_repr, on_message, search_indexed, zoom. cbn [mb_t]. rewrite bind_st, bind_st. cbn [se_message].
    rewrite H. cbn [ok_or mret ST_ret fst snd]. rewrite update_parts_ok by done. cbn [mret ST_ret]. rewrite Z.add_0_r. by destruct m.
  - unfold apply_repr, on_message, search_literal, zoom. rewrite bind_st, bind_st. cbn [se_message].
    unfold searcher_field. cbn [mb_t]. rewrite bind_st, H. cbn [ok_or mret ST_ret]. rewrite Hu. cbn [mret ST_ret fst snd].
    rewrite bind_st. unfold check_field_list_size. rewrite !bind_st. cbn [modify_st get_st rm_header_size rm_set_header_size].
    assert (NameField_len h = Header_len h) as -> by done. change (field_line_length (Header_len h) (len v)) with (HpackDecoder.line_size (h, v)).
    rewrite bind_st. cbn [get_st rm_header_size rm_set_header_size].
    destruct (Z.ltb_spec (sr_max s) (rm_header_size m + HpackDecoder.line_size (h, v))); [lia|]. cbn [mret ST_ret].
    by rewrite update_parts_ok.
Qed.

Definition section_size (lines : list (NameField * bytes)) : Z := foldr (λ e n, qpack_counted e + n) 0 lines.
Lemma qpack_counted_nonneg e : 0 ≤ qpack_counted e.
Proof. unfold qpack_counted. pose proof (line_size_nonneg e). destruct (static_index_of _ _) as [[|]|]; lia. Qed.
Lemma section_size_nonneg lines : 0 ≤ section_size lines.
Proof. induction lines as [|e lines IH]; [done|]. cbn. pose proof (qpack_counted_nonneg e). unfold section_size in IH. lia. Qed.

(** What is asked of a line of the section. *)
Definition section_line (e : NameField * bytes) : Prop :=
  static_line e ∧ string_ok e.2 ∧ is_utf8 e.2 = true ∧ field_ok e.1 e.2 = true.

Definition message_lines (lines : list (NameField * bytes)) (m : ReprMessage) : ReprMessage := foldl message_line m lines.
Lemma message_lines_state lines m : rm_repr_state (message_lines lines m) = rm_repr_state m ∧ rm_require_insert_count (message_lines lines m) = rm_require_insert_count m.
Proof. revert m. induction lines as [|e lines IH]; intros m; [done|]. destruct (IH (message_line m e)) as [H1 H2]. by split. Qed.
Lemma message_line_state s e m : message_line (rm_set_repr_state s m) e = rm_set_repr_state s (message_line m e).
Proof. by destruct m. Qed.

Lemma lines_loop_static huff fuel d sid s lines st :
  (S (length lines) < fuel)%nat → lines ≠ [] → Forall section_line lines →
  rm_repr_state (se_message st) = Some (QpackRepr.ReprIndex QpackRepr.FirstByte) →
  rm_header_size (se_message st) + section_size lines ≤ sr_max s →
  lines_loop fuel d sid s (lines ≫= static_wire huff) st =
    (se_set_message (rm_set_repr_state None (message_lines lines (se_message st))) st, Ok FDecoded).
Proof.
  intros Hf Hne Hl. revert fuel st Hf. induction Hl as [|e lines (Hs & Hv & Hu & Hok) Hl IH]; intros [|fuel] [blocked m] Hf Hst Hsz; [done|done|lia|].
  cbn [length se_message] in *. cbn [mbind list_bind]. cbn [lines_loop]. rewrite bind_st.
  destruct (static_wire_cons huff e Hs Hv) as (x & tail & Ex).
  unfold on_message, zoom. cbn [se_message]. unfold QpackRepr.ReprDecoder_decode. rewrite Hst. cbn [default].
  assert (∀ rest, static_wire huff e ++ rest ≠ []) as Hcons by (rewrite Ex; done).
  assert (section_size (e :: lines) = qpack_counted e + section_size lines) as Esz by done.
  pose proof (section_size_nonneg lines). cbn [ReprDecodeState_decode].
  change (fix go (l : list (NameField * bytes)) : list Z := _) with (λ l : list (NameField * bytes), l ≫= static_wire huff). cbn beta.
  set (rest := lines ≫= static_wire huff). specialize (Hcons rest).
  destruct (static_wire huff e ++ rest) as [|y l] eqn:Eb; [done|]. cbn [ReprDecodeState_decode].
  rewrite <- Eb. cbn [id ReprDecodeState_decode]. rewrite static_wire_decode by done. clear y l Eb Hcons.
  destruct lines as [|e' lines].
  - change rest with (@nil Z). cbn [se_set_message se_blocked]. rewrite bind_st, apply_static_repr; [|done..|destruct m; cbn in *; lia].
    cbn [snd]. destruct fuel as [|fuel]; [lia|]. cbn [lines_loop]. rewrite bind_st. cbn. by destruct m.
  - assert (∃ y l, rest = y :: l) as (y & l & Er).
    { apply Forall_cons in Hl as [(Hs' & Hv' & _) _]. destruct (static_wire_cons huff e' Hs' Hv') as (y & l & E').
      exists y. eexists. unfold rest. cbn [mbind list_bind]. by rewrite E'. }
    rewrite Er. cbn [se_set_message se_blocked]. rewrite bind_st, <- Er, apply_static_repr; [|done..|destruct m; cbn in *; lia].
    cbn [snd fst se_set_message se_message se_blocked]. unfold rest. rewrite IH; [|done|cbn [length] in *; lia|by destruct m|destruct m; cbn in *; lia].
    assert (rm_set_repr_state (Some (QpackRepr.ReprIndex QpackRepr.FirstByte)) m = m) as -> by (destruct m; cbn in Hst |- *; by rewrite Hst). done.
Qed.

Lemma static_lines_length huff lines : Forall section_line lines → (length lines ≤ length (lines ≫= static_wire huff))%nat.
Proof.
  induction 1 as [|e lines (Hs & Hv & _) Hl IH]; [done|]. rewrite bind_cons, length_app. cbn [length].
  destruct (static_wire_cons huff e Hs Hv) as (x & l & ->). cbn [length]. lia.
Qed.

Lemma static_lines_cons huff lines : lines ≠ [] → Forall section_line lines → ∃ x l, lines ≫= static_wire huff = x :: l.
Proof.
  intros Hne Hl. destruct Hl as [|e lines (Hs & Hv & _) Hl]; [done|]. rewrite bind_cons.
  destruct (static_wire_cons huff e Hs Hv) as (x & l & ->). cbn. eauto.
Qed.

(** The prefix without dynamic references. *)
Lemma lines_loop_prefix fuel d sid s x l blocked m : rm_repr_state m = None → 0 ≤ qt_insert_count (sr_table s) →
  lines_loop (S fuel) d sid s (0 :: 0 :: x :: l) (mkSection blocked m) =
  lines_loop fuel d sid (mkSearcher (sr_max s) (sr_table s) 0) (x :: l)
    (mkSection blocked (rm_set_counts 0 0 (rm_set_repr_state (Some (QpackRepr.ReprIndex QpackRepr.FirstByte)) m))).
Proof.
  intros Hm Hc. cbn [lines_loop]. rewrite bind_st.
  assert (on_message (zoom rm_repr_state rm_set_repr_state (QpackRepr.ReprDecoder_decode (0 :: 0 :: x :: l))) (mkSection blocked m) =
    (mkSection blocked (rm_set_repr_state (Some (QpackRepr.ReprIndex QpackRepr.FirstByte)) m), Ok (Some (FieldSectionPrefix 0 false 0, x :: l)))) as ->.
  { unfold on_message, zoom. cbn [se_message]. by rewrite Hm. }
  set (m' := rm_set_repr_state _ m). rewrite bind_st.
  assert (apply_repr d sid s (FieldSectionPrefix 0 false 0) (x :: l) (mkSection blocked m') =
    (mkSection blocked (rm_set_counts 0 0 m'), Ok (mkSearcher (sr_max s) (sr_table s) 0, false))) as ->; [|done].
  unfold apply_repr. rewrite bind_st. cbn [required_insert_count Z.eqb lift_res]. rewrite bind_st.
  change (section_base 0 false 0 (mkSection blocked m')) with (mkSection blocked m', Ok (E := QpackError) 0). cbv iota. rewrite bind_st.
  unfold on_message, zoom, modify_st. cbn [se_message se_set_message se_blocked]. rewrite bind_st. cbn [get_st sr_table].
  by destruct (Z.ltb_spec (qt_insert_count (sr_table s)) 0); [lia|].
Qed.

(** A whole section in one buffer, for a stream that is not known yet. *)
Lemma decode_static_section huff d sid lines :
  qd_blocked d !! sid = None → qd_streams d !! sid = None → 0 ≤ qt_insert_count (qd_table d) →
  lines ≠ [] → Forall section_line lines → section_size lines ≤ qd_max_field_section_size d →
  decode_repr ([0; 0] ++ (lines ≫= static_wire huff)) sid d =
    (qd_set_streams (<[sid := rm_set_repr_state None (message_lines lines (rm_set_repr_state (Some (QpackRepr.ReprIndex QpackRepr.FirstByte)) ReprMessage_new))]> (qd_streams d)) d, Ok FDecoded).
Proof.
  intros Hb Hst Hc Hne Hl Hsz. unfold decode_repr. rewrite bind_st. cbn [get_st]. rewrite Hb, Hst. cbn [default rm_remaining ReprMessage_new].
  destruct (static_lines_cons huff lines Hne Hl) as (x & l & E). pose proof (static_lines_length huff lines Hl) as Hlen.
  rewrite E in *. cbn [app decode_buffered_repr]. unfold loop_fuel.
  change (rm_remaining (id ReprMessage_new)) with (@None bytes). cbv iota.
  change (id ReprMessage_new) with ReprMessage_new. cbn [id ReprMessage_new rm_remaining].
  rewrite lines_loop_prefix by done. rewrite <- E.
  rewrite (lines_loop_static huff); [|rewrite E; cbn [length] in *; lia|done..].
  rewrite !bind_st. cbn [put_st modify_st]. rewrite bind_st. destruct d. cbn. unfold modify_st. rewrite insert_delete_eq. done.
Qed.

Lemma message_lines_parts lines m : rm_parts (message_lines lines m) = fold_parts lines (rm_parts m).
Proof. revert m. induction lines as [|e lines IH]; intros m; [done|]. change (message_lines (e :: lines) m) with (message_lines lines (message_line m e)). by rewrite IH. Qed.

(** The encoder's side, with an empty dynamic table. *)
Lemma update_cap_empty e : qt_queue (qe_table e) = [] → from_option (Z.le 0) True (qe_capacity_to_update e) →
  ∃ e', update_max_dynamic_table_cap e = (e', Ok (from_option SetCap_encode [] (qe_capacity_to_update e))) ∧
    qt_queue (qe_table e') = [] ∧ qe_capacity_to_update e' = None ∧ qe_is_huffman e' = qe_is_huffman e ∧ qe_field_iter e' = qe_field_iter e.
Proof.
  intros Hq Hc. unfold update_max_dynamic_table_cap. rewrite bind_st. cbn [get_st].
  destruct (qe_capacity_to_update e) as [c|] eqn:Ec; [|by exists e]. cbn [from_option] in *. rewrite bind_st.
  unfold on_qe_table, zoom, update_capacity. rewrite bind_st. cbn [get_st].
  destruct (Z.ltb_spec c (qt_capacity (qe_table e))).
  - rewrite bind_st. unfold can_evict. destruct (Z.ltb_spec (qt_capacity (qe_table e)) (qt_capacity (qe_table e) - c)); [lia|].
    rewrite Hq. cbn [lift_res]. rewrite bind_st. eexists. split; [reflexivity|]. by destruct e.
  - rewrite bind_st. eexists. split; [reflexivity|]. by destruct e.
Qed.

Lemma encode_static e pseudo order sid :
  qt_queue (qe_table e) = [] → from_option (Z.le 0) True (qe_capacity_to_update e) → Forall static_line (parts_lines pseudo order) →
  ∃ e', qe_encode sid (qe_set_parts pseudo order e) =
    (e', Ok ([0; 0] ++ (parts_lines pseudo order ≫= static_wire (qe_is_huffman e)), from_option SetCap_encode [] (qe_capacity_to_update e))) ∧
    qt_queue (qe_table e') = [] ∧ qe_capacity_to_update e' = None ∧ qe_is_huffman e' = qe_is_huffman e.
Proof.
  intros Hq Hc Hl. unfold qe_encode. rewrite bind_st.
  destruct (update_cap_empty (qe_set_parts pseudo order e)) as (e1 & -> & Hq1 & Hcap & Hh & Hi); [done..|].
  rewrite bind_st. cbn [get_st]. rewrite Hi. cbn [qe_field_iter qe_set_parts qe_set_iter].
  unfold QpackFormat.PartsIter_new. rewrite static_section by done. cbn [qr_is_huffman]. rewrite Hh.
  eexists. split; [reflexivity|]. by destruct e1.
Qed.

(** The decoder's side: the parts, and nothing to acknowledge. *)
Lemma decode_finish_static huff d pseudo m order sid :
  order ≡ₚ map_to_list m → headers_inv m → map_Forall (λ _, value_ok) m → parts_lines pseudo order ≠ [] →
  Forall (λ e, static_line e ∧ string_ok e.2 ∧ is_utf8 e.2 = true) (parts_lines pseudo order) →
  qd_blocked d !! sid = None → qd_streams d !! sid = None → 0 ≤ qt_insert_count (qd_table d) →
  section_size (parts_lines pseudo order) ≤ qd_max_field_section_size d →
  ∃ d' d'', decode_repr ([0; 0] ++ (parts_lines pseudo order ≫= static_wire huff)) sid d = (d', Ok FDecoded) ∧
    qd_finish sid d' = (d'', Ok (mkParts pseudo (joined <$> m), None)) ∧ d'' = qd_set_streams (delete sid (qd_streams d)) d.
Proof.
  intros Ho Hi Hv Hne Hl Hb Hs Hn Hsz. do 2 eexists. split.
  - apply decode_static_section; [done..| |done].
    pose proof (parts_lines_field_ok order pseudo m Ho Hi Hv) as Hf. pose proof (proj2 (Forall_and _ _) (conj Hl Hf)) as Hall.
    eapply Forall_impl; [exact Hall|]. intros x [(? & ? & ?) ?]. by split_and!.
  - unfold qd_finish. rewrite bind_st. cbn [get_st qd_streams qd_set_streams]. rewrite lookup_insert_eq.
    rewrite bind_st. cbn [put_st rm_repr_state rm_set_repr_state rm_require_insert_count rm_parts].
    destruct (message_lines_state (parts_lines pseudo order) (rm_set_repr_state (Some (QpackRepr.ReprIndex QpackRepr.FirstByte)) ReprMessage_new)) as [_ ->].
    cbn [Z.ltb Z.compare rm_set_repr_state rm_require_insert_count ReprMessage_new mret ST_ret].
    rewrite message_lines_parts, <- (fold_parts_order order pseudo m) by done. split; [done|]. cbn. by rewrite delete_insert_eq.
Qed.

(** a header block whose field names are all in the static table, encoded
    with an empty dynamic table, is decoded in one read to those [Parts], the
    values of a name joined, by any decoder that does not know the stream yet;
    nothing has to be acknowledged. *)
Theorem qpack_roundtrip (e : QpackEncoder) (d : QpackDecoder) (pseudo : PseudoHeaders) (m : Headers) (order : list (bytes * HeaderValue)) (sid : Z)
    (Hq : qt_queue (qe_table e) = []) (Hc : from_option (Z.le 0) True (qe_capacity_to_update e))
    (Ho : order ≡ₚ map_to_list m) (Hi : headers_inv m) (Hv : map_Forall (λ _, value_ok) m)
    (Hne : parts_lines pseudo order ≠ [])
    (Hl : Forall (λ e, static_line e ∧ string_ok e.2 ∧ is_utf8 e.2 = true) (parts_lines pseudo order))
    (Hb : qd_blocked d !! sid = None) (Hs : qd_streams d !! sid = None) (Hn : 0 ≤ qt_insert_count (qd_table d))
    (Hsz : section_size (parts_lines pseudo order) ≤ qd_max_field_section_size d) :
  ∃ e' fields inst d',
    qe_encode sid (qe_set_parts pseudo order e) = (e', Ok (fields, inst)) ∧
    decode_repr fields sid d = (d', Ok FDecoded) ∧
    (qd_finish sid d').2 = Ok (mkParts pseudo (joined <$> m), None).
Proof.
  destruct (encode_static e pseudo order sid Hq Hc) as (e' & He & _).
  { eapply Forall_impl; [exact Hl|]. by intros x [? _]. }
  destruct (decode_finish_static (qe_is_huffman e) d pseudo m order sid) as (d' & d'' & Hd & Hfin & _); [done..|].
  do 4 eexists. split; [exact He|]. split; [exact Hd|]. by rewrite Hfin.
Qed.

Definition user_agent : HeaderValue := mkHeaderValue [bs "ylong"] false.
Definition user_agent_map : Headers := <[bs "user-agent" := user_agent]> ∅.

Lemma qpack_roundtrip_witness :
  ∃ e' fields inst d',
    qe_encode 4 (qe_set_parts get_request [(bs "user-agent", user_agent)] QpackEncoder_default) = (e', Ok (fields, inst)) ∧
    decode_repr fields 4 (QpackDecoder_new 0 0) = (d', Ok FDecoded) ∧
    (qd_finish 4 d').2 = Ok (mkParts get_request (joined <$> user_agent_map), None).
Proof.
  apply (qpack_roundtrip QpackEncoder_default (QpackDecoder_new 0 0) get_request user_agent_map [(bs "user-agent", user_agent)] 4).
  1,2: done.
  - unfold user_agent_map. by rewrite map_to_list_insert, map_to_list_empty by done.
  - intros n v. unfold user_agent_map. rewrite lookup_insert_Some. intros [[<- <-]|[_ H]]; [by vm_compute|done].
  - unfold user_agent_map. apply map_Forall_insert_2; [|apply map_Forall_empty]. by repeat constructor.
  - done.
  - repeat (apply Forall_cons; split); [..|by apply Forall_nil];
      (split; [eexists; vm_compute; reflexivity|]; split; [|by vm_compute];
       apply string_ok_short; [repeat constructor; cbv; discriminate|vm_compute; lia..]).
  - done.
  - done.
  - done.
  - by vm_compute.
Defined.

(** ** Decoder instructions *)

Lemma dec_inst_first x : 0 ≤ x ≤ 63 → DecoderInst_from_u8 (0 + x) = Ok INSERT_COUNT_INCREMENT.
Proof.
  intros Hx. assert (forallb (λ x, match DecoderInst_from_u8 x with Ok INSERT_COUNT_INCREMENT => true | _ => false end) (seqZ 0 64) = true) as H by (vm_compute; reflexivity).
  rewrite forallb_forall in H. specialize (H x ltac:(apply list_elem_of_In, elem_of_seqZ; lia)). rewrite Z.add_0_l.
  by destruct (DecoderInst_from_u8 x) as [[]| |].
Qed.

Lemma prefix_ok_count : prefix_ok 0x3f 0.
Proof. split; [exists 6; lia|]. split; [unfold is_byte; lia|reflexivity]. Qed.

Lemma count_increment_decode n : 0 ≤ n ≤ USIZE_MAX →
  DecInstDecoder_decode (QpackInteger.Integer_encode (QpackInteger.Integer_index 0 n 0x3f)) None = (None, Ok (Some (InsertCountIncrement n, []))).
Proof.
  intros Hn. pose proof prefix_ok_count as Hp. rewrite Integer_encode_bytes by done.
  destruct (Integer_first_byte n 0x3f 0 [] Hn Hp) as (x & tail & -> & Hx & Hd).
  unfold DecInstDecoder_decode. cbn [default id]. unfold DecInstIndex_decode, InstFirstByte_decode. rewrite dec_inst_first by done.
  cbn [mbind result_mbind result_bind DecoderInst_mask]. destruct (QpackInteger.first_byte _ _) as [j|d].
  - by destruct Hd as [-> ->].
  - rewrite app_nil_r in Hd. unfold InstTrailingBytes_decode. by rewrite (proj1 Hd).
Qed.

(** an Insert Count Increment of [n] raises the received count by [n - 1]
    only, and the peer can stop the client with it: an increment of 0, or one
    that reaches the insert count, as any does while nothing was inserted, is
    a panic and not the error that RFC 9204 asks for. *)
Theorem qpack_increment_panics (order : gset Z → list Z) (n : Z) (e : QpackEncoder)
    (Hn : 0 ≤ n ≤ USIZE_MAX) (Hs : qe_inst_state e = None) :
  let '(e', r) := qe_decode_ins order (QpackInteger.Integer_encode (QpackInteger.Integer_index 0 n 0x3f)) e in
  let known := qt_known_received_count (qe_table e) in
  if (n =? 0) || (qt_insert_count (qe_table e) <? known + n) then r = Panic
  else r = Ok () ∧ qt_known_received_count (qe_table e') = known + (n - 1).
Proof.
  unfold qe_decode_ins. set (fuel := S (length _)). cbn [dec_ins_loop]. rewrite bind_st. unfold zoom at 1. rewrite Hs, count_increment_decode by done.
  rewrite bind_st. unfold apply_dec_inst, increase_insert_count. rewrite bind_st. unfold on_qe_table, zoom, increase_known_receive_count.
  rewrite bind_st. cbn [get_st]. destruct (Z.ltb_spec n 1); [by destruct (Z.eqb_spec n 0); [|lia]|].
  destruct (Z.eqb_spec n 0); [lia|]. cbn [orb]. rewrite bind_st. cbn [put_st qe_set_inst_state qe_table].
  set (k := qt_known_received_count (qe_table e)). set (c := qt_insert_count (qe_table e)).
  destruct (Z.ltb_spec (k + (n - 1)) c), (Z.ltb_spec c (k + n)); try lia; [|done].
  cbn [mret ST_ret]. destruct e; by split.
Qed.

Lemma qpack_increment_panics_witness : (qe_decode_ins elements [1] QpackEncoder_default).2 = Panic.
Proof.
  assert (1 ≤ USIZE_MAX) by (unfold USIZE_MAX; lia).
  pose proof (qpack_increment_panics elements 1 QpackEncoder_default ltac:(lia) eq_refl) as H1.
  change (QpackInteger.Integer_encode (QpackInteger.Integer_index 0 1 0x3f)) with [1] in H1.
  destruct (qe_decode_ins elements [1] QpackEncoder_default) as [e' r]. exact H1.
Defined.

(** ** Sections in several reads *)

Definition two_lines : list (NameField * bytes) := [(Method, bs "GET"); (Scheme, bs "https")].
Definition run_reads (reads : list bytes) : QpackDecoder :=
  fold_left (λ d buf, (decode_repr buf 0 d).1) reads (QpackDecoder_new 0 0).

(** Cut between two lines: the second read begins with a field line, but is
    taken for a prefix, and the section never ends. *)
Example section_cut_at_line :
  two_lines ≫= static_wire true = [209; 215] ∧
  (qd_finish 0 (run_reads [[0; 0; 209; 215]])).2 = Ok (mkParts (mkPseudo None (Some (bs "GET")) None (Some (bs "https")) None) ∅, None) ∧
  (qd_finish 0 (run_reads [[0; 0; 209]; [215]])).2 = Err decompression_failed.
Proof. by vm_compute. Qed.

(** Cut inside the prefix: what was read of it is forgotten. *)
Example section_cut_in_prefix :
  (qd_finish 0 (run_reads [[0]; [0; 209; 215]])).2 = Err decompression_failed.
Proof. by vm_compute. Qed.
