(* ===== verification/H3Frame.v ===== *)
(** * HTTP/3 frames and streams

    Models [src/ylong_http/src/h3/frame.rs] and [h3/stream.rs]: frames with their
    payloads, settings, and what the decoder of a stream gives back.  [Parts] are
    those of [Parts], which HTTP/3 copies. *)

From S2P Require Import Prelude Headers Parts.
#[local] Open Scope Z_scope.

Definition DATA_FRAME_TYPE : Z := 0x0.
Definition HEADERS_FRAME_TYPE : Z := 0x1.
Definition CANCEL_PUSH_FRAME_TYPE : Z := 0x3.
Definition SETTINGS_FRAME_TYPE : Z := 0x4.
Definition PUSH_PROMISE_FRAME_TYPE : Z := 0x5.
Definition GOAWAY_FRAME_TYPE : Z := 0x7.
Definition MAX_PUSH_ID_FRAME_TYPE : Z := 0xD.
Definition SETTING_QPACK_MAX_TABLE_CAPACITY : Z := 0x1.
Definition SETTING_MAX_FIELD_SECTION_SIZE : Z := 0x6.
Definition SETTING_QPACK_BLOCKED_STREAMS : Z := 0x7.
Definition SETTING_ENABLE_CONNECT_PROTOCOL : Z := 0x8.
Definition SETTING_H3_DATAGRAM : Z := 0x33.

Record Settings := mkSettings {
  se_max_field_section_size : option Z; se_qpack_max_table_capacity : option Z; se_qpack_blocked_streams : option Z;
  se_connect_protocol_enabled : option Z; se_h3_datagram : option Z; se_additional : option (list (Z * Z)) }.
Definition Settings_default : Settings := mkSettings None None None None None None.

Definition set_max_field_section_size (v : Z) (s : Settings) : Settings :=
  mkSettings (Some v) (se_qpack_max_table_capacity s) (se_qpack_blocked_streams s) (se_connect_protocol_enabled s) (se_h3_datagram s) (se_additional s).
Definition set_qpack_max_table_capacity (v : Z) (s : Settings) : Settings :=
  mkSettings (se_max_field_section_size s) (Some v) (se_qpack_blocked_streams s) (se_connect_protocol_enabled s) (se_h3_datagram s) (se_additional s).
Definition set_qpack_block_stream (v : Z) (s : Settings) : Settings :=
  mkSettings (se_max_field_section_size s) (se_qpack_max_table_capacity s) (Some v) (se_connect_protocol_enabled s) (se_h3_datagram s) (se_additional s).
Definition set_connect_protocol_enabled (v : Z) (s : Settings) : Settings :=
  mkSettings (se_max_field_section_size s) (se_qpack_max_table_capacity s) (se_qpack_blocked_streams s) (Some v) (se_h3_datagram s) (se_additional s).
Definition set_h3_datagram (v : Z) (s : Settings) : Settings :=
  mkSettings (se_max_field_section_size s) (se_qpack_max_table_capacity s) (se_qpack_blocked_streams s) (se_connect_protocol_enabled s) (Some v) (se_additional s).
Definition set_additional (v : list (Z * Z)) (s : Settings) : Settings :=
  mkSettings (se_max_field_section_size s) (se_qpack_max_table_capacity s) (se_qpack_blocked_streams s) (se_connect_protocol_enabled s) (se_h3_datagram s) (Some v).

(** [Payload], with the fields of the structures in its variants; [ins] are the
    instructions that decoding the headers produced. *)
Inductive Payload :=
  | PHeaders (parts : Parts) (ins : option bytes)
  | PData (data : bytes)
  | PSettings (settings : Settings)
  | PCancelPush (push_id : Z)
  | PPushPromise (push_id : Z) (parts : Parts) (ins : option bytes)
  | PGoaway (id : Z)
  | PMaxPushId (push_id : Z)
  | PUnknown (raw_type length : Z).

Record Frame := mkFrame { fr_ty : Z; fr_payload : Payload }.

(** [FrameKind], [Frames] and [StreamMessage] of [stream.rs]. *)
Inductive FrameKind := FComplete (f : Frame) | FPartial | FBlocked.
Definition Frames : Type := list FrameKind.

Inductive StreamMessage :=
  | MRequest (frames : Frames)
  | MControl (frames : Frames)
  | MPush (push_id : Z) (frames : Frames)
  | MQpackEncoder (unblocked : list Z)
  | MQpackDecoder (inst : bytes)
  | MUnknown
  | MWaitingMore.

(** [is_bidirectional] of [h3/mod.rs]. *)
Definition is_bidirectional (id : Z) : bool := Z.land id 0x02 =? 0.
