(* ===== verification/H3Encoder.v ===== *)
(** * The HTTP/3 frame encoder

    Models [src/ylong_http/src/h3/encoder.rs]: one frame at a time on each
    stream, written into the caller's buffers over as many calls as it takes.
    The buffers are state: [encode] fills them and returns how much it wrote. *)

From S2P Require Import Prelude Headers Parts H3Error Varint QpackEncoder H3Frame.
#[local] Open Scope Z_scope.

(** ** State *)

Inductive FrameEncoderState :=
  | Idle | FrameComplete
  | EncodingHeadersFrame | EncodingHeadersPayload
  | EncodingDataFrame | EncodingDataPayload
  | EncodingCancelPushFrame
  | EncodingSettingsFrame | EncodingSettingsPayload
  | EncodingGoawayFrame
  | EncodingMaxPushIdFrame.

(** [EncHeaders], with the two vectors of its [EncodeMessage]. *)
Record EncHeaders := mkEncHeaders { eh_fields : bytes; eh_inst : bytes; eh_repr_offset : Z; eh_inst_offset : Z }.
Definition remaining_repr (h : EncHeaders) : Z := len (eh_fields h) - eh_repr_offset h.
Definition remaining_inst (h : EncHeaders) : Z := len (eh_inst h) - eh_inst_offset h.
Definition repr_offset_inc (n : Z) (h : EncHeaders) : EncHeaders := mkEncHeaders (eh_fields h) (eh_inst h) (eh_repr_offset h + n) (eh_inst_offset h).
Definition inst_offset_inc (n : Z) (h : EncHeaders) : EncHeaders := mkEncHeaders (eh_fields h) (eh_inst h) (eh_repr_offset h) (eh_inst_offset h + n).

Record EncodedH3Stream := mkEncStream {
  es_stream_id : Z; es_headers_message : option EncHeaders; es_current_frame : option Frame; es_state : FrameEncoderState; es_payload_offset : Z }.
Definition EncodedH3Stream_new (stream_id : Z) : EncodedH3Stream := mkEncStream stream_id None None Idle 0.

Definition es_set_headers (h : option EncHeaders) (s : EncodedH3Stream) : EncodedH3Stream :=
  mkEncStream (es_stream_id s) h (es_current_frame s) (es_state s) (es_payload_offset s).
Definition es_set_frame (f : option Frame) (s : EncodedH3Stream) : EncodedH3Stream :=
  mkEncStream (es_stream_id s) (es_headers_message s) f (es_state s) (es_payload_offset s).
Definition es_set_state (st : FrameEncoderState) (s : EncodedH3Stream) : EncodedH3Stream :=
  mkEncStream (es_stream_id s) (es_headers_message s) (es_current_frame s) st (es_payload_offset s).
Definition es_set_offset (n : Z) (s : EncodedH3Stream) : EncodedH3Stream :=
  mkEncStream (es_stream_id s) (es_headers_message s) (es_current_frame s) (es_state s) n.

Record FrameEncoder := mkFrameEncoder { fe_qpack_encoder : QpackEncoder; fe_streams : gmap Z EncodedH3Stream }.
Definition FrameEncoder_default : FrameEncoder := mkFrameEncoder QpackEncoder_default ∅.

(** What a call of [encode] works on: the stream, the QPACK encoder and the two
    buffers. *)
Record EncCtx := mkEncCtx { ec_stream : EncodedH3Stream; ec_qpack : QpackEncoder; ec_frame_buf : bytes; ec_inst_buf : bytes }.
Definition ec_set_stream (s : EncodedH3Stream) (c : EncCtx) : EncCtx := mkEncCtx s (ec_qpack c) (ec_frame_buf c) (ec_inst_buf c).
Definition ec_set_qpack (q : QpackEncoder) (c : EncCtx) : EncCtx := mkEncCtx (ec_stream c) q (ec_frame_buf c) (ec_inst_buf c).
Definition ec_set_frame_buf (b : bytes) (c : EncCtx) : EncCtx := mkEncCtx (ec_stream c) (ec_qpack c) b (ec_inst_buf c).
Definition ec_set_inst_buf (b : bytes) (c : EncCtx) : EncCtx := mkEncCtx (ec_stream c) (ec_qpack c) (ec_frame_buf c) b.

Abbreviation EC := (ST EncCtx H3Error).
Definition set_state (st : FrameEncoderState) : EC () := modify_st (λ c, ec_set_stream (es_set_state st (ec_stream c)) c).

(** [encode_var_integer] on [frame_buf[off..]]. *)
Definition put_varint (off v : Z) : EC Z :=
  c ← get_st;
  match encode_var_integer v (dropZ off (ec_frame_buf c)) with
  | Ok (b, n) => _ ← put_st (ec_set_frame_buf (takeZ off (ec_frame_buf c) ++ b) c); mret n
  | Err e => throw e
  | Panic => panic
  end.

(** [copy_from_slice] to the front of [buf[off..]]. *)
Definition copy_at (off : Z) (data buf : bytes) : bytes := takeZ off buf ++ data ++ dropZ (off + len data) buf.

Definition current_frame : EC Frame :=
  c ← get_st;
  match es_current_frame (ec_stream c) with Some f => mret f | None => throw (Encode NoCurrentFrame) end.
Definition wrong_type {A} : EC A := throw (Encode WrongTypeFrame).

(** ** Frames *)

Definition encode_frame_type : EC Z := f ← current_frame; put_varint 0 (fr_ty f).

Definition encode_data_len (off : Z) : EC Z :=
  f ← current_frame;
  match fr_payload f with PData d => put_varint off (len d) | _ => wrong_type end.

Definition encode_data_payload (off : Z) : EC Z :=
  f ← current_frame;
  match fr_payload f with
  | PData data =>
      c ← get_st;
      let s := ec_stream c in
      let buf_size := len (ec_frame_buf c) - off in
      let remaining := len data - es_payload_offset s in
      if remaining <=? buf_size then
        _ ← put_st (ec_set_frame_buf (copy_at off (dropZ (es_payload_offset s) data) (ec_frame_buf c))
                     (ec_set_stream (es_set_state FrameComplete (es_set_offset 0 s)) c));
        mret remaining
      else
        _ ← put_st (ec_set_frame_buf (copy_at off (takeZ buf_size (dropZ (es_payload_offset s) data)) (ec_frame_buf c))
                     (ec_set_stream (es_set_offset (es_payload_offset s + buf_size) s) c));
        mret buf_size
  | _ => wrong_type
  end.

(** [encode_cancel_push], [encode_goaway] and [encode_max_push_id]: the size
    that is returned is that of the identifier, without its length. *)
Definition encode_id (off id : Z) : EC Z :=
  n ← lift_res (varint_len id);
  size ← put_varint off n;
  _ ← set_state FrameComplete;
  put_varint (off + size) id.
Definition encode_cancel_push (off : Z) : EC Z :=
  f ← current_frame; match fr_payload f with PCancelPush id => encode_id off id | _ => wrong_type end.
Definition encode_goaway (off : Z) : EC Z :=
  f ← current_frame; match fr_payload f with PGoaway id => encode_id off id | _ => wrong_type end.
Definition encode_max_push_id (off : Z) : EC Z :=
  f ← current_frame; match fr_payload f with PMaxPushId id => encode_id off id | _ => wrong_type end.

(** The settings in the order in which they are written. *)
Definition settings_fixed (s : Settings) : list (Z * Z) :=
  from_option (λ v, [(SETTING_MAX_FIELD_SECTION_SIZE, v)]) [] (se_max_field_section_size s) ++
  from_option (λ v, [(SETTING_ENABLE_CONNECT_PROTOCOL, v)]) [] (se_connect_protocol_enabled s) ++
  from_option (λ v, [(SETTING_QPACK_MAX_TABLE_CAPACITY, v)]) [] (se_qpack_max_table_capacity s) ++
  from_option (λ v, [(SETTING_QPACK_BLOCKED_STREAMS, v)]) [] (se_qpack_blocked_streams s) ++
  from_option (λ v, [(SETTING_H3_DATAGRAM, v)]) [] (se_h3_datagram s).
Definition settings_list (s : Settings) : list (Z * Z) := settings_fixed s ++ default [] (se_additional s).

Fixpoint put_settings (off written : Z) (l : list (Z * Z)) : EC Z :=
  match l with
  | [] => mret written
  | (key, value) :: l =>
      n ← put_varint (off + written) key; let written := written + n in
      n ← put_varint (off + written) value; put_settings off (written + n) l
  end.

Fixpoint settings_size (written : Z) (l : list (Z * Z)) : result H3Error Z :=
  match l with
  | [] => Ok written
  | (key, value) :: l => n ← varint_len key; k ← varint_len value; settings_size (written + n + k) l
  end.

Definition encode_settings_len (off : Z) : EC Z :=
  f ← current_frame;
  match fr_payload f with
  | PSettings s =>
      written ← lift_res (settings_size 0 (settings_fixed s));
      if 50 <? len (default [] (se_additional s)) then throw (Encode TooManySettings)
      else written ← lift_res (settings_size written (default [] (se_additional s))); put_varint off written
  | _ => wrong_type
  end.

Definition encode_settings_payload (off : Z) : EC Z :=
  f ← current_frame;
  match fr_payload f with
  | PSettings s => _ ← set_state FrameComplete; put_settings off 0 (settings_list s)
  | _ => wrong_type
  end.

(** [encode_headers_repr] and [encode_qpack_inst]. *)
Definition encode_headers_repr (off : Z) : EC Z :=
  c ← get_st;
  match es_headers_message (ec_stream c) with
  | Some h =>
      let repr_size := remaining_repr h in
      let cap := len (ec_frame_buf c) - off in
      let n := if repr_size <=? cap then repr_size else cap in
      _ ← put_st (ec_set_frame_buf (copy_at off (takeZ n (dropZ (eh_repr_offset h) (eh_fields h))) (ec_frame_buf c))
                   (ec_set_stream (es_set_headers (Some (repr_offset_inc n h)) (ec_stream c)) c));
      mret n
  | None => mret 0
  end.
Definition encode_qpack_inst : EC Z :=
  c ← get_st;
  match es_headers_message (ec_stream c) with
  | Some h =>
      let inst_size := remaining_inst h in
      let cap := len (ec_inst_buf c) in
      let n := if inst_size <=? cap then inst_size else cap in
      _ ← put_st (ec_set_inst_buf (copy_at 0 (takeZ n (dropZ (eh_inst_offset h) (eh_inst h))) (ec_inst_buf c))
                   (ec_set_stream (es_set_headers (Some (inst_offset_inc n h)) (ec_stream c)) c));
      mret n
  | None => mret 0
  end.
Definition encode_headers_repr_and_inst (off : Z) : EC (Z * Z) :=
  repr_writen ← encode_headers_repr off;
  inst_writen ← encode_qpack_inst;
  c ← get_st;
  _ ← match es_headers_message (ec_stream c) with
      | Some h =>
          if (remaining_repr h =? 0) && (remaining_inst h =? 0) then
            modify_st (λ c, ec_set_stream (es_set_headers None (es_set_state FrameComplete (ec_stream c))) c)
          else mret ()
      | None => mret ()
      end;
  mret (repr_writen, inst_writen).

(** The QPACK encoder does not fail: its errors are unreachable here. *)
Definition qpack_encode (stream_id : Z) : EC (bytes * bytes) :=
  c ← get_st;
  match qe_encode stream_id (ec_qpack c) with
  | (q, Ok m) => _ ← put_st (ec_set_qpack q c); mret m
  | (_, _) => panic
  end.

Definition encode_headers_with_qpack (off : Z) : EC (Z * Z) :=
  c ← get_st;
  match es_headers_message (ec_stream c) with
  | None =>
      m ← qpack_encode (es_stream_id (ec_stream c));
      _ ← modify_st (λ c, ec_set_stream (es_set_headers (Some (mkEncHeaders m.1 m.2 0 0)) (ec_stream c)) c);
      size ← put_varint off (len m.1);
      r ← encode_headers_repr_and_inst (off + size);
      mret (r.1 + size, r.2)
  | Some _ => encode_headers_repr_and_inst off
  end.
Definition encode_headers_payload (off : Z) : EC (Z * Z) :=
  f ← current_frame;
  match fr_payload f with PHeaders _ _ => encode_headers_with_qpack off | _ => wrong_type end.

(** ** [encode] *)

(** One turn of the loop: [inl] the bytes of the frame so far, [inr] what is
    returned. *)
Definition encode_turn (frame_bytes : Z) : EC (Z + (Z * Z)) :=
  c ← get_st;
  match es_state (ec_stream c) with
  | Idle => mret (inr (frame_bytes, 0))
  | FrameComplete => mret (inr (frame_bytes, 0))
  | EncodingHeadersFrame =>
      n ← encode_frame_type; _ ← set_state EncodingHeadersPayload; mret (inl (frame_bytes + n))
  | EncodingHeadersPayload => r ← encode_headers_payload frame_bytes; mret (inr (r.1 + frame_bytes, r.2))
  | EncodingDataFrame =>
      n ← encode_frame_type; let frame_bytes := frame_bytes + n in
      n ← encode_data_len frame_bytes; _ ← set_state EncodingDataPayload; mret (inl (frame_bytes + n))
  | EncodingDataPayload => n ← encode_data_payload frame_bytes; mret (inr (n + frame_bytes, 0))
  | EncodingCancelPushFrame =>
      n ← encode_frame_type; let frame_bytes := frame_bytes + n in
      n ← encode_cancel_push frame_bytes; mret (inr (n + frame_bytes, 0))
  | EncodingSettingsFrame =>
      n ← encode_frame_type; let frame_bytes := frame_bytes + n in
      n ← encode_settings_len frame_bytes; _ ← set_state EncodingSettingsPayload; mret (inl (frame_bytes + n))
  | EncodingSettingsPayload => n ← encode_settings_payload frame_bytes; mret (inr (n + frame_bytes, 0))
  | EncodingGoawayFrame =>
      n ← encode_frame_type; let frame_bytes := frame_bytes + n in
      n ← encode_goaway frame_bytes; mret (inr (n + frame_bytes, 0))
  | EncodingMaxPushIdFrame =>
      n ← encode_frame_type; let frame_bytes := frame_bytes + n in
      n ← encode_max_push_id frame_bytes; mret (inr (n + frame_bytes, 0))
  end.

(** A frame is begun in one turn and ended, or left, in the next. *)
Fixpoint encode_turns (fuel : nat) (frame_bytes : Z) : EC (Z * Z) :=
  match fuel with
  | O => panic
  | S fuel =>
      c ← get_st;
      if frame_bytes <? len (ec_frame_buf c) then
        r ← encode_turn frame_bytes;
        match r with inl frame_bytes => encode_turns fuel frame_bytes | inr r => mret r end
      else mret (frame_bytes, 0)
  end.

(** [FrameEncoder::encode]: the buffers afterwards with the sizes. *)
Definition h3_encode (stream_id : Z) (frame_buf inst_buf : bytes) : ST FrameEncoder H3Error (bytes * bytes * (Z * Z)) :=
  e ← get_st;
  if len frame_buf <? 1024 then throw (Serialize BufferTooShort)
  else
    match fe_streams e !! stream_id with
    | None => throw (Serialize InternalError)
    | Some stream =>
        let '(c, r) := encode_turns 3 0 (mkEncCtx stream (fe_qpack_encoder e) frame_buf inst_buf) in
        _ ← put_st (mkFrameEncoder (ec_qpack c) (<[stream_id := ec_stream c]> (fe_streams e)));
        match r with
        | Ok sizes => mret (ec_frame_buf c, ec_inst_buf c, sizes)
        | Err err => throw err
        | Panic => panic
        end
    end.

(** ** The other operations *)

Definition encode_error {A} (m : ST QpackEncoder QpackError A) (to : QpackError → H3Error) : ST FrameEncoder H3Error A := λ e,
  match m (fe_qpack_encoder e) with
  | (q, Ok a) => (mkFrameEncoder q (fe_streams e), Ok a)
  | (q, Err x) => (mkFrameEncoder q (fe_streams e), Err (to x))
  | (q, Panic) => (mkFrameEncoder q (fe_streams e), Panic)
  end.

Definition h3_set_max_table_capacity (max_cap : Z) : ST FrameEncoder H3Error () :=
  encode_error (set_max_table_capacity max_cap) (λ e, Encode (EncodeQpackError e)).
Definition h3_set_max_blocked_stream_size (n : Z) (e : FrameEncoder) : FrameEncoder :=
  mkFrameEncoder (set_max_blocked_stream_size n (fe_qpack_encoder e)) (fe_streams e).
Definition decode_remote_inst (order : gset Z → list Z) (buf : bytes) : ST FrameEncoder H3Error () :=
  encode_error (qe_decode_ins order buf) (λ e, Decode (DecodeQpackError e)).

Definition h3_enc_finish_stream (id : Z) : ST FrameEncoder H3Error () :=
  _ ← (if is_bidirectional id then encode_error (qe_finish_stream id) (λ e, Encode (EncodeQpackError e)) else mret ());
  modify_st (λ e, mkFrameEncoder (fe_qpack_encoder e) (delete id (fe_streams e))).

(** [set_frame]; [order] is the order in which the map of the headers is
    visited.  The fields go to the one QPACK encoder. *)
Definition set_frame (order : Headers → list (bytes * HeaderValue)) (stream_id : Z) (frame : Frame) : ST FrameEncoder H3Error () :=
  e ← get_st;
  let stream := default (EncodedH3Stream_new stream_id) (fe_streams e !! stream_id) in
  let put s q := put_st (mkFrameEncoder q (<[stream_id := s]> (fe_streams e))) in
  let stream' := es_set_frame (Some frame) stream in
  let q := fe_qpack_encoder e in
  match es_state stream with
  | Idle | FrameComplete =>
      let ty := fr_ty frame in
      if ty =? HEADERS_FRAME_TYPE then
        match fr_payload frame with
        | PHeaders parts _ => put (es_set_state EncodingHeadersFrame stream') (qe_set_parts (parts_pseudo parts) (order (parts_map parts)) q)
        | _ => put stream' q
        end
      else if ty =? DATA_FRAME_TYPE then put (es_set_state EncodingDataFrame stream') q
      else if ty =? CANCEL_PUSH_FRAME_TYPE then put (es_set_state EncodingCancelPushFrame stream') q
      else if ty =? SETTINGS_FRAME_TYPE then put (es_set_state EncodingSettingsFrame stream') q
      else if ty =? GOAWAY_FRAME_TYPE then put (es_set_state EncodingGoawayFrame stream') q
      else if ty =? MAX_PUSH_ID_FRAME_TYPE then put (es_set_state EncodingMaxPushIdFrame stream') q
      else _ ← put stream' q; throw (Encode UnknownFrameType)
  | _ => _ ← put stream q; throw (Encode RepeatSetFrame)
  end.
