(* ===== verification/H3Decoder.v ===== *)
(** * The HTTP/3 frame decoder

    Models [src/ylong_http/src/h3/decoder.rs]: the state machine of a stream,
    from its type over the frames to their payloads, on the bytes that have
    arrived; the QPACK decoder that the streams share. *)

From S2P Require Import Prelude Headers Parts H3Error Varint H3Frame.
From S2P Require QpackDecoder.
#[local] Open Scope Z_scope.

(** ** State *)

Inductive DecodeState :=
  | SStreamType | SPushId | SFrameType | SPayloadLen | SHeadersPayload | SDataPayload | SSettingsPayload | SVariablePayload
  | SPushPromisePayload | SUnknownPayload | SQpackDecoderInst | SQpackEncoderInst | SDropUnknown.

Inductive StreamType := TInit | TRequest | TControl | TPush | TQpackEncoder | TQpackDecoder | TUnknown.
#[export] Instance StreamType_eq_dec : EqDecision StreamType.
Proof. solve_decision. Defined.

Record DecodedH3Stream := mkStream {
  st_ty : StreamType; st_state : DecodeState; st_buffer : bytes; st_offset : Z; st_push_id : option Z; st_frame_type : option Z;
  st_push_frame_id : option Z; st_payload_len : option Z; st_stream_set : bool }.

Definition DecodedH3Stream_new (id : Z) : DecodedH3Stream :=
  let '(ty, state) := if is_bidirectional id then (TRequest, SFrameType) else (TInit, SStreamType) in
  mkStream ty state [] 0 None None None None false.

Definition set_decode_state (x : DecodeState) (s : DecodedH3Stream) : DecodedH3Stream :=
  mkStream (st_ty s) x (st_buffer s) (st_offset s) (st_push_id s) (st_frame_type s) (st_push_frame_id s) (st_payload_len s) (st_stream_set s).
Definition set_stream_type (x : StreamType) (s : DecodedH3Stream) : DecodedH3Stream :=
  mkStream x (st_state s) (st_buffer s) (st_offset s) (st_push_id s) (st_frame_type s) (st_push_frame_id s) (st_payload_len s) (st_stream_set s).
Definition extend_buffer (src : bytes) (s : DecodedH3Stream) : DecodedH3Stream :=
  mkStream (st_ty s) (st_state s) (st_buffer s ++ src) (st_offset s) (st_push_id s) (st_frame_type s) (st_push_frame_id s) (st_payload_len s) (st_stream_set s).
Definition advance (n : Z) (s : DecodedH3Stream) : DecodedH3Stream :=
  mkStream (st_ty s) (st_state s) (st_buffer s) (st_offset s + n) (st_push_id s) (st_frame_type s) (st_push_frame_id s) (st_payload_len s) (st_stream_set s).
Definition set_push_id (x : option Z) (s : DecodedH3Stream) : DecodedH3Stream :=
  mkStream (st_ty s) (st_state s) (st_buffer s) (st_offset s) x (st_frame_type s) (st_push_frame_id s) (st_payload_len s) (st_stream_set s).
Definition set_frame_type (x : option Z) (s : DecodedH3Stream) : DecodedH3Stream :=
  mkStream (st_ty s) (st_state s) (st_buffer s) (st_offset s) (st_push_id s) x (st_push_frame_id s) (st_payload_len s) (st_stream_set s).
Definition set_push_frame_id (x : option Z) (s : DecodedH3Stream) : DecodedH3Stream :=
  mkStream (st_ty s) (st_state s) (st_buffer s) (st_offset s) (st_push_id s) (st_frame_type s) x (st_payload_len s) (st_stream_set s).
Definition set_payload_len (x : option Z) (s : DecodedH3Stream) : DecodedH3Stream :=
  mkStream (st_ty s) (st_state s) (st_buffer s) (st_offset s) (st_push_id s) (st_frame_type s) (st_push_frame_id s) x (st_stream_set s).
Definition set_stream_set (x : bool) (s : DecodedH3Stream) : DecodedH3Stream :=
  mkStream (st_ty s) (st_state s) (st_buffer s) (st_offset s) (st_push_id s) (st_frame_type s) (st_push_frame_id s) (st_payload_len s) x.

Definition clear_frame (s : DecodedH3Stream) : DecodedH3Stream := set_payload_len None (set_frame_type None s).
Definition clear_buffer (s : DecodedH3Stream) : DecodedH3Stream :=
  mkStream (st_ty s) (st_state s) [] 0 (st_push_id s) (st_frame_type s) (st_push_frame_id s) (st_payload_len s) (st_stream_set s).
Definition remain_payload_len (s : DecodedH3Stream) : Z := default 0 (st_payload_len s).

(** [init_state_by_type]; the other types are unreachable. *)
Definition init_state_by_type (s : DecodedH3Stream) : result H3Error DecodedH3Stream :=
  match st_ty s with
  | TControl => Ok (set_decode_state SFrameType s)
  | TPush => Ok (set_decode_state SPushId s)
  | TQpackEncoder => Ok (set_decode_state SQpackEncoderInst s)
  | TQpackDecoder => Ok (set_decode_state SQpackDecoderInst s)
  | TUnknown => Ok (set_decode_state SDropUnknown s)
  | _ => Panic
  end.

Definition decode_type (integer : Z) : StreamType :=
  if integer =? 0 then TControl else if integer =? 1 then TPush else if integer =? 2 then TQpackEncoder
  else if integer =? 3 then TQpackDecoder else TUnknown.

(** What a call of [decode] works on: the stream, the frames so far and the
    shared decoder. *)
Record DecCtx := mkDecCtx { dc_stream : DecodedH3Stream; dc_frames : Frames; dc_qpack : QpackDecoder.QpackDecoder }.
Definition dc_set_stream (s : DecodedH3Stream) (c : DecCtx) : DecCtx := mkDecCtx s (dc_frames c) (dc_qpack c).
Definition dc_set_qpack (q : QpackDecoder.QpackDecoder) (c : DecCtx) : DecCtx := mkDecCtx (dc_stream c) (dc_frames c) q.

Abbreviation DC := (ST DecCtx H3Error).
Definition on_stream (f : DecodedH3Stream → DecodedH3Stream) : DC () := modify_st (λ c, dc_set_stream (f (dc_stream c)) c).
Definition push_frame (k : FrameKind) : DC () := modify_st (λ c, mkDecCtx (dc_stream c) (dc_frames c ++ [k]) (dc_qpack c)).

Inductive DecodePartRes := ReturnOuter | Continue_.

(** [ReadableBytes] over the buffer from the offset. *)
Definition reader : DC ReadableBytes :=
  c ← get_st;
  let s := dc_stream c in
  if len (st_buffer s) <? st_offset s then panic else mret (ReadableBytes_from (dropZ (st_offset s) (st_buffer s))).

(** An integer at the offset: the value, and the cursor behind it; [None] if
    bytes are missing. *)
Definition try_varint (r : ReadableBytes) : DC (option (Z * ReadableBytes)) :=
  match get_varint r with
  | (r, Ok v) => mret (Some (v, r))
  | (_, Err _) => mret None
  | (_, Panic) => panic
  end.

Definition subtract_payload_len (off : Z) : DC () :=
  c ← get_st;
  match st_payload_len (dc_stream c) with
  | None => throw (Serialize FieldMissing)
  | Some curr => if curr <? off then throw (Serialize CalculateOverflow) else on_stream (set_payload_len (Some (curr - off)))
  end.

(** ** The parts of a stream *)

Definition decode_stream_type : DC DecodePartRes :=
  r ← reader;
  v ← try_varint r;
  match v with
  | Some (integer, r) =>
      c ← get_st;
      s ← lift_res (init_state_by_type (set_stream_type (decode_type integer) (advance (rb_idx r) (dc_stream c))));
      _ ← put_st (dc_set_stream s c); mret Continue_
  | None => _ ← on_stream (set_decode_state SStreamType); mret ReturnOuter
  end.

Definition decode_push_id : DC DecodePartRes :=
  r ← reader;
  v ← try_varint r;
  match v with
  | Some (integer, r) =>
      _ ← on_stream (λ s, set_decode_state SFrameType (advance (rb_idx r) (set_push_id (Some integer) s))); mret Continue_
  | None => _ ← on_stream (set_decode_state SPushId); mret ReturnOuter
  end.

(** The frames that a stream may carry. *)
Definition frame_allowed (ty : Z) (s : DecodedH3Stream) : bool :=
  if (ty =? DATA_FRAME_TYPE) || (ty =? HEADERS_FRAME_TYPE) then bool_decide (st_ty s = TRequest) || bool_decide (st_ty s = TPush)
  else if ty =? PUSH_PROMISE_FRAME_TYPE then bool_decide (st_ty s = TRequest)
  else if ty =? SETTINGS_FRAME_TYPE then bool_decide (st_ty s = TControl) && negb (st_stream_set s)
  else if ty =? CANCEL_PUSH_FRAME_TYPE then bool_decide (st_ty s = TControl)
  else negb (ty =? MAX_PUSH_ID_FRAME_TYPE).

Definition decode_frame_type : DC DecodePartRes :=
  r ← reader;
  v ← try_varint r;
  match v with
  | Some (integer, r) =>
      c ← get_st;
      if frame_allowed integer (dc_stream c) then
        _ ← on_stream (λ s, set_decode_state SPayloadLen (advance (rb_idx r) (set_frame_type (Some integer)
              (if integer =? SETTINGS_FRAME_TYPE then set_stream_set true s else s))));
        mret Continue_
      else throw (Decode (UnexpectedFrame integer))
  | None => _ ← on_stream (set_decode_state SFrameType); _ ← push_frame FPartial; mret ReturnOuter
  end.

Definition payload_state (ty : Z) : DecodeState :=
  if ty =? DATA_FRAME_TYPE then SDataPayload
  else if ty =? HEADERS_FRAME_TYPE then SHeadersPayload
  else if ty =? SETTINGS_FRAME_TYPE then SSettingsPayload
  else if ty =? PUSH_PROMISE_FRAME_TYPE then SPushPromisePayload
  else if ty =? GOAWAY_FRAME_TYPE then SVariablePayload
  else if ty =? MAX_PUSH_ID_FRAME_TYPE then SVariablePayload
  else if ty =? CANCEL_PUSH_FRAME_TYPE then SVariablePayload
  else SUnknownPayload.

Definition decode_payload_len : DC DecodePartRes :=
  r ← reader;
  v ← try_varint r;
  match v with
  | Some (integer, r) =>
      _ ← on_stream (λ s, advance (rb_idx r) (set_payload_len (Some integer) s));
      c ← get_st;
      match st_frame_type (dc_stream c) with
      | Some ty => _ ← on_stream (set_decode_state (payload_state ty)); mret Continue_
      | None => panic
      end
  | None => _ ← push_frame FPartial; mret ReturnOuter
  end.

(** The end of a frame, with [remaining] bytes behind it. *)
Definition end_frame (remaining : Z) : DC DecodePartRes :=
  _ ← on_stream (λ s, set_decode_state SFrameType (clear_frame s));
  if remaining =? 0 then _ ← on_stream clear_buffer; mret ReturnOuter else mret Continue_.

Definition decode_data_payload : DC DecodePartRes :=
  r ← reader;
  c ← get_st;
  let payload_len := remain_payload_len (dc_stream c) in
  if rb_cap r <? payload_len then
    _ ← subtract_payload_len (rb_cap r);
    _ ← on_stream clear_buffer;
    _ ← push_frame (FComplete (mkFrame DATA_FRAME_TYPE (PData (rb_remaining r))));
    _ ← push_frame FPartial; mret ReturnOuter
  else
    _ ← push_frame (FComplete (mkFrame DATA_FRAME_TYPE (PData (takeZ payload_len (rb_remaining r)))));
    _ ← on_stream (advance payload_len);
    end_frame (rb_cap r - payload_len).

Definition on_qpack {A} (m : ST QpackDecoder.QpackDecoder QpackError A) : DC A := λ c,
  match m (dc_qpack c) with
  | (q, Ok a) => (dc_set_qpack q c, Ok a)
  | (q, Err e) => (dc_set_qpack q c, Err (Decode (DecodeQpackError e)))
  | (q, Panic) => (dc_set_qpack q c, Panic)
  end.

Definition get_qpack_decoded_header (id remaining : Z) : DC DecodePartRes :=
  p ← on_qpack (QpackDecoder.qd_finish id);
  c ← get_st;
  let s := dc_stream c in
  frame ← match st_frame_type s with
          | Some ty =>
              if ty =? HEADERS_FRAME_TYPE then mret (mkFrame HEADERS_FRAME_TYPE (PHeaders p.1 p.2))
              else if ty =? PUSH_PROMISE_FRAME_TYPE then
                match st_push_frame_id s with
                | Some push_id => mret (mkFrame PUSH_PROMISE_FRAME_TYPE (PPushPromise push_id p.1 p.2))
                | None => throw (Serialize FieldMissing)
                end
              else panic
          | None => panic
          end;
  _ ← push_frame (FComplete frame);
  end_frame remaining.

Definition decode_headers_payload (id : Z) : DC DecodePartRes :=
  r ← reader;
  c ← get_st;
  let payload_len := remain_payload_len (dc_stream c) in
  if rb_cap r <? payload_len then
    st ← on_qpack (QpackDecoder.decode_repr (rb_remaining r) id);
    _ ← push_frame (match st with QpackDecoder.FBlocked => FBlocked | QpackDecoder.FDecoded => FPartial end);
    _ ← subtract_payload_len (rb_cap r);
    _ ← on_stream clear_buffer; mret ReturnOuter
  else
    st ← on_qpack (QpackDecoder.decode_repr (takeZ payload_len (rb_remaining r)) id);
    match st with
    | QpackDecoder.FBlocked =>
        _ ← push_frame FBlocked; _ ← subtract_payload_len payload_len; _ ← on_stream (advance payload_len); mret ReturnOuter
    | QpackDecoder.FDecoded => _ ← on_stream (advance payload_len); get_qpack_decoded_header id (rb_cap r - payload_len)
    end.

(** The length of the payload plays no part. *)
Definition decode_variable_payload : DC DecodePartRes :=
  r ← reader;
  v ← try_varint r;
  match v with
  | Some (id, r) =>
      c ← get_st;
      frame ← match st_frame_type (dc_stream c) with
              | Some ty =>
                  if ty =? GOAWAY_FRAME_TYPE then mret (mkFrame GOAWAY_FRAME_TYPE (PGoaway id))
                  else if ty =? MAX_PUSH_ID_FRAME_TYPE then mret (mkFrame MAX_PUSH_ID_FRAME_TYPE (PMaxPushId id))
                  else if ty =? CANCEL_PUSH_FRAME_TYPE then mret (mkFrame CANCEL_PUSH_FRAME_TYPE (PCancelPush id))
                  else throw (Decode (UnexpectedFrame ty))
              | None => panic
              end;
      _ ← push_frame (FComplete frame);
      _ ← on_stream (advance (rb_idx r));
      end_frame (rb_cap r)
  | None => _ ← push_frame FPartial; mret ReturnOuter
  end.

(** The loop over the settings: each is two integers. *)
Fixpoint settings_loop (fuel : nat) (payload_len : Z) (r : ReadableBytes) (settings : Settings) (addition : list (Z * Z)) :
    DC (ReadableBytes * Settings * list (Z * Z)) :=
  match fuel with
  | O => panic
  | S fuel =>
      if rb_idx r <? payload_len then
        k ← try_varint r;
        match k with
        | None => throw (Decode (FrameSizeError payload_len))
        | Some (key, r) =>
            v ← try_varint r;
            match v with
            | None => throw (Decode (FrameSizeError payload_len))
            | Some (value, r) =>
                if key =? SETTING_QPACK_MAX_TABLE_CAPACITY then settings_loop fuel payload_len r (set_qpack_max_table_capacity value settings) addition
                else if key =? SETTING_ENABLE_CONNECT_PROTOCOL then settings_loop fuel payload_len r (set_connect_protocol_enabled value settings) addition
                else if key =? SETTING_H3_DATAGRAM then settings_loop fuel payload_len r (set_h3_datagram value settings) addition
                else if key =? SETTING_MAX_FIELD_SECTION_SIZE then settings_loop fuel payload_len r (set_max_field_section_size value settings) addition
                else if key =? SETTING_QPACK_BLOCKED_STREAMS then settings_loop fuel payload_len r (set_qpack_block_stream value settings) addition
                else if existsb (Z.eqb key) [0; 2; 3; 4; 5] then throw (Decode (UnsupportedSetting key))
                else settings_loop fuel payload_len r settings (addition ++ [(key, value)])
            end
        end
      else mret (r, settings, addition)
  end.

(** The offset is not moved behind the settings. *)
Definition decode_settings_payload : DC DecodePartRes :=
  r ← reader;
  c ← get_st;
  let payload_len := remain_payload_len (dc_stream c) in
  if rb_cap r <? payload_len then _ ← push_frame FPartial; mret ReturnOuter
  else
    x ← settings_loop (S (length (rb_buf r))) payload_len r Settings_default [];
    let '(r, settings, addition) := x in
    let settings := match addition with [] => settings | _ => set_additional addition settings end in
    _ ← push_frame (FComplete (mkFrame SETTINGS_FRAME_TYPE (PSettings settings)));
    end_frame (rb_cap r).

(** Nor is it behind the identifier of a push. *)
Definition decode_push_payload : DC DecodePartRes :=
  r ← reader;
  v ← try_varint r;
  match v with
  | Some (id, r) =>
      _ ← on_stream (set_push_frame_id (Some id));
      _ ← subtract_payload_len (rb_idx r);
      _ ← on_stream (set_decode_state SHeadersPayload); mret Continue_
  | None => _ ← push_frame FPartial; mret ReturnOuter
  end.

Definition decode_unknown_payload : DC DecodePartRes :=
  r ← reader;
  c ← get_st;
  let payload_len := remain_payload_len (dc_stream c) in
  if rb_cap r <? payload_len then
    _ ← on_stream clear_buffer;
    _ ← subtract_payload_len (rb_cap r);
    _ ← push_frame FPartial; mret ReturnOuter
  else
    _ ← on_stream (advance payload_len);
    end_frame (rb_cap r - payload_len).

(** ** [decode] *)

(** [return_by_type]; another type panics on the frame type or is refused. *)
Definition return_by_type : DC StreamMessage :=
  c ← get_st;
  let s := dc_stream c in
  match st_ty s with
  | TRequest => mret (MRequest (dc_frames c))
  | TPush => match st_push_id s with Some push_id => mret (MPush push_id (dc_frames c)) | None => throw (Serialize FieldMissing) end
  | TControl => mret (MControl (dc_frames c))
  | _ => match st_frame_type s with Some ty => throw (Decode (UnexpectedFrame ty)) | None => panic end
  end.

(** How the call ends: with a message and the stream kept, or dropped. *)
Inductive Ended := EKeep (m : StreamMessage) | EDrop (m : StreamMessage).

Definition after (m : DC DecodePartRes) (message : DC StreamMessage) : DC (option Ended) :=
  r ← m;
  match r with
  | ReturnOuter => x ← message; mret (Some (EKeep x))
  | Continue_ => mret None
  end.

(** One turn of the loop; [None] goes on. *)
Definition decode_turn (order : gmap Z Z → list (Z * Z)) (id : Z) : DC (option Ended) :=
  c ← get_st;
  match st_state (dc_stream c) with
  | SStreamType => after decode_stream_type (mret MWaitingMore)
  | SPushId => after decode_push_id (mret MWaitingMore)
  | SFrameType => after decode_frame_type return_by_type
  | SPayloadLen => after decode_payload_len return_by_type
  | SDataPayload => after decode_data_payload return_by_type
  | SHeadersPayload => after (decode_headers_payload id) return_by_type
  | SVariablePayload => after decode_variable_payload return_by_type
  | SSettingsPayload => after decode_settings_payload return_by_type
  | SPushPromisePayload => after decode_push_payload return_by_type
  | SUnknownPayload => after decode_unknown_payload return_by_type
  | SQpackDecoderInst => r ← reader; _ ← on_stream clear_buffer; mret (Some (EKeep (MQpackDecoder (rb_remaining r))))
  | SQpackEncoderInst =>
      r ← reader;
      unblocked ← on_qpack (QpackDecoder.decode_ins order (rb_remaining r));
      _ ← on_stream clear_buffer; mret (Some (EKeep (MQpackEncoder unblocked)))
  | SDropUnknown => _ ← on_stream clear_buffer; mret (Some (EDrop MUnknown))
  end.

Fixpoint decode_turns (fuel : nat) (order : gmap Z Z → list (Z * Z)) (id : Z) : DC Ended :=
  match fuel with
  | O => panic
  | S fuel => r ← decode_turn order id; match r with Some e => mret e | None => decode_turns fuel order id end
  end.

(** A turn that goes on takes a byte or moves on to the next part of a frame. *)
Definition turns_fuel (s : DecodedH3Stream) : nat := 3 + 3 * length (st_buffer s).

Record FrameDecoder := mkFrameDecoder { fd_qpack_decoder : QpackDecoder.QpackDecoder; fd_streams : gmap Z DecodedH3Stream }.
Definition FrameDecoder_new (max_blocked_streams max_table_capacity : Z) : FrameDecoder :=
  mkFrameDecoder (QpackDecoder.QpackDecoder_new max_blocked_streams max_table_capacity) ∅.

(** [FrameDecoder::decode]: the stream is out of the map while it is decoded,
    and an error loses it. *)
Definition h3_decode (order : gmap Z Z → list (Z * Z)) (id : Z) (src : bytes) : ST FrameDecoder H3Error StreamMessage :=
  d ← get_st;
  let stream := extend_buffer src (default (DecodedH3Stream_new id) (fd_streams d !! id)) in
  let streams := delete id (fd_streams d) in
  let '(c, r) := decode_turns (turns_fuel stream) order id (mkDecCtx stream [] (fd_qpack_decoder d)) in
  match r with
  | Ok (EKeep m) => _ ← put_st (mkFrameDecoder (dc_qpack c) (<[id := dc_stream c]> streams)); mret m
  | Ok (EDrop m) => _ ← put_st (mkFrameDecoder (dc_qpack c) streams); mret m
  | Err e => _ ← put_st (mkFrameDecoder (dc_qpack c) streams); throw e
  | Panic => panic
  end.

(** ** The other operations *)

Definition local_allowed_max_field_section_size (n : Z) (d : FrameDecoder) : FrameDecoder :=
  mkFrameDecoder (QpackDecoder.set_max_field_section_size n (fd_qpack_decoder d)) (fd_streams d).

Definition decode_error {A} (m : ST QpackDecoder.QpackDecoder QpackError A) : ST FrameDecoder H3Error A := λ d,
  match m (fd_qpack_decoder d) with
  | (q, Ok a) => (mkFrameDecoder q (fd_streams d), Ok a)
  | (q, Err e) => (mkFrameDecoder q (fd_streams d), Err (Decode (DecodeQpackError e)))
  | (q, Panic) => (mkFrameDecoder q (fd_streams d), Panic)
  end.

Definition h3_cancel_stream (stream_id room : Z) : ST FrameDecoder H3Error bytes :=
  _ ← modify_st (λ d, mkFrameDecoder (fd_qpack_decoder d) (delete stream_id (fd_streams d)));
  decode_error (QpackDecoder.qd_stream_cancel stream_id room).

Definition h3_dec_finish_stream (id : Z) : ST FrameDecoder H3Error () :=
  _ ← (if is_bidirectional id then decode_error (QpackDecoder.qd_finish_stream id) else mret ());
  modify_st (λ d, mkFrameDecoder (fd_qpack_decoder d) (delete id (fd_streams d))).

(** ** Fuel: the loops end by themselves *)

Lemma poll_ok n r r' v : poll_bytes n r = (r', Ok v) → rb_buf r' = rb_buf r ∧ rb_idx r' = rb_idx r + n.
Proof.
  unfold poll_bytes, peek_bytes. rewrite !bind_st. cbn [get_st]. destruct (_ <? _); [done|]. cbn [mret ST_ret].
  rewrite bind_st. unfold modify_st. by intros [= <- _].
Qed.

(** An integer takes a byte at least, and there was one. *)
Lemma get_varint_ok r r' v : get_varint r = (r', Ok v) → rb_buf r' = rb_buf r ∧ rb_idx r + 1 ≤ rb_idx r' ∧ 1 ≤ len (rb_remaining r) ∧ 0 ≤ v.
Proof.
  unfold get_varint, peek_bytes. rewrite !bind_st. cbn [get_st]. destruct (Z.ltb_spec (len (rb_remaining r)) 1); [done|]. cbn [mret ST_ret].
  rewrite bind_st. cbn [get_st]. destruct (_ <? _); [done|].
  assert (∀ n m, 0 ≤ m → (x ← poll_bytes n; mret (Z.land x m)) r = (r', Ok v) → rb_buf r' = rb_buf r ∧ rb_idx r' = rb_idx r + n ∧ 0 ≤ v) as Hbind.
  { intros n m Hm. rewrite bind_st. destruct (poll_bytes n r) as [r1 [x| |]] eqn:E; [|done..]. intros [= <- <-]. apply poll_ok in E as [-> ->].
    split_and!; [done..|]. apply Z.land_nonneg. by right. }
  destruct (parse_varint_len _) as [|[p|p|]|p] eqn:Ep; try done; repeat (destruct p as [p|p|]; try done); intros H1;
    try (apply Hbind in H1 as (? & ? & ?); [split_and!; [done|lia|done|done]|done]).
  assert (v = be_value (takeZ 1 (rb_remaining r))) as Ev.
  { revert H1. unfold poll_bytes, peek_bytes. rewrite !bind_st. cbn [get_st]. destruct (_ <? _); [done|]. cbn [mret ST_ret]. rewrite bind_st. by intros [= _ <-]. }
  apply poll_ok in H1 as [-> ->]. split_and!; [done|lia|done|]. rewrite Ev. unfold parse_varint_len in Ep.
  destruct (Z.neg_nonneg_cases (be_value (takeZ 1 (rb_remaining r)))) as [Hneg|]; [|done].
  assert (Z.shiftr (be_value (takeZ 1 (rb_remaining r))) 6 < 0) as Hs by (by apply Z.shiftr_neg).
  rewrite Z.shiftl_div_pow2 in Ep by lia. rewrite Z.div_small in Ep; [done|]. split; [lia|]. apply Z.pow_gt_1; lia.
Qed.

Definition rest_bytes (s : DecodedH3Stream) : nat := length (dropZ (st_offset s) (st_buffer s)).
Definition rank (x : DecodeState) : nat :=
  match x with SFrameType | SStreamType => 0 | SPayloadLen => 1 | SPushId | SPushPromisePayload | SQpackDecoderInst | SQpackEncoderInst | SDropUnknown => 2 | _ => 1 end.
Definition turn_measure (s : DecodedH3Stream) : nat := 3 * rest_bytes s + rank (st_state s).

Definition counts_ok (s : DecodedH3Stream) : Prop := 0 ≤ st_offset s ∧ 0 ≤ remain_payload_len s.

(** What [Continue_] promises of the stream. *)
Definition goes_on (s : DecodedH3Stream) (c : DecCtx) : Prop := (turn_measure (dc_stream c) < turn_measure s)%nat ∧ counts_ok (dc_stream c).

Lemma reader_at c : reader c = if len (st_buffer (dc_stream c)) <? st_offset (dc_stream c) then (c, Panic)
  else (c, Ok (ReadableBytes_from (dropZ (st_offset (dc_stream c)) (st_buffer (dc_stream c))))).
Proof. unfold reader. rewrite bind_st. cbn [get_st]. by destruct (_ <? _). Qed.

Lemma try_varint_at r c : try_varint r c = match get_varint r with (r, Ok v) => (c, Ok (Some (v, r))) | (_, Err _) => (c, Ok None) | (_, Panic) => (c, Panic) end.
Proof. unfold try_varint. by destruct (get_varint r) as [? [| |]]. Qed.

(** A part that begins with an integer. *)
Lemma varint_part {A} (some : Z → ReadableBytes → DC A) (none : DC A) c c' a : 0 ≤ st_offset (dc_stream c) →
  (r ← reader; v ← try_varint r; match v with Some (i, r) => some i r | None => none end) c = (c', Ok a) →
  (∃ i n, 0 ≤ i ∧ 1 ≤ n ∧ (length (dropZ (st_offset (dc_stream c) + n) (st_buffer (dc_stream c))) < rest_bytes (dc_stream c))%nat ∧
    some i (mkReadableBytes (dropZ (st_offset (dc_stream c)) (st_buffer (dc_stream c))) n) c = (c', Ok a)) ∨
  none c = (c', Ok a).
Proof.
  intros Hoff. rewrite bind_st, reader_at. destruct (Z.ltb_spec (len (st_buffer (dc_stream c))) (st_offset (dc_stream c))); [done|].
  rewrite bind_st, try_varint_at. destruct (get_varint _) as [r [v|e|]] eqn:E; [|by right|done].
  apply get_varint_ok in E as (E1 & E2 & E3 & E4). destruct r as [b n]. cbn [rb_buf rb_idx ReadableBytes_from] in *. subst b.
  intros H1. left. exists v, n. split; [lia|]. split; [lia|]. split; [|done]. unfold rest_bytes. unfold rb_remaining, len in E3. cbn in E3. rewrite dropZ_0 in E3.
  unfold dropZ in *. rewrite !length_drop in *. lia.
Qed.

Lemma end_frame_measure n c c' : end_frame n c = (c', Ok Continue_) →
  rest_bytes (dc_stream c') = rest_bytes (dc_stream c) ∧ st_state (dc_stream c') = SFrameType ∧
  st_offset (dc_stream c') = st_offset (dc_stream c) ∧ st_payload_len (dc_stream c') = None.
Proof.
  unfold end_frame, on_stream. rewrite bind_st. unfold modify_st at 1. destruct (n =? 0); [by rewrite bind_st|]. by intros [= <-].
Qed.

(** A part ends the call, or goes on with less to do. *)
Definition part_ok (m : DC DecodePartRes) : Prop := ∀ c c', counts_ok (dc_stream c) → m c = (c', Ok Continue_) → goes_on (dc_stream c) c'.

Lemma turn_less s s' : (rest_bytes s' < rest_bytes s)%nat → (rank (st_state s') ≤ S (S (rank (st_state s))))%nat → (turn_measure s' < turn_measure s)%nat.
Proof. unfold turn_measure. lia. Qed.
Lemma rank_max x : (rank x ≤ 2)%nat.
Proof. by destruct x; cbn; lia. Qed.

Lemma init_state_ok s s' : init_state_by_type s = Ok s' → st_buffer s' = st_buffer s ∧ st_offset s' = st_offset s ∧ st_payload_len s' = st_payload_len s.
Proof. unfold init_state_by_type. destruct (st_ty s); intros [= <-]; done. Qed.

Lemma decode_stream_type_ok : part_ok decode_stream_type.
Proof.
  intros c c' [Ho Hp] H. apply varint_part in H as [(i & n & Hi & Hn & Hl & H)|H]; [| |done].
  - rewrite bind_st in H. cbn [get_st rb_idx] in H. rewrite bind_st in H. cbn [lift_res] in H.
    destruct (init_state_by_type _) as [s'| |] eqn:E; [|done..]. apply init_state_ok in E as (E1 & E2 & E3). rewrite bind_st in H. injection H as <-.
    cbn in E1, E2, E3. split; [|split; [cbn [dc_stream dc_set_stream]; lia|cbn [dc_stream dc_set_stream]; unfold remain_payload_len; rewrite E3; exact Hp]]. apply turn_less; [|pose proof (rank_max (st_state s')); cbn; lia].
    unfold rest_bytes at 1. cbn [dc_stream dc_set_stream]. by rewrite E1, E2.
  - rewrite bind_st in H. done.
Qed.

Lemma decode_push_id_ok : part_ok decode_push_id.
Proof.
  intros c c' [Ho Hp] H. apply varint_part in H as [(i & n & Hi & Hn & Hl & H)|H]; [| |done].
  - rewrite bind_st in H. injection H as <-. split; [|split; [cbn; lia|exact Hp]]. apply turn_less; [exact Hl|cbn; lia].
  - rewrite bind_st in H. done.
Qed.

Lemma decode_frame_type_ok : part_ok decode_frame_type.
Proof.
  intros c c' [Ho Hp] H. apply varint_part in H as [(i & n & Hi & Hn & Hl & H)|H]; [| |done].
  - rewrite bind_st in H. cbn [get_st] in H. destruct (frame_allowed i _); [|done]. rewrite bind_st in H. injection H as <-.
    destruct (i =? SETTINGS_FRAME_TYPE); (split; [|split; [cbn; lia|exact Hp]]; apply turn_less; [exact Hl|cbn; lia]).
  - rewrite !bind_st in H. done.
Qed.

Lemma decode_payload_len_ok : part_ok decode_payload_len.
Proof.
  intros c c' [Ho Hp] H. apply varint_part in H as [(i & n & Hi & Hn & Hl & H)|H]; [| |done].
  - rewrite bind_st in H. unfold on_stream at 1, modify_st in H. rewrite bind_st in H. cbn [get_st] in H. cbn [dc_stream dc_set_stream advance st_frame_type set_payload_len] in H.
    destruct (st_frame_type _) as [ty|]; [|done]. rewrite bind_st in H. injection H as <-. split; [|split; cbn; lia].
    apply turn_less; [exact Hl|]. cbn [dc_stream dc_set_stream set_decode_state st_state]. pose proof (rank_max (payload_state ty)). lia.
  - rewrite bind_st in H. done.
Qed.

Lemma rest_advance n s : 0 ≤ n → (rest_bytes (advance n s) ≤ rest_bytes s)%nat.
Proof. intros Hn. unfold rest_bytes, dropZ. cbn. rewrite !length_drop. lia. Qed.

(** The end of a payload. *)
Lemma payload_end n c c1 c' : 1 ≤ Z.of_nat (rank (st_state (dc_stream c))) → (rest_bytes (dc_stream c1) ≤ rest_bytes (dc_stream c))%nat → 0 ≤ st_offset (dc_stream c1) →
  end_frame n c1 = (c', Ok Continue_) → goes_on (dc_stream c) c'.
Proof.
  intros Hr Hl Ho H. apply end_frame_measure in H as (E1 & E2 & E3 & E4). split; [|split; [lia|unfold remain_payload_len; by rewrite E4]]. unfold turn_measure. rewrite E1, E2. cbn [rank]. lia.
Qed.

Definition payload_ok (m : DC DecodePartRes) : Prop :=
  ∀ c c', (1 ≤ rank (st_state (dc_stream c)))%nat → counts_ok (dc_stream c) → m c = (c', Ok Continue_) → goes_on (dc_stream c) c'.

Lemma decode_data_payload_ok : payload_ok decode_data_payload.
Proof.
  intros c c' Hr [Ho Hp]. unfold decode_data_payload. rewrite bind_st, reader_at. destruct (_ <? _); [done|]. rewrite bind_st. cbn [get_st].
  destruct (rb_cap _ <? _).
  - rewrite bind_st. destruct (subtract_payload_len _ c) as [c1 [[]| |]]; [|done..]. by rewrite !bind_st.
  - rewrite !bind_st. unfold push_frame, modify_st at 1. rewrite bind_st. unfold on_stream at 1, modify_st at 1. apply payload_end; [lia|by apply rest_advance|cbn; lia].
Qed.

Lemma decode_unknown_payload_ok : payload_ok decode_unknown_payload.
Proof.
  intros c c' Hr [Ho Hp]. unfold decode_unknown_payload. rewrite bind_st, reader_at. destruct (_ <? _); [done|]. rewrite bind_st. cbn [get_st].
  destruct (rb_cap _ <? _).
  - rewrite bind_st. unfold on_stream at 1, modify_st at 1. rewrite bind_st. destruct (subtract_payload_len _ _) as [c1 [[]| |]]; [|done..]. by rewrite !bind_st.
  - rewrite bind_st. unfold on_stream at 1, modify_st at 1. apply payload_end; [lia|by apply rest_advance|cbn; lia].
Qed.

Lemma decode_variable_payload_ok : payload_ok decode_variable_payload.
Proof.
  intros c c' Hr [Ho Hp] H. apply varint_part in H as [(i & n & Hi & Hn & Hl & H)|H]; [| |done].
  - rewrite bind_st in H. cbn [get_st] in H. rewrite bind_st in H. destruct (st_frame_type _) as [ty|]; [|done].
    assert (∀ f, (_ ← push_frame (FComplete f); _ ← on_stream (advance n); end_frame (rb_cap (mkReadableBytes (dropZ (st_offset (dc_stream c)) (st_buffer (dc_stream c))) n))) c = (c', Ok Continue_) →
      goes_on (dc_stream c) c') as Hend.
    { intros f. rewrite bind_st. unfold push_frame, modify_st at 1. rewrite bind_st. unfold on_stream at 1, modify_st at 1.
      apply payload_end; [lia| |cbn; lia]. apply rest_advance. lia. }
    destruct (ty =? GOAWAY_FRAME_TYPE); [by apply Hend in H|]. destruct (ty =? MAX_PUSH_ID_FRAME_TYPE); [by apply Hend in H|].
    destruct (ty =? CANCEL_PUSH_FRAME_TYPE); [by apply Hend in H|done].
  - rewrite bind_st in H. done.
Qed.

Lemma settings_loop_ctx fuel l r s a c : (settings_loop fuel l r s a c).1 = c.
Proof.
  revert r s a. induction fuel as [|fuel IH]; intros r s a; [done|]. cbn [settings_loop]. destruct (_ <? _); [|done].
  rewrite bind_st, try_varint_at. destruct (get_varint r) as [r1 [k| |]]; [|done..].
  rewrite bind_st, try_varint_at. destruct (get_varint r1) as [r2 [v| |]]; [|done..].
  repeat match goal with |- context [if ?b then _ else _] => destruct b; [done || apply IH|] end. apply IH.
Qed.

Lemma decode_settings_payload_ok : payload_ok decode_settings_payload.
Proof.
  intros c c' Hr [Ho Hp]. unfold decode_settings_payload. rewrite bind_st, reader_at. destruct (_ <? _); [done|]. rewrite bind_st. cbn [get_st].
  destruct (rb_cap _ <? _); [by rewrite bind_st|]. rewrite bind_st.
  match goal with |- context [settings_loop ?f ?l ?r ?s ?a c] => pose proof (settings_loop_ctx f l r s a c) as Hc; destruct (settings_loop f l r s a c) as [c1 [[[r' s'] a']| |]] end; [|done..].
  cbn [fst] in Hc. subst c1. rewrite bind_st. unfold push_frame, modify_st at 1. apply payload_end; [lia|done|done].
Qed.

Lemma subtract_ok n c c' : subtract_payload_len n c = (c', Ok ()) →
  ∃ k, n ≤ k ∧ st_payload_len (dc_stream c) = Some k ∧ c' = dc_set_stream (set_payload_len (Some (k - n)) (dc_stream c)) c.
Proof.
  unfold subtract_payload_len. rewrite bind_st. cbn [get_st]. destruct (st_payload_len (dc_stream c)) as [k|]; [|done].
  destruct (Z.ltb_spec k n); [done|]. unfold on_stream, modify_st. intros [= <-]. by exists k.
Qed.

(** A push goes on with its header block. *)
Lemma decode_push_payload_ok c c' : st_state (dc_stream c) = SPushPromisePayload → counts_ok (dc_stream c) →
  decode_push_payload c = (c', Ok Continue_) → goes_on (dc_stream c) c'.
Proof.
  intros Hs [Ho Hp] H. apply varint_part in H as [(i & n & Hi & Hn & Hl & H)|H]; [| |done].
  - rewrite bind_st in H. unfold on_stream at 1, modify_st at 1 in H. rewrite bind_st in H.
    destruct (subtract_payload_len _ _) as [c1 [[]| |]] eqn:E; [|done..]. apply subtract_ok in E as (k & Hk & _ & ->). rewrite bind_st in H. injection H as <-.
    split; [|split; [done|cbn in *; lia]]. unfold turn_measure. rewrite Hs. cbn [rank dc_stream dc_set_stream set_decode_state st_state].
    change (rest_bytes _) with (rest_bytes (dc_stream c)) at 1. lia.
  - rewrite bind_st in H. done.
Qed.

Lemma on_qpack_ctx {A} (m : ST QpackDecoder.QpackDecoder QpackError A) c : ∃ q r, on_qpack m c = (dc_set_qpack q c, r).
Proof. unfold on_qpack. destruct (m (dc_qpack c)) as [q [a|e|]]; eauto. Qed.

Lemma decode_headers_payload_ok id : payload_ok (decode_headers_payload id).
Proof.
  intros c c' Hr [Ho Hp]. unfold decode_headers_payload. rewrite bind_st, reader_at. destruct (_ <? _); [done|]. rewrite bind_st. cbn [get_st].
  destruct (rb_cap _ <? _); rewrite bind_st;
    match goal with |- context [on_qpack ?m c] => destruct (on_qpack_ctx m c) as (q & [st|e|] & ->) end; try done.
  - rewrite !bind_st. unfold push_frame, modify_st at 1. rewrite bind_st. destruct (subtract_payload_len _ _) as [c1 [[]| |]]; [|done..]. by rewrite bind_st.
  - destruct st.
    + rewrite !bind_st. unfold push_frame, modify_st at 1. rewrite bind_st. destruct (subtract_payload_len _ _) as [c1 [[]| |]]; [|done..]. by rewrite bind_st.
    + rewrite bind_st. unfold on_stream at 1, modify_st at 1. unfold get_qpack_decoded_header. rewrite bind_st.
      match goal with |- context [on_qpack ?m ?c] => destruct (on_qpack_ctx m c) as (q' & [p|e|] & ->) end; try done.
      rewrite bind_st. cbn [get_st]. set (c1 := dc_set_qpack q' _).
      assert (∀ f n, (_ ← push_frame (FComplete f); end_frame n) c1 = (c', Ok Continue_) → goes_on (dc_stream c) c') as Hend.
      { intros f n. rewrite bind_st. unfold push_frame, modify_st at 1. apply payload_end; [lia|by apply rest_advance|cbn; lia]. }
      rewrite bind_st. destruct (st_frame_type _) as [ty|]; [|done]. destruct (ty =? HEADERS_FRAME_TYPE); [apply Hend|].
      destruct (ty =? PUSH_PROMISE_FRAME_TYPE); [|done]. destruct (st_push_frame_id _); [apply Hend|done].
Qed.

Lemma after_ok (m : DC DecodePartRes) msg c c' : after m msg c = (c', Ok None) → m c = (c', Ok Continue_).
Proof.
  unfold after. rewrite bind_st. destruct (m c) as [c1 [[]| |]]; [|by intros [= ->]|done..].
  rewrite bind_st. by destruct (msg c1) as [c2 [x| |]].
Qed.

Lemma decode_turn_measure order id c c' : counts_ok (dc_stream c) → decode_turn order id c = (c', Ok None) → goes_on (dc_stream c) c'.
Proof.
  intros Hc. unfold decode_turn. rewrite bind_st. cbn [get_st]. destruct (st_state (dc_stream c)) eqn:Es; intros H; try apply after_ok in H.
  - by apply decode_stream_type_ok.
  - by apply decode_push_id_ok.
  - by apply decode_frame_type_ok.
  - by apply decode_payload_len_ok.
  - apply (decode_headers_payload_ok id) in H; [done|rewrite Es; cbn; lia|done].
  - apply decode_data_payload_ok in H; [done|rewrite Es; cbn; lia|done].
  - apply decode_settings_payload_ok in H; [done|rewrite Es; cbn; lia|done].
  - apply decode_variable_payload_ok in H; [done|rewrite Es; cbn; lia|done].
  - by apply decode_push_payload_ok.
  - apply decode_unknown_payload_ok in H; [done|rewrite Es; cbn; lia|done].
  - rewrite bind_st, reader_at in H. destruct (_ <? _); [done|]. by rewrite bind_st in H.
  - rewrite bind_st, reader_at in H. destruct (_ <? _); [done|]. rewrite bind_st in H.
    destruct (on_qpack_ctx (QpackDecoder.decode_ins order (rb_remaining (ReadableBytes_from (dropZ (st_offset (dc_stream c)) (st_buffer (dc_stream c)))))) c) as (q & [r|e|] & E);
      rewrite E in H; [by rewrite bind_st in H|done..].
  - by rewrite bind_st in H.
Qed.

Lemma decode_turns_fuel f1 f2 order id c : counts_ok (dc_stream c) → (turn_measure (dc_stream c) < f1)%nat → (turn_measure (dc_stream c) < f2)%nat →
  decode_turns f1 order id c = decode_turns f2 order id c.
Proof.
  revert f2 c. induction f1 as [|f1 IH]; intros [|f2] c Hc H1 H2; [lia..|]. cbn [decode_turns]. rewrite !bind_st.
  destruct (decode_turn order id c) as [c' [[e|]| |]] eqn:E; [done| |done..]. apply decode_turn_measure in E as [E1 E2]; [|done]. apply IH; [done|lia..].
Qed.

Lemma settings_loop_fuel f1 f2 l r s a c : 0 ≤ rb_idx r →
  (length (rb_remaining r) < f1)%nat → (length (rb_remaining r) < f2)%nat → settings_loop f1 l r s a c = settings_loop f2 l r s a c.
Proof.
  revert f2 r s a. induction f1 as [|f1 IH]; intros [|f2] r s a Hr H1 H2; [lia..|]. cbn [settings_loop]. destruct (_ <? _); [|done].
  rewrite !bind_st, try_varint_at. destruct (get_varint r) as [r1 [k| |]] eqn:E1; [|done..]. apply get_varint_ok in E1 as (B1 & I1 & L1 & _).
  rewrite !bind_st, try_varint_at. destruct (get_varint r1) as [r2 [v| |]] eqn:E2; [|done..]. apply get_varint_ok in E2 as (B2 & I2 & L2 & _).
  assert (length (rb_remaining r2) < length (rb_remaining r))%nat as Hless.
  { unfold rb_remaining, len, dropZ in *. rewrite B2, B1. rewrite length_drop in *. rewrite length_drop. lia. }
  repeat match goal with |- context [if ?b then _ else _] => destruct b; [done || (apply IH; lia)|] end. apply IH; lia.
Qed.

(** decoding a stream ends by itself: a turn of the loop ends the call,
    takes a byte, or moves on to the next part of a frame, so that no more than
    three turns and three a byte are taken, whatever the bytes are. *)
Theorem h3_decode_terminates (fuel : nat) (order : gmap Z Z → list (Z * Z)) (id : Z) (c : DecCtx)
    (Hc : counts_ok (dc_stream c)) (Hf : (turns_fuel (dc_stream c) ≤ fuel)%nat) :
  decode_turns fuel order id c = decode_turns (turns_fuel (dc_stream c)) order id c.
Proof.
  assert (turn_measure (dc_stream c) < turns_fuel (dc_stream c))%nat as Hm.
  { unfold turn_measure, turns_fuel, rest_bytes, dropZ. rewrite length_drop. pose proof (rank_max (st_state (dc_stream c))). lia. }
  apply decode_turns_fuel; [done|lia|done].
Qed.

Definition request_ctx (buf : bytes) : DecCtx :=
  mkDecCtx (extend_buffer buf (DecodedH3Stream_new 0)) [] (QpackDecoder.QpackDecoder_new 0 0).

Lemma h3_decode_terminates_witness :
  decode_turns 100 (λ _, []) 0 (request_ctx [0; 1; 7]) = decode_turns (turns_fuel (dc_stream (request_ctx [0; 1; 7]))) (λ _, []) 0 (request_ctx [0; 1; 7]) ∧
  (decode_turns 100 (λ _, []) 0 (request_ctx [0; 1; 7])).2 = Ok (EKeep (MRequest [FComplete (mkFrame 0 (PData [7]))])).
Proof.
  split; [|by vm_compute].
  apply (h3_decode_terminates 100 (λ _, []) 0 (request_ctx [0; 1; 7])); [by split|by apply Nat.leb_le].
Defined.
