(* ===== verification/H3EncoderSpec.v ===== *)
(** * HTTP/3 frames on the wire

    The wire format of RFC 9114 section 7 and what [H3Encoder] and [H3Decoder]
    make of it: each frame is written as it should be, in as many calls as the
    buffers need, and read back. *)

From S2P Require Import Prelude Headers Parts H3Error Varint H3Frame H3Encoder H3Decoder.
From S2P Require QpackEncoder QpackDecoder HpackEncoder QpackSection.
#[local] Open Scope Z_scope.

(** ** Wire format *)

Definition frame_wire (ty : Z) (payload : bytes) : bytes := varint_wire ty ++ varint_wire (len payload) ++ payload.
Definition setting_wire (p : Z * Z) : bytes := varint_wire p.1 ++ varint_wire p.2.

Lemma varint_small v : 0 ≤ v ≤ 63 → is_varint v ∧ varint_wire v = [v].
Proof.
  intros Hv. split; [unfold is_varint; lia|]. unfold varint_wire, varint_size, varint_bits. destruct (Z.leb_spec v 63); [|lia].
  change (be_bytes (2 ^ Z.to_nat 0) ?x) with [Z.shiftr x 0 mod 256]. rewrite Z.shiftr_0_r, Z.mod_small by lia. by rewrite Z.mul_0_l.
Qed.

Lemma varint_wire_len v : 1 ≤ len (varint_wire v) ≤ 8.
Proof. rewrite length_varint_wire. pose proof (varint_size_bounds v). lia. Qed.

(** ** Writing into the buffer *)

Lemma put_varint_at w v tail c : ec_frame_buf c = w ++ tail → is_varint v → len (varint_wire v) ≤ len tail →
  put_varint (len w) v c = (ec_set_frame_buf (w ++ varint_wire v ++ dropZ (len (varint_wire v)) tail) c, Ok (len (varint_wire v))).
Proof.
  intros Hb Hv Hl. unfold put_varint. rewrite bind_st. cbn [get_st]. rewrite Hb, dropZ_app_len, encode_var_integer_wire by done.
  rewrite bind_st. cbn [put_st]. by rewrite takeZ_app_len.
Qed.

Lemma copy_at_end w data tail : copy_at (len w) data (w ++ tail) = w ++ data ++ dropZ (len data) tail.
Proof.
  unfold copy_at. rewrite takeZ_app_len, dropZ_app_ge by (pose proof (len_nonneg data); lia). do 3 f_equal. lia.
Qed.

Lemma encode_frame_type_at f c : es_current_frame (ec_stream c) = Some f → is_varint (fr_ty f) → 8 ≤ len (ec_frame_buf c) →
  encode_frame_type c =
    (ec_set_frame_buf (varint_wire (fr_ty f) ++ dropZ (len (varint_wire (fr_ty f))) (ec_frame_buf c)) c, Ok (len (varint_wire (fr_ty f)))).
Proof.
  intros Hf Hv Hb. unfold encode_frame_type, current_frame. rewrite !bind_st. cbn [get_st]. rewrite Hf. cbn [mret ST_ret].
  pose proof (varint_wire_len (fr_ty f)). apply (put_varint_at [] (fr_ty f) (ec_frame_buf c)); [done|done|lia].
Qed.

(** The turns of [encode], one at a time. *)
Lemma encode_turns_step fuel n c : n < len (ec_frame_buf c) →
  encode_turns (S fuel) n c = (r ← encode_turn n; match r with inl n => encode_turns fuel n | inr r => mret r end) c.
Proof. intros Hn. cbn [encode_turns]. rewrite bind_st. cbn [get_st]. by destruct (Z.ltb_spec n (len (ec_frame_buf c))); [|lia]. Qed.

(** ** DATA frames *)

Definition data_frame (data : bytes) : Frame := mkFrame DATA_FRAME_TYPE (PData data).

(** The payload, behind [w] in the buffer. *)
Lemma data_payload_at data w tail c : es_current_frame (ec_stream c) = Some (data_frame data) → 0 ≤ es_payload_offset (ec_stream c) ≤ len data →
  ec_frame_buf c = w ++ tail →
  let p := dropZ (es_payload_offset (ec_stream c)) data in
  let n := Z.min (len p) (len tail) in
  let s := ec_stream c in
  encode_data_payload (len w) c =
    (mkEncCtx (if len p <=? len tail then es_set_state FrameComplete (es_set_offset 0 s) else es_set_offset (es_payload_offset s + n) s)
       (ec_qpack c) (w ++ takeZ n p ++ dropZ n tail) (ec_inst_buf c), Ok n).
Proof.
  intros Hf Ho Hb. cbv zeta. set (p := dropZ _ data). assert (len p = len data - es_payload_offset (ec_stream c)) as Hp by (apply len_dropZ; lia).
  pose proof (len_nonneg p). pose proof (len_nonneg tail). unfold encode_data_payload, current_frame. rewrite !bind_st. cbn [get_st]. rewrite Hf. cbn [mret ST_ret fr_payload data_frame].
  rewrite bind_st. cbn [get_st]. rewrite Hb, len_app, <- Hp. fold p.
  replace (len w + len tail - len w) with (len tail) by lia.
  destruct (Z.leb_spec (len p) (len tail)) as [Hle|Hgt]; rewrite bind_st; cbn [put_st]; rewrite copy_at_end.
  - rewrite Z.min_l by lia. rewrite (takeZ_all (len p)) by lia. done.
  - rewrite Z.min_r by lia. rewrite len_takeZ by lia. done.
Qed.

Lemma takeZ_app_min {A} (w p : list A) n m : 0 ≤ n → m = Z.min (len w + len p) (len w + n) → w ++ takeZ (Z.min (len p) n) p = takeZ m (w ++ p).
Proof.
  intros Hn ->. pose proof (len_nonneg p). rewrite takeZ_app_ge by lia. do 2 f_equal. lia.
Qed.

Lemma dropZ_app_min {A} (w p : list A) n m : 0 ≤ n → m = Z.min (len w + len p) (len w + n) → dropZ (Z.min (len p) n) p = dropZ m (w ++ p).
Proof.
  intros Hn ->. pose proof (len_nonneg p). rewrite dropZ_app_ge by lia. f_equal. lia.
Qed.

Lemma dropZ_offset {A} (l : list A) o n : 0 ≤ o → 0 ≤ n → dropZ (o + n) l = dropZ n (dropZ o l).
Proof. intros. by rewrite dropZ_dropZ. Qed.

(** ** Settings *)

Lemma settings_size_from w l : Forall (λ p, is_varint p.1 ∧ is_varint p.2) l → settings_size w l = Ok (w + len (l ≫= setting_wire)).
Proof.
  intros Hl. revert w. induction Hl as [|[k v] l [Hk Hv] Hl IH]; intros w; [change (len ([] ≫= setting_wire)) with 0; by rewrite Z.add_0_r|].
  cbn [settings_size fst snd] in *. rewrite !varint_len_size by done. cbn [mbind result_mbind result_bind]. rewrite IH, bind_cons, len_app. unfold setting_wire at 2.
  cbn [fst snd]. rewrite len_app, !length_varint_wire. f_equal. lia.
Qed.

Lemma put_settings_at w0 l : Forall (λ p, is_varint p.1 ∧ is_varint p.2) l → ∀ w tail c, ec_frame_buf c = (w0 ++ w) ++ tail →
  len (l ≫= setting_wire) ≤ len tail →
  put_settings (len w0) (len w) l c =
    (ec_set_frame_buf ((w0 ++ w) ++ (l ≫= setting_wire) ++ dropZ (len (l ≫= setting_wire)) tail) c, Ok (len w + len (l ≫= setting_wire))).
Proof.
  induction 1 as [|[k v] l [Hk Hv] Hl IH]; intros w tail c Hb Ht.
  - cbn [mbind list_bind app put_settings]. change (len []) with 0. rewrite dropZ_0, Z.add_0_r, <- Hb. by destruct c.
  - rewrite bind_cons in *. unfold setting_wire at 1 in Ht. unfold setting_wire at 1 3 5. cbn [fst snd put_settings] in *. rewrite !len_app in Ht.
    pose proof (len_nonneg (varint_wire v)). pose proof (len_nonneg (l ≫= setting_wire)).
    rewrite bind_st, <- len_app, (put_varint_at (w0 ++ w) k tail c) by (done || lia).
    set (c1 := ec_set_frame_buf _ c). set (t1 := dropZ (len (varint_wire k)) tail) in *.
    assert (len t1 = len tail - len (varint_wire k)) as Ht1 by (apply len_dropZ; pose proof (len_nonneg (varint_wire k)); lia).
    assert (ec_frame_buf c1 = ((w0 ++ w) ++ varint_wire k) ++ t1) as H1 by (unfold c1; cbn; by rewrite <- !app_assoc).
    rewrite bind_st. replace (len w0 + (len w + len (varint_wire k))) with (len ((w0 ++ w) ++ varint_wire k)) by (rewrite !len_app; lia).
    rewrite (put_varint_at _ v _ c1 H1) by (done || lia).
    replace (len w + len (varint_wire k) + len (varint_wire v)) with (len (w ++ varint_wire k ++ varint_wire v)) by (rewrite !len_app; lia).
    rewrite (IH _ (dropZ (len (varint_wire v)) t1)); [|cbn; by rewrite <- !app_assoc|rewrite len_dropZ; lia].
    unfold t1. pose proof (len_nonneg (varint_wire k)). rewrite !dropZ_dropZ, !len_app, <- !app_assoc by lia. unfold c1, ec_set_frame_buf. cbn [ec_stream ec_qpack ec_inst_buf].
    f_equal; [f_equal|f_equal; lia]. do 6 f_equal. lia.
Qed.

(** ** Header blocks *)

Definition after_repr (n : Z) (h : EncHeaders) (w tail : bytes) (c : EncCtx) : EncCtx :=
  ec_set_frame_buf (w ++ takeZ n (dropZ (eh_repr_offset h) (eh_fields h)) ++ dropZ n tail)
    (ec_set_stream (es_set_headers (Some (repr_offset_inc n h)) (ec_stream c)) c).

Lemma headers_repr_at h w tail c : es_headers_message (ec_stream c) = Some h → 0 ≤ eh_repr_offset h ≤ len (eh_fields h) → ec_frame_buf c = w ++ tail →
  let n := Z.min (remaining_repr h) (len tail) in encode_headers_repr (len w) c = (after_repr n h w tail c, Ok n).
Proof.
  intros Hh Ho Hb n. unfold encode_headers_repr. rewrite bind_st. cbn [get_st]. rewrite Hh, Hb, len_app.
  replace (len w + len tail - len w) with (len tail) by lia.
  assert ((if remaining_repr h <=? len tail then remaining_repr h else len tail) = n) as ->.
  { unfold n. destruct (Z.leb_spec (remaining_repr h) (len tail)); lia. }
  rewrite bind_st. cbn [put_st mret ST_ret]. rewrite copy_at_end, len_takeZ; [done|].
  pose proof (len_nonneg tail). rewrite len_dropZ by lia. unfold n, remaining_repr. lia.
Qed.

Definition after_inst (m : Z) (h : EncHeaders) (c : EncCtx) : EncCtx :=
  ec_set_inst_buf (takeZ m (dropZ (eh_inst_offset h) (eh_inst h)) ++ dropZ m (ec_inst_buf c))
    (ec_set_stream (es_set_headers (Some (inst_offset_inc m h)) (ec_stream c)) c).

Lemma qpack_inst_at h c : es_headers_message (ec_stream c) = Some h → 0 ≤ eh_inst_offset h ≤ len (eh_inst h) →
  let m := Z.min (remaining_inst h) (len (ec_inst_buf c)) in encode_qpack_inst c = (after_inst m h c, Ok m).
Proof.
  intros Hh Ho m. unfold encode_qpack_inst. rewrite bind_st. cbn [get_st]. rewrite Hh.
  assert ((if remaining_inst h <=? len (ec_inst_buf c) then remaining_inst h else len (ec_inst_buf c)) = m) as ->.
  { unfold m. destruct (Z.leb_spec (remaining_inst h) (len (ec_inst_buf c))); lia. }
  rewrite bind_st. cbn [put_st mret ST_ret]. change (copy_at 0) with (copy_at (len (@nil Z))). rewrite (copy_at_end [] _ (ec_inst_buf c)), len_takeZ; [done|].
  pose proof (len_nonneg (ec_inst_buf c)). rewrite len_dropZ by lia. unfold m, remaining_inst. lia.
Qed.

(** ** What a stream has still to write *)

Definition ready (s : EncodedH3Stream) : Prop := es_headers_message s = None ∧ es_payload_offset s = 0.
Definition settings_ok (s : Settings) : Prop :=
  Forall (λ p, is_varint p.1 ∧ is_varint p.2) (settings_list s) ∧ len (default [] (se_additional s)) ≤ 50.

Definition settings_frame (s : Settings) : Frame := mkFrame SETTINGS_FRAME_TYPE (PSettings s).
Definition headers_frame (p : Parts) (i : option bytes) : Frame := mkFrame HEADERS_FRAME_TYPE (PHeaders p i).

(** [h3_pending q s wire inst]: on stream [s], with QPACK encoder [q], [wire]
    and [inst] are still to go to the frame buffer and to the instruction
    buffer. *)
Definition h3_pending (q : QpackEncoder.QpackEncoder) (s : EncodedH3Stream) (wire inst : bytes) : Prop :=
  match es_state s with
  | FrameComplete => ready s ∧ wire = [] ∧ inst = []
  | EncodingDataFrame =>
      ready s ∧ ∃ d, es_current_frame s = Some (data_frame d) ∧ is_varint (len d) ∧ wire = frame_wire DATA_FRAME_TYPE d ∧ inst = []
  | EncodingDataPayload =>
      es_headers_message s = None ∧
      ∃ d, es_current_frame s = Some (data_frame d) ∧ 0 ≤ es_payload_offset s < len d ∧ wire = dropZ (es_payload_offset s) d ∧ inst = []
  | EncodingSettingsFrame =>
      ready s ∧ ∃ st, es_current_frame s = Some (settings_frame st) ∧ settings_ok st ∧ wire = frame_wire SETTINGS_FRAME_TYPE (settings_list st ≫= setting_wire) ∧ inst = []
  | EncodingHeadersFrame =>
      ready s ∧ ∃ p i q' f, es_current_frame s = Some (headers_frame p i) ∧ QpackEncoder.qe_encode (es_stream_id s) q = (q', Ok (f, inst)) ∧
        is_varint (len f) ∧ wire = frame_wire HEADERS_FRAME_TYPE f
  | EncodingHeadersPayload =>
      es_payload_offset s = 0 ∧ ∃ p i h, es_current_frame s = Some (headers_frame p i) ∧ es_headers_message s = Some h ∧
        0 ≤ eh_repr_offset h ≤ len (eh_fields h) ∧ 0 ≤ eh_inst_offset h ≤ len (eh_inst h) ∧
        wire = dropZ (eh_repr_offset h) (eh_fields h) ∧ inst = dropZ (eh_inst_offset h) (eh_inst h) ∧ (wire ≠ [] ∨ inst ≠ [])
  | _ => False
  end.

(** What a call has written: the first [n] and [m] bytes, in front of what the
    buffers held. *)
Definition wrote (wire inst : bytes) (fb ib : bytes) (c : EncCtx) (r : result H3Error (Z * Z)) : Prop :=
  let n := Z.min (len wire) (len fb) in
  let m := Z.min (len inst) (len ib) in
  r = Ok (n, m) ∧ ec_frame_buf c = takeZ n wire ++ dropZ n fb ∧ ec_inst_buf c = takeZ m inst ++ dropZ m ib ∧
  h3_pending (ec_qpack c) (ec_stream c) (dropZ n wire) (dropZ m inst).

(** The payload of DATA, behind what this call has written of the frame. *)
Lemma data_call fuel q s d ib w tail : es_headers_message s = None → es_current_frame s = Some (data_frame d) →
  es_state s = EncodingDataPayload → 0 ≤ es_payload_offset s ≤ len d → 0 < len tail →
  let '(c, r) := encode_turns (S fuel) (len w) (mkEncCtx s q (w ++ tail) ib) in
  wrote (w ++ dropZ (es_payload_offset s) d) [] (w ++ tail) ib c r.
Proof.
  intros Hh Hf Hs Ho Ht. rewrite encode_turns_step by (cbn; rewrite len_app; lia). rewrite bind_st. unfold encode_turn. rewrite bind_st. cbn [get_st ec_stream]. rewrite Hs.
  pose proof (data_payload_at d w tail (mkEncCtx s q (w ++ tail) ib) Hf Ho eq_refl) as H. cbv zeta in H. cbn [ec_stream ec_qpack ec_inst_buf] in H.
  set (p := dropZ (es_payload_offset s) d) in *. assert (len p = len d - es_payload_offset s) as Hp by (apply len_dropZ; lia).
  rewrite bind_st, H. cbn [mret ST_ret]. unfold wrote. cbn [ec_frame_buf ec_inst_buf ec_qpack ec_stream]. change (len (@nil Z)) with 0.
  pose proof (len_nonneg p). pose proof (len_nonneg ib). pose proof (len_nonneg w). rewrite !len_app, (Z.min_l 0) by lia. set (n := Z.min (len p) (len tail)).
  assert (Z.min (len w + len p) (len w + len tail) = len w + n) as -> by (unfold n; lia).
  assert (0 ≤ n) by (unfold n; lia).
  split; [do 2 f_equal; lia|]. split; [rewrite takeZ_app_ge, dropZ_app_ge, <- app_assoc by lia; do 4 f_equal; lia|]. split; [done|].
  rewrite dropZ_app_ge by lia. replace (len w + n - len w) with n by lia. unfold h3_pending, ready.
  destruct (Z.leb_spec (len p) (len tail)).
  - cbn. unfold n. rewrite Z.min_l by lia. split_and!; [done|done|by apply dropZ_all|done].
  - cbn [es_state es_set_offset es_headers_message es_current_frame es_payload_offset]. rewrite Hs. split; [done|]. exists d. split; [done|].
    unfold n. split; [lia|]. split; [|done]. rewrite dropZ_offset by lia. f_equal.
Qed.

(** The start of the buffer is overwritten: only its length plays a part. *)
Lemma wrote_buf wire inst w2 rest fb ib c r : len w2 ≤ len fb → (∃ p, wire = w2 ++ p) → rest = dropZ (len w2) fb →
  wrote wire inst (w2 ++ rest) ib c r → wrote wire inst fb ib c r.
Proof.
  intros Hl [p ->] -> H. pose proof (len_nonneg w2). assert (len (w2 ++ dropZ (len w2) fb) = len fb) as El by (rewrite len_app, len_dropZ; lia).
  unfold wrote in *. cbv zeta in *. rewrite El in H. destruct H as (H1 & H2 & H3). split; [done|]. split; [|done]. rewrite H2. f_equal.
  rewrite len_app. pose proof (len_nonneg p). rewrite dropZ_app_ge by lia. rewrite dropZ_dropZ by lia. f_equal. lia.
Qed.

(** The calls that begin a frame: type and length, then the payload. *)
Lemma data_begin q s d fb ib : ready s → es_current_frame s = Some (data_frame d) → es_state s = EncodingDataFrame → is_varint (len d) → 1024 ≤ len fb →
  let '(c, r) := encode_turns 3 0 (mkEncCtx s q fb ib) in wrote (frame_wire DATA_FRAME_TYPE d) [] fb ib c r.
Proof.
  intros [Hh Ho] Hf Hs Hd Hfb. rewrite encode_turns_step by (cbn; lia). rewrite bind_st. unfold encode_turn. rewrite bind_st. cbn [get_st ec_stream]. rewrite Hs.
  rewrite bind_st, (encode_frame_type_at (data_frame d)) by (done || (cbn; lia)). cbn [fr_ty data_frame ec_frame_buf].
  set (w := varint_wire DATA_FRAME_TYPE) in *. pose proof (varint_wire_len (len d)). pose proof (varint_wire_len DATA_FRAME_TYPE). fold w in H0.
  set (c1 := ec_set_frame_buf _ _). rewrite bind_st. unfold encode_data_len, current_frame. rewrite !bind_st. cbn [get_st].
  change (es_current_frame (ec_stream c1)) with (es_current_frame s). rewrite Hf. cbn [mret ST_ret fr_payload data_frame].
  rewrite Z.add_0_l, (put_varint_at w (len d) (dropZ (len w) fb) c1) by (done || (rewrite len_dropZ; lia)).
  rewrite bind_st. unfold set_state, modify_st. cbn [mret ST_ret]. rewrite <- len_app. set (w2 := w ++ varint_wire (len d)).
  unfold c1, ec_set_frame_buf, ec_set_stream. cbn [ec_stream ec_qpack ec_inst_buf ec_frame_buf]. rewrite dropZ_dropZ by lia.
  rewrite (app_assoc w), <- len_app. fold w2. set (tail := dropZ (len w2) fb).
  assert (len w2 ≤ 16) as Hw2 by (unfold w2; rewrite len_app; lia).
  assert (0 < len tail) by (unfold tail; rewrite len_dropZ; pose proof (len_nonneg w2); lia).
  pose proof (data_call 1 q (es_set_state EncodingDataPayload s) d ib w2 tail Hh Hf eq_refl) as H2. cbn [es_payload_offset es_set_state] in H2.
  rewrite Ho in H2. specialize (H2 ltac:(pose proof (len_nonneg d); lia) ltac:(lia)). rewrite dropZ_0 in H2.
  destruct (encode_turns 2 _ _) as [c r]. unfold frame_wire. fold w. rewrite app_assoc. fold w2.
  apply (wrote_buf _ _ w2 tail); [lia|by eexists|done|exact H2].
Qed.

Lemma settings_fixed_len s : len (settings_fixed s) ≤ 5.
Proof. unfold settings_fixed. rewrite !len_app. by destruct (se_max_field_section_size s), (se_connect_protocol_enabled s), (se_qpack_max_table_capacity s), (se_qpack_blocked_streams s), (se_h3_datagram s). Qed.

Lemma settings_wire_bound l n : len l ≤ n → len (l ≫= setting_wire) ≤ 16 * n.
Proof.
  intros Hn. transitivity (16 * len l); [|lia]. clear Hn. induction l as [|[k v] l IH]; [done|]. rewrite bind_cons, !len_app, len_cons. unfold setting_wire at 1.
  rewrite len_app. cbn [fst snd]. pose proof (varint_wire_len k). pose proof (varint_wire_len v). lia.
Qed.

(** A frame that fits the buffer. *)
Lemma wrote_all wire fb ib c r : len wire ≤ len fb → r = Ok (len wire, 0) → ec_frame_buf c = wire ++ dropZ (len wire) fb → ec_inst_buf c = ib →
  h3_pending (ec_qpack c) (ec_stream c) [] [] → wrote wire [] fb ib c r.
Proof.
  intros Hl -> Hb Hi Hp. unfold wrote. change (len []) with 0. pose proof (len_nonneg ib). rewrite !Z.min_l by lia.
  rewrite (takeZ_all (len wire)) by lia. rewrite (dropZ_all (len wire) wire) by lia. by rewrite Hb, Hi.
Qed.

Lemma settings_begin q s st fb ib : ready s → es_current_frame s = Some (settings_frame st) → es_state s = EncodingSettingsFrame → settings_ok st → 1024 ≤ len fb →
  let '(c, r) := encode_turns 3 0 (mkEncCtx s q fb ib) in wrote (frame_wire SETTINGS_FRAME_TYPE (settings_list st ≫= setting_wire)) [] fb ib c r.
Proof.
  intros Hr Hf Hs [Hv Ha] Hfb. set (p := settings_list st ≫= setting_wire).
  assert (len (settings_list st) ≤ 55) as Hp%settings_wire_bound by (unfold settings_list; rewrite len_app; pose proof (settings_fixed_len st); lia). fold p in Hp.
  assert (is_varint (len p)) as Hpv by (unfold is_varint; pose proof (len_nonneg p); lia).
  rewrite encode_turns_step by (cbn; lia). rewrite bind_st. unfold encode_turn at 1. rewrite bind_st. cbn [get_st ec_stream]. rewrite Hs.
  rewrite bind_st, (encode_frame_type_at (settings_frame st)) by (done || (cbn; lia)). cbn [fr_ty settings_frame ec_frame_buf].
  set (w := varint_wire SETTINGS_FRAME_TYPE) in *. pose proof (varint_wire_len (len p)). assert (len w = 1) as Hw by done.
  set (c1 := ec_set_frame_buf _ _). rewrite bind_st. unfold encode_settings_len, current_frame. rewrite !bind_st. cbn [get_st].
  change (es_current_frame (ec_stream c1)) with (es_current_frame s). rewrite Hf. cbn [mret ST_ret fr_payload settings_frame].
  apply Forall_app in Hv as Hv'. destruct Hv' as [Hv1 Hv2]. rewrite bind_st, settings_size_from by done. cbn [lift_res].
  destruct (Z.ltb_spec 50 (len (default [] (se_additional st)))); [lia|]. rewrite bind_st, settings_size_from by done. cbn [lift_res].
  assert (0 + len (settings_fixed st ≫= setting_wire) + len (default [] (se_additional st) ≫= setting_wire) = len p) as ->.
  { unfold p, settings_list. rewrite bind_app, len_app. lia. }
  rewrite Z.add_0_l, (put_varint_at w (len p) (dropZ (len w) fb) c1) by (done || (rewrite len_dropZ; lia)).
  rewrite bind_st. unfold set_state, modify_st. cbn [mret ST_ret]. rewrite <- len_app. set (w2 := w ++ varint_wire (len p)).
  unfold c1, ec_set_frame_buf, ec_set_stream. cbn [ec_stream ec_qpack ec_inst_buf ec_frame_buf]. rewrite dropZ_dropZ by lia.
  rewrite (app_assoc w), <- len_app. fold w2. set (tail := dropZ (len w2) fb).
  assert (len w2 ≤ 16) as Hw2 by (unfold w2; rewrite len_app; lia). pose proof (len_nonneg w2).
  assert (len p ≤ len tail) by (unfold tail; rewrite len_dropZ; lia).
  rewrite encode_turns_step by (cbn; rewrite len_app; pose proof (len_nonneg p); unfold tail; rewrite len_dropZ; lia).
  rewrite bind_st. unfold encode_turn. rewrite bind_st. cbn [get_st ec_stream es_state es_set_state].
  unfold encode_settings_payload, current_frame. rewrite !bind_st. cbn [get_st ec_stream es_current_frame es_set_state]. rewrite Hf. cbn [mret ST_ret fr_payload settings_frame].
  rewrite bind_st. unfold set_state, modify_st. change 0 with (len (@nil Z)) at 1.
  rewrite (put_settings_at w2 (settings_list st) Hv [] tail) by (cbn; by rewrite ?app_nil_r). cbn [mret ST_ret].
  assert (frame_wire SETTINGS_FRAME_TYPE p = w2 ++ p) as -> by (unfold frame_wire; fold w; by rewrite app_assoc).
  apply (wrote_buf _ _ w2 tail); [lia|by eexists|done|]. apply wrote_all; fold p.
  - rewrite !len_app. lia.
  - rewrite len_app. change (len []) with 0. do 2 f_equal. lia.
  - cbn [ec_frame_buf ec_set_frame_buf]. pose proof (len_nonneg p). rewrite app_nil_r, dropZ_app_ge by (rewrite len_app; lia).
    rewrite len_app, <- app_assoc. do 3 f_equal. lia.
  - done.
  - cbn. destruct Hr. by split_and!.
Qed.

(** The rest of a header block and of its instructions. *)
Lemma headers_rest w tail q s p i h ib : es_payload_offset s = 0 → es_current_frame s = Some (headers_frame p i) → es_state s = EncodingHeadersPayload →
  es_headers_message s = Some h → 0 ≤ eh_repr_offset h ≤ len (eh_fields h) → 0 ≤ eh_inst_offset h ≤ len (eh_inst h) →
  let n := Z.min (remaining_repr h) (len tail) in
  let m := Z.min (remaining_inst h) (len ib) in
  ∃ c, encode_headers_repr_and_inst (len w) (mkEncCtx s q (w ++ tail) ib) = (c, Ok (n, m)) ∧
    wrote (w ++ dropZ (eh_repr_offset h) (eh_fields h)) (dropZ (eh_inst_offset h) (eh_inst h)) (w ++ tail) ib c (Ok (len w + n, m)).
Proof.
  intros Ho Hf Hs Hh Hr Hi n m. unfold encode_headers_repr_and_inst. rewrite bind_st, (headers_repr_at h w tail) by done. fold n.
  rewrite bind_st, (qpack_inst_at (repr_offset_inc n h)) by done. change (remaining_inst (repr_offset_inc n h)) with (remaining_inst h).
  change (ec_inst_buf (after_repr _ _ _ _ _)) with ib. fold m. rewrite bind_st. cbn [get_st].
  set (h' := inst_offset_inc m (repr_offset_inc n h)). set (c := after_inst m _ _).
  change (es_headers_message (ec_stream c)) with (Some h').
  set (pr := dropZ (eh_repr_offset h) (eh_fields h)). set (pi := dropZ (eh_inst_offset h) (eh_inst h)).
  assert (len pr = remaining_repr h) as Lr by (apply len_dropZ; lia). assert (len pi = remaining_inst h) as Li by (apply len_dropZ; lia).
  pose proof (len_nonneg pr). pose proof (len_nonneg pi). pose proof (len_nonneg tail). pose proof (len_nonneg ib). pose proof (len_nonneg w).
  assert (0 ≤ n ∧ 0 ≤ m) as [Hn Hm] by (unfold n, m; lia).
  assert (remaining_repr h' = remaining_repr h - n) as Er by (unfold remaining_repr, h'; cbn; lia).
  assert (remaining_inst h' = remaining_inst h - m) as Ei by (unfold remaining_inst, h'; cbn; lia).
  assert (∀ c', ec_frame_buf c' = ec_frame_buf c → ec_inst_buf c' = ec_inst_buf c → h3_pending (ec_qpack c') (ec_stream c') (dropZ n pr) (dropZ m pi) →
    wrote (w ++ pr) pi (w ++ tail) ib c' (Ok (len w + n, m))) as Hw.
  { intros c' E1 E2 E3. unfold wrote. rewrite !len_app, E1, E2, Lr, Li. fold m. replace (Z.min (len w + remaining_repr h) (len w + len tail)) with (len w + n) by (unfold n; lia).
    split; [done|]. rewrite takeZ_app_ge, !dropZ_app_ge by lia. replace (len w + n - len w) with n by lia. split; [|by split].
    by rewrite <- app_assoc. }
  assert (remaining_repr h - n ≠ 0 ∨ remaining_inst h - m ≠ 0 → h3_pending (ec_qpack c) (ec_stream c) (dropZ n pr) (dropZ m pi)) as Hp.
  { intros Hrest. unfold h3_pending. cbn [es_state ec_stream c after_inst after_repr ec_set_inst_buf ec_set_frame_buf ec_set_stream es_set_headers]. rewrite Hs.
    split; [done|]. exists p, i, h'. unfold remaining_repr, remaining_inst in *.
    split_and!; [done|done|cbn in *; lia|cbn in *; lia|cbn in *; lia|cbn in *; lia|unfold pr; by rewrite dropZ_dropZ by lia|unfold pi; by rewrite dropZ_dropZ by lia|].
    destruct Hrest; [left|right]; intros Hnil%(f_equal len); change (len []) with 0 in Hnil; rewrite len_dropZ in Hnil by lia; lia. }
  rewrite Er, Ei. destruct (Z.eqb_spec (remaining_repr h - n) 0) as [E1|E1], (Z.eqb_spec (remaining_inst h - m) 0) as [E2|E2]; cbn [andb]; rewrite bind_st;
    eexists; (split; [reflexivity|]); apply Hw; try done; [|apply Hp; lia..].
  unfold h3_pending. cbn. split_and!; [by split|apply dropZ_all; lia|apply dropZ_all; lia].
Qed.

Lemma dropZ_nil_iff {A} (l : list A) n : 0 ≤ n → dropZ n l = [] ↔ len l ≤ n.
Proof.
  intros Hn. split; [|apply dropZ_all]. intros H. destruct (Z.le_gt_cases (len l) n); [done|].
  apply (f_equal len) in H. rewrite len_dropZ in H by lia. change (len []) with 0 in H. lia.
Qed.

Lemma frame_wire_cons ty p : frame_wire ty p ≠ [].
Proof. intros H%(f_equal len). unfold frame_wire in H. rewrite len_app in H. pose proof (varint_wire_len ty). pose proof (len_nonneg (varint_wire (len p) ++ p)). change (len []) with 0 in H. lia. Qed.

Lemma h3_pending_done q s wire inst : h3_pending q s wire inst → es_state s = FrameComplete ↔ wire = [] ∧ inst = [].
Proof.
  unfold h3_pending. destruct (es_state s); try done; intros H; split; try done.
  - by intros _; destruct H as (_ & ?).
  - destruct H as (_ & p & i & q' & f & _ & _ & _ & ->). intros [H _]. by apply frame_wire_cons in H.
  - destruct H as (_ & p & i & h & _ & _ & _ & _ & _ & _ & [H|H]); by intros [? ?].
  - destruct H as (_ & d & _ & _ & -> & _). intros [H _]. by apply frame_wire_cons in H.
  - destruct H as (_ & d & _ & Ho & -> & _). intros [H _]. apply dropZ_nil_iff in H; lia.
  - destruct H as (_ & d & _ & _ & -> & _). intros [H _]. by apply frame_wire_cons in H.
Qed.

Lemma headers_call q s p i h fb ib : es_payload_offset s = 0 → es_current_frame s = Some (headers_frame p i) → es_state s = EncodingHeadersPayload →
  es_headers_message s = Some h → 0 ≤ eh_repr_offset h ≤ len (eh_fields h) → 0 ≤ eh_inst_offset h ≤ len (eh_inst h) → 0 < len fb →
  let '(c, r) := encode_turns 3 0 (mkEncCtx s q fb ib) in
  wrote (dropZ (eh_repr_offset h) (eh_fields h)) (dropZ (eh_inst_offset h) (eh_inst h)) fb ib c r.
Proof.
  intros Ho Hf Hs Hh Hr Hi Hfb. rewrite encode_turns_step by done. rewrite bind_st. unfold encode_turn. rewrite bind_st. cbn [get_st ec_stream]. rewrite Hs.
  rewrite bind_st. unfold encode_headers_payload, current_frame. rewrite !bind_st. cbn [get_st ec_stream]. rewrite Hf. cbn [mret ST_ret fr_payload headers_frame].
  unfold encode_headers_with_qpack. rewrite bind_st. cbn [get_st ec_stream]. rewrite Hh.
  destruct (headers_rest [] fb q s p i h ib Ho Hf Hs Hh Hr Hi) as (c & E & Hw). cbn [app] in E. change (len []) with 0 in *. rewrite E. cbn [mret ST_ret fst snd].
  by rewrite Z.add_0_r, Z.add_0_l in *.
Qed.

Lemma headers_begin q s p i q' f inst fb ib : ready s → es_current_frame s = Some (headers_frame p i) → es_state s = EncodingHeadersFrame →
  QpackEncoder.qe_encode (es_stream_id s) q = (q', Ok (f, inst)) → is_varint (len f) → 1024 ≤ len fb →
  let '(c, r) := encode_turns 3 0 (mkEncCtx s q fb ib) in wrote (frame_wire HEADERS_FRAME_TYPE f) inst fb ib c r.
Proof.
  intros [Hh Ho] Hf Hs Hq Hv Hfb. rewrite encode_turns_step by (cbn; lia). rewrite bind_st. unfold encode_turn at 1. rewrite bind_st. cbn [get_st ec_stream]. rewrite Hs.
  rewrite bind_st, (encode_frame_type_at (headers_frame p i)) by (done || (cbn; lia)). cbn [fr_ty headers_frame ec_frame_buf].
  set (w := varint_wire HEADERS_FRAME_TYPE) in *. pose proof (varint_wire_len (len f)). assert (len w = 1) as Hw by done.
  rewrite bind_st. unfold set_state, modify_st. cbn [mret ST_ret]. unfold ec_set_stream, ec_set_frame_buf. cbn [ec_stream ec_qpack ec_inst_buf ec_frame_buf].
  assert (len (w ++ dropZ (len w) fb) = len fb) as El by (rewrite len_app, len_dropZ; lia).
  rewrite encode_turns_step by (cbn [ec_frame_buf]; lia). rewrite bind_st. unfold encode_turn. rewrite bind_st. cbn [get_st ec_stream es_state es_set_state].
  rewrite bind_st. unfold encode_headers_payload, current_frame. rewrite !bind_st. cbn [get_st ec_stream es_current_frame es_set_state]. rewrite Hf. cbn [mret ST_ret fr_payload headers_frame].
  unfold encode_headers_with_qpack. rewrite bind_st. cbn [get_st ec_stream es_headers_message es_set_state]. rewrite Hh.
  rewrite bind_st. unfold qpack_encode. rewrite bind_st. cbn [get_st ec_qpack ec_stream es_stream_id es_set_state]. rewrite Hq, bind_st. cbn [put_st mret ST_ret].
  rewrite bind_st. unfold modify_st. cbn [fst snd]. set (c1 := ec_set_stream _ _). rewrite bind_st, Z.add_0_l.
  rewrite (put_varint_at w (len f) (dropZ (len w) fb) c1) by (done || (rewrite len_dropZ; lia)). rewrite <- len_app. set (w2 := w ++ varint_wire (len f)).
  rewrite dropZ_dropZ, (app_assoc w) by lia. rewrite <- len_app. fold w2. set (tail := dropZ (len w2) fb).
  assert (len w2 ≤ 16) as Hw2 by (unfold w2; rewrite len_app; lia).
  unfold c1, ec_set_stream, ec_set_frame_buf, ec_set_qpack. cbn [ec_stream ec_qpack ec_inst_buf ec_frame_buf]. rewrite bind_st.
  destruct (headers_rest w2 tail q' (es_set_headers (Some (mkEncHeaders f inst 0 0)) (es_set_state EncodingHeadersPayload s)) p i (mkEncHeaders f inst 0 0) ib)
    as (c & E & Hc); [done|done|done|done|cbn; pose proof (len_nonneg f); lia|cbn; pose proof (len_nonneg inst); lia|].
  rewrite E. cbn [mret ST_ret fst snd]. cbn [eh_repr_offset eh_inst_offset eh_fields eh_inst] in Hc. rewrite !dropZ_0 in Hc.
  assert (frame_wire HEADERS_FRAME_TYPE f = w2 ++ f) as -> by (unfold frame_wire; fold w; by rewrite app_assoc).
  apply (wrote_buf _ _ w2 tail); [lia|by eexists|done|].
  match goal with |- wrote _ _ _ _ _ (Ok (?x, _)) => replace x with (len w2 + Z.min (remaining_repr (mkEncHeaders f inst 0 0)) (len tail)) end; [done|].
  unfold w2. rewrite len_app. lia.
Qed.

(** Whatever a stream has to write, a call writes as much of it as the buffers
    take. *)
Lemma turns_wrote q s wire inst fb ib : h3_pending q s wire inst → 1024 ≤ len fb →
  let '(c, r) := encode_turns 3 0 (mkEncCtx s q fb ib) in wrote wire inst fb ib c r.
Proof.
  intros Hp Hfb. unfold h3_pending in Hp. destruct (es_state s) eqn:Es; try done.
  - destruct Hp as (Hr & -> & ->). rewrite encode_turns_step by (cbn; lia). rewrite bind_st. unfold encode_turn. rewrite bind_st. cbn [get_st ec_stream]. rewrite Es.
    apply wrote_all; rewrite ?len_nil, ?dropZ_0; [lia|done..|]. unfold h3_pending. cbn [ec_stream]. by rewrite Es.
  - destruct Hp as (Hr & p & i & q' & f & Hf & Hq & Hv & ->). by eapply headers_begin.
  - destruct Hp as (Ho & p & i & h & Hf & Hh & Hr & Hi & -> & -> & _). eapply headers_call; try done. lia.
  - destruct Hp as (Hr & d & Hf & Hv & -> & ->). by apply data_begin.
  - destruct Hp as (Hh & d & Hf & Ho & -> & ->). apply (data_call 2 q s d ib [] fb); try done; lia.
  - destruct Hp as (Hr & st & Hf & Hok & -> & ->). by apply settings_begin.
Qed.

(** [encode] called once for each pair of buffers: the bytes it says it wrote. *)
Fixpoint encode_calls (id : Z) (bufs : list (bytes * bytes)) : ST FrameEncoder H3Error (bytes * bytes) :=
  match bufs with
  | [] => mret ([], [])
  | (fb, ib) :: bufs =>
      r ← h3_encode id fb ib;
      k ← encode_calls id bufs;
      mret (takeZ r.2.1 r.1.1 ++ k.1, takeZ r.2.2 r.1.2 ++ k.2)
  end.

Definition room (bufs : list (bytes * bytes)) : Z := foldr (λ b n, len b.1 + n) 0 bufs.
Definition inst_room (bufs : list (bytes * bytes)) : Z := foldr (λ b n, len b.2 + n) 0 bufs.
Lemma room_nonneg bufs : 0 ≤ room bufs ∧ 0 ≤ inst_room bufs.
Proof. induction bufs as [|[a b] bufs [IH1 IH2]]; [done|]. unfold room, inst_room in *. cbn. pose proof (len_nonneg a). pose proof (len_nonneg b). lia. Qed.

Lemma h3_encode_call e id s wire inst fb ib : fe_streams e !! id = Some s → h3_pending (fe_qpack_encoder e) s wire inst → 1024 ≤ len fb →
  ∃ fb' ib' q' s', let n := Z.min (len wire) (len fb) in let m := Z.min (len inst) (len ib) in
    h3_encode id fb ib e = (mkFrameEncoder q' (<[id := s']> (fe_streams e)), Ok (fb', ib', (n, m))) ∧
    takeZ n fb' = takeZ n wire ∧ takeZ m ib' = takeZ m inst ∧ h3_pending q' s' (dropZ n wire) (dropZ m inst).
Proof.
  intros Hs Hp Hfb. pose proof (turns_wrote _ _ _ _ fb ib Hp Hfb) as H. unfold h3_encode. rewrite bind_st. cbn [get_st].
  destruct (Z.ltb_spec (len fb) 1024); [lia|]. rewrite Hs. destruct (encode_turns 3 0 _) as [c r]. destruct H as (-> & Hf & Hi & Hp').
  rewrite bind_st. cbn [put_st]. do 4 eexists. split; [reflexivity|]. cbv zeta. rewrite Hf, Hi.
  pose proof (len_nonneg wire). pose proof (len_nonneg inst). pose proof (len_nonneg ib).
  split; [|split; [|done]]; (rewrite takeZ_app_le by (rewrite len_takeZ; lia); apply takeZ_all; rewrite len_takeZ; lia).
Qed.

Lemma takeZ_min_app {A} (l : list A) n k : 0 ≤ n → 0 ≤ k → takeZ (Z.min (len l) n) l ++ takeZ k (dropZ (Z.min (len l) n) l) = takeZ (n + k) l.
Proof.
  intros Hn Hk. pose proof (len_nonneg l). destruct (Z.le_ge_cases (len l) n).
  - rewrite Z.min_l, takeZ_all, dropZ_all, (takeZ_all (n + k)) by lia. destruct (takeZ k []) eqn:E; [by rewrite app_nil_r|]. unfold takeZ in E. by rewrite take_nil in E.
  - rewrite Z.min_r by lia. unfold takeZ, dropZ. rewrite Z2Nat.inj_add by lia. by rewrite take_take_drop.
Qed.
Lemma dropZ_min_app {A} (l : list A) n k : 0 ≤ n → 0 ≤ k → dropZ k (dropZ (Z.min (len l) n) l) = dropZ (n + k) l.
Proof.
  intros Hn Hk. pose proof (len_nonneg l). destruct (Z.le_ge_cases (len l) n).
  - rewrite Z.min_l, (dropZ_all (len l)), (dropZ_all (n + k)) by lia. unfold dropZ. by rewrite drop_nil.
  - rewrite Z.min_r by lia. by rewrite dropZ_dropZ.
Qed.

Lemma encode_calls_pending bufs : ∀ e id s wire inst, fe_streams e !! id = Some s → h3_pending (fe_qpack_encoder e) s wire inst →
  Forall (λ b, 1024 ≤ len b.1) bufs →
  ∃ e' s', encode_calls id bufs e = (e', Ok (takeZ (room bufs) wire, takeZ (inst_room bufs) inst)) ∧
    fe_streams e' = <[id := s']> (fe_streams e) ∧ h3_pending (fe_qpack_encoder e') s' (dropZ (room bufs) wire) (dropZ (inst_room bufs) inst).
Proof.
  induction bufs as [|[fb ib] bufs IH]; intros e id s wire inst Hs Hp Hb.
  - exists e, s. split; [done|]. change (room []) with 0. change (inst_room []) with 0. rewrite !dropZ_0. split; [by rewrite insert_id|done].
  - apply Forall_cons in Hb as [Hfb Hb]. cbn [fst] in Hfb. destruct (h3_encode_call e id s wire inst fb ib Hs Hp Hfb) as (fb' & ib' & q1 & s1 & E & E1 & E2 & Hp1).
    cbn [encode_calls]. rewrite bind_st, E. cbn [fst snd]. set (e1 := mkFrameEncoder q1 _) in *.
    destruct (IH e1 id s1 _ _ (lookup_insert_eq _ _ _) Hp1 Hb) as (e2 & s2 & E3 & E4 & Hp2). rewrite bind_st, E3. cbn [mret ST_ret fst snd].
    destruct (room_nonneg bufs). pose proof (len_nonneg fb). pose proof (len_nonneg ib).
    exists e2, s2. rewrite E1, E2, !takeZ_min_app by done. rewrite !dropZ_min_app in Hp2 by done. split; [done|]. split; [|done].
    rewrite E4. cbn. by rewrite insert_insert_eq.
Qed.

(** C8: For a stream with a HEADERS, DATA or SETTINGS frame to write, calls of the
    HTTP/3 frame encoder with frame buffers of at least 1024 bytes each (with less,
    encode fails and writes nothing, encoder.rs:185) and instruction buffers of any
    sizes write the frame in the layout of RFC 9114, cut where the buffers end, and
    the instructions of its header block, each byte once and in order; the frame is
    complete exactly when both are written, and the other streams are left as they
    were. *)
Theorem h3_encode_refines (e : FrameEncoder) (id : Z) (s : EncodedH3Stream) (wire inst : bytes) (bufs : list (bytes * bytes)) 
    (Hs : fe_streams e !! id = Some s) (Hp : h3_pending (fe_qpack_encoder e) s wire inst) (Hb : Forall (λ b, 1024 ≤ len b.1) bufs) :
  ∃ e' s', encode_calls id bufs e = (e', Ok (takeZ (room bufs) wire, takeZ (inst_room bufs) inst)) ∧
    fe_streams e' = <[id := s']> (fe_streams e) ∧
    h3_pending (fe_qpack_encoder e') s' (dropZ (room bufs) wire) (dropZ (inst_room bufs) inst) ∧
    (es_state s' = FrameComplete ↔ len wire ≤ room bufs ∧ len inst ≤ inst_room bufs).
Proof.
  destruct (encode_calls_pending bufs e id s wire inst Hs Hp Hb) as (e' & s' & E & Es & Hp'). exists e', s'. split_and!; [done..|].
  rewrite (h3_pending_done _ _ _ _ Hp'). by rewrite !dropZ_nil_iff by apply room_nonneg.
Qed.

Definition data_stream : EncodedH3Stream := mkEncStream 4 None (Some (data_frame (bs "abc"))) EncodingDataFrame 0.

Lemma h3_encode_refines_witness :
  ∃ e' s', encode_calls 4 [(replicate 1024 0, [])] (mkFrameEncoder QpackEncoder.QpackEncoder_default {[ 4 := data_stream ]}) = (e', Ok ([0; 3; 97; 98; 99], [])) ∧
    es_state s' = FrameComplete.
Proof.
  destruct (h3_encode_refines (mkFrameEncoder QpackEncoder.QpackEncoder_default {[ 4 := data_stream ]}) 4 data_stream [0; 3; 97; 98; 99] [] [(replicate 1024 0, [])])
    as (e' & s' & E & _ & _ & H).
  - apply lookup_singleton_eq.
  - split; [done|]. exists (bs "abc"). split_and!; [done|unfold is_varint; vm_compute; split; congruence|done|done].
  - by repeat constructor.
  - exists e', s'. split; [exact E|]. by apply H.
Defined.

(** ** The QPACK encoder over the calls *)

(** What every header block preserves, [encode] preserves. *)
Section kept.
Context (P : QpackEncoder.QpackEncoder → Prop) (HP : ∀ sid q, P q → P (QpackEncoder.qe_encode sid q).1).

Definition keeps {A} (m : EC A) : Prop := ∀ c, P (ec_qpack c) → P (ec_qpack (m c).1).

Lemma keeps_ret {A} (a : A) : keeps (mret a).
Proof. by intros c. Qed.
Lemma keeps_get : keeps get_st.
Proof. by intros c. Qed.
Lemma keeps_throw {A} e : keeps (throw e : EC A).
Proof. by intros c. Qed.
Lemma keeps_panic {A} : keeps (panic : EC A).
Proof. by intros c. Qed.
Lemma keeps_lift {A} (r : result H3Error A) : keeps (lift_res r).
Proof. intros c. by destruct r. Qed.
Lemma keeps_modify f : (∀ c, ec_qpack (f c) = ec_qpack c) → keeps (modify_st f).
Proof. intros Hf c. cbn. by rewrite Hf. Qed.
Lemma keeps_bind {A B} (m : EC A) (f : A → EC B) : keeps m → (∀ a, keeps (f a)) → keeps (m ≫= f).
Proof. intros Hm Hf c Hc. rewrite bind_st. specialize (Hm c Hc). destruct (m c) as [c' [a|e|]]; [by apply Hf|done..]. Qed.
(** The state is read, and put back with another stream or other buffers. *)
Lemma keeps_get_bind {A} (f : EncCtx → EC A) : (∀ c, P (ec_qpack c) → P (ec_qpack (f c c).1)) → keeps (c ← get_st; f c).
Proof. intros H c Hc. rewrite bind_st. by apply H. Qed.

Lemma keeps_put_varint off v : keeps (put_varint off v).
Proof. intros c Hc. unfold put_varint. rewrite bind_st. cbn [get_st]. by destruct (encode_var_integer _ _) as [[b n]| |]. Qed.
Lemma keeps_current : keeps current_frame.
Proof. intros c Hc. unfold current_frame. rewrite bind_st. cbn [get_st]. by destruct (es_current_frame _). Qed.
Lemma keeps_state st : keeps (set_state st).
Proof. by apply keeps_modify. Qed.
Lemma keeps_wrong {A} : keeps (wrong_type : EC A).
Proof. apply keeps_throw. Qed.

Create HintDb keeps.
#[local] Hint Resolve keeps_ret keeps_get keeps_throw keeps_panic keeps_lift keeps_put_varint keeps_current keeps_state keeps_wrong : keeps.
#[local] Ltac keeps := repeat first [solve [eauto with keeps] | apply keeps_bind; [|intros ?] | case_match].

Lemma keeps_type : keeps encode_frame_type.
Proof. unfold encode_frame_type. keeps. Qed.
Lemma keeps_data_len off : keeps (encode_data_len off).
Proof. unfold encode_data_len. keeps. Qed.
Lemma keeps_data_payload off : keeps (encode_data_payload off).
Proof.
  unfold encode_data_payload. apply keeps_bind; [keeps|]. intros f. destruct (fr_payload f); try apply keeps_wrong.
  apply keeps_get_bind. intros c Hc. by destruct (_ <=? _).
Qed.
Lemma keeps_id off id : keeps (encode_id off id).
Proof. unfold encode_id. keeps. Qed.
Lemma keeps_settings_len off : keeps (encode_settings_len off).
Proof. unfold encode_settings_len. keeps. Qed.
Lemma keeps_put_settings off l : ∀ n, keeps (put_settings off n l).
Proof. induction l as [|[k v] l IH]; intros n; cbn [put_settings]; keeps. Qed.
#[local] Hint Resolve keeps_type keeps_data_len keeps_data_payload keeps_id keeps_settings_len keeps_put_settings : keeps.

Lemma keeps_settings_payload off : keeps (encode_settings_payload off).
Proof. unfold encode_settings_payload. keeps. Qed.
Lemma keeps_repr off : keeps (encode_headers_repr off).
Proof. unfold encode_headers_repr. apply keeps_get_bind. intros c Hc. by destruct (es_headers_message _). Qed.
Lemma keeps_inst : keeps encode_qpack_inst.
Proof. unfold encode_qpack_inst. apply keeps_get_bind. intros c Hc. by destruct (es_headers_message _). Qed.
#[local] Hint Resolve keeps_settings_payload keeps_repr keeps_inst : keeps.
Lemma keeps_repr_inst off : keeps (encode_headers_repr_and_inst off).
Proof. unfold encode_headers_repr_and_inst. keeps. Qed.
Lemma keeps_qpack_encode sid : keeps (qpack_encode sid).
Proof.
  unfold qpack_encode. apply keeps_get_bind. intros c Hc. pose proof (HP sid _ Hc) as H.
  by destruct (QpackEncoder.qe_encode sid (ec_qpack c)) as [q [m| |]].
Qed.
#[local] Hint Resolve keeps_repr_inst keeps_qpack_encode : keeps.
Lemma keeps_headers off : keeps (encode_headers_payload off).
Proof. unfold encode_headers_payload, encode_headers_with_qpack. keeps. Qed.
#[local] Hint Resolve keeps_headers : keeps.

Lemma keeps_turn n : keeps (encode_turn n).
Proof. unfold encode_turn, encode_cancel_push, encode_goaway, encode_max_push_id. keeps. Qed.
Lemma keeps_turns fuel : ∀ n, keeps (encode_turns fuel n).
Proof. induction fuel as [|fuel IH]; intros n; cbn [encode_turns]; [apply keeps_panic|]. pose proof keeps_turn. keeps. Qed.

Lemma h3_encode_keeps id fb ib e : P (fe_qpack_encoder e) → P (fe_qpack_encoder (h3_encode id fb ib e).1).
Proof.
  intros He. unfold h3_encode. rewrite bind_st. cbn [get_st]. destruct (_ <? _); [done|]. destruct (_ !! _) as [s|]; [|done].
  pose proof (keeps_turns 3 0 (mkEncCtx s (fe_qpack_encoder e) fb ib) He) as H. destruct (encode_turns 3 0 _) as [c [r| |]]; by rewrite bind_st.
Qed.
Lemma encode_calls_keeps id bufs : ∀ e, P (fe_qpack_encoder e) → P (fe_qpack_encoder (encode_calls id bufs e).1).
Proof.
  induction bufs as [|[fb ib] bufs IH]; intros e He; [done|]. cbn [encode_calls]. rewrite bind_st. apply (h3_encode_keeps id fb ib) in He.
  destruct (h3_encode id fb ib e) as [e1 [r| |]]; [|done..]. cbn [fst] in He. rewrite bind_st. specialize (IH e1 He). by destruct (encode_calls id bufs e1) as [e2 [k| |]].
Qed.
End kept.

(** ** Frames of one identifier *)

(** GOAWAY, CANCEL_PUSH and MAX_PUSH_ID, as [set_frame] leaves them. *)
Definition id_frame (st : FrameEncoderState) (id : Z) : option Frame :=
  match st with
  | EncodingGoawayFrame => Some (mkFrame GOAWAY_FRAME_TYPE (PGoaway id))
  | EncodingCancelPushFrame => Some (mkFrame CANCEL_PUSH_FRAME_TYPE (PCancelPush id))
  | EncodingMaxPushIdFrame => Some (mkFrame MAX_PUSH_ID_FRAME_TYPE (PMaxPushId id))
  | _ => None
  end.

Lemma encode_id_at w id tail c : ec_frame_buf c = w ++ tail → is_varint id → 9 ≤ len tail →
  let p := varint_wire (len (varint_wire id)) ++ varint_wire id in
  encode_id (len w) id c =
    (ec_set_frame_buf (w ++ p ++ dropZ (len p) tail) (ec_set_stream (es_set_state FrameComplete (ec_stream c)) c), Ok (len (varint_wire id))).
Proof.
  intros Hb Hid Ht p. pose proof (varint_wire_len id) as Hl. assert (varint_wire (len (varint_wire id)) = [len (varint_wire id)]) as Ew by (apply varint_small; lia).
  assert (len (varint_wire (len (varint_wire id))) = 1) as Hw by (by rewrite Ew).
  unfold encode_id. rewrite bind_st, varint_len_size by done. cbn [lift_res]. rewrite <- length_varint_wire.
  rewrite bind_st, (put_varint_at w _ tail c Hb) by (unfold is_varint; lia). rewrite bind_st. unfold set_state, modify_st.
  rewrite <- len_app, Hw. set (c1 := ec_set_stream _ _).
  assert (ec_frame_buf c1 = (w ++ varint_wire (len (varint_wire id))) ++ dropZ 1 tail) as H1 by (unfold c1; cbn; by rewrite <- app_assoc).
  rewrite (put_varint_at _ id _ c1 H1) by (done || (rewrite len_dropZ; lia)). rewrite dropZ_dropZ by lia. unfold p. rewrite len_app, Hw, <- !app_assoc. by destruct c.
Qed.

(** the size that [encode] returns for GOAWAY, CANCEL_PUSH and MAX_PUSH_ID
    is one byte less than the frame it writes: the length of the identifier is
    not counted, so the last byte of the identifier is never sent. *)
Theorem h3_id_frame_short (e : FrameEncoder) (sid id : Z) (s : EncodedH3Stream) (f : Frame) (fb ib : bytes)
    (Hs : fe_streams e !! sid = Some s) (Hf : id_frame (es_state s) id = Some f) (Hc : es_current_frame s = Some f)
    (Hid : is_varint id) (Hb : 1024 ≤ len fb) :
  let wire := frame_wire (fr_ty f) (varint_wire id) in
  h3_encode sid fb ib e =
    (mkFrameEncoder (fe_qpack_encoder e) (<[sid := es_set_state FrameComplete s]> (fe_streams e)),
     Ok (wire ++ dropZ (len wire) fb, ib, (len wire - 1, 0))).
Proof.
  intros wire. pose proof (varint_wire_len id) as Hl. assert (len (varint_wire (len (varint_wire id))) = 1) as Hw by (replace (varint_wire _) with [len (varint_wire id)] by (symmetry; apply varint_small; lia); done).
  assert (varint_wire (fr_ty f) = [fr_ty f] ∧ is_varint (fr_ty f)) as [Ety Hty].
  { destruct (es_state s); try done; injection Hf as <-; (split; [done|by apply varint_small]). }
  unfold h3_encode. rewrite bind_st. cbn [get_st]. destruct (Z.ltb_spec (len fb) 1024); [lia|]. rewrite Hs, encode_turns_step by (cbn; lia).
  rewrite bind_st. unfold encode_turn. rewrite bind_st. cbn [get_st ec_stream].
  pose proof (encode_frame_type_at f (mkEncCtx s (fe_qpack_encoder e) fb ib) Hc Hty ltac:(cbn; lia)) as Et. rewrite Ety in Et. change (len [fr_ty f]) with 1 in Et.
  cbn [ec_frame_buf] in Et. set (c1 := ec_set_frame_buf _ _) in Et.
  pose proof (encode_id_at [fr_ty f] id (dropZ 1 fb) c1 eq_refl Hid ltac:(rewrite len_dropZ; lia)) as Ei. cbv zeta in Ei. change (len [fr_ty f]) with 1 in Ei.
  assert (wire = [fr_ty f] ++ varint_wire (len (varint_wire id)) ++ varint_wire id) as Ew by (unfold wire, frame_wire; by rewrite Ety).
  assert (len wire = 2 + len (varint_wire id)) as Lw by (rewrite Ew, !len_app, Hw; change (len [fr_ty f]) with 1; lia).
  rewrite dropZ_dropZ in Ei by (try apply len_nonneg; lia). rewrite len_app, Hw in Ei.
  destruct (es_state s); try done; injection Hf as <-; rewrite bind_st, Et, bind_st; unfold encode_goaway, encode_cancel_push, encode_max_push_id, current_frame;
    rewrite !bind_st; cbn [get_st]; change (es_current_frame (ec_stream c1)) with (es_current_frame s); rewrite Hc; cbn [mret ST_ret fr_payload];
    change (0 + 1) with 1; rewrite Ei; cbn [mret ST_ret]; rewrite bind_st; unfold mret, ST_ret, put_st;
    rewrite Lw, Ew, <- !app_assoc; replace (1 + (1 + len (varint_wire id))) with (2 + len (varint_wire id)) by lia;
    replace (len (varint_wire id) + 1) with (2 + len (varint_wire id) - 1) by lia; reflexivity.
Qed.

Definition goaway_stream : EncodedH3Stream := mkEncStream 2 None (Some (mkFrame GOAWAY_FRAME_TYPE (PGoaway 4))) EncodingGoawayFrame 0.

Lemma h3_id_frame_short_witness :
  (h3_encode 2 (replicate 1024 0) [] (mkFrameEncoder QpackEncoder.QpackEncoder_default {[ 2 := goaway_stream ]})).2 =
    Ok ([7; 1; 4] ++ replicate 1021 0, [], (2, 0)).
Proof.
  pose proof (h3_id_frame_short (mkFrameEncoder QpackEncoder.QpackEncoder_default {[ 2 := goaway_stream ]}) 2 4 goaway_stream (mkFrame GOAWAY_FRAME_TYPE (PGoaway 4)) (replicate 1024 0) []) as H.
  rewrite H; [by vm_compute|apply lookup_singleton_eq|done|done|by vm_compute|by vm_compute].
Defined.
