(* ===== verification/H3Roundtrip.v ===== *)
(** * HTTP/3 messages from end to end

    What [H3Decoder] makes of the wire format of [H3EncoderSpec]: the frames of
    a request stream are read back one after another, and a message that one
    endpoint encodes is the one the other decodes. *)

From S2P Require Import Prelude Headers Parts H3Error Varint H3Frame.
From S2P Require Import H3Decoder H3EncoderSpec.
From S2P Require Utf8 Huffman HpackRepr HpackEncoder QpackTable QpackEncoder QpackDecoder QpackSection H3Encoder.
#[local] Open Scope Z_scope.

(** ** The decoder at a position of a stream *)

(** [rest] is what has arrived and is not yet read. *)
Definition stream_at (ty : StreamType) (state : DecodeState) (rest : bytes) (s : DecodedH3Stream) : Prop :=
  st_ty s = ty ∧ st_state s = state ∧ 0 ≤ st_offset s ≤ len (st_buffer s) ∧ dropZ (st_offset s) (st_buffer s) = rest ∧ Forall is_byte rest.

Lemma stream_rest ty state p rest s : stream_at ty state (p ++ rest) s → 0 ≤ st_offset s + len p ≤ len (st_buffer s) ∧ dropZ (st_offset s + len p) (st_buffer s) = rest ∧ Forall is_byte rest.
Proof.
  intros (_ & _ & Ho & Hr & Hb). pose proof (len_nonneg p). pose proof (len_nonneg rest).
  apply Forall_app in Hb as [_ Hb]. pose proof (f_equal len Hr) as Hl. rewrite len_app, len_dropZ in Hl by done. split; [lia|]. split; [|done].
  rewrite dropZ_offset by lia. rewrite Hr. apply dropZ_app_len.
Qed.

Lemma stream_next ty state p rest s s' state' : stream_at ty state (p ++ rest) s →
  st_ty s' = st_ty s → st_state s' = state' → st_buffer s' = st_buffer s → st_offset s' = st_offset s + len p → stream_at ty state' rest s'.
Proof.
  intros Hs Ht Hst Hb Ho. destruct (stream_rest _ _ _ _ _ Hs) as (? & ? & ?). destruct Hs as (? & _). unfold stream_at. rewrite Ht, Hb, Ho. by split_and!; try lia.
Qed.

Lemma varint_read {A} (f : option (Z * ReadableBytes) → ST DecCtx H3Error A) v rest ty state c :
  stream_at ty state (varint_wire v ++ rest) (dc_stream c) → is_varint v →
  (r ← reader; x ← try_varint r; f x) c = f (Some (v, mkReadableBytes (varint_wire v ++ rest) (len (varint_wire v)))) c.
Proof.
  intros Hs Hv. pose proof (stream_rest _ _ _ _ _ Hs) as Hb. destruct Hs as (_ & _ & Ho & Hr & _). rewrite bind_st, reader_at.
  destruct (Z.ltb_spec (len (st_buffer (dc_stream c))) (st_offset (dc_stream c))); [lia|].
  rewrite bind_st, try_varint_at, Hr, get_varint_wire by (done || apply Hb). done.
Qed.

(** ** A frame *)

Lemma turn_continue order id fuel c c' : decode_turn order id c = (c', Ok None) → decode_turns (S fuel) order id c = decode_turns fuel order id c'.
Proof. intros H. cbn [decode_turns]. by rewrite bind_st, H. Qed.
Lemma after_continue (m : ST DecCtx H3Error DecodePartRes) msg c c' : m c = (c', Ok Continue_) → after m msg c = (c', Ok None).
Proof. intros H. unfold after. by rewrite bind_st, H. Qed.

(** Type and length. *)
Lemma frame_header order id fuel ty p rest st s frames q :
  stream_at st SFrameType (frame_wire ty p ++ rest) s → is_varint ty → is_varint (len p) → frame_allowed ty s = true → ty ≠ SETTINGS_FRAME_TYPE →
  ∃ s', decode_turns (S (S fuel)) order id (mkDecCtx s frames q) = decode_turns fuel order id (mkDecCtx s' frames q) ∧
    stream_at st (payload_state ty) (p ++ rest) s' ∧ st_frame_type s' = Some ty ∧ st_payload_len s' = Some (len p).
Proof.
  intros Hs Hty Hp Ha Hset. unfold frame_wire in Hs. rewrite <- !app_assoc in Hs.
  set (s1 := set_decode_state SPayloadLen (advance (len (varint_wire ty)) (set_frame_type (Some ty) s))).
  assert (stream_at st SPayloadLen (varint_wire (len p) ++ p ++ rest) s1) as Hs1 by (by apply (stream_next _ _ _ _ _ _ _ Hs)).
  set (s2 := set_decode_state (payload_state ty) (advance (len (varint_wire (len p))) (set_payload_len (Some (len p)) s1))).
  exists s2. split; [|by split; [apply (stream_next _ _ _ _ _ _ _ Hs1)|]].
  rewrite (turn_continue _ _ _ _ (mkDecCtx s1 frames q)).
  - apply turn_continue. unfold decode_turn. rewrite bind_st. cbn [get_st dc_stream st_state s1 set_decode_state]. apply after_continue.
    unfold decode_payload_len. by rewrite (varint_read _ (len p) (p ++ rest) st SPayloadLen) by done.
  - unfold decode_turn. rewrite bind_st. cbn [get_st dc_stream]. pose proof Hs as (Hst & Hss & _). rewrite Hss. apply after_continue.
    unfold decode_frame_type. rewrite (varint_read _ ty (varint_wire (len p) ++ p ++ rest) st SFrameType); [|exact Hs|done].
    rewrite bind_st. cbn [get_st dc_stream]. rewrite Ha. destruct (Z.eqb_spec ty SETTINGS_FRAME_TYPE); done.
Qed.

(** The end of a frame: the call ends if nothing else has arrived, and goes on
    with the next frame otherwise. *)
Definition frame_ends (order : gmap Z Z → list (Z * Z)) (id : Z) (fuel : nat) (rest : bytes) (frames : Frames) (q : QpackDecoder.QpackDecoder)
    (r : DecCtx * result H3Error Ended) : Prop :=
  ∃ s', stream_at TRequest SFrameType rest s' ∧
    (if decide (rest = []) then r = (mkDecCtx s' frames q, Ok (EKeep (MRequest frames)))
     else r = decode_turns fuel order id (mkDecCtx s' frames q)).

(** A payload part that reads all of a payload and ends the frame. *)
Lemma frame_end_turn order id fuel (part : ST DecCtx H3Error DecodePartRes) p rest s1 s frames frames' q q' state :
  stream_at TRequest state (p ++ rest) s →
  decode_turn order id (mkDecCtx s frames q) = after part return_by_type (mkDecCtx s frames q) →
  part (mkDecCtx s frames q) = end_frame (len rest) (mkDecCtx s1 frames' q') →
  st_ty s1 = st_ty s → st_buffer s1 = st_buffer s → st_offset s1 = st_offset s + len p →
  frame_ends order id fuel rest frames' q' (decode_turns (S fuel) order id (mkDecCtx s frames q)).
Proof.
  intros Hs Ht Hp Hty Hb Ho. destruct (stream_rest _ _ _ _ _ Hs) as (H1 & H2 & H3). pose proof Hs as (Hst & _). unfold frame_ends.
  cbn [decode_turns]. rewrite bind_st, Ht. unfold after. rewrite bind_st, Hp. unfold end_frame. rewrite bind_st. unfold on_stream at 1, modify_st.
  destruct (decide (rest = [])) as [->|Hne].
  - change (len [] =? 0) with true. cbv iota. rewrite bind_st. unfold on_stream, modify_st. cbn [mret ST_ret]. rewrite bind_st.
    unfold return_by_type. rewrite bind_st. cbn [get_st dc_stream dc_set_stream clear_buffer st_ty set_decode_state clear_frame set_payload_len set_frame_type dc_frames].
    change (st_ty (clear_buffer _)) with (st_ty s1). rewrite Hty, Hst. eexists. split; [|reflexivity].
    assert (st_ty s1 = TRequest) by congruence. by split_and!.
  - destruct (Z.eqb_spec (len rest) 0) as [E|E]; [by apply len_0_nil in E|]. eexists. split; [|reflexivity].
    by apply (stream_next _ _ _ _ _ _ _ Hs).
Qed.

Lemma data_frame_read order id fuel d rest s frames q :
  stream_at TRequest SFrameType (frame_wire DATA_FRAME_TYPE d ++ rest) s → is_varint (len d) →
  frame_ends order id fuel rest (frames ++ [FComplete (data_frame d)]) q (decode_turns (S (S (S fuel))) order id (mkDecCtx s frames q)).
Proof.
  intros Hs Hd. pose proof (proj1 Hs) as Hty.
  destruct (frame_header order id (S fuel) DATA_FRAME_TYPE d rest TRequest s frames q Hs) as (s' & -> & Hs' & Hf & Hl);
    [by apply varint_small|done|unfold frame_allowed; by rewrite Hty|done|].
  pose proof Hs' as (Hst & Hss & Ho & Hr & _). change (payload_state DATA_FRAME_TYPE) with SDataPayload in *.
  apply (frame_end_turn _ _ _ decode_data_payload d rest (advance (len d) s') _ _ _ _ _ SDataPayload Hs'); try done.
  - unfold decode_turn. rewrite bind_st. cbn [get_st dc_stream]. by rewrite Hss.
  - unfold decode_data_payload. rewrite bind_st, reader_at. cbn [dc_stream]. destruct (Z.ltb_spec (len (st_buffer s')) (st_offset s')); [lia|].
    rewrite bind_st. cbn [get_st dc_stream]. rewrite Hr. unfold remain_payload_len. rewrite Hl. change (default 0 (Some ?x)) with x. unfold rb_cap, rb_remaining, ReadableBytes_from.
    cbn [rb_buf rb_idx]. rewrite len_app, dropZ_0. pose proof (len_nonneg rest). destruct (Z.ltb_spec (len d + len rest - 0) (len d)); [lia|].
    rewrite takeZ_app_len, bind_st. unfold push_frame, modify_st at 1. rewrite bind_st. unfold on_stream at 1, modify_st at 1.
    f_equal. lia.
Qed.

Definition unknown_type (ty : Z) : Prop :=
  is_varint ty ∧ ty ∉ [DATA_FRAME_TYPE; HEADERS_FRAME_TYPE; CANCEL_PUSH_FRAME_TYPE; SETTINGS_FRAME_TYPE; PUSH_PROMISE_FRAME_TYPE; GOAWAY_FRAME_TYPE; MAX_PUSH_ID_FRAME_TYPE].

Lemma unknown_state ty s : unknown_type ty → payload_state ty = SUnknownPayload ∧ frame_allowed ty s = true ∧ ty ≠ SETTINGS_FRAME_TYPE.
Proof.
  intros [_ H]. rewrite !not_elem_of_cons in H. destruct H as (H1 & H2 & H3 & H4 & H5 & H6 & H7 & _). unfold payload_state, frame_allowed.
  rewrite !(proj2 (Z.eqb_neq _ _)) by done. done.
Qed.

Lemma unknown_frame_read order id fuel ty p rest s frames q :
  stream_at TRequest SFrameType (frame_wire ty p ++ rest) s → unknown_type ty → is_varint (len p) →
  frame_ends order id fuel rest frames q (decode_turns (S (S (S fuel))) order id (mkDecCtx s frames q)).
Proof.
  intros Hs Hty Hp. destruct (unknown_state ty s Hty) as (Hst & Ha & Hset).
  destruct (frame_header order id (S fuel) ty p rest TRequest s frames q Hs) as (s' & -> & Hs' & Hf & Hl); [apply Hty|done..|].
  rewrite Hst in Hs'. pose proof Hs' as (_ & Hss & Ho & Hr & _).
  apply (frame_end_turn _ _ _ decode_unknown_payload p rest (advance (len p) s') _ _ _ _ _ SUnknownPayload Hs'); try done.
  - unfold decode_turn. rewrite bind_st. cbn [get_st dc_stream]. by rewrite Hss.
  - unfold decode_unknown_payload. rewrite bind_st, reader_at. cbn [dc_stream]. destruct (Z.ltb_spec (len (st_buffer s')) (st_offset s')); [lia|].
    rewrite bind_st. cbn [get_st dc_stream]. rewrite Hr. unfold remain_payload_len. rewrite Hl. change (default 0 (Some ?x)) with x. unfold rb_cap, rb_remaining, ReadableBytes_from.
    cbn [rb_buf rb_idx]. rewrite len_app. pose proof (len_nonneg rest). destruct (Z.ltb_spec (len p + len rest - 0) (len p)); [lia|].
    rewrite bind_st. unfold on_stream at 1, modify_st at 1. f_equal. lia.
Qed.

(** A header block that needs no dynamic table, of at most [max] bytes as they
    are counted. *)
Definition block_ok (max : Z) (pseudo : PseudoHeaders) (m : Headers) (order : list (bytes * HeaderValue)) : Prop :=
  order ≡ₚ map_to_list m ∧ headers_inv m ∧ map_Forall (λ _, HpackEncoder.value_ok) m ∧ HpackEncoder.parts_lines pseudo order ≠ [] ∧
  Forall (λ e, QpackSection.static_line e ∧ HpackRepr.string_ok e.2 ∧ Utf8.is_utf8 e.2 = true) (HpackEncoder.parts_lines pseudo order) ∧
  QpackSection.section_size (HpackEncoder.parts_lines pseudo order) ≤ max.
Definition block_wire (huff : bool) (pseudo : PseudoHeaders) (order : list (bytes * HeaderValue)) : bytes :=
  [0; 0] ++ (HpackEncoder.parts_lines pseudo order ≫= QpackSection.static_wire huff).

(** The shared decoder knows nothing of the stream. *)
Definition qpack_ready (id : Z) (q : QpackDecoder.QpackDecoder) : Prop :=
  QpackDecoder.qd_blocked q !! id = None ∧ QpackDecoder.qd_streams q !! id = None ∧ 0 ≤ QpackTable.qt_insert_count (QpackDecoder.qd_table q).

Lemma headers_frame_read huff order id fuel pseudo m fields rest s frames q :
  let p := block_wire huff pseudo fields in
  stream_at TRequest SFrameType (frame_wire HEADERS_FRAME_TYPE p ++ rest) s → is_varint (len p) → qpack_ready id q →
  block_ok (QpackDecoder.qd_max_field_section_size q) pseudo m fields →
  ∃ q', qpack_ready id q' ∧ QpackDecoder.qd_max_field_section_size q' = QpackDecoder.qd_max_field_section_size q ∧
    frame_ends order id fuel rest (frames ++ [FComplete (headers_frame (mkParts pseudo (HpackEncoder.joined <$> m)) None)]) q'
      (decode_turns (S (S (S fuel))) order id (mkDecCtx s frames q)).
Proof.
  intros p Hs Hp (Hq1 & Hq2 & Hq3) (Ho & Hi & Hv & Hne & Hl & Hsz). pose proof (proj1 Hs) as Hty.
  destruct (QpackSection.decode_finish_static huff q pseudo m fields id Ho Hi Hv Hne Hl Hq1 Hq2 Hq3 Hsz) as (q1 & q2 & Hd & Hfin & ->).
  exists (QpackDecoder.qd_set_streams (delete id (QpackDecoder.qd_streams q)) q). split; [|split; [reflexivity|]].
  { split_and!; [done|cbn; apply lookup_delete_eq|done]. }
  destruct (frame_header order id (S fuel) HEADERS_FRAME_TYPE p rest TRequest s frames q Hs) as (s' & -> & Hs' & Hf & Hlen);
    [by apply varint_small|done|unfold frame_allowed; by rewrite Hty|done|].
  pose proof Hs' as (_ & Hss & Hoff & Hr & _). change (payload_state HEADERS_FRAME_TYPE) with SHeadersPayload in *.
  apply (frame_end_turn _ _ _ (decode_headers_payload id) p rest (advance (len p) s') _ _ _ _ _ SHeadersPayload Hs'); try done.
  - unfold decode_turn. rewrite bind_st. cbn [get_st dc_stream]. by rewrite Hss.
  - unfold decode_headers_payload. rewrite bind_st, reader_at. cbn [dc_stream]. destruct (Z.ltb_spec (len (st_buffer s')) (st_offset s')); [lia|].
    rewrite bind_st. cbn [get_st dc_stream]. rewrite Hr. unfold remain_payload_len. rewrite Hlen. change (default 0 (Some ?x)) with x. unfold rb_cap, rb_remaining, ReadableBytes_from.
    cbn [rb_buf rb_idx]. rewrite len_app, dropZ_0. pose proof (len_nonneg rest). destruct (Z.ltb_spec (len p + len rest - 0) (len p)); [lia|].
    rewrite takeZ_app_len, bind_st. unfold on_qpack at 1. cbn [dc_qpack]. change p with ([0; 0] ++ (HpackEncoder.parts_lines pseudo fields ≫= QpackSection.static_wire huff)) at 1.
    rewrite Hd, bind_st. unfold on_stream at 1, modify_st at 1. unfold get_qpack_decoded_header. rewrite bind_st. unfold on_qpack at 1.
    cbn [dc_qpack dc_set_qpack dc_set_stream]. rewrite Hfin. rewrite bind_st. cbn [get_st dc_stream dc_set_qpack dc_set_stream]. rewrite bind_st.
    change (st_frame_type (advance _ s')) with (st_frame_type s'). rewrite Hf. cbn [Z.eqb HEADERS_FRAME_TYPE Pos.eqb mret ST_ret fst snd].
    rewrite bind_st. unfold push_frame, modify_st at 1. f_equal. lia.
Qed.

(** ** A stream of frames *)

Inductive Item :=
  | IHeaders (pseudo : PseudoHeaders) (m : Headers) (order : list (bytes * HeaderValue))
  | IData (data : bytes)
  | IUnknown (ty : Z) (payload : bytes).

Definition item_wire (huff : bool) (i : Item) : bytes :=
  match i with
  | IHeaders pseudo _ order => frame_wire HEADERS_FRAME_TYPE (block_wire huff pseudo order)
  | IData d => frame_wire DATA_FRAME_TYPE d
  | IUnknown ty p => frame_wire ty p
  end.
Definition item_frames (i : Item) : Frames :=
  match i with
  | IHeaders pseudo m _ => [FComplete (headers_frame (mkParts pseudo (HpackEncoder.joined <$> m)) None)]
  | IData d => [FComplete (data_frame d)]
  | IUnknown _ _ => []
  end.
Definition item_ok (huff : bool) (max : Z) (i : Item) : Prop :=
  match i with
  | IHeaders pseudo m order => block_ok max pseudo m order ∧ is_varint (len (block_wire huff pseudo order))
  | IData d => is_varint (len d)
  | IUnknown ty p => unknown_type ty ∧ is_varint (len p)
  end.

Definition items_wire (huff : bool) (l : list Item) : bytes := l ≫= item_wire huff.
Definition items_frames (l : list Item) : Frames := l ≫= item_frames.

Lemma item_read huff order id fuel i rest s frames q :
  stream_at TRequest SFrameType (item_wire huff i ++ rest) s → item_ok huff (QpackDecoder.qd_max_field_section_size q) i → qpack_ready id q →
  ∃ q', qpack_ready id q' ∧ QpackDecoder.qd_max_field_section_size q' = QpackDecoder.qd_max_field_section_size q ∧
    frame_ends order id fuel rest (frames ++ item_frames i) q' (decode_turns (S (S (S fuel))) order id (mkDecCtx s frames q)).
Proof.
  intros Hs Hok Hq. destruct i as [pseudo m fields|d|ty p]; cbn [item_wire item_frames] in *.
  - destruct Hok as [Hok Hv]. apply (headers_frame_read huff order id fuel pseudo m fields rest s frames q Hs Hv Hq Hok).
  - exists q. split; [done|]. split; [done|]. by apply data_frame_read.
  - exists q. split; [done|]. split; [done|]. rewrite app_nil_r. destruct Hok. by eapply unknown_frame_read.
Qed.

Lemma item_wire_cons huff i : item_wire huff i ≠ [].
Proof. destruct i; apply frame_wire_cons. Qed.
Lemma items_wire_nil huff items : items_wire huff items = [] ↔ items = [].
Proof.
  split; [|by intros ->]. destruct items as [|i items]; [done|]. intros [H _]%app_eq_nil. by apply item_wire_cons in H.
Qed.

Lemma items_read huff order id items : items ≠ [] → ∀ fuel s frames q, (3 * length items ≤ fuel)%nat →
  stream_at TRequest SFrameType (items_wire huff items) s → Forall (item_ok huff (QpackDecoder.qd_max_field_section_size q)) items → qpack_ready id q →
  ∃ s' q', stream_at TRequest SFrameType [] s' ∧ qpack_ready id q' ∧
    decode_turns fuel order id (mkDecCtx s frames q) =
      (mkDecCtx s' (frames ++ (items_frames items)) q', Ok (EKeep (MRequest (frames ++ (items_frames items))))).
Proof.
  intros Hne. induction items as [|i items IH]; [done|]. intros fuel s frames q Hf Hs Hok Hq. change (items_wire huff (i :: items)) with (item_wire huff i ++ items_wire huff items) in *.
  change (items_frames (i :: items)) with (item_frames i ++ items_frames items). apply Forall_cons in Hok as [Hi Hok].
  destruct fuel as [|[|[|fuel]]]; [cbn in Hf; lia..|].
  destruct (item_read huff order id fuel i _ s frames q Hs Hi Hq) as (q' & Hq' & Hm & s' & Hs' & Hr).
  destruct (decide (items_wire huff items = [])) as [E|E]; rewrite Hr.
  - apply items_wire_nil in E as ->. rewrite app_nil_r. by exists s', q'.
  - assert (items ≠ []) as Hne' by (by intros ->). rewrite app_assoc. apply IH; [done|cbn in Hf; lia|done|by rewrite Hm|done].
Qed.

(** ** A call of the decoder *)

(** Between two frames of stream [id], nothing left over. *)
Definition decoder_ready (id : Z) (d : FrameDecoder) : Prop :=
  stream_at TRequest SFrameType [] (default (DecodedH3Stream_new id) (fd_streams d !! id)) ∧ qpack_ready id (fd_qpack_decoder d).

Lemma new_decoder_ready id blocked capacity : is_bidirectional id = true → decoder_ready id (FrameDecoder_new blocked capacity).
Proof.
  intros Hid. split; [|by split_and!]. cbn. rewrite lookup_empty. cbn. unfold DecodedH3Stream_new. rewrite Hid. by split_and!.
Qed.

Lemma items_length huff items : (length items ≤ length (items_wire huff items))%nat.
Proof.
  induction items as [|i items IH]; [done|]. change (items_wire huff (i :: items)) with (item_wire huff i ++ items_wire huff items). rewrite length_app.
  destruct (item_wire huff i) eqn:E; [by apply item_wire_cons in E|]. cbn [length]. lia.
Qed.

Lemma decode_items huff order id items d :
  items ≠ [] → decoder_ready id d → Forall (item_ok huff (QpackDecoder.qd_max_field_section_size (fd_qpack_decoder d))) items → Forall is_byte (items_wire huff items) →
  ∃ d', h3_decode order id (items_wire huff items) d = (d', Ok (MRequest (items_frames items))) ∧ decoder_ready id d'.
Proof.
  intros Hne [Hs Hq] Hok Hb. unfold h3_decode. rewrite bind_st. cbn [get_st].
  set (s := default (DecodedH3Stream_new id) (fd_streams d !! id)) in *.
  assert (stream_at TRequest SFrameType (items_wire huff items) (extend_buffer (items_wire huff items) s)) as Hs1.
  { destruct Hs as (H1 & H2 & H3 & H4 & H5). pose proof (len_nonneg (items_wire huff items)). unfold stream_at, extend_buffer.
    cbn [st_ty st_state st_offset st_buffer]. rewrite len_app, dropZ_app_le, H4 by lia. split_and!; try done; lia. }
  destruct (items_read huff order id items Hne (turns_fuel (extend_buffer (items_wire huff items) s)) (extend_buffer (items_wire huff items) s) [] (fd_qpack_decoder d)) as (s' & q' & Hs' & Hq' & ->); [|done..|].
  { unfold turns_fuel. cbn [st_buffer extend_buffer]. rewrite length_app. pose proof (items_length huff items). lia. }
  cbn [app]. rewrite bind_st. eexists. split; [reflexivity|]. split; [|done]. cbn. by rewrite lookup_insert_eq.
Qed.

(** a request stream is decoded frame by frame: HEADERS with static field
    names, DATA, and frames of unknown types in any order, that arrive in one
    read, give the messages and data in order, the unknown ones skipped; the
    stream is then ready for the next read. *)
Theorem h3_request_stream (huff : bool) (order : gmap Z Z → list (Z * Z)) (id : Z) (items : list Item) (d : FrameDecoder)
    (Hne : items ≠ []) (Hd : decoder_ready id d)
    (Hok : Forall (item_ok huff (QpackDecoder.qd_max_field_section_size (fd_qpack_decoder d))) items)
    (Hb : Forall is_byte (items_wire huff items)) :
  ∃ d', h3_decode order id (items_wire huff items) d = (d', Ok (MRequest (items_frames items))) ∧ decoder_ready id d'.
Proof. by apply decode_items. Qed.

Lemma h3_request_stream_witness :
  ∃ d', h3_decode (λ _, []) 0 [0; 1; 7; 0x21; 2; 5; 6; 0; 0] (FrameDecoder_new 0 0) =
      (d', Ok (MRequest [FComplete (data_frame [7]); FComplete (data_frame [])])) ∧ decoder_ready 0 d'.
Proof.
  apply (h3_request_stream true (λ _, []) 0 [IData [7]; IUnknown 0x21 [5; 6]; IData []] (FrameDecoder_new 0 0)).
  - done.
  - by apply new_decoder_ready.
  - repeat constructor; try done. vm_compute. intros H. repeat (apply elem_of_cons in H as [H|H]; [discriminate H|]). by apply elem_of_nil in H.
  - by apply bytesb_ok.
Defined.

(** ** From one endpoint to the other *)

Definition item_frame (i : Item) : option Frame :=
  match i with
  | IHeaders pseudo m _ => Some (headers_frame (mkParts pseudo m) None)
  | IData d => Some (data_frame d)
  | IUnknown _ _ => None
  end.

(** A QPACK encoder that inserts nothing: an empty table of which no new
    capacity is asked, and fields with static names. *)
Definition static_encoder (huff : bool) (q : QpackEncoder.QpackEncoder) : Prop :=
  QpackTable.qt_queue (QpackEncoder.qe_table q) = [] ∧ QpackEncoder.qe_capacity_to_update q = None ∧ QpackEncoder.qe_is_huffman q = huff ∧
  from_option (λ it, Forall QpackSection.static_line (HpackEncoder.iter_lines it)) True (QpackEncoder.qe_field_iter q).

Lemma static_encode huff sid q : static_encoder huff q →
  static_encoder huff (QpackEncoder.qe_encode sid q).1 ∧
  ∀ it, QpackEncoder.qe_field_iter q = Some it →
    (QpackEncoder.qe_encode sid q).2 = Ok ([0; 0] ++ (HpackEncoder.iter_lines it ≫= QpackSection.static_wire huff), []).
Proof.
  intros (Hq & Hc & Hh & Hi). unfold QpackEncoder.qe_encode. rewrite bind_st. unfold QpackEncoder.update_max_dynamic_table_cap. rewrite bind_st. cbn [get_st].
  rewrite Hc. cbn [mret ST_ret]. rewrite bind_st. cbn [get_st]. destruct (QpackEncoder.qe_field_iter q) as [it|]; cbn [from_option] in Hi.
  - rewrite QpackSection.static_section by done. cbn [QpackFormat.qr_is_huffman]. rewrite Hh. split; [by destruct q|]. by intros ? [= <-].
  - split; [by destruct q|done].
Qed.

Definition encoder_ready (id : Z) (huff : bool) (e : H3Encoder.FrameEncoder) : Prop :=
  static_encoder huff (H3Encoder.fe_qpack_encoder e) ∧
  let s := default (H3Encoder.EncodedH3Stream_new id) (H3Encoder.fe_streams e !! id) in
  ready s ∧ (H3Encoder.es_state s = H3Encoder.Idle ∨ H3Encoder.es_state s = H3Encoder.FrameComplete).

Definition field_order (i : Item) (m : Headers) : list (bytes * HeaderValue) := match i with IHeaders _ _ order => order | _ => map_to_list m end.

(** Setting a frame leaves the whole of it to write. *)
Lemma set_item_frame id huff max e i f : item_frame i = Some f → item_ok huff max i → encoder_ready id huff e →
  ∃ e' s', H3Encoder.set_frame (field_order i) id f e = (e', Ok ()) ∧ H3Encoder.fe_streams e' !! id = Some s' ∧
    static_encoder huff (H3Encoder.fe_qpack_encoder e') ∧ h3_pending (H3Encoder.fe_qpack_encoder e') s' (item_wire huff i) [].
Proof.
  intros Hf Hok (Hq & Hr & Hs). unfold H3Encoder.set_frame. rewrite bind_st. cbn [get_st]. set (s := default _ _) in *.
  destruct i as [pseudo m fields|d|ty p]; [| |done]; injection Hf as <-; cbn [item_ok item_wire] in *.
  - destruct Hok as [(_ & _ & _ & _ & Hl & _) Hv]. set (q' := QpackEncoder.qe_set_parts pseudo fields (H3Encoder.fe_qpack_encoder e)).
    assert (static_encoder huff q') as Hq'.
    { destruct Hq as (H1 & H2 & H3 & _). split_and!; [done..|]. cbn. eapply Forall_impl; [exact Hl|]. by intros x [? _]. }
    destruct (static_encode huff (H3Encoder.es_stream_id s) q' Hq') as [_ He]. specialize (He _ eq_refl).
    destruct Hs as [-> | ->]; (do 2 eexists; split; [reflexivity|]; split; [cbn; apply lookup_insert_eq|]; split; [done|]; split; [done|]);
      (destruct (QpackEncoder.qe_encode (H3Encoder.es_stream_id s) q') as [q1 r] eqn:E; cbn [snd] in He; subst r);
      exists (mkParts pseudo m), None, q1, (block_wire huff pseudo fields); by split_and!.
  - destruct Hs as [-> | ->]; (do 2 eexists; split; [reflexivity|]; split; [cbn; apply lookup_insert_eq|]; split; [done|]; split; [done|]); by exists d.
Qed.

(** What is sent: a message or data, and the buffers it is written into. *)
Fixpoint send (id : Z) (l : list (Item * list (bytes * bytes))) : ST H3Encoder.FrameEncoder H3Error bytes :=
  match l with
  | [] => mret []
  | (i, bufs) :: l =>
      match item_frame i with
      | None => panic
      | Some f =>
          _ ← H3Encoder.set_frame (field_order i) id f;
          r ← encode_calls id bufs;
          k ← send id l;
          mret (r.1 ++ k)
      end
  end.

Definition sendable (huff : bool) (max : Z) (x : Item * list (bytes * bytes)) : Prop :=
  is_Some (item_frame x.1) ∧ item_ok huff max x.1 ∧ Forall (λ b, 1024 ≤ len b.1) x.2 ∧ len (item_wire huff x.1) ≤ room x.2.

Lemma send_items id huff max l : ∀ e, encoder_ready id huff e → Forall (sendable huff max) l →
  ∃ e', send id l e = (e', Ok (items_wire huff l.*1)) ∧ encoder_ready id huff e'.
Proof.
  induction l as [|[i bufs] l IH]; intros e He Hl; [by exists e|]. apply Forall_cons in Hl as [([f Hf] & Hok & Hb & Hroom) Hl]. cbn [fst snd] in *.
  destruct (set_item_frame id huff max e i f Hf Hok He) as (e1 & s1 & E1 & Hs1 & Hq1 & Hp1).
  destruct (encode_calls_pending bufs e1 id s1 _ _ Hs1 Hp1 Hb) as (e2 & s2 & E2 & Es2 & Hp2).
  pose proof (encode_calls_keeps (static_encoder huff) (λ sid q Hq, proj1 (static_encode huff sid q Hq)) id bufs e1 Hq1) as Hq2.
  rewrite E2 in Hq2. cbn [fst] in Hq2. destruct (room_nonneg bufs) as [Hr1 Hr2].
  assert (takeZ (inst_room bufs) [] = @nil Z) as Et by (apply takeZ_all; by rewrite len_nil).
  rewrite (takeZ_all (room bufs)) in E2 by done. rewrite Et in E2. rewrite (dropZ_all (room bufs)), (dropZ_all (inst_room bufs)) in Hp2 by (rewrite ?len_nil; lia).
  destruct (IH e2) as (e3 & E3 & He3); [|done|].
  { split; [done|]. rewrite Es2, lookup_insert_eq. cbn [default]. pose proof (proj2 (h3_pending_done _ _ _ _ Hp2) (conj eq_refl eq_refl)) as Hd.
    unfold h3_pending in Hp2. cbv zeta. unfold Datatypes.id. rewrite Hd in *. split; [apply Hp2|by right]. }
  exists e3. split; [|done]. cbn [send]. rewrite Hf. rewrite bind_st, E1, bind_st, E2, bind_st, E3. done.
Qed.


Definition get_item : Item := IHeaders HpackEncoder.get_request QpackSection.user_agent_map [(bs "user-agent", QpackSection.user_agent)].

Lemma get_item_ok : item_ok true (2 ^ 62 - 1) get_item.
Proof.
  split; [|unfold is_varint; vm_compute; split; congruence].
  assert (∀ x, QpackSection.static_line x → Forall is_byte x.2 → (length x.2 <= 100)%nat → (length (Huffman.huffman_encode x.2 []) <= 100)%nat → Utf8.is_utf8 x.2 = true →
    QpackSection.static_line x ∧ HpackRepr.string_ok x.2 ∧ Utf8.is_utf8 x.2 = true) as Hline.
  { intros x H1 H2 H3 H4 H5. split_and!; [done| |done]. by apply HpackRepr.string_ok_short. }
  split_and!.
  - unfold QpackSection.user_agent_map. by rewrite map_to_list_insert, map_to_list_empty by done.
  - intros n v. unfold QpackSection.user_agent_map. rewrite lookup_insert_Some. intros [[<- <-]|[_ H]]; [by vm_compute|done].
  - unfold QpackSection.user_agent_map. apply map_Forall_insert_2; [|apply map_Forall_empty]. by repeat constructor.
  - done.
  - repeat (apply Forall_cons; split); [..|by apply Forall_nil]; (apply Hline; [eexists; vm_compute; reflexivity|by apply bytesb_ok|vm_compute; lia|vm_compute; lia|by vm_compute]).
  - by vm_compute.
Qed.


(** ** Examples *)

Definition run_decode (id : Z) (reads : list bytes) : list (result H3Error StreamMessage) :=
  (fold_left (λ x buf, let '(d, r) := h3_decode (λ _, []) id buf x.1 in (d, x.2 ++ [r])) reads (FrameDecoder_new 0 0, [])).2.
Definition settings_10 : FrameKind := FComplete (settings_frame (set_max_field_section_size 10 Settings_default)).
Definition goaway_4 : FrameKind := FComplete (mkFrame GOAWAY_FRAME_TYPE (PGoaway 4)).

(** What follows SETTINGS in the same read is lost: the decoder reads the
    settings again, as frames. *)
Example settings_swallow_next_frame :
  run_decode 2 [[0; 4; 2; 6; 10]; [7; 1; 4]] = [Ok (MControl [settings_10]); Ok (MControl [goaway_4])] ∧
  run_decode 2 [[0; 4; 2; 6; 10; 7; 1; 4]] = [Ok (MControl [settings_10; FPartial])].
Proof. by vm_compute. Qed.

(** A stream of an unknown type is forgotten, and what arrives next on it is
    taken for the start of another stream. *)
Example unknown_stream_begins_again : run_decode 2 [[0x21; 1]; [0; 4; 2; 6; 10]] = [Ok MUnknown; Ok (MControl [settings_10])].
Proof. by vm_compute. Qed.

(** GOAWAY belongs to the control stream, but is accepted on a request. *)
Example goaway_on_request : run_decode 0 [[7; 1; 4]] = [Ok (MRequest [goaway_4])].
Proof. by vm_compute. Qed.

Definition run_send (ops : list (Z * Item)) (ids : list Z) : list (result H3Error bytes) :=
  let e := fold_left (λ e p, match item_frame p.2 with Some f => (H3Encoder.set_frame (field_order p.2) p.1 f e).1 | None => e end) ops H3Encoder.FrameEncoder_default in
  (fold_left (λ x id, match encode_calls id [(replicate 1024 0, [])] x.1 with
     | (e, Ok (w, _)) => (e, x.2 ++ [Ok w]) | (e, Err err) => (e, x.2 ++ [Err err]) | (e, Panic) => (e, x.2 ++ [Panic]) end) ids (e, [])).2.
Definition get_of (path : string) : Item := IHeaders (mkPseudo None (Some (bs "GET")) (Some (bs path)) None None) ∅ [].

(** The fields that are still to be encoded are kept once for all streams: of
    two requests that are set before they are encoded, the first stream carries
    the second request, and the second an empty one. *)
Example headers_of_two_streams :
  run_send [(0, get_of "/b")] [0] = [Ok [1; 7; 0; 0; 209; 81; 130; 98; 63]] ∧
  run_send [(0, get_of "/a"); (4, get_of "/b")] [0; 4] = [Ok [1; 7; 0; 0; 209; 81; 130; 98; 63]; Ok [1; 2; 0; 0]].
Proof. by vm_compute. Qed.
