(* ===== verification/MultiPart.v ===== *)
(** * [multipart/form-data]

    Models [src/ylong_http/src/body/mime/simple.rs]: [MultiPart], its parts, the
    boundary it draws, the size it announces, and its reader, which a request
    can be sent from more than once.  The stream of a part is a reader of a type
    [R] with errors in [E] (classes [AsyncRead] and [ReusableReader] of
    [Body]). *)

From S2P Require Import Prelude Body.
#[local] Open Scope Z_scope.

Definition CRLF : bytes := [13; 10].

(** ** The boundary *)

(** [xor_shift]: the generator of the thread, a word that is not zero. *)
Definition xor_shift_next (n : Z) : Z :=
  let n := Z.lxor n (Z.shiftr n 12) in
  let n := Z.lxor n (wrap64 (Z.shiftl n 25)) in
  Z.lxor n (Z.shiftr n 27).
Definition xor_shift (rng : Z) : Z * Z :=
  let n := xor_shift_next rng in (n, wrap64 (n * 0x2545f4914f6cdd1d)).

(** [{:016x}]. *)
Definition hex_digit (d : Z) : Z := if d <? 10 then 48 + d else 87 + d.
Fixpoint hex_digits (n : nat) (x : Z) : bytes :=
  match n with O => [] | S n => hex_digit (Z.shiftr x (4 * Z.of_nat n) mod 16) :: hex_digits n x end.

Definition gen_boundary (rng : Z) : Z * bytes :=
  let '(rng, a) := xor_shift rng in
  let '(rng, b) := xor_shift rng in
  let '(rng, c) := xor_shift rng in
  let '(rng, d) := xor_shift rng in
  (rng, hex_digits 16 a ++ [45] ++ hex_digits 16 b ++ [45] ++ hex_digits 16 c ++ [45] ++ hex_digits 16 d).

(** ** Parts *)

Section multipart.
Context {E R : Type} `{!AsyncRead E R, !ReusableReader E R}.

Inductive MultiPartState := SBytes (c : Cursor) | SStream (r : R).

Definition state_bytes (l : bytes) : MultiPartState := SBytes (Cursor_new l).

(** The texts of a [Part] are UTF-8 bytes. *)
Record Part := mkPart {
  pt_name : option bytes; pt_file_name : option bytes; pt_mime : option bytes; pt_length : option Z; pt_body : option MultiPartState }.

Definition Part_new : Part := mkPart None None None None None.
Definition Part_name (name : bytes) (p : Part) : Part := mkPart (Some name) (pt_file_name p) (pt_mime p) (pt_length p) (pt_body p).
Definition Part_file_name (n : bytes) (p : Part) : Part := mkPart (pt_name p) (Some n) (pt_mime p) (pt_length p) (pt_body p).
Definition Part_mime (m : bytes) (p : Part) : Part := mkPart (pt_name p) (pt_file_name p) (Some m) (pt_length p) (pt_body p).
Definition Part_length (l : option Z) (p : Part) : Part := mkPart (pt_name p) (pt_file_name p) (pt_mime p) l (pt_body p).
Definition Part_body (l : bytes) (p : Part) : Part :=
  mkPart (pt_name p) (pt_file_name p) (pt_mime p) (Some (len l)) (Some (state_bytes l)).
Definition Part_stream (r : R) (p : Part) : Part := mkPart (pt_name p) (pt_file_name p) (pt_mime p) (pt_length p) (Some (SStream r)).

(** [part.body.take()]. *)
Definition take_body (p : Part) : Part := mkPart (pt_name p) (pt_file_name p) (pt_mime p) (pt_length p) None.

(** ** [MultiPart] *)

Record MultiPartStates := mkStates { ms_states : list MultiPartState; ms_index : nat }.
Inductive ReadStatus := Never | Reading (s : MultiPartStates) | Finish (s : MultiPartStates).
Record MultiPart := mkMultiPart { mp_parts : list Part; mp_boundary : bytes; mp_status : ReadStatus }.

Definition mp_set_status (st : ReadStatus) (m : MultiPart) : MultiPart := mkMultiPart (mp_parts m) (mp_boundary m) st.

Definition MultiPart_new (rng : Z) : Z * MultiPart := let (rng, b) := gen_boundary rng in (rng, mkMultiPart [] b Never).
Definition MultiPart_part (p : Part) (m : MultiPart) : MultiPart := mkMultiPart (mp_parts m ++ [p]) (mp_boundary m) (mp_status m).

(** [u64] addition. *)
Definition add_u64 (a b : Z) : result E Z := if a + b <? U64 then Ok (a + b) else Panic.

Definition add_opt (size fixed : Z) (x : option bytes) : result E Z :=
  match x with Some x => add_u64 size (fixed + len x) | None => Ok size end.

(** [total_bytes]. *)
Definition part_size (boundary : bytes) (size : Z) (p : Part) : result E (option Z) :=
  match pt_length p with
  | None => Ok None
  | Some l =>
      size ← add_u64 size l;
      size ← add_u64 size (2 + len boundary + 2);
      size ← add_u64 size 30;
      size ← add_opt size 9 (pt_name p);
      size ← add_opt size 13 (pt_file_name p);
      size ← add_u64 size 2;
      size ← add_opt size 16 (pt_mime p);
      size ← add_u64 size (2 + 2);
      Ok (Some size)
  end.
Fixpoint parts_size (boundary : bytes) (size : Z) (ps : list Part) : result E (option Z) :=
  match ps with
  | [] => size ← add_u64 size (2 + len boundary + 4); Ok (Some size)
  | p :: ps =>
      size ← part_size boundary size p;
      match size with Some size => parts_size boundary size ps | None => Ok None end
  end.
Definition total_bytes (m : MultiPart) : result E (option Z) := parts_size (mp_boundary m) 0 (mp_parts m).

(** [build_status]. *)
Definition opt_state (f : bytes → bytes) (x : option bytes) : list MultiPartState :=
  match x with Some x => [state_bytes (f x)] | None => [] end.
Definition part_states (boundary : bytes) (p : Part) : list MultiPartState :=
  [state_bytes (bs "--" ++ boundary ++ CRLF); state_bytes (bs "Content-Disposition: form-data")]
  ++ opt_state (λ n, bs "; name=" ++ [34] ++ n ++ [34]) (pt_name p)
  ++ opt_state (λ n, bs "; filename=" ++ [34] ++ n ++ [34]) (pt_file_name p)
  ++ [state_bytes CRLF]
  ++ opt_state (λ m, bs "Content-Type: " ++ m ++ CRLF) (pt_mime p)
  ++ [state_bytes CRLF]
  ++ match pt_body p with Some b => [b] | None => [] end
  ++ [state_bytes CRLF].
Definition build_status (m : MultiPart) : MultiPart :=
  let states := flat_map (part_states (mp_boundary m)) (mp_parts m) ++ [state_bytes (bs "--" ++ mp_boundary m ++ bs "--" ++ CRLF)] in
  mkMultiPart (map take_body (mp_parts m)) (mp_boundary m) (Reading (mkStates states 0)).

(** ** Reading *)

Definition set_state (i : nat) (x : MultiPartState) (next : bool) (s : MultiPartStates) : MultiPartStates :=
  mkStates (<[i := x]> (ms_states s)) (if next then S (ms_index s) else ms_index s).

(** [MultiPartStates::poll_read_curr]. *)
Definition poll_read_curr : ST (MultiPartStates * ReadBuf) E (Poll ()) :=
  '(s, buf) ← get_st;
  match ms_states s !! ms_index s with
  | None => mret (Ready ())
  | Some (SBytes c) =>
      let unfilled_len := rb_room buf in
      let '(c, out) := Cursor_read unfilled_len c in
      _ ← put_st (set_state (ms_index s) (SBytes c) (len out <? unfilled_len) s, rb_put out buf);
      mret (Ready ())
  | Some (SStream r) =>
      let old_len := len (rb_filled buf) in
      let '((r, buf), result) := poll_read (r, buf) in
      let new_len := len (rb_filled buf) in
      match result with
      | Ok (Ready _) => _ ← put_st (set_state (ms_index s) (SStream r) (old_len =? new_len) s, buf); mret (Ready ())
      | Ok Pending => _ ← put_st (set_state (ms_index s) (SStream r) false s, buf); mret Pending
      | Err e => _ ← put_st (set_state (ms_index s) (SStream r) false s, buf); throw e
      | Panic => panic
      end
  end.

(** [MultiPartStates::poll_read]. *)
Fixpoint poll_states (fuel : nat) : ST (MultiPartStates * ReadBuf) E (Poll ()) :=
  match fuel with
  | O => panic
  | S fuel =>
      '(s, buf) ← get_st;
      if rb_room buf =? 0 then mret (Ready ())
      else match ms_states s !! ms_index s with
           | None => mret (Ready ())
           | Some _ =>
               p ← poll_read_curr;
               match p with Ready _ => poll_states fuel | Pending => mret Pending end
           end
  end.
Definition states_fuel (s : MultiPartStates) (buf : ReadBuf) : nat := S (length (ms_states s) - ms_index s + Z.to_nat (rb_room buf)).

(** [MultiPart::poll_read]. *)
Definition on_reading (s : MultiPartStates) : ST (MultiPart * ReadBuf) E (Poll ()) :=
  '(m, buf) ← get_st;
  if rb_room buf =? 0 then mret (Ready ())
  else
    let filled := len (rb_filled buf) in
    let '((s, buf), r) := poll_states (states_fuel s buf) (s, buf) in
    let new_filled := len (rb_filled buf) in
    _ ← put_st (mp_set_status (Reading s) m, buf);
    match r with
    | Ok (Ready _) =>
        _ ← (if filled =? new_filled then put_st (mp_set_status (Finish s) m, buf) else mret ());
        mret (Ready ())
    | Ok Pending => mret (if negb (new_filled =? filled) then Ready () else Pending)
    | Err e => throw e
    | Panic => panic
    end.
Definition MultiPart_poll_read : ST (MultiPart * ReadBuf) E (Poll ()) :=
  '(m, buf) ← get_st;
  match mp_status m with
  | Finish _ => mret (Ready ())
  | Reading s => on_reading s
  | Never =>
      let m := build_status m in
      _ ← put_st (m, buf);
      match mp_status m with Reading s => on_reading s | _ => mret (Ready ()) end
  end.

(** ** Reading again *)

(** [MultiPartStates::reuse]: the states in order, to the first error. *)
Fixpoint reuse_states (l : list MultiPartState) : list MultiPartState * result E () :=
  match l with
  | [] => ([], Ok ())
  | SBytes c :: l => let (l, r) := reuse_states l in (SBytes (set_position 0 c) :: l, r)
  | SStream x :: l =>
      match reuse x with
      | (x, Ok _) => let (l, r) := reuse_states l in (SStream x :: l, r)
      | (x, Err e) => (SStream x :: l, Err e)
      | (x, Panic) => (SStream x :: l, Panic)
      end
  end.
Definition states_reuse : ST MultiPartStates E () := λ s, let (l, r) := reuse_states (ms_states s) in (mkStates l 0, r).

(** [reuse_inner]: the status is [Never] while the states are reset. *)
Definition reuse_inner : ST MultiPart E () :=
  m ← get_st;
  _ ← put_st (mp_set_status Never m);
  match mp_status m with
  | Never => mret ()
  | Reading s => let (s, r) := states_reuse s in _ ← put_st (mp_set_status (Reading s) m); lift_res r
  | Finish s =>
      match states_reuse s with
      | (s, Ok _) => put_st (mp_set_status (Reading s) m)
      | (_, Err e) => throw e
      | (_, Panic) => panic
      end
  end.
Definition MultiPart_reuse : ST MultiPart E () :=
  m ← get_st; match mp_status m with Never => mret () | _ => reuse_inner end.
End multipart.
Arguments MultiPartState : clear implicits.
Arguments MultiPartStates : clear implicits.
Arguments ReadStatus : clear implicits.
Arguments Part : clear implicits.
Arguments MultiPart : clear implicits.

#[export] Instance MultiPart_AsyncRead {E R} `{!AsyncRead E R} : AsyncRead E (MultiPart R) := MultiPart_poll_read.
#[export] Instance MultiPart_ReusableReader {E R} `{!ReusableReader E R} : ReusableReader E (MultiPart R) := MultiPart_reuse.

(** ** What it reads as *)

(** The text of RFC 7578 and RFC 2046, given what the bodies are. *)
Definition quoted (t : bytes) : bytes := [34] ++ t ++ [34].
Definition part_text {R} (f : MultiPartState R → bytes) (boundary : bytes) (p : Part R) : bytes :=
  bs "--" ++ boundary ++ CRLF ++
  bs "Content-Disposition: form-data" ++ from_option (λ n, bs "; name=" ++ quoted n) [] (pt_name p) ++
    from_option (λ n, bs "; filename=" ++ quoted n) [] (pt_file_name p) ++ CRLF ++
  from_option (λ m, bs "Content-Type: " ++ m ++ CRLF) [] (pt_mime p) ++ CRLF ++
  from_option f [] (pt_body p) ++ CRLF.
Definition form_data {R} (f : MultiPartState R → bytes) (boundary : bytes) (ps : list (Part R)) : bytes :=
  concat (map (part_text f boundary) ps) ++ bs "--" ++ boundary ++ bs "--" ++ CRLF.

Section spec.
Context {E R : Type} {AR : AsyncRead E R} {RR : ReusableReader E R} {LR : ReaderLaws E R}.

Definition state_rest (x : MultiPartState R) : bytes := match x with SBytes c => cu_rest c | SStream r => reader_rest r end.
Definition state_whole (x : MultiPartState R) : bytes := match x with SBytes c => cu_data c | SStream r => reader_whole r end.
Definition state_ok (x : MultiPartState R) : Prop := match x with SBytes c => 0 ≤ cu_pos c | SStream r => reader_ok r end.
Definition state_fresh (x : MultiPartState R) : Prop := state_ok x ∧ state_rest x = state_whole x.

Definition states_rest (s : MultiPartStates R) : bytes := concat (map state_rest (drop (ms_index s) (ms_states s))).
Definition states_whole (s : MultiPartStates R) : bytes := concat (map state_whole (ms_states s)).

(** What a [MultiPart] has left and what it gives from its start; before the
    first read, the streams of the parts are at their start. *)
Definition mp_rest (m : MultiPart R) : bytes :=
  match mp_status m with Never => form_data state_rest (mp_boundary m) (mp_parts m) | Reading s => states_rest s | Finish _ => [] end.
Definition mp_whole (m : MultiPart R) : bytes :=
  match mp_status m with Never => form_data state_whole (mp_boundary m) (mp_parts m) | Reading s | Finish s => states_whole s end.
Definition part_fresh (p : Part R) : Prop := match pt_body p with Some b => state_fresh b | None => True end.
Definition mp_ok (m : MultiPart R) : Prop :=
  match mp_status m with Never => Forall part_fresh (mp_parts m) | Reading s | Finish s => Forall state_ok (ms_states s) end.

(** ** Reading the states *)

Lemma map_insert_same {A B} (f : A → B) (l : list A) i x y : l !! i = Some x → f y = f x → map f (<[i := y]> l) = map f l.
Proof. intros Hi Hf. rewrite list_fmap_insert, Hf. apply list_insert_id. by rewrite list_lookup_fmap, Hi. Qed.

Lemma states_rest_cons s x : ms_states s !! ms_index s = Some x →
  states_rest s = state_rest x ++ concat (map state_rest (drop (S (ms_index s)) (ms_states s))).
Proof. intros H. unfold states_rest. by rewrite (drop_S _ _ _ H). Qed.

(** The state of the index is replaced by what a read leaves of it. *)
Lemma set_state_rest s x y out next :
  ms_states s !! ms_index s = Some x → state_rest x = out ++ state_rest y → (next = true → state_rest y = []) →
  states_rest s = out ++ states_rest (set_state (ms_index s) y next s).
Proof.
  intros Hx Hr Hn. rewrite (states_rest_cons s x Hx), Hr, <- app_assoc. f_equal.
  assert (ms_index s < length (ms_states s))%nat as Hlt by by eapply lookup_lt_Some.
  assert (<[ms_index s := y]> (ms_states s) !! ms_index s = Some y) as Hy by by apply list_lookup_insert_eq.
  unfold states_rest, set_state. cbn [ms_states ms_index]. destruct next.
  - rewrite Hn by done. by rewrite drop_insert_lt by lia.
  - rewrite (drop_S _ _ _ Hy). cbn [map concat]. by rewrite drop_insert_lt by lia.
Qed.

Lemma set_state_ok s x y next :
  ms_states s !! ms_index s = Some x → Forall state_ok (ms_states s) → state_ok y → state_whole y = state_whole x →
  Forall state_ok (ms_states (set_state (ms_index s) y next s)) ∧ states_whole (set_state (ms_index s) y next s) = states_whole s ∧
  length (ms_states (set_state (ms_index s) y next s)) = length (ms_states s).
Proof.
  intros Hx Hok Hy Hw. unfold states_whole, set_state. cbn [ms_states]. split_and!; [by apply Forall_insert| |apply length_insert].
  by rewrite (map_insert_same _ _ _ _ _ Hx Hw).
Qed.

(** How much is left to do. *)
Definition todo (s : MultiPartStates R) (b : ReadBuf) : nat := length (ms_states s) - ms_index s + Z.to_nat (rb_room b).

Definition states_step (s : MultiPartStates R) (b : ReadBuf) (x : (MultiPartStates R * ReadBuf) * result E (Poll ())) : Prop :=
  (∃ out, x.1.2 = rb_put out b ∧ states_rest s = out ++ states_rest x.1.1 ∧ len out ≤ rb_room b ∧ (x.2 = Ok Pending → out = [])) ∧
  Forall state_ok (ms_states x.1.1) ∧ states_whole x.1.1 = states_whole s ∧
  match x.2 with Ok (Ready _) => (todo x.1.1 x.1.2 < todo s b)%nat | Panic => False | _ => True end.

Lemma poll_read_curr_spec s b y :
  Forall state_ok (ms_states s) → ms_states s !! ms_index s = Some y → 0 < rb_room b → states_step s b (poll_read_curr (s, b)).
Proof.
  intros Hok Hy Hb. assert (ms_index s < length (ms_states s))%nat as Hlt by by eapply lookup_lt_Some.
  pose proof (proj1 (Forall_lookup _ _) Hok _ _ Hy) as Hyok. unfold poll_read_curr. rewrite bind_st. cbn [get_st]. rewrite Hy.
  destruct y as [c|r]; cbn [state_ok] in Hyok.
  - destruct (cu_rest_read (rb_room b) c Hyok ltac:(lia)) as [Hr Hp].
    assert ((Cursor_read (rb_room b) c).2 = takeZ (rb_room b) (cu_rest c)) as Hout by done.
    destruct (Cursor_read (rb_room b) c) as [c' out] eqn:Ec. cbn [fst snd] in *. rewrite bind_st. cbn [put_st].
    assert (len out = Z.min (rb_room b) (len (cu_rest c))) as Hlo by (rewrite Hout; apply len_takeZ_min; lia).
    pose proof (len_nonneg (cu_rest c')) as Hn. apply (f_equal len) in Hr as Hl. rewrite len_app in Hl.
    destruct (set_state_ok s (SBytes c) (SBytes c') (len out <? rb_room b) Hy Hok Hp) as (H1 & H2 & H3);
      [unfold Cursor_read in Ec; injection Ec as <- _; done|].
    split; [|split_and!; [done..|]].
    + exists out. split_and!; [done| |lia|done]. apply (set_state_rest s (SBytes c)); [done..|].
      intros Hnext. bool_to_prop. cbn. apply len_0_nil. lia.
    + cbn [mret ST_ret fst snd]. unfold todo. rewrite H3, rb_room_put. unfold set_state. cbn [ms_index].
      pose proof (len_nonneg out). destruct (Z.ltb_spec (len out) (rb_room b)); lia.
  - destruct (poll_read_ok r b Hyok ltac:(lia)) as ((out & Hb' & Hr & Hlen & Hp) & Hok' & Hw). cbn [fst snd] in *.
    destruct (poll_read (r, b)) as [[r' b'] p]. cbn [fst snd] in *. subst b'.
    assert (∀ next, next = true → out = [] → rb_room b = 0 ∨ reader_rest r = [] → reader_rest r' = []) as Hend.
    { intros next _ -> [?|E0]; [lia|]. by rewrite E0 in Hr. }
    destruct p as [[[]|]|e|]; [| | |done]; rewrite bind_st; cbn [put_st];
      match goal with |- context [set_state _ (SStream r') ?n s] =>
        destruct (set_state_ok s (SStream r) (SStream r') n Hy Hok Hok' Hw) as (H1 & H2 & H3) end;
      (split; [exists out; split_and!; [done| |done|try done]|split_and!; [done..|try done]]).
    + apply (set_state_rest s (SStream r)); [done..|]. intros Hnext. bool_to_prop. cbn [rb_put rb_filled] in Hnext.
      rewrite len_app in Hnext. assert (out = []) as -> by (apply len_0_nil; lia). by apply (Hend true), Hp.
    + cbn [mret ST_ret fst snd]. unfold todo. rewrite H3, rb_room_put. unfold set_state. cbn [ms_index rb_put rb_filled].
      pose proof (len_nonneg out). rewrite len_app. destruct (Z.eqb_spec (len (rb_filled b)) (len (rb_filled b) + len out)); lia.
    + by apply (set_state_rest s (SStream r)).
    + by apply (set_state_rest s (SStream r)).
Qed.

Definition states_poll (s : MultiPartStates R) (b : ReadBuf) (x : (MultiPartStates R * ReadBuf) * result E (Poll ())) : Prop :=
  (∃ out, x.1.2 = rb_put out b ∧ states_rest s = out ++ states_rest x.1.1 ∧ len out ≤ rb_room b) ∧
  Forall state_ok (ms_states x.1.1) ∧ states_whole x.1.1 = states_whole s ∧
  match x.2 with Ok (Ready _) => rb_room x.1.2 = 0 ∨ states_rest x.1.1 = [] | Panic => False | _ => True end.

Lemma states_poll_refl s b (r : result E (Poll ())) :
  Forall state_ok (ms_states s) → 0 ≤ rb_room b →
  match r with Ok (Ready _) => rb_room b = 0 ∨ states_rest s = [] | Panic => False | _ => True end → states_poll s b ((s, b), r).
Proof. intros Hok Hb Hr. split; [|done]. exists []. cbn [fst snd]. by rewrite rb_put_nil, len_nil. Qed.

Lemma states_poll_trans s b s1 b1 r1 x :
  states_step s b ((s1, b1), r1) → states_poll s1 b1 x → states_poll s b x.
Proof.
  intros ((o1 & Hb1 & Hr1 & Hl1 & _) & _ & Hw1 & _) ((o2 & Hb2 & Hr2 & Hl2) & Hok & Hw2 & Hp). cbn [fst snd] in *. subst b1. split; [|by rewrite Hw2, Hw1].
  exists (o1 ++ o2). rewrite Hb2, rb_put_put, Hr1, Hr2, <- app_assoc. rewrite rb_room_put in Hl2. split_and!; [done..|len_lia].
Qed.

Lemma poll_states_spec fuel s b :
  (todo s b < fuel)%nat → Forall state_ok (ms_states s) → 0 ≤ rb_room b → states_poll s b (poll_states fuel (s, b)).
Proof.
  revert s b. induction fuel as [|fuel IH]; intros s b Hf Hok Hb; [lia|]. cbn [poll_states]. rewrite bind_st. cbn [get_st].
  destruct (Z.eqb_spec (rb_room b) 0) as [Hz|Hz]; [apply states_poll_refl; auto|].
  destruct (ms_states s !! ms_index s) as [y|] eqn:Ey.
  - pose proof (poll_read_curr_spec s b y Hok Ey ltac:(lia)) as Hs. rewrite bind_st.
    destruct (poll_read_curr (s, b)) as [[s1 b1] p]. assert (0 ≤ rb_room b1) as Hb1.
    { destruct Hs as ((out & Hb1 & _ & Hl & _) & _). cbn [fst snd] in *. subst b1. rewrite rb_room_put. lia. }
    pose proof Hs as (_ & Hok1 & _ & Hp). cbn [fst snd] in *.
    destruct p as [[u|]|e|]; [| | |done]; apply (states_poll_trans _ _ _ _ _ _ Hs); [apply IH; (done || lia)| |];
      by apply states_poll_refl.
  - apply states_poll_refl; [done..|]. right. unfold states_rest. by rewrite drop_ge by (by apply lookup_ge_None).
Qed.

(** ** Reading the message *)

Lemma opt_state_map (f : MultiPartState R → bytes) g h x :
  (∀ t, f (state_bytes t) = t) → (∀ t, g t = h t) → concat (map f (opt_state g x)) = from_option h [] x.
Proof. intros Hf Hg. destruct x; [|done]. cbn. by rewrite Hf, Hg, app_nil_r. Qed.

(** The states are the text, when the bytes of a state are its own. *)
Lemma part_states_text (f : MultiPartState R → bytes) boundary p :
  (∀ t, f (state_bytes t) = t) → concat (map f (part_states boundary p)) = part_text f boundary p.
Proof.
  intros Hf. unfold part_states, part_text, quoted. rewrite !map_app, !concat_app. cbn [map concat]. rewrite !app_nil_r, !Hf, <- !app_assoc.
  rewrite !(opt_state_map f _ _ _ Hf) by reflexivity. repeat f_equal. destruct (pt_body p); [apply app_nil_r|done].
Qed.

Lemma form_data_states (f : MultiPartState R → bytes) boundary ps :
  (∀ t, f (state_bytes t) = t) →
  concat (map f (flat_map (part_states boundary) ps ++ [state_bytes (bs "--" ++ boundary ++ bs "--" ++ CRLF)])) = form_data f boundary ps.
Proof.
  intros Hf. unfold form_data. rewrite map_app, concat_app. f_equal; [|cbn [map concat]; by rewrite Hf, app_nil_r].
  induction ps as [|p ps IH]; [done|]. cbn [flat_map map concat]. by rewrite map_app, concat_app, IH, part_states_text.
Qed.

Lemma opt_state_ok g x : Forall state_ok (opt_state (R := R) g x).
Proof. destruct x; repeat constructor; cbn; lia. Qed.

Lemma build_status_spec m :
  mp_status m = Never → mp_ok m →
  ∃ s, mp_status (build_status m) = Reading s ∧ Forall state_ok (ms_states s) ∧ states_rest s = mp_rest m ∧ states_whole s = mp_whole m.
Proof.
  unfold mp_ok, mp_rest, mp_whole. intros -> Hok. eexists. split; [done|]. cbn [ms_states]. split_and!.
  - apply Forall_app. split; [|repeat constructor; cbn; lia]. apply Forall_flat_map. apply (Forall_impl _ _ _ Hok). intros p Hp.
    unfold part_states. rewrite !Forall_app. split_and!; try apply opt_state_ok; try (repeat constructor; cbn; lia).
    unfold part_fresh in Hp. destruct (pt_body p) as [x|]; [|constructor]. repeat constructor. apply Hp.
  - unfold states_rest. cbn [ms_states ms_index drop]. apply form_data_states. done.
  - unfold states_whole. cbn [ms_states]. apply form_data_states. done.
Qed.

Lemma mp_fresh_rest m : mp_status m = Never → mp_ok m → mp_rest m = mp_whole m.
Proof.
  unfold mp_ok, mp_rest, mp_whole. intros -> Hok. unfold form_data. f_equal. f_equal. apply map_ext_Forall. apply (Forall_impl _ _ _ Hok).
  intros p Hp. unfold part_text, part_fresh in *. destruct (pt_body p) as [x|]; [|done]. cbn. destruct Hp as [_ ->]. done.
Qed.

Lemma on_reading_spec s m b :
  Forall state_ok (ms_states s) → 0 ≤ rb_room b → mp_status m = Reading s →
  let x := on_reading s (m, b) in
  poll_spec mp_rest m b x ∧ mp_ok x.1.1 ∧ mp_whole x.1.1 = mp_whole m.
Proof.
  intros Hok Hb Hm. unfold on_reading. rewrite bind_st. cbn [get_st].
  destruct (Z.eqb_spec (rb_room b) 0) as [Hz|Hz].
  { cbn [mret ST_ret fst snd]. split; [|unfold mp_ok; by rewrite Hm]. exists []. cbn [fst snd]. rewrite rb_put_nil, len_nil. split_and!; [done..|lia|]. by left. }
  destruct (poll_states_spec (states_fuel s b) s b ltac:(unfold states_fuel, todo; lia) Hok Hb) as ((out & Hb' & Hr & Hl) & Hok' & Hw & Hp).
  destruct (poll_states (states_fuel s b) (s, b)) as [[s' b'] p]. cbn [fst snd] in *. subst b'. rewrite bind_st. cbn [put_st].
  cbn [rb_put rb_filled]. rewrite len_app. pose proof (len_nonneg out).
  destruct p as [[[]|]|e|]; [| | |done].
  - rewrite bind_st. rewrite rb_room_put in Hp. unfold poll_spec, mp_ok, mp_whole. rewrite Hm.
    destruct (Z.eqb_spec (len (rb_filled b)) (len (rb_filled b) + len out)); cbn [put_st mret ST_ret fst snd mp_set_status mp_status].
    + assert (out = []) as -> by (apply len_0_nil; lia). split; [|done]. exists []. unfold mp_rest. cbn [mp_set_status mp_status]. rewrite Hm.
      assert (states_rest s = []) as -> by (rewrite Hr; destruct Hp as [Hp| ->]; [rewrite len_nil in Hp; lia|done]).
      split_and!; [done..|lia|]. by right.
    + split; [|done]. exists out. unfold mp_rest. cbn [mp_set_status mp_status]. rewrite Hm. split_and!; [done..|]. intros ->. rewrite len_nil in *. lia.
  - unfold poll_spec, mp_ok, mp_whole. cbn [mret ST_ret fst snd mp_set_status mp_status]. rewrite Hm. split; [|done]. exists out.
    unfold mp_rest. cbn [mp_set_status mp_status]. rewrite Hm. split_and!; [done..|].
    destruct (Z.eqb_spec (len (rb_filled b) + len out) (len (rb_filled b))); cbn [negb]; [apply len_0_nil; lia|intros ->; rewrite len_nil in *; lia].
  - unfold poll_spec, mp_ok, mp_whole. cbn [throw fst snd mp_set_status mp_status]. rewrite Hm. split; [|done]. exists out.
    unfold mp_rest. cbn [mp_set_status mp_status]. by rewrite Hm.
Qed.

Lemma MultiPart_poll_read_ok m b :
  mp_ok m → 0 ≤ rb_room b →
  let x := MultiPart_poll_read (m, b) in
  poll_spec mp_rest m b x ∧ mp_ok x.1.1 ∧ mp_whole x.1.1 = mp_whole m.
Proof.
  intros Hok Hb. unfold MultiPart_poll_read. rewrite bind_st. cbn [get_st]. destruct (mp_status m) as [|s|s] eqn:Hm.
  - rewrite bind_st. cbn [put_st]. destruct (build_status_spec m Hm Hok) as (s & Hs & Hoks & Hr & Hw). rewrite Hs.
    destruct (on_reading_spec s (build_status m) b Hoks Hb Hs) as (Hp & Hok' & Hw').
    assert (mp_rest (build_status m) = mp_rest m) as Er by (rewrite <- Hr; unfold mp_rest; by rewrite Hs).
    assert (mp_whole (build_status m) = mp_whole m) as Ew by (rewrite <- Hw; unfold mp_whole; by rewrite Hs).
    split; [|by rewrite Hw']. unfold poll_spec in *. by rewrite <- Er.
  - apply on_reading_spec; [|done..]. unfold mp_ok in Hok. by rewrite Hm in Hok.
  - split; [|done]. exists []. cbn [mret ST_ret fst snd]. rewrite rb_put_nil, len_nil. split_and!; [done..|].
    intros _. right. unfold mp_rest. by rewrite Hm.
Qed.

(** ** Reading it again *)

Context {UR : ReuseLaws E R}.

Lemma reuse_states_spec l :
  Forall state_ok l →
  match reuse_states l with
  | (l', Ok _) => Forall state_ok l' ∧ map state_rest l' = map state_whole l ∧ map state_whole l' = map state_whole l
  | (_, Err _) => True
  | (_, Panic) => False
  end.
Proof.
  induction 1 as [|x l Hx _ IH]; [by split_and!|]. cbn [reuse_states]. destruct x as [c|r]; cbn [state_ok] in Hx.
  - destruct (reuse_states l) as [l' [[]|e|]]; [|done..]. destruct IH as (H1 & H2 & H3). cbn [map state_rest state_whole].
    rewrite H2, H3. split_and!; [constructor; [cbn; lia|done]|done..].
  - pose proof (reuse_ok r Hx) as Hr. destruct (reuse r) as [r' [[]|e|]]; [|done..]. destruct Hr as (Hr1 & Hr2 & Hr3).
    destruct (reuse_states l) as [l' [[]|e|]]; [|done..]. destruct IH as (H1 & H2 & H3). cbn [map state_rest state_whole].
    rewrite H2, H3, Hr2, Hr3. split_and!; [by constructor|done..].
Qed.

Lemma MultiPart_reuse_ok m :
  mp_ok m →
  match MultiPart_reuse m with
  | (m', Ok _) => mp_ok m' ∧ mp_rest m' = mp_whole m ∧ mp_whole m' = mp_whole m
  | (_, Err _) => True
  | (_, Panic) => False
  end.
Proof.
  intros Hok. unfold MultiPart_reuse. rewrite bind_st. cbn [get_st]. destruct (mp_status m) as [|s|s] eqn:Hm.
  { cbn [mret ST_ret]. split_and!; [done|by apply mp_fresh_rest|done]. }
  all: unfold reuse_inner; rewrite !bind_st; cbn [get_st]; rewrite bind_st; cbn [put_st]; rewrite Hm; unfold states_reuse;
    unfold mp_ok in Hok; rewrite Hm in Hok; pose proof (reuse_states_spec _ Hok) as Hl;
    destruct (reuse_states (ms_states s)) as [l' [[]|e|]]; [|done..];
    destruct Hl as (H1 & H2 & H3); unfold mp_ok, mp_rest, mp_whole; rewrite ?bind_st; cbn [put_st lift_res mp_set_status mp_status];
    rewrite Hm; unfold states_rest, states_whole; cbn [ms_states ms_index drop]; rewrite drop_0; by rewrite H2, H3.
Qed.
End spec.

(** A [MultiPart] is itself a reader that can be read again. *)
#[export] Instance MultiPart_laws {E R} `{!AsyncRead E R, !ReaderLaws E R} : ReaderLaws E (MultiPart R) :=
  {| reader_ok := mp_ok; reader_rest := mp_rest; reader_whole := mp_whole; poll_read_ok := MultiPart_poll_read_ok |}.
#[export] Instance MultiPart_reuses {E R} `{!AsyncRead E R, !ReusableReader E R, !ReaderLaws E R, !ReuseLaws E R} : ReuseLaws E (MultiPart R) :=
  MultiPart_reuse_ok.

(** ** The announced size *)

Section size.
Context {E R : Type}.

(** A number that is computed, if it is a [u64]. *)
Definition upto {A} (g : Z → A) (x : Z) : result E A := if x <? U64 then Ok (g x) else Panic.

Lemma upto_bind {A} (f : Z → result E A) g a b c :
  0 ≤ c → (∀ x, f x = upto g (x + c)) → (x ← add_u64 a b; f x) = upto g (a + (b + c)).
Proof.
  intros Hc Hf. unfold add_u64, upto in *. replace (a + (b + c)) with (a + b + c) by lia.
  destruct (Z.ltb_spec (a + b) U64); cbn; [apply Hf|]. by destruct (Z.ltb_spec (a + b + c) U64); [lia|].
Qed.

Lemma upto_last {A} (g : Z → A) a b : (x ← add_u64 a b; Ok (g x)) = upto g (a + b).
Proof. unfold add_u64, upto. by destruct (a + b <? U64). Qed.

Lemma upto_opt {A} (f : Z → result E A) g a k c x :
  0 ≤ c → 0 ≤ k → (∀ x, f x = upto g (x + c)) →
  (x ← add_opt a k x; f x) = upto g (a + (match x with Some t => k + len t | None => 0 end + c)).
Proof. intros Hc Hk Hf. destruct x as [t|]; cbn [add_opt]; [by apply upto_bind|]. cbn. rewrite Hf. f_equal. Qed.

Lemma upto_opt_pos (x : option bytes) k : 0 ≤ k → 0 ≤ match x with Some t => k + len t | None => 0 end.
Proof. destruct x as [t|]; [pose proof (len_nonneg t)|]; lia. Qed.

Definition body_len (f : MultiPartState R → bytes) (p : Part R) : Z := len (from_option f [] (pt_body p)).

Lemma len_part_text (f : MultiPartState R → bytes) boundary p :
  len (part_text f boundary p) = body_len f p + (2 + len boundary + 2 + (30 +
    (match pt_name p with Some t => 9 + len t | None => 0 end + (match pt_file_name p with Some t => 13 + len t | None => 0 end +
    (2 + (match pt_mime p with Some t => 16 + len t | None => 0 end + (2 + 2))))))).
Proof.
  unfold part_text, body_len, quoted, CRLF.
  destruct (pt_name p), (pt_file_name p), (pt_mime p); cbn [from_option]; rewrite !len_app, ?len_nil;
    repeat match goal with |- context [len (bs ?s)] => let n := eval vm_compute in (len (bs s)) in change (len (bs s)) with n end;
    repeat match goal with |- context [len [?a; ?b]] => change (len [a; b]) with 2 | |- context [len [?a]] => change (len [a]) with 1 end; lia.
Qed.

(** The length a part declares is the one its body has. *)
Definition part_sized (f : MultiPartState R → bytes) (p : Part R) : Prop := pt_length p = Some (body_len f p).

Lemma part_size_spec f boundary size p :
  part_sized f p → part_size (E := E) boundary size p = upto Some (size + len (part_text f boundary p)).
Proof.
  intros Hp. rewrite len_part_text. unfold part_size. rewrite Hp.
  pose proof (len_nonneg boundary). pose proof (upto_opt_pos (pt_name p) 9). pose proof (upto_opt_pos (pt_file_name p) 13).
  pose proof (upto_opt_pos (pt_mime p) 16).
  do 3 (apply upto_bind; [lia|]; intros ?). do 2 (apply upto_opt; [lia..|]; intros ?). apply upto_bind; [lia|]; intros ?.
  apply upto_opt; [lia..|]; intros ?. apply upto_last.
Qed.

(** [total_bytes] is the size of the text, or does not fit. *)
Lemma parts_size_spec f boundary size ps :
  Forall (part_sized f) ps → parts_size (E := E) boundary size ps = upto Some (size + len (form_data f boundary ps)).
Proof.
  intros Hps. revert size. unfold form_data. induction Hps as [|p ps Hp _ IH]; intros size; cbn [parts_size map concat].
  - unfold CRLF. rewrite upto_last, !len_app. f_equal. change (len (bs "--")) with 2. change (len [13; 10]) with 2. change (len (@nil Z)) with 0. lia.
  - rewrite (part_size_spec f) by done. unfold upto at 1. rewrite <- app_assoc, len_app, Z.add_assoc.
    destruct (Z.ltb_spec (size + len (part_text f boundary p)) U64); [apply IH|].
    unfold mbind, result_mbind, result_bind, upto.
    match goal with |- _ = if ?a + len ?l <? U64 then _ else _ => pose proof (len_nonneg l); destruct (Z.ltb_spec (a + len l) U64); [lia|done] end.
Qed.
End size.

(** ** A reader that never waits *)

Section ready.
Context {E R : Type} {AR : AsyncRead E R} {LR : ReaderLaws E R}.
Hypothesis streams_ready : ∀ (r : R) b, reader_ok r → 0 ≤ rb_room b → ∃ x, (poll_read (E := E) (r, b)).2 = Ok (Ready x).

Lemma poll_read_curr_ready s b :
  Forall state_ok (ms_states s) → 0 ≤ rb_room b → (poll_read_curr (E := E) (s, b)).2 = Ok (Ready ()).
Proof.
  intros Hok Hb. unfold poll_read_curr. rewrite bind_st. cbn [get_st]. destruct (ms_states s !! ms_index s) as [[c|r]|] eqn:Ey; [done| |done].
  destruct (streams_ready r b) as [x Hx]; [by apply (proj1 (Forall_lookup _ _) Hok _ _ Ey)|done|].
  destruct (poll_read (r, b)) as [[r' b'] p]. cbn [snd] in Hx. by rewrite Hx.
Qed.

Lemma poll_states_ready fuel s b :
  (todo s b < fuel)%nat → Forall state_ok (ms_states s) → 0 ≤ rb_room b → (poll_states (E := E) fuel (s, b)).2 = Ok (Ready ()).
Proof.
  revert s b. induction fuel as [|fuel IH]; intros s b Hf Hok Hb; [lia|]. cbn [poll_states]. rewrite bind_st. cbn [get_st].
  destruct (Z.eqb_spec (rb_room b) 0) as [Hz|Hz]; [done|]. destruct (ms_states s !! ms_index s) as [y|] eqn:Ey; [|done].
  destruct (poll_read_curr_spec s b y Hok Ey ltac:(lia)) as ((out & Hb' & _ & Hl & _) & Hok' & _ & Hp).
  pose proof (poll_read_curr_ready s b Hok Hb) as Hr. rewrite bind_st. destruct (poll_read_curr (s, b)) as [[s' b'] p]. cbn [fst snd] in *.
  subst p b'. apply IH; [lia|done|]. rewrite rb_room_put. lia.
Qed.

Lemma on_reading_ready s m b :
  Forall state_ok (ms_states s) → 0 ≤ rb_room b → (on_reading (E := E) s (m, b)).2 = Ok (Ready ()).
Proof.
  intros Hok Hb. unfold on_reading. rewrite bind_st. cbn [get_st]. destruct (rb_room b =? 0); [done|].
  pose proof (poll_states_ready (states_fuel s b) s b ltac:(unfold states_fuel, todo; lia) Hok Hb) as Hr.
  destruct (poll_states _ (s, b)) as [[s' b'] p]. cbn [snd] in Hr. subst p. rewrite bind_st. cbn [put_st]. by destruct (_ =? _).
Qed.

Lemma MultiPart_poll_ready (m : MultiPart R) b : mp_ok m → 0 ≤ rb_room b → ∃ x, (poll_read (E := E) (m, b)).2 = Ok (Ready x).
Proof.
  intros Hok Hb. exists (). unfold poll_read, MultiPart_AsyncRead, MultiPart_poll_read. rewrite bind_st. cbn [get_st].
  destruct (mp_status m) as [|s|s] eqn:Hm; [| |done].
  - rewrite bind_st. cbn [put_st]. destruct (build_status_spec m Hm Hok) as (s & Hs & Hoks & _). rewrite Hs. by apply on_reading_ready.
  - apply on_reading_ready; [|done]. unfold mp_ok in Hok. by rewrite Hm in Hok.
Qed.
End ready.

(** C13: the reader of a multipart message that was not read yet, whose parts are at their
    start, gives, over non-empty buffers of any sizes and streams that wait as they
    like, the text of RFC 7578 with the bodies of the parts, and an empty read means
    that all of it was read.  When every part declares the length of its body,
    [total_bytes] announces the size of what was read.  When the readers of the parts
    start again on [reuse], as the trait asks and slices do not, the message gives
    the same text again after [reuse], or [reuse] fails. *)
Theorem multipart_form_data {E R : Type} `{!AsyncRead E R, !ReusableReader E R, !ReaderLaws E R}
    (boundary : bytes) (parts : list (Part R)) (caps : list Z) :
  Forall part_fresh parts → Forall (λ c, 0 < c) caps →
  let m := mkMultiPart parts boundary Never in
  let text := form_data state_whole boundary parts in
  match read_to_end (E := E) caps m with
  | (m', out, e) =>
      text = out ++ mp_rest m' ∧ (e = true → out = text) ∧
      (Forall (part_sized state_whole) parts → total_bytes (E := E) m = upto Some (len text)) ∧
      (ReuseLaws E R →
        match MultiPart_reuse (E := E) m' with
        | (m'', Ok _) =>
            ∀ caps', Forall (λ c, 0 < c) caps' →
            match read_to_end (E := E) caps' m'' with (_, out', e') => e' = true → out' = text end
        | (_, Err _) => True
        | (_, Panic) => False
        end)
  end.
Proof.
  intros Hf Hc m text. pose proof (read_to_end_spec (E := E) caps m Hf Hc) as H.
  assert (reader_rest (E := E) m = text) as Hrest by exact (mp_fresh_rest m eq_refl Hf).
  destruct (read_to_end (E := E) caps m) as [[m' out] e]. destruct H as (Hok & Hw & Hr & He). rewrite Hrest in *. split_and!; [done|done| |].
  - intros Hs. apply (parts_size_spec state_whole boundary 0 parts Hs).
  - intros HU. pose proof (MultiPart_reuse_ok (E := E) m' Hok) as Hre. destruct (MultiPart_reuse (E := E) m') as [m'' [[]|x|]]; [|done..].
    destruct Hre as (Hok2 & Hr2 & _). intros caps' Hc'. pose proof (read_to_end_spec (E := E) caps' m'' Hok2 Hc') as H2.
    destruct (read_to_end (E := E) caps' m'') as [[m3 out'] e']. destruct H2 as (_ & _ & _ & He'). intros Ht. rewrite (He' Ht).
    cbn [reader_rest MultiPart_laws]. rewrite Hr2. exact Hw.
Qed.

(** A reader that waits when it is told to. *)
Record WaitReader := mkWaitReader { wr_cursor : Cursor; wr_waits : list bool }.
#[export] Instance WaitReader_AsyncRead : AsyncRead () WaitReader := λ s,
  let '(r, b) := s in
  match wr_waits r with
  | true :: w => ((mkWaitReader (wr_cursor r) w, b), Ok Pending)
  | w => let (c, out) := Cursor_read (rb_room b) (wr_cursor r) in ((mkWaitReader c (tail w), rb_put out b), Ok (Ready ()))
  end.
#[export] Instance WaitReader_ReusableReader : ReusableReader () WaitReader := λ r,
  (mkWaitReader (set_position 0 (wr_cursor r)) (wr_waits r), Ok ()).

Definition wait_ok (r : WaitReader) : Prop := 0 ≤ cu_pos (wr_cursor r).
Definition wait_rest (r : WaitReader) : bytes := cu_rest (wr_cursor r).
Definition wait_whole (r : WaitReader) : bytes := cu_data (wr_cursor r).

Lemma wait_poll_ok r b : wait_ok r → 0 ≤ rb_room b →
  poll_spec (E := ()) wait_rest r b (poll_read (r, b)) ∧ wait_ok (poll_read (E := ()) (r, b)).1.1 ∧ wait_whole (poll_read (E := ()) (r, b)).1.1 = wait_whole r.
Proof.
  destruct r as [c w]. unfold wait_ok. cbn [wr_cursor]. intros Hok Hb. destruct (cu_rest_read (rb_room b) c Hok Hb) as [H1 H2].
  assert (poll_spec (E := ()) wait_rest (mkWaitReader c w) b
    ((mkWaitReader (Cursor_read (rb_room b) c).1 (tail w), rb_put (Cursor_read (rb_room b) c).2 b), Ok (Ready ()))) as Hp.
  { exists (Cursor_read (rb_room b) c).2. cbn [fst snd]. split_and!; [done..| |].
    - unfold Cursor_read. cbn [snd]. rewrite len_takeZ_min; lia.
    - intros E. by apply takeZ_nil_inv in E. }
  unfold poll_read, WaitReader_AsyncRead. cbn [wr_waits wr_cursor]. destruct w as [|[] w]; [by split_and!| |by split_and!].
  split; [|done]. exists []. cbn. rewrite rb_put_nil, len_nil. by split_and!.
Qed.

Lemma wait_reuse_ok r : wait_ok r →
  match reuse (E := ()) r with
  | (r', Ok _) => wait_ok r' ∧ wait_rest r' = wait_whole r ∧ wait_whole r' = wait_whole r
  | (_, Err _) => True
  | (_, Panic) => False
  end.
Proof. by intros. Qed.

#[export] Instance WaitReader_laws : ReaderLaws () WaitReader :=
  {| reader_ok := wait_ok; reader_rest := wait_rest; reader_whole := wait_whole; poll_read_ok := wait_poll_ok |}.
#[export] Instance WaitReader_reuses : ReuseLaws () WaitReader := wait_reuse_ok.

Definition form_parts : list (Part WaitReader) :=
  [Part_body (bs "xiaoming") (Part_name (bs "name") Part_new);
   Part_length (Some 4) (Part_stream (mkWaitReader (Cursor_new (bs "1234")) [false; true; true]) (Part_mime (bs "text/plain") (Part_file_name (bs "a.txt") Part_new)))].

Lemma multipart_form_data_witness :
  let m := mkMultiPart form_parts (bs "b0") Never in
  let caps := repeat 7 40 in
  let '(m', out, e) := read_to_end (E := ()) caps m in
  e = true ∧ total_bytes (E := ()) m = Ok (Some 161) ∧ len out = 161 ∧ out = form_data state_whole (bs "b0") form_parts.
Proof.
  intros m caps.
  assert (Forall part_fresh form_parts) as Hf by (by repeat constructor).
  assert (Forall (part_sized state_whole) form_parts) as Hs by (by repeat constructor).
  assert (Forall (λ c, 0 < c) caps) as Hc by (by apply (bool_decide_unpack _)).
  assert (len (form_data (state_whole (E := ())) (bs "b0") form_parts) = 161) as Hl by (vm_compute; reflexivity).
  assert ((read_to_end (E := ()) caps m).2 = true) as Ee by (vm_compute; reflexivity).
  generalize (multipart_form_data (E := ()) (bs "b0") form_parts caps Hf Hc). fold m. cbv zeta. revert Ee.
  generalize (read_to_end (E := ()) caps m). intros [[m' out] e] Ee (_ & He & Ht & _). cbn [snd] in Ee.
  pose proof (He Ee) as Ho. split; [exact Ee|]. rewrite Ho in *. split; [rewrite (Ht Hs), Hl; reflexivity|]. split; [exact Hl|reflexivity].
Defined.

(** over streams that never wait and do not fail, reading comes to the end: as
    many buffers as the text has bytes, and one more, are enough, of whatever
    sizes. *)
Theorem multipart_ends {E R : Type} `{!AsyncRead E R, !ReaderLaws E R}
    (boundary : bytes) (parts : list (Part R)) (caps : list Z) :
  (∀ (r : R) b, reader_ok r → 0 ≤ rb_room b → ∃ x, (poll_read (E := E) (r, b)).2 = Ok (Ready x)) →
  Forall part_fresh parts → Forall (λ c, 0 < c) caps → len (form_data state_whole boundary parts) < len caps →
  (read_to_end (E := E) caps (mkMultiPart parts boundary Never)).1.2 = form_data state_whole boundary parts ∧
  (read_to_end (E := E) caps (mkMultiPart parts boundary Never)).2 = true.
Proof.
  intros Hready Hf Hc Hl. set (m := mkMultiPart parts boundary Never).
  assert (reader_rest (E := E) m = form_data state_whole boundary parts) as Hrest by exact (mp_fresh_rest m eq_refl Hf).
  rewrite <- Hrest in *. pose proof (read_to_end_spec (E := E) caps m Hf Hc) as H.
  assert ((read_to_end (E := E) caps m).2 = true) as He.
  { apply read_to_end_ends; [|done..]. intros m' b Hm Hb. by apply MultiPart_poll_ready. }
  destruct (read_to_end caps m) as [[m' out] e]. cbn [fst snd] in *. subst e. split; [by apply H|done].
Qed.


Lemma multipart_ends_witness :
  let p := Part_stream (Cursor_new (bs "1234")) Part_new in
  (read_to_end (E := ()) (repeat 50 90) (mkMultiPart [p] (bs "b0") Never)).2 = true.
Proof.
  apply (multipart_ends (E := ()) (bs "b0") [Part_stream (Cursor_new (bs "1234")) Part_new] (repeat 50 90)).
  - apply cursor_ready.
  - by repeat constructor.
  - by apply (bool_decide_unpack _).
  - vm_compute. reflexivity.
Defined.

(** ** A reset that fails

    When the stream of a part cannot be reset after everything was read, the
    parts have no bodies any more: the next read gives the text without them. *)
Record BrokenReader := mkBrokenReader { br_cursor : Cursor }.
#[export] Instance BrokenReader_AsyncRead : AsyncRead () BrokenReader := λ s,
  let '(r, b) := s in let (c, out) := Cursor_read (rb_room b) (br_cursor r) in ((mkBrokenReader c, rb_put out b), Ok (Ready ())).
#[export] Instance BrokenReader_ReusableReader : ReusableReader () BrokenReader := throw ().

Example reuse_error_loses_bodies :
  let p := Part_stream (mkBrokenReader (Cursor_new (bs "1234"))) (Part_name (bs "n") Part_new) in
  let '(m, out, e) := read_to_end (E := ()) [500; 500] (mkMultiPart [p] (bs "b") Never) in
  let '(m', r) := MultiPart_reuse (E := ()) m in
  let '(_, out', e') := read_to_end (E := ()) [500; 500] m' in
  e = true ∧ e' = true ∧ r = Err () ∧ contains_text (bs "1234") out = true ∧ contains_text (bs "1234") out' = false ∧ len out' = len out - 4.
Proof. vm_compute. by split_and!. Qed.

(** ** The boundary *)

Lemma lxor_u64 a b : 0 ≤ a < U64 → 0 ≤ b < U64 → 0 ≤ Z.lxor a b < U64.
Proof.
  intros Ha Hb. assert (0 ≤ Z.lxor a b) as H0 by (apply Z.lxor_nonneg; lia). split; [done|].
  destruct (Z.eq_dec (Z.lxor a b) 0) as [->|Hne]; [unfold U64; lia|]. apply Z.log2_lt_pow2; [lia|].
  pose proof (Z.log2_lxor a b ltac:(lia) ltac:(lia)).
  assert (∀ x, 0 ≤ x < U64 → Z.log2 x < 64) as Hlog.
  { intros x Hx. destruct (Z.eq_dec x 0) as [->|]; [done|]. apply Z.log2_lt_pow2; unfold U64 in Hx; lia. }
  pose proof (Hlog a Ha). pose proof (Hlog b Hb). lia.
Qed.

(** A shift that leaves a word unchanged leaves zero. *)
Lemma shiftr_lxor_nonzero n k : 0 < n < U64 → 0 < k < 64 → 0 < Z.lxor n (Z.shiftr n k) < U64.
Proof.
  intros Hn Hk. assert (0 ≤ Z.shiftr n k < n) as Hs.
  { rewrite Z.shiftr_div_pow2 by lia. pose proof (Z.pow_gt_1 2 k ltac:(lia)). split; [apply Z.div_pos; lia|apply Z.div_lt; lia]. }
  pose proof (lxor_u64 n (Z.shiftr n k) ltac:(lia) ltac:(lia)). destruct (Z.eq_dec (Z.lxor n (Z.shiftr n k)) 0) as [E|]; [|lia].
  apply Z.lxor_eq in E. lia.
Qed.

Lemma shiftl_fixed n k : 0 < k → 0 ≤ n < U64 → n = wrap64 (Z.shiftl n k) → n = 0.
Proof.
  intros Hk Hn E. apply Z.bits_inj'. intros i Hi. rewrite Z.testbit_0_l. revert i Hi.
  apply (Z_lt_induction (λ i, Z.testbit n i = false)). intros i IH. destruct (Z.lt_ge_cases i 0); [by apply Z.testbit_neg_r|]. rewrite E. unfold wrap64, U64.
  destruct (Z.le_gt_cases 64 i); [by apply Z.mod_pow2_bits_high|]. rewrite Z.mod_pow2_bits_low by lia. rewrite Z.shiftl_spec by lia.
  destruct (Z.le_gt_cases k i); [apply IH; lia|apply Z.testbit_neg_r; lia].
Qed.

Lemma xor_shift_nonzero n : 0 < n < U64 → 0 < xor_shift_next n < U64.
Proof.
  intros Hn. unfold xor_shift_next. apply shiftr_lxor_nonzero; [|lia].
  assert (∀ m, 0 < m < U64 → 0 < Z.lxor m (wrap64 (Z.shiftl m 25)) < U64) as Hl.
  { intros m Hm. assert (0 ≤ wrap64 (Z.shiftl m 25) < U64) by (apply Z.mod_pos_bound; unfold U64; lia).
    pose proof (lxor_u64 m (wrap64 (Z.shiftl m 25)) ltac:(lia) ltac:(lia)).
    destruct (Z.eq_dec (Z.lxor m (wrap64 (Z.shiftl m 25))) 0) as [E|]; [|lia].
    apply Z.lxor_eq in E. apply shiftl_fixed in E; lia. }
  apply Hl, shiftr_lxor_nonzero; lia.
Qed.

(** [bcharsnospace] of RFC 2046. *)
Definition bchar (c : Z) : bool :=
  (48 <=? c) && (c <=? 57) || (97 <=? c) && (c <=? 122) || (65 <=? c) && (c <=? 90) || bool_decide (c ∈ bs "'()+_,-./:=?").

Lemma hex_digits_ok n x : len (hex_digits n x) = Z.of_nat n ∧ forallb bchar (hex_digits n x) = true.
Proof.
  induction n as [|n [IH1 IH2]]; [done|]. cbn [hex_digits forallb]. rewrite len_cons, IH1, IH2. split; [lia|].
  assert (∀ d, 0 ≤ d < 16 → bchar (hex_digit d) = true) as Hd.
  { intros d Hd. assert (d ∈ seqZ 0 16) as Hin by (apply elem_of_seqZ; lia).
    assert (forallb (λ d, bchar (hex_digit d)) (seqZ 0 16) = true) as H by (vm_compute; reflexivity).
    rewrite forallb_forall in H. by apply H, list_elem_of_In. }
  rewrite Hd; [done|]. apply Z.mod_pos_bound. lia.
Qed.

(** The boundary a [MultiPart] draws is one of RFC 2046 (at most 70 of the
    characters it allows, none a space), and the generator, which starts at a
    word that is not zero, never gets stuck at zero. *)
Theorem gen_boundary_spec (rng : Z) (Hrng : 0 < rng < U64) :
  let '(rng', boundary) := gen_boundary rng in
  0 < rng' < U64 ∧ len boundary = 67 ∧ forallb bchar boundary = true.
Proof.
  unfold gen_boundary, xor_shift. cbv zeta. split; [by repeat apply xor_shift_nonzero|]. split.
  - rewrite !len_app, !(proj1 (hex_digits_ok _ _)). done.
  - rewrite !forallb_app, !(proj2 (hex_digits_ok _ _)). done.
Qed.

Lemma gen_boundary_spec_witness : 0 < 42 < U64 ∧ len (gen_boundary 42).2 = 67.
Proof. split; [done|]. pose proof (gen_boundary_spec 42 ltac:(done)) as H. destruct (gen_boundary 42). apply H. Defined.
