(* ===== verification/RequestBody.v ===== *)
(** * Requests, their builders and their bodies

    Models the builder of [src/ylong_http/src/request/mod.rs], the client's
    [RequestBuilder] and [Body] ([src/ylong_http_client/src/async_impl/request.rs])
    and the [Uploader] around a body ([async_impl/uploader]).  A stream is a
    reader of a type [R] with errors in [E]; a multipart body is of a type [M]
    of the class [MultiPartBase]. *)

From S2P Require Import Prelude Headers Message Uri Normalizer Body MultiPart.
#[local] Open Scope Z_scope.

(** ** [RequestBuilder] of the core crate *)

(** [HttpError], of its kinds those that occur. *)
Inductive BuildError := BInput | BUri (e : InvalidUri).

Definition input_error {A} (r : result HttpError A) : result BuildError A :=
  match r with Ok a => Ok a | Err _ => Err BInput | Panic => Panic end.
Definition uri_error {A} (r : result InvalidUri A) : result BuildError A :=
  match r with Ok a => Ok a | Err e => Err (BUri e) | Panic => Panic end.

Definition RequestPart_default : Request := mkRequest Get Http11 Uri_http ∅.

Definition RequestBuilder : Type := result BuildError Request.
Definition RequestBuilder_new : RequestBuilder := Ok RequestPart_default.
Definition builder_method (m : bytes) (b : RequestBuilder) : RequestBuilder :=
  part ← b; m ← input_error (Method_from_bytes m); mret (rq_set_method m part).
Definition builder_url (u : bytes) (b : RequestBuilder) : RequestBuilder :=
  part ← b; u ← uri_error (Uri_from_bytes u); mret (rq_set_uri u part).
Definition builder_version (v : bytes) (b : RequestBuilder) : RequestBuilder :=
  part ← b; v ← input_error (Version_try_from v); mret (mkRequest (rq_method part) v (rq_uri part) (rq_headers part)).
Definition builder_header (name value : bytes) (b : RequestBuilder) : RequestBuilder :=
  part ← b; let (h, r) := Headers_insert name value (rq_headers part) in _ ← input_error r; mret (rq_set_headers h part).
Definition builder_append_header (name value : bytes) (b : RequestBuilder) : RequestBuilder :=
  part ← b; let (h, r) := Headers_append name value (rq_headers part) in _ ← input_error r; mret (rq_set_headers h part).
Definition builder_body {T} (body : T) (b : RequestBuilder) : result BuildError (Request * T) := part ← b; mret (part, body).

(** [Request::get] and the others: a [Method] is its own [TryFrom]. *)
Definition request_of (m : Method) (uri : bytes) : RequestBuilder :=
  builder_url uri (part ← RequestBuilder_new; mret (rq_set_method m part)).

(** ** [Body] of the client *)

(** [MultiPartBase]. *)
Class MultiPartBase (R M : Type) := multipart : M → MultiPart R.
#[export] Instance MultiPart_base R : MultiPartBase R (MultiPart R) := id.

Inductive BodyKind (R M : Type) :=
  | BEmpty
  | BSlice (c : Cursor)
  | BStream (r : R)
  | BMultipart (m : M).
Arguments BEmpty {R M}.
Arguments BSlice {R M} c.
Arguments BStream {R M} r.
Arguments BMultipart {R M} m.

Definition Body_slice {R M} (l : bytes) : BodyKind R M := BSlice (Cursor_new l).

(** [is_empty]. *)
Definition Body_is_empty {R M} (b : BodyKind R M) : bool :=
  match b with BEmpty => true | BSlice c => len (cu_data c) =? cu_pos c | _ => false end.

(** A read of a field. *)
Definition poll_in {E R S} `{!AsyncRead E R} (f : R → S) (r : R) (b : ReadBuf) : (S * ReadBuf) * result E (Poll ()) :=
  let '((r, b), x) := poll_read (r, b) in ((f r, b), x).
Definition reuse_in {E R S} `{!ReusableReader E R} (f : R → S) (r : R) : S * result E () :=
  let (r, x) := reuse r in (f r, x).

#[export] Instance Body_AsyncRead {E R M} `{!AsyncRead E R, !AsyncRead E M} : AsyncRead E (BodyKind R M) := λ s,
  match s with
  | (BEmpty, b) => ((BEmpty, b), Ok (Ready ()))
  | (BSlice c, b) => poll_in BSlice c b
  | (BStream r, b) => poll_in BStream r b
  | (BMultipart m, b) => poll_in BMultipart m b
  end.
#[export] Instance Body_ReusableReader {E R M} `{!ReusableReader E R, !ReusableReader E M} : ReusableReader E (BodyKind R M) := λ s,
  match s with
  | BEmpty => (BEmpty, Ok ())
  | BSlice c => reuse_in BSlice c
  | BStream r => reuse_in BStream r
  | BMultipart m => reuse_in BMultipart m
  end.

(** [RequestBuilder::body]: the headers that the body brings, then the body. *)
Definition client_body {R M} `{!MultiPartBase R M} (body : BodyKind R M) (builder : RequestBuilder) : result BuildError (Request * BodyKind R M) :=
  builder ←
    match body with
    | BSlice c => Ok (builder_header (bs "Content-Length") (decimal (len (cu_data c))) builder)
    | BMultipart m =>
        let builder := builder_header (bs "Content-Type") (bs "multipart/form-data; boundary=" ++ mp_boundary (multipart m)) builder in
        size ← total_bytes (E := BuildError) (multipart m);
        match size with
        | Some size => Ok (builder_header (bs "Content-Length") (decimal size) builder)
        | None => Ok builder
        end
    | _ => Ok builder
    end;
  builder_body body builder.

(** ** [Uploader] *)

Record Uploader (R T : Type) := mkUploader {
  up_reader : R; up_operator : T; up_total : option Z;
  (** [info]: the bytes that were uploaded *)
  up_info : option Z }.
Arguments mkUploader {R T}.
Arguments up_reader {R T}.
Arguments up_operator {R T}.
Arguments up_total {R T}.
Arguments up_info {R T}.

(** The builders, over a reader and over a [MultiPart]. *)
Definition Uploader_build {R T} (reader : R) (operator : T) (total : option Z) : Uploader R T := mkUploader reader operator total None.
Definition Uploader_multipart {R T E} (m : MultiPart R) (operator : T) : result E (Uploader (MultiPart R) T) :=
  total ← total_bytes m; mret (Uploader_build m operator total).

Section uploader.
Context {E R T : Type} `{!AsyncRead E R, !ReusableReader E R}.

(** [UploadOperator::poll_progress]; its errors go into those of the reader. *)
Variable poll_progress : Z → option Z → ST T E (Poll ()).

(** [poll_read]: the length of all that the buffer holds is counted. *)
Definition uploader_poll_read : ST (Uploader R T * ReadBuf) E (Poll ()) :=
  '(u, buf) ← get_st;
  let uploaded := default 0 (up_info u) in
  let '(op, p) := poll_progress uploaded (up_total u) (up_operator u) in
  let u := mkUploader (up_reader u) op (up_total u) (Some uploaded) in
  _ ← put_st (u, buf);
  p ← lift_res p;
  match p with
  | Pending => mret Pending
  | Ready _ =>
      let '((r, buf), x) := poll_read (up_reader u, buf) in
      _ ← put_st (mkUploader r op (up_total u) (Some uploaded), buf);
      x ← lift_res x;
      match x with
      | Pending => mret Pending
      | Ready _ =>
          n ← lift_res (add_u64 uploaded (len (rb_filled buf)));
          _ ← put_st (mkUploader r op (up_total u) (Some n), buf);
          mret (Ready ())
      end
  end.

Definition uploader_reuse : ST (Uploader R T) E () :=
  u ← get_st;
  let (r, x) := reuse (up_reader u) in
  _ ← put_st (mkUploader r (up_operator u) (up_total u) None); lift_res x.
End uploader.

#[export] Instance Uploader_base R T : MultiPartBase R (Uploader (MultiPart R) T) := up_reader.

(** ** The body is a reader *)

Section laws.
Context {E R M : Type} {AR : AsyncRead E R} {RR : ReusableReader E R} {LR : ReaderLaws E R}.
Context {AM : AsyncRead E M} {RM : ReusableReader E M} {LM : ReaderLaws E M}.

Definition body_ok (b : BodyKind R M) : Prop :=
  match b with BEmpty => True | BSlice c => cursor_ok c | BStream r => reader_ok r | BMultipart m => reader_ok m end.
Definition body_rest (b : BodyKind R M) : bytes :=
  match b with BEmpty => [] | BSlice c => cu_rest c | BStream r => reader_rest r | BMultipart m => reader_rest m end.
Definition body_whole (b : BodyKind R M) : bytes :=
  match b with BEmpty => [] | BSlice c => cu_data c | BStream r => reader_whole r | BMultipart m => reader_whole m end.

(** A field that is a reader makes the body one. *)
Lemma poll_in_ok {X} {AX : AsyncRead E X} {LX : ReaderLaws E X} (f : X → BodyKind R M) x b :
  (∀ y, body_ok (f y) = reader_ok y ∧ body_rest (f y) = reader_rest y ∧ body_whole (f y) = reader_whole y) →
  reader_ok x → 0 ≤ rb_room b →
  poll_spec body_rest (f x) b (poll_in f x b) ∧ body_ok (poll_in f x b).1.1 ∧ body_whole (poll_in f x b).1.1 = body_whole (f x).
Proof.
  intros Hf Hx Hb. destruct (poll_read_ok x b Hx Hb) as ((out & H1 & H2 & H3 & H4) & H5 & H6). unfold poll_in.
  destruct (poll_read (x, b)) as [[y b'] p]. cbn [fst snd] in *. destruct (Hf x) as (_ & Hrx & Hwx), (Hf y) as (Hoy & Hry & Hwy).
  rewrite Hoy, Hwy, Hwx. split; [|done]. exists out. cbn [fst snd]. by rewrite Hrx, Hry.
Qed.

Lemma reuse_in_ok {X} {AX : AsyncRead E X} {RX : ReusableReader E X} {LX : ReaderLaws E X} {UX : ReuseLaws E X} (f : X → BodyKind R M) x :
  (∀ y, body_ok (f y) = reader_ok y ∧ body_rest (f y) = reader_rest y ∧ body_whole (f y) = reader_whole y) →
  reader_ok x →
  match reuse_in f x with
  | (r', Ok _) => body_ok r' ∧ body_rest r' = body_whole (f x) ∧ body_whole r' = body_whole (f x)
  | (_, Err _) => True
  | (_, Panic) => False
  end.
Proof.
  intros Hf Hx. pose proof (reuse_ok x Hx) as Hr. unfold reuse_in. destruct (reuse x) as [y [u|e|]]; [|done..].
  destruct (Hf x) as (_ & _ & ->), (Hf y) as (-> & -> & ->). done.
Qed.

Lemma body_poll_ok (s : BodyKind R M) b : body_ok s → 0 ≤ rb_room b →
  poll_spec (E := E) body_rest s b (poll_read (s, b)) ∧ body_ok (poll_read (E := E) (s, b)).1.1 ∧ body_whole (poll_read (E := E) (s, b)).1.1 = body_whole s.
Proof.
  intros Hs Hb. destruct s as [|c|r|m]; [|by apply (poll_in_ok BSlice)|by apply (poll_in_ok BStream)|by apply (poll_in_ok BMultipart)].
  split; [|done]. exists []. cbn [poll_read Body_AsyncRead fst snd body_rest]. rewrite rb_put_nil, len_nil. split_and!; [done..|]. by right.
Qed.

Lemma body_reuse_ok {UR : ReuseLaws E R} {UM : ReuseLaws E M} (s : BodyKind R M) : body_ok s →
  match reuse (E := E) s with
  | (r', Ok _) => body_ok r' ∧ body_rest r' = body_whole s ∧ body_whole r' = body_whole s
  | (_, Err _) => True
  | (_, Panic) => False
  end.
Proof. intros Hs. destruct s as [|c|r|m]; [by split_and!|by apply (reuse_in_ok BSlice)|by apply (reuse_in_ok BStream)|by apply (reuse_in_ok BMultipart)]. Qed.
End laws.

#[export] Instance Body_laws {E R M} `{!AsyncRead E R, !ReaderLaws E R, !AsyncRead E M, !ReaderLaws E M} : ReaderLaws E (BodyKind R M) :=
  {| reader_ok := body_ok; reader_rest := body_rest; reader_whole := body_whole; poll_read_ok := body_poll_ok |}.
#[export] Instance Body_reuses {E R M} `{!AsyncRead E R, !ReusableReader E R, !ReaderLaws E R, !ReuseLaws E R,
    !AsyncRead E M, !ReusableReader E M, !ReaderLaws E M, !ReuseLaws E M} : ReuseLaws E (BodyKind R M) := body_reuse_ok.

(** ** The headers that a body brings *)

Lemma builder_header_ok name value n b r :
  normalize name = Ok n → builder_header name value b = Ok r →
  ∃ part, b = Ok part ∧ r = rq_set_headers (<[n := mkHeaderValue [value] false]> (rq_headers part)) part.
Proof.
  intros Hn. unfold builder_header, Headers_insert, HeaderValue_from_bytes. rewrite Hn. destruct b as [part|e|]; [|done..]. cbn.
  destruct (forallb is_valid value); [|done]. cbn. intros [= <-]. by exists part.
Qed.

Definition header_is (h : Headers) (name value : bytes) : Prop := hv_inner <$> Headers_get h name = Some [value].

(** The bodies whose length is known: a slice, and a multipart message, not read
    yet, whose parts declare the lengths of their bodies. *)
Definition sized_body {E R} `{!AsyncRead E R, !ReaderLaws E R} (b : BodyKind R (MultiPart R)) : Prop :=
  match b with
  | BSlice c => cu_pos c = 0
  | BMultipart m => mp_status m = Never ∧ Forall part_fresh (mp_parts m) ∧ Forall (part_sized state_whole) (mp_parts m)
  | _ => False
  end.

Lemma sized_body_ok {E R} `{!AsyncRead E R, !ReaderLaws E R} (b : BodyKind R (MultiPart R)) :
  sized_body b → reader_ok b ∧ reader_rest b = reader_whole b.
Proof.
  destruct b as [|c|r|m]; cbn; [done| |done|].
  - intros Hp. unfold cursor_ok, cu_rest. rewrite Hp. by split.
  - intros (Hn & Hf & _). unfold mp_ok. rewrite Hn. split; [done|]. apply mp_fresh_rest; [done|]. unfold mp_ok. by rewrite Hn.
Qed.

Lemma client_body_headers {E R} `{!AsyncRead E R, !ReaderLaws E R} (b b' : BodyKind R (MultiPart R)) builder req :
  sized_body b → client_body b builder = Ok (req, b') →
  b' = b ∧ header_is (rq_headers req) (bs "Content-Length") (decimal (len (reader_whole b))) ∧
  (∀ m, b = BMultipart m → header_is (rq_headers req) (bs "Content-Type") (bs "multipart/form-data; boundary=" ++ mp_boundary m)).
Proof.
  intros Hs. assert (normalize (bs "Content-Length") = Ok (bs "content-length")) as Hl by (vm_compute; reflexivity).
  assert (normalize (bs "Content-Type") = Ok (bs "content-type")) as Ht by (vm_compute; reflexivity).
  assert (bs "content-length" ≠ bs "content-type") as Hne by discriminate.
  unfold client_body, header_is, Headers_get, builder_body. rewrite Hl, Ht.
  destruct b as [|c|r|m]; [done| |done|]; unfold mbind, result_mbind, result_bind, mret, result_ret.
  - destruct (builder_header _ _ builder) as [r|e|] eqn:E0; [|done..]. intros [= <- <-].
    destruct (builder_header_ok _ _ _ _ _ Hl E0) as (part & _ & ->). cbn [rq_set_headers rq_headers]. split_and!; [done| |done].
    by rewrite lookup_insert_eq.
  - destruct Hs as (Hn & Hf & Hz). unfold total_bytes, multipart, MultiPart_base, id. rewrite (parts_size_spec state_whole) by done.
    unfold upto. destruct (_ <? U64); [|done]. rewrite Z.add_0_l. set (ct := builder_header (bs "Content-Type") _ builder).
    destruct (builder_header (bs "Content-Length") _ ct) as [r|e|] eqn:E0; [|done..]. intros [= <- <-].
    destruct (builder_header_ok _ _ _ _ _ Hl E0) as (part & E1 & ->). destruct (builder_header_ok _ _ _ _ _ Ht E1) as (part' & _ & ->).
    cbn [rq_set_headers rq_headers]. split_and!; [done| |].
    + rewrite lookup_insert_eq. cbn. unfold mp_whole. by rewrite Hn.
    + intros m0 [= <-]. rewrite lookup_insert_ne by congruence. by rewrite lookup_insert_eq.
Qed.

(** the request that is built announces what its body gives: for a slice and
    for a multipart message whose parts declare their lengths, [Content-Length]
    is the number of bytes that are read from the body to its end, over buffers
    of any sizes; and when the body is sent again after [reuse] (a redirect),
    the same bytes are read. *)
Theorem request_body_length {E R : Type} `{!AsyncRead E R, !ReusableReader E R, !ReaderLaws E R, !ReuseLaws E R}
    (body body' : BodyKind R (MultiPart R)) (builder : RequestBuilder) (req : Request) (caps : list Z) :
  sized_body (E := E) body → client_body body builder = Ok (req, body') → Forall (λ c, 0 < c) caps →
  match read_to_end (E := E) caps body' with
  | (sent, out, true) =>
      header_is (rq_headers req) (bs "Content-Length") (decimal (len out)) ∧
      match reuse (E := E) sent with
      | (again, Ok _) => ∀ caps', Forall (λ c, 0 < c) caps' → (read_to_end (E := E) caps' again).2 = true → (read_to_end (E := E) caps' again).1.2 = out
      | (_, Err _) => True
      | (_, Panic) => False
      end
  | (_, _, false) => True
  end.
Proof.
  intros Hs Hb Hc. destruct (client_body_headers body body' builder req Hs Hb) as (-> & Hl & _).
  destruct (sized_body_ok body Hs) as [Hok Hrest]. pose proof (read_to_end_spec (E := E) caps body Hok Hc) as H.
  destruct (read_to_end caps body) as [[sent out] []]; [|done]. destruct H as (Hok' & Hw & _ & He). rewrite Hrest in He.
  rewrite (He eq_refl). split; [done|]. pose proof (reuse_ok sent Hok') as Hr. destruct (reuse sent) as [again [[]|e|]]; [|done..].
  destruct Hr as (Hok2 & Hr2 & _). intros caps' Hc' Ht. pose proof (read_to_end_spec (E := E) caps' again Hok2 Hc') as H2.
  destruct (read_to_end caps' again) as [[s3 out'] e']. destruct H2 as (_ & _ & _ & He'). cbn [fst snd] in *. by rewrite (He' Ht), Hr2, Hw.
Qed.

Lemma request_body_length_witness :
  let part := Part_body (bs "xiaoming") (Part_name (bs "name") Part_new) in
  let body : BodyKind Cursor (MultiPart Cursor) := BMultipart (mkMultiPart [part] (bs "b0") Never) in
  match client_body body (builder_url (bs "http://a.com/") RequestBuilder_new) with
  | Ok (req, b) =>
      header_is (rq_headers req) (bs "Content-Length") (decimal 71) ∧
      (read_to_end (E := ()) (repeat 20 6) b).2 = true ∧ len (read_to_end (E := ()) (repeat 20 6) b).1.2 = 71
  | _ => False
  end.
Proof.
  intros part body.
  assert (sized_body (E := ()) body) as Hs.
  { split; [reflexivity|]. split; constructor; [|constructor| |constructor]; [split; [exact (Z.le_refl 0)|reflexivity]|reflexivity]. }
  assert (Forall (λ c, 0 < c) (repeat 20 6)) as Hc by (by apply (bool_decide_unpack _)).
  destruct (client_body body _) as [[req b]|e|] eqn:Eb; [|vm_compute in Eb; discriminate Eb..].
  pose proof (request_body_length (E := ()) body b _ req (repeat 20 6) Hs Eb Hc) as H.
  assert (b = body) as -> by (vm_compute in Eb; injection Eb as _ <-; reflexivity).
  assert ((read_to_end (E := ()) (repeat 20 6) body).2 = true) as Et by (vm_compute; reflexivity).
  assert (len (read_to_end (E := ()) (repeat 20 6) body).1.2 = 71) as El by (vm_compute; reflexivity).
  split; [|by split]. revert H Et El. generalize (read_to_end (E := ()) (repeat 20 6) body). intros [[s out] []] H Et El; [|discriminate Et].
  cbn [fst snd] in El. rewrite El in H. exact (proj1 H).
Defined.

(** A slice given as a stream is empty when the request is sent again. *)
Example stream_of_slice_is_lost :
  let body : BodyKind bytes (MultiPart bytes) := BStream (bs "1234") in
  let '(sent, out, e) := read_to_end (E := ()) [10; 10] body in
  e = true ∧ out = bs "1234" ∧ (read_to_end (E := ()) [10; 10] (reuse (E := ()) sent).1).1.2 = [].
Proof. vm_compute. by split_and!. Qed.

(** ** What an uploader counts *)

Section uploader_spec.
Context {E R T : Type} {AR : AsyncRead E R} {LR : ReaderLaws E R}.
Variable poll_progress : Z → option Z → ST T E (Poll ()).
Hypothesis progress_ready : ∀ n total t, (poll_progress n total t).2 = Ok (Ready ()).

#[local] Instance Uploader_AsyncRead : AsyncRead E (Uploader R T) := uploader_poll_read poll_progress.

Lemma uploader_poll u b :
  poll_read (E := E) (u, b) =
    let op := (poll_progress (default 0 (up_info u)) (up_total u) (up_operator u)).1 in
    let '((r, b'), x) := poll_read (up_reader u, b) in
    match x with
    | Ok (Ready _) =>
        let n := default 0 (up_info u) + len (rb_filled b') in
        if n <? U64 then ((mkUploader r op (up_total u) (Some n), b'), Ok (Ready ()))
        else ((mkUploader r op (up_total u) (Some (default 0 (up_info u))), b'), Panic)
    | Ok Pending => ((mkUploader r op (up_total u) (Some (default 0 (up_info u))), b'), Ok Pending)
    | Err e => ((mkUploader r op (up_total u) (Some (default 0 (up_info u))), b'), Err e)
    | Panic => ((mkUploader r op (up_total u) (Some (default 0 (up_info u))), b'), Panic)
    end.
Proof.
  pose proof (progress_ready (default 0 (up_info u)) (up_total u) (up_operator u)) as Hp. unfold poll_read at 1, Uploader_AsyncRead, uploader_poll_read.
  rewrite bind_st. cbn [get_st].
  destruct (poll_progress _ _ _) as [op p]. cbn [snd] in Hp. subst p. rewrite bind_st. cbn [put_st]. rewrite bind_st. cbn [lift_res fst up_reader].
  destruct (poll_read (up_reader u, b)) as [[r b'] x]. rewrite bind_st. cbn [put_st]. rewrite bind_st. unfold lift_res at 1.
  destruct x as [[[]|]|e|]; [|done..]. rewrite bind_st. unfold lift_res, add_u64. by destruct (_ <? U64).
Qed.

(** Over new buffers, the uploader gives what its reader gives and counts the
    bytes it gave. *)
Lemma uploader_read_to_end caps u :
  reader_ok (up_reader u) → Forall (λ c, 0 < c) caps → default 0 (up_info u) + len (reader_rest (up_reader u)) < U64 →
  match read_to_end (E := E) caps u, read_to_end (E := E) caps (up_reader u) with
  | (u', out', e'), (r, out, e) => up_reader u' = r ∧ out' = out ∧ e' = e ∧ (e = true → default 0 (up_info u') = default 0 (up_info u) + len out)
  end.
Proof.
  intros Hok Hc. revert u Hok. induction Hc as [|cap caps Hcap _ IH]; intros u Hok Hu; cbn [read_to_end]; [done|].
  rewrite uploader_poll. destruct (poll_read_ok (up_reader u) (ReadBuf_new cap) Hok) as ((out & Hb & Hrest & _ & Hp) & Hok' & _);
    [rewrite rb_room_new; lia|].
  destruct (poll_read (up_reader u, ReadBuf_new cap)) as [[r b] p]. cbn [fst snd] in *. subst b.
  cbn [rb_put ReadBuf_new rb_filled app]. pose proof (len_nonneg out). pose proof (len_nonneg (reader_rest r)).
  rewrite Hrest, len_app in Hu. cbv zeta.
  destruct p as [[[]|]|e|]; [| |done..].
  - destruct (Z.ltb_spec (default 0 (up_info u) + len out) U64) as [_|?]; [|lia]. cbn [rb_filled rb_put ReadBuf_new app].
    destruct (Z.eqb_spec (len out) 0) as [Ez|Hne]; cbv beta iota; [split_and!; try done; intros _; rewrite Ez; reflexivity|].
    match goal with |- context [mkUploader r ?op ?t ?i] => set (u1 := mkUploader r op t i) end. specialize (IH u1 Hok').
    change (up_reader u1) with r in IH.
    specialize (IH ltac:(change (default 0 (up_info u) + len out + len (reader_rest r) < U64); lia)).
    destruct (read_to_end (E := E) caps u1) as [[u2 out1] e1], (read_to_end (E := E) caps r) as [[r' out2] e2].
    destruct IH as (H1 & -> & -> & H4). split_and!; try done. intros He. rewrite (H4 He), len_app.
    change (default 0 (up_info u1)) with (default 0 (up_info u) + len out). lia.
  - subst out. cbn [rb_filled rb_put ReadBuf_new app]. match goal with |- context [mkUploader r ?op ?t ?i] => set (u1 := mkUploader r op t i) end. specialize (IH u1 Hok').
    change (up_reader u1) with r in IH.
    specialize (IH ltac:(change (default 0 (up_info u) + len (reader_rest r) < U64); pose proof (len_nonneg (@nil Z)); lia)).
    destruct (read_to_end (E := E) caps u1) as [[u2 out1] e1], (read_to_end (E := E) caps r) as [[r' out2] e2].
    destruct IH as (H1 & -> & -> & H4). split_and!; [done..|exact H4].
Qed.
End uploader_spec.

(** Over new buffers, an uploader whose operator never stops it gives the bytes
    of its reader, and the number it reports at the end is how many it gave. *)
Theorem uploader_counts {E R T : Type} `{!AsyncRead E R, !ReaderLaws E R} (progress : Z → option Z → ST T E (Poll ()))
    (r : R) (operator : T) (total : option Z) (caps : list Z) :
  (∀ n total t, (progress n total t).2 = Ok (Ready ())) → reader_ok r → Forall (λ c, 0 < c) caps → len (reader_rest r) < U64 →
  match read_to_end (AsyncRead0 := Uploader_AsyncRead progress) caps (Uploader_build r operator total) with
  | (u, out, true) => out = reader_rest r ∧ default 0 (up_info u) = len out
  | (_, _, false) => True
  end.
Proof.
  intros Hp Hr Hc Hl. pose proof (uploader_read_to_end progress Hp caps (Uploader_build r operator total) Hr Hc Hl) as H.
  pose proof (read_to_end_spec (E := E) caps r Hr Hc) as Hs. cbn [Uploader_build up_reader] in H.
  destruct (read_to_end _ (Uploader_build _ _ _)) as [[u out] []]; [|done].
  destruct (read_to_end (E := E) caps r) as [[r' out'] e']. destruct H as (_ & -> & <- & H4), Hs as (_ & _ & _ & He).
  split; [by apply He|by rewrite H4].
Qed.

Lemma uploader_counts_witness :
  let progress (n : Z) (total : option Z) : ST () () (Poll ()) := mret (Ready ()) in
  let '(u, out, e) := read_to_end (AsyncRead0 := Uploader_AsyncRead progress) (repeat 3 5) (Uploader_build (Cursor_new (bs "hello")) () None) in
  e = true ∧ out = bs "hello" ∧ up_info u = Some 5.
Proof.
  intros progress.
  pose proof (uploader_counts progress (Cursor_new (bs "hello")) () None (repeat 3 5) (λ _ _ _, eq_refl) (Z.le_refl 0)
    ltac:(by apply (bool_decide_unpack _)) ltac:(vm_compute; reflexivity)) as H.
  vm_compute in H. vm_compute. destruct H as [H1 H2]. split; [reflexivity|]. split; reflexivity.
Defined.

(** In a buffer that holds something already, what it holds is counted again. *)
Example uploader_counts_twice :
  let progress (n : Z) (total : option Z) : ST () () (Poll ()) := mret (Ready ()) in
  let '((u, b), _) := uploader_poll_read progress (Uploader_build (Cursor_new (bs "1234")) () None, mkReadBuf (bs "------") 20) in
  rb_filled b = bs "------1234" ∧ up_info u = Some 10.
Proof. vm_compute. by split. Qed.
