(* ===== verification/Downloader.v ===== *)
(** * Downloads

    Models [Downloader] of [src/ylong_http_client/src/async_impl/downloader/mod.rs].
    The response, the operator of the user and the clock are a world [W] with
    errors in [E]; the operations on it are the arguments of the definitions. *)

From S2P Require Import Prelude Headers Uri Normalizer.
#[local] Open Scope Z_scope.

Definition DOWNLOAD_BUF : Z := 16 * 1024.

Record DownloadInfo := mkDownloadInfo { di_start_time : Z; di_downloaded_bytes : Z; di_total_bytes : option Z }.

Section downloader.
Context {W E : Type}.

(** [Response::data], [DownloadOperator::download] and [progress], and
    [Instant::now]. *)
Variable data : Z → ST W E bytes.
Variable op_download : bytes → ST W E Z.
Variable op_progress : Z → option Z → ST W E ().
Variable instant_now : ST W E Z.

(** The timeout of the configuration, the error when it is over, and the
    headers of the response. *)
Variable timeout : option Z.
Variable timed_out : E.
Variable headers : Headers.

Abbreviation D := (ST (option DownloadInfo * W) E).

Definition on_world {A} (m : ST W E A) : D A := zoom snd (λ w s, (s.1, w)) m.

(** [self.info.as_mut().unwrap()]. *)
Definition get_info : D DownloadInfo := s ← get_st; match s.1 with Some i => mret i | None => panic end.

(** The total is looked for under the name "Content". *)
Definition content_total : option Z := v ← Headers_get headers (bs "Content"); parse_uint USIZE_MAX (HeaderValue_to_vec v).

Definition show_progress : D () := i ← get_info; on_world (op_progress (di_downloaded_bytes i) (di_total_bytes i)).

Definition check_timeout : D () :=
  match timeout with
  | None => mret ()
  | Some t =>
      now ← on_world instant_now; i ← get_info;
      if t <=? now - di_start_time i then throw timed_out else mret ()
  end.

(** [downloaded_bytes += data.len()]. *)
Definition count_bytes (n : Z) : D () :=
  i ← get_info;
  let x := di_downloaded_bytes i + n in
  if x <? U64 then modify_st (λ s, (Some (mkDownloadInfo (di_start_time i) x (di_total_bytes i)), s.2)) else panic.

(** [while size != data.len()]. *)
Fixpoint write_loop (fuel : nat) (d : bytes) (size : Z) : D () :=
  match fuel with
  | O => panic
  | S fuel =>
      if size =? len d then mret ()
      else
        _ ← check_timeout;
        if len d <? size then panic
        else
          n ← on_world (op_download (dropZ size d));
          _ ← count_bytes (len d);
          _ ← show_progress;
          write_loop fuel d (size + n)
  end.

(** The loop of [limited_download]: as many reads as there is fuel. *)
Fixpoint download_loop (fuel : nat) : D () :=
  match fuel with
  | O => panic
  | S fuel =>
      d ← on_world (data DOWNLOAD_BUF);
      match d with
      | [] => show_progress
      | _ => _ ← write_loop (S (length d)) d 0; download_loop fuel
      end
  end.
Definition limited_download (fuel : nat) : D () := _ ← show_progress; _ ← check_timeout; download_loop fuel.

(** [download]. *)
Definition download (fuel : nat) : D () :=
  s ← get_st;
  _ ← match s.1 with
      | Some _ => mret ()
      | None => now ← on_world instant_now; modify_st (λ s, (Some (mkDownloadInfo now 0 content_total), s.2))
      end;
  limited_download fuel.

(** ** What the operator is given

    [unread] is what the response has not given yet, [got] what the operator took. *)
Variable unread got : W → bytes.

Definition quiet {A} (m : ST W E A) : Prop := ∀ w, unread (m w).1 = unread w ∧ got (m w).1 = got w.

Hypothesis data_reads : ∀ n w, got (data n w).1 = got w ∧
  match (data n w).2 with
  | Ok d => unread w = d ++ unread (data n w).1 ∧ (d = [] → unread w = [])
  | _ => unread (data n w).1 = unread w
  end.
Hypothesis download_takes : ∀ d w, unread (op_download d w).1 = unread w ∧
  match (op_download d w).2 with
  | Ok n => 0 < n ≤ len d ∧ got (op_download d w).1 = got w ++ takeZ n d
  | _ => got (op_download d w).1 = got w
  end.
Hypothesis progress_quiet : ∀ n t, quiet (op_progress n t).
Hypothesis now_quiet : quiet instant_now.

(** Of [pending] and what was unread, the operator was given a part, and all of
    [pending] when there was no error. *)
Definition given (pending : bytes) (w : W) {A} (x : (option DownloadInfo * W) * result E A) : Prop :=
  ∃ p q, pending = p ++ q ∧ got x.1.2 = got w ++ p ∧ unread x.1.2 = unread w ∧ (is_Ok x.2 = true → q = []).

Lemma given_stop pending w {A} i w' (r : result E A) :
  unread w' = unread w → got w' = got w → (is_Ok r = true → pending = []) → given pending w ((i, w'), r).
Proof. intros H1 H2 H3. exists [], pending. cbn [fst snd]. by rewrite app_nil_r. Qed.

Lemma given_step p pending w w' {A} (x : (option DownloadInfo * W) * result E A) :
  unread w' = unread w → got w' = got w ++ p → given pending w' x → given (p ++ pending) w x.
Proof.
  intros H1 H2 (p' & q & -> & H3 & H4 & H5). exists (p ++ p'), q. rewrite H3, H2, H4, H1, !app_assoc. done.
Qed.

Lemma on_world_quiet {A} (m : ST W E A) i w : quiet m → ∃ w' r, on_world m (i, w) = ((i, w'), r) ∧ unread w' = unread w ∧ got w' = got w.
Proof. intros Hq. destruct (Hq w) as [H1 H2]. unfold on_world, zoom. cbn [snd fst]. destruct (m w) as [w' r]. by exists w', r. Qed.

Lemma show_progress_quiet i w : ∃ w' r, show_progress (i, w) = ((i, w'), r) ∧ unread w' = unread w ∧ got w' = got w.
Proof.
  unfold show_progress. rewrite bind_st. unfold get_info. rewrite bind_st. cbn [get_st fst]. destruct i as [x|]; [|by exists w, Panic].
  cbn [mret ST_ret]. by apply on_world_quiet.
Qed.

Lemma check_timeout_quiet i w : ∃ w' r, check_timeout (i, w) = ((i, w'), r) ∧ unread w' = unread w ∧ got w' = got w.
Proof.
  unfold check_timeout. destruct timeout as [t|]; [|by exists w, (Ok ())]. rewrite bind_st.
  destruct (on_world_quiet instant_now i w now_quiet) as (w1 & r & -> & H1 & H2). destruct r as [now|e|]; [|by eexists _, _..].
  rewrite bind_st. unfold get_info. rewrite bind_st. cbn [get_st fst]. destruct i as [x|]; [|by exists w1, Panic].
  cbn [mret ST_ret]. destruct (_ <=? _); by eexists _, _.
Qed.

Lemma count_bytes_quiet n i w : ∃ i' r, count_bytes n (i, w) = ((i', w), r).
Proof.
  unfold count_bytes. rewrite bind_st. unfold get_info. rewrite bind_st. cbn [get_st fst]. destruct i as [x|]; [|by exists None, Panic].
  cbn [mret ST_ret]. cbv zeta. destruct (_ <? _); by eexists _, _.
Qed.

Lemma write_loop_gives fuel d size i w : 0 ≤ size ≤ len d → given (dropZ size d) w (write_loop fuel d size (i, w)).
Proof.
  revert size i w. induction fuel as [|fuel IH]; intros size i w Hs; cbn [write_loop]; [by apply given_stop|].
  destruct (Z.eqb_spec size (len d)) as [->|Hne]; [apply given_stop; [done..|intros _; by apply dropZ_all]|].
  rewrite bind_st. destruct (check_timeout_quiet i w) as (w1 & r & -> & Hu1 & Hg1).
  destruct r as [[]|e|]; [|apply given_stop; [congruence..|done]..].
  destruct (Z.ltb_spec (len d) size); [lia|]. rewrite bind_st. unfold on_world at 1, zoom. cbn [fst snd].
  destruct (download_takes (dropZ size d) w1) as [Hu2 Ho]. destruct (op_download (dropZ size d) w1) as [w2 [n|e|]]; cbn [fst snd] in *;
    [|apply given_stop; [congruence..|done]..].
  destruct Ho as [Hn Hg2]. rewrite len_dropZ in Hn by lia.
  assert (dropZ size d = takeZ n (dropZ size d) ++ dropZ (size + n) d) as Hsplit.
  { rewrite <- (takeZ_dropZ n (dropZ size d)) at 1. by rewrite dropZ_dropZ by lia. }
  rewrite Hsplit. apply (given_step _ _ _ w2); [congruence..|].
  rewrite bind_st. destruct (count_bytes_quiet (len d) i w2) as (i' & r & ->). destruct r as [[]|e|]; [|apply given_stop; [congruence..|done]..].
  rewrite bind_st. destruct (show_progress_quiet i' w2) as (w3 & r & -> & Hu3 & Hg3). destruct r as [[]|e|]; [|apply given_stop; [congruence..|done]..].
  rewrite <- (app_nil_l (dropZ (size + n) d)). apply (given_step _ _ _ w3); [congruence|by rewrite app_nil_r|]. apply IH. lia.
Qed.

(** Of what was unread, the operator was given a part, in order, and all of it
    when there was no error; what was read and not given is lost. *)
Definition delivered (w : W) {A} (x : (option DownloadInfo * W) * result E A) : Prop :=
  ∃ p q, unread w = p ++ q ∧ got x.1.2 = got w ++ p ∧ (is_Ok x.2 = true → q = []).

Lemma delivered_stop w {A} i w' (r : result E A) : got w' = got w → (is_Ok r = true → unread w = []) → delivered w ((i, w'), r).
Proof. intros H1 H2. exists [], (unread w). cbn [fst snd]. by rewrite app_nil_r. Qed.

Lemma delivered_step p w w' {A} (x : (option DownloadInfo * W) * result E A) :
  unread w = p ++ unread w' → got w' = got w ++ p → delivered w' x → delivered w x.
Proof. intros H1 H2 (p' & q & H3 & H4 & H5). exists (p ++ p'), q. by rewrite H1, H3, H4, H2, !app_assoc. Qed.

Lemma download_loop_delivers fuel i w : delivered w (download_loop fuel (i, w)).
Proof.
  revert i w. induction fuel as [|fuel IH]; intros i w; cbn [download_loop]; [by apply delivered_stop|].
  rewrite bind_st. unfold on_world at 1, zoom. cbn [fst snd]. destruct (data_reads DOWNLOAD_BUF w) as [Hg Hd].
  destruct (data DOWNLOAD_BUF w) as [w1 [d|e|]]; cbn [fst snd] in *; [|apply delivered_stop; [congruence..|done]..].
  destruct Hd as [Hu He]. destruct d as [|b d'].
  - destruct (show_progress_quiet i w1) as (w2 & r & -> & _ & Hg2). apply delivered_stop; [congruence|]. intros _. by apply He.
  - rewrite bind_st. destruct (write_loop_gives (S (length (b :: d'))) (b :: d') 0 i w1) as (p & q & Hpq & Hg1 & Hu1 & Hq); [split; [done|apply len_nonneg]|].
    rewrite dropZ_0 in Hpq. destruct (write_loop _ _ _ _) as [[i2 w2] [[]|e|]]; cbn [fst snd] in *.
    + rewrite (Hq eq_refl), app_nil_r in Hpq. subst p. apply (delivered_step (b :: d') _ w2); [congruence..|apply IH].
    + exists p, (q ++ unread w1). cbn [fst snd]. rewrite Hu, Hpq, Hg1, Hg, app_assoc. done.
    + exists p, (q ++ unread w1). cbn [fst snd]. rewrite Hu, Hpq, Hg1, Hg, app_assoc. done.
Qed.

Lemma delivered_quiet w w' {A} (x : (option DownloadInfo * W) * result E A) :
  unread w' = unread w → got w' = got w → delivered w' x → delivered w x.
Proof. intros H1 H2 H. apply (delivered_step [] _ w'); [done|by rewrite app_nil_r|done]. Qed.

Lemma download_delivers_all fuel i w : delivered w (download fuel (i, w)).
Proof.
  assert (∀ i w, delivered w (limited_download fuel (i, w))) as Hl.
  { clear i w. intros i w. unfold limited_download. rewrite bind_st. destruct (show_progress_quiet i w) as (w1 & r & -> & Hu1 & Hg1).
    destruct r as [[]|e|]; [|apply delivered_stop; [congruence..|done]..]. rewrite bind_st. destruct (check_timeout_quiet i w1) as (w2 & r & -> & Hu2 & Hg2).
    destruct r as [[]|e|]; [|apply delivered_stop; [congruence|done]..]. apply (delivered_quiet _ w2); [congruence..|apply download_loop_delivers]. }
  unfold download. rewrite bind_st. cbn [get_st fst]. destruct i as [x|]; [by rewrite bind_st; apply Hl|]. rewrite !bind_st.
  destruct (on_world_quiet instant_now None w now_quiet) as (w1 & r & -> & Hu1 & Hg1). destruct r as [now|e|]; [|apply delivered_stop; [congruence..|done]..].
  cbn [modify_st]. apply (delivered_quiet _ w1); [done..|]. apply Hl.
Qed.
End downloader.

(** A download gives the operator the bytes of the body in order, none twice and
    none left out, in pieces of the size the operator takes; when it succeeds,
    all of them, and when it fails (the response, the operator, the timeout),
    the first of them. *)
Theorem download_delivers {W E : Type} (data : Z → ST W E bytes) (op_download : bytes → ST W E Z) (op_progress : Z → option Z → ST W E ())
    (instant_now : ST W E Z) (timeout : option Z) (timed_out : E) (headers : Headers) (unread got : W → bytes)
    (Hdata : ∀ n w, got (data n w).1 = got w ∧
      match (data n w).2 with
      | Ok d => unread w = d ++ unread (data n w).1 ∧ (d = [] → unread w = [])
      | _ => unread (data n w).1 = unread w
      end)
    (Hdownload : ∀ d w, unread (op_download d w).1 = unread w ∧
      match (op_download d w).2 with
      | Ok n => 0 < n ≤ len d ∧ got (op_download d w).1 = got w ++ takeZ n d
      | _ => got (op_download d w).1 = got w
      end)
    (Hprogress : ∀ n t w, unread (op_progress n t w).1 = unread w ∧ got (op_progress n t w).1 = got w)
    (Hnow : ∀ w, unread (instant_now w).1 = unread w ∧ got (instant_now w).1 = got w)
    (fuel : nat) (info : option DownloadInfo) (w : W) :
  let '((_, w'), r) := download data op_download op_progress instant_now timeout timed_out headers fuel (info, w) in
  ∃ p q, unread w = p ++ q ∧ got w' = got w ++ p ∧ (is_Ok r = true → q = []).
Proof.
  pose proof (download_delivers_all data op_download op_progress instant_now timeout timed_out headers unread got Hdata Hdownload Hprogress Hnow fuel info w) as H.
  by destruct (download _ _ _ _ _ _ _ _ _) as [[i w'] r].
Qed.

(** A response that gives its body in one read, and an operator that takes
    [k] bytes at a time. *)
Definition world : Type := bytes * bytes.
Definition world_data (n : Z) : ST world () bytes := λ w, (([], w.2), Ok w.1).
Definition world_download (k : Z) (d : bytes) : ST world () Z := λ w, let n := Z.min k (len d) in
  if n =? 0 then (w, Err ()) else ((w.1, w.2 ++ takeZ n d), Ok n).
Definition world_progress (n : Z) (t : option Z) : ST world () () := mret ().
Definition world_now : ST world () Z := mret 0.

Lemma world_data_ok n w : (world_data n w).1.2 = w.2 ∧
  match (world_data n w).2 with Ok d => w.1 = d ++ (world_data n w).1.1 ∧ (d = [] → w.1 = []) | _ => (world_data n w).1.1 = w.1 end.
Proof. split; [done|]. cbn. by rewrite app_nil_r. Qed.

Lemma world_download_ok d w : (world_download 2 d w).1.1 = w.1 ∧
  match (world_download 2 d w).2 with
  | Ok n => 0 < n ≤ len d ∧ (world_download 2 d w).1.2 = w.2 ++ takeZ n d
  | _ => (world_download 2 d w).1.2 = w.2
  end.
Proof. unfold world_download. pose proof (len_nonneg d). destruct (Z.eqb_spec (Z.min 2 (len d)) 0); cbn; split_and!; (done || lia). Qed.

Lemma download_delivers_witness :
  let '((i, w), r) := download world_data (world_download 2) world_progress world_now (Some 5) () ∅ 3 (None, (bs "hello", [])) in
  r = Ok () ∧ w.2 = bs "hello".
Proof.
  pose proof (download_delivers world_data (world_download 2) world_progress world_now (Some 5) () ∅ fst snd
    world_data_ok world_download_ok (λ _ _ w, conj eq_refl eq_refl) (λ w, conj eq_refl eq_refl) 3 None (bs "hello", [])) as H.
  assert ((download world_data (world_download 2) world_progress world_now (Some 5) () ∅ 3 (None, (bs "hello", []))).2 = Ok ()) as Er
    by (vm_compute; reflexivity).
  destruct (download _ _ _ _ _ _ _ _ _) as [[i w] r]. cbn [snd] in Er. subst r. split; [reflexivity|].
  destruct H as (p & q & H1 & H2 & H3). rewrite (H3 eq_refl), app_nil_r in H1. exact (eq_trans H2 (eq_sym H1)).
Defined.

(** The progress that is reported counts a read again for each piece of it, and
    the total is never known: a field named Content-Length is not looked at. *)
Example download_progress_wrong :
  let h := <[bs "content-length" := mkHeaderValue [bs "5"] false]> ∅ in
  let '((i, w), r) := download world_data (world_download 2) world_progress world_now None () h 3 (None, (bs "hello", [])) in
  i = Some (mkDownloadInfo 0 15 None).
Proof. vm_compute. reflexivity. Qed.
