(* ===== verification/Mime.v ===== *)
(** * MIME bodies: data and common routines

    Models [src/ylong_http/src/body/mime/common]: the small routines on lines and
    white space ([mod.rs]), where the bytes of a part come from ([mix.rs]), parts
    and multiparts with their builders ([part.rs], [multi.rs]) and the encoder of
    header fields ([headers.rs]).  A reader of a part is of a type [R], an
    asynchronous one of a type [A], with errors in [E]. *)

From S2P Require Import Prelude Utf8 Headers Body IpAddr.
#[local] Open Scope Z_scope.

Definition HTAB : Z := 9.
Definition SP : Z := 32.
Definition CR : Z := 13.
Definition LF : Z := 10.
Definition CRLF : bytes := [13; 10].

(** [TokenStatus]. *)
Inductive TokenStatus (T E : Type) := TPartial (e : E) | TComplete (t : T).
Arguments TPartial {T E} e.
Arguments TComplete {T E} t.

(** ** Lines and white space *)

(** [data_copy]: the new index, what was copied into a buffer with [room], and
    whether that is the end of the source. *)
Definition data_copy (src : bytes) (src_idx room : Z) : Z * bytes * bool :=
  let input_len := len src - src_idx in
  let out := takeZ room (dropZ src_idx src) in
  (src_idx + len out, out, input_len <=? room).

Definition is_lwsp (b : Z) : bool := (b =? SP) || (b =? HTAB).
Definition trim_front_lwsp (buf : bytes) : bytes := drop_while is_lwsp buf.
Definition trim_back_lwsp (buf : bytes) : bytes := reverse (drop_while is_lwsp (reverse buf)).

(** [&buf[..buf.len() - 1]] panics on an empty text. *)
Definition trim_back_lwsp_if_end_with_lf (buf : bytes) : result HttpError bytes :=
  match reverse buf with
  | [] => Panic
  | _ :: temp =>
      Ok (trim_back_lwsp (reverse (match temp with b :: t => if b =? CR then t else temp | [] => temp end)))
  end.

(** [consume_crlf]. *)
Definition consume_crlf (buf : bytes) (cr_meet : bool) : result HttpError (TokenStatus bytes Z) :=
  match buf with
  | [] => Ok (TPartial 0)
  | b :: rest =>
      if b =? CR then
        if cr_meet then Err InvalidInput
        else match rest with
             | [] => Ok (TPartial 1)
             | c :: rest => if c =? LF then Ok (TComplete rest) else Err InvalidInput
             end
      else if b =? LF then Ok (TComplete rest)
      else Err InvalidInput
  end.

(** [get_crlf_contain]: the first line with its line feed, and the rest. *)
Fixpoint crlf_loop (read buf : bytes) : TokenStatus (bytes * bytes) bytes :=
  match buf with
  | [] => TPartial read
  | b :: rest => if b =? LF then TComplete (read ++ [b], rest) else crlf_loop (read ++ [b]) rest
  end.
Definition get_crlf_contain (buf : bytes) : TokenStatus (bytes * bytes) bytes := crlf_loop [] buf.

(** [u8::is_ascii_whitespace]. *)
Definition is_ascii_whitespace (b : Z) : bool := (b =? 32) || (b =? 9) || (b =? 10) || (b =? 12) || (b =? 13).
Definition trim_ascii_start (l : bytes) : bytes := drop_while is_ascii_whitespace l.
Definition trim_ascii_end (l : bytes) : bytes := reverse (drop_while is_ascii_whitespace (reverse l)).
Definition trim_ascii (l : bytes) : bytes := trim_ascii_end (trim_ascii_start l).

(** [slice::split]. *)
Fixpoint split_at (c : Z) (acc l : bytes) : list bytes :=
  match l with
  | [] => [acc]
  | b :: l => if b =? c then acc :: split_at c [] l else split_at c (acc ++ [b]) l
  end.

(** [get_content_type_boundary]. *)
Definition boundary_param (s : bytes) : option bytes :=
  let boundary := trim_ascii_start (dropZ 9 s) in
  if (2 <? len boundary) && starts_with [34] boundary && ends_with [34] boundary then Some (takeZ (len boundary - 2) (dropZ 1 boundary))
  else match boundary with [] => None | _ => Some boundary end.
Definition get_content_type_boundary (headers : Headers) : option bytes :=
  match Headers_get headers (bs "Content-Type") with
  | None => None
  | Some value =>
      let str := trim_ascii (HeaderValue_to_vec value) in
      if negb (starts_with (bs "multipart") str) then None
      else match List.find (starts_with (bs "boundary=")) (map trim_ascii (split_at 59 [] str)) with
           | Some s => boundary_param s
           | None => None
           end
  end.

(** The bytes of some characters. *)
Definition utf8_encode_char (c : Z) : bytes :=
  if c <? 0x80 then [c]
  else if c <? 0x800 then [192 + c / 64; 128 + c mod 64]
  else if c <? 0x10000 then [224 + c / 4096; 128 + c / 64 mod 64; 128 + c mod 64]
  else [240 + c / 262144; 128 + c / 4096 mod 64; 128 + c / 64 mod 64; 128 + c mod 64].

(** [str::trim] of [from_utf8_unchecked]: undefined, here a panic, when the bytes
    are not UTF-8. *)
Definition unchecked_trim (l : bytes) : result HttpError bytes :=
  match str_from_utf8 l with Some cs => Ok (flat_map utf8_encode_char (trim cs)) | None => Panic end.

(** ** [MixFrom] *)

Inductive MixFrom (R A : Type) :=
  | MOwned (b : bytes) (index : Z)
  | MSlice (b : bytes) (index : Z)
  | MReader (r : R)
  | MAsyncReader (a : A).
Arguments MOwned {R A} b index.
Arguments MSlice {R A} b index.
Arguments MReader {R A} r.
Arguments MAsyncReader {R A} a.

Definition MixFrom_new {R A : Type} : MixFrom R A := MOwned [] 0.
Definition Mix_is_empty {R A : Type} (m : MixFrom R A) : bool :=
  match m with MOwned b _ | MSlice b _ => match b with [] => true | _ => false end | _ => false end.

Section mix.
Context {E R A : Type} (read : Z → ST R E bytes) `{!AsyncRead E A}.

(** [owned_encode], [bytes_encode], [read_encode] and [data]. *)
Definition mix_data (room : Z) : ST (MixFrom R A) E bytes := λ m,
  if room =? 0 then (m, Ok [])
  else match m with
       | MOwned b i => let '(i, out, _) := data_copy b i room in (MOwned b i, Ok out)
       | MSlice b i => let '(i, out, _) := data_copy b i room in (MSlice b i, Ok out)
       | MReader r => let (r, x) := read room r in (MReader r, x)
       | MAsyncReader a => (m, Ok [])
       end.

(** [poll_data]. *)
Definition mix_poll_data (room : Z) : ST (MixFrom R A) E (Poll bytes) := λ m,
  if room =? 0 then (m, Ok (Ready []))
  else match m with
       | MOwned b i => let '(i, out, _) := data_copy b i room in (MOwned b i, Ok (Ready out))
       | MSlice b i => let '(i, out, _) := data_copy b i room in (MSlice b i, Ok (Ready out))
       | MReader r => (m, Ok (Ready []))
       | MAsyncReader a =>
           match poll_read (a, ReadBuf_new room) with
           | ((a, b), Ok (Ready _)) => (MAsyncReader a, Ok (Ready (rb_filled b)))
           | ((a, _), Ok Pending) => (MAsyncReader a, Ok Pending)
           | ((a, _), Err e) => (MAsyncReader a, Err e)
           | ((a, _), Panic) => (MAsyncReader a, Panic)
           end
       end.
End mix.

(** ** Parts *)

Record MimePart (R A : Type) := mkMimePart { mp_headers : Headers; mp_body : MixFrom R A }.
Arguments mkMimePart {R A} mp_headers mp_body.
Arguments mp_headers {R A} m.
Arguments mp_body {R A} m.

Definition MimePart_new {R A : Type} : MimePart R A := mkMimePart ∅ MixFrom_new.

(** [body_extend_from_slice], [body_truncate], [body_trim_crlf_once]: for a body
    that is owned. *)
Definition on_owned {R A : Type} (f : bytes → bytes) (p : MimePart R A) : MimePart R A :=
  match mp_body p with MOwned b i => mkMimePart (mp_headers p) (MOwned (f b) i) | _ => p end.
Definition body_extend_from_slice {R A : Type} (src : bytes) : MimePart R A → MimePart R A := on_owned (λ b, b ++ src).
Definition body_truncate {R A : Type} (n : Z) : MimePart R A → MimePart R A := on_owned (takeZ n).
Definition pop_if (c : Z) (b : bytes) : bytes := if ends_with [c] b then takeZ (len b - 1) b else b.
Definition body_trim_crlf_once {R A : Type} : MimePart R A → MimePart R A := on_owned (λ b, pop_if CR (pop_if LF b)).
Definition body_bytes {R A : Type} (p : MimePart R A) : option bytes := match mp_body p with MOwned b _ => Some b | _ => None end.

(** [MimePartBuilder]. *)
Definition MimePartBuilder (R A : Type) : Type := result HttpError (MimePart R A).
Definition MimePartBuilder_new {R A : Type} : MimePartBuilder R A := Ok MimePart_new.
Definition part_set_headers {R A : Type} (h : Headers) (b : MimePartBuilder R A) : MimePartBuilder R A := p ← b; mret (mkMimePart h (mp_body p)).
Definition part_header {R A : Type} (name value : bytes) (b : MimePartBuilder R A) : MimePartBuilder R A :=
  p ← b; let (h, r) := Headers_insert name value (mp_headers p) in _ ← r; mret (mkMimePart h (mp_body p)).
Definition part_append_header {R A : Type} (name value : bytes) (b : MimePartBuilder R A) : MimePartBuilder R A :=
  p ← b; let (h, r) := Headers_append name value (mp_headers p) in _ ← r; mret (mkMimePart h (mp_body p)).
Definition part_set_body {R A : Type} (m : MixFrom R A) (b : MimePartBuilder R A) : MimePartBuilder R A := p ← b; mret (mkMimePart (mp_headers p) m).
Definition body_from_owned {R A : Type} (d : bytes) : MimePartBuilder R A → MimePartBuilder R A := part_set_body (MOwned d 0).
Definition body_from_bytes {R A : Type} (d : bytes) : MimePartBuilder R A → MimePartBuilder R A := part_set_body (MSlice d 0).
Definition body_from_reader {R A : Type} (r : R) : MimePartBuilder R A → MimePartBuilder R A := part_set_body (MReader r).
Definition body_from_async_reader {R A : Type} (a : A) : MimePartBuilder R A → MimePartBuilder R A := part_set_body (MAsyncReader a).

(** ** Multiparts *)

Inductive MimeMulti (R A : Type) := mkMimeMulti (headers : Headers) (boundary : bytes) (parts : list (XPart R A))
with XPart (R A : Type) := XP (p : MimePart R A) | XM (m : MimeMulti R A).
Arguments mkMimeMulti {R A} headers boundary parts.
Arguments XP {R A} p.
Arguments XM {R A} m.

Definition mm_headers {R A : Type} (m : MimeMulti R A) : Headers := let 'mkMimeMulti h _ _ := m in h.
Definition mm_boundary {R A : Type} (m : MimeMulti R A) : bytes := let 'mkMimeMulti _ b _ := m in b.
Definition mm_list {R A : Type} (m : MimeMulti R A) : list (XPart R A) := let 'mkMimeMulti _ _ l := m in l.

Definition MimeMulti_new {R A : Type} : MimeMulti R A := mkMimeMulti ∅ (bs "-") [].
Definition multi_set_headers {R A : Type} (h : Headers) (m : MimeMulti R A) : MimeMulti R A := mkMimeMulti h (mm_boundary m) (mm_list m).
Definition multi_set_boundary {R A : Type} (b : bytes) (m : MimeMulti R A) : MimeMulti R A := mkMimeMulti (mm_headers m) b (mm_list m).
Definition add_xpart {R A : Type} (x : XPart R A) (m : MimeMulti R A) : MimeMulti R A := mkMimeMulti (mm_headers m) (mm_boundary m) (mm_list m ++ [x]).
Definition add_part {R A : Type} (p : MimePart R A) : MimeMulti R A → MimeMulti R A := add_xpart (XP p).
Definition add_multi {R A : Type} (x : MimeMulti R A) : MimeMulti R A → MimeMulti R A := add_xpart (XM x).

(** [set_content_type]: the boundary is set even if the header is refused. *)
Definition multi_set_content_type {R A : Type} (content_type boundary : bytes) : ST (MimeMulti R A) HttpError () := λ m,
  let (h, r) := Headers_insert (bs "Content-Type") (content_type ++ bs "; boundary=" ++ boundary) (mm_headers m) in
  (mkMimeMulti h boundary (mm_list m), _ ← r; mret ()).

(** [MimeMultiBuilder]. *)
Definition MimeMultiBuilder (R A : Type) : Type := result HttpError (MimeMulti R A).
Definition MimeMultiBuilder_new {R A : Type} : MimeMultiBuilder R A := Ok MimeMulti_new.
Definition mbuilder_map {R A : Type} (f : MimeMulti R A → MimeMulti R A) (b : MimeMultiBuilder R A) : MimeMultiBuilder R A := m ← b; mret (f m).
Definition mbuilder_set_headers {R A : Type} (h : Headers) : MimeMultiBuilder R A → MimeMultiBuilder R A := mbuilder_map (multi_set_headers h).
Definition mbuilder_set_boundary {R A : Type} (b : bytes) : MimeMultiBuilder R A → MimeMultiBuilder R A := mbuilder_map (multi_set_boundary b).
Definition mbuilder_add_part {R A : Type} (p : MimePart R A) : MimeMultiBuilder R A → MimeMultiBuilder R A := mbuilder_map (add_part p).
Definition mbuilder_add_multi {R A : Type} (x : MimeMulti R A) : MimeMultiBuilder R A → MimeMultiBuilder R A := mbuilder_map (add_multi x).
Definition mbuilder_insert_header {R A : Type} (name value : bytes) (b : MimeMultiBuilder R A) : MimeMultiBuilder R A :=
  m ← b; let (h, r) := Headers_insert name value (mm_headers m) in _ ← r; mret (multi_set_headers h m).
Definition mbuilder_append_header {R A : Type} (name value : bytes) (b : MimeMultiBuilder R A) : MimeMultiBuilder R A :=
  m ← b; let (h, r) := Headers_append name value (mm_headers m) in _ ← r; mret (multi_set_headers h m).
Definition mbuilder_set_content_type {R A : Type} (content_type boundary : bytes) (b : MimeMultiBuilder R A) : MimeMultiBuilder R A :=
  m ← b; let (m, r) := multi_set_content_type content_type boundary m in _ ← r; mret m.
