(* ===== verification/MimeEncoder.v ===== *)
(** * The encoders of parts and multiparts

    Models [EncodeHeaders] ([src/ylong_http/src/body/mime/common/headers.rs]),
    [MimePartEncoder] ([encode/part.rs]) and [MimeMultiEncoder]
    ([encode/multi.rs]), with their synchronous [data] and their asynchronous
    [poll_data].  [order] is the order in which a header map is visited. *)

From S2P Require Import Prelude Utf8 Headers Body Mime.
#[local] Open Scope Z_scope.

(** What each element gives, each followed by [mid] but the last, which is
    followed by [close]. *)
Section joined.
Context {X B : Type} (f : X → list B) (mid close : list B).
Fixpoint joined (l : list X) : list B :=
  match l with [] => [] | x :: l => f x ++ match l with [] => close | _ => mid end ++ joined l end.
End joined.

(** ** Header fields *)

Inductive HeaderStatus := HStart | HName | HColon | HValue | HCrlf | HEnd.

Record EncodeHeaders := mkEncodeHeaders {
  eh_stage : HeaderStatus; eh_iter : list (bytes * HeaderValue); eh_value : option HeaderValue; eh_src : bytes; eh_idx : Z }.

Definition EncodeHeaders_new (fields : list (bytes * HeaderValue)) : EncodeHeaders := mkEncodeHeaders HStart fields None [] 0.

Definition eh_check_next (e : EncodeHeaders) : EncodeHeaders :=
  match eh_stage e with
  | HStart =>
      match eh_iter e with
      | (name, value) :: it => mkEncodeHeaders HName it (Some value) name 0
      | [] => mkEncodeHeaders HEnd [] (eh_value e) (eh_src e) (eh_idx e)
      end
  | HName => mkEncodeHeaders HColon (eh_iter e) (eh_value e) (bs ":") 0
  | HColon => mkEncodeHeaders HValue (eh_iter e) None (from_option HeaderValue_to_vec [] (eh_value e)) 0
  | HValue => mkEncodeHeaders HCrlf (eh_iter e) (eh_value e) CRLF 0
  | HCrlf => mkEncodeHeaders HStart (eh_iter e) (eh_value e) (eh_src e) (eh_idx e)
  | HEnd => e
  end.

Definition eh_set_idx (i : Z) (e : EncodeHeaders) : EncodeHeaders := mkEncodeHeaders (eh_stage e) (eh_iter e) (eh_value e) (eh_src e) i.

(** [encode]: what was written, and whether that is the end. *)
Definition eh_encode (room : Z) (e : EncodeHeaders) : EncodeHeaders * bytes * bool :=
  match eh_stage e with
  | HStart => (eh_check_next e, [], false)
  | HEnd => (e, [], true)
  | _ =>
      let '(i, out, complete) := data_copy (eh_src e) (eh_idx e) room in
      let e := eh_set_idx i e in
      (if complete : bool then eh_check_next e else e, out, false)
  end.

(** ** Parts *)

Inductive PartStatus := PStart | PHeaders | PCrlf | PBody | PEnd.

Section encoders.
Context {E R A : Type} (read : Z → ST R E bytes) `{!AsyncRead E A}.
Variable order : Headers → list (bytes * HeaderValue).

Record MimePartEncoder := mkPartEncoder {
  pe_stage : PartStatus; pe_headers : EncodeHeaders; pe_body : option (MixFrom R A); pe_src : bytes; pe_idx : Z }.

Definition from_part (p : MimePart R A) : MimePartEncoder :=
  mkPartEncoder PStart (EncodeHeaders_new (order (mp_headers p))) (if Mix_is_empty (mp_body p) then None else Some (mp_body p)) [] 0.

Definition pe_check_next (e : MimePartEncoder) : MimePartEncoder :=
  match pe_stage e with
  | PStart => mkPartEncoder PHeaders (pe_headers e) (pe_body e) [] 0
  | PHeaders => mkPartEncoder PCrlf (pe_headers e) (pe_body e) (match pe_body e with Some _ => CRLF | None => [] end) 0
  | PCrlf => mkPartEncoder PBody (pe_headers e) (pe_body e) (pe_src e) 0
  | PBody => mkPartEncoder PEnd (pe_headers e) (pe_body e) (pe_src e) 0
  | PEnd => mkPartEncoder PEnd (pe_headers e) (pe_body e) [] 0
  end.
Definition pe_set_headers (h : EncodeHeaders) (e : MimePartEncoder) : MimePartEncoder :=
  mkPartEncoder (pe_stage e) h (pe_body e) (pe_src e) (pe_idx e).
Definition pe_set_body (b : MixFrom R A) (e : MimePartEncoder) : MimePartEncoder :=
  mkPartEncoder (pe_stage e) (pe_headers e) (Some b) (pe_src e) (pe_idx e).
Definition pe_set_idx (i : Z) (e : MimePartEncoder) : MimePartEncoder :=
  mkPartEncoder (pe_stage e) (pe_headers e) (pe_body e) (pe_src e) i.

Abbreviation PE := (ST MimePartEncoder E).

Definition pe_next : PE () := modify_st pe_check_next.

(** [headers_encode], [crlf_encode], [body_sync_encode]. *)
Definition pe_headers_encode (room : Z) : PE bytes :=
  e ← get_st;
  let '(h, out, complete) := eh_encode room (pe_headers e) in
  _ ← put_st (pe_set_headers h e);
  _ ← (if complete : bool then pe_next else mret ());
  mret out.
Definition pe_crlf_encode (room : Z) : PE bytes :=
  e ← get_st;
  let '(i, out, complete) := data_copy (pe_src e) (pe_idx e) room in
  _ ← put_st (pe_set_idx i e);
  _ ← (if complete : bool then pe_next else mret ());
  mret out.
Definition pe_body_sync_encode (room : Z) : PE bytes :=
  e ← get_st;
  match pe_body e with
  | Some body =>
      let (body, x) := mix_data read room body in
      _ ← put_st (pe_set_body body e);
      out ← lift_res x;
      _ ← (if len out =? 0 then pe_next else mret ());
      mret out
  | None => _ ← pe_next; mret []
  end.

(** [sync_impl::Body::data]. *)
Fixpoint pe_data (fuel : nat) (room : Z) : PE bytes :=
  match fuel with
  | O => panic
  | S fuel =>
      if room =? 0 then mret []
      else
        e ← get_st;
        match pe_stage e with
        | PEnd => mret []
        | st =>
            out ← match st with
                  | PStart => _ ← pe_next; mret []
                  | PHeaders => pe_headers_encode room
                  | PCrlf => pe_crlf_encode room
                  | _ => pe_body_sync_encode room
                  end;
            more ← pe_data fuel (room - len out);
            mret (out ++ more)
        end
  end.

(** [poll_mime_body] and [async_impl::Body::poll_data]: [Pending] forgets what
    was written before it. *)
Definition pe_poll_mime_body (room : Z) : PE (Poll bytes) :=
  e ← get_st;
  match pe_body e with
  | Some body =>
      let (body, x) := mix_poll_data room body in
      _ ← put_st (pe_set_body body e);
      p ← lift_res x;
      match p with
      | Ready out => _ ← (if len out =? 0 then pe_next else mret ()); mret (Ready out)
      | Pending => mret Pending
      end
  | None => _ ← pe_next; mret (Ready [])
  end.
Definition ready_st {S X} (m : ST S E X) : ST S E (Poll X) := x ← m; mret (Ready x).
Fixpoint pe_poll_data (fuel : nat) (room : Z) (count : bytes) : PE (Poll bytes) :=
  match fuel with
  | O => panic
  | S fuel =>
      if room =? 0 then mret (Ready count)
      else
        e ← get_st;
        match pe_stage e with
        | PEnd => mret (Ready count)
        | st =>
            p ← match st with
                | PStart => ready_st (_ ← pe_next; mret [])
                | PHeaders => ready_st (pe_headers_encode room)
                | PCrlf => ready_st (pe_crlf_encode room)
                | _ => pe_poll_mime_body room
                end;
            match p with
            | Ready out => pe_poll_data fuel (room - len out) (count ++ out)
            | Pending => mret Pending
            end
        end
  end.

(** Each turn of a loop writes something or goes on to the next stage. *)
Definition eh_todo (e : EncodeHeaders) : nat :=
  match eh_stage e with HStart => 1 | HName => 5 | HColon => 4 | HValue => 3 | HCrlf => 2 | HEnd => 0 end + 5 * length (eh_iter e).
Definition pe_todo (e : MimePartEncoder) : nat :=
  match pe_stage e with PStart => 4 | PHeaders => 3 | PCrlf => 2 | PBody => 1 | PEnd => 0 end + eh_todo (pe_headers e).
Definition pe_fuel (room : Z) (e : MimePartEncoder) : nat := S (pe_todo e + Z.to_nat room).

(** ** Multiparts *)

Inductive MultiStage :=
  | SCrlf
  | SDash
  | SBoundary (boundary : bytes)
  | SHeaders (h : EncodeHeaders)
  | SMimePart (p : MimePartEncoder).

Record MimeMultiEncoder := mkMultiEncoder { me_stages : list MultiStage; me_headers : option Headers; me_idx : Z; me_src : bytes }.

(** [push_first_boundary], [push_middle_boundary], [push_end_boundary]: the
    stages that are put at the back. *)
Definition first_boundary (b : bytes) : list MultiStage := [SDash; SBoundary b; SCrlf].
Definition middle_boundary (b : bytes) : list MultiStage := SCrlf :: first_boundary b.
Definition end_boundary (b : bytes) : list MultiStage := [SCrlf; SDash; SBoundary b; SDash; SCrlf].

(** [push_list_to_stages] and [push_multi_as_part]. *)
Fixpoint multi_stages (m : MimeMulti R A) : list MultiStage :=
  let 'mkMimeMulti _ boundary l := m in
  [SDash; SBoundary boundary; SCrlf] ++
  match l with
  | [] => end_boundary boundary
  | _ => joined xpart_stages (middle_boundary boundary) (end_boundary boundary) l
  end
with xpart_stages (x : XPart R A) : list MultiStage :=
  match x with
  | XP p => [SMimePart (from_part p)]
  | XM m => [SHeaders (EncodeHeaders_new (order (mm_headers m))); SCrlf] ++ multi_stages m
  end.

Definition from_multi (m : MimeMulti R A) : MimeMultiEncoder := mkMultiEncoder (multi_stages m) (Some (mm_headers m)) 0 [].

Definition me_set_stages (l : list MultiStage) (e : MimeMultiEncoder) : MimeMultiEncoder := mkMultiEncoder l (me_headers e) (me_idx e) (me_src e).
Definition me_set_idx (i : Z) (e : MimeMultiEncoder) : MimeMultiEncoder := mkMultiEncoder (me_stages e) (me_headers e) i (me_src e).
Definition push_front (s : MultiStage) (e : MimeMultiEncoder) : MimeMultiEncoder := me_set_stages (s :: me_stages e) e.
Definition init_src (e : MimeMultiEncoder) : MimeMultiEncoder := mkMultiEncoder (me_stages e) (me_headers e) 0 [].

(** [temp_src]. *)
Definition temp_src (s : MultiStage) (e : MimeMultiEncoder) : MimeMultiEncoder :=
  match s with
  | SCrlf => mkMultiEncoder (me_stages e) (me_headers e) (me_idx e) CRLF
  | SDash => mkMultiEncoder (me_stages e) (me_headers e) (me_idx e) (bs "--")
  | _ => e
  end.

Abbreviation ME := (ST MimeMultiEncoder E).

(** [crlf_encode], [dash_encode] and [boundary_encode], which copy [src] and put
    the stage [s] back when there is more. *)
Definition me_copy (src : bytes) (s : MultiStage) (room : Z) : ME bytes :=
  e ← get_st;
  let '(i, out, complete) := data_copy src (me_idx e) room in
  _ ← put_st (me_set_idx i e);
  _ ← modify_st (if complete : bool then init_src else push_front s);
  mret out.
Definition me_headers_encode (h : EncodeHeaders) (room : Z) : ME bytes :=
  let '(h, out, complete) := eh_encode room h in
  _ ← modify_st (if complete : bool then init_src else push_front (SHeaders h));
  mret out.

(** [sync_mimepart_encode]: an error drops the part. *)
Definition me_part_encode (p : MimePartEncoder) (room : Z) : ME bytes :=
  let (p, x) := pe_data (pe_fuel room p) room p in
  out ← lift_res x;
  _ ← modify_st (if negb (len out =? 0) then push_front (SMimePart p) else init_src);
  mret out.

Definition stage_encode (s : MultiStage) (room : Z) : ME bytes :=
  e ← get_st;
  match s with
  | SCrlf => me_copy (me_src e) SCrlf room
  | SDash => me_copy (me_src e) SDash room
  | SBoundary b => me_copy b (SBoundary b) room
  | SHeaders h => me_headers_encode h room
  | SMimePart p => me_part_encode p room
  end.

(** [self.stages.pop_front()], then [temp_src]. *)
Definition me_pop (s : MultiStage) (l : list MultiStage) (e : MimeMultiEncoder) : MimeMultiEncoder := temp_src s (me_set_stages l e).

(** [sync_impl::Body::data]. *)
Fixpoint me_data (fuel : nat) (room : Z) : ME bytes :=
  match fuel with
  | O => panic
  | S fuel =>
      if room =? 0 then mret []
      else
        e ← get_st;
        match me_stages e with
        | [] => mret []
        | s :: l =>
            _ ← put_st (me_pop s l e);
            out ← stage_encode s room;
            more ← me_data fuel (room - len out);
            mret (out ++ more)
        end
  end.

(** [async_impl::Body::poll_data]: the part whose body is not ready is not put
    back. *)
Definition me_poll_part (p : MimePartEncoder) (room : Z) : ME (Poll bytes) :=
  let (p, x) := pe_poll_data (pe_fuel room p) room [] p in
  _ ← match x with
      | Ok (Ready out) => modify_st (if len out =? 0 then init_src else push_front (SMimePart p))
      | _ => mret ()
      end;
  lift_res x.
Fixpoint me_poll_data (fuel : nat) (room : Z) (count : bytes) : ME (Poll bytes) :=
  match fuel with
  | O => panic
  | S fuel =>
      if room =? 0 then mret (Ready count)
      else
        e ← get_st;
        match me_stages e with
        | [] => mret (Ready count)
        | s :: l =>
            _ ← put_st (me_pop s l e);
            p ← match s with
                | SMimePart p => me_poll_part p room
                | _ => ready_st (stage_encode s room)
                end;
            match p with
            | Ready out => me_poll_data fuel (room - len out) (count ++ out)
            | Pending => mret Pending
            end
        end
  end.

Definition stage_todo (s : MultiStage) : nat :=
  S (match s with SHeaders h => eh_todo h | SMimePart p => pe_todo p | _ => 0 end).
Definition me_todo (e : MimeMultiEncoder) : nat := sum_list (map stage_todo (me_stages e)).
Definition me_fuel (room : Z) (e : MimeMultiEncoder) : nat := S (me_todo e + Z.to_nat room).
End encoders.
