(* ===== verification/MimeEncoderSpec.v ===== *)
(** * What the MIME encoders write

    The text of a part and of a multipart (RFC 2046), and that the encoders of
    [MimeEncoder] write it over buffers of any sizes. *)

From S2P Require Import Prelude Utf8 Headers Body MultiPart Mime MimeEncoder.
#[local] Open Scope Z_scope.

(** ** Copies *)

Lemma data_copy_spec src i room :
  0 ≤ i ≤ len src → 0 < room →
  let '(j, out, complete) := data_copy src i room in
  dropZ i src = out ++ dropZ j src ∧ i ≤ j ≤ len src ∧ len out ≤ room ∧ (complete = true → dropZ j src = []) ∧ (complete = false → len out = room).
Proof.
  intros Hi Hr. unfold data_copy. assert (len (dropZ i src) = len src - i) as Hl by (rewrite len_dropZ; lia).
  assert (len (takeZ room (dropZ i src)) = Z.min room (len src - i)) as Ho by (rewrite len_takeZ_min; lia).
  rewrite Ho. split; [|split; [lia|split; [lia|]]].
  - rewrite <- (takeZ_dropZ room (dropZ i src)) at 1. f_equal. destruct (Z.le_gt_cases room (len src - i)).
    + rewrite Z.min_l, dropZ_dropZ by lia. done.
    + rewrite Z.min_r, !dropZ_all by lia. done.
  - split; intros Hc; bool_to_prop; [apply dropZ_all|]; lia.
Qed.

(** ** Header fields *)

Definition field_text (f : bytes * HeaderValue) : bytes := f.1 ++ bs ":" ++ HeaderValue_to_vec f.2 ++ CRLF.
Definition fields_text (l : list (bytes * HeaderValue)) : bytes := concat (map field_text l).

(** What is left of a field and of the fields. *)
Definition eh_rest (e : EncodeHeaders) : bytes :=
  let src := dropZ (eh_idx e) (eh_src e) in
  let value := from_option HeaderValue_to_vec [] (eh_value e) in
  match eh_stage e with
  | HStart => []
  | HName => src ++ bs ":" ++ value ++ CRLF
  | HColon => src ++ value ++ CRLF
  | HValue => src ++ CRLF
  | HCrlf => src
  | HEnd => []
  end ++ fields_text (eh_iter e).
Definition eh_ok (e : EncodeHeaders) : Prop := 0 ≤ eh_idx e ≤ len (eh_src e) ∧ (eh_stage e = HEnd → eh_iter e = []).

Lemma eh_new_ok l : eh_ok (EncodeHeaders_new l) ∧ eh_rest (EncodeHeaders_new l) = fields_text l.
Proof. split; [split; [split; [done|apply len_nonneg]|done]|done]. Qed.

(** When the source is written, the next stage has the same text left. *)
Lemma eh_check_next_spec e :
  eh_ok e → dropZ (eh_idx e) (eh_src e) = [] ∨ eh_stage e = HStart →
  eh_ok (eh_check_next e) ∧ eh_rest (eh_check_next e) = eh_rest e ∧ (eh_stage e ≠ HEnd → eh_todo (eh_check_next e) < eh_todo e)%nat.
Proof.
  intros [Hi He] Hs. destruct e as [st it v src i]. unfold eh_rest, eh_ok, eh_todo, eh_check_next. cbn [eh_stage eh_iter eh_value eh_src eh_idx] in *.
  pose proof (len_nonneg (from_option HeaderValue_to_vec [] v)).
  assert (∀ s : bytes, 0 ≤ 0 ≤ len s) as H0 by (intros s; pose proof (len_nonneg s); lia).
  destruct st; try (destruct Hs as [Hs|?]; [|done]; rewrite Hs).
  - destruct it as [|[n x] it]; cbn [eh_stage eh_iter eh_value eh_src eh_idx]; [split_and!; [lia..|done|done|intros _; cbn; lia]|].
    rewrite dropZ_0. split_and!; [lia|apply H0|done| |intros _; cbn [length]; lia].
    unfold fields_text. cbn [map concat field_text from_option fst snd app]. unfold field_text. cbn [fst snd]. by rewrite <- !app_assoc.
  - cbn [eh_stage eh_iter eh_value eh_src eh_idx]. rewrite dropZ_0. split_and!; [lia|apply H0|done|done|intros _; lia].
  - cbn [eh_stage eh_iter eh_value eh_src eh_idx]. rewrite dropZ_0. split_and!; [lia|apply H0|done|done|intros _; lia].
  - cbn [eh_stage eh_iter eh_value eh_src eh_idx]. rewrite dropZ_0. split_and!; [lia|apply H0|done|done|intros _; lia].
  - cbn [eh_stage eh_iter eh_value eh_src eh_idx]. split_and!; [lia..|done|done|intros _; lia].
  - cbn [eh_stage eh_iter eh_value eh_src eh_idx]. rewrite (He eq_refl). split_and!; [lia..|done|done|done].
Qed.

Lemma eh_set_idx_rest e j out :
  eh_stage e ≠ HStart → eh_stage e ≠ HEnd → dropZ (eh_idx e) (eh_src e) = out ++ dropZ j (eh_src e) → eh_rest e = out ++ eh_rest (eh_set_idx j e).
Proof.
  intros H1 H2 H. unfold eh_rest, eh_set_idx. cbn [eh_stage eh_iter eh_value eh_src eh_idx]. rewrite H.
  destruct (eh_stage e); try done; by rewrite <- !app_assoc.
Qed.

Lemma eh_encode_spec room e :
  eh_ok e → 0 < room →
  let '(e', out, complete) := eh_encode room e in
  eh_ok e' ∧ eh_rest e = out ++ eh_rest e' ∧ len out ≤ room ∧ (eh_todo e' ≤ eh_todo e)%nat ∧
  (if complete : bool then out = [] ∧ eh_rest e' = [] else out ≠ [] ∨ (eh_todo e' < eh_todo e)%nat).
Proof.
  intros Hok Hr. unfold eh_encode.
  assert (eh_stage e ≠ HStart → eh_stage e ≠ HEnd →
    let '(e', out, complete) := (let '(i, out, complete) := data_copy (eh_src e) (eh_idx e) room in
      let e := eh_set_idx i e in (if complete : bool then eh_check_next e else e, out, false)) in
    eh_ok e' ∧ eh_rest e = out ++ eh_rest e' ∧ len out ≤ room ∧ (eh_todo e' ≤ eh_todo e)%nat ∧
    (if complete : bool then out = [] ∧ eh_rest e' = [] else out ≠ [] ∨ (eh_todo e' < eh_todo e)%nat)) as Hcopy.
  { intros H1 H2. destruct Hok as [Hi He]. pose proof (data_copy_spec (eh_src e) (eh_idx e) room Hi Hr) as Hc.
    destruct (data_copy _ _ _) as [[j out] c]. destruct Hc as (Hd & Hj & Hl & Hc1 & Hc2).
    assert (eh_ok (eh_set_idx j e)) as Hok' by (split; [cbn; lia|done]).
    rewrite (eh_set_idx_rest e j out) by done. destruct c; cbv beta iota zeta.
    - destruct (eh_check_next_spec (eh_set_idx j e) Hok') as (H3 & H4 & H5); [left; by apply Hc1|]. rewrite H4.
      specialize (H5 H2). change (eh_todo (eh_set_idx j e)) with (eh_todo e) in H5. split_and!; [done..|lia|by right].
    - split_and!; [done..|]. left. intros ->. specialize (Hc2 eq_refl). rewrite len_nil in Hc2. lia. }
  destruct (eh_stage e) eqn:Est; try (by apply Hcopy).
  - destruct (eh_check_next_spec e Hok) as (H1 & H2 & H3); [by right|]. rewrite Est in H3. specialize (H3 ltac:(done)).
    rewrite H2. split_and!; [done..|len_lia|lia|by right].
  - split_and!; [done..|len_lia|done|done|]. destruct Hok as [_ He]. unfold eh_rest. by rewrite Est, (He Est).
Qed.

(** ** Parts *)

Section spec.
Context {E R A : Type} (read : Z → ST R E bytes) `{!AsyncRead E A}.
Variable order : Headers → list (bytes * HeaderValue).

(** A reader that does not fail: it gives the next bytes of what it has left,
    and none only at its end. *)
Variable unread : R → bytes.
Hypothesis read_ok : ∀ n r, 0 < n →
  ∃ r' out, read n r = (r', Ok out) ∧ unread r = out ++ unread r' ∧ len out ≤ n ∧ (out = [] → unread r = []).

(** What is left of a body: nothing of an asynchronous reader. *)
Definition mix_rest (m : MixFrom R A) : bytes :=
  match m with MOwned b i | MSlice b i => dropZ i b | MReader r => unread r | MAsyncReader _ => [] end.
Definition mix_ok (m : MixFrom R A) : Prop := match m with MOwned b i | MSlice b i => 0 ≤ i ≤ len b | _ => True end.

Lemma mix_data_spec room m :
  mix_ok m → 0 < room →
  ∃ m' out, mix_data read room m = (m', Ok out) ∧ mix_ok m' ∧ mix_rest m = out ++ mix_rest m' ∧ len out ≤ room ∧ (out = [] → mix_rest m = []).
Proof.
  intros Hok Hr. unfold mix_data. destruct (Z.eqb_spec room 0); [lia|].
  assert (∀ b i (f : bytes → Z → MixFrom R A), 0 ≤ i ≤ len b → (∀ i, mix_rest (f b i) = dropZ i b) → (∀ i, 0 ≤ i ≤ len b → mix_ok (f b i)) →
    ∃ m' out, (let '(i, out, _) := data_copy b i room in (f b i, @Ok E _ out)) = (m', Ok out) ∧ mix_ok m' ∧
      mix_rest (f b i) = out ++ mix_rest m' ∧ len out ≤ room ∧ (out = [] → mix_rest (f b i) = [])) as Hcopy.
  { intros b i f Hi Hf Ho. pose proof (data_copy_spec b i room Hi Hr) as H. destruct (data_copy b i room) as [[j out] c].
    destruct H as (H1 & H2 & H3 & H4 & H5). exists (f b j), out. rewrite !Hf. split_and!; [done|apply Ho; lia|done|done|]. intros ->.
    destruct c; [rewrite H1; by apply H4|]. specialize (H5 eq_refl). rewrite len_nil in H5. lia. }
  destruct m as [b i|b i|r|a]; [by apply (Hcopy b i MOwned)|by apply (Hcopy b i MSlice)| |].
  - destruct (read_ok room r Hr) as (r' & out & -> & H1 & H2 & H3). by exists (MReader r'), out.
  - exists (MAsyncReader a), []. split_and!; [done..|len_lia|done].
Qed.

Definition body_text (b : option (MixFrom R A)) : bytes := match b with Some m => CRLF ++ mix_rest m | None => [] end.

(** The text of a part: the fields, and a body that is not empty after an empty
    line. *)
Definition mime_part_text (p : MimePart R A) : bytes :=
  fields_text (order (mp_headers p)) ++ (if Mix_is_empty (mp_body p) then [] else CRLF ++ mix_rest (mp_body p)).

Definition pe_rest (e : MimePartEncoder (R := R) (A := A)) : bytes :=
  match pe_stage e with
  | PStart | PHeaders => eh_rest (pe_headers e) ++ body_text (pe_body e)
  | PCrlf => dropZ (pe_idx e) (pe_src e) ++ from_option mix_rest [] (pe_body e)
  | PBody => from_option mix_rest [] (pe_body e)
  | PEnd => []
  end.
Definition pe_ok (e : MimePartEncoder (R := R) (A := A)) : Prop :=
  eh_ok (pe_headers e) ∧ from_option mix_ok True (pe_body e) ∧ 0 ≤ pe_idx e ≤ len (pe_src e).

Lemma from_part_spec p : mix_ok (mp_body p) → pe_ok (from_part order p) ∧ pe_rest (from_part order p) = mime_part_text p.
Proof.
  intros Hm. unfold from_part, pe_ok, pe_rest, mime_part_text. cbn [pe_headers pe_body pe_idx pe_src pe_stage].
  destruct (eh_new_ok (order (mp_headers p))) as [H1 ->]. destruct (Mix_is_empty (mp_body p)); split_and!; (done || apply H1 || len_lia).
Qed.

(** What the stage has written all of. *)
Definition pe_stage_done (e : MimePartEncoder (R := R) (A := A)) : Prop :=
  match pe_stage e with
  | PStart => True
  | PHeaders => eh_rest (pe_headers e) = []
  | PCrlf => dropZ (pe_idx e) (pe_src e) = []
  | PBody => from_option mix_rest [] (pe_body e) = []
  | PEnd => False
  end.

Lemma pe_check_next_spec e :
  pe_ok e → pe_stage_done e → pe_ok (pe_check_next e) ∧ pe_rest (pe_check_next e) = pe_rest e ∧ (pe_todo (pe_check_next e) < pe_todo e)%nat.
Proof.
  destruct e as [st h b src i]. unfold pe_ok, pe_stage_done, pe_rest, pe_check_next, pe_todo. cbn [pe_stage pe_headers pe_body pe_src pe_idx].
  intros (H1 & H2 & H3) Hd. assert (∀ s : bytes, 0 ≤ 0 ≤ len s) as H0 by (intros s; pose proof (len_nonneg s); lia).
  destruct st; [| | | |done]; cbn [pe_stage pe_headers pe_body pe_src pe_idx].
  - split; [split; [done|split; [done|apply (H0 [])]]|]. split; [done|lia].
  - rewrite Hd, dropZ_0. split; [split; [done|split; [done|apply H0]]|]. split; [by destruct b|lia].
  - rewrite Hd. split; [split; [done|split; [done|apply H0]]|]. split; [done|lia].
  - rewrite Hd. split; [split; [done|split; [done|apply H0]]|]. split; [done|lia].
Qed.

(** One turn of the loop of a part. *)
Definition pe_step_ok (room : Z) (e : MimePartEncoder) (x : MimePartEncoder * result E bytes) : Prop :=
  ∃ e' out, x = (e', Ok out) ∧ pe_ok e' ∧ pe_rest e = out ++ pe_rest e' ∧ len out ≤ room ∧ (pe_todo e' ≤ pe_todo e)%nat ∧
    (out ≠ [] ∨ (pe_todo e' < pe_todo e)%nat).

(** A turn that writes [out], then goes to the next stage or not. *)
Lemma pe_turn room e e1 out (c : bool) :
  pe_ok e1 → pe_rest e = out ++ pe_rest e1 → len out ≤ room → (pe_todo e1 ≤ pe_todo e)%nat →
  (if c then pe_stage_done e1 else out ≠ [] ∨ (pe_todo e1 < pe_todo e)%nat) →
  pe_step_ok room e ((_ ← (if c then pe_next else mret ()); mret out) e1).
Proof.
  intros H1 H2 H3 H4 H5. rewrite bind_st. destruct c.
  - destruct (pe_check_next_spec e1 H1 H5) as (H6 & H7 & H8). exists (pe_check_next e1), out. rewrite H7. split_and!; [done..|lia|right; lia].
  - by exists e1, out.
Qed.

Lemma pe_start_step room e : pe_ok e → pe_stage e = PStart → 0 < room → pe_step_ok room e ((_ ← pe_next; mret []) e).
Proof.
  intros H1 Hst Hr. apply (pe_turn room e e [] true); [done..|len_lia|done|]. unfold pe_stage_done. by rewrite Hst.
Qed.

Lemma pe_headers_step room e : pe_ok e → pe_stage e = PHeaders → 0 < room → pe_step_ok room e (pe_headers_encode room e).
Proof.
  intros (H1 & H2 & H3) Hst Hr. unfold pe_headers_encode. rewrite bind_st. cbn [get_st].
  pose proof (eh_encode_spec room (pe_headers e) H1 Hr) as Hs. destruct (eh_encode room (pe_headers e)) as [[h out] c].
  destruct Hs as (H4 & H5 & H6 & H7 & H8). rewrite bind_st. cbn [put_st].
  apply pe_turn; [done|unfold pe_rest, pe_set_headers; cbn [pe_stage pe_headers pe_body]; by rewrite Hst, H5, app_assoc|done|unfold pe_todo; cbn; lia|].
  unfold pe_stage_done, pe_todo, pe_set_headers. cbn [pe_stage pe_headers]. rewrite Hst.
  destruct c; [apply H8|]. destruct H8 as [|H8]; [by left|right; lia].
Qed.

Lemma pe_crlf_step room e : pe_ok e → pe_stage e = PCrlf → 0 < room → pe_step_ok room e (pe_crlf_encode room e).
Proof.
  intros (H1 & H2 & H3) Hst Hr. unfold pe_crlf_encode. rewrite bind_st. cbn [get_st].
  pose proof (data_copy_spec (pe_src e) (pe_idx e) room H3 Hr) as Hs. destruct (data_copy _ _ _) as [[j out] c].
  destruct Hs as (H4 & H5 & H6 & H7 & H8). rewrite bind_st. cbn [put_st].
  apply pe_turn; [split_and!; (done || apply H1 || cbn; lia)|unfold pe_rest, pe_set_idx; cbn [pe_stage pe_src pe_idx pe_body]; by rewrite Hst, H4, app_assoc|done|done|].
  unfold pe_stage_done, pe_set_idx. cbn [pe_stage pe_src pe_idx]. rewrite Hst. destruct c; [by apply H7|]. left. intros ->.
  specialize (H8 eq_refl). rewrite len_nil in H8. lia.
Qed.

Lemma pe_body_step room e : pe_ok e → pe_stage e = PBody → 0 < room → pe_step_ok room e (pe_body_sync_encode read room e).
Proof.
  intros (H1 & H2 & H3) Hst Hr. unfold pe_body_sync_encode. rewrite bind_st. cbn [get_st]. destruct (pe_body e) as [m|] eqn:Eb.
  - destruct (mix_data_spec room m H2 Hr) as (m' & out & -> & H4 & H5 & H6 & H7). rewrite bind_st. cbn [put_st]. rewrite bind_st. cbn [lift_res].
    apply pe_turn; [exact (conj H1 (conj H4 H3))|unfold pe_rest, pe_set_body; cbn [pe_stage pe_body from_option]; by rewrite Hst, Eb|done|done|].
    unfold pe_stage_done, pe_set_body. cbn [pe_stage pe_body from_option]. rewrite Hst.
    destruct (Z.eqb_spec (len out) 0) as [Ez|Hne]; [|left; by intros ->]. apply len_0_nil in Ez as ->. rewrite <- (H7 eq_refl), H5. done.
  - apply (pe_turn room e e [] true); [unfold pe_ok; by rewrite Eb|done|len_lia|done|]. unfold pe_stage_done. by rewrite Hst, Eb.
Qed.

(** A call of [data] fills the buffer or comes to the end of the part. *)
Lemma pe_data_spec fuel room e :
  pe_ok e → 0 ≤ room → (pe_todo e + Z.to_nat room < fuel)%nat →
  ∃ e' out, pe_data read fuel room e = (e', Ok out) ∧ pe_ok e' ∧ pe_rest e = out ++ pe_rest e' ∧ len out ≤ room ∧
    (pe_todo e' ≤ pe_todo e)%nat ∧ (len out < room → pe_rest e' = []).
Proof.
  revert room e. induction fuel as [|fuel IH]; intros room e Hok Hr Hf; [lia|]. cbn [pe_data].
  destruct (Z.eqb_spec room 0) as [->|Hne]; [exists e, []; split_and!; (done || len_lia)|].
  rewrite bind_st. cbn [get_st]. assert (0 < room) as Hr' by lia.
  assert (∀ m : ST (MimePartEncoder (R := R) (A := A)) E bytes, pe_step_ok room e (m e) →
    ∃ e' out, (out ← m; more ← pe_data read fuel (room - len out); mret (out ++ more)) e = (e', Ok out) ∧ pe_ok e' ∧ pe_rest e = out ++ pe_rest e' ∧
      len out ≤ room ∧ (pe_todo e' ≤ pe_todo e)%nat ∧ (len out < room → pe_rest e' = [])) as Hgo.
  { intros m (e1 & out & Hm & H1 & H2 & H3 & H4 & H5). rewrite bind_st, Hm. pose proof (len_nonneg out).
    assert (pe_todo e1 + Z.to_nat (room - len out) < fuel)%nat as Hf'.
    { destruct H5 as [H5|]; [|lia]. destruct out; [done|]. rewrite len_cons in *. pose proof (len_nonneg out). lia. }
    destruct (IH (room - len out) e1 H1 ltac:(lia) Hf') as (e2 & more & Hd & H6 & H7 & H8 & H9 & H10).
    rewrite bind_st, Hd. exists e2, (out ++ more). rewrite H2, H7, app_assoc, len_app. split_and!; try done; try lia. intros ?. apply H10. lia. }
  destruct (pe_stage e) eqn:Est; try (apply Hgo); [by apply pe_start_step|by apply pe_headers_step|by apply pe_crlf_step|by apply pe_body_step|].
  exists e, []. unfold pe_rest. rewrite Est. split_and!; (done || len_lia).
Qed.

(** ** Multiparts *)

Definition stage_src (s : MultiStage (R := R) (A := A)) : bytes :=
  match s with SCrlf => CRLF | SDash => bs "--" | SBoundary b => b | _ => [] end.
(** What is left of a stage of whose source [i] bytes are written. *)
Definition stage_rest (i : Z) (s : MultiStage (R := R) (A := A)) : bytes :=
  match s with SHeaders h => eh_rest h | SMimePart p => pe_rest p | _ => dropZ i (stage_src s) end.
Definition stages_text (l : list (MultiStage (R := R) (A := A))) : bytes := concat (map (stage_rest 0) l).
Definition stage_ok (s : MultiStage (R := R) (A := A)) : Prop := match s with SHeaders h => eh_ok h | SMimePart p => pe_ok p | _ => True end.
Definition index_ok (i : Z) (s : MultiStage (R := R) (A := A)) : Prop :=
  match s with SHeaders _ | SMimePart _ => i = 0 | _ => 0 ≤ i ≤ len (stage_src s) end.

Definition me_rest (e : MimeMultiEncoder (R := R) (A := A)) : bytes :=
  match me_stages e with [] => [] | s :: l => stage_rest (me_idx e) s ++ stages_text l end.
Definition me_ok (e : MimeMultiEncoder (R := R) (A := A)) : Prop :=
  Forall stage_ok (me_stages e) ∧ match me_stages e with [] => True | s :: _ => index_ok (me_idx e) s end.

(** One turn of the loop. *)
Definition me_step_ok (room : Z) (e : MimeMultiEncoder) (x : MimeMultiEncoder * result E bytes) : Prop :=
  ∃ e' out, x = (e', Ok out) ∧ me_ok e' ∧ me_rest e = out ++ me_rest e' ∧ len out ≤ room ∧ (me_todo e' ≤ me_todo e)%nat ∧
    (out ≠ [] ∨ (me_todo e' < me_todo e)%nat).

(** A stage that is done is gone. *)
Lemma me_done room e e1 out s l :
  me_stages e = s :: l → me_stages e1 = l → Forall stage_ok l → stage_rest (me_idx e) s = out → len out ≤ room →
  me_step_ok room e (init_src e1, Ok out).
Proof.
  intros Hs H1 Hl Hr Ho. exists (init_src e1), out. split; [done|]. unfold me_ok, me_rest, init_src, me_todo, stages_text. cbn [me_stages me_idx].
  rewrite Hs, H1. split_and!; [done| | |done| |].
  - destruct l as [|[] ?]; cbn; try done; split; (done || apply len_nonneg).
  - rewrite Hr. f_equal. destruct l as [|s' l']; [done|]. done.
  - cbn [map sum_list sum_list_with]. change (sum_list (?a :: ?b)) with (a + sum_list b)%nat. lia.
  - right. cbn [map]. change (sum_list (?a :: ?b)) with (a + sum_list b)%nat. unfold stage_todo at 2. lia.
Qed.

(** A stage that has more is put back. *)
Lemma me_more room e e1 out s s' l :
  me_stages e = s :: l → me_stages e1 = l → Forall stage_ok l → stage_ok s' → index_ok (me_idx e1) s' →
  stage_rest (me_idx e) s = out ++ stage_rest (me_idx e1) s' → len out ≤ room → (stage_todo s' ≤ stage_todo s)%nat →
  (out ≠ [] ∨ (stage_todo s' < stage_todo s)%nat) → me_step_ok room e (push_front s' e1, Ok out).
Proof.
  intros Hs H1 Hl Hok Hi Hr Ho Ht Hp. exists (push_front s' e1), out. split; [done|].
  unfold me_ok, me_rest, push_front, me_set_stages, me_todo. cbn [me_stages me_idx]. rewrite Hs, H1. cbn [map].
  change (sum_list (?a :: ?b)) with (a + sum_list b)%nat. rewrite Hr, <- app_assoc.
  split_and!; [by constructor|done..|lia|]. destruct Hp as [|Hp]; [by left|right; lia].
Qed.

Lemma me_copy_step room e e1 s l src :
  me_stages e = s :: l → me_stages e1 = l → me_idx e1 = me_idx e → Forall stage_ok l → stage_ok s →
  (∀ i, stage_rest i s = dropZ i src) → (∀ i, 0 ≤ i ≤ len src ↔ index_ok i s) → index_ok (me_idx e) s → 0 < room →
  me_step_ok room e (me_copy src s room e1).
Proof.
  intros Hs H1 Hi Hl Hok Hr Hidx Hie Hroom. unfold me_copy. rewrite bind_st. cbn [get_st]. rewrite Hi.
  pose proof (data_copy_spec src (me_idx e) room (proj2 (Hidx _) Hie) Hroom) as Hc. destruct (data_copy _ _ _) as [[j out] c].
  destruct Hc as (H2 & H3 & H4 & H5 & H6). rewrite bind_st. cbn [put_st]. rewrite bind_st. destruct c; cbn [modify_st mret ST_ret].
  - apply (me_done room e _ out s l); [done..| |done]. by rewrite Hr, H2, (H5 eq_refl), app_nil_r.
  - apply (me_more room e _ out s s l); [done..|apply Hidx; cbn; pose proof (proj2 (Hidx _) Hie); lia|by rewrite !Hr|done|done|].
    left. intros ->. specialize (H6 eq_refl). rewrite len_nil in H6. lia.
Qed.

Lemma me_stage_step room e s l :
  me_ok e → me_stages e = s :: l → 0 < room → me_step_ok room e (stage_encode read s room (me_pop s l e)).
Proof.
  intros [Hok Hi] Hs Hr. rewrite Hs in Hok, Hi. inversion_clear Hok as [|? ? Hsok Hl]. unfold stage_encode. rewrite bind_st. cbn [get_st].
  destruct s as [| |b|h|p].
  1-3: apply (me_copy_step room e _ _ l); try done; by destruct e.
  - cbn [index_ok] in Hi. unfold me_headers_encode. pose proof (eh_encode_spec room h Hsok Hr) as He. destruct (eh_encode room h) as [[h' out] c].
    destruct He as (H1 & H2 & H3 & H4 & H5). rewrite bind_st. cbn [modify_st]. destruct c; cbn [mret ST_ret].
    + destruct H5 as [-> H5]. apply (me_done room e _ [] (SHeaders h) l); [done..|cbn; by rewrite H2, H5|done].
    + apply (me_more room e _ out (SHeaders h) (SHeaders h') l); try done; [unfold stage_todo; lia|]. destruct H5 as [|H5]; [by left|right; unfold stage_todo; lia].
  - cbn [index_ok] in Hi. unfold me_part_encode.
    destruct (pe_data_spec (pe_fuel room p) room p Hsok ltac:(lia) ltac:(unfold pe_fuel; lia)) as (p' & out & -> & H1 & H2 & H3 & H4 & H5).
    rewrite bind_st. cbn [lift_res]. rewrite bind_st. cbn [modify_st]. destruct (Z.eqb_spec (len out) 0) as [Ez|Hne]; cbn [negb mret ST_ret].
    + apply len_0_nil in Ez as ->. apply (me_done room e _ [] (SMimePart p) l); [done..| |done]. cbn. rewrite H2, H5; [done|]. by rewrite len_nil.
    + apply (me_more room e _ out (SMimePart p) (SMimePart p') l); try done; [unfold stage_todo; lia|]. left. by intros ->.
Qed.

(** A call of [data] fills the buffer or comes to the end of the message. *)
Lemma me_data_spec fuel room e :
  me_ok e → 0 ≤ room → (me_todo e + Z.to_nat room < fuel)%nat →
  ∃ e' out, me_data read fuel room e = (e', Ok out) ∧ me_ok e' ∧ me_rest e = out ++ me_rest e' ∧ len out ≤ room ∧ (len out < room → me_rest e' = []).
Proof.
  revert room e. induction fuel as [|fuel IH]; intros room e Hok Hr Hf; [lia|]. cbn [me_data].
  destruct (Z.eqb_spec room 0) as [->|Hne]; [exists e, []; split_and!; (done || len_lia)|]. rewrite bind_st. cbn [get_st].
  destruct (me_stages e) as [|s l] eqn:Es; [exists e, []; unfold me_rest; rewrite Es; split_and!; (done || len_lia)|].
  destruct (me_stage_step room e s l Hok Es ltac:(lia)) as (e1 & out & Hm & H1 & H2 & H3 & H4 & H5).
  rewrite bind_st. cbn [put_st]. rewrite bind_st, Hm. pose proof (len_nonneg out).
  assert (me_todo e1 + Z.to_nat (room - len out) < fuel)%nat as Hf'.
  { destruct H5 as [H5|]; [|lia]. destruct out; [done|]. rewrite len_cons in *. pose proof (len_nonneg out). lia. }
  destruct (IH (room - len out) e1 H1 ltac:(lia) Hf') as (e2 & more & Hd & H6 & H7 & H8 & H9).
  rewrite bind_st, Hd. exists e2, (out ++ more). rewrite H2, H7, app_assoc, len_app. split_and!; try done; try lia. intros ?. apply H9. lia.
Qed.
End spec.

(** ** The text of a multipart *)

(** Multiparts contain multiparts. *)
Section multi_ind.
Context {R A : Type} (P : MimeMulti R A → Prop).
Definition inner (x : XPart R A) : Prop := match x with XP _ => True | XM m => P m end.
Hypothesis step : ∀ h b l, Forall inner l → P (mkMimeMulti h b l).

Fixpoint MimeMulti_nested_ind (m : MimeMulti R A) : P m :=
  match m with
  | mkMimeMulti h b l =>
      step h b l ((fix go (l : list (XPart R A)) : Forall inner l :=
        match l with
        | [] => List.Forall_nil _
        | x :: l => @List.Forall_cons _ _ x l (match x return inner x with XP _ => I | XM m => MimeMulti_nested_ind m end) (go l)
        end) l)
  end.
End multi_ind.

Section text.
Context {R A : Type} (order : Headers → list (bytes * HeaderValue)) (unread : R → bytes).

(** RFC 2046: a dash-boundary line, then the parts with delimiter lines between
    them and a close-delimiter line behind. *)
Definition dash_line (b : bytes) : bytes := bs "--" ++ b ++ CRLF.
Definition close_delimiter (b : bytes) : bytes := CRLF ++ bs "--" ++ b ++ bs "--" ++ CRLF.

Fixpoint multi_text (m : MimeMulti R A) : bytes :=
  let 'mkMimeMulti _ b l := m in
  dash_line b ++ match l with [] => close_delimiter b | _ => joined xpart_text (CRLF ++ dash_line b) (close_delimiter b) l end
with xpart_text (x : XPart R A) : bytes :=
  match x with
  | XP p => mime_part_text order unread p
  | XM m => fields_text (order (mm_headers m)) ++ CRLF ++ multi_text m
  end.

(** The parts of a multipart, at any depth. *)
Fixpoint multi_parts (m : MimeMulti R A) : list (MimePart R A) := let 'mkMimeMulti _ _ l := m in flat_map xpart_parts l
with xpart_parts (x : XPart R A) : list (MimePart R A) := match x with XP p => [p] | XM m => multi_parts m end.

Abbreviation texts := (stages_text (R := R) (A := A) unread).

Lemma stages_text_app a b : texts (a ++ b) = texts a ++ texts b.
Proof. unfold stages_text. by rewrite map_app, concat_app. Qed.

Lemma close_stages b : Forall stage_ok (end_boundary (R := R) (A := A) b) ∧ texts (end_boundary b) = close_delimiter b.
Proof.
  split; [by repeat constructor|]. unfold close_delimiter, stages_text, end_boundary. cbn [map concat stage_rest stage_src].
  by rewrite !dropZ_0, app_nil_r.
Qed.
Lemma dash_stages b : Forall stage_ok (first_boundary (R := R) (A := A) b) ∧ texts (first_boundary b) = dash_line b.
Proof.
  split; [by repeat constructor|]. unfold dash_line, stages_text, first_boundary. cbn [map concat stage_rest stage_src].
  by rewrite !dropZ_0, app_nil_r.
Qed.
Lemma middle_stages b : Forall stage_ok (middle_boundary (R := R) (A := A) b) ∧ texts (middle_boundary b) = CRLF ++ dash_line b.
Proof. destruct (dash_stages b) as [H1 H2]. split; [by constructor|]. by rewrite <- H2. Qed.

Definition bodies_ok (ps : list (MimePart R A)) : Prop := Forall (λ p, mix_ok (mp_body p)) ps.
Definition stages_of (m : MimeMulti R A) : Prop :=
  bodies_ok (multi_parts m) → Forall stage_ok (multi_stages order m) ∧ texts (multi_stages order m) = multi_text m.

Lemma xpart_stages_text x : inner stages_of x → bodies_ok (xpart_parts x) →
  Forall stage_ok (xpart_stages order x) ∧ texts (xpart_stages order x) = xpart_text x.
Proof.
  destruct x as [p|m].
  - intros _ Hp. cbn [xpart_stages xpart_text xpart_parts] in *. inversion_clear Hp as [|? ? Hm _]. destruct (from_part_spec order unread p Hm) as [H1 H2]. split; [constructor; [exact H1|constructor]|].
    unfold stages_text. cbn [map concat stage_rest]. by rewrite H2, app_nil_r.
  - change (xpart_stages order (XM m)) with ([SHeaders (A := A) (EncodeHeaders_new (order (mm_headers m))); SCrlf] ++ multi_stages order m).
    change (xpart_text (XM m)) with (fields_text (order (mm_headers m)) ++ CRLF ++ multi_text m). intros Hm Hp. destruct (Hm Hp) as [H1 H2]. destruct (eh_new_ok (order (mm_headers m))) as [H3 H4].
    split; [constructor; [exact H3|constructor; [exact I|exact H1]]|]. rewrite stages_text_app, H2. unfold stages_text. cbn [map concat stage_rest stage_src].
    by rewrite H4, dropZ_0, app_nil_r, <- app_assoc.
Qed.

Lemma joined_stages_text b l : Forall (inner stages_of) l → bodies_ok (flat_map xpart_parts l) →
  Forall stage_ok (joined (xpart_stages order) (middle_boundary b) (end_boundary b) l) ∧
  texts (joined (xpart_stages order) (middle_boundary b) (end_boundary b) l) = joined xpart_text (CRLF ++ dash_line b) (close_delimiter b) l.
Proof.
  unfold bodies_ok. induction 1 as [|x l Hx _ IHl]; [done|]. cbn [flat_map joined]. rewrite Forall_app. intros [Hp1 Hp2].
  destruct (IHl Hp2) as [Ho Ht], (xpart_stages_text x Hx Hp1) as [H1 H2], (close_stages b) as [H3 H4], (middle_stages b) as [H5 H6].
  rewrite !Forall_app, !stages_text_app, Ht, H2. split; [split_and!; [done|by destruct l|done]|]. do 2 f_equal. by destruct l.
Qed.

(** The stages of a multipart are its text. *)
Lemma multi_stages_text (m : MimeMulti R A) : stages_of m.
Proof.
  induction m as [h b l IH] using MimeMulti_nested_ind. unfold stages_of.
  change (multi_parts (mkMimeMulti h b l)) with (flat_map xpart_parts l). intros Hp.
  change (multi_stages order (mkMimeMulti h b l)) with (first_boundary (R := R) (A := A) b ++
    match l with [] => end_boundary b | _ => joined (xpart_stages order) (middle_boundary b) (end_boundary b) l end).
  change (multi_text (mkMimeMulti h b l)) with (dash_line b ++
    match l with [] => close_delimiter b | _ => joined xpart_text (CRLF ++ dash_line b) (close_delimiter b) l end).
  destruct (joined_stages_text b l IH Hp) as [H1 H2], (dash_stages b) as [H3 H4], (close_stages b) as [H5 H6].
  rewrite stages_text_app, Forall_app, H4.
  destruct l; [by rewrite H6|by rewrite H2].
Qed.
End text.

(** ** Writing a message *)

(** The message over buffers of the given sizes. *)
Fixpoint me_write {E R A : Type} (read : Z → ST R E bytes) (rooms : list Z) (e : MimeMultiEncoder (R := R) (A := A)) : result E bytes :=
  match rooms with
  | [] => Ok []
  | room :: rooms =>
      match me_data read (me_fuel room e) room e with
      | (e, Ok out) => more ← me_write read rooms e; Ok (out ++ more)
      | (_, Err x) => Err x
      | (_, Panic) => Panic
      end
  end.

Definition sumZ (l : list Z) : Z := foldr Z.add 0 l.

Section write.
Context {E R A : Type} (read : Z → ST R E bytes) `{!AsyncRead E A} (order : Headers → list (bytes * HeaderValue)) (unread : R → bytes).
Hypothesis read_ok : ∀ n r, 0 < n →
  ∃ r' out, read n r = (r', Ok out) ∧ unread r = out ++ unread r' ∧ len out ≤ n ∧ (out = [] → unread r = []).

Lemma sumZ_nonneg l : Forall (λ r, 0 ≤ r) l → 0 ≤ sumZ l.
Proof. unfold sumZ. induction 1; cbn [foldr]; lia. Qed.

Lemma me_write_spec rooms (e : MimeMultiEncoder (R := R) (A := A)) :
  me_ok e → Forall (λ r, 0 ≤ r) rooms → me_write read rooms e = Ok (takeZ (sumZ rooms) (me_rest unread e)).
Proof.
  intros Hok Hr. revert e Hok. induction Hr as [|room rooms Hroom Hr IH]; intros e Hok; [done|]. cbn [me_write].
  destruct (me_data_spec read unread read_ok (me_fuel room e) room e Hok Hroom ltac:(unfold me_fuel; lia)) as (e' & out & -> & H1 & H2 & H3 & H4).
  rewrite (IH e' H1). unfold mbind, result_mbind, result_bind. f_equal. change (sumZ (room :: rooms)) with (room + sumZ rooms).
  pose proof (sumZ_nonneg rooms Hr). rewrite H2. destruct (Z.eq_dec (len out) room) as [<-|Hne].
  - rewrite takeZ_app_ge by lia. f_equal. f_equal. lia.
  - rewrite H4 by lia. unfold takeZ at 1. rewrite take_nil, !app_nil_r. by rewrite takeZ_all by lia.
Qed.

(** From the start: the text of the message, as far as the buffers reach. *)
Lemma me_write_text (m : MimeMulti R A) rooms : bodies_ok (multi_parts m) → Forall (λ r, 0 ≤ r) rooms →
  me_write read rooms (from_multi order m) = Ok (takeZ (sumZ rooms) (multi_text order unread m)).
Proof.
  intros Hm Hr. destruct (multi_stages_text order unread m Hm) as [H1 H2].
  assert (me_ok (from_multi order m)) as Hok.
  { split; [done|]. cbn [from_multi me_stages me_idx]. destruct (multi_stages order m) as [|[] ?]; cbn; try done; split; (done || apply len_nonneg). }
  rewrite (me_write_spec rooms _ Hok Hr). do 2 f_equal. rewrite <- H2. unfold me_rest, from_multi. cbn [me_stages me_idx].
  by destruct (multi_stages order m).
Qed.
End write.

(** the encoder of a multipart, nested to any depth, writes the text of
    RFC 2046 (dash-boundary, the fields and bodies of the parts between
    delimiters, close-delimiter): over buffers of any sizes, empty ones too, the
    calls of [data] write as much of it as fits, so all of it when the buffers
    are large enough, and then nothing; none of them fails. *)
Theorem mime_encode_writes {E R A : Type} (read : Z → ST R E bytes) `{!AsyncRead E A} (order : Headers → list (bytes * HeaderValue))
    (unread : R → bytes) (m : MimeMulti R A) (rooms : list Z) :
  (∀ n r, 0 < n → ∃ r' out, read n r = (r', Ok out) ∧ unread r = out ++ unread r' ∧ len out ≤ n ∧ (out = [] → unread r = [])) →
  bodies_ok (multi_parts m) → Forall (λ r, 0 ≤ r) rooms →
  me_write read rooms (from_multi order m) = Ok (takeZ (sumZ rooms) (multi_text order unread m)).
Proof.
  intros Hread Hm Hr. by apply me_write_text.
Qed.

(** The part of the documentation of [MimeMultiEncoder]: one multipart in
    another. *)
Definition doc_read (n : Z) : ST bytes () bytes := λ r, (dropZ n r, Ok (takeZ n r)).
Definition doc_order (h : Headers) : list (bytes * HeaderValue) := map_to_list h.
Definition doc_part (k v d : string) : MimePart bytes bytes :=
  mkMimePart {[bs k := mkHeaderValue [bs v] false]} (MReader (bs d)).
Definition doc_multi : MimeMulti bytes bytes :=
  mkMimeMulti ∅ (bs "abcde")
    [XP (doc_part "key3" "value3" "33333");
     XM (mkMimeMulti {[bs "content-type" := mkHeaderValue [bs "multipart/mixed; boundary=abc"] false]} (bs "abc")
       [XP (doc_part "key1" "value1" "111111"); XP (doc_part "key2" "value2" "22222")]);
     XP (mkMimePart {[bs "key4" := mkHeaderValue [bs "value4"] false]} (MAsyncReader (bs "444444")))].

Lemma doc_read_ok n r : 0 < n → ∃ r' out, doc_read n r = (r', Ok out) ∧ r = out ++ r' ∧ len out ≤ n ∧ (out = [] → r = []).
Proof.
  intros Hn. exists (dropZ n r), (takeZ n r). rewrite takeZ_dropZ, len_takeZ_min by lia. split_and!; [done..|lia|].
  intros H. apply takeZ_nil_inv in H as [?|?]; [lia|done|lia].
Qed.

Lemma mime_encode_writes_witness :
  let text := bs "--abcde" ++ CRLF ++ bs "key3:value3" ++ CRLF ++ CRLF ++ bs "33333" ++ CRLF ++ bs "--abcde" ++ CRLF ++
    bs "content-type:multipart/mixed; boundary=abc" ++ CRLF ++ CRLF ++ bs "--abc" ++ CRLF ++
    bs "key1:value1" ++ CRLF ++ CRLF ++ bs "111111" ++ CRLF ++ bs "--abc" ++ CRLF ++ bs "key2:value2" ++ CRLF ++ CRLF ++ bs "22222" ++ CRLF ++
    bs "--abc--" ++ CRLF ++ CRLF ++ bs "--abcde" ++ CRLF ++ bs "key4:value4" ++ CRLF ++ CRLF ++ CRLF ++ bs "--abcde--" ++ CRLF in
  me_write doc_read (replicate 7 30) (from_multi doc_order doc_multi) = Ok text.
Proof.
  intros text. rewrite (mime_encode_writes doc_read doc_order id doc_multi (replicate 7 30) doc_read_ok).
  - vm_compute. reflexivity.
  - repeat constructor.
  - repeat (constructor; [discriminate|]). constructor.
Defined.

(** ** A body that is not ready

    The first poll writes the dash-boundary and the fields, then has to wait for
    the body: it reports nothing, and the part is gone; the second writes the
    close-delimiter only. *)
Example mime_pending_loses_part :
  let body : MixFrom bytes WaitReader := MAsyncReader (mkWaitReader (Cursor_new (bs "1234")) [true]) in
  let m := mkMimeMulti ∅ (bs "b") [XP (mkMimePart {[bs "k" := mkHeaderValue [bs "v"] false]} body)] in
  let e := from_multi doc_order m in
  let '(e1, p1) := me_poll_data (E := ()) doc_read (me_fuel 100 e) 100 [] e in
  let '(e2, p2) := me_poll_data (E := ()) doc_read (me_fuel 100 e1) 100 [] e1 in
  p1 = Ok Pending ∧ p2 = Ok (Ready (CRLF ++ bs "--b--" ++ CRLF)).
Proof. vm_compute. by split. Qed.

(** After an error of a reader too, the message goes on without the part. *)
Example mime_error_loses_part :
  let m : MimeMulti () bytes := mkMimeMulti ∅ (bs "b") [XP (mkMimePart ∅ (MReader ()))] in
  let read (n : Z) : ST () () bytes := throw () in
  let e := from_multi doc_order m in
  let '(e1, p1) := me_data read (me_fuel 100 e) 100 e in
  let '(e2, p2) := me_data read (me_fuel 100 e1) 100 e1 in
  p1 = Err () ∧ p2 = Ok (CRLF ++ bs "--b--" ++ CRLF).
Proof. vm_compute. by split. Qed.
