(* ===== verification/MimeDecoder.v ===== *)
(** * The decoders of parts and multiparts

    Models [DecodeHeaders] ([src/ylong_http/src/body/mime/common/headers.rs]),
    [MimePartDecoder] ([decode/part.rs]) and [MimeMultiDecoder] with its stacks
    ([decode/multi.rs]).  A decoded part owns its body; the readers of the parts
    are of any types [R] and [A]. *)

From S2P Require Import Prelude Utf8 Headers Uri Body H1Decoder Mime MimeEncoder.
#[local] Open Scope Z_scope.

(** ** Header fields *)

Record DecodeHeaders := mkDecodeHeaders { dh_stage : HeaderStatus; dh_name_src : bytes; dh_src : bytes; dh_headers : Headers }.

Definition DecodeHeaders_new : DecodeHeaders := mkDecodeHeaders HStart [] [] ∅.

Definition dh_set_stage (s : HeaderStatus) (d : DecodeHeaders) : DecodeHeaders := mkDecodeHeaders s (dh_name_src d) (dh_src d) (dh_headers d).
Definition dh_set_src (s : bytes) (d : DecodeHeaders) : DecodeHeaders := mkDecodeHeaders (dh_stage d) (dh_name_src d) s (dh_headers d).

Definition dh_check_next (d : DecodeHeaders) : DecodeHeaders :=
  match dh_stage d with
  | HStart => dh_set_stage HName d
  | HName => dh_set_stage HValue d
  | HColon => d
  | HValue => dh_set_stage HCrlf d
  | HCrlf => mkDecodeHeaders HStart (dh_name_src d) [] (dh_headers d)
  | HEnd => d
  end.

Abbreviation DH := (ST DecodeHeaders HttpError).

Definition is_cr_meet (d : DecodeHeaders) : bool := (len (dh_src d) =? 1) && bool_decide (dh_src d = [CR]).

(** [if self.src.is_empty() { trim_front_lwsp(buf) } else { buf }]. *)
Definition trim_at_start (d : DecodeHeaders) (buf : bytes) : bytes := match dh_src d with [] => trim_front_lwsp buf | _ => buf end.

(** [start_decode]: [buf[0]] panics on an empty text. *)
Definition start_decode (buf : bytes) : DH bytes :=
  d ← get_st;
  match trim_at_start d buf with
  | [] => panic
  | b :: rest =>
      if b =? CR then
        if is_cr_meet d then throw InvalidInput
        else match rest with
             | [] => _ ← put_st (dh_set_src (dh_src d ++ [CR]) d); mret []
             | c :: rest => if c =? LF then _ ← put_st (dh_set_stage HEnd d); mret rest else throw InvalidInput
             end
      else if b =? LF then _ ← put_st (dh_set_stage HEnd d); mret rest
      else if is_cr_meet d then throw InvalidInput
      else _ ← modify_st dh_check_next; mret (b :: rest)
  end.

(** [get_header_name] and [get_header_value]: up to a byte that ends the token,
    which is kept or not. *)
Fixpoint token_loop (ends valid : Z → bool) (keep : bool) (read buf : bytes) : result HttpError (TokenStatus (bytes * bytes) bytes) :=
  match buf with
  | [] => Ok (TPartial read)
  | b :: rest =>
      if ends b then Ok (TComplete (read, if keep then buf else rest))
      else if negb (valid b) then Err InvalidInput
      else token_loop ends valid keep (read ++ [b]) rest
  end.
Definition get_header_name (buf : bytes) : result HttpError (TokenStatus (bytes * bytes) bytes) :=
  token_loop (λ b, b =? 58) (byte_in HEADER_NAME_BYTES) false [] buf.
Definition get_header_value (buf : bytes) : result HttpError (TokenStatus (bytes * bytes) bytes) :=
  token_loop (λ b, (b =? CR) || (b =? LF)) (byte_in HEADER_VALUE_BYTES) true [] buf.

Definition name_decode (buf : bytes) : DH bytes :=
  d ← get_st;
  t ← lift_res (get_header_name (trim_at_start d buf));
  match t with
  | TPartial unparsed => _ ← put_st (dh_set_src (dh_src d ++ unparsed) d); mret []
  | TComplete (src, unparsed) =>
      _ ← put_st (dh_check_next (mkDecodeHeaders (dh_stage d) (dh_src d ++ src) [] (dh_headers d))); mret unparsed
  end.

Definition value_decode (buf : bytes) : DH bytes :=
  d ← get_st;
  t ← lift_res (get_header_value (trim_at_start d buf));
  match t with
  | TPartial unparsed => _ ← put_st (dh_set_src (dh_src d ++ unparsed) d); mret []
  | TComplete (src, unparsed) =>
      let value := dh_src d ++ src in
      let (h, r) := Headers_insert (trim_front_lwsp (dh_name_src d)) (trim_front_lwsp value) (dh_headers d) in
      _ ← put_st (mkDecodeHeaders (dh_stage d) [] [] h);
      _ ← lift_res r;
      _ ← modify_st dh_check_next; mret unparsed
  end.

(** [crlf_decode]: a carriage return at the end of the buffer is not kept. *)
Definition crlf_decode (buf : bytes) : DH bytes :=
  d ← get_st;
  t ← lift_res (consume_crlf buf (is_cr_meet d));
  match t with
  | TPartial _ => mret []
  | TComplete unparsed => _ ← modify_st dh_check_next; mret unparsed
  end.

Definition dh_step (st : HeaderStatus) (remains : bytes) : DH bytes :=
  match st with
  | HStart => start_decode remains
  | HName => name_decode remains
  | HValue => value_decode remains
  | HCrlf => crlf_decode remains
  | HColon | HEnd => mret remains
  end.

(** [decode]. *)
Fixpoint dh_loop (fuel : nat) (remains : bytes) : DH (TokenStatus Headers () * bytes) :=
  match fuel with
  | O => panic
  | S fuel =>
      d ← get_st;
      match dh_stage d with
      | HEnd => _ ← put_st (mkDecodeHeaders HEnd (dh_name_src d) (dh_src d) ∅); mret (TComplete (dh_headers d), remains)
      | st =>
          rest ← dh_step st remains;
          d ← get_st;
          match rest, dh_stage d with
          | [], HEnd => dh_loop fuel rest
          | [], _ => mret (TPartial (), rest)
          | _, _ => dh_loop fuel rest
          end
      end
  end.
Definition dh_fuel (buf : bytes) : nat := 4 * length buf + 8.
Definition dh_decode (buf : bytes) : DH (TokenStatus Headers () * bytes) :=
  match buf with [] => throw InvalidInput | _ => dh_loop (dh_fuel buf) buf end.

(** ** Parts *)

Inductive BoundaryTag := BInit | BFirst | BMiddle | BEnd.

Section decoders.
Context {R A : Type}.
Abbreviation Part := (MimePart R A).
Abbreviation Multi := (MimeMulti R A).

Record MimePartDecoder := mkPartDecoder {
  pd_stage : PartStatus; pd_headers : DecodeHeaders; pd_part : Part; pd_boundary : bytes; pd_tag : BoundaryTag; pd_src_idx : Z }.

Definition PartDecoder_new : MimePartDecoder := mkPartDecoder PStart DecodeHeaders_new MimePart_new (bs "-") BInit 0.
Definition init_from_multi (headers : Headers) (boundary : bytes) : MimePartDecoder :=
  mkPartDecoder PBody DecodeHeaders_new (mkMimePart headers (mp_body MimePart_new)) boundary BInit 0.
Definition pd_set_boundary (b : bytes) (d : MimePartDecoder) : MimePartDecoder :=
  mkPartDecoder (pd_stage d) (pd_headers d) (pd_part d) b (pd_tag d) (pd_src_idx d).
Definition pd_set_stage (s : PartStatus) (d : MimePartDecoder) : MimePartDecoder :=
  mkPartDecoder s (pd_headers d) (pd_part d) (pd_boundary d) (pd_tag d) (pd_src_idx d).
Definition pd_set_part (p : Part) (d : MimePartDecoder) : MimePartDecoder :=
  mkPartDecoder (pd_stage d) (pd_headers d) p (pd_boundary d) (pd_tag d) (pd_src_idx d).

Abbreviation PD := (ST MimePartDecoder HttpError).

Definition pd_start_decode (buf : bytes) : PD bytes := _ ← modify_st (pd_set_stage PHeaders); mret (trim_front_lwsp buf).

Definition pd_headers_decode (buf : bytes) : PD bytes :=
  d ← get_st;
  let (h, r) := dh_decode buf (pd_headers d) in
  let d := mkPartDecoder (pd_stage d) h (pd_part d) (pd_boundary d) (pd_tag d) (pd_src_idx d) in
  _ ← put_st d;
  '(elem, rest) ← lift_res r;
  _ ← match elem with
      | TComplete headers => put_st (pd_set_stage PBody (pd_set_part (mkMimePart headers (mp_body (pd_part d))) d))
      | TPartial _ => mret ()
      end;
  mret rest.

(** [when_is_end], with the tag that is set before it. *)
Definition when_is_end (tag : BoundaryTag) (d : MimePartDecoder) : MimePartDecoder :=
  mkPartDecoder PEnd (pd_headers d) (body_trim_crlf_once (body_truncate (pd_src_idx d) (pd_part d))) (pd_boundary d) tag (pd_src_idx d).

(** [body_decode]. *)
Definition body_decode (buf : bytes) : PD bytes :=
  d ← get_st;
  match get_crlf_contain buf with
  | TPartial unparsed => _ ← put_st (pd_set_part (body_extend_from_slice unparsed (pd_part d)) d); mret []
  | TComplete (src, unparsed) =>
      let d := pd_set_part (body_extend_from_slice src (pd_part d)) d in
      _ ← put_st d;
      match body_bytes (pd_part d) with
      | None => throw InvalidInput
      | Some body =>
          if len body <? pd_src_idx d then panic
          else
            trim_line ← lift_res (trim_back_lwsp_if_end_with_lf (dropZ (pd_src_idx d) body));
            let deriv := bs "--" ++ pd_boundary d in
            if bool_decide (trim_line = deriv) then _ ← put_st (when_is_end BMiddle d); mret unparsed
            else if bool_decide (trim_line = deriv ++ bs "--") then _ ← put_st (when_is_end BEnd d); mret unparsed
            else _ ← put_st (mkPartDecoder (pd_stage d) (pd_headers d) (pd_part d) (pd_boundary d) (pd_tag d) (len body)); mret unparsed
      end
  end.

Fixpoint pd_loop (fuel : nat) (remains : bytes) : PD (TokenStatus Part () * bytes) :=
  match fuel with
  | O => panic
  | S fuel =>
      d ← get_st;
      match pd_stage d with
      | PEnd => _ ← put_st (pd_set_part MimePart_new d); mret (TComplete (pd_part d), remains)
      | st =>
          rest ← match st with
                 | PStart => pd_start_decode remains
                 | PHeaders => pd_headers_decode remains
                 | PBody => body_decode remains
                 | _ => mret remains
                 end;
          d ← get_st;
          match rest, pd_stage d with
          | [], PEnd => pd_loop fuel rest
          | [], _ => mret (TPartial (), rest)
          | _, _ => pd_loop fuel rest
          end
      end
  end.
Definition pd_fuel (buf : bytes) : nat := length buf + 4.
Definition pd_decode (buf : bytes) : PD (TokenStatus Part () * bytes) :=
  match buf with [] => throw InvalidInput | _ => pd_loop (pd_fuel buf) buf end.

Definition is_last_part (d : MimePartDecoder) : bool := match pd_tag d with BEnd => true | _ => false end.

(** ** Boundaries of a multipart *)

Record DecodeData := mkDecodeData {
  dd_is_finish_first_boundary : bool; dd_is_outermost : bool; dd_boundary : bytes; dd_tag : BoundaryTag; dd_src : bytes; dd_src_idx : Z }.

Definition DecodeData_new : DecodeData := mkDecodeData false true [] BInit [] 0.
Definition new_as_part (boundary : bytes) : DecodeData := mkDecodeData false false boundary BInit [] 0.
Definition dd_set_src (s : bytes) (i : Z) (d : DecodeData) : DecodeData :=
  mkDecodeData (dd_is_finish_first_boundary d) (dd_is_outermost d) (dd_boundary d) (dd_tag d) s i.
Definition dd_set_boundary (b : bytes) (d : DecodeData) : DecodeData :=
  mkDecodeData (dd_is_finish_first_boundary d) (dd_is_outermost d) b (dd_tag d) (dd_src d) (dd_src_idx d).
Definition dd_set_tag (t : BoundaryTag) (d : DecodeData) : DecodeData :=
  mkDecodeData (dd_is_finish_first_boundary d) (dd_is_outermost d) (dd_boundary d) t (dd_src d) (dd_src_idx d).
Definition src_init (d : DecodeData) : DecodeData := dd_set_src [] 0 d.
Definition when_is_first_boundary (d : DecodeData) : DecodeData :=
  src_init (mkDecodeData true (dd_is_outermost d) (dd_boundary d) BFirst (dd_src d) (dd_src_idx d)).

Abbreviation DD := (ST DecodeData HttpError).

(** [outermost_first_boundary]: a line that is not a dash-boundary is dropped
    with all that is behind it in the buffer. *)
Definition outermost_first_boundary (buf : bytes) : DD (TokenStatus (bytes * bytes) bytes) :=
  d ← get_st;
  match get_crlf_contain buf with
  | TPartial unparsed => _ ← put_st (dd_set_src (dd_src d ++ unparsed) (dd_src_idx d) d); mret (TPartial [])
  | TComplete (src, unparsed) =>
      let d := dd_set_src (dd_src d ++ src) (dd_src_idx d) d in
      _ ← put_st d;
      s ← lift_res (unchecked_trim (dd_src d));
      if starts_with (bs "--") s then
        let boundary := dropZ 2 s in
        _ ← put_st (when_is_first_boundary (dd_set_boundary boundary d)); mret (TComplete (boundary, unparsed))
      else _ ← put_st (src_init d); mret (TPartial [])
  end.

(** The last line of [src], trimmed. *)
Definition last_line (d : DecodeData) : result HttpError bytes :=
  if len (dd_src d) <? dd_src_idx d then Panic else trim_back_lwsp_if_end_with_lf (dropZ (dd_src_idx d) (dd_src d)).

Definition inner_first_boundary (buf : bytes) : DD (TokenStatus bytes bytes) :=
  d ← get_st;
  match get_crlf_contain buf with
  | TPartial unparsed => _ ← put_st (dd_set_src (dd_src d ++ unparsed) (dd_src_idx d) d); mret (TPartial [])
  | TComplete (src, unparsed) =>
      let d := dd_set_src (dd_src d ++ src) (dd_src_idx d) d in
      _ ← put_st d;
      trim_line ← lift_res (last_line d);
      if bool_decide (trim_line = bs "--" ++ dd_boundary d) then _ ← put_st (when_is_first_boundary d); mret (TComplete unparsed)
      else _ ← put_st (dd_set_src (dd_src d) (len (dd_src d)) d); mret (TPartial unparsed)
  end.

Definition middle_or_end_boundary (buf : bytes) : DD (TokenStatus bytes bytes) :=
  d ← get_st;
  match get_crlf_contain buf with
  | TPartial unparsed => _ ← put_st (dd_set_src (dd_src d ++ unparsed) (dd_src_idx d) d); mret (TPartial [])
  | TComplete (src, unparsed) =>
      let d := dd_set_src (dd_src d ++ src) (dd_src_idx d) d in
      _ ← put_st d;
      trim_line ← lift_res (last_line d);
      if bool_decide (trim_line = bs "--" ++ dd_boundary d) then _ ← put_st (src_init (dd_set_tag BMiddle d)); mret (TComplete unparsed)
      else if bool_decide (trim_line = bs "--" ++ dd_boundary d ++ bs "--") then _ ← put_st (src_init (dd_set_tag BEnd d)); mret (TComplete unparsed)
      else _ ← put_st (dd_set_src (dd_src d) (len (dd_src d)) d); mret (TPartial unparsed)
  end.

(** ** Multiparts

    The stacks are lists with their top first. *)

Inductive MultiStage := DUnknown (h : DecodeHeaders) | DPart (p : MimePartDecoder) | DMulti (d : DecodeData) | DEnd.

Record MimeMultiDecoder := mkMultiDecoder { md_stages : list MultiStage; md_multis : list Multi }.

Definition MimeMultiDecoder_new : MimeMultiDecoder := mkMultiDecoder [DMulti DecodeData_new] [MimeMulti_new].

Abbreviation MD := (ST MimeMultiDecoder HttpError).

Definition push_stage (s : MultiStage) : MD () := modify_st (λ d, mkMultiDecoder (s :: md_stages d) (md_multis d)).
Definition push_new_unknown_stage : MD () := push_stage (DUnknown DecodeHeaders_new).

(** [last_multi], [last_multi_mut], [multis_pop], [stages_pop], [last_stage]. *)
Definition last_multi : MD Multi := d ← get_st; match md_multis d with m :: _ => mret m | [] => throw InvalidInput end.
Definition on_last_multi (f : Multi → Multi) : MD () :=
  d ← get_st; match md_multis d with m :: l => put_st (mkMultiDecoder (md_stages d) (f m :: l)) | [] => throw InvalidInput end.
Definition multis_pop : MD Multi :=
  d ← get_st; match md_multis d with m :: l => _ ← put_st (mkMultiDecoder (md_stages d) l); mret m | [] => throw InvalidInput end.
Definition stages_pop : MD MultiStage :=
  d ← get_st; match md_stages d with s :: l => _ ← put_st (mkMultiDecoder l (md_multis d)); mret s | [] => throw InvalidInput end.
Definition last_stage : MD MultiStage := d ← get_st; match md_stages d with s :: _ => mret s | [] => throw InvalidInput end.

Definition push_new_multi_stage (headers : Headers) (boundary : bytes) : MD () :=
  _ ← push_stage (DMulti (new_as_part boundary));
  modify_st (λ d, mkMultiDecoder (md_stages d) (mkMimeMulti headers boundary [] :: md_multis d)).
Definition push_new_part_stage (headers : Headers) : MD () :=
  m ← last_multi; push_stage (DPart (init_from_multi headers (mm_boundary m))).

Definition unknown_decode (h : DecodeHeaders) (buf : bytes) : MD bytes :=
  let (h, r) := dh_decode buf h in
  '(elem, rest) ← lift_res r;
  _ ← match elem with
      | TPartial _ => push_stage (DUnknown h)
      | TComplete headers =>
          match get_content_type_boundary headers with
          | Some boundary => push_new_multi_stage headers boundary
          | None => push_new_part_stage headers
          end
      end;
  mret rest.

(** [temp_multi_end]: the last multipart goes into the one before it. *)
Definition temp_multi_end (by_part : bool) : MD () :=
  d ← get_st;
  match md_multis d with
  | [_] => put_st (mkMultiDecoder [DEnd] (md_multis d))
  | _ =>
      _ ← (if by_part then _ ← stages_pop; mret () else mret ());
      multi ← multis_pop;
      on_last_multi (add_multi multi)
  end.

Definition part_decode (p : MimePartDecoder) (buf : bytes) : MD bytes :=
  let (p, r) := pd_decode buf p in
  '(elem, rest) ← lift_res r;
  _ ← match elem with
      | TPartial _ => push_stage (DPart p)
      | TComplete part =>
          _ ← on_last_multi (add_part part);
          if is_last_part p then temp_multi_end true else push_new_unknown_stage
      end;
  mret rest.

Definition middle_or_end_boundary_decode (data : DecodeData) (buf : bytes) : MD bytes :=
  let (data, r) := middle_or_end_boundary buf data in
  t ← lift_res r;
  match t with
  | TPartial rest => _ ← push_stage (DMulti data); mret rest
  | TComplete rest =>
      match dd_tag data with
      | BMiddle => _ ← push_stage (DMulti data); _ ← push_new_unknown_stage; mret rest
      | BEnd => _ ← temp_multi_end false; mret rest
      | _ => mret rest
      end
  end.

(** [self.multis.first_mut()]: the bottom of the stack. *)
Definition set_first_boundary (boundary : bytes) : MD () :=
  d ← get_st;
  match reverse (md_multis d) with
  | m :: l => put_st (mkMultiDecoder (md_stages d) (reverse (multi_set_boundary boundary m :: l)))
  | [] => throw InvalidInput
  end.

Definition outermost_first_boundary_decode (data : DecodeData) (buf : bytes) : MD bytes :=
  let (data, r) := outermost_first_boundary buf data in
  t ← lift_res r;
  match t with
  | TPartial rest => _ ← push_stage (DMulti data); mret rest
  | TComplete (boundary, rest) =>
      _ ← set_first_boundary boundary; _ ← push_stage (DMulti data); _ ← push_new_unknown_stage; mret rest
  end.

(** [inner_first_boundary_decode]: a new unknown stage even when the boundary is
    not complete. *)
Definition inner_first_boundary_decode (data : DecodeData) (buf : bytes) : MD bytes :=
  let (data, r) := inner_first_boundary buf data in
  t ← lift_res r;
  let rest := match t with TPartial rest => rest | TComplete rest => rest end in
  _ ← push_stage (DMulti data); _ ← push_new_unknown_stage; mret rest.

Definition multi_decode (data : DecodeData) (buf : bytes) : MD bytes :=
  if dd_is_finish_first_boundary data then middle_or_end_boundary_decode data buf
  else if dd_is_outermost data then outermost_first_boundary_decode data buf
  else inner_first_boundary_decode data buf.

(** [MimeMultiDecoder::decode]. *)
Fixpoint md_loop (fuel : nat) (remains : bytes) : MD (TokenStatus Multi () * bytes) :=
  match fuel with
  | O => panic
  | S fuel =>
      d ← get_st;
      match md_stages d with
      | [] => mret (TPartial (), remains)
      | s :: l =>
          _ ← put_st (mkMultiDecoder l (md_multis d));
          match s with
          | DEnd => m ← multis_pop; mret (TComplete m, remains)
          | _ =>
              rest ← match s with
                     | DUnknown h => unknown_decode h remains
                     | DPart p => part_decode p remains
                     | DMulti data => multi_decode data remains
                     | DEnd => mret remains
                     end;
              match rest with
              | [] =>
                  s ← last_stage;
                  match s with DEnd => md_loop fuel rest | _ => mret (TPartial (), rest) end
              | _ => md_loop fuel rest
              end
          end
      end
  end.
Definition md_fuel (buf : bytes) : nat := 2 * length buf + 4.
Definition md_decode (buf : bytes) : MD (TokenStatus Multi () * bytes) :=
  match buf with [] => throw InvalidInput | _ => md_loop (md_fuel buf) buf end.
End decoders.
Arguments MimePartDecoder : clear implicits.
Arguments MultiStage : clear implicits.
Arguments MimeMultiDecoder : clear implicits.

(** ** On concrete inputs *)

(** The example of the documentation. *)
Example doc_decode :
  (md_decode (R := ()) (A := ()) (bs "--abc" ++ CRLF ++ bs "key1:value1" ++ CRLF ++ CRLF ++ bs "1111" ++ CRLF ++ bs "--abc--" ++ CRLF ++ bs "abcd")
    MimeMultiDecoder_new).2 =
  Ok (TComplete (mkMimeMulti ∅ (bs "abc") [XP (mkMimePart {[bs "key1" := mkHeaderValue [bs "value1"] false]} (MOwned (bs "1111") 0))]), bs "abcd").
Proof. vm_compute. reflexivity. Qed.

(** A buffer of spaces where a field would begin: [buf[0]] panics. *)
Example spaces_panic :
  let '(d, _) := md_decode (R := ()) (A := ()) (bs "--abc" ++ CRLF) MimeMultiDecoder_new in (md_decode (bs "  ") d).2 = Panic.
Proof. vm_compute. reflexivity. Qed.

(** A preamble takes what is behind it in the buffer with it. *)
Example preamble_drops_buffer :
  (md_decode (R := ()) (A := ()) (bs "preamble" ++ CRLF ++ bs "--abc" ++ CRLF ++ CRLF ++ bs "x" ++ CRLF ++ bs "--abc--" ++ CRLF) MimeMultiDecoder_new).2 =
  Ok (TPartial (), []).
Proof. vm_compute. reflexivity. Qed.

(** The first boundary of an inner multipart, cut in two, is refused. *)
Example inner_boundary_cut :
  let head := bs "--a" ++ CRLF ++ bs "content-type:multipart/mixed; boundary=b" ++ CRLF ++ CRLF in
  let '(d, r) := md_decode (R := ()) (A := ()) (head ++ bs "--") MimeMultiDecoder_new in
  r = Ok (TPartial (), []) ∧ (md_decode (bs "b" ++ CRLF ++ CRLF ++ bs "x" ++ CRLF ++ bs "--b--" ++ CRLF ++ bs "--a--" ++ CRLF) d).2 = Err InvalidInput.
Proof. vm_compute. by split. Qed.
