(* ===== verification/MimeRoundtrip.v ===== *)
(** * A multipart that is written and read back

    What [MimeMultiEncoder] writes ([MimeEncoderSpec.multi_text]),
    [MimeMultiDecoder] reads as the same tree of parts, when the fields have the
    syntax of header fields, the boundaries are texts without spaces and no line
    of a body is a boundary. *)

From stdpp Require Import gmap.
From S2P Require Import Prelude Utf8 Headers Uri Body IpAddr H1Decoder Mime MimeEncoder MimeEncoderSpec MimeDecoder.
#[local] Open Scope Z_scope.

(** ** Lines and tokens *)

Lemma mime_token_loop_ok ends valid keep read t c rest :
  Forall (λ b, ends b = false ∧ valid b = true) t → ends c = true →
  token_loop ends valid keep read (t ++ c :: rest) = Ok (TComplete (read ++ t, if keep then c :: rest else rest)).
Proof.
  intros Ht Hc. revert read. induction Ht as [|b t [Hb1 Hb2] _ IH]; intros read; cbn [app token_loop].
  - by rewrite Hc, app_nil_r.
  - rewrite Hb1, Hb2. cbn [negb]. by rewrite IH, <- app_assoc.
Qed.

Lemma crlf_loop_ok read t rest : LF ∉ t → crlf_loop read (t ++ LF :: rest) = TComplete (read ++ t ++ [LF], rest).
Proof.
  revert read. induction t as [|b t IH]; intros read Ht; cbn [app crlf_loop]; [done|].
  destruct (Z.eqb_spec b LF) as [->|_]; [by destruct Ht; left|]. rewrite IH; [by rewrite <- app_assoc|]. intros H. apply Ht. by right.
Qed.

Lemma get_crlf_line t rest : LF ∉ t → get_crlf_contain (t ++ CRLF ++ rest) = TComplete (t ++ CRLF, rest).
Proof.
  intros Ht. unfold get_crlf_contain, CRLF. change (t ++ [13; 10] ++ rest) with (t ++ [13] ++ LF :: rest). rewrite app_assoc, crlf_loop_ok.
  - cbn [app]. by rewrite <- app_assoc.
  - rewrite elem_of_app, list_elem_of_singleton. intros [?|?]; done.
Qed.

Lemma drop_while_id (p : Z → bool) x l : p x = false → drop_while p (x :: l) = x :: l.
Proof. cbn. by intros ->. Qed.

Definition last_not_lwsp (t : bytes) : Prop := match reverse t with [] => True | b :: _ => is_lwsp b = false end.

Lemma trim_back_id t : last_not_lwsp t → trim_back_lwsp t = t.
Proof.
  unfold last_not_lwsp, trim_back_lwsp. intros H. rewrite <- (reverse_involutive t) at 2. f_equal.
  destruct (reverse t); [done|]. by apply drop_while_id.
Qed.

Lemma trim_line_crlf t : trim_back_lwsp_if_end_with_lf (t ++ CRLF) = Ok (trim_back_lwsp t).
Proof.
  unfold trim_back_lwsp_if_end_with_lf. rewrite reverse_app. change (Ok (E := HttpError) (trim_back_lwsp (reverse (reverse t))) = Ok (trim_back_lwsp t)). by rewrite reverse_involutive.
Qed.

(** ** Fields *)

Definition name_byte (b : Z) : bool := byte_in HEADER_NAME_BYTES b.
Definition value_byte (b : Z) : bool := byte_in HEADER_VALUE_BYTES b.

(** A field that is read as it is written: the name is a lower-case token, the
    value has no white space in front. *)
Definition field_ok (f : bytes * HeaderValue) : Prop :=
  normalize f.1 = Ok f.1 ∧ Forall (λ b, name_byte b = true) f.1 ∧
  Forall (λ b, value_byte b = true) (HeaderValue_to_vec f.2) ∧ trim_front_lwsp (HeaderValue_to_vec f.2) = HeaderValue_to_vec f.2.

Lemma name_byte_not b : name_byte b = true → b ≠ 58 ∧ b ≠ CR ∧ b ≠ LF ∧ is_lwsp b = false.
Proof.
  intros H. assert (0 ≤ b < 256 ∨ ¬ 0 ≤ b < 256) as [Hb|Hb] by lia.
  - assert (Forall (λ b, name_byte b = true → b ≠ 58 ∧ b ≠ CR ∧ b ≠ LF ∧ is_lwsp b = false) (seqZ 0 256)) as Ha
      by (apply (bool_decide_unpack _); vm_compute; reflexivity).
    rewrite Forall_forall in Ha. apply Ha; [apply elem_of_seqZ; lia|done].
  - unfold name_byte, byte_in in H. destruct (Z.lt_ge_cases b 0); [by rewrite Z2Nat.nonpos in H by lia|].
    rewrite nth_overflow in H; [done|]. unfold HEADER_NAME_BYTES. cbn [length]. lia.
Qed.

Lemma value_byte_not b : value_byte b = true → b ≠ CR ∧ b ≠ LF ∧ is_valid b = true.
Proof.
  intros H. assert (0 ≤ b < 256 ∨ ¬ 0 ≤ b < 256) as [Hb|Hb] by lia.
  - assert (Forall (λ b, value_byte b = true → b ≠ CR ∧ b ≠ LF ∧ is_valid b = true) (seqZ 0 256)) as Ha
      by (apply (bool_decide_unpack _); vm_compute; reflexivity).
    rewrite Forall_forall in Ha. apply Ha; [apply elem_of_seqZ; lia|done].
  - unfold value_byte, byte_in in H. destruct (Z.lt_ge_cases b 0); [by rewrite Z2Nat.nonpos in H by lia|].
    rewrite nth_overflow in H; [done|]. unfold HEADER_VALUE_BYTES. cbn [length]. lia.
Qed.

Lemma trim_front_id l : match l with b :: _ => is_lwsp b = false | [] => True end → trim_front_lwsp l = l.
Proof. destruct l as [|b l]; [done|]. by apply drop_while_id. Qed.

Lemma lwsp_values (v : bytes) c rest : trim_front_lwsp v = v → is_lwsp c = false → trim_front_lwsp (v ++ c :: rest) = v ++ c :: rest.
Proof.
  intros Hv Hc. apply trim_front_id. destruct v as [|b v]; cbn [app]; [done|]. destruct (is_lwsp b) eqn:E; [|done].
  unfold trim_front_lwsp in Hv. cbn [drop_while] in Hv. rewrite E in Hv.
  assert (∀ l : bytes, (length (drop_while is_lwsp l) ≤ length l)%nat) as H by (induction l; cbn; [done|case_match; cbn; lia]).
  specialize (H v). apply (f_equal length) in Hv. cbn [length] in Hv. lia.
Qed.

(** The values of a field joined into one. *)
Definition joined_value (v : HeaderValue) : HeaderValue := mkHeaderValue [HeaderValue_to_vec v] false.

Lemma joined_value_vec v : HeaderValue_to_vec (joined_value v) = HeaderValue_to_vec v.
Proof. unfold HeaderValue_to_vec at 1. cbn. by rewrite app_nil_r. Qed.

Lemma insert_field n v h : field_ok (n, v) →
  Headers_insert (trim_front_lwsp n) (trim_front_lwsp (HeaderValue_to_vec v)) h = (<[n := joined_value v]> h, Ok (h !! n)).
Proof.
  intros (H1 & H2 & H3 & H4). cbn [fst snd] in *. rewrite H4. rewrite (trim_front_id n) by (destruct H2 as [|b l Hb]; [done|by apply name_byte_not]).
  unfold Headers_insert, HeaderValue_from_bytes. rewrite H1.
  assert (forallb is_valid (HeaderValue_to_vec v) = true) as -> by (apply forallb_forall; intros b Hb; rewrite Forall_forall in H3; apply value_byte_not, H3, list_elem_of_In, Hb).
  done.
Qed.

(** One field is read in four turns. *)
Lemma dh_start b rest h fuel : b ≠ CR → b ≠ LF → is_lwsp b = false →
  dh_loop (S fuel) (b :: rest) (mkDecodeHeaders HStart [] [] h) = dh_loop fuel (b :: rest) (mkDecodeHeaders HName [] [] h).
Proof.
  intros H1 H2 H3. cbn [dh_loop]. rewrite bind_st. cbn [get_st dh_stage]. rewrite bind_st. cbn [dh_step]. unfold start_decode. rewrite bind_st.
  cbn [get_st trim_at_start dh_src]. unfold trim_front_lwsp. rewrite drop_while_id by done.
  destruct (Z.eqb_spec b CR), (Z.eqb_spec b LF); try done.
Qed.

Lemma dh_name n rest h fuel : Forall (λ b, name_byte b = true) n → rest ≠ [] →
  dh_loop (S fuel) (n ++ 58 :: rest) (mkDecodeHeaders HName [] [] h) = dh_loop fuel rest (mkDecodeHeaders HValue n [] h).
Proof.
  intros Hn Hr. cbn [dh_loop]. rewrite bind_st. cbn [get_st dh_stage]. rewrite bind_st. cbn [dh_step]. unfold name_decode. rewrite bind_st.
  cbn [get_st trim_at_start dh_src]. rewrite trim_front_id by (destruct Hn as [|b n Hb]; [done|by apply name_byte_not]).
  rewrite bind_st. unfold get_header_name. rewrite (mime_token_loop_ok _ _ false [] n 58 rest); [|apply Forall_impl with (1 := Hn)|done].
  - cbn [lift_res app]. rewrite bind_st. cbn. by destruct rest.
  - intros b Hb. destruct (name_byte_not b Hb) as (H1 & _). split; [by apply Z.eqb_neq|done].
Qed.

Lemma dh_value n v rest h fuel : field_ok (n, v) →
  dh_loop (S fuel) (HeaderValue_to_vec v ++ CRLF ++ rest) (mkDecodeHeaders HValue n [] h) =
  dh_loop fuel (CRLF ++ rest) (mkDecodeHeaders HCrlf [] [] (<[n := joined_value v]> h)).
Proof.
  intros Hf. pose proof Hf as (_ & _ & H3 & H4). cbn [snd] in *. cbn [dh_loop]. rewrite bind_st. cbn [get_st dh_stage]. rewrite bind_st. cbn [dh_step].
  unfold value_decode. rewrite bind_st. cbn [get_st trim_at_start dh_src]. change (CRLF ++ rest) with (CR :: LF :: rest). rewrite lwsp_values by done.
  rewrite bind_st. unfold get_header_value. rewrite (mime_token_loop_ok _ _ true [] _ CR (LF :: rest)); [|apply Forall_impl with (1 := H3)|done].
  - cbn [lift_res app dh_name_src dh_headers dh_stage]. rewrite insert_field by done. done.
  - intros b Hb. destruct (value_byte_not b Hb) as (H1 & H2 & _). split; [by rewrite orb_false_iff, !Z.eqb_neq|done].
Qed.

Lemma dh_crlf rest h fuel : rest ≠ [] →
  dh_loop (S fuel) (CRLF ++ rest) (mkDecodeHeaders HCrlf [] [] h) = dh_loop fuel rest (mkDecodeHeaders HStart [] [] h).
Proof. intros Hr. by destruct rest. Qed.

Lemma dh_end rest h fuel :
  dh_loop (S (S fuel)) (CRLF ++ rest) (mkDecodeHeaders HStart [] [] h) = (mkDecodeHeaders HEnd [] [] ∅, Ok (TComplete h, rest)).
Proof. by destruct rest. Qed.

Definition insert_all (h : Headers) (l : list (bytes * HeaderValue)) : Headers := foldl (λ h f, <[f.1 := joined_value f.2]> h) h l.

Lemma dh_fields l h rest fuel : Forall field_ok l →
  dh_loop (4 * length l + S (S fuel)) (fields_text l ++ CRLF ++ rest) (mkDecodeHeaders HStart [] [] h) =
  (mkDecodeHeaders HEnd [] [] ∅, Ok (TComplete (insert_all h l), rest)).
Proof.
  intros Hl. revert h. induction Hl as [|[n v] l Hf _ IH]; intros h; [apply dh_end|]. unfold fields_text. cbn [map concat length]. unfold field_text at 1. cbn [fst snd].
  rewrite <- !app_assoc. change (bs ":" ++ ?x) with (58 :: x). replace (4 * S (length l) + S (S fuel))%nat with (S (S (S (S (4 * length l + S (S fuel)))))) by lia.
  assert (concat (map field_text l) ++ CRLF ++ rest ≠ []) as Hne by (intros H; apply (f_equal len) in H; rewrite !len_app in H; pose proof (len_nonneg rest); pose proof (len_nonneg (concat (map field_text l))); change (len CRLF) with 2 in H; change (len (@nil Z)) with 0 in H; lia).
  assert (Forall (λ b, name_byte b = true) n) as Hn by apply Hf.
  assert (HeaderValue_to_vec v ++ CRLF ++ concat (map field_text l) ++ CRLF ++ rest ≠ []) as Hne' by (destruct (HeaderValue_to_vec v); done).
  destruct n as [|b n].
  - cbn [app]. rewrite (dh_start 58) by done. change (58 :: ?x) with ([] ++ 58 :: x) at 1. rewrite (dh_name []) by done. rewrite dh_value, dh_crlf by done. apply (IH (<[[] := joined_value v]> h)).
  - inversion_clear Hn as [|? ? Hb Hn']. destruct (name_byte_not b Hb) as (H1 & H2 & H3 & H4). cbn [app]. rewrite dh_start by done.
    change (b :: n ++ ?x) with ((b :: n) ++ x). rewrite dh_name; [|by constructor|done]. rewrite dh_value, dh_crlf by done. apply (IH (<[b :: n := joined_value v]> h)).
Qed.

Lemma insert_all_map l h : NoDup l.*1 → insert_all h l = list_to_map (prod_map id joined_value <$> l) ∪ h.
Proof.
  revert h. induction l as [|[n v] l IH]; intros h Hd; [change (h = ∅ ∪ h); by rewrite (left_id_L ∅ (∪))|]. cbn in Hd. apply NoDup_cons in Hd as [Hn Hd].
  change (insert_all h ((n, v) :: l)) with (insert_all (<[n := joined_value v]> h) l). rewrite IH by done.
  cbn [fmap list_fmap prod_map fst snd id]. cbn [list_to_map foldr uncurry]. rewrite <- insert_union_l. rewrite insert_union_r; [done|].
  apply not_elem_of_list_to_map. rewrite <- list_fmap_compose. done.
Qed.

Lemma fields_text_length l : (length l ≤ length (fields_text l))%nat.
Proof.
  induction l as [|f l IH]; [cbn; lia|]. change (fields_text (f :: l)) with (field_text f ++ fields_text l). rewrite length_app. cbn [length].
  assert (1 ≤ length (field_text f))%nat by (unfold field_text; rewrite !length_app; change (length (bs ":")) with 1%nat; lia). lia.
Qed.

Lemma dh_decode_loop buf d : buf ≠ [] → dh_decode buf d = dh_loop (dh_fuel buf) buf d.
Proof. by destruct buf. Qed.

(** The fields of a part or of a multipart, in the order they were written. *)
Lemma dh_decode_fields (order : Headers → list (bytes * HeaderValue)) h rest :
  order h ≡ₚ map_to_list h → map_Forall (λ n v, field_ok (n, v)) h →
  dh_decode (fields_text (order h) ++ CRLF ++ rest) DecodeHeaders_new = (mkDecodeHeaders HEnd [] [] ∅, Ok (TComplete (joined_value <$> h), rest)).
Proof.
  intros Hp Hf. assert (Forall field_ok (order h)) as Hl by (rewrite Hp; apply map_Forall_to_list in Hf; apply Forall_impl with (1 := Hf); by intros []).
  assert (insert_all ∅ (order h) = joined_value <$> h) as <-.
  { assert (NoDup (order h).*1) as Hd by (rewrite Hp; apply NoDup_fst_map_to_list).
    rewrite insert_all_map, (right_id_L ∅ (∪)) by done. rewrite list_to_map_fmap. f_equal.
    rewrite (list_to_map_proper (order h) (map_to_list h)) by done. apply list_to_map_to_list. }
  set (t := fields_text (order h) ++ CRLF ++ rest).
  assert (length (order h) ≤ length t)%nat as Hlen by (unfold t; rewrite length_app; pose proof (fields_text_length (order h)); lia).
  assert (t ≠ []) as Hne by (unfold t; by destruct (fields_text (order h))). rewrite dh_decode_loop by done.
  replace (dh_fuel t) with (4 * length (order h) + S (S (4 * length t + 6 - 4 * length (order h))))%nat by (unfold dh_fuel; lia). by apply dh_fields.
Qed.

(** ** Bodies *)

Section roundtrip.
Context {R A R' A' : Type}.

(** The two lines that end a part. *)
Definition end_line (b : bytes) (last : bool) : bytes := bs "--" ++ (if last then b ++ bs "--" else b).
Definition end_tag (last : bool) : BoundaryTag := if last then BEnd else BMiddle.

(** A line that does not end a part of boundary [b], white space at its end
    trimmed. *)
Definition plain_line (b line : bytes) : bool :=
  match trim_back_lwsp_if_end_with_lf line with
  | Ok t => negb (bool_decide (t = end_line b false)) && negb (bool_decide (t = end_line b true))
  | _ => false
  end.
(** Every line of a text, of whose first line [cur] is read. *)
Fixpoint plain_lines (b cur l : bytes) : bool :=
  match l with
  | [] => bool_decide (cur = [])
  | c :: l => if c =? LF then plain_line b (cur ++ [c]) && plain_lines b [] l else plain_lines b (cur ++ [c]) l
  end.

Lemma plain_lines_split b cur l : LF ∉ cur → l ≠ [] → plain_lines b cur l = true →
  ∃ line l', cur ++ l = line ++ (LF :: l') ∧ (LF ∉ line) ∧ plain_line b (line ++ [LF]) = true ∧ plain_lines b [] l' = true ∧ (length l' < length l)%nat.
Proof.
  revert cur. induction l as [|c l IH]; intros cur Hc Hl; [done|]. cbn [plain_lines]. destruct (Z.eqb_spec c LF) as [->|Hne].
  - rewrite andb_true_iff. intros [H1 H2]. exists cur, l. cbn [length]. split_and!; (done || lia).
  - intros H. destruct l as [|c' l]; [apply bool_decide_eq_true, app_eq_nil in H as [_ H]; done|].
    destruct (IH (cur ++ [c])) as (line & l' & H1 & H2 & H3 & H4 & H5); [rewrite elem_of_app, list_elem_of_singleton; intros [?|?]; [done|by destruct Hne]|done|done|].
    exists line, l'. rewrite <- app_assoc in H1. cbn [length app] in *. split_and!; (done || lia).
Qed.

Lemma end_line_differ b : end_line b false ≠ end_line b true.
Proof. unfold end_line. intros H. apply (f_equal len) in H. rewrite !len_app in H. change (len (bs "--")) with 2 in H. lia. Qed.

Definition boundary_ok (b : bytes) : Prop := Forall (λ c, 33 ≤ c < 127) b.

Lemma end_line_bytes b last : boundary_ok b → Forall (λ c, 33 ≤ c < 127) (end_line b last).
Proof. intros H. unfold end_line. apply Forall_app. split; [by repeat constructor|]. destruct last; [|done]. apply Forall_app. split; [done|by repeat constructor]. Qed.

Lemma end_line_read b last rest : boundary_ok b →
  get_crlf_contain (end_line b last ++ CRLF ++ rest) = TComplete (end_line b last ++ CRLF, rest) ∧
  trim_back_lwsp_if_end_with_lf (end_line b last ++ CRLF) = Ok (end_line b last).
Proof.
  intros H. pose proof (end_line_bytes b last H) as Hb. split.
  - apply get_crlf_line. intros Hin. rewrite Forall_forall in Hb. specialize (Hb _ Hin). unfold LF in Hb. lia.
  - rewrite trim_line_crlf, trim_back_id; [done|]. unfold last_not_lwsp. destruct (reverse (end_line b last)) as [|c l] eqn:E; [done|].
    assert (c ∈ end_line b last) as Hin by (apply elem_of_reverse; rewrite E; by left). rewrite Forall_forall in Hb. specialize (Hb _ Hin).
    unfold is_lwsp, SP, HTAB. rewrite orb_false_iff, !Z.eqb_neq. lia.
Qed.

(** The decoder of a part behind [acc] of its body, at the start of a line. *)
Definition in_body (h : Headers) (b acc : bytes) : MimePartDecoder R' A' :=
  mkPartDecoder PBody DecodeHeaders_new (mkMimePart h (MOwned acc 0)) b BInit (len acc).

Lemma get_line line rest : LF ∉ line → get_crlf_contain (line ++ LF :: rest) = TComplete (line ++ [LF], rest).
Proof. intros H. unfold get_crlf_contain. by rewrite crlf_loop_ok. Qed.

Lemma pd_line h b acc line rest fuel : LF ∉ line → plain_line b (line ++ [LF]) = true → rest ≠ [] →
  pd_loop (S fuel) (line ++ LF :: rest) (in_body h b acc) = pd_loop fuel rest (in_body h b (acc ++ line ++ [LF])).
Proof.
  intros Hl Hp Hr. cbn [pd_loop]. unfold in_body at 1. rewrite bind_st. cbn [get_st pd_stage]. rewrite bind_st. unfold body_decode. rewrite bind_st. cbn [get_st].
  rewrite get_line by done. rewrite bind_st. cbn [put_st]. unfold pd_set_part, body_extend_from_slice, on_owned.
  cbn [pd_part mp_body mp_headers pd_stage pd_headers pd_boundary pd_tag pd_src_idx body_bytes].
  destruct (Z.ltb_spec (len (acc ++ line ++ [LF])) (len acc)) as [Hlt|_]; [rewrite len_app in Hlt; pose proof (len_nonneg (line ++ [LF])); lia|].
  rewrite dropZ_app_len. unfold plain_line in Hp. rewrite bind_st. destruct (trim_back_lwsp_if_end_with_lf (line ++ [LF])) as [t|e|]; [|done..].
  cbn [lift_res]. unfold end_line in Hp. apply andb_true_iff in Hp as [H1 H2]. rewrite negb_true_iff in H1, H2. rewrite H1.
  rewrite <- app_assoc, H2. rewrite bind_st. cbn [put_st mret ST_ret]. rewrite bind_st. cbn [get_st pd_stage]. by destruct rest.
Qed.

Lemma pd_end h b acc last rest fuel : boundary_ok b →
  ∃ p : MimePartDecoder R' A', pd_loop (S (S fuel)) (end_line b last ++ CRLF ++ rest) (in_body h b acc) =
    (p, Ok (TComplete (mkMimePart h (MOwned (pop_if CR (pop_if LF acc)) 0)), rest)) ∧ pd_tag p = end_tag last.
Proof.
  intros Hb. destruct (end_line_read b last rest Hb) as [H1 H2]. cbn [pd_loop]. unfold in_body at 1. rewrite bind_st. cbn [get_st pd_stage]. rewrite bind_st.
  unfold body_decode. rewrite bind_st. cbn [get_st]. rewrite H1. rewrite bind_st. cbn [put_st]. unfold pd_set_part, body_extend_from_slice, on_owned.
  cbn [pd_part mp_body mp_headers pd_stage pd_headers pd_boundary pd_tag pd_src_idx body_bytes].
  destruct (Z.ltb_spec (len (acc ++ end_line b last ++ CRLF)) (len acc)) as [Hlt|_]; [rewrite len_app in Hlt; pose proof (len_nonneg (end_line b last ++ CRLF)); lia|].
  rewrite dropZ_app_len. rewrite bind_st, H2. cbn [lift_res].
  change ((bs "--" ++ b) ++ bs "--") with (end_line b true). change (bs "--" ++ b) with (end_line b false).
  assert (∀ tag, ∃ p : MimePartDecoder R' A', pd_loop (S fuel) rest (when_is_end tag (mkPartDecoder PBody DecodeHeaders_new (mkMimePart h (MOwned (acc ++ end_line b last ++ CRLF) 0)) b BInit (len acc))) =
    (p, Ok (TComplete (mkMimePart h (MOwned (pop_if CR (pop_if LF acc)) 0)), rest)) ∧ pd_tag p = tag) as Hend.
  { intros tag. cbn [pd_loop]. rewrite bind_st. unfold when_is_end, body_truncate, body_trim_crlf_once, on_owned.
    cbn [get_st pd_stage pd_part mp_body mp_headers pd_src_idx]. rewrite takeZ_app_len, bind_st. eexists. split; reflexivity. }
  pose proof (end_line_differ b) as Hd. destruct last; cbn [end_tag].
  - rewrite bool_decide_eq_false_2 by congruence. rewrite bool_decide_eq_true_2 by done.
    rewrite bind_st. cbn [put_st mret ST_ret]. rewrite bind_st. cbn [get_st when_is_end pd_stage]. destruct rest; apply Hend.
  - rewrite bool_decide_eq_true_2 by done. rewrite bind_st. cbn [put_st mret ST_ret]. rewrite bind_st. cbn [get_st when_is_end pd_stage]. destruct rest; apply Hend.
Qed.

(** A body, in front of the line that ends the part. *)
Lemma pd_body h b content last rest acc fuel : boundary_ok b → plain_lines b [] content = true → (length content + 2 ≤ fuel)%nat →
  ∃ p : MimePartDecoder R' A', pd_loop fuel (content ++ end_line b last ++ CRLF ++ rest) (in_body h b acc) =
    (p, Ok (TComplete (mkMimePart h (MOwned (pop_if CR (pop_if LF (acc ++ content))) 0)), rest)) ∧ pd_tag p = end_tag last.
Proof.
  intros Hb. remember (length content) as n eqn:Hn. revert content acc fuel Hn.
  induction n as [n IH] using lt_wf_ind. intros content acc fuel Hn Hc Hf. destruct content as [|c l] eqn:El.
  - destruct fuel as [|[|fuel]]; [cbn in *; lia..|]. rewrite app_nil_r. by apply pd_end.
  - rewrite <- El in *. assert (content ≠ []) as Hne by (by rewrite El). clear El c l.
    destruct (plain_lines_split b [] content ltac:(set_solver) Hne Hc) as (line & l' & H1 & H2 & H3 & H4 & H5). cbn [app] in H1.
    destruct fuel as [|fuel]; [lia|]. rewrite H1, <- app_assoc, <- app_comm_cons. rewrite pd_line; [|done|done|by destruct l'].
    replace (acc ++ line ++ LF :: l') with ((acc ++ line ++ [LF]) ++ l') by (by rewrite <- !app_assoc). apply (IH (length l')); [lia|done|done|lia].
Qed.

Lemma pop_crlf x : pop_if CR (pop_if LF (x ++ CRLF)) = x.
Proof.
  assert (∀ x c, pop_if c (x ++ [c]) = x) as H.
  { intros y c. unfold pop_if. assert (ends_with [c] (y ++ [c]) = true) as -> by (apply ends_with_spec; by exists y).
    rewrite len_app. change (len [c]) with 1. replace (len y + 1 - 1) with (len y) by lia. apply takeZ_app_len. }
  change (x ++ CRLF) with (x ++ [CR] ++ [LF]). by rewrite app_assoc, !H.
Qed.

(** What is in front of the delimiter of a part, behind the empty line: its body
    and a line end, or nothing. *)
Definition content (body : bytes) (empty : bool) : bytes := if empty then [] else body ++ CRLF.

Lemma pd_decode_body h b body empty last rest : boundary_ok b → plain_lines b [] (content body empty) = true → (empty = true → body = []) →
  ∃ p : MimePartDecoder R' A', pd_decode (content body empty ++ end_line b last ++ CRLF ++ rest) (init_from_multi h b) =
    (p, Ok (TComplete (mkMimePart h (MOwned body 0)), rest)) ∧ pd_tag p = end_tag last.
Proof.
  intros Hb Hp He. set (buf := content body empty ++ end_line b last ++ CRLF ++ rest).
  assert (pd_decode buf (init_from_multi h b) = pd_loop (pd_fuel buf) buf (in_body h b [])) as ->.
  { assert (buf ≠ []) by (unfold buf, end_line; by destruct (content body empty)). by destruct buf. }
  destruct (pd_body h b (content body empty) last rest [] (pd_fuel buf) Hb Hp) as (p & H1 & H2).
  { unfold pd_fuel, buf. rewrite length_app. lia. }
  fold buf in H1. exists p. rewrite H1. split; [|done]. cbn [app]. do 6 f_equal. unfold content. destruct empty; [by rewrite He|apply pop_crlf].
Qed.

(** ** The loop over the stages

    One turn of [md_loop]: the top of the stack is taken off and decodes. *)
Definition md_turn (s : MultiStage R' A') (buf : bytes) : ST (MimeMultiDecoder R' A') HttpError bytes :=
  match s with
  | DUnknown h => unknown_decode h buf
  | DPart p => part_decode p buf
  | DMulti data => multi_decode data buf
  | DEnd => mret buf
  end.

Abbreviation Dec := (MimeMultiDecoder R' A').

(** Turns that take bytes off a buffer and stop in front of its end, or at the
    end of the message. *)
Inductive md_steps : bytes → Dec → bytes → Dec → Prop :=
  | steps_refl buf d : md_steps buf d buf d
  | steps_turn buf s l ms buf1 d1 buf2 d2 :
      s ≠ DEnd → md_turn s buf (mkMultiDecoder l ms) = (d1, Ok buf1) → (length buf1 < length buf)%nat →
      (buf1 ≠ [] ∨ ∃ l', md_stages d1 = DEnd :: l') → md_steps buf1 d1 buf2 d2 →
      md_steps buf (mkMultiDecoder (s :: l) ms) buf2 d2.

Lemma md_steps_trans buf1 d1 buf2 d2 buf3 d3 : md_steps buf1 d1 buf2 d2 → md_steps buf2 d2 buf3 d3 → md_steps buf1 d1 buf3 d3.
Proof. induction 1; [done|]. intros. eapply steps_turn; eauto. Qed.

Lemma md_turn_loop fuel s l ms buf d1 buf1 :
  s ≠ DEnd → md_turn s buf (mkMultiDecoder l ms) = (d1, Ok buf1) → (buf1 ≠ [] ∨ ∃ l', md_stages d1 = DEnd :: l') →
  md_loop (S fuel) buf (mkMultiDecoder (s :: l) ms) = md_loop fuel buf1 d1.
Proof.
  intros Hs Ht Hn. cbn [md_loop]. rewrite bind_st. cbn [get_st md_stages md_multis]. rewrite bind_st. cbn [put_st].
  assert (∀ m : ST Dec HttpError bytes, m (mkMultiDecoder l ms) = (d1, Ok buf1) →
    (rest ← m; match rest with [] => s ← last_stage; match s with DEnd => md_loop fuel rest | _ => mret (TPartial (), rest) end | _ => md_loop fuel rest end)
      (mkMultiDecoder l ms) = md_loop fuel buf1 d1) as H.
  { intros m Hm. rewrite bind_st, Hm. destruct buf1; [|done]. destruct Hn as [|[l' Hl]]; [done|]. unfold last_stage. rewrite !bind_st. cbn [get_st]. rewrite Hl. done. }
  destruct s; [apply H, Ht..|done].
Qed.

Lemma md_steps_loop buf d buf' d' : md_steps buf d buf' d' →
  ∀ k fuel, (length buf + k ≤ fuel)%nat → ∃ fuel', md_loop fuel buf d = md_loop fuel' buf' d' ∧ (length buf' + k ≤ fuel')%nat.
Proof.
  induction 1 as [|buf s l ms buf1 d1 buf2 d2 Hs Ht Hl Hn _ IH]; intros k fuel Hf; [by exists fuel|].
  destruct fuel as [|fuel]; [lia|]. rewrite (md_turn_loop fuel s l ms buf d1 buf1) by done. apply IH. lia.
Qed.

(** *** Boundary lines *)

(** A multipart whose first boundary is read, between two of its parts. *)
Definition between (b : bytes) (d : DecodeData) : Prop :=
  dd_is_finish_first_boundary d = true ∧ dd_boundary d = b ∧ dd_src d = [] ∧ dd_src_idx d = 0.

(** The multipart at the top of the stack is complete. *)
Definition closed (l : list (MultiStage R' A')) (m : MimeMulti R' A') (ms : list (MimeMulti R' A')) : Dec :=
  match ms with [] => mkMultiDecoder [DEnd] [m] | o :: ms => mkMultiDecoder l (add_multi m o :: ms) end.

Lemma temp_multi_end_part dd l m ms :
  temp_multi_end true (mkMultiDecoder (DMulti dd :: l) (m :: ms)) = (closed l m ms, Ok ()).
Proof. by destruct ms. Qed.
Lemma temp_multi_end_line l m ms :
  temp_multi_end false (mkMultiDecoder l (m :: ms)) = (closed l m ms, Ok ()).
Proof. by destruct ms. Qed.

Lemma one_turn buf s l ms buf1 d1 :
  s ≠ DEnd → md_turn s buf (mkMultiDecoder l ms) = (d1, Ok buf1) → (length buf1 < length buf)%nat →
  (buf1 ≠ [] ∨ ∃ l', md_stages d1 = DEnd :: l') → md_steps buf (mkMultiDecoder (s :: l) ms) buf1 d1.
Proof. intros. eapply steps_turn; [done..|constructor]. Qed.

Lemma crlf_shorter (line rest : bytes) : (length rest < length (line ++ CRLF ++ rest))%nat.
Proof. rewrite !length_app. change (length CRLF) with 2%nat. lia. Qed.

(** The next line of a multipart that is waiting for a delimiter. *)
Lemma empty_line b dd l ms rest : boundary_ok b → between b dd → rest ≠ [] →
  md_steps (CRLF ++ rest) (mkMultiDecoder (DMulti dd :: l) ms) rest (mkMultiDecoder (DMulti (dd_set_src CRLF 2 dd) :: l) ms).
Proof.
  intros Hb (H1 & H2 & H3 & H4) Hr. apply one_turn; [done| |apply (crlf_shorter [])|by left]. cbn [md_turn]. unfold multi_decode. rewrite H1.
  unfold middle_or_end_boundary_decode, middle_or_end_boundary. rewrite bind_st. cbn [get_st].
  change (get_crlf_contain (CRLF ++ rest)) with (TComplete (E := bytes) (CRLF, rest)). cbv iota beta. rewrite bind_st. cbn [put_st]. rewrite H3, H4. rewrite bind_st.
  change (last_line _) with (trim_back_lwsp_if_end_with_lf ([] ++ CRLF)). rewrite trim_line_crlf. cbn [lift_res].
  rewrite !bool_decide_eq_false_2 by discriminate. done.
Qed.

Lemma delimiter_line b dd l m ms last rest : boundary_ok b → between b dd → (rest ≠ [] ∨ last = true ∧ ms = []) →
  ∃ dd', between b dd' ∧
  md_steps (end_line b last ++ CRLF ++ rest) (mkMultiDecoder (DMulti (dd_set_src CRLF 2 dd) :: l) (m :: ms)) rest
    (if last then closed l m ms else mkMultiDecoder (DUnknown DecodeHeaders_new :: DMulti dd' :: l) (m :: ms)).
Proof.
  intros Hb (H1 & H2 & H3 & H4) Hr. destruct (end_line_read b last rest Hb) as [Hg Ht].
  exists (src_init (dd_set_tag BMiddle (dd_set_src CRLF 2 dd))). split; [done|]. apply one_turn; [done| |apply crlf_shorter|].
  2:{ destruct Hr as [|[-> ->]]; [by left|right; by eexists]. }
  cbn [md_turn]. unfold multi_decode. cbn [dd_set_src dd_is_finish_first_boundary]. rewrite H1.
  unfold middle_or_end_boundary_decode, middle_or_end_boundary. rewrite bind_st. cbn [get_st]. rewrite Hg, bind_st. cbn [put_st]. rewrite bind_st.
  unfold last_line. cbn [dd_set_src dd_src dd_src_idx dd_boundary].
  destruct (Z.ltb_spec (len (CRLF ++ end_line b last ++ CRLF)) 2) as [Hlt|_]; [rewrite len_app in Hlt; change (len CRLF) with 2 in Hlt; pose proof (len_nonneg (end_line b last ++ CRLF)); lia|].
  change 2 with (len CRLF) at 1. rewrite dropZ_app_len, Ht. cbn [lift_res]. rewrite H2.
  change (bs "--" ++ b ++ bs "--") with (end_line b true). change (bs "--" ++ b) with (end_line b false).
  pose proof (end_line_differ b). destruct last.
  - rewrite bool_decide_eq_false_2 by congruence. rewrite bool_decide_eq_true_2 by done. rewrite bind_st.
    cbn [put_st mret ST_ret]. rewrite bind_st. cbn [lift_res]. change (dd_tag _) with BEnd. cbv iota. rewrite bind_st, temp_multi_end_line. done.
  - rewrite bool_decide_eq_true_2 by done. done.
Qed.

(** First boundaries. *)
Lemma inner_first b l ms rest : boundary_ok b → rest ≠ [] →
  ∃ dd, between b dd ∧ md_steps (dash_line b ++ rest) (mkMultiDecoder (DMulti (new_as_part b) :: l) ms) rest (mkMultiDecoder (DUnknown DecodeHeaders_new :: DMulti dd :: l) ms).
Proof.
  intros Hb Hr. destruct (end_line_read b false rest Hb) as [Hg Ht]. assert (dash_line b ++ rest = end_line b false ++ CRLF ++ rest) as -> by (unfold dash_line, end_line; by rewrite <- !app_assoc).
  eexists. split; [|apply one_turn; [done| |apply crlf_shorter|by left]].
  2:{ cbn [md_turn]. unfold multi_decode, inner_first_boundary_decode, inner_first_boundary. cbn [new_as_part dd_is_finish_first_boundary dd_is_outermost].
    rewrite bind_st. cbn [get_st]. rewrite Hg, bind_st. cbn [put_st]. rewrite bind_st. unfold last_line. cbn [new_as_part dd_set_src dd_src dd_src_idx dd_boundary app].
    destruct (Z.ltb_spec (len (end_line b false ++ CRLF)) 0) as [Hlt|_]; [pose proof (len_nonneg (end_line b false ++ CRLF)); lia|].
    rewrite dropZ_0, Ht. cbn [lift_res]. rewrite bool_decide_eq_true_2 by done. reflexivity. }
  done.
Qed.

Lemma utf8_encode_ascii l : Forall (λ c, 33 ≤ c < 127) l → flat_map utf8_encode_char l = l.
Proof.
  induction 1 as [|c l Hc _ IH]; [done|]. cbn [flat_map]. rewrite IH. unfold utf8_encode_char. destruct (Z.ltb_spec c 128); [done|lia].
Qed.

Lemma trim_line l : Forall (λ c, 33 ≤ c < 127) l → trim (l ++ CRLF) = l.
Proof.
  assert (∀ c, 33 ≤ c < 127 → is_whitespace c = false) as Hw.
  { intros c Hc. unfold is_whitespace. repeat (rewrite orb_false_iff || rewrite andb_false_iff || rewrite Z.eqb_neq || rewrite Z.leb_gt). lia. }
  intros Hl. unfold trim, trim_by. destruct l as [|c l].
  - by vm_compute.
  - cbn [app]. rewrite drop_while_id by (apply Hw; by inversion Hl). change (c :: l ++ CRLF) with ((c :: l) ++ CRLF). rewrite reverse_app.
    change (reverse (drop_while is_whitespace (reverse (c :: l))) = c :: l).
    rewrite <- (reverse_involutive (c :: l)) at 2. f_equal. apply Forall_reverse in Hl. destruct (reverse (c :: l)); [done|].
    apply drop_while_id, Hw. by inversion Hl.
Qed.

Lemma outermost_first b rest : boundary_ok b → rest ≠ [] →
  ∃ dd, between b dd ∧ md_steps (dash_line b ++ rest) MimeMultiDecoder_new rest
    (mkMultiDecoder [DUnknown DecodeHeaders_new; DMulti dd] [mkMimeMulti ∅ b []]).
Proof.
  intros Hb Hr. destruct (end_line_read b false rest Hb) as [Hg _]. pose proof (end_line_bytes b false Hb) as Hl.
  assert (dash_line b ++ rest = end_line b false ++ CRLF ++ rest) as -> by (unfold dash_line, end_line; by rewrite <- !app_assoc).
  eexists. split; [|apply one_turn; [done| |apply crlf_shorter|by left]].
  2:{ cbn [md_turn]. unfold multi_decode, outermost_first_boundary_decode, outermost_first_boundary. cbn [DecodeData_new dd_is_finish_first_boundary dd_is_outermost].
    rewrite bind_st. cbn [get_st]. rewrite Hg, bind_st. cbn [put_st]. rewrite bind_st. cbn [DecodeData_new dd_set_src dd_src dd_src_idx app].
    unfold unchecked_trim. rewrite str_from_utf8_ascii.
    - rewrite trim_line, utf8_encode_ascii by done. cbn [lift_res]. change (starts_with (bs "--") (end_line b false)) with true.
      change (dropZ 2 (end_line b false)) with b. reflexivity.
    - apply Forall_app. split; [apply Forall_impl with (1 := Hl); unfold ascii; lia|repeat constructor; unfold ascii; lia]. }
  done.
Qed.

(** The fields of a part, then of an inner multipart. *)
Lemma content_type_joined h : get_content_type_boundary (joined_value <$> h) = get_content_type_boundary h.
Proof.
  unfold get_content_type_boundary, Headers_get. destruct (normalize (bs "Content-Type")) as [n|e|]; [|done..]. rewrite lookup_fmap.
  destruct (h !! n) as [v|]; [|done]. cbn [fmap option_fmap option_map]. by rewrite joined_value_vec.
Qed.

Definition headers_ok (h : Headers) : Prop := map_Forall (λ n v, field_ok (n, v)) h.

Section fields.
Context (order : Headers → list (bytes * HeaderValue)).
Hypothesis order_ok : ∀ h, order h ≡ₚ map_to_list h.

Lemma fields_shorter h (rest : bytes) : (length rest < length (fields_text (order h) ++ CRLF ++ rest))%nat.
Proof. apply crlf_shorter. Qed.

Lemma unknown_part h l m ms rest : headers_ok h → get_content_type_boundary h = None → rest ≠ [] →
  md_steps (fields_text (order h) ++ CRLF ++ rest) (mkMultiDecoder (DUnknown DecodeHeaders_new :: l) (m :: ms)) rest
    (mkMultiDecoder (DPart (init_from_multi (joined_value <$> h) (mm_boundary m)) :: l) (m :: ms)).
Proof.
  intros Hh Hc Hr. apply one_turn; [done| |apply fields_shorter|by left]. cbn [md_turn]. unfold unknown_decode.
  rewrite (dh_decode_fields order h rest (order_ok h) Hh). rewrite bind_st. cbn [lift_res]. rewrite content_type_joined, Hc. done.
Qed.

Lemma unknown_multi h b l ms rest : headers_ok h → get_content_type_boundary h = Some b → rest ≠ [] →
  md_steps (fields_text (order h) ++ CRLF ++ rest) (mkMultiDecoder (DUnknown DecodeHeaders_new :: l) ms) rest
    (mkMultiDecoder (DMulti (new_as_part b) :: l) (mkMimeMulti (joined_value <$> h) b [] :: ms)).
Proof.
  intros Hh Hc Hr. apply one_turn; [done| |apply fields_shorter|by left]. cbn [md_turn]. unfold unknown_decode.
  rewrite (dh_decode_fields order h rest (order_ok h) Hh). rewrite bind_st. cbn [lift_res]. rewrite content_type_joined, Hc. done.
Qed.

(** The body of a part. *)
Lemma part_turn h b body empty last dd l m ms rest :
  boundary_ok b → plain_lines b [] (content body empty) = true → (empty = true → body = []) → (rest ≠ [] ∨ last = true ∧ ms = []) →
  md_steps (content body empty ++ end_line b last ++ CRLF ++ rest) (mkMultiDecoder (DPart (init_from_multi h b) :: DMulti dd :: l) (m :: ms)) rest
    (let m := add_part (mkMimePart h (MOwned body 0)) m in
     if last then closed l m ms else mkMultiDecoder (DUnknown DecodeHeaders_new :: DMulti dd :: l) (m :: ms)).
Proof.
  intros Hb Hp He Hr. destruct (pd_decode_body h b body empty last rest Hb Hp He) as (p & Hd & Ht). apply one_turn; [done| | |].
  - cbn [md_turn]. unfold part_decode. rewrite Hd. rewrite bind_st. cbn [lift_res]. rewrite bind_st, bind_st.
    change (on_last_multi ?f (mkMultiDecoder ?l (m :: ms))) with (mkMultiDecoder l (f m :: ms), Ok (E := HttpError) ()).
    unfold is_last_part. rewrite Ht. destruct last; cbn [end_tag]; [by rewrite temp_multi_end_part|done].
  - rewrite app_assoc. apply crlf_shorter.
  - destruct Hr as [|[-> ->]]; [by left|right; by eexists].
Qed.

(** *** Whole messages *)

Context (unread : R → bytes).

(** What the parts must be: a part is not itself a multipart, and no line of its
    body is one of the two lines of its boundary; an inner multipart has its
    boundary in the field Content-Type. *)
Definition part_ok (b : bytes) (p : MimePart R A) : Prop :=
  headers_ok (mp_headers p) ∧ get_content_type_boundary (mp_headers p) = None ∧
  plain_lines b [] (content (mix_rest unread (mp_body p)) (Mix_is_empty (mp_body p))) = true.
Fixpoint multi_ok (m : MimeMulti R A) : Prop :=
  let 'mkMimeMulti _ b l := m in l ≠ [] ∧ boundary_ok b ∧ foldr (λ x P, xpart_ok b x ∧ P) True l
with xpart_ok (b : bytes) (x : XPart R A) : Prop :=
  match x with
  | XP p => part_ok b p
  | XM m => headers_ok (mm_headers m) ∧ get_content_type_boundary (mm_headers m) = Some (mm_boundary m) ∧ multi_ok m
  end.

(** What is read: the values of a field joined, the bodies as bytes. *)
Definition read_part (p : MimePart R A) : MimePart R' A' := mkMimePart (joined_value <$> mp_headers p) (MOwned (mix_rest unread (mp_body p)) 0).
Fixpoint read_multi (m : MimeMulti R A) : MimeMulti R' A' :=
  let 'mkMimeMulti h b l := m in mkMimeMulti (joined_value <$> h) b (map read_xpart l)
with read_xpart (x : XPart R A) : XPart R' A' :=
  match x with XP p => XP (read_part p) | XM m => XM (read_multi m) end.

Abbreviation text := (multi_text order unread).
Abbreviation parts_text b := (joined (xpart_text order unread) (CRLF ++ dash_line b) (close_delimiter b)).

Definition add_all (l : list (XPart R' A')) (m : MimeMulti R' A') : MimeMulti R' A' := mkMimeMulti (mm_headers m) (mm_boundary m) (mm_list m ++ l).

(** From the first boundary of a multipart to its end. *)
Definition reads_parts (l : list (XPart R A)) : Prop :=
  ∀ dd st m ms rest, boundary_ok (mm_boundary m) → between (mm_boundary m) dd → foldr (λ x P, xpart_ok (mm_boundary m) x ∧ P) True l → l ≠ [] → (rest ≠ [] ∨ ms = []) →
  md_steps (parts_text (mm_boundary m) l ++ rest) (mkMultiDecoder (DUnknown DecodeHeaders_new :: DMulti dd :: st) (m :: ms)) rest
    (closed st (add_all (map read_xpart l) m) ms).
Definition reads_multi (m : MimeMulti R A) : Prop := reads_parts (mm_list m).

(** What is behind a part: its delimiter and the parts that follow, or the close
    delimiter. *)
Lemma delimiter_text b (l : list (XPart R A)) rest :
  (match l with [] => close_delimiter b | _ => CRLF ++ dash_line b end ++ parts_text b l) ++ rest =
  CRLF ++ end_line b (match l with [] => true | _ => false end) ++ CRLF ++ parts_text b l ++ rest.
Proof. unfold close_delimiter, dash_line, end_line. destruct l; by rewrite <- ?app_assoc, ?app_nil_r. Qed.

Lemma parts_text_cons b (x : XPart R A) l rest :
  parts_text b (x :: l) ++ rest = xpart_text order unread x ++ CRLF ++ end_line b (match l with [] => true | _ => false end) ++ CRLF ++ parts_text b l ++ rest.
Proof. rewrite <- delimiter_text, app_assoc. f_equal. Qed.

Lemma parts_text_nonempty b (x : XPart R A) l rest : parts_text b (x :: l) ++ rest ≠ [].
Proof. rewrite parts_text_cons. by destruct (xpart_text order unread x). Qed.

Lemma xpart_read x last dd st m ms rest :
  inner reads_multi x → boundary_ok (mm_boundary m) → between (mm_boundary m) dd → xpart_ok (mm_boundary m) x → (rest ≠ [] ∨ last = true ∧ ms = []) →
  ∃ dd', between (mm_boundary m) dd' ∧
  md_steps (xpart_text order unread x ++ CRLF ++ end_line (mm_boundary m) last ++ CRLF ++ rest) (mkMultiDecoder (DUnknown DecodeHeaders_new :: DMulti dd :: st) (m :: ms)) rest
    (let m := add_xpart (read_xpart x) m in
     if last then closed st m ms else mkMultiDecoder (DUnknown DecodeHeaders_new :: DMulti dd' :: st) (m :: ms)).
Proof.
  intros Hx Hb Hd Hok Hr. set (b := mm_boundary m) in *. set (tail := end_line b last ++ CRLF ++ rest).
  assert (∀ y : bytes, y ++ tail ≠ []) as Hne by (intros y; unfold tail, end_line; destruct y; done).
  destruct x as [p|x].
  - exists dd. split; [done|]. destruct Hok as (H1 & H2 & H3).
    change (xpart_text order unread (XP p)) with (mime_part_text order unread p). unfold mime_part_text.
    assert ((fields_text (order (mp_headers p)) ++ (if Mix_is_empty (mp_body p) then [] else CRLF ++ mix_rest unread (mp_body p))) ++ CRLF ++ tail =
      fields_text (order (mp_headers p)) ++ CRLF ++ content (mix_rest unread (mp_body p)) (Mix_is_empty (mp_body p)) ++ tail) as ->.
    { unfold content. destruct (Mix_is_empty (mp_body p)); by rewrite <- ?app_assoc. }
    eapply md_steps_trans; [apply unknown_part; [done..|apply Hne]|]. apply part_turn; [done..| |done].
    intros He. destruct (mp_body p) as [[|] i|[|] i| |]; try done; cbn; unfold dropZ; by rewrite drop_nil.
  - destruct Hok as (H1 & H2 & H3). destruct x as [h b' l]. cbn [mm_headers mm_boundary] in *. destruct H3 as (Hl & Hb' & Hps).
    change (xpart_text order unread (XM (mkMimeMulti h b' l))) with (fields_text (order h) ++ CRLF ++ dash_line b' ++ match l with [] => close_delimiter b' | _ => parts_text b' l end).
    assert (match l with [] => close_delimiter b' | _ => parts_text b' l end = parts_text b' l) as -> by (by destruct l). rewrite <- !app_assoc.
    destruct (inner_first b' (DMulti dd :: st) (mkMimeMulti (joined_value <$> h) b' [] :: m :: ms) (parts_text b' l ++ CRLF ++ tail) Hb') as (di & Hdi & Hfirst).
    { rewrite app_assoc. apply Hne. }
    destruct (delimiter_line b dd st (add_multi (read_multi (mkMimeMulti h b' l)) m) ms last rest Hb Hd Hr) as (dd' & Hd' & Hline). exists dd'. split; [done|].
    eapply md_steps_trans; [apply (unknown_multi h b'); [done..|by unfold dash_line]|]. eapply md_steps_trans; [exact Hfirst|].
    eapply md_steps_trans; [apply (Hx di (DMulti dd :: st) (mkMimeMulti (joined_value <$> h) b' [])); [done..|left; apply Hne]|].
    cbn [closed]. eapply md_steps_trans; [apply (empty_line b); [done..|apply (Hne [])]|exact Hline].
Qed.

Lemma parts_read l : Forall (inner reads_multi) l → reads_parts l.
Proof.
  induction 1 as [|x l Hx _ IH]; intros dd st m ms rest Hb Hd Hok Hl Hr; [done|]. destruct Hok as [Hok Hoks].
  rewrite parts_text_cons.
  destruct (xpart_read x (match l with [] => true | _ => false end) dd st m ms (parts_text (mm_boundary m) l ++ rest) Hx Hb Hd Hok) as (dd' & Hd' & H).
  { destruct l as [|y l]; [destruct Hr; [by left|by right]|left; apply parts_text_nonempty]. }
  eapply md_steps_trans; [exact H|]. destruct l as [|y l]; [constructor|].
  replace (add_all (map read_xpart (x :: y :: l)) m) with (add_all (map read_xpart (y :: l)) (add_xpart (read_xpart x) m))
    by (unfold add_all; cbn [add_xpart mm_list map]; by rewrite <- app_assoc).
  by apply (IH dd' st (add_xpart (read_xpart x) m)).
Qed.

Lemma multi_read m : reads_multi m.
Proof. induction m as [h b l IH] using MimeMulti_nested_ind. by apply parts_read. Qed.

Lemma read_text m rest : multi_ok m →
  (md_decode (text m ++ rest) (MimeMultiDecoder_new (R := R') (A := A'))).2 = Ok (TComplete (multi_set_headers ∅ (read_multi m)), rest).
Proof.
  destruct m as [h b l]. intros (Hl & Hb & Hok).
  assert (text (mkMimeMulti h b l) ++ rest = dash_line b ++ parts_text b l ++ rest) as Ht.
  { change (text (mkMimeMulti h b l)) with (dash_line b ++ match l with [] => close_delimiter b | _ => parts_text b l end). rewrite <- app_assoc. by destruct l. }
  rewrite Ht. assert (parts_text b l ++ rest ≠ []) as Hne by (destruct l; [done|apply parts_text_nonempty]).
  destruct (outermost_first b (parts_text b l ++ rest) Hb Hne) as (dd & Hd & Hfirst).
  pose proof (multi_read (mkMimeMulti h b l) dd [] (mkMimeMulti ∅ b []) [] rest Hb Hd Hok Hl (or_intror eq_refl)) as Hparts.
  pose proof (md_steps_trans _ _ _ _ _ _ Hfirst Hparts) as Hsteps. set (buf := dash_line b ++ parts_text b l ++ rest) in *.
  assert (md_decode buf (MimeMultiDecoder_new (R := R') (A := A')) = md_loop (md_fuel buf) buf MimeMultiDecoder_new) as -> by (unfold buf, dash_line; done).
  destruct (md_steps_loop _ _ _ _ Hsteps 1%nat (md_fuel buf)) as (fuel & -> & Hf); [unfold md_fuel; lia|]. by destruct fuel; [lia|].
Qed.
End fields.
End roundtrip.

(** C6: A multipart, nested to any depth, with at least one part in every multipart,
    valid fields, boundaries of visible characters that nested multiparts declare in
    their Content-Type and that parts do not, and no line of a body that reads as
    its delimiter, is written, by readers of the bodies that do not fail, over
    buffers that together hold it, and is read back by the decoder with the same
    nesting, boundaries and fields of the parts, in order, and what is behind the
    message left over. Three things are not the same: the values of a field are
    joined into one, the fields of the outermost multipart, which are not written,
    are empty, and a body with an asynchronous reader is empty. *)
Theorem mime_roundtrip {E R A R' A' : Type} (read : Z → ST R E bytes) `{!AsyncRead E A} (order : Headers → list (bytes * HeaderValue))
    (unread : R → bytes) (m : MimeMulti R A) (rooms : list Z) (rest : bytes) :
  (∀ n r, 0 < n → ∃ r' out, read n r = (r', Ok out) ∧ unread r = out ++ unread r' ∧ len out ≤ n ∧ (out = [] → unread r = [])) →
  (∀ h, order h ≡ₚ map_to_list h) → bodies_ok (multi_parts m) → multi_ok unread m →
  Forall (λ r, 0 ≤ r) rooms → len (multi_text order unread m) ≤ sumZ rooms →
  ∃ text, me_write read rooms (from_multi order m) = Ok text ∧
    (md_decode (text ++ rest) (MimeMultiDecoder_new (R := R') (A := A'))).2 = Ok (TComplete (multi_set_headers ∅ (read_multi unread m)), rest).
Proof.
  intros Hread Ho Hb Hm Hr Hl. exists (multi_text order unread m). rewrite (me_write_text read order unread) by done.
  rewrite takeZ_all by done. split; [done|]. by apply read_text.
Qed.

Lemma fields_ok_1 k v : match normalize (bs k) with Ok n => bool_decide (n = bs k) | _ => false end && forallb name_byte (bs k) && forallb value_byte (bs v) &&
  bool_decide (trim_front_lwsp (bs v) = bs v) = true → headers_ok {[bs k := mkHeaderValue [bs v] false]}.
Proof.
  intros H. rewrite !andb_true_iff, bool_decide_eq_true, !forallb_forall in H. destruct H as [[[H1 H2] H3] H4].
  destruct (normalize (bs k)) as [n|e|] eqn:En; [|done..]. apply bool_decide_eq_true in H1 as ->. apply map_Forall_singleton.
  unfold field_ok. cbn [fst snd]. assert (HeaderValue_to_vec (mkHeaderValue [bs v] false) = bs v) as -> by (unfold HeaderValue_to_vec; cbn; by rewrite app_nil_r).
  split; [done|]. split; [|split; [|done]]; apply Forall_forall; intros b Hb; [apply H2|apply H3]; by apply list_elem_of_In.
Qed.

Lemma mime_roundtrip_witness :
  ∃ text, me_write doc_read (replicate 8 30) (from_multi doc_order doc_multi) = Ok text ∧
    (md_decode (text ++ bs "abcd") (MimeMultiDecoder_new (R := ()) (A := ()))).2 = Ok (TComplete (read_multi id doc_multi), bs "abcd").
Proof.
  destruct (mime_roundtrip (R' := ()) (A' := ()) doc_read doc_order id doc_multi (replicate 8 30) (bs "abcd") doc_read_ok) as (text & H1 & H2).
  - done.
  - by repeat constructor.
  - assert (∀ b, forallb (λ c, (33 <=? c) && (c <? 127)) b = true → boundary_ok b) as Hb.
    { intros b. rewrite forallb_forall. intros H. apply Forall_forall. intros c Hc. apply list_elem_of_In, H in Hc. lia. }
    split; [done|]. split; [by apply Hb|].
    repeat match goal with |- _ ∧ _ => split | |- foldr _ _ _ => hnf | |- xpart_ok _ _ _ => hnf | |- multi_ok _ _ => hnf | |- headers_ok _ => apply fields_ok_1; vm_compute; reflexivity | |- boundary_ok _ => by apply Hb end;
      try (vm_compute; reflexivity); try done.
  - by repeat constructor.
  - vm_compute. discriminate.
  - exists text. split; [exact H1|]. rewrite H2. reflexivity.
Defined.
