(* ===== verification/ChunkTrailer.v ===== *)
(** * Chunked bodies with trailers

    [get_trailer] of [src/ylong_http/src/body/chunk.rs], and the decoder that the
    client uses, which expects a trailer section, on bodies without trailer
    fields: it gives the same data as the automaton of [ChunkDecoder], however
    the body is cut; and bodies that are given to either decoder in two pieces. *)

From S2P Require Import Prelude Headers Body ChunkDecoder.
#[local] Open Scope Z_scope.

(** ** [get_trailer] *)

(** White space at both ends of a value, as [position] and [rposition] cut it. *)
Definition is_blank (b : Z) : bool := (b =? 32) || (b =? 9).
Fixpoint skip_blank (l : bytes) : option bytes :=
  match l with [] => None | b :: k => if is_blank b then skip_blank k else Some l end.
Definition trim_blank (l : bytes) : bytes :=
  let l := from_option id l (skip_blank l) in
  match skip_blank (reverse l) with Some r => reverse r | None => l end.

(** [&self.trailer[a..b]]. *)
Definition trailer_slice (t : bytes) (a b : Z) : result HttpError bytes :=
  if (0 <=? a) && (a <=? b) && (b <=? len t) then Ok (takeZ (b - a) (dropZ a t)) else Panic.

Record TrailerScan := mkTrailerScan { ts_colon : Z; ts_lf : Z; ts_name : bytes; ts_headers : Headers }.

(** One byte [b] at the index [i]; [None] leaves the loop. *)
Definition trailer_byte (t : bytes) (i b : Z) (s : TrailerScan) : result HttpError (option TrailerScan) :=
  if b =? 32 then Ok (Some s)
  else if (b =? 58) && (ts_colon s =? 0) then
    name ← trailer_slice t (if ts_lf s =? 0 then 0 else ts_lf s + 1) i;
    name ← normalize name;
    Ok (Some (mkTrailerScan i (ts_lf s) name (ts_headers s)))
  else if b =? 10 then
    prev ← trailer_slice t (i - 2) (i - 1);
    if bool_decide (prev = [10]) then Ok None
    else
      value ← trailer_slice t (ts_colon s + 1) (i - 1);
      value ← HeaderValue_from_bytes (trim_blank value);
      Ok (Some (mkTrailerScan 0 i (ts_name s) (<[ts_name s := value]> (ts_headers s))))
  else Ok (Some s).

Fixpoint trailer_loop (t : bytes) (i : Z) (rest : bytes) (s : TrailerScan) : result HttpError Headers :=
  match rest with
  | [] => Ok (ts_headers s)
  | b :: rest =>
      r ← trailer_byte t i b s;
      match r with None => Ok (ts_headers s) | Some s => trailer_loop t (i + 1) rest s end
  end.

Definition get_trailer (d : ChunkBodyDecoder) : result HttpError (option Headers) :=
  match cd_trailer d with
  | [] => Ok None
  | t => h ← trailer_loop t 0 t (mkTrailerScan 0 0 [] ∅); Ok (Some h)
  end.

(** The trailer of a body, read at once and in two pieces. *)
Definition decode_pieces (pieces : list bytes) (d : ChunkBodyDecoder) : result HttpError (option Headers) :=
  (fix go (l : list bytes) (d : ChunkBodyDecoder) :=
    match l with
    | [] => get_trailer d
    | b :: l => match ChunkBodyDecoder_decode b d with (d, Ok _) => go l d | (_, Err e) => Err e | (_, Panic) => Panic end
    end) pieces d.
Definition expecting_trailer : ChunkBodyDecoder := contains_trailer true ChunkBodyDecoder_new.

Example trailer_decode :
  let head := bs "1" ++ [13; 10] ++ bs "a" ++ [13; 10] ++ bs "0" in
  let tail := [13; 10] ++ bs "Accept: text/html" ++ [13; 10] ++ bs "a:b" ++ [13; 10; 13; 10] in
  let h : Headers := {[bs "accept" := mkHeaderValue [bs "text/html"] false; bs "a" := mkHeaderValue [bs "b"] false]} in
  decode_pieces [head ++ tail] expecting_trailer = Ok (Some h) ∧ decode_pieces [head; tail] expecting_trailer = Err InvalidInput.
Proof. vm_compute. by split. Qed.

(** A cut between the CR and the LF of a trailer field loses the next one. *)
Example trailer_cut_loses_field :
  let h : Headers := {[bs "a" := mkHeaderValue [bs "b"] false]} in
  decode_pieces [bs "0" ++ [13; 10] ++ bs "a:b" ++ [13]; [10] ++ bs "c:d" ++ [13; 10; 13; 10]] expecting_trailer = Ok (Some h) ∧
  decode_pieces [bs "0" ++ [13; 10] ++ bs "a:b" ++ [13; 10] ++ bs "c:d" ++ [13; 10; 13; 10]] expecting_trailer =
    Ok (Some (<[bs "c" := mkHeaderValue [bs "d"] false]> h)).
Proof. vm_compute. by split. Qed.

(** ** The decoder that expects a trailer

    Up to the last chunk it is the decoder without trailers: only the digit 0
    looks at [is_trailer]. *)

Definition T (d : ChunkBodyDecoder) : ChunkBodyDecoder := contains_trailer true d.
Definition on_T {A : Type} (x : ChunkBodyDecoder * result HttpError A) : ChunkBodyDecoder * result HttpError A := (T x.1, x.2).

Definition blind {A} (m : ST ChunkBodyDecoder HttpError A) : Prop := ∀ d, m (T d) = on_T (m d).

Lemma blind_bind {A B} (m : ST ChunkBodyDecoder HttpError A) (k : A → ST ChunkBodyDecoder HttpError B) :
  blind m → (∀ a, blind (k a)) → blind (a ← m; k a).
Proof. intros Hm Hk d. rewrite !bind_st, Hm. destruct (m d) as [d' [a|e|]]; [apply Hk|done..]. Qed.

Lemma blind_get {B} (k : ChunkBodyDecoder → ST ChunkBodyDecoder HttpError B) :
  (∀ d, k (T d) (T d) = on_T (k d d)) → blind (d ← get_st; k d).
Proof. intros Hk d. rewrite !bind_st. apply Hk. Qed.

Lemma blind_cr : blind decode_cr.
Proof. apply blind_get. intros d. change (cr_meet (T d)) with (cr_meet d). by destruct (cr_meet d). Qed.
Lemma blind_lf : blind decode_lf.
Proof. apply blind_get. intros d. change (cr_meet (T d)) with (cr_meet d). by destruct (cr_meet d). Qed.

Lemma blind_last_crlf data buf : blind (last_crlf_loop data buf).
Proof.
  induction buf as [|b buf IH]; [done|]. cbn [last_crlf_loop]. destruct (b =? CR); [apply blind_bind; [apply blind_cr|done]|].
  destruct (b =? LF); [|done]. apply blind_bind; [apply blind_lf|done].
Qed.

Lemma blind_skip_last data buf : blind (skip_last_crlf data buf).
Proof. apply blind_bind; [done|]. intros _. apply blind_last_crlf. Qed.

Lemma blind_data buf : blind (decode_data buf).
Proof.
  apply blind_bind; [done|]. intros _. apply blind_get. intros d. destruct buf as [|b buf]; [done|].
  change (rest_size (T d)) with (rest_size d). change (total_size (T d)) with (total_size d). change (hex_count (T d)) with (hex_count d).
  cbv zeta. destruct (rest_size d <=? len (b :: buf)); [|done]. rewrite !bind_st. cbn [put_st].
  change (set_cr_meet false (set_sizes ?a ?b ?c (T ?d))) with (T (set_cr_meet false (set_sizes a b c d))).
  apply blind_skip_last.
Qed.

Lemma blind_crlf buf : blind (crlf_loop buf).
Proof.
  induction buf as [|b buf IH]; [done|]. cbn [crlf_loop]. destruct (b =? CR); [apply blind_bind; [apply blind_cr|done]|].
  destruct (b =? LF); [|done]. apply blind_bind; [apply blind_lf|]. intros _. apply blind_data.
Qed.

Lemma blind_skip_crlf buf : blind (skip_crlf buf).
Proof. apply blind_bind; [done|]. intros _. apply blind_crlf. Qed.

Lemma blind_ext buf : blind (skip_chunk_ext buf).
Proof.
  induction buf as [|b buf IH]; [done|]. cbn [skip_chunk_ext]. destruct (b =? CR); [apply blind_bind; [apply blind_cr|intros _; apply blind_skip_crlf]|].
  destruct (b =? LF); [apply blind_bind; [apply blind_lf|intros _; apply blind_skip_crlf]|done].
Qed.

(** The states without trailer of the decoder that expects one. *)
Definition plain (d : ChunkBodyDecoder) : Prop := is_chunk_trailer d = false.

Lemma skip_extension_T buf d : plain d → skip_extension buf (T d) = on_T (skip_extension buf d).
Proof.
  intros Hd. unfold skip_extension. rewrite !bind_st. cbn [modify_st]. rewrite !bind_st. cbn [get_st].
  change (is_chunk_trailer (set_stage SExtension (T d))) with (is_chunk_trailer d). change (is_chunk_trailer (set_stage SExtension d)) with (is_chunk_trailer d).
  rewrite Hd. apply (blind_ext buf (set_stage SExtension d)).
Qed.

Lemma special_T buf d : plain d → decode_special_char buf (T d) = on_T (decode_special_char buf d).
Proof.
  intros Hd. unfold decode_special_char. rewrite !bind_st. cbn [get_st]. change (is_chunk_trailer (T d)) with (is_chunk_trailer d). rewrite Hd.
  change (hex_count (T d)) with (hex_count d). destruct (hex_count d =? 0); rewrite !bind_st; cbn [put_st].
  - apply (skip_extension_T buf (set_last_chunk true (set_digit_flags (chunk_flag d) false (set_sizes (hex_count d) (rest_size d) 0 d)))). done.
  - apply (skip_extension_T buf (set_sizes (hex_count d) (hex_count d) 0 (set_digit_flags (chunk_flag d) false (set_sizes (hex_count d) (rest_size d) 0 d)))). done.
Qed.

(** The states with a trailer, behind the digit of the last chunk. *)
Definition X (num : Z) (cr last tcrlf : bool) (s : Stage) : ChunkBodyDecoder :=
  mkChunkBodyDecoder num 0 0 0 [] cr false false last true true tcrlf s.

Inductive relX (num : Z) : Auto → ChunkBodyDecoder → Prop :=
  | relX_ext tc : relX num (AExt 0) (X num false false tc SExtension)
  | relX_lf tc : relX num (ALf 0) (X num true false tc STrailerCrlf)
  | relX_end : relX num (AEnd 0 false) (X num false false true STrailerData)
  | relX_cr tc : relX num (AEnd 0 true) (X num true true tc STrailerEndCrlf).

(** The outcome of a stage; nothing is said of a body with trailer fields, which
    the automaton refuses. *)
Definition trailer_ok (num : Z) (t : bytes * TurnEnd) (out : ChunkBodyDecoder * result HttpError (Chunk * bytes)) : Prop :=
  match t with
  | (data, TMore a) => data = [] ∧ ∃ d c, out = (d, Ok (c, [])) ∧ relX num a d ∧ is_complete c = false ∧ ck_trailer c = Some []
  | (data, TChunk n rest) => data = [] ∧ n = 0 ∧ ∃ tc, out = (X num false true tc STrailerEndCrlf, Ok (sized_chunk [] (Some []) 0 CFinish, rest))
  | (_, TBad) => True
  end.

Lemma trailer_more num a d c : relX num a d → is_complete c = false → ck_trailer c = Some [] → trailer_ok num ([], TMore a) (d, Ok (c, [])).
Proof. intros. split; [done|]. by exists d, c. Qed.

Lemma trailer_cr_ok num tc buf : trailer_ok num (turn (AEnd 0 true) buf) (trailer_last_crlf_loop [] buf (X num true true tc STrailerEndCrlf)).
Proof.
  destruct buf as [|b buf]; [apply trailer_more; [constructor|done..]|]. cbn [turn step trailer_last_crlf_loop]. destruct (b =? CR); [done|].
  destruct (b =? LF); [|done]. split; [done|]. split; [done|]. by exists tc.
Qed.

Lemma trailer_end_ok num s buf : trailer_ok num (turn (AEnd 0 false) buf) (decode_trailer_data buf (X num false false true s)).
Proof.
  unfold decode_trailer_data. rewrite bind_st. cbn [modify_st]. destruct buf as [|b buf]; [apply trailer_more; [constructor|done..]|].
  cbn [turn step]. destruct (Z.eqb_spec b CR) as [->|Hb]; [|by rewrite andb_false_r]. apply (trailer_cr_ok num true buf).
Qed.

Lemma trailer_lf_ok num tc buf : trailer_ok num (turn (ALf 0) buf) (trailer_crlf_loop buf (X num true false tc STrailerCrlf)).
Proof.
  destruct buf as [|b buf]; [apply trailer_more; [constructor|done..]|]. cbn [turn step trailer_crlf_loop].
  destruct (Z.eqb_spec b CR) as [->|_]; [done|]. destruct (b =? LF); [|done]. apply (trailer_end_ok num STrailerCrlf buf).
Qed.

Lemma trailer_ext_ok num tc buf : trailer_ok num (turn (AExt 0) buf) (skip_trailer_ext buf (X num false false tc SExtension)).
Proof.
  induction buf as [|b buf IH]; [apply trailer_more; [constructor|done..]|]. cbn [turn step skip_trailer_ext].
  destruct (b =? CR); [apply (trailer_lf_ok num tc buf)|]. by destruct (b =? LF).
Qed.

Lemma relX_stage num a d buf : relX num a d → trailer_ok num (turn a buf) (decode_stage buf d).
Proof.
  destruct 1 as [tc|tc| |tc]; [apply trailer_ext_ok|apply trailer_lf_ok|apply trailer_end_ok|apply trailer_cr_ok].
Qed.

(** The size of a chunk: as without trailers, or the 0 of the last chunk is found
    together with the byte behind it. *)
Lemma blind_add_digit k : blind (add_digit k).
Proof. apply blind_get. intros d. change (hex_count (T d)) with (hex_count d). rewrite !bind_st. by destruct (hex_to_decimal (hex_count d) k). Qed.

Definition size_T (num n : Z) (cf nf : bool) : ChunkBodyDecoder := D num 0 0 n false cf nf false SSize.

Lemma ends_size_turn c rest : ends_size (c :: rest) = true → turn (ASize 0) (c :: rest) = turn (AExt 0) (c :: rest).
Proof.
  cbn [ends_size]. rewrite !orb_true_iff, !Z.eqb_eq. intros [[->| ->]| ->]; reflexivity.
Qed.

Lemma turn_digit n b k buf : digit_value b = Some k → turn (ASize n) (b :: buf) = if n * 16 + k <=? I64_MAX then turn (ASize (n * 16 + k)) buf else ([], TBad).
Proof. intros Hk. cbn [turn step]. rewrite Hk. by destruct (n * 16 + k <=? I64_MAX). Qed.

Lemma size_loop_T num n cf nf buf : 0 ≤ n → (cf = false → nf = false → n = 0) →
  size_loop buf (T (size_T num n cf nf)) = on_T (size_loop buf (size_T num n cf nf)) ∨
  trailer_ok num (turn (ASize n) buf) (size_loop buf (T (size_T num n cf nf))).
Proof.
  unfold size_T. revert n cf nf. induction buf as [|b buf IH]; intros n cf nf Hn Hflags; [by left|]. cbn [size_loop].
  assert (∀ k cf' nf' (m : ChunkBodyDecoder → ChunkBodyDecoder), digit_value b = Some k → 0 ≤ k →
    (∀ x, m (D num 0 0 x false cf nf false SSize) = D num 0 0 x false cf' nf' false SSize) →
    (∀ d, m (T d) = T (m d)) → (cf' = false → nf' = false → n * 16 + k = 0) →
    (_ ← add_digit k; _ ← modify_st m; size_loop buf) (T (D num 0 0 n false cf nf false SSize)) = on_T ((_ ← add_digit k; _ ← modify_st m; size_loop buf) (D num 0 0 n false cf nf false SSize)) ∨
    trailer_ok num (turn (ASize n) (b :: buf)) ((_ ← add_digit k; _ ← modify_st m; size_loop buf) (T (D num 0 0 n false cf nf false SSize)))) as Hdigit.
  { intros k cf' nf' m Hb Hk Hm HmT Hf. rewrite (turn_digit n b k) by done. rewrite !bind_st, blind_add_digit, add_digit_eq by lia.
    destruct (n * 16 + k <=? I64_MAX); [|by left]. cbn [on_T fst snd]. rewrite !bind_st. cbn [modify_st]. rewrite HmT, Hm. apply (IH (n * 16 + k) cf' nf'); [lia|auto]. }
  destruct (Z.eqb_spec b 48) as [->|Hb].
  - pose proof (Hdigit 0 cf nf id eq_refl ltac:(lia) (λ x, eq_refl) (λ d, eq_refl)) as H0.
    change (_ ← modify_st id; size_loop buf) with (size_loop buf) in H0. specialize (H0 ltac:(intros; rewrite Hflags by done; done)).
    destruct (ends_size buf) eqn:Ee; cbn [negb]; [|exact H0].
    destruct cf; [exact H0|]. destruct nf; [exact H0|]. rewrite Hflags by done. right. rewrite (turn_digit 0 48 0) by done.
    change (0 * 16 + 0 <=? I64_MAX) with true. cbv iota. change (0 * 16 + 0) with 0. destruct buf as [|c rest]; [done|]. rewrite ends_size_turn by done.
    apply (trailer_ext_ok num false (48 :: c :: rest)).
  - destruct (hex_digit b) as [k|] eqn:Ek.
    + apply (Hdigit k true true); [unfold digit_value; by destruct (Z.eqb_spec b 48)|apply hex_digit_range in Ek; lia|done..].
    + destruct (is_special b); [|by left]. left. by apply special_T.
Qed.

(** The states of the decoder that expects a trailer: those without trailer, with
    a flag for every size that is not 0, and those behind the last size. *)
Definition flagged (a : Auto) (d : ChunkBodyDecoder) : Prop := match a with ASize n => num_flag d = false → n = 0 | _ => True end.
Definition relT (num : Z) (a : Auto) (d : ChunkBodyDecoder) : Prop := (∃ d0, rel num a d0 ∧ flagged a d0 ∧ d = T d0) ∨ relX num a d.

Lemma turn_size a buf n : (∀ m, a ≠ ASize m) → (turn a buf).2 ≠ TMore (ASize n).
Proof.
  revert a. induction buf as [|b buf IH]; intros a Ha; [cbn; intros [= ->]; by apply (Ha n)|]. cbn [turn].
  destruct (step a b) as [[a' [[c|m]|]]|] eqn:Es; [| |apply IH|done].
  - assert (∀ m, a' ≠ ASize m) as Ha' by (intros m ->; destruct a; cbn in Es; repeat case_match; simplify_eq).
    specialize (IH a' Ha'). by destruct (turn a' buf).
  - done.
  - intros m ->. destruct a as [m'| | | |]; [by apply (Ha m')|..]; cbn in Es; repeat case_match; simplify_eq.
Qed.

Lemma size_loop_more num n cf nf buf data n' : 0 ≤ n → turn (ASize n) buf = (data, TMore (ASize n')) → (nf = false → n = 0) →
  ∃ cf' nf' c, size_loop buf (D num 0 0 n false cf nf false SSize) = (D num 0 0 n' false cf' nf' false SSize, Ok (c, [])) ∧ (nf' = false → n' = 0).
Proof.
  revert n cf nf. induction buf as [|b buf IH]; intros n cf nf Hn Ht Hnf; [cbn in *; simplify_eq; eauto|].
  assert (∀ k cf' nf', digit_value b = Some k → 0 ≤ k → (nf' = false → n * 16 + k = 0) →
    ∃ cf2 nf2 c, (let '(d, r) := add_digit k (D num 0 0 n false cf nf false SSize) in
      match r with Ok _ => size_loop buf (set_digit_flags cf' nf' d) | Err e => (d, Err e) | Panic => (d, Panic) end) =
      (D num 0 0 n' false cf2 nf2 false SSize, Ok (c, [])) ∧ (nf2 = false → n' = 0)) as Hdigit.
  { intros k cf' nf' Hb Hk Hz. rewrite (turn_digit n b k) in Ht by done. rewrite add_digit_eq by lia. destruct (n * 16 + k <=? I64_MAX); [|done].
    apply (IH (n * 16 + k) cf' nf'); [lia|done|done]. }
  cbn [size_loop]. destruct (Z.eqb_spec b 48) as [->|Hb].
  - assert (∃ cf2 nf2 c, (_ ← add_digit 0; size_loop buf) (D num 0 0 n false cf nf false SSize) = (D num 0 0 n' false cf2 nf2 false SSize, Ok (c, [])) ∧ (nf2 = false → n' = 0)) as H0.
    { rewrite bind_st. pose proof (Hdigit 0 cf nf eq_refl ltac:(lia) ltac:(intros; rewrite Hnf by done; done)) as H. rewrite add_digit_eq in * by lia. by destruct (n * 16 + 0 <=? I64_MAX). }
    destruct (ends_size buf); exact H0.
  - assert (digit_value b = hex_digit b) as Hd by (unfold digit_value; by destruct (Z.eqb_spec b 48)).
    destruct (hex_digit b) as [k|] eqn:Ek.
    + pose proof (hex_digit_range b k Ek). pose proof (Hdigit k true true Hd ltac:(lia) ltac:(done)) as H0. rewrite bind_st. rewrite add_digit_eq in * by lia.
      destruct (n * 16 + k <=? I64_MAX); [|done]. rewrite bind_st. exact H0.
    + exfalso. cbn [turn step] in Ht. rewrite Hd in Ht. destruct (b =? CR); [by apply (f_equal snd), turn_size in Ht|]. destruct (b =? LF); [done|].
      destruct (is_special b); [by apply (f_equal snd), turn_size in Ht|done].
Qed.

Lemma stage_T num a d buf : relT num a d →
  (∃ d0, d = T d0 ∧ rel num a d0 ∧ decode_stage buf d = on_T (decode_stage buf d0) ∧
     ∀ data n' d' c, turn a buf = (data, TMore (ASize n')) → decode_stage buf d0 = (d', Ok (c, [])) → flagged (ASize n') d') ∨
  trailer_ok num (turn a buf) (decode_stage buf d).
Proof.
  intros [(d0 & Hr & Hf & ->)|Hx]; [|right; by apply relX_stage].
  assert (∀ m, (∀ n, a ≠ ASize n) → decode_stage buf (T d0) = on_T (m d0) → decode_stage buf d0 = m d0 →
    (∃ d1, T d0 = T d1 ∧ rel num a d1 ∧ decode_stage buf (T d0) = on_T (decode_stage buf d1) ∧
      ∀ data n' d' c, turn a buf = (data, TMore (ASize n')) → decode_stage buf d1 = (d', Ok (c, [])) → flagged (ASize n') d')) as Hother.
  { intros m Ha H1 H2. exists d0. split; [done|]. split; [done|]. split; [by rewrite H1, H2|]. intros data n' d' c Ht _. by apply (f_equal snd), turn_size in Ht. }
  destruct Hr as [n cf nf Hn|n cf nf Hn|n cf nf Hn|n r cf nf Hn Hr|n cr cf nf Hn|n cf nf Hn].
  - destruct buf as [|b buf]; [left; eexists; split; [reflexivity|]; split; [by constructor|]; split; [done|]; cbn; intros ? ? ? ? [= <- <-] [= <- <-]; done|].
    change (decode_stage (b :: buf) (T (D num 0 0 n false cf nf false SSize))) with (size_loop (b :: buf) (T (size_T num n false nf))).
    destruct (size_loop_T num n false nf (b :: buf) Hn ltac:(intros _; exact Hf)) as [He|He]; [left|by right].
    exists (D num 0 0 n false cf nf false SSize). split; [done|]. split; [by constructor|]. split; [exact He|]. intros data n' d' c Ht.
    change (decode_stage (b :: buf) (D num 0 0 n false cf nf false SSize)) with (size_loop (b :: buf) (D num 0 0 n false false nf false SSize)).
    destruct (size_loop_more num n false nf (b :: buf) data n' Hn Ht Hf) as (cf' & nf' & c' & -> & Hn'). by intros [= <- <-].
  - left. apply (Hother (skip_extension buf)); [done| |done]. by apply skip_extension_T.
  - left. apply (Hother (skip_crlf buf)); [done|apply blind_skip_crlf|done].
  - left. apply (Hother (decode_data buf)); [done|apply blind_data|done].
  - left. apply (Hother (skip_last_crlf [] buf)); [done|apply blind_skip_last|done].
  - left. apply (Hother (decode_data buf)); [done|apply blind_data|done].
Qed.

(** ** What a chunk that is not complete tells

    Its size is the one that is stored, and its state is [MetaSize] while the
    size is read. *)
Definition viewed (x : ChunkBodyDecoder * result HttpError (Chunk * bytes)) : Prop :=
  match x with
  | (d, Ok (c, _)) => is_complete c = false → ck_size c = total_size d ∧ (stage d = SSize → ck_state c = CMetaSize)
  | _ => True
  end.

Lemma viewed_cr m s d : stage d = s → (∀ d', stage d' = s → viewed (m d')) → viewed ((_ ← decode_cr; m) d).
Proof. intros Hs Hm. rewrite bind_st. unfold decode_cr. rewrite bind_st. cbn [get_st]. by destruct (cr_meet d); [|apply Hm]. Qed.
Lemma viewed_lf m s d : stage d = s → (∀ d', stage d' = s → viewed (m d')) → viewed ((_ ← decode_lf; m) d).
Proof. intros Hs Hm. rewrite bind_st. unfold decode_lf. rewrite bind_st. cbn [get_st]. by destruct (cr_meet d); [apply Hm|]. Qed.

Lemma viewed_last_crlf data buf d : stage d = SDataEnd → viewed (last_crlf_loop data buf d).
Proof.
  revert d. induction buf as [|b buf IH]; intros d Hs; cbn [last_crlf_loop].
  - rewrite bind_st. cbn. rewrite Hs. done.
  - destruct (b =? CR); [by apply (viewed_cr _ SDataEnd)|]. destruct (b =? LF); [|done]. by apply (viewed_lf _ SDataEnd).
Qed.

Lemma viewed_data buf d : viewed (decode_data buf d).
Proof.
  unfold decode_data. rewrite bind_st. cbn [modify_st]. rewrite bind_st. cbn [get_st]. destruct buf as [|b buf]; [done|]. cbv zeta.
  destruct (_ <=? _); rewrite bind_st; cbn [put_st]; [|done]. unfold skip_last_crlf. rewrite bind_st. by apply viewed_last_crlf.
Qed.

Lemma viewed_crlf buf d : stage d = SSizeEnd → viewed (crlf_loop buf d).
Proof.
  revert d. induction buf as [|b buf IH]; intros d Hs; cbn [crlf_loop].
  - rewrite bind_st. cbn. by rewrite Hs.
  - destruct (b =? CR); [by apply (viewed_cr _ SSizeEnd)|]. destruct (b =? LF); [|done]. apply (viewed_lf _ SSizeEnd); [done|]. intros; apply viewed_data.
Qed.
Lemma viewed_skip_crlf buf d : viewed (skip_crlf buf d).
Proof. unfold skip_crlf. rewrite bind_st. by apply viewed_crlf. Qed.

Lemma viewed_ext buf d : stage d = SExtension → viewed (skip_chunk_ext buf d).
Proof.
  intros Hs. induction buf as [|b buf IH]; cbn [skip_chunk_ext].
  - rewrite bind_st. cbn. by rewrite Hs.
  - destruct (b =? CR); [apply (viewed_cr _ SExtension); [done|]; intros; apply viewed_skip_crlf|].
    destruct (b =? LF); [apply (viewed_lf _ SExtension); [done|]; intros; apply viewed_skip_crlf|done].
Qed.

Lemma viewed_skip_extension buf d : plain d → viewed (skip_extension buf d).
Proof.
  intros Hd. unfold skip_extension. rewrite bind_st. cbn [modify_st]. rewrite bind_st. cbn [get_st]. change (is_chunk_trailer (set_stage SExtension d)) with (is_chunk_trailer d).
  rewrite Hd. by apply viewed_ext.
Qed.

Lemma viewed_size num n cf nf buf : 0 ≤ n → viewed (size_loop buf (D num 0 0 n false cf nf false SSize)).
Proof.
  revert n cf nf. induction buf as [|b buf IH]; intros n cf nf Hn; [done|]. cbn [size_loop].
  assert (∀ m k, 0 ≤ k → (0 ≤ n * 16 + k → viewed (m (D num 0 0 (n * 16 + k) false cf nf false SSize))) → viewed ((_ ← add_digit k; m) (D num 0 0 n false cf nf false SSize))) as Hdigit.
  { intros m k Hk Hm. rewrite bind_st, add_digit_eq by lia. destruct (_ <=? _); [apply Hm; lia|done]. }
  destruct (b =? 48).
  - assert (viewed ((_ ← add_digit 0; size_loop buf) (D num 0 0 n false cf nf false SSize))) as H by (apply Hdigit; [lia|]; intros; by apply IH).
    destruct (negb (ends_size buf)); [exact H|]. rewrite bind_st. exact H.
  - destruct (hex_digit b) as [k|] eqn:Ek.
    + apply hex_digit_range in Ek. apply Hdigit; [lia|]. intros. rewrite bind_st. by apply (IH (n * 16 + k) true true).
    + destruct (is_special b); [|done]. unfold decode_special_char. rewrite bind_st. cbn [get_st].
      change (is_chunk_trailer (D num 0 0 n false cf nf false SSize)) with false. cbv iota zeta. destruct (hex_count _ =? 0); rewrite bind_st; by apply viewed_skip_extension.
Qed.

Lemma viewed_stage num a d buf : rel num a d → viewed (decode_stage buf d).
Proof.
  destruct 1 as [n cf nf Hn|n cf nf Hn|n cf nf Hn|n r cf nf Hn Hr|n cr cf nf Hn|n cf nf Hn].
  - destruct buf as [|b buf]; [done|]. by apply (viewed_size num n false nf (b :: buf)).
  - by apply viewed_skip_extension.
  - apply viewed_skip_crlf.
  - apply viewed_data.
  - by apply viewed_last_crlf.
  - apply viewed_data.
Qed.

(** ** What the client makes of the chunks

    The loop of [merge_chunks] of [async_impl/http_body.rs]: the data, and
    whether the body has ended; a chunk of size 0 whose size is read ends the
    loop. *)
Fixpoint merge_loop (cs : list Chunk) (finished : bool) (data : bytes) : bytes * bool :=
  match cs with
  | [] => (data, finished)
  | c :: cs =>
      match ck_trailer c with
      | Some _ => merge_loop cs (if bool_decide (ck_state c = CFinish) then true else finished) data
      | None =>
          if (ck_size c =? 0) && negb (bool_decide (ck_state c = CMetaSize)) then (data, true)
          else merge_loop cs finished (data ++ ck_data c)
      end
  end.

Definition event_data (e : Event) : bytes := match e with EvData b => [b] | EvChunk _ => [] end.
Definition data_of (es : list Event) : bytes := es ≫= event_data.

(** The size 0 is read. *)
Definition last_state (a : Auto) : Prop := match a with AExt n | ALf n | AEnd n _ => n = 0 | _ => False end.
Definition sized (a : Auto) : Prop := match a with ASize n | AExt n | ALf n | AEnd n _ => 0 ≤ n | AData n _ => 0 < n end.

Lemma rel_sized num a d : rel num a d → sized a.
Proof. by destruct 1. Qed.

Lemma data_of_data l : data_of (map EvData l) = l.
Proof. induction l as [|b l IH]; [done|]. cbn. by rewrite <- IH at 2. Qed.
Lemma data_of_app a b : data_of (a ++ b) = data_of a ++ data_of b.
Proof. apply bind_app. Qed.

(** A chunk of size 0 has no data. *)
Definition big (a : Auto) : Prop := match a with AData n _ | AEnd n _ => 0 < n | _ => False end.
Definition zero_end (o : TurnEnd) : Prop := match o with TMore a => last_state a | TChunk n _ => n = 0 | TBad => False end.

Lemma turn_no_data a buf : sized a → zero_end (turn a buf).2 → (turn a buf).1 = [] ∧ ¬ big a.
Proof.
  revert a. induction buf as [|b buf IH]; intros a Ha Hz; [cbn in *; split; [done|]; destruct a; cbn in *; lia|].
  assert (∀ a', step a b = Some (a', None) → sized a' → (big a → big a') → (turn a (b :: buf)).1 = [] ∧ ¬ big a) as Hgo.
  { intros a' Hs Ha' Hb. cbn [turn] in *. rewrite Hs in *. destruct (IH a' Ha' Hz). auto. }
  destruct a as [n|n|n|n r|n cr]; cbn [sized] in Ha.
  - destruct (step (ASize n) b) as [[a' e]|] eqn:Es; [|cbn [turn] in Hz; by rewrite Es in Hz].
    assert (e = None ∧ sized a') as [-> Ha'].
    { cbn in Es. destruct (digit_value b) as [k|] eqn:Ek; [|repeat case_match; by simplify_eq].
      assert (0 ≤ k) by (unfold digit_value in Ek; destruct (b =? 48); [by simplify_eq|apply hex_digit_range in Ek; lia]).
      destruct (_ <=? _); [|done]. simplify_eq. split; [done|]. cbn. lia. }
    by apply (Hgo a').
  - destruct (step (AExt n) b) as [[a' e]|] eqn:Es; [|cbn [turn] in Hz; by rewrite Es in Hz]. cbn in Es. repeat case_match; simplify_eq; by eapply Hgo.
  - cbn [turn step] in *. destruct (b =? LF) eqn:Eb; [|done]. destruct (Z.eqb_spec n 0) as [->|Hn].
    + apply (Hgo (AEnd 0 false)); [done|cbn; lia|done].
    + apply (Hgo (AData n n)); [done|cbn; lia|done].
  - exfalso. cbn [turn step] in Hz. destruct (r =? 1).
    + destruct (IH (AEnd n false)) as [_ H]; [cbn; lia|by destruct (turn (AEnd n false) buf)|]. apply H. exact Ha.
    + destruct (IH (AData n (r - 1))) as [_ H]; [cbn; lia|by destruct (turn (AData n (r - 1)) buf)|]. apply H. exact Ha.
  - cbn [turn step] in *. destruct (b =? CR) eqn:Eb.
    + destruct cr; [done|]. apply (Hgo (AEnd n true)); done.
    + destruct ((b =? LF) && cr); [|done]. cbn in *. split; [done|lia].
Qed.

Definition is_done (o : End) : Prop := match o with Done _ => True | _ => False end.

(** A decoder that makes nothing of nothing. *)
Definition idle (d : ChunkBodyDecoder) : Prop :=
  match ChunkBodyDecoder_decode [] d with (_, Ok (cs, junk)) => junk = [] ∧ (merge_loop cs false []).1 = [] | _ => False end.

(** The decoder that expects a trailer gives the data of the automaton; it tells
    the end when the automaton is done, and before only behind the last size. *)
Definition merged (num : Z) (before : list Chunk) (r : list Event * End) (out : ChunkBodyDecoder * result HttpError (list Chunk * bytes)) : Prop :=
  ∃ d cs rest fin, out = (d, Ok (before ++ cs, rest)) ∧ (∀ acc, merge_loop cs false acc = (acc ++ data_of r.1, fin)) ∧
    match r.2 with
    | Done k => rest = k ∧ fin = true ∧ idle d
    | More a => rest = [] ∧ (fin = true → last_state a) ∧ ∃ num', relT num' a d
    | Bad => True
    end.

Lemma merged_one num before es o d c rest (fin : bool) :
  (∀ acc, merge_loop [c] false acc = (acc ++ data_of es, fin)) →
  match o with Done k => rest = k ∧ fin = true ∧ idle d | More a => rest = [] ∧ (fin = true → last_state a) ∧ (∃ num', relT num' a d) | Bad => True end →
  merged num before (es, o) (d, Ok (before ++ [c], rest)).
Proof. intros Hm Ho. by exists d, [c], rest, fin. Qed.

Lemma rel_total num a d : rel num a d → stage d ≠ SSize → total_size d = 0 → last_state a.
Proof. destruct 1; cbn; intros; try done; lia. Qed.

(** A turn whose chunk is not complete. *)
Lemma merged_more num before a d0 a' d' c data buf :
  rel num a d0 → turn a buf = (data, TMore a') → decode_stage buf d0 = (d', Ok (c, [])) → rel num a' d' → flagged a' d' →
  ck_data c = data → is_complete c = false → ck_trailer c = None →
  merged num before (map EvData data, More a') (T d', Ok (before ++ [set_id num c], [])).
Proof.
  intros Hr Ht Hs Hr' Hf Hd Hc Htr. pose proof (viewed_stage num a d0 buf Hr) as Hv. rewrite Hs in Hv. destruct (Hv Hc) as [Hsize Hstate].
  pose proof (turn_no_data a buf (rel_sized num a d0 Hr)) as Hz. rewrite Ht in Hz. cbn [fst snd zero_end] in Hz.
  set (fin := (ck_size c =? 0) && negb (bool_decide (ck_state c = CMetaSize))).
  assert (fin = true → last_state a') as Hlast.
  { unfold fin. rewrite andb_true_iff, negb_true_iff, Z.eqb_eq, bool_decide_eq_false. intros [H1 H2]. apply (rel_total num a' d' Hr'); [|lia]. intros ?. by apply H2, Hstate. }
  apply (merged_one num before (map EvData data) (More a') (T d') (set_id num c) [] fin).
  - intros acc. cbn [merge_loop set_id ck_trailer ck_size ck_state ck_data]. rewrite Htr. fold fin. rewrite data_of_data.
    destruct fin; [|by rewrite Hd]. destruct Hz as [-> _]; [by apply Hlast|]. by rewrite app_nil_r.
  - split; [done|]. split; [done|]. exists num. left. by exists d'.
Qed.

(** A complete chunk, and what follows it. *)
Lemma merged_cons num num' before c n es o out :
  ck_trailer c = None → ck_size c = n → n ≠ 0 → merged num' (before ++ [c]) (es, o) out → merged num before (map EvData (ck_data c) ++ EvChunk n :: es, o) out.
Proof.
  intros Ht Hn Hne (d & cs & rest & fin & -> & Hm & Ho). exists d, (c :: cs), rest, fin. split; [by rewrite <- app_assoc|]. split; [|done].
  intros acc. cbn [merge_loop]. rewrite Ht, Hn. destruct (Z.eqb_spec n 0); [done|]. cbn [andb fst]. rewrite Hm. cbn [fst].
  rewrite data_of_app, data_of_data, <- app_assoc. done.
Qed.

(** Behind the last size: no more data. *)
Lemma trailer_loop_ok fuel num before a d buf : (run a buf).2 ≠ Bad → trailer_ok num (turn a buf) (decode_stage buf d) → merged num before (run a buf) (decode_loop (S fuel) before buf d).
Proof.
  intros Hb Ht. cbn [decode_loop]. rewrite bind_st. rewrite run_turn in *. destruct (turn a buf) as [data [a'|n rest|]]; [| |done]; cbn [trailer_ok] in Ht.
  - destruct Ht as (-> & d' & c & -> & Hx' & Hc & Htr). rewrite bind_st. cbn [get_st]. rewrite bind_st. cbn [ck_trailer set_id]. rewrite Htr. cbn [modify_st].
    assert (merge_trailer (ck_state (set_id (chunk_num d') c)) [] d' = d') as ->.
    { unfold merge_trailer. destruct Hx'; cbn [X cd_trailer]; by destruct (bool_decide _ || bool_decide _). }
    rewrite bind_st. unfold match_decode_result. rewrite bind_st. cbn [get_st]. change (is_complete (set_id (chunk_num d') c)) with (is_complete c). rewrite Hc.
    assert (is_chunk_trailer d' = true) as -> by (by destruct Hx'). cbn [andb ck_state set_id].
    assert (∀ acc, merge_loop [set_id (chunk_num d') c] false acc = (acc ++ data_of (map EvData []), false)) as Hm.
    { intros acc. cbn [merge_loop set_id ck_trailer ck_state]. rewrite Htr. unfold is_complete in Hc. rewrite Hc. by rewrite app_nil_r. }
    destruct (bool_decide (ck_state c = CData) || bool_decide (ck_state c = CDataCrlf)).
    + rewrite bind_st. cbn [put_st]. apply merged_one with (fin := false); [exact Hm|]. split; [done|]. split; [done|]. exists (chunk_num d' + 1). right. by destruct Hx'; constructor.
    + apply merged_one with (fin := false); [exact Hm|]. split; [done|]. split; [done|]. exists num. by right.
  - destruct Ht as (-> & -> & tc & ->). rewrite bind_st. cbn [get_st]. rewrite bind_st. cbn [ck_trailer set_id sized_chunk modify_st].
    rewrite bind_st. unfold match_decode_result. rewrite bind_st. cbn [get_st]. apply merged_one with (fin := true); [|done]. intros acc. cbn. by rewrite app_nil_r.
Qed.

Lemma loop_T fuel before num a d buf :
  (length buf < fuel)%nat → relT num a d → (run a buf).2 ≠ Bad → merged num before (run a buf) (decode_loop fuel before buf d).
Proof.
  revert before num a d buf. induction fuel as [|fuel IH]; intros before num a d buf Hf Hr Hb; [lia|].
  pose proof (stage_T num a d buf Hr) as Hs.
  destruct Hs as [(d0 & -> & Hr0 & Hst & Hflag)|Hs]; [|by apply trailer_loop_ok].
  cbn [decode_loop]. rewrite bind_st, Hst. pose proof (stage_ok num a d0 buf Hr0) as Ht. pose proof (turn_rest a buf) as Hlen. pose proof (turn_no_data a buf (rel_sized num a d0 Hr0)) as Hz.
  rewrite run_turn in *. destruct (turn a buf) as [data [a'|n rest|]] eqn:Et; [| |done]; cbn in Ht, Hlen.
  - destruct Ht as (d' & c & Hd & Hr' & Hdata & Hc & Hnone). rewrite Hd. cbn [on_T fst snd]. rewrite bind_st. cbn [get_st ck_trailer set_id]. rewrite Hnone, bind_st. cbn [mret ST_ret].
    rewrite bind_st. unfold match_decode_result. rewrite bind_st. cbn [get_st]. destruct (rel_plain num a' d' Hr') as [Hp Hn].
    change (chunk_num (T d')) with (chunk_num d'). change (is_chunk_trailer (T d')) with (is_chunk_trailer d'). rewrite Hn.
    change (is_complete (set_id num c)) with (is_complete c). rewrite Hc, Hp. cbn [andb].
    apply (merged_more num before a d0 a' d' c data buf); try done. destruct a'; try done. by apply (Hflag data n d' c).
  - destruct Ht as (cf & nf & Hd). rewrite Hd. cbn [on_T fst snd]. rewrite bind_st. cbn [get_st ck_trailer set_id sized_chunk].
    rewrite bind_st. cbn [mret ST_ret]. rewrite bind_st. change (chunk_num (T (D num 0 0 0 false cf nf (n =? 0) SSize))) with num.
    set (c := set_id num (sized_chunk data None n CFinish)). unfold match_decode_result. rewrite bind_st. cbn [get_st].
    change (is_complete c) with true. change (is_last_chunk (T (D num 0 0 0 false cf nf (n =? 0) SSize))) with (n =? 0).
    destruct (Z.eqb_spec n 0) as [->|Hne].
    + destruct (Hz eq_refl) as [Hnil _]. cbn [fst] in Hnil. subst data. apply merged_one with (fin := true); [|done]. intros acc. cbn. by rewrite app_nil_r.
    + rewrite bind_st. cbn [put_st mret ST_ret]. change (chunk_num (T (D num 0 0 0 false cf nf false SSize))) with num.
      set (d1 := set_chunk_num (num + 1) _). assert (relT (num + 1) (ASize 0) d1) as Hr1 by (left; exists (D (num + 1) 0 0 0 false cf nf false SSize); split; [by apply rel_size|done]).
      assert ((run (ASize 0) rest).2 ≠ Bad) as Hb1 by (destruct n; [done|..]; by destruct (run (ASize 0) rest)).
      assert (merged (num + 1) (before ++ [c]) (run (ASize 0) rest) (if match rest with [] => true | _ => false end then (d1, Ok (before ++ [c], rest)) else decode_loop fuel (before ++ [c]) rest d1)) as H.
      { destruct rest as [|b rest]; [|apply (IH _ (num + 1)); [lia|done..]]. exists d1, [], [], false. rewrite app_nil_r. split; [done|].
        split; [intros; by rewrite app_nil_r|]. split; [done|]. split; [done|]. by exists (num + 1). }
      destruct (run (ASize 0) rest) as [es o] eqn:Er. apply (merged_cons num (num + 1) before c n es o) in H; [|done..].
      destruct n; [done|..]; by destruct rest.
Qed.

Lemma decode_T num a d buf : relT num a d → (run a buf).2 ≠ Bad → merged num [] (run a buf) (ChunkBodyDecoder_decode buf d).
Proof. intros. apply loop_T; [unfold decode_fuel; lia|done..]. Qed.

Lemma relT_new : relT 0 (ASize 0) expecting_trailer.
Proof. left. exists ChunkBodyDecoder_new. split; [apply (rel_new 0)|done]. Qed.

(** ** In pieces *)

(** What the client takes from the chunks of a call, and whether it is told the end. *)
Definition chunk_data (cs : list Chunk) : bytes := (merge_loop cs false []).1.
Definition told_end (cs : list Chunk) : bool := (merge_loop cs false []).2.

Lemma merged_data num es o d cs rest : merged num [] (es, o) (d, Ok (cs, rest)) →
  chunk_data cs = data_of es ∧ match o with
                               | Done k => rest = k ∧ told_end cs = true
                               | More a => rest = [] ∧ ∃ num', relT num' a d
                               | Bad => True
                               end.
Proof.
  intros (d' & cs' & rest' & fin & [= <- <- <-] & Hm & Ho). unfold chunk_data, told_end. rewrite Hm. split; [done|].
  destruct o; cbn in *; [by destruct Ho as (? & _ & ?)|by destruct Ho as (? & ? & _)|done].
Qed.

Lemma pieces_T num a d b1 b2 :
  relT num a d → (run a (b1 ++ b2)).2 ≠ Bad →
    ∃ d' cs rest, ChunkBodyDecoder_decode (b1 ++ b2) d = (d', Ok (cs, rest)) ∧
    match (run a b1).2, ChunkBodyDecoder_decode b1 d with
    | More _, (d1, Ok (cs1, rest1)) => rest1 = [] ∧ ∃ d2 cs2, ChunkBodyDecoder_decode b2 d1 = (d2, Ok (cs2, rest)) ∧
        chunk_data cs = chunk_data cs1 ++ chunk_data cs2 ∧
        (is_done (run a (b1 ++ b2)).2 → told_end cs = true ∧ told_end cs2 = true)
    | Done _, (_, Ok (cs1, rest1)) => rest = rest1 ++ b2 ∧ chunk_data cs = chunk_data cs1 ∧ told_end cs = true ∧ told_end cs1 = true
    | _, _ => False
    end.
Proof.
  intros Hr Hb. pose proof (chunk_run_app a b1 b2) as Hrun. pose proof (decode_T num a d (b1 ++ b2) Hr Hb) as H.
  assert ((run a b1).2 ≠ Bad) as Hb1 by (intros Hx; apply Hb; rewrite Hrun; by destruct (run a b1) as [? []]).
  pose proof (decode_T num a d b1 Hr Hb1) as H1. destruct (run a (b1 ++ b2)) as [es o] eqn:Eo.
  destruct (ChunkBodyDecoder_decode (b1 ++ b2) d) as [d' [[cs rest]| |]]; [|by destruct H as (?&?&?&?&?&?)..].
  destruct (merged_data num es o d' cs rest H) as [Hd Ho]. exists d', cs, rest. split; [done|]. rewrite Hd.
  destruct (run a b1) as [es1 o1]. destruct (ChunkBodyDecoder_decode b1 d) as [d1 [[cs1 rest1]| |]]; [|by destruct H1 as (?&?&?&?&?&?)..].
  destruct (merged_data num es1 o1 d1 cs1 rest1 H1) as [Hd1 Ho1]. rewrite Hd1. destruct o1 as [a1|k|]; cbn [snd]; [| |done].
  - destruct Ho1 as [Hrest (num1 & Hr1)]. split; [done|].
    assert ((run a1 b2).2 ≠ Bad) as Hb2 by (intros Hx; apply Hb; destruct (run a1 b2) as [? o2]; by injection Hrun as -> ->).
    pose proof (decode_T num1 a1 d1 b2 Hr1 Hb2) as H2. destruct (run a1 b2) as [es2 o2]. injection Hrun as -> ->.
    destruct (ChunkBodyDecoder_decode b2 d1) as [d2 [[cs2 rest2]| |]]; [|by destruct H2 as (?&?&?&?&?&?)..].
    destruct (merged_data num1 es2 o2 d2 cs2 rest2 H2) as [Hd2 Ho2]. exists d2, cs2. rewrite Hd2, data_of_app. cbn [snd] in *.
    destruct o2; [| |done]; destruct Ho as [-> Ho], Ho2 as [-> Ho2]; by split_and!.
  - injection Hrun as -> ->. destruct Ho as [-> Ho], Ho1 as [-> Ho1]. done.
Qed.



(** A body cut behind the digit of its last chunk: the end is told before the
    line ends that close the body are read. *)
Example ends_before_last_crlf :
  match ChunkBodyDecoder_decode (bs "0") expecting_trailer with
  | (d, Ok (cs, _)) => merge_loop cs false [] = ([], false) ∧
      match ChunkBodyDecoder_decode [13] d with (_, Ok (cs, _)) => merge_loop cs false [] = ([], true) | _ => False end
  | _ => False
  end.
Proof. vm_compute. by split. Qed.
