(* ===== verification/HttpBody.v ===== *)
(** * The body of a response

    Models [HttpBody] of [src/ylong_http_client/src/async_impl/http_body.rs]: the
    body that the client hands out, read from what came with the head of the
    response ([PreRead]) and then from the connection, of a known length, in
    chunks, or until the connection closes.

    The connection is a reader of a type [R] with errors in [E]; what interceptors
    refuse is an argument.  The theorem: reading a body gives its content and gives the
    connection back when it is at its end.  The examples show what becomes of a body
    that is not what the head told. *)

From S2P Require Import Prelude Headers Body ChunkDecoder ChunkTrailer Normalizer.
#[local] Open Scope Z_scope.

(** ** Data *)

Inductive HttpBodyError (E : Type) :=
  | ExtraData | NotEof | Incomplete | InvalidChunkBody
  | BadChunk (e : HttpError) | DecodeIo (e : E) | TransferIo (e : E) | Intercepted | TimedOut.
Arguments ExtraData {E}.
Arguments NotEof {E}.
Arguments Incomplete {E}.
Arguments InvalidChunkBody {E}.
Arguments BadChunk {E} e.
Arguments DecodeIo {E} e.
Arguments TransferIo {E} e.
Arguments Intercepted {E}.
Arguments TimedOut {E}.

(** [PreRead]. *)
Record PreRead := mkPreRead { pr_bytes : bytes; pr_pos : Z }.
Definition PreRead_new (l : bytes) : option PreRead := match l with [] => None | _ => Some (mkPreRead l 0) end.
Definition read_into (p : PreRead) (room : Z) : PreRead * bytes :=
  let n := Z.min (Z.max 0 (len (pr_bytes p) - pr_pos p)) room in
  if n =? 0 then (p, []) else (mkPreRead (pr_bytes p) (pr_pos p + n), takeZ n (dropZ (pr_pos p) (pr_bytes p))).

(** [Option<BoxStreamData>]: a connection that is given up stays here, with
    whether it was shut down. *)
Inductive Io (R : Type) := Held (r : R) | Gone (r : R) (is_shutdown : bool).
Arguments Held {R} r.
Arguments Gone {R} r is_shutdown.

(** [UntilClose], [Text] and [Chunk]. *)
Record UntilCloseBody (R : Type) := mkUntilClose { uc_pre : option PreRead; uc_io : Io R }.
Arguments mkUntilClose {R} uc_pre uc_io.
Arguments uc_pre {R} u.
Arguments uc_io {R} u.
Record LengthBody (R : Type) := mkLengthBody { lb_decoder : TextBodyDecoder; lb_pre : option PreRead; lb_io : Io R }.
Arguments mkLengthBody {R} lb_decoder lb_pre lb_io.
Arguments lb_decoder {R} l.
Arguments lb_pre {R} l.
Arguments lb_io {R} l.
Record ChunkedBody (R : Type) := mkChunkedBody { cb_decoder : ChunkBodyDecoder; cb_pre : option PreRead; cb_io : Io R }.
Arguments mkChunkedBody {R} cb_decoder cb_pre cb_io.
Arguments cb_decoder {R} c.
Arguments cb_pre {R} c.
Arguments cb_io {R} c.

Inductive Kind (R : Type) := KEmpty | KText (b : LengthBody R) | KChunk (b : ChunkedBody R) | KUntilClose (b : UntilCloseBody R).
Arguments KEmpty {R}.
Arguments KText {R} b.
Arguments KChunk {R} b.
Arguments KUntilClose {R} b.

(** [HttpBody::new]: the body, or what becomes of the connection. *)
Definition HttpBody_new {E R : Type} (length : BodyLength) (io : R) (pre : bytes) : Kind R + (HttpBodyError E * Io R) :=
  match length with
  | BEmpty => match pre with [] => inl KEmpty | _ => inr (ExtraData, Gone io true) end
  | BLength n => inl (KText (mkLengthBody (mkTextBodyDecoder n) (PreRead_new pre) (Held io)))
  | BUntilClose => inl (KUntilClose (mkUntilClose (PreRead_new pre) (Held io)))
  | BChunk => inl (KChunk (mkChunkedBody expecting_trailer (PreRead_new pre) (Held io)))
  end.

Section body.
Context {E R : Type} `{!AsyncRead E R} (is_stream_closable : R → bool) (intercept_output : bytes → bool).
Abbreviation BE := (HttpBodyError E).

(** A read of the connection into a buffer with [room]. *)
Definition poll_io (room : Z) (r : R) : R * result E (Poll bytes) :=
  let '((r, b), x) := poll_read (r, ReadBuf_new room) in
  (r, match x with Ok (Ready _) => Ok (Ready (rb_filled b)) | Ok Pending => Ok Pending | Err e => Err e | Panic => Panic end).

(** What was read ahead: the first bytes of the buffer; [None] when there is none
    left. *)
Definition take_pre (pre : option PreRead) (room : Z) : option PreRead * bytes :=
  match pre with
  | None => (None, [])
  | Some p => let (p, out) := read_into p room in (match out with [] => None | _ => Some p end, out)
  end.

(** The output, or [Pending] when there is none. *)
Definition pending_or (out : bytes) : Poll bytes := match out with [] => Pending | _ => Ready out end.

(** *** [UntilClose] *)

Abbreviation UC := (ST (UntilCloseBody R) BE).
Definition uc_put (io : Io R) : UC () := modify_st (λ s, mkUntilClose (uc_pre s) io).

Definition uc_poll_read_io (room : Z) (r : R) (out : bytes) : UC (Poll bytes) :=
  let (r, x) := poll_io (room - len out) r in
  match x with
  | Ok (Ready []) =>
      if is_stream_closable r then _ ← uc_put (Gone r false); mret (Ready [])
      else _ ← uc_put (Gone r true); mret (Ready out)
  | Ok (Ready filled) =>
      if intercept_output filled then _ ← uc_put (Held r); mret (Ready (out ++ filled))
      else _ ← uc_put (Gone r false); throw Intercepted
  | Ok Pending => _ ← uc_put (Held r); mret (pending_or out)
  | Err e => _ ← uc_put (Gone r true); throw (TransferIo e)
  | Panic => panic
  end.

Definition uc_data (room : Z) : UC (Poll bytes) :=
  if room =? 0 then mret (Ready [])
  else
    s ← get_st;
    let (pre, out) := take_pre (uc_pre s) room in
    _ ← put_st (mkUntilClose pre (uc_io s));
    match uc_io s with
    | Held r => if room - len out =? 0 then mret (Ready out) else uc_poll_read_io room r out
    | Gone _ _ => mret (Ready out)
    end.

(** *** [Text] *)

Abbreviation LB := (ST (LengthBody R) BE).
Definition lb_put (io : Io R) : LB () := modify_st (λ s, mkLengthBody (lb_decoder s) (lb_pre s) io).
Definition lb_decode (buf : bytes) : LB (bool * bytes) :=
  s ← get_st;
  let '(d, text, rem) := text_decode (lb_decoder s) buf in
  _ ← put_st (mkLengthBody d (lb_pre s) (lb_io s)); mret (Text_is_complete text, rem).

(** Give up the connection: with [shutdown], or only when it may be closed. *)
Definition lb_shutdown : LB () := s ← get_st; match lb_io s with Held r => lb_put (Gone r true) | Gone _ _ => mret () end.
Definition lb_close : LB () :=
  s ← get_st; match lb_io s with Held r => if is_stream_closable r then lb_put (Gone r false) else mret () | Gone _ _ => mret () end.

Definition read_remaining (out : bytes) : LB (option (Poll bytes)) :=
  '(complete, rem) ← lb_decode out;
  match complete, rem with
  | true, [] => _ ← lb_close; mret (Some (Ready out))
  | true, _ => _ ← lb_shutdown; throw NotEof
  | false, _ => mret None
  end.

Definition lb_poll_read_io (room : Z) (r : R) (out : bytes) : LB (Poll bytes) :=
  let (r, x) := poll_io (room - len out) r in
  match x with
  | Ok (Ready []) =>
      '(complete, _) ← (if is_stream_closable r then lb_decode [] else mret (false, []));
      if complete : bool then _ ← lb_put (Gone r false); mret (Ready [])
      else _ ← lb_put (Gone r true); throw Incomplete
  | Ok (Ready filled) =>
      '(complete, rem) ← lb_decode filled;
      if negb (intercept_output filled) then _ ← lb_put (Gone r false); throw Intercepted
      else match (complete : bool), rem with
           | true, [] => _ ← lb_put (Held r); _ ← lb_close; mret (Ready (out ++ filled))
           | true, _ => _ ← lb_put (Gone r true); throw NotEof
           | false, _ => _ ← lb_put (Held r); mret (Ready (out ++ filled))
           end
  | Ok Pending => _ ← lb_put (Held r); mret (pending_or out)
  | Err e => _ ← lb_put (Gone r true); throw (DecodeIo e)
  | Panic => panic
  end.

Definition lb_data (room : Z) : LB (Poll bytes) :=
  if room =? 0 then mret (Ready [])
  else
    s ← get_st;
    let (pre, out) := take_pre (lb_pre s) room in
    _ ← put_st (mkLengthBody (lb_decoder s) pre (lb_io s));
    done ← match out with [] => mret None | _ => read_remaining out end;
    match done with
    | Some x => mret x
    | None =>
        match lb_io s with
        | Held r => if room - len out =? 0 then mret (Ready out) else lb_poll_read_io room r out
        | Gone _ _ => mret (Ready out)
        end
    end.

(** *** [Chunk] *)

Abbreviation CB := (ST (ChunkedBody R) BE).
Definition cb_put (io : Io R) : CB () := modify_st (λ s, mkChunkedBody (cb_decoder s) (cb_pre s) io).

(** [merge_chunks]: the data of the chunks, and whether the body has ended. *)
Definition merge_chunks (buf : bytes) : CB (bytes * bool) :=
  s ← get_st;
  let (d, x) := ChunkBodyDecoder_decode buf (cb_decoder s) in
  _ ← put_st (mkChunkedBody d (cb_pre s) (cb_io s));
  match x with
  | Ok (cs, junk) =>
      let (data, finished) := merge_loop cs false [] in
      match finished, junk with
      | true, _ :: _ => throw InvalidChunkBody
      | _, _ => mret (data, finished)
      end
  | Err e => throw (BadChunk e)
  | Panic => panic
  end.

(** [self.io = None]. *)
Definition cb_drop : CB () := s ← get_st; match cb_io s with Held r => cb_put (Gone r false) | Gone _ _ => mret () end.

(** The loop over what was read ahead. *)
Fixpoint chunk_pre (fuel : nat) (room : Z) : CB (option bytes) :=
  match fuel with
  | O => panic
  | S fuel =>
      s ← get_st;
      match cb_pre s with
      | None => mret None
      | Some p =>
          let (pre, out) := take_pre (Some p) room in
          _ ← put_st (mkChunkedBody (cb_decoder s) pre (cb_io s));
          '(data, finished) ← merge_chunks out;
          if finished : bool then _ ← cb_drop; mret (Some data)
          else match data with [] => chunk_pre fuel room | _ => mret (Some data) end
      end
  end.

(** The loop over what the connection gives; the interceptor sees the buffer
    behind the merge. *)
Fixpoint chunk_io (fuel : nat) (room : Z) : CB (Poll bytes) :=
  match fuel with
  | O => panic
  | S fuel =>
      s ← get_st;
      match cb_io s with
      | Gone _ _ => mret (Ready [])
      | Held r =>
          let (r, x) := poll_io room r in
          _ ← cb_put (Gone r false);
          match x with
          | Ok (Ready []) => _ ← cb_put (Gone r true); throw Incomplete
          | Ok (Ready filled) =>
              '(data, finished) ← merge_chunks filled;
              if negb (intercept_output (data ++ dropZ (len data) filled)) then throw Intercepted
              else if finished : bool then mret (Ready data)
              else
                _ ← cb_put (Held r);
                match data with [] => chunk_io fuel room | _ => mret (Ready data) end
          | Ok Pending => _ ← cb_put (Held r); mret Pending
          | Err e => _ ← cb_put (Gone r true); throw (DecodeIo e)
          | Panic => panic
          end
      end
  end.

(** [data]: each turn over what was read ahead takes a byte of it, or it is
    empty; [fuel] is for the turns that read of the connection. *)
Definition pre_fuel (s : ChunkedBody R) : nat := match cb_pre s with Some p => S (S (length (pr_bytes p))) | None => 1 end.
Definition cb_data (fuel : nat) (room : Z) : CB (Poll bytes) :=
  if room =? 0 then mret (Ready [])
  else
    s ← get_st;
    done ← chunk_pre (pre_fuel s) room;
    match done with
    | Some data => mret (Ready data)
    | None => chunk_io fuel room
    end.

(** ** [HttpBody::poll_data] and [poll_trailer]

    [late] tells that one of the two timers is over. *)

Definition on_kind {S A : Type} (f : S → Kind R) (s : S) (m : ST S BE A) : Kind R * result BE A := let (s, x) := m s in (f s, x).

Definition http_poll_data (fuel : nat) (late : bool) (room : Z) : ST (Kind R) BE (Poll bytes) := λ k,
  if room =? 0 then (k, Ok (Ready []))
  else if late then (k, Err TimedOut)
  else match k with
       | KEmpty => (k, Ok (Ready []))
       | KText b => on_kind KText b (lb_data room)
       | KChunk b => on_kind KChunk b (cb_data fuel room)
       | KUntilClose b => on_kind KUntilClose b (uc_data room)
       end.

Definition TRAILER_SIZE : Z := 1024.
Definition cb_trailer (fuel : nat) : CB (Poll (option Headers)) :=
  x ← cb_data fuel TRAILER_SIZE;
  match x with
  | Pending => mret Pending
  | Ready _ =>
      s ← get_st;
      match get_trailer (cb_decoder s) with Ok t => mret (Ready t) | Err e => throw (BadChunk e) | Panic => panic end
  end.
Definition http_poll_trailer (fuel : nat) (late : bool) : ST (Kind R) BE (Poll (option Headers)) := λ k,
  if late then (k, Err TimedOut)
  else match k with
       | KChunk b => on_kind KChunk b (cb_trailer fuel)
       | _ => (k, Ok (Ready None))
       end.

(** [Drop]: a connection that is still held was not read to the end of the body;
    over HTTP/1 it is shut down. *)
Definition kind_io (k : Kind R) : option (Io R) :=
  match k with KEmpty => None | KText b => Some (lb_io b) | KChunk b => Some (cb_io b) | KUntilClose b => Some (uc_io b) end.
Definition http_drop (is_http1 : R → bool) (k : Kind R) : option (Io R) :=
  match kind_io k with Some (Held r) => Some (Gone r (is_http1 r)) | x => x end.

(** The loop of the example of [HttpBody]: it reads into buffers of the given
    sizes until a read gives nothing; the result tells whether one did. *)
Fixpoint http_read (fuel : nat) (rooms : list Z) (k : Kind R) : Kind R * bytes * result BE bool :=
  match rooms with
  | [] => (k, [], Ok false)
  | room :: rooms =>
      match http_poll_data fuel false room k with
      | (k, Ok (Ready [])) => (k, [], Ok true)
      | (k, Ok (Ready out)) => let '(k, more, x) := http_read fuel rooms k in (k, out ++ more, x)
      | (k, Ok Pending) => http_read fuel rooms k
      | (k, Err e) => (k, [], Err e)
      | (k, Panic) => (k, [], Panic)
      end
  end.
End body.

(** ** What is left of a body *)

Section laws.
Context {E R : Type} `{!AsyncRead E R} (intercept_output : bytes → bool).
(** The connection: what it still gives before it closes. *)
Context (conn_ok : R → Prop) (conn_rest : R → bytes).
Hypothesis conn_poll : ∀ r b, conn_ok r → 0 ≤ rb_room b → poll_spec (E := E) conn_rest r b (poll_read (r, b)) ∧ conn_ok (poll_read (E := E) (r, b)).1.1.
(** A connection that has told its end may be given up. *)
Context (closable : R → bool).
Definition tells_end : Prop := ∀ r b, conn_ok r → 0 < rb_room b →
  match poll_read (E := E) (r, b) with
  | ((r', b'), Ok (Ready _)) => rb_filled b' = rb_filled b → closable r' = true
  | _ => True
  end.
Hypothesis conn_end : tells_end.

Definition pre_rest (p : option PreRead) : bytes := match p with Some p => dropZ (pr_pos p) (pr_bytes p) | None => [] end.
Definition pre_ok (p : option PreRead) : Prop := match p with Some p => 0 ≤ pr_pos p ≤ len (pr_bytes p) | None => True end.

Definition pre_size (p : option PreRead) : nat := match p with Some p => S (length (pr_bytes p) - Z.to_nat (pr_pos p)) | None => 0 end.

(** The connection always gives something, and interceptors refuse nothing. *)
Definition calm : Prop := (∀ r b, conn_ok r → 0 ≤ rb_room b → ∃ x, (poll_read (E := E) (r, b)).2 = Ok (Ready x)) ∧ ∀ l, intercept_output l = true.

Lemma poll_io_spec room r : conn_ok r → 0 < room →
  match poll_io (E := E) room r with
  | (r', Ok (Ready out)) => conn_ok r' ∧ conn_rest r = out ++ conn_rest r' ∧ len out ≤ room ∧ (out = [] → conn_rest r = [] ∧ closable r' = true)
  | (r', Ok Pending) => conn_ok r' ∧ conn_rest r' = conn_rest r ∧ ¬ calm
  | (_, Err _) => ¬ calm
  | (_, Panic) => False
  end.
Proof.
  intros Hr Hroom. assert (calm → ∃ x, (poll_read (E := E) (r, ReadBuf_new room)).2 = Ok (Ready x)) as Hcalm.
  { intros [Hc _]. apply Hc; [done|]. rewrite rb_room_new. lia. }
  destruct (conn_poll r (ReadBuf_new room) Hr ltac:(rewrite rb_room_new; lia)) as [(out & H1 & H2 & H3 & H4) Hok].
  pose proof (conn_end r (ReadBuf_new room) Hr ltac:(rewrite rb_room_new; lia)) as Hclose.
  unfold poll_io. destruct (poll_read (r, ReadBuf_new room)) as [[r' b'] x]. cbn [fst snd] in *. rewrite H1. rewrite rb_room_new in H3, H4. unfold rb_put, ReadBuf_new. cbn [rb_filled app].
  destruct x as [[[]|]|e|]; [| | |done].
  2:{ rewrite H4 in H2. split_and!; [done|done|]. intros Hc. by destruct (Hcalm Hc). }
  2:{ intros Hc. by destruct (Hcalm Hc). }
  split_and!; [done|done|lia|]. intros ->. split; [destruct H4; [done|lia|done]|]. apply Hclose. by rewrite H1.
Qed.

Lemma take_pre_spec p room : pre_ok p → 0 < room →
  let (p', out) := take_pre p room in
  pre_ok p' ∧ pre_rest p = out ++ pre_rest p' ∧ len out ≤ room ∧ (len out < room → pre_rest p' = []) ∧ (out = [] → p' = None) ∧
  (p ≠ None → (pre_size p' < pre_size p)%nat).
Proof.
  intros Hp Hroom. destruct p as [[l i]|]; cbn [take_pre]; [|cbn; split_and!; try done; len_lia]. cbn in Hp. unfold read_into. cbn [pr_bytes pr_pos].
  rewrite Z.max_r by lia. destruct (Z.eqb_spec (Z.min (len l - i) room) 0) as [H0|H0].
  - cbn. rewrite dropZ_all by lia. split_and!; try done; try len_lia; lia.
  - set (n := Z.min (len l - i) room) in *. assert (len (takeZ n (dropZ i l)) = n) as Hlen by (rewrite len_takeZ_min, len_dropZ by lia; lia).
    destruct (takeZ n (dropZ i l)) as [|b out] eqn:Et; [rewrite len_nil in Hlen; lia|]. rewrite <- Et in *. cbn [pre_ok pre_rest pr_bytes pr_pos]. split_and!; [lia|lia| |lia| |by rewrite Et|].
    + rewrite <- (takeZ_dropZ n (dropZ i l)) at 1. by rewrite dropZ_dropZ by lia.
    + intros. apply dropZ_all. lia.
    + intros _. cbn. unfold len in *. lia.
Qed.

(** *** A body in chunks *)

Lemma run_data_len a buf : len (data_of (run a buf).1) ≤ len buf.
Proof.
  revert a. induction buf as [|b buf IH]; intros a; [done|]. cbn [run]. destruct (step a b) as [[a' [[c|[|n|n]]|]]|]; try len_lia.
  - specialize (IH a'). destruct (run a' buf) as [es o]. cbn in *. len_lia.
  - specialize (IH a'). destruct (run a' buf) as [es o]. cbn in *. len_lia.
  - specialize (IH a'). destruct (run a' buf) as [es o]. cbn in *. len_lia.
  - specialize (IH a'). len_lia.
Qed.

(** Behind the last size comes no data. *)
Lemma last_step a b : last_state a → match step a b with Some (_, Some e) => e = EvChunk 0 | Some (a', None) => last_state a' | None => True end.
Proof. destruct a as [n|n|n|n r|n cr]; cbn; try done; intros ->; repeat case_match; simplify_eq; done. Qed.

Lemma run_last a buf : last_state a → data_of (run a buf).1 = [].
Proof.
  revert a. induction buf as [|b buf IH]; intros a Ha; [done|]. cbn [run]. pose proof (last_step a b Ha) as H.
  destruct (step a b) as [[a' [e|]]|]; [by subst e|by apply IH|done].
Qed.

(** What the merge of a piece of the body gives. *)
Lemma merge_chunks_ok num a es out more s : relT num a (cb_decoder s) → run a (out ++ more) = (es, Done []) →
  ∃ d data fin, merge_chunks (E := E) (R := R) out s = (mkChunkedBody d (cb_pre s) (cb_io s), Ok (data, fin)) ∧ len data ≤ len out ∧
    ((∃ num' a' es', relT num' a' d ∧ run a' more = (es', Done []) ∧ data_of es = data ++ data_of es' ∧ (fin = true → last_state a')) ∨
     (fin = true ∧ more = [] ∧ idle d ∧ data_of es = data)).
Proof.
  intros Hr He. pose proof (run_data_len a out) as Hlen. rewrite chunk_run_app in He. pose proof (decode_T num a (cb_decoder s) out Hr) as H.
  destruct (run a out) as [e1 o]. assert (o ≠ Bad) as Ho by (intros ->; done). destruct (H Ho) as (d & cs & rest & fin & Hd & Hm & Hend). clear H. cbn [fst snd] in *.
  exists d, (data_of e1), fin. unfold merge_chunks. rewrite bind_st. cbn [get_st]. rewrite Hd, bind_st. cbn [put_st app]. rewrite Hm.
  destruct o as [a'|k|]; [| |done].
  - destruct Hend as (-> & Hfin & num' & Hr'). destruct (run a' more) as [es' o'] eqn:E'. simplify_eq.
    split; [by destruct fin|]. split; [done|]. left. exists num', a', es'. by rewrite data_of_app.
  - destruct Hend as (-> & -> & Hidle). injection He as <- Hk. apply app_eq_nil in Hk as [-> ->].
    split; [done|]. split; [done|]. by right.
Qed.

Inductive chunk_left (s : ChunkedBody R) (l : bytes) : Prop :=
  | chunk_open r num a es : cb_io s = Held r → conn_ok r → relT num a (cb_decoder s) → run a (pre_rest (cb_pre s) ++ conn_rest r) = (es, Done []) → l = data_of es → chunk_left s l
  | chunk_ending r more num a es : cb_io s = Gone r false → conn_ok r → relT num a (cb_decoder s) → run a (pre_rest (cb_pre s) ++ more) = (es, Done []) → data_of es = [] → l = [] → chunk_left s l
  | chunk_done r : cb_io s = Gone r false → conn_ok r → cb_pre s = None ∨ pre_rest (cb_pre s) = [] ∧ idle (cb_decoder s) → l = [] → chunk_left s l.

Definition io_rest (io : Io R) : bytes := match io with Held r => conn_rest r | Gone _ _ => [] end.

Lemma intercepted l : intercept_output l = false → ¬ calm.
Proof. intros H [_ Hc]. congruence. Qed.

(** What a read of the body gives: the next bytes, none only at the end, and
    then the connection is given up and not shut down. *)
Definition given_up (io : Io R) : Prop := match io with Gone r false => conn_ok r | _ => False end.
Definition io_errors (e : HttpBodyError E) : Prop := match e with Intercepted | DecodeIo _ | TransferIo _ => True | _ => False end.
Definition reads {S : Type} (ok : S → bytes → Prop) (gone : S → Prop) (room : Z) (l : bytes) (x : S * result (HttpBodyError E) (Poll bytes)) : Prop :=
  match x with
  | (s, Ok (Ready out)) => ∃ l', ok s l' ∧ l = out ++ l' ∧ len out ≤ room ∧ (out = [] → l' = [] ∧ gone s)
  | (s, Ok Pending) => ok s l ∧ ¬ calm
  | (_, Err e) => io_errors e ∧ ¬ calm
  | (_, Panic) => False
  end.

Definition chunk_ok (s : ChunkedBody R) (l : bytes) : Prop := pre_ok (cb_pre s) ∧ chunk_left s l.
Definition cb_gone (s : ChunkedBody R) : Prop := given_up (cb_io s).
Lemma chunk_left_gone s l r b : chunk_left s l → cb_io s = Gone r b → cb_gone s.
Proof. unfold cb_gone. destruct 1 as [r' ? ? ? Hio|r' ? ? ? ? Hio ?|r' Hio ?]; rewrite Hio; [congruence|done..]. Qed.

(** One piece of what was read ahead. *)
Lemma chunk_pre_piece s l pre out : cb_pre s ≠ None → pre_rest (cb_pre s) = out ++ pre_rest pre → (out = [] → pre = None) → chunk_left s l →
  ∃ d data (fin : bool) l', merge_chunks (E := E) (R := R) out (mkChunkedBody (cb_decoder s) pre (cb_io s)) = (mkChunkedBody d pre (cb_io s), Ok (data, fin)) ∧
    len data ≤ len out ∧ l = data ++ l' ∧ (fin = true → l' = []) ∧
    chunk_left (mkChunkedBody d pre (if fin then match cb_io s with Held r => Gone r false | io => io end else cb_io s)) l'.
Proof.
  intros Hpre Hrest Hnil Hl. destruct Hl as [r num a es Hio Hr Ha Hrun ->|r more num a es Hio Hr Ha Hrun Hes ->|r Hio Hr Hd ->].
  - rewrite Hrest, <- app_assoc in Hrun. destruct (merge_chunks_ok num a es out _ (mkChunkedBody (cb_decoder s) pre (cb_io s)) Ha Hrun) as (d & data & fin & E1 & Hlen & H).
    exists d, data, fin. rewrite Hio in *. destruct H as [(num' & a' & es' & Ha' & Hrun' & Hdata & Hfin)|(-> & Hmore & Hidle & Hdata)].
    + assert (fin = true → data_of es' = []) as H0 by (intros Hf; rewrite <- (run_last a' (pre_rest pre ++ conn_rest r) (Hfin Hf)), Hrun'; done).
      exists (data_of es'). split_and!; try done. destruct fin.
      * by apply (chunk_ending _ _ r (conn_rest r) num' a' es'); auto.
      * by apply (chunk_open _ _ r num' a' es').
    + apply app_eq_nil in Hmore as [Hp _]. exists []. rewrite app_nil_r. split_and!; try done. apply (chunk_done _ _ r); [done|done|by right|done].
  - rewrite Hrest, <- app_assoc in Hrun. destruct (merge_chunks_ok num a es out _ (mkChunkedBody (cb_decoder s) pre (cb_io s)) Ha Hrun) as (d & data & fin & E1 & Hlen & H).
    exists d, data, fin, []. rewrite Hio in *. rewrite Hes in H. destruct H as [(num' & a' & es' & Ha' & Hrun' & Hdata & Hfin)|(-> & Hmore & Hidle & Hdata)].
    + symmetry in Hdata. apply app_eq_nil in Hdata as [-> Hdata]. split_and!; try done. by apply (chunk_ending _ _ r more num' a' es'); destruct fin.
    + subst data. apply app_eq_nil in Hmore as [Hp _]. split_and!; try done. apply (chunk_done _ _ r); [done|done|by right|done].
  - destruct Hd as [Hd|[Hd Hidle]]; [done|]. rewrite Hrest in Hd. apply app_eq_nil in Hd as [-> Hp]. specialize (Hnil eq_refl) as ->.
    unfold merge_chunks. rewrite bind_st. cbn [get_st cb_decoder]. unfold idle in Hidle. destruct (ChunkBodyDecoder_decode [] (cb_decoder s)) as [d [[cs junk]| |]]; try done.
    destruct Hidle as [-> Hm]. rewrite bind_st. cbn [put_st]. destruct (merge_loop cs false []) as [data fin]. cbn [fst] in Hm. subst data.
    exists d, [], fin, []. rewrite Hio. split_and!; try done; [by destruct fin|]. apply (chunk_done _ _ r); [by destruct fin|done|by left|done].
Qed.

(** What was read ahead, to the first data or to its end. *)
Lemma chunk_pre_ok fuel room s l : (pre_size (cb_pre s) < fuel)%nat → 0 < room → chunk_ok s l →
  match chunk_pre (E := E) (R := R) fuel room s with
  | (s', Ok None) => chunk_ok s' l ∧ cb_pre s' = None ∧ cb_io s' = cb_io s
  | (s', Ok (Some data)) => reads chunk_ok cb_gone room l (s', Ok (Ready data))
  | _ => False
  end.
Proof.
  revert s l. induction fuel as [|fuel IH]; intros s l Hf Hroom [Hp Hl]; [lia|]. cbn [chunk_pre]. rewrite bind_st. cbn [get_st].
  destruct (cb_pre s) as [p|] eqn:Ep; [|by rewrite <- Ep in Hp]. pose proof (take_pre_spec (Some p) room Hp Hroom) as H.
  destruct (take_pre (Some p) room) as [pre out]. destruct H as (Hok & Hrest & Hlen & _ & Hnil & Hsize). rewrite bind_st. cbn [put_st]. rewrite <- Ep in Hrest.
  destruct (chunk_pre_piece s l pre out) as (d & data & fin & l' & E1 & Hd & -> & Hfin & Hl'); [congruence|done..|].
  rewrite bind_st, E1. specialize (Hsize ltac:(done)). destruct fin.
  - specialize (Hfin eq_refl) as ->. rewrite bind_st. unfold cb_drop. rewrite bind_st. cbn [get_st cb_io cb_put modify_st cb_decoder cb_pre].
    destruct (cb_io s) as [r|r b] eqn:Eio; cbn; (exists []; split_and!; [done|done|lia|]; intros _; split; [done|exact (chunk_left_gone _ _ _ _ Hl' eq_refl)]).
  - destruct data as [|b data].
    + specialize (IH (mkChunkedBody d pre (cb_io s)) l' ltac:(cbn [cb_pre]; lia) Hroom (conj Hok Hl')). exact IH.
    + exists l'. split_and!; [done|done|lia|done].
Qed.

(** What the connection gives, to the first data. *)
Lemma chunk_io_ok fuel room s l : cb_pre s = None → (length (io_rest (cb_io s)) < fuel)%nat → 0 < room → chunk_ok s l →
  reads chunk_ok cb_gone room l (chunk_io (E := E) intercept_output fuel room s) .
Proof.
  revert s l. induction fuel as [|fuel IH]; intros s l Hpre Hf Hroom [Hp Hl]; [lia|]. cbn [chunk_io]. rewrite bind_st. cbn [get_st].
  destruct (cb_io s) as [r|r b] eqn:Eio.
  2:{ pose proof (chunk_left_gone s l r b Hl Eio) as Hg. assert (l = []) as -> by (destruct Hl as [r' num a es Hio| |]; [congruence|done..]).
      exists []. by split_and!; [|done|rewrite len_nil; lia|]. }
  destruct Hl as [r' num a es Hio Hr Ha Hrun ->|r' more num a es Hio|r' Hio]; [|congruence..].
  assert (r' = r) as -> by congruence. rewrite Hpre in Hrun. cbn [pre_rest app] in Hrun. cbn [io_rest] in Hf.
  pose proof (poll_io_spec room r Hr Hroom) as H. destruct (poll_io room r) as [r1 [[filled|]|e|]]; [| | |done]; rewrite bind_st; cbn [cb_put modify_st cb_decoder cb_pre].
  - destruct H as (Hr1 & Hrest & Hlen & Hnil). destruct filled as [|c filled]; [by destruct (Hnil eq_refl) as [Hz _]; rewrite Hz in Hrun|]. set (out := c :: filled) in *. rewrite Hrest in Hrun.
    destruct (merge_chunks_ok num a es out _ (mkChunkedBody (cb_decoder s) (cb_pre s) (Gone r1 false)) Ha Hrun) as (d & data & fin & E1 & Hd & H).
    rewrite bind_st, E1. destruct (intercept_output (data ++ dropZ (len data) out)) eqn:Ei; [|split; [done|by eapply intercepted]]. cbn [negb].
    rewrite Hrest in Hf. unfold out in Hf. cbn [app length] in Hf. rewrite length_app in Hf.
    destruct H as [(num' & a' & es' & Ha' & Hrun' & Hdata & Hfin)|(-> & Hmore & Hidle & Hdata)].
    + destruct fin.
      * assert (data_of es' = []) as H0 by (rewrite <- (run_last a' (conn_rest r1) (Hfin eq_refl)), Hrun'; done). rewrite H0 in Hdata.
        exists []. split_and!; [|done|lia|done]. split; [done|]. apply (chunk_ending _ _ r1 (conn_rest r1) num' a' es'); try done. by rewrite Hpre.
      * rewrite bind_st. cbn [cb_put modify_st cb_decoder cb_pre cb_io].
        assert (chunk_ok (mkChunkedBody d (cb_pre s) (Held r1)) (data_of es')) as Hok by (split; [done|]; apply (chunk_open _ _ r1 num' a' es'); try done; by rewrite Hpre).
        destruct data as [|b data]; [rewrite Hdata; apply IH; [done|cbn; lia|done..]|]. exists (data_of es'). split_and!; [done|done|lia|done].
    + exists []. rewrite app_nil_r. split_and!; [|done|lia|done]. split; [done|]. apply (chunk_done _ _ r1); [done|done|by left|done].
  - destruct H as (Hr1 & Hrest & Hcalm). rewrite bind_st. cbn. split; [|done]. split; [done|]. apply (chunk_open _ _ r1 num a es); try done. cbn. by rewrite Hpre, Hrest.
  - rewrite bind_st. done.
Qed.

Lemma pre_fuel_ok (s : ChunkedBody R) : (pre_size (cb_pre s) < pre_fuel s)%nat.
Proof. unfold pre_fuel. destruct (cb_pre s) as [p|]; cbn; lia. Qed.

Lemma cb_data_ok fuel room s l : (length (io_rest (cb_io s)) < fuel)%nat → 0 < room → chunk_ok s l →
  reads chunk_ok cb_gone room l (cb_data (E := E) intercept_output fuel room s).
Proof.
  intros Hf Hroom Hok. unfold cb_data. destruct (Z.eqb_spec room 0); [lia|]. rewrite bind_st. cbn [get_st]. rewrite bind_st.
  pose proof (chunk_pre_ok (pre_fuel s) room s l (pre_fuel_ok s) Hroom Hok) as H. destruct (chunk_pre (pre_fuel s) room s) as [s' [[data|]| |]]; [done| |done..].
  destruct H as (Hok' & Hpre & Hio). apply chunk_io_ok; [done|by rewrite Hio|done..].
Qed.

(** *** A body of a known length, over a connection that may be reused at its end *)

Inductive text_left (s : LengthBody R) (l : bytes) : Prop :=
  | text_open r : lb_io s = Held r → conn_ok r → l = pre_rest (lb_pre s) ++ conn_rest r → td_left (lb_decoder s) = len l → l ≠ [] → text_left s l
  | text_waiting r : lb_io s = Held r → conn_ok r → pre_rest (lb_pre s) = [] → conn_rest r = [] → td_left (lb_decoder s) = 0 → l = [] → text_left s l
  | text_done r : lb_io s = Gone r false → conn_ok r → pre_rest (lb_pre s) = [] → l = [] → text_left s l.
Definition text_ok (s : LengthBody R) (l : bytes) : Prop := pre_ok (lb_pre s) ∧ text_left s l.
Definition lb_gone (s : LengthBody R) : Prop := given_up (lb_io s).

(** The decoder takes a piece of the body. *)
Lemma lb_decode_ok out l s : td_left (lb_decoder s) = len (out ++ l) → out ++ l ≠ [] →
  lb_decode (E := E) (R := R) out s = (mkLengthBody (mkTextBodyDecoder (len l)) (lb_pre s) (lb_io s), Ok (bool_decide (l = []), [])).
Proof.
  intros Hd Hne. unfold lb_decode. rewrite bind_st. cbn [get_st]. rewrite text_decode_eq, Hd by (pose proof (len_nonneg (out ++ l)); lia).
  assert (len (out ++ l) - Z.min (len (out ++ l)) (len out) = len l) as -> by (pose proof (len_nonneg l); rewrite len_app; lia).
  rewrite dropZ_all by (pose proof (len_nonneg l); rewrite len_app; lia). rewrite bind_st. cbn [put_st]. unfold Text_is_complete. cbn [tx_state].
  destruct (Z.leb_spec (len (out ++ l)) (len out)) as [Hle|Hgt]; rewrite len_app in *.
  - assert (l = []) as -> by (apply len_0_nil; pose proof (len_nonneg l); lia). done.
  - rewrite bool_decide_eq_false_2; [done|]. intros ->. rewrite len_nil in Hgt. lia.
Qed.

Lemma lb_io_ok room r out s l : conn_ok r → 0 ≤ len out < room → pre_rest (lb_pre s) = [] → pre_ok (lb_pre s) → l = conn_rest r →
  td_left (lb_decoder s) = len l → l ≠ [] → lb_io s = Held r →
  reads text_ok lb_gone room (out ++ l) (lb_poll_read_io (E := E) closable intercept_output room r out s).
Proof.
  intros Hr Hroom Hpre Hp -> Hd Hne Hio. unfold lb_poll_read_io. pose proof (poll_io_spec (room - len out) r Hr ltac:(lia)) as H.
  destruct (poll_io (room - len out) r) as [r1 [[filled|]|e|]]; [| | |done].
  - destruct H as (Hr1 & Hrest & Hlen & Hnil). destruct filled as [|c filled]; [by destruct (Hnil eq_refl) as [Hz _]; rewrite Hz in Hne|]. set (piece := c :: filled) in *. rewrite Hrest in *.
    rewrite bind_st, (lb_decode_ok piece (conn_rest r1) s Hd Hne). destruct (intercept_output piece) eqn:Ei; [|split; [done|by eapply intercepted]]. cbn [negb].
    assert (∀ s', reads text_ok lb_gone room (out ++ piece ++ conn_rest r1) (s', Ok (Ready (out ++ piece))) ↔ text_ok s' (conn_rest r1)) as Hgive.
    { intros s'. cbn. split.
      - intros (l' & Hok & Heq & _). rewrite <- app_assoc in Heq. apply app_inv_head, (app_inv_head piece) in Heq. by subst l'.
      - intros Hok. exists (conn_rest r1). split_and!; [done|by rewrite <- app_assoc|rewrite len_app; lia|]. intros Hx. apply app_eq_nil in Hx as [_ Hx]. by unfold piece in Hx. }
    case_bool_decide as Hx; rewrite bind_st; cbn [lb_put modify_st lb_decoder lb_pre lb_io].
    + rewrite bind_st. unfold lb_close. rewrite bind_st. cbn [get_st lb_io lb_put modify_st lb_decoder lb_pre].
      rewrite Hx in *. destruct (closable r1); cbn; apply Hgive; (split; [done|]); [by apply (text_done _ _ r1)|by apply (text_waiting _ _ r1)].
    + apply Hgive. split; [done|]. apply (text_open _ _ r1); try done. cbn. by rewrite Hpre.
  - destruct H as (Hr1 & Hrest & Hcalm). rewrite bind_st. cbn [lb_put modify_st lb_decoder lb_pre lb_io].
    assert (text_ok (mkLengthBody (lb_decoder s) (lb_pre s) (Held r1)) (conn_rest r)) as Hok by (split; [done|]; apply (text_open _ _ r1); try done; cbn; by rewrite Hpre, Hrest).
    destruct out as [|b out]; [by split|]. exists (conn_rest r). split_and!; [done|done|lia|done].
  - rewrite bind_st. done.
Qed.

(** All the bytes are read, and the connection has not told its end. *)
Lemma lb_wait_ok room r s : conn_ok r → 0 < room → pre_rest (lb_pre s) = [] → pre_ok (lb_pre s) → conn_rest r = [] →
  td_left (lb_decoder s) = 0 → reads text_ok lb_gone room [] (lb_poll_read_io (E := E) closable intercept_output room r [] s).
Proof.
  intros Hr Hroom Hpre Hp Hrest Hd. unfold lb_poll_read_io. rewrite len_nil, Z.sub_0_r. pose proof (poll_io_spec room r Hr Hroom) as H.
  destruct (poll_io room r) as [r1 [[filled|]|e|]]; [| | |done].
  - destruct H as (Hr1 & Hrest1 & Hlen & Hnil). rewrite Hrest in Hrest1. symmetry in Hrest1. apply app_eq_nil in Hrest1 as [-> Hrest1].
    destruct (Hnil eq_refl) as [_ ->]. rewrite bind_st. unfold lb_decode. rewrite bind_st. cbn [get_st]. unfold text_decode. rewrite Hd. cbn.
    exists []. split_and!; [|done|rewrite len_nil; lia|done]. split; [done|]. by apply (text_done _ _ r1).
  - destruct H as (Hr1 & Hrest1 & Hcalm). rewrite bind_st. cbn. split; [|done]. split; [done|]. apply (text_waiting _ _ r1); try done. by rewrite Hrest1.
  - rewrite bind_st. done.
Qed.

Lemma lb_data_ok room s l : 0 < room → text_ok s l → reads text_ok lb_gone room l (lb_data (E := E) closable intercept_output room s).
Proof.
  intros Hroom [Hp Hl]. unfold lb_data. destruct (Z.eqb_spec room 0); [lia|]. rewrite bind_st. cbn [get_st].
  pose proof (take_pre_spec (lb_pre s) room Hp Hroom) as H. destruct (take_pre (lb_pre s) room) as [pre out]. destruct H as (Hok & Hrest & Hlen & Hend & Hnil & _).
  rewrite bind_st. cbn [put_st]. rewrite bind_st. destruct Hl as [r Hio Hr -> Hd Hne|r Hio Hr Hpre Hcr Hd ->|r Hio Hr Hpre ->].
  2:{ rewrite Hpre in Hrest. symmetry in Hrest. apply app_eq_nil in Hrest as [-> Hpre']. cbn [mret ST_ret]. rewrite Hio, len_nil, Z.sub_0_r.
      destruct (Z.eqb_spec room 0); [lia|]. by apply lb_wait_ok. }
  2:{ rewrite Hpre in Hrest. symmetry in Hrest. apply app_eq_nil in Hrest as [-> Hpre']. cbn [mret ST_ret]. rewrite Hio. exists []. cbn.
      split_and!; [|done|rewrite len_nil; lia|by unfold lb_gone; rewrite ?Hio]. split; [done|]. by apply (text_done _ _ r). }
  set (s1 := mkLengthBody (lb_decoder s) pre (lb_io s)). set (l := pre_rest pre ++ conn_rest r).
  assert (pre_rest (lb_pre s) ++ conn_rest r = out ++ l) as Hl by (unfold l; by rewrite Hrest, <- app_assoc). rewrite Hl in *. pose proof (len_nonneg out).
  destruct out as [|b out].
  { cbn [mret ST_ret]. rewrite Hio. destruct (Z.eqb_spec (room - len (@nil Z)) 0) as [H0|H0]; [rewrite len_nil in H0; lia|]. specialize (Hnil eq_refl) as ->.
    by apply lb_io_ok. }
  set (piece := b :: out) in *. unfold read_remaining. rewrite bind_st, (lb_decode_ok piece l s1 Hd Hne). case_bool_decide as Hx.
  - rewrite bind_st. unfold lb_close. rewrite bind_st. cbn [get_st lb_io s1]. rewrite Hio. cbn [lb_put modify_st lb_decoder lb_pre].
    assert (pre_rest pre = [] ∧ conn_rest r = []) as [Hx1 Hx2] by by apply app_eq_nil.
    destruct (closable r); cbn; exists []; rewrite Hx; (split_and!; [|done|done|done]); (split; [done|]); [by apply (text_done _ _ r)|].
    apply (text_waiting _ _ r); try done.
  - cbn [mret ST_ret]. rewrite Hio. destruct (Z.eqb_spec (room - len piece) 0).
    + exists l. split_and!; [|done|done|done]. split; [done|]. by apply (text_open _ _ r).
    + pose proof (Hend ltac:(lia)) as Hpre. assert (l = conn_rest r) as Hlr by (unfold l; by rewrite Hpre). apply lb_io_ok; try done. lia.
Qed.

(** *** A body to the end of the connection, of which nothing was read ahead *)

Inductive until_ok (s : UntilCloseBody R) (l : bytes) : Prop :=
  | until_open r : uc_io s = Held r → conn_ok r → uc_pre s = None → l = conn_rest r → until_ok s l
  | until_done r : uc_io s = Gone r false → conn_ok r → uc_pre s = None → l = [] → until_ok s l.
Definition uc_gone (s : UntilCloseBody R) : Prop := given_up (uc_io s).

Lemma uc_data_ok room s l : 0 < room → until_ok s l → reads until_ok uc_gone room l (uc_data (E := E) closable intercept_output room s).
Proof.
  intros Hroom Hl. unfold uc_data. destruct (Z.eqb_spec room 0); [lia|]. rewrite bind_st. cbn [get_st].
  destruct Hl as [r Hio Hr Hpre ->|r Hio Hr Hpre ->]; rewrite Hpre; cbn [take_pre]; rewrite bind_st; cbn [put_st]; rewrite Hio.
  2:{ exists []. split_and!; [by apply (until_done _ _ r)|done|rewrite len_nil; lia|done]. }
  rewrite len_nil, Z.sub_0_r. destruct (Z.eqb_spec room 0); [lia|]. unfold uc_poll_read_io. rewrite len_nil, Z.sub_0_r.
  pose proof (poll_io_spec room r Hr Hroom) as H. destruct (poll_io room r) as [r1 [[filled|]|e|]]; [| | |done].
  - destruct H as (Hr1 & Hrest & Hlen & Hnil). destruct filled as [|c filled].
    + destruct (Hnil eq_refl) as [Hz ->]. rewrite bind_st. cbn [uc_put modify_st uc_pre uc_io]. rewrite Hz. exists []. split_and!; [by apply (until_done _ _ r1)|done|done|done].
    + destruct (intercept_output (c :: filled)) eqn:Ei; rewrite bind_st; cbn [uc_put modify_st uc_pre]; [|split; [done|by eapply intercepted]].
      exists (conn_rest r1). split_and!; [by apply (until_open _ _ r1)|done|done|done].
  - destruct H as (Hr1 & Hrest & Hcalm). rewrite bind_st. cbn [uc_put modify_st uc_pre pending_or]. split; [|done]. by apply (until_open _ _ r1).
  - rewrite bind_st. done.
Qed.

(** A poll does not change the kind of a body. *)
Lemma http_poll_none clos intercept fuel late room (k : Kind R) : kind_io (http_poll_data (E := E) clos intercept fuel late room k).1 = None → kind_io k = None.
Proof.
  unfold http_poll_data, on_kind. destruct (room =? 0); [done|]. destruct late; [done|]. destruct k as [|b|b|b]; [done|..].
  - by destruct (lb_data clos intercept room b).
  - by destruct (cb_data intercept fuel room b).
  - by destruct (uc_data clos intercept room b).
Qed.
Lemma http_read_none clos intercept fuel rooms (k : Kind R) : kind_io (http_read (E := E) clos intercept fuel rooms k).1.1 = None → kind_io k = None.
Proof.
  revert k. induction rooms as [|room rooms IH]; intros k; [done|]. cbn [http_read]. pose proof (http_poll_none clos intercept fuel false room k) as H.
  destruct (http_poll_data _ _ _ _ _ k) as [k1 [[[|b out]|]|e|]]; cbn [fst] in *; try done; specialize (IH k1).
  - destruct (http_read _ _ _ _ k1) as [[k2 more] x]. cbn in *. auto.
  - auto.
Qed.

(** *** Every body *)

Definition http_ok (k : Kind R) (l : bytes) : Prop :=
  match k with KEmpty => l = [] | KText b => text_ok b l | KChunk b => chunk_ok b l | KUntilClose b => until_ok b l end.
Definition http_gone (k : Kind R) : Prop := match kind_io k with Some io => given_up io | None => True end.
Definition kind_rest (k : Kind R) : bytes := match kind_io k with Some io => io_rest io | None => [] end.

Lemma reads_on_kind {S} (f : S → Kind R) ok gone room l s (m : ST S (HttpBodyError E) (Poll bytes)) :
  (∀ s l, ok s l → http_ok (f s) l) → (∀ s, gone s → http_gone (f s)) → reads ok gone room l (m s) → reads http_ok http_gone room l (on_kind f s m).
Proof.
  intros Hok Hgone. unfold on_kind. destruct (m s) as [s' [[out|]| |]]; cbn; [| |done..].
  - intros (l' & H1 & H2 & H3 & H4). exists l'. split_and!; [by apply Hok|done..|]. intros Ho. destruct (H4 Ho) as [-> Hg]. split; [done|by apply Hgone].
  - intros [H1 H2]. split; [by apply Hok|done].
Qed.

Context (fuel : nat).
Hypothesis conn_bound : ∀ r, conn_ok r → (length (conn_rest r) < fuel)%nat.

Hypothesis fuel_pos : (0 < fuel)%nat.

Lemma http_poll_ok room k l : 0 < room → http_ok k l →
  reads http_ok http_gone room l (http_poll_data (E := E) closable intercept_output fuel false room k).
Proof.
  intros Hroom Hk. unfold http_poll_data. destruct (Z.eqb_spec room 0); [lia|]. destruct k as [|b|b|b].
  - cbn in *. exists []. split_and!; (done || rewrite len_nil; lia).
  - apply (reads_on_kind _ text_ok lb_gone); [done..|]. by apply lb_data_ok.
  - apply (reads_on_kind _ chunk_ok cb_gone); [done..|]. apply cb_data_ok; [|done..].
    destruct Hk as [_ [r num a es Hio Hr _ _ _|r ? ? ? ? Hio|r Hio]]; rewrite Hio; [by apply conn_bound|cbn..].
    all: apply fuel_pos.
  - apply (reads_on_kind _ until_ok uc_gone); [done..|]. by apply uc_data_ok.
Qed.

Lemma http_read_ok rooms k l : Forall (λ room, 0 < room) rooms → http_ok k l →
  let '(k', data, x) := http_read (E := E) closable intercept_output fuel rooms k in
  ∃ l', l = data ++ l' ∧
    match x with
    | Ok true => l' = [] ∧ http_gone k'
    | Ok false => ¬ calm ∨ (length rooms <= length data)%nat
    | Err e => io_errors e ∧ ¬ calm
    | Panic => False
    end.
Proof.
  revert k l. induction rooms as [|room rooms IH]; intros k l Hrooms Hk; cbn [http_read].
  { exists l. split; [done|]. right. cbn. lia. }
  inversion Hrooms as [|? ? Hroom Hrooms']; subst. pose proof (http_poll_ok room k l Hroom Hk) as H.
  destruct (http_poll_data _ _ _ _ _ k) as [k1 [[out|]|e|]]; cbn [reads] in H; [| | |done].
  - destruct H as (l1 & Hk1 & -> & Hlen & Hnil). destruct out as [|b out]; [destruct (Hnil eq_refl) as [-> Hg]; by exists []|].
    specialize (IH k1 l1 Hrooms' Hk1). destruct (http_read _ _ _ _ k1) as [[k2 more] x]. destruct IH as (l' & -> & Hx). exists l'. split; [by rewrite <- app_assoc|].
    destruct x as [[]| |]; [done| |done..]. destruct Hx as [Hx|Hx]; [by constructor|]. right. cbn [length app]. rewrite length_app. lia.
  - destruct H as [Hk1 Hc]. specialize (IH k1 l Hrooms' Hk1). destruct (http_read _ _ _ _ k1) as [[k2 more] x]. destruct IH as (l' & -> & Hx). exists l'.
    split; [done|]. destruct x as [[]| |]; [done|by left|done..].
  - exists l. done.
Qed.
End laws.

(** A connection of HTTP/1.1 may be given up at any time. *)
Lemma always_closable {E R : Type} `{!AsyncRead E R} (conn_ok : R → Prop) : tells_end (E := E) conn_ok (λ _, true).
Proof. intros r b _ _. by destruct (poll_read (r, b)) as [[r' b'] [[]| |]]. Qed.

(** The fuel is for the bytes that the connection still gives. *)
Lemma http_read_bounded {E R : Type} `{!AsyncRead E R} (intercept_output : bytes → bool) (conn_ok : R → Prop) (conn_rest : R → bytes)
    (conn_poll : ∀ r b, conn_ok r → 0 ≤ rb_room b → poll_spec (E := E) conn_rest r b (poll_read (r, b)) ∧ conn_ok (poll_read (E := E) (r, b)).1.1)
    (closable : R → bool) (conn_end : tells_end (E := E) conn_ok closable) fuel rooms k content :
  (0 < fuel)%nat → Forall (λ room, 0 < room) rooms → http_ok (λ r, conn_ok r ∧ (length (conn_rest r) < fuel)%nat) conn_rest k content →
  let '(k', data, x) := http_read (E := E) closable intercept_output fuel rooms k in
  ∃ rest, content = data ++ rest ∧
    match x with
    | Ok true => rest = [] ∧ http_gone conn_ok k'
    | Ok false => calm (E := E) intercept_output conn_ok → (length rooms <= length data)%nat
    | Err e => io_errors e ∧ ¬ calm (E := E) intercept_output conn_ok
    | Panic => False
    end.
Proof.
  intros Hf Hrooms Hk. set (ok r := conn_ok r ∧ (length (conn_rest r) < fuel)%nat) in *.
  assert (calm (E := E) intercept_output conn_ok → calm (E := E) intercept_output ok) as Hcalm by (intros [H1 H2]; split; [intros r b [Hr _]; by apply H1|done]).
  assert (∀ r b, ok r → 0 ≤ rb_room b → poll_spec (E := E) conn_rest r b (poll_read (r, b)) ∧ ok (poll_read (E := E) (r, b)).1.1) as Hpoll.
  { intros r b [Hr Hlen] Hroom. destruct (conn_poll r b Hr Hroom) as [H1 H2]. split; [done|]. split; [done|]. destruct H1 as (out & _ & H & _).
    rewrite H, length_app in Hlen. lia. }
  pose proof (http_read_ok intercept_output ok conn_rest Hpoll closable (λ r b Hr, conn_end r b (proj1 Hr)) fuel (λ r Hr, proj2 Hr) Hf rooms k content Hrooms Hk) as H.
  destruct (http_read _ _ _ _ k) as [[k' data] x]. destruct H as (rest & -> & Hx). exists rest. split; [done|]. destruct x as [[]|e|]; [| | |done].
  - destruct Hx as [-> Hg]. split; [done|]. unfold http_gone, given_up in *. destruct (kind_io k') as [[|r []]|]; try done. by destruct Hg.
  - intros Hc. destruct Hx as [Hx|]; [by destruct Hx; apply Hcalm|done].
  - destruct Hx as [He Hc]. split; [done|]. intros H. by apply Hc, Hcalm.
Qed.

(** ** The bodies of responses *)

Section responses.
Context {E R : Type} `{!AsyncRead E R} (intercept_output : bytes → bool).
Context (conn_ok : R → Prop) (conn_rest : R → bytes).

(** The bytes behind the head, of which [pre] is read, are a body with this
    content: they are as long as was told, or chunks to the last one, or come from
    a connection that closes at their end. *)
Definition is_body (length : BodyLength) (io : R) (pre content : bytes) : Prop :=
  match length with
  | BEmpty => pre = [] ∧ content = []
  | BLength n => content = pre ++ conn_rest io ∧ n = len content ∧ content ≠ []
  | BChunk => ∃ es, run (ASize 0) (pre ++ conn_rest io) = (es, Done []) ∧ content = data_of es
  | BUntilClose => pre = [] ∧ content = conn_rest io
  end.

Lemma http_new_ok length io pre content : conn_ok io → is_body length io pre content →
  match HttpBody_new (E := E) length io pre with inl k => http_ok conn_ok conn_rest k content | inr _ => False end.
Proof.
  intros Hio Hb. assert (pre_ok (PreRead_new pre) ∧ pre_rest (PreRead_new pre) = pre) as [Hp Hpre].
  { destruct pre; [done|]. cbn. split; [pose proof (len_nonneg (z :: pre)); lia|done]. }
  destruct length as [|n| |]; cbn in *.
  - destruct Hb as (es & Hrun & ->). split; [done|]. apply (chunk_open _ _ _ _ io 0 (ASize 0) es); try done; [apply relT_new|]. cbn. by rewrite Hpre.
  - destruct Hb as (-> & -> & Hne). split; [done|]. apply (text_open _ _ _ _ io); try done. cbn. by rewrite Hpre.
  - by destruct Hb as [-> ->].
  - destruct Hb as [-> ->]. by apply (until_open _ _ _ _ io).
Qed.
End responses.


#[local] Abbreviation crlf := [CR; LF].

(** ** Examples

    The connection is a slice that has all its bytes at once. *)

Lemma slice_poll_ok {E} (r : bytes) b : True → 0 ≤ rb_room b → poll_spec (E := E) (λ l, l) r b (poll_read (r, b)) ∧ True.
Proof.
  intros _ Hroom. split; [|done]. unfold poll_read, slice_AsyncRead, slice_read. exists (takeZ (rb_room b) r). cbn [fst snd].
  split_and!; [done|by rewrite takeZ_dropZ|rewrite len_takeZ_min by done; lia|]. intros H. by apply takeZ_nil_inv.
Qed.

Definition open_read (n : BodyLength) (io pre : bytes) (rooms : list Z) : option (Io bytes) * bytes * result (HttpBodyError ()) bool :=
  match HttpBody_new (E := ()) n io pre with
  | inl k => let '(k, data, x) := http_read (λ _, true) (λ _, true) 100 rooms k in (kind_io k, data, x)
  | inr (e, io) => (Some io, [], Err e)
  end.


(** The connection ends too early, or gives too much: an error, and the connection
    is shut down. *)
Example text_too_short : open_read (BLength 5) (bs "o") (bs "hel") [2; 2; 2; 2] = (Some (Gone [] true), bs "helo", Err Incomplete).
Proof. by vm_compute. Qed.
Example text_too_long : open_read (BLength 5) (bs "lo HTTP/1.1") (bs "hel") [4; 4; 4; 4] = (Some (Gone (bs "TP/1.1") true), bs "hell", Err NotEof).
Proof. by vm_compute. Qed.
Example chunks_too_short : open_read BChunk (bs "lo") (bs "5" ++ crlf ++ bs "hel") [4; 4; 4; 4] = (Some (Gone [] true), bs "hello", Err Incomplete).
Proof. by vm_compute. Qed.

(** A body to the end of the connection whose end is found while bytes that were
    read ahead are in the buffer: the bytes are lost, and the read tells the end. *)
Example until_close_loses : open_read BUntilClose [] (bs "hello") [10; 10] = (Some (Gone [] false), [], Ok true).
Proof. by vm_compute. Qed.

(** A chunk that cannot be read: the connection is given back as if the body were
    read, with bytes of the body before its next response. *)
Example chunk_error_keeps : open_read BChunk (bs "x" ++ crlf ++ bs "hello") [] [3; 3] = (Some (Gone (bs "hello") false), [], Err (BadChunk InvalidInput)).
Proof. by vm_compute. Qed.

(** A buffer that ends behind the size of the last chunk: the body ends and the
    connection is given back with the line ends of the body unread. *)
Example chunk_end_keeps : open_read BChunk (bs "3" ++ crlf ++ bs "hel" ++ crlf ++ bs "0" ++ crlf ++ crlf) [] [9; 2] = (Some (Gone crlf false), bs "hel", Ok true).
Proof. by vm_compute. Qed.

(** [poll_trailer] on a body that is not read to its end: the data that it reads
    are lost. *)
Example trailer_loses_data :
  match HttpBody_new (E := ()) BChunk (bs "3" ++ crlf ++ bs "hel" ++ crlf) [] with
  | inl k =>
      match http_poll_trailer (E := ()) (λ _, true) 100 false k with
      | (k, Ok (Ready None)) => http_read (E := ()) (λ _, true) (λ _, true) 100 [8] k
      | _ => (k, [], Panic)
      end
  | _ => (KEmpty, [], Panic)
  end.2 = Err Incomplete.
Proof. by vm_compute. Qed.
