(* ===== verification/RateLimit.v ===== *)
(** * Speed limits

    Models [src/ylong_http_client/src/util/progress/rate_limit.rs]: a limit of the
    bytes per second, with sleeps where a transfer is too fast and an error where it
    is too slow, and the controller that holds such limits for sending and receiving.

    [Duration] and [Instant] are nanoseconds, the present is an argument [now], and a
    timer is the instant at which it is over.  Lengths of time do not overflow: the
    clock does not reach [2 ^ 64] seconds. *)

From S2P Require Import Prelude.
#[local] Open Scope Z_scope.

Definition from_millis (ms : Z) : Z := ms * 10 ^ 6.
Definition from_secs (s : Z) : Z := s * 10 ^ 9.
Definition as_secs (d : Z) : Z := d / 10 ^ 9.
Definition SPEED_CHECK_PERIOD : Z := from_millis 1000.

(** Arithmetic of [u64] and of [Duration] that panics. *)
Inductive BelowLimit := BelowLowSpeed.
Definition u64_ok (x : Z) : result BelowLimit Z := if x <? U64 then Ok x else Panic.
Definition u64_div (a b : Z) : result BelowLimit Z := if b =? 0 then Panic else Ok (a / b).
Definition duration_sub (a b : Z) : result BelowLimit Z := if b <=? a then Ok (a - b) else Panic.

Record SpeedLimit := mkSpeedLimit {
  sl_rate : Z; sl_period : Z; min_speed_interval : Z; min_speed_start : option Z; period_data : Z; elapsed_time : Z;
  max_speed_allowed_bytes : Z; sl_start : option Z; sl_delay : option Z; sl_timeout : option Z }.

Definition SpeedLimit_new (now rate period interval : Z) : result BelowLimit SpeedLimit :=
  allowed ← u64_ok (rate * as_secs period);
  Ok (mkSpeedLimit rate period interval None 0 0 allowed None None (Some (now + interval))).

Definition SpeedLimit_clone (l : SpeedLimit) : SpeedLimit :=
  mkSpeedLimit (sl_rate l) (sl_period l) (min_speed_interval l) None (period_data l) (elapsed_time l) (max_speed_allowed_bytes l) None None None.

(** The fields that the operations set. *)
Definition sl_set_start (x : option Z) (l : SpeedLimit) : SpeedLimit :=
  mkSpeedLimit (sl_rate l) (sl_period l) (min_speed_interval l) (min_speed_start l) (period_data l) (elapsed_time l) (max_speed_allowed_bytes l) x (sl_delay l) (sl_timeout l).
Definition sl_set_min_start (x : option Z) (l : SpeedLimit) : SpeedLimit :=
  mkSpeedLimit (sl_rate l) (sl_period l) (min_speed_interval l) x (period_data l) (elapsed_time l) (max_speed_allowed_bytes l) (sl_start l) (sl_delay l) (sl_timeout l).
Definition sl_set_counts (data elapsed : Z) (l : SpeedLimit) : SpeedLimit :=
  mkSpeedLimit (sl_rate l) (sl_period l) (min_speed_interval l) (min_speed_start l) data elapsed (max_speed_allowed_bytes l) (sl_start l) (sl_delay l) (sl_timeout l).
Definition sl_set_delay (x : option Z) (l : SpeedLimit) : SpeedLimit :=
  mkSpeedLimit (sl_rate l) (sl_period l) (min_speed_interval l) (min_speed_start l) (period_data l) (elapsed_time l) (max_speed_allowed_bytes l) (sl_start l) x (sl_timeout l).
Definition sl_set_timeout (x : option Z) (l : SpeedLimit) : SpeedLimit :=
  mkSpeedLimit (sl_rate l) (sl_period l) (min_speed_interval l) (min_speed_start l) (period_data l) (elapsed_time l) (max_speed_allowed_bytes l) (sl_start l) (sl_delay l) x.

Definition next_period (l : SpeedLimit) : SpeedLimit := sl_set_start None (sl_set_counts 0 0 l).
Definition next_interval (l : SpeedLimit) : SpeedLimit := sl_set_min_start None l.
Definition init_if_not_start (now : Z) (l : SpeedLimit) : SpeedLimit :=
  match sl_start l with None => sl_set_start (Some now) l | Some _ => l end.

(** A timer is over from its instant on. *)
Definition timer_ready (now : Z) (t : option Z) : bool := match t with Some t => t <=? now | None => false end.
Definition poll_pending_timeout (now : Z) (l : SpeedLimit) : bool := timer_ready now (sl_timeout l).
Definition reset_pending_timeout (now : Z) (l : SpeedLimit) : SpeedLimit := sl_set_timeout (Some (now + min_speed_interval l)) l.
(** [true] is [Ready]. *)
Definition poll_max_limited_delay (now : Z) (l : SpeedLimit) : SpeedLimit * bool :=
  match sl_delay l with
  | Some t => if t <=? now then (next_period (sl_set_delay None l), true) else (l, false)
  | None => (l, true)
  end.

Abbreviation SL := (ST SpeedLimit BelowLimit).

(** Take the start of a transfer that ends [now] and count it; [None] when none
    was started. *)
Definition count_time (now : Z) : SL (option Z) :=
  l ← get_st;
  match sl_start l with
  | None => mret None
  | Some start => _ ← put_st (sl_set_start None (sl_set_counts (period_data l) (elapsed_time l + Z.max 0 (now - start)) l)); mret (Some start)
  end.
Definition count_data (n : Z) : SL () :=
  l ← get_st; data ← lift_res (u64_ok (period_data l + n)); put_st (sl_set_counts data (elapsed_time l) l).
(** The time that the data of the period needs at the rate. *)
Definition limited_time : SL Z :=
  l ← get_st; x ← lift_res (u64_ok (period_data l * 1000)); ms ← lift_res (u64_div x (sl_rate l)); mret (from_millis ms).

(** [limit_max_speed]: the time that it sleeps. *)
Definition limit_max_speed (now n : Z) : SL Z :=
  started ← count_time now;
  match started with
  | None => mret 0
  | Some _ =>
      _ ← count_data n;
      l ← get_st;
      if elapsed_time l <? sl_period l then
        if max_speed_allowed_bytes l <=? period_data l then
          t ← limited_time; d ← lift_res (duration_sub t (elapsed_time l)); _ ← modify_st next_period; mret d
        else mret 0
      else
        t ← limited_time;
        d ← (if elapsed_time l <? t then lift_res (duration_sub t (elapsed_time l)) else mret 0);
        _ ← modify_st next_period; mret d
  end.

(** [delay_max_speed_limit] sets a timer instead. *)
Definition delay_max_speed_limit (now n : Z) : SL () :=
  started ← count_time now;
  match started with
  | None => mret ()
  | Some _ =>
      _ ← count_data n;
      l ← get_st;
      if elapsed_time l <? sl_period l then
        if max_speed_allowed_bytes l <=? period_data l then
          t ← limited_time; d ← lift_res (duration_sub t (elapsed_time l)); modify_st (sl_set_delay (Some (now + d)))
        else mret ()
      else
        t ← limited_time;
        if elapsed_time l <? t then d ← lift_res (duration_sub t (elapsed_time l)); modify_st (sl_set_delay (Some (now + d)))
        else modify_st next_period
  end.

Definition check_min_speed (now n : Z) : SL () :=
  _ ← count_data n;
  t ← limited_time;
  l ← get_st;
  _ ← (if t <? elapsed_time l then
         match min_speed_start l with
         | Some s => if min_speed_interval l <? Z.max 0 (now - s) then throw BelowLowSpeed else mret ()
         | None => mret ()
         end
       else modify_st next_interval);
  modify_st next_period.

Definition limit_min_speed (now n : Z) : SL () :=
  started ← count_time now;
  match started with
  | None => mret ()
  | Some start =>
      _ ← modify_st (λ l, match min_speed_start l with None => sl_set_min_start (Some start) l | Some _ => l end);
      l ← get_st;
      if sl_period l <=? elapsed_time l then check_min_speed now n else count_data n
  end.

(** ** [RateLimit] *)

Record RateLimit := mkRateLimit { min_speed : option SpeedLimit; max_speed : option SpeedLimit }.
Definition RateLimit_default : RateLimit := mkRateLimit None None.
Definition set_min_speed (now rate period interval : Z) (r : RateLimit) : result BelowLimit RateLimit :=
  l ← SpeedLimit_new now rate period interval; Ok (mkRateLimit (Some l) (max_speed r)).
Definition set_max_speed (now rate period : Z) (r : RateLimit) : result BelowLimit RateLimit :=
  l ← SpeedLimit_new now rate period 0; Ok (mkRateLimit (min_speed r) (Some l)).
Definition need_limit_max_speed (r : RateLimit) : bool := match max_speed r with Some _ => true | None => false end.

(** An operation of one of the limits, where there is one. *)
Definition on_opt {A : Type} (d : A) (m : SL A) (o : option SpeedLimit) : option SpeedLimit * result BelowLimit A :=
  match o with Some l => let (l, x) := m l in (Some l, x) | None => (None, Ok d) end.
Definition on_min {A : Type} (d : A) (m : SL A) : ST RateLimit BelowLimit A := λ r, let (o, x) := on_opt d m (min_speed r) in (mkRateLimit o (max_speed r), x).
Definition on_max {A : Type} (d : A) (m : SL A) : ST RateLimit BelowLimit A := λ r, let (o, x) := on_opt d m (max_speed r) in (mkRateLimit (min_speed r) o, x).

Definition init_max_limit_if_not_start (now : Z) : ST RateLimit BelowLimit () := on_max () (modify_st (init_if_not_start now)).
Definition init_min_limit_if_not_start (now : Z) : ST RateLimit BelowLimit () := on_min () (modify_st (init_if_not_start now)).
Definition max_speed_limit (now n : Z) : ST RateLimit BelowLimit Z := on_max 0 (limit_max_speed now n).
Definition rl_delay_max_speed_limit (now n : Z) : ST RateLimit BelowLimit () := on_max () (delay_max_speed_limit now n).
Definition min_speed_limit (now n : Z) : ST RateLimit BelowLimit () := on_min () (limit_min_speed now n).
Definition rl_reset_pending_timeout (now : Z) : ST RateLimit BelowLimit () := on_min () (modify_st (reset_pending_timeout now)).
Definition rl_poll_pending_timeout (now : Z) : ST RateLimit BelowLimit bool := on_min false (l ← get_st; mret (poll_pending_timeout now l)).
Definition poll_limited_delay (now : Z) : ST RateLimit BelowLimit bool := on_max true (λ l, let (l, x) := poll_max_limited_delay now l in (l, Ok x)).

(** ** [SpeedConfig] and [SpeedController] *)

Record SpeedConfig := mkSpeedConfig {
  max_recv_speed : option Z; min_recv_speed : option Z; max_send_speed : option Z; min_send_speed : option Z; min_interval : option Z }.
Definition SpeedConfig_none : SpeedConfig := mkSpeedConfig None None None None None.
Definition set_max_rate (rate : Z) (c : SpeedConfig) : SpeedConfig := mkSpeedConfig (Some rate) (min_recv_speed c) (Some rate) (min_send_speed c) (min_interval c).
Definition set_min_rate (rate : Z) (c : SpeedConfig) : SpeedConfig := mkSpeedConfig (max_recv_speed c) (Some rate) (max_send_speed c) (Some rate) (min_interval c).
Definition set_min_speed_interval (s : Z) (c : SpeedConfig) : SpeedConfig :=
  mkSpeedConfig (max_recv_speed c) (min_recv_speed c) (max_send_speed c) (min_send_speed c) (Some s).

Record SpeedController := mkSpeedController { send_rate_limit : RateLimit; recv_rate_limit : RateLimit }.
Definition SpeedController_none : SpeedController := mkSpeedController RateLimit_default RateLimit_default.

Definition opt_min (now : Z) (speed interval : option Z) (r : RateLimit) : result BelowLimit RateLimit :=
  match speed, interval with
  | Some speed, Some interval => set_min_speed now speed SPEED_CHECK_PERIOD (from_secs interval) r
  | _, _ => Ok r
  end.
Definition opt_max (now : Z) (speed : option Z) (r : RateLimit) : result BelowLimit RateLimit :=
  match speed with Some speed => set_max_speed now speed SPEED_CHECK_PERIOD r | None => Ok r end.
Definition set_speed_limit (now : Z) (c : SpeedConfig) (s : SpeedController) : result BelowLimit SpeedController :=
  r ← opt_max now (max_recv_speed c) (recv_rate_limit s);
  r ← opt_min now (min_recv_speed c) (min_interval c) r;
  w ← opt_max now (max_send_speed c) (send_rate_limit s);
  w ← opt_min now (min_send_speed c) (min_interval c) w;
  Ok (mkSpeedController w r).

(** The operations of the controller, each on one of its limits. *)
Definition on_send {A : Type} (m : ST RateLimit BelowLimit A) : ST SpeedController BelowLimit A := zoom send_rate_limit (λ r s, mkSpeedController r (recv_rate_limit s)) m.
Definition on_recv {A : Type} (m : ST RateLimit BelowLimit A) : ST SpeedController BelowLimit A := zoom recv_rate_limit (λ r s, mkSpeedController (send_rate_limit s) r) m.
Definition need_limit_max_send_speed (s : SpeedController) : bool := need_limit_max_speed (send_rate_limit s).
Definition max_send_speed_limit (now n : Z) := on_send (max_speed_limit now n).
Definition delay_max_recv_speed_limit (now n : Z) := on_recv (rl_delay_max_speed_limit now n).
Definition delay_max_send_speed_limit (now n : Z) := on_send (rl_delay_max_speed_limit now n).
Definition min_send_speed_limit (now n : Z) := on_send (min_speed_limit now n).
Definition reset_send_pending_timeout (now : Z) := on_send (rl_reset_pending_timeout now).
Definition min_recv_speed_limit (now n : Z) := on_recv (min_speed_limit now n).
Definition reset_recv_pending_timeout (now : Z) := on_recv (rl_reset_pending_timeout now).
Definition poll_max_recv_delay_time (now : Z) := on_recv (poll_limited_delay now).
Definition poll_recv_pending_timeout (now : Z) := on_recv (rl_poll_pending_timeout now).
Definition poll_send_pending_timeout (now : Z) := on_send (rl_poll_pending_timeout now).
Definition poll_max_send_delay_time (now : Z) := on_send (poll_limited_delay now).
Definition init_max_send_if_not_start (now : Z) := on_send (init_max_limit_if_not_start now).
Definition init_min_send_if_not_start (now : Z) := on_send (init_min_limit_if_not_start now).
Definition init_max_recv_if_not_start (now : Z) := on_recv (init_max_limit_if_not_start now).
Definition init_min_recv_if_not_start (now : Z) := on_recv (init_min_limit_if_not_start now).

(** ** Runs of transfers

    A transfer begins [tr_gap] after the last one, takes [tr_time] and moves
    [tr_bytes]; a sleep takes [tr_late] longer than it was asked for. *)
Record Transfer := mkTransfer { tr_gap : Z; tr_time : Z; tr_bytes : Z; tr_late : Z }.
Definition transfer_ok (t : Transfer) : Prop := 0 ≤ tr_gap t ∧ 0 ≤ tr_time t ∧ 0 ≤ tr_bytes t ∧ 0 ≤ tr_late t.
Fixpoint total_bytes (ts : list Transfer) : Z := match ts with [] => 0 | t :: ts => tr_bytes t + total_bytes ts end.

(** The instant at which the last transfer, and the sleep behind it, is over. *)
Fixpoint max_run (now : Z) (ts : list Transfer) : SL Z :=
  match ts with
  | [] => mret now
  | t :: ts =>
      _ ← modify_st (init_if_not_start (now + tr_gap t));
      d ← limit_max_speed (now + tr_gap t + tr_time t) (tr_bytes t);
      max_run (now + tr_gap t + tr_time t + d + tr_late t) ts
  end.
Fixpoint min_run (now : Z) (ts : list Transfer) : SL Z :=
  match ts with
  | [] => mret now
  | t :: ts =>
      _ ← modify_st (init_if_not_start (now + tr_gap t));
      _ ← limit_min_speed (now + tr_gap t + tr_time t) (tr_bytes t);
      min_run (now + tr_gap t + tr_time t) ts
  end.

Lemma total_bytes_nonneg ts : Forall transfer_ok ts → 0 ≤ total_bytes ts.
Proof. induction 1 as [|t ts (_ & _ & ? & _) _ IH]; cbn; lia. Qed.

(** Between two transfers. *)
Definition rests (l : SpeedLimit) (rate : Z) : Prop := sl_rate l = rate ∧ sl_period l = 10 ^ 9 ∧ sl_start l = None ∧ 0 ≤ period_data l ∧ 0 ≤ elapsed_time l.

Lemma count_time_started now s l : sl_start l = Some s → s ≤ now →
  count_time now l = (sl_set_start None (sl_set_counts (period_data l) (elapsed_time l + (now - s)) l), Ok (Some s)).
Proof. intros Hs Hle. unfold count_time. rewrite bind_st. cbn [get_st]. rewrite Hs, bind_st. cbn [put_st mret ST_ret]. by rewrite Z.max_r by lia. Qed.

Lemma count_data_ok n l : period_data l + n < U64 → count_data n l = (sl_set_counts (period_data l + n) (elapsed_time l) l, Ok ()).
Proof. intros H. unfold count_data. rewrite bind_st. cbn [get_st]. rewrite bind_st. unfold u64_ok. destruct (Z.ltb_spec (period_data l + n) U64); [done|lia]. Qed.

Lemma limited_time_ok l : period_data l * 1000 < U64 → 0 < sl_rate l → limited_time l = (l, Ok (10 ^ 6 * (period_data l * 1000 / sl_rate l))).
Proof.
  intros Hd Hr. unfold limited_time. rewrite bind_st. cbn [get_st]. rewrite bind_st. unfold u64_ok. destruct (Z.ltb_spec (period_data l * 1000) U64); [|lia].
  cbn [lift_res]. rewrite bind_st. unfold u64_div. destruct (Z.eqb_spec (sl_rate l) 0); [lia|]. unfold from_millis. by rewrite (Z.mul_comm (10 ^ 6)).
Qed.

Lemma limit_max_once rate now s n l : sl_rate l = rate → sl_period l = 10 ^ 9 → max_speed_allowed_bytes l = rate → sl_start l = Some s → s ≤ now →
  0 < rate → 0 ≤ period_data l → 0 ≤ elapsed_time l → 0 ≤ n → (period_data l + n) * 1000 < U64 →
  let data := period_data l + n in let elapsed := elapsed_time l + (now - s) in let t := 10 ^ 6 * (data * 1000 / rate) in
  ∃ l' d, limit_max_speed now n l = (l', Ok d) ∧ 0 ≤ d ∧ rests l' rate ∧ max_speed_allowed_bytes l' = rate ∧
    ((period_data l' = data ∧ elapsed_time l' = elapsed ∧ data < rate) ∨ (period_data l' = 0 ∧ elapsed_time l' = 0 ∧ t ≤ elapsed + d ∧ 10 ^ 9 ≤ elapsed + d)).
Proof.
  intros Hr Hp Ha Hs Hle Hpos Hd He Hn Hb data elapsed t. unfold limit_max_speed. rewrite bind_st, (count_time_started now s l Hs Hle), bind_st, count_data_ok by (cbn; lia).
  rewrite bind_st. cbn [get_st sl_set_start sl_set_counts elapsed_time sl_period max_speed_allowed_bytes period_data]. fold data elapsed. rewrite Hp, Ha.
  destruct (Z.ltb_spec elapsed (10 ^ 9)).
  - destruct (Z.leb_spec rate data).
    + rewrite bind_st, limited_time_ok by (cbn; lia). cbn [sl_set_start sl_set_counts period_data sl_rate]. rewrite Hr. fold t. unfold duration_sub.
      assert (10 ^ 9 ≤ t) by (unfold t; pose proof (Z.div_le_lower_bound (data * 1000) rate 1000 Hpos ltac:(lia)); lia). destruct (Z.leb_spec elapsed t); [|lia].
      eexists _, (t - elapsed). split; [reflexivity|]. unfold rests. cbn. split_and!; try done; try lia.
    + eexists _, 0. split; [reflexivity|]. unfold rests. cbn. split_and!; try done; try lia.
  - rewrite bind_st, limited_time_ok by (cbn; lia). cbn [sl_set_start sl_set_counts period_data sl_rate]. rewrite Hr. fold t. unfold duration_sub.
    rewrite bind_st. destruct (Z.ltb_spec elapsed t) as [Hlt|Hge].
    + destruct (Z.leb_spec elapsed t); [|lia]. eexists _, (t - elapsed). split; [reflexivity|]. unfold rests. cbn. split_and!; try done; try lia.
    + eexists _, 0. split; [reflexivity|]. unfold rests. cbn. split_and!; try done; try lia.
Qed.

(** A period that is over kept the rate, up to the rounding to milliseconds. *)
Lemma period_rate rate data x : 0 < rate → 10 ^ 6 * (data * 1000 / rate) ≤ x → 10 ^ 9 ≤ x → data * 10 ^ 12 ≤ rate * (1001 * x).
Proof.
  intros Hr Ht Hx. pose proof (Z.mul_succ_div_gt (data * 1000) rate Hr) as H. set (q := data * 1000 / rate) in *.
  assert (rate * q ≤ data * 1000) by (apply Z.mul_div_le; lia).
  assert (data * 1000 ≤ rate * (q + 1)) by lia. assert (rate * (10 ^ 6 * q) ≤ rate * x) by (apply Z.mul_le_mono_nonneg_l; lia).
  assert (rate * 10 ^ 9 ≤ rate * x) by (apply Z.mul_le_mono_nonneg_l; lia). lia.
Qed.

Lemma max_run_bound rate now ts l : rests l rate → max_speed_allowed_bytes l = rate → 0 < rate → period_data l < rate → Forall transfer_ok ts → (period_data l + total_bytes ts) * 1000 < U64 →
  ∃ l' now', max_run now ts l = (l', Ok now') ∧ (period_data l + total_bytes ts) * 10 ^ 12 ≤ rate * (1001 * (elapsed_time l + (now' - now)) + 10 ^ 12).
Proof.
  intros Hl Ha Hr Hd Hts Hb. revert now l Hl Ha Hd Hb. induction Hts as [|t ts (Hg & Ht & Hn & Hlate) Hts IH]; intros now l (H1 & H2 & H3 & H4 & H5) Ha Hd Hb.
  { exists l, now. split; [done|]. cbn [total_bytes] in *. assert (0 ≤ rate * elapsed_time l) by (apply Z.mul_nonneg_nonneg; lia). lia. }
  pose proof (total_bytes_nonneg ts Hts) as Hrest. cbn [max_run total_bytes] in *. rewrite bind_st. cbn [modify_st]. unfold init_if_not_start. rewrite H3. rewrite bind_st.
  destruct (limit_max_once rate (now + tr_gap t + tr_time t) (now + tr_gap t) (tr_bytes t) (sl_set_start (Some (now + tr_gap t)) l)) as (l1 & d & E1 & Hd0 & Hl1 & Ha1 & Hcase); try (done || cbn; lia).
  cbn [sl_set_start period_data elapsed_time] in Hcase. rewrite E1. set (now1 := now + tr_gap t + tr_time t + d + tr_late t). replace (now + tr_gap t + tr_time t - (now + tr_gap t)) with (tr_time t) in Hcase by lia.
  destruct Hcase as [(Hd1 & He1 & Hlt)|(Hd1 & He1 & Hlim & Hper)].
  - destruct (IH now1 l1 Hl1 Ha1 ltac:(lia) ltac:(lia)) as (l' & now' & E' & Hbound). exists l', now'. split; [exact E'|]. rewrite Hd1, He1 in Hbound.
    assert (rate * (1001 * (elapsed_time l + tr_time t + (now' - now1))) ≤ rate * (1001 * (elapsed_time l + (now' - now)))) by (apply Z.mul_le_mono_nonneg_l; unfold now1; lia). lia.
  - destruct (IH now1 l1 Hl1 Ha1 ltac:(lia) ltac:(lia)) as (l' & now' & E' & Hbound). exists l', now'. split; [exact E'|]. rewrite Hd1, He1 in Hbound.
    pose proof (period_rate rate (period_data l + tr_bytes t) (elapsed_time l + tr_time t + d) Hr Hlim Hper).
    assert (rate * (1001 * (elapsed_time l + tr_time t + d + (now' - now1))) ≤ rate * (1001 * (elapsed_time l + (now' - now)))) by (apply Z.mul_le_mono_nonneg_l; unfold now1; lia). lia.
Qed.

(** C39: The upper speed limit, for a rate of at least one byte in a second (a rate
    of 0 panics) and transfers of less than 2^64 / 1000 bytes together, however
    spaced and cut and however late the sleeps wake: when the sleep behind the last
    of the transfers is over, the bytes moved are at most what the rate allows for
    the time passed, with one second in advance and one thousandth for rounding; no
    arithmetic overflows. (Between a transfer and the end of its sleep the bytes of
    that transfer may be above the bound.) *)
Theorem max_speed_bounds (now rate : Z) (ts : list Transfer) :
  0 < rate < U64 → Forall transfer_ok ts → total_bytes ts * 1000 < U64 →
  ∃ l l' now', SpeedLimit_new now rate SPEED_CHECK_PERIOD 0 = Ok l ∧ max_run now ts l = (l', Ok now') ∧
    total_bytes ts * 10 ^ 12 ≤ rate * (1001 * (now' - now) + 10 ^ 12).
Proof.
  intros Hr Hts Hb. assert (SpeedLimit_new now rate SPEED_CHECK_PERIOD 0 = Ok (mkSpeedLimit rate (10 ^ 9) 0 None 0 0 rate None None (Some (now + 0)))) as Hnew.
  { unfold SpeedLimit_new, u64_ok. change (as_secs SPEED_CHECK_PERIOD) with 1. rewrite Z.mul_1_r. destruct (Z.ltb_spec rate U64); [done|lia]. }
  set (l := mkSpeedLimit _ _ _ _ _ _ _ _ _ _) in Hnew. destruct (max_run_bound rate now ts l) as (l' & now' & E & H); try done; [cbn; lia..|].
  exists l, l', now'. split; [done|]. split; [done|]. cbn in H. lia.
Qed.

Lemma max_speed_bounds_witness :
  0 < 1000 < U64 ∧ Forall transfer_ok [mkTransfer 5 (10 ^ 8) 3000 7; mkTransfer 0 (10 ^ 8) 500 0] ∧ total_bytes [mkTransfer 5 (10 ^ 8) 3000 7; mkTransfer 0 (10 ^ 8) 500 0] * 1000 < U64 ∧
  ∃ l l' now', SpeedLimit_new 0 1000 SPEED_CHECK_PERIOD 0 = Ok l ∧ max_run 0 [mkTransfer 5 (10 ^ 8) 3000 7; mkTransfer 0 (10 ^ 8) 500 0] l = (l', Ok now') ∧
    total_bytes [mkTransfer 5 (10 ^ 8) 3000 7; mkTransfer 0 (10 ^ 8) 500 0] * 10 ^ 12 ≤ 1000 * (1001 * (now' - 0) + 10 ^ 12).
Proof.
  assert (0 < 1000 < U64) as H1 by done. assert (Forall transfer_ok [mkTransfer 5 (10 ^ 8) 3000 7; mkTransfer 0 (10 ^ 8) 500 0]) as H2 by (repeat constructor; cbn; lia).
  assert (total_bytes [mkTransfer 5 (10 ^ 8) 3000 7; mkTransfer 0 (10 ^ 8) 500 0] * 1000 < U64) as H3 by done.
  split; [exact H1|]. split; [exact H2|]. split; [exact H3|]. exact (max_speed_bounds 0 1000 _ H1 H2 H3).
Defined.

(** *** The lower limit *)

(** The time that a transfer may take. *)
Definition tr_allowed (rate : Z) (t : Transfer) : Z := 10 ^ 6 * (tr_bytes t * 1000 / rate).

Lemma div_sum rate a b : 0 < rate → a * 1000 / rate + b * 1000 / rate ≤ (a + b) * 1000 / rate.
Proof.
  intros Hr. apply Z.div_le_lower_bound; [done|]. pose proof (Z.mul_div_le (a * 1000) rate Hr). pose proof (Z.mul_div_le (b * 1000) rate Hr). lia.
Qed.

(** One transfer against the lower limit. *)
Lemma limit_min_once rate now s n l : sl_rate l = rate → sl_start l = Some s → s ≤ now → 0 < rate → (period_data l + n) * 1000 < U64 → 0 ≤ period_data l → 0 ≤ n →
  let data := period_data l + n in let elapsed := elapsed_time l + (now - s) in let t := 10 ^ 6 * (data * 1000 / rate) in
  let first := from_option id s (min_speed_start l) in
  match limit_min_speed now n l with
  | (l', Ok _) => sl_rate l' = rate ∧ sl_period l' = sl_period l ∧ min_speed_interval l' = min_speed_interval l ∧ sl_start l' = None ∧
      ((elapsed < sl_period l ∧ period_data l' = data ∧ elapsed_time l' = elapsed) ∨
       (sl_period l ≤ elapsed ∧ period_data l' = 0 ∧ elapsed_time l' = 0 ∧ (t < elapsed → min_speed_start l' = Some first ∧ Z.max 0 (now - first) ≤ min_speed_interval l)))
  | (_, Err _) => t < elapsed
  | (_, Panic) => False
  end.
Proof.
  intros Hr Hs Hle Hpos Hb Hd Hn data elapsed t first. unfold limit_min_speed. rewrite bind_st, (count_time_started now s l Hs Hle), bind_st. cbn [modify_st].
  set (l1 := match min_speed_start _ with None => _ | Some _ => _ end).
  assert (l1 = sl_set_start None (sl_set_min_start (Some first) (sl_set_counts (period_data l) elapsed l))) as ->.
  { unfold l1, first, elapsed. destruct l as [? ? ? [m|] ? ? ? ? ? ?]; done. }
  rewrite bind_st. cbn [get_st]. cbn [sl_set_start sl_set_min_start sl_set_counts sl_period elapsed_time]. destruct (Z.leb_spec (sl_period l) elapsed).
  - unfold check_min_speed. rewrite bind_st, count_data_ok by (cbn; lia). rewrite bind_st, limited_time_ok by (cbn; lia).
    cbn [sl_set_start sl_set_min_start sl_set_counts period_data elapsed_time sl_rate]. rewrite Hr. fold data t. rewrite bind_st. cbn [get_st]. rewrite bind_st.
    cbn [sl_set_start sl_set_min_start sl_set_counts period_data elapsed_time min_speed_start min_speed_interval]. destruct (Z.ltb_spec t elapsed).
    + destruct (Z.ltb_spec (min_speed_interval l) (Z.max 0 (now - first))); [done|]. cbn. split_and!; try done. right. split_and!; try done.
    + cbn. split_and!; try done. right. split_and!; try done; lia.
  - rewrite count_data_ok by (cbn; lia). cbn. split_and!; try done. by left.
Qed.

Lemma min_run_fast rate now ts l : sl_rate l = rate → sl_start l = None → 0 < rate → 0 ≤ period_data l → elapsed_time l ≤ 10 ^ 6 * (period_data l * 1000 / rate) →
  Forall (λ t, transfer_ok t ∧ tr_time t ≤ tr_allowed rate t) ts → (period_data l + total_bytes ts) * 1000 < U64 →
  ∃ l' now', min_run now ts l = (l', Ok now').
Proof.
  intros Hr Hs Hpos Hd He Hts Hb. revert now l Hr Hs Hd He Hb. induction Hts as [|t ts [(Hg & Ht & Hn & Hlate) Hfast] Hts IH]; intros now l Hr Hs Hd He Hb; [by eexists _, _|].
  assert (0 ≤ total_bytes ts) as Hrest by (apply total_bytes_nonneg; eapply Forall_impl; [exact Hts|]; by intros ? []).
  cbn [min_run total_bytes] in *. rewrite bind_st. cbn [modify_st]. unfold init_if_not_start. rewrite Hs, bind_st.
  pose proof (limit_min_once rate (now + tr_gap t + tr_time t) (now + tr_gap t) (tr_bytes t) (sl_set_start (Some (now + tr_gap t)) l) Hr eq_refl ltac:(lia) Hpos) as H.
  cbn [sl_set_start period_data elapsed_time min_speed_start sl_period min_speed_interval] in H. specialize (H ltac:(lia) Hd Hn). cbv zeta in H.
  pose proof (div_sum rate (period_data l) (tr_bytes t) Hpos) as Hsum. unfold tr_allowed in Hfast.
  destruct (limit_min_speed _ _ _) as [l1 [[]| |]]; [|lia|done]. destruct H as (H1 & _ & _ & H4 & H5). apply IH; [done|done|lia| |lia].
  destruct H5 as [(_ & -> & ->)|(_ & -> & -> & _)]; [lia|done].
Qed.

Lemma min_run_slow rate now ts l : sl_rate l = rate → sl_period l = 10 ^ 9 → sl_start l = None → 0 < rate → period_data l = 0 → elapsed_time l = 0 →
  Forall (λ t, transfer_ok t ∧ 10 ^ 9 ≤ tr_time t ∧ tr_allowed rate t < tr_time t) ts → total_bytes ts * 1000 < U64 →
  match min_run now ts l with
  | (_, Ok now') => ts = [] ∨ now' - from_option id (now + match ts with t :: _ => tr_gap t | [] => 0 end) (min_speed_start l) ≤ min_speed_interval l
  | (_, Err _) => True
  | (_, Panic) => False
  end.
Proof.
  intros Hr Hp Hs Hpos Hd He Hts. revert now l Hr Hp Hs Hd He. induction Hts as [|t ts [(Hg & Ht & Hn & Hlate) [Hlong Hslow]] Hts IH]; intros now l Hr Hp Hs Hd He Hb; [by left|].
  assert (0 ≤ total_bytes ts) as Hrest by (apply total_bytes_nonneg; eapply Forall_impl; [exact Hts|]; by intros ? []).
  cbn [min_run total_bytes] in *. rewrite bind_st. cbn [modify_st]. unfold init_if_not_start. rewrite Hs, bind_st.
  pose proof (limit_min_once rate (now + tr_gap t + tr_time t) (now + tr_gap t) (tr_bytes t) (sl_set_start (Some (now + tr_gap t)) l) Hr eq_refl ltac:(lia) Hpos) as H1.
  cbn [sl_set_start period_data elapsed_time min_speed_start sl_period min_speed_interval] in H1. rewrite Hd, He in H1. specialize (H1 ltac:(lia) ltac:(lia) Hn). cbv zeta in H1. rewrite !Z.add_0_l in H1.
  unfold tr_allowed in Hslow. destruct (limit_min_speed _ _ _) as [l1 [[]| |]]; [|done|done]. destruct H1 as (H1 & H2 & H3 & H4 & [(H5 & _)|(_ & H5 & H6 & H7)]); [lia|].
  destruct (H7 ltac:(lia)) as [Hm Hle]. specialize (IH (now + tr_gap t + tr_time t) l1 H1 (eq_trans H2 Hp) H4 H5 H6 ltac:(lia)).
  destruct (min_run _ ts l1) as [l' [now'| |]] eqn:E; [|done|done]. right. rewrite Hm, H3 in IH. cbn [from_option id] in IH. destruct IH as [->|IH]; [|exact IH].
  cbn in E. injection E as _ <-. destruct (min_speed_start l) as [m|]; cbn [from_option id] in *; lia.
Qed.

(** The lower limit.  A transfer that keeps the rate is never stopped: if no
    part of it takes longer than its bytes need at the rate, in whole milliseconds,
    no part is refused, however long the pauses between the parts.  A transfer that
    stays below the rate is stopped: if every part takes a second or more and longer
    than its bytes need, it is refused as soon as more than the interval has passed
    since its start. *)
Theorem min_speed_enforced (now rate interval : Z) (ts : list Transfer) :
  0 < rate < U64 → total_bytes ts * 1000 < U64 →
  ∃ l, SpeedLimit_new now rate SPEED_CHECK_PERIOD interval = Ok l ∧
    (Forall (λ t, transfer_ok t ∧ tr_time t ≤ tr_allowed rate t) ts → ∃ l' now', min_run now ts l = (l', Ok now')) ∧
    (∀ t0 rest, ts = t0 :: rest → Forall (λ t, transfer_ok t ∧ SPEED_CHECK_PERIOD ≤ tr_time t ∧ tr_allowed rate t < tr_time t) ts →
       match min_run now ts l with (_, Ok now') => now' - (now + tr_gap t0) ≤ interval | (_, Err e) => e = BelowLowSpeed | (_, Panic) => False end).
Proof.
  intros Hr Hb. set (l := mkSpeedLimit rate (10 ^ 9) interval None 0 0 rate None None (Some (now + interval))).
  assert (SpeedLimit_new now rate SPEED_CHECK_PERIOD interval = Ok l) as Hnew.
  { unfold SpeedLimit_new, u64_ok. change (as_secs SPEED_CHECK_PERIOD) with 1. rewrite Z.mul_1_r. destruct (Z.ltb_spec rate U64); [done|lia]. }
  exists l. split; [done|]. split.
  - intros Hts. apply (min_run_fast rate now ts l); try done; cbn; lia.
  - intros t0 rest -> Hts. pose proof (min_run_slow rate now (t0 :: rest) l eq_refl eq_refl eq_refl ltac:(lia) eq_refl eq_refl Hts Hb) as H.
    destruct (min_run now (t0 :: rest) l) as [l' [now'|[]|]]; [|done|done]. by destruct H.
Qed.

Lemma min_speed_enforced_witness :
  (0 < 100 < U64 ∧ total_bytes [mkTransfer 0 (10 ^ 9) 10 0; mkTransfer 0 (10 ^ 9) 10 0; mkTransfer 0 (10 ^ 9) 10 0] * 1000 < U64) ∧
  ∃ l, SpeedLimit_new 0 100 SPEED_CHECK_PERIOD (from_secs 2) = Ok l ∧ (min_run 0 [mkTransfer 0 (10 ^ 9) 10 0; mkTransfer 0 (10 ^ 9) 10 0; mkTransfer 0 (10 ^ 9) 10 0] l).2 = Err BelowLowSpeed ∧
    (Forall (λ t, transfer_ok t ∧ tr_time t ≤ tr_allowed 100 t) [] → ∃ l' now', min_run 0 [] l = (l', Ok now')).
Proof.
  split; [by split|]. destruct (min_speed_enforced 0 100 (from_secs 2) [] ltac:(done) ltac:(done)) as (l & Hl & H & _). exists l. split; [exact Hl|]. split; [|exact H].
  injection Hl as <-. by vm_compute.
Defined.

(** A limit of 0 bytes per second panics when a transfer ends. *)
Example rate_zero_panics :
  match SpeedLimit_new 0 0 SPEED_CHECK_PERIOD 0 with Ok l => (max_run 0 [mkTransfer 0 5 10 0] l).2 | _ => Ok 0 end = Panic.
Proof. by vm_compute. Qed.

(** A lower limit without an interval is no limit. *)
Example min_rate_alone : set_speed_limit 0 (set_min_rate 100 SpeedConfig_none) SpeedController_none = Ok SpeedController_none.
Proof. by vm_compute. Qed.
