(* ===== verification/Http1Conn.v ===== *)
(** * Requests over HTTP/1.1 connections

    Models [src/ylong_http_client/src/async_impl/conn/http1.rs], which sends a
    request over a connection and reads the head of its response, and the parts of
    [src/ylong_http_client/src/util/dispatcher.rs] that give a connection to one
    request at a time ([Http1Dispatcher], [Http1Conn], [CancelGuard]).

    The stream is a type [S] with errors in [E]; the body of the request is a reader
    of a type [B] with errors in [F].  A call that is awaited is polled again while it
    is pending; the [patience] of the task counts how often before the task is
    dropped, and [turns] does so for the turns of a loop: a task that runs out of
    them is one that is cancelled at that place.  Interceptors are arguments.  The
    connection has no speed limits ([SpeedController::none], see [RateLimit]), and
    measurements of time are left out. *)

From stdpp Require Import gmap.
From S2P Require Import Prelude Headers Message Uri Body H1Encoder H1EncoderSpec H1Decoder H1DecoderSpec ChunkEncoder ChunkReader Normalizer ChunkTrailer HttpBody RateLimit.
#[local] Open Scope Z_scope.

(** ** The connection *)

(** [Inner]. *)
Record Inner (S : Type) := mkInner { in_io : S; in_occupied : bool; in_shutdown : bool }.
Arguments mkInner {S} in_io in_occupied in_shutdown.
Arguments in_io {S} i.
Arguments in_occupied {S} i.
Arguments in_shutdown {S} i.

Definition Http1Dispatcher_new {S} (io : S) : Inner S := mkInner io false false.
(** [compare_exchange] of the flag: the connection is given out once. *)
Definition dispatch {S} (i : Inner S) : option (Inner S) := if in_occupied i then None else Some (mkInner (in_io i) true (in_shutdown i)).
Definition is_shutdown {S} (i : Inner S) : bool := in_shutdown i.
(** [Http1Conn::shutdown] and the drop of the handle. *)
Definition conn_shutdown {S} (i : Inner S) : Inner S := mkInner (in_io i) (in_occupied i) true.
Definition conn_drop {S} (i : Inner S) : Inner S := mkInner (in_io i) false (in_shutdown i).

(** [AsyncWrite]: how much of the bytes was taken. *)
Class AsyncWrite (E S : Type) := poll_write : bytes → ST S E (Poll Z).
(** [AsyncWriteExt::write_all], of the runtime, and what [ConnInfo] tells. *)
Class WriteAll (E S : Type) := poll_write_all : bytes → ST S E (Poll ()).
Class ConnInfo (S : Type) := is_proxy : S → bool.

(** ** The exchange *)

Inductive Http1Error (E F : Type) :=
  | RequestIo (e : E) | TransferIo (e : E) | Refused | TcpClosed | EncodeFailed (e : HttpError) | BadResponse (e : RespError)
  | UserAborted | BodyFailed (e : F) | BadLength (e : ClientError) | OpenFailed (e : HttpBodyError E) | Cancelled.
Arguments RequestIo {E F} e.
Arguments TransferIo {E F} e.
Arguments Refused {E F}.
Arguments TcpClosed {E F}.
Arguments EncodeFailed {E F} e.
Arguments BadResponse {E F} e.
Arguments UserAborted {E F}.
Arguments BodyFailed {E F} e.
Arguments BadLength {E F} e.
Arguments OpenFailed {E F} e.
Arguments Cancelled {E F}.

Record Exchange (S B : Type) := mkExchange { ex_conn : Inner S; ex_body : B; ex_patience : nat }.
Arguments mkExchange {S B} ex_conn ex_body ex_patience.
Arguments ex_conn {S B} e.
Arguments ex_body {S B} e.
Arguments ex_patience {S B} e.

Definition TEMP_BUF_SIZE : Z := 16 * 1024.

Section exchange.
Context {E F S : Type} `{!AsyncRead E S, !AsyncWrite E S, !WriteAll E S, !ConnInfo S}.
Context (intercept_request : Request → bool) (intercept_input intercept_output : bytes → bool).
Abbreviation HE := (Http1Error E F).
Abbreviation HX B := (ST (Exchange S B) HE).

Definition on_conn {B} (f : Inner S → Inner S) : HX B () := modify_st (λ s, mkExchange (f (ex_conn s)) (ex_body s) (ex_patience s)).
Definition on_io {B X A} (err : X → HE) (m : ST S X A) : HX B A := λ s,
  let (io, x) := m (in_io (ex_conn s)) in
  (mkExchange (mkInner io (in_occupied (ex_conn s)) (in_shutdown (ex_conn s))) (ex_body s) (ex_patience s),
   match x with Ok a => Ok a | Err e => Err (err e) | Panic => Panic end).
(** [conn.shutdown(); return Err(e)]. *)
Definition fail {B A} (e : HE) : HX B A := _ ← on_conn conn_shutdown; throw e.
(** The same where the result is an error. *)
Definition or_fail {B A} (m : HX B A) : HX B A := λ s,
  match m s with
  | (s, Err Cancelled) => (s, Err Cancelled)
  | (s, Err e) => fail e s
  | x => x
  end.

(** A call that is awaited. *)
Fixpoint await_go {B A} (n : nat) (m : HX B (Poll A)) : HX B A :=
  match n with
  | O => throw Cancelled
  | Datatypes.S n =>
      x ← m;
      match x with
      | Ready a => mret a
      | Pending => _ ← modify_st (λ s, mkExchange (ex_conn s) (ex_body s) n); await_go n m
      end
  end.
Definition await {B A} (m : HX B (Poll A)) : HX B A := s ← get_st; await_go (ex_patience s) m.

(** *** [encode_request_part] *)

Section head.
Context {U H : Type} `{!UriPart U, !HeaderPart H}.
Fixpoint head_loop {B} (turns : nat) (encoder : Encoder U H) : HX B () :=
  match turns with
  | O => throw Cancelled
  | Datatypes.S turns =>
      match Encoder_encode TEMP_BUF_SIZE encoder with
      | (_, Ok []) => mret ()
      | (encoder, Ok out) =>
          if intercept_input out then
            _ ← or_fail (await (on_io RequestIo (poll_write_all out)));
            head_loop turns encoder
          else throw Refused
      | (_, Err e) => fail (EncodeFailed e)
      | (_, Panic) => panic
      end
  end.
End head.

(** The request as its encoder takes it: the fields in the order of the hash map. *)
Definition request_part (order : list (bytes * HeaderValue)) (r : Request) : RequestPart := mkRequestPart (rq_uri r) (rq_method r) (rq_version r) order.
Definition encode_request_part {B} (turns : nat) (order : list (bytes * HeaderValue)) (r : Request) : HX B () :=
  s ← get_st;
  let encoder := RequestRefEncoder_new (request_part order r) in
  head_loop turns (if is_proxy (in_io (ex_conn s)) && bool_decide (uri_scheme (rq_uri r) = Some PHttp) then re_absolute_uri true encoder else encoder).

(** *** [encode_body]

    [body_poll] is [Body::poll_data] of the body. *)

Section body.
Context {B : Type} (body_poll : Z → ST B F (Poll bytes)) (has_source : F → bool).

(** [read_body_result]: an error ends the connection, and one with a source is the
    user's. *)
Definition body_data (room : Z) : HX B (Poll bytes) := λ s,
  let (b, x) := body_poll room (ex_body s) in
  let s := mkExchange (ex_conn s) b (ex_patience s) in
  match x with
  | Ok p => (s, Ok p)
  | Err e => fail (if has_source e then UserAborted else BodyFailed e) s
  | Panic => (s, Panic)
  end.

(** The loop that writes the buffer. *)
Fixpoint write_loop (turns : nat) (rest : bytes) : HX B () :=
  match turns with
  | O => throw Cancelled
  | Datatypes.S turns =>
      n ← or_fail (await (on_io TransferIo (poll_write rest)));
      if n =? len rest then mret () else write_loop turns (dropZ n rest)
  end.

Fixpoint body_loop (turns : nat) (buf : bytes) : HX B () :=
  match turns with
  | O => throw Cancelled
  | Datatypes.S turns =>
      '(buf, end_body) ←
        (if len buf <? TEMP_BUF_SIZE then out ← await (body_data (TEMP_BUF_SIZE - len buf)); mret (buf ++ out, match out with [] => true | _ => false end)
         else mret (buf, false));
      if (len buf =? TEMP_BUF_SIZE) || end_body then
        _ ← write_loop turns buf;
        if end_body : bool then mret () else body_loop turns []
      else body_loop turns buf
  end.
Definition encode_body (turns : nat) : HX B () := body_loop turns [].
End body.

(** *** [encode_various_body] *)

Section various.
Context {R : Type} `{!AsyncRead F R} (has_source : F → bool).

(** The chunked body over the body of the request. *)
Definition chunk_poll (room : Z) : ST (ChunkBody * R) F (Poll bytes) := poll_data (λ r n, text_poll_data n r) room.
Definition on_chunks (m : HX (ChunkBody * R) ()) : HX R () := λ s,
  let (s', x) := m (mkExchange (ex_conn s) (ChunkBody_from_reader, ex_body s) (ex_patience s)) in
  (mkExchange (ex_conn s') (ex_body s').2 (ex_patience s'), x).

Definition is_chunked (r : Request) : bool :=
  match Headers_get (rq_headers r) (bs "Transfer-Encoding") with Some v => contains_text (bs "chunked") (HeaderValue_to_vec v) | None => false end.
Definition encode_various_body (turns : nat) (body_is_empty : R → bool) (r : Request) : HX R () :=
  s ← get_st;
  if body_is_empty (ex_body s) then mret ()
  else if is_chunked r then on_chunks (encode_body chunk_poll has_source turns)
  else encode_body text_poll_data has_source turns.

(** *** The head of the response *)

Definition read_status_line {B} : HX B (Poll bytes) := λ s,
  let '((io, b), x) := poll_read (in_io (ex_conn s), ReadBuf_new TEMP_BUF_SIZE) in
  let s := mkExchange (mkInner io (in_occupied (ex_conn s)) (in_shutdown (ex_conn s))) (ex_body s) (ex_patience s) in
  match x with
  | Ok (Ready _) => match rb_filled b with [] => fail TcpClosed s | filled => (s, Ok (Ready filled)) end
  | Ok Pending => (s, Ok Pending)
  | Err e => fail (RequestIo e) s
  | Panic => (s, Panic)
  end.

Fixpoint response_loop {B} (turns : nat) (decoder : ResponseDecoder) : HX B (ResponsePart * bytes) :=
  match turns with
  | O => throw Cancelled
  | Datatypes.S turns =>
      filled ← await read_status_line;
      if intercept_output filled then
        match ResponseDecoder_decode filled decoder with
        | (decoder, Ok None) => response_loop turns decoder
        | (_, Ok (Some r)) => mret r
        | (_, Err e) => fail (BadResponse e)
        | (_, Panic) => panic
        end
      else throw Refused
  end.

(** *** [decode_response] *)

(** Whether the peer wants the connection closed behind this response. *)
Definition closes (part : ResponsePart) : bool :=
  match Headers_get (sp_headers part) (bs "Connection") with
  | None => bool_decide (sp_version part = Http10)
  | Some v =>
      if bool_decide (sp_version part = Http10) then negb (contains_text (bs "keep-alive") (HeaderValue_to_vec v))
      else contains_text (bs "close") (HeaderValue_to_vec v)
  end.

(** The shut-down and the drop of the connection that [HttpBody] holds. *)
Definition settle (io : Io (Inner S)) : Io (Inner S) :=
  match io with
  | Held i => Held i
  | Gone i shut => Gone (conn_drop (if shut then conn_shutdown i else i)) shut
  end.

Definition decode_response (method : Method) (part : ResponsePart) (pre : bytes) (i : Inner S) : Inner S * result HE (ResponsePart * Kind (Inner S)) :=
  let i := if closes part then conn_shutdown i else i in
  match BodyLengthParser_parse method part with
  | Err e => (conn_drop (conn_shutdown i), Err (BadLength e))
  | Panic => (i, Panic)
  | Ok length =>
      match HttpBody_new (E := E) length i pre with
      | inl KEmpty => (conn_drop i, Ok (part, KEmpty))
      | inl k => (i, Ok (part, k))
      | inr (e, io) => match settle io with Held i | Gone i _ => (i, Err (OpenFailed e)) end
      end
  end.

Definition on_response (method : Method) (part : ResponsePart) (pre : bytes) : HX R (ResponsePart * Kind (Inner S)) := λ s,
  let (i, x) := decode_response method part pre (ex_conn s) in (mkExchange i (ex_body s) (ex_patience s), x).

(** [request]: the guard shuts the connection down when the task ends before the
    head of the response is read, for any reason, and the handle is dropped then. *)
Definition guarded {B A} (m : HX B A) : HX B A := λ s,
  match m s with
  | (s, Ok a) => (s, Ok a)
  | (s, x) => (mkExchange (conn_drop (conn_shutdown (ex_conn s))) (ex_body s) (ex_patience s), x)
  end.

Definition http1_request (turns : nat) (order : list (bytes * HeaderValue)) (body_is_empty : R → bool) (r : Request) : HX R (ResponsePart * Kind (Inner S)) :=
  if negb (intercept_request r) then _ ← on_conn conn_drop; throw Refused
  else
    '(part, pre) ← guarded (
      _ ← encode_request_part turns order r;
      _ ← encode_various_body turns body_is_empty r;
      response_loop turns ResponseDecoder_new);
    on_response (rq_method r) part pre.
End various.
End exchange.

(** The connection as the reader of [HttpBody]. *)
#[export] Instance Inner_AsyncRead {E S} `{!AsyncRead E S} : AsyncRead E (Inner S) := λ s,
  let '((io, b), x) := poll_read (in_io s.1, s.2) in ((mkInner io (in_occupied s.1) (in_shutdown s.1), b), x).

(** A read under the speed limits, at an instant [now]: an error of the limits is
    one of the reader. *)
Section limited.
Context {E X : Type} (read : ST (X * ReadBuf) E (Poll ())).
Definition on_limits {A : Type} (m : ST SpeedController BelowLimit A) : ST ((X * SpeedController) * ReadBuf) (E + BelowLimit) A := λ s,
  let (c, x) := m s.1.2 in (((s.1.1, c), s.2), match x with Ok a => Ok a | Err e => Err (inr e) | Panic => Panic end).
Definition limited_read (now : Z) : ST ((X * SpeedController) * ReadBuf) (E + BelowLimit) (Poll ()) :=
  late ← on_limits (poll_recv_pending_timeout now);
  if late : bool then throw (inr BelowLowSpeed)
  else
    _ ← on_limits (init_min_recv_if_not_start now);
    ready ← on_limits (poll_max_recv_delay_time now);
    if negb ready then mret Pending
    else
      _ ← on_limits (init_max_recv_if_not_start now);
      x ← (λ s, let '((i, b), x) := read (s.1.1, s.2) in (((i, s.1.2), b), match x with Ok a => Ok a | Err e => Err (inl e) | Panic => Panic end));
      match x with
      | Ready _ =>
          s ← get_st;
          _ ← on_limits (min_recv_speed_limit now (len (rb_filled s.2)));
          _ ← on_limits (delay_max_recv_speed_limit now (len (rb_filled s.2)));
          _ ← on_limits (reset_recv_pending_timeout now);
          mret (Ready ())
      | Pending => mret Pending
      end.

(** Without limits it is the read itself. *)
Lemma unlimited_read now i b :
  limited_read now ((i, SpeedController_none), b) =
    let '((i, b), x) := read (i, b) in (((i, SpeedController_none), b), match x with Ok a => Ok a | Err e => Err (inl e) | Panic => Panic end).
Proof.
  unfold limited_read. do 4 (rewrite bind_st; cbn). rewrite bind_st. cbn. destruct (read (i, b)) as [[i1 b1] [[[]|]| |]]; done.
Qed.
End limited.

(** [poll_read] of [Http1Conn]. *)
Definition limited_poll_read {E S : Type} `{!AsyncRead E S} (now : Z) : ST ((Inner S * SpeedController) * ReadBuf) (E + BelowLimit) (Poll ()) :=
  limited_read (X := Inner S) poll_read now.

(** ** What an exchange does

    The promises of the stream: what it still gives, and what was written to it. *)
Class StreamLaws (E S : Type) `{!AsyncRead E S, !AsyncWrite E S, !WriteAll E S} := {
  stream_ok : S → Prop;
  stream_rest : S → bytes;
  stream_written : S → bytes;
  stream_read : ∀ r b, stream_ok r → 0 ≤ rb_room b →
    poll_spec (E := E) stream_rest r b (poll_read (r, b)) ∧ stream_ok (poll_read (E := E) (r, b)).1.1 ∧ stream_written (poll_read (E := E) (r, b)).1.1 = stream_written r;
  stream_write : ∀ r l, stream_ok r →
    match poll_write (E := E) l r with
    | (r', Ok (Ready n)) => stream_ok r' ∧ 0 ≤ n ≤ len l ∧ stream_written r' = stream_written r ++ takeZ n l ∧ stream_rest r' = stream_rest r
    | (r', Ok Pending) => stream_ok r' ∧ stream_written r' = stream_written r ∧ stream_rest r' = stream_rest r
    | (_, Err _) => True
    | (_, Panic) => False
    end;
  stream_write_all : ∀ r l, stream_ok r →
    match poll_write_all (E := E) l r with
    | (r', Ok (Ready _)) => stream_ok r' ∧ stream_written r' = stream_written r ++ l ∧ stream_rest r' = stream_rest r
    | (r', Ok Pending) => stream_ok r' ∧ stream_written r' = stream_written r ∧ stream_rest r' = stream_rest r
    | (_, Err _) => True
    | (_, Panic) => False
    end }.
Arguments stream_ok E {S _ _ _ _} _.
Arguments stream_rest E {S _ _ _ _} _.
Arguments stream_written E {S _ _ _ _} _.

Section laws.
Context {E F S R : Type} `{!AsyncRead E S, !AsyncWrite E S, !WriteAll E S, !ConnInfo S, !StreamLaws E S, !AsyncRead F R}.
Context (intercept_input intercept_output : bytes → bool) (has_source : F → bool).
(** The body of the request. *)
Context (body_ok : R → Prop) (body_rest : R → bytes).
Hypothesis body_read : ∀ r b, body_ok r → 0 ≤ rb_room b → poll_spec (E := F) body_rest r b (poll_read (r, b)) ∧ body_ok (poll_read (E := F) (r, b)).1.1.
Abbreviation HE := (Http1Error E F).
Abbreviation HX B := (ST (Exchange S B) HE).

(** Nothing is pending, fails or is refused, and writes make progress. *)
Definition steady : Prop :=
  (∀ r b, stream_ok E r → 0 ≤ rb_room b → ∃ x, (poll_read (E := E) (r, b)).2 = Ok (Ready x)) ∧
  (∀ r l, stream_ok E r → ∃ n, (poll_write (E := E) l r).2 = Ok (Ready n) ∧ (l ≠ [] → 0 < n)) ∧
  (∀ r l, stream_ok E r → ∃ x, (poll_write_all (E := E) l r).2 = Ok (Ready x)) ∧
  (∀ r b, body_ok r → 0 ≤ rb_room b → ∃ x, (poll_read (E := F) (r, b)).2 = Ok (Ready x)) ∧
  ∀ l, intercept_input l = true ∧ intercept_output l = true.

Definition runs {B A} (m : HX B A) (s : Exchange S B) (post : Exchange S B → A → Prop) : Prop :=
  match m s with (s', Ok a) => post s' a | (_, Err _) => ¬ steady | (_, Panic) => False end.

(** The state of an exchange. *)
Record at_ {B} (shut : bool) (w l : bytes) (b : B) (s : Exchange S B) : Prop := mk_at {
  at_io : stream_ok E (in_io (ex_conn s)); at_written : stream_written E (in_io (ex_conn s)) = w; at_rest : stream_rest E (in_io (ex_conn s)) = l;
  at_body : ex_body s = b; at_occupied : in_occupied (ex_conn s) = true; at_shutdown : in_shutdown (ex_conn s) = shut;
  at_patience : ex_patience s = O → ¬ steady }.

Lemma runs_bind {B A C} (m : HX B A) (k : A → HX B C) s post : runs m s (λ s' a, runs (k a) s' post) → runs (m ≫= k) s post.
Proof. unfold runs. rewrite bind_st. by destruct (m s) as [s' [a| |]]. Qed.
Lemma runs_ret {B A} (a : A) (s : Exchange S B) (post : _ → _ → Prop) : post s a → runs (mret a) s post.
Proof. done. Qed.
Lemma runs_mono {B A} (m : HX B A) s (p q : Exchange S B → A → Prop) : runs m s p → (∀ s a, p s a → q s a) → runs m s q.
Proof. unfold runs. destruct (m s) as [s' [a| |]]; auto. Qed.
Lemma runs_or_fail {B A} (m : HX B A) s post : runs m s post → runs (or_fail m) s post.
Proof. unfold runs, or_fail. destruct (m s) as [s' [a|e|]]; try done. by destruct e. Qed.

(** Awaiting keeps what a pending call keeps. *)
Lemma runs_await {B A} (m : HX B (Poll A)) (inv : Exchange S B → Prop) (post : Exchange S B → A → Prop) s :
  (∀ s, inv s → runs m s (λ s' x, match x with Ready a => post s' a | Pending => ¬ steady ∧ ∀ n, inv (mkExchange (ex_conn s') (ex_body s') n) end)) →
  inv s → (ex_patience s = O → ¬ steady) → runs (await m) s post.
Proof.
  intros Hm Hinv Hp. unfold await. apply runs_bind. unfold runs at 1. cbn [get_st]. revert Hp. generalize (ex_patience s). intros n Hp. revert s Hinv Hp. induction n as [|n IH]; intros s Hinv Hp; cbn [await_go].
  - unfold runs. cbn. by apply Hp.
  - apply runs_bind. eapply runs_mono; [by apply Hm|]. intros s' [a|] H; [done|]. apply runs_bind. unfold runs at 1. cbn [modify_st]. apply IH; [by apply H|by destruct H].
Qed.

(** *** Sending *)

Lemma write_all_runs {B} shut w l b out (s : Exchange S B) : at_ shut w l b s →
  runs (or_fail (await (on_io (F := F) RequestIo (poll_write_all (E := E) out)))) s (λ s' _, at_ shut (w ++ out) l b s').
Proof.
  intros Hs. apply runs_or_fail, (runs_await _ (at_ shut w l b)); [|done|exact (at_patience _ _ _ _ _ Hs)].
  intros s1 [H1 H2 H3 H4 H5 H6 H7]. unfold runs, on_io. pose proof (stream_write_all (in_io (ex_conn s1)) out H1) as H.
  assert (steady → ∃ x, (poll_write_all (E := E) out (in_io (ex_conn s1))).2 = Ok (Ready x)) as Hsteady by (intros (_ & _ & Hw & _); by apply Hw).
  destruct (poll_write_all out (in_io (ex_conn s1))) as [io [[x|]|e|]]; [| | |done].
  - destruct H as (Ha & Hb & Hc). constructor; cbn; try done; congruence.
  - split; [intros Hc; by destruct (Hsteady Hc)|]. destruct H as (Ha & Hb & Hc). intros n. constructor; cbn; try done; try congruence. intros _ Hst. by destruct (Hsteady Hst).
  - intros Hc. by destruct (Hsteady Hc).
Qed.

Lemma write_runs {B} shut w l b out (s : Exchange S B) : at_ shut w l b s →
  runs (or_fail (await (on_io (F := F) TransferIo (poll_write (E := E) out)))) s (λ s' n, 0 ≤ n ≤ len out ∧ at_ shut (w ++ takeZ n out) l b s' ∧ (n = 0 → out ≠ [] → ¬ steady)).
Proof.
  intros Hs. apply runs_or_fail, (runs_await _ (at_ shut w l b)); [|done|exact (at_patience _ _ _ _ _ Hs)].
  intros s1 [H1 H2 H3 H4 H5 H6 H7]. unfold runs, on_io. pose proof (stream_write (in_io (ex_conn s1)) out H1) as H.
  assert (steady → ∃ n, (poll_write (E := E) out (in_io (ex_conn s1))).2 = Ok (Ready n) ∧ (out ≠ [] → 0 < n)) as Hsteady by (intros (_ & Hw & _); by apply Hw).
  destruct (poll_write out (in_io (ex_conn s1))) as [io [[n|]|e|]]; [| | |done].
  - destruct H as (Ha & Hb & Hc & Hd). split; [done|]. split; [constructor; cbn; try done; congruence|]. intros -> Hne Hst. destruct (Hsteady Hst) as (n & [= <-] & Hn). specialize (Hn Hne). lia.
  - split; [intros Hc; by destruct (Hsteady Hc) as (? & ? & _)|]. destruct H as (Ha & Hb & Hc). intros n. constructor; cbn; try done; try congruence. intros _ Hst. by destruct (Hsteady Hst) as (? & ? & _).
  - intros Hc. by destruct (Hsteady Hc) as (? & ? & _).
Qed.

(** The loop that writes the head of the request. *)
Lemma head_runs {B} turns shut w l b (encoder : RequestRefEncoder) (s : Exchange S B) :
  re_ok (uok := ur_ok) (fresh := λ u, ur_idx u = 0 ∧ ur_absolute u = None ∧ ur_origin u = None) (hok := hr_ok) encoder →
  let todo := re_todo (utodo := ur_todo) (text := λ b u, if b then Uri_to_string (ur_inner u) else origin_form (ur_inner u)) (htodo := hr_todo) in
  (length (todo encoder) < turns)%nat → at_ shut w l b s →
  runs (head_loop intercept_input turns encoder) s (λ s' _, at_ shut (w ++ todo encoder) l b s').
Proof.
  intros Hok todo Ht Hs. revert encoder w s Hok Ht Hs. induction turns as [|turns IH]; intros encoder w s Hok Ht Hs; [lia|]. cbn [head_loop].
  pose proof (Encoder_encode_ok (utodo := ur_todo) (text := λ b u, if b then Uri_to_string (ur_inner u) else origin_form (ur_inner u)) (htodo := hr_todo) (hweight := hr_weight) encoder TEMP_BUF_SIZE Hok ltac:(done)) as Hw.
  destruct (Encoder_encode TEMP_BUF_SIZE encoder) as [r' [out| |]]; [|done..]. destruct Hw as (Hd & Hok' & Hend). fold todo in Hd, Hend. rewrite Hd in *. destruct out as [|c out].
  - destruct Hend as [Hend|[_ Hfin]]; [done|]. assert (todo r' = []) as -> by (unfold todo, re_todo; by rewrite Hfin). apply runs_ret. by rewrite app_nil_r.
  - destruct (intercept_input (c :: out)) eqn:Ei.
    + apply runs_bind. eapply runs_mono; [by apply write_all_runs|]. intros s' ? Hs'. eapply runs_mono; [apply IH; [done| |exact Hs']|].
      * cbn [app length] in Ht. rewrite length_app in Ht. lia.
      * intros s2 ? Hs2. by rewrite <- app_assoc in Hs2.
    + intros (_ & _ & _ & _ & H). destruct (H (c :: out)). congruence.
Qed.

(** The loop that writes a full buffer. *)
Lemma write_loop_runs {B} turns shut w l b rest (s : Exchange S B) : (length rest < turns)%nat ∨ ¬ steady → at_ shut w l b s →
  runs (write_loop turns rest) s (λ s' _, at_ shut (w ++ rest) l b s').
Proof.
  intros Ht Hs. revert w rest s Ht Hs. induction turns as [|turns IH]; intros w rest s Ht Hs; cbn [write_loop].
  { destruct Ht as [|Ht]; [lia|exact Ht]. }
  apply runs_bind. eapply runs_mono; [by apply write_runs|]. intros s1 n (Hn & Hs1 & Hz). cbn beta. destruct (Z.eqb_spec n (len rest)) as [->|Hne].
  - apply runs_ret. by rewrite takeZ_all in Hs1 by lia.
  - eapply runs_mono; [apply IH; [|exact Hs1]|].
    + destruct Ht as [Ht|]; [|by right]. destruct (Z.eq_dec n 0) as [->|]; [right; apply Hz; [done|]; intros ->; done|]. left. unfold dropZ. rewrite length_drop. unfold len in *. lia.
    + intros s2 ? Hs2. by rewrite <- app_assoc, takeZ_dropZ in Hs2.
Qed.

Lemma body_data_runs room shut w l b (s : Exchange S R) : 0 < room → body_ok b → at_ shut w l b s →
  runs (await (body_data (E := E) text_poll_data has_source room)) s (λ s' out, ∃ b', at_ shut w l b' s' ∧ body_ok b' ∧ body_rest b = out ++ body_rest b' ∧ len out ≤ room ∧ (out = [] → body_rest b = [])).
Proof.
  intros Hroom Hb Hs. apply (runs_await _ (λ s, ∃ b', at_ shut w l b' s ∧ body_ok b' ∧ body_rest b' = body_rest b)); [|by exists b|exact (at_patience _ _ _ _ _ Hs)].
  intros s1 (b1 & [H1 H2 H3 H4 H5 H6 H7] & Hb1 & Hr1). unfold runs, body_data, text_poll_data. rewrite H4.
  destruct (body_read b1 (ReadBuf_new room) Hb1 ltac:(rewrite rb_room_new; lia)) as [(out & Ha & Hrest & Hlen & Hx) Hok].
  assert (steady → ∃ x, (poll_read (E := F) (b1, ReadBuf_new room)).2 = Ok (Ready x)) as Hsteady by (intros (_ & _ & _ & Hbody & _); apply Hbody; [done|rewrite rb_room_new; lia]).
  destruct (poll_read (b1, ReadBuf_new room)) as [[b2 rb] [[x|]|e|]]; cbn [fst snd] in *; [| | |done].
  - subst rb. cbn [rb_filled rb_put ReadBuf_new app]. exists b2. rewrite rb_room_new in Hlen, Hx. split; [by constructor|]. split_and!; [done|congruence|done|]. intros Ho. destruct (Hx Ho); [lia|congruence].
  - split; [intros Hc; by destruct (Hsteady Hc)|]. intros n. exists b2. split; [constructor; cbn; try done; intros _ Hc; by destruct (Hsteady Hc)|]. split; [done|]. subst out. by rewrite <- Hr1, Hrest.
  - intros Hc. by destruct (Hsteady Hc).
Qed.

(** The loop that reads the body and writes it. *)
Lemma body_loop_runs turns shut w l b buf (s : Exchange S R) : len buf < TEMP_BUF_SIZE → (length (body_rest b) + Z.to_nat TEMP_BUF_SIZE + 1 < turns)%nat → body_ok b → at_ shut w l b s →
  runs (body_loop (E := E) text_poll_data has_source turns buf) s (λ s' _, ∃ b', at_ shut (w ++ buf ++ body_rest b) l b' s').
Proof.
  revert w b buf s. induction turns as [|turns IH]; intros w b buf s Hbuf Ht Hb Hs; [lia|]. cbn [body_loop]. destruct (Z.ltb_spec (len buf) TEMP_BUF_SIZE); [|lia].
  apply runs_bind, runs_bind. eapply runs_mono; [apply body_data_runs; [|exact Hb|exact Hs]; lia|]. intros s1 out (b1 & Hs1 & Hb1 & Hrest & Hlen & Hnil). apply runs_ret. cbv beta iota.
  assert (len (buf ++ out) ≤ TEMP_BUF_SIZE) as Hfull by (rewrite len_app; lia).
  assert ((length (buf ++ out) < turns)%nat) as Hwrite by (unfold len in Hfull; lia).
  rewrite Hrest in *. destruct out as [|c out].
  - pose proof (Hnil eq_refl) as H0. cbn [app] in H0. rewrite orb_true_r. apply runs_bind. eapply runs_mono; [apply write_loop_runs; [by left|exact Hs1]|]. intros s2 ? Hs2. apply runs_ret. exists b1.
    rewrite H0. by rewrite !app_nil_r in *.
  - rewrite orb_false_r. cbn [app length] in Ht. rewrite length_app in Ht. destruct (Z.eqb_spec (len (buf ++ c :: out)) TEMP_BUF_SIZE).
    + apply runs_bind. eapply runs_mono; [apply write_loop_runs; [by left|exact Hs1]|]. intros s2 ? Hs2.
      eapply runs_mono; [apply (IH (w ++ buf ++ c :: out) b1 [] s2); [done|lia|done|exact Hs2]|].
      intros s3 ? [b3 Hs3]. exists b3. cbn [app] in *. by rewrite <- !app_assoc in Hs3.
    + eapply runs_mono; [apply (IH w b1 (buf ++ c :: out) s1); [lia|lia|done|exact Hs1]|].
      intros s3 ? [b3 Hs3]. exists b3. by rewrite <- !app_assoc in Hs3.
Qed.

(** *** The head of the response *)

Lemma read_runs {B} shut w l b (s : Exchange S B) : l ≠ [] → at_ shut w l b s →
  runs (await (read_status_line (E := E) (F := F))) s (λ s' seg, ∃ l', at_ shut w l' b s' ∧ l = seg ++ l' ∧ seg ≠ []).
Proof.
  intros Hl Hs. apply (runs_await _ (at_ shut w l b)); [|done|exact (at_patience _ _ _ _ _ Hs)].
  intros s1 [H1 H2 H3 H4 H5 H6 H7]. unfold runs, read_status_line. set (rb := ReadBuf_new TEMP_BUF_SIZE).
  destruct (stream_read (in_io (ex_conn s1)) rb H1 ltac:(done)) as ((out & Ha & Hrest & Hlen & Hx) & Hok & Hw).
  assert (steady → ∃ x, (poll_read (E := E) (in_io (ex_conn s1), rb)).2 = Ok (Ready x)) as Hsteady by (intros (Hr & _); by apply Hr).
  destruct (poll_read (in_io (ex_conn s1), rb)) as [[io b2] [[x|]|e|]]; cbn [fst snd] in *; [| | |done].
  - subst b2. cbn [rb_filled rb_put rb ReadBuf_new app]. destruct out as [|c out].
    + exfalso. destruct (Hx eq_refl) as [Hx'|Hx']; [done|]. by rewrite H3 in Hx'.
    + exists (stream_rest E io). split; [constructor; cbn; try done; congruence|]. split; [congruence|done].
  - subst out. cbn [app] in Hrest. split; [intros Hc; by destruct (Hsteady Hc)|]. intros n. constructor; cbn; try done; try congruence. intros _ Hc. by destruct (Hsteady Hc).
  - intros Hc. by destruct (Hsteady Hc).
Qed.

Lemma response_runs {B} turns shut w l b a d k body (s : Exchange S B) :
  rel a d → run a l = Done k body → (length l < turns)%nat → at_ shut w l b s →
  runs (response_loop (E := E) (F := F) intercept_output turns d) s (λ s' r, r.1 = known_part k ∧ ∃ l', at_ shut w l' b s' ∧ body = r.2 ++ l').
Proof.
  revert a d l s. induction turns as [|turns IH]; intros a d l s Hrel Hrun Ht Hs; [lia|]. cbn [response_loop].
  assert (l ≠ []) as Hl by (intros ->; done). apply runs_bind. eapply runs_mono; [by apply read_runs|]. intros s1 seg (l' & Hs1 & -> & Hne). cbn beta.
  destruct (intercept_output seg) eqn:Ei; [|unfold runs; cbn; intros (_ & _ & _ & _ & Hc); destruct (Hc seg); congruence].
  assert (¬ double_cr a seg) as Hcr.
  { intros Hd. destruct a, seg as [|z seg]; try done. cbn in Hd. destruct (Z.eq_dec z 13) as [->|Hz]; [done|]. destruct z; try done. repeat match goal with p : positive |- _ => destruct p; try done end. }
  pose proof (response_decode_ok a d seg Hrel Hne Hcr) as Ho. rewrite response_run_app in Hrun.
  destruct (run a seg) as [a'|k' rest|e] eqn:Er; cbn [outcome] in Ho.
  - destruct Ho as (d1 & -> & H1). eapply IH; [done|done| |done]. rewrite length_app in Ht. destruct seg; [done|]. cbn in Ht. lia.
  - destruct Ho as (d1 & ->). injection Hrun as -> <-. apply runs_ret. split; [done|]. by exists l'.
  - done.
Qed.

(** *** The whole exchange *)

Context (body_is_empty : R → bool).
Hypothesis empty_rest : ∀ b, body_is_empty b = true → body_rest b = [].

(** The form of the target: absolute for a proxy that is not a tunnel. *)
Definition absolute_form (io : S) (r : Request) : bool := is_proxy io && bool_decide (uri_scheme (rq_uri r) = Some PHttp).

Lemma send_runs turns shut w l b order r (s : Exchange S R) :
  is_chunked r = false → body_ok b → at_ shut w l b s →
  (length (request_message (absolute_form (in_io (ex_conn s)) r) (request_part order r)) + length (body_rest b) + Z.to_nat TEMP_BUF_SIZE + 1 < turns)%nat →
  runs (_ ← encode_request_part (F := F) intercept_input turns order r; encode_various_body has_source turns body_is_empty r) s
    (λ s' _, ∃ b', at_ shut (w ++ request_message (absolute_form (in_io (ex_conn s)) r) (request_part order r) ++ body_rest b) l b' s').
Proof.
  intros Hc Hb Hs Ht. apply runs_bind. unfold encode_request_part. apply runs_bind. unfold runs at 1. cbn [get_st]. fold (absolute_form (in_io (ex_conn s)) r).
  set (abs := absolute_form _ r) in *. pose proof (borrowed_ok (request_part order r) abs) as [Hok Htodo].
  assert ((if abs then re_absolute_uri true (RequestRefEncoder_new (request_part order r)) else RequestRefEncoder_new (request_part order r)) = re_absolute_uri abs (RequestRefEncoder_new (request_part order r))) as -> by (by destruct abs).
  eapply runs_mono; [apply (head_runs turns shut w l b); [exact Hok|rewrite Htodo; lia|exact Hs]|]. rewrite Htodo. intros s1 ? Hs1. cbn beta in *.
  unfold encode_various_body. apply runs_bind. unfold runs at 1. cbn [get_st]. rewrite (at_body _ _ _ _ _ Hs1), Hc. destruct (body_is_empty b) eqn:Ee.
  - apply runs_ret. exists b. rewrite (empty_rest b Ee). by rewrite app_nil_r.
  - unfold encode_body. eapply runs_mono; [apply (body_loop_runs turns shut (w ++ request_message abs (request_part order r)) l b []); [done|lia|done|exact Hs1]|].
    intros s2 ? [b2 Hs2]. exists b2. by rewrite <- app_assoc in Hs2.
Qed.

(** The connection as the body of the response sees it. *)
Definition inner_ok (shut : bool) (i : Inner S) : Prop := stream_ok E (in_io i) ∧ in_occupied i = true ∧ in_shutdown i = shut.
Definition inner_rest (i : Inner S) : bytes := stream_rest E (in_io i).

Lemma inner_poll shut i b : inner_ok shut i → 0 ≤ rb_room b →
  poll_spec (E := E) inner_rest i b (poll_read (i, b)) ∧ inner_ok shut (poll_read (E := E) (i, b)).1.1.
Proof.
  intros (H1 & H2 & H3) Hb. destruct (stream_read (in_io i) b H1 Hb) as ((out & Ha & Hrest & Hlen & Hx) & Hok & _).
  unfold poll_read at 1 2, Inner_AsyncRead. cbn [fst snd]. destruct (poll_read (in_io i, b)) as [[io b2] x]. cbn [fst snd] in *.
  split; [|by unfold inner_ok]. exists out. by unfold inner_rest.
Qed.

Lemma inner_calm shut : steady → calm (E := E) intercept_output (inner_ok shut).
Proof.
  intros (Hr & _ & _ & _ & Hi). split; [|intros l; apply Hi]. intros i b (H1 & _) Hb. destruct (Hr (in_io i) b H1 Hb) as [x Hx]. exists x.
  unfold poll_read, Inner_AsyncRead. cbn [fst snd]. by destruct (poll_read (in_io i, b)) as [[io b2] y].
Qed.

(** The bytes behind the head are a body of this length with this content; a body
    up to the end of the connection is left to [http_body_delivers]. *)
Definition has_body (n : BodyLength) (body content : bytes) : Prop :=
  match n with
  | BEmpty => body = [] ∧ content = []
  | BLength m => content = body ∧ m = len body ∧ body ≠ []
  | BChunk => ∃ es, ChunkDecoder.run (ChunkDecoder.ASize 0) body = (es, ChunkDecoder.Done []) ∧ content = data_of es
  | BUntilClose => False
  end.

Lemma has_body_open n body pre content i : has_body n body content → body = pre ++ inner_rest i → is_body inner_rest n i pre content.
Proof.
  destruct n as [|m| |]; cbn; [by intros H <-| |intros [-> ->] H|done].
  - by intros (-> & -> & Hne) <-.
  - symmetry in H. by apply app_eq_nil in H as [-> _].
Qed.

(** What becomes of the connection when the body is read. *)
Definition freed (shut : bool) (s : Exchange S R) (k : Kind (Inner S)) : Prop :=
  match kind_io k with
  | None => in_occupied (ex_conn s) = false ∧ in_shutdown (ex_conn s) = shut
  | Some io => match settle io with Gone i _ => in_occupied i = false ∧ in_shutdown i = shut | Held _ => False end
  end.

(** Reading the body to its end. *)
Definition delivers (shut : bool) (body content : bytes) (s : Exchange S R) (k : Kind (Inner S)) : Prop :=
  ∀ fuel rooms, (length body < fuel)%nat → Forall (λ room, 0 < room) rooms →
    match http_read (E := E) (λ _, true) intercept_output fuel rooms k with
    | (k', data, Ok true) => data = content ∧ freed shut s k'
    | (_, data, Ok false) => steady → (length rooms <= length data)%nat
    | (_, _, Err _) => ¬ steady
    | (_, _, Panic) => False
    end.

Lemma delivers_kind shut body content s k :
  (∀ fuel, (length body < fuel)%nat → http_ok (λ i, inner_ok shut i ∧ (length (inner_rest i) < fuel)%nat) inner_rest k content) →
  (kind_io k = None → in_occupied (ex_conn s) = false ∧ in_shutdown (ex_conn s) = shut) → delivers shut body content s k.
Proof.
  intros Hk Hnone fuel rooms Hf Hrooms.
  pose proof (http_read_bounded (E := E) intercept_output (inner_ok shut) inner_rest (inner_poll shut) (λ _, true) (always_closable _)
    fuel rooms k content ltac:(lia) Hrooms (Hk fuel Hf)) as H.
  destruct (http_read _ _ _ _ k) as [[k' data] x] eqn:Er. destruct H as (rest & -> & Hx). destruct x as [[]|e|]; [| | |done].
  - destruct Hx as [-> Hg]. rewrite app_nil_r. split; [done|]. unfold freed, http_gone in *. destruct (kind_io k') as [[i|i []]|] eqn:Ek; try done.
    + destruct Hg as (_ & _ & Hsh). by cbn.
    + apply Hnone, (http_read_none (E := E) (λ _, true) intercept_output fuel rooms). by rewrite Er.
  - intros Hs. by apply Hx, inner_calm.
  - intros Hs. destruct Hx as [_ Hx]. by apply Hx, inner_calm.
Qed.

(** A connection that is given out. *)
Definition given_out (io : S) (b : R) (patience : nat) : Exchange S R := mkExchange (mkInner io true false) b patience.

Lemma given_out_at io b patience : stream_ok E io → (0 < patience)%nat → at_ false (stream_written E io) (stream_rest E io) b (given_out io b patience).
Proof. intros H Hp. constructor; try done. cbn. lia. Qed.

(** The response from the bytes behind its head. *)
Lemma on_response_runs w l b method part n body pre content (s : Exchange S R) :
  BodyLengthParser_parse method part = Ok n → has_body n body content → body = pre ++ l → at_ false w l b s →
  runs (on_response (E := E) (F := F) method part pre) s (λ s' x, x.1 = part ∧ stream_written E (in_io (ex_conn s')) = w ∧ delivers (closes part) body content s' x.2).
Proof.
  intros Hparse Hb Hbody [H1 H2 H3 H4 H5 H6 H7]. unfold runs, on_response, decode_response. set (i := if closes part then conn_shutdown (ex_conn s) else ex_conn s). rewrite Hparse.
  assert (inner_ok (closes part) i ∧ inner_rest i = l ∧ in_io i = in_io (ex_conn s)) as (Hi & Hrest & Hio).
  { unfold i, inner_ok, inner_rest. destruct (closes part); cbn; by split_and!. }
  assert (body = pre ++ inner_rest i) as Hbody' by congruence. pose proof (has_body_open n body pre content i Hb Hbody') as Hopen.
  assert (∀ fuel, (length body < fuel)%nat → match HttpBody_new (E := E) n i pre with inl k => http_ok (λ i, inner_ok (closes part) i ∧ (length (inner_rest i) < fuel)%nat) inner_rest k content | inr _ => False end) as Hnew.
  { intros fuel Hf. apply http_new_ok; [|done]. split; [done|]. rewrite Hbody', length_app in Hf. lia. }
  destruct (HttpBody_new n i pre) as [k|[e io]] eqn:Ek; [|by destruct (Hnew (Datatypes.S (length body)) ltac:(lia))]. assert (k = KEmpty ∨ kind_io k ≠ None) as [->|Hk] by (destruct k; by auto).
  - cbn. split_and!; [done|congruence|]. by apply delivers_kind; [|intros _; destruct Hi as (_ & _ & ?)].
  - assert ((match k with KEmpty => (conn_drop i, Ok (E := Http1Error E F) (part, KEmpty)) | _ => (i, Ok (part, k)) end) = (i, Ok (part, k))) as -> by (by destruct k).
    split_and!; [done|cbn; congruence|]. by apply delivers_kind.
Qed.

(** C5: A request over an HTTP/1.1 connection that is given out, its body not sent
    chunked (no Transfer-Encoding with chunked), answered by a response in the form
    of the standard with a body whose length its head tells: none, Content-Length or
    chunked without trailer fields, not one up to the end of the connection. When
    the request ends well, what was written is the message of the request, head and
    body, each byte once and in order; the response has the version, code and fields
    of its head; reading its body over non-empty buffers of any sizes gives its
    content and then the connection is free, shut down just when the head closes it
    as the code reads it (the lower-case text close, or HTTP/1.0 without
    keep-alive). The request fails only when the connection, the body or an
    interceptor fails or waits too long for the task, and never panics. *)
Theorem http1_exchange (intercept_request : Request → bool) (turns patience : nat) (io : S) (b : R) (r : Request) (order : list (bytes * HeaderValue))
    (version code reason body content : bytes) (fs : list FieldLine) (v : Version) (c : StatusCode) (h : Headers) (n : BodyLength) :
  stream_ok E io → body_ok b → intercept_request r = true → is_chunked r = false →
  stream_rest E io = response_bytes version code reason fs body →
  read_version version = Some v → Forall (λ b, is_valid_byte b && negb (b =? 32) = true) code → StatusCode_from_bytes code = Ok c →
  Forall (λ b, is_legal_reason_byte b = true) reason → Forall field_line_ok fs → insert_lines fs ∅ = Ok h →
  BodyLengthParser_parse (rq_method r) (mkResponsePart v c h) = Ok n → has_body n body content →
  let message := request_message (absolute_form io r) (request_part order r) in
  (0 < patience)%nat → (length message + length (body_rest b) + Z.to_nat TEMP_BUF_SIZE + length (stream_rest E io) + 1 < turns)%nat →
  match http1_request (E := E) intercept_request intercept_input intercept_output has_source turns order body_is_empty r (given_out io b patience) with
  | (s, Ok (part, k)) =>
      part = mkResponsePart v c h ∧ stream_written E (in_io (ex_conn s)) = stream_written E io ++ message ++ body_rest b ∧
      delivers (closes part) body content s k
  | (_, Err _) => ¬ steady
  | (_, Panic) => False
  end.
Proof.
  intros Hio Hb Hi Hc Hrest Hv Hcode Hcd Hreason Hfs Hins Hparse Hbody message Hp Ht. unfold http1_request. rewrite Hi. cbn [negb]. rewrite bind_st. unfold guarded.
  assert (run (AVersion []) (stream_rest E io) = Done (mkKnown v c h) body) as Hrun.
  { rewrite Hrest. unfold response_bytes. rewrite (run_status_line version v code c reason) by done. by apply (run_fields fs (mkKnown v c ∅)). }
  assert (runs (_ ← encode_request_part (F := F) intercept_input turns order r; _ ← encode_various_body has_source turns body_is_empty r; response_loop intercept_output turns ResponseDecoder_new)
    (given_out io b patience) (λ s' x, x.1 = mkResponsePart v c h ∧ ∃ l b', at_ false (stream_written E io ++ message ++ body_rest b) l b' s' ∧ body = x.2 ++ l)) as H.
  { pose proof (send_runs turns false _ _ b order r _ Hc Hb (given_out_at io b patience Hio Hp)) as Hsend. change (in_io (ex_conn (given_out io b patience))) with io in Hsend. fold message in Hsend. specialize (Hsend ltac:(lia)).
    unfold runs in *. rewrite bind_st in Hsend. rewrite bind_st. destruct (encode_request_part intercept_input turns order r (given_out io b patience)) as [s1 [[]|e|]]; [|done..].
    rewrite bind_st. destruct (encode_various_body has_source turns body_is_empty r s1) as [s2 [[]|e|]]; [|done..]. destruct Hsend as [b' Hs2].
    assert (rel (AVersion []) ResponseDecoder_new) as Hrel by (split_and!; [by left|done..]).
    pose proof (response_runs turns false _ _ b' _ _ _ _ s2 Hrel Hrun ltac:(lia) Hs2) as H. unfold runs in H.
    destruct (response_loop intercept_output turns ResponseDecoder_new s2) as [s3 [x| |]]; [|done..]. destruct H as [H1 (l' & H2 & H3)]. split; [exact H1|]. by exists l', b'. }
  unfold runs in H. destruct ((_ ← encode_request_part _ _ _ _; _) _) as [s1 [[part pre]|e|]]; [|done..]. destruct H as [Hpart (l & b' & Hs1 & Hl)]. cbn [fst snd] in *. subst part. cbv iota beta.
  pose proof (on_response_runs _ _ b' (rq_method r) _ n body pre content s1 Hparse Hbody Hl Hs1) as H. unfold runs in H.
  destruct (on_response (rq_method r) (mkResponsePart v c h) pre s1) as [s2 [[part k]| |]]; [|done..]. cbn [fst snd] in H. destruct H as (-> & Hw & Hd). by split_and!.
Qed.
End laws.

(** C32: A request that fails leaves no half-used connection behind.  From any state,
    with any stream, body and interceptors, and wherever the task is dropped: when
    [request] ends without a response, the handle is given back, and the connection is
    shut down, so that the pool does not use it again, unless the interceptor refused
    the request before anything was written or read. *)
Theorem http1_error_closes {E F S R : Type} `{!AsyncRead E S, !AsyncWrite E S, !WriteAll E S, !ConnInfo S, !AsyncRead F R}
    (intercept_request : Request → bool) (intercept_input intercept_output : bytes → bool) (has_source : F → bool) (body_is_empty : R → bool)
    (turns : nat) (order : list (bytes * HeaderValue)) (r : Request) (s : Exchange S R) :
  match http1_request (E := E) intercept_request intercept_input intercept_output has_source turns order body_is_empty r s with
  | (s', Ok (_, KEmpty)) => is_Some (dispatch (ex_conn s'))
  | (_, Ok _) => True
  | (s', _) => is_Some (dispatch (ex_conn s')) ∧ (is_shutdown (ex_conn s') = true ∨ intercept_request r = false ∧ in_io (ex_conn s') = in_io (ex_conn s))
  end.
Proof.
  unfold http1_request. destruct (intercept_request r) eqn:Ei; cbn [negb].
  2:{ rewrite bind_st. cbn. split; [by eexists|by right]. }
  rewrite bind_st. unfold guarded. destruct ((_ ← encode_request_part _ _ _ _; _) s) as [s1 [[part pre]|e|]]; [|by split; [eexists|left]..].
  cbv iota beta. unfold on_response, decode_response. set (i := if closes part then conn_shutdown (ex_conn s1) else ex_conn s1).
  destruct (BodyLengthParser_parse (rq_method r) part) as [n|e|] eqn:Ep; [|by split; [eexists|left]|].
  - destruct n as [|n| |]; cbn [HttpBody_new]; try done. destruct pre as [|z pre]; [by eexists|]. split; [by eexists|by left].
  - exfalso. unfold BodyLengthParser_parse in Ep. repeat case_match; done.
Qed.

(** ** A connection with all its bytes

    It gives at most five bytes a read and takes at most five a write; the body is a
    slice. *)
Record Wire := mkWire { wi_in : bytes; wi_out : bytes }.
#[local] Instance Wire_read : AsyncRead () Wire := λ s,
  let out := takeZ (Z.min 5 (rb_room s.2)) (wi_in s.1) in
  ((mkWire (dropZ (Z.min 5 (rb_room s.2)) (wi_in s.1)) (wi_out s.1), rb_put out s.2), Ok (Ready ())).
#[local] Instance Wire_write : AsyncWrite () Wire := λ l w, (mkWire (wi_in w) (wi_out w ++ takeZ 5 l), Ok (Ready (Z.min 5 (len l)))).
#[local] Instance Wire_write_all : WriteAll () Wire := λ l w, (mkWire (wi_in w) (wi_out w ++ l), Ok (Ready ())).
#[local] Instance Wire_info : ConnInfo Wire := λ _, false.

Lemma Wire_read_ok r b : True → 0 ≤ rb_room b →
  poll_spec (E := ()) wi_in r b (poll_read (r, b)) ∧ True ∧ wi_out (poll_read (E := ()) (r, b)).1.1 = wi_out r.
Proof.
  intros _ Hb. split; [|done]. exists (takeZ (Z.min 5 (rb_room b)) (wi_in r)). cbn [poll_read Wire_read fst snd wi_in].
  split_and!; [done|by rewrite takeZ_dropZ|rewrite len_takeZ_min by lia; lia|]. intros H. apply takeZ_nil_inv in H as [?|?]; [left; lia|by right|lia].
Qed.
Lemma Wire_write_ok r l : True →
  match poll_write (E := ()) l r with
  | (r', Ok (Ready n)) => True ∧ 0 ≤ n ≤ len l ∧ wi_out r' = wi_out r ++ takeZ n l ∧ wi_in r' = wi_in r
  | (r', Ok Pending) => True ∧ wi_out r' = wi_out r ∧ wi_in r' = wi_in r
  | (_, Err _) => True
  | (_, Panic) => False
  end.
Proof. intros _. cbn. pose proof (len_nonneg l). split_and!; try done; try lia. by rewrite Z.min_comm, takeZ_min. Qed.
Lemma Wire_write_all_ok r l : True →
  match poll_write_all (E := ()) l r with
  | (r', Ok (Ready _)) => True ∧ wi_out r' = wi_out r ++ l ∧ wi_in r' = wi_in r
  | (r', Ok Pending) => True ∧ wi_out r' = wi_out r ∧ wi_in r' = wi_in r
  | (_, Err _) => True
  | (_, Panic) => False
  end.
Proof. done. Qed.
#[local] Instance Wire_laws : StreamLaws () Wire :=
  {| stream_ok := λ _, True; stream_rest := wi_in; stream_written := wi_out; stream_read := Wire_read_ok; stream_write := Wire_write_ok; stream_write_all := Wire_write_all_ok |}.

Definition post_request : Request := mkRequest Post Http11 (mkUri (Some PHttp) (Some (mkAuthority (bs "h") None)) (Some (bs "/p")) None) ∅.
Definition post_response : bytes := response_bytes (bs "HTTP/1.1") (bs "200") (bs "OK") [mkFieldLine (bs "Content-Length") (bs " ") (bs "5") []] (bs "hello").
Definition post_fields : list (bytes * HeaderValue) := [(bs "content-length", mkHeaderValue [bs "3"] false)].
Definition not_empty (b : bytes) : bool := match b with [] => true | _ => false end.
Definition run_post (response : bytes) (rooms : list Z) :=
  match http1_request (E := ()) (F := ()) (λ _, true) (λ _, true) (λ _, true) (λ _, false) (Z.to_nat 20000) post_fields not_empty post_request (given_out (mkWire response []) (bs "abc") 1) with
  | (s, Ok (part, k)) => let '(k', data, x) := http_read (E := ()) (λ _, true) (λ _, true) 100 rooms k in Some (wi_out (in_io (ex_conn s)), sp_status part, data, x, settle <$> kind_io k')
  | _ => None
  end.

Definition post_turns : nat := Z.to_nat 20000.
Definition post_headers : Headers := {[ bs "content-length" := mkHeaderValue [bs "5"] false ]}.
Definition post_lines : list FieldLine := [mkFieldLine (bs "Content-Length") (bs " ") (bs "5") []].

Lemma post_length : let message := request_message (absolute_form (mkWire post_response []) post_request) (request_part post_fields post_request) in
  (length message + length (bs "abc") + Z.to_nat TEMP_BUF_SIZE + length (stream_rest () (mkWire post_response [])) + 1 < post_turns)%nat.
Proof. apply Nat.ltb_lt. by vm_compute. Qed.
Lemma post_line_ok : Forall field_line_ok post_lines.
Proof. repeat constructor; cbn; try done; by repeat constructor. Qed.
Lemma not_empty_rest (b : bytes) : not_empty b = true → b = [].
Proof. by destruct b. Qed.

Lemma http1_exchange_witness :
  run_post post_response [3; 3; 3; 3] = Some (bs "POST /p HTTP/1.1" ++ [13; 10] ++ bs "content-length:3" ++ [13; 10; 13; 10] ++ bs "abc", 200, bs "hello", Ok true,
    Some (Gone (mkInner (mkWire [] (bs "POST /p HTTP/1.1" ++ [13; 10] ++ bs "content-length:3" ++ [13; 10; 13; 10] ++ bs "abc")) false false) false)) ∧
  match http1_request (E := ()) (F := ()) (λ _, true) (λ _, true) (λ _, true) (λ _, false) post_turns post_fields not_empty post_request (given_out (mkWire post_response []) (bs "abc") 1) with
  | (s, Ok (part, k)) =>
      part = mkResponsePart Http11 200 post_headers ∧
      stream_written () (in_io (ex_conn s)) = stream_written () (mkWire post_response []) ++ request_message (absolute_form (mkWire post_response []) post_request) (request_part post_fields post_request) ++ bs "abc" ∧
      delivers (E := ()) (F := ()) (λ _, true) (λ _, true) (λ _, True) (closes part) (bs "hello") (bs "hello") s k
  | (_, Err _) => ¬ steady (E := ()) (F := ()) (S := Wire) (R := bytes) (λ _, true) (λ _, true) (λ _, True)
  | (_, Panic) => False
  end.
Proof.
  split; [by vm_compute|].
  refine (http1_exchange (E := ()) (F := ()) (λ _, true) (λ _, true) (λ _, false) (λ _, True) (λ l, l) slice_poll_ok not_empty not_empty_rest
    (λ _, true) post_turns 1 (mkWire post_response []) (bs "abc") post_request post_fields (bs "HTTP/1.1") (bs "200") (bs "OK") (bs "hello") (bs "hello") post_lines Http11 200 post_headers (BLength 5)
    I I eq_refl eq_refl eq_refl eq_refl _ eq_refl _ post_line_ok eq_refl _ _ _ post_length).
  - repeat constructor.
  - repeat constructor.
  - by vm_compute.
  - by vm_compute.
  - lia.
Defined.

(** A stream that takes nothing of a write: the loop of [encode_body] writes for
    ever. *)
Record Full := mkFull { fu_wire : Wire }.
#[local] Instance Full_write : AsyncWrite () Full := λ l w, (w, Ok (Ready 0)).
Example write_zero_loops :
  (encode_body (E := ()) (F := ()) (S := Full) text_poll_data (λ _, false) 50 (given_out (mkFull (mkWire [] [])) (bs "abc") 1)).2 = Err Cancelled.
Proof. by vm_compute. Qed.

(** The token of Connection is looked for in lower case only, and anywhere in the
    value. *)
Example close_in_capitals :
  closes (mkResponsePart Http11 200 {[ bs "connection" := mkHeaderValue [bs "Close"] false ]}) = false ∧
  closes (mkResponsePart Http11 200 {[ bs "connection" := mkHeaderValue [bs "x-not-closed"] false ]}) = true.
Proof. by vm_compute. Qed.

(** A request body goes to the stream without the interceptor of the input: with
    one that refuses all bytes that hold [abc] the request above is sent. *)
Example body_not_intercepted :
  match http1_request (E := ()) (F := ()) (λ _, true) (λ l, negb (contains_text (bs "abc") l)) (λ _, true) (λ _, false) post_turns post_fields not_empty post_request (given_out (mkWire post_response []) (bs "abc") 1) with
  | (s, Ok _) => contains_text (bs "abc") (wi_out (in_io (ex_conn s)))
  | _ => false
  end = true.
Proof. by vm_compute. Qed.
