(* ===== verification/H2Manager.v ===== *)
(** * Connection manager of the HTTP/2 client

    Models [src/ylong_http_client/src/util/h2/manager.rs] and the structures it
    drives in [util/dispatcher.rs]: [ConnManager], the task that hands the frames
    of the peer to the streams and sends the frames of the requests, with its
    [StreamController] and the two ends of its channels.

    What is outside: the asynchronous runtime.  [Runtime] is what the manager
    asks of it while it is polled; [RuntimeLaws] is what is relied on.  A value
    of type [W] is the rest of the world: the channels of the streams, and the
    bodies of the requests.  A channel of a stream is a number; the map of the
    senders and a message that waits for room hold this number. *)

From S2P Require Import Prelude H2Error Headers Parts H2Frame H2Window H2Streams H2FlowControl.
#[local] Open Scope Z_scope.

(** ** Data *)

(** What a poll returns when it is not an error. *)
Inductive Poll := Ready | Pending.

Inductive RespMessage := RespOutput (f : Frame) | RespExit (e : DispatchErrorKind).
Inductive OutputMessage := Output (f : Frame) | OutputExit (e : DispatchErrorKind).
Record ReqMessage := mkReq { rq_sender : Z; rq_flag : Z; rq_payload : Payload; rq_data : BodyDataRef }.

(** The receiving end of a channel: what is in it, and whether it ends there. *)
Record Receiver (A : Type) := mkReceiver { rx_queue : list A; rx_closed : bool }.
Arguments mkReceiver {A} _ _.
Arguments rx_queue {A} _.
Arguments rx_closed {A} _.

Definition rx_close {A : Type} (r : Receiver A) : Receiver A := mkReceiver (rx_queue r) true.

(** [SettingsState]: the settings that the peer has not acknowledged. *)
Inductive SettingsState := Acknowledging (settings : list Setting) | Synced.

Inductive ManagerState := MSend | MReceive | MExit (e : DispatchErrorKind).

(** [ManagerSendFut]: a message on its way to the channel. *)
Definition SendFut : Type := Z * RespMessage.

(** The outcome of a poll of a message on its way. *)
Inductive SendPoll := SendReady | SendGone | SendBlocked.

#[export] Instance SendPoll_eq_dec : EqDecision SendPoll.
Proof. solve_decision. Defined.
#[export] Instance Poll_eq_dec : EqDecision Poll.
Proof. solve_decision. Defined.

Class Runtime (W : Type) := {
  poll_send : SendFut → W → W * SendPoll;
  try_send : SendFut → W → W;
  (** What the body of a stream gives to a [poll_read] of some size. *)
  poll_body : Z → W → W * (Z → PollRead);
  (** The orders in which the hash maps and sets are visited. *)
  map_order : gmap Z Stream → list Z;
  set_order : gset Z → list Z;
  key_order : gmap Z SendFut → list Z }.

(** What a channel was given, ever: a message that is taken is the last one of
    its channel, and of no other.  A body does not give more than it is asked
    for.  A map is visited once at each key. *)
Class RuntimeLaws (W : Type) `{Runtime W} := {
  given : Z → W → list RespMessage;
  poll_send_given fut w c :
    given c (poll_send fut w).1 =
      given c w ++ (if decide ((poll_send fut w).2 = SendReady ∧ fut.1 = c) then [fut.2] else []);
  try_send_given fut w c :
    given c (try_send fut w) = given c w ∨ (fut.1 = c ∧ given c (try_send fut w) = given c w ++ [fut.2]);
  poll_body_given id w c : given c (poll_body id w).1 = given c w;
  poll_body_fills id w : fills (poll_body id w).2;
  map_order_keys m id : id ∈ map_order m ↔ is_Some (m !! id);
  map_order_nodup m : NoDup (map_order m);
  key_order_keys m id : id ∈ key_order m ↔ is_Some (m !! id);
  key_order_nodup m : NoDup (key_order m) }.

(** [StreamController].  The two flags are shared with the dispatcher, which the
    pool asks. The GOAWAY sent last is its error code and its last stream id: its debug
    data is always empty. *)
Record StreamController := mkController {
  io_shutdown : bool;
  io_goaway : bool;
  senders : gmap Z Z;
  curr_message : gmap Z SendFut;
  streams : Streams;
  go_away_error_code : option Z;
  going_away : option (Z * Z) }.

(** [StreamController::new]. *)
Definition StreamController_new (s : Streams) : StreamController := mkController false false ∅ ∅ s None None.

(** [ConnManager], and the world. *)
Record Manager (W : Type) := mkManager {
  m_state : ManagerState;
  m_next_state : ManagerState;
  m_settings : SettingsState;
  input_tx : Sender;
  resp_rx : Receiver OutputMessage;
  req_rx : Receiver ReqMessage;
  controller : StreamController;
  world : W }.
Arguments mkManager {W} _ _ _ _ _ _ _ _.
Arguments m_state {W} _.
Arguments m_next_state {W} _.
Arguments m_settings {W} _.
Arguments input_tx {W} _.
Arguments resp_rx {W} _.
Arguments req_rx {W} _.
Arguments controller {W} _.
Arguments world {W} _.

(** ** Fields *)

Definition set_shutdown (c : StreamController) : StreamController :=
  mkController true (io_goaway c) (senders c) (curr_message c) (streams c) (go_away_error_code c) (going_away c).
Definition set_goaway (c : StreamController) : StreamController :=
  mkController (io_shutdown c) true (senders c) (curr_message c) (streams c) (go_away_error_code c) (going_away c).
Definition set_senders (x : gmap Z Z) (c : StreamController) : StreamController :=
  mkController (io_shutdown c) (io_goaway c) x (curr_message c) (streams c) (go_away_error_code c) (going_away c).
Definition set_curr_message (x : gmap Z SendFut) (c : StreamController) : StreamController :=
  mkController (io_shutdown c) (io_goaway c) (senders c) x (streams c) (go_away_error_code c) (going_away c).
Definition set_streams (x : Streams) (c : StreamController) : StreamController :=
  mkController (io_shutdown c) (io_goaway c) (senders c) (curr_message c) x (go_away_error_code c) (going_away c).
Definition set_go_away_error_code (x : option Z) (c : StreamController) : StreamController :=
  mkController (io_shutdown c) (io_goaway c) (senders c) (curr_message c) (streams c) x (going_away c).
Definition set_going_away (x : option (Z * Z)) (c : StreamController) : StreamController :=
  mkController (io_shutdown c) (io_goaway c) (senders c) (curr_message c) (streams c) (go_away_error_code c) x.

Definition set_states {W : Type} (x next : ManagerState) (m : Manager W) : Manager W :=
  mkManager x next (m_settings m) (input_tx m) (resp_rx m) (req_rx m) (controller m) (world m).
Definition set_settings {W : Type} (x : SettingsState) (m : Manager W) : Manager W :=
  mkManager (m_state m) (m_next_state m) x (input_tx m) (resp_rx m) (req_rx m) (controller m) (world m).
Definition set_input_tx {W : Type} (x : Sender) (m : Manager W) : Manager W :=
  mkManager (m_state m) (m_next_state m) (m_settings m) x (resp_rx m) (req_rx m) (controller m) (world m).
Definition set_resp_rx {W : Type} (x : Receiver OutputMessage) (m : Manager W) : Manager W :=
  mkManager (m_state m) (m_next_state m) (m_settings m) (input_tx m) x (req_rx m) (controller m) (world m).
Definition set_req_rx {W : Type} (x : Receiver ReqMessage) (m : Manager W) : Manager W :=
  mkManager (m_state m) (m_next_state m) (m_settings m) (input_tx m) (resp_rx m) x (controller m) (world m).
Definition set_controller {W : Type} (x : StreamController) (m : Manager W) : Manager W :=
  mkManager (m_state m) (m_next_state m) (m_settings m) (input_tx m) (resp_rx m) (req_rx m) x (world m).
Definition set_world {W : Type} (x : W) (m : Manager W) : Manager W :=
  mkManager (m_state m) (m_next_state m) (m_settings m) (input_tx m) (resp_rx m) (req_rx m) (controller m) x.

Definition mstreams {W : Type} (m : Manager W) : Streams := streams (controller m).
Definition set_mstreams {W : Type} (x : Streams) (m : Manager W) : Manager W :=
  set_controller (set_streams x (controller m)) m.

(** ** Errors *)

(** A [match] on a result: an error is a value. *)
Definition attempt {S E E' A : Type} (m : ST S E A) : ST S E' (A + E) := λ s,
  match m s with
  | (s', Ok a) => (s', Ok (inl a))
  | (s', Err e) => (s', Ok (inr e))
  | (s', Panic) => (s', Panic)
  end.

(** [?] through [From]. *)
Definition lift_err {S E E' A : Type} (f : E → E') (m : ST S E A) : ST S E' A := λ s,
  match m s with
  | (s', Ok a) => (s', Ok a)
  | (s', Err e) => (s', Err (f e))
  | (s', Panic) => (s', Panic)
  end.

Section manager.
Context {W : Type} `{Runtime W}.

(** A method of the manager. *)
#[local] Abbreviation M := (ST (Manager W)).

Definition on_streams' {E A} (m : ST Streams E A) : M E A := zoom mstreams set_mstreams m.
Definition on_controller {E} (f : StreamController → StreamController) : M E () :=
  modify_st (λ m, set_controller (f (controller m)) m).
(** The streams and the channel to the task that writes frames. *)
Definition on_output {A} (m : ST (Streams * Sender) DispatchErrorKind A) : M DispatchErrorKind A :=
  zoom (λ m, (mstreams m, input_tx m)) (λ p m, set_mstreams p.1 (set_input_tx p.2 m)) m.
Definition send_input (f : Frame) : M DispatchErrorKind () := zoom input_tx set_input_tx (sender_send f).
Definition on_world {E A} (f : W → W * A) : M E A := λ m,
  let '(w, a) := f (world m) in (set_world w m, Ok a).

(** ** [StreamController] *)

Definition get_unsent_streams (last_stream_id : Z) : M H2Error (list Z) :=
  m ← get_st;
  if max_send_id (mstreams m) <? last_stream_id then throw (ConnectionError ProtocolError)
  else
    _ ← on_streams' (modify_st (λ s,
          mkStreams last_stream_id (max_recv_id s) (latest_remote_id s) (stream_recv_window_size s)
            (stream_send_window_size s) (max_concurrent_streams s) (current_concurrent_streams s)
            (flow_control s) (pending_concurrency s) (pending_stream_window s) (pending_conn_window s)
            (pending_send s) (window_updating_streams s) (stream_map s) (next_stream_id s)));
    on_streams' (get_unset_streams map_order last_stream_id).

Definition send_message_to_stream (id : Z) (message : RespMessage) : M H2Error Poll :=
  m ← get_st;
  match senders (controller m) !! id with
  | Some sender =>
      o ← on_world (poll_send (sender, message));
      match o with
      | SendReady => mret Ready
      | SendGone =>
          _ ← on_controller (λ c, set_senders (delete id (senders c)) c);
          throw (StreamError id NoError)
      | SendBlocked =>
          _ ← on_controller (λ c, set_curr_message (<[id := (sender, message)]> (curr_message c)) c);
          mret Pending
      end
  | None => throw (StreamError id NoError)
  end.

(** The reset of a stream whose receiver is gone, in [poll_blocked_message]. *)
Definition reset_gone {E} (key : Z) : M E () :=
  m ← get_st;
  match stream_state key (mstreams m) with
  | None | Some (Closed _) => mret ()
  | Some _ =>
      r ← on_streams' (send_local_reset key);
      match r with
      | EndOK =>
          _ ← attempt (send_input (mkFrame key 0 (PRstStream (into_code NoError)))); mret ()
      | _ => mret ()
      end
  end.

(** The loop of [poll_blocked_message] over the keys. *)
Fixpoint blocked_loop {E} (keys : list Z) (blocked : bool) : M E bool :=
  match keys with
  | [] => mret blocked
  | key :: keys =>
      m ← get_st;
      match curr_message (controller m) !! key with
      | None => blocked_loop keys blocked
      | Some task =>
          _ ← on_controller (λ c, set_curr_message (delete key (curr_message c)) c);
          o ← on_world (poll_send task);
          match o with
          | SendReady => blocked_loop keys blocked
          | SendGone =>
              _ ← on_controller (λ c, set_senders (delete key (senders c)) c);
              _ ← reset_gone key;
              blocked_loop keys blocked
          | SendBlocked =>
              _ ← on_controller (λ c, set_curr_message (<[key := task]> (curr_message c)) c);
              blocked_loop keys true
          end
      end
  end.

Definition poll_blocked_message {E} : M E Poll :=
  m ← get_st;
  blocked ← blocked_loop (key_order (curr_message (controller m))) false;
  mret (if blocked : bool then Pending else Ready).

(** [ConnManager::poll_blocked_frames]. *)
Definition poll_blocked_frames {E} : M E Poll :=
  p ← poll_blocked_message;
  match p with
  | Ready => _ ← modify_st (λ m, set_states (m_next_state m) MReceive m); mret Ready
  | Pending => mret Pending
  end.

(** ** Errors of streams and of the connection *)

(** The loop of [exit_with_error] and of [recv_go_away_frame]: the message goes
    to each of the streams; errors are ignored. *)
Fixpoint tell_streams {E} (ids : list Z) (error : DispatchErrorKind) (blocked : bool) : M E bool :=
  match ids with
  | [] => mret blocked
  | id :: ids =>
      p ← attempt (send_message_to_stream id (RespExit error));
      tell_streams ids error (match p with inl Pending => true | _ => blocked end)
  end.

Definition exit_with_error {E} (error : DispatchErrorKind) : M E bool :=
  _ ← on_controller set_shutdown;
  _ ← modify_st (λ m, set_req_rx (rx_close (req_rx m)) m);
  _ ← on_streams' clear_streams_states;
  ids ← on_streams' (get_all_unclosed_streams map_order);
  tell_streams ids error false.

Definition manage_stream_error (id : Z) (code : ErrorCode) : M DispatchErrorKind Poll :=
  let frame := mkFrame id 0 (PRstStream (into_code code)) in
  r ← on_streams' (send_local_reset id);
  match r with
  | EndOK =>
      _ ← send_input frame;
      p ← attempt (send_message_to_stream id (RespExit (KindH2 (StreamError id code))));
      match p with
      | inl Pending => _ ← modify_st (set_states MSend MReceive); mret Pending
      | _ => mret Ready
      end
  | EndIgnore => mret Ready
  | EndErr e => throw (KindH2 e)
  end.

(** The end of [manage_conn_error], of [manage_resp_error] and of
    [poll_channel_closed_exit]. *)
Definition exit_manager (kind : DispatchErrorKind) : M DispatchErrorKind Poll :=
  blocked ← exit_with_error kind;
  if blocked : bool then _ ← modify_st (set_states MSend (MExit kind)); mret Pending
  else throw kind.

(** Whether the GOAWAY is the one sent last. *)
Definition same_goaway (error_code last_stream_id : Z) (sent : option (Z * Z)) : bool :=
  match sent with
  | Some (code, last) => (code =? error_code) && (last =? last_stream_id)
  | None => false
  end.

Definition manage_conn_error (code : ErrorCode) : M DispatchErrorKind Poll :=
  m ← get_st;
  let last_stream_id := latest_remote_id (mstreams m) in
  if same_goaway (into_code code) last_stream_id (going_away (controller m)) then mret Ready
  else
    _ ← on_controller (set_going_away (Some (into_code code, last_stream_id)));
    _ ← send_input (mkFrame 0 0 (PGoaway (into_code code) last_stream_id []));
    exit_manager (KindH2 (ConnectionError code)).

Definition manage_resp_error (kind : DispatchErrorKind) : M DispatchErrorKind Poll :=
  match kind with
  | KindH2 (StreamError id code) => manage_stream_error id code
  | KindH2 (ConnectionError code) => manage_conn_error code
  | other => exit_manager other
  end.

Definition poll_channel_closed_exit : M DispatchErrorKind Poll := exit_manager KindChannelClosed.

(** [send_peer_goaway]. *)
Definition send_peer_goaway (err_code last_stream_id : Z) : M DispatchErrorKind () :=
  m ← get_st;
  if same_goaway err_code last_stream_id (going_away (controller m)) then mret ()
  else
    _ ← on_controller (set_going_away (Some (err_code, last_stream_id)));
    send_input (mkFrame 0 0 (PGoaway err_code last_stream_id [])).

Definition poll_deal_with_go_away (error_code : Z) : M DispatchErrorKind () :=
  m ← get_st;
  if is_closed (mstreams m) then
    _ ← send_peer_goaway error_code (latest_remote_id (mstreams m));
    _ ← on_controller set_shutdown;
    code ← lift_err KindH2 (lift_res (ErrorCode_try_from error_code));
    throw (KindH2 (ConnectionError code))
  else mret ().

(** ** Frames of the requests *)

(** The loop of [poll_recv_request]: a turn takes a request. *)
Fixpoint recv_requests (reqs : list ReqMessage) : M DispatchErrorKind () :=
  match reqs with
  | [] =>
      m ← get_st;
      if rx_closed (req_rx m) then throw KindChannelClosed else mret ()
  | message :: reqs =>
      _ ← modify_st (λ m, set_req_rx (mkReceiver reqs (rx_closed (req_rx m))) m);
      r ← attempt (on_streams' generate_id);
      match r with
      | inr e => on_world (λ w, (try_send (rq_sender message, RespExit e) w, ()))
      | inl id =>
          let headers := mkFrame id (rq_flag message) (rq_payload message) in
          m ← get_st;
          _ ← (if reach_max_concurrency (mstreams m) || negb (is_pending_concurrency_empty (mstreams m))
               then on_streams' (push_pending_concurrency id)
               else _ ← on_streams' increase_current_concurrency; on_streams' (push_back_pending_send id));
          _ ← on_controller (λ c, set_senders (<[id := rq_sender message]> (senders c)) c);
          _ ← on_streams' (insert id headers (rq_data message));
          recv_requests reqs
      end
  end.
Definition poll_recv_request : M DispatchErrorKind () :=
  m ← get_st; recv_requests (rx_queue (req_rx m)).

Definition poll_send_frame (frame : Frame) : M DispatchErrorKind () :=
  let eos := is_end_stream (f_flags frame) in
  _ ← match f_payload frame with
      | PHeaders _ =>
          r ← on_streams' (send_headers_frame (f_id frame) eos);
          match r with RecvErr e => throw (KindH2 e) | _ => mret () end
      | PData _ =>
          r ← on_streams' (send_data_frame (f_id frame) eos);
          match r with RecvErr e => throw (KindH2 e) | _ => mret () end
      | _ => mret ()
      end;
  send_input frame.

Definition deal_poll_body_error (e : H2Error) : M DispatchErrorKind () :=
  match e with
  | StreamError id code => _ ← manage_stream_error id code; mret ()
  | ConnectionError e => throw (KindH2 (ConnectionError e))
  end.

(** The loop of [input_stream_frame]: a turn sends a frame of the body.  What would be
    done after the last of the turns, [out], is never done when there are
    [body_fuel] of them. *)
Fixpoint body_loop (out : M DispatchErrorKind ()) (fuel : nat) (id : Z) : M DispatchErrorKind () :=
  match fuel with
  | O => out
  | S fuel =>
      outcome ← on_world (poll_body id);
      r ← attempt (on_streams' (poll_read_body outcome id));
      match r with
      | inl (ReadClosed | ReadPending) => mret ()
      | inl (ReadReady data) => _ ← poll_send_frame data; body_loop out fuel id
      | inl (ReadFinish frame) => poll_send_frame frame
      | inr e => deal_poll_body_error e
      end
  end.

(** Each turn but the last takes from the window of the connection. *)
Definition body_fuel (m : Manager W) : nat := S (S (Z.to_nat (send_size_available (flow_control (mstreams m))))).

Definition input_stream_frame (id : Z) : M DispatchErrorKind () :=
  header ← lift_err KindH2 (on_streams' (headers id));
  m ← get_st;
  match header with
  | None => body_loop panic (body_fuel m) id
  | Some header =>
      _ ← poll_send_frame header;
      if is_end_stream (f_flags header) then mret () else body_loop panic (body_fuel m) id
  end.

(** The loop of [poll_input_request], [n] turns at most. *)
Fixpoint input_loop (n : nat) : M DispatchErrorKind () :=
  match n with
  | O => mret ()
  | S n =>
      next ← on_streams' next_pending_stream;
      match next with
      | None => mret ()
      | Some id => _ ← input_stream_frame id; input_loop n
      end
  end.
Definition poll_input_request : M DispatchErrorKind () :=
  _ ← on_streams' try_consume_pending_concurrency;
  m ← get_st;
  input_loop (Z.to_nat (pending_stream_num (mstreams m))).

Definition manage_pending_state : M DispatchErrorKind Poll :=
  m ← get_st;
  match go_away_error_code (controller m) with
  | Some error_code => _ ← poll_deal_with_go_away error_code; mret Pending
  | None => _ ← poll_recv_request; _ ← poll_input_request; mret Pending
  end.

(** ** Frames of the peer *)

(** The loops of [recv_settings_frame]. *)
Fixpoint apply_acknowledged (settings : list Setting) : M DispatchErrorKind () :=
  match settings with
  | [] => mret ()
  | setting :: settings =>
      _ ← match setting with
          | InitialWindowSize size => on_streams' (apply_recv_initial_window_size map_order size)
          | _ => mret ()
          end;
      apply_acknowledged settings
  end.
Fixpoint apply_settings (settings : list Setting) : M DispatchErrorKind () :=
  match settings with
  | [] => mret ()
  | setting :: settings =>
      _ ← match setting with
          | MaxConcurrentStreams num => on_streams' (apply_max_concurrent_streams num)
          | InitialWindowSize size =>
              lift_err KindH2 (on_streams' (apply_send_initial_window_size map_order set_order size))
          | _ => mret ()
          end;
      apply_settings settings
  end.

Definition recv_settings_frame (frame : Frame) (settings : list Setting) : M DispatchErrorKind () :=
  if is_ack (f_flags frame) then
    m ← get_st;
    _ ← match m_settings m with
        | Acknowledging acknowledged => apply_acknowledged acknowledged
        | Synced => mret ()
        end;
    modify_st (set_settings Synced)
  else
    _ ← apply_settings settings;
    send_input (mkFrame (f_id frame) 0x1 (f_payload frame)).

Definition recv_ping_frame (frame : Frame) (ping : bytes) : M DispatchErrorKind () :=
  if is_ack (f_flags frame) then mret () else send_input (ping_ack ping).

Definition recv_go_away_frame (error_code last_stream_id : Z) : M H2Error Poll :=
  _ ← on_controller set_goaway;
  _ ← modify_st (λ m, set_req_rx (rx_close (req_rx m)) m);
  ids ← get_unsent_streams last_stream_id;
  code ← lift_res (ErrorCode_try_from error_code);
  blocked ← tell_streams ids (KindH2 (ConnectionError code)) false;
  _ ← on_controller (set_go_away_error_code (Some error_code));
  mret (if blocked : bool then Pending else Ready).

Definition recv_reset_frame (frame : Frame) : M H2Error Poll :=
  r ← on_streams' (recv_remote_reset (f_id frame));
  match r with
  | EndOK => send_message_to_stream (f_id frame) (RespOutput frame)
  | EndErr e => throw e
  | EndIgnore => mret Ready
  end.

Definition recv_header_frame (frame : Frame) : M H2Error Poll :=
  r ← on_streams' (recv_headers (f_id frame) (is_end_stream (f_flags frame)));
  match r with
  | RecvOK => send_message_to_stream (f_id frame) (RespOutput frame)
  | RecvErr e => throw e
  | RecvIgnore => mret Ready
  end.

Definition update_window (id len : Z) : M DispatchErrorKind () :=
  _ ← on_output (release_conn_recv_window len);
  on_output (release_stream_recv_window id len).

Definition recv_data_frame (frame : Frame) (data : bytes) : M DispatchErrorKind Poll :=
  let id := f_id frame in
  let len := len data mod 2 ^ 32 in
  _ ← update_window id len;
  r ← on_streams' (recv_data id (is_end_stream (f_flags frame)));
  match r with
  | RecvOK => lift_err KindH2 (send_message_to_stream id (RespOutput frame))
  | RecvIgnore => mret Ready
  | RecvErr e => throw (KindH2 e)
  end.

Definition recv_window_frame (id increment : Z) : M DispatchErrorKind () :=
  if id =? 0 then
    _ ← lift_err KindH2 (on_streams' (increase_conn_send_window increment));
    on_streams' reassign_conn_send_window
  else lift_err KindH2 (on_streams' (reassign_stream_send_window id increment)).

Definition poll_recv_frame (frame : Frame) : M DispatchErrorKind Poll :=
  match f_payload frame with
  | PSettings settings => _ ← recv_settings_frame frame settings; mret Ready
  | PPing ping => _ ← recv_ping_frame frame ping; mret Ready
  | PPushPromise _ _ => throw (KindH2 (ConnectionError ProtocolError))
  | PGoaway error_code last_stream_id _ => lift_err KindH2 (recv_go_away_frame error_code last_stream_id)
  | PRstStream _ => lift_err KindH2 (recv_reset_frame frame)
  | PHeaders _ => lift_err KindH2 (recv_header_frame frame)
  | PData data => recv_data_frame frame data
  | PWindowUpdate increment => _ ← recv_window_frame (f_id frame) increment; mret Ready
  | PPriority _ _ _ => mret Ready
  end.

Definition poll_recv_message (frame : Frame) : M DispatchErrorKind Poll :=
  r ← attempt (poll_recv_frame frame);
  match r with
  | inr kind => manage_resp_error kind
  | inl Pending => _ ← modify_st (set_states MSend MReceive); mret Pending
  | inl Ready => mret Ready
  end.

(** ** The task *)

(** A message of the task that reads frames. *)
Definition poll_output_message (message : OutputMessage) : M DispatchErrorKind Poll :=
  match message with
  | Output frame => poll_recv_message frame
  | OutputExit e =>
      m ← get_st;
      match go_away_error_code (controller m) with
      | Some _ => mret Ready
      | None => manage_resp_error e
      end
  end.

(** The loop of [ConnManager::poll]; [out] as in [body_loop]. *)
Fixpoint poll_loop (out : M DispatchErrorKind Poll) (fuel : nat) : M DispatchErrorKind Poll :=
  match fuel with
  | O => out
  | S fuel =>
      m ← get_st;
      match m_state m with
      | MSend =>
          p ← poll_blocked_frames;
          match p with Pending => mret Pending | Ready => poll_loop out fuel end
      | MReceive =>
          match rx_queue (resp_rx m) with
          | message :: rest =>
              _ ← put_st (set_resp_rx (mkReceiver rest (rx_closed (resp_rx m))) m);
              p ← poll_output_message message;
              match p with Pending => mret Pending | Ready => poll_loop out fuel end
          | [] => if rx_closed (resp_rx m) then poll_channel_closed_exit else manage_pending_state
          end
      | MExit e => throw e
      end
  end.

(** A turn takes a message, or a state to send, of which there are two at most. *)
Definition poll : M DispatchErrorKind Poll :=
  m ← get_st; poll_loop panic (4 + length (rx_queue (resp_rx m))).
End manager.
