(* ===== verification/H2ManagerSpec.v ===== *)
(** * Properties of the connection manager of the HTTP/2 client

    What the definitions of [H2Manager] do to the streams that wait for
    responses: the frames of a stream come to its channel in their order, the end
    of the connection is told to every stream, and a poll of the manager ends. *)

From S2P Require Import Prelude H2Error Headers Parts H2Frame H2Window H2Streams H2FlowControl H2Manager.
#[local] Open Scope Z_scope.

Section manager.
Context {W : Type} `{!Runtime W}.
#[local] Abbreviation M := (ST (Manager W)).

(** ** Operations that no stream hears of *)

(** What the streams see of the manager, and the messages it has to handle. *)
Definition seen (m : Manager W) : W * gmap Z SendFut * gmap Z Z * Receiver OutputMessage * ManagerState * ManagerState :=
  (world m, curr_message (controller m), senders (controller m), resp_rx m, m_state m, m_next_state m).
Definition same_seen (m m' : Manager W) : Prop := seen m' = seen m.

#[export] Instance same_seen_equiv : Equivalence same_seen.
Proof. split; [done|by intros m m' E|intros m1 m2 m3 E1 E2; unfold same_seen in *; congruence]. Qed.

Class Silent {E A} (op : M E A) : Prop := silent m : same_seen m (op m).1.

Lemma silent_ret {E A} (a : A) : Silent (E := E) (mret a).
Proof. by intros m. Qed.
Lemma silent_throw {E A} (e : E) : Silent (A := A) (throw e).
Proof. by intros m. Qed.
Lemma silent_panic {E A} : Silent (E := E) (A := A) panic.
Proof. by intros m. Qed.
Lemma silent_lift {E A} (r : result E A) : Silent (lift_res r).
Proof. by intros m. Qed.
Lemma silent_get {E} : Silent (E := E) get_st.
Proof. by intros m. Qed.
Lemma silent_bind {E A B} (op : M E A) (f : A → M E B) : Silent op → (∀ a, Silent (f a)) → Silent (op ≫= f).
Proof.
  intros Hop Hf m. specialize (Hop m). rewrite bind_st. destruct (op m) as [m1 [a|e|]]; cbn in *; [|done|done].
  etrans; [exact Hop|apply Hf].
Qed.
Lemma silent_modify {E} (f : Manager W → Manager W) : (∀ m, same_seen m (f m)) → Silent (E := E) (modify_st f).
Proof. intros Hf m. apply Hf. Qed.
Lemma silent_streams {E A} (op : ST Streams E A) : Silent (on_streams' op).
Proof. intros m. unfold on_streams', zoom. by destruct (op (mstreams m)). Qed.
Lemma silent_output {A} (op : ST (Streams * Sender) DispatchErrorKind A) : Silent (on_output op).
Proof. intros m. unfold on_output, zoom. by destruct (op _). Qed.
Lemma silent_input f : Silent (send_input f).
Proof. intros m. unfold send_input, zoom. by destruct (sender_send f (input_tx m)). Qed.
Lemma silent_attempt {E E' A} (op : M E A) : Silent op → Silent (E := E') (attempt op).
Proof. intros Hop m. specialize (Hop m). unfold attempt. by destruct (op m) as [? []]. Qed.
Lemma silent_lift_err {E E' A} (f : E → E') (op : M E A) : Silent op → Silent (lift_err f op).
Proof. intros Hop m. specialize (Hop m). unfold lift_err. by destruct (op m) as [? []]. Qed.

Create HintDb silent.
#[local] Hint Resolve silent_ret silent_throw silent_panic silent_lift silent_get silent_streams silent_output
  silent_input : silent.

(** Walks through an operation. *)
Ltac silent_tac :=
  repeat first
    [ solve [auto with silent]
    | apply silent_attempt | apply silent_lift_err
    | apply silent_bind; [|intros ?]
    | apply silent_modify; by intros ?
    | match goal with |- Silent (match ?x with _ => _ end) => destruct x end
    | match goal with |- Silent (if ?x then _ else _) => destruct x end ].

#[export] Instance reset_gone_silent {E} key : Silent (E := E) (reset_gone key).
Proof. unfold reset_gone. silent_tac. Qed.
#[export] Instance poll_send_frame_silent f : Silent (poll_send_frame f).
Proof. unfold poll_send_frame. silent_tac. Qed.
#[export] Instance deal_go_away_silent code : Silent (poll_deal_with_go_away code).
Proof. unfold poll_deal_with_go_away, send_peer_goaway. silent_tac. Qed.
Lemma apply_acknowledged_silent l : Silent (apply_acknowledged l).
Proof. induction l; cbn; silent_tac. Qed.
Lemma apply_settings_silent l : Silent (apply_settings l).
Proof. induction l; cbn; silent_tac. Qed.
#[local] Hint Resolve apply_acknowledged_silent apply_settings_silent : silent.
#[export] Instance settings_silent f l : Silent (recv_settings_frame f l).
Proof. unfold recv_settings_frame. silent_tac. Qed.
#[export] Instance ping_silent f l : Silent (recv_ping_frame f l).
Proof. unfold recv_ping_frame. silent_tac. Qed.
#[export] Instance window_silent id n : Silent (recv_window_frame id n).
Proof. unfold recv_window_frame. silent_tac. Qed.
#[export] Instance update_window_silent id n : Silent (update_window id n).
Proof. unfold update_window. silent_tac. Qed.
#[export] Instance unsent_silent id : Silent (get_unsent_streams id).
Proof. unfold get_unsent_streams. silent_tac. Qed.

(** ** What is on its way to a channel *)

Context `{!RuntimeLaws W}.

Definition output_of (r : RespMessage) : option Frame :=
  match r with RespOutput f => Some f | RespExit _ => None end.
Definition outputs (l : list RespMessage) : list Frame := omap output_of l.

(** The frame of a message that waits for room in the channel [c]. *)
Definition parked_in (c : Z) (p : Z * SendFut) : option Frame :=
  if decide (p.2.1 = c) then output_of p.2.2 else None.
Definition parked (c : Z) (curr : gmap Z SendFut) : list Frame := omap (parked_in c) (map_to_list curr).

(** The frames that the channel [c] was given, and those that wait. *)
Definition route (c : Z) (m : Manager W) : list Frame :=
  outputs (given c (world m)) ++ parked c (curr_message (controller m)).

(** At most one frame waits. *)
Definition one_output (curr : gmap Z SendFut) : Prop :=
  ∀ id id' fut fut', curr !! id = Some fut → curr !! id' = Some fut' →
    is_Some (output_of fut.2) → is_Some (output_of fut'.2) → id = id'.

Lemma omap_at_most_one {A B : Type} (g : A → option B) (l : list A) :
  NoDup l → (∀ x y, x ∈ l → y ∈ l → is_Some (g x) → is_Some (g y) → x = y) →
  omap g l = [] ∨ ∃ x b, omap g l = [b] ∧ x ∈ l ∧ g x = Some b.
Proof.
  induction l as [|x l IH]; intros Hn Hu; [by left|]. apply NoDup_cons in Hn as [Hx Hn]. cbn.
  destruct (IH Hn) as [E|(y & b & E & Hy & Hb)].
  { intros y z ??. apply Hu; by apply list_elem_of_further. }
  - rewrite E. destruct (g x) as [b|] eqn:Eg; [right|by left]. exists x, b. split_and!; [done|apply list_elem_of_here|done].
  - destruct (g x) as [b'|] eqn:Eg.
    + exfalso. apply Hx. rewrite (Hu x y); [done|apply list_elem_of_here|by apply list_elem_of_further|by rewrite Eg|by rewrite Hb].
    + rewrite E. right. exists y, b. split_and!; [done|by apply list_elem_of_further|done].
Qed.

Lemma parked_cases c curr :
  one_output curr →
  parked c curr = [] ∨ ∃ id f, parked c curr = [f] ∧ curr !! id = Some (c, RespOutput f).
Proof.
  intros Hone. destruct (omap_at_most_one (parked_in c) (map_to_list curr)) as [E|([id [c' r]] & f & E & Hin & Hf)].
  - apply NoDup_map_to_list.
  - intros [i fut] [j fut'] Hi%elem_of_map_to_list Hj%elem_of_map_to_list. unfold parked_in. cbn.
    case_decide; [|by intros []]. case_decide; [|by intros _ []]. intros Hf Hf'.
    assert (i = j) as -> by by apply (Hone i j fut fut'). congruence.
  - by left.
  - right. exists id, f. split; [done|]. apply elem_of_map_to_list in Hin. unfold parked_in in Hf. cbn in Hf.
    case_decide; [|done]. subst. by destruct r; simplify_eq/=.
Qed.

Lemma elem_of_parked c curr f : f ∈ parked c curr ↔ ∃ id, curr !! id = Some (c, RespOutput f).
Proof.
  unfold parked. rewrite list_elem_of_omap. split.
  - intros ([id [c' r]] & Hin%elem_of_map_to_list & Hf). exists id. unfold parked_in in Hf. cbn in Hf.
    case_decide; [|done]. subst. by destruct r; simplify_eq/=.
  - intros [id Hid]. exists (id, (c, RespOutput f)). split; [by apply elem_of_map_to_list|].
    unfold parked_in. cbn. by rewrite decide_True.
Qed.

Lemma parked_nil c curr : (∀ id f, curr !! id ≠ Some (c, RespOutput f)) → parked c curr = [].
Proof.
  intros Hn. destruct (parked c curr) as [|f l] eqn:E; [done|].
  assert (f ∈ parked c curr) as [id Hid]%elem_of_parked by (rewrite E; apply list_elem_of_here). by destruct (Hn id f).
Qed.

(** The only frame that waits. *)
Lemma parked_one c curr id f : one_output curr → curr !! id = Some (c, RespOutput f) → parked c curr = [f].
Proof.
  intros Hone Hid. assert (f ∈ parked c curr) as Hin by (apply elem_of_parked; by exists id).
  destruct (parked_cases c curr Hone) as [E|(j & g & E & Hj)]; rewrite E in *; [by apply elem_of_nil in Hin|].
  apply list_elem_of_singleton in Hin. by subst.
Qed.

(** The frames that wait in [curr'] wait in [curr]. *)
Definition fewer (curr' curr : gmap Z SendFut) : Prop :=
  ∀ id c f, curr' !! id = Some (c, RespOutput f) → curr !! id = Some (c, RespOutput f).

Lemma fewer_one curr' curr : fewer curr' curr → one_output curr → one_output curr'.
Proof.
  intros Hf Hone i j [c [f|e]] [c' [f'|e']] Hi Hj; cbn; try (intros [? ?] [? ?]; discriminate).
  intros _ _. apply (Hone i j (c, RespOutput f) (c', RespOutput f')); [by apply Hf|by apply Hf|done|done].
Qed.

Lemma fewer_parked c curr' curr :
  fewer curr' curr → one_output curr → parked c curr' `sublist_of` parked c curr.
Proof.
  intros Hf Hone. destruct (parked_cases c curr' (fewer_one _ _ Hf Hone)) as [->|(id & f & -> & Hid)]; [apply sublist_nil_l|].
  by rewrite (parked_one c curr id f Hone (Hf _ _ _ Hid)).
Qed.

Lemma fewer_refl curr : fewer curr curr.
Proof. by intros id c f. Qed.
Lemma fewer_delete id curr : fewer (delete id curr) curr.
Proof. intros j c f. rewrite lookup_delete_Some. tauto. Qed.
Lemma fewer_insert id c e curr : fewer (<[id := (c, RespExit e)]> curr) curr.
Proof. intros j c' f. rewrite lookup_insert_Some. intros [[_ ?]|[_ ?]]; [done|done]. Qed.

(** ** Operations that tell streams only of the end *)

(** The frames of the route of each channel are among [bound]. *)
Definition upto (bound : Z → list Frame) (m : Manager W) : Prop :=
  one_output (curr_message (controller m)) ∧ ∀ c, route c m `sublist_of` bound c.

Class Exits {E A} (op : M E A) : Prop := exits bound m :
  upto bound m → upto bound (op m).1 ∧ resp_rx (op m).1 = resp_rx m.

Lemma outputs_app l k : outputs (l ++ k) = outputs l ++ outputs k.
Proof. apply omap_app. Qed.

(** An end is no frame. *)
Lemma outputs_exit l e : outputs (l ++ [RespExit e]) = outputs l.
Proof. rewrite outputs_app. apply app_nil_r. Qed.

(** Channels that were given no frame, and fewer messages that wait. *)
Lemma upto_fewer bound m m' :
  upto bound m → (∀ c, outputs (given c (world m')) = outputs (given c (world m))) →
  fewer (curr_message (controller m')) (curr_message (controller m)) → upto bound m'.
Proof.
  intros [Hone Hb] Hg Hf. split; [by eapply fewer_one|]. intros c. unfold route. rewrite Hg.
  etrans; [|apply Hb]. apply sublist_app; [done|by apply fewer_parked].
Qed.

Lemma upto_seen bound m m' : same_seen m m' → upto bound m → upto bound m'.
Proof. unfold same_seen, seen. intros [= Hw Hc Hs Hr Hm Hn] Hu. unfold upto, route in *. by rewrite Hw, Hc. Qed.

Lemma exits_silent {E A} (op : M E A) : Silent op → Exits op.
Proof.
  intros Hop bound m Hu. specialize (Hop m). split; [by eapply upto_seen|].
  unfold same_seen, seen in Hop. by injection Hop.
Qed.
Lemma exits_bind {E A B} (op : M E A) (f : A → M E B) : Exits op → (∀ a, Exits (f a)) → Exits (op ≫= f).
Proof.
  intros Hop Hf bound m Hu. destruct (Hop bound m Hu) as [Hu' Hr]. rewrite bind_st.
  destruct (op m) as [m1 [a|e|]]; cbn in *; [|done|done]. destruct (Hf a bound m1 Hu') as [? ->]. by rewrite Hr.
Qed.
Lemma exits_attempt {E E' A} (op : M E A) : Exits op → Exits (E := E') (attempt op).
Proof. intros Hop bound m Hu. specialize (Hop bound m Hu). unfold attempt. by destruct (op m) as [? []]. Qed.
Lemma exits_lift_err {E E' A} (f : E → E') (op : M E A) : Exits op → Exits (lift_err f op).
Proof. intros Hop bound m Hu. specialize (Hop bound m Hu). unfold lift_err. by destruct (op m) as [? []]. Qed.
Lemma exits_modify {E} (f : Manager W → Manager W) :
  (∀ m, world (f m) = world m ∧ curr_message (controller (f m)) = curr_message (controller m) ∧ resp_rx (f m) = resp_rx m) →
  Exits (E := E) (modify_st f).
Proof.
  intros Hf bound m [Hone Hu]. destruct (Hf m) as (Hw & Hc & Hr). cbn. split; [|done]. unfold upto, route. by rewrite Hw, Hc.
Qed.
Lemma exits_body {E} id : Exits (E := E) (on_world (poll_body id)).
Proof.
  intros bound m Hu. unfold on_world. pose proof (poll_body_given id (world m)) as Hg.
  destruct (poll_body id (world m)) as [w o]. split; [|done]. eapply upto_fewer; [exact Hu| |apply fewer_refl].
  intros c. cbn in *. by rewrite Hg.
Qed.
Lemma exits_try {E} c e : Exits (E := E) (on_world (λ w, (try_send (c, RespExit e) w, ()))).
Proof.
  intros bound m Hu. split; [|done]. eapply upto_fewer; [exact Hu| |apply fewer_refl].
  intros c'. cbn. destruct (try_send_given (c, RespExit e) (world m) c') as [-> |[_ ->]]; [done|].
  apply outputs_exit.
Qed.

#[export] Instance send_exit_exits id e : Exits (send_message_to_stream id (RespExit e)).
Proof.
  intros bound m Hu. unfold send_message_to_stream. rewrite bind_st. cbn [get_st].
  destruct (senders (controller m) !! id) as [c|]; [|done]. rewrite bind_st. unfold on_world.
  pose proof (poll_send_given (c, RespExit e) (world m)) as Hg.
  destruct (poll_send (c, RespExit e) (world m)) as [w o]. cbn in Hg.
  assert (∀ c', outputs (given c' w) = outputs (given c' (world m))) as Hg'.
  { intros c'. rewrite Hg. destruct (decide (o = SendReady ∧ c = c')); [apply outputs_exit|by rewrite app_nil_r]. }
  destruct o; cbn; (split; [|done]); (eapply upto_fewer; [exact Hu|exact Hg'|]); cbn.
  - apply fewer_refl.
  - apply fewer_refl.
  - apply fewer_insert.
Qed.

#[local] Hint Resolve exits_silent exits_body exits_try : silent.

(** Walks through an operation. *)
Ltac exits_tac :=
  repeat first
    [ solve [apply exits_silent; silent_tac]
    | solve [auto with silent]
    | solve [apply _]
    | apply exits_attempt | apply exits_lift_err
    | apply exits_bind; [|intros ?]
    | apply exits_modify; by intros ?
    | match goal with |- Exits (match ?x with _ => _ end) => destruct x end
    | match goal with |- Exits (if ?x then _ else _) => destruct x end ].

#[export] Instance tell_exits {E} ids e blocked : Exits (E := E) (tell_streams ids e blocked).
Proof. revert blocked. induction ids; intros blocked; cbn [tell_streams]; exits_tac. Qed.
#[export] Instance exit_with_error_exits {E} e : Exits (E := E) (exit_with_error e).
Proof. unfold exit_with_error, on_controller. exits_tac. Qed.
#[export] Instance stream_error_exits id code : Exits (manage_stream_error id code).
Proof. unfold manage_stream_error. exits_tac. Qed.
#[export] Instance exit_manager_exits e : Exits (exit_manager e).
Proof. unfold exit_manager. exits_tac. Qed.
#[export] Instance conn_error_exits code : Exits (manage_conn_error code).
Proof. unfold manage_conn_error, on_controller. exits_tac. Qed.
#[export] Instance resp_error_exits e : Exits (manage_resp_error e).
Proof. unfold manage_resp_error. exits_tac. Qed.
#[export] Instance recv_requests_exits l : Exits (recv_requests l).
Proof. induction l; cbn [recv_requests]; unfold on_controller; exits_tac. Qed.
#[export] Instance panic_exits {E A} : Exits (E := E) (A := A) panic.
Proof. apply exits_silent, silent_panic. Qed.
#[export] Instance body_loop_exits out fuel id : Exits out → Exits (body_loop out fuel id).
Proof. intros. induction fuel; cbn [body_loop]; unfold deal_poll_body_error; exits_tac. Qed.
#[export] Instance input_loop_exits n : Exits (input_loop n).
Proof. induction n; cbn [input_loop]; unfold input_stream_frame; exits_tac. Qed.
#[export] Instance pending_exits : Exits manage_pending_state.
Proof. unfold manage_pending_state, poll_recv_request, poll_input_request. exits_tac. Qed.

(** ** Messages that wait *)

(** A message that waited is taken. *)
Lemma route_taken c key c0 r curr :
  one_output curr → curr !! key = Some (c0, r) →
  (outputs (if decide (SendReady = SendReady ∧ c0 = c) then [r] else []) ++ parked c (delete key curr))
    `sublist_of` parked c curr.
Proof.
  intros Hone Hk. pose proof (fewer_parked c _ _ (fewer_delete key curr) Hone) as Hd.
  destruct (decide _) as [[_ ->]|]; [|done]. destruct r as [f|e]; [|done].
  rewrite (parked_one c curr key f Hone Hk), parked_nil; [done|]. intros id g [Hne Hid]%lookup_delete_Some.
  apply Hne. by apply (Hone key id (c, RespOutput f) (c, RespOutput g)).
Qed.

(** What a turn of the loop does to the channels. *)
Lemma task_upto bound m key task :
  upto bound m → curr_message (controller m) !! key = Some task →
  let '(w, o) := poll_send task (world m) in
  upto bound (set_world w (if decide (o = SendBlocked) then m else
    set_controller (set_curr_message (delete key (curr_message (controller m))) (controller m)) m)).
Proof.
  intros [Hone Hb] Hk. pose proof (poll_send_given task (world m)) as Hg. destruct task as [c0 r].
  destruct (poll_send (c0, r) (world m)) as [w o]. cbn in Hg. destruct (decide (o = SendBlocked)) as [->|Ho].
  - split; [done|]. intros c. unfold route. cbn. rewrite Hg, app_nil_r. apply Hb.
  - split; [eapply fewer_one; [apply fewer_delete|done]|]. intros c. unfold route. cbn. etrans; [|apply Hb].
    rewrite Hg, outputs_app, <- app_assoc. apply sublist_app; [done|].
    destruct o; [by apply (route_taken c key c0)|by apply fewer_parked; [apply fewer_delete|]|done].
Qed.

(** What a step leaves alone, and the senders that it may forget. *)
Definition keeps_task (m m' : Manager W) : Prop :=
  resp_rx m' = resp_rx m ∧ m_state m' = m_state m ∧ m_next_state m' = m_next_state m ∧
  senders (controller m') ⊆ senders (controller m).

#[export] Instance keeps_task_preorder : PreOrder keeps_task.
Proof.
  split; [by intros m|]. intros m1 m2 m3 (A1 & A2 & A3 & A4) (B1 & B2 & B3 & B4).
  unfold keeps_task. split_and!; [congruence..|by etrans].
Qed.

Lemma keeps_seen m m' : same_seen m m' → keeps_task m m'.
Proof. unfold same_seen, seen. intros [= _ _ Hs Hr Hm Hn]. unfold keeps_task. by rewrite Hs, Hr, Hm, Hn. Qed.

(** The loop of [poll_blocked_message], with what it returns. *)
Definition unblocks (keys : list Z) (blocked : bool) (m m' : Manager W) (b : bool) : Prop :=
  b = false → blocked = false ∧
    ∀ id, curr_message (controller m') !! id = if decide (id ∈ keys) then None else curr_message (controller m) !! id.

Lemma unblocks_cons key keys blocked m m1 m' b :
  curr_message (controller m1) = delete key (curr_message (controller m)) →
  unblocks keys blocked m1 m' b → unblocks (key :: keys) blocked m m' b.
Proof.
  intros Hc H Hb. destruct (H Hb) as [-> Hi]. split; [done|]. intros id. rewrite Hi, Hc.
  destruct (decide (id = key)) as [->|Hne].
  - rewrite lookup_delete_eq, (decide_True (P := key ∈ key :: keys)) by apply list_elem_of_here. by case_decide.
  - rewrite lookup_delete_ne by done. destruct (decide (id ∈ keys)) as [Hin|Hin].
    + by rewrite decide_True by by apply list_elem_of_further.
    + rewrite decide_False; [done|]. by intros [?|?]%elem_of_cons.
Qed.

Lemma blocked_loop_cons {E} key keys blocked m task :
  curr_message (controller m) !! key = Some task →
  blocked_loop (E := E) (key :: keys) blocked m =
    let '(w, o) := poll_send task (world m) in
    let m1 := set_world w (set_controller (set_curr_message (delete key (curr_message (controller m))) (controller m)) m) in
    match o with
    | SendReady => blocked_loop keys blocked m1
    | SendGone =>
        (_ ← reset_gone key; blocked_loop keys blocked)
          (set_controller (set_senders (delete key (senders (controller m1))) (controller m1)) m1)
    | SendBlocked => blocked_loop keys true (set_world w m)
    end.
Proof.
  intros Hk. cbn [blocked_loop]. rewrite bind_st. cbn [get_st]. rewrite Hk, bind_st. cbn [on_controller modify_st].
  rewrite bind_st. unfold on_world. cbn. destruct (poll_send task (world m)) as [w []]; [done|done|].
  rewrite bind_st. cbn. do 2 f_equal. unfold set_world, set_controller, set_curr_message. cbn.
  rewrite insert_delete_id by done. by destruct m as [? ? ? ? ? ? [] ?].
Qed.

Lemma blocked_loop_upto {E} keys blocked bound m :
  upto bound m →
  let '(m', r) := blocked_loop (E := E) keys blocked m in
  upto bound m' ∧ keeps_task m m' ∧
  match r with Ok b => unblocks keys blocked m m' b | _ => True end.
Proof.
  revert blocked m. induction keys as [|key keys IH]; intros blocked m Hu; [by split; [done|split; [done|intros ->]]|].
  destruct (curr_message (controller m) !! key) as [task|] eqn:Hk.
  - rewrite (blocked_loop_cons key keys blocked m task Hk). pose proof (task_upto bound m key task Hu Hk) as Ht.
    destruct (poll_send task (world m)) as [w o]. destruct o;
      [rewrite decide_False in Ht by done|rewrite decide_False in Ht by done|rewrite decide_True in Ht by done]; cbv zeta beta.
    + specialize (IH blocked _ Ht). destruct (blocked_loop keys blocked _) as [m' r].
      destruct IH as (Hu' & Hs & Hr). split; [done|split; [exact Hs|]]. destruct r; try done. by eapply unblocks_cons; [|exact Hr].
    + rewrite bind_st. match goal with |- context [reset_gone key ?x] => set (m1 := x) end.
      assert (upto bound m1) as Hu1 by exact Ht.
      assert (keeps_task m m1) as Hk1 by (unfold keeps_task; split_and!; try done; apply delete_subseteq).
      pose proof (reset_gone_silent (E := E) key m1) as Hs1. unfold on_controller.
      destruct (reset_gone key m1) as [m2 [u|e|]] eqn:Eg; cbn in Hs1.
      * specialize (IH blocked m2 (upto_seen _ _ _ Hs1 Hu1)). destruct (blocked_loop keys blocked m2) as [m' r].
        destruct IH as (Hu' & Hs & Hr). split; [done|split; [etrans; [exact Hk1|etrans; [by apply keeps_seen|done]]|]].
        destruct r; try done. eapply unblocks_cons; [|exact Hr]. unfold same_seen, seen in Hs1. by injection Hs1.
      * split; [by eapply upto_seen|split; [by etrans; [|apply keeps_seen]|done]].
      * split; [by eapply upto_seen|split; [by etrans; [|apply keeps_seen]|done]].
    + specialize (IH true _ Ht). destruct (blocked_loop keys true _) as [m' r].
      destruct IH as (Hu' & Hs & Hr). split; [done|split; [exact Hs|]]. destruct r as [b| |]; try done.
      intros Hb. by destruct (Hr Hb).
  - assert (blocked_loop (E := E) (key :: keys) blocked m = blocked_loop keys blocked m) as ->
      by (cbn [blocked_loop]; rewrite bind_st; cbn [get_st]; by rewrite Hk).
    specialize (IH blocked m Hu). destruct (blocked_loop keys blocked m) as [m' r].
    destruct IH as (Hu' & Hs & Hr). split; [done|split; [done|]]. destruct r; try done.
    eapply unblocks_cons; [|exact Hr]. by rewrite delete_id.
Qed.

(** ** Frames of the peer *)

Lemma upto_more bound bound' m : upto bound m → (∀ c, bound c `sublist_of` bound' c) → upto bound' m.
Proof. intros [Hone Hb] Hl. split; [done|]. intros c. etrans; [apply Hb|apply Hl]. Qed.

(** The channels to which a frame may go. *)
Definition addressed (m : Manager W) (f : Frame) (c : Z) : list Frame :=
  if decide (senders (controller m) !! f_id f = Some c) then [f] else [].

Definition idle (m : Manager W) : Prop := curr_message (controller m) = ∅.

(** What a handler of a frame may do: the frame is added to the route of the
    channel of its stream, or not; nothing waits unless the handler says so. *)
Definition handled {E : Type} (f : Frame) (bound : Z → list Frame) (m m' : Manager W) (r : result E Poll) : Prop :=
  upto (λ c, bound c ++ addressed m f c) m' ∧ keeps_task m m' ∧ (r = Ok Pending ∨ r = Panic ∨ idle m').

Class Handles (f : Frame) {E} (op : M E Poll) : Prop := handles bound m :
  upto bound m → idle m → handled f bound m (op m).1 (op m).2.

Lemma addressed_seen m m' f c : same_seen m m' → addressed m' f c = addressed m f c.
Proof. unfold same_seen, seen, addressed. intros [= _ _ Hs _ _ _]. by rewrite Hs. Qed.
Lemma idle_seen m m' : same_seen m m' → idle m → idle m'.
Proof. unfold same_seen, seen, idle. intros [= _ Hc _ _ _ _]. by rewrite Hc. Qed.

Lemma handled_upto {E} f bound m m' (r : result E Poll) :
  upto bound m' → keeps_task m m' → (r = Ok Pending ∨ r = Panic ∨ idle m') → handled f bound m m' r.
Proof. intros Hu Hk Hr. split; [|done]. eapply upto_more; [exact Hu|]. intros c. by apply sublist_inserts_r. Qed.

Lemma handled_seen {E} f bound m m' (r : result E Poll) :
  upto bound m → idle m → same_seen m m' → handled f bound m m' r.
Proof.
  intros Hu Hi Hs. apply handled_upto; [by eapply upto_seen|by apply keeps_seen|right; right; by eapply idle_seen].
Qed.

Lemma handles_silent f {E} (op : M E Poll) : Silent op → Handles f op.
Proof. intros Hop bound m Hu Hi. by apply handled_seen. Qed.

Lemma handles_bind f {E A} (op : M E A) (k : A → M E Poll) : Silent op → (∀ a, Handles f (k a)) → Handles f (op ≫= k).
Proof.
  intros Hop Hk bound m Hu Hi. specialize (Hop m). rewrite bind_st.
  destruct (op m) as [m1 [a|e|]]; cbn in Hop |- *; [|by apply handled_seen..].
  destruct (Hk a bound m1 (upto_seen _ _ _ Hop Hu) (idle_seen _ _ Hop Hi)) as (Hu' & Hs & Hr).
  split; [|split; [by etrans; [by apply keeps_seen|]|done]].
  eapply upto_more; [exact Hu'|]. intros c. cbn beta. by rewrite (addressed_seen m m1).
Qed.

Lemma handles_lift_err f {E E'} (g : E → E') (op : M E Poll) : Handles f op → Handles f (lift_err g op).
Proof.
  intros Hop bound m Hu Hi. destruct (Hop bound m Hu Hi) as (Hu' & Hs & Hr). unfold lift_err.
  destruct (op m) as [m' [a|e|]]; cbn in *; (split; [done|split; [done|]]); [|right; right|by right; left];
    destruct Hr as [Hr|[Hr|Hr]]; simplify_eq; auto.
Qed.

Lemma addressed_to m f c0 c :
  senders (controller m) !! f_id f = Some c0 → addressed m f c = if decide (c0 = c) then [f] else [].
Proof. intros Hc. unfold addressed. rewrite Hc. destruct (decide (c0 = c)), (decide (Some c0 = Some c)); by simplify_eq. Qed.

(** Nothing waits: the route is what was given. *)
Lemma route_idle c m : idle m → route c m = outputs (given c (world m)).
Proof. unfold route, idle. intros ->. by rewrite parked_nil, app_nil_r. Qed.

Lemma one_output_single id fut : one_output (<[id := fut]> ∅).
Proof.
  intros i j x y [[<- _]|[_ Hi]]%lookup_insert_Some; [|by rewrite lookup_empty in Hi].
  by intros [[<- _]|[_ Hj]]%lookup_insert_Some; [|rewrite lookup_empty in Hj].
Qed.

Lemma parked_single c c0 id f : parked c (<[id := (c0, RespOutput f)]> ∅) = if decide (c0 = c) then [f] else [].
Proof.
  destruct (decide (c0 = c)) as [->|Hne].
  - apply (parked_one c _ id); [apply one_output_single|by rewrite lookup_insert_eq].
  - apply parked_nil. intros j g [[_ ?]|[_ Hj]]%lookup_insert_Some; [congruence|by rewrite lookup_empty in Hj].
Qed.

(** A frame was given to its channel, or waits for it. *)
Lemma upto_added bound m m' f c0 :
  upto bound m → idle m → senders (controller m) !! f_id f = Some c0 → one_output (curr_message (controller m')) →
  (∀ c, route c m' = outputs (given c (world m)) ++ if decide (c0 = c) then [f] else []) →
  upto (λ c, bound c ++ addressed m f c) m'.
Proof.
  intros [_ Hb] Hi Hc Hone Hr. split; [done|]. intros c. rewrite Hr, (addressed_to m f c0) by done.
  apply sublist_app; [|done]. rewrite <- route_idle by done. apply Hb.
Qed.

#[export] Instance send_output_handles f : Handles f (send_message_to_stream (f_id f) (RespOutput f)).
Proof.
  intros bound m Hu Hi. unfold send_message_to_stream. rewrite bind_st. cbn [get_st].
  destruct (senders (controller m) !! f_id f) as [c0|] eqn:Hc; [|by apply handled_seen].
  rewrite bind_st. unfold on_world. pose proof (poll_send_given (c0, RespOutput f) (world m)) as Hg.
  destruct (poll_send (c0, RespOutput f) (world m)) as [w o]. cbn in Hg. destruct o; cbn [mret ST_ret fst snd].
  - split; [|split; [done|by right; right]]. apply (upto_added bound m _ f c0); try done; [by destruct Hu|].
    intros c. rewrite route_idle by done. cbn. rewrite Hg, outputs_app.
    by destruct (decide (c0 = c)), (decide (SendReady = SendReady ∧ c0 = c)); try done; exfalso; tauto.
  - apply handled_upto; [|unfold keeps_task; split_and!; try done; apply delete_subseteq|by right; right].
    eapply upto_fewer; [exact Hu| |apply fewer_refl]. intros c. cbn. by rewrite Hg, app_nil_r.
  - split; [|split; [done|by left]]. unfold idle in Hi. apply (upto_added bound m _ f c0); try done.
    + rewrite bind_st. cbn. rewrite Hi. apply one_output_single.
    + intros c. unfold route. rewrite bind_st. cbn. rewrite Hi, Hg, app_nil_r. by rewrite parked_single.
Qed.

(** Ends told to streams: only those that wait are new. *)
Definition told {E} (blocked : bool) (m m' : Manager W) (r : result E bool) : Prop :=
  keeps_task m m' ∧ (r = Ok false → blocked = false ∧ (idle m → idle m')).

Lemma send_keeps id r m :
  let '(m', p) := send_message_to_stream id r m in keeps_task m m' ∧ (p = Ok Pending ∨ (idle m → idle m')).
Proof.
  unfold send_message_to_stream. rewrite bind_st. cbn [get_st].
  destruct (senders (controller m) !! id) as [c|]; [|by split; [|right]].
  rewrite bind_st. unfold on_world. destruct (poll_send (c, r) (world m)) as [w []]; cbn.
  - by split; [|right].
  - split; [unfold keeps_task; split_and!; try done; apply delete_subseteq|by right].
  - by split; [|left].
Qed.

Lemma tell_told {E} ids e blocked m :
  told blocked m (tell_streams (E := E) ids e blocked m).1 (tell_streams (E := E) ids e blocked m).2.
Proof.
  revert blocked m. induction ids as [|id ids IH]; intros blocked m; [by split; [|intros [= ->]]|].
  cbn [tell_streams]. rewrite bind_st. unfold attempt. pose proof (send_keeps id (RespExit e) m) as Hs.
  destruct (send_message_to_stream id (RespExit e) m) as [m1 p]. destruct Hs as [Hk Hi].
  destruct p as [[]|e'|]; [destruct (IH blocked m1) as [Hk' Hr]|destruct (IH true m1) as [Hk' Hr]
    |destruct (IH blocked m1) as [Hk' Hr]|]; (split; [by etrans|]);
    intros Hf; try done; destruct (Hr Hf) as [Hb Hi']; try done; (split; [done|]); destruct Hi as [?|Hi]; auto; done.
Qed.

Lemma tell_no_err {E} ids e blocked m e' : (tell_streams (E := E) ids e blocked m).2 ≠ Err e'.
Proof.
  revert blocked m. induction ids as [|id ids IH]; intros blocked m; [done|]. cbn [tell_streams].
  rewrite bind_st. unfold attempt. destruct (send_message_to_stream id (RespExit e) m) as [m1 [p|x|]]; [apply IH..|done].
Qed.

#[export] Instance go_away_handles f code last : Handles f (recv_go_away_frame code last).
Proof.
  unfold recv_go_away_frame, on_controller. apply handles_bind; [silent_tac|intros _].
  apply handles_bind; [silent_tac|intros _]. apply handles_bind; [apply _|intros ids].
  apply handles_bind; [silent_tac|intros e]. intros bound m Hu Hi. rewrite bind_st.
  destruct (tell_exits (E := H2Error) ids (KindH2 (ConnectionError e)) false bound m Hu) as [Hu' _].
  destruct (tell_told (E := H2Error) ids (KindH2 (ConnectionError e)) false m) as [Hk Hr].
  pose proof (tell_no_err (E := H2Error) ids (KindH2 (ConnectionError e)) false m) as He.
  destruct (tell_streams ids (KindH2 (ConnectionError e)) false m) as [m' [[]|e'|]]; cbn in *.
  - apply handled_upto; [done|done|by left].
  - apply handled_upto; [done|done|]. right. right. by apply Hr.
  - by destruct (He e').
  - apply handled_upto; [done|done|by right; left].
Qed.

#[export] Instance data_handles f l : Handles f (recv_data_frame f l).
Proof.
  unfold recv_data_frame. apply handles_bind; [apply _|intros _]. apply handles_bind; [silent_tac|intros r].
  destruct r; [apply handles_lift_err, _|apply handles_silent; silent_tac..].
Qed.
#[export] Instance header_handles f : Handles f (recv_header_frame f).
Proof.
  unfold recv_header_frame. apply handles_bind; [silent_tac|intros r].
  destruct r; [apply _|apply handles_silent; silent_tac..].
Qed.
#[export] Instance reset_handles f : Handles f (recv_reset_frame f).
Proof.
  unfold recv_reset_frame. apply handles_bind; [silent_tac|intros r].
  destruct r; [apply _|apply handles_silent; silent_tac..].
Qed.
#[local] Hint Resolve settings_silent ping_silent window_silent : silent.
#[export] Instance frame_handles f : Handles f (poll_recv_frame f).
Proof.
  unfold poll_recv_frame. destruct (f_payload f); try apply handles_lift_err; try apply _;
    apply handles_silent; silent_tac.
Qed.

(** *** What follows a frame *)

(** A step of the manager: what waits is said, and waited for. *)
Definition stepped (m m' : Manager W) (r : result DispatchErrorKind Poll) : Prop :=
  resp_rx m' = resp_rx m ∧ senders (controller m') ⊆ senders (controller m) ∧
  (r = Ok Ready → (idle m → idle m') ∧ m_state m' = m_state m) ∧ (r = Ok Pending → m_state m' = MSend).

Lemma told_bind {E A} (op : M E A) (k : A → M E bool) m :
  Silent op → (∀ a m, told false m (k a m).1 (k a m).2) → told false m ((op ≫= k) m).1 ((op ≫= k) m).2.
Proof.
  intros Hop Hk. specialize (Hop m). rewrite bind_st. destruct (op m) as [m1 [a|e|]]; cbn in Hop |- *;
    [|split; [by apply keeps_seen|done]..].
  destruct (Hk a m1) as [Hk' Hr]. split; [by etrans; [apply keeps_seen|]|].
  intros Hf. destruct (Hr Hf) as [? Hi]. split; [done|]. intros Hm. apply Hi. by eapply idle_seen.
Qed.

Lemma exit_told {E} e m : told false m (exit_with_error (E := E) e m).1 (exit_with_error (E := E) e m).2.
Proof. unfold exit_with_error, on_controller. do 4 (apply told_bind; [silent_tac|intros ? ?]). apply tell_told. Qed.

Lemma exit_manager_stepped e m : stepped m (exit_manager e m).1 (exit_manager e m).2.
Proof.
  unfold exit_manager. rewrite bind_st. destruct (exit_told (E := DispatchErrorKind) e m) as [(Hr & Hm & _ & Hs) _].
  by destruct (exit_with_error e m) as [m' [[]|x|]].
Qed.

Lemma stepped_bind {A} (op : M DispatchErrorKind A) (k : A → M DispatchErrorKind Poll) m :
  Silent op → (∀ a m, stepped m (k a m).1 (k a m).2) → stepped m ((op ≫= k) m).1 ((op ≫= k) m).2.
Proof.
  intros Hop Hk. specialize (Hop m). pose proof (idle_seen _ _ Hop) as Hi. pose proof (keeps_seen _ _ Hop) as (Hr & Hm & _ & Hs).
  rewrite bind_st. destruct (op m) as [m1 [a|e|]]; cbn in * |- *; [|by unfold stepped..].
  destruct (Hk a m1) as (Hr' & Hs' & Hrd & Hp). split; [congruence|]. split; [by etrans|]. split; [|done].
  intros Hf. destruct (Hrd Hf). split; [auto|congruence].
Qed.

Lemma stepped_silent (op : M DispatchErrorKind Poll) m :
  Silent op → (op m).2 ≠ Ok Pending → stepped m (op m).1 (op m).2.
Proof.
  intros Hop Hp. specialize (Hop m). pose proof (keeps_seen _ _ Hop) as (Hr & Hm & _ & Hs).
  unfold stepped. split; [done|]. split; [done|]. split; [|done]. intros _. split; [by apply idle_seen|done].
Qed.

Lemma stream_error_stepped id code m : stepped m (manage_stream_error id code m).1 (manage_stream_error id code m).2.
Proof.
  unfold manage_stream_error. apply stepped_bind; [silent_tac|]. clear m. intros [] m; [|by apply stepped_silent; [silent_tac|..]..].
  apply stepped_bind; [silent_tac|]. clear m. intros _ m. rewrite bind_st. unfold attempt.
  pose proof (send_keeps id (RespExit (KindH2 (StreamError id code))) m) as Hs.
  destruct (send_message_to_stream _ _ m) as [m' p]. destruct Hs as [(Hr & Hm & _ & Hs) Hw].
  destruct p as [[]|x|]; cbn; unfold stepped; split_and!; try done; intros _; split; try done; destruct Hw as [?|Hw]; auto; done.
Qed.

Lemma resp_error_stepped e m : stepped m (manage_resp_error e m).1 (manage_resp_error e m).2.
Proof.
  destruct e as [[id code|code]|k| |]; cbn [manage_resp_error]; try by apply exit_manager_stepped.
  - by apply stream_error_stepped.
  - unfold manage_conn_error, on_controller. rewrite bind_st. cbn [get_st]. destruct (same_goaway _ _ _); [by apply stepped_silent; [silent_tac|..]|].
    apply stepped_bind; [silent_tac|intros _ m1]. apply stepped_bind; [silent_tac|intros _ m2].
    by apply exit_manager_stepped.
Qed.

(** What is added to a route by a message. *)
Definition arriving (m : Manager W) (message : OutputMessage) (c : Z) : list Frame :=
  match message with Output f => addressed m f c | OutputExit _ => [] end.

Lemma upto_arriving bound m message : upto bound m → upto (λ c, bound c ++ arriving m message c) m.
Proof. intros Hu. eapply upto_more; [exact Hu|]. intros c. by apply sublist_inserts_r. Qed.

Lemma output_message_step bound m message :
  upto bound m → idle m →
  let '(m', r) := poll_output_message message m in
  upto (λ c, bound c ++ arriving m message c) m' ∧ stepped m m' r.
Proof.
  intros Hu Hi. unfold poll_output_message. destruct message as [f|e].
  - unfold poll_recv_message. rewrite bind_st. unfold attempt. destruct (frame_handles f bound m Hu Hi) as (Hu' & (Hr & Hm & Hn & Hs) & Hp).
    destruct (poll_recv_frame f m) as [m1 [[]|e|]]; cbn in *.
    + split; [done|]. unfold stepped. split_and!; try done. intros _. split; [intros _|done]. by destruct Hp as [?|[?|?]].
    + split; [done|]. by unfold stepped.
    + assert (idle m1) as Hi1 by (by destruct Hp as [?|[?|?]]).
      destruct (resp_error_exits e _ m1 Hu') as [Hu2 _]. destruct (resp_error_stepped e m1) as (Hr2 & Hs2 & Hrd & Hpd).
      destruct (manage_resp_error e m1) as [m2 r]. cbn in *. split; [done|]. split; [congruence|]. split; [by etrans|].
      split; [|done]. intros Hf. destruct (Hrd Hf). split; [auto|congruence].
    + split; [done|]. by unfold stepped.
  - rewrite bind_st. cbn [get_st]. apply (upto_arriving bound m (OutputExit e)) in Hu.
    destruct (go_away_error_code (controller m)); [by split; [|unfold stepped]|].
    destruct (resp_error_exits e _ m Hu) as [Hu2 _]. pose proof (resp_error_stepped e m) as Hs.
    by destruct (manage_resp_error e m) as [m2 r].
Qed.

(** ** Frames of the requests *)

(** Nothing waits, or the manager goes on by sending what waits. *)
Definition rests (m : Manager W) : Prop := idle m ∨ m_state m = MSend.

Class Rests {E A} (op : M E A) : Prop := rests_ok m a : rests m → (op m).2 = Ok a → rests (op m).1.

Lemma rests_same m m' :
  curr_message (controller m') = curr_message (controller m) → m_state m' = m_state m → rests m → rests m'.
Proof. unfold rests, idle. by intros -> ->. Qed.

Lemma rests_silent {E A} (op : M E A) : Silent op → Rests op.
Proof. intros Hop m a Hm _. specialize (Hop m). unfold same_seen, seen in Hop. injection Hop as _ Hc _ _ Hs _. by eapply rests_same. Qed.
Lemma rests_bind {E A B} (op : M E A) (f : A → M E B) : Rests op → (∀ a, Rests (f a)) → Rests (op ≫= f).
Proof.
  intros Hop Hf m b Hm. specialize (Hop m). rewrite bind_st. destruct (op m) as [m1 [a|e|]]; cbn in *; try done.
  apply Hf. by apply (Hop a).
Qed.
Lemma rests_attempt {E' A} (op : M H2Error A) : Silent op → Rests (E := E') (attempt op).
Proof. intros Hop. apply rests_silent. silent_tac. Qed.
Lemma rests_modify {E} (f : Manager W → Manager W) :
  (∀ m, curr_message (controller (f m)) = curr_message (controller m) ∧ m_state (f m) = m_state m) →
  Rests (E := E) (modify_st f).
Proof. intros Hf m a Hm _. destruct (Hf m) as [Hc Hs]. by apply (rests_same m). Qed.
Lemma rests_world {E A} (f : W → W * A) : Rests (E := E) (on_world f).
Proof. intros m a Hm _. unfold on_world. destruct (f (world m)). by apply (rests_same m). Qed.

#[export] Instance stream_error_rests id code : Rests (manage_stream_error id code).
Proof.
  intros m [] Hm Hr; destruct (stream_error_stepped id code m) as (_ & _ & Hrd & Hp); [|right; by apply Hp].
  destruct (Hrd Hr) as [Hi Hs]. destruct Hm as [Hm|Hm]; [left; by apply Hi|right; congruence].
Qed.

Lemma rests_lift_err {E E' A} (g : E → E') (op : M E A) : Rests op → Rests (lift_err g op).
Proof. intros Hop m a Hm. specialize (Hop m). unfold lift_err. destruct (op m) as [m1 [x|x|]]; cbn in *; try done. intros _. by apply (Hop x). Qed.

#[local] Hint Resolve rests_silent rests_world : silent.

(** Walks through an operation. *)
Ltac rests_tac :=
  repeat first
    [ solve [apply rests_silent; silent_tac]
    | solve [auto with silent]
    | solve [apply _]
    | apply rests_lift_err
    | apply rests_bind; [|intros ?]
    | apply rests_modify; by intros ?
    | match goal with |- Rests (match ?x with _ => _ end) => destruct x end
    | match goal with |- Rests (if ?x then _ else _) => destruct x end ].

#[export] Instance recv_requests_rests l : Rests (recv_requests l).
Proof. induction l; cbn [recv_requests]; unfold on_controller; rests_tac. Qed.
#[export] Instance panic_rests {E A} : Rests (E := E) (A := A) panic.
Proof. apply rests_silent, silent_panic. Qed.
#[export] Instance body_loop_rests out fuel id : Rests out → Rests (body_loop out fuel id).
Proof. intros. induction fuel; cbn [body_loop]; unfold deal_poll_body_error; rests_tac. Qed.
#[export] Instance input_loop_rests n : Rests (input_loop n).
Proof. induction n; cbn [input_loop]; unfold input_stream_frame; rests_tac. Qed.
#[export] Instance pending_rests : Rests manage_pending_state.
Proof. unfold manage_pending_state, poll_recv_request, poll_input_request. rests_tac. Qed.

(** ** The task *)

Lemma not_ready_bind {A} (op : M DispatchErrorKind A) (k : A → M DispatchErrorKind Poll) m :
  (∀ a m, (k a m).2 ≠ Ok Ready) → ((op ≫= k) m).2 ≠ Ok Ready.
Proof. intros Hk. rewrite bind_st. destruct (op m) as [m1 [a|e|]]; [apply Hk|done..]. Qed.

Lemma pending_not_ready m : (manage_pending_state m).2 ≠ Ok Ready.
Proof.
  unfold manage_pending_state. apply not_ready_bind. clear m. intros m0 m.
  by destruct (go_away_error_code (controller m0)) as [code|]; repeat (apply not_ready_bind; intros ? ?).
Qed.

Lemma exit_not_ready e m : (exit_manager e m).2 ≠ Ok Ready.
Proof. unfold exit_manager. rewrite bind_st. by destruct (exit_with_error e m) as [m1 [[]|x|]]. Qed.

Lemma addressed_sub m m' f c :
  senders (controller m') ⊆ senders (controller m) → addressed m' f c `sublist_of` addressed m f c.
Proof.
  intros Hs. unfold addressed. destruct (decide (senders (controller m') !! f_id f = Some c)) as [H'|]; [|apply sublist_nil_l].
  rewrite decide_True; [done|]. by eapply lookup_weaken.
Qed.

Lemma arriving_sub m m' ms c :
  senders (controller m') ⊆ senders (controller m) →
  (ms ≫= λ x, arriving m' x c) `sublist_of` (ms ≫= λ x, arriving m x c).
Proof.
  intros Hs. induction ms as [|[f|e] ms IH]; cbn; [done| |exact IH]. apply sublist_app; [by apply addressed_sub|exact IH].
Qed.

(** What a poll does to the routes, with the messages that it took. *)
Definition polled (bound : Z → list Frame) (m m' : Manager W) (r : result DispatchErrorKind Poll) : Prop :=
  (∃ ms, rx_queue (resp_rx m) = ms ++ rx_queue (resp_rx m') ∧
    upto (λ c, bound c ++ (ms ≫= λ x, arriving m x c)) m') ∧
  (r = Ok Pending → m_state m' = MReceive → idle m') ∧ r ≠ Ok Ready.

Lemma polled_end bound m m' r :
  upto bound m' → resp_rx m' = resp_rx m → (r = Ok Pending → m_state m' = MReceive → idle m') → r ≠ Ok Ready →
  polled bound m m' r.
Proof.
  intros Hu Hr Hi Hn. split; [|done]. exists []. rewrite Hr. split; [done|]. cbn.
  eapply upto_more; [exact Hu|]. intros c. by rewrite app_nil_r.
Qed.

Lemma polled_later bound m m1 m' r ms :
  rx_queue (resp_rx m) = ms ++ rx_queue (resp_rx m1) → senders (controller m1) ⊆ senders (controller m) →
  polled (λ c, bound c ++ (ms ≫= λ x, arriving m x c)) m1 m' r → polled bound m m' r.
Proof.
  intros Hq Hs ((ms' & Hq' & Hu) & Hi). split; [|done]. exists (ms ++ ms'). rewrite Hq, Hq', app_assoc. split; [done|].
  eapply upto_more; [exact Hu|]. intros c. cbn beta. rewrite bind_app, <- app_assoc.
  do 2 (apply sublist_app; [done|]). by apply arriving_sub.
Qed.

Lemma blocked_frames_step {E} bound m :
  upto bound m →
  let '(m', r) := poll_blocked_frames (E := E) m in
  upto bound m' ∧ resp_rx m' = resp_rx m ∧ senders (controller m') ⊆ senders (controller m) ∧
  (r = Ok Ready → idle m') ∧ (r = Ok Pending → m_state m' = m_state m).
Proof.
  intros Hu. unfold poll_blocked_frames, poll_blocked_message. rewrite !bind_st. cbn [get_st]. rewrite bind_st.
  pose proof (blocked_loop_upto (E := E) (key_order (curr_message (controller m))) false bound m Hu) as Hb.
  destruct (blocked_loop _ false m) as [m1 [b|e|]]; destruct Hb as (Hu' & (Hr & Hm & Hn & Hs) & Hub); [|by split_and!..].
  destruct b; cbn; [by split_and!|]. split; [exact Hu'|]. split_and!; try done. intros _. unfold idle. cbn.
  destruct (Hub eq_refl) as [_ Hi]. apply map_empty. intros id. rewrite Hi. destruct (decide _) as [|Hk]; [done|].
  apply eq_None_not_Some. intros Hs'. apply Hk. by apply key_order_keys.
Qed.

Lemma poll_loop_polled fuel bound m :
  upto bound m → (m_state m = MReceive → idle m) →
  polled bound m (poll_loop panic fuel m).1 (poll_loop panic fuel m).2.
Proof.
  revert bound m. induction fuel as [|fuel IH]; intros bound m Hu Hi; [by apply polled_end|].
  cbn [poll_loop]. rewrite bind_st. cbn [get_st]. destruct (m_state m) as [| |e] eqn:Est.
  - rewrite bind_st. pose proof (blocked_frames_step (E := DispatchErrorKind) bound m Hu) as Hb.
    destruct (poll_blocked_frames m) as [m1 r]. destruct Hb as (Hu1 & Hr1 & Hs1 & Hrd & Hp).
    destruct r as [[]|e|]; cbn [fst snd].
    + apply (polled_later bound m m1 _ _ []); [by rewrite Hr1|done|].
      cbn. apply IH; [|by auto]. eapply upto_more; [exact Hu1|]. intros c. by rewrite app_nil_r.
    + apply polled_end; [done|done|intros _; cbn; rewrite Hp by done; congruence|done].
    + by apply polled_end.
    + by apply polled_end.
  - specialize (Hi eq_refl). destruct (rx_queue (resp_rx m)) as [|message rest] eqn:Hq.
    + destruct (rx_closed (resp_rx m)).
      * unfold poll_channel_closed_exit. destruct (exit_manager_exits KindChannelClosed bound m Hu) as [Hu' Hr].
        apply polled_end; [done|done| |by apply exit_not_ready].
        intros Hp. destruct (exit_manager_stepped KindChannelClosed m) as (_ & _ & _ & Hps). rewrite Hps by done. done.
      * destruct (pending_exits bound m Hu) as [Hu' Hr]. apply polled_end; [done|done| |by apply pending_not_ready].
        intros Hp Hm. pose proof (pending_rests m Pending (or_introl Hi) Hp) as [?|?]; [done|congruence].
    + rewrite bind_st. cbn [put_st]. rewrite bind_st.
      set (m0 := set_resp_rx (mkReceiver rest (rx_closed (resp_rx m))) m).
      pose proof (output_message_step bound m0 message Hu Hi) as Hs.
      destruct (poll_output_message message m0) as [m1 r]. destruct Hs as (Hu1 & Hr1 & Hs1 & Hrd & Hp).
      assert (rx_queue (resp_rx m) = [message] ++ rx_queue (resp_rx m1)) as Hq1 by (by rewrite Hr1, Hq).
      assert (upto (λ c, bound c ++ ([message] ≫= λ x, arriving m x c)) m1) as Hu2
        by (eapply upto_more; [exact Hu1|]; intros c; cbn; by rewrite app_nil_r).
      apply (polled_later bound m m1 _ _ [message] Hq1 Hs1). destruct r as [[]|e|]; cbn [fst snd].
      * apply IH; [done|]. intros _. by apply Hrd.
      * apply polled_end; [done|done|intros _; cbn; by rewrite Hp|done].
      * by apply polled_end.
      * by apply polled_end.
  - by apply polled_end.
Qed.

(** ** The end of the connection *)

Definition growth (m m' : Manager W) (c : Z) : Prop := ∃ l, given c (world m') = given c (world m) ++ l.

(** A stream with the channel [c] is told: its channel was given the end, or the
    end waits for room, or nobody listens. *)
Definition hears (m m' : Manager W) (id c : Z) (e : DispatchErrorKind) (blocked : bool) : Prop :=
  (∃ l, given c (world m') = given c (world m) ++ l ∧ RespExit e ∈ l) ∨
  (curr_message (controller m') !! id = Some (c, RespExit e) ∧ blocked = true) ∨
  senders (controller m') !! id = None.

(** A message sent, whatever becomes of it. *)
Lemma send_frame id r m :
  let '(m', p) := send_message_to_stream id r m in
  p ≠ Panic ∧ (∀ c, growth m m' c) ∧ mstreams m' = mstreams m ∧ io_shutdown (controller m') = io_shutdown (controller m) ∧
  req_rx m' = req_rx m ∧
  (∀ id', id' ≠ id → curr_message (controller m') !! id' = curr_message (controller m) !! id' ∧
     senders (controller m') !! id' = senders (controller m) !! id').
Proof.
  unfold send_message_to_stream. rewrite bind_st. cbn [get_st].
  destruct (senders (controller m) !! id) as [c|] eqn:Hc.
  - rewrite bind_st. unfold on_world. pose proof (poll_send_given (c, r) (world m)) as Hg.
    destruct (poll_send (c, r) (world m)) as [w o]. cbn in Hg. destruct o; rewrite ?bind_st; cbn; split_and!; try done;
      first [intros c'; eexists; apply Hg|intros id' Hne; rewrite ?lookup_delete_ne, ?lookup_insert_ne by done; done].
  - cbn. split_and!; try done. intros c. exists []. by rewrite app_nil_r.
Qed.

Lemma send_hears id c e m :
  senders (controller m) !! id = Some c →
  let '(m', p) := send_message_to_stream id (RespExit e) m in
  hears m m' id c e (match p with Ok Pending => true | _ => false end).
Proof.
  intros Hc. unfold send_message_to_stream. rewrite bind_st. cbn [get_st]. rewrite Hc, bind_st. unfold on_world.
  pose proof (poll_send_given (c, RespExit e) (world m) c) as Hg. destruct (poll_send (c, RespExit e) (world m)) as [w o].
  cbn in Hg. destruct o; rewrite ?bind_st; cbn.
  - left. exists [RespExit e]. cbn. split; [|apply list_elem_of_here]. rewrite Hg. by rewrite decide_True.
  - right. right. apply lookup_delete_eq.
  - right. left. split; [|done]. apply lookup_insert_eq.
Qed.

Lemma growth_trans m m1 m2 c : growth m m1 c → growth m1 m2 c → growth m m2 c.
Proof. intros [l Hl] [l' Hl']. exists (l ++ l'). by rewrite Hl', Hl, app_assoc. Qed.

(** A turn of the loop. *)
Lemma tell_cons {E} id ids e blocked m :
  tell_streams (E := E) (id :: ids) e blocked m =
    let '(m1, p) := send_message_to_stream id (RespExit e) m in
    tell_streams ids e (match p with Ok Pending => true | _ => blocked end) m1.
Proof.
  cbn [tell_streams]. rewrite bind_st. unfold attempt. pose proof (send_frame id (RespExit e) m) as Hs.
  destruct (send_message_to_stream id (RespExit e) m) as [m1 [[]|x|]]; [done..|]. by destruct Hs.
Qed.

(** The streams not listed are left alone. *)
Lemma tell_frame {E} ids e blocked m :
  ∃ m' b, tell_streams (E := E) ids e blocked m = (m', Ok b) ∧ (blocked = true → b = true) ∧
  (∀ c, growth m m' c) ∧ mstreams m' = mstreams m ∧ io_shutdown (controller m') = io_shutdown (controller m) ∧
  req_rx m' = req_rx m ∧
  (∀ id', id' ∉ ids → curr_message (controller m') !! id' = curr_message (controller m) !! id' ∧
     senders (controller m') !! id' = senders (controller m) !! id').
Proof.
  revert blocked m. induction ids as [|id ids IH]; intros blocked m.
  { exists m, blocked. split_and!; try done. intros c. exists []. by rewrite app_nil_r. }
  rewrite tell_cons. pose proof (send_frame id (RespExit e) m) as Hs.
  destruct (send_message_to_stream id (RespExit e) m) as [m1 p]. destruct Hs as (_ & Hg & Hst & Hio & Hrq & Hne).
  destruct (IH (match p with Ok Pending => true | _ => blocked end) m1) as (m' & b & Hr & Hb & Hg' & Hst' & Hio' & Hrq' & Hne').
  exists m', b. split_and!; [done| |by intros c; eapply growth_trans|congruence..|].
  - intros ->. apply Hb. by destruct p as [[]| |].
  - intros id' [Hd Hni]%not_elem_of_cons. destruct (Hne id' Hd) as [<- <-]. by apply Hne'.
Qed.

Lemma hears_later m m1 m' id c e b b' :
  hears m m1 id c e b → (∀ c, growth m1 m' c) → (b = true → b' = true) →
  curr_message (controller m') !! id = curr_message (controller m1) !! id →
  senders (controller m') !! id = senders (controller m1) !! id → hears m m' id c e b'.
Proof.
  intros [(l & Hl & Hin)|[[Hc Hb]|Hn]] Hg Hbb Hcm Hs.
  - left. destruct (Hg c) as [l' Hl']. exists (l ++ l'). rewrite Hl', Hl, app_assoc. split; [done|]. apply elem_of_app. by left.
  - right. left. split; [by etrans; [exact Hcm|]|by apply Hbb].
  - right. right. by rewrite Hs.
Qed.

Lemma hears_earlier m m1 m' id c e b : growth m m1 c → hears m1 m' id c e b → hears m m' id c e b.
Proof.
  intros [l Hl] [(l' & Hl' & Hin)|[H|H]]; [left|by right; left|by right; right].
  exists (l ++ l'). rewrite Hl', Hl, app_assoc. split; [done|]. apply elem_of_app. by right.
Qed.

(** Each stream of the list hears of the end. *)
Lemma tell_hears {E} ids e blocked m m' b :
  NoDup ids → tell_streams (E := E) ids e blocked m = (m', Ok b) →
  ∀ id c, id ∈ ids → senders (controller m) !! id = Some c → hears m m' id c e b.
Proof.
  revert blocked m. induction ids as [|id0 ids IH]; intros blocked m Hn; [by intros _ id c ?%elem_of_nil|].
  apply NoDup_cons in Hn as [Hni Hn]. rewrite tell_cons. intros Ht id c Hin Hc.
  pose proof (send_frame id0 (RespExit e) m) as Hs. pose proof (send_hears id0 c e m) as Hh.
  destruct (send_message_to_stream id0 (RespExit e) m) as [m1 p]. destruct Hs as (_ & Hg & _ & _ & _ & Hne).
  destruct (decide (id = id0)) as [->|Hd].
  - destruct (tell_frame (E := E) ids e (match p with Ok Pending => true | _ => blocked end) m1)
      as (m2 & b2 & Ht2 & Hb2 & Hg2 & _ & _ & _ & Hne2). rewrite Ht in Ht2. injection Ht2 as <- <-.
    destruct (Hne2 id0 Hni) as [Hc2 Hs2]. eapply hears_later; [by apply Hh|exact Hg2| |exact Hc2|exact Hs2].
    intros Hp. apply Hb2. by destruct p as [[]| |].
  - apply elem_of_cons in Hin as [?|Hin]; [done|]. eapply hears_earlier; [apply Hg|].
    eapply IH; [done|exact Ht|done|]. by rewrite (proj2 (Hne id Hd)).
Qed.

(** *** The streams at the end *)

Definition closed_stream (st : Stream) : Stream :=
  set_state (Closed LocalGoAway) (set_header_data None (body_clear (st_data st)) st).
Definition is_open (id : Z) (s : Streams) : bool :=
  match stream_state id s with Some x => negb (is_closed_state x) | None => false end.

Lemma unclosed_open {E} id ids s st :
  stream_map s !! id = Some st → is_closed_state (st_state st) = false →
  unclosed_streams (E := E) (id :: ids) s =
    (rest ← unclosed_streams ids; mret (id :: rest)) (with_map (<[id := closed_stream st]> (stream_map s)) s).
Proof.
  intros Hst Hc. cbn [unclosed_streams]. rewrite bind_st. cbn [get_st]. rewrite Hst. cbn [fmap option_fmap option_map].
  assert (∀ k k' : ST Streams E (list Z), match st_state st with Closed _ => k | _ => k' end = k') as ->
    by (intros k k'; by destruct (st_state st)).
  rewrite bind_st, (drop_request_eq id s st Hst), bind_st.
  erewrite put_state_eq by (cbn; apply lookup_insert_eq). cbn. rewrite insert_insert_eq. by destruct s.
Qed.

Lemma unclosed_closed {E} id ids s st :
  stream_map s !! id = Some st → is_closed_state (st_state st) = true →
  unclosed_streams (E := E) (id :: ids) s = unclosed_streams ids s.
Proof.
  intros Hst Hc. cbn [unclosed_streams]. rewrite bind_st. cbn [get_st]. rewrite Hst. cbn [fmap option_fmap option_map].
  by destruct (st_state st).
Qed.

(** The state of a stream after the loop. *)
Definition closing (ids : list Z) (s : Streams) (id : Z) : option H2StreamState :=
  if decide (id ∈ ids ∧ is_open id s = true) then Some (Closed LocalGoAway) else stream_state id s.

Lemma filter_in {A : Type} (f g : A → bool) (l : list A) :
  (∀ x, x ∈ l → f x = g x) → filter (λ x, f x = true) l = filter (λ x, g x = true) l.
Proof.
  induction l as [|x l IH]; intros Hfg; [done|]. rewrite !filter_cons, (Hfg x) by apply list_elem_of_here.
  rewrite IH by (intros y Hy; apply Hfg; by apply list_elem_of_further). done.
Qed.

Lemma unclosed_spec {E} ids s :
  NoDup ids → (∀ id, id ∈ ids → is_Some (stream_map s !! id)) →
  ∃ s', unclosed_streams (E := E) ids s = (s', Ok (filter (λ id, is_open id s = true) ids)) ∧
    s' = with_map (stream_map s') s ∧ ∀ id, stream_state id s' = closing ids s id.
Proof.
  revert s. induction ids as [|id ids IH]; intros s Hn Hin.
  { exists s. split_and!; [done|by destruct s|]. intros id. unfold closing. rewrite decide_False; [done|]. by intros [?%elem_of_nil _]. }
  apply NoDup_cons in Hn as [Hni Hn]. destruct (Hin id (list_elem_of_here _ _)) as [st Hst].
  assert (∀ i, i ∈ ids → is_Some (stream_map s !! i)) as Hin' by (intros i Hi; apply Hin; by apply list_elem_of_further).
  destruct (is_closed_state (st_state st)) eqn:Hc.
  - assert (is_open id s = false) as Ho by (unfold is_open, stream_state; rewrite Hst; cbn; by rewrite Hc).
    rewrite (unclosed_closed id ids s st) by done. destruct (IH s Hn Hin') as (s' & -> & Hs' & Hi).
    exists s'. split_and!; [by rewrite filter_cons, decide_False by congruence|done|].
    intros i. rewrite Hi. unfold closing. destruct (decide (i = id)) as [->|Hd].
    + by rewrite !decide_False by (rewrite Ho; by intros []).
    + apply decide_ext. rewrite elem_of_cons. tauto.
  - assert (is_open id s = true) as Ho by (unfold is_open, stream_state; rewrite Hst; cbn; by rewrite Hc).
    rewrite (unclosed_open id ids s st) by done. set (s1 := with_map (<[id := closed_stream st]> (stream_map s)) s).
    assert (∀ i, i ≠ id → stream_state i s1 = stream_state i s) as Hne
      by (intros i Hd; unfold stream_state; cbn; by rewrite lookup_insert_ne).
    assert (∀ i, i ≠ id → is_open i s1 = is_open i s) as Hne' by (intros i Hd; unfold is_open; by rewrite Hne).
    destruct (IH s1 Hn) as (s' & Hu & Hs' & Hi).
    { intros i Hi. cbn. destruct (decide (i = id)) as [->|Hd]; [done|]. rewrite lookup_insert_ne by done. by apply Hin'. }
    exists s'. rewrite bind_st, Hu. split_and!.
    + rewrite filter_cons, decide_True by done. rewrite (filter_in (λ i, is_open i s1) (λ i, is_open i s)); [done|].
      intros i Hi'. apply Hne'. by intros ->.
    + rewrite Hs'. subst s1. by destruct s.
    + intros i. rewrite Hi. unfold closing. destruct (decide (i = id)) as [->|Hd].
      * rewrite decide_False by by intros []. rewrite decide_True by (split; [apply list_elem_of_here|done]).
        unfold stream_state. cbn. by rewrite lookup_insert_eq.
      * rewrite Hne, Hne' by done. apply decide_ext. rewrite elem_of_cons. tauto.
Qed.

Lemma exit_with_error_eq {E} e m :
  exit_with_error (E := E) e m =
    let m1 := set_req_rx (rx_close (req_rx m)) (set_controller (set_shutdown (controller m)) m) in
    let m2 := set_mstreams (with_queues [] ∅ [] [] [] (mstreams m1)) m1 in
    let '(s, r) := get_all_unclosed_streams (E := E) map_order (mstreams m2) in
    match r with
    | Ok ids => tell_streams ids e false (set_mstreams s m2)
    | Err x => (set_mstreams s m2, Err x)
    | Panic => (set_mstreams s m2, Panic)
    end.
Proof.
  unfold exit_with_error, on_controller, clear_streams_states. rewrite bind_st. cbn [modify_st]. rewrite bind_st. cbn [modify_st].
  rewrite bind_st. unfold on_streams' at 1, zoom at 1. cbn [modify_st]. rewrite bind_st. unfold on_streams', zoom.
  cbv zeta. by destruct (get_all_unclosed_streams _ _) as [s []].
Qed.

(** The end of [exit_with_error]: who is told, and the streams. *)
Lemma exit_spec {E} e m :
  ∃ m' blocked, exit_with_error (E := E) e m = (m', Ok blocked) ∧
    io_shutdown (controller m') = true ∧ rx_closed (req_rx m') = true ∧ pending_send (mstreams m') = [] ∧
    (∀ id, stream_state id (mstreams m') =
       if is_open id (mstreams m) then Some (Closed LocalGoAway) else stream_state id (mstreams m)) ∧
    (∀ id c, is_open id (mstreams m) = true → senders (controller m) !! id = Some c → hears m m' id c e blocked).
Proof.
  rewrite exit_with_error_eq. cbv zeta. unfold get_all_unclosed_streams. rewrite bind_st. cbn [get_st].
  set (m1 := set_req_rx _ _). set (s2 := with_queues [] ∅ [] [] [] (mstreams m1)).
  change (mstreams (set_mstreams s2 m1)) with s2.
  assert (∀ id, stream_state id s2 = stream_state id (mstreams m)) as Hst by done.
  destruct (unclosed_spec (E := E) (map_order (stream_map s2)) s2) as (s' & -> & Hs' & Hi);
    [apply map_order_nodup|intros id; apply map_order_keys|].
  set (m3 := set_mstreams s' (set_mstreams s2 m1)). set (ids := filter _ _).
  destruct (tell_frame (E := E) ids e false m3) as (m' & b & Ht & _ & Hg & Hms & Hio & Hrq & _).
  exists m', b. split_and!; [done|by rewrite Hio|by rewrite Hrq|rewrite Hms; cbn; by rewrite Hs'| |].
  - intros id. rewrite Hms. change (mstreams m3) with s'. rewrite Hi. unfold closing.
    change (is_open id s2) with (is_open id (mstreams m)). destruct (is_open id (mstreams m)) eqn:Ho.
    + rewrite decide_True; [done|]. split; [|done]. apply map_order_keys. unfold is_open, stream_state in Ho.
      change (stream_map s2) with (stream_map (mstreams m)). by destruct (stream_map (mstreams m) !! id).
    + rewrite decide_False by by intros []. done.
  - intros id c Ho Hc. assert (hears m3 m' id c e b) as Hh; [|exact Hh].
    eapply tell_hears; [|exact Ht| |exact Hc]; [apply NoDup_filter, map_order_nodup|].
    apply list_elem_of_filter. split; [done|]. apply map_order_keys. unfold is_open, stream_state in Ho.
    change (stream_map s2) with (stream_map (mstreams m)). by destruct (stream_map (mstreams m) !! id).
Qed.

(** *** A frame that is accepted *)

(** The streams accept the frame as a part of the response of its stream. *)
Definition accepted (f : Frame) (m : Manager W) : Prop :=
  match f_payload f with
  | PHeaders _ => (recv_headers (E := H2Error) (f_id f) (is_end_stream (f_flags f)) (mstreams m)).2 = Ok RecvOK
  | PRstStream _ => (recv_remote_reset (E := H2Error) (f_id f) (mstreams m)).2 = Ok EndOK
  | PData data =>
      let '(m1, r) := update_window (f_id f) (len data mod 2 ^ 32) m in
      r = Ok () ∧ (recv_data (E := DispatchErrorKind) (f_id f) (is_end_stream (f_flags f)) (mstreams m1)).2 = Ok RecvOK
  | _ => False
  end.

(** It is on the route of the channel of its stream, or nobody listens. *)
Definition routed (f : Frame) (c : Z) (m m' : Manager W) : Prop :=
  route c m' = route c m ++ [f] ∨ senders (controller m') !! f_id f = None.

Lemma send_routed f c m :
  idle m → senders (controller m) !! f_id f = Some c →
  let '(m', r) := send_message_to_stream (f_id f) (RespOutput f) m in
  routed f c m m' ∧ match r with Err _ => senders (controller m') !! f_id f = None | Panic => False | _ => True end.
Proof.
  intros Hi Hc. unfold routed. rewrite (route_idle c m) by done. unfold send_message_to_stream. rewrite bind_st. cbn [get_st].
  rewrite Hc, bind_st. unfold on_world. pose proof (poll_send_given (c, RespOutput f) (world m) c) as Hg.
  destruct (poll_send (c, RespOutput f) (world m)) as [w o]. cbn in Hg. unfold idle in Hi. destruct o; rewrite ?bind_st; cbn.
  - split; [left|done]. unfold route. cbn. rewrite Hi, (parked_nil c) by (intros ??; by rewrite lookup_empty).
    by rewrite Hg, decide_True, outputs_app, app_nil_r.
  - split; [right|]; apply lookup_delete_eq.
  - split; [left|done]. unfold route. cbn. rewrite Hi, Hg, app_nil_r, parked_single. by rewrite decide_True.
Qed.

Lemma routed_from f c m m1 m' : same_seen m m1 → routed f c m1 m' → routed f c m m'.
Proof.
  unfold same_seen, seen, routed, route. intros [= Hw Hc _ _ _ _] [H|H]; [left|by right]. by rewrite H, Hw, Hc.
Qed.

Lemma accepted_sends f m :
  accepted f m → ∃ m1, same_seen m m1 ∧
    poll_recv_frame f m = lift_err KindH2 (send_message_to_stream (f_id f) (RespOutput f)) m1.
Proof.
  unfold accepted, poll_recv_frame. destruct (f_payload f) as [parts|data|? ? ?|code|?|?|? ? ?|?|? ?]; try done.
  - intros Ha. pose proof (silent_streams (E := H2Error) (recv_headers (f_id f) (is_end_stream (f_flags f))) m) as Hs.
    exists (on_streams' (recv_headers (E := H2Error) (f_id f) (is_end_stream (f_flags f))) m).1. split; [done|].
    unfold lift_err, recv_header_frame. rewrite bind_st. revert Ha. unfold on_streams', zoom.
    destruct (recv_headers (E := H2Error) _ _ _) as [s r]. cbn. by intros ->.
  - destruct (update_window (f_id f) (len data mod 2 ^ 32) m) as [m1 r] eqn:Hw. intros [-> Ha].
    exists (on_streams' (recv_data (E := DispatchErrorKind) (f_id f) (is_end_stream (f_flags f))) m1).1. split.
    + etrans; [|apply silent_streams]. pose proof (update_window_silent (f_id f) (len data mod 2 ^ 32) m) as H. by rewrite Hw in H.
    + unfold recv_data_frame. rewrite bind_st, Hw, bind_st. revert Ha. unfold on_streams', zoom.
      destruct (recv_data (E := DispatchErrorKind) _ _ _) as [s r]. cbn. by intros ->.
  - intros Ha. exists (on_streams' (recv_remote_reset (E := H2Error) (f_id f)) m).1. split; [apply silent_streams|].
    unfold lift_err, recv_reset_frame. rewrite bind_st. revert Ha. unfold on_streams', zoom.
    destruct (recv_remote_reset (E := H2Error) _ _) as [s r]. cbn. by intros ->.
Qed.

(** C27: a frame of a response that the state of its stream accepts (HEADERS, DATA
    within the windows, RST_STREAM) is put on the way to the channel of the stream
    behind all that was put there before: it is in the channel, or waits for room in it as
    the only frame that does.  Only a stream that nobody listens to loses it, and
    the manager forgets that stream. *)
Theorem response_accepted (f : Frame) (c : Z) (m : Manager W) :
  curr_message (controller m) = ∅ → accepted f m → senders (controller m) !! f_id f = Some c →
  let m' := (poll_recv_message f m).1 in
  route c m' = route c m ++ [f] ∨ senders (controller m') !! f_id f = None.
Proof.
  intros Hi Ha Hc m'. subst m'. destruct (accepted_sends f m Ha) as (m1 & Hs & He).
  assert (senders (controller m1) !! f_id f = Some c) as Hc1.
  { unfold same_seen, seen in Hs. injection Hs as _ _ Hsd _ _ _. by rewrite Hsd. }
  unfold poll_recv_message. rewrite bind_st. unfold attempt. rewrite He. unfold lift_err.
  pose proof (send_routed f c m1 (idle_seen _ _ Hs Hi) Hc1) as Hr.
  destruct (send_message_to_stream (f_id f) (RespOutput f) m1) as [m2 r].
  destruct Hr as [Hr Hn]. apply (routed_from f c m m1 m2 Hs) in Hr. destruct r as [[]|e|]; try done.
  right. destruct (resp_error_stepped (KindH2 e) m2) as (_ & Hsub & _).
  destruct (senders (controller (manage_resp_error (KindH2 e) m2).1) !! f_id f) as [c'|] eqn:E; [|done].
  eapply lookup_weaken in E; [|exact Hsub]. congruence.
Qed.

(** ** Termination *)

Lemma one_output_empty : one_output ∅.
Proof. intros i j x y Hi. by rewrite lookup_empty in Hi. Qed.

(** What a manager is when it is polled: see [responses_in_order]. *)
Definition settled (m : Manager W) : Prop :=
  one_output (curr_message (controller m)) ∧ (m_state m = MReceive → curr_message (controller m) = ∅).

(** The turns that are left to [poll_loop]. *)
Definition turns (m : Manager W) : nat :=
  length (rx_queue (resp_rx m)) +
  match m_state m, m_next_state m with MSend, MSend => 3 | MSend, _ => 2 | _, _ => 1 end.

Lemma upto_route m : one_output (curr_message (controller m)) → upto (λ c, route c m) m.
Proof. intros Hone. by split. Qed.

(** A turn that goes on leaves fewer. *)
Lemma send_turns {E} m m1 :
  m_state m = MSend → one_output (curr_message (controller m)) → poll_blocked_frames (E := E) m = (m1, Ok Ready) →
  (turns m1 < turns m)%nat ∧ settled m1.
Proof.
  intros Hs Hone Hp. pose proof (blocked_frames_step (E := E) _ m (upto_route m Hone)) as Hb. rewrite Hp in Hb.
  destruct Hb as ([Hone1 _] & Hr & _ & Hi & _). specialize (Hi eq_refl). split; [|by split].
  revert Hp. unfold poll_blocked_frames, poll_blocked_message. rewrite !bind_st. cbn [get_st]. rewrite bind_st.
  pose proof (blocked_loop_upto (E := E) (key_order (curr_message (controller m))) false _ m (upto_route m Hone)) as Hb.
  destruct (blocked_loop _ false m) as [m2 [[]|e|]]; try done. cbn. intros [= <-].
  destruct Hb as (_ & (Hr2 & Hs2 & Hn2 & _) & _). unfold turns. cbn. rewrite Hs, Hr2, Hn2. destruct (m_next_state m); lia.
Qed.

Lemma receive_turns m message rest m1 :
  idle m → m_state m = MReceive → rx_queue (resp_rx m) = message :: rest →
  poll_output_message message (set_resp_rx (mkReceiver rest (rx_closed (resp_rx m))) m) = (m1, Ok Ready) →
  (turns m1 < turns m)%nat ∧ settled m1.
Proof.
  intros Hi Hs Hq Hp. set (m0 := set_resp_rx _ m) in Hp.
  assert (one_output (curr_message (controller m0))) as Hone by (unfold idle in Hi; cbn; rewrite Hi; apply one_output_empty).
  pose proof (output_message_step _ m0 message (upto_route m0 Hone) Hi) as Hb. rewrite Hp in Hb.
  destruct Hb as ([Hone1 _] & Hr & _ & Hrd & _). destruct (Hrd eq_refl) as [Hi1 Hs1].
  split; [|by split; [|intros _; apply Hi1]]. unfold turns. rewrite Hr, Hs1, Hq. cbn. rewrite Hs. cbn. lia.
Qed.

Lemma poll_loop_fuel out out' n k m : settled m → (turns m < n)%nat → poll_loop out (n + k) m = poll_loop out' n m.
Proof.
  revert m. induction n as [|n IH]; intros m Hw Hn; [lia|]. cbn [poll_loop Nat.add]. rewrite !bind_st. cbn [get_st].
  destruct Hw as [Hone Hi]. destruct (m_state m) eqn:Hs; [| |done].
  - rewrite !bind_st. destruct (poll_blocked_frames m) as [m1 [[]|e|]] eqn:Hp; try done.
    destruct (send_turns m m1 Hs Hone Hp) as [Hlt Hw1]. apply IH; [done|lia].
  - destruct (rx_queue (resp_rx m)) as [|message rest] eqn:Hq; [done|]. rewrite !bind_st. cbn [put_st].
    rewrite !bind_st. destruct (poll_output_message message _) as [m1 [[]|e|]] eqn:Hp; try done.
    destruct (receive_turns m message rest m1 (Hi eq_refl) Hs Hq Hp) as [Hlt Hw1]. apply IH; [done|lia].
Qed.

Definition window_left (m : Manager W) : Z := send_size_available (flow_control (mstreams m)).

Lemma on_stream_flow {E A} id (op : ST Stream E A) s : flow_control (on_stream id op s).1 = flow_control s.
Proof. unfold on_stream. destruct (stream_map s !! id) as [st|]; [|done]. by destruct (op st). Qed.

Lemma conn_send_left {E} n s s' :
  0 < n ≤ send_size_available (flow_control s) → n ≤ I32_MAX → on_flow (E := E) (conn_send_data n) s = (s', Ok ()) →
  send_size_available (flow_control s') < send_size_available (flow_control s).
Proof.
  unfold on_flow, conn_send_data, send_data, reduce_size, zoom, send_size_available, size_available. intros Hn Hm.
  rewrite !bind_st. cbn [get_st]. rewrite as_i32_id, bind_st by done. unfold lift_res, i32_check.
  destruct (in_i32 _); [|done]. cbn. intros [= <-]. cbn.
  destruct (Z.ltb_spec (sw_size (fc_send_window (flow_control s))) 0); [lia|].
  destruct (Z.ltb_spec (sw_size (fc_send_window (flow_control s)) - n) 0); lia.
Qed.

(** A frame of a body takes from the window of the connection. *)
Lemma sized_data_window outcome id room s s' f :
  fills outcome → 0 ≤ room ≤ BODY_FRAME_SIZE → room ≤ send_size_available (flow_control s) →
  poll_sized_data outcome id room s = (s', Ok (ReadReady f)) →
  send_size_available (flow_control s') < send_size_available (flow_control s) ∧ ∃ l, f = mkFrame id 0 (PData l).
Proof.
  intros Hf Hr Hc. unfold poll_sized_data. rewrite bind_st. cbn [get_st]. destruct (stream_map s !! id) as [st|]; [|done].
  destruct (body_poll_read (outcome room) (st_data st)) as [l| |] eqn:El; [|done|rewrite bind_st; by destruct (push_back_pending_send _ _) as [? []]].
  apply (body_fills outcome) in El; [|done|lia]. cbv zeta. destruct (Z.ltb_spec 0 (len l)); [|done].
  rewrite bind_st. pose proof (on_stream_flow (E := H2Error) id (zoom st_send_window set_send_window (send_data (len l))) s) as Hfl.
  destruct (on_stream id _ s) as [s1 [[]|e|]]; try done. cbn in Hfl. rewrite bind_st.
  destruct (on_flow (conn_send_data (len l)) s1) as [s2 [[]|e|]] eqn:Ef; try done. cbn. intros [= <- <-].
  split; [|by exists l]. rewrite <- Hfl. apply (conn_send_left (E := H2Error) (len l)); [rewrite Hfl; lia| |done].
  unfold BODY_FRAME_SIZE, I32_MAX in *. lia.
Qed.

Lemma read_body_window outcome id s s' f :
  fills outcome → poll_read_body outcome id s = (s', Ok (ReadReady f)) →
  send_size_available (flow_control s') < send_size_available (flow_control s) ∧ ∃ l, f = mkFrame id 0 (PData l).
Proof.
  intros Hf. unfold poll_read_body. rewrite bind_st. cbn [get_st]. destruct (stream_map s !! id) as [st|]; [|done].
  set (sv := size_available (st_send_window st)). set (cv := send_size_available (flow_control s)).
  assert (0 ≤ sv ∧ 0 ≤ cv) as [Hsv Hcv].
  { subst sv cv. unfold send_size_available, size_available. split; case_match; lia. }
  destruct (st_state st); try done; cbv zeta; (destruct (sv =? 0); [by rewrite bind_st|]);
    (destruct (cv =? 0); [by rewrite bind_st|]); apply sized_data_window; try done;
    subst cv; unfold BODY_FRAME_SIZE; lia.
Qed.

Lemma send_data_same {E} id s : (send_data_frame (E := E) id false s).1 = s.
Proof.
  unfold send_data_frame. rewrite bind_st. cbn [get_st]. destruct (stream_map s !! id) as [st|]; [|done].
  by destruct (st_state st) as [|[] ?| |?|[]|?].
Qed.

Lemma data_frame_window id l (m : Manager W) : window_left (poll_send_frame (mkFrame id 0 (PData l)) m).1 = window_left m.
Proof.
  unfold poll_send_frame, window_left. cbv zeta. cbn [f_payload f_flags f_id]. change (is_end_stream 0) with false.
  rewrite !bind_st. unfold on_streams', zoom. pose proof (send_data_same (E := DispatchErrorKind) id (mstreams m)) as Hs.
  destruct (send_data_frame id false (mstreams m)) as [s [[| |e]|e|]]; cbn in Hs; subst s; try done;
    cbn; unfold send_input, zoom; cbn; by destruct (sender_send _ _).
Qed.

(** The window of the connection pays for the turns of [body_loop]. *)
Lemma body_loop_fuel out out' n k id m :
  window_left m + 1 < Z.of_nat n → 0 ≤ window_left m → body_loop out (n + k) id m = body_loop out' n id m.
Proof.
  revert m. induction n as [|n IH]; intros m Hn Hw; [lia|]. cbn [body_loop Nat.add]. rewrite !bind_st. unfold on_world.
  pose proof (poll_body_fills id (world m)) as Hf. destruct (poll_body id (world m)) as [w outcome]. cbn in Hf.
  rewrite !bind_st. unfold attempt, on_streams', zoom. cbn [mstreams set_world controller].
  destruct (poll_read_body outcome id (mstreams (set_world w m))) as [s [[| |f|f]|e|]] eqn:Er; try done.
  destruct (read_body_window outcome id _ s f Hf Er) as [Hlt [l ->]]. rewrite !bind_st.
  set (m1 := set_mstreams s (set_world w m)). pose proof (data_frame_window id l m1) as Hd.
  assert (0 ≤ window_left m1) by (unfold window_left, send_size_available, size_available; case_match; lia).
  destruct (poll_send_frame (mkFrame id 0 (PData l)) m1) as [m2 [[]|e|]]; try done. cbn in Hd.
  change (window_left m1) with (send_size_available (flow_control s)) in *.
  change (send_size_available (flow_control (mstreams (set_world w m)))) with (window_left m) in Hlt.
  apply IH; lia.
Qed.

(** C24: a poll of the manager takes a part of the messages of the task that reads,
    in their order, and whatever else it does, each channel is given frames only
    of the streams that it belongs to, each of them once at most, in the order in
    which they were read and behind those that waited already, whether there is room in the
    channels or not.  A poll that does not end the manager leaves at most one
    frame waiting, and none when it would take another message; it never ends
    without an error. *)
Theorem responses_in_order (m : Manager W) :
  settled m →
  let '(m', r) := poll m in
  (∃ ms, rx_queue (resp_rx m) = ms ++ rx_queue (resp_rx m') ∧
    ∀ c, route c m' `sublist_of` route c m ++ (ms ≫= λ x, arriving m x c)) ∧
  (r = Ok Pending → settled m') ∧ r ≠ Ok Ready.
Proof.
  intros [Hone Hi]. pose proof (poll_loop_polled (4 + length (rx_queue (resp_rx m))) _ m (upto_route m Hone) Hi) as Hp.
  unfold poll. rewrite bind_st. cbn [get_st]. destruct (poll_loop _ _ m) as [m' r].
  destruct Hp as ((ms & Hq & [Hone' Hu]) & Hp & Hr). split; [by exists ms|]. split; [|done].
  intros Hpd. split; [done|]. intros Hs. by apply Hp.
Qed.

(** C28: exit_with_error and exit_manager, the routines that the manager of an
    HTTP/2 connection ends with for a connection error, a failed read or write and a
    closed channel, from any state and for any error: they do not panic, the
    dispatcher sees the connection shut down, no request gets in, nothing waits to
    be sent, no stream stays open, and each stream that was open and has a sender
    hears of the error: in its channel, on its way, or nobody listens. (Errors of
    manage_pending_state end the manager without these routines, manager.rs:154, and
    nothing is said of those.) *)
Theorem exit_tells_all (e : DispatchErrorKind) (m : Manager W) :
  ∃ m' blocked, exit_with_error (E := DispatchErrorKind) e m = (m', Ok blocked) ∧
  exit_manager e m = (if blocked : bool then (set_states MSend (MExit e) m', Ok Pending) else (m', Err e)) ∧
  io_shutdown (controller m') = true ∧ rx_closed (req_rx m') = true ∧ pending_send (mstreams m') = [] ∧
  (∀ id, stream_state id (mstreams m') =
     if is_open id (mstreams m) then Some (Closed LocalGoAway) else stream_state id (mstreams m)) ∧
  (∀ id c, is_open id (mstreams m) = true → senders (controller m) !! id = Some c → hears m m' id c e blocked).
Proof.
  destruct (exit_spec (E := DispatchErrorKind) e m) as (m' & b & He & H). exists m', b. split; [done|]. split; [|exact H].
  unfold exit_manager. rewrite bind_st, He. by destruct b.
Qed.

(** C29: a poll of the manager ends.  Let no more than one frame wait for room, and none
    when the manager would take a message, as is so between two polls.  Then the loop of
    [poll] leaves by a [return] of the code in at most so many turns as there are messages,
    and four; and from any state the loop that sends the body of a request does so in at most
    so many turns as the window of the connection has bytes, and two.  With this
    many turns or more, the result is that of [poll], whatever [out] would be done if the
    turns ran out: the end of the turns is never reached. *)
Theorem manager_poll_terminates (m : Manager W) :
  settled m →
  (∀ out k, poll_loop out (4 + length (rx_queue (resp_rx m)) + k) m = poll m) ∧
  (∀ out k id m, body_loop out (body_fuel m + k) id m = body_loop panic (body_fuel m) id m).
Proof.
  intros Hw. split.
  - intros out k. unfold poll. rewrite bind_st. cbn [get_st]. apply poll_loop_fuel; [done|].
    unfold turns. destruct (m_state m), (m_next_state m); lia.
  - intros out k id m'. unfold body_fuel. fold (window_left m').
    assert (0 ≤ window_left m') by (unfold window_left, send_size_available, size_available; case_match; lia).
    apply body_loop_fuel; lia.
Qed.

(** After a GOAWAY the manager takes no request: without a message of the peer it waits, and once
    every stream is closed it answers with a GOAWAY of the same code, unless that
    was sent before, and ends with the error of the peer, shut down. *)
Theorem goaway_drains (m : Manager W) (error_code : Z) (code : ErrorCode) :
  m_state m = MReceive → rx_queue (resp_rx m) = [] → rx_closed (resp_rx m) = false → tx_closed (input_tx m) = false →
  go_away_error_code (controller m) = Some error_code → ErrorCode_try_from error_code = Ok code →
  let last := latest_remote_id (mstreams m) in
  let '(m', r) := poll m in
  if is_closed (mstreams m) then
    r = Err (KindH2 (ConnectionError code)) ∧ io_shutdown (controller m') = true ∧
    tx_sent (input_tx m') = tx_sent (input_tx m) ++
      (if same_goaway error_code last (going_away (controller m)) then [] else [mkFrame 0 0 (PGoaway error_code last [])])
  else m' = m ∧ r = Ok Pending.
Proof.
  intros Hs Hq Hc Ht Hg Hcode last. unfold poll. rewrite bind_st. cbn [get_st]. change (4 + ?n)%nat with (S (3 + n)).
  cbn [poll_loop]. rewrite bind_st. cbn [get_st]. rewrite Hs, Hq, Hc. unfold manage_pending_state. rewrite bind_st. cbn [get_st].
  rewrite Hg, bind_st. unfold poll_deal_with_go_away. rewrite bind_st. cbn [get_st].
  destruct (is_closed (mstreams m)); [|done]. unfold send_peer_goaway. rewrite !bind_st. cbn [get_st]. fold last.
  destruct (same_goaway error_code last (going_away (controller m))).
  - cbn [mret ST_ret]. unfold on_controller, lift_err, lift_res, throw. rewrite bind_st. cbn [modify_st]. rewrite bind_st, Hcode. cbn.
    by rewrite app_nil_r.
  - unfold on_controller, send_input, zoom, sender_send, lift_err, lift_res, throw. rewrite bind_st. cbn. rewrite Ht, Hcode. by cbn.
Qed.
End manager.

(** ** A runtime

    Channels with some room left; a channel that is not there has no receiver.
    Bodies are empty. *)
#[local] Abbreviation Channels := (gmap Z (nat * list RespMessage)).

Definition channels_send (fut : SendFut) (w : Channels) : Channels * SendPoll :=
  match w !! fut.1 with
  | Some (S room, l) => (<[fut.1 := (room, l ++ [fut.2])]> w, SendReady)
  | Some (O, _) => (w, SendBlocked)
  | None => (w, SendGone)
  end.

#[export] Instance channels_runtime : Runtime Channels := {
  poll_send := channels_send;
  try_send fut w := (channels_send fut w).1;
  poll_body id w := (w, λ _, PollReady []);
  map_order m := (map_to_list m).*1;
  set_order x := elements x;
  key_order m := (map_to_list m).*1 }.

Definition channels_given (c : Z) (w : Channels) : list RespMessage :=
  match w !! c with Some (_, l) => l | None => [] end.

Lemma channels_send_given fut w c :
  channels_given c (channels_send fut w).1 =
    channels_given c w ++ (if decide ((channels_send fut w).2 = SendReady ∧ fut.1 = c) then [fut.2] else []).
Proof.
  unfold channels_send, channels_given. destruct (w !! fut.1) as [[[|room] l]|] eqn:Hw; cbn.
  - by rewrite app_nil_r.
  - destruct (decide (fut.1 = c)) as [<-|Hne].
    + rewrite lookup_insert_eq, Hw, decide_True by done. done.
    + rewrite lookup_insert_ne by done. rewrite decide_False by by intros []. by rewrite app_nil_r.
  - by rewrite app_nil_r.
Qed.

Lemma channels_try_given fut w c :
  channels_given c (channels_send fut w).1 = channels_given c w ∨
  (fut.1 = c ∧ channels_given c (channels_send fut w).1 = channels_given c w ++ [fut.2]).
Proof.
  rewrite channels_send_given. destruct (decide _) as [[_ ?]|]; [by right|left]. by rewrite app_nil_r.
Qed.

Lemma channels_fills : fills (λ _, PollReady []).
Proof. by intros room l Hr [= <-]. Qed.

Lemma map_keys {A : Type} (m : gmap Z A) id : id ∈ (map_to_list m).*1 ↔ is_Some (m !! id).
Proof.
  rewrite list_elem_of_fmap. split.
  - intros ([i x] & -> & Hi%elem_of_map_to_list). by exists x.
  - intros [x Hx]. exists (id, x). split; [done|]. by apply elem_of_map_to_list.
Qed.

Lemma map_keys_nodup {A : Type} (m : gmap Z A) : NoDup (map_to_list m).*1.
Proof. apply NoDup_fst_map_to_list. Qed.

#[export] Instance channels_laws : RuntimeLaws Channels := {
  given := channels_given;
  poll_send_given := channels_send_given;
  try_send_given := channels_try_given;
  poll_body_given _ _ _ := eq_refl;
  poll_body_fills _ _ := channels_fills;
  map_order_keys := map_keys;
  map_order_nodup := map_keys_nodup;
  key_order_keys := map_keys;
  key_order_nodup := map_keys_nodup }.

(** A connection with the stream 1, whose channel is 7. *)
Definition sample_controller : StreamController :=
  set_senders {[ 1 := 7 ]} (StreamController_new (with_concurrency 100 1 sample_streams)).
Definition sample_manager (state : ManagerState) (room : nat) (messages : list OutputMessage) : Manager Channels :=
  mkManager state MReceive Synced (mkSender false []) (mkReceiver messages false) (mkReceiver [] false)
    sample_controller {[ 7 := (room, []) ]}.
Definition sample_reset : Frame := mkFrame 1 0 (PRstStream 8).

Lemma sample_settled state room messages : settled (sample_manager state room messages).
Proof. split; [apply one_output_empty|done]. Qed.

Lemma responses_in_order_witness :
  let m := sample_manager MReceive 1 [Output sample_reset; OutputExit (KindIo 0)] in
  let '(m', r) := poll m in
  ((∃ ms, rx_queue (resp_rx m) = ms ++ rx_queue (resp_rx m') ∧
    ∀ c, route c m' `sublist_of` route c m ++ (ms ≫= λ x, arriving m x c)) ∧
  (r = Ok Pending → settled m') ∧ r ≠ Ok Ready).
Proof. exact (responses_in_order (sample_manager MReceive 1 [Output sample_reset; OutputExit (KindIo 0)]) (sample_settled _ _ _)). Defined.

Example response_given : route 7 (poll (sample_manager MReceive 1 [Output sample_reset])).1 = [sample_reset].
Proof. by vm_compute. Qed.

(** A channel without room: the frame waits, and the manager with it. *)
Example response_waits :
  let m := (poll (sample_manager MReceive 0 [Output sample_reset; Output sample_reset])).1 in
  route 7 m = [sample_reset] ∧ m_state m = MSend ∧ rx_queue (resp_rx m) = [Output sample_reset].
Proof. by vm_compute. Qed.

Lemma response_accepted_witness :
  let m := sample_manager MReceive 1 [] in
  let m' := (poll_recv_message sample_reset m).1 in
  route 7 m' = route 7 m ++ [sample_reset] ∨ senders (controller m') !! f_id sample_reset = None.
Proof.
  intros m m'. exact (response_accepted sample_reset 7 m eq_refl ltac:(by vm_compute) ltac:(by vm_compute)).
Defined.

Lemma exit_tells_all_witness :
  let m := sample_manager MReceive 1 [] in
  ∃ m' blocked, exit_with_error (E := DispatchErrorKind) KindDisconnect m = (m', Ok blocked) ∧
  exit_manager KindDisconnect m = (if blocked : bool then (set_states MSend (MExit KindDisconnect) m', Ok Pending) else (m', Err KindDisconnect)) ∧
  io_shutdown (controller m') = true ∧ rx_closed (req_rx m') = true ∧ pending_send (mstreams m') = [] ∧
  (∀ id, stream_state id (mstreams m') =
     if is_open id (mstreams m) then Some (Closed LocalGoAway) else stream_state id (mstreams m)) ∧
  (∀ id c, is_open id (mstreams m) = true → senders (controller m) !! id = Some c → hears m m' id c KindDisconnect blocked).
Proof. exact (exit_tells_all KindDisconnect (sample_manager MReceive 1 [])). Defined.

Lemma manager_poll_terminates_witness :
  let m := sample_manager MReceive 0 [Output sample_reset] in
  (∀ out, poll_loop out (4 + length (rx_queue (resp_rx m))) m = poll m) ∧ (poll m).2 = Ok Pending.
Proof.
  intros m. split; [|by vm_compute]. intros out. pose proof (proj1 (manager_poll_terminates m (sample_settled _ _ _)) out O) as H.
  by rewrite Nat.add_0_r in H.
Defined.

Lemma goaway_drains_witness :
  let m := set_controller (set_go_away_error_code (Some 0) sample_controller) (sample_manager MReceive 0 []) in
  let '(m', r) := poll m in m' = m ∧ r = Ok Pending.
Proof.
  intros m. exact (goaway_drains m 0 NoError eq_refl eq_refl eq_refl eq_refl eq_refl eq_refl).
Defined.

(** *** Behaviours that are proved of examples *)

(** An error in the frames of a request ends the manager, but not by
    [exit_with_error]: the connection does not look shut down and the stream
    hears nothing. *)
Example request_error_is_silent :
  let m := set_input_tx (mkSender true []) (sample_manager MReceive 1 []) in
  let m1 := set_mstreams (with_pending_send [1] (mstreams m)) m in
  let '(m', r) := poll m1 in
  r = Err KindChannelClosed ∧ io_shutdown (controller m') = false ∧ given 7 (world m') = [].
Proof. by vm_compute. Qed.

(** A GOAWAY with an unknown code: the streams above the last one are closed, and
    hear nothing. *)
Example goaway_unknown_code :
  let m := sample_manager MReceive 1 [] in
  let '(m', r) := recv_go_away_frame 14 0 m in
  r = Err (ConnectionError ProtocolError) ∧ stream_state 1 (mstreams m') = Some (Closed RemoteGoAway) ∧ given 7 (world m') = [].
Proof. by vm_compute. Qed.
