(* ===== verification/H2Io.v ===== *)
(** * Input and output tasks of the HTTP/2 client

    Models [src/ylong_http_client/src/util/h2/input.rs] and [output.rs]: the task
    that takes frames of the manager, encodes them into a buffer and writes it to
    the transport, and the task that reads the transport, decodes frames and hands
    them to the manager.

    The transport and the channel to the manager are classes; a loop that asks
    them again and again is given a number of turns.  The settings are behind a
    mutex that three tasks share: the output task is given what it will find there
    ([Locks]), and of the input task, which only stores, what it stored is kept. *)

From S2P Require Import Prelude H2Error Headers Parts H2Frame FrameDecoder FrameEncoder H2Streams H2Manager Body.
#[local] Open Scope Z_scope.

(** [AsyncWrite::poll_write]: how much of the bytes was taken; an error is its kind. *)
Class FrameWriter (S : Type) := write_frame_bytes : bytes → ST S Z (Poll Z).
(** A message of the output task, sent to the manager. *)
Class MessageSink (S : Type) := poll_transmit : OutputMessage → S → S * SendPoll.

(** ** [SendData] *)

(** [WriteBuf]: the bytes from [wb_start] to [wb_end] are still to be written. *)
Record WriteBuf := mkWriteBuf { wb_buf : bytes; wb_end : Z; wb_start : Z; wb_empty : bool }.
Definition WriteBuf_new : WriteBuf := mkWriteBuf (replicate (Z.to_nat 1024) 0) 0 0 true.
Definition WriteBuf_clear (b : WriteBuf) : WriteBuf := mkWriteBuf (wb_buf b) 0 0 true.

Inductive InputState := RecvFrame | WriteFrame.
(** [sd_settings] is what the task last stored under the mutex of the settings; it
    never reads it. *)
Inductive SettingState := SettingNot | SettingLocal (settings : list Setting) | SettingAck.

Record SendData (S : Type) := mkSendData {
  sd_encoder : FrameEncoder;
  sd_settings : SettingsState;
  sd_writer : S;
  sd_rx : Receiver Frame;
  sd_state : InputState;
  sd_buf : WriteBuf }.
Arguments mkSendData {S} _ _ _ _ _ _.
Arguments sd_encoder {S} _.
Arguments sd_settings {S} _.
Arguments sd_writer {S} _.
Arguments sd_rx {S} _.
Arguments sd_state {S} _.
Arguments sd_buf {S} _.

(** [SendData::new]. *)
Definition SendData_new {S : Type} (encoder : FrameEncoder) (settings : SettingsState) (writer : S) (rx : Receiver Frame) : SendData S :=
  mkSendData encoder settings writer rx RecvFrame WriteBuf_new.

Definition sd_set_encoder {S : Type} (x : FrameEncoder) (s : SendData S) : SendData S :=
  mkSendData x (sd_settings s) (sd_writer s) (sd_rx s) (sd_state s) (sd_buf s).
Definition sd_set_settings {S : Type} (x : SettingsState) (s : SendData S) : SendData S :=
  mkSendData (sd_encoder s) x (sd_writer s) (sd_rx s) (sd_state s) (sd_buf s).
Definition sd_set_writer {S : Type} (x : S) (s : SendData S) : SendData S :=
  mkSendData (sd_encoder s) (sd_settings s) x (sd_rx s) (sd_state s) (sd_buf s).
Definition sd_set_rx {S : Type} (x : Receiver Frame) (s : SendData S) : SendData S :=
  mkSendData (sd_encoder s) (sd_settings s) (sd_writer s) x (sd_state s) (sd_buf s).
Definition sd_set_state {S : Type} (x : InputState) (s : SendData S) : SendData S :=
  mkSendData (sd_encoder s) (sd_settings s) (sd_writer s) (sd_rx s) x (sd_buf s).
Definition sd_set_buf {S : Type} (x : WriteBuf) (s : SendData S) : SendData S :=
  mkSendData (sd_encoder s) (sd_settings s) (sd_writer s) (sd_rx s) (sd_state s) x.

(** [update_settings]: the settings of the peer, that the manager acknowledges. *)
Fixpoint apply_encoder_settings (settings : list Setting) (e : FrameEncoder) : FrameEncoder :=
  match settings with
  | [] => e
  | HeaderTableSize size :: settings => apply_encoder_settings settings (update_header_table_size size e)
  | MaxFrameSize size :: settings => apply_encoder_settings settings (update_max_frame_size size e)
  | _ :: settings => apply_encoder_settings settings e
  end.
Definition input_update_settings (frame : Frame) (e : FrameEncoder) : FrameEncoder * SettingState :=
  match f_payload frame with
  | PSettings settings =>
      if is_ack (f_flags frame) then (apply_encoder_settings settings e, SettingAck) else (e, SettingLocal settings)
  | _ => (e, SettingNot)
  end.

Section input.
Context {S : Type} `{!FrameWriter S} (hash_order : Headers → list (bytes * HeaderValue)).
#[local] Abbreviation IM := (ST (SendData S) DispatchErrorKind).

(** [&buf[start..end]]. *)
Definition buf_slice (first last : Z) : IM bytes :=
  s ← get_st;
  let b := wb_buf (sd_buf s) in
  if (first <=? last) && (last <=? len b) then mret (takeZ (last - first) (dropZ first b)) else panic.

(** [poll_write], with the error as the loops return it. *)
Definition poll_writer (l : bytes) : IM (Poll Z) := λ s,
  let '(w, r) := write_frame_bytes l (sd_writer s) in
  (sd_set_writer w s, match r with Ok p => Ok p | Err kind => Err (KindIo kind) | Panic => Panic end).

(** The loop of [poll_writer_frame] that writes what is left in the buffer. *)
Fixpoint flush_loop (turns : nat) : IM (Poll ()) :=
  match turns with
  | O => panic
  | Datatypes.S turns =>
      s ← get_st;
      l ← buf_slice (wb_start (sd_buf s)) (wb_end (sd_buf s));
      p ← poll_writer l;
      match p with
      | Ready written =>
          let b := sd_buf s in
          let start := wb_start b + written in
          if start =? wb_end b then _ ← modify_st (sd_set_buf (WriteBuf_clear b)); mret (Ready ())
          else _ ← modify_st (sd_set_buf (mkWriteBuf (wb_buf b) (wb_end b) start (wb_empty b))); flush_loop turns
      | Pending => mret Pending
      end
  end.

(** The loop that writes what the encoder gave, from [index] on. *)
Fixpoint encoded_loop (turns : nat) (index size : Z) : IM (Poll ()) :=
  match turns with
  | O => panic
  | Datatypes.S turns =>
      l ← buf_slice index size;
      p ← poll_writer l;
      match p with
      | Ready written =>
          let index := index + written in
          if index =? size then mret (Ready ()) else encoded_loop turns index size
      | Pending =>
          _ ← modify_st (λ s, sd_set_buf (mkWriteBuf (wb_buf (sd_buf s)) size index false) s);
          mret Pending
      end
  end.

Definition interval_error : DispatchErrorKind := KindH2 (ConnectionError IntervalError).

(** [encoder.encode(&mut buf)]. *)
Definition encode_buf : IM Z := λ s,
  match FrameEncoder_encode (wb_buf (sd_buf s)) (sd_encoder s) with
  | (e, Ok (buf, size)) =>
      let b := sd_buf s in
      (sd_set_buf (mkWriteBuf buf (wb_end b) (wb_start b) (wb_empty b)) (sd_set_encoder e s), Ok size)
  | (e, Err _) => (sd_set_encoder e s, Err interval_error)
  | (e, Panic) => (sd_set_encoder e s, Panic)
  end.

(** The loop that encodes the frame. *)
Fixpoint encoding_loop (turns writes : nat) : IM (Poll ()) :=
  match turns with
  | O => panic
  | Datatypes.S turns =>
      size ← encode_buf;
      if size =? 0 then mret (Ready ())
      else
        p ← encoded_loop writes 0 size;
        match p with Ready _ => encoding_loop turns writes | Pending => mret Pending end
  end.

Definition poll_writer_frame (turns writes : nat) : IM (Poll ()) :=
  s ← get_st;
  p ← (if wb_empty (sd_buf s) then mret (Ready ()) else flush_loop writes);
  match p with Ready _ => encoding_loop turns writes | Pending => mret Pending end.

(** [set_frame], whose errors end the task. *)
Definition set_task_frame (frame : Frame) : IM () := λ s,
  match set_frame hash_order frame (sd_encoder s) with
  | (e, Ok _) => (sd_set_encoder e s, Ok ())
  | (e, Err _) => (sd_set_encoder e s, Err interval_error)
  | (e, Panic) => (sd_set_encoder e s, Panic)
  end.

(** What is encoded for a frame of the channel. *)
Definition outgoing (frame : Frame) (state : SettingState) : Frame :=
  match state with SettingAck => settings_ack | _ => frame end.

Definition take_frame (frame : Frame) : IM () :=
  s ← get_st;
  let '(e, state) := input_update_settings frame (sd_encoder s) in
  _ ← put_st (sd_set_encoder e s);
  _ ← match state with
      | SettingLocal settings => modify_st (sd_set_settings (Acknowledging settings))
      | _ => mret ()
      end;
  _ ← set_task_frame (outgoing frame state);
  modify_st (sd_set_state WriteFrame).

(** The loop of [SendData::poll]: two turns for a frame. *)
Fixpoint input_poll_loop (fuel turns writes : nat) : IM (Poll ()) :=
  match fuel with
  | O => panic
  | Datatypes.S fuel =>
      s ← get_st;
      match sd_state s with
      | RecvFrame =>
          match rx_queue (sd_rx s) with
          | [] => if rx_closed (sd_rx s) then throw KindChannelClosed else mret Pending
          | frame :: rest =>
              _ ← put_st (sd_set_rx (mkReceiver rest (rx_closed (sd_rx s))) s);
              _ ← take_frame frame;
              input_poll_loop fuel turns writes
          end
      | WriteFrame =>
          p ← poll_writer_frame turns writes;
          match p with
          | Ready _ => _ ← modify_st (sd_set_state RecvFrame); input_poll_loop fuel turns writes
          | Pending => mret Pending
          end
      end
  end.
Definition input_poll (turns writes : nat) : IM (Poll ()) :=
  s ← get_st; input_poll_loop (2 + 2 * length (rx_queue (sd_rx s))) turns writes.
End input.

(** ** [RecvData] *)

Inductive DecodeState := DecodeRead | DecodeSend | DecodeExit (e : DispatchErrorKind).

(** The settings are behind a mutex that the input task and the manager hold too:
    they may change it at any time, between two polls and between two frames of
    one poll.  [Locks] is what this task finds under the mutex each time it locks
    it from now on; nothing is assumed of it. *)
Definition Locks : Type := nat → SettingsState.
Definition unlocked (l : Locks) : Locks := λ n, l (S n).

Record RecvData (S : Type) := mkRecvData {
  rd_decoder : FrameDecoder;
  rd_settings : Locks;
  rd_io : S;
  rd_state : DecodeState;
  rd_next_state : DecodeState;
  rd_curr_message : option OutputMessage;
  rd_pending_iter : option (list FrameKind) }.
Arguments mkRecvData {S} _ _ _ _ _ _ _.
Arguments rd_decoder {S} _.
Arguments rd_settings {S} _.
Arguments rd_io {S} _.
Arguments rd_state {S} _.
Arguments rd_next_state {S} _.
Arguments rd_curr_message {S} _.
Arguments rd_pending_iter {S} _.

(** [RecvData::new]. *)
Definition RecvData_new {S : Type} (decoder : FrameDecoder) (settings : Locks) (io : S) : RecvData S :=
  mkRecvData decoder settings io DecodeRead DecodeRead None None.

Definition rd_set_decoder {S : Type} (x : FrameDecoder) (s : RecvData S) : RecvData S :=
  mkRecvData x (rd_settings s) (rd_io s) (rd_state s) (rd_next_state s) (rd_curr_message s) (rd_pending_iter s).
Definition rd_set_locked {S : Type} (x : FrameDecoder * Locks) (s : RecvData S) : RecvData S :=
  mkRecvData x.1 x.2 (rd_io s) (rd_state s) (rd_next_state s) (rd_curr_message s) (rd_pending_iter s).
Definition rd_locked {S : Type} (s : RecvData S) : FrameDecoder * Locks := (rd_decoder s, rd_settings s).
Definition rd_set_io {S : Type} (x : S) (s : RecvData S) : RecvData S :=
  mkRecvData (rd_decoder s) (rd_settings s) x (rd_state s) (rd_next_state s) (rd_curr_message s) (rd_pending_iter s).
Definition rd_set_states {S : Type} (x next : DecodeState) (s : RecvData S) : RecvData S :=
  mkRecvData (rd_decoder s) (rd_settings s) (rd_io s) x next (rd_curr_message s) (rd_pending_iter s).
Definition rd_set_curr {S : Type} (x : option OutputMessage) (s : RecvData S) : RecvData S :=
  mkRecvData (rd_decoder s) (rd_settings s) (rd_io s) (rd_state s) (rd_next_state s) x (rd_pending_iter s).
Definition rd_set_iter {S : Type} (x : option (list FrameKind)) (s : RecvData S) : RecvData S :=
  mkRecvData (rd_decoder s) (rd_settings s) (rd_io s) (rd_state s) (rd_next_state s) (rd_curr_message s) x.

(** [update_decoder_settings]: the settings that the peer has acknowledged, as they
    are found under the mutex now. *)
Fixpoint apply_decoder_settings (settings : list Setting) : ST FrameDecoder H2Error () :=
  match settings with
  | [] => mret ()
  | setting :: settings =>
      _ ← match setting with
          | MaxHeaderListSize size => set_max_header_list_size size
          | MaxFrameSize size => set_max_frame_size size
          | _ => mret ()
          end;
      apply_decoder_settings settings
  end.
Definition lock_settings : ST (FrameDecoder * Locks) H2Error SettingsState := λ x, ((x.1, unlocked x.2), Ok (x.2 O)).
Definition update_decoder_settings : ST (FrameDecoder * Locks) H2Error () :=
  settings ← lock_settings;
  match settings with
  | Acknowledging settings => zoom fst (λ d x, (d, x.2)) (apply_decoder_settings settings)
  | Synced => throw (ConnectionError ConnectError)
  end.

(** [RecvData::update_settings]. *)
Definition output_update_settings (frame : Frame) : ST (FrameDecoder * Locks) H2Error () :=
  match f_payload frame with
  | PSettings _ => if is_ack (f_flags frame) then update_decoder_settings else mret ()
  | _ => mret ()
  end.

Section output.
Context {S : Type} `{!AsyncRead Z S, !MessageSink S}.
#[local] Abbreviation OM := (ST (RecvData S) DispatchErrorKind).

Definition on_decoder {E A} (m : ST FrameDecoder E A) : ST (RecvData S) E A := zoom rd_decoder rd_set_decoder m.

(** [resp_tx.send(message).await], polled. *)
Definition poll_send_message (message : OutputMessage) : OM SendPoll := λ s,
  let '(w, o) := poll_transmit message (rd_io s) in (rd_set_io w s, Ok o).

Definition transmit_message (message : OutputMessage) : OM (Poll ()) :=
  o ← poll_send_message message;
  match o with
  | SendReady => mret (Ready ())
  | SendGone => throw KindChannelClosed
  | SendBlocked =>
      _ ← modify_st (λ s, rd_set_curr (Some message) (rd_set_states DecodeSend (rd_next_state s) s));
      mret Pending
  end.

Definition transmit_error (exit_err : DispatchErrorKind) : OM (Poll ()) :=
  p ← attempt (transmit_message (OutputExit exit_err));
  match p with
  | inl Pending => _ ← modify_st (λ s, rd_set_states (rd_state s) (DecodeExit exit_err) s); mret Pending
  | _ => throw exit_err
  end.

(** The loop of [poll_iterator_frames]. *)
Fixpoint poll_iterator_frames (iter : list FrameKind) : OM (Poll ()) :=
  match iter with
  | [] => mret (Ready ())
  | Partial :: iter => poll_iterator_frames iter
  | Complete frame :: iter =>
      r ← attempt (zoom rd_locked rd_set_locked (output_update_settings frame));
      p ← transmit_message (match r with inl _ => Output frame | inr e => OutputExit (KindH2 e) end);
      match p with
      | Ready _ => poll_iterator_frames iter
      | Pending => _ ← modify_st (rd_set_iter (Some iter)); mret Pending
      end
  end.

Definition poll_pending_iter : OM (Poll ()) :=
  s ← get_st;
  match rd_pending_iter s with
  | Some iter => _ ← modify_st (rd_set_iter None); poll_iterator_frames iter
  | None => mret (Ready ())
  end.

Definition poll_blocked_task : OM (Poll ()) :=
  s ← get_st;
  match rd_curr_message s with
  | Some task =>
      _ ← modify_st (rd_set_curr None);
      o ← poll_send_message task;
      match o with
      | SendReady => poll_pending_iter
      | SendGone => throw KindChannelClosed
      | SendBlocked => _ ← modify_st (rd_set_curr (Some task)); mret Pending
      end
  | None => poll_pending_iter
  end.

(** [poll_read] into a buffer of 1024 bytes. *)
Definition read_bytes : ST (RecvData S) Z (Poll bytes) := λ s,
  let '((w, b), r) := poll_read (rd_io s, ReadBuf_new 1024) in
  (rd_set_io w s, match r with
                  | Ok (Ready _) => Ok (Ready (rb_filled b)) | Ok Pending => Ok Pending
                  | Err kind => Err kind | Panic => Panic
                  end).

(** [decoder.decode(&buf[..read])] and what is done with the frames. *)
Definition decode_read (l : bytes) : OM (Poll ()) :=
  r ← attempt (on_decoder (FrameDecoder_decode l));
  match r with
  | inl frames =>
      p ← poll_iterator_frames frames;
      match p with
      | Ready _ => mret (Ready ())
      | Pending => _ ← modify_st (λ s, rd_set_states (rd_state s) DecodeRead s); mret (Ready ())
      end
  | inr e =>
      p ← transmit_message (OutputExit (KindH2 e));
      match p with
      | Ready _ => mret (Ready ())
      | Pending => _ ← modify_st (λ s, rd_set_states (rd_state s) DecodeRead s); mret Pending
      end
  end.

(** The loop of [poll_read_frame], which goes on as long as there are bytes.  All
    that it keeps between two turns is in the structure: a loop that is cut after
    [turns] turns goes on in the next poll. *)
Fixpoint poll_read_frame (turns : nat) : OM (Poll ()) :=
  match turns with
  | O => mret Pending
  | Datatypes.S turns =>
      s ← get_st;
      match rd_state s with
      | DecodeRead =>
          r ← attempt read_bytes;
          match r with
          | inr kind => transmit_error (KindIo kind)
          | inl Pending => mret Pending
          | inl (Ready []) =>
              _ ← attempt (E := DispatchErrorKind) (transmit_message (OutputExit KindDisconnect));
              _ ← modify_st (λ s, rd_set_states DecodeSend (rd_next_state s) s);
              mret Pending
          | inl (Ready l) =>
              p ← decode_read l;
              match p with Ready _ => poll_read_frame turns | Pending => mret Pending end
          end
      | DecodeSend =>
          p ← poll_blocked_task;
          match p with
          | Ready _ => _ ← modify_st (λ s, rd_set_states (rd_next_state s) DecodeRead s); poll_read_frame turns
          | Pending => mret Pending
          end
      | DecodeExit e => throw e
      end
  end.
End output.
