(* ===== verification/H2IoSpec.v ===== *)
(** * Properties of the input and output tasks of the HTTP/2 client

    What [H2Io.input_poll] writes to the transport, and what
    [H2Io.poll_read_frame] hands to the manager, over polls that may stop
    anywhere. *)

From S2P Require Import Prelude H2Error Headers Parts H2Frame FrameDecoder FrameEncoder FrameRoundtrip H2Streams H2Manager Body H2Io.
#[local] Open Scope Z_scope.

(** ** The input task *)

(** What was written to the transport, ever: a write takes bytes from the front
    of what it is given, and at least one when there is one. *)
Class WriterLaws (S : Type) `{!FrameWriter S} := {
  writer_written : S → bytes;
  writer_write l w :
    match write_frame_bytes l w with
    | (w', Ok (Ready n)) => 0 ≤ n ≤ len l ∧ (0 < len l → 0 < n) ∧ writer_written w' = writer_written w ++ takeZ n l
    | (w', Ok Pending) => writer_written w' = writer_written w
    | (_, Err _) => True
    | (_, Panic) => False
    end }.

(** The encoder is asked again and again, until it gives nothing. *)
Inductive drains : nat → FrameEncoder → bytes → bytes → FrameEncoder → bytes → Prop :=
  | drains_end e b e' b' :
      FrameEncoder_encode b e = (e', Ok (b', 0)) → len b' = len b → drains 1 e b [] e' b'
  | drains_more n e b e1 b1 k out e' b' :
      FrameEncoder_encode b e = (e1, Ok (b1, k)) → 0 < k ≤ len b1 → len b1 = len b →
      drains n e1 b1 out e' b' → drains (Datatypes.S n) e b (takeZ k b1 ++ out) e' b'.

(** What the buffer still holds for the transport. *)
Definition unwritten (b : WriteBuf) : bytes :=
  if wb_empty b then [] else takeZ (wb_end b - wb_start b) (dropZ (wb_start b) (wb_buf b)).

Definition buf_ok (b : WriteBuf) : Prop :=
  len (wb_buf b) = 1024 ∧ (wb_empty b = false → 0 ≤ wb_start b ≤ wb_end b ∧ wb_end b ≤ 1024).

Section input.
Context {S : Type} `{!FrameWriter S, !WriterLaws S} (hash_order : Headers → list (bytes * HeaderValue)).

(** The frames of the channel, set and encoded one after the other, each in at
    most [turns] calls of the encoder. *)
Inductive sends (turns : nat) : FrameEncoder → bytes → list Frame → bytes → Prop :=
  | sends_nil e b : sends turns e b [] []
  | sends_cons f fs e e1 state e2 n b o1 e3 b3 o2 :
      input_update_settings f e = (e1, state) → set_frame hash_order (outgoing f state) e1 = (e2, Ok ()) →
      drains n e2 b o1 e3 b3 → (n ≤ turns)%nat → sends turns e3 b3 fs o2 →
      sends turns e b (f :: fs) (o1 ++ o2).

(** What the task has still to take from its encoder. *)
Definition owes (turns : nat) (s : SendData S) (out : bytes) : Prop :=
  match sd_state s with
  | RecvFrame => wb_empty (sd_buf s) = true ∧ sends turns (sd_encoder s) (wb_buf (sd_buf s)) (rx_queue (sd_rx s)) out
  | WriteFrame => ∃ n o1 e1 b1 o2, out = o1 ++ o2 ∧ drains n (sd_encoder s) (wb_buf (sd_buf s)) o1 e1 b1 ∧
      (n ≤ turns)%nat ∧ sends turns e1 b1 (rx_queue (sd_rx s)) o2
  end.

Definition written (s : SendData S) : bytes := writer_written (sd_writer s).

(** Only the writer and the marks in the buffer have changed. *)
Definition same_task (s s' : SendData S) : Prop :=
  sd_encoder s' = sd_encoder s ∧ sd_rx s' = sd_rx s ∧ sd_state s' = sd_state s ∧ wb_buf (sd_buf s') = wb_buf (sd_buf s).

Lemma buf_slice_eq first last (s : SendData S) :
  0 ≤ first ≤ last → last ≤ len (wb_buf (sd_buf s)) →
  buf_slice first last s = (s, Ok (takeZ (last - first) (dropZ first (wb_buf (sd_buf s))))).
Proof.
  intros Hf Hl. unfold buf_slice. rewrite bind_st. cbn [get_st].
  by destruct (Z.leb_spec first last), (Z.leb_spec last (len (wb_buf (sd_buf s)))); try lia.
Qed.

Lemma slice_len first last (l : bytes) : 0 ≤ first ≤ last → last ≤ len l → len (takeZ (last - first) (dropZ first l)) = last - first.
Proof. intros Hf Hl. rewrite len_takeZ; [done|]. rewrite len_dropZ by lia. lia. Qed.

(** The front of a slice, and the rest. *)
Lemma slice_split first n last (l : bytes) :
  0 ≤ first → 0 ≤ n → first + n ≤ last → last ≤ len l →
  takeZ n (takeZ (last - first) (dropZ first l)) ++ takeZ (last - (first + n)) (dropZ (first + n) l) =
    takeZ (last - first) (dropZ first l).
Proof.
  intros Hf Hn Hl Hlen. rewrite <- (takeZ_dropZ n (takeZ (last - first) (dropZ first l))) at 2. f_equal.
  unfold takeZ, dropZ. rewrite skipn_firstn_comm, drop_drop. f_equal; [lia|f_equal; lia].
Qed.

(** A write of [l] by a loop. *)
Lemma poll_writer_spec l (s : SendData S) :
  let '(s', r) := poll_writer l s in
  same_task s s' ∧ sd_buf s' = sd_buf s ∧
  match r with
  | Ok (Ready n) => 0 ≤ n ≤ len l ∧ (0 < len l → 0 < n) ∧ written s' = written s ++ takeZ n l
  | Ok Pending => written s' = written s
  | Err _ => True
  | Panic => False
  end.
Proof.
  unfold poll_writer. pose proof (writer_write l (sd_writer s)) as Hw.
  destruct (write_frame_bytes l (sd_writer s)) as [w [[n|]|e|]]; by (split; [by split_and!|]).
Qed.

Lemma flush_spec writes (s : SendData S) :
  buf_ok (sd_buf s) → wb_empty (sd_buf s) = false → (Z.to_nat (wb_end (sd_buf s) - wb_start (sd_buf s)) < writes)%nat →
  let '(s', r) := flush_loop writes s in
  same_task s s' ∧ buf_ok (sd_buf s') ∧
  match r with
  | Ok (Ready _) => wb_empty (sd_buf s') = true ∧ written s' = written s ++ unwritten (sd_buf s)
  | Ok Pending => wb_empty (sd_buf s') = false ∧ written s' ++ unwritten (sd_buf s') = written s ++ unwritten (sd_buf s)
  | Err _ => True
  | Panic => False
  end.
Proof.
  revert s. induction writes as [|writes IH]; intros s Hok He Hf; [lia|]. pose proof Hok as [Hl Hb]. destruct (Hb He) as [Hse Hen].
  cbn [flush_loop]. rewrite bind_st. cbn [get_st]. rewrite bind_st, buf_slice_eq, bind_st by lia.
  set (l := takeZ _ _). assert (unwritten (sd_buf s) = l) as Hu by (unfold unwritten; by rewrite He).
  assert (len l = wb_end (sd_buf s) - wb_start (sd_buf s)) as Hll by (subst l; apply slice_len; lia).
  pose proof (poll_writer_spec l s) as Hw. destruct (poll_writer l s) as [s1 [[n|]|e|]]; destruct Hw as ((H1 & H2 & H3 & H4) & Hb1 & Hw); [| |by split; [|rewrite Hb1]|done].
  - destruct Hw as (Hn & Hpos & Hwr). cbv zeta. destruct (Z.eqb_spec (wb_start (sd_buf s) + n) (wb_end (sd_buf s))) as [Hend|Hne].
    + rewrite bind_st. cbn. split; [done|]. split; [done|]. split; [done|]. unfold written in *. cbn. rewrite Hwr, Hu. f_equal.
      apply takeZ_all. lia.
    + rewrite bind_st. cbn [modify_st]. set (s2 := sd_set_buf _ s1).
      specialize (IH s2). destruct (flush_loop writes s2) as [s3 r].
      destruct IH as ((I1 & I2 & I3 & I4) & Hok3 & Hr); [split; [done|intros _; cbn; lia]|done|cbn; lia|].
      split; [unfold same_task; rewrite I1, I2, I3, I4; by cbn|]. split; [done|].
      assert (written s ++ unwritten (sd_buf s) = written s2 ++ unwritten (sd_buf s2)) as ->; [|done].
      rewrite Hu. change (written s2) with (written s1). rewrite Hwr, <- app_assoc. f_equal. unfold unwritten. cbn. rewrite He.
      symmetry. apply slice_split; lia.
  - cbn. rewrite Hb1. split; [done|]. split; [done|]. split; [done|]. by rewrite Hw.
Qed.

(** The loop that writes what was just encoded. *)
Lemma encoded_spec writes index size (s : SendData S) :
  len (wb_buf (sd_buf s)) = 1024 → wb_empty (sd_buf s) = true → 0 ≤ index ≤ size → size ≤ 1024 → (Z.to_nat (size - index) < writes)%nat →
  let '(s', r) := encoded_loop writes index size s in
  same_task s s' ∧ buf_ok (sd_buf s') ∧
  let l := takeZ (size - index) (dropZ index (wb_buf (sd_buf s))) in
  match r with
  | Ok (Ready _) => wb_empty (sd_buf s') = true ∧ written s' = written s ++ l
  | Ok Pending => wb_empty (sd_buf s') = false ∧ written s' ++ unwritten (sd_buf s') = written s ++ l
  | Err _ => True
  | Panic => False
  end.
Proof.
  revert index s. induction writes as [|writes IH]; intros index s Hl He Hi Hs Hf; [lia|].
  cbn [encoded_loop]. rewrite bind_st, buf_slice_eq, bind_st by lia. cbv zeta.
  set (l := takeZ (size - index) _). assert (len l = size - index) as Hll by (subst l; apply slice_len; lia).
  assert (∀ s1 : SendData S, sd_buf s1 = sd_buf s → buf_ok (sd_buf s1)) as Hok by (intros s1 ->; split; [done|congruence]).
  pose proof (poll_writer_spec l s) as Hw. destruct (poll_writer l s) as [s1 [[n|]|e|]];
    destruct Hw as ((H1 & H2 & H3 & H4) & Hb1 & Hw); [| |by split; [|split; [apply Hok|]]|done].
  - destruct Hw as (Hn & Hpos & Hwr). cbv zeta. destruct (Z.eqb_spec (index + n) size) as [Hend|Hne].
    + cbn. split; [done|]. split; [by apply Hok|]. rewrite Hb1, He, Hwr. split; [done|]. f_equal. apply takeZ_all. lia.
    + specialize (IH (index + n) s1). rewrite Hb1 in IH. destruct (encoded_loop writes (index + n) size s1) as [s3 r].
      destruct IH as ((I1 & I2 & I3 & I4) & Hok3 & Hr); [done|done|lia|done|lia|].
      split; [unfold same_task; rewrite I1, I2, I3, I4, Hb1; done|]. split; [done|].
      assert (written s1 ++ takeZ (size - (index + n)) (dropZ (index + n) (wb_buf (sd_buf s))) = written s ++ l) as <-; [|done].
      rewrite Hwr, <- app_assoc. f_equal. apply slice_split; lia.
  - rewrite bind_st. cbn. rewrite Hb1. split; [done|]. split; [split; [done|intros _; cbn; lia]|]. split; [done|].
    unfold written, unwritten in *. cbn. by rewrite Hw.
Qed.

(** What is encoded is written, or waits in the buffer, or is still to be encoded. *)
Lemma encoding_spec turns writes n e' b' out (s : SendData S) :
  len (wb_buf (sd_buf s)) = 1024 → wb_empty (sd_buf s) = true → drains n (sd_encoder s) (wb_buf (sd_buf s)) out e' b' →
  (n ≤ turns)%nat → (1024 < writes)%nat →
  let '(s', r) := encoding_loop turns writes s in
  sd_rx s' = sd_rx s ∧ sd_state s' = sd_state s ∧ buf_ok (sd_buf s') ∧
  match r with
  | Ok (Ready _) => wb_empty (sd_buf s') = true ∧ sd_encoder s' = e' ∧ wb_buf (sd_buf s') = b' ∧ written s' = written s ++ out
  | Ok Pending => ∃ n' out', drains n' (sd_encoder s') (wb_buf (sd_buf s')) out' e' b' ∧ (n' ≤ n)%nat ∧
      written s' ++ unwritten (sd_buf s') ++ out' = written s ++ out
  | Err _ => True
  | Panic => False
  end.
Proof.
  intros Hl He Hd Hn Hw. remember (sd_encoder s) as e eqn:Heq. remember (wb_buf (sd_buf s)) as b eqn:Hbq.
  revert turns s Hl He Heq Hbq Hn. induction Hd as [e b e' b' Henc Hlb|n e b e1 b1 k out e' b' Henc Hk Hlb Hd IH];
    intros turns s Hl He -> -> Hn; destruct turns as [|turns]; try lia; cbn [encoding_loop]; rewrite bind_st;
    unfold encode_buf; rewrite Henc.
  - cbn. split_and!; try done; [split; cbn; congruence|by rewrite app_nil_r].
  - destruct (Z.eqb_spec k 0); [lia|]. set (s1 := sd_set_buf _ _). rewrite bind_st.
    pose proof (encoded_spec writes 0 k s1) as Hs. destruct (encoded_loop writes 0 k s1) as [s2 r].
    destruct Hs as ((H1 & H2 & H3 & H4) & Hok & Hs); [cbn; congruence|done|lia|cbn in *; lia|lia|].
    rewrite Z.sub_0_r, dropZ_0 in Hs. change (wb_buf (sd_buf s1)) with b1 in *. change (written s1) with (written s) in *.
    change (sd_encoder s1) with e1 in *. change (sd_rx s1) with (sd_rx s) in *. change (sd_state s1) with (sd_state s) in *.
    destruct r as [[[]|]|x|]; [| |done|done].
    + destruct Hs as [Hem Hwr]. specialize (IH turns s2). rewrite H4 in IH.
      destruct (encoding_loop turns writes s2) as [s3 r]. destruct IH as (I1 & I2 & I3 & I4); [congruence|done|done|done|lia|].
      rewrite I1, I2, H2, H3. split; [done|]. split; [done|]. split; [done|]. destruct r as [[[]|]|x|]; try done.
      * destruct I4 as (-> & -> & -> & ->). by rewrite Hwr, <- app_assoc.
      * destruct I4 as (n' & out' & Hd' & Hn' & Hwr'). exists n', out'. rewrite Hwr', Hwr, <- app_assoc. split_and!; [done|lia|done].
    + destruct Hs as [Hem Hwr]. split; [done|]. split; [done|]. split; [done|]. exists n, out. rewrite H1, H4.
      split_and!; [done|lia|]. by rewrite app_assoc, Hwr, <- app_assoc.
Qed.

Lemma writer_frame_spec turns writes n e' b' out (s : SendData S) :
  buf_ok (sd_buf s) → drains n (sd_encoder s) (wb_buf (sd_buf s)) out e' b' → (n ≤ turns)%nat → (1024 < writes)%nat →
  let '(s', r) := poll_writer_frame turns writes s in
  sd_rx s' = sd_rx s ∧ sd_state s' = sd_state s ∧ buf_ok (sd_buf s') ∧
  match r with
  | Ok (Ready _) => wb_empty (sd_buf s') = true ∧ sd_encoder s' = e' ∧ wb_buf (sd_buf s') = b' ∧
      written s' = written s ++ unwritten (sd_buf s) ++ out
  | Ok Pending => ∃ n' out', drains n' (sd_encoder s') (wb_buf (sd_buf s')) out' e' b' ∧ (n' ≤ n)%nat ∧
      written s' ++ unwritten (sd_buf s') ++ out' = written s ++ unwritten (sd_buf s) ++ out
  | Err _ => True
  | Panic => False
  end.
Proof.
  intros Hok Hd Hn Hw. unfold poll_writer_frame. rewrite bind_st. cbn [get_st]. rewrite bind_st.
  destruct (wb_empty (sd_buf s)) eqn:He.
  - cbn [mret ST_ret]. assert (unwritten (sd_buf s) = []) as -> by (unfold unwritten; by rewrite He).
    apply encoding_spec; try done. apply Hok.
  - pose proof (flush_spec writes s Hok He) as Hf. destruct (flush_loop writes s) as [s1 r].
    destruct Hf as ((H1 & H2 & H3 & H4) & Hok1 & Hr); [destruct Hok as [? Hb]; destruct (Hb He); lia|].
    destruct r as [[[]|]|x|]; [| |done|done].
    + destruct Hr as [He1 Hwr]. rewrite <- H1, <- H4 in Hd.
      pose proof (encoding_spec turns writes n e' b' out s1 (proj1 Hok1) He1 Hd Hn Hw) as Hs.
      destruct (encoding_loop turns writes s1) as [s2 r]. by rewrite H2, H3, Hwr, <- app_assoc in Hs.
    + destruct Hr as [He1 Hwr]. split; [done|]. split; [done|]. split; [done|]. exists n, out. rewrite H1, H4.
      split; [done|]. split; [lia|]. by rewrite app_assoc, Hwr, <- app_assoc.
Qed.

Lemma take_frame_spec turns f fs out (s : SendData S) :
  sends turns (sd_encoder s) (wb_buf (sd_buf s)) (f :: fs) out → rx_queue (sd_rx s) = fs →
  ∃ s', take_frame hash_order f s = (s', Ok ()) ∧ sd_state s' = WriteFrame ∧ sd_buf s' = sd_buf s ∧ sd_rx s' = sd_rx s ∧
    written s' = written s ∧ owes turns s' out.
Proof.
  intros Hs Hq. inversion Hs as [|f' fs' e e1 state e2 n b o1 e3 b3 o2 Hu Hf Hd Hn Hr]; subst.
  unfold take_frame. rewrite bind_st. cbn [get_st]. rewrite Hu.
  set (s1 := sd_set_encoder e1 s).
  set (s2 := match state with SettingLocal l => sd_set_settings (Acknowledging l) s1 | _ => s1 end).
  assert (sd_encoder s2 = e1 ∧ sd_buf s2 = sd_buf s ∧ sd_rx s2 = sd_rx s ∧ written s2 = written s) as (E1 & E2 & E3 & E4)
    by (subst s2; by destruct state).
  exists (sd_set_state WriteFrame (sd_set_encoder e2 s2)). split.
  - rewrite bind_st. cbn [put_st]. rewrite bind_st. fold s1.
    assert (match state with SettingLocal settings => modify_st (E := DispatchErrorKind) (sd_set_settings (Acknowledging settings)) | _ => mret () end s1 = (s2, Ok ())) as ->
      by (subst s2; by destruct state).
    rewrite bind_st. unfold set_task_frame. rewrite E1, Hf. done.
  - cbn. split_and!; try done. unfold owes. cbn. rewrite E2, E3. by exists n, o1, e3, b3, o2.
Qed.

(** The turns of the loop. *)
Definition input_turns (s : SendData S) : nat :=
  2 * length (rx_queue (sd_rx s)) + match sd_state s with WriteFrame => 2 | RecvFrame => 1 end.

Lemma input_loop_spec fuel turns writes out (s : SendData S) :
  buf_ok (sd_buf s) → owes turns s out → (input_turns s ≤ fuel)%nat → (1024 < writes)%nat →
  let '(s', r) := input_poll_loop hash_order fuel turns writes s in
  match r with
  | Ok (Ready _) => False
  | Ok Pending => buf_ok (sd_buf s') ∧ ∃ out', owes turns s' out' ∧
      written s' ++ unwritten (sd_buf s') ++ out' = written s ++ unwritten (sd_buf s) ++ out
  | Err _ => True
  | Panic => False
  end.
Proof.
  revert out s. induction fuel as [|fuel IH]; intros out s Hok Ho Hf Hw;
    [unfold input_turns in Hf; destruct (sd_state s); lia|].
  cbn [input_poll_loop]. rewrite bind_st. cbn [get_st]. destruct (sd_state s) eqn:Es.
  - pose proof Ho as Ho'. unfold owes in Ho'. rewrite Es in Ho'. destruct Ho' as [He Hs].
    destruct (rx_queue (sd_rx s)) as [|f fs] eqn:Eq.
    + destruct (rx_closed (sd_rx s)); [done|]. split; [done|]. by exists out.
    + rewrite bind_st. cbn [put_st]. rewrite bind_st. set (s0 := sd_set_rx _ s).
      destruct (take_frame_spec turns f fs out s0 Hs eq_refl) as (s1 & -> & Hst & Hb & Hrx & Hwr & Ho1).
      specialize (IH out s1). destruct (input_poll_loop hash_order fuel turns writes s1) as [s2 r].
      rewrite Hb, Hwr in IH. apply IH; try done. unfold input_turns in *. rewrite Hst, Hrx. rewrite Es, Eq in Hf. cbn in *. lia.
  - pose proof Ho as Ho'. unfold owes in Ho'. rewrite Es in Ho'. destruct Ho' as (n & o1 & e1 & b1 & o2 & -> & Hd & Hn & Hs).
    rewrite bind_st. pose proof (writer_frame_spec turns writes n e1 b1 o1 s Hok Hd Hn Hw) as Hp.
    destruct (poll_writer_frame turns writes s) as [s1 r]. destruct Hp as (Hrx & Hst & Hok1 & Hp).
    destruct r as [[[]|]|x|]; [| |done|done].
    + destruct Hp as (He & He1 & Hb1 & Hwr). rewrite bind_st. cbn [modify_st]. set (s2 := sd_set_state RecvFrame s1).
      assert (owes turns s2 o2) as Ho2 by (unfold owes; cbn; by rewrite He1, Hb1, Hrx).
      specialize (IH o2 s2 Hok1 Ho2). destruct (input_poll_loop hash_order fuel turns writes s2) as [s3 r].
      change (written s2) with (written s1) in IH. change (sd_buf s2) with (sd_buf s1) in IH.
      assert (unwritten (sd_buf s1) = []) as Hu by (unfold unwritten; by rewrite He).
      assert (written s ++ unwritten (sd_buf s) ++ o1 ++ o2 = written s1 ++ unwritten (sd_buf s1) ++ o2) as ->
        by (by rewrite Hu, Hwr, <- !app_assoc).
      apply IH; [|done].
      unfold input_turns in *. cbn. rewrite Hrx. rewrite Es in Hf. lia.
    + destruct Hp as (n' & o1' & Hd' & Hn' & Hwr). split; [done|]. exists (o1' ++ o2). split.
      * unfold owes. cbn. rewrite Hst, Es, Hrx. exists n', o1', e1, b1, o2. split_and!; try done. lia.
      * apply (f_equal (λ l, l ++ o2)) in Hwr. by rewrite <- !app_assoc in Hwr.
Qed.
End input.

(** ** Frames that go out whole *)

Lemma encode_done b e : encode_state (fe_state e) = None → FrameEncoder_encode b e = (e, Ok (b, 0)).
Proof. intros H. unfold FrameEncoder_encode, encode_fuel. rewrite Nat.add_comm. by apply encode_loop_stop. Qed.

Lemma done_drains b e : encode_state (fe_state e) = None → drains 1 e b [] e b.
Proof. intros H. apply drains_end; [by apply encode_done|done]. Qed.

Lemma set_plain_max f e : fe_max_frame_size (set_plain f e) = fe_max_frame_size e.
Proof. unfold set_plain. by destruct (f_payload f). Qed.

(** A frame other than DATA, in one call. *)
Lemma plain_drains f e b :
  plain_payload (fe_max_frame_size e) (f_payload f) → 9 + len (payload_wire (f_payload f)) < len b →
  ∃ e' b', drains 2 (set_plain f e) b
    (frame_wire (frame_type_code (frame_type (f_payload f))) (f_flags f) (wire_id (f_payload f) (f_id f)) (payload_wire (f_payload f)))
    e' b' ∧ fe_max_frame_size e' = fe_max_frame_size e.
Proof.
  intros Hp Hb. destruct (plain_writes f e b Hp Hb) as (e' & He & Hs & Hm). rewrite set_plain_max in Hm. set (p := payload_wire (f_payload f)) in *.
  set (w := frame_wire _ _ _ p). set (b' := frame_head _ _ _ (len p) ++ p ++ dropZ (9 + len p) b) in He.
  pose proof (len_nonneg p). assert (len w = 9 + len p) as Hw by (unfold w, frame_wire; by rewrite len_app, len_frame_head).
  assert (b' = w ++ dropZ (9 + len p) b) as Hb' by (unfold b', w, frame_wire; by rewrite <- app_assoc).
  assert (len b' = len b) as Hl by (rewrite Hb', len_app, len_dropZ by lia; lia).
  exists e', b'. split; [|exact Hm]. assert (w = takeZ (9 + len p) b' ++ []) as ->.
  { rewrite app_nil_r, Hb', <- Hw. symmetry. apply takeZ_app_len. }
  eapply drains_more; [exact He|lia|done|]. apply done_drains. by rewrite Hs.
Qed.

(** The encoder inside the payload of DATA: [o] bytes are out. *)
Definition in_data (f : Frame) (d : bytes) (o : Z) (e : FrameEncoder) : Prop :=
  fe_state e = EncodingDataPayload ∧ fe_current_frame e = Some f ∧ f_payload f = PData d ∧ fe_data_offset e = o ∧
  fe_remaining_payload_bytes e = len d - o ∧ 0 ≤ o ≤ len d ∧ len d ≤ fe_max_frame_size e.

Definition data_after (o r n : Z) (e : FrameEncoder) : FrameEncoder :=
  if r - n =? 0 then with_state DataComplete (with_data 0 (r - n) e)
  else with_state EncodingDataPayload (with_data (o + n) (r - n) e).

Lemma data_after_max o r n e : fe_max_frame_size (data_after o r n e) = fe_max_frame_size e.
Proof. unfold data_after. by destruct (_ =? _). Qed.

Lemma data_payload_part f d o e buf :
  in_data f d o e → let n := Z.min (len d - o) (len buf) in
  encode_data_payload buf e = (data_after o (len d - o) n e, Ok (takeZ n (dropZ o d) ++ dropZ n buf, n)).
Proof.
  intros (Hs & Hc & Hf & Ho & Hr & Hod & Hm) n. pose proof (len_nonneg buf).
  unfold encode_data_payload. rewrite bind_st, (try_retrieve f), Hf, bind_st by done. cbn [get_st].
  rewrite bind_st. unfold lift_res, encode_slice. rewrite Ho, Hr. unfold usize_sub.
  destruct (Z.leb_spec o (fe_max_frame_size e)); [|lia]. unfold mbind at 1, result_mbind, result_bind.
  rewrite (Z.min_r (fe_max_frame_size e - o)) by lia. fold n.
  destruct (Z.ltb_spec (len d) (o + n)); [lia|]. cbv iota beta.
  rewrite len_takeZ by (rewrite len_dropZ by lia; lia). rewrite bind_st. unfold put_st. cbn [mret ST_ret].
  unfold data_after. destruct (Z.eqb_spec (len d - o - n) 0); [done|].
  destruct (Z.eqb_spec (o + n) (fe_max_frame_size e)); [lia|]. done.
Qed.

(** A call of the encoder that writes payload behind [out]. *)
Lemma data_piece_call fuel out f d o e buf :
  in_data f d o e → len out < len buf →
  let n := Z.min (len d - o) (len buf - len out) in
  encode_loop (Datatypes.S (Datatypes.S fuel)) (len out) (out ++ dropZ (len out) buf) e =
    (data_after o (len d - o) n e, Ok ((out ++ takeZ n (dropZ o d)) ++ dropZ (len out + n) buf, len out + n)).
Proof.
  intros Hd Ho n. pose proof (len_nonneg out). pose proof Hd as (Hs & _ & _ & _ & _ & Hod & _).
  remember (Datatypes.S fuel) as fuel' eqn:Hfu. cbn [encode_loop]. rewrite bind_st. cbn [get_st].
  destruct (Z.leb_spec (len (out ++ dropZ (len out) buf)) (len out)) as [Hle|_]; [rewrite len_app, len_dropZ in Hle by lia; lia|].
  rewrite Hs. cbn [encode_state]. rewrite bind_st, dropZ_app_len, (data_payload_part f d o) by done.
  rewrite len_dropZ by lia. fold n. rewrite bind_st. cbn [get_st fst snd]. rewrite takeZ_app_len, dropZ_dropZ, app_assoc by lia.
  destruct (decide (fe_state (data_after o (len d - o) n e) = EncodingDataPayload)) as [_|Hne]; [done|].
  subst fuel'. apply encode_loop_stop. unfold data_after in *. by destruct (_ =? _).
Qed.

(** The rest of the payload, a buffer at a time. *)
Lemma data_rest_drains k f d o e b :
  (Z.to_nat (len d - o) <= k)%nat → in_data f d o e → 0 < len b →
  ∃ n e' b', drains n e b (dropZ o d) e' b' ∧ (n ≤ k + 2)%nat ∧ fe_max_frame_size e' = fe_max_frame_size e.
Proof.
  revert o e b. induction k as [k IH] using lt_wf_ind. intros o e b Hk Hd Hb. pose proof Hd as (_ & Hc & Hf & _ & _ & Hod & Hm).
  set (n := Z.min (len d - o) (len b)).
  assert (FrameEncoder_encode b e = (data_after o (len d - o) n e, Ok (takeZ n (dropZ o d) ++ dropZ n b, n))) as He.
  { unfold FrameEncoder_encode, encode_fuel. replace (2 * length b + 4)%nat with (Datatypes.S (Datatypes.S (2 * length b + 2))) by lia.
    pose proof (data_piece_call (2 * length b + 2) [] f d o e b Hd) as H. rewrite len_nil, dropZ_0, Z.sub_0_r in H. fold n in H.
    apply H. lia. }
  assert (len (takeZ n (dropZ o d)) = n) as Hn by (apply len_takeZ; rewrite len_dropZ by lia; lia).
  set (b1 := takeZ n (dropZ o d) ++ dropZ n b) in He.
  assert (len b1 = len b) as Hb1 by (subst b1; rewrite len_app, len_dropZ by lia; lia).
  assert (takeZ n b1 = takeZ n (dropZ o d)) as Ht by (subst b1; rewrite <- Hn at 1; apply takeZ_app_len).
  destruct (Z.eqb_spec (len d - o) 0) as [Hz|Hz].
  - assert (n = 0) as Hn0 by lia. rewrite Hn0 in He. exists 1%nat, (data_after o (len d - o) 0 e). eexists. split; [|split; [lia|apply data_after_max]].
    rewrite dropZ_all by lia. apply drains_end; [exact He|done].
  - destruct (Z.eqb_spec (len d - o - n) 0) as [Hend|Hmore].
    + exists 2%nat, (data_after o (len d - o) n e). eexists. split; [|split; [lia|apply data_after_max]].
      assert (dropZ o d = takeZ n b1 ++ []) as -> by (rewrite Ht, app_nil_r, takeZ_all; [done|rewrite len_dropZ; lia]).
      eapply drains_more; [exact He|lia|done|]. apply done_drains. unfold data_after. by rewrite Hend.
    + assert (in_data f d (o + n) (data_after o (len d - o) n e)) as Hd1.
      { unfold data_after. destruct (Z.eqb_spec (len d - o - n) 0); [lia|]. unfold in_data. cbn. split_and!; try done; lia. }
      destruct (IH (Z.to_nat (len d - (o + n))) ltac:(lia) (o + n) _ b1 ltac:(lia) Hd1 ltac:(lia)) as (n' & e' & b' & Hdr & Hn' & Hm').
      exists (Datatypes.S n'), e', b'. split; [|split; [lia|rewrite Hm'; apply data_after_max]].
      assert (dropZ o d = takeZ n b1 ++ dropZ (o + n) d) as -> by (rewrite Ht, <- dropZ_dropZ by lia; symmetry; apply takeZ_dropZ).
      eapply drains_more; [exact He|lia|done|done].
Qed.

(** DATA of any length that the frame size allows, over buffers with room for a
    header. *)
Lemma data_drains f d e b :
  f_payload f = PData d → len d ≤ fe_max_frame_size e → 9 < len b →
  ∃ n e' b', drains n (set_plain f e) b (frame_wire 0 (f_flags f) (f_id f) d) e' b' ∧
    (n ≤ Z.to_nat (len d) + 3)%nat ∧ fe_max_frame_size e' = fe_max_frame_size e.
Proof.
  intros Hf Hm Hb. pose proof (len_nonneg d). set (e0 := set_plain f e).
  set (e1 := with_state EncodingDataPayload (with_encoded 0 (with_encoded 9 e0))).
  assert (fe_remaining_payload_bytes e0 = len d ∧ fe_max_frame_size e0 = fe_max_frame_size e) as [Hr0 Hm0]
    by (subst e0; unfold set_plain; by rewrite Hf).
  set (h := frame_head 0 (f_flags f) (f_id f) (len d)). assert (len h = 9) as Hh by apply len_frame_head.
  assert (in_data f d 0 e1) as Hd.
  { subst e1 e0. unfold in_data, set_plain. rewrite Hf. cbn. split_and!; try done; lia. }
  set (n := Z.min (len d - 0) (len b - len h)).
  assert (FrameEncoder_encode b e0 = (data_after 0 (len d - 0) n e1, Ok ((h ++ takeZ n (dropZ 0 d)) ++ dropZ (len h + n) b, len h + n))) as He.
  { unfold FrameEncoder_encode, encode_fuel. replace (2 * length b + 4)%nat with (Datatypes.S (Datatypes.S (Datatypes.S (Datatypes.S (2 * length b))))) by lia.
    change (encode_loop ?k 0 b e0) with (encode_loop k (len (@nil Z)) ([] ++ dropZ (len (@nil Z)) b) e0).
    rewrite (encode_loop_write _ [] b e0 encode_data_header e1 h); [|rewrite len_nil; lia| | |].
    - cbn [app]. apply (data_piece_call (Datatypes.S (2 * length b)) h f d 0 e1 b Hd). lia.
    - subst e0. unfold set_plain. by rewrite Hf.
    - rewrite Hh. pose proof (data_header_turn f d (len d) (dropZ 0 b) e0 (set_plain_at_header f e) Hf Hr0) as Ht.
      cbv zeta in Ht. rewrite Hm0 in Ht. destruct (Z.leb_spec (len d) (fe_max_frame_size e)); [|lia]. rewrite Z.min_l in Ht by lia.
      apply Ht. rewrite dropZ_0. lia.
    - subst e0. unfold set_plain. by rewrite Hf. }
  rewrite dropZ_0 in He. assert (len (takeZ n d) = n) as Hn by (apply len_takeZ; lia).
  set (b1 := (h ++ takeZ n d) ++ dropZ (len h + n) b) in He.
  assert (len (h ++ takeZ n d) = len h + n) as Hhn by (rewrite len_app; lia).
  assert (len b1 = len b) as Hb1 by (subst b1; rewrite len_app, Hhn, len_dropZ by lia; lia).
  assert (takeZ (len h + n) b1 = h ++ takeZ n d) as Ht by (subst b1; rewrite <- Hhn at 1; apply takeZ_app_len).
  unfold frame_wire. fold h. destruct (Z.eqb_spec (len d - 0 - n) 0) as [Hend|Hmore].
  - exists 2%nat, (data_after 0 (len d - 0) n e1). eexists. split; [|split; [lia|rewrite data_after_max; exact Hm0]].
    assert (h ++ d = takeZ (len h + n) b1 ++ []) as -> by (rewrite Ht, app_nil_r, takeZ_all; [done|lia]).
    eapply drains_more; [exact He|lia|done|]. apply done_drains. unfold data_after. by rewrite Hend.
  - assert (in_data f d (0 + n) (data_after 0 (len d - 0) n e1)) as Hd1.
    { unfold data_after. destruct (Z.eqb_spec (len d - 0 - n) 0); [lia|]. unfold in_data in *. cbn. cbn in Hd. split_and!; try apply Hd; lia. }
    destruct (data_rest_drains (Z.to_nat (len d - n)) f d (0 + n) _ b1 ltac:(lia) Hd1 ltac:(lia)) as (k & e' & b' & Hdr & Hk & Hm').
    exists (Datatypes.S k), e', b'. split; [|split; [lia|rewrite Hm', data_after_max; exact Hm0]].
    assert (h ++ d = takeZ (len h + n) b1 ++ dropZ (0 + n) d) as ->.
    { rewrite Ht, <- app_assoc, Z.add_0_l. f_equal. symmetry. apply takeZ_dropZ. }
    eapply drains_more; [exact He|lia|done|done].
Qed.

(** ** What the input task writes *)

(** A frame that the task encodes as it is, in any number of buffers for DATA and
    in one buffer otherwise. *)
Definition one_task_frame (max_frame_size : Z) (f : Frame) : Prop :=
  sendable f ∧ len (payload_wire (f_payload f)) ≤ max_frame_size ∧
  match f_payload f with
  | PData _ => True
  | PSettings _ => is_ack (f_flags f) = false ∧ 9 + len (payload_wire (f_payload f)) < 1024
  | _ => 9 + len (payload_wire (f_payload f)) < 1024
  end.

Definition wire_of (f : Frame) : bytes :=
  frame_wire (frame_type_code (frame_type (f_payload f))) (f_flags f) (f_id f) (payload_wire (f_payload f)).

Lemma one_frame_updates m f e : one_task_frame m f → ∃ state, input_update_settings f e = (e, state) ∧ outgoing f state = f.
Proof.
  intros (_ & _ & Hp). unfold input_update_settings. destruct (f_payload f); try by eexists.
  destruct Hp as [-> _]. by eexists.
Qed.

Lemma one_frame_drains f e b :
  one_task_frame (fe_max_frame_size e) f → len b = 1024 →
  ∃ n e' b', drains n (set_plain f e) b (wire_of f) e' b' ∧ (n ≤ Z.to_nat (len (payload_wire (f_payload f))) + 3)%nat ∧
    fe_max_frame_size e' = fe_max_frame_size e.
Proof.
  intros (Hs & Hm & Hp) Hb. unfold wire_of. destruct (f_payload f) as [p|d|x dep w|c|d|l|c i d|i|pid p] eqn:Ef.
  2: { destruct (data_drains f d e b Ef Hm ltac:(lia)) as (n & e' & b' & H & Hn). by exists n, e', b'. }
  all: pose proof Hs as (_ & _ & Hid); rewrite Ef in Hid; try done.
  all: destruct (plain_drains f e b) as (e' & b' & H & Hme);
    [by apply sendable_plain; [|rewrite Ef]|rewrite Ef; first [rewrite Hb; exact Hp|rewrite Hb; exact (proj2 Hp)]|];
    exists 2%nat, e', b'; (split; [|split; [lia|exact Hme]]); rewrite Ef in H; try exact H; destruct Hid as [Hid _]; rewrite Hid in *; exact H.
Qed.

Section written.
Context {S : Type} `{!FrameWriter S, !WriterLaws S} (hash_order : Headers → list (bytes * HeaderValue)).

(** Polls that find nothing more to do, or no room. *)
Inductive input_polls (turns writes : nat) (s : SendData S) : SendData S → Prop :=
  | input_polls_refl : input_polls turns writes s s
  | input_polls_step s1 s2 : input_polls turns writes s s1 → input_poll hash_order turns writes s1 = (s2, Ok Pending) →
      input_polls turns writes s s2.

Lemma input_turns_enough (s : SendData S) : (input_turns s ≤ 2 + 2 * length (rx_queue (sd_rx s)))%nat.
Proof. unfold input_turns. destruct (sd_state s); lia. Qed.

Lemma input_poll_spec turns writes out s :
  buf_ok (sd_buf s) → owes hash_order turns s out → (1024 < writes)%nat →
  let '(s', r) := input_poll hash_order turns writes s in
  match r with
  | Ok (Ready _) => False
  | Ok Pending => buf_ok (sd_buf s') ∧ ∃ out', owes hash_order turns s' out' ∧
      written s' ++ unwritten (sd_buf s') ++ out' = written s ++ unwritten (sd_buf s) ++ out
  | Err _ => True
  | Panic => False
  end.
Proof.
  intros Hok Ho Hw. unfold input_poll. rewrite bind_st. cbn [get_st].
  apply (input_loop_spec hash_order _ turns writes out s Hok Ho); [apply input_turns_enough|done].
Qed.

Lemma input_polls_spec turns writes out s s' :
  buf_ok (sd_buf s) → owes hash_order turns s out → (1024 < writes)%nat → input_polls turns writes s s' →
  buf_ok (sd_buf s') ∧ ∃ out', owes hash_order turns s' out' ∧
    written s' ++ unwritten (sd_buf s') ++ out' = written s ++ unwritten (sd_buf s) ++ out.
Proof.
  intros Hok Ho Hw. induction 1 as [|s1 s2 _ (Hok1 & out1 & Ho1 & Hwr1) Hp]; [by split; [|exists out]|].
  pose proof (input_poll_spec turns writes out1 s1 Hok1 Ho1 Hw) as Hs. rewrite Hp in Hs.
  destruct Hs as (Hok2 & out2 & Ho2 & Hwr2). split; [done|]. exists out2. by rewrite Hwr2, Hwr1.
Qed.

(** The task between two frames, with frames to take. *)
Definition fresh_task (fs : list Frame) (s : SendData S) : Prop :=
  sd_state s = RecvFrame ∧ buf_ok (sd_buf s) ∧ wb_empty (sd_buf s) = true ∧ rx_queue (sd_rx s) = fs.

(** Calls of the encoder that are enough for a frame. *)
Definition enough_turns (turns : nat) (f : Frame) : Prop :=
  (Z.to_nat (len (payload_wire (f_payload f))) + 3 ≤ turns)%nat.

Lemma drains_len n e b out e' b' : drains n e b out e' b' → len b' = len b.
Proof. induction 1; congruence. Qed.

Lemma frames_send turns fs e b :
  Forall (one_task_frame (fe_max_frame_size e)) fs → Forall (enough_turns turns) fs → len b = 1024 →
  sends hash_order turns e b fs (concat (map wire_of fs)).
Proof.
  intros Hf Ht. revert e b Hf. induction Ht as [|f fs Htf Ht IH]; intros e b Hf Hb; cbn [map concat]; [constructor|].
  apply Forall_cons in Hf. destruct Hf as [Hf Hfs]. destruct (one_frame_updates _ f e Hf) as (state & Hu & Ho).
  destruct (one_frame_drains f e b Hf Hb) as (n & e' & b' & Hd & Hn & Hm).
  eapply sends_cons; [exact Hu| |exact Hd|unfold enough_turns in Htf; lia|].
  - rewrite Ho. apply set_frame_plain. destruct Hf as (Hs & Hl & _). by apply sendable_plain.
  - apply IH; [by rewrite Hm|]. by rewrite (drains_len _ _ _ _ _ _ Hd).
Qed.

Lemma fresh_owes fs (s : SendData S) turns :
  fresh_task fs s → Forall (one_task_frame (fe_max_frame_size (sd_encoder s))) fs → Forall (enough_turns turns) fs →
  owes hash_order turns s (concat (map wire_of fs)).
Proof. intros (Hst & [Hb _] & He & Hq) Hf Ht. unfold owes. rewrite Hst, Hq. split; [done|]. by apply frames_send. Qed.

Lemma wire_of_bytes f : sendable f → Forall is_byte (wire_of f).
Proof.
  intros Hs. unfold wire_of, frame_wire, frame_head. apply Forall_app. split; [|by apply payload_wire_bytes].
  apply Forall_app. split; [apply be_bytes_byte|]. apply Forall_app. split; [|apply be_bytes_byte].
  repeat apply Forall_cons_2; [apply frame_type_byte|apply Hs|constructor].
Qed.

(** A decoder reads the frames, one after the other. *)
Lemma frames_decode m fs d :
  Forall (one_task_frame m) fs → Forall (λ f, len (payload_wire (f_payload f)) ≤ fd_max_frame_size d) fs → fd_max_frame_size d < 2 ^ 24 →
  idle d → fd_continuations d = Continuations_new →
  ∃ d', FrameDecoder_decode (concat (map wire_of fs)) d = (d', Ok (map Complete fs)).
Proof.
  intros Hf. revert d. induction Hf as [|f fs (Hs & _) Hfs IH]; intros d Hl Hm Hi Hc; cbn [map concat].
  - exists d. by apply decode_nothing.
  - apply Forall_cons in Hl. destruct Hl as [Hl Hls].
    destruct (sendable_decodes_more f (concat (map wire_of fs)) d) as (d1 & Hd & Hi1 & Hc1 & _ & Hm1); try done.
    { apply Forall_concat, Forall_map. rewrite Forall_forall in *. intros g Hg. apply wire_of_bytes. by apply Hfs. }
    destruct (IH d1) as (d' & Hd'); [by rewrite Hm1|by rewrite Hm1|done..|]. exists d'. unfold wire_of at 1.
    rewrite Hd, bind_st, Hd'. done.
Qed.

(** C25: Frames without field blocks (no HEADERS and no PUSH_PROMISE), unpadded and
    in the form RFC 9113 allows, DATA of any length within the frame sizes and other
    frames short enough for the buffer of 1024 bytes, no SETTINGS acknowledgement
    among them, taken by the input task of an HTTP/2 connection between two frames,
    are written as the bytes a frame decoder reads as these frames, each byte once
    and in order, however little the transport takes; once the task has nothing to
    take, all are written; a poll does not panic and ends only with an error. *)
Theorem input_frames_delivered (turns writes : nat) (fs : list Frame) (s s1 : SendData S) (d : FrameDecoder) :
  fresh_task fs s → Forall (one_task_frame (fe_max_frame_size (sd_encoder s))) fs → Forall (enough_turns turns) fs → (1024 < writes)%nat →
  idle d → fd_continuations d = Continuations_new → fd_max_frame_size d < 2 ^ 24 →
  Forall (λ f, len (payload_wire (f_payload f)) ≤ fd_max_frame_size d) fs →
  input_polls turns writes s s1 →
  let '(s', r) := input_poll hash_order turns writes s1 in
  let bytes_of := concat (map wire_of fs) in
  match r with
  | Ok (Ready _) => False
  | Ok Pending => (∃ rest, written s' ++ rest = written s ++ bytes_of) ∧
      (sd_state s' = RecvFrame → rx_queue (sd_rx s') = [] → written s' = written s ++ bytes_of)
  | Err _ => True
  | Panic => False
  end ∧ ∃ d', FrameDecoder_decode bytes_of d = (d', Ok (map Complete fs)).
Proof.
  intros Hs Hf Ht Hw Hi Hc Hm Hl Hp. pose proof (fresh_owes fs s turns Hs Hf Ht) as Ho. pose proof Hs as (_ & Hok & He & _).
  assert (unwritten (sd_buf s) = []) as Hu by (unfold unwritten; by rewrite He).
  destruct (input_polls_spec turns writes _ s s1 Hok Ho Hw Hp) as (Hok1 & out1 & Ho1 & Hwr1).
  pose proof (input_poll_spec turns writes out1 s1 Hok1 Ho1 Hw) as H. destruct (input_poll hash_order turns writes s1) as [s' r].
  cbv zeta. split; [|by eapply frames_decode]. destruct r as [[[]|]|e|]; [done| |done..].
  destruct H as (_ & out' & Ho' & Hwr). rewrite Hwr1, Hu in Hwr. split.
  - by exists (unwritten (sd_buf s') ++ out').
  - intros Hst Hq. unfold owes in Ho'. rewrite Hst, Hq in Ho'. destruct Ho' as [He' Hs']. inversion Hs'; subst.
    unfold unwritten in Hwr. rewrite He', app_nil_r in Hwr. exact Hwr.
Qed.
End written.

(** *** A transport that takes three bytes at a time and makes the task wait every other time *)

#[local] Instance slow_writer : FrameWriter (bytes * bool) := λ l w,
  if w.2 then ((w.1, false), Ok Pending) else ((w.1 ++ takeZ (Z.min 3 (len l)) l, true), Ok (Ready (Z.min 3 (len l)))).

Lemma slow_write_law l w :
  match slow_writer l w with
  | (w', Ok (Ready n)) => 0 ≤ n ≤ len l ∧ (0 < len l → 0 < n) ∧ w'.1 = w.1 ++ takeZ n l
  | (w', Ok Pending) => w'.1 = w.1
  | (_, Err _) => True
  | (_, Panic) => False
  end.
Proof. destruct w as [w []]; cbn; [done|]. pose proof (len_nonneg l). split; [lia|]. split; [lia|done]. Qed.

#[local] Instance slow_laws : WriterLaws (bytes * bool) := { writer_written := fst; writer_write := slow_write_law }.

(** PING and DATA that needs two buffers. *)
Definition long_data : Frame := mkFrame 3 0x1 (PData (replicate (Z.to_nat 1100) 7)).
Definition task_frames : list Frame := [mkFrame 0 0 (PPing [1; 2; 3; 4; 5; 6; 7; 8]); long_data].
Definition slow_task : SendData (bytes * bool) :=
  SendData_new (FrameEncoder_new 16384 false) Synced ([], false) (mkReceiver task_frames false).
Definition no_order : Headers → list (bytes * HeaderValue) := λ _, [].
Definition slow_poll (s : SendData (bytes * bool)) : SendData (bytes * bool) := (input_poll no_order 2000 2000 s).1.

Lemma task_frames_ok : Forall (one_task_frame (fe_max_frame_size (sd_encoder slow_task))) task_frames.
Proof.
  repeat apply Forall_cons_2; [..|constructor]; (split; [split; [by vm_compute|split; [by vm_compute|]]|by vm_compute]).
  - split; [done|]. split; [done|]. by apply bytesb_ok.
  - split; [done|]. split; [done|]. by apply Forall_replicate.
Qed.

Lemma slow_task_fresh : fresh_task task_frames slow_task.
Proof. by split_and!. Qed.

(** Two polls: the task waits with three bytes written, and with six. *)
Example slow_polls :
  written (slow_poll slow_task) = takeZ 3 (concat (map wire_of task_frames)) ∧
  written (slow_poll (slow_poll slow_task)) = takeZ 6 (concat (map wire_of task_frames)).
Proof. vm_compute. done. Qed.

(** The polls that it takes to write the frames. *)
Example slow_polls_end :
  written (Nat.iter 377 slow_poll slow_task) = concat (map wire_of task_frames) ∧
  sd_state (Nat.iter 377 slow_poll slow_task) = RecvFrame.
Proof. vm_compute. done. Qed.

Lemma input_frames_delivered_witness :
  let s1 := slow_poll slow_task in
  let bytes_of := concat (map wire_of task_frames) in
  ∃ s' d', input_poll no_order (Z.to_nat 2000) (Z.to_nat 2000) s1 = (s', Ok Pending) ∧
    (∃ rest, written s' ++ rest = written slow_task ++ bytes_of) ∧
    FrameDecoder_decode bytes_of FrameDecoder_new = (d', Ok (map Complete task_frames)).
Proof.
  assert (input_poll no_order (Z.to_nat 2000) (Z.to_nat 2000) slow_task = (slow_poll slow_task, Ok Pending)) as Hp by (vm_compute; reflexivity).
  assert (input_polls no_order (Z.to_nat 2000) (Z.to_nat 2000) slow_task (slow_poll slow_task)) as Hps
    by (eapply input_polls_step; [apply input_polls_refl|exact Hp]).
  pose proof (input_frames_delivered no_order (Z.to_nat 2000) (Z.to_nat 2000) task_frames slow_task (slow_poll slow_task) FrameDecoder_new
    slow_task_fresh task_frames_ok ltac:(repeat apply Forall_cons_2; [..|constructor]; vm_compute; lia) ltac:(vm_compute; lia)
    ltac:(repeat split) eq_refl ltac:(vm_compute; reflexivity)
    ltac:(repeat apply Forall_cons_2; [..|constructor]; vm_compute; discriminate) Hps) as H.
  destruct (input_poll no_order (Z.to_nat 2000) (Z.to_nat 2000) (slow_poll slow_task)) as [s' r] eqn:E.
  assert (r = Ok Pending) as -> by (apply (f_equal snd) in E; vm_compute in E; by subst r).
  destruct H as ((H & _) & d' & Hd). exists s', d'. split; [exact E|]. split; [exact H|exact Hd].
Defined.
