(* ===== verification/H2OutputSpec.v ===== *)
(** * Properties of the output task of the HTTP/2 client

    What [H2Io.poll_read_frame] hands to the manager: a message for each frame of
    the bytes that were read, in the order of the bytes, whatever the sizes of the
    reads and wherever the channel is full. *)

From S2P Require Import Prelude H2Error Headers Parts H2Frame FrameDecoder H2Streams H2Manager Body H2Io.
#[local] Open Scope Z_scope.

(** ** What is said of the reads *)

(** What a read of the transport gave. *)
Inductive ReadEvent := Got (l : bytes) | Closed | Failed (kind : Z).

(** The messages for decoded frames, the decoder they leave, and what is found
    under the mutex of the settings afterwards. *)
#[local] Abbreviation LD := (FrameDecoder * Locks)%type.
Fixpoint frames_messages (frames : list FrameKind) (d : LD) : LD * list OutputMessage :=
  match frames with
  | [] => (d, [])
  | Partial :: frames => frames_messages frames d
  | Complete f :: frames =>
      let '(d, r) := output_update_settings f d in
      let '(d, ms) := frames_messages frames d in
      (d, match r with Err e => OutputExit (KindH2 e) | _ => Output f end :: ms)
  end.

Definition event_messages (event : ReadEvent) : ST LD Empty_set (list OutputMessage) := λ '(d, locks),
  match event with
  | Got l =>
      match FrameDecoder_decode l d with
      | (d, Ok frames) => let '(x, ms) := frames_messages frames (d, locks) in (x, Ok ms)
      | (d, Err e) => ((d, locks), Ok [OutputExit (KindH2 e)])
      | (d, Panic) => ((d, locks), Panic)
      end
  | Closed => ((d, locks), Ok [OutputExit KindDisconnect])
  | Failed kind => ((d, locks), Ok [OutputExit (KindIo kind)])
  end.

Fixpoint hear (events : list ReadEvent) : ST LD Empty_set (list OutputMessage) :=
  match events with
  | [] => mret []
  | event :: events => ms ← event_messages event; more ← hear events; mret (ms ++ more)
  end.

(** The events are reads of [i], of which [i'] is left. *)
Fixpoint took (events : list ReadEvent) (i i' : bytes) : Prop :=
  match events with
  | [] => i = i'
  | Got l :: events => ∃ rest, i = l ++ rest ∧ l ≠ [] ∧ took events rest i'
  | Closed :: events => i = [] ∧ took events i i'
  | Failed _ :: events => took events i i'
  end.

(** [incoming]: all that the transport will give.  [sunk]: what the channel took,
    ever; of a message that it refuses, for want of a receiver, nothing is said
    but that it is gone. *)
Class OutputLaws (S : Type) `{!AsyncRead Z S, !MessageSink S} := {
  incoming : S → bytes;
  sunk : S → list OutputMessage;
  output_read_law w :
    match poll_read (w, ReadBuf_new 1024) with
    | ((w', b), Ok (Ready _)) => sunk w' = sunk w ∧ incoming w = rb_filled b ++ incoming w' ∧ (rb_filled b = [] → incoming w = [])
    | ((w', _), Ok Pending) | ((w', _), Err _) => sunk w' = sunk w ∧ incoming w' = incoming w
    | (_, Panic) => False
    end;
  output_send_law m w :
    match poll_transmit m w with
    | (w', o) => incoming w' = incoming w ∧ sunk w' = sunk w ++ match o with SendBlocked => [] | _ => [m] end
    end }.

Lemma hear_app e1 e2 d :
  hear (e1 ++ e2) d = (m1 ← hear e1; m2 ← hear e2; mret (m1 ++ m2)) d.
Proof.
  revert d. induction e1 as [|e e1 IH]; intros d; cbn [hear app].
  - rewrite bind_st. cbn [mret ST_ret]. rewrite bind_st. by destruct (hear e2 d) as [? [| |]].
  - rewrite !bind_st. destruct (event_messages e d) as [d1 [m| |]]; try done.
    rewrite !bind_st, IH, bind_st. destruct (hear e1 d1) as [d2 [m1| |]]; try done.
    cbn [mret ST_ret]. rewrite !bind_st. destruct (hear e2 d2) as [d3 [m2| |]]; try done.
    cbn [mret ST_ret]. by rewrite app_assoc.
Qed.

Lemma took_app e1 e2 i1 i2 i3 : took e1 i1 i2 → took e2 i2 i3 → took (e1 ++ e2) i1 i3.
Proof.
  revert i1. induction e1 as [|[l| |k] e1 IH]; intros i1; cbn; [by intros ->| | |apply IH].
  - intros (rest & -> & Hl & H) H2. exists rest. split_and!; [done..|by apply IH].
  - intros [-> H] H2. split; [done|by apply IH].
Qed.

Lemma apply_settings_no_panic l d : (apply_decoder_settings l d).2 ≠ Panic.
Proof.
  revert d. induction l as [|x l IH]; intros d; cbn [apply_decoder_settings]; [done|]. rewrite bind_st.
  destruct x; cbn [mret ST_ret set_max_header_list_size modify_st]; try apply IH.
  unfold set_max_frame_size. by destruct (allowed_max_frame_size _); [apply IH|].
Qed.

Lemma update_settings_no_panic f (d : LD) : (output_update_settings f d).2 ≠ Panic.
Proof.
  unfold output_update_settings, update_decoder_settings, lock_settings. destruct (f_payload f); try done.
  destruct (is_ack _); [|done]. rewrite bind_st. destruct (d.2 O) as [l|]; [|done]. unfold zoom. cbn [fst].
  pose proof (apply_settings_no_panic l d.1) as H. by destruct (apply_decoder_settings l d.1).
Qed.

(** ** The task *)

Section output.
Context {S : Type} `{!AsyncRead Z S, !MessageSink S, !OutputLaws S}.

(** What the task has decoded and not yet handed over, and the decoder after it. *)
Definition pending_run (s : RecvData S) : LD * list OutputMessage :=
  let '(d, ms) := frames_messages (default [] (rd_pending_iter s)) (rd_locked s) in
  (d, option_list (rd_curr_message s) ++ ms).
Definition after_pending (s : RecvData S) : LD := (pending_run s).1.
Definition all_messages (s : RecvData S) : list OutputMessage := sunk (rd_io s) ++ (pending_run s).2.

Definition settled (s : RecvData S) : Prop :=
  rd_curr_message s = None ∧ rd_pending_iter s = None.

(** The invariant of the task: only the state that sends keeps messages, and the
    task ends with an error that it tells. *)
Definition output_ok (s : RecvData S) : Prop :=
  (rd_state s = DecodeSend ∨ settled s ∧ rd_next_state s = DecodeRead) ∧
  ∀ e, rd_state s = DecodeExit e ∨ rd_next_state s = DecodeExit e → OutputExit e ∈ all_messages s.

Definition same_input (s s' : RecvData S) : Prop :=
  incoming (rd_io s') = incoming (rd_io s).

(** From [s] to [s'] the task has heard [events]. *)
Definition heard (events : list ReadEvent) (s s' : RecvData S) : Prop :=
  took events (incoming (rd_io s)) (incoming (rd_io s')) ∧
  ∃ ms, hear events (after_pending s) = (after_pending s', Ok ms) ∧
    all_messages s' = all_messages s ++ ms.

Lemma heard_nil s s' :
  same_input s s' → after_pending s' = after_pending s → all_messages s' = all_messages s → heard [] s s'.
Proof.
  intros Hi Hd Hm. split; [cbn; done|]. exists []. rewrite Hd, Hm, app_nil_r. by split.
Qed.

Lemma heard_refl s : heard [] s s.
Proof. by apply heard_nil. Qed.

Lemma heard_trans e1 e2 s1 s2 s3 : heard e1 s1 s2 → heard e2 s2 s3 → heard (e1 ++ e2) s1 s3.
Proof.
  intros (Ht1 & m1 & Hh1 & Hm1) (Ht2 & m2 & Hh2 & Hm2).
  split; [by eapply took_app|]. exists (m1 ++ m2). rewrite hear_app, bind_st, Hh1, bind_st, Hh2.
  split; [done|]. by rewrite Hm2, Hm1, app_assoc.
Qed.

Lemma settled_run s : settled s → after_pending s = rd_locked s ∧ all_messages s = sunk (rd_io s).
Proof. intros [H1 H2]. unfold after_pending, all_messages, pending_run. rewrite H1, H2. cbn. by rewrite app_nil_r. Qed.

(** A message for the channel. *)
Lemma transmit_spec m (s : RecvData S) :
  let '(s', r) := transmit_message m s in
  same_input s s' ∧ rd_locked s' = rd_locked s ∧ rd_next_state s' = rd_next_state s ∧ rd_pending_iter s' = rd_pending_iter s ∧
  match r with
  | Ok (Ready _) => sunk (rd_io s') = sunk (rd_io s) ++ [m] ∧ rd_curr_message s' = rd_curr_message s ∧ rd_state s' = rd_state s
  | Ok Pending => sunk (rd_io s') = sunk (rd_io s) ∧ rd_curr_message s' = Some m ∧ rd_state s' = DecodeSend
  | Err e => e = KindChannelClosed ∧ sunk (rd_io s') = sunk (rd_io s) ++ [m] ∧ rd_curr_message s' = rd_curr_message s ∧ rd_state s' = rd_state s
  | Panic => False
  end.
Proof.
  unfold transmit_message. rewrite bind_st. unfold poll_send_message. pose proof (output_send_law m (rd_io s)) as H.
  destruct (poll_transmit m (rd_io s)) as [w []]; destruct H as [Hi Hs]; rewrite ?app_nil_r in Hs; by split_and!.
Qed.

(** The frames of a read, from a task that has nothing else to hand over. *)
Lemma iterator_spec iter (s : RecvData S) :
  settled s →
  let '(s', r) := poll_iterator_frames iter s in
  let '(d', ms) := frames_messages iter (rd_locked s) in
  same_input s s' ∧ rd_next_state s' = rd_next_state s ∧
  match r with
  | Ok (Ready _) => settled s' ∧ rd_state s' = rd_state s ∧ rd_locked s' = d' ∧ sunk (rd_io s') = sunk (rd_io s) ++ ms
  | Ok Pending => rd_state s' = DecodeSend ∧ after_pending s' = d' ∧ all_messages s' = sunk (rd_io s) ++ ms
  | Err e => e = KindChannelClosed
  | Panic => False
  end.
Proof.
  revert s. induction iter as [|[f|] iter IH]; intros s Hs; cbn [poll_iterator_frames frames_messages].
  - cbn. by rewrite app_nil_r.
  - rewrite bind_st. unfold attempt, zoom. pose proof (update_settings_no_panic f (rd_locked s)) as Hnp.
    destruct (output_update_settings f (rd_locked s)) as [d1 r1]. cbn [snd] in Hnp.
    set (s1 := rd_set_locked d1 s). set (m := match r1 with Err e => OutputExit (KindH2 e) | _ => Output f end).
    assert (rd_locked s1 = d1) as E1 by (by destruct d1).
    assert ((match r1 with Ok a => (s1, Ok (inl a)) | Err e => (s1, Ok (inr e)) | Panic => (s1, Panic) end : RecvData S * result DispatchErrorKind (() + H2Error)) =
        (s1, Ok (match r1 with Err e => inr e | _ => inl () end))) as E by (by destruct r1 as [[]| |]).
    rewrite E, bind_st.
    assert (match (match r1 with Err e => inr e | _ => inl () end : () + H2Error) with inl _ => Output f | inr e => OutputExit (KindH2 e) end = m) as ->
      by (subst m; by destruct r1).
    pose proof (transmit_spec m s1) as H. destruct (transmit_message m s1) as [s2 [[[]|]|e|]];
      destruct H as (H2 & H3 & H4 & H5 & H); rewrite E1 in H3; [| |by destruct (frames_messages _ d1); split_and!; [..|apply H]|done].
    + destruct H as (H6 & H7 & H8). specialize (IH s2). rewrite H3 in IH.
      destruct (poll_iterator_frames iter s2) as [s3 r3]. destruct (frames_messages iter d1) as [d3 ms].
      destruct IH as (I2 & I3 & I4); [split; [by rewrite H7; apply Hs|by rewrite H5; apply Hs]|].
      change (rd_io s1) with (rd_io s) in *. unfold same_input in *. rewrite I2, I3, H2, H4. split; [done|]. split; [done|].
      rewrite H6, <- app_assoc, H8 in I4. exact I4.
    + destruct H as (H6 & H7 & H8). rewrite bind_st. cbn [modify_st]. set (s3 := rd_set_iter (Some iter) s2).
      assert (rd_locked s3 = d1) as E2 by exact H3.
      destruct (frames_messages iter d1) as [d3 ms] eqn:Em. unfold after_pending, all_messages, pending_run.
      cbn [mret ST_ret]. rewrite E2. change (default [] (rd_pending_iter s3)) with iter. change (rd_curr_message s3) with (rd_curr_message s2). rewrite Em, H7.
      split; [exact H2|]. split; [done|]. split; [done|]. split; [done|]. change (rd_io s3) with (rd_io s2). by rewrite H6.
  - apply IH, Hs.
Qed.

(** A step that hears nothing: it hands over what was pending, or keeps it. *)
Definition hands_over (s s' : RecvData S) (r : result DispatchErrorKind (Poll ())) : Prop :=
  match r with
  | Ok (Ready _) => heard [] s s' ∧ settled s' ∧ rd_state s' = rd_state s ∧ rd_next_state s' = rd_next_state s
  | Ok Pending => heard [] s s' ∧ rd_state s' = DecodeSend ∧ rd_next_state s' = rd_next_state s
  | Err e => e = KindChannelClosed
  | Panic => False
  end.

Lemma pending_iter_spec (s : RecvData S) :
  rd_curr_message s = None → let '(s', r) := poll_pending_iter s in hands_over s s' r.
Proof.
  intros Hc. unfold poll_pending_iter. rewrite bind_st. cbn [get_st].
  destruct (rd_pending_iter s) as [iter|] eqn:Hi; [|by split; [apply heard_refl|]].
  rewrite bind_st. cbn [modify_st]. set (s1 := rd_set_iter None s).
  pose proof (iterator_spec iter s1) as H. destruct (poll_iterator_frames iter s1) as [s2 r].
  destruct (frames_messages iter (rd_locked s1)) as [d ms] eqn:Em.
  assert (pending_run s = (d, ms)) as Hr by (unfold pending_run; rewrite Hi, Hc; change ((let '(x, y) := frames_messages iter (rd_locked s1) in (x, y)) = (d, ms)); by rewrite Em).
  destruct H as (Hin & Hn & H); [by split|].
  assert (after_pending s = d ∧ all_messages s = sunk (rd_io s1) ++ ms) as [Ed Ea]
    by (unfold after_pending, all_messages; by rewrite Hr).
  destruct r as [[[]|]|e|]; [| |done|done].
  - destruct H as (Hs & Hst & Hd & Hm). destruct (settled_run s2 Hs) as [E1 E2].
    split; [apply heard_nil; [done|congruence|congruence]|done].
  - destruct H as (Hst & Hd & Hm). split; [apply heard_nil; [done|congruence|congruence]|done].
Qed.

Lemma blocked_task_spec (s : RecvData S) :
  rd_state s = DecodeSend → let '(s', r) := poll_blocked_task s in hands_over s s' r.
Proof.
  intros Hst. unfold poll_blocked_task. rewrite bind_st. cbn [get_st].
  destruct (rd_curr_message s) as [m|] eqn:Hc; [|by apply pending_iter_spec].
  rewrite bind_st. cbn [modify_st]. set (s1 := rd_set_curr None s). rewrite bind_st. unfold poll_send_message.
  pose proof (output_send_law m (rd_io s1)) as Hl. destruct (poll_transmit m (rd_io s1)) as [w o]. destruct Hl as [Hi Hl].
  change (rd_io s1) with (rd_io s) in *.
  assert (∀ s2 : RecvData S, rd_locked s2 = rd_locked s → rd_pending_iter s2 = rd_pending_iter s →
    rd_io s2 = w → sunk w ++ option_list (rd_curr_message s2) = sunk (rd_io s) ++ [m] → heard [] s s2) as Hh.
  { intros s2 E1 E3 E4 E5. apply heard_nil; [unfold same_input; by rewrite E4|..].
    - unfold after_pending, pending_run. rewrite E1, E3. by destruct (frames_messages _ _).
    - unfold all_messages, pending_run. rewrite E1, E3, E4, Hc. destruct (frames_messages _ _) as [d ms]. cbn [snd].
      by rewrite !app_assoc, E5. }
  destruct o; [|done|].
  - set (s2 := rd_set_io w s1). pose proof (pending_iter_spec s2 eq_refl) as H.
    assert (heard [] s s2) as H2 by (apply Hh; try done; cbn; by rewrite app_nil_r).
    destruct (poll_pending_iter s2) as [s3 r]. unfold hands_over in *.
    destruct r as [[[]|]|e|]; [| |done|done]; destruct H as [H1 H]; (split; [|exact H]); exact (heard_trans [] [] s s2 s3 H2 H1).
  - split; [|by split]. apply Hh; try done. cbn. by rewrite Hl, app_nil_r.
Qed.

Lemma heard_one event (s s' : RecvData S) ms :
  settled s → took [event] (incoming (rd_io s)) (incoming (rd_io s')) →
  event_messages event (rd_locked s) = (after_pending s', Ok ms) →
  all_messages s' = sunk (rd_io s) ++ ms → heard [event] s s'.
Proof.
  intros Hs Ht He Hm. destruct (settled_run s Hs) as [E1 E2]. split; [done|]. exists ms.
  cbn [hear]. rewrite bind_st, E1, He, bind_st. cbn [mret ST_ret]. by rewrite app_nil_r, E2.
Qed.

Lemma heard_tells events (s s' : RecvData S) m : heard events s s' → m ∈ all_messages s → m ∈ all_messages s'.
Proof. intros (_ & ms & _ & ->). rewrite elem_of_app. by left. Qed.

(** [s1] is [s] after a read of [l]. *)
Definition after_read (l : bytes) (s s1 : RecvData S) : Prop :=
  settled s1 ∧ rd_state s1 = DecodeRead ∧ rd_next_state s1 = DecodeRead ∧ rd_locked s1 = rd_locked s ∧
  sunk (rd_io s1) = sunk (rd_io s) ∧ incoming (rd_io s) = l ++ incoming (rd_io s1).

Lemma heard_read l s s1 s' ms :
  settled s → l ≠ [] → after_read l s s1 → same_input s1 s' →
  event_messages (Got l) (rd_locked s) = (after_pending s', Ok ms) →
  all_messages s' = sunk (rd_io s) ++ ms → heard [Got l] s s'.
Proof.
  intros Hs Hl (_ & _ & _ & _ & _ & Ei) H2 He Hm. apply (heard_one _ _ _ ms Hs); [|done..].
  exists (incoming (rd_io s1)). split_and!; [done..|]. cbn. by rewrite H2.
Qed.

(** Neither state is that of the end. *)
Lemma not_ended (s : RecvData S) :
  rd_state s = DecodeSend ∨ settled s ∧ rd_state s = DecodeRead → rd_next_state s = DecodeRead → output_ok s.
Proof. intros Hs Hn. split; [destruct Hs as [|[]]; by auto|]. rewrite Hn. destruct Hs as [->|[_ ->]]; by intros e [?|?]. Qed.

Lemma read_frames_spec l frames d (s s1 : RecvData S) :
  settled s → l ≠ [] → after_read l s s1 → FrameDecoder_decode l (rd_decoder s) = (d, Ok frames) →
  let '(s', r) := poll_iterator_frames frames (rd_set_decoder d s1) in
  match r with
  | Ok (Ready _) => output_ok s' ∧ heard [Got l] s s'
  | Ok Pending => let s2 := rd_set_states (rd_state s') DecodeRead s' in output_ok s2 ∧ heard [Got l] s s2
  | Err e => e = KindChannelClosed
  | Panic => False
  end.
Proof.
  intros Hs Hl Hr Hd. pose proof Hr as (Hs1 & Hst & Hnx & Ed & Em & Ei).
  assert (rd_locked (rd_set_decoder d s1) = (d, rd_settings s)) as Es by (pose proof (f_equal snd Ed) as H; unfold rd_locked in *; cbn in *; by rewrite H).
  pose proof (iterator_spec frames (rd_set_decoder d s1) Hs1) as H.
  destruct (poll_iterator_frames frames (rd_set_decoder d s1)) as [s3 r]. rewrite Es in H.
  change (rd_io (rd_set_decoder d s1)) with (rd_io s1) in H. rewrite Em in H. destruct (frames_messages frames (d, rd_settings s)) as [d' ms] eqn:Ef. destruct H as (I1 & I3 & H).
  assert (∀ s4, same_input s1 s4 → after_pending s4 = d' → all_messages s4 = sunk (rd_io s) ++ ms → heard [Got l] s s4) as Hh.
  { intros s4 F1 F3 F4. apply (heard_read _ _ s1 _ ms); try done. cbn [event_messages rd_locked]. by rewrite Hd, Ef, F3. }
  destruct r as [[[]|]|e|]; [| |done|done].
  - destruct H as (Hs3 & H1 & H2 & H3). destruct (settled_run s3 Hs3) as [G1 G2].
    split; [|apply Hh; [exact I1|congruence..]]. apply not_ended; [right; split; [done|]|]; [rewrite H1; exact Hst|rewrite I3; exact Hnx].
  - destruct H as (H1 & H2 & H3). split; [|by apply Hh]. apply not_ended; [by left|done].
Qed.

Lemma read_error_spec l e d (s s1 : RecvData S) :
  settled s → l ≠ [] → after_read l s s1 → FrameDecoder_decode l (rd_decoder s) = (d, Err e) →
  let '(s', r) := transmit_message (OutputExit (KindH2 e)) (rd_set_decoder d s1) in
  match r with
  | Ok (Ready _) => output_ok s' ∧ heard [Got l] s s'
  | Ok Pending => let s2 := rd_set_states (rd_state s') DecodeRead s' in output_ok s2 ∧ heard [Got l] s s2
  | Err e => e = KindChannelClosed
  | Panic => False
  end.
Proof.
  intros Hs Hl Hr Hd. pose proof Hr as ([Hc Hp] & Hst & Hnx & Ed & Em & Ei). set (m := OutputExit (KindH2 e)).
  pose proof (transmit_spec m (rd_set_decoder d s1)) as H. destruct (transmit_message m (rd_set_decoder d s1)) as [s3 r].
  assert (rd_locked (rd_set_decoder d s1) = (d, rd_settings s)) as Es by (pose proof (f_equal snd Ed) as H0; unfold rd_locked in *; cbn in *; by rewrite H0).
  rewrite Es in H. cbn [rd_set_decoder rd_io rd_curr_message rd_pending_iter rd_state rd_next_state] in H. rewrite Em in H.
  destruct H as (I1 & H3 & H4 & H5 & H). rewrite Hp in H5.
  assert (∀ s4, same_input s1 s4 → after_pending s4 = (d, rd_settings s) → all_messages s4 = sunk (rd_io s) ++ [m] → heard [Got l] s s4) as Hh.
  { intros s4 F1 F3 F4. apply (heard_read _ _ s1 _ [m]); try done. cbn [event_messages rd_locked]. by rewrite Hd, F3. }
  destruct r as [[[]|]|x|]; [| |by destruct H|done]; destruct H as (F1 & F2 & F3).
  - assert (settled s3) as Hs3 by (split; congruence). destruct (settled_run s3 Hs3) as [G1 G2].
    split; [|apply Hh; [exact I1|congruence..]]. apply not_ended; [right; split; [done|congruence]|congruence].
  - split; [apply not_ended; [by left|done]|].
    apply Hh; [exact I1|..]; unfold after_pending, all_messages, pending_run; cbn; rewrite H5; cbn; [exact H3|by rewrite F1, F2].
Qed.

Lemma decode_read_spec l (s s1 : RecvData S) :
  settled s → l ≠ [] → after_read l s s1 →
  let '(s', r) := decode_read l s1 in
  match r with
  | Ok p => output_ok s' ∧ heard [Got l] s s'
  | Err e => e = KindChannelClosed
  | Panic => (hear [Got l] (after_pending s)).2 = Panic
  end.
Proof.
  intros Hs Hl Hr. unfold decode_read. rewrite bind_st. unfold attempt, on_decoder, zoom.
  assert (rd_decoder s1 = rd_decoder s) as -> by (destruct Hr as (_ & _ & _ & Ed & _); exact (f_equal fst Ed)). destruct (settled_run s Hs) as [E1 _].
  destruct (FrameDecoder_decode l (rd_decoder s)) as [d [frames|e|]] eqn:Hd; rewrite ?bind_st.
  - pose proof (read_frames_spec l frames d s s1 Hs Hl Hr Hd) as H.
    by destruct (poll_iterator_frames frames (rd_set_decoder d s1)) as [s3 [[[]|]|x|]].
  - pose proof (read_error_spec l e d s s1 Hs Hl Hr Hd) as H.
    by destruct (transmit_message (OutputExit (KindH2 e)) (rd_set_decoder d s1)) as [s3 [[[]|]|x|]].
  - cbn [hear]. rewrite bind_st, E1. cbn [event_messages rd_locked]. by rewrite Hd.
Qed.

(** The task ends with [e]: the manager is told, or gone. *)
Definition ends_told (s s' : RecvData S) (e : DispatchErrorKind) : Prop :=
  e = KindChannelClosed ∨ ∃ events, heard events s s' ∧ OutputExit e ∈ sunk (rd_io s').

Lemma run_of_message m (s s' : RecvData S) :
  rd_locked s' = rd_locked s → rd_pending_iter s' = None → rd_curr_message s' = Some m →
  after_pending s' = rd_locked s ∧ all_messages s' = sunk (rd_io s') ++ [m].
Proof. intros H1 H2 H3. unfold after_pending, all_messages, pending_run. rewrite H1, H2, H3. by cbn. Qed.

Lemma transmit_error_spec kind (s s1 : RecvData S) :
  settled s → after_read [] s s1 →
  let '(s', r) := transmit_error (KindIo kind) s1 in
  match r with
  | Ok (Ready _) => False
  | Ok Pending => output_ok s' ∧ heard [Failed kind] s s'
  | Err e => ends_told s s' e
  | Panic => False
  end.
Proof.
  intros Hs ([Hc Hp] & Hst & Hnx & Ed & Em & Ei). unfold transmit_error. rewrite bind_st. unfold attempt.
  set (m := OutputExit (KindIo kind)). pose proof (transmit_spec m s1) as H. destruct (transmit_message m s1) as [s2 r].
  destruct H as (H2 & H3 & H4 & H5 & H). unfold same_input in H2. rewrite Hp in H5. rewrite Em in H.
  assert (∀ s4, rd_io s4 = rd_io s2 → after_pending s4 = rd_locked s →
    all_messages s4 = sunk (rd_io s) ++ [m] → heard [Failed kind] s s4) as Hh.
  { intros s4 F2 F3 F4. apply (heard_one _ _ _ [m] Hs); [| |done].
    - cbn. by rewrite F2, H2, Ei.
    - cbn [event_messages rd_locked]. by rewrite F3. }
  assert (settled s2 → sunk (rd_io s2) = sunk (rd_io s) ++ [m] → ends_told s s2 (KindIo kind)) as Ht.
  { intros Hs2 Hk. destruct (settled_run s2 Hs2) as [G1 G2]. right. exists [Failed kind].
    split; [apply Hh; congruence|]. rewrite Hk. apply elem_of_app. right. by apply list_elem_of_singleton. }
  destruct r as [[[]|]|x|]; [| | |done].
  - destruct H as (F1 & F2 & F3). apply Ht; [split; congruence|done].
  - destruct H as (F1 & F2 & F3). rewrite bind_st. cbn [modify_st mret ST_ret].
    set (s3 := rd_set_states (rd_state s2) (DecodeExit (KindIo kind)) s2).
    destruct (run_of_message m s1 s3 H3 H5 F2) as [G1 G2]. change (rd_io s3) with (rd_io s2) in G2. rewrite F1 in G2.
    split; [|apply Hh; [done|congruence|done]]. split; [by left|]. intros e. cbn. rewrite F3. intros [|[= <-]]; [done|].
    rewrite G2. apply elem_of_app. right. by apply list_elem_of_singleton.
  - destruct H as (_ & F1 & F2 & F3). apply Ht; [split; congruence|done].
Qed.

(** The end of the input. *)
Lemma closed_spec (s s1 : RecvData S) :
  settled s → after_read [] s s1 → incoming (rd_io s) = [] →
  let '(s', r) := attempt (E' := DispatchErrorKind) (transmit_message (OutputExit KindDisconnect)) s1 in
  (∃ p, r = Ok p) ∧ let s2 := rd_set_states DecodeSend (rd_next_state s') s' in output_ok s2 ∧ heard [Closed] s s2.
Proof.
  intros Hs ([Hc Hp] & Hst & Hnx & Ed & Em & Ei) Hend. unfold attempt.
  set (m := OutputExit KindDisconnect). pose proof (transmit_spec m s1) as H. destruct (transmit_message m s1) as [s2 r].
  destruct H as (H2 & H3 & H4 & H5 & H). unfold same_input in H2. rewrite Hp in H5. rewrite Em in H. cbv zeta.
  set (s3 := rd_set_states DecodeSend (rd_next_state s2) s2).
  assert (output_ok s3) as Hok by (apply not_ended; [by left|cbn; congruence]).
  assert (after_pending s3 = rd_locked s → all_messages s3 = sunk (rd_io s) ++ [m] → heard [Closed] s s3) as Hh.
  { intros F3 F4. apply (heard_one _ _ _ [m] Hs); [| |done].
    - split; [done|]. cbn. by rewrite H2, Ei.
    - cbn [event_messages rd_locked]. by rewrite F3. }
  assert (settled s2 → sunk (rd_io s2) = sunk (rd_io s) ++ [m] → heard [Closed] s s3) as Ht.
  { intros Hs2 Hk. destruct (settled_run s3 Hs2) as [G1 G2]. apply Hh; [rewrite G1; change (rd_locked s3) with (rd_locked s2); congruence|rewrite G2; exact Hk]. }
  destruct r as [[[]|]|x|]; [| | |done]; (split; [by eexists|split; [done|]]).
  - destruct H as (F1 & F2 & F3). apply Ht; [split; congruence|done].
  - destruct H as (F1 & F2 & F3). destruct (run_of_message m s1 s3 H3 H5 F2) as [G1 G2].
    change (rd_io s3) with (rd_io s2) in G2. apply Hh; congruence.
  - destruct H as (_ & F1 & F2 & F3). apply Ht; [split; congruence|done].
Qed.

(** What a poll does. *)
Definition poll_outcome (s s' : RecvData S) (r : result DispatchErrorKind (Poll ())) : Prop :=
  match r with
  | Ok (Ready _) => False
  | Ok Pending => output_ok s' ∧ ∃ events, heard events s s'
  | Err e => ends_told s s' e
  | Panic => ∃ events rest, took events (incoming (rd_io s)) rest ∧ (hear events (after_pending s)).2 = Panic
  end.

Lemma outcome_after events (s s1 s2 : RecvData S) r :
  heard events s s1 → poll_outcome s1 s2 r → poll_outcome s s2 r.
Proof.
  intros H1. destruct r as [[[]|]|e|]; cbn; [done|..].
  - intros (Hok & e2 & H2). split; [done|]. eexists. by eapply heard_trans.
  - intros [->|(e2 & H2 & Hm)]; [by left|right]. eexists. split; [by eapply heard_trans|done].
  - intros (e2 & rest & Ht & Hp). destruct H1 as (Ht1 & ms & Hh & _). exists (events ++ e2), rest.
    split; [by eapply took_app|]. rewrite hear_app, bind_st, Hh, bind_st.
    by destruct (hear e2 (after_pending s1)) as [? [| |]].
Qed.

(** A read of the task. *)
Lemma read_bytes_spec (s : RecvData S) :
  settled s → rd_state s = DecodeRead → rd_next_state s = DecodeRead →
  let '(s1, r) := read_bytes s in
  match r with
  | Ok (Ready l) => after_read l s s1 ∧ (l = [] → incoming (rd_io s) = [])
  | Ok Pending | Err _ => after_read [] s s1
  | Panic => False
  end.
Proof.
  intros [Hc Hp] Hst Hnx. unfold read_bytes. pose proof (output_read_law (rd_io s)) as H.
  destruct (poll_read (rd_io s, ReadBuf_new 1024)) as [[w b] [[[]|]|k|]]; [| | |done].
  - destruct H as (H1 & H2 & H3). by split_and!.
  - destruct H as (H1 & H2). by split_and!.
  - destruct H as (H1 & H2). by split_and!.
Qed.

Lemma read_frame_spec turns (s : RecvData S) :
  output_ok s → let '(s', r) := poll_read_frame turns s in poll_outcome s s' r.
Proof.
  revert s. induction turns as [|turns IH]; intros s Hok; cbn [poll_read_frame]; [split; [done|exists []; apply heard_refl]|].
  rewrite bind_st. cbn [get_st]. destruct Hok as [Hset Htell]. destruct (rd_state s) as [| |e] eqn:Hst.
  - destruct Hset as [?|[Hs Hnx]]; [done|]. rewrite bind_st. unfold attempt at 1.
    pose proof (read_bytes_spec s Hs Hst Hnx) as Hr. destruct (read_bytes s) as [s1 [[l|]|k|]]; [| | |done].
    + destruct Hr as [Hr He]. destruct l as [|x l].
      * rewrite bind_st. pose proof (closed_spec s s1 Hs Hr (He eq_refl)) as H.
        destruct (attempt (transmit_message (OutputExit KindDisconnect)) s1) as [s2 r].
        destruct H as ([p ->] & Hok & Hh). rewrite bind_st. cbn [modify_st mret ST_ret]. split; [exact Hok|eexists; exact Hh].
      * rewrite bind_st. pose proof (decode_read_spec (x :: l) s s1 Hs ltac:(done) Hr) as H.
        destruct (decode_read (x :: l) s1) as [s2 [p|e|]]; [|by left|].
        -- destruct H as [Hok Hh]. specialize (IH s2 Hok). destruct p as [[]|]; [|split; [done|by eexists]].
           destruct (poll_read_frame turns s2) as [s3 r]. by eapply outcome_after.
        -- exists [Got (x :: l)], (incoming (rd_io s1)). split; [|exact H]. exists (incoming (rd_io s1)). split_and!; [apply Hr|done..].
    + cbn. split; [apply not_ended; [right; split; apply Hr|apply Hr]|]. exists []. destruct Hr as (Hs1 & _ & _ & E2 & E3 & E4).
      destruct (settled_run s Hs) as [G1 G2], (settled_run s1 Hs1) as [G3 G4]. apply heard_nil; [done|congruence..].
    + pose proof (transmit_error_spec k s s1 Hs Hr) as H. destruct (transmit_error (KindIo k) s1) as [s2 [[[]|]|e|]]; try done.
      destruct H. split; [done|by eexists].
  - rewrite bind_st. pose proof (blocked_task_spec s Hst) as H. destruct (poll_blocked_task s) as [s1 [[[]|]|e|]]; [| |by left|done].
    + destruct H as (Hh & Hs1 & Hst1 & Hnx1). rewrite bind_st. cbn [modify_st].
      set (s2 := rd_set_states (rd_next_state s1) DecodeRead s1).
      assert (heard [] s s2) as H2 by exact Hh.
      assert (output_ok s2) as Hok.
      { split; [by right|]. intros e [He|He]; [|done]. apply (heard_tells [] s s2 _ H2), Htell. right. cbn in He. congruence. }
      specialize (IH s2 Hok). destruct (poll_read_frame turns s2) as [s3 r]. by eapply outcome_after.
    + destruct H as (Hh & Hst1 & Hnx1). split; [|by eexists]. split; [by left|].
      intros e [He|He]; [congruence|]. apply (heard_tells [] s s1 _ Hh), Htell. right. congruence.
  - right. exists []. split; [apply heard_refl|]. destruct Hset as [?|[Hs _]]; [done|].
    destruct (settled_run s Hs) as [_ <-]. apply Htell. by left.
Qed.

(** Polls that have to wait. *)
Inductive output_polls (s : RecvData S) : RecvData S → Prop :=
  | output_polls_refl : output_polls s s
  | output_polls_step turns s1 s2 : output_polls s s1 → poll_read_frame turns s1 = (s2, Ok Pending) → output_polls s s2.

Lemma output_polls_spec (s s' : RecvData S) :
  output_ok s → output_polls s s' → output_ok s' ∧ ∃ events, heard events s s'.
Proof.
  intros Hok. induction 1 as [|turns s1 s2 _ (Hok1 & e1 & H1) Hp]; [split; [done|exists []; apply heard_refl]|].
  pose proof (read_frame_spec turns s1 Hok1) as H. rewrite Hp in H. destruct H as (Hok2 & e2 & H2).
  split; [done|]. eexists. by eapply heard_trans.
Qed.

(** C26: The output task, polled any number of times from its start, hands the
    manager the messages for the bytes it has read in their order, each once, over
    reads of any sizes and a channel that may be full, whatever the other tasks
    store under the mutex of the settings in the meantime, also between two frames
    of a poll: a frame of the decoder, or an exit for its error, for an
    acknowledgement the settings do not allow, for the end of the input or for a
    failed read. It ends only with an error it has told or a closed channel, and
    panics only where the decoder panics. *)
Theorem output_messages_in_order (turns : nat) (s s1 : RecvData S) :
  settled s → rd_state s = DecodeRead → rd_next_state s = DecodeRead → output_polls s s1 →
  let '(s', r) := poll_read_frame turns s1 in
  let all_heard := ∃ events ms, took events (incoming (rd_io s)) (incoming (rd_io s')) ∧
    hear events (rd_locked s) = (after_pending s', Ok ms) ∧
    sunk (rd_io s') ++ (pending_run s').2 = sunk (rd_io s) ++ ms in
  match r with
  | Ok (Ready _) => False
  | Ok Pending => all_heard
  | Err e => e = KindChannelClosed ∨ all_heard ∧ OutputExit e ∈ sunk (rd_io s')
  | Panic => ∃ events rest, took events (incoming (rd_io s)) rest ∧ (hear events (rd_locked s)).2 = Panic
  end.
Proof.
  intros Hs Hst Hnx Hp. assert (output_ok s) as Hok by (apply not_ended; [by right|done]).
  destruct (output_polls_spec s s1 Hok Hp) as (Hok1 & e1 & H1). destruct (settled_run s Hs) as [E1 E2].
  pose proof (read_frame_spec turns s1 Hok1) as H. destruct (poll_read_frame turns s1) as [s' r].
  pose proof (outcome_after _ _ _ _ _ H1 H) as Ho. cbv zeta.
  assert (∀ events, heard events s s' → ∃ events ms, took events (incoming (rd_io s)) (incoming (rd_io s')) ∧
    hear events (rd_locked s) = (after_pending s', Ok ms) ∧
    sunk (rd_io s') ++ (pending_run s').2 = sunk (rd_io s) ++ ms) as Hall.
  { intros events (Ht & ms & Hh & Hm). exists events, ms. rewrite <- E1, <- E2. by split_and!. }
  destruct r as [[[]|]|e|]; cbn in Ho; [done|..].
  - destruct Ho as (_ & events & Hh). by apply (Hall events).
  - destruct Ho as [->|(events & Hh & Hm)]; [by left|right]. split; [by apply (Hall events)|done].
  - by rewrite <- E1.
Qed.
End output.

(** ** A transport that gives five bytes at a time and a channel that is full every other time *)

Record SmallIo := mkSmallIo { si_data : bytes; si_sent : list OutputMessage; si_full : bool }.
#[local] Instance small_read : AsyncRead Z SmallIo := λ x,
  let '(w, b) := x in
  ((mkSmallIo (dropZ 5 (si_data w)) (si_sent w) (si_full w), rb_put (takeZ 5 (si_data w)) b), Ok (Ready ())).
#[local] Instance small_sink : MessageSink SmallIo := λ m w,
  if si_full w then (mkSmallIo (si_data w) (si_sent w) false, SendBlocked)
  else (mkSmallIo (si_data w) (si_sent w ++ [m]) true, SendReady).

Lemma small_read_law (w : SmallIo) :
  match small_read (w, ReadBuf_new 1024) with
  | ((w', b), Ok (Ready _)) => si_sent w' = si_sent w ∧ si_data w = rb_filled b ++ si_data w' ∧ (rb_filled b = [] → si_data w = [])
  | ((w', _), Ok Pending) | ((w', _), Err _) => si_sent w' = si_sent w ∧ si_data w' = si_data w
  | (_, Panic) => False
  end.
Proof.
  unfold small_read. cbn [rb_put ReadBuf_new rb_filled app si_sent si_data]. split; [done|]. split; [by rewrite takeZ_dropZ|].
  by destruct (si_data w).
Qed.

Lemma small_send_law m (w : SmallIo) :
  match small_sink m w with
  | (w', o) => si_data w' = si_data w ∧ si_sent w' = si_sent w ++ match o with SendBlocked => [] | _ => [m] end
  end.
Proof. unfold small_sink. destruct (si_full w); cbn; by rewrite ?app_nil_r. Qed.

#[local] Instance small_laws : OutputLaws SmallIo :=
  { incoming := si_data; sunk := si_sent; output_read_law := small_read_law; output_send_law := small_send_law }.

(** WINDOW_UPDATE and PING, and the end. *)
Definition small_task : RecvData SmallIo :=
  RecvData_new FrameDecoder_new (λ _, Synced)
    (mkSmallIo ([0; 0; 4; 8; 0; 0; 0; 0; 1; 0; 0; 0; 9] ++ [0; 0; 8; 6; 0; 0; 0; 0; 0; 1; 2; 3; 4; 5; 6; 7; 8]) [] false).
Definition small_poll (s : RecvData SmallIo) : RecvData SmallIo := (poll_read_frame (Z.to_nat 20) s).1.

Definition small_messages : list OutputMessage :=
  [Output (mkFrame 1 0 (PWindowUpdate 9)); Output (mkFrame 0 0 (PPing [1; 2; 3; 4; 5; 6; 7; 8])); OutputExit KindDisconnect].

Example small_polls :
  si_sent (rd_io (small_poll small_task)) = takeZ 2 small_messages ∧
  si_sent (rd_io (Nat.iter 2 small_poll small_task)) = small_messages.
Proof. vm_compute. done. Qed.

(** Two acknowledgements in one read: the input task stores the settings that were
    sent before the first, and another task takes them away before the second. *)
Example settings_change_in_a_poll :
  let ack := mkFrame 0 1 (PSettings []) in
  let locks : Locks := λ n, match n with O => Acknowledging [MaxFrameSize 20000] | _ => Synced end in
  let s := RecvData_new FrameDecoder_new locks (mkSmallIo ([0; 0; 0; 4; 1; 0; 0; 0; 0] ++ [0; 0; 0; 4; 1; 0; 0; 0; 0]) [] false) in
  let s' := Nat.iter 3 small_poll s in
  takeZ 2 (si_sent (rd_io s')) = [Output ack; OutputExit (KindH2 (ConnectionError ConnectError))] ∧
  fd_max_frame_size (rd_decoder s') = 20000.
Proof. vm_compute. done. Qed.

(** Polled again after the end of the input, the task tells the end again. *)
Example disconnect_again :
  si_sent (rd_io (Nat.iter 3 small_poll small_task)) = small_messages ++ [OutputExit KindDisconnect].
Proof. vm_compute. done. Qed.

(** A read that fails is told, and ends the task. *)
Definition broken_read : AsyncRead Z SmallIo := λ x, (x, Err 104).
Example broken_read_ends :
  let '(s', r) := poll_read_frame (AsyncRead0 := broken_read) 1 small_task in
  r = Err (KindIo 104) ∧ si_sent (rd_io s') = [OutputExit (KindIo 104)].
Proof. done. Qed.

Lemma output_messages_in_order_witness :
  let s1 := small_poll small_task in
  ∃ s' events ms, poll_read_frame (Z.to_nat 20) s1 = (s', Ok Pending) ∧
    took events (si_data (rd_io small_task)) (si_data (rd_io s')) ∧
    hear events (FrameDecoder_new, λ _, Synced) = (after_pending s', Ok ms) ∧ si_sent (rd_io s') ++ (pending_run s').2 = ms.
Proof.
  assert (poll_read_frame (Z.to_nat 20) small_task = (small_poll small_task, Ok Pending)) as Hp by (vm_compute; reflexivity).
  assert (output_polls small_task (small_poll small_task)) as Hps by (eapply output_polls_step; [apply output_polls_refl|exact Hp]).
  pose proof (output_messages_in_order (Z.to_nat 20) small_task (small_poll small_task) (conj eq_refl eq_refl) eq_refl eq_refl Hps) as H.
  destruct (poll_read_frame (Z.to_nat 20) (small_poll small_task)) as [s' r] eqn:E.
  assert (r = Ok Pending) as -> by (apply (f_equal snd) in E; vm_compute in E; by subst r).
  destruct H as (events & ms & Ht & Hh & Hm). exists s', events, ms. split; [exact E|]. split; [exact Ht|]. split; [exact Hh|exact Hm].
Defined.
