(* ===== verification/H2Conn.v ===== *)
(** * Requests over HTTP/2 connections

    Models [src/ylong_http_client/src/async_impl/conn/http2.rs], which turns a
    request into the frame that the connection manager sends, takes the head of the
    response from the channel of its stream, and reads the body of the response
    from there; the start of a connection and the handle of a request in
    [util/dispatcher.rs] ([Http2Dispatcher], [Http2Conn], [RespReceiver]); and the
    settings of [util/config/http.rs].

    The channel of a stream is a type [C], and the channel to the manager is a part
    of a type [W]; both are classes.  A call that is awaited is polled at most
    [patience] times before the task is dropped.  The interceptor is an argument,
    measurements of time are left out, and the tasks that a connection starts are
    [H2Io.input_poll], [H2Io.poll_read_frame] and [H2Manager.poll]. *)

From stdpp Require Import gmap.
From S2P Require Import Prelude H2Error Headers Parts H2Frame H2Window H2Streams H2FlowControl H2Manager Message Uri H1Decoder Normalizer Body ChunkTrailer HttpBody RateLimit Http1Conn.
#[local] Open Scope Z_scope.

(** ** The start of a connection *)

Record H2Config := mkH2Config {
  hc_max_frame_size : Z; hc_max_header_list_size : Z; hc_header_table_size : Z; hc_conn_window_size : Z; hc_stream_window_size : Z;
  hc_enable_push : bool; hc_allowed_cache_frame_size : Z; hc_use_huffman : bool }.
Definition H2Config_default : H2Config := mkH2Config (16 * 1024) (16 * 1024) 4096 (10 * 1024 * 1024) (2 * 1024 * 1024) false 5 true.

Definition create_initial_settings (c : H2Config) : Frame :=
  mkFrame 0 0 (PSettings (initial_window_size (hc_stream_window_size c) (enable_push (hc_enable_push c)
    (header_table_size (hc_header_table_size c) (max_frame_size (hc_max_frame_size c) (max_header_list_size (hc_max_header_list_size c) [])))))).

Definition DEFAULT_WINDOW_SIZE : Z := 65535.

(** [Http2Dispatcher::new], up to the start of the tasks: the controller, and the
    frames that go out first; [None] when no task is started. *)
Definition Http2Dispatcher_new (c : H2Config) : result DispatchErrorKind (option (StreamController * Sender)) :=
  let (flow, r) := setup_recv_window (E := DispatchErrorKind) (hc_conn_window_size c) (FlowControl_new DEFAULT_WINDOW_SIZE DEFAULT_WINDOW_SIZE) in
  _ ← r;
  let streams := Streams_new (hc_stream_window_size c) DEFAULT_WINDOW_SIZE flow in
  match (_ ← on_sender (sender_send (create_initial_settings c)); release_conn_recv_window 0) (streams, mkSender false []) with
  | ((streams, tx), Ok _) => Ok (Some (StreamController_new streams, tx))
  | (_, Err _) => Ok None
  | (_, Panic) => Panic
  end.

(** ** The request as a frame *)

Definition CONNECTION_SPECIFIC_HEADERS : list bytes := [bs "connection"; bs "keep-alive"; bs "proxy-connection"; bs "upgrade"; bs "transfer-encoding"].
Definition remove_header (name : bytes) (h : Headers) : Headers := (Headers_remove name h).1.

Definition remove_connection_specific_headers (h : Headers) : Headers :=
  let h := fold_left (λ h name, remove_header name h) CONNECTION_SPECIFIC_HEADERS h in
  match Headers_get h (bs "te") with
  | Some te => if bool_decide (HeaderValue_to_vec te = bs "trailers") then h else remove_header (bs "te") h
  | None => h
  end.

Definition build_pseudo_headers (r : Request) : Request * PseudoHeaders :=
  let pseudo := set_scheme (Some (match uri_scheme (rq_uri r) with Some scheme => Scheme_as_str scheme | None => bs "http" end)) PseudoHeaders_new in
  let pseudo := set_method (Some (Method_as_str (rq_method r))) pseudo in
  let pseudo := set_path (match path_and_query (rq_uri r) with Some path => Some path | None => Some (bs "/") end) pseudo in
  let (headers, host) := Headers_remove (bs "host") (rq_headers r) in
  (rq_set_headers headers r, set_authority (HeaderValue_to_vec <$> host) pseudo).

Definition UNUSED_FLAG : Z := 0.

Definition build_headers_payload (part : Request) (is_end : bool) : Z * Payload :=
  let part := rq_set_headers (remove_connection_specific_headers (rq_headers part)) part in
  let (part, pseudo) := build_pseudo_headers part in
  let flag := set_end_headers true UNUSED_FLAG in
  (if is_end then set_end_stream true flag else flag, PHeaders (mkParts pseudo (rq_headers part))).

(** ** The handle of a request *)

(** The receiving end of the channel of a stream: [None] when the channel is closed. *)
Class RespChannel (C : Type) := poll_resp : C → C * Poll (option RespMessage).

(** The runtime: a new channel with room for so many messages, whose sending end
    is a number, and the channel to the manager, which refuses a message when the manager
    is gone. *)
Class RequestWorld (W C : Type) := {
  open_channel : Z → W → W * (Z * C);
  send_request : ReqMessage → W → W * bool }.

(** [Http2Conn]. *)
Record Http2Conn (C : Type) := mkHttp2Conn { h2_allow_cached_frames : Z; h2_receiver : option C; h2_io_shutdown : bool }.
Arguments mkHttp2Conn {C} _ _ _.
Arguments h2_allow_cached_frames {C} _.
Arguments h2_receiver {C} _.
Arguments h2_io_shutdown {C} _.
Definition Http2Conn_new {C : Type} (allow : Z) (shutdown : bool) : Http2Conn C := mkHttp2Conn allow None shutdown.
Definition set_receiver {C : Type} (rx : C) (c : Http2Conn C) : Http2Conn C := mkHttp2Conn (h2_allow_cached_frames c) (Some rx) (h2_io_shutdown c).

(** The errors: of the channel, of the response, of the request. *)
Inductive RecvError := SenderClosed | ConnFailed (e : DispatchErrorKind) | NoReceiver.
Inductive H2Failure :=
  | H2Intercepted | RequestSenderClosed | H2Cancelled | RecvFailed (e : RecvError)
  | StreamFailed (e : H2Error) | BadStatus (e : HttpError) | H2BadLength (e : ClientError) | H2OpenFailed.

(** [RespReceiver::poll_recv]. *)
Definition receiver_poll_recv {C : Type} `{!RespChannel C} : ST (Http2Conn C) RecvError (Poll Frame) := λ c,
  match h2_receiver c with
  | None => (c, Err NoReceiver)
  | Some rx =>
      let (rx, p) := poll_resp rx in
      (set_receiver rx c,
       match p with
       | Ready (Some (RespOutput frame)) => Ok (Ready frame)
       | Ready (Some (RespExit e)) => Err (ConnFailed e)
       | Ready None => Err SenderClosed
       | Pending => Ok Pending
       end)
  end.

(** ** The body of the response *)

(** [TextIo]. *)
Record TextIo (C : Type) := mkTextIo { ti_handle : Http2Conn C; ti_offset : Z; ti_remain : option Frame; ti_is_closed : bool }.
Arguments mkTextIo {C} _ _ _ _.
Arguments ti_handle {C} _.
Arguments ti_offset {C} _.
Arguments ti_remain {C} _.
Arguments ti_is_closed {C} _.
Definition TextIo_new {C : Type} (handle : Http2Conn C) : TextIo C := mkTextIo handle 0 None false.

(** An error of the channel, or a frame that has no place in a response. *)
Inductive TextError := TextRecv (e : RecvError) | TextProtocol.

Section text.
Context {C : Type} `{!RespChannel C}.
#[local] Abbreviation TT := (ST (TextIo C * ReadBuf) TextError).

Definition modify_text (f : TextIo C → TextIo C) : TT () := modify_st (λ s, (f s.1, s.2)).
Definition ti_set_place (offset : Z) (remain : option Frame) (t : TextIo C) : TextIo C := mkTextIo (ti_handle t) offset remain (ti_is_closed t).
Definition ti_close (t : TextIo C) : TextIo C := mkTextIo (ti_handle t) (ti_offset t) (ti_remain t) true.
Definition ti_set_handle (h : Http2Conn C) (t : TextIo C) : TextIo C := mkTextIo h (ti_offset t) (ti_remain t) (ti_is_closed t).

(** [append_slice]: a slice that does not fit is a panic. *)
Definition append_slice (out : bytes) : TT () :=
  s ← get_st;
  if len out <=? rb_room s.2 then put_st (s.1, rb_put out s.2) else panic.

Definition end_read (end_stream : bool) (data_len : Z) : TT (option (Poll ())) :=
  _ ← modify_text (ti_set_place 0 None);
  if end_stream then _ ← modify_text ti_close; mret (Some (Ready ()))
  else if data_len =? 0 then mret None else mret (Some (Ready ())).

(** [data[from..from + n]]. *)
Definition data_slice (first n : Z) (data : bytes) : TT bytes :=
  if (0 <=? n) && (first + n <=? len data) then mret (takeZ n (dropZ first data)) else panic.

Definition match_channel_message (poll_result : Poll Frame) : TT (option (Poll ())) :=
  match poll_result with
  | Pending => mret (Some Pending)
  | Ready frame =>
      match f_payload frame with
      | PHeaders _ => _ ← modify_text (ti_set_place 0 (Some frame)); mret (Some (Ready ()))
      | PData data =>
          s ← get_st;
          let unfilled_len := rb_room s.2 in
          let data_len := len data in
          let fill_len := Z.min data_len unfilled_len in
          out ← data_slice 0 fill_len data;
          _ ← append_slice out;
          if unfilled_len <? data_len then
            _ ← modify_text (λ t, ti_set_place (ti_offset t + fill_len) (Some frame) t); mret (Some (Ready ()))
          else end_read (is_end_stream (f_flags frame)) data_len
      | PRstStream code => if code =? 0 then _ ← modify_text ti_close; mret (Some (Ready ())) else throw TextProtocol
      | _ => throw TextProtocol
      end
  end.

Definition read_remaining_data : TT (option (Poll ())) :=
  s ← get_st;
  match ti_remain s.1 with
  | None => mret None
  | Some frame =>
      match f_payload frame with
      | PHeaders _ => mret (Some (Ready ()))
      | PData data =>
          let unfilled_len := rb_room s.2 in
          let offset := ti_offset s.1 in
          if offset <=? len data then
            let data_len := len data - offset in
            let fill_len := Z.min unfilled_len data_len in
            out ← data_slice offset fill_len data;
            _ ← append_slice out;
            if unfilled_len <? data_len then
              _ ← modify_text (λ t, ti_set_place (ti_offset t + fill_len) (ti_remain t) t); mret (Some (Ready ()))
            else end_read (is_end_stream (f_flags frame)) data_len
          else panic
      | _ => throw TextProtocol
      end
  end.

Definition text_poll_recv : TT (Poll Frame) := λ s,
  let (h, x) := receiver_poll_recv (ti_handle s.1) in
  ((ti_set_handle h s.1, s.2), match x with Ok p => Ok p | Err e => Err (TextRecv e) | Panic => Panic end).

(** The loop of [poll_read].  A turn that goes on has taken an empty frame of the
    channel; all that is kept between two turns is in the structure, so a loop that
    is cut goes on in the next poll. *)
Fixpoint text_loop (turns : nat) : TT (Poll ()) :=
  match turns with
  | O => mret Pending
  | Datatypes.S turns =>
      s ← get_st;
      if rb_room s.2 =? 0 then mret (Ready ())
      else
        r ← read_remaining_data;
        match r with
        | Some p => mret p
        | None =>
            p ← text_poll_recv;
            r ← match_channel_message p;
            match r with Some p => mret p | None => text_loop turns end
        end
  end.

(** [poll_read], without limits and with them. *)
Definition text_poll_read (turns : nat) : TT (Poll ()) :=
  s ← get_st;
  if (rb_room s.2 =? 0) || ti_is_closed s.1 then mret (Ready ()) else text_loop turns.
Definition limited_text_poll_read (turns : nat) (now : Z) : ST ((TextIo C * SpeedController) * ReadBuf) (TextError + BelowLimit) (Poll ()) :=
  s ← get_st;
  if (rb_room s.2 =? 0) || ti_is_closed s.1.1 then mret (Ready ()) else limited_read (text_loop turns) now.

(** [StreamData] of [TextIo]. *)
Definition ti_shutdown (t : TextIo C) : TextIo C :=
  ti_set_handle (mkHttp2Conn (h2_allow_cached_frames (ti_handle t)) (h2_receiver (ti_handle t)) true) t.
Definition ti_is_stream_closable (t : TextIo C) : bool := ti_is_closed t.

(** ** The response *)

Definition frame_2_response (conn : Http2Conn C) (headers_frame : Frame) (method : Method) : result H2Failure (ResponsePart * Kind (TextIo C)) :=
  part ← match f_payload headers_frame with
         | PHeaders parts =>
             match ph_status (parts_pseudo parts) with
             | Some status =>
                 match StatusCode_from_bytes status with
                 | Ok code => Ok (mkResponsePart Http2 code (parts_map parts))
                 | Err e => Err (BadStatus e)
                 | Panic => Panic
                 end
             | None => Err (StreamFailed (StreamError (f_id headers_frame) ProtocolError))
             end
         | PRstStream code =>
             Err (StreamFailed (StreamError (f_id headers_frame) (match ErrorCode_try_from code with Ok e => e | _ => ProtocolError end)))
         | _ => Err (StreamFailed (StreamError (f_id headers_frame) ProtocolError))
         end;
  match BodyLengthParser_parse method part with
  | Ok length =>
      match HttpBody_new (E := TextError) length (TextIo_new conn) [] with
      | inl k => Ok (part, k)
      | inr _ => Err H2OpenFailed
      end
  | Err e => Err (H2BadLength e)
  | Panic => Panic
  end.

(** ** [request] *)

Context {W : Type} `{!RequestWorld W C} (intercept_request : Request → bool).
#[local] Abbreviation RM := (ST (W * Http2Conn C) H2Failure).

Definition send_frame_to_controller (flag : Z) (payload : Payload) (data : BodyDataRef) : RM () := λ s,
  let '(w, (tx, rx)) := open_channel (h2_allow_cached_frames s.2) s.1 in
  let '(w, sent) := send_request (mkReq tx flag payload data) w in
  ((w, set_receiver rx s.2), if sent : bool then Ok () else Err RequestSenderClosed).

(** [RespReceiver::recv], awaited. *)
Fixpoint receiver_recv (patience : nat) : RM Frame :=
  match patience with
  | O => throw H2Cancelled
  | Datatypes.S patience =>
      p ← (λ s : W * Http2Conn C, let (c, x) := receiver_poll_recv s.2 in
           ((s.1, c), match x with Ok p => Ok p | Err e => Err (RecvFailed e) | Panic => Panic end));
      match p with Ready frame => mret frame | Pending => receiver_recv patience end
  end.

Definition no_length (r : Request) : bool := match Headers_get (rq_headers r) (bs "content-length") with None => true | Some _ => false end.

Definition http2_request (patience : nat) (body_is_empty : bool) (r : Request) : RM (ResponsePart * Kind (TextIo C)) :=
  if negb (intercept_request r) then throw H2Intercepted
  else
    let (flag, payload) := build_headers_payload r (body_is_empty && no_length r) in
    _ ← send_frame_to_controller flag payload (mkBodyDataRef true);
    frame ← receiver_recv patience;
    s ← get_st;
    lift_res (frame_2_response s.2 frame (rq_method r)).
End text.
