(* ===== verification/H2ConnSpec.v ===== *)
(** * Properties of requests over HTTP/2 connections

    What a request becomes on its way to the manager, and what the client reads of
    the response that comes through the channel of its stream. *)

From stdpp Require Import gmap.
From S2P Require Import Prelude H2Error Headers Parts H2Frame H2Window H2Streams H2FlowControl H2Manager Message Uri H1Decoder Normalizer Body ChunkTrailer HttpBody RateLimit Http1Conn H2Conn.
#[local] Open Scope Z_scope.

(** ** The request *)

Lemma remove_header_delete name h : normalize name = Ok name → remove_header name h = delete name h.
Proof. intros H. unfold remove_header, Headers_remove. by rewrite H. Qed.

Lemma all_removed names h n :
  Forall (λ name, normalize name = Ok name) names →
  fold_left (λ h name, remove_header name h) names h !! n = if bool_decide (n ∈ names) then None else h !! n.
Proof.
  intros Hf. revert h. induction Hf as [|name names Hn Hf IH]; intros h; cbn [fold_left]; [by rewrite bool_decide_false by apply not_elem_of_nil|].
  rewrite IH, remove_header_delete by done. destruct (decide (n = name)) as [->|Hne].
  - rewrite lookup_delete_eq, (bool_decide_true (name ∈ name :: names)) by apply list_elem_of_here. by case_bool_decide.
  - rewrite lookup_delete_ne by done. rewrite (bool_decide_ext (n ∈ name :: names) (n ∈ names)); [done|].
    rewrite elem_of_cons. split; [by intros [?|?]|by right].
Qed.

Lemma specific_removed h name : remove_connection_specific_headers h !! name =
  if bool_decide (name ∈ CONNECTION_SPECIFIC_HEADERS) then None
  else if bool_decide (name = bs "te") then v ← h !! name; if bool_decide (HeaderValue_to_vec v = bs "trailers") then Some v else None
  else h !! name.
Proof.
  unfold remove_connection_specific_headers. set (h1 := fold_left _ _ h).
  assert (∀ n, h1 !! n = if bool_decide (n ∈ CONNECTION_SPECIFIC_HEADERS) then None else h !! n) as H1.
  { intros n. apply all_removed. by repeat constructor. }
  assert (Headers_get h1 (bs "te") = h !! bs "te") as Hte by (unfold Headers_get; change (h1 !! bs "te" = h !! bs "te"); by rewrite H1).
  rewrite Hte. destruct (h !! bs "te") as [te|] eqn:Et.
  - case_bool_decide as Ht.
    + rewrite H1. repeat case_bool_decide; try done. subst name. rewrite Et. cbn. by rewrite bool_decide_true.
    + rewrite remove_header_delete by done. destruct (decide (name = bs "te")) as [->|Hne].
      * rewrite lookup_delete_eq, Et. cbn. rewrite (bool_decide_false (_ = bs "trailers")) by done. by repeat case_bool_decide.
      * rewrite lookup_delete_ne, H1 by done. by rewrite (bool_decide_false (name = bs "te")).
  - rewrite H1. repeat case_bool_decide; try done. subst name. by rewrite Et.
Qed.

(** What RFC 9113 section 8.3.1 asks of the pseudo fields of a request, and the
    field of a name that is left of its fields. *)
Definition request_pseudo (r : Request) : PseudoHeaders :=
  mkPseudo (HeaderValue_to_vec <$> rq_headers r !! bs "host") (Some (Method_as_str (rq_method r)))
    (Some (from_option id (bs "/") (path_and_query (rq_uri r)))) (Some (Scheme_as_str (from_option id PHttp (uri_scheme (rq_uri r))))) None.
Definition request_field (r : Request) (name : bytes) : option HeaderValue :=
  if bool_decide (name ∈ bs "host" :: CONNECTION_SPECIFIC_HEADERS) then None
  else if bool_decide (name = bs "te") then v ← rq_headers r !! name; if bool_decide (HeaderValue_to_vec v = bs "trailers") then Some v else None
  else rq_headers r !! name.

(** C16: a request over HTTP/2, as [request] of the client makes its frame from the request
    and from whether its body is empty, is the HEADERS frame with its method, scheme,
    path ("/" where it has none) and, as the authority, its host; the fields are those of
    the request without the host, the fields that RFC 9113 section 8.2.2 forbids, and a TE
    other than trailers; the frame ends the field block, and it ends the stream just
    when the body is empty and the request has no Content-Length field (with
    Content-Length: 0 the stream is left for a DATA frame to end). *)
Theorem request_as_headers (r : Request) (body_is_empty : bool) :
  ∃ flag fields, build_headers_payload r (body_is_empty && no_length r) = (flag, PHeaders (mkParts (request_pseudo r) fields)) ∧
    is_end_headers flag = true ∧
    (is_end_stream flag = true ↔ body_is_empty = true ∧ rq_headers r !! bs "content-length" = None) ∧
    ∀ name, fields !! name = request_field r name.
Proof.
  assert (body_is_empty && no_length r = true ↔ body_is_empty = true ∧ rq_headers r !! bs "content-length" = None) as Hend.
  { rewrite andb_true_iff. unfold no_length, Headers_get. change (normalize (bs "content-length")) with (Ok (bs "content-length") : result HttpError bytes).
    cbv beta iota. destruct (rq_headers r !! bs "content-length"); split; intros [? ?]; by split. }
  revert Hend. generalize (body_is_empty && no_length r). intros is_end Hend.
  unfold build_headers_payload, build_pseudo_headers. cbn [rq_headers rq_set_headers rq_uri rq_method].
  set (h := remove_connection_specific_headers (rq_headers r)).
  assert (Headers_remove (bs "host") h = (delete (bs "host") h, rq_headers r !! bs "host")) as ->.
  { unfold Headers_remove. change (normalize (bs "host")) with (Ok (bs "host") : result HttpError bytes). cbv beta iota. f_equal. subst h. by rewrite specific_removed. }
  eexists _, (delete (bs "host") h). split.
  - unfold request_pseudo, set_scheme, set_method, set_path, set_authority. cbn. destruct (uri_scheme (rq_uri r)), (path_and_query (rq_uri r)); done.
  - split; [by destruct is_end|]. split; [rewrite <- Hend; by destruct is_end|]. intros name. unfold request_field. destruct (decide (name = bs "host")) as [->|Hne].
    + rewrite lookup_delete_eq. by rewrite bool_decide_true by set_solver.
    + rewrite lookup_delete_ne by done. subst h. rewrite specific_removed.
      rewrite (bool_decide_ext (name ∈ bs "host" :: CONNECTION_SPECIFIC_HEADERS) (name ∈ CONNECTION_SPECIFIC_HEADERS)); [done|].
      rewrite elem_of_cons. split; [by intros [?|?]|by right].
Qed.

(** ** The body of the response *)

(** [coming]: all the messages that the channel will give before it is closed. *)
Class RespLaws (C : Type) `{!RespChannel C} := {
  coming : C → list RespMessage;
  poll_resp_law c :
    match poll_resp c with
    | (c', Ready (Some m)) => coming c = m :: coming c'
    | (c', Ready None) => coming c = [] ∧ coming c' = []
    | (c', Pending) => coming c' = coming c
    end }.

(** The data of DATA frames up to the one that ends the stream, and that there is
    such a one, with nothing but DATA before it. *)
Fixpoint queue_rest (ms : list RespMessage) : bytes :=
  match ms with
  | RespOutput f :: ms => match f_payload f with PData d => d ++ (if is_end_stream (f_flags f) then [] else queue_rest ms) | _ => [] end
  | _ => []
  end.
Fixpoint ends_well (ms : list RespMessage) : Prop :=
  match ms with
  | RespOutput f :: ms => match f_payload f with PData _ => if is_end_stream (f_flags f) then True else ends_well ms | _ => False end
  | _ => False
  end.

Section text.
Context {C : Type} `{!RespChannel C, !RespLaws C} (turns : nat) (shut : bool).
#[local] Instance text_read : AsyncRead TextError (TextIo C) := text_poll_read turns.

(** The channel never makes a read wait. *)
Definition eager : Prop := ∀ c : C, (poll_resp c).2 ≠ Pending.

Definition text_coming (t : TextIo C) : list RespMessage := from_option coming [] (h2_receiver (ti_handle t)).
Definition after_frame (f : Frame) (ms : list RespMessage) : bytes := if is_end_stream (f_flags f) then [] else queue_rest ms.

Definition text_rest (t : TextIo C) : bytes :=
  if ti_is_closed t then []
  else match ti_remain t with
       | Some f => match f_payload f with PData d => dropZ (ti_offset t) d ++ after_frame f (text_coming t) | _ => [] end
       | None => queue_rest (text_coming t)
       end.

Definition text_place (t : TextIo C) : Prop :=
  match ti_remain t with
  | Some f => ∃ d, f_payload f = PData d ∧ 0 ≤ ti_offset t ≤ len d ∧ (is_end_stream (f_flags f) = true ∨ ends_well (text_coming t))
  | None => ti_offset t = 0 ∧ ends_well (text_coming t)
  end.
Definition handle_ok (t : TextIo C) : Prop :=
  is_Some (h2_receiver (ti_handle t)) ∧ h2_io_shutdown (ti_handle t) = shut ∧ (length (text_coming t) < turns)%nat.
Definition ti_ok (t : TextIo C) : Prop := handle_ok t ∧ (ti_is_closed t = true ∨ text_place t).

(** A read: the next bytes; none only at the end, or when it has to wait. *)
Definition text_reads (t : TextIo C) (b : ReadBuf) (x : (TextIo C * ReadBuf) * result TextError (Poll ())) : Prop :=
  ∃ out, x.1.2 = rb_put out b ∧ text_rest t = out ++ text_rest x.1.1 ∧ len out ≤ rb_room b ∧ ti_ok x.1.1 ∧
    match x.2 with
    | Ok (Ready _) => out = [] → ti_is_closed x.1.1 = true
    | Ok Pending => out = [] ∧ ¬ eager
    | _ => False
    end.

(** What both functions do with the bytes of [f] from [offset] on. *)
Definition took (f : Frame) (d : bytes) (offset : Z) (t : TextIo C) (b : ReadBuf) : (TextIo C * ReadBuf) * result TextError (option (Poll ())) :=
  let n := Z.min (rb_room b) (len d - offset) in
  let b' := rb_put (takeZ n (dropZ offset d)) b in
  if rb_room b <? len d - offset then ((ti_set_place (offset + n) (Some f) t, b'), Ok (Some (Ready ())))
  else if is_end_stream (f_flags f) then ((ti_close (ti_set_place 0 None t), b'), Ok (Some (Ready ())))
  else ((ti_set_place 0 None t, b'), Ok (if len d - offset =? 0 then None else Some (Ready ()))).

Lemma append_slice_eq out (t : TextIo C) b : len out ≤ rb_room b → append_slice out (t, b) = ((t, rb_put out b), Ok ()).
Proof. intros H. unfold append_slice. rewrite bind_st. cbn [get_st snd]. by destruct (Z.leb_spec (len out) (rb_room b)); [|lia]. Qed.

Lemma data_slice_eq first n d (t : TextIo C) b : 0 ≤ n → first + n ≤ len d → data_slice first n d (t, b) = ((t, b), Ok (takeZ n (dropZ first d))).
Proof. intros H1 H2. unfold data_slice. by destruct (Z.leb_spec 0 n), (Z.leb_spec (first + n) (len d)); try lia. Qed.

Lemma end_read_eq f d offset (t : TextIo C) b : 0 ≤ offset ≤ len d → ¬ rb_room b < len d - offset →
  end_read (is_end_stream (f_flags f)) (len d - offset) (t, rb_put (takeZ (Z.min (rb_room b) (len d - offset)) (dropZ offset d)) b) = took f d offset t b.
Proof.
  intros Ho Hr. unfold took, end_read. rewrite bind_st. cbn [modify_text modify_st fst snd].
  destruct (Z.ltb_spec (rb_room b) (len d - offset)); [lia|]. by destruct (is_end_stream _), (len d - offset =? 0).
Qed.

Lemma took_len (d : bytes) offset b : 0 ≤ offset ≤ len d → 0 ≤ rb_room b →
  len (takeZ (Z.min (rb_room b) (len d - offset)) (dropZ offset d)) = Z.min (rb_room b) (len d - offset).
Proof. intros Ho Hb. apply len_takeZ. rewrite len_dropZ by lia. lia. Qed.

Lemma read_remaining_eq f d t b : ti_remain t = Some f → f_payload f = PData d → 0 ≤ ti_offset t ≤ len d → 0 ≤ rb_room b →
  read_remaining_data (t, b) = took f d (ti_offset t) t b.
Proof.
  intros Hr Hf Ho Hb. unfold read_remaining_data. rewrite bind_st. cbn [get_st fst snd]. rewrite Hr, Hf. cbv zeta.
  destruct (Z.leb_spec (ti_offset t) (len d)); [|lia]. rewrite bind_st, data_slice_eq, bind_st by lia.
  rewrite append_slice_eq by (rewrite took_len; lia).
  destruct (Z.ltb_spec (rb_room b) (len d - ti_offset t)) as [Hlt|Hge].
  - rewrite bind_st. unfold took. destruct (Z.ltb_spec (rb_room b) (len d - ti_offset t)); [|lia]. cbn. by rewrite Hr.
  - apply end_read_eq; lia.
Qed.

Lemma match_data_eq f d t b : ti_offset t = 0 → f_payload f = PData d → 0 ≤ rb_room b →
  match_channel_message (Ready f) (t, b) = took f d 0 t b.
Proof.
  intros Ho Hf Hb. pose proof (len_nonneg d). cbn [match_channel_message]. rewrite Hf, bind_st. cbn [get_st fst snd]. cbv zeta.
  rewrite Z.min_comm. pose proof (took_len d 0 b ltac:(lia) Hb) as Hl. rewrite Z.sub_0_r in Hl.
  rewrite bind_st, data_slice_eq, bind_st, append_slice_eq by lia.
  destruct (Z.ltb_spec (rb_room b) (len d)) as [Hlt|Hge].
  - rewrite bind_st. unfold took. rewrite Z.sub_0_r. destruct (Z.ltb_spec (rb_room b) (len d)); [|lia]. cbn. by rewrite Ho.
  - pose proof (end_read_eq f d 0 t b ltac:(lia) ltac:(lia)) as He. by rewrite Z.sub_0_r in He.
Qed.

(** The bytes of [f] from [offset] on. *)
Lemma took_ok f d offset t b :
  handle_ok t → ti_is_closed t = false → f_payload f = PData d → 0 ≤ offset ≤ len d → 0 < rb_room b →
  is_end_stream (f_flags f) = true ∨ ends_well (text_coming t) →
  let '(s', r) := took f d offset t b in
  match r with
  | Ok (Some p) => p = Ready () ∧ ∃ out, s'.2 = rb_put out b ∧ dropZ offset d ++ after_frame f (text_coming t) = out ++ text_rest s'.1 ∧
      len out ≤ rb_room b ∧ ti_ok s'.1 ∧ (out = [] → ti_is_closed s'.1 = true)
  | Ok None => s' = (ti_set_place 0 None t, b) ∧ dropZ offset d = [] ∧ is_end_stream (f_flags f) = false ∧ ends_well (text_coming t)
  | _ => False
  end.
Proof.
  intros Hh Hcl Hf Ho Hb He. unfold took. set (out := takeZ _ _).
  assert (len out = Z.min (rb_room b) (len d - offset)) as Hout by (apply took_len; lia).
  destruct (Z.ltb_spec (rb_room b) (len d - offset)) as [Hlt|Hge].
  - split; [done|]. exists out. split; [done|]. split.
    { unfold text_rest. cbn. rewrite Hcl, Hf. change (text_coming _) with (text_coming t). rewrite app_assoc. f_equal.
      rewrite Z.add_comm, <- Z.add_comm, <- dropZ_dropZ by lia. unfold out. by rewrite Z.min_l, takeZ_dropZ by lia. }
    split; [lia|]. split; [split; [exact Hh|right]|intros Hn; rewrite Hn, len_nil in Hout; lia].
    unfold text_place. cbn. exists d. split_and!; [done|lia|lia|done].
  - assert (out = dropZ offset d) as Hd by (unfold out; apply takeZ_all; rewrite len_dropZ by lia; lia).
    destruct (is_end_stream (f_flags f)) eqn:Ee.
    + split; [done|]. exists out. split; [done|]. unfold after_frame. rewrite Ee, Hd. unfold text_rest. cbn.
      split; [by rewrite !app_nil_r|]. rewrite <- Hd. split; [lia|]. split; [split; [exact Hh|by left]|done].
    + destruct He as [?|He]; [done|]. destruct (Z.eqb_spec (len d - offset) 0) as [Hz|Hz].
      * assert (out = []) as Hn by (apply len_0_nil; lia). rewrite Hn, rb_put_nil. by rewrite <- Hd, Hn.
      * split; [done|]. exists out. split; [done|]. unfold after_frame. rewrite Ee, Hd. unfold text_rest. cbn. rewrite Hcl.
        split; [done|]. rewrite <- Hd. split; [lia|]. split; [split; [exact Hh|right; by split]|].
        intros Hn. rewrite Hn, len_nil in Hout. lia.
Qed.

(** A message of the channel, when no frame is kept. *)
Lemma recv_ok t : ti_ok t → ti_is_closed t = false → ti_remain t = None → ∀ b,
  let '(s', r) := text_poll_recv (t, b) in
  s'.2 = b ∧ ti_is_closed s'.1 = false ∧ ti_remain s'.1 = None ∧ ti_offset s'.1 = 0 ∧
  is_Some (h2_receiver (ti_handle s'.1)) ∧ h2_io_shutdown (ti_handle s'.1) = shut ∧
  match r with
  | Ok (Ready f) => text_coming t = RespOutput f :: text_coming s'.1
  | Ok Pending => text_coming s'.1 = text_coming t ∧ ¬ eager
  | _ => False
  end.
Proof.
  intros (([c Hc] & Hsh & Hlen) & [?|Hp]) Hcl Hr b; [congruence|]. unfold text_place in Hp. rewrite Hr in Hp. destruct Hp as [Ho He].
  unfold text_poll_recv, receiver_poll_recv. cbn [fst snd]. rewrite Hc. unfold text_coming in *. rewrite Hc in He. cbn [from_option] in He.
  pose proof (poll_resp_law c) as H. destruct (poll_resp c) as [c' [[[f|e]|]|]] eqn:Ep; cbn; rewrite ?Hc; cbn.
  - rewrite H. split_and!; try done.
  - rewrite H in He. done.
  - destruct H as [H _]. by rewrite H in He.
  - split_and!; try done. intros Hg. apply (Hg c). by rewrite Ep.
Qed.

(** The rest of a turn: a message, and the next turn when it had no data. *)
Definition recv_turn (n : nat) : ST (TextIo C * ReadBuf) TextError (Poll ()) :=
  p ← text_poll_recv;
  r ← match_channel_message p;
  match r with Some p => mret p | None => text_loop n end.

Lemma recv_turn_ok n t b :
  (∀ t', ti_ok t' → ti_is_closed t' = false → (length (text_coming t') < n)%nat → text_reads t' b (text_loop n (t', b))) →
  ti_ok t → ti_is_closed t = false → ti_remain t = None → 0 < rb_room b → (length (text_coming t) < Datatypes.S n)%nat →
  text_reads t b (recv_turn n (t, b)).
Proof.
  intros IH Hok Hcl Hr Hb Hn. unfold recv_turn. rewrite bind_st. pose proof (recv_ok t Hok Hcl Hr b) as H.
  pose proof Hok as ((_ & _ & Hlen) & [?|Hp]); [congruence|]. unfold text_place in Hp. rewrite Hr in Hp. destruct Hp as [Ho He].
  assert (text_rest t = queue_rest (text_coming t)) as Hrest by (unfold text_rest; by rewrite Hcl, Hr).
  destruct (text_poll_recv (t, b)) as [[t1 b1] x]. cbn [fst snd] in H. destruct H as (-> & Hcl1 & Hr1 & Ho1 & Hrx1 & Hsh1 & H).
  destruct x as [[f|]|x|]; [| |done|done].
  - rewrite H in He, Hrest, Hn, Hlen. cbn [ends_well queue_rest length] in *. destruct (f_payload f) as [|d| | | | | | |] eqn:Ef; try done.
    assert (is_end_stream (f_flags f) = true ∨ ends_well (text_coming t1)) as He1 by (destruct (is_end_stream _); [by left|by right]).
    rewrite bind_st, (match_data_eq f d t1 b) by (done || lia). pose proof (len_nonneg d).
    assert (handle_ok t1) as Hh1 by (split_and!; [done|done|lia]).
    pose proof (took_ok f d 0 t1 b Hh1 Hcl1 Ef ltac:(lia) Hb He1) as Ht. destruct (took f d 0 t1 b) as [s2 [[p|]|x|]]; [| |done|done].
    + destruct Ht as (-> & out & E1 & E2 & E3 & E4 & E5). exists out. cbn [mret ST_ret fst snd]. rewrite dropZ_0 in E2.
      split; [done|]. split; [by rewrite Hrest|]. by split_and!.
    + destruct Ht as (-> & Hd & Hend & Hwell). set (t2 := ti_set_place 0 None t1).
      assert (text_rest t2 = text_rest t) as Hr2.
      { rewrite Hrest, Hend. unfold text_rest. cbn. rewrite Hcl1. rewrite dropZ_0 in Hd. by rewrite Hd. }
      assert (ti_ok t2) as Hok2 by (split; [exact Hh1|right; by split]).
      destruct (IH t2 Hok2 Hcl1) as (out & E1 & E2 & E3 & E4 & E5); [change (text_coming t2) with (text_coming t1); lia|].
      exists out. rewrite <- Hr2. by split_and!.
  - destruct H as [H Hg]. assert (text_rest t1 = text_rest t) as Ht by (unfold text_rest; by rewrite Hcl1, Hcl, Hr1, Hr, H).
    cbn [match_channel_message]. rewrite bind_st. cbn [mret ST_ret]. exists []. rewrite rb_put_nil. split; [done|]. split; [by rewrite <- Ht|].
    split; [rewrite len_nil; lia|]. split; [|done]. split; [split_and!; [done|done|cbn; by rewrite H]|right]. unfold text_place. cbn. by rewrite Hr1, H.
Qed.

Lemma text_loop_ok n t b :
  ti_ok t → ti_is_closed t = false → 0 < rb_room b → (length (text_coming t) < n)%nat → text_reads t b (text_loop n (t, b)).
Proof.
  revert t. induction n as [|n IH]; intros t Hok Hcl Hb Hn; [lia|]. cbn [text_loop]. rewrite bind_st. cbn [get_st snd].
  destruct (Z.eqb_spec (rb_room b) 0); [lia|]. rewrite bind_st.
  assert (∀ t', ti_ok t' → ti_is_closed t' = false → ti_remain t' = None → (length (text_coming t') < Datatypes.S n)%nat →
    text_reads t' b (recv_turn n (t', b))) as Hrecv by (intros t' H1 H2 H3 H4; apply recv_turn_ok; [by auto|done..]).
  destruct (ti_remain t) as [f|] eqn:Hr.
  - pose proof Hok as (Hh & [?|Hp]); [congruence|]. unfold text_place in Hp. rewrite Hr in Hp. destruct Hp as (d & Hf & Ho & He).
    rewrite (read_remaining_eq f d) by (done || lia). pose proof (took_ok f d (ti_offset t) t b Hh Hcl Hf Ho Hb He) as H.
    assert (text_rest t = dropZ (ti_offset t) d ++ after_frame f (text_coming t)) as Hrest by (unfold text_rest; by rewrite Hcl, Hr, Hf).
    destruct (took f d (ti_offset t) t b) as [s2 [[p|]|x|]]; [| |done|done].
    + destruct H as (-> & out & E1 & E2 & E3 & E4 & E5). exists out. rewrite Hrest. by split_and!.
    + destruct H as (-> & Hd & Hend & Hwell). set (t2 := ti_set_place 0 None t).
      assert (text_rest t2 = text_rest t) as Hr2 by (rewrite Hrest, Hd; unfold text_rest, after_frame; cbn; by rewrite Hcl, Hend).
      destruct (Hrecv t2) as (out & E1 & E2 & E3); [split; [done|right; by split]|done|done|done|].
      exists out. rewrite <- Hr2. by split.
  - unfold read_remaining_data. rewrite bind_st. cbn [get_st fst]. rewrite Hr. cbn [mret ST_ret]. by apply Hrecv.
Qed.

(** ** [TextIo] as the reader of a body *)

Lemma text_read_ok t b : ti_ok t → 0 ≤ rb_room b →
  poll_spec (E := TextError) text_rest t b (poll_read (t, b)) ∧ ti_ok (poll_read (E := TextError) (t, b)).1.1.
Proof.
  intros Hok Hb. unfold poll_read, text_read, text_poll_read. rewrite bind_st. cbn [get_st fst snd].
  destruct (Z.eqb_spec (rb_room b) 0) as [Hz|Hz]; cbn [orb].
  { split; [|done]. exists []. rewrite rb_put_nil. split; [done|]. split; [done|]. split; [rewrite len_nil; lia|by left]. }
  destruct (ti_is_closed t) eqn:Hcl.
  { split; [|done]. exists []. rewrite rb_put_nil. split; [done|]. split; [done|]. split; [rewrite len_nil; lia|right]. unfold text_rest. by rewrite Hcl. }
  destruct (text_loop_ok turns t b Hok Hcl ltac:(lia) ltac:(apply Hok)) as (out & H1 & H2 & H3 & H4 & H5). split; [|done].
  exists out. split_and!; try done. destruct (text_loop turns (t, b)) as [s' [[[]|]|e|]]; cbn [fst snd] in *; [|by destruct H5|done|done].
  intros Hn. right. specialize (H5 Hn). rewrite H2, Hn. unfold text_rest. by rewrite H5.
Qed.

Lemma text_tells_end : tells_end (E := TextError) ti_ok ti_is_closed.
Proof.
  intros t b Hok Hb. unfold poll_read, text_read, text_poll_read. rewrite bind_st. cbn [get_st fst snd].
  destruct (Z.eqb_spec (rb_room b) 0) as [Hz|Hz]; [lia|]. cbn [orb]. destruct (ti_is_closed t) eqn:Hcl; [intros _; exact Hcl|].
  destruct (text_loop_ok turns t b Hok Hcl ltac:(lia) ltac:(apply Hok)) as (out & H1 & H2 & H3 & H4 & H5).
  destruct (text_loop turns (t, b)) as [[t' b'] [[[]|]|e|]]; cbn [fst snd] in *; try done.
  intros He. apply H5. subst b'. cbn in He. rewrite <- (app_nil_r (rb_filled b)) in He at 2. by apply app_inv_head in He.
Qed.

Lemma text_calm : eager → calm (E := TextError) (λ _, true) ti_ok.
Proof.
  intros Hg. split; [|done]. intros t b Hok Hb. unfold poll_read, text_read, text_poll_read. rewrite bind_st. cbn [get_st fst snd].
  destruct (Z.eqb_spec (rb_room b) 0) as [Hz|Hz]; cbn [orb]; [by eexists|]. destruct (ti_is_closed t) eqn:Hcl; [by eexists|].
  destruct (text_loop_ok turns t b Hok Hcl ltac:(lia) ltac:(apply Hok)) as (out & H1 & H2 & H3 & H4 & H5).
  destruct (text_loop turns (t, b)) as [[t' b'] [[x|]|e|]]; cbn [fst snd] in *; [by eexists|by destruct H5|done|done].
Qed.
End text.

(** Without limits the read of [limited_text_poll_read] is the one of [text_poll_read]. *)
Lemma unlimited_text_read {C} `{!RespChannel C} turns now (t : TextIo C) b :
  limited_text_poll_read turns now ((t, SpeedController_none), b) =
    let '((t, b), x) := text_poll_read turns (t, b) in
    (((t, SpeedController_none), b), match x with Ok a => Ok a | Err e => Err (inl e) | Panic => Panic end).
Proof.
  unfold limited_text_poll_read, text_poll_read. rewrite !bind_st. cbn [get_st fst snd].
  destruct ((rb_room b =? 0) || ti_is_closed t); [done|]. apply unlimited_read.
Qed.

(** ** A whole exchange *)

Section exchange.
Context {W C : Type} `{!RespChannel C, !RespLaws C, !RequestWorld W C} (turns : nat).
#[local] Instance exchange_read : AsyncRead TextError (TextIo C) := text_poll_read turns.

(** The frame of a request, as the manager gets it. *)
Definition request_message (tx : Z) (body_is_empty : bool) (r : Request) : ReqMessage :=
  let (flag, payload) := build_headers_payload r (body_is_empty && no_length r) in mkReq tx flag payload (mkBodyDataRef true).

(** The content behind the head: what DATA frames up to the one that ends the stream hold. *)
Definition h2_content (n : BodyLength) (ms : list RespMessage) (content : bytes) : Prop :=
  match n with
  | BEmpty => content = []
  | BLength m => ends_well ms ∧ content = queue_rest ms ∧ m = len content ∧ content ≠ []
  | BUntilClose => ends_well ms ∧ content = queue_rest ms
  | BChunk => False
  end.

(** The body has let go of the stream, and the connection is left as it was. *)
Definition left_open (shut : bool) (k : Kind (TextIo C)) : Prop :=
  match kind_io k with
  | Some (Gone t false) => h2_io_shutdown (ti_handle t) = shut
  | Some _ => False
  | None => True
  end.

(** Reading the body to its end. *)
Definition h2_delivers (shut : bool) (content : bytes) (k : Kind (TextIo C)) : Prop :=
  ∀ fuel rooms, (length content < fuel)%nat → Forall (λ room, 0 < room) rooms →
    match http_read (E := TextError) ti_is_stream_closable (λ _, true) fuel rooms k with
    | (k', data, Ok true) => data = content ∧ left_open shut k'
    | (_, data, Ok false) => (∃ rest, content = data ++ rest) ∧ (eager (C := C) → (length rooms <= length data)%nat)
    | (_, _, Err _) => ¬ eager (C := C)
    | (_, _, Panic) => False
    end.

Lemma receiver_recv_ok patience (w : W) (conn : Http2Conn C) c f ms :
  h2_receiver conn = Some c → coming c = RespOutput f :: ms →
  match receiver_recv patience (w, conn) with
  | ((w', conn'), Ok f') => w' = w ∧ f' = f ∧ h2_io_shutdown conn' = h2_io_shutdown conn ∧ ∃ c', h2_receiver conn' = Some c' ∧ coming c' = ms
  | (_, Err e) => e = H2Cancelled ∧ (eager (C := C) → patience = 0%nat)
  | (_, Panic) => False
  end.
Proof.
  revert conn c. induction patience as [|patience IH]; intros conn c Hc Hm; cbn [receiver_recv]; [done|].
  rewrite bind_st. unfold receiver_poll_recv. cbn [fst snd]. rewrite Hc.
  pose proof (poll_resp_law c) as H. destruct (poll_resp c) as [c' [[[g|e]|]|]] eqn:Ep.
  - rewrite H in Hm. injection Hm as -> <-. cbn. split_and!; try done. by exists c'.
  - rewrite H in Hm. done.
  - destruct H as [H _]. by rewrite H in Hm.
  - specialize (IH (set_receiver c' conn) c' eq_refl ltac:(by rewrite H)).
    destruct (receiver_recv patience (w, set_receiver c' conn)) as [[w' conn'] [f'|e|]]; [exact IH| |done].
    destruct IH as [-> _]. split; [done|]. intros Hg. exfalso. apply (Hg c). by rewrite Ep.
Qed.

Lemma h2_content_read n ms content shut (conn : Http2Conn C) c fuel :
  h2_content n ms content → h2_receiver conn = Some c → coming c = ms → h2_io_shutdown conn = shut →
  (length ms < turns)%nat → (length content < fuel)%nat →
  match HttpBody_new (E := TextError) n (TextIo_new conn) [] with
  | inl k => http_ok (λ t, ti_ok turns shut t ∧ (length (text_rest t) < fuel)%nat) text_rest k content
  | inr _ => False
  end.
Proof.
  intros Hn Hc Hm Hs Ht Hf. assert (text_coming (TextIo_new conn) = ms) as Hco by (unfold text_coming; cbn; by rewrite Hc, <- Hm).
  assert (text_rest (TextIo_new conn) = queue_rest ms) as Hr by (unfold text_rest; cbn; by rewrite Hco).
  assert (ends_well ms → content = queue_rest ms → ti_ok turns shut (TextIo_new conn) ∧ (length (text_rest (TextIo_new conn)) < fuel)%nat) as Hok.
  { intros He ->. rewrite Hr. split; [|done]. split; [split_and!; [by eexists|done|by rewrite Hco]|]. right. unfold text_place. cbn. by rewrite Hco. }
  destruct n as [|m| |]; cbn in Hn; [done| |by subst|].
  - destruct Hn as (He & -> & -> & Hne). apply (http_new_ok (E := TextError) _ text_rest (BLength _) (TextIo_new conn) [] _); [by apply Hok|].
    cbn [is_body]. by rewrite Hr.
  - destruct Hn as (He & ->). apply (http_new_ok (E := TextError) _ text_rest BUntilClose (TextIo_new conn) [] _); [by apply Hok|].
    cbn [is_body]. by rewrite Hr.
Qed.

Lemma response_delivers n ms content (conn : Http2Conn C) c k :
  h2_content n ms content → h2_receiver conn = Some c → coming c = ms → (length ms < turns)%nat →
  HttpBody_new (E := TextError) n (TextIo_new conn) [] = inl k → h2_delivers (h2_io_shutdown conn) content k.
Proof.
  intros Hn Hc Hm Ht Hk fuel rooms Hf Hrooms. set (shut := h2_io_shutdown conn).
  pose proof (h2_content_read n ms content shut conn c fuel Hn Hc Hm eq_refl Ht Hf) as Hok. rewrite Hk in Hok.
  pose proof (http_read_bounded (E := TextError) (λ _, true) (ti_ok turns shut) text_rest (text_read_ok turns shut) ti_is_closed (text_tells_end turns shut)
    fuel rooms k content ltac:(lia) Hrooms Hok) as H. change (ti_is_stream_closable (C := C)) with (ti_is_closed (C := C)).
  destruct (http_read _ _ _ _ k) as [[k' data] x]. destruct H as (rest & -> & Hx). destruct x as [[]|e|]; [| | |done].
  - destruct Hx as [-> Hg]. rewrite app_nil_r. split; [done|]. unfold left_open, http_gone, given_up in *.
    destruct (kind_io k') as [[t|t []]|]; try done. by destruct Hg as ((_ & Hsh & _) & _).
  - split; [by exists rest|]. intros Hg. apply Hx. by apply text_calm.
  - intros Hg. destruct Hx as [_ Hx]. by apply Hx, text_calm.
Qed.

(** C15: a request over HTTP/2.  The manager gets the frame of the request with the
    channel for its response; when HEADERS with a status come through it, and
    then DATA up to a frame that ends the stream, as much as the head told, the
    client has a response with this status and these fields, and reading its body
    with buffers of any sizes gives the content, in order, each byte once; at its
    end the stream is let go of, and the connection is not shut down.
    The task can be dropped while it waits, and nothing else goes wrong; with a channel that never
    makes it wait, as many reads as there are bytes and one more come to the
    end. *)
Theorem http2_exchange (intercept_request : Request → bool) (patience : nat) (body_is_empty : bool) (r : Request)
    (w : W) (conn : Http2Conn C) (f : Frame) (parts : Parts) (status : bytes) (code : StatusCode) (n : BodyLength)
    (ms : list RespMessage) (content : bytes) :
  let '(w1, (tx, c)) := open_channel (h2_allow_cached_frames conn) w in
  let sent := send_request (C := C) (request_message tx body_is_empty r) w1 in
  let part := mkResponsePart Http2 code (parts_map parts) in
  intercept_request r = true → sent.2 = true → coming c = RespOutput f :: ms →
  f_payload f = PHeaders parts → ph_status (parts_pseudo parts) = Some status → StatusCode_from_bytes status = Ok code →
  BodyLengthParser_parse (rq_method r) part = Ok n → h2_content n ms content → (length ms < turns)%nat →
  match http2_request intercept_request patience body_is_empty r (w, conn) with
  | (s', Ok (part', k)) => s'.1 = sent.1 ∧ part' = part ∧ h2_delivers (h2_io_shutdown conn) content k
  | (_, Err e) => e = H2Cancelled ∧ (eager (C := C) → patience = 0%nat)
  | (_, Panic) => False
  end.
Proof.
  destruct (open_channel (h2_allow_cached_frames conn) w) as [w1 [tx c]] eqn:Eo. cbv zeta. intros Hi Hsent Hc Hf Hst Hcode Hp Hn Ht.
  unfold http2_request. rewrite Hi. cbn [negb]. unfold request_message in *.
  destruct (build_headers_payload r (body_is_empty && no_length r)) as [flag payload]. rewrite bind_st. unfold send_frame_to_controller.
  cbn [fst snd]. rewrite Eo. destruct (send_request _ w1) as [w2 ok] eqn:Es. cbn [snd fst] in *. subst ok. rewrite bind_st.
  pose proof (receiver_recv_ok patience w2 (set_receiver c conn) c f ms eq_refl Hc) as H.
  destruct (receiver_recv patience (w2, set_receiver c conn)) as [[w3 conn3] [f'|e|]]; [|done|done].
  destruct H as (-> & -> & Hsh & c' & Hc' & Hm'). rewrite bind_st. cbn [get_st snd]. unfold lift_res, frame_2_response.
  rewrite Hf, Hst, Hcode. cbn [mbind result_mbind result_bind]. rewrite Hp.
  pose proof (h2_content_read n ms content _ conn3 c' (Datatypes.S (length content)) Hn Hc' Hm' eq_refl Ht ltac:(lia)) as Hk.
  destruct (HttpBody_new n (TextIo_new conn3) []) as [k|] eqn:Ek; [|done]. split; [done|]. split; [done|].
  change (h2_io_shutdown (set_receiver c conn)) with (h2_io_shutdown conn) in Hsh. rewrite <- Hsh. by eapply response_delivers.
Qed.
End exchange.

(** ** A channel with all its messages

    It makes the reader wait every other time. *)
#[local] Instance slow_channel : RespChannel (list RespMessage * bool) := λ c,
  if c.2 then ((c.1, false), Pending)
  else match c.1 with [] => (c, Ready None) | m :: ms => ((ms, true), Ready (Some m)) end.

Lemma slow_channel_law (c : list RespMessage * bool) :
  match slow_channel c with
  | (c', Ready (Some m)) => c.1 = m :: c'.1
  | (c', Ready None) => c.1 = [] ∧ c'.1 = []
  | (c', Pending) => c'.1 = c.1
  end.
Proof. by destruct c as [[|m ms] []]. Qed.
#[local] Instance slow_channel_laws : RespLaws (list RespMessage * bool) := { coming := fst; poll_resp_law := slow_channel_law }.

(** The messages that the peer will send, and those that the manager got. *)
#[local] Instance test_world : RequestWorld (list RespMessage * list ReqMessage) (list RespMessage * bool) := {
  open_channel _ w := (w, (7, (w.1, false)));
  send_request m w := ((w.1, w.2 ++ [m]), true) }.

Definition resp_head (fields : Headers) : Frame := mkFrame 1 0x4 (PHeaders (mkParts (mkPseudo None None None None (Some (bs "200"))) fields)).
Definition resp_data (last : bool) (d : bytes) : RespMessage := RespOutput (mkFrame 1 (if last then 0x1 else 0) (PData d)).
Definition hello_messages : list RespMessage := [resp_data false (bs "hel"); resp_data false []; resp_data false (bs "lo"); resp_data true []].
Definition get_request : Request := mkRequest Get Http2 (mkUri (Some PHttps) (Some (mkAuthority (bs "h") None)) (Some (bs "/p")) None)
  {[ bs "host" := mkHeaderValue [bs "h"] false; bs "connection" := mkHeaderValue [bs "close"] false ]}.
Definition fresh_conn : Http2Conn (list RespMessage * bool) := Http2Conn_new 5 false.

Definition run_get (fields : Headers) (ms : list RespMessage) (rooms : list Z) :=
  match http2_request (λ _, true) 3 true get_request ((RespOutput (resp_head fields) :: ms, []), fresh_conn) with
  | (s, Ok (part, k)) =>
      let '(k', data, x) := http_read (E := TextError) (AsyncRead0 := text_poll_read 100) ti_is_stream_closable (λ _, true) 100 rooms k in
      Some (data, x, match kind_io k' with Some (Gone t shut) => Some (ti_is_closed t, shut) | _ => None end)
  | _ => None
  end.

Example get_hello : run_get ∅ hello_messages (replicate 12 2) = Some (bs "hello", Ok true, Some (true, false)).
Proof. by vm_compute. Qed.
Example get_hello_length :
  run_get {[ bs "content-length" := mkHeaderValue [bs "5"] false ]} hello_messages (replicate 12 2) = Some (bs "hello", Ok true, Some (true, false)).
Proof. by vm_compute. Qed.

(** The frame that the manager got. *)
Example get_sent :
  match http2_request (λ _, true) 3 true get_request ((RespOutput (resp_head ∅) :: hello_messages, []), fresh_conn) with
  | ((w, _), Ok _) => w.2 = [mkReq 7 0x5 (PHeaders (mkParts (mkPseudo (Some (bs "h")) (Some (bs "GET")) (Some (bs "/p")) (Some (bs "https")) None) ∅)) (mkBodyDataRef true)]
  | _ => False
  end.
Proof. by vm_compute. Qed.

(** A response with trailers: its body ends, but the whole connection is shut down. *)
Example trailers_shut_down : run_get ∅ [resp_data false (bs "hello"); RespOutput (resp_head ∅)] (replicate 12 8) = Some (bs "hello", Ok true, Some (false, true)).
Proof. by vm_compute. Qed.
(** With a Content-Length it is an error besides. *)
Example trailers_incomplete :
  run_get {[ bs "content-length" := mkHeaderValue [bs "5"] false ]} [resp_data false (bs "hello"); RespOutput (resp_head ∅)] (replicate 12 8) =
    Some (bs "hello", Err Incomplete, Some (false, true)).
Proof. by vm_compute. Qed.

(** An interim response is taken for the response. *)
Example interim_response :
  match frame_2_response fresh_conn (mkFrame 1 0x4 (PHeaders (mkParts (mkPseudo None None None None (Some (bs "103"))) ∅))) Get with
  | Ok (part, k) => sp_status part = 103 ∧ k = KEmpty
  | _ => False
  end.
Proof. by vm_compute. Qed.

(** The first frames of a connection with the default settings. *)
Example default_start :
  match Http2Dispatcher_new H2Config_default with
  | Ok (Some (_, tx)) => tx_sent tx = [create_initial_settings H2Config_default; mkFrame 0 0 (PWindowUpdate (10 * 1024 * 1024 - 65535))]
  | _ => False
  end.
Proof. by vm_compute. Qed.

Lemma http2_exchange_witness :
  match http2_request (λ _, true) 3 true get_request ((RespOutput (resp_head ∅) :: hello_messages, []), fresh_conn) with
  | (s', Ok (part', k)) =>
      s'.1 = (RespOutput (resp_head ∅) :: hello_messages, [request_message 7 true get_request]) ∧ part' = mkResponsePart Http2 200 ∅ ∧
      h2_delivers 100 false (bs "hello") k
  | (_, Err e) => e = H2Cancelled ∧ (eager (C := list RespMessage * bool) → 3%nat = 0%nat)
  | (_, Panic) => False
  end.
Proof.
  refine (http2_exchange 100 (λ _, true) 3 true get_request (RespOutput (resp_head ∅) :: hello_messages, []) fresh_conn (resp_head ∅)
    (mkParts (mkPseudo None None None None (Some (bs "200"))) ∅) (bs "200") 200 BUntilClose hello_messages (bs "hello") eq_refl eq_refl eq_refl eq_refl eq_refl _ _ _ _).
  - vm_compute. reflexivity.
  - vm_compute. reflexivity.
  - vm_compute. done.
  - vm_compute. lia.
Defined.
