(* ===== verification/H3Streams.v ===== *)
(** * Streams of the HTTP/3 client

    Models [src/ylong_http_client/src/util/h3/streams.rs]: the states of the
    request streams of a connection, the messages on their way to the tasks that
    sent the requests, the queues of streams that wait, and the identifiers of
    the streams that both sides open.

    What is outside: a send over a channel of the runtime and a read of a body
    are polled, and the class [H3World] is what the polls give; it also has the
    orders in which hash maps and sets are visited. *)

From stdpp Require Import gmap.
From S2P Require Import Prelude Headers Parts H3Error H3Frame.
From S2P Require H2Window H2Streams H2Manager.
#[local] Open Scope Z_scope.

#[local] Abbreviation u32_check := H2Window.u32_check.
#[local] Abbreviation BodyDataRef := H2Streams.BodyDataRef.
#[local] Abbreviation body_clear := H2Streams.body_clear.
#[local] Abbreviation PollRead := H2Streams.PollRead.
#[local] Abbreviation PollReady := H2Streams.PollReady.
#[local] Abbreviation PollError := H2Streams.PollError.
#[local] Abbreviation PollPending := H2Streams.PollPending.
#[local] Abbreviation Poll := H2Manager.Poll.
#[local] Abbreviation Ready := H2Manager.Ready.
#[local] Abbreviation Pending := H2Manager.Pending.
#[local] Abbreviation SendPoll := H2Manager.SendPoll.
#[local] Abbreviation SendReady := H2Manager.SendReady.
#[local] Abbreviation SendGone := H2Manager.SendGone.
#[local] Abbreviation SendBlocked := H2Manager.SendBlocked.

(** ** Data *)

Definition HTTP3_FIRST_BIDI_STREAM_ID : Z := 0.
Definition HTTP3_FIRST_UNI_STREAM_ID : Z := 2.
Definition HTTP3_MAX_STREAM_ID : Z := Z.shiftl 1 62 - 1.
Definition DEFAULT_MAX_CONCURRENT_STREAMS : Z := 100.

(** The errors of the QUIC crate that the client tells apart. *)
Inductive QuicheError :=
  | QuicDone | QuicInvalidStreamState (id : Z) | QuicStreamStopped (code : Z) | QuicStreamReset (code : Z) | QuicOther (code : Z).

(** [DispatchErrorKind] and [RespMessage] of [util/dispatcher.rs], module [http3]. *)
Inductive DispatchErrorKind :=
  | KindH3 (e : H3Error) | KindIo (kind : Z) | KindQuic (e : QuicheError)
  | KindChannelClosed | KindStreamFinished | KindGoawayReceived | KindDisconnect.

Inductive RespMessage := RespOutput (f : Frame) | RespExit (e : DispatchErrorKind).

Definition connection_error (c : H3ErrorCode) : DispatchErrorKind := KindH3 (Connection c).

Inductive H3StreamState := Sending | HeadersReceived | BodyReceived | TrailerReceived | Shutdown.
#[export] Instance H3StreamState_eq_dec : EqDecision H3StreamState.
Proof. solve_decision. Defined.

Inductive QUICStreamType :=
  ClientInitialBidirectional | ServerInitialBidirectional | ClientInitialUnidirectional | ServerInitialUnidirectional.
#[export] Instance QUICStreamType_eq_dec : EqDecision QUICStreamType.
Proof. solve_decision. Defined.

(** [QUICStreamType::from]. *)
Definition QUICStreamType_from (id : Z) : QUICStreamType :=
  match id mod 4 with
  | 0 => ClientInitialBidirectional
  | 1 => ServerInitialBidirectional
  | 2 => ClientInitialUnidirectional
  | _ => ServerInitialUnidirectional
  end.

(** [BidirectionalStream]; [bs_frame_tx] names the channel, and the future of
    [bs_curr_message] is the message that waits for room in it. *)
Record BidirectionalStream := mkBidi {
  bs_state : H3StreamState;
  bs_frame_tx : Z;
  bs_header : option Frame;
  bs_data : BodyDataRef;
  bs_pending_message : list RespMessage;
  bs_encoding : bool;
  bs_curr_message : option RespMessage }.

(** [BidirectionalStream::new]. *)
Definition BidirectionalStream_new (frame_tx : Z) (header : Frame) (data : BodyDataRef) : BidirectionalStream :=
  mkBidi Sending frame_tx (Some header) data [] false None.

Definition bs_set_state (x : H3StreamState) (s : BidirectionalStream) : BidirectionalStream :=
  mkBidi x (bs_frame_tx s) (bs_header s) (bs_data s) (bs_pending_message s) (bs_encoding s) (bs_curr_message s).
Definition bs_set_header (x : option Frame) (s : BidirectionalStream) : BidirectionalStream :=
  mkBidi (bs_state s) (bs_frame_tx s) x (bs_data s) (bs_pending_message s) (bs_encoding s) (bs_curr_message s).
Definition bs_set_data (x : BodyDataRef) (s : BidirectionalStream) : BidirectionalStream :=
  mkBidi (bs_state s) (bs_frame_tx s) (bs_header s) x (bs_pending_message s) (bs_encoding s) (bs_curr_message s).
Definition bs_set_pending (x : list RespMessage) (s : BidirectionalStream) : BidirectionalStream :=
  mkBidi (bs_state s) (bs_frame_tx s) (bs_header s) (bs_data s) x (bs_encoding s) (bs_curr_message s).
Definition bs_set_encoding (x : bool) (s : BidirectionalStream) : BidirectionalStream :=
  mkBidi (bs_state s) (bs_frame_tx s) (bs_header s) (bs_data s) (bs_pending_message s) x (bs_curr_message s).
Definition bs_set_curr (x : option RespMessage) (s : BidirectionalStream) : BidirectionalStream :=
  mkBidi (bs_state s) (bs_frame_tx s) (bs_header s) (bs_data s) (bs_pending_message s) (bs_encoding s) x.

(** The streams that either side opens in one direction, with the goaway
    identifiers: what is known of them. *)
Record Peers := mkPeers {
  control_stream : option Z;
  peer_control_stream : option Z;
  qpack_encode_stream : option Z;
  qpack_decode_stream : option Z;
  peer_qpack_encode_stream : option Z;
  peer_qpack_decode_stream : option Z;
  goaway_id : option Z;
  peer_goaway_id : option Z }.

(** The queues of identifiers. *)
Record Queues := mkQueues {
  pending_send : list Z;
  pending_recv : gset Z;
  resume_recv : list Z;
  pending_concurrency : list Z;
  pending_channel : gset Z }.

(** [Streams], its fields in three groups. *)
Record Streams := mkStreams {
  bidirectional_stream : gmap Z BidirectionalStream;
  peers : Peers;
  queues : Queues;
  working_stream_num : Z;
  max_stream_concurrency : Z;
  next_uni_stream_id : Z;
  next_bidi_stream_id : Z }.

(** [Streams::new]. *)
Definition Streams_new : Streams :=
  mkStreams ∅ (mkPeers None None None None None None None None) (mkQueues [] ∅ [] [] ∅) 0
    DEFAULT_MAX_CONCURRENT_STREAMS HTTP3_FIRST_UNI_STREAM_ID HTTP3_FIRST_BIDI_STREAM_ID.

Definition set_bidi (x : gmap Z BidirectionalStream) (s : Streams) : Streams :=
  mkStreams x (peers s) (queues s) (working_stream_num s) (max_stream_concurrency s) (next_uni_stream_id s) (next_bidi_stream_id s).
Definition set_peers (x : Peers) (s : Streams) : Streams :=
  mkStreams (bidirectional_stream s) x (queues s) (working_stream_num s) (max_stream_concurrency s) (next_uni_stream_id s) (next_bidi_stream_id s).
Definition set_queues (x : Queues) (s : Streams) : Streams :=
  mkStreams (bidirectional_stream s) (peers s) x (working_stream_num s) (max_stream_concurrency s) (next_uni_stream_id s) (next_bidi_stream_id s).
Definition set_working (n : Z) (s : Streams) : Streams :=
  mkStreams (bidirectional_stream s) (peers s) (queues s) n (max_stream_concurrency s) (next_uni_stream_id s) (next_bidi_stream_id s).
Definition set_next_ids (uni bidi : Z) (s : Streams) : Streams :=
  mkStreams (bidirectional_stream s) (peers s) (queues s) (working_stream_num s) (max_stream_concurrency s) uni bidi.

Definition set_control_stream (x : option Z) (p : Peers) : Peers :=
  mkPeers x (peer_control_stream p) (qpack_encode_stream p) (qpack_decode_stream p) (peer_qpack_encode_stream p) (peer_qpack_decode_stream p) (goaway_id p) (peer_goaway_id p).
Definition set_peer_control_stream (x : option Z) (p : Peers) : Peers :=
  mkPeers (control_stream p) x (qpack_encode_stream p) (qpack_decode_stream p) (peer_qpack_encode_stream p) (peer_qpack_decode_stream p) (goaway_id p) (peer_goaway_id p).
Definition set_qpack_encode_stream (x : option Z) (p : Peers) : Peers :=
  mkPeers (control_stream p) (peer_control_stream p) x (qpack_decode_stream p) (peer_qpack_encode_stream p) (peer_qpack_decode_stream p) (goaway_id p) (peer_goaway_id p).
Definition set_qpack_decode_stream (x : option Z) (p : Peers) : Peers :=
  mkPeers (control_stream p) (peer_control_stream p) (qpack_encode_stream p) x (peer_qpack_encode_stream p) (peer_qpack_decode_stream p) (goaway_id p) (peer_goaway_id p).
Definition set_peer_qpack_encode_stream (x : option Z) (p : Peers) : Peers :=
  mkPeers (control_stream p) (peer_control_stream p) (qpack_encode_stream p) (qpack_decode_stream p) x (peer_qpack_decode_stream p) (goaway_id p) (peer_goaway_id p).
Definition set_peer_qpack_decode_stream (x : option Z) (p : Peers) : Peers :=
  mkPeers (control_stream p) (peer_control_stream p) (qpack_encode_stream p) (qpack_decode_stream p) (peer_qpack_encode_stream p) x (goaway_id p) (peer_goaway_id p).
Definition set_goaway (x : option Z) (p : Peers) : Peers :=
  mkPeers (control_stream p) (peer_control_stream p) (qpack_encode_stream p) (qpack_decode_stream p) (peer_qpack_encode_stream p) (peer_qpack_decode_stream p) x (peer_goaway_id p).

Definition set_pending_send (x : list Z) (q : Queues) : Queues :=
  mkQueues x (pending_recv q) (resume_recv q) (pending_concurrency q) (pending_channel q).
Definition set_pending_recv (x : gset Z) (q : Queues) : Queues :=
  mkQueues (pending_send q) x (resume_recv q) (pending_concurrency q) (pending_channel q).
Definition set_resume_recv (x : list Z) (q : Queues) : Queues :=
  mkQueues (pending_send q) (pending_recv q) x (pending_concurrency q) (pending_channel q).
Definition set_pending_concurrency (x : list Z) (q : Queues) : Queues :=
  mkQueues (pending_send q) (pending_recv q) (resume_recv q) x (pending_channel q).
Definition set_pending_channel (x : gset Z) (q : Queues) : Queues :=
  mkQueues (pending_send q) (pending_recv q) (resume_recv q) (pending_concurrency q) x.

Definition on_peers {E} (f : Peers → Peers) : ST Streams E () := modify_st (λ s, set_peers (f (peers s)) s).
Definition on_queues {E} (f : Queues → Queues) : ST Streams E () := modify_st (λ s, set_queues (f (queues s)) s).

(** ** Queues and counts *)

Definition decrease_current_concurrency {E} : ST Streams E () :=
  s ← get_st; n ← lift_res (u32_check (working_stream_num s - 1)); put_st (set_working n s).
Definition increase_current_concurrency {E} : ST Streams E () :=
  s ← get_st; n ← lift_res (u32_check (working_stream_num s + 1)); put_st (set_working n s).
Definition current_concurrency (s : Streams) : Z := working_stream_num s.
Definition reach_max_concurrency (s : Streams) : bool := max_stream_concurrency s <=? working_stream_num s.

Definition push_back_pending_send {E} (id : Z) : ST Streams E () :=
  on_queues (λ q, set_pending_send (pending_send q ++ [id]) q).
Definition next_stream {E} : ST Streams E (option Z) :=
  s ← get_st;
  match pending_send (queues s) with
  | [] => mret None
  | id :: rest => _ ← on_queues (set_pending_send rest); mret (Some id)
  end.
Definition pending_stream_len (s : Streams) : Z := len (pending_send (queues s)).
Definition push_back_pending_concurrency {E} (id : Z) : ST Streams E () :=
  on_queues (λ q, set_pending_concurrency (pending_concurrency q ++ [id]) q).
Definition pop_front_pending_concurrency {E} : ST Streams E (option Z) :=
  s ← get_st;
  match pending_concurrency (queues s) with
  | [] => mret None
  | id :: rest => _ ← on_queues (set_pending_concurrency rest); mret (Some id)
  end.
Definition stream_pend_channel {E} (id : Z) : ST Streams E () :=
  on_queues (λ q, set_pending_channel ({[ id ]} ∪ pending_channel q) q).
Definition is_stream_channel_pending (id : Z) (s : Streams) : bool := bool_decide (id ∈ pending_channel (queues s)).

(** [try_consume_pending_concurrency]: a turn takes an identifier. *)
Fixpoint consume_loop {E} (fuel : nat) : ST Streams E () :=
  match fuel with
  | O => panic
  | S fuel =>
      s ← get_st;
      if reach_max_concurrency s then mret ()
      else
        o ← pop_front_pending_concurrency;
        match o with
        | Some id => _ ← push_back_pending_send id; _ ← increase_current_concurrency; consume_loop fuel
        | None => mret ()
        end
  end.
Definition try_consume_pending_concurrency {E} : ST Streams E () :=
  s ← get_st; consume_loop (S (length (pending_concurrency (queues s)))).

Definition pend_stream_recv {E} (id : Z) : ST Streams E () :=
  on_queues (λ q, set_pending_recv ({[ id ]} ∪ pending_recv q) q).
Definition resume_stream_recv {E} (id : Z) : ST Streams E () :=
  on_queues (λ q, set_resume_recv (resume_recv q ++ [id]) (set_pending_recv (pending_recv q ∖ {[ id ]}) q)).
Definition is_stream_recv_pending (id : Z) (s : Streams) : bool := bool_decide (id ∈ pending_recv (queues s)).
Definition get_resume_stream_id {E} : ST Streams E (option Z) :=
  s ← get_st;
  match resume_recv (queues s) with
  | [] => mret None
  | id :: rest => _ ← on_queues (set_resume_recv rest); mret (Some id)
  end.
Definition frame_acceptable (id : Z) (s : Streams) : bool :=
  negb (is_stream_recv_pending id s) && negb (is_stream_channel_pending id s).

(** ** Identifiers

    [fetch_add] wraps around. *)

Definition checked_id (id : Z) : option Z := if HTTP3_MAX_STREAM_ID <? id then None else Some id.
Definition get_next_uni_stream_id {E} : ST Streams E (option Z) :=
  s ← get_st;
  let id := next_uni_stream_id s in
  _ ← put_st (set_next_ids (wrap64 (id + 4)) (next_bidi_stream_id s) s);
  mret (checked_id id).
Definition get_next_bidi_stream_id {E} : ST Streams E (option Z) :=
  s ← get_st;
  let id := next_bidi_stream_id s in
  _ ← put_st (set_next_ids (next_uni_stream_id s) (wrap64 (id + 4)) s);
  mret (checked_id id).

(** A stream of ours, opened when it is asked for first. *)
Definition own_stream_id {E} (get : Peers → option Z) (set : option Z → Peers → Peers) : ST Streams E (option Z) :=
  s ← get_st;
  match get (peers s) with
  | Some id => mret (Some id)
  | None => id ← get_next_uni_stream_id; _ ← on_peers (set id); mret id
  end.
Definition control_stream_id {E} : ST Streams E (option Z) := own_stream_id control_stream set_control_stream.
Definition qpack_decode_stream_id {E} : ST Streams E (option Z) := own_stream_id qpack_decode_stream set_qpack_decode_stream.
Definition qpack_encode_stream_id {E} : ST Streams E (option Z) := own_stream_id qpack_encode_stream set_qpack_encode_stream.

(** A stream of the peer: there is one of each kind. *)
Definition set_peer_stream_id (get : Peers → option Z) (set : option Z → Peers → Peers) (id : Z) : ST Streams DispatchErrorKind () :=
  s ← get_st;
  match get (peers s) with
  | Some old_id => if old_id =? id then mret () else throw (connection_error H3StreamCreationError)
  | None => on_peers (set (Some id))
  end.
Definition set_peer_qpack_encode_stream_id : Z → ST Streams DispatchErrorKind () :=
  set_peer_stream_id peer_qpack_encode_stream set_peer_qpack_encode_stream.
Definition set_peer_control_stream_id : Z → ST Streams DispatchErrorKind () :=
  set_peer_stream_id peer_control_stream set_peer_control_stream.
Definition set_peer_qpack_decode_stream_id : Z → ST Streams DispatchErrorKind () :=
  set_peer_stream_id peer_qpack_decode_stream set_peer_qpack_decode_stream.

(** [set_goaway_id]. *)
Definition set_goaway_id (id : Z) : ST Streams DispatchErrorKind () :=
  s ← get_st;
  match goaway_id (peers s) with
  | Some old => if old <? id then throw (connection_error H3InternalError) else on_peers (set_goaway (Some id))
  | None => on_peers (set_goaway (Some id))
  end.

(** ** Fields of a stream *)

Definition with_stream {A} (id : Z) (m : ST BidirectionalStream DispatchErrorKind A) : ST Streams DispatchErrorKind A := λ s,
  match bidirectional_stream s !! id with
  | Some st => let '(st, r) := m st in (set_bidi (<[id := st]> (bidirectional_stream s)) s, r)
  | None => (s, Err (connection_error H3InternalError))
  end.
Definition get_header (id : Z) : ST Streams DispatchErrorKind (option Frame) :=
  with_stream id (st ← get_st; _ ← put_st (bs_set_header None st); mret (bs_header st)).
Definition set_encoding (id : Z) (encoding : bool) : ST Streams DispatchErrorKind () :=
  with_stream id (modify_st (bs_set_encoding encoding)).
Definition encoding (id : Z) : ST Streams DispatchErrorKind bool :=
  with_stream id (st ← get_st; mret (bs_encoding st)).

(** ** Requests

    [new_unidirectional_stream]: the stream of a request is bidirectional. *)
Definition new_unidirectional_stream (header : Frame) (data : BodyDataRef) (rx : Z) : ST Streams DispatchErrorKind () :=
  o ← get_next_bidi_stream_id;
  match o with
  | None => throw (connection_error H3GeneralProtocolError)
  | Some id =>
      _ ← modify_st (λ s, set_bidi (<[id := BidirectionalStream_new rx header data]> (bidirectional_stream s)) s);
      s ← get_st;
      if reach_max_concurrency s then push_back_pending_concurrency id
      else _ ← push_back_pending_send id; increase_current_concurrency
  end.

(** ** The world *)

Inductive DataReadState := ReadClosed | ReadPending | ReadReady (f : Frame) | ReadFinish.

Class H3World (W : Type) := {
  (** A poll of the send of a message over a channel. *)
  poll_send : Z → RespMessage → W → W * SendPoll;
  (** A [poll_read] of the body of a stream, with a buffer of some size. *)
  poll_body : Z → Z → W → W * PollRead;
  stream_order : gmap Z BidirectionalStream → list Z;
  pending_order : gset Z → list Z }.

Section world.
Context {W : Type} `{H3World W}.

(** A method of a stream, and of the streams, that polls. *)
#[local] Abbreviation BM := (ST (BidirectionalStream * W) DispatchErrorKind).
#[local] Abbreviation SM := (ST (Streams * W) DispatchErrorKind).

Definition on_bidi {E} (f : BidirectionalStream → BidirectionalStream) : ST (BidirectionalStream * W) E () :=
  modify_st (λ p, (f p.1, p.2)).
Definition on_streams {E A} (m : ST Streams E A) : ST (Streams * W) E A := zoom fst (λ x p, (x, p.2)) m.

(** A method of the stream [id], or [absent] where there is none. *)
Definition with_bidi {E A} (id : Z) (absent : result E A) (m : ST (BidirectionalStream * W) E A) : ST (Streams * W) E A := λ p,
  match bidirectional_stream p.1 !! id with
  | Some st => let '((st, w), r) := m (st, p.2) in ((set_bidi (<[id := st]> (bidirectional_stream p.1)) p.1, w), r)
  | None => (p, absent)
  end.

(** [transmit_message]: an error is that the receiver is gone. *)
Definition transmit_message (message : RespMessage) : BM Poll := λ p,
  match poll_send (bs_frame_tx p.1) message p.2 with
  | (w, SendReady) => ((p.1, w), Ok Ready)
  | (w, SendGone) => ((p.1, w), Err KindChannelClosed)
  | (w, SendBlocked) => ((bs_set_curr (Some message) p.1, w), Ok Pending)
  end.

(** ** Frames for a request *)

Definition is_headers (f : Frame) : bool := match fr_payload f with PHeaders _ _ => true | _ => false end.

(** The first [match] of [send_frame]: the state after a frame, [None] where the
    frame is dropped. *)
Definition state_after (headers : bool) (st : H3StreamState) : result DispatchErrorKind (option H3StreamState) :=
  match st with
  | Sending => if headers then Ok (Some HeadersReceived) else Err (connection_error H3FrameUnexpected)
  | HeadersReceived => if headers then Err (connection_error H3FrameUnexpected) else Ok (Some BodyReceived)
  | BodyReceived => Ok (Some (if headers then TrailerReceived else BodyReceived))
  | TrailerReceived => Err (connection_error H3FrameUnexpected)
  | Shutdown => Ok None
  end.

(** A message goes after those that wait. *)
Definition queue_message (message : RespMessage) : BM Poll :=
  p ← get_st;
  match bs_curr_message p.1 with
  | Some _ => _ ← on_bidi (bs_set_pending (bs_pending_message p.1 ++ [message])); mret Ready
  | None => transmit_message message
  end.

Definition send_frame (id : Z) (frame : Frame) : SM () :=
  r ← with_bidi id (Err KindChannelClosed)
        (p ← get_st;
         o ← lift_res (state_after (is_headers frame) (bs_state p.1));
         match o with
         | None => mret Ready
         | Some st => _ ← on_bidi (bs_set_state st); queue_message (RespOutput frame)
         end);
  match r with Ready => mret () | Pending => on_streams (stream_pend_channel id) end.

Definition send_error (id : Z) (error : DispatchErrorKind) : SM () :=
  r ← with_bidi id (Err KindChannelClosed)
        (_ ← on_bidi (bs_set_pending []); transmit_message (RespExit error));
  match r with Ready => mret () | Pending => on_streams (stream_pend_channel id) end.

(** ** The body of a request

    [poll_sized_data] with a buffer of [room] bytes. *)
Definition body_poll_read (id : Z) (room : Z) : BM PollRead := λ p,
  if H2Streams.bd_body (bs_data p.1) then let '(w, r) := poll_body id room p.2 in ((p.1, w), Ok r)
  else (p, Ok (PollReady [])).
Definition poll_sized_data (id : Z) (room : Z) : SM DataReadState :=
  r ← with_bidi id (Err (connection_error H3InternalError))
        (p ← get_st;
         if decide (bs_state p.1 = Shutdown) then mret None
         else r ← body_poll_read id room; mret (Some r));
  match r with
  | None => mret ReadClosed
  | Some (PollReady data) =>
      mret (if 0 <? len data then ReadReady (mkFrame DATA_FRAME_TYPE (PData data)) else ReadFinish)
  | Some PollError => throw (connection_error H3InternalError)
  | Some PollPending => _ ← on_streams (push_back_pending_send id); mret ReadPending
  end.

(** ** The end of streams *)

(** [transmit_message(..).is_pending()]: an error is ignored. *)
Definition transmit_pending {E} (message : RespMessage) : ST (BidirectionalStream * W) E bool :=
  r ← H2Manager.attempt (transmit_message message);
  match r with inl Pending => mret true | _ => mret false end.

Definition shutdown_stream (id : Z) (err : H3ErrorCode) : SM () :=
  p ← get_st;
  match bidirectional_stream p.1 !! id with
  | None => mret ()
  | Some _ =>
      b ← with_bidi id Panic (transmit_pending (RespExit (KindH3 (Stream id err))));
      _ ← (if b : bool then on_streams (stream_pend_channel id) else mret ());
      on_streams decrease_current_concurrency
  end.

(** The loop of [goaway] and of [shutdown] over the streams: those of [which]
    are stopped, and the blocked ones are collected. *)
Definition stop_stream {E} (err : DispatchErrorKind) : ST (BidirectionalStream * W) E bool :=
  _ ← on_bidi (λ s, bs_set_data (body_clear (bs_data s)) (bs_set_pending [] (bs_set_header None (bs_set_state Shutdown s))));
  transmit_pending (RespExit err).
Fixpoint stop_loop {E} (which : Z → bool) (err : DispatchErrorKind) (ids pending_channels : list Z) : ST (Streams * W) E (list Z) :=
  match ids with
  | [] => mret pending_channels
  | id :: ids =>
      if which id then
        b ← with_bidi id Panic (stop_stream err);
        stop_loop which err ids (if b : bool then pending_channels ++ [id] else pending_channels)
      else stop_loop which err ids pending_channels
  end.
Fixpoint pend_channels {E} (ids : list Z) : ST Streams E () :=
  match ids with [] => mret () | id :: ids => _ ← stream_pend_channel id; pend_channels ids end.
Definition stop_streams {E} (which : Z → bool) (err : DispatchErrorKind) : ST (Streams * W) E () :=
  p ← get_st;
  pending_channels ← stop_loop which err (stream_order (bidirectional_stream p.1)) [];
  on_streams (pend_channels pending_channels).

(** [goaway]: it compares with [peer_goaway_id], and writes [goaway_id]. *)
Definition goaway (id : Z) : SM () :=
  p ← get_st;
  if (match peer_goaway_id (peers p.1) with Some old => old <? id | None => false end) then
    throw (connection_error H3IdError)
  else if decide (QUICStreamType_from id ≠ ClientInitialBidirectional) then throw (connection_error H3IdError)
  else
    _ ← on_streams (on_peers (set_goaway (Some id)));
    stop_streams (λ i, id <? i) KindGoawayReceived.

Definition shutdown {E} (err : DispatchErrorKind) : ST (Streams * W) E () := stop_streams (λ _, true) err.

Definition finish_stream (id : Z) : SM () :=
  if decide (QUICStreamType_from id ≠ ClientInitialBidirectional) then
    p ← get_st;
    if decide (Some id = peer_control_stream (peers p.1) ∨ Some id = peer_qpack_encode_stream (peers p.1) ∨
               Some id = peer_qpack_decode_stream (peers p.1))
    then throw (connection_error H3ClosedCriticalStream)
    else mret ()
  else
    _ ← on_streams decrease_current_concurrency;
    r ← with_bidi id (Err (connection_error H3InternalError))
          (_ ← on_bidi (bs_set_state Shutdown); queue_message (RespExit KindStreamFinished));
    match r with Ready => mret () | Pending => on_streams (stream_pend_channel id) end.

(** ** Messages that wait

    The inner loop of [poll_blocked_message]: whether the channel has no room. *)
Fixpoint send_pending {E} (messages : list RespMessage) : ST (BidirectionalStream * W) E bool :=
  match messages with
  | [] => mret false
  | message :: rest =>
      _ ← on_bidi (bs_set_pending rest);
      r ← H2Manager.attempt (transmit_message message);
      match r with
      | inl Ready => send_pending rest
      | inl Pending => mret true
      | inr _ => _ ← on_bidi (bs_set_state Shutdown); mret false
      end
  end.

(** A turn of the outer loop. *)
Definition send_waiting {E} : ST (BidirectionalStream * W) E bool :=
  p ← get_st;
  match bs_curr_message p.1 with
  | None => send_pending (bs_pending_message p.1)
  | Some task =>
      let '(w, o) := poll_send (bs_frame_tx p.1) task p.2 in
      match o with
      | SendBlocked => _ ← put_st (p.1, w); mret true
      | SendReady => _ ← put_st (bs_set_curr None p.1, w); send_pending (bs_pending_message p.1)
      | SendGone => _ ← put_st (bs_set_state Shutdown (bs_set_curr None p.1), w); send_pending (bs_pending_message p.1)
      end
  end.

Fixpoint blocked_loop (ids : list Z) (new_set : gset Z) : SM (gset Z) :=
  match ids with
  | [] => mret new_set
  | id :: ids =>
      b ← with_bidi id (Err (connection_error H3InternalError)) send_waiting;
      blocked_loop ids (if b : bool then {[ id ]} ∪ new_set else new_set)
  end.

(** [poll_blocked_message], which is never ready but with an error. *)
Definition poll_blocked_message : SM Poll :=
  p ← get_st;
  new_set ← blocked_loop (pending_order (pending_channel (queues p.1))) ∅;
  _ ← on_streams (on_queues (set_pending_channel new_set));
  mret Pending.
End world.
