(* ===== verification/H3StreamsSpec.v ===== *)
(** * Streams of the HTTP/3 client: what a request is told

    The streams of [H3Streams] implement a simple promise: the task of a request
    is told the frames of its response in their order, and the end, each once,
    through a channel that may be full for a while. *)

From stdpp Require Import gmap.
From S2P Require Import Prelude Headers Parts H3Error H3Frame H3Streams.
From S2P Require H2Window H2Streams H2Manager H2ManagerSpec.
#[local] Open Scope Z_scope.
#[local] Existing Instance H2Manager.SendPoll_eq_dec.
#[local] Set Warnings "-clear-no-such-hyp".

#[local] Abbreviation SendReady := H2Manager.SendReady.
#[local] Abbreviation SendGone := H2Manager.SendGone.
#[local] Abbreviation SendBlocked := H2Manager.SendBlocked.
#[local] Abbreviation Ready := H2Manager.Ready.
#[local] Abbreviation Pending := H2Manager.Pending.

(** ** The promise *)

(** What a task is told; whether it was told the end; whether the stream was cut
    short, after which the messages that waited may be lost. *)
Record Promise := mkPromise { told : list RespMessage; shut : bool; broken : bool }.
Definition tell (m : RespMessage) (q : Promise) : Promise := mkPromise (told q ++ [m]) (shut q) (broken q).
Definition close (m : RespMessage) (q : Promise) : Promise := mkPromise (told q ++ [m]) true (broken q).
Definition break (q : Promise) : Promise := mkPromise (told q) (shut q) true.

Definition frame_of (m : RespMessage) : list Frame := match m with RespOutput f => [f] | RespExit _ => [] end.
Definition frames_told (q : Promise) : list Frame := told q ≫= frame_of.

(** The frames of a response, or the first of them: a HEADERS frame, then others,
    then perhaps a HEADERS frame.  (RFC 9114 section 4.1 also has responses with
    several HEADERS frames at the start, and trailers without a body.) *)
Definition well_ordered (l : list Frame) : Prop :=
  l = [] ∨ ∃ h body trailer, l = h :: body ++ trailer ∧ is_headers h = true ∧ Forall (λ f, is_headers f = false) body ∧
    (trailer = [] ∨ body ≠ [] ∧ ∃ t, trailer = [t] ∧ is_headers t = true).

(** The operations, with the rest of them in [OpBody] and the following. *)
Inductive Op :=
  | OpNew (header : Frame) (data : H2Streams.BodyDataRef) (tx : Z)
  | OpFrame (id : Z) (f : Frame)
  | OpFinish (id : Z)
  | OpBlocked
  | OpError (id : Z) (e : DispatchErrorKind)
  | OpShutdownStream (id : Z) (c : H3ErrorCode)
  | OpGoaway (id : Z)
  | OpShutdown (e : DispatchErrorKind)
  | OpBody (id room : Z)
  | OpHeader (id : Z)
  | OpEncoding (id : Z) (b : bool)
  | OpConsume
  | OpNext.

(** What the operations promise; [gone] tells whether the task of a stream is
    still there to be told. *)
Inductive spec_step (gone : Z → bool) : Op → gmap Z Promise → result DispatchErrorKind () → gmap Z Promise → Prop :=
  | spec_new h d tx a id : a !! id = None → spec_step gone (OpNew h d tx) a (Ok ()) (<[id := mkPromise [] false false]> a)
  | spec_new_full h d tx a : spec_step gone (OpNew h d tx) a (Err (connection_error H3GeneralProtocolError)) a
  | spec_frame_absent id f a : a !! id = None → spec_step gone (OpFrame id f) a (Err KindChannelClosed) a
  | spec_frame_lost id f a q r : a !! id = Some q → broken q || gone id = true → spec_step gone (OpFrame id f) a r a
  | spec_frame_told id f a q : a !! id = Some q → shut q = false → well_ordered (frames_told q ++ [f]) →
      spec_step gone (OpFrame id f) a (Ok ()) (<[id := tell (RespOutput f) q]> a)
  | spec_frame_drop id f a q : a !! id = Some q → shut q = true → spec_step gone (OpFrame id f) a (Ok ()) a
  | spec_frame_refuse id f a q : a !! id = Some q → shut q = false → ¬ well_ordered (frames_told q ++ [f]) →
      spec_step gone (OpFrame id f) a (Err (connection_error H3FrameUnexpected)) a
  | spec_finish_other id a r : QUICStreamType_from id ≠ ClientInitialBidirectional →
      r = Ok () ∨ r = Err (connection_error H3ClosedCriticalStream) → spec_step gone (OpFinish id) a r a
  | spec_finish_absent id a : a !! id = None → spec_step gone (OpFinish id) a (Err (connection_error H3InternalError)) a
  | spec_finish_lost id a q r : a !! id = Some q → broken q || gone id = true → spec_step gone (OpFinish id) a r a
  | spec_finish id a q : a !! id = Some q → spec_step gone (OpFinish id) a (Ok ()) (<[id := close (RespExit KindStreamFinished) q]> a)
  | spec_blocked a : spec_step gone OpBlocked a (Ok ()) a
  | spec_error id e a r : spec_step gone (OpError id e) a r (alter break id a)
  | spec_shutdown_stream id c a : spec_step gone (OpShutdownStream id c) a (Ok ()) (alter break id a)
  | spec_goaway id a : spec_step gone (OpGoaway id) a (Ok ()) (map_imap (λ i q, Some (if id <? i then break q else q)) a)
  | spec_goaway_refuse id a : QUICStreamType_from id ≠ ClientInitialBidirectional →
      spec_step gone (OpGoaway id) a (Err (connection_error H3IdError)) a
  | spec_shutdown e a : spec_step gone (OpShutdown e) a (Ok ()) (break <$> a)
  | spec_body id room a r : spec_step gone (OpBody id room) a r a
  | spec_header id a r : spec_step gone (OpHeader id) a r a
  | spec_encoding id b a r : spec_step gone (OpEncoding id b) a r a
  | spec_consume a : spec_step gone OpConsume a (Ok ()) a
  | spec_next a : spec_step gone OpNext a (Ok ()) a.

(** ** The order of frames *)

(** The frames that a stream in some state has passed on. *)
Definition phase_ok (st : H3StreamState) (l : list Frame) : Prop :=
  match st with
  | Sending => l = []
  | HeadersReceived => ∃ h, l = [h] ∧ is_headers h = true
  | BodyReceived => ∃ h body, l = h :: body ∧ is_headers h = true ∧ body ≠ [] ∧ Forall (λ f, is_headers f = false) body
  | TrailerReceived => ∃ h body t, l = h :: body ++ [t] ∧ is_headers h = true ∧ body ≠ [] ∧
      Forall (λ f, is_headers f = false) body ∧ is_headers t = true
  | Shutdown => True
  end.

Lemma well_ordered_cons h l :
  well_ordered (h :: l) ↔ is_headers h = true ∧
    (Forall (λ f, is_headers f = false) l ∨
     ∃ body t, l = body ++ [t] ∧ body ≠ [] ∧ Forall (λ f, is_headers f = false) body ∧ is_headers t = true).
Proof.
  split.
  - intros [?|(h' & body & tr & [= <- ->] & Hh & Hb & [->|(Hne & t & -> & Ht)])]; [done|..]; split; try done.
    + left. by rewrite app_nil_r.
    + right. by exists body, t.
  - intros (Hh & [Hl|(body & t & -> & Hne & Hb & Ht)]); right.
    + exists h, l, []. rewrite app_nil_r. split_and!; try done. by left.
    + exists h, body, [t]. split_and!; try done. right. split; [done|by exists t].
Qed.

Lemma phase_step st l f :
  st ≠ Shutdown → phase_ok st l →
  match state_after (is_headers f) st with
  | Ok (Some st') => well_ordered (l ++ [f]) ∧ phase_ok st' (l ++ [f]) ∧ st' ≠ Shutdown
  | Err e => ¬ well_ordered (l ++ [f]) ∧ e = connection_error H3FrameUnexpected
  | _ => False
  end.
Proof.
  intros Hs Hp. destruct st; cbn in *; [| | | |done].
  - subst l. cbn. destruct (is_headers f) eqn:Hf.
    + split_and!; [|by exists f|done]. apply well_ordered_cons. split; [done|by left].
    + split; [|done]. rewrite well_ordered_cons. intros [? _]. congruence.
  - destruct Hp as (h & -> & Hh). cbn. destruct (is_headers f) eqn:Hf.
    + split; [|done]. rewrite well_ordered_cons. intros [_ [Hl|(body & t & E & Hne & _)]].
      * rewrite Forall_singleton in Hl. cbv beta in Hl. congruence.
      * destruct body as [|? []]; done.
    + split_and!; [|exists h, [f]; split_and!; try done; by apply Forall_singleton|done].
      apply well_ordered_cons. split; [done|left; by apply Forall_singleton].
  - destruct Hp as (h & body & -> & Hh & Hne & Hb). cbn. destruct (is_headers f) eqn:Hf.
    + split_and!; [|by exists h, body, f|done]. apply well_ordered_cons. split; [done|]. right. by exists body, f.
    + assert (Forall (λ f, is_headers f = false) (body ++ [f])) by (apply Forall_app; split; [done|by apply Forall_singleton]).
      split_and!; [|exists h, (body ++ [f]); split_and!; try done; by destruct body|done].
      apply well_ordered_cons. split; [done|by left].
  - destruct Hp as (h & body & t & -> & Hh & Hne & Hb & Ht). split; [|done]. cbn. rewrite well_ordered_cons.
    intros [_ [Hl|(body' & t' & E & _ & Hb' & _)]].
    + rewrite !Forall_app, Forall_singleton in Hl. cbv beta in Hl. destruct Hl as [[_ ?] _]. congruence.
    + apply app_inj_tail in E as [<- _]. rewrite Forall_app, Forall_singleton in Hb'. cbv beta in Hb'. destruct Hb'. congruence.
Qed.

(** ** Channels *)

(** What a channel was given, ever, and whether nobody listens to it any more. *)
Class H3Laws (W : Type) `{H3World W} := {
  given : Z → W → list RespMessage;
  gone : Z → W → bool;
  poll_send_given c m w c' :
    given c' (poll_send c m w).1 = given c' w ++ (if decide ((poll_send c m w).2 = SendReady ∧ c = c') then [m] else []);
  poll_send_gone c m w : (poll_send c m w).2 = SendGone ↔ gone c (poll_send c m w).1 = true;
  poll_send_stays c m w c' : gone c' w = true → gone c' (poll_send c m w).1 = true;
  poll_body_given id room w c : given c (poll_body id room w).1 = given c w;
  poll_body_stays id room w c : gone c w = true → gone c (poll_body id room w).1 = true;
  stream_order_keys m id : id ∈ stream_order m ↔ is_Some (m !! id);
  pending_order_keys x id : id ∈ pending_order x ↔ id ∈ x }.

Section world.
Context {W : Type} `{H3Laws W}.

#[local] Abbreviation SM := (ST (Streams * W) DispatchErrorKind).

(** A world that came later, where only the channel [c] was given something. *)
Definition wstep (c : Z) (w w' : W) : Prop :=
  (∀ c', c' ≠ c → given c' w' = given c' w) ∧ (∀ c', gone c' w = true → gone c' w' = true).

Lemma wstep_trans c w1 w2 w3 : wstep c w1 w2 → wstep c w2 w3 → wstep c w1 w3.
Proof. intros [H1 H2] [H3 H4]. split; [intros; by rewrite H3, H1|auto]. Qed.

Lemma wstep_refl c w : wstep c w w.
Proof. by split. Qed.

Lemma poll_send_wstep c m w : wstep c w (poll_send c m w).1.
Proof.
  split; [|apply poll_send_stays]. intros c' Hc. rewrite poll_send_given. rewrite decide_False by by intros [_ ->]. by rewrite app_nil_r.
Qed.

Definition waits (s : BidirectionalStream) : list RespMessage := option_list (bs_curr_message s) ++ bs_pending_message s.

(** The stream keeps its promise: nothing is lost, repeated or reordered, while
    the task is there; afterwards it was told the first part of it. *)
Definition keeps (s : BidirectionalStream) (q : Promise) (w : W) : Prop :=
  broken q = false →
  let c := bs_frame_tx s in
  if gone c w then given c w `prefix_of` told q
  else given c w ++ waits s = told q ∧ (bs_curr_message s = None → bs_pending_message s = []) ∧
       (bs_state s = Shutdown ↔ shut q = true) ∧ phase_ok (bs_state s) (frames_told q).

Lemma keeps_prefix s q w : keeps s q w → broken q = false → given (bs_frame_tx s) w `prefix_of` told q.
Proof. intros Hk Hb. specialize (Hk Hb). cbn in Hk. destruct (gone _ _); [done|]. destruct Hk as [<- _]. by eexists. Qed.

(** The other streams see no difference. *)
Lemma keeps_later s q w w' :
  given (bs_frame_tx s) w' = given (bs_frame_tx s) w → (gone (bs_frame_tx s) w = true → gone (bs_frame_tx s) w' = true) →
  keeps s q w → keeps s q w'.
Proof.
  intros Hg Hm Hk Hb. pose proof (keeps_prefix _ _ _ Hk Hb) as Hp. specialize (Hk Hb). cbn in *. rewrite Hg.
  destruct (gone (bs_frame_tx s) w') eqn:E; [done|]. destruct (gone (bs_frame_tx s) w); [naive_solver|done].
Qed.

(** ** The invariant

    [X] are the streams whose channel has a message that waits. *)
Record inv (X : gset Z) (p : Streams * W) (a : gmap Z Promise) : Prop := mkInv {
  inv_dom id : is_Some (bidirectional_stream p.1 !! id) ↔ is_Some (a !! id);
  inv_keeps id s q : bidirectional_stream p.1 !! id = Some s → a !! id = Some q → keeps s q p.2;
  inv_set id : id ∈ X → is_Some (bidirectional_stream p.1 !! id);
  inv_wait id s : bidirectional_stream p.1 !! id = Some s → bs_curr_message s ≠ None → id ∈ X;
  inv_chan i j s t : bidirectional_stream p.1 !! i = Some s → bidirectional_stream p.1 !! j = Some t → bs_frame_tx s = bs_frame_tx t → i = j;
  inv_ids id : is_Some (bidirectional_stream p.1 !! id) → id < next_bidi_stream_id p.1;
  inv_next : 0 ≤ next_bidi_stream_id p.1;
  inv_work : 0 ≤ working_stream_num p.1 ≤ max_stream_concurrency p.1 ∧ max_stream_concurrency p.1 = DEFAULT_MAX_CONCURRENT_STREAMS;
  inv_goaway : peer_goaway_id (peers p.1) = None }.

Definition refines (p : Streams * W) (a : gmap Z Promise) : Prop := inv (pending_channel (queues p.1)) p a.

(** A step of one stream. *)
Lemma inv_step X X' p a id s q s' q' w' :
  inv X p a → bidirectional_stream p.1 !! id = Some s → a !! id = Some q →
  wstep (bs_frame_tx s) p.2 w' → bs_frame_tx s' = bs_frame_tx s → keeps s' q' w' →
  X ∖ {[ id ]} ⊆ X' → X' ⊆ X ∪ {[ id ]} → (bs_curr_message s' ≠ None → id ∈ X') →
  inv X' (set_bidi (<[id := s']> (bidirectional_stream p.1)) p.1, w') (<[id := q']> a).
Proof.
  intros I Hs Hq [Hg Hm] Htx Hk Hx1 Hx2 Hc. destruct I as [Id Ik Ix Iw Ic Ii In Iw' Ig]. split; cbn -[lookup]; try done.
  - intros i. destruct (decide (i = id)) as [->|Hne]; [by rewrite !lookup_insert_eq|by rewrite !lookup_insert_ne].
  - intros i t r. destruct (decide (i = id)) as [->|Hne].
    + rewrite !lookup_insert_eq. by intros [= <-] [= <-].
    + rewrite !lookup_insert_ne by done. intros Ht Hr. apply (keeps_later _ _ p.2); [|apply Hm|by eapply Ik].
      apply Hg. intros E. apply Hne. by eapply Ic.
  - intros i Hi. destruct (decide (i = id)) as [->|Hne]; [by rewrite lookup_insert_eq|]. rewrite lookup_insert_ne by done.
    apply Ix. by apply Hx2, elem_of_union in Hi as [?|?%elem_of_singleton].
  - intros i t. destruct (decide (i = id)) as [->|Hne].
    + rewrite lookup_insert_eq. by intros [= <-].
    + rewrite lookup_insert_ne by done. intros Ht Hn. apply Hx1, elem_of_difference. split; [by eapply Iw|by intros ?%elem_of_singleton].
  - intros i j t u. destruct (decide (i = id)) as [->|Hi], (decide (j = id)) as [->|Hj]; rewrite ?lookup_insert_eq, ?lookup_insert_ne by done; try done.
    + intros [= <-] Hu. rewrite Htx. by apply Ic.
    + intros Ht [= <-]. rewrite Htx. by apply Ic.
    + by apply Ic.
  - intros i. destruct (decide (i = id)) as [->|Hne]; [|rewrite lookup_insert_ne by done; by apply Ii]. intros _. apply Ii. by eexists.
Qed.
(** ** One stream *)

(** What any method does to the channel of its stream. *)
Definition calm (s : BidirectionalStream) (w : W) (s' : BidirectionalStream) (w' : W) : Prop :=
  wstep (bs_frame_tx s) w w' ∧ bs_frame_tx s' = bs_frame_tx s ∧
  (gone (bs_frame_tx s) w = true → given (bs_frame_tx s) w' = given (bs_frame_tx s) w).

Lemma calm_refl s s' w : bs_frame_tx s' = bs_frame_tx s → calm s w s' w.
Proof. intros. split_and!; [apply wstep_refl|done|done]. Qed.

Lemma calm_trans s w s1 w1 s2 w2 : calm s w s1 w1 → calm s1 w1 s2 w2 → calm s w s2 w2.
Proof.
  intros (H1 & H2 & H3) (H4 & H5 & H6). rewrite H2 in *. split_and!; [by eapply wstep_trans|congruence|].
  intros Hg. rewrite H6; [auto|]. by apply H1.
Qed.

Lemma calm_send m s w s' : bs_frame_tx s' = bs_frame_tx s → calm s w s' (poll_send (bs_frame_tx s) m w).1.
Proof.
  intros Ht. split_and!; [apply poll_send_wstep|done|]. intros Hg. rewrite poll_send_given, decide_False; [by rewrite app_nil_r|].
  intros [Hr _]. assert ((poll_send (bs_frame_tx s) m w).2 = SendGone) as Hs by (by apply poll_send_gone, poll_send_stays). congruence.
Qed.

(** A stream that is cut short, or whose task has gone, promises no more. *)
Lemma keeps_lost s q w s' w' :
  keeps s q w → calm s w s' w' → broken q || gone (bs_frame_tx s) w = true → keeps s' q w'.
Proof.
  intros Hk (Hw & Ht & Hg) Hl Hb. pose proof (keeps_prefix _ _ _ Hk Hb) as Hp. rewrite Hb in Hl. cbn in *. rewrite Ht.
  assert (gone (bs_frame_tx s) w' = true) as -> by by apply Hw. by rewrite Hg.
Qed.

Lemma keeps_broken s q w : broken q = true → keeps s q w.
Proof. intros Hb Hb'. congruence. Qed.

(** The task was found to be gone. *)
Lemma keeps_gone s q w s' w' :
  keeps s q w → calm s w s' w' → gone (bs_frame_tx s) w' = true → given (bs_frame_tx s) w' = given (bs_frame_tx s) w → keeps s' q w'.
Proof.
  intros Hk (Hw & Ht & _) Hg He Hb. pose proof (keeps_prefix _ _ _ Hk Hb) as Hp. cbn. by rewrite Ht, Hg, He.
Qed.

Lemma transmit_eq m s w :
  transmit_message m (s, w) =
    match (poll_send (bs_frame_tx s) m w).2 with
    | SendReady => ((s, (poll_send (bs_frame_tx s) m w).1), Ok Ready)
    | SendGone => ((s, (poll_send (bs_frame_tx s) m w).1), Err KindChannelClosed)
    | SendBlocked => ((bs_set_curr (Some m) s, (poll_send (bs_frame_tx s) m w).1), Ok Pending)
    end.
Proof. unfold transmit_message. cbn. by destruct (poll_send _ _ _) as [w' []]. Qed.

Lemma queue_calm m s w :
  let '((s', w'), r) := queue_message m (s, w) in
  calm s w s' w' ∧ r ≠ Panic ∧ (bs_curr_message s' ≠ None → bs_curr_message s ≠ None ∨ r = Ok Pending) ∧
  (r = Ok Pending → bs_curr_message s' ≠ None).
Proof.
  unfold queue_message. rewrite bind_st. cbn [get_st fst]. destruct (bs_curr_message s) as [c|] eqn:Hc.
  - cbn. split_and!; [by apply calm_refl|done|by left|done].
  - rewrite transmit_eq. destruct (poll_send _ _ _).2 eqn:Ho; split_and!; try done; try (by apply calm_send); try (by intros Hs; destruct (Hs Hc)).
    by right.
Qed.

(** A message is queued behind those that wait. *)
Lemma queue_keeps m st s w q q' :
  keeps s q w → broken q = false → gone (bs_frame_tx s) w = false →
  told q' = told q ++ [m] → broken q' = false → (st = Shutdown ↔ shut q' = true) → phase_ok st (frames_told q') →
  let '((s', w'), r) := queue_message m (bs_set_state st s, w) in
  (gone (bs_frame_tx s) w' = true ∧ keeps s' q w') ∨ (is_Ok r = true ∧ keeps s' q' w').
Proof.
  intros Hk Hb Hg Ht Hb' Hs Hp. pose proof Hk as Hk'. specialize (Hk Hb). cbn in Hk. rewrite Hg in Hk. destruct Hk as (Hgiv & Hpend & _ & _).
  unfold queue_message. rewrite bind_st. cbn [get_st fst]. change (bs_curr_message (bs_set_state st s)) with (bs_curr_message s).
  destruct (bs_curr_message s) as [c|] eqn:Hc.
  - cbn. right. split; [done|]. intros _. cbn -[phase_ok]. rewrite Hg. unfold waits in *. cbn. rewrite Hc in *. cbn in *.
    split_and!; [|done..]. by rewrite Ht, <-Hgiv, <-app_assoc.
  - unfold waits in Hgiv. rewrite Hc, (Hpend eq_refl) in Hgiv. cbn in Hgiv. rewrite app_nil_r in Hgiv.
    rewrite transmit_eq. cbn [bs_frame_tx bs_set_state]. set (c := bs_frame_tx s) in *.
    pose proof (poll_send_gone c m w) as Hog. pose proof (poll_send_given c m w c) as Hsg.
    pose proof (calm_send m s w (bs_set_state st s) eq_refl) as Hcalm. fold c in Hcalm.
    destruct (poll_send c m w) as [w' o]. cbn [fst snd] in *. destruct o.
    + right. split; [done|]. intros _. cbn -[phase_ok]. fold c. rewrite decide_True in Hsg by done.
      destruct (gone c w'); [by apply proj2 in Hog; specialize (Hog eq_refl)|]. unfold waits. cbn -[phase_ok]. rewrite Hc, (Hpend eq_refl). cbn -[phase_ok].
      rewrite app_nil_r, Hsg, Hgiv, Ht. by split_and!.
    + left. assert (gone c w' = true) by by apply Hog. split; [done|]. rewrite decide_False, app_nil_r in Hsg by by intros [? _].
      by eapply keeps_gone.
    + right. split; [done|]. intros _. cbn -[phase_ok]. fold c. rewrite decide_False, app_nil_r in Hsg by by intros [? _].
      destruct (gone c w'); [by apply proj2 in Hog; specialize (Hog eq_refl)|]. unfold waits. cbn -[phase_ok]. rewrite (Hpend eq_refl). cbn -[phase_ok].
      rewrite Hsg, Hgiv, Ht. by split_and!.
Qed.
(** ** Messages for one stream *)

Definition gone_of (p : Streams * W) (id : Z) : bool :=
  match bidirectional_stream p.1 !! id with Some s => gone (bs_frame_tx s) p.2 | None => false end.

Definition outcome {A : Type} (r : result DispatchErrorKind A) : result DispatchErrorKind () :=
  match r with Ok _ => Ok () | Err e => Err e | Panic => Panic end.

(** A method of a stream, and the stream pends if its channel is full. *)
#[local] Abbreviation pended id absent m :=
  (r ← with_bidi id absent m; match r with H2Manager.Ready => mret () | H2Manager.Pending => on_streams (stream_pend_channel id) end).

Lemma inv_same X (p p' : Streams * W) a :
  bidirectional_stream p'.1 = bidirectional_stream p.1 → p'.2 = p.2 → next_bidi_stream_id p'.1 = next_bidi_stream_id p.1 →
  0 ≤ working_stream_num p'.1 ≤ max_stream_concurrency p'.1 → max_stream_concurrency p'.1 = max_stream_concurrency p.1 →
  peer_goaway_id (peers p'.1) = peer_goaway_id (peers p.1) → inv X p a → inv X p' a.
Proof. intros E1 E2 E3 E4 E5 E6 []. split; rewrite ?E1, ?E2, ?E3, ?E5, ?E6; try done. split; [by rewrite <-E5|]. tauto. Qed.

Lemma pended_step (p : Streams * W) a id absent (m : ST (BidirectionalStream * W) DispatchErrorKind H2Manager.Poll) s s' w' r q q' :
  refines p a → bidirectional_stream p.1 !! id = Some s → a !! id = Some q → m (s, p.2) = ((s', w'), r) →
  calm s p.2 s' w' → keeps s' q' w' → (bs_curr_message s' ≠ None → bs_curr_message s ≠ None ∨ r = Ok Pending) →
  let res := pended id absent m p in
  refines res.1 (<[id := q']> a) ∧ res.2 = outcome r ∧ gone_of res.1 id = gone (bs_frame_tx s) w'.
Proof.
  cbv zeta.
  intros I Hs Hq Hm (Hw & Ht & _) Hk Hc. rewrite bind_st. unfold with_bidi. rewrite Hs, Hm.
  pose proof (inv_wait _ _ _ I _ _ Hs) as Hwait. unfold gone_of.
  pose proof (inv_work _ _ _ I) as [Hwk _].
  assert (∀ X, X ∖ {[ id ]} ⊆ pending_channel (queues p.1) → pending_channel (queues p.1) ⊆ X → X ⊆ pending_channel (queues p.1) ∪ {[ id ]} →
    (r = Ok Pending → id ∈ X) → inv X (set_bidi (<[id := s']> (bidirectional_stream p.1)) p.1, w') (<[id := q']> a)) as Hinv.
  { intros X HX1 HX2 HX3 HX4. eapply inv_step; try done; [set_solver|]. intros Hn. destruct (Hc Hn) as [?|?]; auto. }
  destruct r as [[]| |]; cbn -[lookup]; rewrite lookup_insert_eq, Ht; (split; [|done]); unfold refines; cbn.
  2: { eapply inv_same; [| | | | | |apply (Hinv ({[ id ]} ∪ pending_channel (queues p.1)))]; try done; set_solver. }
  all: apply Hinv; try done; set_solver.
Qed.

Lemma pended_absent (p : Streams * W) a id e (m : ST (BidirectionalStream * W) DispatchErrorKind H2Manager.Poll) :
  refines p a → a !! id = None → pended id (Err e) m p = (p, Err e).
Proof.
  intros I Ha. rewrite bind_st. unfold with_bidi. destruct (bidirectional_stream p.1 !! id) eqn:Hs; [|done].
  assert (is_Some (a !! id)) as [? ?] by by eapply inv_dom. congruence.
Qed.

Lemma lookup_stream p a id q : refines p a → a !! id = Some q → ∃ s, bidirectional_stream p.1 !! id = Some s ∧ keeps s q p.2.
Proof.
  intros I Hq. assert (is_Some (bidirectional_stream p.1 !! id)) as [s Hs] by by eapply inv_dom.
  exists s. split; [done|]. by eapply inv_keeps.
Qed.

(** What an operation must do.  It may only panic where it takes one from a
    count of zero. *)
Definition underflow (op : Op) (p : Streams * W) : Prop :=
  working_stream_num p.1 = 0 ∧ match op with OpFinish _ | OpShutdownStream _ _ => True | _ => False end.
Definition simulated (op : Op) (p : Streams * W) (a : gmap Z Promise) (res : (Streams * W) * result DispatchErrorKind ()) : Prop :=
  (res.2 = Panic ∧ underflow op p) ∨
  (res.2 ≠ Panic ∧ ∃ a', spec_step (gone_of res.1) op a res.2 a' ∧ refines res.1 a').

(** A method of a stream that does what an operation must do to it. *)
Definition method_ok (op : Op) (a : gmap Z Promise) (id : Z) (s : BidirectionalStream) (q : Promise) (w : W)
    (res : (BidirectionalStream * W) * result DispatchErrorKind H2Manager.Poll) : Prop :=
  let '((s', w'), r) := res in
  calm s w s' w' ∧ r ≠ Panic ∧ (bs_curr_message s' ≠ None → bs_curr_message s ≠ None ∨ r = Ok Pending) ∧
  ∃ q', keeps s' q' w' ∧ ∀ g, g id = gone (bs_frame_tx s) w' → spec_step g op a (outcome r) (<[id := q']> a).

Lemma pended_simulates op (p : Streams * W) a id absent m s q :
  refines p a → bidirectional_stream p.1 !! id = Some s → a !! id = Some q → method_ok op a id s q p.2 (m (s, p.2)) →
  let res := pended id absent m p in res.2 ≠ Panic ∧ ∃ a', spec_step (gone_of res.1) op a res.2 a' ∧ refines res.1 a'.
Proof.
  intros I Hs Hq Hok. destruct (m (s, p.2)) as [[s' w'] r] eqn:Hm. destruct Hok as (Hcalm & Hn & Hc & q' & Hk & Hspec).
  pose proof (pended_step p a id absent m s s' w' r q q' I Hs Hq Hm Hcalm Hk Hc) as Hp.
  cbv zeta in *. destruct Hp as (Hr & -> & Hg). split; [by destruct r|]. eexists. split; [by apply Hspec|done].
Qed.

(** The message is passed on, or the task is gone. *)
Lemma queue_ok op a id m st s q q' w :
  a !! id = Some q → keeps s q w → broken q = false → gone (bs_frame_tx s) w = false →
  told q' = told q ++ [m] → broken q' = false → (st = Shutdown ↔ shut q' = true) → phase_ok st (frames_told q') →
  (∀ g r, g id = true → spec_step g op a r a) → (∀ g, spec_step g op a (Ok ()) (<[id := q']> a)) →
  method_ok op a id s q w (queue_message m (bs_set_state st s, w)).
Proof.
  intros Hq Hk Hb Hg Ht Hb' Hst Hp Hlost Htold.
  pose proof (queue_calm m (bs_set_state st s) w) as Hc. pose proof (queue_keeps m st s w q q' Hk Hb Hg Ht Hb' Hst Hp) as Hkeep.
  destruct (queue_message _ _) as [[s' w'] r]. destruct Hc as (Hcalm & Hr & Hcurr & _). split; [exact Hcalm|]. split; [done|]. split; [exact Hcurr|].
  destruct Hkeep as [[Hgo Hkq]|[Hok Hkq]].
  - exists q. split; [done|]. intros g Hgi. rewrite insert_id by done. apply Hlost. congruence.
  - exists q'. split; [done|]. intros g _. by destruct r.
Qed.

Lemma frame_method_ok id f a s q w :
  a !! id = Some q → keeps s q w →
  method_ok (OpFrame id f) a id s q w
    ((p ← get_st; o ← lift_res (state_after (is_headers f) (bs_state p.1));
      match o with None => mret Ready | Some st => _ ← on_bidi (bs_set_state st); queue_message (RespOutput f) end) (s, w)).
Proof.
  intros Hq Hk. rewrite bind_st. cbn [get_st fst]. rewrite bind_st. unfold lift_res.
  destruct (broken q || gone (bs_frame_tx s) w) eqn:Hl.
  - assert (∀ g : Z → bool, g id = gone (bs_frame_tx s) w → ∀ r, spec_step g (OpFrame id f) a r (<[id := q]> a)) as Hspec.
    { intros g Hg r. rewrite insert_id by done. apply spec_frame_lost with q; [done|by rewrite Hg]. }
    destruct (state_after _ _) as [[st|]| |] eqn:Hafter; [| | |by destruct (bs_state s), (is_headers f)].
    2-3: split; [by apply calm_refl|split; [done|split; [by left|exists q; split; [done|eauto]]]].
    rewrite bind_st. unfold on_bidi, modify_st. cbn [fst snd]. pose proof (queue_calm (RespOutput f) (bs_set_state st s) w) as Hc.
    destruct (queue_message _ _) as [[s' w'] r]. destruct Hc as (Hcalm & Hr & Hcurr & _). split; [exact Hcalm|]. split; [done|]. split; [exact Hcurr|].
    exists q. split; [by eapply keeps_lost|]. intros g Hg. rewrite insert_id by done. apply spec_frame_lost with q; [done|].
    rewrite Hg. destruct (broken q); [done|]. cbn in *. by apply Hcalm.
  - apply orb_false_iff in Hl as [Hb Hg]. pose proof (Hk Hb) as Hk'. cbn -[phase_ok] in Hk'. rewrite Hg in Hk'. destruct Hk' as (_ & _ & Hst & Hp).
    destruct (decide (bs_state s = Shutdown)) as [Hsh|Hsh].
    + rewrite Hsh. cbn. split; [by apply calm_refl|]. split; [done|]. split; [by left|]. exists q. split; [done|]. intros g _. rewrite insert_id by done.
      eapply spec_frame_drop; [done|by apply Hst].
    + assert (shut q = false) as Hnq by (destruct (shut q); [by destruct Hsh; apply Hst|done]).
      pose proof (phase_step _ _ f Hsh Hp) as Hph. destruct (state_after _ _) as [[st|]| |]; try done.
      * destruct Hph as (Hwo & Hp' & Hst'). rewrite bind_st. unfold on_bidi, modify_st. cbn [fst snd].
        assert (frames_told (tell (RespOutput f) q) = frames_told q ++ [f]) as Hf by by (unfold frames_told; cbn; rewrite bind_app).
        apply (queue_ok _ _ _ _ _ _ _ (tell (RespOutput f) q)); try done; [split; cbn; congruence|by rewrite Hf| |].
        -- intros g r Hgi. apply spec_frame_lost with q; [done|]. by rewrite Hgi, orb_true_r.
        -- intros g. by apply spec_frame_told.
      * destruct Hph as (Hwo & ->). split; [by apply calm_refl|]. split; [done|]. split; [by left|]. exists q. split; [done|]. intros g _.
        rewrite insert_id by done. by eapply spec_frame_refuse.
Qed.

Lemma frame_simulates id f p a : refines p a → simulated (OpFrame id f) p a (send_frame id f p).
Proof.
  intros I. right. unfold send_frame. destruct (a !! id) as [q|] eqn:Hq.
  2: { erewrite pended_absent by done. split; [done|]. exists a. split; [by constructor|done]. }
  destruct (lookup_stream _ _ _ _ I Hq) as (s & Hs & Hk).
  exact (pended_simulates (OpFrame id f) p a id (Err KindChannelClosed) _ s q I Hs Hq (frame_method_ok id f a s q p.2 Hq Hk)).
Qed.

(** ** The end of a stream *)

Lemma work_below (p : Streams * W) a :
  refines p a → 0 ≤ working_stream_num p.1 ≤ 100 ∧ max_stream_concurrency p.1 = 100.
Proof. intros I. pose proof (inv_work _ _ _ I) as [? Hm]. unfold DEFAULT_MAX_CONCURRENT_STREAMS in Hm. lia. Qed.

Lemma h3_decrease_eq {E : Type} (p : Streams * W) a :
  refines p a →
  on_streams decrease_current_concurrency p =
    if working_stream_num p.1 =? 0 then (p, @Panic E ()) else ((set_working (working_stream_num p.1 - 1) p.1, p.2), Ok ()).
Proof.
  intros I. apply work_below in I. destruct p as [s w]. unfold on_streams, zoom, decrease_current_concurrency. rewrite bind_st. cbn [get_st fst snd].
  rewrite bind_st. unfold lift_res, H2Window.u32_check. destruct (Z.eqb_spec (working_stream_num s) 0) as [E0|E0]; cbn in *.
  - by rewrite E0.
  - replace (0 <=? working_stream_num s - 1) with true by lia. by replace (working_stream_num s - 1 <? 2 ^ 32) with true by lia.
Qed.

Lemma refines_working (p : Streams * W) a n :
  refines p a → 0 ≤ n ≤ working_stream_num p.1 → refines (set_working n p.1, p.2) a.
Proof. intros I Hn. pose proof (inv_work _ _ _ I) as [? _]. eapply inv_same; [..|exact I]; cbn; try done; lia. Qed.

Lemma finish_method_ok id a s q w :
  a !! id = Some q → keeps s q w → QUICStreamType_from id = ClientInitialBidirectional →
  method_ok (OpFinish id) a id s q w
    ((_ ← on_bidi (bs_set_state Shutdown); queue_message (RespExit KindStreamFinished)) (s, w)).
Proof.
  intros Hq Hk Ht. rewrite bind_st. unfold on_bidi, modify_st. cbn [fst snd].
  destruct (broken q || gone (bs_frame_tx s) w) eqn:Hl.
  - pose proof (queue_calm (RespExit KindStreamFinished) (bs_set_state Shutdown s) w) as Hc.
    destruct (queue_message _ _) as [[s' w'] r]. destruct Hc as (Hcalm & Hr & Hcurr & _).
    split; [exact Hcalm|]. split; [done|]. split; [exact Hcurr|].
    exists q. split; [by eapply keeps_lost|]. intros g Hg. rewrite insert_id by done. apply spec_finish_lost with q; [done|].
    rewrite Hg. destruct (broken q); [done|]. cbn in *. by apply Hcalm.
  - apply orb_false_iff in Hl as [Hb Hg]. apply (queue_ok _ _ _ _ _ _ _ (close (RespExit KindStreamFinished) q)); try done.
    + intros g r Hgi. apply spec_finish_lost with q; [done|]. by rewrite Hgi, orb_true_r.
    + intros g. by apply spec_finish.
Qed.

Lemma finish_simulates id p a : refines p a → simulated (OpFinish id) p a (finish_stream id p).
Proof.
  intros I. unfold finish_stream. destruct (decide _) as [Ht|Ht].
  - right. rewrite bind_st. cbn [get_st]. destruct (decide _) as [_|_]; (split; [done|]); exists a; (split; [|done]); constructor; auto.
  - assert (QUICStreamType_from id = ClientInitialBidirectional) as Ht' by by destruct (decide (QUICStreamType_from id = ClientInitialBidirectional)).
    rewrite bind_st, (h3_decrease_eq _ _ I). destruct (Z.eqb_spec (working_stream_num p.1) 0) as [E|E]; [by left|]. right.
    pose proof (work_below _ _ I) as [? _]. pose proof (refines_working p a (working_stream_num p.1 - 1) I ltac:(lia)) as I'. clear I.
    set (p1 := (set_working (working_stream_num p.1 - 1) p.1, p.2)) in *. clearbody p1. destruct (a !! id) as [q|] eqn:Hq.
    + destruct (lookup_stream _ _ _ _ I' Hq) as (s & Hs & Hk).
      exact (pended_simulates (OpFinish id) p1 a id _ _ s q I' Hs Hq (finish_method_ok id a s q p1.2 Hq Hk Ht')).
    + erewrite pended_absent by done. split; [done|]. exists a. split; [by constructor|done].
Qed.

Lemma alter_insert_id (a : gmap Z Promise) id q f : a !! id = Some q → <[id := f q]> a = alter f id a.
Proof.
  intros Hq. apply map_eq. intros i. destruct (decide (i = id)) as [->|Hne].
  - by rewrite lookup_insert_eq, lookup_alter_eq, Hq.
  - by rewrite lookup_insert_ne, lookup_alter_ne by done.
Qed.

Lemma error_simulates id e p a : refines p a → simulated (OpError id e) p a (send_error id e p).
Proof.
  intros I. right. unfold send_error. destruct (a !! id) as [q|] eqn:Hq.
  - destruct (lookup_stream _ _ _ _ I Hq) as (s & Hs & Hk). apply (pended_simulates (OpError id e) p a id _ _ s q I Hs Hq).
    rewrite bind_st. unfold on_bidi, modify_st. cbn [fst snd]. rewrite transmit_eq. cbn [bs_frame_tx bs_set_pending].
    destruct (poll_send _ _ _).2 eqn:Ho; (split; [by apply calm_send|]); (split; [done|]); (split; [by auto|]); exists (break q);
      (split; [by apply keeps_broken|]); intros g _; rewrite (alter_insert_id _ _ _ _ Hq); constructor.
  - erewrite pended_absent by done. split; [done|]. exists (alter break id a). split; [constructor|].
    rewrite alter_id; [done|]. intros q. by rewrite Hq.
Qed.

(** ** Streams that are cut short *)

Lemma transmit_pending_calm {E : Type} m s w :
  let '((s', w'), r) := transmit_pending m (s, w) in
  calm s w s' w' ∧ ∃ b, r = @Ok E bool b ∧ (bs_curr_message s' ≠ None → bs_curr_message s ≠ None ∨ b = true).
Proof.
  unfold transmit_pending. rewrite bind_st. unfold H2Manager.attempt. rewrite transmit_eq.
  destruct (poll_send _ _ _).2; cbn; (split; [by apply calm_send|]); eexists; (split; [done|]); auto.
Qed.

Lemma inv_cut X (p : Streams * W) a id s q s' w' (b : bool) :
  inv X p a → bidirectional_stream p.1 !! id = Some s → a !! id = Some q → calm s p.2 s' w' →
  (bs_curr_message s' ≠ None → bs_curr_message s ≠ None ∨ b = true) →
  inv (if b then {[ id ]} ∪ X else X) (set_bidi (<[id := s']> (bidirectional_stream p.1)) p.1, w') (alter break id a).
Proof.
  intros I Hs Hq (Hw & Ht & _) Hc. rewrite <-(alter_insert_id _ _ _ _ Hq). pose proof (inv_wait _ _ _ I _ _ Hs) as Hwait.
  apply (inv_step X _ p a id s q); try done; [destruct b; set_solver..|].
  intros Hn. destruct (Hc Hn) as [Hn'|Hn']; [destruct b; set_solver|]. rewrite Hn'. set_solver.
Qed.

Lemma shutdown_stream_simulates id c p a : refines p a → simulated (OpShutdownStream id c) p a (shutdown_stream id c p).
Proof.
  intros I. unfold shutdown_stream. rewrite bind_st. cbn [get_st]. destruct (bidirectional_stream p.1 !! id) as [s|] eqn:Hs.
  - assert (is_Some (a !! id)) as [q Hq] by by eapply inv_dom.
    rewrite bind_st. unfold with_bidi. rewrite Hs. pose proof (transmit_pending_calm (E := DispatchErrorKind) (RespExit (KindH3 (Stream id c))) s p.2) as Ht.
    destruct (transmit_pending _ _) as [[s' w'] r]. destruct Ht as (Hcalm & b & -> & Hb). rewrite bind_st.
    match goal with |- context [(if b then ?x else ?y) ?st] => set (r1 := (if b then x else y) st) end.
    assert (∃ p1, r1 = (p1, Ok ()) ∧ refines p1 (alter break id a) ∧ working_stream_num p1.1 = working_stream_num p.1) as (p1 & -> & I' & Hwork).
    { pose proof (inv_cut _ p a id s q s' w' b I Hs Hq ltac:(done) Hb) as I'. pose proof (inv_work _ _ _ I) as [? _].
      destruct b; (eexists; split; [reflexivity|split; [|done]]); [|exact I']. by eapply inv_same; [..|exact I']. }
    rewrite (h3_decrease_eq _ _ I'). destruct (Z.eqb_spec (working_stream_num p1.1) 0) as [E|E].
    + left. split; [done|]. split; [congruence|done].
    + right. split; [done|]. eexists. split; [constructor|]. pose proof (work_below _ _ I) as [? _]. apply refines_working; [done|lia].
  - right. split; [done|]. exists (alter break id a). split; [constructor|]. rewrite alter_id; [done|]. intros q Hq.
    assert (is_Some (bidirectional_stream p.1 !! id)) as [? ?] by by eapply inv_dom. congruence.
Qed.

(** The streams of [ids] that [which] chooses are cut short. *)
Fixpoint break_at (which : Z → bool) (ids : list Z) (a : gmap Z Promise) : gmap Z Promise :=
  match ids with [] => a | id :: ids => break_at which ids (if which id then alter break id a else a) end.

Lemma break_at_lookup which ids a i :
  break_at which ids a !! i = (λ q, if bool_decide (i ∈ ids) && which i then break q else q) <$> a !! i.
Proof.
  revert a. induction ids as [|id ids IH]; intros a; cbn [break_at].
  - rewrite bool_decide_false by apply not_elem_of_nil. cbn. by destruct (a !! i).
  - rewrite IH. destruct (decide (i = id)) as [->|Hne].
    + rewrite (bool_decide_true (id ∈ id :: ids)) by left. destruct (which id) eqn:Hw; [|by rewrite !andb_false_r].
      rewrite lookup_alter_eq. destruct (a !! id); [|done]. cbn. by destruct (bool_decide _).
    + rewrite (bool_decide_ext (i ∈ id :: ids) (i ∈ ids)) by (rewrite elem_of_cons; naive_solver).
      destruct (which id); [|done]. by rewrite lookup_alter_ne.
Qed.

Lemma stop_stream_calm {E : Type} err s w :
  let '((s', w'), r) := stop_stream err (s, w) in
  calm s w s' w' ∧ ∃ b, r = @Ok E bool b ∧ (bs_curr_message s' ≠ None → bs_curr_message s ≠ None ∨ b = true).
Proof.
  unfold stop_stream. rewrite bind_st. unfold on_bidi, modify_st. cbn [fst snd].
  match goal with |- context [transmit_pending _ (?s1, _)] => pose proof (transmit_pending_calm (E := E) (RespExit err) s1 w) as Ht end.
  by destruct (transmit_pending _ _) as [[s' w'] r].
Qed.

Lemma stop_loop_inv {E : Type} which err ids : ∀ X pend (p : Streams * W) a,
  inv (X ∪ list_to_set pend) p a → (∀ id, id ∈ ids → is_Some (a !! id)) →
  ∃ p' pend', stop_loop which err ids pend p = (p', @Ok E _ pend') ∧ inv (X ∪ list_to_set pend') p' (break_at which ids a) ∧
    queues p'.1 = queues p.1.
Proof.
  induction ids as [|id ids IH]; intros X pend p a I Hids; cbn [stop_loop break_at]; [by exists p, pend|].
  destruct (which id); [|apply IH; [done|]; intros i Hi; apply Hids; by right].
  destruct (Hids id ltac:(left)) as [q Hq]. assert (is_Some (bidirectional_stream p.1 !! id)) as [s Hs] by by eapply inv_dom.
  rewrite bind_st. unfold with_bidi. rewrite Hs. pose proof (stop_stream_calm (E := E) err s p.2) as Ht.
  destruct (stop_stream _ _) as [[s' w'] r]. destruct Ht as (Hcalm & b & -> & Hb).
  pose proof (inv_cut _ p a id s q s' w' b I Hs Hq Hcalm Hb) as I'.
  assert (∀ i, i ∈ ids → is_Some (alter break id a !! i)) as Hids'.
  { intros i Hi. apply lookup_alter_is_Some, Hids. by right. }
  destruct (IH X (if b then pend ++ [id] else pend) (set_bidi (<[id := s']> (bidirectional_stream p.1)) p.1, w') (alter break id a))
    as (p' & pend' & He & I2 & Hq2); [|done|by exists p', pend'].
  destruct b; [|done]. rewrite list_to_set_app_L. cbn [list_to_set]. rewrite (union_empty_r_L {[ id ]}), union_assoc_L. by rewrite union_comm_L.
Qed.

Lemma pend_channels_eq {E : Type} ids : ∀ (p : Streams * W),
  ∃ X, on_streams (pend_channels ids) p = ((set_queues (set_pending_channel X (queues p.1)) p.1, p.2), @Ok E _ ()) ∧
    X = pending_channel (queues p.1) ∪ list_to_set ids.
Proof.
  induction ids as [|id ids IH]; intros p.
  - exists (pending_channel (queues p.1)). split; [by destruct p as [[? ? [] ? ? ? ?] ?]|]. cbn. by rewrite union_empty_r_L.
  - destruct (IH (set_queues (set_pending_channel ({[ id ]} ∪ pending_channel (queues p.1)) (queues p.1)) p.1, p.2)) as (X & He & ->).
    eexists. split; [exact He|]. cbn. rewrite (union_comm_L {[ id ]} (pending_channel _)). by rewrite <-union_assoc_L.
Qed.

Lemma stop_streams_refines {E : Type} which err (p : Streams * W) a :
  refines p a →
  ∃ p', stop_streams which err p = (p', @Ok E _ ()) ∧ refines p' (map_imap (λ i q, Some (if which i then break q else q)) a).
Proof.
  intros I. unfold stop_streams. rewrite bind_st. cbn [get_st]. set (ids := stream_order _).
  assert (∀ id, id ∈ ids ↔ is_Some (a !! id)) as Hids.
  { intros id. unfold ids. rewrite stream_order_keys. apply (inv_dom _ _ _ I). }
  destruct (stop_loop_inv (E := E) which err ids (pending_channel (queues p.1)) [] p a) as (p1 & pend & He & I1 & Hq).
  { cbn. by rewrite union_empty_r_L. } { intros id. apply Hids. }
  rewrite bind_st, He. destruct (pend_channels_eq (E := E) pend p1) as (X & -> & ->). eexists. split; [done|].
  replace (map_imap _ a) with (break_at which ids a).
  - pose proof (inv_work _ _ _ I1) as [? _]. eapply inv_same; [..|unfold refines; cbn; rewrite Hq; exact I1]; done.
  - apply map_eq. intros i. rewrite break_at_lookup, map_lookup_imap. destruct (a !! i) as [q|] eqn:Hi; [|done]. cbn.
    by rewrite bool_decide_true by (apply Hids; by eexists).
Qed.

Lemma goaway_simulates id p a : refines p a → simulated (OpGoaway id) p a (goaway id p).
Proof.
  intros I. right. unfold goaway. rewrite bind_st. cbn [get_st]. rewrite (inv_goaway _ _ _ I). destruct (decide _) as [Ht|Ht].
  - split; [done|]. exists a. split; [by constructor|done].
  - rewrite bind_st. set (p1 := (set_peers (set_goaway (Some id) (peers p.1)) p.1, p.2)).
    change (on_streams (on_peers (set_goaway (Some id))) p) with (p1, @Ok DispatchErrorKind () ()). assert (refines p1 a) as I1.
    { pose proof (inv_work _ _ _ I) as [? _]. by eapply inv_same; [..|exact I]. }
    destruct (stop_streams_refines (E := DispatchErrorKind) (λ i, id <? i) KindGoawayReceived p1 a I1) as (p' & -> & I').
    split; [done|]. eexists. split; [constructor|done].
Qed.

Lemma shutdown_simulates e p a : refines p a → simulated (OpShutdown e) p a (shutdown e p).
Proof.
  intros I. right. destruct (stop_streams_refines (E := DispatchErrorKind) (λ _, true) e p a I) as (p' & He & I').
  unfold shutdown. rewrite He. split; [done|]. eexists. split; [constructor|]. cbn.
  replace (break <$> a) with (map_imap (λ (_ : Z) q, Some (break q)) a); [done|].
  apply map_eq. intros i. rewrite map_lookup_imap, lookup_fmap. by destruct (a !! i).
Qed.

(** ** Messages that wait *)

(** [keeps], where the message on its way may have arrived just now. *)
Definition keeps_queue (s : BidirectionalStream) (q : Promise) (w : W) : Prop :=
  broken q = false →
  let c := bs_frame_tx s in
  if gone c w then given c w `prefix_of` told q
  else given c w ++ waits s = told q ∧ (bs_state s = Shutdown ↔ shut q = true) ∧ phase_ok (bs_state s) (frames_told q).

Lemma keeps_queue_of s q w : keeps s q w → keeps_queue s q w.
Proof. intros Hk Hb. specialize (Hk Hb). cbn -[phase_ok] in *. destruct (gone _ _); [done|tauto]. Qed.

(** The outcome of a poll for a channel, in one case of three. *)
Lemma poll_send_cases c m w :
  let '(w', o) := poll_send c m w in
  match o with
  | H2Manager.SendReady => gone c w' = false ∧ gone c w = false ∧ given c w' = given c w ++ [m]
  | H2Manager.SendBlocked => gone c w' = false ∧ gone c w = false ∧ given c w' = given c w
  | H2Manager.SendGone => gone c w' = true ∧ given c w' = given c w
  end.
Proof.
  pose proof (poll_send_gone c m w) as Hg. pose proof (poll_send_given c m w c) as Hs. pose proof (poll_send_stays c m w c) as Hm.
  destruct (poll_send c m w) as [w' o]. cbn in *.
  destruct o; [rewrite decide_True in Hs by done|rewrite decide_False, app_nil_r in Hs by (by intros [? _])..].
  2: split; [by apply Hg|done].
  all: assert (gone c w' = false) as E by (destruct (gone c w'); [by apply proj2 in Hg; specialize (Hg eq_refl)|done]).
  all: split_and!; try done; destruct (gone c w); [by rewrite Hm in E|done].
Qed.

Lemma send_pending_keeps {E : Type} q messages : ∀ s w,
  bs_pending_message s = messages → bs_curr_message s = None → keeps_queue s q w →
  let '((s', w'), r) := send_pending messages (s, w) in
  calm s w s' w' ∧ keeps s' q w' ∧ ∃ b, r = @Ok E bool b ∧ (bs_curr_message s' ≠ None → b = true).
Proof.
  induction messages as [|m rest IH]; intros s w Hp Hc Hk; cbn [send_pending].
  - cbn. split; [by apply calm_refl|]. split; [|by exists false]. intros Hb. specialize (Hk Hb). cbn -[phase_ok] in *. rewrite Hp.
    destruct (gone _ _); [done|]. split_and!; tauto.
  - rewrite bind_st. unfold on_bidi at 1, modify_st. cbn [fst snd]. rewrite bind_st. unfold H2Manager.attempt. rewrite transmit_eq.
    cbn [bs_frame_tx bs_set_pending]. set (c := bs_frame_tx s) in *.
    pose proof (poll_send_cases c m w) as Hs. pose proof (calm_send m s w (bs_set_pending rest s) eq_refl) as Hcalm. fold c in Hcalm.
    destruct (poll_send c m w) as [w' []]; cbn [fst snd] in *.
    + destruct Hs as (Hg' & Hg & Hgiv). specialize (IH (bs_set_pending rest s) w' eq_refl Hc).
      destruct (send_pending rest _) as [[s2 w2] r]. destruct IH as (H2 & ?); [|split; [by eapply calm_trans|done]].
      intros Hb. specialize (Hk Hb). cbn -[phase_ok] in *. fold c in Hk |- *. rewrite Hg in Hk. rewrite Hg', Hgiv. unfold waits in *. cbn -[phase_ok] in *.
      rewrite Hc, Hp in *. cbn -[phase_ok] in *. by rewrite <-app_assoc.
    + destruct Hs as [Hg Hgiv]. cbn. split; [exact Hcalm|]. split; [|exists false; split; [done|]; intros Hn; by destruct Hn].
      intros Hb. cbn. fold c. rewrite Hg, Hgiv. specialize (Hk Hb). cbn -[phase_ok] in Hk. fold c in Hk. destruct (gone c w); [done|].
      destruct Hk as [<- _]. by eexists.
    + destruct Hs as (Hg' & Hg & Hgiv). cbn. split; [exact Hcalm|]. split; [|by exists true]. intros Hb. specialize (Hk Hb). cbn -[phase_ok] in *. fold c in Hk |- *.
      rewrite Hg in Hk. rewrite Hg', Hgiv. unfold waits in *. cbn -[phase_ok] in *. rewrite Hc, Hp in Hk. by destruct Hk as (? & ? & ?).
Qed.

Lemma send_waiting_keeps {E : Type} q s w :
  keeps s q w →
  let '((s', w'), r) := send_waiting (s, w) in
  calm s w s' w' ∧ keeps s' q w' ∧ ∃ b, r = @Ok E bool b ∧ (bs_curr_message s' ≠ None → b = true).
Proof.
  intros Hk. unfold send_waiting. rewrite bind_st. cbn [get_st fst snd]. destruct (bs_curr_message s) as [m|] eqn:Hc.
  2: by apply send_pending_keeps, keeps_queue_of.
  set (c := bs_frame_tx s) in *. pose proof (poll_send_cases c m w) as Hs.
  pose proof (λ s', calm_send m s w s') as Hcalm. fold c in Hcalm.
  destruct (poll_send c m w) as [w' []]; cbn [fst snd] in *; rewrite bind_st; unfold put_st.
  - destruct Hs as (Hg' & Hg & Hgiv). pose proof (send_pending_keeps (E := E) q (bs_pending_message s) (bs_set_curr None s) w' eq_refl eq_refl) as Hsp.
    destruct (send_pending _ _) as [[s2 w2] r]. destruct Hsp as (H2 & ?); [|split; [by eapply calm_trans; [apply (Hcalm (bs_set_curr None s))|]|done]].
    intros Hb. specialize (Hk Hb). cbn -[phase_ok] in *. fold c in Hk |- *. rewrite Hg in Hk. rewrite Hg', Hgiv. unfold waits in *. cbn -[phase_ok] in *.
    rewrite Hc in Hk. cbn -[phase_ok] in Hk. rewrite <-app_assoc. tauto.
  - destruct Hs as [Hg Hgiv]. set (s1 := bs_set_state Shutdown (bs_set_curr None s)).
    pose proof (send_pending_keeps (E := E) q (bs_pending_message s) s1 w' eq_refl eq_refl) as Hsp.
    destruct (send_pending _ _) as [[s2 w2] r]. destruct Hsp as (H2 & ?); [|split; [by eapply calm_trans; [apply (Hcalm s1)|]|done]].
    intros Hb. cbn. fold c. rewrite Hg, Hgiv. by eapply keeps_prefix.
  - destruct Hs as (Hg' & Hg & Hgiv). cbn. split; [by apply Hcalm|]. split; [|by exists true].
    apply (keeps_later s q w w'); [done| |done]. fold c. congruence.
Qed.

Lemma blocked_loop_inv ids : ∀ new_set (p : Streams * W) a,
  inv (list_to_set ids ∪ new_set) p a →
  ∃ p' new_set', blocked_loop ids new_set p = (p', Ok new_set') ∧ inv new_set' p' a.
Proof.
  induction ids as [|id ids IH]; intros new_set p a I; cbn [blocked_loop].
  { exists p, new_set. split; [done|]. cbn in I. by rewrite union_empty_l_L in I. }
  assert (is_Some (bidirectional_stream p.1 !! id)) as [s Hs] by (eapply inv_set; [done|]; cbn; set_solver).
  assert (is_Some (a !! id)) as [q Hq] by by eapply inv_dom.
  rewrite bind_st. unfold with_bidi. rewrite Hs.
  pose proof (send_waiting_keeps (E := DispatchErrorKind) q s p.2 (inv_keeps _ _ _ I _ _ _ Hs Hq)) as Hw.
  destruct (send_waiting _) as [[s' w'] r]. destruct Hw as ((Hw & Ht & _) & Hk & b & -> & Hb).
  apply IH. rewrite <-(insert_id a id q) by done.
  eapply inv_step; [done..|cbn; destruct b; set_solver|cbn; destruct b; set_solver|].
  intros Hn. rewrite (Hb Hn). set_solver.
Qed.

Lemma blocked_simulates p a :
  refines p a → simulated OpBlocked p a ((_ ← poll_blocked_message; mret ()) p).
Proof.
  intros I. right. rewrite bind_st. unfold poll_blocked_message. rewrite bind_st. cbn [get_st].
  destruct (blocked_loop_inv (pending_order (pending_channel (queues p.1))) ∅ p a) as (p1 & X & He & I1).
  { replace (list_to_set _ ∪ ∅) with (pending_channel (queues p.1)); [exact I|]. apply set_eq. intros i.
    rewrite elem_of_union, elem_of_list_to_set, pending_order_keys. set_solver. }
  rewrite bind_st, He. split; [done|]. exists a. split; [constructor|]. cbn. pose proof (inv_work _ _ _ I1) as [? _].
  by eapply inv_same; [..|exact I1].
Qed.

(** ** Requests, and the operations that tell nothing *)

(** A channel of its own, and identifiers that have not run around. *)
Definition fresh (tx : Z) (p : Streams * W) : Prop :=
  next_bidi_stream_id p.1 + 4 < U64 ∧ given tx p.2 = [] ∧ ∀ id s, bidirectional_stream p.1 !! id = Some s → bs_frame_tx s ≠ tx.

Lemma h3_inv_new X (p : Streams * W) a tx h d n :
  inv X p a → fresh tx p → next_bidi_stream_id p.1 < n →
  inv X (set_bidi (<[next_bidi_stream_id p.1 := BidirectionalStream_new tx h d]> (bidirectional_stream p.1)) (set_next_ids (next_uni_stream_id p.1) n p.1), p.2)
    (<[next_bidi_stream_id p.1 := mkPromise [] false false]> a).
Proof.
  intros [Id Ik Ix Iw Ic Ii In Iw' Ig] (_ & Hgiv & Hfresh) Hn. set (id := next_bidi_stream_id p.1) in *. split; cbn -[lookup]; try done; try lia.
  - intros i. destruct (decide (i = id)) as [->|Hne]; [by rewrite !lookup_insert_eq|by rewrite !lookup_insert_ne].
  - intros i s q. destruct (decide (i = id)) as [->|Hne]; [|rewrite !lookup_insert_ne by done; by apply Ik].
    rewrite !lookup_insert_eq. intros [= <-] [= <-] _. cbn. rewrite Hgiv. by destruct (gone tx p.2).
  - intros i Hi. destruct (decide (i = id)) as [->|Hne]; [by rewrite lookup_insert_eq|rewrite lookup_insert_ne by done; by apply Ix].
  - intros i s. destruct (decide (i = id)) as [->|Hne]; [rewrite lookup_insert_eq; by intros [= <-]|rewrite lookup_insert_ne by done; by apply Iw].
  - intros i j s t. destruct (decide (i = id)) as [->|Hi], (decide (j = id)) as [->|Hj]; rewrite ?lookup_insert_eq, ?lookup_insert_ne by done; try done.
    + intros [= <-] Ht. cbn. intros E. by destruct (Hfresh _ _ Ht).
    + intros Hs [= <-]. cbn. intros E. by destruct (Hfresh _ _ Hs).
    + by apply Ic.
  - intros i. destruct (decide (i = id)) as [->|Hne]; [lia|]. rewrite lookup_insert_ne by done. intros Hi. specialize (Ii i Hi). lia.
Qed.

Lemma new_simulates h d tx p a :
  refines p a → fresh tx p → simulated (OpNew h d tx) p a (on_streams (new_unidirectional_stream h d tx) p).
Proof.
  intros I Hf. right. pose proof (inv_work _ _ _ I) as [Hw _]. pose proof (work_below _ _ I) as [_ Hm]. pose proof (inv_next _ _ _ I) as Hn.
  destruct p as [s w]. cbn [fst snd] in *. pose proof Hf as (Hn4 & _ & _). cbn [fst] in Hn4.
  assert (wrap64 (next_bidi_stream_id s + 4) = next_bidi_stream_id s + 4) as Hwrap by (unfold wrap64; rewrite Z.mod_small; lia).
  unfold on_streams, zoom, new_unidirectional_stream, get_next_bidi_stream_id. rewrite !bind_st. cbn [get_st fst]. rewrite bind_st.
  unfold put_st. rewrite Hwrap. unfold checked_id. destruct (HTTP3_MAX_STREAM_ID <? next_bidi_stream_id s); cbn [mret ST_ret].
  { split; [done|]. exists a. split; [constructor|]. cbn. destruct I. split; try done; cbn in *; [|lia].
    intros id Hid. specialize (inv_ids0 id Hid). lia. }
  pose proof (h3_inv_new _ (s, w) a tx h d (next_bidi_stream_id s + 4) I Hf ltac:(cbn; lia)) as I'. cbn [fst snd] in I'.
  rewrite bind_st. unfold modify_st. cbn [bidirectional_stream set_next_ids]. rewrite bind_st. cbn [get_st].
  assert (a !! next_bidi_stream_id s = None) as Ha.
  { destruct (a !! next_bidi_stream_id s) eqn:E; [|done]. assert (is_Some (bidirectional_stream s !! next_bidi_stream_id s)) as Hs
      by (eapply (inv_dom _ _ _ I); by eexists). pose proof (inv_ids _ _ _ I _ Hs) as Hi. cbn in Hi. lia. }
  unfold reach_max_concurrency. cbn [max_stream_concurrency working_stream_num set_bidi set_next_ids].
  destruct (Z.leb_spec (max_stream_concurrency s) (working_stream_num s)).
  - split; [done|]. eexists. split; [by constructor|]. by eapply inv_same; [..|exact I'].
  - rewrite bind_st. unfold push_back_pending_send, on_queues, modify_st, increase_current_concurrency. rewrite bind_st. cbn [get_st]. rewrite bind_st.
    unfold lift_res, H2Window.u32_check. cbn [working_stream_num set_queues set_bidi set_next_ids].
    replace (0 <=? working_stream_num s + 1) with true by lia. replace (working_stream_num s + 1 <? 2 ^ 32) with true by lia. cbn [andb].
    split; [done|]. eexists. split; [by constructor|]. eapply inv_same; [..|exact I']; cbn; try done; lia.
Qed.

Lemma consume_refines {E : Type} fuel : ∀ (p : Streams * W) a,
  refines p a → (length (pending_concurrency (queues p.1)) < fuel)%nat →
  ∃ p', on_streams (consume_loop fuel) p = (p', @Ok E _ ()) ∧ refines p' a.
Proof.
  induction fuel as [|fuel IH]; intros [s w] a I Hl; [lia|]. pose proof (work_below _ _ I) as [Hw Hm]. cbn [fst snd] in *.
  unfold on_streams, zoom. cbn [consume_loop]. rewrite bind_st. cbn [get_st fst snd]. unfold reach_max_concurrency.
  destruct (Z.leb_spec (max_stream_concurrency s) (working_stream_num s)); [by exists (s, w)|].
  rewrite bind_st. unfold pop_front_pending_concurrency. rewrite bind_st. cbn [get_st].
  destruct (pending_concurrency (queues s)) as [|id rest] eqn:Hq; [by exists (s, w)|]. rewrite bind_st. unfold on_queues, modify_st. cbn [mret ST_ret].
  rewrite bind_st. unfold push_back_pending_send, on_queues, modify_st. rewrite bind_st. unfold increase_current_concurrency. rewrite bind_st. cbn [get_st].
  rewrite bind_st. unfold lift_res, H2Window.u32_check. cbn [working_stream_num set_queues].
  replace (0 <=? working_stream_num s + 1) with true by lia. replace (working_stream_num s + 1 <? 2 ^ 32) with true by lia. cbn [andb].
  unfold put_st. match goal with |- context [consume_loop fuel ?s1] => destruct (IH (s1, w) a) as (p' & He & I') end.
  - unfold refines in *. eapply inv_same; [..|exact I]; cbn; try done; lia.
  - cbn in *. lia.
  - exists p'. split; [|done]. exact He.
Qed.

(** A change of a field that the promise does not see. *)
Lemma refines_field (p : Streams * W) a id s s' :
  refines p a → bidirectional_stream p.1 !! id = Some s →
  bs_frame_tx s' = bs_frame_tx s → bs_state s' = bs_state s → waits s' = waits s → bs_curr_message s' = bs_curr_message s →
  bs_pending_message s' = bs_pending_message s →
  refines (set_bidi (<[id := s']> (bidirectional_stream p.1)) p.1, p.2) a.
Proof.
  intros I Hs Ht Hst Hw Hc Hp. assert (is_Some (a !! id)) as [q Hq] by by eapply inv_dom.
  pose proof (inv_keeps _ _ _ I _ _ _ Hs Hq) as Hk. pose proof (inv_wait _ _ _ I _ _ Hs) as Hwait.
  unfold refines. cbn. rewrite <-(insert_id a id q) by done.
  eapply inv_step; [done..|apply wstep_refl|done| |set_solver|set_solver|by rewrite Hc].
  intros Hb. specialize (Hk Hb). cbn in *. by rewrite Ht, Hst, Hw, Hc, Hp.
Qed.

Lemma refines_world (p : Streams * W) a w' :
  (∀ c, given c w' = given c p.2) → (∀ c, gone c p.2 = true → gone c w' = true) → refines p a → refines (p.1, w') a.
Proof. intros Hg Hm []. split; try done. cbn. intros id s q Hs Hq. eapply keeps_later; [apply Hg|apply Hm|eauto]. Qed.

Lemma quiet_simulated op (p : Streams * W) a res :
  res.2 ≠ Panic → (∀ g, spec_step g op a res.2 a) → refines res.1 a → simulated op p a res.
Proof. intros Hn Hs I. right. split; [done|]. by exists a. Qed.

Lemma with_stream_quiet {A : Type} id (m : ST BidirectionalStream DispatchErrorKind A) (p : Streams * W) a :
  refines p a →
  (∀ s, let '(s', r) := m s in r ≠ Panic ∧ bs_frame_tx s' = bs_frame_tx s ∧ bs_state s' = bs_state s ∧ waits s' = waits s ∧
    bs_curr_message s' = bs_curr_message s ∧ bs_pending_message s' = bs_pending_message s) →
  let res := on_streams (with_stream id m) p in res.2 ≠ Panic ∧ refines res.1 a.
Proof.
  intros I Hm. unfold on_streams, zoom, with_stream. cbn [fst snd]. destruct (bidirectional_stream p.1 !! id) as [s|] eqn:Hs; [|by destruct p].
  specialize (Hm s). destruct (m s) as [s' r]. destruct Hm as (Hn & H1 & H2 & H3 & H4 & H5). split; [done|]. by eapply refines_field.
Qed.

Lemma body_quiet id room (p : Streams * W) a :
  refines p a → let res := poll_sized_data id room p in res.2 ≠ Panic ∧ refines res.1 a.
Proof.
  intros I. unfold poll_sized_data. rewrite bind_st. unfold with_bidi. destruct (bidirectional_stream p.1 !! id) as [s|] eqn:Hs; [|done].
  assert (∀ w', (∀ c, given c w' = given c p.2) → (∀ c, gone c p.2 = true → gone c w' = true) →
    refines (set_bidi (<[id := s]> (bidirectional_stream p.1)) p.1, w') a) as Hw.
  { intros w' Hg Hm. rewrite insert_id by done. pose proof (inv_work _ _ _ I) as [? _].
    eapply inv_same; [..|by apply (refines_world _ _ w' Hg Hm)]; done. }
  assert (∀ w' r, (∀ c, given c w' = given c p.2) → (∀ c, gone c p.2 = true → gone c w' = true) →
    let res := (match r with
      | None => mret ReadClosed
      | Some (H2Streams.PollReady data) => mret (if 0 <? len data then ReadReady (mkFrame DATA_FRAME_TYPE (PData data)) else ReadFinish)
      | Some H2Streams.PollError => throw (connection_error H3InternalError)
      | Some H2Streams.PollPending => _ ← on_streams (push_back_pending_send id); mret ReadPending
      end : SM DataReadState) (set_bidi (<[id := s]> (bidirectional_stream p.1)) p.1, w') in res.2 ≠ Panic ∧ refines res.1 a) as Hr.
  { intros w' r Hg Hm. specialize (Hw w' Hg Hm). destruct r as [[data| |]|]; try done. split; [done|].
    pose proof (inv_work _ _ _ Hw) as [? _]. by eapply inv_same; [..|exact Hw]. }
  rewrite bind_st. cbn [get_st]. cbn [fst]. destruct (decide _); [by apply (Hr p.2 None)|].
  rewrite bind_st. unfold body_poll_read. cbn [fst snd]. destruct (H2Streams.bd_body _); [|by apply (Hr p.2 (Some (H2Streams.PollReady [])))].
  pose proof (poll_body_given id room p.2) as Hg. pose proof (poll_body_stays id room p.2) as Hm. destruct (poll_body id room p.2) as [w' r].
  by apply (Hr w' (Some r)).
Qed.

(** ** The refinement *)

Definition run (op : Op) : SM () :=
  match op with
  | OpNew h d tx => on_streams (new_unidirectional_stream h d tx)
  | OpFrame id f => send_frame id f
  | OpFinish id => finish_stream id
  | OpBlocked => _ ← poll_blocked_message; mret ()
  | OpError id e => send_error id e
  | OpShutdownStream id c => shutdown_stream id c
  | OpGoaway id => goaway id
  | OpShutdown e => shutdown e
  | OpBody id room => _ ← poll_sized_data id room; mret ()
  | OpHeader id => _ ← on_streams (get_header id); mret ()
  | OpEncoding id b => on_streams (set_encoding id b)
  | OpConsume => on_streams try_consume_pending_concurrency
  | OpNext => _ ← on_streams next_stream; mret ()
  end.

(** A request brings a channel of its own. *)
Definition allowed (op : Op) (p : Streams * W) : Prop := match op with OpNew _ _ tx => fresh tx p | _ => True end.

Lemma run_simulates op p a : refines p a → allowed op p → simulated op p a (run op p).
Proof.
  intros I Ha. destruct op; cbn [run allowed] in *.
  - by apply new_simulates.
  - by apply frame_simulates.
  - by apply finish_simulates.
  - by apply blocked_simulates.
  - by apply error_simulates.
  - by apply shutdown_stream_simulates.
  - by apply goaway_simulates.
  - by apply shutdown_simulates.
  - rewrite bind_st. pose proof (body_quiet id room p a I) as Hq. destruct (poll_sized_data id room p) as [p' []]; destruct Hq as [Hn Hr]; try done;
      apply quiet_simulated; try done; constructor.
  - rewrite bind_st. pose proof (with_stream_quiet id (st ← get_st; _ ← put_st (bs_set_header None st); mret (bs_header st)) p a I) as Hq.
    fold (get_header id) in Hq. destruct (on_streams (get_header id) p) as [p' []]; destruct Hq as [Hn Hr]; try done;
      apply quiet_simulated; try done; constructor.
  - pose proof (with_stream_quiet id (modify_st (bs_set_encoding b)) p a I) as Hq. destruct Hq as [Hn Hr]; [done|].
    apply quiet_simulated; [done|constructor|done].
  - destruct (consume_refines (E := DispatchErrorKind) (S (length (pending_concurrency (queues p.1)))) p a I ltac:(lia)) as (p' & He & I').
    change (on_streams try_consume_pending_concurrency p) with (on_streams (E := DispatchErrorKind) (consume_loop (S (length (pending_concurrency (queues p.1))))) p).
    rewrite He. apply quiet_simulated; [done|constructor|done].
  - rewrite bind_st. destruct p as [s w]. unfold on_streams, zoom, next_stream. rewrite bind_st. cbn [get_st fst snd].
    pose proof (inv_work _ _ _ I) as [? _]. destruct (pending_send (queues s)) as [|id rest].
    + apply quiet_simulated; [done|constructor|done].
    + rewrite bind_st. unfold on_queues, modify_st. apply quiet_simulated; [done|constructor|]. by eapply inv_same; [..|exact I].
Qed.

Lemma spec_step_ordered g op a r a' :
  spec_step g op a r a' → map_Forall (λ _ q, well_ordered (frames_told q)) a → map_Forall (λ _ q, well_ordered (frames_told q)) a'.
Proof.
  assert (∀ f id, map_Forall (λ _ q, well_ordered (frames_told q)) a → (∀ q, frames_told (f q) = frames_told q) →
    map_Forall (λ _ q, well_ordered (frames_told q)) (alter f id a)) as Halter.
  { intros f id Ha Hf i q. rewrite lookup_alter_Some. intros [(-> & q' & Hq & ->)|[_ Hq]]; [rewrite Hf|]; by eapply Ha. }
  intros Hs Ha. destruct Hs; try done; try (by apply Halter).
  - apply map_Forall_insert_2; [by left|done].
  - apply map_Forall_insert_2; [|done]. unfold frames_told in *. cbn. by rewrite bind_app.
  - apply map_Forall_insert_2; [|done]. unfold frames_told. cbn. rewrite bind_app. cbn. rewrite app_nil_r. by eapply Ha.
  - intros i q'. rewrite map_lookup_imap. destruct (a !! i) as [q|] eqn:Hi; [|done]. cbn. intros [= <-]. specialize (Ha _ _ Hi). by destruct (id <? i).
  - intros i q'. rewrite lookup_fmap. destruct (a !! i) as [q|] eqn:Hi; [|done]. cbn. intros [= <-]. exact (Ha _ _ Hi).
Qed.

Lemma refines_new w : refines (Streams_new, w) ∅.
Proof.
  split; cbn -[lookup]; try done; try lia.
  - intros id. split; by intros [? [=]].
  - by intros id [? [=]].
Qed.

(** C18: The streams of an HTTP/3 connection implement a promise per stream, the
    messages its task will hear: every operation does what the promise says and
    panics only where the count of working streams is zero; what other tasks do
    changes nothing; frames of a response stay in order. As long as no stream error,
    shutdown or GOAWAY has cut a stream short (it may overwrite a message that
    waits, streams.rs:100), its task has heard the first part of its promise, and
    all of it once its channel does not make the stream wait and the task is there. *)
Theorem h3_streams_refine :
  (∀ w, refines (Streams_new, w) ∅) ∧
  (∀ op p a, refines p a → allowed op p → simulated op p a (run op p)) ∧
  (∀ p a w', (∀ c, given c w' = given c p.2) → (∀ c, gone c p.2 = true → gone c w' = true) → refines p a → refines (p.1, w') a) ∧
  (∀ g op a r a', spec_step g op a r a' → map_Forall (λ _ q, well_ordered (frames_told q)) a → map_Forall (λ _ q, well_ordered (frames_told q)) a') ∧
  (∀ p a id s q, refines p a → bidirectional_stream p.1 !! id = Some s → a !! id = Some q → broken q = false →
    given (bs_frame_tx s) p.2 `prefix_of` told q ∧
    (id ∉ pending_channel (queues p.1) → gone (bs_frame_tx s) p.2 = false → given (bs_frame_tx s) p.2 = told q)).
Proof.
  split_and!; [apply refines_new|apply run_simulates|intros; by apply refines_world|apply spec_step_ordered|].
  intros p a id s q I Hs Hq Hb. pose proof (inv_keeps _ _ _ I _ _ _ Hs Hq) as Hk. split; [by apply keeps_prefix|].
  intros Hnp Hg. specialize (Hk Hb). cbn -[phase_ok] in Hk. rewrite Hg in Hk. destruct Hk as (Ht & Hpend & _).
  destruct (bs_curr_message s) eqn:Hc; [by destruct Hnp; eapply inv_wait; [done..|rewrite Hc]|].
  unfold waits in Ht. rewrite Hc, (Hpend eq_refl) in Ht. cbn in Ht. by rewrite app_nil_r in Ht.
Qed.
End world.

(** ** Channels with some room

    A channel that is not there has no task behind it. *)
#[local] Abbreviation H3Channels := (gmap Z (nat * list RespMessage)).

Definition h3_channel_send (c : Z) (m : RespMessage) (w : H3Channels) : H3Channels * H2Manager.SendPoll :=
  match w !! c with
  | Some (S room, l) => (<[c := (room, l ++ [m])]> w, SendReady)
  | Some (O, _) => (w, SendBlocked)
  | None => (w, SendGone)
  end.
#[export] Instance h3_channels_world : H3World H3Channels := {
  poll_send := h3_channel_send;
  poll_body id room w := (w, H2Streams.PollReady []);
  stream_order m := (map_to_list m).*1;
  pending_order x := elements x }.

Definition h3_channel_given (c : Z) (w : H3Channels) : list RespMessage := match w !! c with Some (_, l) => l | None => [] end.
Definition h3_channel_gone (c : Z) (w : H3Channels) : bool := bool_decide (w !! c = None).

Lemma h3_channel_send_given c m (w : H3Channels) c' :
  h3_channel_given c' (h3_channel_send c m w).1 =
    h3_channel_given c' w ++ (if decide ((h3_channel_send c m w).2 = SendReady ∧ c = c') then [m] else []).
Proof.
  unfold h3_channel_send, h3_channel_given. destruct (w !! c) as [[[|room] l]|] eqn:Hw; cbn.
  - by rewrite app_nil_r.
  - destruct (decide (c = c')) as [<-|Hne].
    + by rewrite lookup_insert_eq, Hw, decide_True.
    + rewrite lookup_insert_ne by done. rewrite decide_False by by intros []. by rewrite app_nil_r.
  - by rewrite app_nil_r.
Qed.

Lemma h3_channel_send_gone c m (w : H3Channels) :
  (h3_channel_send c m w).2 = SendGone ↔ h3_channel_gone c (h3_channel_send c m w).1 = true.
Proof.
  unfold h3_channel_send, h3_channel_gone. destruct (w !! c) as [[[|room] l]|] eqn:Hw; cbn; rewrite ?lookup_insert_eq, ?Hw; done.
Qed.

Lemma h3_channel_send_stays c m (w : H3Channels) c' :
  h3_channel_gone c' w = true → h3_channel_gone c' (h3_channel_send c m w).1 = true.
Proof.
  unfold h3_channel_send, h3_channel_gone. rewrite !bool_decide_eq_true. intros Hw.
  destruct (w !! c) as [[[|room] l]|] eqn:Hc; cbn; try done. rewrite lookup_insert_ne; [done|]. intros ->. congruence.
Qed.

#[export] Instance h3_channels_laws : H3Laws H3Channels := {
  given := h3_channel_given;
  gone := h3_channel_gone;
  poll_send_given := h3_channel_send_given;
  poll_send_gone := h3_channel_send_gone;
  poll_send_stays := h3_channel_send_stays;
  poll_body_given _ _ _ _ := eq_refl;
  poll_body_stays _ _ _ _ H := H;
  stream_order_keys := H2ManagerSpec.map_keys;
  pending_order_keys x id := elem_of_elements x id }.

Definition h3_sample_headers : Frame := mkFrame HEADERS_FRAME_TYPE (PHeaders Parts_new None).
Definition h3_sample_data (b : Z) : Frame := mkFrame DATA_FRAME_TYPE (PData [b]).
(** A connection with one request, whose channel 7 has some room. *)
Definition h3_sample (room : nat) : Streams * H3Channels :=
  (on_streams (new_unidirectional_stream h3_sample_headers (H2Streams.mkBodyDataRef true) 7) (Streams_new, {[ 7 := (room, []) ]})).1.

(** The operations one after the other, and what the task was told. *)
Fixpoint h3_play (ops : list Op) (p : Streams * H3Channels) : Streams * H3Channels :=
  match ops with [] => p | op :: ops => h3_play ops (run op p).1 end.
Definition h3_room (n : nat) (p : Streams * H3Channels) : Streams * H3Channels := (p.1, (λ c, (n, c.2)) <$> p.2).
Definition h3_told (p : Streams * H3Channels) : list RespMessage := h3_channel_given 7 p.2.

Lemma h3_streams_refine_witness :
  simulated (OpFrame 0 h3_sample_headers) (Streams_new, {[ 7 := (1%nat, []) ]} : H3Channels) ∅
    (run (OpFrame 0 h3_sample_headers) (Streams_new, {[ 7 := (1%nat, []) ]} : H3Channels)) ∧
  simulated (OpNew h3_sample_headers (H2Streams.mkBodyDataRef true) 7) (Streams_new, {[ 7 := (1%nat, []) ]} : H3Channels) ∅
    (run (OpNew h3_sample_headers (H2Streams.mkBodyDataRef true) 7) (Streams_new, {[ 7 := (1%nat, []) ]} : H3Channels)).
Proof.
  destruct (h3_streams_refine (W := H3Channels)) as (H1 & H2 & _).
  split; apply H2; try (apply H1); [done|]. split_and!; [done|done|]. intros id s. cbn. by rewrite lookup_empty.
Defined.

(** A response through a channel with room for one message. *)
Example h3_response_waits :
  let ops := [OpFrame 0 h3_sample_headers; OpFrame 0 (h3_sample_data 1); OpFrame 0 (h3_sample_data 2); OpFinish 0] in
  h3_told (h3_play ops (h3_sample 1)) = [RespOutput h3_sample_headers] ∧
  h3_told (h3_play [OpBlocked] (h3_room 5 (h3_play ops (h3_sample 1)))) =
    [RespOutput h3_sample_headers; RespOutput (h3_sample_data 1); RespOutput (h3_sample_data 2); RespExit KindStreamFinished].
Proof. by vm_compute. Qed.

(** The error of a stream takes the place of the frame that waits: that is lost. *)
Example h3_error_overwrites :
  h3_told (h3_play [OpBlocked] (h3_room 5 (h3_play [OpFrame 0 h3_sample_headers; OpError 0 KindDisconnect] (h3_sample 0)))) =
    [RespExit KindDisconnect].
Proof. by vm_compute. Qed.

(** A stream that is shut down and then finished is counted twice: with one
    request working, the count runs below zero. *)
Example h3_double_finish :
  let p := h3_play [OpShutdownStream 0 H3NoError] (h3_sample 5) in
  working_stream_num p.1 = 0 ∧ (run (OpFinish 0) p).2 = Panic.
Proof. by vm_compute. Qed.

(** The identifier of a GOAWAY may grow; and the stream that it names goes on. *)
Example h3_goaway_grows :
  (run (OpGoaway 8) (h3_play [OpGoaway 0] (h3_sample 5))).2 = Ok () ∧
  h3_told (h3_play [OpGoaway 0; OpFrame 0 h3_sample_headers] (h3_sample 5)) = [RespOutput h3_sample_headers].
Proof. by vm_compute. Qed.

(** An interim response, and trailers after no data, are refused. *)
Example h3_second_headers :
  (run (OpFrame 0 h3_sample_headers) (h3_play [OpFrame 0 h3_sample_headers] (h3_sample 5))).2 = Err (connection_error H3FrameUnexpected).
Proof. by vm_compute. Qed.
