(* ===== verification/H3Manager.v ===== *)
(** * The stream manager of an HTTP/3 connection

    Models [src/ylong_http_client/src/util/h3/stream_manager.rs], the task
    between the requests of a connection and its QUIC connection, and the
    settings of [H3Config] ([util/config/http.rs]) that it sends.

    The QUIC connection is a third-party crate: [H3Net] has the calls that the
    manager makes to it, with what they return; so are the orders in which hash
    maps are visited by the encoder and the decoder.  The mutex of the
    connection is not modelled: the manager never holds it twice.  The loops that
    go on while QUIC lets them take [turns]; a loop that ran out of them would be
    a [Panic], and [H3ManagerSpec] shows how many are enough. *)

From stdpp Require Import gmap.
From S2P Require Import Prelude Headers Parts H3Error H3Frame H3Streams.
From S2P Require H2Streams H2Manager H3Encoder H3Decoder.
#[local] Open Scope Z_scope.

#[local] Abbreviation BodyDataRef := H2Streams.BodyDataRef.
#[local] Abbreviation Receiver := H2Manager.Receiver.
#[local] Abbreviation mkReceiver := H2Manager.mkReceiver.
#[local] Abbreviation rx_queue := H2Manager.rx_queue.
#[local] Abbreviation rx_closed := H2Manager.rx_closed.
#[local] Abbreviation attempt := H2Manager.attempt.
#[local] Abbreviation lift_err := H2Manager.lift_err.

(** ** Data *)

Definition UPD_RECV_BUF_SIZE : Z := 65535.
Definition DECODE_BUF_SIZE : Z := 1024.
(** [DEFAULT_MAX_FRAME_SIZE] of [poll_read_body]. *)
Definition DEFAULT_MAX_FRAME_SIZE : Z := 16 * 1024.

Definition CONTROL_STREAM_TYPE : Z := 0x0.
Definition QPACK_ENCODER_STREAM_TYPE : Z := 0x2.
Definition QPACK_DECODER_STREAM_TYPE : Z := 0x3.

(** [H3Config]. *)
Record H3Config := mkH3Config {
  cfg_max_field_section_size : Z; cfg_qpack_max_table_capacity : Z; cfg_qpack_blocked_streams : Z;
  cfg_connect_protocol_enabled : option Z; cfg_additional_settings : option (list (Z * Z)) }.
Definition H3Config_default : H3Config := mkH3Config (16 * 1024) (16 * 1024) 10 None None.

(** [ReqMessage], with the two fields of its [RequestWrapper]. *)
Record ReqMessage := mkReq { rq_header : Frame; rq_data : BodyDataRef; rq_frame_tx : Z }.

(** ** The QUIC connection *)

(** [stream_send] and [stream_writable] of a stream, the bytes of a stream that
    arrived, and so on.  The rest is ignored by the caller: [stream_shutdown] of
    the reading side, [close] and [stream_priority]. *)
Class H3Net (W : Type) := {
  stream_send : Z → bytes → bool → W → W * (Z + QuicheError);
  stream_writable : Z → Z → W → W * (bool + QuicheError);
  stream_capacity : Z → W → Z + QuicheError;
  stream_recv : Z → Z → W → W * (bytes * bool + QuicheError);
  stream_finished : Z → W → bool;
  readable : W → list Z;
  is_closed : W → bool;
  stream_shutdown : Z → Z → W → W;
  quic_close : Z → W → W;
  stream_priority : Z → W → W;
  (** [try_send] over a channel. *)
  try_send : Z → RespMessage → W → W;
  (** The orders of the hash maps. *)
  header_order : Headers → list (bytes * HeaderValue);
  inst_order : gset Z → list Z;
  unblock_order : gmap Z Z → list (Z * Z) }.

(** [StreamManager]; the channel to the task that moves datagrams is the number
    of times that it was woken. *)
Record StreamManager (W : Type) := mkManager {
  sm_streams : Streams;
  sm_io_tx : nat;
  sm_rx : Receiver (() + DispatchErrorKind);
  sm_req_rx : Receiver ReqMessage;
  sm_encoder : H3Encoder.FrameEncoder;
  sm_decoder : H3Decoder.FrameDecoder;
  sm_encoder_buf : bytes;
  sm_inst_buf : bytes;
  sm_peer_settings : option Settings;
  sm_io_shutdown : bool;
  sm_io_goaway : bool;
  sm_world : W }.
Arguments mkManager {W} _ _ _ _ _ _ _ _ _ _ _ _.
Arguments sm_streams {W} _.
Arguments sm_io_tx {W} _.
Arguments sm_rx {W} _.
Arguments sm_req_rx {W} _.
Arguments sm_encoder {W} _.
Arguments sm_decoder {W} _.
Arguments sm_encoder_buf {W} _.
Arguments sm_inst_buf {W} _.
Arguments sm_peer_settings {W} _.
Arguments sm_io_shutdown {W} _.
Arguments sm_io_goaway {W} _.
Arguments sm_world {W} _.

Section fields.
Context {W : Type}.
#[local] Abbreviation SM := (StreamManager W).

Definition set_streams (x : Streams) (m : SM) : SM :=
  mkManager x (sm_io_tx m) (sm_rx m) (sm_req_rx m) (sm_encoder m) (sm_decoder m) (sm_encoder_buf m) (sm_inst_buf m) (sm_peer_settings m) (sm_io_shutdown m) (sm_io_goaway m) (sm_world m).
Definition set_io_tx (x : nat) (m : SM) : SM :=
  mkManager (sm_streams m) x (sm_rx m) (sm_req_rx m) (sm_encoder m) (sm_decoder m) (sm_encoder_buf m) (sm_inst_buf m) (sm_peer_settings m) (sm_io_shutdown m) (sm_io_goaway m) (sm_world m).
Definition set_rx (x : Receiver (() + DispatchErrorKind)) (m : SM) : SM :=
  mkManager (sm_streams m) (sm_io_tx m) x (sm_req_rx m) (sm_encoder m) (sm_decoder m) (sm_encoder_buf m) (sm_inst_buf m) (sm_peer_settings m) (sm_io_shutdown m) (sm_io_goaway m) (sm_world m).
Definition set_req_rx (x : Receiver ReqMessage) (m : SM) : SM :=
  mkManager (sm_streams m) (sm_io_tx m) (sm_rx m) x (sm_encoder m) (sm_decoder m) (sm_encoder_buf m) (sm_inst_buf m) (sm_peer_settings m) (sm_io_shutdown m) (sm_io_goaway m) (sm_world m).
Definition set_encoder (x : H3Encoder.FrameEncoder) (m : SM) : SM :=
  mkManager (sm_streams m) (sm_io_tx m) (sm_rx m) (sm_req_rx m) x (sm_decoder m) (sm_encoder_buf m) (sm_inst_buf m) (sm_peer_settings m) (sm_io_shutdown m) (sm_io_goaway m) (sm_world m).
Definition set_decoder (x : H3Decoder.FrameDecoder) (m : SM) : SM :=
  mkManager (sm_streams m) (sm_io_tx m) (sm_rx m) (sm_req_rx m) (sm_encoder m) x (sm_encoder_buf m) (sm_inst_buf m) (sm_peer_settings m) (sm_io_shutdown m) (sm_io_goaway m) (sm_world m).
Definition set_bufs (frame_buf inst_buf : bytes) (m : SM) : SM :=
  mkManager (sm_streams m) (sm_io_tx m) (sm_rx m) (sm_req_rx m) (sm_encoder m) (sm_decoder m) frame_buf inst_buf (sm_peer_settings m) (sm_io_shutdown m) (sm_io_goaway m) (sm_world m).
Definition set_peer_settings (x : option Settings) (m : SM) : SM :=
  mkManager (sm_streams m) (sm_io_tx m) (sm_rx m) (sm_req_rx m) (sm_encoder m) (sm_decoder m) (sm_encoder_buf m) (sm_inst_buf m) x (sm_io_shutdown m) (sm_io_goaway m) (sm_world m).
Definition set_io_shutdown (m : SM) : SM :=
  mkManager (sm_streams m) (sm_io_tx m) (sm_rx m) (sm_req_rx m) (sm_encoder m) (sm_decoder m) (sm_encoder_buf m) (sm_inst_buf m) (sm_peer_settings m) true (sm_io_goaway m) (sm_world m).
Definition set_io_goaway (m : SM) : SM :=
  mkManager (sm_streams m) (sm_io_tx m) (sm_rx m) (sm_req_rx m) (sm_encoder m) (sm_decoder m) (sm_encoder_buf m) (sm_inst_buf m) (sm_peer_settings m) (sm_io_shutdown m) true (sm_world m).
Definition set_world (x : W) (m : SM) : SM :=
  mkManager (sm_streams m) (sm_io_tx m) (sm_rx m) (sm_req_rx m) (sm_encoder m) (sm_decoder m) (sm_encoder_buf m) (sm_inst_buf m) (sm_peer_settings m) (sm_io_shutdown m) (sm_io_goaway m) x.
End fields.

(** [StreamManager::new]. *)
Definition StreamManager_new {W : Type} (rx : Receiver (() + DispatchErrorKind)) (req_rx : Receiver ReqMessage)
    (decoder : H3Decoder.FrameDecoder) (w : W) : StreamManager W :=
  mkManager Streams_new 0 rx req_rx H3Encoder.FrameEncoder_default decoder
    (replicate (Z.to_nat DECODE_BUF_SIZE) 0) (replicate (Z.to_nat DECODE_BUF_SIZE) 0) None false false w.

Section manager.
Context {W : Type} `{H3World W} `{H3Net W}.
Context (turns : nat).

#[local] Abbreviation M := (ST (StreamManager W) DispatchErrorKind).

(** ** Calls *)

Definition on_streams_world {E A} (m : ST (Streams * W) E A) : ST (StreamManager W) E A :=
  zoom (λ m, (sm_streams m, sm_world m)) (λ p m, set_streams p.1 (set_world p.2 m)) m.
Definition on_streams' {E A} (m : ST Streams E A) : ST (StreamManager W) E A := zoom sm_streams set_streams m.
Definition on_encoder {A} (m : ST H3Encoder.FrameEncoder H3Error A) : M A := lift_err KindH3 (zoom sm_encoder set_encoder m).
Definition on_decoder {E A} (m : ST H3Decoder.FrameDecoder E A) : ST (StreamManager W) E A := zoom sm_decoder set_decoder m.
(** A call to QUIC, with [?]. *)
Definition quic {A} (f : W → W * (A + QuicheError)) : M A := λ m,
  match f (sm_world m) with
  | (w, inl a) => (set_world w m, Ok a)
  | (w, inr e) => (set_world w m, Err (KindQuic e))
  end.
Definition on_world {E} (f : W → W) : ST (StreamManager W) E () := modify_st (λ m, set_world (f (sm_world m)) m).
(** [let _ = self.io_manager_tx.send(Ok(()))]. *)
Definition wake_io {E} : ST (StreamManager W) E () := modify_st (λ m, set_io_tx (S (sm_io_tx m)) m).
(** [ok_or(internal error)?]. *)
Definition some_id {A} (m : ST Streams DispatchErrorKind (option A)) : M A :=
  o ← on_streams' m; match o with Some a => mret a | None => throw (connection_error H3InternalError) end.

(** [encoder.encode] into the two buffers: what it wrote. *)
Definition encode (id : Z) : M (bytes * bytes) :=
  m ← get_st;
  r ← on_encoder (H3Encoder.h3_encode id (sm_encoder_buf m) (sm_inst_buf m));
  _ ← modify_st (set_bufs r.1.1 r.1.2);
  mret (takeZ r.2.1 r.1.1, takeZ r.2.2 r.1.2).

(** The outcome of a poll of a receiver, [None] when it is pending. *)
Definition poll_recv_signal : M (option (() + DispatchErrorKind)) :=
  m ← get_st;
  match rx_queue (sm_rx m) with
  | x :: rest => _ ← modify_st (set_rx (mkReceiver rest (rx_closed (sm_rx m)))); mret (Some x)
  | [] => if rx_closed (sm_rx m) then throw KindChannelClosed else mret None
  end.
Definition poll_recv_request : M (option ReqMessage) :=
  m ← get_st;
  match rx_queue (sm_req_rx m) with
  | x :: rest => _ ← modify_st (set_req_rx (mkReceiver rest (rx_closed (sm_req_rx m)))); mret (Some x)
  | [] => if rx_closed (sm_req_rx m) then throw KindChannelClosed else mret None
  end.

Definition send_inst_to_peer (ins : option bytes) : M () :=
  match ins with
  | None => mret ()
  | Some vec => id ← some_id qpack_decode_stream_id; _ ← quic (stream_send id vec false); mret ()
  end.

Definition transmit_error (id : Z) (error : DispatchErrorKind) : M () := on_streams_world (send_error id error).

(** ** Sending *)

(** The loop of [poll_send_header]. *)
Fixpoint header_loop (fuel : nat) (id qpack_id : Z) : M () :=
  match fuel with
  | O => panic
  | S fuel =>
      a ← quic (stream_writable id DECODE_BUF_SIZE);
      b ← (if a : bool then quic (stream_writable qpack_id DECODE_BUF_SIZE) else mret false);
      if b : bool then
        r ← encode id;
        _ ← (if decide (r.2 = []) then mret () else _ ← quic (stream_send qpack_id r.2 false); mret ());
        _ ← (if decide (r.1 = []) then mret () else _ ← quic (stream_send id r.1 false); mret ());
        if decide (r.2 = [] ∧ r.1 = []) then on_streams' (set_encoding id false) else header_loop fuel id qpack_id
      else mret ()
  end.
Definition poll_send_header (id : Z) (frame : Frame) : M () :=
  _ ← on_streams' (set_encoding id true);
  _ ← on_encoder (H3Encoder.set_frame header_order id frame);
  qpack_id ← some_id qpack_encode_stream_id;
  w ← attempt (quic (stream_writable id DECODE_BUF_SIZE));
  _ ← (match w with
       | inr (KindQuic (QuicInvalidStreamState _)) => _ ← quic (stream_send id [] false); mret ()
       | _ => mret ()
       end);
  _ ← header_loop turns id qpack_id;
  wake_io.

(** The loop of [poll_send_frame]. *)
Fixpoint frame_loop (fuel : nat) (id : Z) : M () :=
  match fuel with
  | O => panic
  | S fuel =>
      b ← quic (stream_writable id DECODE_BUF_SIZE);
      if b : bool then
        r ← encode id;
        if decide (r.1 = []) then on_streams' (set_encoding id false)
        else _ ← quic (stream_send id r.1 false); _ ← wake_io; frame_loop fuel id
      else mret ()
  end.
Definition poll_send_frame (id : Z) (frame : option Frame) : M () :=
  _ ← (match frame with
       | Some frame => _ ← on_streams' (set_encoding id true); on_encoder (H3Encoder.set_frame header_order id frame)
       | None => mret ()
       end);
  frame_loop turns id.

Definition poll_read_body (id : Z) : M DataReadState :=
  m ← get_st;
  match stream_capacity id (sm_world m) with
  | inr _ => throw (KindH3 (Stream id H3InternalError))
  | inl capacity => on_streams_world (poll_sized_data id (Z.min capacity DEFAULT_MAX_FRAME_SIZE))
  end.

(** [poll_send_frame], where a stream that the peer stopped is left: [false]. *)
Definition send_frame_or_stop (id : Z) (frame : option Frame) : M bool :=
  r ← attempt (poll_send_frame id frame);
  match r with
  | inl _ => mret true
  | inr (KindQuic (QuicStreamStopped _)) => mret false
  | inr e => throw e
  end.

(** The loop of [input_stream_frame]. *)
Fixpoint input_loop (fuel : nat) (id : Z) : M () :=
  match fuel with
  | O => panic
  | S fuel =>
      d ← poll_read_body id;
      match d with
      | ReadClosed | ReadPending => mret ()
      | ReadReady data =>
          on ← send_frame_or_stop id (Some data);
          if on : bool then
            e ← on_streams' (encoding id);
            if e : bool then on_streams' (push_back_pending_send id) else input_loop fuel id
          else mret ()
      | ReadFinish => _ ← quic (stream_send id [] true); wake_io
      end
  end.
Definition input_stream_frame (id : Z) : M () :=
  h ← on_streams' (get_header id);
  _ ← (match h with Some header => poll_send_header id header | None => mret () end);
  e ← on_streams' (encoding id);
  if e : bool then
    on ← send_frame_or_stop id None;
    if on : bool then
      e ← on_streams' (encoding id);
      if e : bool then on_streams' (push_back_pending_send id) else input_loop turns id
    else mret ()
  else input_loop turns id.

(** [poll_input_request]: a stream is visited once. *)
Fixpoint input_streams (n : nat) : M () :=
  match n with
  | O => mret ()
  | S n =>
      o ← on_streams' next_stream;
      match o with Some id => _ ← input_stream_frame id; input_streams n | None => mret () end
  end.
Definition poll_input_request : M () :=
  _ ← on_streams' try_consume_pending_concurrency;
  m ← get_st;
  input_streams (Z.to_nat (pending_stream_len (sm_streams m))).

(** ** The start *)

Definition open_uni_stream (stream_type : Z) : M Z :=
  id ← (if stream_type =? CONTROL_STREAM_TYPE then some_id control_stream_id
        else if stream_type =? QPACK_ENCODER_STREAM_TYPE then some_id qpack_encode_stream_id
        else if stream_type =? QPACK_DECODER_STREAM_TYPE then some_id qpack_decode_stream_id
        else throw (connection_error H3InternalError));
  _ ← quic (stream_send id [stream_type] false);
  _ ← on_world (stream_priority id);
  mret id.

Fixpoint settings_loop (fuel : nat) (id : Z) : M () :=
  match fuel with
  | O => panic
  | S fuel =>
      r ← encode id;
      if decide (r.1 = []) then mret () else _ ← quic (stream_send id r.1 false); settings_loop fuel id
  end.
Definition settings_of (config : H3Config) : Settings :=
  set_qpack_block_stream (cfg_qpack_blocked_streams config)
    (set_qpack_max_table_capacity (cfg_qpack_max_table_capacity config)
      (set_max_field_section_size (cfg_max_field_section_size config) Settings_default)).
Definition send_settings (config : H3Config) : M () :=
  id ← open_uni_stream CONTROL_STREAM_TYPE;
  _ ← on_encoder (H3Encoder.set_frame header_order id (mkFrame SETTINGS_FRAME_TYPE (PSettings (settings_of config))));
  settings_loop turns id.
Definition init (config : H3Config) : M () :=
  _ ← on_decoder (modify_st (H3Decoder.local_allowed_max_field_section_size (cfg_max_field_section_size config)));
  _ ← send_settings config;
  _ ← open_uni_stream QPACK_ENCODER_STREAM_TYPE;
  _ ← open_uni_stream QPACK_DECODER_STREAM_TYPE;
  mret ().

(** ** Receiving *)

Fixpoint resume_all {E} (ids : list Z) : ST Streams E () :=
  match ids with [] => mret () | id :: ids => _ ← resume_stream_recv id; resume_all ids end.
Definition recv_qpack_encode_stream (id : Z) (unblocked : list Z) : M () :=
  _ ← on_streams' (set_peer_qpack_encode_stream_id id);
  on_streams' (resume_all unblocked).

Definition recv_qpack_decode_stream (id : Z) (order : bytes) : M () :=
  _ ← on_streams' (set_peer_qpack_decode_stream_id id);
  on_encoder (H3Encoder.decode_remote_inst inst_order order).

Fixpoint recv_request_stream (id : Z) (frames : Frames) : M () :=
  match frames with
  | [] => mret ()
  | FBlocked :: _ => on_streams' (pend_stream_recv id)
  | FPartial :: _ => mret ()
  | FComplete frame :: frames =>
      _ ← (match fr_payload frame with
           | PHeaders _ ins => _ ← send_inst_to_peer ins; on_streams_world (send_frame id frame)
           | PData _ => on_streams_world (send_frame id frame)
           | PPushPromise _ _ _ => throw (connection_error H3IdError)
           | _ => throw (connection_error H3FrameUnexpected)
           end);
      recv_request_stream id frames
  end.

Definition recv_setting_frame (settings : Settings) : M () :=
  m ← get_st;
  match sm_peer_settings m with
  | Some _ => throw (connection_error H3FrameUnexpected)
  | None =>
      _ ← modify_st (set_peer_settings (Some settings));
      _ ← (match se_qpack_max_table_capacity settings with
           | Some value => on_encoder (H3Encoder.h3_set_max_table_capacity value)
           | None => mret ()
           end);
      match se_qpack_blocked_streams settings with
      | Some value => on_encoder (modify_st (H3Encoder.h3_set_max_blocked_stream_size value))
      | None => mret ()
      end
  end.

Definition recv_goaway_frame (goaway_id : Z) : M () :=
  _ ← modify_st set_io_goaway;
  _ ← modify_st (λ m, set_req_rx (H2Manager.rx_close (sm_req_rx m)) m);
  on_streams_world (goaway goaway_id).

(** The loop of [recv_control_stream]. *)
Fixpoint control_frames (is_first_frame : bool) (frames : Frames) : M () :=
  match frames with
  | [] => mret ()
  | FComplete frame :: frames =>
      is_first_frame ← (match fr_payload frame with
        | PSettings settings => _ ← recv_setting_frame settings; mret false
        | PGoaway id => _ ← recv_goaway_frame id; mret is_first_frame
        | PCancelPush _ => throw (connection_error H3IdError)
        | _ => throw (connection_error H3FrameUnexpected)
        end);
      if is_first_frame : bool then throw (connection_error H3MissingSettings) else control_frames false frames
  | _ :: frames => control_frames is_first_frame frames
  end.
Definition recv_control_stream (id : Z) (frames : Frames) : M () :=
  m ← get_st;
  is_first_frame ← (match peer_control_stream (peers (sm_streams m)) with
    | Some stream_id => if decide (stream_id = id) then mret false else throw (connection_error H3StreamCreationError)
    | None => _ ← on_streams' (set_peer_control_stream_id id); mret true
    end);
  control_frames is_first_frame frames.

(** A message of the decoder, or its error. *)
Definition recv_message (id : Z) (r : StreamMessage + H3Error) : M () :=
  match r with
  | inl (MRequest frames) => recv_request_stream id frames
  | inl (MPush _ _) => throw (connection_error H3IdError)
  | inl (MQpackDecoder order) => recv_qpack_decode_stream id order
  | inl (MControl frames) => recv_control_stream id frames
  | inl MWaitingMore | inl MUnknown => mret ()
  | inl (MQpackEncoder vec) => recv_qpack_encode_stream id vec
  | inr e => transmit_error id (KindH3 e)
  end.

(** The loop of [process_recv_data]: the bytes, then the streams that they
    unblock. *)
Fixpoint process_recv_data (fuel : nat) (id : Z) (data : bytes) : M () :=
  match fuel with
  | O => panic
  | S fuel =>
      r ← attempt (on_decoder (H3Decoder.h3_decode unblock_order id data));
      _ ← recv_message id r;
      o ← on_streams' get_resume_stream_id;
      match o with Some id => process_recv_data fuel id [] | None => mret () end
  end.

Definition finish_stream (id : Z) : M () :=
  _ ← on_streams_world (H3Streams.finish_stream id);
  _ ← on_encoder (H3Encoder.h3_enc_finish_stream id);
  _ ← lift_err KindH3 (on_decoder (H3Decoder.h3_dec_finish_stream id));
  m ← get_st;
  if decide (goaway_id (peers (sm_streams m)) ≠ None ∧ current_concurrency (sm_streams m) = 0) then modify_st set_io_shutdown
  else mret ().

(** The loop of [read_stream]: whether there is something to send. *)
Fixpoint read_loop (fuel : nat) (id : Z) (need_send : bool) : M bool :=
  match fuel with
  | O => panic
  | S fuel =>
      r ← attempt (quic (stream_recv id UPD_RECV_BUF_SIZE));
      match r with
      | inl (data, fin) =>
          _ ← process_recv_data turns id data;
          if fin : bool then _ ← finish_stream id; mret true else read_loop fuel id true
      | inr (KindQuic QuicDone) => mret need_send
      | inr (KindQuic (QuicStreamStopped err)) | inr (KindQuic (QuicStreamReset err)) =>
          if err =? h3_code H3NoError then mret false else throw (KindH3 (Stream id (H3ErrorCode_from err)))
      | inr e => throw e
      end
  end.
Definition read_stream (id : Z) : M bool :=
  if decide (QUICStreamType_from id = ServerInitialBidirectional) then throw (connection_error H3StreamCreationError)
  else read_loop turns id false.

Definition try_recv_uni_stream (id : Z) : M bool :=
  m ← get_st;
  if stream_finished id (sm_world m) then throw (connection_error H3ClosedCriticalStream)
  else
    need_send ← read_stream id;
    m ← get_st;
    if stream_finished id (sm_world m) then throw (connection_error H3ClosedCriticalStream) else mret need_send.

(** ** Errors *)

Definition shutdown {E} (err : DispatchErrorKind) : ST (StreamManager W) E () :=
  _ ← modify_st set_io_shutdown; on_streams_world (H3Streams.shutdown err).

Definition handle_stream_error (id : Z) (err : H3ErrorCode) : M () :=
  _ ← on_world (stream_shutdown id (h3_code err));
  on_streams_world (shutdown_stream id err).

Definition error_code (err : DispatchErrorKind) : H3ErrorCode :=
  match err with KindH3 (Connection c) => c | _ => H3InternalError end.
Definition handle_connection_error {E} (err : DispatchErrorKind) : ST (StreamManager W) E () :=
  _ ← shutdown err;
  _ ← on_world (quic_close (h3_code (error_code err)));
  _ ← wake_io;
  modify_st (λ m, set_req_rx (H2Manager.rx_close (sm_req_rx m)) m).

(** [handle_error]: whether the connection ends. *)
Definition handle_error (err : DispatchErrorKind) : M bool :=
  match err with
  | KindH3 (Stream id e) => _ ← handle_stream_error id e; mret false
  | KindQuic (QuicInvalidStreamState id) => _ ← handle_stream_error id H3NoError; mret false
  | err => _ ← handle_connection_error err; mret true
  end.

(** [if let Err(e) = m { if self.handle_error(cx, &e) { return Err(e) } }]. *)
Definition guarded {A} (m : M A) : M (option A) :=
  r ← attempt m;
  match r with
  | inl a => mret (Some a)
  | inr e => ends ← handle_error e; if ends : bool then throw e else mret None
  end.

(** ** [poll] *)

Definition peer_stream (get : Peers → option Z) : M bool :=
  m ← get_st;
  match get (peers (sm_streams m)) with Some id => try_recv_uni_stream id | None => mret false end.
Fixpoint read_readable (ids : list Z) (need_send : bool) : M bool :=
  match ids with
  | [] => mret need_send
  | id :: ids =>
      m ← get_st;
      if frame_acceptable id (sm_streams m) then n ← read_stream id; read_readable ids (need_send || n)
      else read_readable ids need_send
  end.
Definition poll_stream_recv : M () :=
  a ← peer_stream peer_control_stream;
  b ← peer_stream peer_qpack_encode_stream;
  c ← peer_stream peer_qpack_decode_stream;
  m ← get_st;
  need_send ← read_readable (readable (sm_world m)) (a || b || c);
  m ← get_st;
  _ ← (if is_closed (sm_world m) then shutdown KindDisconnect else mret ());
  if need_send : bool then wake_io else mret ().

Definition poll_blocked_message : M () := _ ← on_streams_world H3Streams.poll_blocked_message; mret ().

(** All the signals that arrived, up to an error among them. *)
Fixpoint signals_loop (fuel : nat) : M () :=
  match fuel with
  | O => panic
  | S fuel =>
      o ← guarded (o ← poll_recv_signal; match o with Some (inr e) => throw e | o => mret o end);
      match o with
      | Some (Some _) => signals_loop fuel
      | _ => mret ()
      end
  end.

Fixpoint requests_loop (fuel : nat) : M () :=
  match fuel with
  | O => panic
  | S fuel =>
      o ← guarded poll_recv_request;
      match o with
      | Some (Some req) =>
          r ← attempt (on_streams' (new_unidirectional_stream (rq_header req) (rq_data req) (rq_frame_tx req)));
          _ ← (match r with
               | inl _ => mret ()
               | inr e => on_world (try_send (rq_frame_tx req) (RespExit e))
               end);
          requests_loop fuel
      | _ => mret ()
      end
  end.

(** The body of [poll], which is pending unless it fails. *)
Definition poll : M () :=
  m ← get_st;
  _ ← signals_loop (S (length (rx_queue (sm_rx m))));
  _ ← guarded poll_stream_recv;
  _ ← guarded poll_blocked_message;
  m ← get_st;
  _ ← requests_loop (S (length (rx_queue (sm_req_rx m))));
  _ ← guarded poll_input_request;
  mret ().
End manager.
