(* ===== verification/H3ManagerSpec.v ===== *)
(** * The stream manager of an HTTP/3 connection: what it promises

    A connection that fails is closed on all sides; a frame is given to QUIC byte
    by byte, in order, over as many polls as it takes; and the frames that
    arrived on the stream of a request are told to its task. *)

From stdpp Require Import gmap.
From S2P Require Import Prelude Headers Parts H3Error Varint H3Frame H3Streams H3StreamsSpec H3Manager.
From S2P Require H2Window H2Streams H2Manager H2ManagerSpec H3Encoder H3EncoderSpec H3Decoder.
#[local] Open Scope Z_scope.
#[local] Existing Instance H2Manager.SendPoll_eq_dec.
#[local] Set Warnings "-clear-no-such-hyp".

#[local] Abbreviation h3_pending := H3EncoderSpec.h3_pending.

(** ** Errors *)

Section errors.
Context {W : Type} `{H3World W} `{H3Net W}.
#[local] Abbreviation M := (ST (StreamManager W) DispatchErrorKind).

(** A method that fails only after the connection was closed for that error. *)
Definition closes {A} (m : M A) : Prop :=
  ∀ s s' e, m s = (s', Err e) → ∃ s0, handle_connection_error (E := DispatchErrorKind) e s0 = (s', Ok ()).

Lemma closes_bind {A B} (m : M A) (f : A → M B) : closes m → (∀ a, closes (f a)) → closes (m ≫= f).
Proof.
  intros Hm Hf s s' e. rewrite bind_st. destruct (m s) as [s1 [a|e1|]] eqn:E; [apply Hf| |done].
  intros [= <- <-]. by eapply Hm.
Qed.
Lemma closes_ret {A} (a : A) : closes (mret a).
Proof. by intros s s' e. Qed.
Lemma closes_get : closes get_st.
Proof. by intros s s' e. Qed.
Lemma closes_attempt {A} (m : ST (StreamManager W) DispatchErrorKind A) : closes (H2Manager.attempt m).
Proof. intros s s' e. unfold H2Manager.attempt. by destruct (m s) as [? []]. Qed.
Lemma closes_panic {A} : closes (panic : M A).
Proof. by intros s s' e. Qed.
Lemma closes_world f : closes (on_world f).
Proof. by intros s s' e. Qed.

Lemma transmit_pending_ok {E : Type} m s (w : W) : ∃ s' w' b, transmit_pending m (s, w) = ((s', w'), @Ok E bool b).
Proof. unfold transmit_pending. rewrite bind_st. unfold H2Manager.attempt. rewrite transmit_eq. destruct (poll_send _ _ _).2; by do 3 eexists. Qed.

Lemma stop_loop_no_err {E : Type} which e ids : ∀ pend (p p' : Streams * W) x, stop_loop which e ids pend p = (p', @Err E _ x) → False.
Proof.
  induction ids as [|id ids IH]; intros pend p p' x; cbn [stop_loop]; [done|]. destruct (which id); [|apply IH].
  rewrite bind_st. unfold with_bidi. destruct (_ !! id) as [st|]; [|done]. unfold stop_stream. rewrite bind_st. unfold on_bidi, modify_st. cbn [fst snd].
  match goal with |- context [transmit_pending ?m (?s, ?w)] => destruct (transmit_pending_ok (E := E) m s w) as (s' & w' & b & ->) end. apply IH.
Qed.

Lemma stop_streams_no_err {E : Type} which e (p p' : Streams * W) x : stop_streams which e p = (p', @Err E _ x) → False.
Proof.
  unfold stop_streams. rewrite bind_st. cbn [get_st]. rewrite bind_st. destruct (stop_loop _ _ _ _ _) as [q [pend|y|]] eqn:Es; [| |done].
  - destruct (pend_channels_eq (E := E) pend q) as (X & -> & _). done.
  - by apply stop_loop_no_err in Es.
Qed.

Lemma connection_error_ok e e' (s s' : StreamManager W) : handle_connection_error e s = (s', @Err DispatchErrorKind () e') → False.
Proof.
  unfold handle_connection_error. rewrite bind_st. unfold H3Manager.shutdown. rewrite bind_st. unfold modify_st at 1, on_streams_world, zoom.
  unfold H3Streams.shutdown. destruct (stop_streams _ _ _) as [q [|y|]] eqn:Es; [done| |done]. by apply stop_streams_no_err in Es.
Qed.

Lemma shutdown_stream_ok id c (p : Streams * W) : (shutdown_stream id c p).2 = Ok () ∨ (shutdown_stream id c p).2 = Panic.
Proof.
  unfold shutdown_stream. rewrite bind_st. cbn [get_st]. destruct (bidirectional_stream p.1 !! id) as [st|] eqn:Est; [|by left].
  rewrite bind_st. unfold with_bidi. rewrite Est.
  destruct (transmit_pending_ok (E := DispatchErrorKind) (RespExit (KindH3 (Stream id c))) st p.2) as (s' & w' & b & ->).
  rewrite bind_st. unfold on_streams, zoom, decrease_current_concurrency.
  destruct b; cbn [mret ST_ret stream_pend_channel on_queues modify_st fst snd]; rewrite bind_st; cbn [get_st]; rewrite bind_st;
    unfold lift_res, H2Window.u32_check; destruct (_ && _); first [by left|by right].
Qed.

Lemma handle_stream_error_ok id c s : (handle_stream_error id c s).2 = Ok () ∨ (handle_stream_error id c s).2 = Panic.
Proof.
  unfold handle_stream_error. rewrite bind_st. unfold on_world, modify_st, on_streams_world, zoom.
  match goal with |- context [shutdown_stream id c ?p] => pose proof (shutdown_stream_ok id c p) as Ho; destruct (shutdown_stream id c p) as [q r] end.
  exact Ho.
Qed.

Lemma closes_guarded {A} (m : M A) : closes (guarded m).
Proof.
  intros s s' e. unfold guarded. rewrite bind_st. unfold H2Manager.attempt. destruct (m s) as [s1 [a|e1|]]; [done| |done].
  rewrite bind_st. assert (∀ id c, (let (s'', r) := (_ ← handle_stream_error id c; mret false) s1 in
    match r with Ok ends => (if ends : bool then throw e1 else mret None) s'' | Err e => (s'', Err e) | Panic => (s'', Panic) end)
      = (s', @Err DispatchErrorKind (option A) e) → False) as Hstream.
  { intros id c. rewrite bind_st. pose proof (handle_stream_error_ok id c s1) as Ho. destruct (handle_stream_error id c s1) as [s2 r].
    cbn in Ho. by destruct Ho as [-> | ->]. }
  assert ((let (s'', r) := (_ ← handle_connection_error e1; mret true) s1 in
    match r with Ok ends => (if ends : bool then throw e1 else mret None) s'' | Err e => (s'', Err e) | Panic => (s'', Panic) end)
      = (s', @Err DispatchErrorKind (option A) e) → ∃ s0, handle_connection_error (E := DispatchErrorKind) e s0 = (s', Ok ())) as Hconn.
  { rewrite bind_st. destruct (handle_connection_error e1 s1) as [s2 [[]|e2|]] eqn:E; [|by apply connection_error_ok in E|done].
    intros [= <- <-]. by exists s1. }
  unfold handle_error. destruct e1 as [[]| |[]| | | |]; try exact Hconn; intros Hs; by apply Hstream in Hs.
Qed.

Lemma closes_requests fuel : closes (requests_loop fuel).
Proof.
  induction fuel as [|fuel IH]; [apply closes_panic|]. cbn [requests_loop]. apply closes_bind; [apply closes_guarded|].
  intros [[req|]|]; [|apply closes_ret..]. apply closes_bind; [apply closes_attempt|]. intros r.
  apply closes_bind; [destruct r; [apply closes_ret|apply closes_world]|done].
Qed.

Lemma closes_signals fuel : closes (signals_loop fuel).
Proof.
  induction fuel as [|fuel IH]; [apply closes_panic|]. cbn [signals_loop]. apply closes_bind; [apply closes_guarded|].
  by intros [[]|]; [|apply closes_ret..].
Qed.

Lemma closes_poll turns : closes (poll turns).
Proof.
  unfold poll. repeat (apply closes_bind; [first [apply closes_get|apply closes_signals|apply closes_guarded|apply closes_requests]|intros ?]).
  apply closes_ret.
Qed.
End errors.

(** ** The world *)

(** QUIC, as documented: a stream that can take [n] bytes takes them; what
    arrived on a stream is given in order, the last of it with the end of the
    stream; and none of this gives messages to tasks, nor does a message to a
    task move the bytes of QUIC.  [incoming] is what QUIC has for a stream as the
    manager will find it, reading again and again into its buffer of
    [UPD_RECV_BUF_SIZE] bytes: pieces that fit the buffer, and whether the last of
    them comes with the end of the stream.  Nothing is said of reads into other
    buffers. *)
Definition same_tasks {W : Type} `{H3Laws W} (w w' : W) : Prop :=
  (∀ c, given c w' = given c w) ∧ (∀ c, gone c w = true → gone c w' = true).

Class H3NetLaws (W : Type) `{H3Laws W} `{H3Net W} := {
  sent : Z → W → bytes;
  incoming : Z → W → list bytes * bool;
  writable_sent id n w i : sent i (stream_writable id n w).1 = sent i w;
  writable_room id n w w' : stream_writable id n w = (w', inl true) →
    ∀ data, len data ≤ n → ∃ w'', stream_send id data false w' = (w'', inl (len data)) ∧
      ∀ i, sent i w'' = sent i w' ++ (if decide (i = id) then data else []);
  incoming_fits id w : Forall (λ chunk, len chunk ≤ UPD_RECV_BUF_SIZE) (incoming id w).1;
  recv_some id w chunk rest fin : incoming id w = (chunk :: rest, fin) →
    ∃ w', stream_recv id UPD_RECV_BUF_SIZE w = (w', inl (chunk, fin && bool_decide (rest = []))) ∧ incoming id w' = (rest, fin) ∧ same_tasks w w';
  recv_none id w fin : incoming id w = ([], fin) →
    ∃ w', stream_recv id UPD_RECV_BUF_SIZE w = (w', inr QuicDone) ∧ same_tasks w w';
  poll_send_incoming c m w i : incoming i (poll_send c m w).1 = incoming i w;
  close_tasks code w : same_tasks w (quic_close code w) }.

Section manager.
Context {W : Type} `{H3NetLaws W}.
#[local] Abbreviation M := (ST (StreamManager W) DispatchErrorKind).

(** ** A connection that fails *)

(** The stream is over, and its task was told, will be told, or has gone. *)
Definition stopped (e : DispatchErrorKind) (s : BidirectionalStream) (w : W) : Prop :=
  bs_state s = H3Streams.Shutdown ∧ bs_header s = None ∧ bs_pending_message s = [] ∧ H2Streams.bd_body (bs_data s) = false ∧
  (bs_curr_message s = Some (RespExit e) ∨ RespExit e ∈ given (bs_frame_tx s) w ∨ gone (bs_frame_tx s) w = true).

Lemma stopped_later e s (w w' : W) :
  (∀ c, given c w `prefix_of` given c w') → (∀ c, gone c w = true → gone c w' = true) → stopped e s w → stopped e s w'.
Proof.
  intros Hg Hm (? & ? & ? & ? & Ht). split_and!; try done. destruct Ht as [?|[Ht|?]]; [by left|right; left|right; right; auto].
  destruct (Hg (bs_frame_tx s)) as [l ->]. apply elem_of_app. by left.
Qed.

Lemma poll_send_grows c m (w : W) c' : given c' w `prefix_of` given c' (poll_send c m w).1.
Proof. rewrite poll_send_given. by eexists. Qed.

Definition later (w w' : W) : Prop := (∀ c, given c w `prefix_of` given c w') ∧ (∀ c, gone c w = true → gone c w' = true).

Lemma stop_stream_stopped {E : Type} e s (w : W) :
  ∃ s' w' b, stop_stream e (s, w) = ((s', w'), @Ok E bool b) ∧ stopped e s' w' ∧ later w w'.
Proof.
  unfold stop_stream. rewrite bind_st. unfold on_bidi, modify_st. cbn [fst snd].
  match goal with |- context [transmit_pending _ (?x, _)] => set (s1 := x) end.
  unfold transmit_pending. rewrite bind_st. unfold H2Manager.attempt. rewrite transmit_eq. change (bs_frame_tx s1) with (bs_frame_tx s).
  pose proof (poll_send_given (bs_frame_tx s) (RespExit e) w (bs_frame_tx s)) as Hgiv.
  pose proof (poll_send_gone (bs_frame_tx s) (RespExit e) w) as Hgone.
  assert (later w (poll_send (bs_frame_tx s) (RespExit e) w).1) as Hl.
  { split; intros c; [apply poll_send_grows|apply poll_send_stays]. }
  destruct (poll_send _ _ _) as [w' o]. cbn [fst snd] in *. destruct o; do 3 eexists; (split; [reflexivity|]); (split; [|exact Hl]); split_and!; try done.
  - right. left. cbn. rewrite Hgiv, decide_True by done. apply elem_of_app. right. by left.
  - right. right. by apply Hgone.
  - by left.
Qed.

Lemma stop_loop_stopped {E : Type} e ids : ∀ pend (p : Streams * W),
  (∀ id, id ∈ ids → is_Some (bidirectional_stream p.1 !! id)) →
  ∃ p' pend', stop_loop (λ _, true) e ids pend p = (p', @Ok E _ pend') ∧ later p.2 p'.2 ∧
    ∀ id s, bidirectional_stream p'.1 !! id = Some s →
      is_Some (bidirectional_stream p.1 !! id) ∧
      (id ∈ ids ∨ (∀ s0, bidirectional_stream p.1 !! id = Some s0 → stopped e s0 p.2) → stopped e s p'.2).
Proof.
  induction ids as [|id ids IH]; intros pend p Hids; cbn [stop_loop].
  { exists p, pend. split; [done|]. split; [by split|]. intros id s Hs. split; [by eexists|]. intros [Hid|Hst]; [by apply elem_of_nil in Hid|auto]. }
  destruct (Hids id ltac:(left)) as [s Hs]. rewrite bind_st. unfold with_bidi. rewrite Hs.
  destruct (stop_stream_stopped (E := E) e s p.2) as (s' & w' & b & -> & Hst & Hl).
  destruct (IH (if b then pend ++ [id] else pend) (set_bidi (<[id := s']> (bidirectional_stream p.1)) p.1, w')) as (p' & pend' & He & Hl' & Hall).
  { cbn. intros i Hi. destruct (decide (i = id)) as [->|]; [by rewrite lookup_insert_eq|]. rewrite lookup_insert_ne by done. apply Hids. by right. }
  exists p', pend'. split; [done|]. cbn [fst snd] in *. split.
  { split; [intros c; etrans; [by apply Hl|by apply Hl']|intros c Hc; by apply Hl', Hl]. }
  intros i t Ht. destruct (Hall i t Ht) as [Hsome Hstop]. cbn in Hsome. destruct (decide (i = id)) as [->|Hne].
  - split; [by eexists|]. intros _. apply Hstop. right. cbn. rewrite lookup_insert_eq. by intros ? [= <-].
  - cbn in Hstop. rewrite lookup_insert_ne in Hsome, Hstop by done. split; [done|]. intros [Hi|Hst']; apply Hstop.
    + left. by apply elem_of_cons in Hi as [?|?].
    + right. intros s0 Hs0. apply stopped_later with p.2; [apply Hl|apply Hl|auto].
Qed.

Lemma shutdown_stops {E : Type} e (p : Streams * W) :
  ∃ p', H3Streams.shutdown e p = (p', @Ok E _ ()) ∧ ∀ id s, bidirectional_stream p'.1 !! id = Some s → stopped e s p'.2.
Proof.
  unfold H3Streams.shutdown, stop_streams. rewrite bind_st. cbn [get_st].
  destruct (stop_loop_stopped (E := E) e (stream_order (bidirectional_stream p.1)) [] p) as (q & pend & He & _ & Hall).
  { intros id. apply stream_order_keys. }
  rewrite bind_st, He. destruct (pend_channels_eq (E := E) pend q) as (X & -> & _). eexists. split; [done|]. cbn. intros id s Hs.
  destruct (Hall id s Hs) as [Hsome Hstop]. apply Hstop. left. by apply stream_order_keys.
Qed.

(** What the end of a connection means, whatever the error. *)
Definition closed_for (e : DispatchErrorKind) (m : StreamManager W) : Prop :=
  sm_io_shutdown m = true ∧ H2Manager.rx_closed (sm_req_rx m) = true ∧
  (∃ w, sm_world m = quic_close (h3_code (error_code e)) w) ∧
  ∀ id s, bidirectional_stream (sm_streams m) !! id = Some s → stopped e s (sm_world m).

Lemma connection_error_closes {E : Type} e (m : StreamManager W) :
  ∃ m', handle_connection_error e m = (m', @Ok E _ ()) ∧ closed_for e m' ∧ sm_io_tx m' = S (sm_io_tx m).
Proof.
  unfold handle_connection_error. rewrite bind_st. unfold H3Manager.shutdown. rewrite bind_st. unfold modify_st at 1, on_streams_world, zoom.
  cbn [sm_streams sm_world set_io_shutdown]. destruct (shutdown_stops (E := E) e (sm_streams m, sm_world m)) as (p' & -> & Hall).
  rewrite bind_st. unfold on_world, modify_st. rewrite bind_st. unfold wake_io, modify_st. eexists. split; [reflexivity|]. split; [|done].
  split_and!; try done; [by eexists|]. intros id s Hs. cbn in *. destruct (close_tasks (h3_code (error_code e)) p'.2) as [Hg Hm].
  apply stopped_later with p'.2; [|done|by eapply Hall]. intros c. by rewrite Hg.
Qed.

(** C21: A poll of the stream manager that fails leaves nothing open: the dispatcher
    sees that the connection is shut down, no request is taken any more, QUIC is
    closed with the code of the error, and every request is over, its task told
    of the error, about to be, or gone. *)
Theorem h3_error_closes (turns : nat) (m m' : StreamManager W) (e : DispatchErrorKind) (Hp : poll turns m = (m', Err e)) :
  closed_for e m'.
Proof.
  apply closes_poll in Hp as [s0 Hs]. destruct (connection_error_closes (E := DispatchErrorKind) e s0) as (m1 & He & Hc & _).
  rewrite Hs in He. by injection He as <-.
Qed.

(** A GOAWAY closes the queue of requests, and a closed queue without requests
    is an error of the connection: the requests that the peer was still
    answering are over in the same poll. *)
Theorem h3_goaway_ends_all (fuel : nat) (m : StreamManager W) :
  H2Manager.rx_queue (sm_req_rx m) = [] → H2Manager.rx_closed (sm_req_rx m) = true →
  ∃ m', requests_loop (S fuel) m = (m', Err KindChannelClosed) ∧ closed_for KindChannelClosed m'.
Proof.
  intros Hq Hc. cbn [requests_loop]. rewrite bind_st. unfold guarded. rewrite bind_st. unfold H2Manager.attempt, poll_recv_request.
  rewrite bind_st. cbn [get_st]. rewrite Hq, Hc. cbn [throw]. rewrite bind_st. unfold handle_error. rewrite bind_st.
  destruct (connection_error_closes (E := DispatchErrorKind) KindChannelClosed m) as (m' & -> & Hcl & _). by exists m'.
Qed.

(** ** A frame is given to QUIC *)

(** A call of [encode] with buffers of the manager's size. *)
Lemma encode_call id (m : StreamManager W) s wire inst :
  H3Encoder.fe_streams (sm_encoder m) !! id = Some s → h3_pending (H3Encoder.fe_qpack_encoder (sm_encoder m)) s wire inst →
  len (sm_encoder_buf m) = DECODE_BUF_SIZE →
  let n := Z.min (len wire) DECODE_BUF_SIZE in
  let k := Z.min (len inst) (len (sm_inst_buf m)) in
  ∃ m' s', encode id m = (m', Ok (takeZ n wire, takeZ k inst)) ∧
    H3Encoder.fe_streams (sm_encoder m') = <[id := s']> (H3Encoder.fe_streams (sm_encoder m)) ∧
    h3_pending (H3Encoder.fe_qpack_encoder (sm_encoder m')) s' (dropZ n wire) (dropZ k inst) ∧
    len (sm_encoder_buf m') = DECODE_BUF_SIZE ∧ sm_streams m' = sm_streams m ∧ sm_world m' = sm_world m.
Proof.
  intros Hs Hp Hb n k. unfold encode. rewrite bind_st. cbn [get_st]. rewrite bind_st. unfold on_encoder, H2Manager.lift_err, zoom.
  pose proof (H3EncoderSpec.turns_wrote _ _ _ _ (sm_encoder_buf m) (sm_inst_buf m) Hp) as Hw. rewrite Hb in Hw. specialize (Hw ltac:(done)).
  unfold H3Encoder.h3_encode. rewrite bind_st. cbn [get_st]. rewrite Hb. change (DECODE_BUF_SIZE <? 1024) with false. cbn [negb]. rewrite Hs.
  destruct (H3Encoder.encode_turns 3 0 _) as [c r]. destruct Hw as (-> & Hf & Hi & Hp'). rewrite Hb in *. fold n in Hf, Hp' |- *. fold k in Hi, Hp' |- *.
  rewrite bind_st. unfold put_st. cbn [mret ST_ret]. rewrite bind_st. unfold modify_st. cbn [fst snd]. rewrite Hf, Hi.
  pose proof (len_nonneg wire). pose proof (len_nonneg inst). pose proof (len_nonneg (sm_inst_buf m)).
  assert (0 ≤ n ≤ len wire ∧ n ≤ DECODE_BUF_SIZE) as [Hn1 Hn2] by (unfold n, DECODE_BUF_SIZE; lia). assert (0 ≤ k ≤ len inst) by (unfold k; lia).
  assert (takeZ n (takeZ n wire ++ dropZ n (sm_encoder_buf m)) = takeZ n wire) as ->.
  { rewrite takeZ_app_le by (rewrite len_takeZ; lia). apply takeZ_all. rewrite len_takeZ; lia. }
  assert (takeZ k (takeZ k inst ++ dropZ k (sm_inst_buf m)) = takeZ k inst) as ->.
  { rewrite takeZ_app_le by (rewrite len_takeZ; lia). apply takeZ_all. rewrite len_takeZ; lia. }
  do 2 eexists. split; [reflexivity|]. split; [reflexivity|]. split; [exact Hp'|]. split_and!; try done.
  cbn. rewrite len_app, len_takeZ, len_dropZ by (rewrite ?Hb; lia). rewrite Hb. lia.
Qed.

(** What the loop of [poll_send_frame] leaves: the first [k] bytes of [wire]
    were given to QUIC, and the rest waits in the encoder; the flag of the stream
    is cleared when none is left. *)
Definition frame_progress (id : Z) (m : StreamManager W) (wire : bytes) (m' : StreamManager W) (done : bool) : Prop :=
  ∃ k s', 0 ≤ k ≤ len wire ∧
    (∀ i, sent i (sm_world m') = sent i (sm_world m) ++ (if decide (i = id) then takeZ k wire else [])) ∧
    H3Encoder.fe_streams (sm_encoder m') = <[id := s']> (H3Encoder.fe_streams (sm_encoder m)) ∧
    h3_pending (H3Encoder.fe_qpack_encoder (sm_encoder m')) s' (dropZ k wire) [] ∧
    len (sm_encoder_buf m') = DECODE_BUF_SIZE ∧
    ∃ st, bidirectional_stream (sm_streams m) !! id = Some st ∧
      if done then k = len wire ∧ sm_streams m' = set_bidi (<[id := bs_set_encoding false st]> (bidirectional_stream (sm_streams m))) (sm_streams m)
      else sm_streams m' = sm_streams m.

Lemma frame_loop_sends fuel : ∀ id (m : StreamManager W) s st wire,
  H3Encoder.fe_streams (sm_encoder m) !! id = Some s → h3_pending (H3Encoder.fe_qpack_encoder (sm_encoder m)) s wire [] →
  len (sm_encoder_buf m) = DECODE_BUF_SIZE → bidirectional_stream (sm_streams m) !! id = Some st → len wire < Z.of_nat fuel →
  ∃ m' r, frame_loop fuel id m = (m', r) ∧ r ≠ Panic ∧ ∃ done, frame_progress id m wire m' done ∧
    match r with Err e => done = false ∧ ∃ q, e = KindQuic q | _ => True end ∧
    ((∀ w, (stream_writable id DECODE_BUF_SIZE w).2 = inl true) → done = true).
Proof.
  induction fuel as [|fuel IH]; intros id m s st wire Hs Hp Hb Hst Hfuel; [pose proof (len_nonneg wire); lia|].
  cbn [frame_loop]. rewrite bind_st. unfold quic at 1.
  pose proof (writable_sent id DECODE_BUF_SIZE (sm_world m)) as Hsent. pose proof (writable_room id DECODE_BUF_SIZE (sm_world m)) as Hroom.
  pose proof (len_nonneg wire) as Hlen.
  assert (∀ w', (∀ i, sent i w' = sent i (sm_world m)) → frame_progress id m wire (set_world w' m) false) as Hstay.
  { intros w' Hw'. exists 0, s. split; [lia|]. rewrite takeZ_0, dropZ_0. split_and!; try done; [|by rewrite insert_id|by exists st].
    intros i. cbn. rewrite Hw'. destruct (decide _); by rewrite app_nil_r. }
  destruct (stream_writable id DECODE_BUF_SIZE (sm_world m)) as [w1 [[]|e]] eqn:Ew; cbn [fst] in Hsent.
  2,3: do 2 eexists; split; [reflexivity|]; split; [done|]; exists false; split; [by apply Hstay|];
    (split; [first [done|split; [done|by eexists]]|intros Hw; specialize (Hw (sm_world m)); by rewrite Ew in Hw]).
  rewrite bind_st. destruct (encode_call id (set_world w1 m) s wire [] Hs Hp Hb) as (m2 & s2 & -> & Hs2 & Hp2 & Hb2 & Hst2 & Hw2).
  cbn [fst snd]. set (n := Z.min (len wire) DECODE_BUF_SIZE) in *. change (len (@nil Z)) with 0 in Hp2.
  assert (0 ≤ n ≤ len wire) as Hn by (unfold n, DECODE_BUF_SIZE; lia).
  replace (dropZ (Z.min 0 _) []) with (@nil Z) in Hp2 by (unfold dropZ; by rewrite drop_nil).
  destruct (decide (takeZ n wire = [])) as [E|E].
  - assert (len wire = 0) as Hnil. { apply (f_equal len) in E. rewrite len_takeZ, len_nil in E by done. unfold n, DECODE_BUF_SIZE in *. lia. }
    unfold on_streams', zoom, set_encoding, with_stream. rewrite Hst2. cbn [sm_streams set_world]. rewrite Hst.
    do 2 eexists. split; [reflexivity|]. split; [done|]. exists true. split; [|by split]. exists 0, s2. split; [lia|].
    apply len_0_nil in Hnil as ->. split_and!; try done.
    + intros i. cbn. rewrite Hw2. cbn. rewrite Hsent. destruct (decide _); by rewrite app_nil_r.
    + by exists st.
  - rewrite bind_st. unfold quic at 1. destruct (Hroom w1 eq_refl (takeZ n wire)) as (w2 & Hsend & Hgot).
    { rewrite len_takeZ by done. unfold n. lia. }
    rewrite Hw2. cbn [sm_world set_world]. rewrite Hsend, bind_st. unfold wake_io, modify_st.
    match goal with |- context [frame_loop fuel id ?x] => set (m3 := x) end.
    assert (0 < n) as Hpos. { destruct (Z.eq_dec n 0) as [E0|]; [|lia]. by rewrite E0, takeZ_0 in E. }
    destruct (IH id m3 s2 st (dropZ n wire)) as (m' & r & He & Hr & dn & Hprog & Hdone); try done.
    { cbn. by rewrite Hs2, lookup_insert_eq. } { cbn. by rewrite Hst2. } { rewrite len_dropZ by done. lia. }
    exists m', r. split; [exact He|]. split; [done|]. exists dn. split; [|done].
    destruct Hprog as (k & s' & Hk & Hsent' & Hfs & Hpend & Hb' & st' & Hst' & Hfin). rewrite len_dropZ in Hk by done.
    exists (n + k), s'. split; [lia|]. split; [|split; [|split; [|split; [done|]]]].
    + intros i. rewrite Hsent'. cbn. rewrite Hgot, Hsent, <-app_assoc. f_equal. destruct (decide _); [|done].
      unfold takeZ, dropZ. rewrite Z2Nat.inj_add by lia. by rewrite take_take_drop.
    + rewrite Hfs. cbn. by rewrite Hs2, insert_insert_eq.
    + by rewrite dropZ_dropZ in Hpend by lia.
    + cbn in Hst', Hfin. rewrite Hst2 in Hst', Hfin. cbn in Hst', Hfin. exists st'. split; [done|]. rewrite len_dropZ in Hfin by done.
      destruct dn; [|done]. destruct Hfin as [? ->]. split; [lia|done].
Qed.

(** The bytes that [poll_send_frame] has to give to QUIC: those of a DATA frame
    that it is called with, or what is left of the frame in the encoder. *)
Definition to_send (id : Z) (frame : option Frame) (m : StreamManager W) (wire : bytes) : Prop :=
  let e := sm_encoder m in
  len (sm_encoder_buf m) = DECODE_BUF_SIZE ∧
  match frame with
  | None => ∃ s, H3Encoder.fe_streams e !! id = Some s ∧ h3_pending (H3Encoder.fe_qpack_encoder e) s wire []
  | Some f =>
      ∃ d, f = H3EncoderSpec.data_frame d ∧ is_varint (len d) ∧ wire = H3EncoderSpec.frame_wire DATA_FRAME_TYPE d ∧
        let s := default (H3Encoder.EncodedH3Stream_new id) (H3Encoder.fe_streams e !! id) in
        H3EncoderSpec.ready s ∧ (H3Encoder.es_state s = H3Encoder.Idle ∨ H3Encoder.es_state s = H3Encoder.FrameComplete)
  end.

Lemma set_data_pending order id d e :
  is_varint (len d) →
  let s := default (H3Encoder.EncodedH3Stream_new id) (H3Encoder.fe_streams e !! id) in
  H3EncoderSpec.ready s → H3Encoder.es_state s = H3Encoder.Idle ∨ H3Encoder.es_state s = H3Encoder.FrameComplete →
  ∃ e' s', H3Encoder.set_frame order id (H3EncoderSpec.data_frame d) e = (e', Ok ()) ∧ H3Encoder.fe_streams e' !! id = Some s' ∧
    h3_pending (H3Encoder.fe_qpack_encoder e') s' (H3EncoderSpec.frame_wire DATA_FRAME_TYPE d) [].
Proof.
  intros Hv s Hr Hs. unfold H3Encoder.set_frame. rewrite bind_st. cbn [get_st]. fold s.
  destruct Hs as [-> | ->]; (do 2 eexists; split; [reflexivity|]; split; [cbn; apply lookup_insert_eq|]; split; [done|]; by exists d).
Qed.

(** C20: A DATA frame of a request on a stream between two frames, or what is left
    in the encoder of a frame whose QPACK instructions, if any, were sent, is given
    to QUIC over as many polls as it takes: a call of poll_send_frame ends whatever
    QUIC answers and has appended the next bytes of the frame to its stream, each
    once and in order, and to no other stream; the rest is what the next call sends,
    and the stream is free for another frame only when there is none. (HEADERS are
    started by poll_send_header; frames with instructions to send are excluded.) *)
Theorem h3_frame_sent (turns : nat) (id : Z) (frame : option Frame) (m : StreamManager W) (st : BidirectionalStream) (wire : bytes)
    (Hst : bidirectional_stream (sm_streams m) !! id = Some st) (Hsend : to_send id frame m wire)
    (Henc : frame = None → bs_encoding st = true) (Hturns : len wire < Z.of_nat turns) :
  ∃ m' r k st', poll_send_frame turns id frame m = (m', r) ∧ r ≠ Panic ∧ 0 ≤ k ≤ len wire ∧
    (∀ i, sent i (sm_world m') = sent i (sm_world m) ++ (if decide (i = id) then takeZ k wire else [])) ∧
    to_send id None m' (dropZ k wire) ∧
    bidirectional_stream (sm_streams m') = <[id := st']> (bidirectional_stream (sm_streams m)) ∧
    (bs_encoding st' = false → r = Ok () ∧ k = len wire) ∧
    ((∀ w, (stream_writable id DECODE_BUF_SIZE w).2 = inl true) → bs_encoding st' = false).
Proof.
  unfold poll_send_frame. rewrite bind_st.
  assert (∃ m1 s, (match frame with
      | Some frame => _ ← on_streams' (set_encoding id true); on_encoder (H3Encoder.set_frame header_order id frame)
      | None => mret ()
      end : M ()) m = (m1, Ok ()) ∧ H3Encoder.fe_streams (sm_encoder m1) !! id = Some s ∧ h3_pending (H3Encoder.fe_qpack_encoder (sm_encoder m1)) s wire [] ∧
    len (sm_encoder_buf m1) = DECODE_BUF_SIZE ∧ sm_world m1 = sm_world m ∧
    bidirectional_stream (sm_streams m1) = <[id := bs_set_encoding true st]> (bidirectional_stream (sm_streams m))) as (m1 & s & -> & Hs & Hp & Hb & Hw & Hbidi).
  { destruct Hsend as [Hb Hsend]. destruct frame as [f|].
    - destruct Hsend as (d & -> & Hv & -> & Hr & Hidle). rewrite bind_st. unfold on_streams', zoom, set_encoding, with_stream. rewrite Hst. cbn [modify_st].
      destruct (set_data_pending header_order id d (sm_encoder m) Hv Hr Hidle) as (e' & s' & He & Hs' & Hp').
      unfold on_encoder, H2Manager.lift_err, zoom. cbn [sm_encoder set_streams]. rewrite He. do 2 eexists. split; [reflexivity|]. by split_and!.
    - destruct Hsend as (s & Hs & Hp). exists m, s. split_and!; try done. rewrite <-(insert_id (bidirectional_stream (sm_streams m)) id st Hst) at 1.
      f_equal. destruct st. unfold bs_set_encoding. cbn in *. by rewrite Henc. }
  assert (bidirectional_stream (sm_streams m1) !! id = Some (bs_set_encoding true st)) as Hst1 by by rewrite Hbidi, lookup_insert_eq.
  destruct (frame_loop_sends turns id m1 s _ wire Hs Hp Hb Hst1 Hturns) as (m' & r & -> & Hr & dn & Hprog & Hend).
  destruct Hprog as (k & s' & Hk & Hsent & Hfs & Hpend & Hb' & st1 & Hst1' & Hfin). rewrite Hst1 in Hst1'. injection Hst1' as <-.
  exists m', r, k, (bs_set_encoding (negb dn) st). split; [done|]. split; [done|]. split; [done|]. split; [intros i; by rewrite Hsent, Hw|].
  split; [split; [done|]; exists s'; split; [by rewrite Hfs, lookup_insert_eq|done]|]. destruct dn.
  - destruct Hfin as [-> ->]. split; [cbn; by rewrite Hbidi, insert_insert_eq|]. split; [|done]. intros _. split; [|done].
    destruct r as [[]| |]; [done| |done]. by destruct Hend as [[] _].
  - rewrite Hfin. split; [done|]. split; [done|]. intros Hall. by apply Hend in Hall.
Qed.

(** ** A response is read *)

(** The task of a channel never goes. *)
Definition listens (c : Z) : Prop := ∀ m (w : W), (poll_send c m w).2 ≠ H2Manager.SendGone.

Lemma listens_stays c (w : W) : listens c → gone c w = false.
Proof.
  intros Hl. destruct (gone c w) eqn:E; [|done]. destruct (Hl (RespExit KindDisconnect) w). by apply poll_send_gone, poll_send_stays.
Qed.

(** What telling a stream leaves as it was. *)
Definition framed (p p' : Streams * W) : Prop :=
  (∀ i, bs_frame_tx <$> bidirectional_stream p'.1 !! i = bs_frame_tx <$> bidirectional_stream p.1 !! i) ∧
  resume_recv (queues p'.1) = resume_recv (queues p.1) ∧ (∀ i, incoming i p'.2 = incoming i p.2).

Lemma framed_trans p1 p2 p3 : framed p1 p2 → framed p2 p3 → framed p1 p3.
Proof. intros (A1 & A2 & A3) (B1 & B2 & B3). split_and!; intros; by rewrite ?B1, ?B2, ?B3. Qed.

Definition bidi_framed {A : Type} (m : ST (BidirectionalStream * W) DispatchErrorKind A) : Prop :=
  ∀ s w, let '((s', w'), _) := m (s, w) in bs_frame_tx s' = bs_frame_tx s ∧ ∀ i, incoming i w' = incoming i w.

Lemma queue_framed m : bidi_framed (queue_message m).
Proof.
  intros s w. unfold queue_message. rewrite bind_st. cbn [get_st fst]. destruct (bs_curr_message s); [done|]. rewrite transmit_eq.
  destruct (poll_send _ _ _).2; (split; [done|]); intros i; apply poll_send_incoming.
Qed.

Lemma pended_framed id absent m (p : Streams * W) :
  bidi_framed m →
  let p' := ((r ← with_bidi id absent m; match r with H2Manager.Ready => mret () | H2Manager.Pending => on_streams (stream_pend_channel id) end) p).1 in
  framed p p' ∧ working_stream_num p'.1 = working_stream_num p.1.
Proof.
  intros Hm. cbv zeta. rewrite bind_st. unfold with_bidi. destruct (bidirectional_stream p.1 !! id) as [s|] eqn:Hs; [|by destruct absent as [[]| |]].
  specialize (Hm s p.2). destruct (m (s, p.2)) as [[s' w'] r]. destruct Hm as [Ht Hi].
  assert (∀ i, bs_frame_tx <$> <[id := s']> (bidirectional_stream p.1) !! i = bs_frame_tx <$> bidirectional_stream p.1 !! i) as Htx.
  { intros i. destruct (decide (i = id)) as [->|Hne]; [rewrite lookup_insert_eq, Hs; cbn; by rewrite Ht|by rewrite lookup_insert_ne]. }
  by destruct r as [[]| |].
Qed.

Lemma send_frame_framed id f (p : Streams * W) :
  framed p (send_frame id f p).1 ∧ working_stream_num (send_frame id f p).1.1 = working_stream_num p.1.
Proof.
  apply pended_framed. intros s w. rewrite bind_st. cbn [get_st fst]. rewrite bind_st. unfold lift_res.
  destruct (state_after _ _) as [[st|]| |]; try done. rewrite bind_st. unfold on_bidi, modify_st. apply (queue_framed _ (bs_set_state st s) w).
Qed.

Definition told_frames (fs : list Frame) (q : Promise) : Promise := mkPromise (told q ++ map RespOutput fs) (shut q) (broken q).

Lemma told_frames_frames fs q : frames_told (told_frames fs q) = frames_told q ++ fs.
Proof.
  unfold frames_told, told_frames. cbn. rewrite bind_app. f_equal. induction fs as [|f fs IH]; [done|]. cbn. by rewrite IH.
Qed.

Lemma well_ordered_prefix l k : well_ordered (l ++ k) → well_ordered l.
Proof.
  destruct l as [|h l]; [by left|]. change ((h :: l) ++ k) with (h :: (l ++ k)). rewrite !well_ordered_cons. intros [Hh [Hl|(body & t & E & Hne & Hb & Ht)]]; (split; [done|]).
  - left. by apply Forall_app in Hl as [? _].
  - destruct k as [|x k _] using rev_ind; [rewrite app_nil_r in E; right; by exists body, t|].
    rewrite app_assoc in E. apply app_inj_tail in E as [<- _]. left. by apply Forall_app in Hb as [? _].
Qed.

(** The stream [id] is open, its task listens, and it was promised [q]. *)
Definition open_stream (id c : Z) (p : Streams * W) (a : gmap Z Promise) (q : Promise) : Prop :=
  refines p a ∧ a !! id = Some q ∧ bs_frame_tx <$> bidirectional_stream p.1 !! id = Some c ∧ listens c ∧
  broken q = false ∧ shut q = false.

Lemma gone_of_listens id c p (p' : Streams * W) :
  bs_frame_tx <$> bidirectional_stream p.1 !! id = Some c → framed p p' → listens c → gone_of p' id = false.
Proof.
  intros Hc (Ht & _ & _) Hl. unfold gone_of. specialize (Ht id). rewrite Hc in Ht.
  destruct (bidirectional_stream p'.1 !! id) as [s|]; [|done]. injection Ht as ->. by apply listens_stays.
Qed.

Lemma send_frame_tells id c f p a q :
  open_stream id c p a q → well_ordered (frames_told q ++ [f]) →
  ∃ p', send_frame id f p = (p', Ok ()) ∧ framed p p' ∧ working_stream_num p'.1 = working_stream_num p.1 ∧
    open_stream id c p' (<[id := told_frames [f] q]> a) (told_frames [f] q).
Proof.
  intros (I & Hq & Hc & Hl & Hb & Hs) Hwo. destruct (send_frame_framed id f p) as [Hf Hw].
  pose proof (gone_of_listens id c p _ Hc Hf Hl) as Hg.
  destruct (frame_simulates id f p a I) as [[_ [_ []]]|(Hn & a' & Hspec & I')].
  destruct (send_frame id f p) as [p' r] eqn:E. cbn [fst snd] in *. exists p'.
  assert (r = Ok () ∧ a' = <[id := told_frames [f] q]> a) as [-> ->].
  { inversion Hspec; subst; simplify_eq; try done; [|by rewrite Hs in *].
    match goal with Hx : _ || _ = true |- _ => by rewrite Hb, Hg in Hx end. }
  split; [done|]. split; [done|]. split; [done|]. split_and!; [done|by rewrite lookup_insert_eq|by rewrite (proj1 Hf)|done..].
Qed.

(** Frames that need no instruction for the encoder of the peer. *)
Definition plain_frame (f : Frame) : Prop := match fr_payload f with PHeaders _ None | PData _ => True | _ => False end.

(** The complete frames of a read, unless the stream is blocked. *)
Fixpoint complete_frames (frames : Frames) : option (list Frame) :=
  match frames with
  | [] | FPartial :: _ => Some []
  | FBlocked :: _ => None
  | FComplete f :: frames => cons f <$> complete_frames frames
  end.

Definition sw (m : StreamManager W) : Streams * W := (sm_streams m, sm_world m).

Lemma request_frames_told id c frames : ∀ fs (m : StreamManager W) a q,
  open_stream id c (sw m) a q → complete_frames frames = Some fs → Forall plain_frame fs → well_ordered (frames_told q ++ fs) →
  ∃ m', recv_request_stream id frames m = (m', Ok ()) ∧ framed (sw m) (sw m') ∧ sm_decoder m' = sm_decoder m ∧
    working_stream_num (sm_streams m') = working_stream_num (sm_streams m) ∧
    ∃ a', a' !! id = Some (told_frames fs q) ∧ delete id a' = delete id a ∧ open_stream id c (sw m') a' (told_frames fs q).
Proof.
  induction frames as [|[f| |] frames IH]; intros fs m a q Ho Hfs Hpl Hwo; cbn [complete_frames recv_request_stream] in *.
  1,3: injection Hfs as <-; exists m; (split; [done|]); (split; [by split_and!|]); split_and!; try done; exists a;
    assert (told_frames [] q = q) as -> by (unfold told_frames; cbn; rewrite app_nil_r; by destruct q); (split; [apply Ho|done]).
  2: done.
  destruct (complete_frames frames) as [gs|] eqn:Eg; [|done]. injection Hfs as <-. apply Forall_cons in Hpl as [Hf Hpl].
  destruct (send_frame_tells id c f (sw m) a q Ho) as (p' & He & Hfr & Hw & Ho').
  { apply (well_ordered_prefix _ gs). by rewrite <-app_assoc. }
  assert (on_streams_world (send_frame id f) m = (set_streams p'.1 (set_world p'.2 m), Ok ())) as Hsend.
  { unfold on_streams_world, zoom. unfold sw in He. by rewrite He. }
  assert ((match fr_payload f with
    | PHeaders _ ins => _ ← send_inst_to_peer ins; on_streams_world (send_frame id f)
    | PData _ => on_streams_world (send_frame id f)
    | PPushPromise _ _ _ => throw (connection_error H3IdError)
    | _ => throw (connection_error H3FrameUnexpected)
    end : M ()) m = (set_streams p'.1 (set_world p'.2 m), Ok ())) as Hstep.
  { unfold plain_frame in Hf. destruct (fr_payload f) as [? []|?| | | | | |]; try done. }
  rewrite bind_st, Hstep. set (m1 := set_streams _ _) in *. assert (sw m1 = p') as Hsw by by destruct p'.
  destruct (IH gs m1 _ (told_frames [f] q) ltac:(by rewrite Hsw) eq_refl Hpl) as (m' & He' & Hfr' & Hd & Hw' & a' & Ha' & Hdel & Ho2).
  { rewrite told_frames_frames, <-app_assoc. exact Hwo. }
  assert (told_frames gs (told_frames [f] q) = told_frames (f :: gs) q) as Et by (unfold told_frames; cbn; by rewrite <-app_assoc).
  rewrite Et in *. exists m'. split; [done|]. split; [eapply framed_trans; [exact Hfr|by rewrite <-Hsw]|]. split; [done|].
  split; [by rewrite Hw'|]. exists a'. split; [done|]. split; [|done]. rewrite Hdel. by rewrite delete_insert_eq.
Qed.

(** The frames that the decoder finds in what arrives on a request stream. *)
Definition message_frames (msg : StreamMessage) : option (list Frame) :=
  match msg with MRequest frames => complete_frames frames | MWaitingMore => Some [] | _ => None end.
Fixpoint decode_chunks (id : Z) (chunks : list bytes) : ST H3Decoder.FrameDecoder H3Error (list Frame) :=
  match chunks with
  | [] => mret []
  | chunk :: chunks =>
      msg ← H3Decoder.h3_decode unblock_order id chunk;
      match message_frames msg with
      | Some fs => rest ← decode_chunks id chunks; mret (fs ++ rest)
      | None => panic
      end
  end.

Lemma chunk_told turns id c data (m : StreamManager W) a q d' msg fs :
  open_stream id c (sw m) a q → resume_recv (queues (sm_streams m)) = [] →
  H3Decoder.h3_decode unblock_order id data (sm_decoder m) = (d', Ok msg) → message_frames msg = Some fs →
  Forall plain_frame fs → well_ordered (frames_told q ++ fs) →
  ∃ m', process_recv_data (S turns) id data m = (m', Ok ()) ∧ framed (sw m) (sw m') ∧ sm_decoder m' = d' ∧
    working_stream_num (sm_streams m') = working_stream_num (sm_streams m) ∧
    ∃ a', delete id a' = delete id a ∧ open_stream id c (sw m') a' (told_frames fs q).
Proof.
  intros Ho Hres Hd Hfs Hpl Hwo. cbn [process_recv_data]. rewrite bind_st. unfold H2Manager.attempt, on_decoder, zoom. rewrite Hd.
  set (m1 := set_decoder d' m).
  assert (∃ m2, recv_message id (inl msg) m1 = (m2, Ok ()) ∧ framed (sw m) (sw m2) ∧ sm_decoder m2 = d' ∧
    working_stream_num (sm_streams m2) = working_stream_num (sm_streams m) ∧
    ∃ a', delete id a' = delete id a ∧ open_stream id c (sw m2) a' (told_frames fs q)) as (m2 & He & Hfr & Hd2 & Hw & Ha).
  { destruct msg as [frames| | | | | |]; try done; cbn [message_frames recv_message] in *.
    - destruct (request_frames_told id c frames fs m1 a q Ho Hfs Hpl Hwo) as (m2 & He & Hfr & Hd2 & Hw & a' & _ & Hdel & Ho2).
      exists m2. split; [done|]. split; [done|]. split; [by rewrite Hd2|]. split; [done|]. by exists a'.
    - injection Hfs as <-. exists m1. split; [done|]. split; [by split_and!|]. split; [done|]. split; [done|]. exists a. split; [done|].
      assert (told_frames [] q = q) as -> by (unfold told_frames; cbn; rewrite app_nil_r; by destruct q). exact Ho. }
  rewrite bind_st, He. exists m2. rewrite bind_st. unfold on_streams', zoom, get_resume_stream_id. rewrite bind_st. cbn [get_st].
  destruct Hfr as (H3 & H4 & H5). cbn [sw fst] in H4. rewrite H4, Hres. split; [|by split_and!].
  unfold mret, ST_ret. by destruct m2.
Qed.

Lemma stream_end_told id c p a q :
  open_stream id c p a q → QUICStreamType_from id = ClientInitialBidirectional → 0 < working_stream_num p.1 →
  ∃ p' r, H3Streams.finish_stream id p = (p', r) ∧ r = Ok () ∧ refines p' (<[id := close (RespExit KindStreamFinished) q]> a).
Proof.
  intros (I & Hq & Hc & Hl & Hb & Hs) Ht Hw. destruct (finish_simulates id p a I) as [[_ [? _]]|(Hn & a' & Hspec & I')]; [lia|].
  assert (framed p (H3Streams.finish_stream id p).1) as Hf.
  { unfold H3Streams.finish_stream. rewrite decide_False by (intros Hx; by apply Hx). rewrite bind_st, (h3_decrease_eq _ _ I).
    replace (working_stream_num p.1 =? 0) with false by lia. set (p1 := (set_working _ p.1, p.2)).
    apply (framed_trans p p1); [by split_and!|]. apply pended_framed. intros s w. rewrite bind_st. apply (queue_framed _ (bs_set_state H3Streams.Shutdown s) w). }
  pose proof (gone_of_listens id c p _ Hc Hf Hl) as Hg. destruct (H3Streams.finish_stream id p) as [p' r]. cbn [fst snd] in *. exists p', r. split; [done|].
  inversion Hspec; subst; simplify_eq; try done. match goal with Hx : _ || _ = true |- _ => by rewrite Hb, Hg in Hx end.
Qed.

(** The end of the stream: whatever the decoder and the encoder say. *)
Lemma stream_end_read id c (m : StreamManager W) a q :
  open_stream id c (sw m) a q → QUICStreamType_from id = ClientInitialBidirectional → 0 < working_stream_num (sm_streams m) →
  refines (sw (H3Manager.finish_stream id m).1) (<[id := close (RespExit KindStreamFinished) q]> a).
Proof.
  intros Ho Ht Hw. destruct (stream_end_told id c (sw m) a q Ho Ht Hw) as (p' & r & He & -> & I).
  unfold H3Manager.finish_stream. rewrite bind_st. unfold on_streams_world at 1, zoom. unfold sw in He. rewrite He.
  set (m1 := set_streams p'.1 (set_world p'.2 m)). assert (refines (sw m1) (<[id := close (RespExit KindStreamFinished) q]> a)) as I1 by by destruct p'.
  clearbody m1. clear I He p'. rewrite bind_st. unfold on_encoder, H2Manager.lift_err at 1, zoom.
  destruct (H3Encoder.h3_enc_finish_stream id (sm_encoder m1)) as [e1 [[]| |]]; try exact I1.
  rewrite bind_st. unfold H2Manager.lift_err, on_decoder, zoom. cbn [sm_decoder set_encoder].
  destruct (H3Decoder.h3_dec_finish_stream id (sm_decoder m1)) as [d1 [[]| |]]; try exact I1.
  rewrite bind_st. cbn [get_st]. destruct (decide _); exact I1.
Qed.

Lemma read_loop_told turns fuel id c chunks : ∀ need (m : StreamManager W) a q fin d' fs,
  open_stream id c (sw m) a q → resume_recv (queues (sm_streams m)) = [] → QUICStreamType_from id = ClientInitialBidirectional →
  0 < working_stream_num (sm_streams m) →
  incoming id (sm_world m) = (chunks, fin) → decode_chunks id chunks (sm_decoder m) = (d', Ok fs) →
  Forall plain_frame fs → well_ordered (frames_told q ++ fs) → (length chunks < fuel)%nat →
  let '(m', r) := read_loop (S turns) fuel id need m in
  ∃ a', delete id a' = delete id a ∧ refines (sw m') a' ∧
    if fin && bool_decide (chunks ≠ []) then a' !! id = Some (close (RespExit KindStreamFinished) (told_frames fs q))
    else a' !! id = Some (told_frames fs q) ∧ (∃ b, r = Ok b) ∧ sm_decoder m' = d'.
Proof.
  revert fuel. induction chunks as [|chunk chunks IH]; intros fuel need m a q fin d' fs Ho Hres Ht Hw Hin Hdec Hpl Hwo Hfuel;
    (destruct fuel as [|fuel]; [lia|]); cbn [read_loop]; rewrite bind_st; unfold H2Manager.attempt, quic.
  - destruct (recv_none id (sm_world m) fin Hin) as (w' & -> & Hg & Hm). injection Hdec as <- <-.
    rewrite andb_false_r. exists a. destruct Ho as (I & Hq & _). split; [done|]. split; [by apply (refines_world (sw m))|].
    split; [|split; [by eexists|done]]. rewrite Hq. unfold told_frames. cbn. rewrite app_nil_r. by destruct q.
  - destruct (recv_some id (sm_world m) chunk chunks fin Hin) as (w' & -> & Hin' & Hg & Hm).
    set (m1 := set_world w' m). assert (open_stream id c (sw m1) a q) as Ho1.
    { destruct Ho as (I & Ho). split; [by apply (refines_world (sw m))|exact Ho]. }
    cbn [decode_chunks] in Hdec. rewrite bind_st in Hdec. destruct (H3Decoder.h3_decode _ id chunk (sm_decoder m)) as [d1 [msg| |]] eqn:Ed; try done.
    destruct (message_frames msg) as [gs|] eqn:Eg; [|done]. rewrite bind_st in Hdec.
    destruct (decode_chunks id chunks d1) as [d2 [rest| |]] eqn:Er; try done. injection Hdec as <- <-. apply Forall_app in Hpl as [Hpl1 Hpl2].
    destruct (chunk_told turns id c chunk m1 a q d1 msg gs Ho1 Hres Ed Eg Hpl1) as (m2 & He & Hfr & Hd2 & Hw2 & a1 & Hdel & Ho2).
    { apply (well_ordered_prefix _ rest). by rewrite <-app_assoc. }
    rewrite bind_st, He. assert (told_frames rest (told_frames gs q) = told_frames (gs ++ rest) q) as Et.
    { unfold told_frames. cbn. by rewrite map_app, app_assoc. }
    rewrite (bool_decide_true (_ :: _ ≠ [])), andb_true_r by done. destruct (fin && bool_decide (chunks = [])) eqn:Efin.
    + apply andb_true_iff in Efin as [-> ->%bool_decide_eq_true]. injection Er as <- <-. rewrite bind_st.
      pose proof (stream_end_read id c m2 a1 _ Ho2 Ht ltac:(rewrite Hw2; done)) as Hend.
      rewrite app_nil_r. destruct (H3Manager.finish_stream id m2) as [m3 [[]| |]];
        (eexists; split; [by rewrite delete_insert_eq|split; [exact Hend|by rewrite lookup_insert_eq]]).
    + assert (fin && bool_decide (chunks ≠ []) = fin) as Ef.
      { destruct fin; [|done]. cbn in *. apply bool_decide_eq_false in Efin. by apply bool_decide_true. }
      assert (well_ordered (frames_told (told_frames gs q) ++ rest)) as Hwo2 by by rewrite told_frames_frames, <-app_assoc.
      pose proof (IH fuel true m2 a1 (told_frames gs q) fin d2 rest Ho2 ltac:(etransitivity; [exact (proj1 (proj2 Hfr))|exact Hres]) Ht ltac:(by rewrite Hw2)
        ltac:(etransitivity; [exact (proj2 (proj2 Hfr) id)|exact Hin']) ltac:(by rewrite Hd2) Hpl2 Hwo2 ltac:(cbn in Hfuel; lia)) as IH'.
      rewrite Et, Ef in IH'. destruct (read_loop _ _ _ _ _) as [m' r]. destruct IH' as (a' & Hdel' & ?). exists a'. by rewrite Hdel'.
Qed.

(** C19: Let QUIC have, for the open stream of a request whose task listens, pieces
    that fit the receive buffer of 65535 bytes, in which the decoder finds frames
    without QPACK instructions (plain frames) that go on with what was received in
    an order a response allows, and let no stream wait to be resumed and the stream
    be counted as working. Then read_stream reads all pieces to the last byte, the
    task is promised these frames in order, and the end of the stream where it has
    come; the promises to the other streams stay as they were. *)
Theorem h3_response_read (turns : nat) (id c : Z) (chunks : list bytes) (fin : bool) (m : StreamManager W) (a : gmap Z Promise) (q : Promise)
    (d' : H3Decoder.FrameDecoder) (fs : list Frame)
    (Ho : open_stream id c (sw m) a q) (Hres : resume_recv (queues (sm_streams m)) = [])
    (Ht : QUICStreamType_from id = ClientInitialBidirectional) (Hw : 0 < working_stream_num (sm_streams m))
    (Hin : incoming id (sm_world m) = (chunks, fin)) (Hdec : decode_chunks id chunks (sm_decoder m) = (d', Ok fs))
    (Hpl : Forall plain_frame fs) (Hwo : well_ordered (frames_told q ++ fs)) (Hturns : (length chunks < turns)%nat) :
  let '(m', r) := read_stream turns id m in
  ∃ a', delete id a' = delete id a ∧ refines (sw m') a' ∧
    if fin && bool_decide (chunks ≠ []) then a' !! id = Some (close (RespExit KindStreamFinished) (told_frames fs q))
    else a' !! id = Some (told_frames fs q) ∧ (∃ b, r = Ok b) ∧ sm_decoder m' = d'.
Proof.
  unfold read_stream. rewrite decide_False by by rewrite Ht. destruct turns as [|turns]; [lia|]. by eapply read_loop_told.
Qed.
End manager.

(** ** A world

    Tasks that listen, unless they are busy; QUIC with room for some bytes on
    all its streams together. *)
Record SampleNet := mkNet {
  nt_told : Z → list RespMessage; nt_busy : bool; nt_body : Z → bytes;
  nt_sent : Z → bytes; nt_fin : list Z; nt_room : Z; nt_in : Z → list bytes * bool; nt_closed : list Z }.

Definition at_id {A : Type} (id : Z) (x : A) (f : Z → A) : Z → A := λ i, if decide (i = id) then x else f i.
Definition net_poll_send (c : Z) (m : RespMessage) (w : SampleNet) : SampleNet * H2Manager.SendPoll :=
  if nt_busy w then (w, H2Manager.SendBlocked)
  else (mkNet (at_id c (nt_told w c ++ [m]) (nt_told w)) false (nt_body w) (nt_sent w) (nt_fin w) (nt_room w) (nt_in w) (nt_closed w), H2Manager.SendReady).
#[export] Instance net_world : H3World SampleNet := {
  poll_send := net_poll_send;
  poll_body id room w :=
    (mkNet (nt_told w) (nt_busy w) (at_id id (dropZ room (nt_body w id)) (nt_body w)) (nt_sent w) (nt_fin w) (nt_room w) (nt_in w) (nt_closed w),
     H2Streams.PollReady (takeZ room (nt_body w id)));
  stream_order m := (map_to_list m).*1;
  pending_order x := elements x }.

Lemma net_send_given c m (w : SampleNet) c' :
  nt_told (net_poll_send c m w).1 c' = nt_told w c' ++ (if decide ((net_poll_send c m w).2 = H2Manager.SendReady ∧ c = c') then [m] else []).
Proof.
  unfold net_poll_send. destruct (nt_busy w); cbn; [by rewrite app_nil_r|]. unfold at_id. destruct (decide (c' = c)) as [->|Hne].
  - by rewrite decide_True.
  - rewrite decide_False by (intros []; congruence). by rewrite app_nil_r.
Qed.
Lemma net_send_gone c m (w : SampleNet) : (net_poll_send c m w).2 = H2Manager.SendGone ↔ false = true.
Proof. unfold net_poll_send. by destruct (nt_busy w). Qed.
#[export] Instance net_laws : H3Laws SampleNet := {
  given c w := nt_told w c;
  gone c w := false;
  poll_send_given := net_send_given;
  poll_send_gone := net_send_gone;
  poll_send_stays _ _ _ _ H := H;
  poll_body_given _ _ _ _ := eq_refl;
  poll_body_stays _ _ _ _ H := H;
  stream_order_keys := H2ManagerSpec.map_keys;
  pending_order_keys x id := elem_of_elements x id }.

Definition net_send (id : Z) (data : bytes) (fin : bool) (w : SampleNet) : SampleNet * (Z + QuicheError) :=
  let n := Z.min (len data) (nt_room w) in
  (mkNet (nt_told w) (nt_busy w) (nt_body w) (at_id id (nt_sent w id ++ takeZ n data) (nt_sent w)) (if fin then nt_fin w ++ [id] else nt_fin w)
     (nt_room w - n) (nt_in w) (nt_closed w), inl n).
Definition net_recv (id cap : Z) (w : SampleNet) : SampleNet * (bytes * bool + QuicheError) :=
  match nt_in w id with
  | (chunk :: rest, fin) =>
      (mkNet (nt_told w) (nt_busy w) (nt_body w) (nt_sent w) (nt_fin w) (nt_room w) (at_id id (rest, fin) (nt_in w)) (nt_closed w),
       inl (takeZ cap chunk, fin && bool_decide (rest = [])))
  | ([], _) => (w, inr QuicDone)
  end.
(** What reads into the buffer of the manager give: of a piece that is longer the
    rest is lost. *)
Definition net_incoming (id : Z) (w : SampleNet) : list bytes * bool := (map (takeZ UPD_RECV_BUF_SIZE) (nt_in w id).1, (nt_in w id).2).
#[export] Instance net_quic : H3Net SampleNet := {
  stream_send := net_send;
  stream_writable id n w := (w, inl (n <=? nt_room w));
  stream_capacity id w := inl (nt_room w);
  stream_recv := net_recv;
  stream_finished id w := false;
  readable w := [];
  is_closed w := false;
  stream_shutdown id code w := w;
  quic_close code w :=
    mkNet (nt_told w) (nt_busy w) (nt_body w) (nt_sent w) (nt_fin w) (nt_room w) (nt_in w) (nt_closed w ++ [code]);
  stream_priority id w := w;
  try_send c m w := (net_poll_send c m w).1;
  header_order := map_to_list;
  inst_order := elements;
  unblock_order := map_to_list }.

Lemma net_writable_room id n (w w' : SampleNet) : (w, inl (n <=? nt_room w)) = (w', @inl bool QuicheError true) →
  ∀ data, len data ≤ n → ∃ w'', net_send id data false w' = (w'', inl (len data)) ∧
    ∀ i, nt_sent w'' i = nt_sent w' i ++ (if decide (i = id) then data else []).
Proof.
  intros [= <- Hn] data Hl. unfold net_send. rewrite Z.min_l by lia. eexists. split; [reflexivity|]. intros i. cbn. unfold at_id.
  destruct (decide (i = id)) as [->|]; [|by rewrite app_nil_r]. by rewrite takeZ_all.
Qed.
Lemma net_incoming_fits id (w : SampleNet) : Forall (λ chunk, len chunk ≤ UPD_RECV_BUF_SIZE) (net_incoming id w).1.
Proof. apply Forall_map, Forall_true. intros chunk. unfold len, takeZ. rewrite length_take. unfold UPD_RECV_BUF_SIZE. lia. Qed.
Lemma net_recv_some id (w : SampleNet) chunk rest fin : net_incoming id w = (chunk :: rest, fin) →
  ∃ w', net_recv id UPD_RECV_BUF_SIZE w = (w', inl (chunk, fin && bool_decide (rest = []))) ∧ net_incoming id w' = (rest, fin) ∧ same_tasks w w'.
Proof.
  unfold net_incoming, net_recv. destruct (nt_in w id) as [[|piece pieces] f]; [done|]. cbn [fst snd map]. intros [= <- <- <-].
  eexists. split; [do 4 f_equal; apply bool_decide_ext; by destruct pieces|]. split; [|by split]. cbn. unfold at_id. by rewrite decide_True.
Qed.
Lemma net_recv_none id (w : SampleNet) fin : net_incoming id w = ([], fin) →
  ∃ w', net_recv id UPD_RECV_BUF_SIZE w = (w', inr QuicDone) ∧ same_tasks w w'.
Proof. unfold net_incoming, net_recv. destruct (nt_in w id) as [[|] f]; [|done]. intros _. eexists. split; [reflexivity|by split]. Qed.
Lemma net_send_incoming c m (w : SampleNet) i : net_incoming i (net_poll_send c m w).1 = net_incoming i w.
Proof. unfold net_incoming, net_poll_send. by destruct (nt_busy w). Qed.
Lemma net_close_tasks code (w : SampleNet) : same_tasks w (quic_close code w).
Proof. by split. Qed.
#[export] Instance net_quic_laws : H3NetLaws SampleNet := {
  sent id w := nt_sent w id;
  incoming := net_incoming;
  incoming_fits := net_incoming_fits;
  writable_sent _ _ _ _ := eq_refl;
  writable_room := net_writable_room;
  recv_some := net_recv_some;
  recv_none := net_recv_none;
  poll_send_incoming := net_send_incoming;
  close_tasks := net_close_tasks }.

(** A connection with one request, on the stream 0, whose channel is 7. *)
Definition net_sample (room : Z) (body : bytes) (chunks : list bytes) (fin : bool) : StreamManager SampleNet :=
  set_streams (on_streams (W := SampleNet) (new_unidirectional_stream h3_sample_headers (H2Streams.mkBodyDataRef true) 7)
      (Streams_new, mkNet (λ _, []) false (λ _, []) (λ _, []) [] 0 (λ _, ([], false)) [])).1.1
    (StreamManager_new (H2Manager.mkReceiver [] false) (H2Manager.mkReceiver [] false) (H3Decoder.FrameDecoder_new 0 0)
      (mkNet (λ _, []) false (at_id 0 body (λ _, [])) (λ _, []) [] room (at_id 0 (chunks, fin) (λ _, ([], false))) [])).

Lemma net_sample_open room body chunks fin :
  open_stream 0 7 (sw (net_sample room body chunks fin)) {[ 0 := mkPromise [] false false ]} (mkPromise [] false false).
Proof.
  split_and!; try done.
  - pose proof (refines_new (sm_world (net_sample room body chunks fin))) as I0.
    eapply inv_same; [..|apply (h3_inv_new ∅ _ ∅ 7 h3_sample_headers (H2Streams.mkBodyDataRef true) 4 I0)]; try done.
  - intros m w. cbn. unfold net_poll_send. by destruct (nt_busy w).
Qed.

(** A response in three reads: the status 200, two pieces of data, the end. *)
Definition net_response : StreamManager SampleNet := net_sample 0 [] [[1; 3]; [0; 0; 217; 0; 2; 104]; [105]] true.
Definition net_frames : list Frame :=
  match (decode_chunks (W := SampleNet) 0 [[1; 3]; [0; 0; 217; 0; 2; 104]; [105]] (sm_decoder net_response)).2 with Ok fs => fs | _ => [] end.

Lemma h3_response_read_witness :
  let '(m', r) := read_stream 5 0 net_response in
  ∃ a', delete 0 a' = delete 0 {[ 0 := mkPromise [] false false ]} ∧ refines (sw m') a' ∧
    a' !! 0 = Some (close (RespExit KindStreamFinished) (told_frames net_frames (mkPromise [] false false))).
Proof.
  assert (decode_chunks (W := SampleNet) 0 [[1; 3]; [0; 0; 217; 0; 2; 104]; [105]] (sm_decoder net_response) =
    ((decode_chunks (W := SampleNet) 0 [[1; 3]; [0; 0; 217; 0; 2; 104]; [105]] (sm_decoder net_response)).1, Ok net_frames)) as Hd by (vm_compute; reflexivity).
  assert (Forall plain_frame net_frames) as Hp by (vm_compute; repeat constructor).
  assert (well_ordered net_frames) as Hw.
  { right. exists (default h3_sample_headers (head net_frames)), (tail net_frames), []. split; [by vm_compute|]. split; [by vm_compute|].
    split; [by vm_compute; repeat constructor|by left]. }
  pose proof (h3_response_read 5 0 7 [[1; 3]; [0; 0; 217; 0; 2; 104]; [105]] true net_response _ _ _ _ (net_sample_open 0 [] _ true) eq_refl eq_refl
    eq_refl eq_refl Hd Hp Hw ltac:(cbn; lia)) as H.
  exact H.
Defined.

(** The same, run. *)
Example net_response_told :
  nt_told (sm_world (read_stream 5 0 net_response).1) 7 = map RespOutput net_frames ++ [RespExit KindStreamFinished] ∧ length net_frames = 3%nat.
Proof. by vm_compute. Qed.

Lemma h3_frame_sent_witness :
  let m := net_sample 5000 [] [] false in
  ∃ m' r k st', poll_send_frame 20 0 (Some (H3EncoderSpec.data_frame [104; 105])) m = (m', r) ∧ r ≠ Panic ∧ 0 ≤ k ≤ 4 ∧
    (∀ i, nt_sent (sm_world m') i = nt_sent (sm_world m) i ++ (if decide (i = 0) then takeZ k [0; 2; 104; 105] else [])) ∧
    to_send 0 None m' (dropZ k [0; 2; 104; 105]) ∧
    bidirectional_stream (sm_streams m') = <[0 := st']> (bidirectional_stream (sm_streams m)) ∧
    (bs_encoding st' = false → r = Ok () ∧ k = 4).
Proof.
  destruct (h3_frame_sent 20 0 (Some (H3EncoderSpec.data_frame [104; 105])) (net_sample 5000 [] [] false)
    (BidirectionalStream_new 7 h3_sample_headers (H2Streams.mkBodyDataRef true)) [0; 2; 104; 105]) as (m' & r & k & st' & H1 & H2 & H3 & H4 & H5 & H6 & H7 & _).
  - by vm_compute.
  - split; [by vm_compute|]. exists [104; 105]. split; [done|]. split; [unfold is_varint; vm_compute; split; congruence|]. split; [by vm_compute|]. split; [done|by left].
  - done.
  - vm_compute. reflexivity.
  - exists m', r, k, st'. exact (conj H1 (conj H2 (conj H3 (conj H4 (conj H5 (conj H6 H7)))))).
Defined.

(** The dispatcher is gone: the queue of requests is closed. *)
Definition net_closed_queue : StreamManager SampleNet := set_req_rx (H2Manager.mkReceiver [] true) (net_sample 0 [] [] false).
Lemma h3_error_closes_witness : closed_for KindChannelClosed (poll 5 net_closed_queue).1.
Proof. apply (h3_error_closes 5 net_closed_queue _ KindChannelClosed). vm_compute. reflexivity. Defined.

(** A GOAWAY that spares the stream 0 ends it in the same poll, with the code
    H3_INTERNAL_ERROR. *)
Example net_goaway :
  let m := (recv_goaway_frame 0 (net_sample 0 [] [] false)).1 in
  nt_told (sm_world m) 7 = [] ∧
  nt_told (sm_world (poll 5 m).1) 7 = [RespExit KindChannelClosed] ∧ nt_closed (sm_world (poll 5 m).1) = [h3_code H3InternalError].
Proof. by vm_compute. Qed.

(** QUIC has no room when the body is asked for: the request is ended without
    the body. *)
Example net_body_truncated :
  let m := (on_streams' (get_header 0) (net_sample 0 [104; 101; 108; 108; 111] [] false)).1 in
  let m' := (input_stream_frame 20 0 m).1 in
  nt_fin (sm_world m') = [0] ∧ nt_sent (sm_world m') 0 = [] ∧ nt_body (sm_world m') 0 = [104; 101; 108; 108; 111].
Proof. by vm_compute. Qed.

(** An error of the decoder on the control stream of the peer, a DATA frame, is
    told to a request stream of that number: there is none, and the connection
    ends with another error. *)
Example net_control_error :
  (H3Decoder.h3_decode map_to_list 3 [0; 0; 1] (sm_decoder net_response)).2 = Err (Decode (UnexpectedFrame 0)) ∧
  (process_recv_data 20 3 [0; 0; 1] net_response).2 = Err KindChannelClosed ∧ error_code KindChannelClosed = H3InternalError.
Proof. by vm_compute. Qed.
