(* ===== verification/H3Io.v ===== *)
(** * The datagram task of an HTTP/3 connection

    Models [src/ylong_http_client/src/util/h3/io_manager.rs]: the task that
    reads datagrams and gives them to QUIC, writes those that QUIC makes, keeps
    its timer, and is woken by the stream manager.

    QUIC, the socket, the timers and the channel are the class [DatagramNet].
    The mutex of the QUIC connection is not modelled: it is held for one call
    at a time.  The buffer for reading is filled anew by each read, and is what the
    read gives.  A loop takes [turns]; one that ran out of them would be a
    [Panic], and [H3IoSpec] shows how many are enough. *)

From S2P Require Import Prelude H3Error H3Streams H3Manager Body.
#[local] Open Scope Z_scope.

Definition UDP_SEND_BUF_SIZE : Z := 1350.

(** [T]: the timers of the runtime; [KindIo] has the kind of an error of the socket. *)
Class DatagramNet (W T : Type) := {
  quic_timeout : W → option Z;
  new_sleep : Z → W → W * T;
  poll_sleep : T → W → W * (T * bool);
  quic_on_timeout : W → W;
  (** [poll_read] with a buffer of some size. *)
  udp_read : Z → W → W * Poll (bytes + Z);
  (** [recv], from the peer of the socket to its own address. *)
  quic_recv : bytes → W → W * (Z + QuicheError);
  wake_streams : W → W;
  (** [send] into a buffer of some size: the datagram. *)
  quic_send : Z → W → W * (bytes + QuicheError);
  udp_write : bytes → W → W * Poll (Z + Z);
  poll_signal : W → W * Poll (option (() + DispatchErrorKind)) }.

Inductive IOManagerState := IORecving | IOTimeout | IOSending | ChannelRecving.

(** [SendData]: the bytes of the buffer from [dg_offset] to [dg_buf_size] are to be written. *)
Record SendData := mkSendData { dg_buf : bytes; dg_buf_size : Z; dg_offset : Z }.
Definition SendData_new : SendData := mkSendData (replicate (Z.to_nat UDP_SEND_BUF_SIZE) 0) 0 0.

(** [IOManager]; the socket, QUIC and the channels are [io_world]. *)
Record IOManager (W T : Type) := mkIOManager {
  io_recv_timeout : option T;
  io_state : IOManagerState;
  io_send_data : SendData;
  io_world : W }.
Arguments mkIOManager {W T} _ _ _ _.
Arguments io_recv_timeout {W T} _.
Arguments io_state {W T} _.
Arguments io_send_data {W T} _.
Arguments io_world {W T} _.

Definition IOManager_new {W T : Type} (w : W) : IOManager W T := mkIOManager None IORecving SendData_new w.

Section io.
Context {W T : Type} `{!DatagramNet W T}.
#[local] Abbreviation IO := (ST (IOManager W T) DispatchErrorKind).

Definition io_set_timeout (x : option T) (m : IOManager W T) : IOManager W T := mkIOManager x (io_state m) (io_send_data m) (io_world m).
Definition io_set_state (x : IOManagerState) (m : IOManager W T) : IOManager W T := mkIOManager (io_recv_timeout m) x (io_send_data m) (io_world m).
Definition io_set_send (x : SendData) (m : IOManager W T) : IOManager W T := mkIOManager (io_recv_timeout m) (io_state m) x (io_world m).
Definition io_set_world (x : W) (m : IOManager W T) : IOManager W T := mkIOManager (io_recv_timeout m) (io_state m) (io_send_data m) x.

(** A call that changes what is outside. *)
Definition io_call {A} (f : W → W * A) : IO A := λ m, let (w, a) := f (io_world m) in (io_set_world w m, Ok a).

(** [poll_recv_signal]. *)
Definition io_poll_signal : IO (Poll (() + DispatchErrorKind)) :=
  p ← io_call poll_signal;
  match p with
  | Ready None => throw KindChannelClosed
  | Ready (Some x) => mret (Ready x)
  | Pending => mret Pending
  end.

(** A timer is made when there is none, and QUIC has a time for it. *)
Definition start_timer : IO () :=
  m ← get_st;
  match io_recv_timeout m, quic_timeout (io_world m) with
  | None, Some time => t ← io_call (new_sleep time); modify_st (io_set_timeout (Some t))
  | _, _ => mret ()
  end.

(** The timer has fired. *)
Definition timer_fired : IO bool :=
  m ← get_st;
  match io_recv_timeout m with
  | Some delay =>
      r ← io_call (poll_sleep delay);
      if (r.2 : bool) then _ ← modify_st (io_set_timeout None); mret true
      else _ ← modify_st (io_set_timeout (Some r.1)); mret false
  | None => mret false
  end.

Definition poll_io_recv : IO (Poll ()) :=
  _ ← start_timer;
  fired ← timer_fired;
  if (fired : bool) then
    _ ← modify_st (λ m, io_set_world (quic_on_timeout (io_world m)) m);
    _ ← modify_st (io_set_state IOTimeout);
    mret (Ready ())
  else
    p ← io_call (udp_read UPD_RECV_BUF_SIZE);
    match p with
    | Ready (inl data) =>
        _ ← modify_st (io_set_timeout None);
        r ← io_call (quic_recv data);
        match r with
        | inl _ => _ ← modify_st (λ m, io_set_world (wake_streams (io_world m)) m); mret (Ready ())
        | inr e => throw (KindQuic e)
        end
    | Ready (inr kind) => throw (KindIo kind)
    | Pending => _ ← modify_st (io_set_state IOSending); mret Pending
    end.

(** The next datagram, when the last one is written: whether there is one. *)
Definition next_datagram : IO bool :=
  m ← get_st;
  if dg_buf_size (io_send_data m) =? dg_offset (io_send_data m) then
    r ← io_call (quic_send (len (dg_buf (io_send_data m))));
    match r with
    | inl data => _ ← modify_st (io_set_send (mkSendData (data ++ dropZ (len data) (dg_buf (io_send_data m))) (len data) 0)); mret true
    | inr QuicDone => _ ← modify_st (io_set_state ChannelRecving); mret false
    | inr e => throw (KindQuic e)
    end
  else mret true.

(** [&buf[offset..buf_size]]. *)
Definition send_slice : IO bytes :=
  m ← get_st;
  let d := io_send_data m in
  if (dg_offset d <=? dg_buf_size d) && (dg_buf_size d <=? len (dg_buf d)) then mret (takeZ (dg_buf_size d - dg_offset d) (dropZ (dg_offset d) (dg_buf d)))
  else panic.

Fixpoint io_send_loop (turns : nat) : IO (Poll ()) :=
  match turns with
  | O => panic
  | S turns =>
      more ← next_datagram;
      if negb more then mret (Ready ())
      else
        l ← send_slice;
        p ← io_call (udp_write l);
        match p with
        | Ready (inl size) =>
            m ← get_st;
            let d := io_send_data m in
            let offset := dg_offset d + size in
            _ ← modify_st (io_set_send (if offset =? dg_buf_size d then mkSendData (dg_buf d) 0 0 else mkSendData (dg_buf d) (dg_buf_size d) offset));
            io_send_loop turns
        | Ready (inr kind) => throw (KindIo kind)
        | Pending => _ ← modify_st (io_set_state ChannelRecving); mret Pending
        end
  end.

Definition poll_io_send (turns : nat) : IO (Poll ()) := io_send_loop turns.

(** The loop of [poll].  The task ends with an error only. *)
Fixpoint io_poll_loop (sends turns : nat) : IO (Poll ()) :=
  match turns with
  | O => panic
  | S turns =>
      m ← get_st;
      match io_state m with
      | IORecving => _ ← poll_io_recv; io_poll_loop sends turns
      | IOSending => _ ← poll_io_send sends; io_poll_loop sends turns
      | IOTimeout => _ ← poll_io_send sends; _ ← modify_st (io_set_state IORecving); io_poll_loop sends turns
      | ChannelRecving =>
          p ← io_poll_signal;
          match p with
          | Ready _ => io_poll_loop sends turns
          | Pending => _ ← modify_st (io_set_state IORecving); mret Pending
          end
      end
  end.

Definition io_poll (sends turns : nat) : IO (Poll ()) :=
  _ ← modify_st (io_set_state IORecving);
  io_poll_loop sends turns.
End io.
