(* ===== verification/H3IoSpec.v ===== *)
(** * Properties of the datagram task of an HTTP/3 connection

    What the task moves between the socket and QUIC: nothing is lost, doubled or
    reordered on the way, and a poll of the task ends. *)

From S2P Require Import Prelude H3Error H3Streams H3Manager Body H3Io.
#[local] Open Scope Z_scope.

(** What happened outside: the datagrams that were read, those that QUIC took,
    how often the stream manager was woken, the datagrams that QUIC made and the
    pieces that the socket took. *)
Record History := mkHistory { arrived : list bytes; fed : list bytes; wakes : nat; produced : list bytes; written : list bytes }.
Definition h_arrive (d : bytes) (h : History) : History := mkHistory (arrived h ++ [d]) (fed h) (wakes h) (produced h) (written h).
Definition h_feed (d : bytes) (h : History) : History := mkHistory (arrived h) (fed h ++ [d]) (wakes h) (produced h) (written h).
Definition h_wake (h : History) : History := mkHistory (arrived h) (fed h) (S (wakes h)) (produced h) (written h).
Definition h_produce (d : bytes) (h : History) : History := mkHistory (arrived h) (fed h) (wakes h) (produced h ++ [d]) (written h).
Definition h_write (d : bytes) (h : History) : History := mkHistory (arrived h) (fed h) (wakes h) (produced h) (written h ++ [d]).

(** [work] bounds what there is to do: the datagrams that arrive and those that
    QUIC makes, the timers that fire and the signals.  [settled]: QUIC has no
    datagram, or the socket takes none. *)
Class DatagramLaws (W T : Type) `{!DatagramNet W T} := {
  history : W → History;
  work : W → nat;
  settled : W → Prop;
  sleep_law time w : history (new_sleep time w).1 = history w ∧ (work (new_sleep time w).1 ≤ work w)%nat;
  timer_law t w :
    let '(w', (_, fired)) := poll_sleep t w in
    history w' = history w ∧ if (fired : bool) then (work (quic_on_timeout w') < work w)%nat else (work w' ≤ work w)%nat;
  timeout_law w : history (quic_on_timeout w) = history w;
  read_law n w :
    match udp_read n w with
    | (w', Ready (inl d)) => history w' = h_arrive d (history w) ∧ (work (quic_recv d w').1 < work w)%nat
    | (w', _) => history w' = history w ∧ (work w' ≤ work w)%nat
    end;
  recv_law d w :
    match quic_recv d w with
    | (w', inl _) => history w' = h_feed d (history w)
    | (w', inr _) => history w' = history w
    end;
  wake_law w : history (wake_streams w) = h_wake (history w) ∧ (work (wake_streams w) ≤ work w)%nat;
  send_law n w :
    match quic_send n w with
    | (w', inl d) => 0 < len d ≤ n ∧ history w' = h_produce d (history w) ∧ (work w' < work w)%nat
    | (w', inr e) => history w' = history w ∧ (work w' ≤ work w)%nat ∧ (e = QuicDone → settled w')
    end;
  write_law l w :
    match udp_write l w with
    | (w', Ready (inl k)) => 0 ≤ k ≤ len l ∧ (0 < len l → 0 < k) ∧ history w' = h_write (takeZ k l) (history w) ∧ (work w' ≤ work w)%nat
    | (w', Ready (inr _)) => history w' = history w
    | (w', Pending) => history w' = history w ∧ (work w' ≤ work w)%nat ∧ settled w'
    end;
  signal_law w :
    match poll_signal w with
    | (w', Ready (Some _)) => history w' = history w ∧ (work w' < work w)%nat
    | (w', _) => history w' = history w ∧ (work w' ≤ work w)%nat
    end }.

Section spec.
Context {W T : Type} `{!DatagramNet W T, !DatagramLaws W T}.
#[local] Abbreviation Mgr := (IOManager W T).

(** The socket takes a datagram as a whole. *)
Definition whole : Prop := ∀ l w w' k, udp_write l w = (w', Ready (inl k)) → k = len l.
(** No other task gives QUIC anything while the signals are looked at. *)
Definition quiet : Prop := ∀ w, settled w → settled (poll_signal w).1.

(** The bytes of the buffer that are still to be written. *)
Definition rest (d : SendData) : bytes := takeZ (dg_buf_size d - dg_offset d) (dropZ (dg_offset d) (dg_buf d)).
Definition send_ok (d : SendData) : Prop := 0 ≤ dg_offset d ≤ dg_buf_size d ∧ dg_buf_size d ≤ len (dg_buf d) ∧ len (dg_buf d) = UDP_SEND_BUF_SIZE.

(** What QUIC made is what the socket took and the rest of the buffer. *)
Definition outflow (m : Mgr) : Prop :=
  let h := history (io_world m) in
  send_ok (io_send_data m) ∧ concat (written h) ++ rest (io_send_data m) = concat (produced h) ∧
  (whole → written h ++ (if rest (io_send_data m) is [] then [] else [rest (io_send_data m)]) = produced h).
(** QUIC took what was read, and each time the stream manager was woken. *)
Definition inflow (m : Mgr) : Prop :=
  let h := history (io_world m) in fed h = arrived h ∧ wakes h = length (fed h).
(** All but the last datagram, which QUIC refused. *)
Definition inflow_refused (m : Mgr) : Prop :=
  let h := history (io_world m) in wakes h = length (fed h) ∧ ∃ d, arrived h = fed h ++ [d].
Definition flows (m : Mgr) : Prop := outflow m ∧ inflow m.
Definition failed (m : Mgr) : Prop := outflow m ∧ (inflow m ∨ inflow_refused m).
Definition todo (m : Mgr) : nat := work (io_world m).

Lemma len_rest d : send_ok d → len (rest d) = dg_buf_size d - dg_offset d.
Proof. intros (H1 & H2 & H3). unfold rest. apply len_takeZ. rewrite len_dropZ by lia. lia. Qed.

Lemma dropZ_takeZ k n (l : bytes) : 0 ≤ k → k ≤ n → dropZ k (takeZ n l) = takeZ (n - k) (dropZ k l).
Proof. intros. unfold dropZ, takeZ. rewrite skipn_firstn_comm. f_equal. lia. Qed.

(** Only the histories matter. *)
Lemma outflow_same m m' : io_send_data m' = io_send_data m → written (history (io_world m')) = written (history (io_world m)) →
  produced (history (io_world m')) = produced (history (io_world m)) → outflow m → outflow m'.
Proof. intros H1 H2 H3. unfold outflow. by rewrite H1, H2, H3. Qed.

Lemma flows_same m m' : io_send_data m' = io_send_data m → history (io_world m') = history (io_world m) → flows m → flows m'.
Proof. intros H1 H2. unfold flows, outflow, inflow. by rewrite H1, H2. Qed.

(** ** Reading *)

Definition received (m : Mgr) (x : Mgr * result DispatchErrorKind (Poll ())) : Prop :=
  match x with
  | (m', Ok (Ready _)) => flows m' ∧ (io_state m' = io_state m ∨ io_state m' = IOTimeout) ∧ (todo m' < todo m)%nat
  | (m', Ok Pending) => flows m' ∧ io_state m' = IOSending ∧ (todo m' ≤ todo m)%nat
  | (m', Err _) => failed m'
  | (_, Panic) => False
  end.

Lemma start_timer_ok m : flows m →
  ∃ m', start_timer m = (m', Ok ()) ∧ flows m' ∧ io_state m' = io_state m ∧ (todo m' ≤ todo m)%nat.
Proof.
  intros Hf. unfold start_timer. rewrite bind_st. cbn [get_st]. destruct (io_recv_timeout m); [by exists m|].
  destruct (quic_timeout (io_world m)) as [time|]; [|by exists m]. rewrite bind_st. unfold io_call.
  pose proof (sleep_law time (io_world m)) as [H1 H2]. destruct (new_sleep time (io_world m)) as [w t]. cbn [fst] in *.
  eexists. split; [reflexivity|]. split; [by apply (flows_same m); [..|exact Hf]|done].
Qed.

Lemma timer_fired_ok m : flows m →
  ∃ m' b, timer_fired m = (m', Ok b) ∧ flows m' ∧ io_state m' = io_state m ∧
    if (b : bool) then (work (quic_on_timeout (io_world m')) < todo m)%nat else (todo m' ≤ todo m)%nat.
Proof.
  intros Hf. unfold timer_fired. rewrite bind_st. cbn [get_st]. destruct (io_recv_timeout m) as [t|]; [|by exists m, false].
  rewrite bind_st. unfold io_call. pose proof (timer_law t (io_world m)) as H.
  destruct (poll_sleep t (io_world m)) as [w [t' []]]; destruct H as [H1 H2]; cbn [snd fst];
    eexists _, _; (split; [reflexivity|]); (split; [by apply (flows_same m); [..|exact Hf]|done]).
Qed.

(** A datagram was read. *)
Lemma took_datagram m w w' d : flows m → history w = h_arrive d (history (io_world m)) →
  quic_recv d w = (w', (quic_recv d w).2) →
  match (quic_recv d w).2 with
  | inl _ => flows (io_set_world (wake_streams w') (io_set_timeout None m))
  | inr _ => failed (io_set_world w' (io_set_timeout None m))
  end.
Proof.
  intros [Ho (Hi1 & Hi2)] Hh Hq. pose proof (recv_law d w) as H. rewrite Hq in H. destruct (quic_recv d w).2 as [n|e].
  - pose proof (wake_law w') as [H2 _]. rewrite H, Hh in H2.
    split; [apply (outflow_same m); [done| | |exact Ho]; cbn; by rewrite H2|]. unfold inflow. cbn. rewrite H2. cbn.
    rewrite Hi1, Hi2, length_app, Hi1. cbn. split; [done|lia].
  - rewrite Hh in H. split; [apply (outflow_same m); [done| | |exact Ho]; cbn; by rewrite H|right].
    unfold inflow_refused. cbn. rewrite H. cbn. split; [done|]. exists d. by rewrite Hi1.
Qed.

Lemma poll_io_recv_ok m : flows m → received m (poll_io_recv m).
Proof.
  intros Hf. unfold poll_io_recv. rewrite bind_st. destruct (start_timer_ok m Hf) as (m1 & -> & Hf1 & Hs1 & Hw1).
  rewrite bind_st. destruct (timer_fired_ok m1 Hf1) as (m2 & b & -> & Hf2 & Hs2 & Hw2). destruct b.
  { cbn. split; [|split; [by right|unfold todo in *; cbn; lia]].
    apply (flows_same m2); [done| |exact Hf2]. cbn. apply timeout_law. }
  rewrite bind_st. unfold io_call at 1. pose proof (read_law UPD_RECV_BUF_SIZE (io_world m2)) as H.
  destruct (udp_read UPD_RECV_BUF_SIZE (io_world m2)) as [w [[d|e]|]]; cbn [fst snd].
  - destruct H as [Hh Hd]. rewrite bind_st. cbn [modify_st]. rewrite bind_st. unfold io_call. cbn [io_world io_set_world io_set_timeout].
    destruct (quic_recv d w) as [w' r] eqn:Eq. pose proof (took_datagram m2 w w' d Hf2 Hh ltac:(by rewrite Eq)) as H. rewrite Eq in H. cbn [snd fst] in *.
    destruct r as [k|e]; [|exact H]. cbn. split; [exact H|]. split; [left; cbn; congruence|].
    unfold todo. cbn. pose proof (wake_law w') as [_ Hk]. unfold todo in *. lia.
  - destruct H as [Hh _]. cbn. destruct (flows_same m2 (io_set_world w m2) eq_refl Hh Hf2) as [Ho Hi]. by split; [|left].
  - destruct H as [Hh Hk]. cbn. split; [by apply (flows_same m2); [..|exact Hf2]|]. split; [done|]. unfold todo in *. cbn. lia.
Qed.

(** ** Writing *)

Definition sent_all (m : Mgr) (x : Mgr * result DispatchErrorKind (Poll ())) : Prop :=
  match x with
  | (m', Ok _) => flows m' ∧ io_state m' = ChannelRecving ∧ settled (io_world m') ∧ (todo m' ≤ todo m)%nat
  | (m', Err _) => failed m'
  | (_, Panic) => False
  end.

Definition rest_len (m : Mgr) : Z := len (rest (io_send_data m)).

Lemma failed_flows m : flows m → failed m.
Proof. intros [H1 H2]. by split; [|left]. Qed.

(** The measure of the loop that writes. *)
Definition to_write (m : Mgr) : Z := rest_len m + UDP_SEND_BUF_SIZE * Z.of_nat (todo m).

Lemma next_datagram_ok m : flows m →
  match next_datagram m with
  | (m', Ok true) => flows m' ∧ 0 < rest_len m' ∧ to_write m' ≤ to_write m ∧ (todo m' ≤ todo m)%nat
  | (m', Ok false) => flows m' ∧ io_state m' = ChannelRecving ∧ settled (io_world m') ∧ (todo m' ≤ todo m)%nat
  | (m', Err _) => failed m'
  | (_, Panic) => False
  end.
Proof.
  intros Hf. pose proof Hf as ((Hok & Hc & Hw) & Hi). unfold next_datagram. rewrite bind_st. cbn [get_st]. pose proof (len_rest _ Hok) as Hl.
  destruct (Z.eqb_spec (dg_buf_size (io_send_data m)) (dg_offset (io_send_data m))) as [He|He].
  2:{ cbn. split; [done|]. destruct Hok as (H1 & _). unfold rest_len. split; [lia|]. split; [lia|done]. }
  assert (rest (io_send_data m) = []) as Hr by (apply len_0_nil; lia).
  rewrite bind_st. unfold io_call. pose proof (send_law (len (dg_buf (io_send_data m))) (io_world m)) as H.
  destruct (quic_send _ (io_world m)) as [w [d|e]].
  - destruct H as (Hd & Hh & Hk). destruct Hok as (_ & _ & Hb). cbn [modify_st]. rewrite bind_st. cbn [modify_st mret ST_ret].
    set (m' := io_set_send _ _).
    assert (rest (io_send_data m') = d) as Hr' by (unfold rest, m'; cbn; rewrite Z.sub_0_r; change (dropZ 0 ?l) with l; by rewrite takeZ_app_len).
    assert (send_ok (io_send_data m')) as Hok' by (unfold send_ok, m'; cbn; rewrite len_app, len_dropZ by lia; lia).
    change (io_world m') with w in *. unfold to_write, rest_len. rewrite Hr', Hr. change (len (@nil Z)) with 0. rewrite Hr, app_nil_r in Hc.
    split; [|unfold todo, UDP_SEND_BUF_SIZE in *; change (io_world m') with w; split; [lia|split; lia]].
    split; [|unfold inflow; change (io_world m') with w; by rewrite Hh]. unfold outflow. change (io_world m') with w. rewrite Hr', Hh. split; [done|]. split.
    + cbn. rewrite concat_app, Hc. cbn. by rewrite app_nil_r.
    + intros Hwh. specialize (Hw Hwh). rewrite Hr, app_nil_r in Hw. cbn. rewrite Hw. destruct d; [by destruct Hd|done].
  - destruct H as (Hh & Hk & Hs). assert (flows (io_set_world w m)) as Hf' by (by apply (flows_same m); [..|exact Hf]).
    destruct e; cbn; try by apply failed_flows. split; [by eapply flows_same; [..|exact Hf']|]. split; [done|]. split; [by apply Hs|done].
Qed.

(** The socket took a piece. *)
Lemma wrote_piece m w k : flows m → 0 < rest_len m → 0 < k ≤ rest_len m → (whole → k = rest_len m) →
  history w = h_write (takeZ k (rest (io_send_data m))) (history (io_world m)) → (work w ≤ todo m)%nat →
  let d := io_send_data m in
  let offset := dg_offset d + k in
  let m' := io_set_send (if offset =? dg_buf_size d then mkSendData (dg_buf d) 0 0 else mkSendData (dg_buf d) (dg_buf_size d) offset) (io_set_world w m) in
  flows m' ∧ to_write m' < to_write m ∧ (todo m' ≤ todo m)%nat.
Proof.
  intros [(Hok & Hc & Hw) Hi] Hr Hk Hwh Hh Hwork d offset m'. pose proof (len_rest _ Hok) as Hl. pose proof Hok as (H1 & H2 & H3). unfold rest_len in *.
  assert (io_send_data m = d) as Ed by done. clearbody d. rewrite Ed in Hok, Hc, Hw, Hr, Hk, Hwh, Hh, Hl, H1, H2, H3.
  assert (rest (io_send_data m') = dropZ k (rest d)) as Hrest.
  { unfold m', offset. cbn. destruct (Z.eqb_spec (dg_offset d + k) (dg_buf_size d)) as [He|He].
    - by rewrite (dropZ_all k) by lia.
    - unfold rest. cbn. rewrite dropZ_takeZ, dropZ_dropZ by lia. f_equal. lia. }
  assert (len (dropZ k (rest d)) = len (rest d) - k) as Hlr by (rewrite len_dropZ; lia).
  split; [|unfold to_write, rest_len, todo in *; rewrite Ed, Hrest, Hlr; change (io_world m') with w; unfold UDP_SEND_BUF_SIZE in *; lia].
  split; [|unfold inflow, m'; cbn; by rewrite Hh]. unfold outflow. rewrite Hrest. change (io_world m') with w. rewrite Hh. cbn [written produced h_write].
  split; [|split].
  - unfold m', offset. cbn. destruct (Z.eqb_spec (dg_offset d + k) (dg_buf_size d)) as [He|He]; unfold send_ok; cbn; lia.
  - rewrite concat_app, <- Hc. cbn. rewrite app_nil_r, <- app_assoc, takeZ_dropZ. done.
  - intros Hx. specialize (Hw Hx). specialize (Hwh Hx). rewrite Hwh, dropZ_all, takeZ_all, app_nil_r, <- Hw by lia.
    destruct (rest d); [by apply Z.lt_irrefl in Hr|done].
Qed.

Lemma io_send_loop_ok turns m : flows m → to_write m < Z.of_nat turns → sent_all m (io_send_loop turns m).
Proof.
  revert m. induction turns as [|turns IH]; intros m Hf Ht.
  { unfold to_write, rest_len in Ht. pose proof (len_nonneg (rest (io_send_data m))). unfold UDP_SEND_BUF_SIZE in *. lia. }
  cbn [io_send_loop]. rewrite bind_st. pose proof (next_datagram_ok m Hf) as H. destruct (next_datagram m) as [m1 [[]|e|]]; [|exact H|exact H|done].
  destruct H as (Hf1 & Hr & Hm & Hk). cbn [negb]. rewrite bind_st. pose proof Hf1 as ((Hok & _) & _). pose proof (len_rest _ Hok) as Hlr. destruct Hok as (H1 & H2 & H3).
  unfold send_slice. rewrite bind_st. cbn [get_st].
  destruct (Z.leb_spec (dg_offset (io_send_data m1)) (dg_buf_size (io_send_data m1))); [|lia].
  destruct (Z.leb_spec (dg_buf_size (io_send_data m1)) (len (dg_buf (io_send_data m1)))); [|lia]. cbn [andb mret ST_ret]. change (takeZ _ _) with (rest (io_send_data m1)).
  rewrite bind_st. unfold io_call. pose proof (write_law (rest (io_send_data m1)) (io_world m1)) as H4.
  destruct (udp_write (rest (io_send_data m1)) (io_world m1)) as [w [[k|e]|]] eqn:Ew; cbn [fst snd].
  - destruct H4 as (Hk1 & Hk2 & Hh & Hwk). rewrite !bind_st. cbn [get_st modify_st].
    destruct (wrote_piece m1 w k Hf1 Hr) as (Hf2 & Hm2 & Hk3); [unfold rest_len in *; lia|intros Hx; by apply (Hx _ _ _ _ Ew)|done|done|].
    rewrite bind_st. cbn [modify_st]. change (io_send_data (io_set_world w m1)) with (io_send_data m1). specialize (IH _ Hf2 ltac:(lia)). destruct (io_send_loop turns _) as [m3 [p|e|]]; [|done|done].
    destruct IH as (? & ? & ? & ?). split_and!; try done. lia.
  - cbn. apply failed_flows. by apply (flows_same m1); [..|exact Hf1].
  - destruct H4 as (Hh & Hwk & Hst). cbn. split; [by apply (flows_same m1); [..|exact Hf1]|]. split; [done|]. split; [done|]. unfold todo in *. cbn. lia.
Qed.

(** ** A poll *)

Definition rank (s : IOManagerState) : nat := match s with IOTimeout => 3 | IORecving => 2 | IOSending => 1 | ChannelRecving => 0 end.
Definition steps_left (m : Mgr) : nat := 4 * todo m + rank (io_state m).

(** A poll ends with [Pending] or an error. *)
Definition polled (x : Mgr * result DispatchErrorKind (Poll ())) : Prop :=
  match x with
  | (m', Ok (Ready _)) => False
  | (m', Ok Pending) => flows m' ∧ io_state m' = IORecving ∧ (quiet → settled (io_world m'))
  | (m', Err _) => failed m'
  | (_, Panic) => False
  end.

Lemma io_poll_signal_ok m : flows m → (quiet → settled (io_world m)) →
  match io_poll_signal m with
  | (m', Ok p) => flows m' ∧ io_state m' = io_state m ∧ (quiet → settled (io_world m')) ∧
      match p with Ready _ => (todo m' < todo m)%nat | Pending => (todo m' ≤ todo m)%nat end
  | (m', Err _) => failed m'
  | (_, Panic) => False
  end.
Proof.
  intros Hf Hs. unfold io_poll_signal. rewrite bind_st. unfold io_call. pose proof (signal_law (io_world m)) as H.
  assert (quiet → settled (poll_signal (io_world m)).1) as Hs' by auto.
  destruct (poll_signal (io_world m)) as [w [[x|]|]]; destruct H as [Hh Hw]; cbn [fst] in *;
    assert (flows (io_set_world w m)) as Hf' by (by apply (flows_same m)); [by split_and!|by apply failed_flows|by split_and!].
Qed.

(** Sending, and what follows. *)
Lemma send_then sends m (next : ST Mgr DispatchErrorKind (Poll ())) :
  flows m → to_write m < Z.of_nat sends →
  (∀ m', flows m' → io_state m' = ChannelRecving → settled (io_world m') → (todo m' ≤ todo m)%nat → polled (next m')) →
  polled ((poll_io_send sends ≫= λ _, next) m).
Proof.
  intros Hf Ht Hn. rewrite bind_st. pose proof (io_send_loop_ok sends m Hf Ht) as H. unfold poll_io_send.
  destruct (io_send_loop sends m) as [m' [p|e|]]; [|exact H|done]. destruct H as (H1 & H2 & H3 & H4). by apply Hn.
Qed.

Lemma to_write_le m sends : flows m → (UDP_SEND_BUF_SIZE * (Z.of_nat (todo m) + 1) < Z.of_nat sends) → to_write m < Z.of_nat sends.
Proof. intros [(Hok & _) _] H. pose proof (len_rest _ Hok). destruct Hok as (H1 & H2 & H3). unfold to_write, rest_len. lia. Qed.

Lemma io_poll_loop_ok sends turns m :
  flows m → (UDP_SEND_BUF_SIZE * (Z.of_nat (todo m) + 1) < Z.of_nat sends) → (steps_left m < turns)%nat →
  (io_state m = ChannelRecving → quiet → settled (io_world m)) → polled (io_poll_loop sends turns m).
Proof.
  revert m. induction turns as [|turns IH]; intros m Hf Hs Ht Hq; [lia|]. pose proof (to_write_le m sends Hf Hs) as Hw.
  cbn [io_poll_loop]. rewrite bind_st. cbn [get_st]. unfold steps_left in Ht. destruct (io_state m) eqn:Es; cbn [rank] in Ht.
  - rewrite bind_st. pose proof (poll_io_recv_ok m Hf) as H. unfold received in H. unfold UDP_SEND_BUF_SIZE in *.
    destruct (poll_io_recv m) as [m' [[p|]|e|]]; [| |exact H|done].
    + destruct H as (H1 & H2 & H3). apply IH; [done|unfold UDP_SEND_BUF_SIZE; lia| |destruct H2 as [-> | ->]; congruence].
      unfold steps_left. destruct H2 as [-> | ->]; rewrite ?Es; cbn [rank]; lia.
    + destruct H as (H1 & H2 & H3). apply IH; [done|unfold UDP_SEND_BUF_SIZE; lia| |rewrite H2; done]. unfold steps_left. rewrite H2. cbn [rank]. lia.
  - apply send_then; [done|done|]. intros m' H1 H2 H3 H4. rewrite bind_st. cbn [modify_st].
    apply IH; [by apply (flows_same m')|unfold todo, UDP_SEND_BUF_SIZE in *; cbn; lia|unfold steps_left, todo in *; cbn; lia|done].
  - apply send_then; [done|done|]. intros m' H1 H2 H3 H4.
    apply IH; [done|unfold UDP_SEND_BUF_SIZE in *; lia|unfold steps_left; rewrite H2; cbn [rank]; lia|done].
  - rewrite bind_st. pose proof (io_poll_signal_ok m Hf (Hq eq_refl)) as H. destruct (io_poll_signal m) as [m' [[x|]|e|]]; [| |exact H|done].
    + destruct H as (H1 & H2 & H3 & H4). apply IH; [done|unfold UDP_SEND_BUF_SIZE in *; lia|unfold steps_left; rewrite H2, Es; cbn [rank]; lia|done].
    + destruct H as (H1 & H2 & H3 & H4). rewrite bind_st. cbn. split; [by apply (flows_same m')|]. by split.
Qed.

Lemma new_flows w : (history w).(fed) = (history w).(arrived) → wakes (history w) = length (fed (history w)) → written (history w) = produced (history w) →
  flows (IOManager_new w).
Proof.
  intros H1 H2 H3. split; [|by split]. unfold outflow. cbn. rewrite H3. split; [unfold send_ok; by vm_compute|].
  split; [by rewrite app_nil_r|intros _; by rewrite app_nil_r].
Qed.

(** C22: A poll of the datagram task of HTTP/3 ends; every datagram that was read
    went to QUIC in order and woke the stream manager, and what QUIC made is what
    the socket took and the buffer keeps, in order, datagram by datagram where the
    socket takes them whole. Provided that no other task gives QUIC anything to send
    while the poll takes signals (else the signal is lost, io_manager.rs:196), a
    pending poll has sent all there was or the socket took nothing. A poll that
    fails has lost at most one datagram, the one QUIC refused. *)
Theorem datagrams_moved (sends turns : nat) (m : IOManager W T)
    (Hf : flows m) (Hsends : UDP_SEND_BUF_SIZE * (Z.of_nat (work (io_world m)) + 1) < Z.of_nat sends) (Hturns : (4 * work (io_world m) + 2 < turns)%nat) :
  match io_poll sends turns m with
  | (_, Ok (Ready _)) | (_, Panic) => False
  | (m', Ok Pending) => flows m' ∧ (quiet → settled (io_world m'))
  | (m', Err _) => failed m'
  end.
Proof.
  unfold io_poll. rewrite bind_st. cbn [modify_st].
  pose proof (io_poll_loop_ok sends turns (io_set_state IORecving m)) as H. unfold polled, todo, steps_left, todo in H. cbn [io_world io_set_state io_state rank] in H.
  destruct (io_poll_loop sends turns (io_set_state IORecving m)) as [m' [[p|]|e|]].
  all: destruct H; [by apply (flows_same m)|done|lia|done|..]; try done. split; [done|]. apply H0.
Qed.
End spec.

(** ** A small world

    [n_in]: what arrives; [n_out]: what QUIC has made; each datagram is answered by
    itself.  [n_fires]: whether the timers fire, poll by poll.  Each signal comes
    with what the stream manager gives QUIC before it.  [n_room]: so many pieces
    the socket takes.  Once QUIC has sent something, it wants a timer of 1. *)
Record Net := mkNet {
  n_in : list bytes; n_out : list bytes; n_fires : list bool; n_signals : list (list bytes); n_room : nat; n_deadline : option Z; n_history : History }.

Definition n_of (h : History → History) (w : Net) : Net :=
  mkNet (n_in w) (n_out w) (n_fires w) (n_signals w) (n_room w) (n_deadline w) (h (n_history w)).
Definition n_set_in (x : list bytes) (w : Net) : Net := mkNet x (n_out w) (n_fires w) (n_signals w) (n_room w) (n_deadline w) (n_history w).
Definition n_set_out (x : list bytes) (w : Net) : Net := mkNet (n_in w) x (n_fires w) (n_signals w) (n_room w) (n_deadline w) (n_history w).

#[local] Instance test_net : DatagramNet Net Z := {
  quic_timeout := n_deadline;
  new_sleep time w := (w, time);
  poll_sleep t w :=
    match n_fires w with
    | [] => (w, (t, false))
    | b :: fires => (mkNet (n_in w) (n_out w) fires (n_signals w) (n_room w) (n_deadline w) (n_history w), (t, b))
    end;
  quic_on_timeout w := w;
  udp_read n w := match n_in w with [] => (w, Pending) | d :: rest => (n_of (h_arrive d) (n_set_in rest w), Ready (inl d)) end;
  quic_recv d w := match d with [] => (w, inr (QuicOther 0)) | _ => (n_of (h_feed d) (n_set_out (n_out w ++ [d]) w), inl (len d)) end;
  wake_streams w := n_of h_wake w;
  quic_send n w :=
    match n_out w with
    | [] => (w, inr QuicDone)
    | d :: rest =>
        if (0 <? len d) && (len d <=? n) then
          (n_of (h_produce d) (mkNet (n_in w) rest (n_fires w) (n_signals w) (n_room w) (Some 1) (n_history w)), inl d)
        else (w, inr (QuicOther 1))
    end;
  udp_write l w :=
    match n_room w with
    | O => (w, Pending)
    | S room => (n_of (h_write l) (mkNet (n_in w) (n_out w) (n_fires w) (n_signals w) room (n_deadline w) (n_history w)), Ready (inl (len l)))
    end;
  poll_signal w :=
    match n_signals w with
    | [] => (w, Pending)
    | ds :: signals => (mkNet (n_in w) (n_out w ++ ds) (n_fires w) signals (n_room w) (n_deadline w) (n_history w), Ready (Some (inl ())))
    end }.

Fixpoint signals_work (l : list (list bytes)) : nat := match l with [] => 0 | ds :: l => S (length ds) + signals_work l end.
Definition n_work (w : Net) : nat :=
  2 * length (n_in w) + length (n_out w) + length (n_fires w) + signals_work (n_signals w).
Definition n_settled (w : Net) : Prop := n_out w = [] ∨ n_room w = 0%nat.

#[local] Instance test_net_laws : DatagramLaws Net Z.
Proof.
  refine (Build_DatagramLaws _ _ _ n_history n_work n_settled _ _ _ _ _ _ _ _ _).
  - done.
  - intros t w. cbn. unfold n_work. destruct (n_fires w) as [|[] fires] eqn:E; cbn; rewrite ?E; cbn; (split; [done|lia]).
  - done.
  - intros n w. cbn. unfold n_work. destruct (n_in w) as [|[|b d] rest] eqn:E; cbn; rewrite ?E, ?length_app; cbn; (split; [done|lia]).
  - intros [|b d] w; done.
  - done.
  - intros n w. cbn. unfold n_work, n_settled. destruct (n_out w) as [|d rest] eqn:E; cbn; rewrite ?E; [by auto|].
    destruct (Z.ltb_spec 0 (len d)), (Z.leb_spec (len d) n); cbn; rewrite ?E; cbn; split_and!; done || lia.
  - intros l w. cbn. unfold n_work, n_settled. destruct (n_room w) eqn:E; cbn; [by auto|]. rewrite takeZ_all by lia. pose proof (len_nonneg l). split_and!; done || lia.
  - intros w. cbn. unfold n_work. destruct (n_signals w) as [|ds signals] eqn:E; cbn; rewrite ?E, ?length_app; cbn; (split; [done|lia]).
Defined.

(** Turns enough for the loop that writes. *)
Definition n_sends : nat := Z.to_nat 15000.
Definition nothing : History := mkHistory [] [] 0 [] [].
(** Two datagrams arrive, and QUIC has made one already. *)
Definition busy (room : nat) (signals : list (list bytes)) : Net := mkNet [[1; 2]; [3]] [[7; 8; 9]] [false] signals room (Some 30) nothing.
Definition ran (m : IOManager Net Z) : (list bytes * list bytes) * (nat * option Z) :=
  let w := io_world m in ((written (n_history w), n_out w), (wakes (n_history w), io_recv_timeout m)).

Example datagrams_pass : let '(m, r) := io_poll n_sends 50 (IOManager_new (busy 9 [])) in
  r = Ok Pending ∧ ran m = (([[7; 8; 9]; [1; 2]; [3]], []), (2%nat, Some 30)).
Proof. by vm_compute. Qed.

(** The socket takes one datagram only: the second one stays in the buffer, and is
    the first that the next poll writes. *)
Example datagrams_wait : let '(m, r) := io_poll n_sends 50 (IOManager_new (busy 1 [])) in
  r = Ok Pending ∧ ran m = (([[7; 8; 9]], [[3]]), (2%nat, Some 30)) ∧ rest (io_send_data m) = [1; 2].
Proof. by vm_compute. Qed.

(** The stream manager gives QUIC a datagram after the task has sent what there
    was, and before it takes the signals: the signal is taken, and the datagram
    waits until something else wakes the task. *)
Example signal_lost : let '(m, r) := io_poll n_sends 50 (IOManager_new (busy 9 [[[5]]])) in
  r = Ok Pending ∧ n_signals (io_world m) = [] ∧ n_out (io_world m) = [[5]].
Proof. by vm_compute. Qed.

(** The timer is the one of before the datagrams were sent, though QUIC now wants one
    of 1 to send them again if they are lost. *)
Example timer_kept : let '(m, r) := io_poll n_sends 50 (IOManager_new (busy 9 [])) in
  io_recv_timeout m = Some 30 ∧ n_deadline (io_world m) = Some 1 ∧ io_recv_timeout (io_poll n_sends 50 m).1 = Some 30.
Proof. by vm_compute. Qed.

Lemma datagrams_moved_witness :
  match io_poll n_sends 50 (IOManager_new (busy 1 [])) with
  | (_, Ok (Ready _)) | (_, Panic) => False
  | (m', Ok Pending) => flows m' ∧ (quiet → settled (io_world m'))
  | (m', Err _) => failed m'
  end.
Proof.
  apply (datagrams_moved n_sends 50 (IOManager_new (busy 1 []))).
  - by apply new_flows.
  - by vm_compute.
  - vm_compute. lia.
Defined.
