(* ===== verification/H3Conn.v ===== *)
(** * Requests over HTTP/3 connections

    Models [src/ylong_http_client/src/async_impl/conn/http3.rs], which turns a
    request into the frame that the stream manager sends, takes the head of the
    response from the channel of its stream, and reads the body of the response
    from there; and the handle of a request in [util/dispatcher.rs]
    ([Http3Conn]).

    The channel of a stream is a type [C], and the channel to the manager is a part
    of a type [W]; both are classes.  A call that is awaited is polled at most
    [patience] times before the task is dropped.  The interceptor is an argument,
    and the task that a connection starts is [H3Manager.poll]. *)

From stdpp Require Import gmap.
From S2P Require Import Prelude Headers Parts H3Error H3Frame H3Streams Message Uri H1Decoder Normalizer Body ChunkTrailer HttpBody RateLimit Http1Conn.
From S2P Require H2Streams H3Manager.
#[local] Open Scope Z_scope.

(** ** The request as a frame *)

Definition h3_build_pseudo_headers (r : Request) : Request * PseudoHeaders :=
  let pseudo := set_scheme (Some (match uri_scheme (rq_uri r) with Some scheme => Scheme_as_str scheme | None => Scheme_as_str PHttps end)) PseudoHeaders_new in
  let pseudo := set_method (Some (Method_as_str (rq_method r))) pseudo in
  let pseudo := set_path (match path_and_query (rq_uri r) with Some path => Some path | None => Some (bs "/") end) pseudo in
  let (headers, host) := Headers_remove (bs "host") (rq_headers r) in
  (rq_set_headers headers r, set_authority (HeaderValue_to_vec <$> host) pseudo).

Definition build_headers_frame (part : Request) : Frame :=
  let (part, pseudo) := h3_build_pseudo_headers part in
  mkFrame HEADERS_FRAME_TYPE (PHeaders (mkParts pseudo (rq_headers part)) None).

(** ** The handle of a request *)

(** The receiving end of the channel of a stream: [None] when the channel is
    closed.  A handle keeps a sending end itself, so its channel is closed only
    with it. *)
Class H3RespChannel (C : Type) := poll_resp : C → C * Poll (option RespMessage).

(** The runtime: a new channel with room for so many messages, whose sending end
    is a number, and the channel to the manager, which refuses a message when the manager
    is gone. *)
Class H3RequestWorld (W C : Type) := {
  open_channel : Z → W → W * (Z * C);
  send_request : H3Manager.ReqMessage → W → W * bool }.

Definition CHANNEL_SIZE : Z := 3.

(** [Http3Conn]. *)
Record Http3Conn (C : Type) := mkHttp3Conn { h3_sender : Z; h3_receiver : C; h3_io_shutdown : bool }.
Arguments mkHttp3Conn {C} _ _ _.
Arguments h3_sender {C} _.
Arguments h3_receiver {C} _.
Arguments h3_io_shutdown {C} _.
Definition Http3Conn_new {W C : Type} `{!H3RequestWorld W C} (shutdown : bool) (w : W) : W * Http3Conn C :=
  let '(w, (tx, rx)) := open_channel CHANNEL_SIZE w in (w, mkHttp3Conn tx rx shutdown).
Definition h3_set_receiver {C : Type} (rx : C) (c : Http3Conn C) : Http3Conn C := mkHttp3Conn (h3_sender c) rx (h3_io_shutdown c).

(** The errors of the request and of the head of its response. *)
Inductive H3Failure :=
  | H3Intercepted | H3RequestSenderClosed | H3Cancelled | H3SenderClosed | H3ConnFailed (e : DispatchErrorKind)
  | H3NoStatus | H3BadFrame | H3BadStatus (e : HttpError) | H3BadLength (e : ClientError) | H3OpenFailed.

(** ** The body of the response *)

(** [TextIo]. *)
Record H3TextIo (C : Type) := mkH3TextIo { t3_handle : Http3Conn C; t3_offset : Z; t3_remain : option Frame; t3_is_closed : bool }.
Arguments mkH3TextIo {C} _ _ _ _.
Arguments t3_handle {C} _.
Arguments t3_offset {C} _.
Arguments t3_remain {C} _.
Arguments t3_is_closed {C} _.
Definition H3TextIo_new {C : Type} (handle : Http3Conn C) : H3TextIo C := mkH3TextIo handle 0 None false.

(** The channel is closed, or the stream failed. *)
Inductive H3TextError := H3Aborted | H3Other.

Section text.
Context {C : Type} `{!H3RespChannel C}.
#[local] Abbreviation TT := (ST (H3TextIo C * ReadBuf) H3TextError).

Definition modify_text3 (f : H3TextIo C → H3TextIo C) : TT () := modify_st (λ s, (f s.1, s.2)).
Definition t3_set_place (offset : Z) (remain : option Frame) (t : H3TextIo C) : H3TextIo C := mkH3TextIo (t3_handle t) offset remain (t3_is_closed t).
Definition t3_close (t : H3TextIo C) : H3TextIo C := mkH3TextIo (t3_handle t) (t3_offset t) (t3_remain t) true.
Definition t3_set_handle (h : Http3Conn C) (t : H3TextIo C) : H3TextIo C := mkH3TextIo h (t3_offset t) (t3_remain t) (t3_is_closed t).

(** [append_slice]: a slice that does not fit is a panic. *)
Definition h3_append_slice (out : bytes) : TT () :=
  s ← get_st;
  if len out <=? rb_room s.2 then put_st (s.1, rb_put out s.2) else panic.

Definition h3_end_read (data_len : Z) : TT (option (Poll ())) :=
  _ ← modify_text3 (t3_set_place 0 None);
  if data_len =? 0 then mret None else mret (Some (Ready ())).

(** [data[first..first + n]]. *)
Definition h3_data_slice (first n : Z) (data : bytes) : TT bytes :=
  if (0 <=? n) && (first + n <=? len data) then mret (takeZ n (dropZ first data)) else panic.

(** The errors that are the end of a response. *)
Definition ends_response (e : DispatchErrorKind) : bool :=
  match e with KindH3 (Connection H3NoError) | KindStreamFinished => true | _ => false end.

Definition h3_match_channel_message (poll_result : Poll RespMessage) : TT (option (Poll ())) :=
  match poll_result with
  | Pending => mret (Some Pending)
  | Ready (RespOutput frame) =>
      match fr_payload frame with
      | PHeaders _ _ => _ ← modify_text3 (t3_set_place 0 (Some frame)); mret (Some (Ready ()))
      | PData data =>
          s ← get_st;
          let unfilled_len := rb_room s.2 in
          let data_len := len data in
          let fill_len := Z.min data_len unfilled_len in
          out ← h3_data_slice 0 fill_len data;
          _ ← h3_append_slice out;
          if unfilled_len <? data_len then
            _ ← modify_text3 (λ t, t3_set_place (t3_offset t + fill_len) (Some frame) t); mret (Some (Ready ()))
          else h3_end_read data_len
      | _ => throw H3Other
      end
  | Ready (RespExit e) => if ends_response e then _ ← modify_text3 t3_close; mret (Some (Ready ())) else throw H3Other
  end.

Definition h3_read_remaining_data : TT (option (Poll ())) :=
  s ← get_st;
  match t3_remain s.1 with
  | None => mret None
  | Some frame =>
      match fr_payload frame with
      | PHeaders _ _ => mret (Some (Ready ()))
      | PData data =>
          let unfilled_len := rb_room s.2 in
          let offset := t3_offset s.1 in
          if offset <=? len data then
            let data_len := len data - offset in
            let fill_len := Z.min unfilled_len data_len in
            out ← h3_data_slice offset fill_len data;
            _ ← h3_append_slice out;
            if unfilled_len <? data_len then
              _ ← modify_text3 (λ t, t3_set_place (t3_offset t + fill_len) (t3_remain t) t); mret (Some (Ready ()))
            else h3_end_read data_len
          else panic
      | _ => throw H3Other
      end
  end.

(** [resp_receiver.poll_recv(cx).map_err(..)?]. *)
Definition h3_text_poll_recv : TT (Poll RespMessage) := λ s,
  let (rx, p) := poll_resp (h3_receiver (t3_handle s.1)) in
  ((t3_set_handle (h3_set_receiver rx (t3_handle s.1)) s.1, s.2),
   match p with Ready (Some m) => Ok (Ready m) | Ready None => Err H3Aborted | Pending => Ok Pending end).

(** The loop of [poll_read].  A turn that goes on has taken an empty frame of the
    channel; all that is kept between two turns is in the structure, so a loop that
    is cut goes on in the next poll. *)
Fixpoint h3_text_loop (turns : nat) : TT (Poll ()) :=
  match turns with
  | O => mret Pending
  | Datatypes.S turns =>
      s ← get_st;
      if rb_room s.2 =? 0 then mret (Ready ())
      else
        r ← h3_read_remaining_data;
        match r with
        | Some p => mret p
        | None =>
            p ← h3_text_poll_recv;
            r ← h3_match_channel_message p;
            match r with Some p => mret p | None => h3_text_loop turns end
        end
  end.

(** [poll_read], without limits and with them. *)
Definition h3_text_poll_read (turns : nat) : TT (Poll ()) :=
  s ← get_st;
  if (rb_room s.2 =? 0) || t3_is_closed s.1 then mret (Ready ()) else h3_text_loop turns.
Definition h3_limited_poll_read (turns : nat) (now : Z) : ST ((H3TextIo C * SpeedController) * ReadBuf) (H3TextError + BelowLimit) (Poll ()) :=
  s ← get_st;
  if (rb_room s.2 =? 0) || t3_is_closed s.1.1 then mret (Ready ()) else limited_read (h3_text_loop turns) now.

(** [StreamData] of [TextIo]. *)
Definition t3_shutdown (t : H3TextIo C) : H3TextIo C :=
  t3_set_handle (mkHttp3Conn (h3_sender (t3_handle t)) (h3_receiver (t3_handle t)) true) t.
Definition t3_is_stream_closable (t : H3TextIo C) : bool := t3_is_closed t.

(** ** The response *)

(** [frame_2_response]: a PUSH_PROMISE is a [todo!()]. *)
Definition h3_frame_2_response (conn : Http3Conn C) (headers_frame : Frame) (method : Method) : result H3Failure (ResponsePart * Kind (H3TextIo C)) :=
  part ← match fr_payload headers_frame with
         | PHeaders parts _ =>
             match ph_status (parts_pseudo parts) with
             | Some status =>
                 match StatusCode_from_bytes status with
                 | Ok code => Ok (mkResponsePart Http3 code (parts_map parts))
                 | Err e => Err (H3BadStatus e)
                 | Panic => Panic
                 end
             | None => Err H3NoStatus
             end
         | PPushPromise _ _ _ => Panic
         | _ => Err H3BadFrame
         end;
  match BodyLengthParser_parse method part with
  | Ok length =>
      match HttpBody_new (E := H3TextError) length (H3TextIo_new conn) [] with
      | inl k => Ok (part, k)
      | inr _ => Err H3OpenFailed
      end
  | Err e => Err (H3BadLength e)
  | Panic => Panic
  end.

(** ** [request] *)

Context {W : Type} `{!H3RequestWorld W C} (intercept_request : Request → bool).
#[local] Abbreviation RM := (ST (W * Http3Conn C) H3Failure).

Definition send_frame_to_reader (header : Frame) (data : H2Streams.BodyDataRef) : RM () := λ s,
  let (w, sent) := send_request (H3Manager.mkReq header data (h3_sender s.2)) s.1 in
  ((w, s.2), if sent : bool then Ok () else Err H3RequestSenderClosed).

(** [recv_resp], awaited. *)
Fixpoint recv_resp (patience : nat) : RM Frame :=
  match patience with
  | O => throw H3Cancelled
  | Datatypes.S patience =>
      s ← get_st;
      let (rx, p) := poll_resp (h3_receiver s.2) in
      _ ← put_st (s.1, h3_set_receiver rx s.2);
      match p with
      | Ready (Some (RespOutput frame)) => mret frame
      | Ready (Some (RespExit e)) => throw (H3ConnFailed e)
      | Ready None => throw H3SenderClosed
      | Pending => recv_resp patience
      end
  end.

Definition http3_request (patience : nat) (r : Request) : RM (ResponsePart * Kind (H3TextIo C)) :=
  if negb (intercept_request r) then throw H3Intercepted
  else
    _ ← send_frame_to_reader (build_headers_frame r) (H2Streams.mkBodyDataRef true);
    frame ← recv_resp patience;
    s ← get_st;
    lift_res (h3_frame_2_response s.2 frame (rq_method r)).
End text.
