(* ===== verification/H3ConnSpec.v ===== *)
(** * Properties of requests over HTTP/3 connections

    What a request becomes on its way to the stream manager, and what the client
    reads of the response that comes through the channel of its stream. *)

From stdpp Require Import gmap.
From S2P Require Import Prelude Headers Parts H3Error H3Frame H3Streams Message Uri H1Decoder Normalizer Body ChunkTrailer HttpBody RateLimit Http1Conn H3Conn.
From S2P Require H2Streams H3Manager.
#[local] Open Scope Z_scope.

(** ** The request *)

(** The pseudo fields of a request (RFC 9114 section 4.3.1). *)
Definition h3_request_pseudo (r : Request) : PseudoHeaders :=
  mkPseudo (HeaderValue_to_vec <$> rq_headers r !! bs "host") (Some (Method_as_str (rq_method r)))
    (Some (from_option id (bs "/") (path_and_query (rq_uri r)))) (Some (Scheme_as_str (from_option id PHttps (uri_scheme (rq_uri r))))) None.

(** The frame of a request: its fields, all but the host, which is the
    authority.  The fields of a connection go along. *)
Lemma h3_request_frame (r : Request) :
  build_headers_frame r = mkFrame HEADERS_FRAME_TYPE (PHeaders (mkParts (h3_request_pseudo r) (delete (bs "host") (rq_headers r))) None).
Proof.
  unfold build_headers_frame, h3_build_pseudo_headers. cbn [rq_headers rq_set_headers rq_uri rq_method].
  assert (Headers_remove (bs "host") (rq_headers r) = (delete (bs "host") (rq_headers r), rq_headers r !! bs "host")) as ->.
  { unfold Headers_remove. by change (normalize (bs "host")) with (Ok (bs "host") : result HttpError bytes). }
  unfold h3_request_pseudo, set_scheme, set_method, set_path, set_authority. cbn. by destruct (uri_scheme (rq_uri r)), (path_and_query (rq_uri r)).
Qed.

(** ** The body of the response *)

(** [coming]: all the messages that the channel will give before it is closed. *)
Class H3RespLaws (C : Type) `{!H3RespChannel C} := {
  coming : C → list RespMessage;
  poll_resp_law c :
    match poll_resp c with
    | (c', Ready (Some m)) => coming c = m :: coming c'
    | (c', Ready None) => coming c = [] ∧ coming c' = []
    | (c', Pending) => coming c' = coming c
    end }.

(** The data of DATA frames up to the message that ends the response, and that there is
    such a one, with nothing but DATA before it. *)
Fixpoint queue_rest (ms : list RespMessage) : bytes :=
  match ms with
  | RespOutput f :: ms => match fr_payload f with PData d => d ++ queue_rest ms | _ => [] end
  | _ => []
  end.
Fixpoint ends_well (ms : list RespMessage) : Prop :=
  match ms with
  | RespOutput f :: ms => match fr_payload f with PData _ => ends_well ms | _ => False end
  | RespExit e :: _ => ends_response e = true
  | [] => False
  end.

Section text.
Context {C : Type} `{!H3RespChannel C, !H3RespLaws C} (turns : nat) (shut : bool).
#[local] Instance h3_text_read : AsyncRead H3TextError (H3TextIo C) := h3_text_poll_read turns.

(** The channel never makes a read wait. *)
Definition eager : Prop := ∀ c : C, (poll_resp c).2 ≠ Pending.

Definition text_coming (t : H3TextIo C) : list RespMessage := coming (h3_receiver (t3_handle t)).

Definition text_rest (t : H3TextIo C) : bytes :=
  if t3_is_closed t then []
  else match t3_remain t with
       | Some f => match fr_payload f with PData d => dropZ (t3_offset t) d ++ queue_rest (text_coming t) | _ => [] end
       | None => queue_rest (text_coming t)
       end.

Definition text_place (t : H3TextIo C) : Prop :=
  ends_well (text_coming t) ∧
  match t3_remain t with
  | Some f => ∃ d, fr_payload f = PData d ∧ 0 ≤ t3_offset t ≤ len d
  | None => t3_offset t = 0
  end.
Definition handle_ok (t : H3TextIo C) : Prop := h3_io_shutdown (t3_handle t) = shut ∧ (length (text_coming t) < turns)%nat.
Definition t3_ok (t : H3TextIo C) : Prop := handle_ok t ∧ (t3_is_closed t = true ∨ text_place t).

(** A read: the next bytes; none only at the end, or when it has to wait. *)
Definition text_reads (t : H3TextIo C) (b : ReadBuf) (x : (H3TextIo C * ReadBuf) * result H3TextError (Poll ())) : Prop :=
  ∃ out, x.1.2 = rb_put out b ∧ text_rest t = out ++ text_rest x.1.1 ∧ len out ≤ rb_room b ∧ t3_ok x.1.1 ∧
    match x.2 with
    | Ok (Ready _) => out = [] → t3_is_closed x.1.1 = true
    | Ok Pending => out = [] ∧ ¬ eager
    | _ => False
    end.

(** What both functions do with the bytes of [f] from [offset] on. *)
Definition took (f : Frame) (d : bytes) (offset : Z) (t : H3TextIo C) (b : ReadBuf) : (H3TextIo C * ReadBuf) * result H3TextError (option (Poll ())) :=
  let n := Z.min (rb_room b) (len d - offset) in
  let b' := rb_put (takeZ n (dropZ offset d)) b in
  if rb_room b <? len d - offset then ((t3_set_place (offset + n) (Some f) t, b'), Ok (Some (Ready ())))
  else ((t3_set_place 0 None t, b'), Ok (if len d - offset =? 0 then None else Some (Ready ()))).

Lemma h3_append_slice_eq out (t : H3TextIo C) b : len out ≤ rb_room b → h3_append_slice out (t, b) = ((t, rb_put out b), Ok ()).
Proof. intros H. unfold h3_append_slice. rewrite bind_st. cbn [get_st snd]. by destruct (Z.leb_spec (len out) (rb_room b)); [|lia]. Qed.

Lemma h3_data_slice_eq first n d (t : H3TextIo C) b : 0 ≤ n → first + n ≤ len d → h3_data_slice first n d (t, b) = ((t, b), Ok (takeZ n (dropZ first d))).
Proof. intros H1 H2. unfold h3_data_slice. by destruct (Z.leb_spec 0 n), (Z.leb_spec (first + n) (len d)); try lia. Qed.

Lemma h3_end_read_eq f d offset (t : H3TextIo C) b : 0 ≤ offset ≤ len d → ¬ rb_room b < len d - offset →
  h3_end_read (len d - offset) (t, rb_put (takeZ (Z.min (rb_room b) (len d - offset)) (dropZ offset d)) b) = took f d offset t b.
Proof.
  intros Ho Hr. unfold took, h3_end_read. rewrite bind_st. cbn [modify_text3 modify_st fst snd].
  destruct (Z.ltb_spec (rb_room b) (len d - offset)); [lia|]. by destruct (len d - offset =? 0).
Qed.

Lemma h3_took_len (d : bytes) offset b : 0 ≤ offset ≤ len d → 0 ≤ rb_room b →
  len (takeZ (Z.min (rb_room b) (len d - offset)) (dropZ offset d)) = Z.min (rb_room b) (len d - offset).
Proof. intros Ho Hb. apply len_takeZ. rewrite len_dropZ by lia. lia. Qed.

Lemma h3_read_remaining_eq f d t b : t3_remain t = Some f → fr_payload f = PData d → 0 ≤ t3_offset t ≤ len d → 0 ≤ rb_room b →
  h3_read_remaining_data (t, b) = took f d (t3_offset t) t b.
Proof.
  intros Hr Hf Ho Hb. unfold h3_read_remaining_data. rewrite bind_st. cbn [get_st fst snd]. rewrite Hr, Hf. cbv zeta.
  destruct (Z.leb_spec (t3_offset t) (len d)); [|lia]. rewrite bind_st, h3_data_slice_eq, bind_st by lia.
  rewrite h3_append_slice_eq by (rewrite h3_took_len; lia).
  destruct (Z.ltb_spec (rb_room b) (len d - t3_offset t)) as [Hlt|Hge].
  - rewrite bind_st. unfold took. destruct (Z.ltb_spec (rb_room b) (len d - t3_offset t)); [|lia]. cbn. by rewrite Hr.
  - apply h3_end_read_eq; lia.
Qed.

Lemma h3_match_data_eq f d t b : t3_offset t = 0 → fr_payload f = PData d → 0 ≤ rb_room b →
  h3_match_channel_message (Ready (RespOutput f)) (t, b) = took f d 0 t b.
Proof.
  intros Ho Hf Hb. pose proof (len_nonneg d). cbn [h3_match_channel_message]. rewrite Hf, bind_st. cbn [get_st fst snd]. cbv zeta.
  rewrite Z.min_comm. pose proof (h3_took_len d 0 b ltac:(lia) Hb) as Hl. rewrite Z.sub_0_r in Hl.
  rewrite bind_st, h3_data_slice_eq, bind_st, h3_append_slice_eq by lia.
  destruct (Z.ltb_spec (rb_room b) (len d)) as [Hlt|Hge].
  - rewrite bind_st. unfold took. rewrite Z.sub_0_r. destruct (Z.ltb_spec (rb_room b) (len d)); [|lia]. cbn. by rewrite Ho.
  - pose proof (h3_end_read_eq f d 0 t b ltac:(lia) ltac:(lia)) as He. by rewrite Z.sub_0_r in He.
Qed.

(** The bytes of [f] from [offset] on. *)
Lemma h3_took_ok f d offset t b :
  handle_ok t → t3_is_closed t = false → fr_payload f = PData d → 0 ≤ offset ≤ len d → 0 < rb_room b → ends_well (text_coming t) →
  let '(s', r) := took f d offset t b in
  match r with
  | Ok (Some p) => p = Ready () ∧ ∃ out, s'.2 = rb_put out b ∧ dropZ offset d ++ queue_rest (text_coming t) = out ++ text_rest s'.1 ∧
      len out ≤ rb_room b ∧ t3_ok s'.1 ∧ out ≠ []
  | Ok None => s' = (t3_set_place 0 None t, b) ∧ dropZ offset d = []
  | _ => False
  end.
Proof.
  intros Hh Hcl Hf Ho Hb He. unfold took. set (out := takeZ _ _).
  assert (len out = Z.min (rb_room b) (len d - offset)) as Hout by (apply h3_took_len; lia).
  destruct (Z.ltb_spec (rb_room b) (len d - offset)) as [Hlt|Hge].
  - split; [done|]. exists out. split; [done|]. split.
    { unfold text_rest. cbn. rewrite Hcl, Hf. change (text_coming _) with (text_coming t). rewrite app_assoc. f_equal.
      rewrite <- dropZ_dropZ by lia. unfold out. by rewrite Z.min_l, takeZ_dropZ by lia. }
    split; [lia|]. split; [split; [exact Hh|right]|intros Hn; rewrite Hn, len_nil in Hout; lia].
    split; [exact He|]. exists d. split; [done|]. cbn. lia.
  - assert (out = dropZ offset d) as Hd by (unfold out; apply takeZ_all; rewrite len_dropZ by lia; lia).
    destruct (Z.eqb_spec (len d - offset) 0) as [Hz|Hz].
    + assert (out = []) as Hn by (apply len_0_nil; lia). by rewrite <- Hd, Hn, rb_put_nil.
    + split; [done|]. exists out. split; [done|]. rewrite Hd. unfold text_rest. cbn. rewrite Hcl.
      split; [done|]. rewrite <- Hd. split; [lia|]. split; [split; [exact Hh|right; by split]|].
      intros Hn. rewrite Hn, len_nil in Hout. lia.
Qed.

(** A message of the channel, when no frame is kept. *)
Lemma h3_recv_ok t : t3_ok t → t3_is_closed t = false → t3_remain t = None → ∀ b,
  let '(s', r) := h3_text_poll_recv (t, b) in
  s'.2 = b ∧ t3_is_closed s'.1 = false ∧ t3_remain s'.1 = None ∧ t3_offset s'.1 = 0 ∧ h3_io_shutdown (t3_handle s'.1) = shut ∧
  match r with
  | Ok (Ready m) => text_coming t = m :: text_coming s'.1
  | Ok Pending => text_coming s'.1 = text_coming t ∧ ¬ eager
  | _ => False
  end.
Proof.
  intros ((Hsh & Hlen) & [?|[He Hp]]) Hcl Hr b; [congruence|]. rewrite Hr in Hp.
  unfold h3_text_poll_recv. cbn [fst snd]. unfold text_coming in *. set (c := h3_receiver (t3_handle t)) in *.
  pose proof (poll_resp_law c) as H. destruct (poll_resp c) as [c' [[m|]|]] eqn:Ep; cbn.
  - by split_and!.
  - destruct H as [H _]. by rewrite H in He.
  - split_and!; try done. intros Hg. apply (Hg c). by rewrite Ep.
Qed.

(** The rest of a turn: a message, and the next turn when it had no data. *)
Definition recv_turn (n : nat) : ST (H3TextIo C * ReadBuf) H3TextError (Poll ()) :=
  p ← h3_text_poll_recv;
  r ← h3_match_channel_message p;
  match r with Some p => mret p | None => h3_text_loop n end.

Lemma h3_recv_turn_ok n t b :
  (∀ t', t3_ok t' → t3_is_closed t' = false → (length (text_coming t') < n)%nat → text_reads t' b (h3_text_loop n (t', b))) →
  t3_ok t → t3_is_closed t = false → t3_remain t = None → 0 < rb_room b → (length (text_coming t) < Datatypes.S n)%nat →
  text_reads t b (recv_turn n (t, b)).
Proof.
  intros IH Hok Hcl Hr Hb Hn. unfold recv_turn. rewrite bind_st. pose proof (h3_recv_ok t Hok Hcl Hr b) as H.
  pose proof Hok as ((_ & Hlen) & [?|[He Ho]]); [congruence|].
  assert (text_rest t = queue_rest (text_coming t)) as Hrest by (unfold text_rest; by rewrite Hcl, Hr).
  destruct (h3_text_poll_recv (t, b)) as [[t1 b1] x]. cbn [fst snd] in H. destruct H as (-> & Hcl1 & Hr1 & Ho1 & Hsh1 & H).
  destruct x as [[[f|e]|]|x|]; [| | |done|done].
  - rewrite H in He, Hrest, Hn, Hlen. cbn [ends_well queue_rest length] in *. destruct (fr_payload f) as [|d| | | | | |] eqn:Ef; try done.
    rewrite bind_st, (h3_match_data_eq f d t1 b) by (done || lia). pose proof (len_nonneg d).
    assert (handle_ok t1) as Hh1 by (split; [done|lia]).
    pose proof (h3_took_ok f d 0 t1 b Hh1 Hcl1 Ef ltac:(lia) Hb He) as Ht. destruct (took f d 0 t1 b) as [s2 [[p|]|x|]]; [| |done|done].
    + destruct Ht as (-> & out & E1 & E2 & E3 & E4 & E5). exists out. cbn [mret ST_ret fst snd]. rewrite dropZ_0 in E2.
      split; [done|]. split; [by rewrite Hrest|]. by split_and!.
    + destruct Ht as (-> & Hd). set (t2 := t3_set_place 0 None t1).
      assert (text_rest t2 = text_rest t) as Hr2.
      { rewrite Hrest. unfold text_rest. cbn. rewrite Hcl1. rewrite dropZ_0 in Hd. by rewrite Hd. }
      assert (t3_ok t2) as Hok2 by (split; [exact Hh1|right; by split]).
      destruct (IH t2 Hok2 Hcl1) as (out & E1 & E2 & E3 & E4 & E5); [change (text_coming t2) with (text_coming t1); lia|].
      exists out. rewrite <- Hr2. by split_and!.
  - rewrite H in He, Hrest, Hn, Hlen. cbn [ends_well queue_rest length] in *. cbn [h3_match_channel_message]. rewrite He, bind_st, bind_st.
    exists []. cbn -[rb_put len]. rewrite rb_put_nil, Hrest, len_nil. split; [done|]. split; [done|]. split; [lia|]. split; [|done].
    split; [split; [done|change (text_coming (t3_close t1)) with (text_coming t1); lia]|by left].
  - destruct H as [H Hg]. assert (text_rest t1 = text_rest t) as Ht by (unfold text_rest; by rewrite Hcl1, Hcl, Hr1, Hr, H).
    cbn [h3_match_channel_message]. rewrite bind_st. cbn [mret ST_ret]. exists []. rewrite rb_put_nil. split; [done|]. split; [by rewrite <- Ht|].
    split; [rewrite len_nil; lia|]. split; [|done]. split; [split; [done|cbn; by rewrite H]|right]. unfold text_place. cbn. by rewrite Hr1, H.
Qed.

Lemma h3_text_loop_ok n t b :
  t3_ok t → t3_is_closed t = false → 0 < rb_room b → (length (text_coming t) < n)%nat → text_reads t b (h3_text_loop n (t, b)).
Proof.
  revert t. induction n as [|n IH]; intros t Hok Hcl Hb Hn; [lia|]. cbn [h3_text_loop]. rewrite bind_st. cbn [get_st snd].
  destruct (Z.eqb_spec (rb_room b) 0); [lia|]. rewrite bind_st.
  assert (∀ t', t3_ok t' → t3_is_closed t' = false → t3_remain t' = None → (length (text_coming t') < Datatypes.S n)%nat →
    text_reads t' b (recv_turn n (t', b))) as Hrecv by (intros t' H1 H2 H3 H4; apply h3_recv_turn_ok; [by auto|done..]).
  destruct (t3_remain t) as [f|] eqn:Hr.
  - pose proof Hok as (Hh & [?|[He Hp]]); [congruence|]. rewrite Hr in Hp. destruct Hp as (d & Hf & Ho).
    rewrite (h3_read_remaining_eq f d) by (done || lia). pose proof (h3_took_ok f d (t3_offset t) t b Hh Hcl Hf Ho Hb He) as H.
    assert (text_rest t = dropZ (t3_offset t) d ++ queue_rest (text_coming t)) as Hrest by (unfold text_rest; by rewrite Hcl, Hr, Hf).
    destruct (took f d (t3_offset t) t b) as [s2 [[p|]|x|]]; [| |done|done].
    + destruct H as (-> & out & E1 & E2 & E3 & E4 & E5). exists out. cbn [mret ST_ret fst snd]. rewrite Hrest. split; [done|]. by repeat (split; [done|]).
    + destruct H as (-> & Hd). set (t2 := t3_set_place 0 None t).
      assert (text_rest t2 = text_rest t) as Hr2 by (rewrite Hrest, Hd; unfold text_rest; cbn; by rewrite Hcl).
      destruct (Hrecv t2) as (out & E1 & E2 & E3); [split; [done|right; by split]|done|done|done|].
      exists out. rewrite <- Hr2. by split.
  - unfold h3_read_remaining_data. rewrite bind_st. cbn [get_st fst]. rewrite Hr. cbn [mret ST_ret]. by apply Hrecv.
Qed.

(** ** [TextIo] as the reader of a body *)

Lemma h3_text_read_ok t b : t3_ok t → 0 ≤ rb_room b →
  poll_spec (E := H3TextError) text_rest t b (poll_read (t, b)) ∧ t3_ok (poll_read (E := H3TextError) (t, b)).1.1.
Proof.
  intros Hok Hb. unfold poll_read, h3_text_read, h3_text_poll_read. rewrite bind_st. cbn [get_st fst snd].
  destruct (Z.eqb_spec (rb_room b) 0) as [Hz|Hz]; cbn [orb].
  { split; [|done]. exists []. rewrite rb_put_nil. split; [done|]. split; [done|]. split; [rewrite len_nil; lia|by left]. }
  destruct (t3_is_closed t) eqn:Hcl.
  { split; [|done]. exists []. rewrite rb_put_nil. split; [done|]. split; [done|]. split; [rewrite len_nil; lia|right]. unfold text_rest. by rewrite Hcl. }
  destruct (h3_text_loop_ok turns t b Hok Hcl ltac:(lia) ltac:(apply Hok)) as (out & H1 & H2 & H3 & H4 & H5). split; [|done].
  exists out. split_and!; try done. destruct (h3_text_loop turns (t, b)) as [s' [[[]|]|e|]]; cbn [fst snd] in *; [|by destruct H5|done|done].
  intros Hn. right. specialize (H5 Hn). rewrite H2, Hn. unfold text_rest. by rewrite H5.
Qed.

Lemma h3_text_tells_end : tells_end (E := H3TextError) t3_ok t3_is_closed.
Proof.
  intros t b Hok Hb. unfold poll_read, h3_text_read, h3_text_poll_read. rewrite bind_st. cbn [get_st fst snd].
  destruct (Z.eqb_spec (rb_room b) 0) as [Hz|Hz]; [lia|]. cbn [orb]. destruct (t3_is_closed t) eqn:Hcl; [intros _; exact Hcl|].
  destruct (h3_text_loop_ok turns t b Hok Hcl ltac:(lia) ltac:(apply Hok)) as (out & H1 & H2 & H3 & H4 & H5).
  destruct (h3_text_loop turns (t, b)) as [[t' b'] [[[]|]|e|]]; cbn [fst snd] in *; try done.
  intros He. apply H5. subst b'. cbn in He. rewrite <- (app_nil_r (rb_filled b)) in He at 2. by apply app_inv_head in He.
Qed.

Lemma h3_text_calm : eager → calm (E := H3TextError) (λ _, true) t3_ok.
Proof.
  intros Hg. split; [|done]. intros t b Hok Hb. unfold poll_read, h3_text_read, h3_text_poll_read. rewrite bind_st. cbn [get_st fst snd].
  destruct (Z.eqb_spec (rb_room b) 0) as [Hz|Hz]; cbn [orb]; [by eexists|]. destruct (t3_is_closed t) eqn:Hcl; [by eexists|].
  destruct (h3_text_loop_ok turns t b Hok Hcl ltac:(lia) ltac:(apply Hok)) as (out & H1 & H2 & H3 & H4 & H5).
  destruct (h3_text_loop turns (t, b)) as [[t' b'] [[x|]|e|]]; cbn [fst snd] in *; [by eexists|by destruct H5|done|done].
Qed.
End text.

(** Without limits the read of [h3_limited_poll_read] is the one of [h3_text_poll_read]. *)
Lemma h3_unlimited_text_read {C} `{!H3RespChannel C} turns now (t : H3TextIo C) b :
  h3_limited_poll_read turns now ((t, SpeedController_none), b) =
    let '((t, b), x) := h3_text_poll_read turns (t, b) in
    (((t, SpeedController_none), b), match x with Ok a => Ok a | Err e => Err (inl e) | Panic => Panic end).
Proof.
  unfold h3_limited_poll_read, h3_text_poll_read. rewrite !bind_st. cbn [get_st fst snd].
  destruct ((rb_room b =? 0) || t3_is_closed t); [done|]. apply unlimited_read.
Qed.

(** ** A whole exchange *)

Section exchange.
Context {W C : Type} `{!H3RespChannel C, !H3RespLaws C, !H3RequestWorld W C} (turns : nat).
#[local] Instance h3_exchange_read : AsyncRead H3TextError (H3TextIo C) := h3_text_poll_read turns.

(** The content behind the head: what the DATA frames up to the end of the
    response hold. *)
Definition h3_content (n : BodyLength) (ms : list RespMessage) (content : bytes) : Prop :=
  match n with
  | BEmpty => content = []
  | BLength m => ends_well ms ∧ content = queue_rest ms ∧ m = len content ∧ content ≠ []
  | BUntilClose => ends_well ms ∧ content = queue_rest ms
  | BChunk => False
  end.

(** The body has let go of the stream, and the connection is left as it was. *)
Definition h3_left_open (shut : bool) (k : Kind (H3TextIo C)) : Prop :=
  match kind_io k with
  | Some (Gone t false) => h3_io_shutdown (t3_handle t) = shut
  | Some _ => False
  | None => True
  end.

(** Reading the body to its end. *)
Definition h3_delivers (shut : bool) (content : bytes) (k : Kind (H3TextIo C)) : Prop :=
  ∀ fuel rooms, (length content < fuel)%nat → Forall (λ room, 0 < room) rooms →
    match http_read (E := H3TextError) t3_is_stream_closable (λ _, true) fuel rooms k with
    | (k', data, Ok true) => data = content ∧ h3_left_open shut k'
    | (_, data, Ok false) => (∃ rest, content = data ++ rest) ∧ (eager (C := C) → (length rooms <= length data)%nat)
    | (_, _, Err _) => ¬ eager (C := C)
    | (_, _, Panic) => False
    end.

Lemma h3_recv_resp_ok patience (w : W) (conn : Http3Conn C) f ms :
  coming (h3_receiver conn) = RespOutput f :: ms →
  match recv_resp patience (w, conn) with
  | ((w', conn'), Ok f') => w' = w ∧ f' = f ∧ h3_io_shutdown conn' = h3_io_shutdown conn ∧ coming (h3_receiver conn') = ms
  | (_, Err e) => e = H3Cancelled ∧ (eager (C := C) → patience = 0%nat)
  | (_, Panic) => False
  end.
Proof.
  revert conn. induction patience as [|patience IH]; intros conn Hm; cbn [recv_resp]; [done|].
  rewrite bind_st. cbn [get_st snd]. pose proof (poll_resp_law (h3_receiver conn)) as H.
  destruct (poll_resp (h3_receiver conn)) as [c' [[[g|e]|]|]] eqn:Ep; rewrite bind_st; cbn [put_st fst].
  - rewrite H in Hm. by injection Hm as -> <-.
  - by rewrite H in Hm.
  - destruct H as [H _]. by rewrite H in Hm.
  - specialize (IH (h3_set_receiver c' conn) ltac:(by rewrite <-H in Hm)).
    destruct (recv_resp patience (w, h3_set_receiver c' conn)) as [[w' conn'] [f'|e|]]; [exact IH| |done].
    destruct IH as [-> _]. split; [done|]. intros Hg. exfalso. apply (Hg (h3_receiver conn)). by rewrite Ep.
Qed.

Lemma h3_content_read n ms content shut (conn : Http3Conn C) fuel :
  h3_content n ms content → coming (h3_receiver conn) = ms → h3_io_shutdown conn = shut →
  (length ms < turns)%nat → (length content < fuel)%nat →
  match HttpBody_new (E := H3TextError) n (H3TextIo_new conn) [] with
  | inl k => http_ok (λ t, t3_ok turns shut t ∧ (length (text_rest t) < fuel)%nat) text_rest k content
  | inr _ => False
  end.
Proof.
  intros Hn Hm Hs Ht Hf. assert (text_rest (H3TextIo_new conn) = queue_rest ms) as Hr by (unfold text_rest, text_coming; cbn; by rewrite Hm).
  assert (ends_well ms → content = queue_rest ms → t3_ok turns shut (H3TextIo_new conn) ∧ (length (text_rest (H3TextIo_new conn)) < fuel)%nat) as Hok.
  { intros He ->. rewrite Hr. split; [|done]. split; [split; [done|]|right]; unfold text_place, text_coming; cbn; by rewrite Hm. }
  destruct n as [|m| |]; cbn in Hn; [done| |by subst|].
  - destruct Hn as (He & -> & -> & Hne). apply (http_new_ok (E := H3TextError) _ text_rest (BLength _) (H3TextIo_new conn) [] _); [by apply Hok|].
    cbn [is_body]. by rewrite Hr.
  - destruct Hn as (He & ->). apply (http_new_ok (E := H3TextError) _ text_rest BUntilClose (H3TextIo_new conn) [] _); [by apply Hok|].
    cbn [is_body]. by rewrite Hr.
Qed.

Lemma h3_response_delivers n ms content (conn : Http3Conn C) k :
  h3_content n ms content → coming (h3_receiver conn) = ms → (length ms < turns)%nat →
  HttpBody_new (E := H3TextError) n (H3TextIo_new conn) [] = inl k → h3_delivers (h3_io_shutdown conn) content k.
Proof.
  intros Hn Hm Ht Hk fuel rooms Hf Hrooms. set (shut := h3_io_shutdown conn).
  pose proof (h3_content_read n ms content shut conn fuel Hn Hm eq_refl Ht Hf) as Hok. rewrite Hk in Hok.
  pose proof (http_read_bounded (E := H3TextError) (λ _, true) (t3_ok turns shut) text_rest (h3_text_read_ok turns shut) t3_is_closed (h3_text_tells_end turns shut)
    fuel rooms k content ltac:(lia) Hrooms Hok) as H. change (t3_is_stream_closable (C := C)) with (t3_is_closed (C := C)).
  destruct (http_read _ _ _ _ k) as [[k' data] x]. destruct H as (rest & -> & Hx). destruct x as [[]|e|]; [| | |done].
  - destruct Hx as [-> Hg]. rewrite app_nil_r. split; [done|]. unfold h3_left_open, http_gone, given_up in *.
    destruct (kind_io k') as [[t|t []]|]; try done. apply Hg.
  - split; [by exists rest|]. intros Hg. apply Hx. by apply h3_text_calm.
  - intros Hg. destruct Hx as [_ Hx]. by apply Hx, h3_text_calm.
Qed.

(** C17: A request over HTTP/3.  The stream manager gets HEADERS with the method,
    scheme, path and authority of the request and its other fields, with the
    channel of the handle; when HEADERS with a status come through that, and then
    DATA up to the end of the stream, as much as the head told, the client has a
    response with this status and these fields, and reading its body with buffers
    of any sizes gives the content, in order, each byte once; at its end the
    stream is let go of, and the connection is not shut down.  The task can be
    dropped while it waits, and nothing else goes wrong; with a channel that
    never makes it wait, as many reads as there are bytes and one more come to
    the end. *)
Theorem http3_exchange (intercept_request : Request → bool) (patience : nat) (r : Request)
    (w : W) (conn : Http3Conn C) (f : Frame) (parts : Parts) (ins : option bytes) (status : bytes) (code : StatusCode) (n : BodyLength)
    (ms : list RespMessage) (content : bytes) :
  let header := mkFrame HEADERS_FRAME_TYPE (PHeaders (mkParts (h3_request_pseudo r) (delete (bs "host") (rq_headers r))) None) in
  let sent := send_request (C := C) (H3Manager.mkReq header (H2Streams.mkBodyDataRef true) (h3_sender conn)) w in
  let part := mkResponsePart Http3 code (parts_map parts) in
  intercept_request r = true → sent.2 = true → coming (h3_receiver conn) = RespOutput f :: ms →
  fr_payload f = PHeaders parts ins → ph_status (parts_pseudo parts) = Some status → StatusCode_from_bytes status = Ok code →
  BodyLengthParser_parse (rq_method r) part = Ok n → h3_content n ms content → (length ms < turns)%nat →
  match http3_request intercept_request patience r (w, conn) with
  | (s', Ok (part', k)) => s'.1 = sent.1 ∧ part' = part ∧ h3_delivers (h3_io_shutdown conn) content k
  | (_, Err e) => e = H3Cancelled ∧ (eager (C := C) → patience = 0%nat)
  | (_, Panic) => False
  end.
Proof.
  cbv zeta. intros Hi Hsent Hc Hf Hst Hcode Hp Hn Ht.
  unfold http3_request. rewrite Hi. cbn [negb]. rewrite bind_st. unfold send_frame_to_reader. cbn [fst snd]. rewrite h3_request_frame.
  destruct (send_request _ w) as [w2 ok] eqn:Es. cbn [snd fst] in *. subst ok. rewrite bind_st.
  pose proof (h3_recv_resp_ok patience w2 conn f ms Hc) as H.
  destruct (recv_resp patience (w2, conn)) as [[w3 conn3] [f'|e|]]; [|done|done].
  destruct H as (-> & -> & Hsh & Hm'). rewrite bind_st. cbn [get_st snd]. unfold lift_res, h3_frame_2_response.
  rewrite Hf, Hst, Hcode. cbn [mbind result_mbind result_bind]. rewrite Hp.
  pose proof (h3_content_read n ms content _ conn3 (Datatypes.S (length content)) Hn Hm' eq_refl Ht ltac:(lia)) as Hk.
  destruct (HttpBody_new n (H3TextIo_new conn3) []) as [k|] eqn:Ek; [|done]. split; [done|]. split; [done|].
  rewrite <- Hsh. by eapply h3_response_delivers.
Qed.
End exchange.

(** ** A channel with all its messages

    It makes the reader wait every other time. *)
#[local] Instance h3_slow_channel : H3RespChannel (list RespMessage * bool) := λ c,
  if c.2 then ((c.1, false), Pending)
  else match c.1 with [] => (c, Ready None) | m :: ms => ((ms, true), Ready (Some m)) end.

Lemma h3_slow_channel_law (c : list RespMessage * bool) :
  match h3_slow_channel c with
  | (c', Ready (Some m)) => c.1 = m :: c'.1
  | (c', Ready None) => c.1 = [] ∧ c'.1 = []
  | (c', Pending) => c'.1 = c.1
  end.
Proof. by destruct c as [[|m ms] []]. Qed.
#[local] Instance h3_slow_channel_laws : H3RespLaws (list RespMessage * bool) := { coming := fst; poll_resp_law := h3_slow_channel_law }.

(** The messages that the peer will send, and those that the manager got. *)
#[local] Instance h3_test_world : H3RequestWorld (list RespMessage * list H3Manager.ReqMessage) (list RespMessage * bool) := {
  open_channel _ w := (w, (7, (w.1, false)));
  send_request m w := ((w.1, w.2 ++ [m]), true) }.

Definition h3_resp_head (status : bytes) (fields : Headers) : Frame :=
  mkFrame HEADERS_FRAME_TYPE (PHeaders (mkParts (mkPseudo None None None None (Some status)) fields) None).
Definition h3_resp_data (d : bytes) : RespMessage := RespOutput (mkFrame DATA_FRAME_TYPE (PData d)).
Definition h3_hello : list RespMessage := [h3_resp_data (bs "hel"); h3_resp_data []; h3_resp_data (bs "lo"); RespExit KindStreamFinished].
Definition h3_get : Request := mkRequest Get Http3 (mkUri None (Some (mkAuthority (bs "h") None)) (Some (bs "/p")) None)
  {[ bs "host" := mkHeaderValue [bs "h"] false; bs "connection" := mkHeaderValue [bs "close"] false ]}.
Definition h3_world (ms : list RespMessage) : (list RespMessage * list H3Manager.ReqMessage) * Http3Conn (list RespMessage * bool) := Http3Conn_new false (ms, []).

Definition h3_run_get (fields : Headers) (ms : list RespMessage) (rooms : list Z) :=
  match http3_request (λ _, true) 3 h3_get (h3_world (RespOutput (h3_resp_head (bs "200") fields) :: ms)) with
  | (s, Ok (part, k)) =>
      let '(k', data, x) := http_read (E := H3TextError) (AsyncRead0 := h3_text_poll_read 100) t3_is_stream_closable (λ _, true) 100 rooms k in
      Some (data, x, match kind_io k' with Some (Gone t shut) => Some (t3_is_closed t, shut) | _ => None end)
  | _ => None
  end.

Example h3_get_hello : h3_run_get ∅ h3_hello (replicate 14 2) = Some (bs "hello", Ok true, Some (true, false)).
Proof. by vm_compute. Qed.
(** With a Content-Length. *)
Example h3_get_hello_length :
  h3_run_get {[ bs "content-length" := mkHeaderValue [bs "5"] false ]} h3_hello (replicate 14 2) = Some (bs "hello", Ok true, Some (true, false)).
Proof. by vm_compute. Qed.

(** The Connection field goes along, and https is the scheme of a URI without one. *)
Example h3_get_sent :
  match http3_request (λ _, true) 3 h3_get (h3_world (RespOutput (h3_resp_head (bs "200") ∅) :: h3_hello)) with
  | ((w, _), Ok _) =>
      w.2 = [H3Manager.mkReq (mkFrame HEADERS_FRAME_TYPE (PHeaders (mkParts (mkPseudo (Some (bs "h")) (Some (bs "GET")) (Some (bs "/p")) (Some (bs "https")) None)
        {[ bs "connection" := mkHeaderValue [bs "close"] false ]}) None)) (H2Streams.mkBodyDataRef true) 7]
  | _ => False
  end.
Proof. by vm_compute. Qed.

(** A response with trailers: its body ends, but the whole connection is shut down. *)
Example h3_trailers_shut_down :
  h3_run_get ∅ [h3_resp_data (bs "hello"); RespOutput (h3_resp_head (bs "200") ∅); RespExit KindStreamFinished] (replicate 12 8) =
    Some (bs "hello", Ok true, Some (false, true)).
Proof. by vm_compute. Qed.

(** A PUSH_PROMISE as the first frame stops the task. *)
Example h3_push_promise_panics :
  h3_frame_2_response (C := list RespMessage * bool) (h3_world []).2 (mkFrame PUSH_PROMISE_FRAME_TYPE (PPushPromise 1 Parts_new None)) Get = Panic.
Proof. done. Qed.

Lemma http3_exchange_witness :
  match http3_request (λ _, true) 3 h3_get (h3_world (RespOutput (h3_resp_head (bs "200") ∅) :: h3_hello)) with
  | (s', Ok (part', k)) =>
      s'.1 = (RespOutput (h3_resp_head (bs "200") ∅) :: h3_hello, [H3Manager.mkReq (build_headers_frame h3_get) (H2Streams.mkBodyDataRef true) 7]) ∧
      part' = mkResponsePart Http3 200 ∅ ∧ h3_delivers 100 false (bs "hello") k
  | (_, Err e) => e = H3Cancelled ∧ (eager (C := list RespMessage * bool) → 3%nat = 0%nat)
  | (_, Panic) => False
  end.
Proof.
  rewrite h3_request_frame.
  refine (http3_exchange 100 (λ _, true) 3 h3_get (RespOutput (h3_resp_head (bs "200") ∅) :: h3_hello, []) (h3_world (RespOutput (h3_resp_head (bs "200") ∅) :: h3_hello)).2
    (h3_resp_head (bs "200") ∅) (mkParts (mkPseudo None None None None (Some (bs "200"))) ∅) None (bs "200") 200 BUntilClose h3_hello (bs "hello")
    eq_refl eq_refl eq_refl eq_refl eq_refl _ _ _ _).
  - vm_compute. reflexivity.
  - vm_compute. reflexivity.
  - vm_compute. done.
  - vm_compute. lia.
Defined.
