(* ===== verification/Pool.v ===== *)
(** * The connection pool of the client

    Models [src/ylong_http_client/src/async_impl/pool.rs] and [util/pool.rs]: which
    connection a request gets, when a new one is made, and how many there are.

    A request is a task that stops where the code awaits: for a permit of the
    semaphore, for the lock of the HTTP/2 or HTTP/3 connections, or for the
    connector.  What it does between two such places is a definition below, and an
    [Event] is that a task goes on, is dropped, or lets go of its connection, in
    any order.  The scan of [exist_h1_conn] is one event: it holds the mutex of
    the list, so no other task takes a connection meanwhile, and a connection that
    is freed behind its back could as well have been freed after it.  Semaphore
    and locks give their places back when a task is dropped; who is next is up to
    them.  Speed limits and times are left out.

    The theorem: however the requests of a key interleave, a connection of HTTP/1.1
    serves one request at a time, no more of them are open or being made than the
    configuration allows, and no permit and no lock is lost. *)

From stdpp Require Import gmap.
From S2P Require Import Prelude Uri Http1Conn AltSvc.
#[local] Open Scope Z_scope.

(** [Pool::get]. *)
Definition Pool_get {K V : Type} `{Countable K} (key : K) (create : V) (m : gmap K V) : gmap K V * V :=
  match m !! key with
  | Some conns => (m, conns)
  | None => (<[key := create]> m, create)
  end.

(** A dispatcher of HTTP/2 or HTTP/3: its two flags, that its tasks set. *)
Record Mux := mkMux { mux_shutdown : bool; mux_goaway : bool }.

(** Where a task stands. *)
Inductive Phase :=
  | AtPermit (negotiate : bool)      (** [usable.acquire()]; with the lock of HTTP/2 when it negotiates *)
  | AtConnect1 (negotiate : bool)    (** [connector.connect], with a permit *)
  | AtLock2 (negotiate : bool)       (** [h2_conn.lock()] *)
  | AtConnect2                       (** [connector.connect] of [conn_h2], with the lock *)
  | AtLock3 (alt : option (option (list AltService)))  (** [h3_conn.lock()], of [conn_h3] or [conn_alt_svc] *)
  | AtConnect3 (alt : bool)
  | Holding (d : Z)                  (** has the handle of a connection of HTTP/1.1 *)
  | Dropping                         (** has given it back, but not the permit *)
  | Sharing (d : Z)                  (** has a handle of HTTP/2 or HTTP/3 *)
  | Finished.

(** [Conns], the flags that its dispatchers share with the handles, and the tasks
    with what they connect to.  [next]: the number of the next dispatcher. *)
Record Conns := mkConns {
  usable : nat;
  h1_list : list Z;
  h2_conn : list Z;
  h3_conn : list Z;
  h2_lock : bool;
  h3_lock : bool;
  inners : gmap Z (Inner ());
  muxes : gmap Z Mux;
  next : Z;
  tasks : list (Uri * Phase) }.

Definition Conns_new (max_conn_num : nat) : Conns := mkConns max_conn_num [] [] [] false false ∅ ∅ 0 [].

Definition set_usable (x : nat) (s : Conns) : Conns :=
  mkConns x (h1_list s) (h2_conn s) (h3_conn s) (h2_lock s) (h3_lock s) (inners s) (muxes s) (next s) (tasks s).
Definition set_h1 (l : list Z) (x : gmap Z (Inner ())) (s : Conns) : Conns :=
  mkConns (usable s) l (h2_conn s) (h3_conn s) (h2_lock s) (h3_lock s) x (muxes s) (next s) (tasks s).
Definition set_h2 (l : list Z) (s : Conns) : Conns :=
  mkConns (usable s) (h1_list s) l (h3_conn s) (h2_lock s) (h3_lock s) (inners s) (muxes s) (next s) (tasks s).
Definition set_h3 (l : list Z) (s : Conns) : Conns :=
  mkConns (usable s) (h1_list s) (h2_conn s) l (h2_lock s) (h3_lock s) (inners s) (muxes s) (next s) (tasks s).
Definition set_h2_lock (x : bool) (s : Conns) : Conns :=
  mkConns (usable s) (h1_list s) (h2_conn s) (h3_conn s) x (h3_lock s) (inners s) (muxes s) (next s) (tasks s).
Definition set_h3_lock (x : bool) (s : Conns) : Conns :=
  mkConns (usable s) (h1_list s) (h2_conn s) (h3_conn s) (h2_lock s) x (inners s) (muxes s) (next s) (tasks s).
Definition set_muxes (x : gmap Z Mux) (s : Conns) : Conns :=
  mkConns (usable s) (h1_list s) (h2_conn s) (h3_conn s) (h2_lock s) (h3_lock s) (inners s) x (next s) (tasks s).
Definition set_next (x : Z) (s : Conns) : Conns :=
  mkConns (usable s) (h1_list s) (h2_conn s) (h3_conn s) (h2_lock s) (h3_lock s) (inners s) (muxes s) x (tasks s).
Definition set_tasks (x : list (Uri * Phase)) (s : Conns) : Conns :=
  mkConns (usable s) (h1_list s) (h2_conn s) (h3_conn s) (h2_lock s) (h3_lock s) (inners s) (muxes s) (next s) x.

(** ** Semaphore and locks *)

Definition drop_permit (s : Conns) : Conns := set_usable (S (usable s)) s.
(** The guard of the lock goes out of scope, in a task that has it. *)
Definition unlock_h2 (locked : bool) (s : Conns) : Conns := if locked then set_h2_lock false s else s.

(** ** HTTP/1.1 *)

(** The loop of [exist_h1_conn]: what stays in the list, and the handle. *)
Fixpoint exist_h1_scan (l : list Z) (conn : option Z) (m : gmap Z (Inner ())) : list Z * option Z * gmap Z (Inner ()) :=
  match l with
  | [] => ([], conn, m)
  | d :: l =>
      match m !! d with
      | None => exist_h1_scan l conn m
      | Some i =>
          if is_shutdown i then exist_h1_scan l conn m
          else
            let '(conn, m) :=
              match conn, dispatch i with
              | None, Some i => (Some d, <[d := i]> m)
              | _, _ => (conn, m)
              end in
            let '(l, conn, m) := exist_h1_scan l conn m in
            (d :: l, conn, m)
      end
  end.
Definition exist_h1_conn (s : Conns) : Conns * option Z :=
  let '(l, conn, m) := exist_h1_scan (h1_list s) None (inners s) in (set_h1 l m s, conn).

(** A new dispatcher, which is dispatched at once; the permit goes into the handle. *)
Definition dispatch_h1_conn (s : Conns) : Conns * Phase :=
  let d := next s in
  let i := Http1Dispatcher_new () in
  match dispatch i with
  | Some i => (set_next (d + 1) (set_h1 (h1_list s ++ [d]) (<[d := i]> (inners s)) s), Holding d)
  | None => (s, Finished)
  end.

(** What follows the permit, in [conn_h1] and in [conn_negotiate]. *)
Definition conn_h1_permit (negotiate : bool) (s : Conns) : Conns * Phase :=
  let '(s, conn) := exist_h1_conn s in
  match conn with
  | Some d => (unlock_h2 negotiate s, Holding d)
  | None => (s, AtConnect1 negotiate)
  end.

(** What a connector gives: the protocol of ALPN, and whether there is a QUIC connection. *)
Record Stream := mkStream { st_alpn : option bytes; st_quic : bool }.

Definition conn_h1_connected (r : option Stream) (s : Conns) : Conns * Phase :=
  match r with
  | None => (drop_permit s, Finished)
  | Some _ => dispatch_h1_conn s
  end.

(** ** HTTP/2 and HTTP/3 *)

(** The last dispatcher, [pop]ped and pushed back. *)
Definition exist_mux (m : gmap Z Mux) (l : list Z) : list Z * option Z :=
  match last l with
  | None => (l, None)
  | Some d =>
      match m !! d with
      | None => (l, None)
      | Some x =>
          if mux_shutdown x then (removelast l, None)
          else if negb (mux_goaway x) then (removelast l ++ [d], Some d)
          else (removelast l ++ [d], None)
      end
  end.
Definition exist_h2_conn (s : Conns) : Conns * option Z := let '(l, conn) := exist_mux (muxes s) (h2_conn s) in (set_h2 l s, conn).
Definition exist_h3_conn (s : Conns) : Conns * option Z := let '(l, conn) := exist_mux (muxes s) (h3_conn s) in (set_h3 l s, conn).

Definition new_mux (s : Conns) : Conns := set_next (next s + 1) (set_muxes (<[next s := mkMux false false]> (muxes s)) s).
Definition dispatch_h2_conn (s : Conns) : Conns * Phase := (set_h2 (h2_conn s ++ [next s]) (new_mux s), Sharing (next s)).
Definition dispatch_h3_conn (s : Conns) : Conns * Phase := (set_h3 (h3_conn s ++ [next s]) (new_mux s), Sharing (next s)).

(** With the lock: [conn_h2], and [conn_negotiate] of https. *)
Definition conn_h2_locked (negotiate : bool) (s : Conns) : Conns * Phase :=
  let '(s, conn) := exist_h2_conn s in
  match conn with
  | Some d => (set_h2_lock false s, Sharing d)
  | None => (s, if negotiate then AtPermit true else AtConnect2)
  end.

Definition conn_h2_connected (url : Uri) (r : option Stream) (s : Conns) : Conns * Phase :=
  let refused := (set_h2_lock false s, Finished) in
  match r with
  | None => refused
  | Some stream =>
      let tls := bool_decide (uri_scheme url = Some PHttps) in
      match st_alpn stream with
      | None => if tls then refused else let (s, p) := dispatch_h2_conn s in (set_h2_lock false s, p)
      | Some protocol => if negb (bool_decide (protocol = bs "h2")) then refused else let (s, p) := dispatch_h2_conn s in (set_h2_lock false s, p)
      end
  end.

(** [conn_negotiate], when it begins and when its stream is there. *)
Definition conn_negotiate (url : Uri) : Phase :=
  match uri_scheme url with Some PHttps => AtLock2 true | Some PHttp => AtPermit false | None => Finished end.
Definition conn_negotiate_connected (r : option Stream) (s : Conns) : Conns * Phase :=
  match r with
  | None => (set_h2_lock false (drop_permit s), Finished)
  | Some stream =>
      let protocol := default (bs "http/1.1") (st_alpn stream) in
      if bool_decide (protocol = bs "http/1.1") then
        let (s, p) := dispatch_h1_conn s in (set_h2_lock false s, p)
      else if bool_decide (protocol = bs "h2") then
        let (s, p) := dispatch_h2_conn (drop_permit s) in (set_h2_lock false s, p)
      else (set_h2_lock false (drop_permit s), Finished)
  end.

(** [conn_h3]. *)
Definition conn_h3_locked (s : Conns) : Conns * Phase :=
  let '(s, conn) := exist_h3_conn s in
  match conn with
  | Some d => (set_h3_lock false s, Sharing d)
  | None => (s, AtConnect3 false)
  end.
Definition conn_h3_connected (r : option Stream) (s : Conns) : Conns * Phase :=
  match r with
  | Some (mkStream _ true) => let (s, p) := dispatch_h3_conn s in (set_h3_lock false s, p)
  | _ => (set_h3_lock false s, Finished)
  end.

(** [conn_alt_svc]: a stream without QUIC is an [unwrap] of nothing; without a
    service, and when there is an error, the request negotiates. *)
Definition conn_alt_svc_locked (url : Uri) (alt_svcs : option (list AltService)) (s : Conns) : Conns * Phase :=
  let '(s, conn) := exist_h3_conn s in
  match conn with
  | Some d => (set_h3_lock false s, Sharing d)
  | None =>
      match alt_url url (default [] alt_svcs) with
      | Ok _ => (s, AtConnect3 true)
      | Err _ => (set_h3_lock false s, conn_negotiate url)
      | Panic => (set_h3_lock false s, Finished)
      end
  end.
Definition conn_alt_svc_connected (url : Uri) (r : option Stream) (s : Conns) : Conns * Phase :=
  match r with
  | None => (set_h3_lock false s, conn_negotiate url)
  | Some (mkStream _ true) => let (s, p) := dispatch_h3_conn s in (set_h3_lock false s, p)
  | Some (mkStream _ false) => (set_h3_lock false s, Finished)
  end.

(** [conn]: where a request begins. *)
Definition conn (version : HttpVersion) (alt_svc : option (list AltService)) : Phase :=
  match version with
  | Http3 => AtLock3 None
  | Http2 => AtLock2 false
  | Http1 => AtPermit false
  | Negotiate => AtLock3 (Some alt_svc)
  end.

(** ** What happens *)

Inductive Event :=
  | Acquired (i : nat) | Locked (i : nat) | Connected (i : nat) (r : option Stream)
  | Freed (i : nat) | PermitBack (i : nat) | Dropped (i : nat)
  | ShutDown1 (d : Z) | ShutDownMux (d : Z) | GoawayMux (d : Z).

(** The task [i] goes on. *)
Definition go_on (i : nat) (url : Uri) (x : Conns * Phase) : option Conns := Some (set_tasks (<[i := (url, x.2)]> (tasks x.1)) x.1).

(** [None]: this cannot happen now. *)
Definition acquired (i : nat) (s : Conns) : option Conns :=
  match tasks s !! i, usable s with
  | Some (url, AtPermit negotiate), S n => go_on i url (conn_h1_permit negotiate (set_usable n s))
  | _, _ => None
  end.
Definition locked (i : nat) (s : Conns) : option Conns :=
  match tasks s !! i with
  | Some (url, AtLock2 negotiate) => if h2_lock s then None else go_on i url (conn_h2_locked negotiate (set_h2_lock true s))
  | Some (url, AtLock3 None) => if h3_lock s then None else go_on i url (conn_h3_locked (set_h3_lock true s))
  | Some (url, AtLock3 (Some alt)) => if h3_lock s then None else go_on i url (conn_alt_svc_locked url alt (set_h3_lock true s))
  | _ => None
  end.
Definition connected (i : nat) (r : option Stream) (s : Conns) : option Conns :=
  match tasks s !! i with
  | Some (url, AtConnect1 false) => go_on i url (conn_h1_connected r s)
  | Some (url, AtConnect1 true) => go_on i url (conn_negotiate_connected r s)
  | Some (url, AtConnect2) => go_on i url (conn_h2_connected url r s)
  | Some (url, AtConnect3 false) => go_on i url (conn_h3_connected r s)
  | Some (url, AtConnect3 true) => go_on i url (conn_alt_svc_connected url r s)
  | _ => None
  end.
(** A handle of HTTP/1.1 is dropped: first [Drop for Http1Conn], then its field [sem]. *)
Definition freed (i : nat) (s : Conns) : option Conns :=
  match tasks s !! i with
  | Some (url, Holding d) => go_on i url (set_h1 (h1_list s) (alter conn_drop d (inners s)) s, Dropping)
  | _ => None
  end.
Definition permit_back (i : nat) (s : Conns) : option Conns :=
  match tasks s !! i with
  | Some (url, Dropping) => go_on i url (drop_permit s, Finished)
  | _ => None
  end.
(** A task is dropped while it waits. *)
Definition dropped (i : nat) (s : Conns) : option Conns :=
  match tasks s !! i with
  | Some (url, AtPermit negotiate) => go_on i url (unlock_h2 negotiate s, Finished)
  | Some (url, AtConnect1 negotiate) => go_on i url (unlock_h2 negotiate (drop_permit s), Finished)
  | Some (url, AtConnect2) => go_on i url (set_h2_lock false s, Finished)
  | Some (url, AtConnect3 _) => go_on i url (set_h3_lock false s, Finished)
  | Some (url, AtLock2 _) | Some (url, AtLock3 _) => go_on i url (s, Finished)
  | _ => None
  end.

Definition react (e : Event) (s : Conns) : option Conns :=
  match e with
  | Acquired i => acquired i s
  | Locked i => locked i s
  | Connected i r => connected i r s
  | Freed i => freed i s
  | PermitBack i => permit_back i s
  | Dropped i => dropped i s
  | ShutDown1 d => Some (set_h1 (h1_list s) (alter conn_shutdown d (inners s)) s)
  | ShutDownMux d => Some (set_muxes (alter (λ x, mkMux true (mux_goaway x)) d (muxes s)) s)
  | GoawayMux d => Some (set_muxes (alter (λ x, mkMux (mux_shutdown x) true) d (muxes s)) s)
  end.

(** ** The pool *)

Record ConnPool := mkConnPool { pool : gmap PoolKey Conns; alt_svcs : AltServiceMap; max_conn_num : nat; version : HttpVersion }.
Definition ConnPool_new (max_conn_num : nat) (version : HttpVersion) : ConnPool := mkConnPool ∅ ∅ max_conn_num version.

(** [PoolKey::new] of a URI. *)
Definition pool_key (uri : Uri) : result () PoolKey :=
  match uri_scheme uri, uri_authority uri with Some scheme, Some authority => Ok (scheme, authority) | _, _ => Panic end.

(** [connect_to], up to where it awaits. *)
Definition connect_to (now : Z) (uri : Uri) (p : ConnPool) : ConnPool * result () () :=
  match pool_key uri with
  | Ok key =>
      let '(alt_svcs, alt_svc) := get_alt_svcs now key (alt_svcs p) in
      let '(pool, conns) := Pool_get key (Conns_new (max_conn_num p)) (pool p) in
      let conns := set_tasks (tasks conns ++ [(uri, conn (version p) alt_svc)]) conns in
      (mkConnPool (<[key := conns]> pool) alt_svcs (max_conn_num p) (version p), Ok ())
  | _ => (p, Panic)
  end.

(** A request begins, something happens to the connections of a key, or the
    services change. *)
Inductive PoolEvent := Connect (now : Z) (uri : Uri) | At (key : PoolKey) (e : Event) | Services (m : AltServiceMap).
Definition pool_react (e : PoolEvent) (p : ConnPool) : option ConnPool :=
  match e with
  | Connect now uri => Some (connect_to now uri p).1
  | At key e =>
      match pool p !! key with
      | Some s => match react e s with Some s => Some (mkConnPool (<[key := s]> (pool p)) (alt_svcs p) (max_conn_num p) (version p)) | None => None end
      | None => None
      end
  | Services m => Some (mkConnPool (pool p) m (max_conn_num p) (version p))
  end.
Fixpoint pool_run (es : list PoolEvent) (p : ConnPool) : option ConnPool :=
  match es with
  | [] => Some p
  | e :: es => match pool_react e p with Some p => pool_run es p | None => None end
  end.

#[local] Open Scope nat_scope.
#[local] Arguments Nat.b2n : simpl never.

(** ** Counting *)

(** The sum of [f] over the tasks. *)
Fixpoint total (f : Phase → nat) (l : list (Uri * Phase)) : nat := match l with [] => 0 | x :: l => f x.2 + total f l end.

Lemma total_app f l k : total f (l ++ k) = total f l + total f k.
Proof. induction l as [|x l IH]; cbn; lia. Qed.

Lemma total_insert f l i x y : l !! i = Some x → total f (<[i := y]> l) + f x.2 = total f l + f y.2.
Proof.
  revert i. induction l as [|z l IH]; [done|]. intros [|i] H; cbn in H.
  - injection H as ->. cbn. lia.
  - specialize (IH i H). change (<[S i := y]> (z :: l)) with (z :: <[i := y]> l). cbn. lia.
Qed.

Lemma total_plus f g h l : (∀ p, f p = g p + h p) → total f l = total g l + total h l.
Proof. intros H. induction l as [|x l IH]; cbn; [done|]. rewrite H. lia. Qed.

Lemma total_pos f l : 0 < total f l → ∃ i x, l !! i = Some x ∧ 0 < f x.2.
Proof.
  induction l as [|x l IH]; cbn; [lia|]. intros H. destruct (decide (f x.2 = 0)) as [E|E].
  - destruct IH as (i & y & H1 & H2); [lia|]. by exists (S i), y.
  - exists 0, x. split; [done|lia].
Qed.

Lemma total_le f l i x : l !! i = Some x → f x.2 ≤ total f l.
Proof. revert i. induction l as [|z l IH]; [done|]. intros [|i] H; cbn in *; [injection H as ->; lia|]. specialize (IH i H). lia. Qed.

Lemma total_two f l i j x y : l !! i = Some x → l !! j = Some y → i ≠ j → f x.2 + f y.2 ≤ total f l.
Proof.
  revert i j. induction l as [|z l IH]; intros [|i] [|j] Hi Hj Hn; try done; cbn in *.
  - injection Hi as ->. pose proof (total_le f l j y Hj). lia.
  - injection Hj as ->. pose proof (total_le f l i x Hi). lia.
  - specialize (IH i j Hi Hj ltac:(lia)). lia.
Qed.

(** What a task has. *)
Definition has_permit (p : Phase) : nat := match p with AtConnect1 _ | Holding _ | Dropping => 1 | _ => 0 end.
Definition opening (p : Phase) : nat := match p with AtConnect1 _ => 1 | _ => 0 end.
Definition holding (p : Phase) : nat := match p with Holding _ => 1 | _ => 0 end.
Definition holds (d : Z) (p : Phase) : nat := match p with Holding d' => if decide (d' = d) then 1 else 0 | _ => 0 end.
Definition has_lock2 (p : Phase) : nat := match p with AtPermit true | AtConnect1 true | AtConnect2 => 1 | _ => 0 end.
Definition has_lock3 (p : Phase) : nat := match p with AtConnect3 _ => 1 | _ => 0 end.

(** The flags of a connection, and how many of a list are open. *)
Definition occupied (m : gmap Z (Inner ())) (d : Z) : bool := match m !! d with Some i => in_occupied i | None => false end.
Definition is_open (m : gmap Z (Inner ())) (d : Z) : bool := match m !! d with Some i => negb (is_shutdown i) | None => false end.
Definition open_of (m : gmap Z (Inner ())) (l : list Z) : list Z := filter (λ d, is_open m d = true) l.
#[local] Arguments open_of : simpl never.

Lemma open_of_same m m' l : (∀ d, d ∈ l → is_open m' d = is_open m d) → open_of m' l = open_of m l.
Proof.
  intros H. induction l as [|d l IH]; [done|]. unfold open_of in *. rewrite !filter_cons, H by set_solver.
  rewrite IH by (intros; apply H; set_solver). done.
Qed.

(** So many connections are occupied as tasks hold one. *)
Fixpoint held_by (k : list Z) (p : Phase) : nat := match k with [] => 0 | d :: k => holds d p + held_by k p end.
Lemma held_by_none k d : d ∉ k → held_by k (Holding d) = 0.
Proof. induction k as [|e k IH]; intros H; [done|]. cbn. rewrite decide_False by set_solver. apply IH. set_solver. Qed.
Lemma held_by_le k p : NoDup k → held_by k p ≤ holding p.
Proof.
  induction 1 as [|d k Hd Hk IH]; cbn; [lia|]. destruct p; cbn in *; try exact IH.
  destruct (decide _) as [->|]; [|exact IH]. rewrite held_by_none by done. lia.
Qed.

Lemma total_held k l : (∀ d, d ∈ k → 1 ≤ total (holds d) l) → length k ≤ total (held_by k) l.
Proof.
  induction k as [|d k IH]; intros H; cbn [length]; [lia|]. rewrite (total_plus _ (holds d) (held_by k)) by done.
  pose proof (H d ltac:(set_solver)). assert (length k ≤ total (held_by k) l) by (apply IH; intros; apply H; set_solver). lia.
Qed.

Lemma holders_enough k l : NoDup k → (∀ d, d ∈ k → 1 ≤ total (holds d) l) → length k ≤ total holding l.
Proof.
  intros Hk H. etrans; [apply (total_held k l H)|]. clear H. induction l as [|x l IH]; cbn; [lia|]. pose proof (held_by_le k x.2 Hk). lia.
Qed.

(** ** The invariant *)

Record wf (s : Conns) : Prop := {
  wf_nodup : NoDup (h1_list s);
  wf_known : ∀ d, d ∈ h1_list s → is_Some (inners s !! d);
  wf_fresh : ∀ d, (next s ≤ d)%Z → inners s !! d = None }.

Record Inv (max : nat) (s : Conns) : Prop := {
  inv_wf : wf s;
  inv_permits : usable s + total has_permit (tasks s) = max;
  inv_lock2 : total has_lock2 (tasks s) = Nat.b2n (h2_lock s);
  inv_lock3 : total has_lock3 (tasks s) = Nat.b2n (h3_lock s);
  inv_held : ∀ d, total (holds d) (tasks s) = Nat.b2n (occupied (inners s) d);
  inv_open : length (open_of (inners s) (h1_list s)) + total opening (tasks s) ≤ max }.

Lemma inv_start max : Inv max (Conns_new max).
Proof. split; [split|..]; cbn; try done; try lia; [by apply NoDup_nil|set_solver|]. unfold open_of. cbn. lia. Qed.

(** A request begins. *)
Lemma inv_begin max s url v alt : Inv max s → Inv max (set_tasks (tasks s ++ [(url, conn v alt)]) s).
Proof.
  intros [Hw H1 H2 H3 H4 H5].
  assert (∀ f, f (conn v alt) = 0 → total f (tasks s ++ [(url, conn v alt)]) = total f (tasks s)) as Ht by (intros f Hf; rewrite total_app; cbn; lia).
  split; cbn; [by destruct Hw|rewrite Ht; [lia|by destruct v]..| |rewrite Ht; [lia|by destruct v]].
  intros d. rewrite Ht; [done|by destruct v].
Qed.

(** The task [i] goes from [p] to [q], the rest from [s] to [s']. *)
Lemma inv_go max i url p q s s' :
  Inv max s → tasks s !! i = Some (url, p) → tasks s' = tasks s → wf s' →
  usable s' + has_permit q = usable s + has_permit p →
  Nat.b2n (h2_lock s') + has_lock2 p = Nat.b2n (h2_lock s) + has_lock2 q →
  Nat.b2n (h3_lock s') + has_lock3 p = Nat.b2n (h3_lock s) + has_lock3 q →
  (∀ d, Nat.b2n (occupied (inners s') d) + holds d p = Nat.b2n (occupied (inners s) d) + holds d q) →
  length (open_of (inners s') (h1_list s')) + total opening (tasks s) + opening q ≤ max + opening p →
  ∀ s2, go_on i url (s', q) = Some s2 → Inv max s2.
Proof.
  intros [Hw H1 H2 H3 H4 H5] Hi Ht Hw' Hp Hl2 Hl3 Hh Ho s2 Hs. unfold go_on in Hs. cbn in Hs. injection Hs as <-. rewrite Ht.
  assert (∀ f, total f (<[i := (url, q)]> (tasks s)) + f p = total f (tasks s) + f q) as Hf by (intros f; apply (total_insert f _ _ _ (url, q) Hi)).
  split; cbn; [by destruct Hw'| | | | |].
  - specialize (Hf has_permit). lia.
  - specialize (Hf has_lock2). lia.
  - specialize (Hf has_lock3). lia.
  - intros d. specialize (Hf (holds d)). specialize (Hh d). specialize (H4 d). lia.
  - specialize (Hf opening). lia.
Qed.

(** Nothing happens to the connections of HTTP/1.1. *)
Definition same_h1 (s s' : Conns) : Prop := tasks s' = tasks s ∧ h1_list s' = h1_list s ∧ inners s' = inners s ∧ (next s ≤ next s')%Z.

Lemma same_wf s s' : same_h1 s s' → wf s → wf s'.
Proof. intros (_ & H1 & H2 & H3) [W1 W2 W3]. split; rewrite ?H1, ?H2; try done. intros d Hd. apply W3. lia. Qed.

Lemma inv_calm max i url p q s s' :
  Inv max s → tasks s !! i = Some (url, p) → same_h1 s s' →
  usable s' + has_permit q = usable s + has_permit p →
  Nat.b2n (h2_lock s') + has_lock2 p = Nat.b2n (h2_lock s) + has_lock2 q →
  Nat.b2n (h3_lock s') + has_lock3 p = Nat.b2n (h3_lock s) + has_lock3 q →
  holding p = 0 → holding q = 0 → opening q ≤ opening p →
  ∀ s2, go_on i url (s', q) = Some s2 → Inv max s2.
Proof.
  intros I Hi Hs Hp Hl2 Hl3 Hhp Hhq Ho. pose proof I as [Hw _ _ _ _ H5]. pose proof Hs as (Ht & H1 & H2 & H3).
  apply (inv_go max i url p q s s'); [done|done|done|by apply (same_wf s)|done|done|done| |rewrite H1, H2; lia].
  intros d. rewrite H2. destruct p, q; done.
Qed.

(** ** Connections of HTTP/1.1 *)

Definition occupy (i : Inner ()) : Inner () := mkInner (in_io i) true (in_shutdown i).

Lemma is_open_occupy m d i e : m !! d = Some i → is_open (<[d := occupy i]> m) e = is_open m e.
Proof.
  intros H. unfold is_open. destruct (decide (e = d)) as [->|Hn]; [by rewrite lookup_insert_eq, H|by rewrite lookup_insert_ne].
Qed.

Lemma open_cons m d l : open_of m (d :: l) = if is_open m d then d :: open_of m l else open_of m l.
Proof. unfold open_of. rewrite filter_cons. by destruct (is_open m d). Qed.

(** The scan keeps the open connections, and takes the first idle one. *)
Lemma scan_taken l m d : (∀ e, e ∈ l → is_Some (m !! e)) → exist_h1_scan l (Some d) m = (open_of m l, Some d, m).
Proof.
  induction l as [|e l IH]; intros H; [done|]. cbn [exist_h1_scan]. destruct (H e ltac:(set_solver)) as [i Hi]. rewrite Hi, open_cons.
  unfold is_open at 1. rewrite Hi. unfold is_shutdown in *. rewrite IH by (intros; apply H; set_solver). by destruct (in_shutdown i).
Qed.

Lemma scan_idle l m : (∀ e, e ∈ l → is_Some (m !! e)) →
  (exist_h1_scan l None m = (open_of m l, None, m) ∧ ∀ e, e ∈ open_of m l → occupied m e = true) ∨
  ∃ d i, exist_h1_scan l None m = (open_of m l, Some d, <[d := occupy i]> m) ∧ d ∈ open_of m l ∧ m !! d = Some i ∧ in_occupied i = false.
Proof.
  induction l as [|e l IH]; intros H; [left; split; [done|set_solver]|]. cbn [exist_h1_scan]. destruct (H e ltac:(set_solver)) as [i Hi].
  specialize (IH ltac:(intros; apply H; set_solver)). assert (is_open m e = negb (is_shutdown i)) as Hop by (unfold is_open; by rewrite Hi). rewrite Hi, open_cons, Hop. unfold is_shutdown.
  destruct (in_shutdown i) eqn:Hs; cbn [negb]; [exact IH|]. unfold dispatch. destruct (in_occupied i) eqn:Ho.
  - destruct IH as [[-> Hocc]|(d & j & -> & Hd & Hj & Hoj)].
    + left. split; [done|]. intros e' [->|He]%elem_of_cons; [unfold occupied; by rewrite Hi|by apply Hocc].
    + right. exists d, j. split; [done|]. split; [set_solver|done].
  - right. exists e, i. change (mkInner (in_io i) true (in_shutdown i)) with (occupy i). rewrite scan_taken.
    + rewrite (open_of_same m) by (intros; by apply is_open_occupy). split; [done|]. split; [apply elem_of_cons; by left|done].
    + intros e' He. destruct (decide (e' = e)) as [->|Hn]; [rewrite lookup_insert_eq; by eexists|rewrite lookup_insert_ne by done; apply H, elem_of_cons; by right].
Qed.

(** ** What happens keeps the invariant *)

Lemma occupied_insert m d i e : occupied (<[d := i]> m) e = if decide (d = e) then in_occupied i else occupied m e.
Proof. unfold occupied. destruct (decide (d = e)) as [->|Hn]; [by rewrite lookup_insert_eq|by rewrite lookup_insert_ne]. Qed.

(** The flags of one connection change. *)
Lemma occupied_alter f m d e : (∀ i, in_occupied (f i) = in_occupied i) → occupied (alter f d m) e = occupied m e.
Proof.
  intros Hf. unfold occupied. destruct (decide (d = e)) as [->|Hn]; [|by rewrite lookup_alter_ne].
  rewrite lookup_alter_eq. by destruct (m !! e) as [i|]; cbn; rewrite ?Hf.
Qed.

Lemma wf_scan s m : wf s → (∀ e, is_Some (m !! e) ↔ is_Some (inners s !! e)) → wf (set_h1 (open_of (inners s) (h1_list s)) m s).
Proof.
  intros [W1 W2 W3] Hm. split; cbn.
  - by apply NoDup_filter.
  - intros d Hd. apply Hm, W2. by apply list_elem_of_filter in Hd as [_ ?].
  - intros d Hd. apply eq_None_not_Some. rewrite Hm, W3 by done. by intros [? ?].
Qed.

Lemma open_twice m l : open_of m (open_of m l) = open_of m l.
Proof. induction l as [|d l IH]; [done|]. rewrite open_cons. destruct (is_open m d) eqn:E; [|exact IH]. by rewrite open_cons, E, IH. Qed.

Lemma permits_split p : has_permit p = opening p + (holding p + (match p with Dropping => 1 | _ => 0 end)).
Proof. by destruct p. Qed.

(** Every open connection is in use: there is room for one more. *)
Lemma room_for_one max s k : Inv max s → usable s = S k → (∀ d, d ∈ open_of (inners s) (h1_list s) → occupied (inners s) d = true) →
  length (open_of (inners s) (h1_list s)) + total opening (tasks s) + 1 ≤ max.
Proof.
  intros [Hw H1 _ _ H4 _] Hk Hocc.
  assert (length (open_of (inners s) (h1_list s)) ≤ total holding (tasks s)) as H.
  { apply holders_enough; [apply NoDup_filter, Hw|]. intros d Hd. by rewrite H4, Hocc. }
  rewrite (total_plus has_permit opening _ _ permits_split), (total_plus _ holding _ _ (λ p, eq_refl)) in H1.
  lia.
Qed.

(** Who has a lock, has locked it. *)
Lemma lock2_held max s i url p : Inv max s → tasks s !! i = Some (url, p) → has_lock2 p = 1 → h2_lock s = true.
Proof.
  intros I Hi Hp. pose proof (inv_lock2 max s I) as H. pose proof (total_le has_lock2 _ _ _ Hi) as Hl. cbn [snd] in Hl. rewrite H, Hp in Hl.
  destruct (h2_lock s); [done|]. unfold Nat.b2n in Hl. lia.
Qed.
Lemma lock3_held max s i url p : Inv max s → tasks s !! i = Some (url, p) → has_lock3 p = 1 → h3_lock s = true.
Proof.
  intros I Hi Hp. pose proof (inv_lock3 max s I) as H. pose proof (total_le has_lock3 _ _ _ Hi) as Hl. cbn [snd] in Hl. rewrite H, Hp in Hl.
  destruct (h3_lock s); [done|]. unfold Nat.b2n in Hl. lia.
Qed.

Lemma inv_acquired max i s s2 : Inv max s → acquired i s = Some s2 → Inv max s2.
Proof.
  intros I. unfold acquired. destruct (tasks s !! i) as [[url p]|] eqn:Hi; [|done]. destruct p as [n| | | | | | | | |]; try done.
  destruct (usable s) as [|k] eqn:Hk; [done|]. unfold conn_h1_permit, exist_h1_conn. cbn [h1_list inners set_usable].
  pose proof I as [Hw _ _ _ _ H5]. destruct (scan_idle (h1_list s) (inners s) (wf_known s Hw)) as [[-> Hocc]|(d & j & -> & Hd & Hj & Hoj)].
  - refine (inv_go max i url (AtPermit n) _ s _ I Hi _ _ _ _ _ _ _ s2); cbn; try done; try lia; [|].
    + destruct (wf_scan s (inners s) Hw ltac:(done)) as [W1 W2 W3]. by split.
    + rewrite open_twice. pose proof (room_for_one max s k I Hk Hocc). lia.
  - set (s1 := set_h1 (open_of (inners s) (h1_list s)) (<[d := occupy j]> (inners s)) (set_usable k s)).
    assert (wf s1) as Hw1.
    { destruct (wf_scan s (<[d := occupy j]> (inners s)) Hw) as [W1 W2 W3]; [|by split]. intros e.
      destruct (decide (e = d)) as [->|Hn]; [rewrite lookup_insert_eq, Hj|by rewrite lookup_insert_ne]. split; by eexists. }
    assert (inners (unlock_h2 n s1) = inners s1 ∧ h1_list (unlock_h2 n s1) = h1_list s1 ∧ usable (unlock_h2 n s1) = k) as (E1 & E2 & E3) by (by destruct n).
    refine (inv_go max i url (AtPermit n) (Holding d) s (unlock_h2 n s1) I Hi _ _ _ _ _ _ _ s2); rewrite ?E1, ?E2, ?E3; cbn; try (by destruct n); try lia.
    + destruct Hw1. by destruct n.
    + destruct n; [|done]. by rewrite (lock2_held max s i url (AtPermit true)).
    + intros e. rewrite occupied_insert. unfold occupied. destruct (decide (d = e)) as [<-|Hn]; [|lia]. by rewrite Hj, Hoj.
    + rewrite (open_of_same (inners s)) by (intros; by apply is_open_occupy). rewrite open_twice. lia.
Qed.

Lemma is_open_fresh m d i e : m !! d = None → is_open (<[d := i]> m) e = if decide (d = e) then negb (is_shutdown i) else is_open m e.
Proof. intros H. unfold is_open. destruct (decide (d = e)) as [->|Hn]; [by rewrite lookup_insert_eq|by rewrite lookup_insert_ne]. Qed.

(** A new connection of HTTP/1.1, in a state [s'] that has the connections of [s]. *)
Lemma new_h1_wf s : wf s → wf (dispatch_h1_conn s).1.
Proof.
  intros [W1 W2 W3]. split; cbn.
  - apply NoDup_app. split; [done|]. split; [|apply NoDup_singleton]. intros d Hd Hn. apply list_elem_of_singleton in Hn as ->. apply W2 in Hd as [? Hd]. by rewrite W3 in Hd.
  - intros d [Hd|Hd]%elem_of_app; [|apply list_elem_of_singleton in Hd as ->; rewrite lookup_insert_eq; by eexists].
    destruct (decide (d = next s)) as [->|Hn]; [rewrite lookup_insert_eq; by eexists|rewrite lookup_insert_ne by done; by apply W2].
  - intros d Hd. rewrite lookup_insert_ne by lia. apply W3. lia.
Qed.

Lemma new_h1_open s : wf s → length (open_of (inners (dispatch_h1_conn s).1) (h1_list (dispatch_h1_conn s).1)) = S (length (open_of (inners s) (h1_list s))).
Proof.
  intros [W1 W2 W3]. cbn. unfold open_of at 1. rewrite filter_app, length_app. change (filter _ (h1_list s)) with (open_of (<[next s := mkInner () true false]> (inners s)) (h1_list s)).
  rewrite (open_of_same (inners s)).
  - rewrite filter_cons_True; [cbn; lia|]. by rewrite is_open_fresh, decide_True by auto with lia.
  - intros d Hd. rewrite is_open_fresh by (apply W3; lia). rewrite decide_False; [done|]. intros <-. apply W2 in Hd as [? Hd]. by rewrite W3 in Hd.
Qed.

Lemma inv_new_h1 max i url b s : Inv max s → tasks s !! i = Some (url, AtConnect1 b) →
  ∀ s2, go_on i url (unlock_h2 b (dispatch_h1_conn s).1, Holding (next s)) = Some s2 → Inv max s2.
Proof.
  intros I Hi s2. pose proof I as [Hw _ _ _ _ H5]. pose proof (new_h1_wf s Hw) as Hw1. pose proof (new_h1_open s Hw) as Ho.
  set (s1 := (dispatch_h1_conn s).1) in *.
  assert (inners (unlock_h2 b s1) = inners s1 ∧ h1_list (unlock_h2 b s1) = h1_list s1 ∧ usable (unlock_h2 b s1) = usable s) as (E1 & E2 & E3) by (by destruct b).
  apply (inv_go max i url (AtConnect1 b) (Holding (next s)) s (unlock_h2 b s1) I Hi); rewrite ?E1, ?E2, ?E3, ?Ho; cbn; try (by destruct b); try lia.
  - destruct Hw1. by destruct b.
  - destruct b; [|done]. by rewrite (lock2_held max s i url (AtConnect1 true)).
  - intros e. rewrite occupied_insert. unfold occupied. cbn. destruct (decide (next s = e)) as [<-|Hn]; [|lia].
    by rewrite (wf_fresh s Hw).
Qed.

(** The rest of the events do nothing to these connections, but for the permit. *)
Ltac calm I Hi :=
  eapply (inv_calm _ _ _ _ _ _ _ I Hi); cbn; rewrite ?(lock2_held _ _ _ _ _ I Hi eq_refl), ?(lock3_held _ _ _ _ _ I Hi eq_refl); try done; try lia;
  try (unfold same_h1; cbn; split_and!; done || lia).

Lemma inv_connected max i r s s2 : Inv max s → connected i r s = Some s2 → Inv max s2.
Proof.
  intros I. unfold connected. destruct (tasks s !! i) as [[url p]|] eqn:Hi; [|done]. destruct p as [|[]| | | |[]| | | |]; try done.
  - unfold conn_negotiate_connected. destruct r as [[alpn quic]|]; cbn [st_alpn]; [|calm I Hi].
    case_bool_decide; [exact (inv_new_h1 max i url true s I Hi s2)|]. case_bool_decide; calm I Hi.
  - unfold conn_h1_connected. destruct r as [st|]; [exact (inv_new_h1 max i url false s I Hi s2)|calm I Hi].
  - unfold conn_h2_connected. destruct r as [[alpn quic]|]; [|calm I Hi]. cbn [st_alpn].
    destruct alpn as [protocol|]; case_bool_decide; cbn [negb]; calm I Hi.
  - unfold conn_alt_svc_connected, conn_negotiate. destruct r as [[alpn []]|]; [calm I Hi|calm I Hi|].
    destruct (uri_scheme url) as [[]|]; calm I Hi.
  - unfold conn_h3_connected. destruct r as [[alpn []]|]; calm I Hi.
Qed.

Lemma exist_h2_same s : same_h1 s (exist_h2_conn s).1 ∧ usable (exist_h2_conn s).1 = usable s ∧ h2_lock (exist_h2_conn s).1 = h2_lock s ∧ h3_lock (exist_h2_conn s).1 = h3_lock s.
Proof. unfold exist_h2_conn, same_h1. destruct (exist_mux (muxes s) (h2_conn s)). cbn. split_and!; done || lia. Qed.
Lemma exist_h3_same s : same_h1 s (exist_h3_conn s).1 ∧ usable (exist_h3_conn s).1 = usable s ∧ h2_lock (exist_h3_conn s).1 = h2_lock s ∧ h3_lock (exist_h3_conn s).1 = h3_lock s.
Proof. unfold exist_h3_conn, same_h1. destruct (exist_mux (muxes s) (h3_conn s)). cbn. split_and!; done || lia. Qed.

Lemma inv_locked max i s s2 : Inv max s → locked i s = Some s2 → Inv max s2.
Proof.
  intros I. unfold locked. destruct (tasks s !! i) as [[url p]|] eqn:Hi; [|done]. destruct p as [| |n| |[alt|]| | | | |]; try done.
  - destruct (h2_lock s) eqn:Hl; [done|]. unfold conn_h2_locked. pose proof (exist_h2_same (set_h2_lock true s)) as H.
    destruct (exist_h2_conn (set_h2_lock true s)) as [s1 [d|]]; cbn in H; destruct H as ((H1 & H2 & H3 & H4) & H5 & H6 & H7);
      [|destruct n]; eapply (inv_calm _ _ _ _ _ _ _ I Hi); cbn; rewrite ?H5, ?H6, ?H7, ?Hl; done.
  - destruct (h3_lock s) eqn:Hl; [done|]. unfold conn_alt_svc_locked, conn_negotiate. pose proof (exist_h3_same (set_h3_lock true s)) as H.
    destruct (exist_h3_conn (set_h3_lock true s)) as [s1 [d|]]; cbn in H; destruct H as ((H1 & H2 & H3 & H4) & H5 & H6 & H7);
      [|destruct (alt_url url (default [] alt)); [|destruct (uri_scheme url) as [[]|]|]];
      eapply (inv_calm _ _ _ _ _ _ _ I Hi); cbn; rewrite ?H5, ?H6, ?H7, ?Hl; done.
  - destruct (h3_lock s) eqn:Hl; [done|]. unfold conn_h3_locked. pose proof (exist_h3_same (set_h3_lock true s)) as H.
    destruct (exist_h3_conn (set_h3_lock true s)) as [s1 [d|]]; cbn in H; destruct H as ((H1 & H2 & H3 & H4) & H5 & H6 & H7);
      eapply (inv_calm _ _ _ _ _ _ _ I Hi); cbn; rewrite ?H5, ?H6, ?H7, ?Hl; done.
Qed.

Lemma inv_dropped max i s s2 : Inv max s → dropped i s = Some s2 → Inv max s2.
Proof.
  intros I. unfold dropped. destruct (tasks s !! i) as [[url p]|] eqn:Hi; [|done]. destruct p as [[]|[]| | | | | | | |]; try done; calm I Hi.
Qed.

Lemma inv_permit_back max i s s2 : Inv max s → permit_back i s = Some s2 → Inv max s2.
Proof.
  intros I. unfold permit_back. destruct (tasks s !! i) as [[url p]|] eqn:Hi; [|done]. destruct p; try done; calm I Hi.
Qed.

(** The flags of a connection change, but it is not opened again. *)
Lemma is_open_alter f m d e : is_open (alter f d m) e = if decide (d = e) then (match m !! e with Some i => negb (is_shutdown (f i)) | None => false end) else is_open m e.
Proof.
  unfold is_open. destruct (decide (d = e)) as [->|Hn]; [|by rewrite lookup_alter_ne]. rewrite lookup_alter_eq. by destruct (m !! e).
Qed.

Lemma wf_alter f d s : wf s → wf (set_h1 (h1_list s) (alter f d (inners s)) s).
Proof.
  intros [W1 W2 W3]. split; cbn; [done| |].
  - intros e He. apply W2 in He as [i He]. destruct (decide (d = e)) as [->|Hn]; [rewrite lookup_alter_eq, He|rewrite lookup_alter_ne, He by done]; by eexists.
  - intros e He. apply W3 in He. destruct (decide (d = e)) as [->|Hn]; [by rewrite lookup_alter_eq, He|by rewrite lookup_alter_ne].
Qed.

Lemma inv_freed max i s s2 : Inv max s → freed i s = Some s2 → Inv max s2.
Proof.
  intros I. unfold freed. destruct (tasks s !! i) as [[url p]|] eqn:Hi; [|done]. destruct p as [| | | | | |d| | |]; try done.
  pose proof I as [Hw _ _ _ H4 H5].
  apply (inv_go max i url (Holding d) Dropping s _ I Hi); cbn; try done; try lia; [by apply wf_alter| |].
  - intros e. unfold occupied. destruct (decide (d = e)) as [<-|Hn]; [|by rewrite lookup_alter_ne]. rewrite lookup_alter_eq.
    pose proof (total_le (holds d) _ _ _ Hi) as Hle. cbn in Hle. rewrite decide_True in Hle by done. rewrite H4 in Hle. unfold occupied in Hle.
    destruct (inners s !! d) as [j|]; cbn; [|unfold Nat.b2n in Hle; lia]. by destruct (in_occupied j); unfold Nat.b2n in *; lia.
  - rewrite (open_of_same (inners s)); [lia|]. intros e He. rewrite is_open_alter. unfold is_open. destruct (decide (d = e)); [|done]. by destruct (inners s !! e).
Qed.

Lemma open_of_le m m' l : (∀ d, is_open m' d = true → is_open m d = true) → length (open_of m' l) ≤ length (open_of m l).
Proof.
  intros H. induction l as [|d l IH]; [done|]. rewrite !open_cons. destruct (is_open m' d) eqn:E; [rewrite (H d E); cbn; lia|].
  destruct (is_open m d); cbn; lia.
Qed.

Lemma inv_react max e s s2 : Inv max s → react e s = Some s2 → Inv max s2.
Proof.
  intros I. destruct e; cbn [react].
  - by apply inv_acquired.
  - by apply inv_locked.
  - by apply inv_connected.
  - by apply inv_freed.
  - by apply inv_permit_back.
  - by apply inv_dropped.
  - intros [= <-]. destruct I as [Hw H1 H2 H3 H4 H5]. split; cbn; try done; [by apply wf_alter| |].
    + intros e. by rewrite H4, occupied_alter.
    + pose proof (open_of_le (inners s) (alter conn_shutdown d (inners s)) (h1_list s)) as H. etrans; [|exact H5].
      apply Nat.add_le_mono_r, H. intros e. rewrite is_open_alter. destruct (decide (d = e)); [|done]. by destruct (inners s !! e).
  - intros [= <-]. destruct I as [[W1 W2 W3] H1 H2 H3 H4 H5]. by split.
  - intros [= <-]. destruct I as [[W1 W2 W3] H1 H2 H3 H4 H5]. by split.
Qed.

(** ** The whole pool *)

Definition pool_ok (max : nat) (p : ConnPool) : Prop := max_conn_num p = max ∧ map_Forall (λ _ s, Inv max s) (pool p).

Lemma pool_react_ok max e p p2 : pool_ok max p → pool_react e p = Some p2 → pool_ok max p2.
Proof.
  intros [Hm Hp]. destruct e as [now uri|key e|m]; cbn [pool_react].
  - intros [= <-]. unfold connect_to. destruct (pool_key uri) as [key| |]; [|done|done].
    destruct (get_alt_svcs now key (alt_svcs p)) as [svcs svc]. unfold Pool_get. rewrite Hm.
    destruct (pool p !! key) as [s|] eqn:E; (split; [done|]); cbn [pool]; apply map_Forall_insert_2; try apply map_Forall_insert_2; try done; try apply inv_begin;
      [by apply (Hp key)|apply inv_start..].
  - destruct (pool p !! key) as [s|] eqn:E; [|done]. destruct (react e s) as [s2|] eqn:Er; [|done]. intros [= <-].
    split; [done|]. cbn. apply map_Forall_insert_2; [|done]. by apply (inv_react max e s); [apply (Hp key)|].
  - by intros [= <-].
Qed.

Lemma pool_run_ok max es p p2 : pool_ok max p → pool_run es p = Some p2 → pool_ok max p2.
Proof.
  revert p. induction es as [|e es IH]; intros p Hp; cbn [pool_run]; [by intros [= <-]|].
  destruct (pool_react e p) as [p1|] eqn:E; [|done]. apply IH. by apply (pool_react_ok max e p).
Qed.

(** A task that waits for a permit or a lock, and one that waits for nothing of the pool. *)
Definition waits (p : Phase) : bool := match p with AtPermit _ | AtLock2 _ | AtLock3 _ => true | _ => false end.
Definition busy (p : Phase) : bool := match p with AtConnect1 _ | AtConnect2 | AtConnect3 _ | Holding _ | Dropping => true | _ => false end.

(** Who takes what another one waits for goes on, or waits for nothing of the pool. *)
Lemma someone_goes_on max s i url p : 0 < max → Inv max s → tasks s !! i = Some (url, p) → waits p = true →
  ∃ j uj q, tasks s !! j = Some (uj, q) ∧ (busy q = true ∨ is_Some (react (Acquired j) s) ∨ is_Some (react (Locked j) s)).
Proof.
  intros Hmax I Hi Hw. pose proof I as [_ H1 H2 H3 _ _].
  assert (∀ j uj n, tasks s !! j = Some (uj, AtPermit n) → ∃ j uj q, tasks s !! j = Some (uj, q) ∧ (busy q = true ∨ is_Some (react (Acquired j) s) ∨ is_Some (react (Locked j) s))) as Hpermit.
  { intros j uj n Hj. destruct (usable s) as [|k] eqn:Hk.
    - destruct (total_pos has_permit (tasks s)) as (k & [uk q] & Hq & Hh); [lia|]. exists k, uk, q. split; [done|left]. by destruct q; cbn in Hh; try lia.
    - exists j, uj, (AtPermit n). split; [done|]. right; left. cbn [react]. unfold acquired, go_on. rewrite Hj, Hk. by eexists. }
  destruct p as [n| |n| |alt| | | | |]; try done; [by eapply Hpermit| |].
  - destruct (h2_lock s) eqn:Hl.
    + destruct (total_pos has_lock2 (tasks s)) as (k & [uk q] & Hq & Hh); [rewrite H2; apply Nat.lt_0_1|]. cbn in Hh. destruct q as [[]|[]| | | | | | | |]; cbn in Hh; try lia.
      * by eapply Hpermit.
      * by exists k, uk, (AtConnect1 true); auto.
      * by exists k, uk, AtConnect2; auto.
    + exists i, url, (AtLock2 n). split; [done|]. right; right. cbn [react]. unfold locked, go_on. rewrite Hi, Hl. by eexists.
  - destruct (h3_lock s) eqn:Hl.
    + destruct (total_pos has_lock3 (tasks s)) as (k & [uk q] & Hq & Hh); [rewrite H3; apply Nat.lt_0_1|]. cbn in Hh. destruct q; cbn in Hh; try lia.
      exists k, uk, (AtConnect3 alt0). by auto.
    + exists i, url, (AtLock3 alt). split; [done|]. right; right. cbn [react]. unfold locked, go_on. rewrite Hi. destruct alt; rewrite Hl; by eexists.
Qed.

(** C23: In whatever order the requests of a client get permits, locks, connections
    and errors, are dropped, and let go of what they have, for each origin: a
    connection of HTTP/1.1 is in the hands of one request at most; the permits
    add up to the configured number; so many connections at most are open or
    being made; and when a request waits for a permit or a lock, there is one that
    can go on or that waits for nothing of the pool. *)
Theorem pool_safe (max : nat) (version : HttpVersion) (es : list PoolEvent) (p : ConnPool) (key : PoolKey) (s : Conns)
    (Hrun : pool_run es (ConnPool_new max version) = Some p) (Hs : pool p !! key = Some s) :
  (∀ i j ui uj d, tasks s !! i = Some (ui, Holding d) → tasks s !! j = Some (uj, Holding d) → i = j) ∧
  usable s + total has_permit (tasks s) = max ∧
  length (open_of (inners s) (h1_list s)) + total opening (tasks s) ≤ max ∧
  (∀ i url ph, 0 < max → tasks s !! i = Some (url, ph) → waits ph = true →
    ∃ j uj q, tasks s !! j = Some (uj, q) ∧ (busy q = true ∨ is_Some (react (Acquired j) s) ∨ is_Some (react (Locked j) s))).
Proof.
  assert (Inv max s) as I by (apply (pool_run_ok max es (ConnPool_new max version) p) in Hrun as [_ H]; [by apply (H key)|by split]).
  split; [|split; [apply I|split; [apply I|intros i url ph Hm Hi Hw; by eapply someone_goes_on]]].
  intros i j ui uj d Hi Hj. destruct (decide (i = j)) as [|Hn]; [done|]. pose proof (total_two (holds d) _ _ _ _ _ Hi Hj Hn) as H.
  cbn in H. rewrite decide_True in H by done. rewrite (inv_held max s I d) in H. destruct (occupied (inners s) d); unfold Nat.b2n in H; lia.
Qed.

(** ** Examples *)

Definition pool_uri (scheme : Protocol) : Uri := mkUri (Some scheme) (Some (mkAuthority (bs "a.org") None)) None None.
Definition pool_key_of (scheme : Protocol) : PoolKey := (scheme, mkAuthority (bs "a.org") None).
Definition h1_stream : Stream := mkStream None false.
Definition h2_stream : Stream := mkStream (Some (bs "h2")) false.

Definition pool_after (max : nat) (v : HttpVersion) (scheme : Protocol) (es : list PoolEvent) : option Conns :=
  match pool_run es (ConnPool_new max v) with Some p => pool p !! pool_key_of scheme | None => None end.
Definition begin (scheme : Protocol) : PoolEvent := Connect 0 (pool_uri scheme).

(** With one permit the second request waits for the first one, and gets its connection. *)
Definition two_requests : list PoolEvent :=
  [begin PHttp; begin PHttp; At (pool_key_of PHttp) (Acquired 0); At (pool_key_of PHttp) (Connected 0 (Some h1_stream))].
Example pool_waits : (s ← pool_after 1 Http1 PHttp two_requests; acquired 1 s) = None.
Proof. by vm_compute. Qed.
Example pool_reuses :
  (s ← pool_after 1 Http1 PHttp (two_requests ++ [At (pool_key_of PHttp) (Freed 0); At (pool_key_of PHttp) (PermitBack 0); At (pool_key_of PHttp) (Acquired 1)]);
   Some (h1_list s, snd <$> tasks s)) = Some ([0%Z], [Finished; Holding 0]).
Proof. by vm_compute. Qed.

(** One that was shut down is not used again, and leaves the list. *)
Example pool_drops_shut_down :
  (s ← pool_after 1 Http1 PHttp (two_requests ++ [At (pool_key_of PHttp) (ShutDown1 0); At (pool_key_of PHttp) (Freed 0); At (pool_key_of PHttp) (PermitBack 0);
      At (pool_key_of PHttp) (Acquired 1); At (pool_key_of PHttp) (Connected 1 (Some h1_stream))]);
   Some (h1_list s, snd <$> tasks s)) = Some ([1%Z], [Finished; Holding 1]).
Proof. by vm_compute. Qed.

(** A server that speaks HTTP/2 gets one connection for two requests. *)
Example pool_shares :
  (s ← pool_after 6 Negotiate PHttps ([begin PHttps; begin PHttps] ++ (At (pool_key_of PHttps) <$> [Locked 0; Locked 0; Acquired 0; Connected 0 (Some h2_stream); Locked 1; Locked 1]));
   Some (h2_conn s, usable s, snd <$> tasks s)) = Some ([0%Z], 6, [Sharing 0; Sharing 0]).
Proof. by vm_compute. Qed.

(** Connections that the peer is closing stay in the list for ever: only the last one
    is looked at, and a new one is put behind it. *)
Example pool_goaway_stays :
  (s ← pool_after 6 Http2 PHttps ([begin PHttps; begin PHttps; begin PHttps] ++ (At (pool_key_of PHttps) <$>
      [Locked 0; Connected 0 (Some h2_stream); GoawayMux 0; Locked 1; Connected 1 (Some h2_stream); ShutDownMux 0; GoawayMux 1; Locked 2; Connected 2 (Some h2_stream); ShutDownMux 1]));
   Some (h2_conn s, mux_shutdown <$> muxes s !! 0%Z)) = Some ([0; 1; 2]%Z, Some true).
Proof. by vm_compute. Qed.

Lemma pool_safe_witness :
  match pool_after 1 Http1 PHttp two_requests with
  | Some s =>
      (∀ i j ui uj d, tasks s !! i = Some (ui, Holding d) → tasks s !! j = Some (uj, Holding d) → i = j) ∧
      usable s + total has_permit (tasks s) = 1 ∧
      length (open_of (inners s) (h1_list s)) + total opening (tasks s) ≤ 1 ∧
      (∀ i url ph, 0 < 1 → tasks s !! i = Some (url, ph) → waits ph = true →
        ∃ j uj q, tasks s !! j = Some (uj, q) ∧ (busy q = true ∨ is_Some (react (Acquired j) s) ∨ is_Some (react (Locked j) s)))
  | None => False
  end.
Proof.
  unfold pool_after. destruct (pool_run two_requests (ConnPool_new 1 Http1)) as [p|] eqn:Hrun; [|vm_compute in Hrun; discriminate Hrun].
  destruct (pool p !! pool_key_of PHttp) as [s|] eqn:Hs; [|].
  - exact (pool_safe 1 Http1 two_requests p (pool_key_of PHttp) s Hrun Hs).
  - vm_compute in Hrun. injection Hrun as <-. vm_compute in Hs. discriminate Hs.
Defined.
